(* ===== verification/_CoqProject ===== *)
-Q . S2P
Prelude.v
Bytes.v
BinderIO.v
ServiceManager.v
BinderLoop.v
CLib.v
Platform.v
Fts.v
InstalldPaths.v
InstalldFs.v
Quota.v
Cache.v
FreeCache.v
StorageMounts.v
World.v
AppPaths.v
SimpleFs.v
AppData.v
Snapshots.v
MoveApp.v
Fixup.v
MediaExt.v
Stats.v
OtaParameters.v
DexPaths.v
Dex2oat.v
Descriptors.v
ProcFs.v
Profiles.v
Artifacts.v
SecondaryDex.v
Dexopt.v
DexoptFiles.v
CodeFiles.v
OtaMain.v
Backup.v
ReplayEvent.v
ReplayScheduler.v
Replayer.v
ReplayOrder.v
ReplayInvariant.v
ReplayEffects.v
ReplayLiveness.v
LshalTable.v
LshalPids.v
LshalList.v
LshalFetch.v
LshalMain.v
LshalPost.v
DumpProgress.v
DumpSystem.v
DumpOptions.v
DumpCommands.v
DumpZip.v
Dumpsys.v
DumpSections.v
DumpRun.v
DumpSafety.v
Bugreportz.v
DumpControl.v
