(* ===== verification/Prelude.v ===== *)
(** Verification of the command line tools and daemons of [cmds]: the service
    manager, the package installer daemon, the raw backup tool, the surface
    replayer, the lister of hardware services and the maker of bug reports.

    * The program and its parts

    The repository holds the native commands of the platform. Three of them
    keep state and check what untrusted callers give them, a fourth has
    threads that wait for each other, a fifth gathers what many sources say,
    and a sixth hands private data to a caller if the user agrees. These are
    modelled; C<n> are the theorems listed with the development.

    - [servicemanager/] is the context manager of the binder driver: it
      reads commands from the driver, unmarshals requests and keeps the list
      of the registered services.
    - [installd/] creates, measures, cleans, moves and compiles the data and
      the code of applications on behalf of the package manager; its command
      [otapreopt] decodes the argument vectors of ten protocol versions and
      compiles for the other slot of an update.
    - [rawbu/] writes the data partition to a file and restores it.
    - [surfacereplayer/] replays a trace of what happened to SurfaceFlinger.
    - [lshal/] lists the hardware services (HALs), with their processes,
      from the service managers, the binder driver and the VINTF manifests.
    - [dumpsys/] relays what services say of themselves.
    - [dumpstate/] makes a bug report from the output of programs, files and
      services, for a file, a socket or a caller that needs the consent of
      the user; [bugreport/] and [bugreportz/] start it and relay what it
      says.

    * Files

    In the order of their dependencies:

    - [Prelude]: strings, machine integers, list, map and sorting lemmas,
      the tactics and hint databases.
    - [Bytes]: byte-addressed memory, little-endian words, arrays of units.
    - [BinderIO]: [bio_*] of [binder.c] on a cursor and a memory. C20 says
      that the receiver reads what the sender wrote, C21 that writes stay in
      the buffer, [bio_get_string16_in_bounds] that a string that is
      returned lies in the message.
    - [ServiceManager]: [service_manager.c], the list of services and
      [svcmgr_handler]. The specification is a map from names to entries
      ([registry]); C22 and [death_refines] say that registration and death
      notification refine it, as lookup does ([find_service_refines]); C9:
      driver references are balanced in every reachable state ([sm_step],
      [sm_reachable]). The death callback uses the pointer that it is given
      without a look: [svcinfo_death] has no result where it is no entry's.
      Whole transactions are the [handler_*] theorems.
    - [BinderLoop]: [binder_parse], [binder_send_reply], [binder_loop] and
      [binder_call], generic in the process they serve; [ServerInvariant] is
      what a process promises to the loop, and the service manager is an
      instance. A run ends, waits or is [Wild]: it has followed the pointer
      of a death notification that is no entry's. C5: whatever is delivered,
      the parser ends, the registry stays reachable, and the loop goes wild
      only on a pointer that was never registered. C36: a lookup from the
      read buffer to the handle that the client unmarshals.
    - [CLib], [Platform]: [strtol] and its relatives; user ids, [stat],
      [dirent], error numbers.
    - [Fts]: the [fts(3)] cursor on a tree. [fts_loop] is the loop of the
      sources over [fts_read] with [FTS_SKIP]; [fts_loop_spec] turns it into
      a recursion on the tree, which measuring, purging and repairing use.
    - [InstalldPaths]: [globals.cpp], the path builders and validators of
      [utils.cpp], the argument checks of [InstalldNativeService.cpp].
      [ce_package_path_injective]: distinct applications have distinct
      directories; [validate_apk_path_spec] and C23: exactly which paths the
      validators accept, the second for each storage. The grammar of package
      names and the form of the directories of the globals are
      [package_name_grammar] and [globals_dirs_valid].
    - [InstalldFs]: measuring ([calculate_tree_size_spec]), deleting
      ([delete_dir_contents_spec]), inode attributes, cache directory
      repair, profiles, of [utils.cpp].
    - [Quota]: [QuotaUtils.cpp], the map of the mounts and its parser
      ([quota_mounts_parsed]). Maps that differ by empty devices are equal
      to every observer: [mounts_equiv] with its [Proper] instances.
    - [Cache]: [CacheItem.cpp] and [CacheTracker.cpp], items in a heap with
      parent pointers. [load_items_spec]: what is loaded;
      [parents_precede_children]: parents come before their children in the
      order in which they are purged; [purge_spec]: what a purge does.
    - [FreeCache]: [freeCache] and [setAppQuota]. C8: which purges happen,
      C24: the loop ends, C25: what the result says of the disk.
    - [World]: the calls on the file system as a type ([call]), a class of
      worlds that answer them, the monad [io] of code that makes them, and
      its logics: [wp], [wlp] and the frame [within]. [WorldOk] is what the
      code relies on.
    - [AppPaths], [SimpleFs]: the directories of applications and when they
      are apart; a file system that satisfies [WorldOk].
    - [AppData]: [createAppData], [migrateAppData], [clearAppData]
      ([clearAppData_contract]), [destroyAppData] (C27) and their relatives.
    - [Snapshots]: C28, what a restore leaves is what the snapshot saved.
    - [MoveApp]: C1, a move is all or nothing.
    - [Fixup]: [fixupAppData]; C29: the traversal is a recursion on the
      tree.
    - [MediaExt]: the generated switches of [MatchExtensionGen.h] against
      the lists of [matchgen.py].
    - [Stats]: the measurements [getAppSize], [getUserSize],
      [getExternalSize], in a state and error monad ([external_sizes_spec]).
    - [OtaParameters]: [otapreopt_parameters.cpp]. [post_v1_arguments_spec]:
      which argument vectors are accepted and what they mean,
      [read_arguments_total]: none is read past its end.
    - [DexPaths]: where compiled code goes. [oat_file_path_spec]: the path
      of the code of an apk; [OatPaths] is the plug-in interface that the
      daemon and [otapreopt] implement, and C30 says that the two agree.
    - [Dex2oat]: the argument vectors of the tools of the runtime; C31: the
      compiler reads back the request.
    - [Descriptors]: open descriptors and forked children ([Process]) and
      the logic [moves] that accounts for both; [ProcFs]: a world with them.
    - [Profiles]: clearing, merging, dumping and preparing profiles
      ([profile_requests_contract], [merge_needs_verdict]).
    - [Artifacts]: moving and deleting compiled code (C32).
    - [SecondaryDex]: dex files that an application loads by itself:
      [reconcile_secondary_contract] and [hash_secondary_contract].
    - [Dexopt]: [dexopt] itself with the destructors of its locals. C33: no
      descriptor leaks on any path. What a failure leaves of the artifacts
      is [result]. [DexoptFiles]: which files the compiler is given.
      [FdFiles] records what each descriptor was opened for, which any world
      can do ([traced]); C6: success means that the compiler ran for the
      request, with the files of the request behind its descriptors
      ([compiled_for]), and no failure leaves a half-written artifact.
    - [StorageMounts]: [invalidateMounts]; [storage_mounts_parsed]: what the
      two tables of mounts hold.
    - [CodeFiles]: oat directories, links, native libraries, idmaps
      ([idmap_contract]) and the hash trees of packages (C34);
      [flatten_path_spec]: the names of idmaps, [code_requests_confined]:
      where these requests may change anything.
    - [OtaMain]: the main program of [otapreopt]. [ota_environment_spec]:
      the properties and names it starts with, [relocation_in_bounds]: the
      offset of its boot image, C35: what its result says of the artifacts.
    - [Backup]: [backup.cpp]. C4: a successful backup restores, C26: a file
      that was cut is refused; [wipe_keeps]: what a wipe keeps.
    - [ReplayEvent]: [surfacereplayer/replayer/Event.cpp], with its
      condition variable. C37: no wake-up is lost, [event_refines]: waiting
      is a guard, which is how the files below use it.
    - [ReplayScheduler]: [BufferQueueScheduler.cpp], the thread of a layer;
      C38: its buffers are handled in order.
    - [Replayer]: [Replayer.cpp], a step relation ([step]) between the main
      thread, a thread per increment, a thread per layer and the console.
      [ReplayOrder] has what holds of every trace (C7: increments take
      effect in order), [ReplayInvariant] what holds of a well-formed one,
      [ReplayEffects] the calls that have been made. When [replay] has
      returned the process ends ([Ended]), and no thread goes on.
      [ReplayLiveness]: every step lowers a weight and no state before the
      end is stuck, so that every replay ends (C3, which says what has been
      done by then; [last_call_lost] is a run whose last call the end cuts
      off). The index of the increment to dispatch is the [int] of the code,
      which a trace and a number of threads of 2^31 together would overflow
      ([wf_width], [ahead_wraps]); a number of threads below 0 is like 0.
    - [LshalTable]: the tables of [lshal] ([utils.cpp], [TextTable.cpp],
      [TableEntry.cpp]): [text_table_layout], how they are printed, and
      [neat_output_words], how they are read back.
    - [LshalPids]: the files of the binder driver ([getPidInfo] with its
      regular expressions as lists of items) and [libprocpartition]; C39:
      what the driver prints is understood.
    - [LshalList]: [ListCommand.cpp] up to [fetch], in the monad [M] of code
      that can dereference null; [answers] is the logic of code that does no
      more than ask. [LshalFetch]: C10 and [lazy_hals_unavailable], what the
      tables hold after fetching.
    - [LshalMain]: [postprocess], the options, the output and the other
      commands. [LshalPost]: C40, what [postprocess] makes of the tables,
      and C11, which state the options leave.
    - [DumpProgress]: the class [Progress] of [dumpstate/utils.cpp] in
      single precision; C17: its statistics survive a run.
    - [DumpSystem]: what [dumpstate] asks of the device ([request], answered
      by a [System] that sees all requests so far), its state and its monad
      [D]; [effects] is the logic of what a function may ask for and change.
    - [DumpOptions]: options, modes and properties; C15: what a command line
      means, [init_services_valid]: which configurations of the services are
      valid.
    - [DumpCommands]: commands with time limits, files and processes, of
      [utils.cpp], [DumpstateUtil.cpp] and [DumpstateInternal.cpp]; C13: the
      progress that is reported.
    - [DumpZip]: the entries of the archive, and its end.
    - [Dumpsys]: [dumpsys/dumpsys.cpp], the dumps of services for the
      command [dumpsys] and for [dumpstate]; C19: they take turns and leave
      no thread and no pipe behind, and exactly the services that are there
      are dumped, [listServices_spec]: which services are listed.
    - [DumpSections]: the sections of the reports, in their order;
      [section_request] is what a section may ask for.
    - [DumpRun]: a run from its options to its last word ([RunInternal], in
      the pieces [start_run], [dump_report], [share_report] and
      [finish_run]), and the calls of [DumpstateService.cpp]. A run has a
      status, or none where the process goes down: the digest of a report
      that cannot be read is a null pointer where a string is made of it,
      and the search for the trace of [anrd] reads a directory that was not
      opened ([newest_trace]).
    - [DumpSafety]: C2, C14 and C18, with examples of runs in which the user
      agrees, denies or does not answer, and of the remote run that goes
      down when the user agrees ([approved_remote_goes_down]).
    - [Bugreportz]: the two relays; C16: what is shown of what is received.
      [DumpControl] composes them with a run: C12, which line [bugreportz]
      ends with.

    * Conventions

    A definition has the name of the function it models. State is passed
    explicitly; [None] is a failed [CHECK], an undefined read or, where a
    function has fuel, the end of the fuel. Integers are [Z] with the
    conversions of the code written out ([u32], [i32], [i64], [usz]). Code
    that is not in the repository is a class with laws ([BinderABI],
    [BinderProtocol], [Multiuser], [AidRanges], [QueueOk], [WorldOk],
    [ProcessOk], [FileOps], [FdFilesOk], [DexReads]) or a section variable;
    each law is instantiated by a witness. What a system call answers is a
    function of the state it looks at, so that it can differ from call to
    call. A forked child runs to its end before its parent goes on, with a
    copy of the descriptors; a child that aborts in a [CHECK] is not
    described.

    * Fuel

    - [parse_loop]: the size of the buffer plus one; every command takes
      four bytes ([parse_loop_total]).
    - [fts_loop]: the visits left ([todos_size]), which every [fts_read]
      lowers ([fts_loop_spec]).
    - [bounce_loop]: the amount that C24 gives for a state; every round
      purges an item, empties a tracker or activates a tracker of the queue.
    - [buildPath]: the length of the heap, as parents precede children.
    - [validate_apk_path_internal]: [validate_apk_path_spec] gives two
      rounds, as an expanded path becomes one of [/data].
    - [dump_files_at]: a path is shorter than 4096 characters, and a level
      adds two.
    - [repeat_until], of [dumpstate], counts with a binary number: 2^31 for
      the number of a trace, which is an [int], and 2^63 for a file that
      grows ([trace_wait_ends]: sizes are 64 bits wide).
    - [mounts_loop], [restore_loop], [copy_loop]: the length of the input;
      every round reads some of it ([restore_loop_total],
      [copy_loop_enough]). [wipe] recurses on directories: its fuel bounds
      the depth of the partition, and the theorems hold for any that
      suffices.

    * Not modelled

    [copy_system_profile] and the wording of error messages in [dexopt.cpp];
    [otapreopt_chroot] and the set-up of [installd.cpp], which are system
    calls from their first line to their last; the logging of [otapreopt].
    [atrace] and [rss_hwm_reset] write to files of the kernel by fixed tables,
    [flatland] measures the graphics driver, [service] and [cmd] are front
    ends of binder calls whose work is done in libraries. In the replayer the
    time stamps are not slept on, colours are a parameter, and its options
    ([Main.cpp]), with the one to repeat the replay, are left out. In [lshal]
    messages to the error stream, the threads of [PipeRelay.cpp] and
    [Timeout.h] and the texts of the help are left out; what services and the
    libraries of HIDL, VINTF and hashes answer is a parameter.

    In [dumpstate] a descriptor is known by where it comes from, and the
    pieces that [read] returns are the system's. Logs, durations and the
    priority of the process are left out. What prints to the report only, by
    formats of its own ([show_wchan], [show_showtime], the kernel log, the
    statistics of block devices and of the eMMC), is a request [Prints]. A
    child of [fork] is [child], and what it prints as another process is not
    part of the parent's run. The calls of the user's answer and of
    [setListener] from other threads are seen where the run asks for them.

    Logging, tracing, locks and the SELinux calls that are never reached are
    left out of the modelled functions. Allocation failures are modelled where
    the code handles them. *)

From Stdlib Require Export ZArith Lia Ascii.
From stdpp Require Export base tactics list strings gmap pretty sorting.

#[export] Set Default Goal Selector "!".

(** * Strings

    A C string or [std::string] is the list of its characters; [lit] turns a
    Rocq string literal into one. *)

Abbreviation str := (list ascii).

Definition lit (s : string) : str := String.list_ascii_of_string s.

Declare Scope cmds_scope.
Delimit Scope cmds_scope with cmds.

Definition str_eqb (a b : str) : bool := bool_decide (a = b).
Infix "=s?" := str_eqb (at level 60, no associativity) : cmds_scope.
Open Scope cmds_scope.

Definition code (c : ascii) : Z := Z.of_N (N_of_ascii c).

Definition slash : ascii := "/"%char.
Definition dot : ascii := "."%char.

(** [std::string::find(c, from)]; [None] is [npos]. *)
Fixpoint find_char_aux (c : ascii) (s : str) (i : nat) : option nat :=
  match s with
  | [] => None
  | x :: s' => if Ascii.eqb x c then Some i else find_char_aux c s' (S i)
  end.

Definition find_char (c : ascii) (s : str) (from : nat) : option nat :=
  find_char_aux c (drop from s) from.

(** [std::string::rfind(c)]. *)
Fixpoint rfind_char_aux (c : ascii) (s : str) (i : nat) (best : option nat) : option nat :=
  match s with
  | [] => best
  | x :: s' => rfind_char_aux c s' (S i) (if Ascii.eqb x c then Some i else best)
  end.

Definition rfind_char (c : ascii) (s : str) : option nat := rfind_char_aux c s 0 None.

Fixpoint prefixb (p s : str) : bool :=
  match p, s with
  | [], _ => true
  | x :: p', y :: s' => Ascii.eqb x y && prefixb p' s'
  | _, _ => false
  end.

(** [s.find(sub) != npos]. *)
Fixpoint has_substr (sub s : str) : bool :=
  prefixb sub s || match s with [] => false | _ :: s' => has_substr sub s' end.

Definition ends_with (s suf : str) : bool :=
  (length suf <=? length s)%nat && (drop (length s - length suf) s =s? suf).

(** The pieces of [s] between the occurrences of [c]. *)
Fixpoint split_on (c : ascii) (s : str) : list str :=
  match s with
  | [] => [[]]
  | x :: s' =>
      if Ascii.eqb x c then [] :: split_on c s'
      else match split_on c s' with
           | h :: t => (x :: h) :: t
           | [] => [[x]]
           end
  end.

(** The components of a path, with an empty one before a leading slash. *)
Definition comps (p : str) : list str := split_on slash p.

(** At or below a path. *)
Definition below (q p : str) : Prop := p = q \/ exists rest, p = q ++ slash :: rest.

(** Decimal printing, [%u] and [%d]. *)
Definition fmt_u (n : N) : str := lit (pretty n).
Definition fmt_d (z : Z) : str := lit (pretty z).

(** * Machine integers *)

Definition u8 (z : Z) : Z := (z mod 2 ^ 8)%Z.
Definition u16 (z : Z) : Z := (z mod 2 ^ 16)%Z.
Definition u32 (z : Z) : Z := (z mod 2 ^ 32)%Z.
Definition u64 (z : Z) : Z := (z mod 2 ^ 64)%Z.

(** Two's complement reading of the low [w] bits. *)
Definition sgn (w z : Z) : Z :=
  (let r := z mod 2 ^ w in if r <? 2 ^ (w - 1) then r else r - 2 ^ w)%Z.

Definition i32 (z : Z) : Z := sgn 32 z.
Definition i64 (z : Z) : Z := sgn 64 z.

(** C's test of an integer used as a condition. *)
Definition nz (z : Z) : bool := negb (z =? 0)%Z.

(** * Automation *)

Create HintDb cmds.

(** Destruct the scrutinee of a match or a condition in the goal. *)
Ltac dm :=
  match goal with
  | |- context [match ?x with _ => _ end] => destruct x eqn:?
  end.

(** The same in a hypothesis. *)
Ltac dmh H :=
  match type of H with
  | context [match ?x with _ => _ end] => destruct x eqn:?
  end.

(** Turn boolean comparisons of the context into propositions. *)
Ltac bool_props :=
  repeat match goal with
  | H : andb _ _ = true |- _ => apply andb_true_iff in H as [? ?]
  | H : orb _ _ = false |- _ => apply orb_false_iff in H as [? ?]
  | H : negb _ = true |- _ => apply negb_true_iff in H
  | H : negb _ = false |- _ => apply negb_false_iff in H
  | H : (_ =? _)%Z = true |- _ => apply Z.eqb_eq in H
  | H : (_ =? _)%Z = false |- _ => apply Z.eqb_neq in H
  | H : (_ <? _)%Z = true |- _ => apply Z.ltb_lt in H
  | H : (_ <? _)%Z = false |- _ => apply Z.ltb_ge in H
  | H : (_ <=? _)%Z = true |- _ => apply Z.leb_le in H
  | H : (_ <=? _)%Z = false |- _ => apply Z.leb_gt in H
  | H : (_ >? _)%Z = true |- _ => rewrite Z.gtb_ltb in H
  | H : (_ >? _)%Z = false |- _ => rewrite Z.gtb_ltb in H
  | H : (_ >=? _)%Z = true |- _ => rewrite Z.geb_leb in H
  | H : (_ >=? _)%Z = false |- _ => rewrite Z.geb_leb in H
  | H : (_ =? _)%nat = true |- _ => apply Nat.eqb_eq in H
  | H : (_ =? _)%nat = false |- _ => apply Nat.eqb_neq in H
  | H : (_ <? _)%nat = true |- _ => apply Nat.ltb_lt in H
  | H : (_ <? _)%nat = false |- _ => apply Nat.ltb_ge in H
  | H : (_ <=? _)%nat = true |- _ => apply Nat.leb_le in H
  | H : (_ <=? _)%nat = false |- _ => apply Nat.leb_gt in H
  | H : Ascii.eqb _ _ = true |- _ => apply Ascii.eqb_eq in H
  | H : Ascii.eqb _ _ = false |- _ => apply Ascii.eqb_neq in H
  | H : bool_decide _ = true |- _ => apply bool_decide_eq_true in H
  | H : bool_decide _ = false |- _ => apply bool_decide_eq_false in H
  end.

(** * Generic lemmas *)

Section Strings.
Implicit Types (s p t : str) (c : ascii).

Lemma str_eqb_eq s t : s =s? t = true <-> s = t.
Proof. apply bool_decide_eq_true. Qed.

Lemma str_eqb_neq s t : s =s? t = false <-> s <> t.
Proof. apply bool_decide_eq_false. Qed.

Lemma str_eqb_refl s : s =s? s = true.
Proof. by apply str_eqb_eq. Qed.

Lemma prefixb_spec p s : prefixb p s = true <-> exists t, s = p ++ t.
Proof.
  revert s. induction p as [|x p IH]; intros s; simpl.
  { split; [by exists s|done]. }
  destruct s as [|y s]; [split; [done|by intros [? ?]]|].
  rewrite andb_true_iff, IH, Ascii.eqb_eq. split.
  - intros [-> [t ->]]. by exists t.
  - intros [t [= -> ->]]. split; [done|by exists t].
Qed.

Lemma prefixb_app p s : prefixb p (p ++ s) = true.
Proof. apply prefixb_spec. by exists s. Qed.

Lemma prefixb_length p s : prefixb p s = true -> (length p <= length s)%nat.
Proof. intros [t ->]%prefixb_spec. rewrite length_app. lia. Qed.

Lemma has_substr_spec p s : has_substr p s = true <-> exists a b, s = a ++ p ++ b.
Proof.
  induction s as [|x s IH]; simpl; rewrite orb_true_iff, prefixb_spec.
  - split.
    + intros [[t Ht]|?]; [|done]. by exists [], t.
    + intros (a & b & Hab). left. symmetry in Hab.
      apply app_eq_nil in Hab as [-> [-> ->]%app_eq_nil]. by exists [].
  - rewrite IH. split.
    + intros [[t Ht]|(a & b & ->)]; [by exists [], t|by exists (x :: a), b].
    + intros (a & b & Hab). destruct a as [|y a]; simpl in Hab.
      * left. by exists b.
      * injection Hab as -> ->. right. by exists a, b.
Qed.

Lemma find_char_aux_shift c s i :
  find_char_aux c s i = (λ j, i + j)%nat <$> find_char_aux c s 0.
Proof.
  revert i. induction s as [|x s IH]; intros i; simpl; [done|].
  destruct (Ascii.eqb x c); simpl; [by rewrite Nat.add_0_r|].
  rewrite IH, (IH 1%nat). destruct (find_char_aux c s 0); simpl; [f_equal; lia|done].
Qed.

Lemma find_char_aux_None c s i : find_char_aux c s i = None <-> c ∉ s.
Proof.
  revert i. induction s as [|x s IH]; intros i; simpl; [by split; [set_solver|]|].
  destruct (Ascii.eqb_spec x c) as [->|Hne]; [by split; [|set_solver]|].
  rewrite IH. set_solver.
Qed.

Lemma find_char_aux_Some c s i j :
  find_char_aux c s i = Some j <->
  exists a b, s = a ++ (c :: b) /\ c ∉ a /\ (j = i + length a)%nat.
Proof.
  revert i. induction s as [|x s IH]; intros i; simpl.
  { split; [done|]. by intros ([|? ?] & ? & ? & _). }
  destruct (Ascii.eqb_spec x c) as [->|Hne].
  - split.
    + intros [= <-]. exists [], s. split_and!; [done|set_solver|simpl; lia].
    + intros (a & b & Hs & Hni & ->). destruct a as [|y a]; simpl in *; [f_equal; lia|].
      injection Hs as -> ->. set_solver.
  - rewrite IH. split.
    + intros (a & b & -> & Hni & ->). exists (x :: a), b.
      split_and!; [done|set_solver|simpl; lia].
    + intros (a & b & Hs & Hni & ->). destruct a as [|y a]; simpl in *; [by injection Hs as -> ->|].
      injection Hs as -> ->. exists a, b. split_and!; [done|set_solver|simpl; lia].
Qed.

Lemma find_char_None c s : find_char c s 0 = None <-> c ∉ s.
Proof. unfold find_char. rewrite drop_0. apply find_char_aux_None. Qed.

Lemma ascii_eqb_refl c : Ascii.eqb c c = true.
Proof. by apply Ascii.eqb_eq. Qed.

(** The first [c] of a string is where it is. *)
Lemma first_occurrence c a b s t :
  c ∉ a -> c ∉ b -> a ++ c :: s = b ++ c :: t -> a = b /\ s = t.
Proof.
  revert b. induction a as [|x a IH]; intros b Ha Hb H; destruct b as [|y b]; simpl in H.
  - by injection H.
  - injection H as -> _. set_solver.
  - injection H as <- _. set_solver.
  - injection H as -> H. apply IH in H as [-> ->]; set_solver.
Qed.

Lemma first_occurrence_le c a b s t :
  c ∉ a -> a ++ c :: s = b ++ c :: t -> (exists b', b = a ++ b' /\ c :: s = b' ++ c :: t).
Proof.
  revert b. induction a as [|x a IH]; intros b Ha H.
  - by exists b.
  - destruct b as [|y b]; simpl in H.
    + injection H as <- _. set_solver.
    + injection H as -> H. apply IH in H as (b' & -> & H); [|set_solver]. by exists b'.
Qed.

(** The last [c] of a string is where it is. *)
Lemma last_occurrence c a b s t :
  c ∉ s -> c ∉ t -> a ++ c :: s = b ++ c :: t -> a = b /\ s = t.
Proof.
  intros Hs Ht H. apply (f_equal (@rev ascii)) in H. rewrite !rev_app_distr in H. simpl in H.
  rewrite <- !app_assoc in H. apply first_occurrence in H as [E1 E2].
  - apply (f_equal (@rev ascii)) in E1, E2. by rewrite !rev_involutive in *.
  - by rewrite list_elem_of_In, <- in_rev, <- list_elem_of_In.
  - by rewrite list_elem_of_In, <- in_rev, <- list_elem_of_In.
Qed.

Lemma prefixb_app_sep c w a b : c ∉ w -> prefixb w (a ++ c :: b) = prefixb w a.
Proof.
  revert a. induction w as [|x w IH]; intros a Hw; [done|]. destruct a as [|y a]; simpl.
  - apply andb_false_iff. left. apply Ascii.eqb_neq. set_solver.
  - f_equal. apply IH. set_solver.
Qed.

(** A pattern without [c] does not straddle a [c]. *)
Lemma has_substr_app_sep c w a b :
  w <> [] -> c ∉ w -> has_substr w (a ++ c :: b) = has_substr w a || has_substr w b.
Proof.
  intros Hw Hc. induction a as [|x a IH].
  - destruct w as [|y w]; [done|]. simpl. destruct (Ascii.eqb_spec y c); [set_solver|]. done.
  - cbn [app has_substr]. rewrite IH, orb_assoc. do 2 f_equal.
    apply (prefixb_app_sep c w (x :: a) b Hc).
Qed.

Lemma find_char_from c s n :
  find_char c s n = (λ j, n + j)%nat <$> find_char c (drop n s) 0.
Proof. unfold find_char. rewrite drop_0. apply find_char_aux_shift. Qed.

Lemma find_char_Some c s j :
  find_char c s 0 = Some j <-> exists a b, s = a ++ (c :: b) /\ c ∉ a /\ (j = length a)%nat.
Proof. unfold find_char. rewrite drop_0. apply find_char_aux_Some. Qed.

Lemma split_on_cases c s :
  (c ∉ s /\ split_on c s = [s]) \/
  exists h r, s = h ++ c :: r /\ c ∉ h /\ split_on c s = h :: split_on c r.
Proof.
  induction s as [|x s IH]; simpl; [left; split; [set_solver|done]|].
  destruct (Ascii.eqb_spec x c) as [->|Hne].
  - right. exists [], s. split_and!; [done|set_solver|done].
  - destruct IH as [[Hn ->]|(h & r & -> & Hh & ->)].
    + left. split; [set_solver|done].
    + right. exists (x :: h), r. split_and!; [done|set_solver|done].
Qed.

Lemma split_on_nonempty c s : split_on c s <> [].
Proof. destruct (split_on_cases c s) as [[_ ->]|(h & r & _ & _ & ->)]; done. Qed.

(** The components after a number of them are those of a string. *)
Lemma split_on_suffix c s l x l' : split_on c s = l ++ x :: l' -> exists t, x :: l' = split_on c t.
Proof.
  remember (length s) as n eqn:En. revert s En l. induction n as [n IH] using lt_wf_ind. intros s -> l H.
  destruct l as [|y l]; [by exists s|].
  destruct (split_on_cases c s) as [[_ E]|(h & r & -> & _ & E)]; rewrite E in H; injection H as _ H.
  - by destruct l.
  - apply (IH (length r)) in H; [done|rewrite length_app; simpl; lia|done].
Qed.

Lemma split_on_app c s t : split_on c (s ++ c :: t) = split_on c s ++ split_on c t.
Proof.
  remember (length s) as n eqn:En. revert s En. induction n as [n IH] using lt_wf_ind. intros s ->.
  destruct (split_on_cases c s) as [[Hn E]|(h & r & -> & Hh & E)].
  - rewrite E. destruct (split_on_cases c (s ++ c :: t)) as [[Hs _]|(h & r & Es & Hh & ->)]; [set_solver|].
    apply first_occurrence in Es as [-> ->]; [done..|by intros Hs; apply Hh; rewrite <- ?Hs].
  - rewrite E, <- app_assoc. cbn [app].
    destruct (split_on_cases c (h ++ c :: r ++ c :: t)) as [[Hs _]|(h' & r' & Es & Hh' & ->)]; [set_solver|].
    apply first_occurrence in Es as [<- <-]; [|done..]. f_equal.
    apply (IH (length r)); [rewrite length_app; simpl; lia|done].
Qed.

Lemma split_on_single c s : c ∉ s -> split_on c s = [s].
Proof. intros Hs. destruct (split_on_cases c s) as [[_ E]|(h & r & -> & _)]; [done|set_solver]. Qed.

Lemma comps_join p name : slash ∉ name -> comps (p ++ slash :: name) = comps p ++ [name].
Proof. intros Hn. unfold comps. by rewrite split_on_app, (split_on_single _ name). Qed.

(** A path is determined by its components. *)
Lemma comps_inj p q : comps p = comps q -> p = q.
Proof.
  unfold comps. remember (length p) as n eqn:En. revert p q En. induction n as [n IH] using lt_wf_ind. intros p q -> H.
  destruct (split_on_cases slash p) as [[_ E]|(h & r & -> & _ & E)], (split_on_cases slash q) as [[_ E']|(h' & r' & -> & _ & E')];
    rewrite E, E' in H.
  - by injection H.
  - injection H as _ H. by destruct (split_on_nonempty slash r').
  - injection H as _ H. by destruct (split_on_nonempty slash r).
  - injection H as -> H. do 2 f_equal. apply (IH (length r)); [rewrite length_app; simpl; lia|done|done].
Qed.

Lemma below_comps q p : below q p <-> exists l, comps p = comps q ++ l.
Proof.
  split.
  - intros [->|[rest ->]]; [exists []; by rewrite app_nil_r|]. exists (comps rest). apply split_on_app.
  - intros [l H]. destruct l as [|x l]; [left; apply comps_inj; by rewrite app_nil_r in H|right].
    assert (Hl : exists s, x :: l = comps s).
    { exact (split_on_suffix slash p (comps q) x l H). }
    destruct Hl as [s Hl]. exists s. apply comps_inj. unfold comps in *. by rewrite split_on_app, H, Hl.
Qed.

Lemma below_refl p : below p p.
Proof. by left. Qed.

Lemma below_trans p q r : below p q -> below q r -> below p r.
Proof. rewrite !below_comps. intros [l ->] [l' ->]. exists (l ++ l'). by rewrite app_assoc. Qed.

Lemma below_join_r p name : below p (p ++ slash :: name).
Proof. right. by exists name. Qed.

Lemma split_on_no_sep c s w : w ∈ split_on c s -> c ∉ w.
Proof.
  remember (length s) as n eqn:En. revert s En. induction n as [n IH] using lt_wf_ind. intros s ->.
  destruct (split_on_cases c s) as [[Hn ->]|(h & r & -> & Hh & ->)].
  - intros ->%list_elem_of_singleton. done.
  - intros [->|Hin]%elem_of_cons; [done|]. eapply (IH (length r)); [|done|done].
    rewrite length_app. simpl. lia.
Qed.

(** A piece of [s] is a substring delimited by separators. *)
Lemma split_on_substr c s w :
  c ∉ w -> w ∈ split_on c s <-> exists a b, c :: s ++ [c] = a ++ c :: w ++ c :: b.
Proof.
  intros Hw. remember (length s) as n eqn:En. revert s En.
  induction n as [n IH] using lt_wf_ind. intros s ->.
  destruct (split_on_cases c s) as [[Hn ->]|(h & r & -> & Hh & ->)].
  - rewrite list_elem_of_singleton. split.
    + intros ->. by exists [], [].
    + intros (a & b & H). destruct a as [|y a]; simpl in H; injection H.
      * intros H'. by apply first_occurrence in H' as [-> _].
      * intros H' <-. apply (first_occurrence_le c s a) in H' as (a' & -> & H'); [|done].
        destruct a' as [|z a']; simpl in H'; injection H'.
        -- intros E. by destruct w.
        -- intros E _. by destruct a'.
  - rewrite elem_of_cons, (IH (length r)) by (rewrite ?length_app; simpl; lia || done).
    rewrite <- app_assoc. cbn [app]. split.
    + intros [->|(a & b & H)].
      * exists [], (r ++ [c]). done.
      * exists (c :: h ++ a), b. rewrite H. simpl. by rewrite <- app_assoc.
    + intros (a & b & H). destruct a as [|y a]; simpl in H; injection H.
      * intros H'. left. by apply first_occurrence in H' as [-> _].
      * intros H' <-. right. apply (first_occurrence_le c h a) in H' as (a' & -> & H'); [|done].
        by exists a', b.
Qed.

Lemma rfind_char_aux_spec c s i best :
  rfind_char_aux c s i best =
  match rfind_char_aux c s 0 None with Some j => Some (i + j)%nat | None => best end.
Proof.
  revert i best. induction s as [|x s IH]; intros i best; simpl; [done|].
  rewrite IH, (IH 1%nat). destruct (rfind_char_aux c s 0 None); [f_equal; lia|].
  destruct (Ascii.eqb x c); [f_equal; lia|done].
Qed.

Lemma rfind_char_cons c x s :
  rfind_char c (x :: s) =
  match rfind_char c s with
  | Some j => Some (S j)
  | None => if Ascii.eqb x c then Some 0%nat else None
  end.
Proof. unfold rfind_char. simpl. by rewrite rfind_char_aux_spec. Qed.

Lemma rfind_char_None c s : rfind_char c s = None <-> c ∉ s.
Proof.
  induction s as [|x s IH]; [split; [set_solver|done]|]. rewrite rfind_char_cons.
  destruct (rfind_char c s); [split; [done|]|].
  - intros Hn. assert (Hs : c ∉ s) by set_solver. apply IH in Hs. discriminate.
  - pose proof (proj1 IH eq_refl). destruct (Ascii.eqb_spec x c); set_solver.
Qed.

Lemma rfind_char_Some c s j :
  rfind_char c s = Some j <-> exists a b, s = a ++ c :: b /\ c ∉ b /\ j = length a.
Proof.
  revert j. induction s as [|x s IH]; intros j.
  { split; [done|]. by intros ([|? ?] & ? & ? & _). }
  rewrite rfind_char_cons. destruct (rfind_char c s) as [k|] eqn:E.
  - split.
    + intros [= <-]. destruct (proj1 (IH k) eq_refl) as (a & b & -> & Hb & ->).
      by exists (x :: a), b.
    + intros (a & b & Hs & Hb & ->). destruct a as [|y a]; simpl in Hs.
      * injection Hs as -> ->. apply rfind_char_None in Hb. congruence.
      * injection Hs as -> ->. f_equal. simpl. f_equal.
        assert (Some k = Some (length a)) as [= ->]; [|done]. apply IH. by exists a, b.
  - apply rfind_char_None in E. destruct (Ascii.eqb_spec x c) as [->|Hne].
    + split.
      * intros [= <-]. by exists [], s.
      * intros (a & b & Hs & Hb & ->). destruct a as [|y a]; [done|].
        simpl in Hs. injection Hs as -> ->. set_solver.
    + split; [done|]. intros (a & b & Hs & Hb & ->). destruct a as [|y a]; simpl in Hs.
      * by injection Hs as -> ->.
      * injection Hs as -> ->. set_solver.
Qed.

End Strings.

Lemma fmt_u_inj a b : fmt_u a = fmt_u b -> a = b.
Proof.
  unfold fmt_u, lit. intros H.
  apply (f_equal String.string_of_list_ascii) in H.
  rewrite !String.string_of_list_ascii_of_string in H. by apply pretty_N_inj in H.
Qed.

Lemma fmt_d_inj a b : fmt_d a = fmt_d b -> a = b.
Proof.
  unfold fmt_d, lit. intros H.
  apply (f_equal String.string_of_list_ascii) in H.
  rewrite !String.string_of_list_ascii_of_string in H. by apply pretty_Z_inj in H.
Qed.

(** ** Machine integers *)

(** Printed numbers have digits and a sign only. *)
Definition numeral (c : ascii) : bool := existsb (Ascii.eqb c) (lit "-0123456789").

Lemma pretty_N_go_numeral x s :
  forallb numeral (lit s) = true -> forallb numeral (lit (pretty_N_go x s)) = true.
Proof.
  revert s. induction (N.lt_wf_0 x) as [x _ IH]. intros s Hs.
  destruct (decide (x = 0)%N) as [->|Hx]; [by rewrite pretty_N_go_0|].
  rewrite pretty_N_go_step by lia. apply IH; [apply N.div_lt; lia|].
  unfold lit in *. cbn [String.list_ascii_of_string forallb]. apply andb_true_iff. split; [|done].
  unfold pretty_N_char. by repeat case_match.
Qed.

Lemma fmt_u_numeral n : forallb numeral (fmt_u n) = true.
Proof.
  unfold fmt_u, pretty, pretty_N. destruct (decide (n = 0)%N); [done|]. by apply pretty_N_go_numeral.
Qed.

Lemma fmt_d_numeral z : forallb numeral (fmt_d z) = true.
Proof.
  unfold fmt_d, pretty, pretty_Z. destruct z as [|p|p]; [done|apply (fmt_u_numeral (Npos p))|].
  exact (fmt_u_numeral (Npos p)).
Qed.

Lemma numeral_not c s : numeral c = false -> forallb numeral s = true -> c ∉ s.
Proof. intros Hc Hs Hin. rewrite forallb_forall in Hs. apply list_elem_of_In in Hin. by rewrite Hs in Hc. Qed.

Lemma fmt_u_noslash n : slash ∉ fmt_u n.
Proof. apply numeral_not; [done|apply fmt_u_numeral]. Qed.

Lemma fmt_d_noslash z : slash ∉ fmt_d z.
Proof. apply numeral_not; [done|apply fmt_d_numeral]. Qed.

Lemma sgn_small w z : (0 < w)%Z -> (- 2 ^ (w - 1) <= z < 2 ^ (w - 1))%Z -> sgn w z = z.
Proof.
  intros Hw Hz. unfold sgn. assert (E : (2 ^ w = 2 * 2 ^ (w - 1))%Z).
  { rewrite <- Z.pow_succ_r by lia. f_equal. lia. }
  destruct (Z.le_gt_cases 0 z).
  - rewrite Z.mod_small by lia. destruct (Z.ltb_spec z (2 ^ (w - 1))); lia.
  - replace (z mod 2 ^ w)%Z with (z + 2 ^ w)%Z.
    2: { rewrite <- (Z.mod_add z 1) by lia. rewrite Z.mod_small; lia. }
    destruct (Z.ltb_spec (z + 2 ^ w) (2 ^ (w - 1))); lia.
Qed.

Lemma sgn_range w z : (0 < w)%Z -> (- 2 ^ (w - 1) <= sgn w z < 2 ^ (w - 1))%Z.
Proof.
  intros Hw. unfold sgn. assert (E : (2 ^ w = 2 * 2 ^ (w - 1))%Z).
  { rewrite <- Z.pow_succ_r by lia. f_equal. lia. }
  pose proof (Z.mod_pos_bound z (2 ^ w) ltac:(lia)).
  destruct (Z.ltb_spec (z mod 2 ^ w) (2 ^ (w - 1))); lia.
Qed.

Lemma i32_small z : (- 2147483648 <= z < 2147483648)%Z -> i32 z = z.
Proof. intros. apply sgn_small; simpl; lia. Qed.

Lemma i64_small z : (- 9223372036854775808 <= z < 9223372036854775808)%Z -> i64 z = z.
Proof. intros. apply sgn_small; simpl; lia. Qed.

Lemma sgn_congr w a b : (a mod 2 ^ w = b mod 2 ^ w)%Z -> sgn w a = sgn w b.
Proof. intros H. unfold sgn. by rewrite H. Qed.

Lemma sgn_add_l w a b : (0 < w)%Z -> sgn w (sgn w a + b) = sgn w (a + b).
Proof.
  intros Hw. apply sgn_congr. pose proof (Z.pow_pos_nonneg 2 w ltac:(lia) ltac:(lia)).
  unfold sgn. cbv zeta. destruct (a mod 2 ^ w <? 2 ^ (w - 1))%Z.
  - apply Z.add_mod_idemp_l. lia.
  - replace (a mod 2 ^ w - 2 ^ w + b)%Z with (a mod 2 ^ w + b + (-1) * 2 ^ w)%Z by lia.
    rewrite Z.mod_add by lia. apply Z.add_mod_idemp_l. lia.
Qed.

Lemma i64_add_l a b : i64 (i64 a + b) = i64 (a + b).
Proof. by apply sgn_add_l. Qed.

Lemma i64_add_r a b : i64 (a + i64 b) = i64 (a + b).
Proof. by rewrite (Z.add_comm a (i64 b)), i64_add_l, (Z.add_comm b a). Qed.

Lemma i64_idem a : i64 (i64 a) = i64 a.
Proof. pose proof (i64_add_l a 0) as H. by rewrite !Z.add_0_r in H. Qed.

(** ** Reachability *)

Lemma rtc_invariant {A} (R : relation A) (P : A -> Prop) :
  (forall x y, R x y -> P x -> P y) -> forall x y, rtc R x y -> P x -> P y.
Proof. intros HR x y H. induction H; eauto. Qed.

(** ** Lists *)

Lemma nodup_map_filter {A B} (f : A -> B) (P : A -> Prop) `{!forall x, Decision (P x)} (l : list A) :
  NoDup (f <$> l) -> NoDup (f <$> filter P l).
Proof.
  induction l as [|x l IH]; intros Hl; [done|].
  rewrite fmap_cons in Hl. apply NoDup_cons in Hl as [Hx Hl].
  rewrite filter_cons. destruct (decide (P x)); [|by apply IH].
  rewrite fmap_cons. apply NoDup_cons. split; [|by apply IH].
  intros Hin. apply Hx. apply list_elem_of_fmap in Hin as (y & -> & Hy).
  apply list_elem_of_filter in Hy as [_ Hy]. by apply list_elem_of_fmap_2.
Qed.

(** ** Maps *)

Lemma alter_insert_id `{Countable K} {A} (f : A -> A) (m : gmap K A) k x :
  m !! k = Some x -> alter f k m = <[k := f x]> m.
Proof.
  intros Hx. apply map_eq. intros i. destruct (decide (k = i)) as [->|Hne].
  - by rewrite lookup_alter_eq, Hx, lookup_insert_eq.
  - by rewrite lookup_alter_ne, lookup_insert_ne by done.
Qed.

(** ** Order of strings *)

Section StringOrder.
Open Scope Z_scope.

(** [operator<] of strings: bytes are compared without sign. *)
Fixpoint str_ltb (a b : str) : bool :=
  match a, b with
  | _, [] => false
  | [], _ :: _ => true
  | x :: a', y :: b' => (code x <? code y) || ((code x =? code y) && str_ltb a' b')
  end.

Definition str_lt (a b : str) : Prop := str_ltb a b = true.

Lemma code_inj a b : code a = code b -> a = b.
Proof. unfold code. intros H%N2Z.inj. by rewrite <- (ascii_N_embedding a), <- (ascii_N_embedding b), H. Qed.

#[global] Instance str_lt_strict : StrictOrder str_lt.
Proof.
  split.
  - intros a. induction a as [|x a IH]; [done|]. unfold complement, str_lt in *. cbn. rewrite Z.ltb_irrefl, Z.eqb_refl. done.
  - intros a. unfold str_lt. induction a as [|x a IH]; intros [|y b] [|z c]; try done. cbn.
    rewrite !orb_true_iff, !andb_true_iff, !Z.ltb_lt, !Z.eqb_eq. intros [H1|[H1 H2]] [H3|[H3 H4]]; [left; lia..|].
    right. split; [lia|]. by eapply IH.
Qed.

Lemma str_trichotomy a b : str_ltb a b = false -> str_ltb b a = false -> a = b.
Proof.
  revert b. induction a as [|x a IH]; intros [|y b]; try done. cbn. rewrite !orb_false_iff, !Z.ltb_ge. intros [H1 H2] [H3 H4].
  assert (E : code x = code y) by lia. rewrite E, Z.eqb_refl in *. cbn in *. by rewrite (code_inj _ _ E), (IH b).
Qed.

Definition str_le (a b : str) : Prop := str_ltb b a = false.

#[global] Instance str_le_dec : RelDecision str_le.
Proof. intros a b. unfold str_le. apply _. Defined.

Lemma str_le_lt a b : str_le a b <-> a = b \/ str_lt a b.
Proof.
  unfold str_le, str_lt. split.
  - intros H. destruct (str_ltb a b) eqn:E; [by right|left]. by apply str_trichotomy.
  - intros [->|H]; [by apply not_true_is_false, (irreflexivity str_lt)|].
    apply not_true_is_false. intros H'. by apply (irreflexivity str_lt a), (transitivity (R := str_lt) H).
Qed.

#[global] Instance str_le_order : PartialOrder str_le.
Proof.
  split; [split|].
  - intros a. apply str_le_lt. by left.
  - intros a b c. rewrite !str_le_lt. intros [->|H1] [->|H2]; auto. right. by etrans.
  - intros a b. rewrite !str_le_lt. intros [->|H1] [E|H2]; try done. by destruct (irreflexivity str_lt a (transitivity H1 H2)).
Qed.

#[global] Instance str_le_total : Total str_le.
Proof.
  intros a b. rewrite !str_le_lt. unfold str_lt. destruct (str_ltb a b) eqn:E1; [by auto|]. destruct (str_ltb b a) eqn:E2; [by auto|].
  left. left. by apply str_trichotomy.
Qed.
End StringOrder.

#[export] Hint Rewrite @length_app @length_map @length_fmap @length_take @length_drop @length_cons
  @length_nil length_seq @length_replicate : cmds_len.

Ltac len := repeat progress (simpl; autorewrite with cmds_len in * ).

#[export] Hint Resolve prefixb_app str_eqb_refl : cmds.
