(* ===== verification/Bytes.v ===== *)
(** Byte-addressed memory and little-endian words.

    The programs of the repository read and write machine words through byte
    buffers: [servicemanager/binder.c] through [struct binder_io], and
    [rawbu/backup.cpp] through [fread]/[fwrite] of [int32_t] and [int64_t].
    This file holds the two encodings they share: words as lists of bytes
    ([le_split], [le_combine]) and words in a memory ([load], [store]), with
    the round trips and the frame lemmas the components use. *)

From S2P Require Import Prelude.

Open Scope Z_scope.

(** * Words as byte lists *)

Fixpoint le_split (n : nat) (v : Z) : list Z :=
  match n with
  | O => []
  | S n' => v mod 256 :: le_split n' (v / 256)
  end.

Fixpoint le_combine (l : list Z) : Z :=
  match l with
  | [] => 0
  | b :: l' => b + 256 * le_combine l'
  end.

Definition is_byte (b : Z) : Prop := 0 <= b < 256.

#[export] Instance is_byte_dec b : Decision (is_byte b) := _.

(** * Memory *)

(** One byte at each address. *)
Definition mem := Z -> Z.

Definition load (n : nat) (a : Z) (m : mem) : Z :=
  le_combine ((fun i => m (a + Z.of_nat i)) <$> seq 0 n).

(** The byte that a store of the list [l] at [a] leaves at address [x]. *)
Definition store_list (a : Z) (l : list Z) (m : mem) : mem :=
  fun x =>
    if (a <=? x) && (x <? a + Z.of_nat (length l))
    then nth (Z.to_nat (x - a)) l 0
    else m x.

Definition store (n : nat) (a v : Z) (m : mem) : mem := store_list a (le_split n v) m.

(** An array of [n] 16-bit units at [a], as [uint16_t *] reads it. *)
Definition load_u16s (n : nat) (a : Z) (m : mem) : list Z :=
  (fun i => load 2 (a + 2 * Z.of_nat i) m) <$> seq 0 n.

(** [memcpy] of an array of 16-bit units to [a]. *)
Definition store_u16s (a : Z) (l : list Z) (m : mem) : mem :=
  store_list a (l ≫= le_split 2) m.

(** [m'] differs from [m] only at the addresses of [lo, hi). *)
Definition frame (lo hi : Z) (m m' : mem) : Prop :=
  forall x, x < lo \/ hi <= x -> m' x = m x.

(** * Lemmas *)

Lemma length_le_split n v : length (le_split n v) = n.
Proof. revert v. induction n as [|n IH]; intros v; simpl; [done|by rewrite IH]. Qed.

#[export] Hint Rewrite length_le_split : cmds_len.

Lemma le_split_bytes n v : Forall is_byte (le_split n v).
Proof.
  revert v. induction n as [|n IH]; intros v; simpl; constructor; [|done].
  unfold is_byte. apply Z.mod_pos_bound. lia.
Qed.

Lemma le_combine_split n v : le_combine (le_split n v) = v mod 256 ^ Z.of_nat n.
Proof.
  revert v. induction n as [|n IH]; intros v.
  { simpl. by rewrite Z.mod_1_r. }
  cbn [le_split le_combine]. rewrite IH, Nat2Z.inj_succ, Z.pow_succ_r by lia.
  rewrite Z.rem_mul_r by (try apply Z.pow_pos_nonneg; lia). lia.
Qed.

Lemma le_combine_range l :
  Forall is_byte l -> 0 <= le_combine l < 256 ^ Z.of_nat (length l).
Proof.
  induction 1 as [|b l Hb Hl IH]; [simpl; lia|].
  cbn [le_combine length]. rewrite Nat2Z.inj_succ, Z.pow_succ_r by lia.
  unfold is_byte in Hb. lia.
Qed.

Lemma le_split_combine l : Forall is_byte l -> le_split (length l) (le_combine l) = l.
Proof.
  induction 1 as [|b l Hb Hl IH]; [done|].
  cbn [le_combine length le_split]. unfold is_byte in Hb.
  rewrite (Z.mul_comm 256), Z.mod_add, Z.div_add, Z.mod_small, Z.div_small by lia.
  by rewrite Z.add_0_l, IH.
Qed.

Lemma pow256 n : 256 ^ Z.of_nat n = 2 ^ (8 * Z.of_nat n).
Proof. rewrite Z.pow_mul_r by lia. done. Qed.

Lemma frame_refl lo hi m : frame lo hi m m.
Proof. by intros x _. Qed.

Lemma frame_trans lo hi m1 m2 m3 : frame lo hi m1 m2 -> frame lo hi m2 m3 -> frame lo hi m1 m3.
Proof. intros H1 H2 x Hx. by rewrite H2, H1. Qed.

Lemma frame_weaken lo hi lo' hi' m m' :
  lo' <= lo -> hi <= hi' -> frame lo hi m m' -> frame lo' hi' m m'.
Proof. intros ?? H x Hx. apply H. lia. Qed.

Lemma frame_empty lo hi m m' : frame lo hi m m' -> hi <= lo -> forall x, m' x = m x.
Proof. intros H Hle x. apply H. lia. Qed.

Lemma store_list_frame a l m : frame a (a + Z.of_nat (length l)) m (store_list a l m).
Proof.
  intros x Hx. unfold store_list.
  destruct (Z.leb_spec a x), (Z.ltb_spec x (a + Z.of_nat (length l))); simpl; try done; lia.
Qed.

Lemma store_frame n a v m : frame a (a + Z.of_nat n) m (store n a v m).
Proof.
  unfold store. pose proof (store_list_frame a (le_split n v) m) as H.
  by rewrite length_le_split in H.
Qed.

Lemma store_list_read a l m i :
  (i < length l)%nat -> store_list a l m (a + Z.of_nat i) = nth i l 0.
Proof.
  intros Hi. unfold store_list.
  destruct (Z.leb_spec a (a + Z.of_nat i)); [|lia].
  destruct (Z.ltb_spec (a + Z.of_nat i) (a + Z.of_nat (length l))); [|lia].
  simpl. f_equal. lia.
Qed.

Lemma load_ext n a m m' :
  (forall i, (i < n)%nat -> m' (a + Z.of_nat i) = m (a + Z.of_nat i)) ->
  load n a m' = load n a m.
Proof.
  intros H. unfold load. f_equal. apply list_fmap_ext. intros i x Hx.
  apply lookup_seq in Hx as [-> Hi]. apply H. lia.
Qed.

Lemma load_frame lo hi n a m m' :
  frame lo hi m m' -> a + Z.of_nat n <= lo \/ hi <= a -> load n a m' = load n a m.
Proof. intros H Ha. apply load_ext. intros i Hi. apply H. lia. Qed.

Lemma map_nth_seq (l : list Z) : (fun i => nth i l 0) <$> seq 0 (length l) = l.
Proof.
  apply list_eq. intros i. rewrite list_lookup_fmap.
  destruct (decide (i < length l)%nat).
  - rewrite lookup_seq_lt by lia. simpl.
    rewrite nth_lookup. destruct (l !! i) eqn:E; [done|].
    apply lookup_ge_None in E. lia.
  - rewrite lookup_seq_ge by lia. symmetry. apply lookup_ge_None. lia.
Qed.

Lemma load_store_list a l m : load (length l) a (store_list a l m) = le_combine l.
Proof.
  unfold load. transitivity (le_combine ((fun i => nth i l 0) <$> seq 0 (length l)));
    [|by rewrite map_nth_seq].
  f_equal. apply list_fmap_ext. intros i x Hx. apply lookup_seq in Hx as [-> Hi].
  apply store_list_read. lia.
Qed.

Lemma load_store n a v m : load n a (store n a v m) = v mod 256 ^ Z.of_nat n.
Proof.
  unfold store. rewrite <- (le_combine_split n v), <- (load_store_list a _ m).
  by rewrite length_le_split.
Qed.

Lemma load_store_small n a v m :
  0 <= v < 2 ^ (8 * Z.of_nat n) -> load n a (store n a v m) = v.
Proof. intros H. rewrite load_store, Z.mod_small; [done|]. by rewrite pow256. Qed.

Lemma length_u16_bytes l : length (l ≫= le_split 2) = (2 * length l)%nat.
Proof.
  induction l as [|v l IH]; [done|].
  rewrite bind_cons, length_app, length_le_split, IH. simpl. lia.
Qed.

Lemma store_u16s_frame a l m : frame a (a + 2 * Z.of_nat (length l)) m (store_u16s a l m).
Proof.
  unfold store_u16s. pose proof (store_list_frame a (l ≫= le_split 2) m) as H.
  rewrite length_u16_bytes in H.
  by replace (a + 2 * Z.of_nat (length l)) with (a + Z.of_nat (2 * length l)) by lia.
Qed.

Lemma nth_u16_bytes l i v j :
  l !! i = Some v -> (j < 2)%nat ->
  nth (2 * i + j) (l ≫= le_split 2) 0 = nth j (le_split 2 v) 0.
Proof.
  revert i. induction l as [|w l IH]; intros i Hi Hj; [done|].
  destruct i as [|i]; simpl in Hi.
  - injection Hi as ->. rewrite bind_cons, app_nth1; [done|]. rewrite length_le_split. lia.
  - rewrite bind_cons, app_nth2; rewrite length_le_split; [|lia].
    replace (2 * S i + j - 2)%nat with (2 * i + j)%nat by lia. by apply IH.
Qed.

Lemma load_u16s_store a l m :
  Forall (fun u => 0 <= u < 65536) l ->
  load_u16s (length l) a (store_u16s a l m) = l.
Proof.
  intros Hl. apply list_eq. intros i. unfold load_u16s. rewrite list_lookup_fmap.
  destruct (l !! i) as [v|] eqn:E.
  - pose proof (lookup_lt_Some _ _ _ E) as Hi. rewrite lookup_seq_lt by lia.
    simpl. f_equal. rewrite Forall_lookup in Hl. specialize (Hl _ _ E).
    transitivity (le_combine (le_split 2 v)).
    2: { rewrite le_combine_split, Z.mod_small; [done|]. simpl. lia. }
    unfold load, store_u16s. rewrite <- (map_nth_seq (le_split 2 v)). rewrite length_le_split.
    f_equal. apply list_fmap_ext. intros j x Hx. apply lookup_seq in Hx as [-> Hj].
    rewrite Nat.add_0_l. replace (a + 2 * Z.of_nat i + Z.of_nat j)
      with (a + Z.of_nat (2 * i + j)) by lia.
    rewrite store_list_read by (rewrite length_u16_bytes; lia).
    by apply nth_u16_bytes.
  - apply lookup_ge_None in E. by rewrite lookup_seq_ge by lia.
Qed.

Lemma load_u16s_ext n a m m' :
  (forall x, a <= x < a + 2 * Z.of_nat n -> m' x = m x) ->
  load_u16s n a m' = load_u16s n a m.
Proof.
  intros H. apply list_fmap_ext. intros i x Hx. apply lookup_seq in Hx as [-> Hi].
  apply load_ext. intros j Hj. apply H. lia.
Qed.

Lemma length_load_u16s n a m : length (load_u16s n a m) = n.
Proof. unfold load_u16s. by rewrite length_fmap, length_seq. Qed.

Lemma load_u16s_app n k a m :
  load_u16s (n + k) a m = load_u16s n a m ++ load_u16s k (a + 2 * Z.of_nat n) m.
Proof.
  unfold load_u16s. rewrite seq_app, fmap_app. f_equal.
  rewrite Nat.add_0_l, <- (Nat.add_0_r n), <- (fmap_add_seq n 0 k), Nat.add_0_r, <- list_fmap_compose.
  apply list_fmap_ext. intros i x _. simpl. f_equal. lia.
Qed.

#[export] Hint Resolve frame_refl store_frame store_list_frame store_u16s_frame : cmds.
#[export] Hint Rewrite length_u16_bytes length_load_u16s : cmds_len.
