(* ===== verification/BinderIO.v ===== *)
(** [struct binder_io]: the marshalling buffers of [servicemanager/binder.c].

    A [binder_io] is a cursor over two regions of one memory: the data region
    (written and read by [bio_put_*] and [bio_get_*]) and the array of the
    offsets of the binder objects in it. The state of every operation is the
    cursor and the memory, threaded explicitly; an operation that fails sets
    [BIO_F_OVERFLOW] as the code does. [size_t] arithmetic wraps at the width
    [sizeof_size_t] of the ABI. The layout and constants of the kernel header
    [linux/android/binder.h], which is not in the repository, are the class
    [BinderABI]; its documented laws are [BinderABIOk]. *)

From S2P Require Import Prelude Bytes.

Open Scope Z_scope.

(** * The kernel's ABI *)

Class BinderABI := {
  sizeof_size_t : Z;
  sizeof_binder_size_t : Z;
  (* struct flat_binder_object *)
  sizeof_obj : Z;
  obj_type : Z;
  obj_flags : Z;
  obj_handle : Z;      (* the union of [handle] and [binder] *)
  obj_cookie : Z;
  sizeof_binder_uintptr : nat;
  BINDER_TYPE_BINDER : Z;
  BINDER_TYPE_HANDLE : Z;
  FLAT_BINDER_FLAG_ACCEPTS_FDS : Z;
}.

(** The fields of [flat_binder_object] lie in it in the header's order. *)
Class BinderABIOk (abi : BinderABI) : Prop := {
  abi_size_t : sizeof_size_t = 4 \/ sizeof_size_t = 8;
  abi_binder_size_t : sizeof_binder_size_t = 4 \/ sizeof_binder_size_t = 8;
  abi_uintptr : sizeof_binder_uintptr = 4%nat \/ sizeof_binder_uintptr = 8%nat;
  abi_type : 0 <= obj_type;
  abi_flags : obj_type + 4 <= obj_flags;
  abi_handle : obj_flags + 4 <= obj_handle;
  abi_handle_cookie : obj_handle + Z.of_nat sizeof_binder_uintptr <= obj_cookie;
  abi_cookie : obj_cookie + Z.of_nat sizeof_binder_uintptr <= sizeof_obj;
  abi_obj_small : sizeof_obj <= 64;
  abi_obj_aligned : sizeof_obj mod 4 = 0;
  abi_handle_u32 : 0 <= BINDER_TYPE_HANDLE < 2 ^ 32;
  abi_binder_u32 : 0 <= BINDER_TYPE_BINDER < 2 ^ 32;
  abi_types_differ : BINDER_TYPE_BINDER <> BINDER_TYPE_HANDLE;
}.

(** The 64-bit kernel ABI, and a 32-bit process on a 64-bit binder protocol. *)
Definition abi64 : BinderABI := {|
  sizeof_size_t := 8; sizeof_binder_size_t := 8;
  sizeof_obj := 24; obj_type := 0; obj_flags := 4; obj_handle := 8; obj_cookie := 16;
  sizeof_binder_uintptr := 8%nat;
  BINDER_TYPE_BINDER := 0x73622a85; BINDER_TYPE_HANDLE := 0x73682a85;
  FLAT_BINDER_FLAG_ACCEPTS_FDS := 0x100 |}.

Definition abi32 : BinderABI := {|
  sizeof_size_t := 4; sizeof_binder_size_t := 8;
  sizeof_obj := 24; obj_type := 0; obj_flags := 4; obj_handle := 8; obj_cookie := 16;
  sizeof_binder_uintptr := 8%nat;
  BINDER_TYPE_BINDER := 0x73622a85; BINDER_TYPE_HANDLE := 0x73682a85;
  FLAT_BINDER_FLAG_ACCEPTS_FDS := 0x100 |}.

(** * Constants and state *)

Definition MAX_BIO_SIZE : Z := Z.shiftl 1 30.

Definition BIO_F_SHARED : Z := 0x01.
Definition BIO_F_OVERFLOW : Z := 0x02.
Definition BIO_F_IOERROR : Z := 0x04.
Definition BIO_F_MALLOCED : Z := 0x08.

Record binder_io := Bio {
  data : Z;
  offs : Z;
  data_avail : Z;
  offs_avail : Z;
  data0 : Z;
  offs0 : Z;
  flags : Z;
}.

(** The fields of [binder_transaction_data] that describe the payload. *)
Record txn_data := TxnData {
  td_buffer : Z;
  td_offsets : Z;
  td_data_size : Z;
  td_offsets_size : Z;
}.

Definition set_flags (io : binder_io) (f : Z) : binder_io :=
  Bio (data io) (offs io) (data_avail io) (offs_avail io) (data0 io) (offs0 io) f.

Definition set_overflow (io : binder_io) : binder_io :=
  set_flags io (Z.lor (flags io) BIO_F_OVERFLOW).

Definition overflowed (io : binder_io) : bool := nz (Z.land (flags io) BIO_F_OVERFLOW).

(** * Operations *)

Section Operations.
Context {abi : BinderABI}.

(** Conversion to [size_t]. *)
Definition usz (z : Z) : Z := z mod 2 ^ (8 * sizeof_size_t).

(** [(size + 3) & (~3)]: the [int] [~3] is converted to [size_t]. *)
Definition align4 (size : Z) : Z := Z.land (usz (size + 3)) (usz (-4)).

Definition bio_init_from_txn (txn : txn_data) : binder_io :=
  Bio (td_buffer txn) (td_offsets txn) (td_data_size txn)
      (td_offsets_size txn / sizeof_size_t) (td_buffer txn) (td_offsets txn) BIO_F_SHARED.

(** [bio] is the caller's uninitialised structure: the failing path leaves
    its pointers as they were. *)
Definition bio_init (bio : binder_io) (dat maxdata maxoffs : Z) : binder_io :=
  let n := usz (maxoffs * sizeof_size_t) in
  if n >? maxdata then
    Bio (data bio) (offs bio) 0 0 (data0 bio) (offs0 bio) BIO_F_OVERFLOW
  else
    Bio (dat + n) dat (maxdata - n) maxoffs (dat + n) dat 0.

Definition bio_alloc (bio : binder_io) (size : Z) : binder_io * option Z :=
  let size := align4 size in
  if size >? data_avail bio then (set_overflow bio, None)
  else
    (Bio (data bio + size) (offs bio) (data_avail bio - size) (offs_avail bio)
         (data0 bio) (offs0 bio) (flags bio), Some (data bio)).

Definition bio_alloc_obj (bio : binder_io) (m : mem) : binder_io * mem * option Z :=
  let '(bio1, obj) := bio_alloc bio sizeof_obj in
  match obj with
  | Some p =>
      if nz (offs_avail bio1) then
        (Bio (data bio1) (offs bio1 + sizeof_binder_size_t) (data_avail bio1)
             (offs_avail bio1 - 1) (data0 bio1) (offs0 bio1) (flags bio1),
         store (Z.to_nat sizeof_binder_size_t) (offs bio1) (p - data0 bio1) m,
         Some p)
      else (set_overflow bio1, m, None)
  | None => (set_overflow bio1, m, None)
  end.

Definition bio_put_uint32 (bio : binder_io) (m : mem) (n : Z) : binder_io * mem :=
  let '(bio1, ptr) := bio_alloc bio 4 in
  match ptr with
  | Some p => (bio1, store 4 p n m)
  | None => (bio1, m)
  end.

(** The four assignments that fill in a [flat_binder_object]. *)
Definition write_obj (p typ val : Z) (vsize : nat) (m : mem) : mem :=
  let m := store 4 (p + obj_flags) (Z.lor 0x7f FLAT_BINDER_FLAG_ACCEPTS_FDS) m in
  let m := store 4 (p + obj_type) typ m in
  let m := store vsize (p + obj_handle) val m in
  store sizeof_binder_uintptr (p + obj_cookie) 0 m.

Definition bio_put_obj (bio : binder_io) (m : mem) (ptr : Z) : binder_io * mem :=
  let '(bio1, m1, obj) := bio_alloc_obj bio m in
  match obj with
  | None => (bio1, m1)
  | Some p => (bio1, write_obj p BINDER_TYPE_BINDER ptr sizeof_binder_uintptr m1)
  end.

Definition bio_put_ref (bio : binder_io) (m : mem) (handle : Z) : binder_io * mem :=
  let '(bio1, m1, obj) :=
    if nz handle then bio_alloc_obj bio m
    else let '(b, o) := bio_alloc bio sizeof_obj in (b, m, o) in
  match obj with
  | None => (bio1, m1)
  | Some p => (bio1, write_obj p BINDER_TYPE_HANDLE handle 4 m1)
  end.

(** [while (str[len]) len++]: the units before the terminator. *)
Fixpoint strlen16 (s : list Z) : nat :=
  match s with
  | [] => 0
  | u :: s' => if u =? 0 then 0 else S (strlen16 s')
  end.

(** [str] is the NUL-terminated array the caller passes, or a null pointer. *)
Definition bio_put_string16 (bio : binder_io) (m : mem) (s : option (list Z)) : binder_io * mem :=
  match s with
  | None => bio_put_uint32 bio m 0xffffffff
  | Some units =>
      let len := Z.of_nat (strlen16 units) in
      if len >=? MAX_BIO_SIZE / 2 then bio_put_uint32 bio m 0xffffffff
      else
        let '(bio1, m1) := bio_put_uint32 bio m (u32 len) in
        let bytes := usz ((len + 1) * 2) in
        let '(bio2, ptr) := bio_alloc bio1 bytes in
        match ptr with
        | Some p => (bio2, store_u16s p (take (strlen16 units) units ++ [0]) m1)
        | None => (bio2, m1)
        end
  end.

(** [strlen] of a C string. *)
Fixpoint strlen8 (s : list Z) : nat :=
  match s with
  | [] => 0
  | u :: s' => if u =? 0 then 0 else S (strlen8 s')
  end.

Definition bio_put_string16_x (bio : binder_io) (m : mem) (s : option (list Z)) : binder_io * mem :=
  match s with
  | None => bio_put_uint32 bio m 0xffffffff
  | Some chars =>
      let len := Z.of_nat (strlen8 chars) in
      if len >=? MAX_BIO_SIZE / 2 then bio_put_uint32 bio m 0xffffffff
      else
        let '(bio1, m1) := bio_put_uint32 bio m len in
        let '(bio2, ptr) := bio_alloc bio1 (usz ((len + 1) * 2)) in
        match ptr with
        | None => (bio2, m1)
        | Some p => (bio2, store_u16s p (take (strlen8 chars) chars ++ [0]) m1)
        end
  end.

Definition bio_get (bio : binder_io) (size : Z) : binder_io * option Z :=
  let size := align4 size in
  if data_avail bio <? size then
    (Bio (data bio) (offs bio) 0 (offs_avail bio) (data0 bio) (offs0 bio)
         (Z.lor (flags bio) BIO_F_OVERFLOW), None)
  else
    (Bio (data bio + size) (offs bio) (data_avail bio - size) (offs_avail bio)
         (data0 bio) (offs0 bio) (flags bio), Some (data bio)).

Definition bio_get_uint32 (bio : binder_io) (m : mem) : binder_io * Z :=
  let '(bio1, ptr) := bio_get bio 4 in
  (bio1, match ptr with Some p => load 4 p m | None => 0 end).

(** The pointer returned and the length stored through [sz]. *)
Definition bio_get_string16 (bio : binder_io) (m : mem) : binder_io * option Z * Z :=
  let '(bio1, len) := bio_get_uint32 bio m in
  let '(bio2, ptr) := bio_get bio1 (usz ((len + 1) * 2)) in
  (bio2, ptr, len).

(** The scan of [offs[0 .. offs_avail)] for the current position. *)
Definition offs_has (bio : binder_io) (m : mem) (off : Z) : bool :=
  existsb (fun n => load (Z.to_nat sizeof_binder_size_t)
                         (offs bio + Z.of_nat n * sizeof_binder_size_t) m =? off)
          (seq 0 (Z.to_nat (offs_avail bio))).

Definition bio_get_obj_ (bio : binder_io) (m : mem) : binder_io * option Z :=
  let off := data bio - data0 bio in
  if offs_has bio m off then bio_get bio sizeof_obj
  else
    (Bio (data bio) (offs bio) 0 (offs_avail bio) (data0 bio) (offs0 bio)
         (Z.lor (flags bio) BIO_F_OVERFLOW), None).

Definition bio_get_ref (bio : binder_io) (m : mem) : binder_io * Z :=
  let '(bio1, obj) := bio_get_obj_ bio m in
  match obj with
  | None => (bio1, 0)
  | Some p =>
      if load 4 (p + obj_type) m =? BINDER_TYPE_HANDLE
      then (bio1, load 4 (p + obj_handle) m)
      else (bio1, 0)
  end.

(** The payload that [binder_send_reply] and [binder_call] hand to the driver. *)
Definition bio_txn (bio : binder_io) : txn_data :=
  TxnData (data0 bio) (offs0 bio) (data bio - data0 bio) (offs bio - offs0 bio).

(** * Sequences of writes and reads *)

Inductive item :=
| IU32 (n : Z)
| IStr (units : list Z)
| IStrX (chars : list Z)
| IRef (handle : Z)
| IObj (ptr : Z).

Definition put_item (bio : binder_io) (m : mem) (i : item) : binder_io * mem :=
  match i with
  | IU32 n => bio_put_uint32 bio m n
  | IStr s => bio_put_string16 bio m (Some s)
  | IStrX s => bio_put_string16_x bio m (Some s)
  | IRef h => bio_put_ref bio m h
  | IObj p => bio_put_obj bio m p
  end.

Fixpoint put_items (bio : binder_io) (m : mem) (l : list item) : binder_io * mem :=
  match l with
  | [] => (bio, m)
  | i :: l' => let '(bio1, m1) := put_item bio m i in put_items bio1 m1 l'
  end.

(** What a reader gets back. *)
Inductive value :=
| VU32 (n : Z)
| VStr (units : list Z)
| VNullStr
| VRef (handle : Z).

Inductive kind := KU32 | KStr | KRef.

Definition get_item (bio : binder_io) (m : mem) (k : kind) : binder_io * value :=
  match k with
  | KU32 => let '(b, n) := bio_get_uint32 bio m in (b, VU32 n)
  | KStr =>
      let '(b, p, len) := bio_get_string16 bio m in
      (b, match p with
          | Some p => VStr (load_u16s (Z.to_nat len) p m)
          | None => VNullStr
          end)
  | KRef => let '(b, h) := bio_get_ref bio m in (b, VRef h)
  end.

Fixpoint get_items (bio : binder_io) (m : mem) (l : list kind) : binder_io * list value :=
  match l with
  | [] => (bio, [])
  | k :: l' =>
      let '(b, v) := get_item bio m k in
      let '(b', vs) := get_items b m l' in (b', v :: vs)
  end.

Definition kind_of (i : item) : kind :=
  match i with
  | IU32 _ => KU32
  | IStr _ | IStrX _ => KStr
  | IRef _ | IObj _ => KRef
  end.

Definition value_of (i : item) : value :=
  match i with
  | IU32 n => VU32 n
  | IStr s | IStrX s => VStr s
  | IRef h => VRef h
  | IObj _ => VRef 0
  end.

(** The items the encoding represents exactly: words of 32 bits, strings
    without an embedded NUL and shorter than the limit, and handles other
    than the null one. *)
Definition item_ok (i : item) : Prop :=
  match i with
  | IU32 n => 0 <= n < 2 ^ 32
  | IStr s => Forall (fun u => 0 < u < 2 ^ 16) s /\ Z.of_nat (length s) < MAX_BIO_SIZE / 2
  | IStrX s => Forall (fun u => 0 < u < 2 ^ 8) s /\ Z.of_nat (length s) < MAX_BIO_SIZE / 2
  | IRef h => 0 < h < 2 ^ 32
  | IObj _ => True
  end.

End Operations.

(** * Lemmas *)

#[export] Instance abi64_ok : BinderABIOk abi64.
Proof. split; first [by left | by right | done | vm_compute; by split]. Qed.

#[export] Instance abi32_ok : BinderABIOk abi32.
Proof. split; first [by left | by right | done | vm_compute; by split]. Qed.

Lemma overflowed_set f : nz (Z.land (Z.lor f BIO_F_OVERFLOW) BIO_F_OVERFLOW) = true.
Proof.
  unfold nz. apply negb_true_iff, Z.eqb_neq. rewrite Z.land_lor_distr_l.
  intros H. apply Z.lor_eq_0_iff in H as [_ H]. discriminate.
Qed.

Section Facts.
Context {abi : BinderABI} {abi_ok : BinderABIOk abi}.
Implicit Types (io : binder_io) (m : mem).

Lemma usz_small z : 0 <= z < 2 ^ 32 -> usz z = z.
Proof.
  intros Hz. unfold usz. apply Z.mod_small. split; [lia|].
  apply Z.lt_le_trans with (2 ^ 32); [lia|].
  destruct abi_size_t as [-> | ->]; simpl; lia.
Qed.

Lemma align4_eq size : 0 <= size < 2 ^ 32 - 3 -> align4 size = 4 * ((size + 3) / 4).
Proof.
  intros Hs. unfold align4. rewrite usz_small by lia. unfold usz.
  rewrite <- Z.land_ones by (destruct abi_size_t as [-> | ->]; lia).
  rewrite Z.land_assoc, (Z.land_comm (size + 3)), <- Z.land_assoc.
  rewrite Z.land_ones by (destruct abi_size_t as [-> | ->]; lia).
  rewrite Z.mod_small.
  2: { split; [lia|]. apply Z.lt_le_trans with (2 ^ 32); [lia|].
       destruct abi_size_t as [-> | ->]; simpl; lia. }
  rewrite Z.land_comm. change (-4) with (Z.lnot (Z.ones 2)).
  rewrite <- Z.ldiff_land, Z.ldiff_ones_r by lia.
  rewrite Z.shiftl_mul_pow2, Z.shiftr_div_pow2 by lia. change (2 ^ 2) with 4. lia.
Qed.

Lemma align4_bounds size :
  0 <= size < 2 ^ 32 - 3 -> size <= align4 size <= size + 3.
Proof.
  intros Hs. rewrite align4_eq by done.
  pose proof (Z.mod_pos_bound (size + 3) 4 ltac:(lia)).
  pose proof (Z.div_mod (size + 3) 4 ltac:(lia)). lia.
Qed.

Lemma align4_mult size : 0 <= size < 2 ^ 32 - 3 -> size mod 4 = 0 -> align4 size = size.
Proof.
  intros Hs Hm. rewrite align4_eq by done.
  pose proof (Z.div_mod size 4 ltac:(lia)).
  replace (size + 3) with (3 + (size / 4) * 4) by lia. rewrite Z.div_add by lia.
  change (3 / 4) with 0. lia.
Qed.

Lemma sizeof_obj_bounds : 0 < sizeof_obj <= 64.
Proof.
  pose proof abi_type; pose proof abi_flags; pose proof abi_handle;
    pose proof abi_handle_cookie; pose proof abi_cookie; pose proof abi_obj_small. lia.
Qed.

Lemma align4_obj : align4 sizeof_obj = sizeof_obj.
Proof. pose proof sizeof_obj_bounds. apply align4_mult; [lia|apply abi_obj_aligned]. Qed.

Lemma align4_4 : align4 4 = 4.
Proof. apply align4_mult; [lia|done]. Qed.

Lemma bsz_pos : 0 < sizeof_binder_size_t.
Proof. destruct abi_binder_size_t; lia. Qed.

(** The room left in a buffer. *)
Definition room io : Prop := 0 <= data_avail io /\ 0 <= offs_avail io.

(** What every writing operation does to the cursor and to the memory. *)
Record grows io m io' m' : Prop := {
  g_data0 : data0 io' = data0 io;
  g_offs0 : offs0 io' = offs0 io;
  g_data : data io <= data io';
  g_data_end : data io' + data_avail io' = data io + data_avail io;
  g_data_avail : 0 <= data_avail io';
  g_offs : offs io <= offs io';
  g_offs_end : offs io' + offs_avail io' * sizeof_binder_size_t
               = offs io + offs_avail io * sizeof_binder_size_t;
  g_offs_avail : 0 <= offs_avail io';
  g_overflow : overflowed io = true -> overflowed io' = true;
  g_frame : forall x, ~ (data io <= x < data io') -> ~ (offs io <= x < offs io') -> m' x = m x;
}.

Lemma grows_refl io m : room io -> grows io m io m.
Proof. intros [? ?]. split; try done; lia. Qed.

Lemma grows_room io m io' m' : grows io m io' m' -> room io'.
Proof. by intros []. Qed.

Lemma grows_trans io m io1 m1 io2 m2 :
  grows io m io1 m1 -> grows io1 m1 io2 m2 -> grows io m io2 m2.
Proof.
  intros [] []. split; try lia; try congruence; [auto|].
  intros x Hd Ho. rewrite g_frame1, g_frame0; [done|lia..].
Qed.

Lemma grows_overflow io m io' m' :
  grows io m io' m' -> overflowed io' = false -> overflowed io = false.
Proof.
  intros H Ho. destruct (overflowed io) eqn:E; [|done].
  apply (g_overflow _ _ _ _ H) in E. congruence.
Qed.

Lemma set_overflow_overflowed io : overflowed (set_overflow io) = true.
Proof. apply overflowed_set. Qed.

Lemma grows_set_overflow io m io' m' :
  grows io m io' m' -> grows io m (set_overflow io') m'.
Proof. intros []. split; try done. intros _. apply set_overflow_overflowed. Qed.

(** A store in freshly allocated bytes. *)
Lemma grows_store io m io' m' m'' lo hi :
  grows io m io' m' -> frame lo hi m' m'' -> data io <= lo -> hi <= data io' ->
  grows io m io' m''.
Proof.
  intros [] Hf ? ?. split; try done.
  intros x Hd Ho. rewrite Hf, g_frame0; [done|lia..].
Qed.

Lemma bio_alloc_spec io m size io' o :
  room io -> 0 <= size < 2 ^ 32 - 3 -> bio_alloc io size = (io', o) ->
  grows io m io' m /\
  match o with
  | Some p => p = data io /\ data io' = data io + align4 size /\ overflowed io' = overflowed io
              /\ offs io' = offs io /\ offs_avail io' = offs_avail io
  | None => overflowed io' = true
  end.
Proof.
  intros Hr Hs. unfold bio_alloc. pose proof (align4_bounds _ Hs). destruct Hr as [? ?].
  destruct (align4 size >? data_avail io) eqn:E; bool_props; intros [= <- <-].
  - split; [|apply set_overflow_overflowed]. apply grows_set_overflow, grows_refl. done.
  - split; [|done]. split; simpl; try done; try lia.
Qed.

Lemma bio_alloc_obj_spec io m io' m' o :
  room io -> bio_alloc_obj io m = (io', m', o) ->
  grows io m io' m' /\
  match o with
  | Some p => p = data io /\ data io' = data io + sizeof_obj /\ overflowed io' = overflowed io
              /\ offs io' = offs io + sizeof_binder_size_t
              /\ m' = store (Z.to_nat sizeof_binder_size_t) (offs io) (data io - data0 io) m
  | None => overflowed io' = true
  end.
Proof.
  intros Hr. unfold bio_alloc_obj. pose proof sizeof_obj_bounds. pose proof bsz_pos.
  destruct (bio_alloc io sizeof_obj) as [io1 o1] eqn:E.
  apply (bio_alloc_spec _ m) in E as [Hg Ho1]; [|done|lia].
  destruct o1 as [p|].
  - destruct Ho1 as (-> & Hd & Hov & Hof & Hoa). destruct (nz (offs_avail io1)) eqn:En.
    + unfold nz in En. bool_props. intros [= <- <- <-].
      destruct Hg as [G1 G2 G3 G4 G5 G6 G7 G8 G9 G10]; simpl in *. rewrite align4_obj in Hd.
      split; [|rewrite Hof, G1; done].
      split; simpl; try done; try lia.
      intros x Hx Hox. rewrite (store_frame _ _ _ _ x); [done|lia].
    + intros [= <- <- <-]. split; [|apply set_overflow_overflowed]. by apply grows_set_overflow.
  - intros [= <- <- <-]. split; [|apply set_overflow_overflowed]. by apply grows_set_overflow.
Qed.

(** ** The writers *)

Lemma write_obj_frame p typ val vsize m :
  (vsize <= sizeof_binder_uintptr)%nat -> (4 <= sizeof_binder_uintptr)%nat ->
  frame p (p + sizeof_obj) m (write_obj p typ val vsize m).
Proof.
  intros Hv H4. unfold write_obj.
  pose proof abi_type; pose proof abi_flags; pose proof abi_handle;
    pose proof abi_handle_cookie; pose proof abi_cookie.
  repeat (eapply frame_trans; [|eapply frame_weaken; [| |apply store_frame]; lia]).
  apply frame_refl.
Qed.

Lemma uintptr_ge_4 : (4 <= sizeof_binder_uintptr)%nat.
Proof. destruct abi_uintptr; lia. Qed.

Lemma write_obj_type p typ val vsize m :
  (vsize <= sizeof_binder_uintptr)%nat -> 0 <= typ < 2 ^ 32 ->
  load 4 (p + obj_type) (write_obj p typ val vsize m) = typ.
Proof.
  intros Hv Ht. unfold write_obj.
  pose proof abi_type; pose proof abi_flags; pose proof abi_handle;
    pose proof abi_handle_cookie; pose proof abi_cookie.
  rewrite (load_frame _ _ _ _ _ _ (store_frame _ _ _ _)) by lia.
  rewrite (load_frame _ _ _ _ _ _ (store_frame _ _ _ _)) by lia.
  by apply load_store_small.
Qed.

Lemma write_obj_handle p typ val m :
  0 <= val < 2 ^ 32 -> load 4 (p + obj_handle) (write_obj p typ val 4 m) = val.
Proof.
  intros Ht. unfold write_obj.
  pose proof abi_handle_cookie. pose proof uintptr_ge_4.
  rewrite (load_frame _ _ _ _ _ _ (store_frame _ _ _ _)) by lia.
  by apply load_store_small.
Qed.

Lemma bio_put_uint32_spec io m n io' m' :
  room io -> bio_put_uint32 io m n = (io', m') ->
  grows io m io' m' /\
  (overflowed io' = false ->
     data io' = data io + 4 /\ offs io' = offs io /\ overflowed io = false
     /\ m' = store 4 (data io) n m).
Proof.
  intros Hr. unfold bio_put_uint32. destruct (bio_alloc io 4) as [io1 o] eqn:E.
  apply (bio_alloc_spec _ m) in E as [Hg Ho]; [|done|lia]. rewrite align4_4 in Ho.
  destruct o as [p|]; intros [= <- <-].
  - destruct Ho as (-> & Hd & Hov & Hof & _). split.
    + eapply grows_store; [done|apply store_frame|lia|lia].
    + intros. split_and!; congruence.
  - split; [done|congruence].
Qed.

Lemma strlen16_ok s : Forall (fun u => 0 < u < 2 ^ 16) s -> strlen16 s = length s.
Proof.
  induction 1 as [|u s Hu Hs IH]; simpl; [done|].
  destruct (Z.eqb_spec u 0); [lia|by rewrite IH].
Qed.

Lemma strlen8_ok s : Forall (fun u => 0 < u < 2 ^ 8) s -> strlen8 s = length s.
Proof.
  induction 1 as [|u s Hu Hs IH]; simpl; [done|].
  destruct (Z.eqb_spec u 0); [lia|by rewrite IH].
Qed.

Lemma strlen16_le s : (strlen16 s <= length s)%nat.
Proof. induction s as [|u s IH]; simpl; [lia|]. destruct (u =? 0); lia. Qed.

Lemma strlen8_le s : (strlen8 s <= length s)%nat.
Proof. induction s as [|u s IH]; simpl; [lia|]. destruct (u =? 0); lia. Qed.

Lemma max_bio_half : MAX_BIO_SIZE / 2 = 536870912.
Proof. reflexivity. Qed.

(** The common tail of the two string writers: a length and its units. *)
Definition put_units io m (l : list Z) : binder_io * mem :=
  let len := Z.of_nat (length l) in
  let '(bio1, m1) := bio_put_uint32 io m len in
  let '(bio2, ptr) := bio_alloc bio1 (usz ((len + 1) * 2)) in
  match ptr with
  | Some p => (bio2, store_u16s p (l ++ [0]) m1)
  | None => (bio2, m1)
  end.

Lemma bio_put_string16_units io m s :
  bio_put_string16 io m (Some s) =
  if Z.of_nat (strlen16 s) >=? MAX_BIO_SIZE / 2 then bio_put_uint32 io m 0xffffffff
  else put_units io m (take (strlen16 s) s).
Proof.
  simpl. destruct (_ >=? _) eqn:E; [done|]. bool_props. rewrite max_bio_half in E.
  unfold put_units, u32. rewrite length_take, Nat.min_l by apply strlen16_le.
  by rewrite Z.mod_small by lia.
Qed.

Lemma bio_put_string16_x_units io m s :
  bio_put_string16_x io m (Some s) =
  if Z.of_nat (strlen8 s) >=? MAX_BIO_SIZE / 2 then bio_put_uint32 io m 0xffffffff
  else put_units io m (take (strlen8 s) s).
Proof.
  simpl. destruct (_ >=? _) eqn:E; [done|].
  unfold put_units. rewrite length_take, Nat.min_l by apply strlen8_le. done.
Qed.

Lemma put_units_spec io m l io' m' :
  room io -> Z.of_nat (length l) < MAX_BIO_SIZE / 2 -> put_units io m l = (io', m') ->
  let size := align4 ((Z.of_nat (length l) + 1) * 2) in
  grows io m io' m' /\
  (overflowed io' = false ->
     data io' = data io + 4 + size /\ offs io' = offs io /\ overflowed io = false
     /\ m' = store_u16s (data io + 4) (l ++ [0]) (store 4 (data io) (Z.of_nat (length l)) m)).
Proof.
  intros Hr Hl. rewrite max_bio_half in Hl. unfold put_units.
  destruct (bio_put_uint32 io m _) as [io1 m1] eqn:E1.
  apply bio_put_uint32_spec in E1 as [Hg1 Ho1]; [|done].
  pose proof (grows_room _ _ _ _ Hg1) as Hr1. rewrite usz_small by lia.
  destruct (bio_alloc io1 _) as [io2 o] eqn:E2.
  pose proof (align4_bounds ((Z.of_nat (length l) + 1) * 2) ltac:(lia)) as Ha.
  apply (bio_alloc_spec _ m1) in E2 as [Hg2 Ho2]; [|done|lia].
  pose proof (grows_trans _ _ _ _ _ _ Hg1 Hg2) as Hg.
  destruct o as [p|]; intros [= <- <-]; simpl.
  - destruct Ho2 as (-> & Hd & Hov & Hof & _). split.
    + eapply grows_store; [done|apply store_u16s_frame| |].
      * apply (g_data _ _ _ _ Hg1).
      * rewrite length_app. simpl. lia.
    + intros Hn. rewrite Hov in Hn. apply Ho1 in Hn as (Hd1 & Hof1 & Hov1 & ->).
      split_and!; congruence.
  - split; [done|congruence].
Qed.

Lemma put_string_grows io m io' m' l :
  room io -> put_units io m l = (io', m') -> Z.of_nat (length l) < MAX_BIO_SIZE / 2 ->
  grows io m io' m'.
Proof. intros Hr Hp Hl. by apply put_units_spec in Hp as [? _]. Qed.

Lemma bio_put_ref_spec io m h io' m' :
  room io -> bio_put_ref io m h = (io', m') ->
  grows io m io' m' /\
  (overflowed io' = false -> h <> 0 ->
     data io' = data io + sizeof_obj /\ offs io' = offs io + sizeof_binder_size_t
     /\ overflowed io = false
     /\ m' = write_obj (data io) BINDER_TYPE_HANDLE h 4
               (store (Z.to_nat sizeof_binder_size_t) (offs io) (data io - data0 io) m)).
Proof.
  intros Hr. unfold bio_put_ref, nz. pose proof uintptr_ge_4. pose proof sizeof_obj_bounds.
  destruct (Z.eqb_spec h 0) as [->|Hh]; simpl.
  - destruct (bio_alloc io sizeof_obj) as [io1 o] eqn:E.
    apply (bio_alloc_spec _ m) in E as [Hg Ho]; [|done|lia]. rewrite align4_obj in Ho.
    destruct o as [p|]; intros [= <- <-]; (split; [|done]); [|done].
    destruct Ho as (-> & Hd & _). eapply grows_store; [done|apply write_obj_frame; lia|lia|lia].
  - destruct (bio_alloc_obj io m) as [[io1 m1] o] eqn:E.
    apply bio_alloc_obj_spec in E as [Hg Ho]; [|done].
    destruct o as [p|]; intros [= <- <-].
    + destruct Ho as (-> & Hd & Hov & Hof & ->). split.
      * eapply grows_store; [done|apply write_obj_frame; lia|lia|lia].
      * intros. split_and!; congruence.
    + split; [done|congruence].
Qed.

Lemma bio_put_obj_spec io m ptr io' m' :
  room io -> bio_put_obj io m ptr = (io', m') ->
  grows io m io' m' /\
  (overflowed io' = false ->
     data io' = data io + sizeof_obj /\ offs io' = offs io + sizeof_binder_size_t
     /\ overflowed io = false
     /\ m' = write_obj (data io) BINDER_TYPE_BINDER ptr sizeof_binder_uintptr
               (store (Z.to_nat sizeof_binder_size_t) (offs io) (data io - data0 io) m)).
Proof.
  intros Hr. unfold bio_put_obj. pose proof uintptr_ge_4. pose proof sizeof_obj_bounds.
  destruct (bio_alloc_obj io m) as [[io1 m1] o] eqn:E.
  apply bio_alloc_obj_spec in E as [Hg Ho]; [|done].
  destruct o as [p|]; intros [= <- <-].
  - destruct Ho as (-> & Hd & Hov & Hof & ->). split.
    + eapply grows_store; [done|apply write_obj_frame; lia|lia|lia].
    + intros. split_and!; congruence.
  - split; [done|congruence].
Qed.

Lemma put_item_grows io m i io' m' :
  room io -> put_item io m i = (io', m') -> grows io m io' m'.
Proof.
  intros Hr. destruct i as [n|s|s|h|p]; unfold put_item.
  - intros H. by apply bio_put_uint32_spec in H as [? _].
  - rewrite bio_put_string16_units. destruct (_ >=? _) eqn:E; intros H.
    + by apply bio_put_uint32_spec in H as [? _].
    + bool_props. eapply put_string_grows; [done..|].
      rewrite length_take. pose proof (strlen16_le s). lia.
  - rewrite bio_put_string16_x_units. destruct (_ >=? _) eqn:E; intros H.
    + by apply bio_put_uint32_spec in H as [? _].
    + bool_props. eapply put_string_grows; [done..|].
      rewrite length_take. pose proof (strlen8_le s). lia.
  - intros H. by apply bio_put_ref_spec in H as [? _].
  - intros H. by apply bio_put_obj_spec in H as [? _].
Qed.

(** A write registers at most one object. *)
Lemma put_item_offs io m i io' m' :
  room io -> put_item io m i = (io', m') -> overflowed io' = false ->
  offs io' = offs io \/ offs io' = offs io + sizeof_binder_size_t.
Proof.
  intros Hr Hp Hov. destruct i as [n|s|s|h|p]; unfold put_item in Hp.
  - apply bio_put_uint32_spec in Hp as [_ H1]; [|done]. destruct (H1 Hov) as (_ & ? & _). by left.
  - rewrite bio_put_string16_units in Hp. destruct (_ >=? _) eqn:E; bool_props.
    + apply bio_put_uint32_spec in Hp as [_ H1]; [|done]. destruct (H1 Hov) as (_ & ? & _). by left.
    + apply put_units_spec in Hp as [_ H1]; [|done|].
      * destruct (H1 Hov) as (_ & ? & _). by left.
      * rewrite length_take. pose proof (strlen16_le s). lia.
  - rewrite bio_put_string16_x_units in Hp. destruct (_ >=? _) eqn:E; bool_props.
    + apply bio_put_uint32_spec in Hp as [_ H1]; [|done]. destruct (H1 Hov) as (_ & ? & _). by left.
    + apply put_units_spec in Hp as [_ H1]; [|done|].
      * destruct (H1 Hov) as (_ & ? & _). by left.
      * rewrite length_take. pose proof (strlen8_le s). lia.
  - destruct (decide (h = 0)) as [->|Hh].
    + unfold bio_put_ref in Hp. simpl in Hp. unfold bio_alloc in Hp.
      destruct (_ >? _) in Hp; injection Hp as <- <-; by left.
    + apply bio_put_ref_spec in Hp as [_ H1]; [|done]. destruct (H1 Hov Hh) as (_ & ? & _). by right.
  - apply bio_put_obj_spec in Hp as [_ H1]; [|done]. destruct (H1 Hov) as (_ & ? & _). by right.
Qed.

Lemma put_items_grows l io m io' m' :
  room io -> put_items io m l = (io', m') -> grows io m io' m'.
Proof.
  revert io m. induction l as [|i l IH]; intros io m Hr; simpl.
  - intros [= <- <-]. by apply grows_refl.
  - destruct (put_item io m i) as [io1 m1] eqn:E. intros H.
    apply put_item_grows in E; [|done].
    eapply grows_trans; [done|]. eapply IH; [|done]. by eapply grows_room.
Qed.

End Facts.

(** ** The readers *)

Section Readers.
Context {abi : BinderABI} {abi_ok : BinderABIOk abi}.
Implicit Types (io r : binder_io) (m : mem).

(** The cursor after [n] bytes have been consumed. *)
Definition advance r (n : Z) : binder_io :=
  Bio (data r + n) (offs r) (data_avail r - n) (offs_avail r) (data0 r) (offs0 r) (flags r).

Lemma bio_get_ok r size :
  align4 size <= data_avail r -> bio_get r size = (advance r (align4 size), Some (data r)).
Proof. intros H. unfold bio_get. destruct (Z.ltb_spec (data_avail r) (align4 size)); [lia|done]. Qed.

Lemma advance_advance r a b : advance (advance r a) b = advance r (a + b).
Proof. unfold advance; simpl. f_equal; lia. Qed.

Lemma offs_has_intro r m off k :
  0 <= Z.of_nat k < offs_avail r ->
  load (Z.to_nat sizeof_binder_size_t) (offs r + Z.of_nat k * sizeof_binder_size_t) m = off ->
  offs_has r m off = true.
Proof.
  intros Hk Hl. unfold offs_has. apply existsb_exists. exists k. split.
  - apply in_seq. lia.
  - by apply Z.eqb_eq.
Qed.

Lemma bio_get_ref_obj r m k typ val vs m0 :
  0 <= Z.of_nat k < offs_avail r -> sizeof_obj <= data_avail r ->
  load (Z.to_nat sizeof_binder_size_t) (offs r + Z.of_nat k * sizeof_binder_size_t) m
    = data r - data0 r ->
  (forall x, data r <= x < data r + sizeof_obj -> m x = write_obj (data r) typ val vs m0 x) ->
  (vs <= sizeof_binder_uintptr)%nat -> 0 <= typ < 2 ^ 32 ->
  bio_get_ref r m = (advance r sizeof_obj,
    if typ =? BINDER_TYPE_HANDLE then load 4 (data r + obj_handle) (write_obj (data r) typ val vs m0)
    else 0).
Proof.
  intros Hk Hs Ho Hm Hv Ht. unfold bio_get_ref, bio_get_obj_.
  rewrite (offs_has_intro _ _ _ k) by done.
  rewrite bio_get_ok by (rewrite align4_obj; lia). rewrite align4_obj.
  pose proof abi_type; pose proof abi_flags; pose proof abi_handle;
    pose proof abi_handle_cookie; pose proof abi_cookie; pose proof uintptr_ge_4.
  rewrite (load_ext 4 (data r + obj_type) (write_obj (data r) typ val vs m0) m)
    by (intros; apply Hm; lia).
  rewrite write_obj_type by done.
  rewrite (load_ext 4 (data r + obj_handle) (write_obj (data r) typ val vs m0) m)
    by (intros; apply Hm; lia).
  by destruct (typ =? BINDER_TYPE_HANDLE).
Qed.

Lemma get_units r m l m0 :
  Forall (fun u => 0 <= u < 65536) l -> Z.of_nat (length l) < MAX_BIO_SIZE / 2 ->
  let n := 4 + align4 ((Z.of_nat (length l) + 1) * 2) in
  n <= data_avail r ->
  (forall x, data r <= x < data r + n ->
     m x = store_u16s (data r + 4) (l ++ [0]) (store 4 (data r) (Z.of_nat (length l)) m0) x) ->
  get_item r m KStr = (advance r n, VStr l).
Proof.
  intros Hl Hlen n Hn Hm. rewrite max_bio_half in Hlen.
  pose proof (align4_bounds ((Z.of_nat (length l) + 1) * 2) ltac:(lia)).
  unfold get_item, bio_get_string16, bio_get_uint32.
  rewrite bio_get_ok by (rewrite align4_4; lia). rewrite align4_4.
  assert (Hlo : load 4 (data r) m = Z.of_nat (length l)).
  { erewrite load_ext by (intros; apply Hm; lia).
    erewrite load_frame by (apply store_u16s_frame || lia).
    apply load_store_small. simpl. lia. }
  rewrite Hlo, usz_small by lia. rewrite bio_get_ok by (simpl; lia).
  rewrite advance_advance. f_equal. f_equal. simpl data.
  rewrite Nat2Z.id.
  rewrite (load_u16s_ext _ _ (store_u16s (data r + 4) (l ++ [0])
             (store 4 (data r) (Z.of_nat (length l)) m0))) by (intros; apply Hm; lia).
  pose proof (load_u16s_store (data r + 4) (l ++ [0])
                (store 4 (data r) (Z.of_nat (length l)) m0)) as Hs.
  rewrite length_app, load_u16s_app in Hs. apply app_inj_1 in Hs as [-> _]; [done|len; done|].
  apply Forall_app. split; [done|]. constructor; [lia|constructor].
Qed.

(** An object that was written, read from a memory that keeps its bytes. *)
Lemma get_written_obj io m typ val vs io' m' r mf k :
  offs io' = offs io + sizeof_binder_size_t -> data io' = data io + sizeof_obj ->
  (vs <= sizeof_binder_uintptr)%nat -> 0 <= typ < 2 ^ 32 ->
  m' = write_obj (data io) typ val vs (store (Z.to_nat sizeof_binder_size_t) (offs io) (data io - data0 io) m) ->
  offs io' <= data0 io <= data io -> 0 <= data io - data0 io < 2 ^ 32 ->
  (forall x, data io <= x < data io' -> mf x = m' x) -> (forall x, offs io <= x < offs io' -> mf x = m' x) ->
  data r = data io -> data0 r = data0 io -> data io' - data io <= data_avail r ->
  offs io = offs r + Z.of_nat k * sizeof_binder_size_t -> offs io' <= offs r + offs_avail r * sizeof_binder_size_t ->
  bio_get_ref r mf = (advance r (data io' - data io),
    if typ =? BINDER_TYPE_HANDLE
    then load 4 (data r + obj_handle) (write_obj (data r) typ val vs
           (store (Z.to_nat sizeof_binder_size_t) (offs io) (data io - data0 io) m)) else 0).
Proof.
  intros Hoff Hdat Hvs Ht -> Hdis Hrng Hd Ho Er E0 Hav Hk Hof. pose proof bsz_pos. pose proof sizeof_obj_bounds.
  rewrite Hdat. replace (data io + sizeof_obj - data io) with sizeof_obj by lia.
  apply bio_get_ref_obj with k; try done; try lia; [nia| |].
  - rewrite <- Hk, Er, E0. erewrite load_ext by (intros; apply Ho; lia). pose proof uintptr_ge_4.
    rewrite (load_frame _ _ _ _ _ _ (write_obj_frame _ _ _ _ _ Hvs uintptr_ge_4)) by lia.
    apply load_store_small. rewrite Z2Nat.id by lia. destruct abi_binder_size_t as [-> | ->]; lia.
  - intros x Hx. rewrite Er. apply Hd. lia.
Qed.

(** A string that was written, read from a memory that keeps its bytes. *)
Lemma get_written_units io m l io' m' r mf :
  room io -> Forall (fun u => 0 <= u < 65536) l -> Z.of_nat (length l) < MAX_BIO_SIZE / 2 ->
  put_units io m l = (io', m') -> overflowed io' = false ->
  (forall x, data io <= x < data io' -> mf x = m' x) -> data r = data io -> data io' - data io <= data_avail r ->
  get_item r mf KStr = (advance r (data io' - data io), VStr l).
Proof.
  intros Hr Hl Hlen Hp Hov Hd Er Hav. apply put_units_spec in Hp as [Hg H1]; [|done..].
  destruct (H1 Hov) as (Hdat & _ & _ & ->). rewrite Hdat in *.
  replace (data io + 4 + _ - data io) with (4 + align4 ((Z.of_nat (length l) + 1) * 2)) by lia.
  apply get_units with m; [done|done|lia|]. intros x Hx. rewrite Er in *. apply Hd. lia.
Qed.

(** One write, read back from any later memory that keeps its bytes. *)
Lemma get_put_item io m i io' m' r mf :
  room io -> item_ok i -> put_item io m i = (io', m') -> overflowed io' = false ->
  offs io' <= data0 io <= data io -> 0 <= data io - data0 io < 2 ^ 32 ->
  (forall x, data io <= x < data io' -> mf x = m' x) ->
  (forall x, offs io <= x < offs io' -> mf x = m' x) ->
  data r = data io -> data0 r = data0 io -> data io' - data io <= data_avail r ->
  (exists k, offs io = offs r + Z.of_nat k * sizeof_binder_size_t) ->
  offs io' <= offs r + offs_avail r * sizeof_binder_size_t ->
  get_item r mf (kind_of i) = (advance r (data io' - data io), value_of i).
Proof.
  intros Hr Hok Hp Hov Hdis Hrng Hd Ho Er E0 Hav [k Hk] Hof.
  destruct i as [n|s|s|h|p]; unfold put_item in Hp; simpl in Hok; simpl kind_of; simpl value_of.
  - apply bio_put_uint32_spec in Hp as [Hg H1]; [|done]. destruct (H1 Hov) as (Hdat & _ & _ & ->).
    unfold get_item, bio_get_uint32. rewrite bio_get_ok by (rewrite align4_4; lia).
    rewrite align4_4. f_equal; [f_equal; lia|]. f_equal. rewrite Er.
    erewrite load_ext by (intros; apply Hd; lia). by apply load_store_small.
  - destruct Hok as [Hs Hlen]. rewrite bio_put_string16_units, strlen16_ok, firstn_all in Hp by done.
    destruct (_ >=? _) eqn:E; bool_props; [lia|].
    eapply get_written_units; [done| |done..]. eapply Forall_impl; [done|]. simpl. lia.
  - destruct Hok as [Hs Hlen]. rewrite bio_put_string16_x_units, strlen8_ok, firstn_all in Hp by done.
    destruct (_ >=? _) eqn:E; bool_props; [lia|].
    eapply get_written_units; [done| |done..]. eapply Forall_impl; [done|]. simpl. lia.
  - apply bio_put_ref_spec in Hp as [Hg H1]; [|done]. destruct (H1 Hov ltac:(lia)) as (Hdat & Hoff & _ & Hm').
    unfold get_item. rewrite (get_written_obj io m _ _ 4 io' m' r mf k Hoff Hdat uintptr_ge_4 abi_handle_u32 Hm') by done.
    by rewrite Z.eqb_refl, write_obj_handle by lia.
  - apply bio_put_obj_spec in Hp as [Hg H1]; [|done]. destruct (H1 Hov) as (Hdat & Hoff & _ & Hm').
    unfold get_item. rewrite (get_written_obj io m _ _ _ io' m' r mf k Hoff Hdat (le_n _) abi_binder_u32 Hm') by done.
    destruct (Z.eqb_spec BINDER_TYPE_BINDER BINDER_TYPE_HANDLE); [|done]. by apply abi_types_differ in e.
Qed.

Lemma get_put_items l io m io' m' r :
  room io -> Forall item_ok l -> put_items io m l = (io', m') -> overflowed io' = false ->
  offs io' <= data0 io <= data io -> data io' - data0 io < 2 ^ 32 ->
  data r = data io -> data0 r = data0 io -> data io' - data io <= data_avail r ->
  (exists k, offs io = offs r + Z.of_nat k * sizeof_binder_size_t) ->
  offs io' <= offs r + offs_avail r * sizeof_binder_size_t ->
  get_items r m' (kind_of <$> l) = (advance r (data io' - data io), value_of <$> l).
Proof.
  revert io m r. induction l as [|i l IH]; intros io m r Hr Hok Hp Hov Hdis Hrng Er E0 Hav Hk Hof.
  { injection Hp as <- <-. simpl. rewrite Z.sub_diag. unfold advance.
    destruct r; simpl. do 2 f_equal; lia. }
  apply Forall_cons in Hok as [Hi Hok]. simpl in Hp.
  destruct (put_item io m i) as [io1 m1] eqn:E.
  pose proof (put_item_grows _ _ _ _ _ Hr E) as G1.
  pose proof (grows_room _ _ _ _ G1) as Hr1.
  pose proof (put_items_grows _ _ _ _ _ Hr1 Hp) as G2.
  pose proof (grows_overflow _ _ _ _ G2 Hov) as Hov1.
  pose proof (put_item_offs _ _ _ _ _ Hr E Hov1) as Hstep.
  pose proof (g_data _ _ _ _ G1); pose proof (g_data _ _ _ _ G2).
  pose proof (g_offs _ _ _ _ G1); pose proof (g_offs _ _ _ _ G2).
  pose proof (g_data0 _ _ _ _ G1).
  cbn [fmap list_fmap get_items].
  rewrite (get_put_item io m i io1 m1 r m'); try done; try lia.
  - assert (Hrest : get_items (advance r (data io1 - data io)) m' (kind_of <$> l)
      = (advance (advance r (data io1 - data io)) (data io' - data io1), value_of <$> l)).
    { apply (IH io1 m1); simpl; try done; try lia.
      destruct Hk as [k Hk]. destruct Hstep as [-> | ->]; [by exists k|].
      exists (S k). lia. }
    rewrite Hrest, advance_advance. f_equal. f_equal. lia.
  - intros x Hx. apply (g_frame _ _ _ _ G2); lia.
  - intros x Hx. apply (g_frame _ _ _ _ G2); lia.
Qed.

Implicit Types (old : binder_io).

(** The layout [bio_init] gives to a buffer that is large enough. *)
Lemma bio_init_layout old dat maxdata maxoffs :
  0 <= maxoffs -> maxoffs * sizeof_size_t <= maxdata -> maxdata < 2 ^ 32 ->
  let n := maxoffs * sizeof_size_t in
  bio_init old dat maxdata maxoffs
  = Bio (dat + n) dat (maxdata - n) maxoffs (dat + n) dat 0.
Proof.
  intros H0 Hn Hm n. unfold bio_init. rewrite usz_small.
  - destruct (Z.gtb_spec (maxoffs * sizeof_size_t) maxdata); [lia|done].
  - destruct abi_size_t as [E|E]; rewrite E in *; lia.
Qed.

(** Writing into a fresh buffer and reading what [binder_send_reply] sends. *)
Lemma bio_roundtrip_result old dat maxdata maxoffs m l io' m' :
  0 <= maxoffs -> maxoffs * sizeof_size_t <= maxdata -> maxdata < 2 ^ 32 ->
  sizeof_binder_size_t = sizeof_size_t ->
  Forall item_ok l ->
  put_items (bio_init old dat maxdata maxoffs) m l = (io', m') ->
  overflowed io' = false ->
  exists r', get_items (bio_init_from_txn (bio_txn io')) m' (kind_of <$> l)
             = (r', value_of <$> l)
             /\ data_avail r' = 0 /\ overflowed r' = false.
Proof.
  intros H0 Hn Hm Hsz Hl Hp Hov.
  rewrite bio_init_layout in Hp by done. pose proof bsz_pos.
  set (io := Bio _ _ _ _ _ _ _) in Hp.
  assert (Hr : room io) by (unfold room, io; simpl; lia).
  pose proof (put_items_grows _ _ _ _ _ Hr Hp) as [G1 G2 G3 G4 G5 G6 G7 G8 _ _].
  simpl in G1, G2, G3, G4, G5, G6, G7, G8.
  assert (Hmul : exists k, 0 <= k /\ offs io' - offs0 io' = k * sizeof_binder_size_t).
  { exists (maxoffs - offs_avail io'). rewrite G2. split; [nia|lia]. }
  destruct Hmul as (k & Hk0 & Hk).
  set (r := bio_init_from_txn (bio_txn io')).
  assert (Hget := get_put_items l io m io' m' r Hr Hl Hp Hov).
  rewrite Hget; simpl; try lia; [|exists 0%nat; lia|].
  - eexists. split_and!; [done|simpl; lia|done].
  - rewrite Hk, <- Hsz, Z.div_mul by lia. lia.
Qed.

End Readers.

(** * Properties *)

Section Properties.
Context {abi : BinderABI} {abi_ok : BinderABIOk abi}.
Implicit Types (io r old : binder_io) (m : mem).

(** C20: what [bio_put_*] writes into a buffer set up by [bio_init], in any
    sequence that does not overflow it, the [bio_get_*] calls of the receiver
    read back in order, when the receiver's cursor is set up by
    [bio_init_from_txn] from the sizes that [binder_send_reply] sends; and the
    receiver then has consumed the whole payload. *)
Theorem bio_roundtrip old dat maxdata maxoffs m l io' m' :
  0 <= maxoffs -> maxoffs * sizeof_size_t <= maxdata -> maxdata < 2 ^ 32 ->
  sizeof_binder_size_t = sizeof_size_t ->
  Forall item_ok l ->
  put_items (bio_init old dat maxdata maxoffs) m l = (io', m') ->
  overflowed io' = false ->
  exists r', get_items (bio_init_from_txn (bio_txn io')) m' (kind_of <$> l)
             = (r', value_of <$> l)
             /\ data_avail r' = 0 /\ overflowed r' = false.
Proof. apply bio_roundtrip_result. Qed.

(** C21: no sequence of writes, whether or not it overflows, touches a byte
    outside the buffer given to [bio_init]. *)
Theorem bio_put_in_bounds old dat maxdata maxoffs m l io' m' :
  0 <= maxoffs -> maxoffs * sizeof_size_t <= maxdata -> maxdata < 2 ^ 32 ->
  sizeof_binder_size_t <= sizeof_size_t ->
  put_items (bio_init old dat maxdata maxoffs) m l = (io', m') ->
  frame dat (dat + maxdata) m m'.
Proof.
  intros H0 Hn Hm Hsz Hp. rewrite bio_init_layout in Hp by done. pose proof bsz_pos.
  set (io := Bio _ _ _ _ _ _ _) in Hp.
  assert (Hr : room io) by (unfold room, io; simpl; lia).
  pose proof (put_items_grows _ _ _ _ _ Hr Hp) as [G1 G2 G3 G4 G5 G6 G7 G8 _ G10].
  simpl in *. intros x Hx. apply G10; nia.
Qed.

(** Where [size_t] has 64 bits, a string that [bio_get_string16] returns
    lies inside the data that was left in the message, terminator included,
    whatever length the sender wrote. *)
Theorem bio_get_string16_in_bounds io m io' p len :
  sizeof_size_t = 8 -> 0 <= load 4 (data io) m < 2 ^ 32 ->
  bio_get_string16 io m = (io', Some p, len) ->
  data io <= p /\ 0 <= len /\ p + 2 * (len + 1) <= data io + data_avail io.
Proof.
  intros H8 Hrange. unfold bio_get_string16, bio_get_uint32.
  destruct (bio_get io 4) as [io1 o1] eqn:E1. unfold bio_get in E1. rewrite align4_4 in E1.
  set (n := match o1 with Some p => load 4 p m | None => 0 end).
  assert (Hn : 0 <= n < 2 ^ 32).
  { unfold n. destruct (data_avail io <? 4); injection E1 as <- <-; [lia|done]. }
  assert (Hu : usz ((n + 1) * 2) = (n + 1) * 2).
  { unfold usz. rewrite H8. apply Z.mod_small. lia. }
  rewrite Hu. unfold bio_get.
  assert (Ha : (n + 1) * 2 <= align4 ((n + 1) * 2)).
  { unfold align4, usz. rewrite H8. change (8 * 8) with 64.
    rewrite (Z.mod_small ((n + 1) * 2 + 3)) by lia.
    change (-4 mod 2 ^ 64) with (Z.land (Z.lnot (Z.ones 2)) (Z.ones 64)).
    rewrite Z.land_assoc, Z.land_ones, <- Z.ldiff_land, Z.ldiff_ones_r by lia.
    rewrite Z.shiftl_mul_pow2, Z.shiftr_div_pow2 by lia. change (2 ^ 2) with 4.
    pose proof (Z.div_mod ((n + 1) * 2 + 3) 4 ltac:(lia)).
    pose proof (Z.mod_pos_bound ((n + 1) * 2 + 3) 4 ltac:(lia)).
    rewrite Z.mod_small by lia. lia. }
  destruct (Z.ltb_spec (data_avail io1) (align4 ((n + 1) * 2))); intros [= <- <- <-].
  destruct (Z.ltb_spec (data_avail io) 4); injection E1 as <- _; simpl in *; lia.
Qed.

End Properties.

(** Where [size_t] has 32 bits the size computation wraps: the length
    0xffffffff asks for no byte at all and the string is returned. *)
Example bio_get_string16_wraps_32 :
  let m := store 4 0 0xffffffff (fun _ => 0) in
  let '(_, p, len) := @bio_get_string16 abi32 (Bio 0 0 4 0 0 0 0) m in
  p = Some 4 /\ len = 0xffffffff.
Proof. split; vm_compute; reflexivity. Qed.

(** In a 32-bit process the offsets are 64-bit words but [bio_init] reserves
    32 bits for each: the third object's offset overwrites the first object. *)
Definition clobber32 : binder_io * mem :=
  @put_items abi32 (@bio_init abi32 (Bio 0 0 0 0 0 0 0) 0 256 4) (fun _ => 0)
    [IRef 7; IRef 8; IRef 9].

Example bio_init_offsets_overlap_32 :
  (overflowed (fst clobber32),
   snd (@get_items abi32 (@bio_init_from_txn abi32 (bio_txn (fst clobber32))) (snd clobber32) [KRef]))
  = (false, [VRef 0]).
Proof. vm_compute. reflexivity. Qed.

(** ** Witnesses *)

#[local] Existing Instance abi64.

Definition demo_items : list item := [IU32 7; IStr [97; 98]; IRef 5; IStrX [99]; IObj 64].

Definition demo_bio : binder_io := @bio_init abi64 (Bio 0 0 0 0 0 0 0) 1000 512 4.

Lemma demo_items_ok : Forall item_ok demo_items.
Proof.
  repeat constructor; simpl; try lia.
Qed.

Lemma bio_roundtrip_witness :
  exists r', get_items (bio_init_from_txn (bio_txn (fst (@put_items abi64 demo_bio (fun _ => 0) demo_items))))
     (snd (@put_items abi64 demo_bio (fun _ => 0) demo_items)) (kind_of <$> demo_items)
   = (r', [VU32 7; VStr [97; 98]; VRef 5; VStr [99]; VRef 0])
   /\ data_avail r' = 0 /\ overflowed r' = false.
Proof.
  apply (@bio_roundtrip abi64 abi64_ok (Bio 0 0 0 0 0 0 0) 1000 512 4 (fun _ => 0) demo_items
           (fst (@put_items abi64 demo_bio (fun _ => 0) demo_items))
           (snd (@put_items abi64 demo_bio (fun _ => 0) demo_items))).
  - lia.
  - vm_compute; discriminate.
  - lia.
  - reflexivity.
  - apply demo_items_ok.
  - apply surjective_pairing.
  - vm_compute; reflexivity.
Defined.

Lemma bio_put_in_bounds_witness :
  frame 1000 (1000 + 512) (fun _ => 0) (snd (@put_items abi64 demo_bio (fun _ => 0) demo_items)).
Proof.
  apply (@bio_put_in_bounds abi64 abi64_ok (Bio 0 0 0 0 0 0 0) 1000 512 4 (fun _ => 0) demo_items
           (fst (@put_items abi64 demo_bio (fun _ => 0) demo_items))).
  - lia.
  - vm_compute; discriminate.
  - lia.
  - vm_compute; discriminate.
  - apply surjective_pairing.
Defined.

Lemma bio_get_string16_in_bounds_witness :
  let m := store 4 0 1 (store 2 4 97 (fun _ => 0)) in
  0 <= 4 /\ 0 <= 1 /\ 4 + 2 * (1 + 1) <= 0 + 8.
Proof.
  intros m.
  apply (@bio_get_string16_in_bounds abi64 abi64_ok (Bio 0 0 8 0 0 0 0) m
           (Bio 8 0 0 0 0 0 0) 4 1).
  - reflexivity.
  - vm_compute; split; [discriminate|reflexivity].
  - vm_compute; reflexivity.
Defined.
