(* ===== verification/ServiceManager.v ===== *)
(** The service registry of [servicemanager/service_manager.c].

    The state is the linked list [svclist] of [struct svcinfo], whose nodes
    are never freed and are identified by their address, and the log of the
    commands sent to the binder driver ([binder_acquire], [binder_release],
    [binder_link_to_death]). [svcmgr_handler] runs one transaction on it. The
    abstract specification is a finite map from names to entries. *)

From S2P Require Import Prelude Bytes BinderIO.

Open Scope Z_scope.

(** * Data *)

(** The commands that are written to the driver. The payload of a transaction
    or a reply is what the driver copies: its data and its offsets. *)
Inductive cmd :=
| BC_ACQUIRE (target : Z)
| BC_RELEASE (target : Z)
| BC_REQUEST_DEATH_NOTIFICATION (target : Z) (cookie : Z)
| BC_ENTER_LOOPER
| BC_FREE_BUFFER (buffer : Z)
| BC_REPLY (flags : Z) (payload offsets : list Z)
| BC_TRANSACTION (target code : Z) (payload offsets : list Z).

#[export] Instance cmd_eq_dec : EqDecision cmd.
Proof. solve_decision. Defined.

Record svcinfo := SvcInfo {
  si_addr : Z;             (* the node's address; [death.ptr] is this address *)
  si_handle : Z;
  allow_isolated : Z;
  dumpsys_priority : Z;
  si_len : nat;
  si_name : list Z;
}.

Record smstate := SmState {
  svclist : list svcinfo;  (* head first *)
  next_addr : Z;           (* the address [malloc] returns next *)
  driver_log : list cmd;   (* latest first *)
}.

Definition sm_init : smstate := SmState [] 1 [].

Record txn := Txn {
  target_ptr : Z;
  txn_code : Z;
  sender_pid : Z;
  sender_euid : Z;
  secctx : Z;
}.

Definition BINDER_SERVICE_MANAGER : Z := 0.
Definition SVC_MGR_GET_SERVICE : Z := 1.
Definition SVC_MGR_CHECK_SERVICE : Z := 2.
Definition SVC_MGR_ADD_SERVICE : Z := 3.
Definition SVC_MGR_LIST_SERVICES : Z := 4.

(** "android.os.IServiceManager" *)
Definition svcmgr_id : list Z := code <$> lit "android.os.IServiceManager".

(** * Operations *)

(** [str8]: at most 127 units, up to the first NUL, narrowed to [char]. *)
Fixpoint str8_copy (max : nat) (x : list Z) : list Z :=
  match max, x with
  | S max', u :: x' => if u =? 0 then [] else u8 u :: str8_copy max' x'
  | _, _ => []
  end.

Definition str8 (x : list Z) (x_len : nat) : list Z :=
  str8_copy (if (x_len <? 127)%nat then x_len else 127%nat) x.

(** [check_mac_perms] returns before it consults SELinux. *)
Definition check_mac_perms (spid sid uid : Z) (perm : str) (name : list Z) : bool := true.

Definition check_mac_perms_from_getcon (spid sid uid : Z) (perm : str) : bool :=
  check_mac_perms spid sid uid perm [].

Definition check_mac_perms_from_lookup (spid sid uid : Z) (perm : str) (name : list Z) : bool :=
  check_mac_perms spid sid uid perm name.

Definition svc_can_register (name : list Z) (name_len : nat) (spid sid uid : Z) : Z :=
  if check_mac_perms_from_lookup spid sid uid (lit "add") (str8 name name_len) then 1 else 0.

Definition svc_can_list (spid sid uid : Z) : Z :=
  if check_mac_perms_from_getcon spid sid uid (lit "list") then 1 else 0.

Definition svc_can_find (name : list Z) (name_len : nat) (spid sid uid : Z) : Z :=
  if check_mac_perms_from_lookup spid sid uid (lit "find") (str8 name name_len) then 1 else 0.

(** [(len == si->len) && !memcmp(s16, si->name, len * 2)] *)
Definition name_matches (s16 : list Z) (len : nat) (si : svcinfo) : bool :=
  (len =? si_len si)%nat && bool_decide (take len s16 = take len (si_name si)).

Definition find_svc (l : list svcinfo) (s16 : list Z) (len : nat) : option svcinfo :=
  List.find (name_matches s16 len) l.

(** Assignment to the [handle] field of the node at [addr]. *)
Definition set_handle (addr h : Z) (l : list svcinfo) : list svcinfo :=
  (fun si => if si_addr si =? addr
             then SvcInfo (si_addr si) h (allow_isolated si) (dumpsys_priority si)
                          (si_len si) (si_name si)
             else si) <$> l.

Definition node_at (addr : Z) (l : list svcinfo) : option svcinfo :=
  List.find (fun si => si_addr si =? addr) l.

(** A [binder_write]; its result is not used. *)
Definition log_cmd (c : cmd) (st : smstate) : smstate :=
  SmState (svclist st) (next_addr st) (c :: driver_log st).

Definition binder_acquire (st : smstate) (target : Z) : smstate :=
  SmState (svclist st) (next_addr st) (BC_ACQUIRE target :: driver_log st).

Definition binder_release (st : smstate) (target : Z) : smstate :=
  SmState (svclist st) (next_addr st) (BC_RELEASE target :: driver_log st).

Definition binder_link_to_death (st : smstate) (target cookie : Z) : smstate :=
  SmState (svclist st) (next_addr st) (BC_REQUEST_DEATH_NOTIFICATION target cookie :: driver_log st).

(** What the death callback does with a node. *)
Definition svcinfo_died (si : svcinfo) (st : smstate) : smstate :=
  if nz (si_handle si) then
    let st := binder_release st (si_handle si) in
    SmState (set_handle (si_addr si) 0 (svclist st)) (next_addr st) (driver_log st)
  else st.

(** The death callback. Its [ptr] is used as a node without a look: [None] where
    it is the address of none, and the process goes wild. *)
Definition svcinfo_death (st : smstate) (ptr : Z) : option smstate :=
  (fun si => svcinfo_died si st) <$> node_at ptr (svclist st).

Section Registry.
(* private/android_filesystem_config.h *)
Context (AID_USER AID_ISOLATED_START AID_ISOLATED_END : Z).

Definition is_isolated (uid : Z) : bool :=
  let appid := uid mod AID_USER in
  (appid >=? AID_ISOLATED_START) && (appid <=? AID_ISOLATED_END).

Definition do_find_service (st : smstate) (s : list Z) (len : nat) (uid spid sid : Z) : Z :=
  match find_svc (svclist st) s len with
  | None => 0
  | Some si =>
      if negb (nz (si_handle si)) then 0
      else if negb (nz (allow_isolated si)) && is_isolated uid then 0
      else if negb (nz (svc_can_find s len spid sid uid)) then 0
      else si_handle si
  end.

(** [malloc_ok]: whether the allocation of a node succeeds. *)
Definition do_add_service (malloc_ok : bool) (st : smstate) (s : list Z) (len : nat) (handle uid : Z)
    (allow_iso priority spid sid : Z) : smstate * Z :=
  if negb (nz handle) || (len =? 0)%nat || (127 <? len)%nat then (st, -1)
  else if negb (nz (svc_can_register s len spid sid uid)) then (st, -1)
  else
    let registered :=
      match find_svc (svclist st) s len with
      | Some si =>
          let st := if nz (si_handle si) then svcinfo_died si st else st in
          Some (SmState (set_handle (si_addr si) handle (svclist st)) (next_addr st) (driver_log st),
                si_addr si)
      | None =>
          if malloc_ok then
            let si := SvcInfo (next_addr st) handle allow_iso priority len (take len s ++ [0]) in
            Some (SmState (si :: svclist st) (next_addr st + 1) (driver_log st), next_addr st)
          else None
      end in
    match registered with
    | None => (st, -1)
    | Some (st, addr) => (binder_link_to_death (binder_acquire st handle) handle addr, 0)
    end.

(** The walk of [SVC_MGR_LIST_SERVICES]. *)
Fixpoint list_nth (l : list svcinfo) (n : nat) (req : Z) : option svcinfo :=
  match l with
  | [] => None
  | si :: l' =>
      if nz (Z.land (dumpsys_priority si) req)
      then match n with O => Some si | S n' => list_nth l' n' req end
      else list_nth l' n req
  end.

Context {abi : BinderABI} (PING_TRANSACTION : Z).

(** The result of a handler: the status, the registry, the reply's cursor
    and the memory. *)
Record hresult := HResult {
  hr_status : Z;
  hr_state : smstate;
  hr_reply : binder_io;
  hr_mem : mem;
}.

(** A string of the message: its length and the units behind its pointer. *)
Definition read_units (m : mem) (p len : Z) : list Z := load_u16s (S (Z.to_nat len)) p m.

Definition svcmgr_handler (malloc_ok : bool) (st : smstate) (t : txn) (msg reply : binder_io) (m : mem)
    : hresult :=
  let fail st := HResult (-1) st reply m in
  let finish st := let '(reply', m') := bio_put_uint32 reply m 0 in HResult 0 st reply' m' in
  if negb (target_ptr t =? BINDER_SERVICE_MANAGER) then fail st
  else if txn_code t =? PING_TRANSACTION then HResult 0 st reply m
  else
    let '(msg, strict_policy) := bio_get_uint32 msg m in
    let '(msg, worksource) := bio_get_uint32 msg m in
    let '(msg, s, len) := bio_get_string16 msg m in
    match s with
    | None => fail st
    | Some p =>
      if negb (len =? Z.of_nat (length svcmgr_id))
         || negb (bool_decide (take (length svcmgr_id) (read_units m p len) = svcmgr_id))
      then fail st
      else if (txn_code t =? SVC_MGR_GET_SERVICE) || (txn_code t =? SVC_MGR_CHECK_SERVICE) then
        let '(msg, s, len) := bio_get_string16 msg m in
        match s with
        | None => fail st
        | Some p =>
            let handle := do_find_service st (read_units m p len) (Z.to_nat len)
                            (sender_euid t) (sender_pid t) (secctx t) in
            if negb (nz handle) then finish st
            else let '(reply', m') := bio_put_ref reply m handle in HResult 0 st reply' m'
        end
      else if txn_code t =? SVC_MGR_ADD_SERVICE then
        let '(msg, s, len) := bio_get_string16 msg m in
        match s with
        | None => fail st
        | Some p =>
            let '(msg, handle) := bio_get_ref msg m in
            let '(msg, iso) := bio_get_uint32 msg m in
            let allow_isolated := if nz iso then 1 else 0 in
            let '(msg, priority) := bio_get_uint32 msg m in
            let '(st', r) := do_add_service malloc_ok st (read_units m p len) (Z.to_nat len) handle
                               (sender_euid t) allow_isolated priority (sender_pid t) (secctx t) in
            if nz r then fail st' else finish st'
        end
      else if txn_code t =? SVC_MGR_LIST_SERVICES then
        let '(msg, n) := bio_get_uint32 msg m in
        let '(msg, req) := bio_get_uint32 msg m in
        if negb (nz (svc_can_list (sender_pid t) (secctx t) (sender_euid t))) then fail st
        else
          match list_nth (svclist st) (Z.to_nat n) req with
          | Some si => let '(reply', m') := bio_put_string16 reply m (Some (si_name si)) in
                       HResult 0 st reply' m'
          | None => fail st
          end
      else fail st
    end.

End Registry.

(** * Abstract specification *)

Record entry := Entry {
  e_handle : Z;
  e_isolated : Z;
  e_priority : Z;
}.

Definition key_of (si : svcinfo) : list Z := take (si_len si) (si_name si).

Definition entry_of (si : svcinfo) : entry :=
  Entry (si_handle si) (allow_isolated si) (dumpsys_priority si).

(** The map a registry implements. *)
Definition registry (st : smstate) : gmap (list Z) entry :=
  list_to_map ((fun si => (key_of si, entry_of si)) <$> svclist st).

(** An entry keeps the flags of its first registration. *)
Definition spec_add (k : list Z) (h iso prio : Z) (r : gmap (list Z) entry) : gmap (list Z) entry :=
  match r !! k with
  | Some e => <[k := Entry h (e_isolated e) (e_priority e)]> r
  | None => <[k := Entry h iso prio]> r
  end.

Definition spec_find (r : gmap (list Z) entry) (k : list Z) (isolated : bool) : Z :=
  match r !! k with
  | Some e => if (e_handle e =? 0) || ((e_isolated e =? 0) && isolated) then 0 else e_handle e
  | None => 0
  end.

Definition kill (e : entry) : entry := Entry 0 (e_isolated e) (e_priority e).

Record svc_wf (next : Z) (si : svcinfo) : Prop := {
  wf_len : (0 < si_len si <= 127)%nat;
  wf_name : length (si_name si) = S (si_len si);
  wf_addr : 0 < si_addr si < next;
}.

(** Nodes have distinct addresses and distinct names. *)
Record sm_wf (st : smstate) : Prop := {
  wf_nodes : Forall (svc_wf (next_addr st)) (svclist st);
  wf_addrs : NoDup (si_addr <$> svclist st);
  wf_keys : NoDup (key_of <$> svclist st);
  wf_next : 0 < next_addr st;
}.

(** One registration, notification or answer, as [binder_parse] makes them. *)
Inductive sm_step : smstate -> smstate -> Prop :=
| step_add ok st s len h uid iso prio spid sid st' r :
    (len < length s)%nat ->
    do_add_service ok st s len h uid iso prio spid sid = (st', r) ->
    sm_step st st'
| step_death st addr st' :
    svcinfo_death st addr = Some st' -> sm_step st st'
| step_answer st c :
    (forall h, c <> BC_ACQUIRE h /\ c <> BC_RELEASE h) ->
    sm_step st (log_cmd c st).

Definition sm_reachable (st : smstate) : Prop := rtc sm_step sm_init st.

(** Strong references the driver holds for us on [h], according to the log. *)
Definition refs (h : Z) (log : list cmd) : Z :=
  Z.of_nat (length (filter (fun c => c = BC_ACQUIRE h) log))
  - Z.of_nat (length (filter (fun c => c = BC_RELEASE h) log)).

Definition live (h : Z) (l : list svcinfo) : Z :=
  Z.of_nat (length (filter (fun si => si_handle si = h) l)).

(** The message of [svcmgr_lookup] in [servicemanager/bctest.c]. *)
Definition bctest_lookup_items (name : list Z) : list item :=
  [IU32 0; IStrX svcmgr_id; IStrX name].

(** * Lemmas *)

Section Facts.
Implicit Types (st : smstate) (l : list svcinfo) (si : svcinfo) (s k : list Z).

Lemma find_svc_Some l s len si :
  find_svc l s len = Some si -> si ∈ l /\ si_len si = len /\ key_of si = take len s.
Proof.
  intros H. apply find_some in H as [Hin Hm]. unfold name_matches in Hm. bool_props.
  subst len. split_and!; [by apply list_elem_of_In|done|]. unfold key_of. congruence.
Qed.

Lemma find_svc_None l s len si :
  find_svc l s len = None -> si ∈ l -> si_len si = len -> key_of si <> take len s.
Proof.
  intros H Hin Hl Hk. apply list_elem_of_In in Hin.
  pose proof (find_none _ _ H _ Hin) as Hn. unfold name_matches in Hn.
  rewrite Hl, Nat.eqb_refl in Hn. simpl in Hn. bool_props. apply Hn. unfold key_of in Hk. congruence.
Qed.

Lemma key_length next si : svc_wf next si -> length (key_of si) = si_len si.
Proof. intros [? Hn _]. unfold key_of. rewrite length_take, Hn. lia. Qed.

Lemma find_svc_key st s len si :
  sm_wf st -> (len <= length s)%nat -> si ∈ svclist st -> key_of si = take len s ->
  find_svc (svclist st) s len = Some si.
Proof.
  intros Hwf Hs Hin Hk.
  assert (Hlen : si_len si = len).
  { pose proof (wf_nodes _ Hwf) as Hn. rewrite Forall_forall in Hn.
    rewrite <- (key_length _ _ (Hn _ Hin)), Hk, length_take. lia. }
  destruct (find_svc (svclist st) s len) as [si'|] eqn:E.
  - apply find_svc_Some in E as (Hin' & _ & Hk'). f_equal.
    apply list_elem_of_lookup in Hin as [i Hi]. apply list_elem_of_lookup in Hin' as [j Hj].
    assert (i = j) as ->; [|congruence].
    eapply (NoDup_lookup _ i j (key_of si) (wf_keys _ Hwf)); rewrite list_lookup_fmap.
    + by rewrite Hi.
    + rewrite Hj. simpl. congruence.
  - by destruct (find_svc_None _ _ _ _ E Hin Hlen).
Qed.

Lemma registry_lookup st k e :
  sm_wf st -> registry st !! k = Some e <->
  exists si, si ∈ svclist st /\ key_of si = k /\ entry_of si = e.
Proof.
  intros Hwf. unfold registry. rewrite <- elem_of_list_to_map.
  - rewrite list_elem_of_fmap. split.
    + intros (si & [= -> ->] & Hin). by exists si.
    + intros (si & Hin & <- & <-). by exists si.
  - rewrite <- list_fmap_compose. apply (wf_keys _ Hwf).
Qed.

Lemma registry_find st s len :
  sm_wf st -> (len <= length s)%nat ->
  registry st !! take len s = entry_of <$> find_svc (svclist st) s len.
Proof.
  intros Hwf Hs. destruct (find_svc (svclist st) s len) as [si|] eqn:E; simpl.
  - apply find_svc_Some in E as (Hin & _ & Hk). apply registry_lookup; [done|].
    exists si. by rewrite Hk.
  - apply eq_None_not_Some. intros [e He]. apply registry_lookup in He as (si & Hin & Hk & _); [|done].
    rewrite (find_svc_key _ _ _ _ Hwf Hs Hin Hk) in E. discriminate.
Qed.

Lemma node_at_Some l addr si : node_at addr l = Some si -> si ∈ l /\ si_addr si = addr.
Proof.
  intros H. apply find_some in H as [Hin Ha]. apply Z.eqb_eq in Ha.
  split; [by apply list_elem_of_In|done].
Qed.

Lemma node_unique l si si' :
  NoDup (si_addr <$> l) -> si ∈ l -> si' ∈ l -> si_addr si = si_addr si' -> si = si'.
Proof.
  intros Hnd Hin Hin' Ha.
  apply list_elem_of_lookup in Hin as [i Hi]. apply list_elem_of_lookup in Hin' as [j Hj].
  assert (i = j) as ->; [|congruence].
  eapply (NoDup_lookup _ i j (si_addr si) Hnd); rewrite list_lookup_fmap.
  - by rewrite Hi.
  - rewrite Hj. simpl. congruence.
Qed.

Lemma node_at_in l si : NoDup (si_addr <$> l) -> si ∈ l -> node_at (si_addr si) l = Some si.
Proof.
  intros Hnd Hin. destruct (node_at (si_addr si) l) as [si'|] eqn:E.
  - apply node_at_Some in E as [Hin' Ha]. f_equal. by eapply node_unique.
  - apply list_elem_of_In in Hin. pose proof (find_none _ _ E _ Hin) as Hn. simpl in Hn.
    rewrite Z.eqb_refl in Hn. discriminate.
Qed.

Lemma set_handle_addrs addr h l : si_addr <$> set_handle addr h l = si_addr <$> l.
Proof.
  unfold set_handle. rewrite <- list_fmap_compose. apply list_fmap_ext. intros i si _. simpl.
  by destruct (si_addr si =? addr).
Qed.

Lemma set_handle_keys addr h l : key_of <$> set_handle addr h l = key_of <$> l.
Proof.
  unfold set_handle. rewrite <- list_fmap_compose. apply list_fmap_ext. intros i si _. simpl.
  by destruct (si_addr si =? addr).
Qed.

Lemma elem_of_set_handle addr h l si :
  si ∈ set_handle addr h l <->
  exists si0, si0 ∈ l /\
    ((si_addr si0 <> addr /\ si = si0) \/
     (si_addr si0 = addr /\ si = SvcInfo addr h (allow_isolated si0) (dumpsys_priority si0)
                                          (si_len si0) (si_name si0))).
Proof.
  unfold set_handle. rewrite list_elem_of_fmap. split.
  - intros (si0 & -> & Hin). exists si0. split; [done|].
    destruct (Z.eqb_spec (si_addr si0) addr) as [<-|]; [by right|by left].
  - intros (si0 & Hin & [[Ha ->]|[<- ->]]); exists si0; (split; [|done]).
    + by destruct (Z.eqb_spec (si_addr si0) addr).
    + by rewrite Z.eqb_refl.
Qed.

Lemma set_handle_twice addr h h' l : set_handle addr h (set_handle addr h' l) = set_handle addr h l.
Proof.
  unfold set_handle. rewrite <- list_fmap_compose. apply list_fmap_ext. intros i si _. simpl.
  destruct (si_addr si =? addr) eqn:E; simpl; by rewrite E.
Qed.

Lemma wf_set_handle st addr h log :
  sm_wf st -> sm_wf (SmState (set_handle addr h (svclist st)) (next_addr st) log).
Proof.
  intros [Hn Ha Hk Hx]. split; simpl; [|by rewrite set_handle_addrs|by rewrite set_handle_keys|done].
  apply Forall_forall. intros si Hin. apply elem_of_set_handle in Hin as (si0 & Hin & H).
  rewrite Forall_forall in Hn. specialize (Hn _ Hin).
  destruct H as [[_ ->]|[<- ->]]; [done|]. destruct Hn. by split.
Qed.

Lemma registry_set_handle st si h log :
  sm_wf st -> si ∈ svclist st ->
  registry (SmState (set_handle (si_addr si) h (svclist st)) (next_addr st) log)
  = <[key_of si := Entry h (allow_isolated si) (dumpsys_priority si)]> (registry st).
Proof.
  intros Hwf Hin. apply map_eq. intros i. apply option_eq. intros e.
  rewrite registry_lookup by by apply wf_set_handle. rewrite lookup_insert_Some. simpl.
  split.
  - intros (si' & Hin' & <- & <-). apply elem_of_set_handle in Hin' as (si0 & Hin0 & [[Ha ->]|[Ha ->]]).
    + right. split.
      * intros Hk. apply Ha. f_equal.
        apply list_elem_of_lookup in Hin as [i Hi]. apply list_elem_of_lookup in Hin0 as [j Hj].
        assert (i = j) as ->; [|congruence].
        eapply (NoDup_lookup _ i j (key_of si) (wf_keys _ Hwf)); rewrite list_lookup_fmap.
        -- by rewrite Hi.
        -- rewrite Hj. simpl. congruence.
      * apply registry_lookup; [done|]. by exists si0.
    + left. assert (si0 = si) as -> by (by eapply node_unique; [apply (wf_addrs _ Hwf)|..]). done.
  - intros [[<- <-]|[Hne Hl]].
    + eexists. split; [apply elem_of_set_handle; exists si; split; [done|right; done]|done].
    + apply registry_lookup in Hl as (si0 & Hin0 & <- & <-); [|done]. exists si0.
      split; [|done]. apply elem_of_set_handle. exists si0. split; [done|]. left. split; [|done].
      intros Ha. apply Hne. assert (si0 = si) as -> by (by eapply node_unique; [apply (wf_addrs _ Hwf)|..]).
      done.
Qed.

Lemma wf_log st log : sm_wf st -> sm_wf (SmState (svclist st) (next_addr st) log).
Proof. by intros []. Qed.

Lemma death_wf st addr st' : sm_wf st -> svcinfo_death st addr = Some st' -> sm_wf st'.
Proof.
  intros Hwf. unfold svcinfo_death, svcinfo_died. destruct (node_at addr (svclist st)); [|done]. intros [= <-].
  destruct (nz _); [|done]. simpl. by apply (wf_set_handle st).
Qed.

Lemma wf_push st s len h iso prio log :
  sm_wf st -> (0 < len <= 127)%nat -> (len <= length s)%nat ->
  find_svc (svclist st) s len = None ->
  sm_wf (SmState (SvcInfo (next_addr st) h iso prio len (take len s ++ [0]) :: svclist st)
                 (next_addr st + 1) log).
Proof.
  intros Hwf Hl Hs Hf. pose proof (wf_next _ Hwf).
  assert (Hkey : forall a h' i p, key_of (SvcInfo a h' i p len (take len s ++ [0])) = take len s).
  { intros. unfold key_of; simpl. rewrite take_app_le by (rewrite length_take; lia).
    rewrite take_take. f_equal. lia. }
  split; cbn [svclist next_addr]; [| | |lia].
  - constructor.
    + split; simpl; [lia| |lia]. rewrite length_app, length_take. simpl. lia.
    + eapply Forall_impl; [apply (wf_nodes _ Hwf)|]. intros si [? ? ?]. split; try done. lia.
  - rewrite fmap_cons. apply NoDup_cons. split; [|apply (wf_addrs _ Hwf)]. simpl.
    intros Hin. apply list_elem_of_fmap in Hin as (si & He & Hin).
    pose proof (wf_nodes _ Hwf) as Hn. rewrite Forall_forall in Hn.
    pose proof (wf_addr _ _ (Hn _ Hin)). lia.
  - rewrite fmap_cons. apply NoDup_cons. split; [|apply (wf_keys _ Hwf)]. rewrite Hkey.
    intros Hin. apply list_elem_of_fmap in Hin as (si & He & Hin).
    rewrite (find_svc_key _ _ _ _ Hwf Hs Hin (eq_sym He)) in Hf. discriminate.
Qed.

Lemma svcinfo_died_live st si :
  si_handle si <> 0 ->
  svcinfo_died si st
  = SmState (set_handle (si_addr si) 0 (svclist st)) (next_addr st)
            (BC_RELEASE (si_handle si) :: driver_log st).
Proof.
  intros Hh. unfold svcinfo_died, nz. by destruct (Z.eqb_spec (si_handle si) 0).
Qed.

(** The three ways [do_add_service] ends. *)
Inductive add_result (ok : bool) st s (len : nat) (h iso prio : Z) : smstate -> Z -> Prop :=
| add_refused :
    h = 0 \/ len = 0%nat \/ (127 < len)%nat \/
      (ok = false /\ find_svc (svclist st) s len = None) ->
    add_result ok st s len h iso prio st (-1)
| add_update si :
    h <> 0 -> (0 < len <= 127)%nat ->
    find_svc (svclist st) s len = Some si ->
    add_result ok st s len h iso prio
      (SmState (set_handle (si_addr si) h (svclist st)) (next_addr st)
         (BC_REQUEST_DEATH_NOTIFICATION h (si_addr si) :: BC_ACQUIRE h ::
          (if si_handle si =? 0 then [] else [BC_RELEASE (si_handle si)]) ++ driver_log st)) 0
| add_new :
    h <> 0 -> (0 < len <= 127)%nat -> ok = true ->
    find_svc (svclist st) s len = None ->
    add_result ok st s len h iso prio
      (SmState (SvcInfo (next_addr st) h iso prio len (take len s ++ [0]) :: svclist st)
         (next_addr st + 1)
         (BC_REQUEST_DEATH_NOTIFICATION h (next_addr st) :: BC_ACQUIRE h :: driver_log st)) 0.

Lemma do_add_service_cases ok st s len h uid iso prio spid sid st' r :
  sm_wf st -> do_add_service ok st s len h uid iso prio spid sid = (st', r) ->
  add_result ok st s len h iso prio st' r.
Proof.
  intros Hwf. unfold do_add_service.
  change (svc_can_register s len spid sid uid) with 1. simpl (negb (nz 1)).
  destruct (_ || _) eqn:Eg.
  { intros [= <- <-]. constructor. unfold nz in Eg. rewrite !orb_true_iff, negb_involutive in Eg.
    rewrite Z.eqb_eq, Nat.eqb_eq, Nat.ltb_lt in Eg. tauto. }
  unfold nz in Eg. bool_props.
  destruct (find_svc (svclist st) s len) as [si|] eqn:Ef.
  - pose proof (find_svc_Some _ _ _ _ Ef) as (Hin & _ & _). unfold nz.
    destruct (Z.eqb_spec (si_handle si) 0) as [E0|E0]; simpl; intros [= <- <-].
    + pose proof (add_update ok st s len h iso prio si) as Hu.
      rewrite E0 in Hu. simpl in Hu. apply Hu; [done|lia|done].
    + rewrite svcinfo_died_live by done. simpl. rewrite set_handle_twice.
      pose proof (add_update ok st s len h iso prio si) as Hu.
      destruct (Z.eqb_spec (si_handle si) 0); [done|]. apply Hu; [done|lia|done].
  - destruct ok; intros [= <- <-].
    + apply add_new; [done|lia|done|done].
    + apply add_refused. tauto.
Qed.

Lemma add_result_wf ok st s len h iso prio st' r :
  sm_wf st -> (len <= length s)%nat -> add_result ok st s len h iso prio st' r -> sm_wf st'.
Proof.
  intros Hwf Hs []; [done|by apply wf_set_handle|by apply wf_push].
Qed.

Lemma registry_push st si log :
  registry (SmState (si :: svclist st) (next_addr st + 1) log)
  = <[key_of si := entry_of si]> (registry st).
Proof. done. Qed.

Lemma sm_step_wf st st' : sm_step st st' -> sm_wf st -> sm_wf st'.
Proof.
  intros [ok st0 s len h uid iso prio spid sid st0' r Hs Ha|st0 addr|st0 c _] Hwf.
  - eapply add_result_wf; [done| |by eapply do_add_service_cases]. lia.
  - by eapply death_wf.
  - by destruct Hwf.
Qed.

Lemma sm_init_wf : sm_wf sm_init.
Proof. split; simpl; try constructor; lia. Qed.

Lemma sm_reachable_wf st : sm_reachable st -> sm_wf st.
Proof.
  intros H. refine (rtc_invariant sm_step sm_wf _ _ _ H sm_init_wf). intros x y. apply sm_step_wf.
Qed.

(** What [add_result] means for the registry's map. *)
Lemma add_service_result ok st s len h uid iso prio spid sid st' r :
  sm_reachable st -> (len < length s)%nat ->
  do_add_service ok st s len h uid iso prio spid sid = (st', r) ->
  (r = 0 /\ registry st' = spec_add (take len s) h iso prio (registry st)
     /\ h <> 0 /\ (0 < len <= 127)%nat) \/
  (r = -1 /\ st' = st /\
     (h = 0 \/ len = 0%nat \/ (127 < len)%nat \/ (ok = false /\ registry st !! take len s = None))).
Proof.
  intros Hr Hs Ha. pose proof (sm_reachable_wf _ Hr) as Hwf.
  pose proof (registry_find st s len Hwf ltac:(lia)) as Hf.
  apply do_add_service_cases in Ha; [|done]. destruct Ha as [Hc|si Hh Hl Hs'|Hh Hl _ Hs'].
  - right. split_and!; [done..|]. destruct Hc as [?|[?|[?|[? Hn]]]]; [auto..|].
    rewrite Hf, Hn. auto.
  - left. rewrite Hs' in Hf. simpl in Hf. apply find_svc_Some in Hs' as (Hin & _ & Hk).
    split_and!; try done; try lia.
    rewrite registry_set_handle by done. unfold spec_add. rewrite Hf, Hk. done.
  - left. rewrite Hs' in Hf. simpl in Hf. split_and!; try done; try lia.
    rewrite (registry_push st). unfold spec_add. rewrite Hf. unfold key_of, entry_of. simpl.
    rewrite take_app_le by (len; lia). by rewrite take_take, Nat.min_id.
Qed.

(** ** Reference counting *)

Lemma refs_cons h c log :
  refs h (c :: log) = refs h log + (if decide (c = BC_ACQUIRE h) then 1 else 0)
                      - (if decide (c = BC_RELEASE h) then 1 else 0).
Proof.
  unfold refs. rewrite !filter_cons.
  destruct (decide (c = BC_ACQUIRE h)), (decide (c = BC_RELEASE h)); simpl; lia.
Qed.

Lemma live_cons h si l :
  live h (si :: l) = live h l + (if decide (si_handle si = h) then 1 else 0).
Proof. unfold live. rewrite filter_cons. destruct (decide _); simpl; lia. Qed.

Lemma set_handle_notin h addr l :
  addr ∉ (si_addr <$> l) -> set_handle addr h l = l.
Proof.
  induction l as [|si l IH]; intros Hn; [done|]. rewrite fmap_cons in Hn.
  unfold set_handle in *. rewrite fmap_cons, IH by set_solver.
  destruct (Z.eqb_spec (si_addr si) addr); [set_solver|done].
Qed.

Lemma live_set_handle g h si l :
  NoDup (si_addr <$> l) -> si ∈ l ->
  live g (set_handle (si_addr si) h l)
  = live g l - (if decide (si_handle si = g) then 1 else 0) + (if decide (h = g) then 1 else 0).
Proof.
  induction l as [|x l IH]; intros Hnd Hin; [by apply elem_of_nil in Hin|].
  rewrite fmap_cons in Hnd. apply NoDup_cons in Hnd as [Hx Hnd].
  assert (Hc : set_handle (si_addr si) h (x :: l) =
    (if si_addr x =? si_addr si
     then SvcInfo (si_addr x) h (allow_isolated x) (dumpsys_priority x) (si_len x) (si_name x)
     else x) :: set_handle (si_addr si) h l) by done.
  rewrite Hc, !live_cons.
  destruct (Z.eqb_spec (si_addr x) (si_addr si)) as [E|E].
  - assert (x = si) as ->.
    { apply elem_of_cons in Hin as [->|Hin]; [done|].
      destruct Hx. rewrite E. by apply list_elem_of_fmap_2. }
    rewrite set_handle_notin by done. simpl.
    destruct (decide (h = g)), (decide (si_handle si = g)); lia.
  - apply elem_of_cons in Hin as [->|Hin]; [done|]. rewrite IH by done. lia.
Qed.

Lemma refs_balanced st h :
  sm_reachable st -> h <> 0 ->
  refs h (driver_log st) = live h (svclist st) /\
  forall si, si ∈ svclist st -> si_handle si = h ->
    BC_REQUEST_DEATH_NOTIFICATION h (si_addr si) ∈ driver_log st.
Proof.
  intros Hr Hh. pose proof (sm_reachable_wf _ Hr) as Hwf0.
  set (P st := sm_wf st /\ refs h (driver_log st) = live h (svclist st) /\
    forall si, si ∈ svclist st -> si_handle si = h ->
      BC_REQUEST_DEATH_NOTIFICATION h (si_addr si) ∈ driver_log st).
  enough (P st) as [_ ?] by done.
  refine (rtc_invariant sm_step P _ _ _ Hr _).
  2: { split_and!; [apply sm_init_wf|done|]. intros si Hin. by apply elem_of_nil in Hin. }
  clear - Hh. intros st st' Hstep (Hwf & Hrefs & Hlink).
  split; [by eapply sm_step_wf|].
  destruct Hstep as [ok st s len hd uid iso prio spid sid st' r Hs Ha|st addr st' Hd|st c Hc].
  - apply do_add_service_cases in Ha; [|done]. destruct Ha as [?|si Hhd Hl Hf|Hhd Hl _ Hf]; [done|..].
    + apply find_svc_Some in Hf as (Hin & _ & _). simpl. split.
      * rewrite !refs_cons, live_set_handle by (done || apply (wf_addrs _ Hwf)).
        destruct (Z.eqb_spec (si_handle si) 0); simpl; rewrite ?refs_cons, Hrefs;
          repeat case_decide; simplify_eq; lia.
      * intros si' Hin' Hh'. apply elem_of_set_handle in Hin' as (si0 & Hin0 & [[Hn ->]|[_ ->]]).
        -- do 2 right. apply elem_of_app. right. auto.
        -- simpl in *. subst hd. left.
    + simpl. rewrite !refs_cons, live_cons. simpl. split.
      * rewrite Hrefs. repeat case_decide; simplify_eq; lia.
      * intros si' Hin' Hh'. apply elem_of_cons in Hin' as [->|Hin'].
        -- simpl in *. subst hd. left.
        -- do 2 right. auto.
  - unfold svcinfo_death in Hd. apply fmap_Some in Hd as (si & En & ->).
    apply node_at_Some in En as [Hin <-]. unfold svcinfo_died, nz.
    destruct (Z.eqb_spec (si_handle si) 0); simpl; [done|]. split.
    + rewrite refs_cons, live_set_handle by (done || apply (wf_addrs _ Hwf)).
      repeat case_decide; simplify_eq; lia.
    + intros si' Hin' Hh'. right. apply elem_of_set_handle in Hin' as (si0 & Hin0 & [[_ ->]|[_ ->]]).
      * auto.
      * by simpl in Hh'.
  - simpl. rewrite refs_cons. destruct (Hc h) as [H1 H2]. rewrite !decide_False by done. split; [lia|].
    intros si Hin E. right. auto.
Qed.

End Facts.

(** * Transactions *)

Section Handler.
Context {abi : BinderABI} {abi_ok : BinderABIOk abi}.

Lemma take_read_units m p len : take (Z.to_nat len) (read_units m p len) = load_u16s (Z.to_nat len) p m.
Proof.
  unfold read_units. replace (S (Z.to_nat len)) with (Z.to_nat len + 1)%nat by lia.
  rewrite load_u16s_app, take_app_le by (len; lia). apply take_ge. len. lia.
Qed.

Lemma length_read_units m p len : length (read_units m p len) = S (Z.to_nat len).
Proof. unfold read_units. by rewrite length_load_u16s. Qed.

(** A successful typed read, in terms of the calls the handler makes. *)
Lemma get_items_u32 r m l r' n vs :
  get_items r m (KU32 :: l) = (r', VU32 n :: vs) ->
  exists r1, bio_get_uint32 r m = (r1, n) /\ get_items r1 m l = (r', vs).
Proof.
  simpl. destruct (bio_get_uint32 r m) as [r1 k]. destruct (get_items r1 m l) eqn:E.
  intros [= <- <- <-]. by exists r1.
Qed.

Lemma get_items_str r m l r' u vs :
  u <> [] -> get_items r m (KStr :: l) = (r', VStr u :: vs) ->
  exists r1 p, bio_get_string16 r m = (r1, Some p, Z.of_nat (length u))
    /\ take (length u) (read_units m p (Z.of_nat (length u))) = u
    /\ get_items r1 m l = (r', vs).
Proof.
  intros Hu. simpl. destruct (bio_get_string16 r m) as [[r1 [p|]] len].
  2: { destruct (get_items r1 m l). by intros [= <- ?]. }
  destruct (get_items r1 m l) eqn:E. intros [= <- Hu' <-].
  assert (Hlen : Z.to_nat len = length u) by (rewrite <- Hu'; by len).
  assert (0 < length u)%nat by (destruct u; [done|simpl; lia]).
  exists r1, p. replace (Z.of_nat (length u)) with len by lia. split_and!; [done| |done].
  by rewrite <- Hlen, take_read_units, Hu'.
Qed.

Lemma get_items_ref r m l r' h vs :
  get_items r m (KRef :: l) = (r', VRef h :: vs) ->
  exists r1, bio_get_ref r m = (r1, h) /\ get_items r1 m l = (r', vs).
Proof.
  simpl. destruct (bio_get_ref r m) as [r1 k]. destruct (get_items r1 m l) eqn:E.
  intros [= <- <- <-]. by exists r1.
Qed.

End Handler.

Section HandlerResults.
Context (AID_USER AID_ISOLATED_START AID_ISOLATED_END PING_TRANSACTION : Z).
Context {abi : BinderABI} {abi_ok : BinderABIOk abi}.

(** The items of a request, after the two words of the RPC header. *)
Definition request (policy worksource : Z) (l : list item) : list item :=
  [IU32 policy; IU32 worksource; IStr svcmgr_id] ++ l.

(** What a client that marshals [l] makes the handler see. *)
Definition sends (l : list item) (msg : binder_io) (m : mem) : Prop :=
  exists r', get_items msg m (kind_of <$> l) = (r', value_of <$> l).

(** What a lookup and the two transactions answer, in terms of the map. *)
Lemma find_service_result st s len uid spid sid :
  sm_reachable st -> (len <= length s)%nat ->
  do_find_service AID_USER AID_ISOLATED_START AID_ISOLATED_END st s len uid spid sid
  = spec_find (registry st) (take len s) (is_isolated AID_USER AID_ISOLATED_START AID_ISOLATED_END uid).
Proof.
  intros Hr Hs. unfold do_find_service, spec_find.
  rewrite registry_find by (done || by apply sm_reachable_wf).
  destruct (find_svc (svclist st) s len) as [si|]; simpl; [|done]. unfold nz.
  rewrite !negb_involutive. destruct (Z.eqb_spec (si_handle si) 0); simpl; [done|].
  by destruct ((allow_isolated si =? 0) && _).
Qed.

Lemma handler_get_result ok st t msg reply m policy ws name :
  sm_reachable st -> name <> [] ->
  sends (request policy ws [IStr name]) msg m ->
  target_ptr t = BINDER_SERVICE_MANAGER -> txn_code t <> PING_TRANSACTION ->
  (txn_code t = SVC_MGR_GET_SERVICE \/ txn_code t = SVC_MGR_CHECK_SERVICE) ->
  let h := spec_find (registry st) name
             (is_isolated AID_USER AID_ISOLATED_START AID_ISOLATED_END (sender_euid t)) in
  let w := if h =? 0 then bio_put_uint32 reply m 0 else bio_put_ref reply m h in
  svcmgr_handler AID_USER AID_ISOLATED_START AID_ISOLATED_END PING_TRANSACTION ok st t msg reply m
  = HResult 0 st (fst w) (snd w).
Proof.
  intros Hr Hname [r' Hsend] Ht Hping Hcode h w.
  apply get_items_u32 in Hsend as (r1 & H1 & Hsend).
  apply get_items_u32 in Hsend as (r2 & H2 & Hsend).
  apply get_items_str in Hsend as (r3 & p3 & H3 & Hid & Hsend); [|done].
  apply get_items_str in Hsend as (r4 & p4 & H4 & Hnm & _); [|done].
  unfold svcmgr_handler. rewrite Ht, Z.eqb_refl. cbn [negb].
  destruct (Z.eqb_spec (txn_code t) PING_TRANSACTION); [done|].
  rewrite H1, H2, H3, Z.eqb_refl, Hid, bool_decide_eq_true_2 by done. cbn [negb orb].
  assert ((txn_code t =? SVC_MGR_GET_SERVICE) || (txn_code t =? SVC_MGR_CHECK_SERVICE) = true) as ->.
  { rewrite orb_true_iff, !Z.eqb_eq. done. }
  rewrite H4, Nat2Z.id.
  rewrite find_service_result by (done || rewrite length_read_units; lia).
  rewrite Hnm. fold h. unfold nz, w. rewrite negb_involutive.
  destruct (h =? 0).
  - by destruct (bio_put_uint32 reply m 0).
  - by destruct (bio_put_ref reply m h).
Qed.

Lemma handler_add_result st t msg reply m policy ws name h iso prio :
  sm_reachable st -> (0 < length name <= 127)%nat -> h <> 0 ->
  sends (request policy ws [IStr name; IRef h; IU32 iso; IU32 prio]) msg m ->
  target_ptr t = BINDER_SERVICE_MANAGER -> txn_code t = SVC_MGR_ADD_SERVICE ->
  PING_TRANSACTION <> SVC_MGR_ADD_SERVICE ->
  let res := svcmgr_handler AID_USER AID_ISOLATED_START AID_ISOLATED_END PING_TRANSACTION
               true st t msg reply m in
  hr_status res = 0 /\
  registry (hr_state res) = spec_add name h (if nz iso then 1 else 0) prio (registry st) /\
  (hr_reply res, hr_mem res) = bio_put_uint32 reply m 0.
Proof.
  intros Hr Hlen Hh [r' Hsend] Ht Hcode Hping res.
  apply get_items_u32 in Hsend as (r1 & H1 & Hsend).
  apply get_items_u32 in Hsend as (r2 & H2 & Hsend).
  apply get_items_str in Hsend as (r3 & p3 & H3 & Hid & Hsend); [|done].
  apply get_items_str in Hsend as (r4 & p4 & H4 & Hnm & Hsend); [|by destruct name; simpl in *; [lia|]].
  apply get_items_ref in Hsend as (r5 & H5 & Hsend).
  apply get_items_u32 in Hsend as (r6 & H6 & Hsend).
  apply get_items_u32 in Hsend as (r7 & H7 & _).
  unfold res, svcmgr_handler. rewrite Ht, Hcode, Z.eqb_refl. cbn [negb].
  destruct (Z.eqb_spec SVC_MGR_ADD_SERVICE PING_TRANSACTION); [done|].
  rewrite H1, H2, H3, Z.eqb_refl, Hid, bool_decide_eq_true_2 by done.
  cbn [negb orb Z.eqb SVC_MGR_ADD_SERVICE SVC_MGR_GET_SERVICE SVC_MGR_CHECK_SERVICE Pos.eqb].
  rewrite H4, H5, H6, H7, Nat2Z.id.
  set (s := read_units m p4 (Z.of_nat (length name))) in *.
  assert (Hls : (length name < length s)%nat) by (unfold s; rewrite length_read_units; lia).
  destruct (do_add_service _ _ _ _ _ _ _ _ _ _) as [st' r] eqn:Ea.
  pose proof (add_service_result _ _ _ _ _ _ _ _ _ _ _ _ Hr Hls Ea)
    as [(-> & Hreg & _)|(_ & _ & Hbad)].
  - destruct (bio_put_uint32 reply m 0) as [reply' m'] eqn:Ep. simpl.
    by rewrite Hreg, Hnm.
  - destruct Hbad as [?|[?|[?|[? _]]]]; [done|lia|lia|done].
Qed.

End HandlerResults.

Section Properties.
Context (AID_USER AID_ISOLATED_START AID_ISOLATED_END PING_TRANSACTION : Z).
Context {abi : BinderABI} {abi_ok : BinderABIOk abi}.

(** C9: in every state the service manager reaches, the strong references it
    holds in the driver on a handle (acquires minus releases) are exactly the
    entries registered under that handle, and every live entry has asked for
    the death notification that clears it. *)
Theorem driver_refs_balanced st h :
  sm_reachable st -> h <> 0 ->
  refs h (driver_log st) = live h (svclist st) /\
  forall si, si ∈ svclist st -> si_handle si = h ->
    BC_REQUEST_DEATH_NOTIFICATION h (si_addr si) ∈ driver_log st.
Proof. apply refs_balanced. Qed.

(** C22: registering a service either fails and leaves everything as it was
    (null handle, a name of no or more than 127 units, or no memory for a new
    node), or binds the name to the new handle in the registry's map; the
    flags of a name that was known are kept. *)
Theorem add_service_refines ok st s len h uid iso prio spid sid st' r :
  sm_reachable st -> (len < length s)%nat ->
  do_add_service ok st s len h uid iso prio spid sid = (st', r) ->
  (r = 0 /\ registry st' = spec_add (take len s) h iso prio (registry st)
     /\ h <> 0 /\ (0 < len <= 127)%nat) \/
  (r = -1 /\ st' = st /\
     (h = 0 \/ len = 0%nat \/ (127 < len)%nat \/ (ok = false /\ registry st !! take len s = None))).
Proof. apply add_service_result. Qed.

(** A lookup answers what the registry's map says: the handle bound to
    the name, or 0 for an unknown or dead service and for an isolated caller
    of a service that does not allow them. *)
Theorem find_service_refines st s len uid spid sid :
  sm_reachable st -> (len <= length s)%nat ->
  do_find_service AID_USER AID_ISOLATED_START AID_ISOLATED_END st s len uid spid sid
  = spec_find (registry st) (take len s) (is_isolated AID_USER AID_ISOLATED_START AID_ISOLATED_END uid).
Proof. apply find_service_result. Qed.

(** A death notification clears the handle of the entry whose node it
    names, keeps the name and its flags, and changes no other entry. *)
Theorem death_refines st si :
  sm_reachable st -> si ∈ svclist st ->
  exists st', svcinfo_death st (si_addr si) = Some st' /\ registry st' = alter kill (key_of si) (registry st).
Proof.
  intros Hr Hin. pose proof (sm_reachable_wf _ Hr) as Hwf. exists (svcinfo_died si st).
  split; [unfold svcinfo_death; by rewrite node_at_in by (done || apply (wf_addrs _ Hwf))|].
  assert (Hl : registry st !! key_of si = Some (entry_of si)).
  { apply registry_lookup; [done|]. by exists si. }
  rewrite (alter_insert_id _ _ _ _ Hl).
  destruct (decide (si_handle si = 0)) as [E|E].
  - unfold svcinfo_died. rewrite E. simpl.
    rewrite insert_id; [done|]. rewrite Hl. unfold kill, entry_of. by rewrite E.
  - rewrite svcinfo_died_live, registry_set_handle by done. done.
Qed.

(** [SVC_MGR_LIST_SERVICES] with index [n] answers the [n]-th service of
    the list, head first, among those that share a priority bit with the
    request, and fails past the last one. *)
Theorem list_services_enumerates l n req :
  list_nth l n req = filter (fun si => Z.land (dumpsys_priority si) req <> 0) l !! n.
Proof.
  revert n. induction l as [|si l IH]; intros n; [done|]. simpl list_nth. rewrite filter_cons. unfold nz.
  destruct (Z.eqb_spec (Z.land (dumpsys_priority si) req) 0) as [E|E]; simpl; case_decide; try done.
  destruct n; [done|]. simpl. apply IH.
Qed.

(** The whole GET/CHECK transaction: a request whose marshalled items are
    the RPC header, the interface name and a service name is answered with
    status 0 and with the handle the registry's map gives for that name, as a
    reference, or with the word 0 where there is none; the registry does not
    change. *)
Theorem handler_get_service ok st t msg reply m policy ws name :
  sm_reachable st -> name <> [] ->
  sends (request policy ws [IStr name]) msg m ->
  target_ptr t = BINDER_SERVICE_MANAGER -> txn_code t <> PING_TRANSACTION ->
  (txn_code t = SVC_MGR_GET_SERVICE \/ txn_code t = SVC_MGR_CHECK_SERVICE) ->
  let h := spec_find (registry st) name
             (is_isolated AID_USER AID_ISOLATED_START AID_ISOLATED_END (sender_euid t)) in
  let w := if h =? 0 then bio_put_uint32 reply m 0 else bio_put_ref reply m h in
  svcmgr_handler AID_USER AID_ISOLATED_START AID_ISOLATED_END PING_TRANSACTION ok st t msg reply m
  = HResult 0 st (fst w) (snd w).
Proof. apply handler_get_result. Qed.

(** The whole ADD transaction: a request that carries the header, a name
    of 1 to 127 units, a non-null handle, the isolation flag and the priority
    is answered with status 0 and the word 0, and the registry's map then
    binds the name to the handle. *)
Theorem handler_add_service st t msg reply m policy ws name h iso prio :
  sm_reachable st -> (0 < length name <= 127)%nat -> h <> 0 ->
  sends (request policy ws [IStr name; IRef h; IU32 iso; IU32 prio]) msg m ->
  target_ptr t = BINDER_SERVICE_MANAGER -> txn_code t = SVC_MGR_ADD_SERVICE ->
  PING_TRANSACTION <> SVC_MGR_ADD_SERVICE ->
  let res := svcmgr_handler AID_USER AID_ISOLATED_START AID_ISOLATED_END PING_TRANSACTION
               true st t msg reply m in
  hr_status res = 0 /\
  registry (hr_state res) = spec_add name h (if nz iso then 1 else 0) prio (registry st) /\
  (hr_reply res, hr_mem res) = bio_put_uint32 reply m 0.
Proof. apply handler_add_result. Qed.

End Properties.

(** ** The bundled test client *)

Section Bctest.
#[local] Existing Instance abi64.
#[local] Existing Instance abi64_ok.

Lemma bio_get_uint32_ok r m :
  4 <= data_avail r -> bio_get_uint32 r m = (advance r 4, load 4 (data r) m).
Proof.
  intros H. unfold bio_get_uint32. rewrite bio_get_ok by (rewrite align4_4; lia). by rewrite align4_4.
Qed.

Lemma bio_get_string16_short r m :
  4 <= data_avail r -> 0 <= load 4 (data r) m < 2 ^ 30 ->
  data_avail r < 2 * load 4 (data r) m ->
  snd (fst (bio_get_string16 r m)) = None.
Proof.
  intros H4 Hl Hs. unfold bio_get_string16. rewrite bio_get_uint32_ok by done.
  rewrite usz_small by lia. unfold bio_get.
  pose proof (align4_bounds ((load 4 (data r) m + 1) * 2) ltac:(lia)).
  destruct (Z.ltb_spec (data_avail (advance r 4)) (align4 ((load 4 (data r) m + 1) * 2))); [done|].
  simpl in *. lia.
Qed.

(** The registry refuses every request of the test client's
    [svcmgr_lookup], whatever the name: the client writes one header word
    where the handler reads two, so the handler reads the interface name's
    length as the second word and its first characters as a length. *)
Theorem bctest_lookup_refused AU AS AE ping ok st t reply m name io' m' :
  target_ptr t = BINDER_SERVICE_MANAGER -> txn_code t <> ping ->
  put_items (bio_init (Bio 0 0 0 0 0 0 0) 0 512 4) m (bctest_lookup_items name) = (io', m') ->
  hr_status (svcmgr_handler AU AS AE ping ok st t (bio_init_from_txn (bio_txn io')) reply m') = -1.
Proof.
  intros Ht Hp Hput.
  change (bctest_lookup_items name) with ([IU32 0; IStrX svcmgr_id] ++ [IStrX name]) in Hput.
  set (b0 := bio_init _ 0 512 4) in Hput.
  assert (Hsplit : exists io2 m2, put_items b0 m [IU32 0; IStrX svcmgr_id] = (io2, m2)
      /\ put_item io2 m2 (IStrX name) = (io', m')).
  { cbn [app put_items] in Hput |- *. destruct (put_item b0 m _) as [i1 n1].
    destruct (put_item i1 n1 _) as [i2 n2]. destruct (put_item i2 n2 _) as [i3 n3] eqn:E.
    exists i2, n2. split; [done|]. by rewrite E, <- Hput. }
  destruct Hsplit as (io2 & m2 & E2 & E3).
  assert (Hio : io2 = Bio 96 0 416 4 32 0 0) by (apply (f_equal fst) in E2; vm_compute in E2; done).
  assert (Hld : load 4 40 m2 = 7209057) by
    (replace m2 with (snd (put_items b0 m [IU32 0; IStrX svcmgr_id])) by (by rewrite E2); done).
  clear E2 Hput. subst io2.
  apply put_item_grows in E3 as [G1 G2 G3 G4 G5 G6 G7 G8 _ G10]; [|unfold room; simpl; lia].
  simpl in *.
  assert (Hld' : load 4 40 m' = 7209057).
  { rewrite <- Hld. apply load_ext. intros i Hi. apply G10; lia. }
  set (r := bio_init_from_txn (bio_txn io')).
  assert (Hr : data r = 32 /\ data_avail r = data io' - 32) by (unfold r; simpl; lia).
  destruct Hr as [Hr1 Hr2].
  unfold svcmgr_handler. rewrite Ht, Z.eqb_refl. cbn [negb].
  destruct (Z.eqb_spec (txn_code t) ping); [done|].
  rewrite bio_get_uint32_ok by lia. rewrite bio_get_uint32_ok by (simpl; lia).
  pose proof (bio_get_string16_short (advance (advance r 4) 4) m') as Hs.
  assert (Hd : data (advance (advance r 4) 4) = 40) by (simpl; lia). rewrite Hd, Hld' in Hs.
  destruct (bio_get_string16 _ m') as [[r3 p3] len] eqn:E. simpl in Hs.
  rewrite Hs by lia. done.
Qed.

End Bctest.

(** ** Witnesses *)

Section Witnesses.
#[local] Existing Instance abi64.
#[local] Existing Instance abi64_ok.

Definition demo_name : list Z := code <$> lit "activity".

Definition demo_state : smstate :=
  fst (do_add_service true sm_init (demo_name ++ [0]) 8 7 1000 0 15 100 0).

Lemma demo_reachable : sm_reachable demo_state.
Proof.
  eapply rtc_l; [|apply rtc_refl].
  apply (step_add true sm_init (demo_name ++ [0]) 8 7 1000 0 15 100 0 demo_state 0).
  - vm_compute. lia.
  - vm_compute. reflexivity.
Qed.

Definition demo_request (l : list item) : binder_io * mem :=
  put_items (bio_init (Bio 0 0 0 0 0 0 0) 0 512 4) (fun _ => 0) (request 0 0 l).

Definition demo_msg (l : list item) : binder_io := bio_init_from_txn (bio_txn (fst (demo_request l))).

Definition demo_reply : binder_io := bio_init (Bio 0 0 0 0 0 0 0) 4096 256 4.

Lemma driver_refs_balanced_witness :
  refs 7 (driver_log demo_state) = live 7 (svclist demo_state) /\
  forall si, si ∈ svclist demo_state -> si_handle si = 7 ->
    BC_REQUEST_DEATH_NOTIFICATION 7 (si_addr si) ∈ driver_log demo_state.
Proof. apply driver_refs_balanced; [apply demo_reachable|lia]. Defined.

Lemma add_service_refines_witness :
  let res := do_add_service true demo_state (demo_name ++ [0]) 8 9 1000 1 1 100 0 in
  (snd res = 0 /\ registry (fst res) = spec_add (take 8 (demo_name ++ [0])) 9 1 1 (registry demo_state)
     /\ 9 <> 0 /\ (0 < 8 <= 127)%nat) \/
  (snd res = -1 /\ fst res = demo_state /\
     (9 = 0 \/ 8%nat = 0%nat \/ (127 < 8)%nat \/
      (true = false /\ registry demo_state !! take 8 (demo_name ++ [0]) = None))).
Proof.
  intros res. apply (add_service_refines true demo_state (demo_name ++ [0]) 8 9 1000 1 1 100 0).
  - apply demo_reachable.
  - vm_compute. lia.
  - apply surjective_pairing.
Defined.

Lemma find_service_refines_witness :
  do_find_service 100000 99000 99999 demo_state demo_name 8 1000 100 0
  = spec_find (registry demo_state) (take 8 demo_name) (is_isolated 100000 99000 99999 1000).
Proof. apply find_service_refines; [apply demo_reachable|vm_compute; lia]. Defined.

Lemma death_refines_witness :
  exists si, si_addr si = 1 /\
  exists st', svcinfo_death demo_state (si_addr si) = Some st' /\ registry st' = alter kill (key_of si) (registry demo_state).
Proof.
  exists (SvcInfo 1 7 0 15 8 (demo_name ++ [0])). split; [done|].
  apply death_refines; [apply demo_reachable|]. vm_compute. left.
Defined.

Lemma handler_get_service_witness :
  let req := demo_request [IStr demo_name] in
  let t := Txn 0 SVC_MGR_GET_SERVICE 100 1000 0 in
  let h := spec_find (registry demo_state) demo_name (is_isolated 100000 99000 99999 1000) in
  let rep := if h =? 0 then bio_put_uint32 demo_reply (snd req) 0
             else bio_put_ref demo_reply (snd req) h in
  h = 7 /\ svcmgr_handler 100000 99000 99999 1599098439 true demo_state t (demo_msg [IStr demo_name])
    demo_reply (snd req) = HResult 0 demo_state (fst rep) (snd rep).
Proof.
  split; [vm_compute; reflexivity|].
  apply (handler_get_service 100000 99000 99999 1599098439 true demo_state
           (Txn 0 SVC_MGR_GET_SERVICE 100 1000 0) (demo_msg [IStr demo_name]) demo_reply
           (snd (demo_request [IStr demo_name])) 0 0 demo_name).
  - apply demo_reachable.
  - discriminate.
  - eexists. vm_compute. reflexivity.
  - reflexivity.
  - discriminate.
  - left. reflexivity.
Defined.

Lemma handler_add_service_witness :
  let l := [IStr demo_name; IRef 9; IU32 1; IU32 4] in
  let res := svcmgr_handler 100000 99000 99999 1599098439 true demo_state
    (Txn 0 SVC_MGR_ADD_SERVICE 100 1000 0) (demo_msg l) demo_reply (snd (demo_request l)) in
  hr_status res = 0 /\
  registry (hr_state res) = spec_add demo_name 9 1 4 (registry demo_state) /\
  (hr_reply res, hr_mem res) = bio_put_uint32 demo_reply (snd (demo_request l)) 0.
Proof.
  intros l res.
  apply (handler_add_service 100000 99000 99999 1599098439 demo_state
           (Txn 0 SVC_MGR_ADD_SERVICE 100 1000 0) (demo_msg l) demo_reply
           (snd (demo_request l)) 0 0 demo_name 9 1 4).
  - apply demo_reachable.
  - vm_compute. lia.
  - discriminate.
  - eexists. vm_compute. reflexivity.
  - reflexivity.
  - reflexivity.
  - discriminate.
Defined.

Lemma bctest_lookup_refused_witness :
  let w := put_items (bio_init (Bio 0 0 0 0 0 0 0) 0 512 4) (fun _ => 0)
             (bctest_lookup_items demo_name) in
  hr_status (svcmgr_handler 100000 99000 99999 1599098439 true demo_state
    (Txn 0 SVC_MGR_CHECK_SERVICE 100 1000 0) (bio_init_from_txn (bio_txn (fst w)))
    demo_reply (snd w)) = -1.
Proof.
  intros w. apply (bctest_lookup_refused 100000 99000 99999 1599098439 true demo_state
    (Txn 0 SVC_MGR_CHECK_SERVICE 100 1000 0) demo_reply (fun _ => 0) demo_name (fst w) (snd w)).
  - reflexivity.
  - discriminate.
  - apply surjective_pairing.
Defined.

End Witnesses.
