(* ===== verification/BinderLoop.v ===== *)
(** The driver protocol of [servicemanager/binder.c]: [binder_parse],
    [binder_send_reply], [binder_loop], [binder_call].

    The code is generic in what it serves: the functions are parameterised by
    the state [S] of the process, what a command written to the driver does to
    it ([binder_write]), the callback of a death notification and the handler
    of transactions, which is optional. [svc_handler] is the instance of the
    service manager. What the driver puts into memory between two calls is an
    argument, one [read] for each [ioctl]. The layout and codes of the kernel
    header are the class [BinderProtocol]. A death notification is followed
    through a pointer that the driver gives back; where the callback has
    nothing to go on ([None]) the run is [Wild]. *)

From S2P Require Import Prelude Bytes BinderIO ServiceManager.

Open Scope Z_scope.

(** * The kernel's protocol *)

Class BinderProtocol := {
  BR_NOOP : Z; BR_TRANSACTION_COMPLETE : Z; BR_INCREFS : Z; BR_ACQUIRE : Z; BR_RELEASE_ : Z; BR_DECREFS : Z;
  BR_TRANSACTION_SEC_CTX : Z; BR_TRANSACTION : Z; BR_REPLY : Z; BR_DEAD_BINDER : Z;
  BR_FAILED_REPLY : Z; BR_DEAD_REPLY : Z;
  TF_ONE_WAY : Z; TF_STATUS_CODE : Z;
  sizeof_ptr_cookie : Z;
  (* struct binder_transaction_data and binder_transaction_data_secctx *)
  sizeof_txn : Z; sizeof_txn_secctx : Z;
  at_target : Z; at_code : Z; at_flags : Z; at_pid : Z; at_euid : Z;
  at_data_size : Z; at_offsets_size : Z; at_buffer : Z; at_offsets : Z; at_secctx : Z;
}.

(** The codes are distinct words; no structure has a negative size. *)
Class BinderProtocolOk (p : BinderProtocol) : Prop := {
  codes_distinct : NoDup [BR_NOOP; BR_TRANSACTION_COMPLETE; BR_INCREFS; BR_ACQUIRE; BR_RELEASE_; BR_DECREFS;
                          BR_TRANSACTION_SEC_CTX; BR_TRANSACTION; BR_REPLY; BR_DEAD_BINDER;
                          BR_FAILED_REPLY; BR_DEAD_REPLY];
  ptr_cookie_size : 0 <= sizeof_ptr_cookie;
  txn_size : 0 <= sizeof_txn < 2 ^ 31;
  txn_secctx_size : 0 <= sizeof_txn_secctx < 2 ^ 31;
}.

Definition protocol64 : BinderProtocol := {|
  BR_NOOP := 0x720c; BR_TRANSACTION_COMPLETE := 0x7206;
  BR_INCREFS := 0x80107207; BR_ACQUIRE := 0x80107208; BR_RELEASE_ := 0x80107209; BR_DECREFS := 0x8010720a;
  BR_TRANSACTION_SEC_CTX := 0x80487202; BR_TRANSACTION := 0x80407202; BR_REPLY := 0x80407203;
  BR_DEAD_BINDER := 0x8008720f; BR_FAILED_REPLY := 0x7211; BR_DEAD_REPLY := 0x7205;
  TF_ONE_WAY := 1; TF_STATUS_CODE := 8;
  sizeof_ptr_cookie := 16; sizeof_txn := 64; sizeof_txn_secctx := 72;
  at_target := 0; at_code := 16; at_flags := 20; at_pid := 24; at_euid := 28;
  at_data_size := 32; at_offsets_size := 40; at_buffer := 48; at_offsets := 56; at_secctx := 64 |}.

#[export] Instance protocol64_ok : BinderProtocolOk protocol64.
Proof.
  split; try (vm_compute; by split || done).
  apply (bool_decide_unpack (NoDup _)). vm_compute. exact I.
Qed.

(** * Operations *)

(** A [binder_transaction_data_secctx]. *)
Record transaction := Transaction {
  tr_txn : txn;
  tr_flags : Z;
  tr_data : txn_data;
}.

(** What an [ioctl] of the loop returns: an error, or the memory that the
    driver leaves with the number of bytes it put into [readbuf]. *)
Inductive read := ReadError | Read (m : mem) (consumed : Z).

(** How a run of the code goes: to its end, or wild, with the cookie of a death
    notification that the process cannot follow, and the state it has then. *)
Inductive ran (S A : Type) :=
| Wild (cookie : Z) (s : S)
| Ran (result : A).
Arguments Wild {S A}.
Arguments Ran {S A}.

Inductive stop := WouldBlock | IoctlFailed | UnexpectedReply | IoError (res : Z).

Section Protocol.
Context {abi : BinderABI} {proto : BinderProtocol}.

(** [memcpy] of the structure at [ptr]. *)
Definition read_txn (m : mem) (ptr secctx : Z) : transaction :=
  let word a := load sizeof_binder_uintptr (ptr + a) m in
  let size a := load (Z.to_nat sizeof_binder_size_t) (ptr + a) m in
  Transaction (Txn (word at_target) (load 4 (ptr + at_code) m) (i32 (load 4 (ptr + at_pid) m))
                   (load 4 (ptr + at_euid) m) secctx)
              (load 4 (ptr + at_flags) m)
              (TxnData (word at_buffer) (word at_offsets) (size at_data_size) (size at_offsets_size)).

(** The bytes the driver copies from a buffer. *)
Definition bytes_at (m : mem) (a n : Z) : list Z := (fun i => m (a + Z.of_nat i)) <$> seq 0 (Z.to_nat n).

Section Process.
Context {S : Type}.
Context (binder_write : cmd -> S -> S) (death : Z -> S -> option S).

(** The status, the state of the process, the cursor of the reply and the
    memory after a transaction. *)
Abbreviation handler := (S -> transaction -> binder_io -> binder_io -> mem -> Z * S * binder_io * mem).

Definition binder_free_buffer (buffer_to_free : Z) (s : S) : S := binder_write (BC_FREE_BUFFER buffer_to_free) s.

(** One [binder_write] of two commands. *)
Definition binder_send_reply (reply : binder_io) (m : mem) (buffer_to_free status : Z) (s : S) : S :=
  let s := binder_write (BC_FREE_BUFFER buffer_to_free) s in
  if nz status then binder_write (BC_REPLY TF_STATUS_CODE (le_split 4 status) []) s
  else
    let t := bio_txn reply in
    binder_write (BC_REPLY 0 (bytes_at m (td_buffer t) (td_data_size t))
                           (bytes_at m (td_offsets t) (td_offsets_size t))) s.

(** The rest of the buffer is read from [ptr]; [rdata] is the address of the
    local array, [bio] the reply that was asked for: [None] a null pointer,
    otherwise its contents so far and whether it was filled in. [None] is out
    of fuel. *)
Fixpoint parse_loop (fuel : nat) (func : option handler) (rdata : Z) (ptr end_ : Z) (r : Z)
    (wanted : bool) (bio : binder_io) (s : S) (m : mem) : option (ran S (Z * binder_io * S * mem)) :=
  if negb (ptr <? end_) then Some (Ran (r, bio, s, m))
  else
    match fuel with
    | O => None
    | Datatypes.S fuel' =>
        let cmd := load 4 ptr m in
        let ptr := ptr + 4 in
        let next ptr := parse_loop fuel' func rdata ptr end_ r wanted bio s m in
        let transaction (txn : transaction) ptr :=
          match func with
          | None => next ptr
          | Some f =>
              let reply := bio_init (Bio 0 0 0 0 0 0 0) rdata 256 4 in
              let msg := bio_init_from_txn (tr_data txn) in
              let '(res, s, reply, m) := f s txn msg reply m in
              let s := if nz (Z.land (tr_flags txn) TF_ONE_WAY)
                       then binder_free_buffer (td_buffer (tr_data txn)) s
                       else binder_send_reply reply m (td_buffer (tr_data txn)) res s in
              parse_loop fuel' func rdata ptr end_ r wanted bio s m
          end in
        if (cmd =? BR_NOOP) || (cmd =? BR_TRANSACTION_COMPLETE) then next ptr
        else if (cmd =? BR_INCREFS) || (cmd =? BR_ACQUIRE) || (cmd =? BR_RELEASE_) || (cmd =? BR_DECREFS)
        then next (ptr + sizeof_ptr_cookie)
        else if cmd =? BR_TRANSACTION_SEC_CTX then
          if usz (end_ - ptr) <? sizeof_txn_secctx then Some (Ran (-1, bio, s, m))
          else transaction (read_txn m ptr (load sizeof_binder_uintptr (ptr + at_secctx) m)) (ptr + sizeof_txn_secctx)
        else if cmd =? BR_TRANSACTION then
          if usz (end_ - ptr) <? sizeof_txn then Some (Ran (-1, bio, s, m))
          else transaction (read_txn m ptr 0) (ptr + sizeof_txn)
        else if cmd =? BR_REPLY then
          if usz (end_ - ptr) <? sizeof_txn then Some (Ran (-1, bio, s, m))
          else
            let bio := if wanted then bio_init_from_txn (tr_data (read_txn m ptr 0)) else bio in
            parse_loop fuel' func rdata (ptr + sizeof_txn) end_ 0 false bio s m
        else if cmd =? BR_DEAD_BINDER then
          match death (load sizeof_binder_uintptr ptr m) s with
          | None => Some (Wild (load sizeof_binder_uintptr ptr m) s)
          | Some s => parse_loop fuel' func rdata (ptr + Z.of_nat sizeof_binder_uintptr) end_ r wanted bio s m
          end
        else if (cmd =? BR_FAILED_REPLY) || (cmd =? BR_DEAD_REPLY) then
          parse_loop fuel' func rdata ptr end_ (-1) wanted bio s m
        else Some (Ran (-1, bio, s, m))
    end.

Definition binder_parse (func : option handler) (rdata : Z) (wanted : bool) (bio : binder_io) (ptr size : Z)
    (s : S) (m : mem) : option (ran S (Z * binder_io * S * mem)) :=
  parse_loop (Datatypes.S (Z.to_nat size)) func rdata ptr (ptr + size) 1 wanted bio s m.

(** The reads that follow; [WouldBlock] waits for more. *)
Fixpoint loop_reads (func : handler) (rdata readbuf : Z) (reads : list read) (s : S) : option (ran S (stop * S)) :=
  match reads with
  | [] => Some (Ran (WouldBlock, s))
  | ReadError :: _ => Some (Ran (IoctlFailed, s))
  | Read m consumed :: reads' =>
      parsed ← binder_parse (Some func) rdata false (Bio 0 0 0 0 0 0 0) readbuf consumed s m;
      match parsed with
      | Wild cookie s => Some (Wild cookie s)
      | Ran (res, _, s, _) =>
          if res =? 0 then Some (Ran (UnexpectedReply, s))
          else if res <? 0 then Some (Ran (IoError res, s))
          else loop_reads func rdata readbuf reads' s
      end
  end.

Definition binder_loop (func : handler) (rdata readbuf : Z) (reads : list read) (s : S) : option (ran S (stop * S)) :=
  loop_reads func rdata readbuf reads (binder_write BC_ENTER_LOOPER s).

(** The label [fail] of [binder_call]. *)
Definition failed_reply : binder_io := Bio 0 0 0 0 0 0 BIO_F_IOERROR.

Fixpoint call_reads (readbuf : Z) (reads : list read) (reply : binder_io) (s : S) : option (ran S (option Z * binder_io * S)) :=
  match reads with
  | [] => Some (Ran (None, reply, s))
  | ReadError :: _ => Some (Ran (Some (-1), failed_reply, s))
  | Read m consumed :: reads' =>
      parsed ← binder_parse None 0 true reply readbuf consumed s m;
      match parsed with
      | Wild cookie s => Some (Wild cookie s)
      | Ran (res, reply, s, _) =>
          if res =? 0 then Some (Ran (Some 0, reply, s))
          else if res <? 0 then Some (Ran (Some (-1), failed_reply, s))
          else call_reads readbuf reads' reply s
      end
  end.

(** The result ([None] while it waits), the reply. The command goes out with
    the first [ioctl]. *)
Definition binder_call (readbuf : Z) (reads : list read) (msg reply : binder_io) (m : mem) (target code : Z) (s : S)
    : option (ran S (option Z * binder_io * S)) :=
  if nz (Z.land (flags msg) BIO_F_OVERFLOW) then Some (Ran (Some (-1), failed_reply, s))
  else
    let t := bio_txn msg in
    call_reads readbuf reads reply
      (binder_write (BC_TRANSACTION target code (bytes_at m (td_buffer t) (td_data_size t))
                                                (bytes_at m (td_offsets t) (td_offsets_size t))) s).

End Process.

(** The service manager; [malloc_ok] is the outcome of the allocation. *)
Section Svcmgr.
Context (AID_USER AID_ISOLATED_START AID_ISOLATED_END PING_TRANSACTION : Z) (malloc_ok : smstate -> bool).

Definition svc_handler (st : smstate) (t : transaction) (msg reply : binder_io) (m : mem)
    : Z * smstate * binder_io * mem :=
  let h := svcmgr_handler AID_USER AID_ISOLATED_START AID_ISOLATED_END PING_TRANSACTION
             (malloc_ok st) st (tr_txn t) msg reply m in
  (hr_status h, hr_state h, hr_reply h, hr_mem h).

Definition svc_death (cookie : Z) (st : smstate) : option smstate := svcinfo_death st cookie.

Definition svc_loop := binder_loop log_cmd svc_death svc_handler.

End Svcmgr.
End Protocol.

(** * Lemmas *)

(** What the loop itself writes to the driver. *)
Definition is_answer (c : cmd) : bool := match c with BC_FREE_BUFFER _ | BC_REPLY _ _ _ | BC_ENTER_LOOPER => true | _ => false end.

(** What a process must promise for an invariant of its state to hold in the
    loop: an answer to the driver, a death notification and a transaction keep
    it. *)
Class ServerInvariant {S : Type} (binder_write : cmd -> S -> S) (death : Z -> S -> option S)
    (func : S -> transaction -> binder_io -> binder_io -> mem -> Z * S * binder_io * mem) (P : S -> Prop) : Prop := {
  inv_answer : forall c s, is_answer c = true -> P s -> P (binder_write c s);
  inv_death : forall cookie s s', P s -> death cookie s = Some s' -> P s';
  inv_handler : forall s t msg reply m res s' reply' m',
    P s -> func s t msg reply m = (res, s', reply', m') -> P s';
}.

Section Facts.
Context {abi : BinderABI} {proto : BinderProtocol} {proto_ok : BinderProtocolOk proto}.
Context {S : Type} (binder_write : cmd -> S -> S) (death : Z -> S -> option S).

Abbreviation handler := (S -> transaction -> binder_io -> binder_io -> mem -> Z * S * binder_io * mem).
Abbreviation loop := (parse_loop binder_write death).
Abbreviation parse := (binder_parse binder_write death).

(** Every command takes four bytes at least. *)
Lemma parse_loop_total fuel (func : option handler) rdata ptr end_ r wanted bio s m :
  (Z.to_nat (end_ - ptr) < fuel)%nat -> is_Some (loop fuel func rdata ptr end_ r wanted bio s m).
Proof.
  pose proof ptr_cookie_size; pose proof txn_size; pose proof txn_secctx_size.
  revert ptr r wanted bio s m. induction fuel as [|fuel IH]; intros ptr r wanted bio s m Hf; [lia|].
  cbn [parse_loop]. destruct (Z.ltb_spec ptr end_); cbn [negb]; [|eauto].
  assert (Hnext : forall p r w b s m, ptr + 4 <= p -> is_Some (loop fuel func rdata p end_ r w b s m))
    by (intros; apply IH; lia).
  assert (Htxn : forall t p, ptr + 4 <= p ->
    is_Some (match func with
             | None => loop fuel func rdata p end_ r wanted bio s m
             | Some f =>
                 let '(res, s, reply, m) := f s t (bio_init_from_txn (tr_data t)) (bio_init (Bio 0 0 0 0 0 0 0) rdata 256 4) m in
                 let s := if nz (Z.land (tr_flags t) TF_ONE_WAY)
                          then binder_free_buffer binder_write (td_buffer (tr_data t)) s
                          else binder_send_reply binder_write reply m (td_buffer (tr_data t)) res s in
                 loop fuel func rdata p end_ r wanted bio s m
             end)).
  { intros t p Hp. destruct func as [f|]; [|by apply Hnext].
    destruct (f s t _ _ m) as [[[res s'] reply] m']. by apply Hnext. }
  repeat match goal with
  | |- is_Some (if ?c then _ else _) => destruct c
  | |- is_Some (Some _) => by eexists
  | |- is_Some (match ?d with Some _ => _ | None => _ end) => destruct d
  end; solve [apply Hnext; lia | apply Htxn; lia].
Qed.

Lemma binder_parse_total (func : option handler) rdata wanted bio ptr size s m :
  is_Some (parse func rdata wanted bio ptr size s m).
Proof. apply parse_loop_total. lia. Qed.

Section Invariant.
Context (func : handler) (P : S -> Prop) {Hinv : ServerInvariant binder_write death func P}.

Lemma inv_send_reply reply m buf status s : P s -> P (binder_send_reply binder_write reply m buf status s).
Proof.
  intros Hs. unfold binder_send_reply. destruct (nz status); (apply inv_answer; [done|]); by apply inv_answer.
Qed.

Lemma inv_answers (b : bool) reply m buf status s : P s ->
  P (if b then binder_free_buffer binder_write buf s else binder_send_reply binder_write reply m buf status s).
Proof. intros Hs. destruct b; [by apply (inv_answer (BC_FREE_BUFFER buf))|by apply inv_send_reply]. Qed.

(** What holds at the end of a run, the wild one included. *)
Definition ran_inv {A} (state : A -> S) (x : ran S A) : Prop :=
  match x with Wild cookie s => P s /\ death cookie s = None | Ran x => P (state x) end.

Lemma parse_loop_inv fuel rdata ptr end_ r wanted bio s m x :
  P s -> loop fuel (Some func) rdata ptr end_ r wanted bio s m = Some x ->
  ran_inv (fun y => let '(_, _, s', _) := y in s') x.
Proof.
  revert ptr r wanted bio s m. induction fuel as [|fuel IH]; intros ptr r wanted bio s m Hs H; cbn [parse_loop] in H.
  { destruct (negb _); [by injection H as <-|done]. }
  destruct (negb _); [by injection H as <-|]. cbv zeta in H.
  repeat match type of H with
  | (if ?c then _ else _) = _ => destruct c
  | Some _ = Some _ => by injection H as <-
  | (match ?f with pair _ _ => _ end) = _ =>
      let E := fresh "E" in destruct f as [[[? s1] ?] ?] eqn:E; apply (inv_handler _ _ _ _ _ _ _ _ _ Hs) in E
  | (match ?d with Some _ => _ | None => _ end) = _ =>
      let E := fresh "E" in destruct d as [s1|] eqn:E; [apply (inv_death _ _ _ Hs) in E|]
  end; (eapply IH; [|exact H]); first [done | by apply inv_answers].
Qed.

Lemma loop_reads_inv rdata readbuf reads s : P s ->
  exists x, loop_reads binder_write death func rdata readbuf reads s = Some x /\ ran_inv snd x.
Proof.
  revert s. induction reads as [|[|m n] reads IH]; intros s Hs; cbn [loop_reads]; [by eauto..|].
  destruct (binder_parse_total (Some func) rdata false (Bio 0 0 0 0 0 0 0) readbuf n s m) as [parsed E].
  rewrite E. cbn [mbind option_bind]. apply parse_loop_inv in E; [|done].
  destruct parsed as [cookie s1|[[[res bio'] s1] m1]]; [by eauto|]. cbn [ran_inv] in E.
  destruct (res =? 0); [by eauto|]. destruct (res <? 0); [by eauto|]. by apply IH.
Qed.

End Invariant.
End Facts.

(** ** The service manager as a server *)

Section Server.
Context {abi : BinderABI} {proto : BinderProtocol} {proto_ok : BinderProtocolOk proto}.
Context (AU AS AE PING : Z) (malloc_ok : smstate -> bool).

(** A transaction registers a service, or leaves the state as it is. *)
Lemma svcmgr_handler_adds ok st t msg reply m :
  let st' := hr_state (svcmgr_handler AU AS AE PING ok st t msg reply m) in
  st' = st \/ exists ok s len h uid iso prio spid sid r, (len < length s)%nat /\
    do_add_service ok st s len h uid iso prio spid sid = (st', r).
Proof.
  unfold svcmgr_handler.
  repeat match goal with
  | |- context [if ?c then _ else _] => destruct c; try by left
  | |- context [match ?x with Some _ => _ | None => _ end] => destruct x; try by left
  | |- context [do_add_service ?ok ?st (read_units ?m ?p ?len) ?l ?h ?u ?i ?pr ?s1 ?s2] =>
      let E := fresh "E" in destruct (do_add_service ok st (read_units m p len) l h u i pr s1 s2) eqn:E;
      assert ((l < length (read_units m p len))%nat) by (rewrite length_read_units; lia)
  | |- context [let '(_, _) := ?x in _] => destruct x
  end; first [by left | right; repeat eexists; eassumption].
Qed.

(** Every cookie that the driver was given is the address of an entry. *)
Definition cookies_known (st : smstate) : Prop :=
  forall h cookie, BC_REQUEST_DEATH_NOTIFICATION h cookie ∈ driver_log st -> cookie ∈ si_addr <$> svclist st.

Lemma cookies_log c st : (forall h cookie, c <> BC_REQUEST_DEATH_NOTIFICATION h cookie) -> cookies_known st -> cookies_known (log_cmd c st).
Proof. intros Hc H h cookie [E|Hin]%elem_of_cons; [by destruct (Hc h cookie)|by apply (H h)]. Qed.

Lemma cookies_death st cookie st' : cookies_known st -> svcinfo_death st cookie = Some st' -> cookies_known st'.
Proof.
  intros H. unfold svcinfo_death. intros E. apply fmap_Some in E as (si & _ & ->). unfold svcinfo_died.
  destruct (nz _); [|done]. intros h c. cbn [driver_log svclist binder_release]. rewrite set_handle_addrs. by apply (cookies_log (BC_RELEASE (si_handle si)) st).
Qed.

Lemma cookies_add ok st s len h uid iso prio spid sid st' r : sm_wf st -> cookies_known st ->
  do_add_service ok st s len h uid iso prio spid sid = (st', r) -> cookies_known st'.
Proof.
  intros Hwf H Ha. apply do_add_service_cases in Ha; [|done]. destruct Ha as [_|si _ _ Hf|_ _ _ _]; [done|..];
    intros h' cookie; cbn [driver_log svclist]; rewrite ?set_handle_addrs; rewrite !elem_of_cons.
  - apply find_svc_Some in Hf as (Hin & _ & _). intros [[= -> ->]|[?|Hl]]; [by apply list_elem_of_fmap_2|done|].
    apply elem_of_app in Hl as [Hl|Hl]; [|by apply (H h')]. destruct (si_handle si =? 0); [by apply elem_of_nil in Hl|].
    by apply list_elem_of_singleton in Hl.
  - intros [[= -> ->]|[?|Hl]]; [by left|done|right; by apply (H h')].
Qed.

(** What holds in the loop: the registry is reachable, and the driver knows its entries. *)
Definition registry_ok (st : smstate) : Prop := sm_reachable st /\ cookies_known st.

#[export] Instance svc_server : ServerInvariant log_cmd svc_death (svc_handler AU AS AE PING malloc_ok) registry_ok.
Proof.
  split.
  - intros c s Hc [Hs Hk]. split; [|apply cookies_log; [by intros h cookie ->|done]].
    eapply rtc_r; [exact Hs|apply step_answer]. intros h. split; by intros ->.
  - intros cookie s s' [Hs Hk] Hd. split; [|by eapply cookies_death]. eapply rtc_r; [exact Hs|by eapply step_death].
  - intros s t msg reply m res s' reply' m' [Hs Hk] H. unfold svc_handler in H. injection H as _ <- _ _.
    pose proof (svcmgr_handler_adds (malloc_ok s) s (tr_txn t) msg reply m) as H. cbv zeta in H.
    destruct H as [-> | (ok & l & len & h & uid & iso & prio & spid & sid & r & Hlen & Ha)]; [done|]. split.
    + eapply rtc_r; [exact Hs|by eapply step_add].
    + eapply cookies_add; [by apply sm_reachable_wf|done|exact Ha].
Qed.

(** The callback goes wild on a cookie that the driver was never given. *)
Lemma wild_cookie st cookie : cookies_known st -> svc_death cookie st = None ->
  forall h, BC_REQUEST_DEATH_NOTIFICATION h cookie ∉ driver_log st.
Proof.
  intros Hk Hd h Hin. apply Hk in Hin. unfold svc_death, svcinfo_death in Hd. apply fmap_None in Hd.
  apply list_elem_of_fmap in Hin as (si & -> & Hin). unfold node_at in Hd.
  apply list_elem_of_In in Hin. pose proof (find_none _ _ Hd si Hin) as E. cbn in E. by rewrite Z.eqb_refl in E.
Qed.

End Server.

(** ** Delivery of a reply *)

Section Delivery.
Context {abi : BinderABI} {abi_ok : BinderABIOk abi}.

(** The same bytes at two places. *)
Lemma load_moved n a b k m1 m2 len :
  bytes_at m1 a len = bytes_at m2 b len -> 0 <= k -> k + Z.of_nat n <= len ->
  load n (a + k) m1 = load n (b + k) m2.
Proof.
  intros H Hk Hn. unfold load. f_equal. apply list_fmap_ext. intros i x Hx. apply lookup_seq in Hx as [-> Hi].
  apply (f_equal (fun l => l !! Z.to_nat (k + Z.of_nat i))) in H. unfold bytes_at in H.
  rewrite !list_lookup_fmap, !lookup_seq_lt in H by lia. cbn in H. rewrite !Z2Nat.id in H by lia.
  injection H as H. rewrite <- !Z.add_assoc. exact H.
Qed.

Record same_payload (m1 : mem) (t1 : txn_data) (m2 : mem) (t2 : txn_data) : Prop := {
  same_size : td_data_size t1 = td_data_size t2;
  same_offsets_size : td_offsets_size t1 = td_offsets_size t2;
  same_bytes : bytes_at m1 (td_buffer t1) (td_data_size t1) = bytes_at m2 (td_buffer t2) (td_data_size t1);
  same_offsets : bytes_at m1 (td_offsets t1) (td_offsets_size t1) = bytes_at m2 (td_offsets t2) (td_offsets_size t1);
}.

Lemma bio_get_uint32_moved m1 t1 m2 t2 : same_payload m1 t1 m2 t2 ->
  snd (bio_get_uint32 (bio_init_from_txn t1) m1) = snd (bio_get_uint32 (bio_init_from_txn t2) m2).
Proof.
  intros [Hs Ho Hb _]. unfold bio_get_uint32, bio_get. cbn [bio_init_from_txn data data_avail]. rewrite align4_4, <- Hs.
  destruct (Z.ltb_spec (td_data_size t1) 4); [done|]. cbn [snd].
  pose proof (load_moved 4 _ _ 0 _ _ _ Hb) as Hl. rewrite !Z.add_0_r in Hl. apply Hl; lia.
Qed.

Lemma bio_get_ref_moved m1 t1 m2 t2 : sizeof_size_t = sizeof_binder_size_t -> same_payload m1 t1 m2 t2 ->
  snd (bio_get_ref (bio_init_from_txn t1) m1) = snd (bio_get_ref (bio_init_from_txn t2) m2).
Proof.
  intros Hsz [Hs Ho Hb Hof]. pose proof bsz_pos as Hpos. pose proof sizeof_obj_bounds.
  assert (Hh : offs_has (bio_init_from_txn t1) m1 0 = offs_has (bio_init_from_txn t2) m2 0).
  { unfold offs_has. cbn [bio_init_from_txn offs offs_avail]. rewrite <- Ho.
    apply eq_bool_prop_intro. rewrite !Is_true_true, !existsb_exists.
    assert (Hi : forall n, n ∈ seq 0 (Z.to_nat (td_offsets_size t1 / sizeof_size_t)) ->
      load (Z.to_nat sizeof_binder_size_t) (td_offsets t1 + Z.of_nat n * sizeof_binder_size_t) m1 =
      load (Z.to_nat sizeof_binder_size_t) (td_offsets t2 + Z.of_nat n * sizeof_binder_size_t) m2).
    { intros n Hn. apply elem_of_seq in Hn. eapply load_moved; [exact Hof|lia|].
      rewrite Z2Nat.id by lia. rewrite <- Hsz in *.
      pose proof (Z.mul_div_le (td_offsets_size t1) sizeof_size_t Hpos).
      assert (Z.of_nat n + 1 <= td_offsets_size t1 / sizeof_size_t) by lia. nia. }
    split; intros (n & Hin & He); exists n; (split; [done|]); apply list_elem_of_In in Hin;
      [rewrite <- Hi by done|rewrite Hi by done]; done. }
  unfold bio_get_ref, bio_get_obj_. cbn [bio_init_from_txn data data0] in *. rewrite !Z.sub_diag, Hh.
  destruct (offs_has _ m2 0); [|done]. unfold bio_get. rewrite align4_obj. cbn [bio_init_from_txn data data_avail]. rewrite <- Hs.
  destruct (Z.ltb_spec (td_data_size t1) sizeof_obj); [done|].
  pose proof abi_type; pose proof abi_flags; pose proof abi_handle; pose proof abi_handle_cookie;
    pose proof abi_cookie; pose proof uintptr_ge_4.
  rewrite (load_moved 4 _ _ obj_type _ _ _ Hb), (load_moved 4 _ _ obj_handle _ _ _ Hb) by lia.
  by destruct (_ =? _).
Qed.

(** One item in the array of [binder_parse]. *)
Lemma answer_fits rdata i m : (exists h, i = IRef h /\ h <> 0) \/ (exists n, i = IU32 n) ->
  overflowed (fst (put_item (bio_init (Bio 0 0 0 0 0 0 0) rdata 256 4) m i)) = false.
Proof.
  intros Hi. rewrite bio_init_layout; [|lia|destruct abi_size_t as [-> | ->]; lia|lia]. set (n := 4 * sizeof_size_t).
  assert (Hn : 0 <= n <= 32) by (unfold n; destruct abi_size_t as [-> | ->]; lia). pose proof sizeof_obj_bounds.
  destruct Hi as [(h & -> & Hh)|(w & ->)]; cbn [put_item].
  - unfold bio_put_ref, bio_alloc_obj, bio_alloc, nz. destruct (Z.eqb_spec h 0); [done|]. cbn [negb]. rewrite align4_obj.
    cbn [data_avail]. destruct (Z.gtb_spec sizeof_obj (256 - n)); [lia|]. done.
  - unfold bio_put_uint32, bio_alloc. rewrite align4_4. cbn [data_avail].
    destruct (Z.gtb_spec 4 (256 - n)); [lia|]. done.
Qed.

Lemma length_bytes_at m a n : 0 <= n -> Z.of_nat (length (bytes_at m a n)) = n.
Proof. intros H. unfold bytes_at. rewrite length_fmap, length_seq. lia. Qed.

Lemma reply_sizes rdata m i reply m' : put_item (bio_init (Bio 0 0 0 0 0 0 0) rdata 256 4) m i = (reply, m') ->
  0 <= td_data_size (bio_txn reply) /\ 0 <= td_offsets_size (bio_txn reply).
Proof.
  rewrite bio_init_layout; [|lia|destruct abi_size_t as [-> | ->]; lia|lia]. intros E.
  apply put_item_grows in E as [G1 G2 G3 _ _ G6 _ _ _ _].
  - cbn in *. lia.
  - split; cbn; [destruct abi_size_t as [-> | ->]|]; lia.
Qed.

(** The answer to a lookup, written into the array of [binder_parse], and what
    a client reads where the driver has put it. *)
Lemma answer_read rdata h m : sizeof_size_t = sizeof_binder_size_t -> 0 <= h < 2 ^ 32 ->
  let io := bio_init (Bio 0 0 0 0 0 0 0) rdata 256 4 in
  exists reply m',
    (if h =? 0 then bio_put_uint32 io m 0 else bio_put_ref io m h) = (reply, m') /\
    let t := bio_txn reply in
    let payload := bytes_at m' (td_buffer t) (td_data_size t) in
    let offsets := bytes_at m' (td_offsets t) (td_offsets_size t) in
    forall b o mc,
      bytes_at mc b (Z.of_nat (length payload)) = payload -> bytes_at mc o (Z.of_nat (length offsets)) = offsets ->
      let r := bio_init_from_txn (TxnData b o (Z.of_nat (length payload)) (Z.of_nat (length offsets))) in
      if h =? 0 then snd (bio_get_uint32 r mc) = 0 else snd (bio_get_ref r mc) = h.
Proof.
  intros Hsz Hh io. set (i := if h =? 0 then IU32 0 else IRef h).
  assert (Hput : (if h =? 0 then bio_put_uint32 io m 0 else bio_put_ref io m h) = put_item io m i)
    by (unfold i; by destruct (h =? 0)).
  assert (Hi : (exists h, i = IRef h /\ h <> 0) \/ (exists n, i = IU32 n)).
  { unfold i. destruct (Z.eqb_spec h 0); [right; by eexists|left; by eexists]. }
  assert (Hok : item_ok i) by (unfold i; destruct (Z.eqb_spec h 0); simpl; lia).
  pose proof (answer_fits rdata i m Hi) as Hov. fold io in Hov. rewrite Hput.
  destruct (put_item io m i) as [reply m'] eqn:E. cbn [fst] in Hov. exists reply, m'. split; [done|].
  assert (Hs4 : 4 * sizeof_size_t <= 256) by (destruct abi_size_t as [-> | ->]; lia).
  assert (Hput' : put_items io m [i] = (reply, m')) by (cbn [put_items]; by rewrite E).
  destruct (bio_roundtrip_result (Bio 0 0 0 0 0 0 0) rdata 256 4 m [i] reply m' ltac:(lia) Hs4 ltac:(lia)
              (eq_sym Hsz) ltac:(by constructor) Hput' Hov) as (r' & Hget & _).
  intros t payload offsets b o mc Hb Ho r.
  assert (Hn : 0 <= td_data_size t /\ 0 <= td_offsets_size t) by exact (reply_sizes _ _ _ _ _ E).
  assert (Hsame : same_payload m' t mc (TxnData b o (Z.of_nat (length payload)) (Z.of_nat (length offsets)))).
  { split; cbn [td_data_size td_offsets_size td_buffer td_offsets]; unfold payload, offsets in *;
      rewrite !length_bytes_at in * by lia; [done|done|by rewrite Hb|by rewrite Ho]. }
  apply bio_get_uint32_moved in Hsame as H1. apply (bio_get_ref_moved _ _ _ _ Hsz) in Hsame as H2.
  unfold i in Hget. cbn [fmap list_fmap kind_of get_items] in Hget. fold r in H1, H2. unfold t in H1, H2.
  destruct (h =? 0); cbn [kind_of get_item value_of] in Hget.
  - rewrite <- H1. destruct (bio_get_uint32 (bio_init_from_txn (bio_txn reply)) m') as [r1 v]. by injection Hget as _ ->.
  - rewrite <- H2. destruct (bio_get_ref (bio_init_from_txn (bio_txn reply)) m') as [r1 v]. by injection Hget as _ ->.
Qed.

End Delivery.

(** A buffer with a single transaction. *)
Section OneTransaction.
Context {abi : BinderABI} {abi_ok : BinderABIOk abi} {proto : BinderProtocol} {proto_ok : BinderProtocolOk proto}.
Context {S : Type} (binder_write : cmd -> S -> S) (death : Z -> S -> option S).
Context (func : S -> transaction -> binder_io -> binder_io -> mem -> Z * S * binder_io * mem).

Lemma br_transaction_new c :
  c ∈ [BR_NOOP; BR_TRANSACTION_COMPLETE; BR_INCREFS; BR_ACQUIRE; BR_RELEASE_; BR_DECREFS; BR_TRANSACTION_SEC_CTX] ->
  (BR_TRANSACTION =? c) = false.
Proof.
  intros Hc. pose proof codes_distinct as H.
  apply (NoDup_app [BR_NOOP; BR_TRANSACTION_COMPLETE; BR_INCREFS; BR_ACQUIRE; BR_RELEASE_; BR_DECREFS;
                    BR_TRANSACTION_SEC_CTX] (BR_TRANSACTION :: _)) in H as (_ & H & _).
  apply Z.eqb_neq. intros E. apply (H _ Hc). rewrite <- E. left.
Qed.

Lemma parse_transaction rdata bio ptr s m res s' reply m' :
  load 4 ptr m = BR_TRANSACTION ->
  let t := read_txn m (ptr + 4) 0 in
  nz (Z.land (tr_flags t) TF_ONE_WAY) = false ->
  func s t (bio_init_from_txn (tr_data t)) (bio_init (Bio 0 0 0 0 0 0 0) rdata 256 4) m = (res, s', reply, m') ->
  binder_parse binder_write death (Some func) rdata false bio ptr (4 + sizeof_txn) s m =
  Some (Ran (1, bio, binder_send_reply binder_write reply m' (td_buffer (tr_data t)) res s', m')).
Proof.
  intros Hc t Hf Hh. pose proof txn_size. unfold binder_parse.
  replace (Z.to_nat (4 + sizeof_txn)) with (Datatypes.S (Z.to_nat (3 + sizeof_txn))) by lia. cbn [parse_loop].
  destruct (Z.ltb_spec ptr (ptr + (4 + sizeof_txn))); [|lia]. cbn [negb]. rewrite Hc. cbv zeta.
  rewrite !br_transaction_new by set_solver. cbn [orb]. rewrite Z.eqb_refl.
  rewrite usz_small by lia. destruct (Z.ltb_spec (ptr + (4 + sizeof_txn) - (ptr + 4)) sizeof_txn); [lia|].
  fold t. rewrite Hh, Hf. destruct (Z.ltb_spec (ptr + 4 + sizeof_txn) (ptr + (4 + sizeof_txn))); [lia|done].
Qed.

End OneTransaction.

(** * Properties *)

Section Properties.
Context {abi : BinderABI} {abi_ok : BinderABIOk abi} {proto : BinderProtocol} {proto_ok : BinderProtocolOk proto}.
Context (AID_USER AID_ISOLATED_START AID_ISOLATED_END PING_TRANSACTION : Z) (malloc_ok : smstate -> bool).

(** C5: whatever the driver delivers, in however many reads, the loop of the
    service manager never gets stuck in the parser, stops or waits for more,
    and leaves a registry that is reachable: its entries hold exactly the
    references that were acquired and not released. The one way in which it can
    go wild is the notification of a death with a cookie that the driver was never
    given; every cookie that it was given is the address of an entry. *)
Theorem svc_loop_invariant (rdata readbuf : Z) (reads : list read) (st : smstate) :
  sm_reachable st -> cookies_known st ->
  exists st',
    ((exists why, svc_loop AID_USER AID_ISOLATED_START AID_ISOLATED_END PING_TRANSACTION malloc_ok rdata readbuf reads st
        = Some (Ran (why, st'))) \/
     (exists cookie, svc_loop AID_USER AID_ISOLATED_START AID_ISOLATED_END PING_TRANSACTION malloc_ok rdata readbuf reads st
        = Some (Wild cookie st') /\ forall h, BC_REQUEST_DEATH_NOTIFICATION h cookie ∉ driver_log st')) /\
    sm_reachable st' /\ cookies_known st' /\ forall h, h <> 0 -> refs h (driver_log st') = live h (svclist st').
Proof.
  intros Hst Hk.
  destruct (loop_reads_inv log_cmd svc_death (svc_handler AID_USER AID_ISOLATED_START AID_ISOLATED_END PING_TRANSACTION malloc_ok)
              registry_ok rdata readbuf reads (log_cmd BC_ENTER_LOOPER st)) as ([cookie st'|[why st']] & E & Hr).
  - by apply (inv_answer (ServerInvariant := svc_server AID_USER AID_ISOLATED_START AID_ISOLATED_END PING_TRANSACTION malloc_ok)).
  - destruct Hr as [[Hr Hk'] Hd]. exists st'. split; [right; exists cookie; split; [done|by apply wild_cookie]|].
    split_and!; [done..|]. intros h Hh. by apply refs_balanced.
  - destruct Hr as [Hr Hk']. exists st'. split; [left; by exists why|]. split_and!; [done..|]. intros h Hh. by apply refs_balanced.
Qed.

(** C36: a lookup from end to end. When the driver delivers a transaction whose
    payload is a marshalled GET or CHECK request, the service manager frees
    the buffer, answers without changing the registry, and the client, where-
    ever in its memory the driver puts the payload of the answer, reads the
    handle that the registry's map has for the name, or the word 0. *)
Theorem get_service_served (rdata ptr : Z) (bio : binder_io) (st : smstate) (m : mem) (policy ws : Z) (name : list Z) :
  sm_reachable st -> name <> [] -> sizeof_size_t = sizeof_binder_size_t ->
  load 4 ptr m = BR_TRANSACTION ->
  let t := read_txn m (ptr + 4) 0 in
  let h := spec_find (registry st) name
             (is_isolated AID_USER AID_ISOLATED_START AID_ISOLATED_END (sender_euid (tr_txn t))) in
  nz (Z.land (tr_flags t) TF_ONE_WAY) = false -> target_ptr (tr_txn t) = BINDER_SERVICE_MANAGER ->
  txn_code (tr_txn t) <> PING_TRANSACTION ->
  (txn_code (tr_txn t) = SVC_MGR_GET_SERVICE \/ txn_code (tr_txn t) = SVC_MGR_CHECK_SERVICE) ->
  sends (request policy ws [IStr name]) (bio_init_from_txn (tr_data t)) m -> 0 <= h < 2 ^ 32 ->
  exists payload offsets m',
    binder_parse log_cmd svc_death
      (Some (svc_handler AID_USER AID_ISOLATED_START AID_ISOLATED_END PING_TRANSACTION malloc_ok))
      rdata false bio ptr (4 + sizeof_txn) st m
    = Some (Ran (1, bio, log_cmd (BC_REPLY 0 payload offsets) (log_cmd (BC_FREE_BUFFER (td_buffer (tr_data t))) st), m')) /\
    forall b o mc,
      bytes_at mc b (Z.of_nat (length payload)) = payload -> bytes_at mc o (Z.of_nat (length offsets)) = offsets ->
      let reply := bio_init_from_txn (TxnData b o (Z.of_nat (length payload)) (Z.of_nat (length offsets))) in
      if h =? 0 then snd (bio_get_uint32 reply mc) = 0 else snd (bio_get_ref reply mc) = h.
Proof.
  intros Hst Hname Hsz Hc t h Hf Ht Hp Hcode Hsend Hh.
  pose proof (handler_get_result AID_USER AID_ISOLATED_START AID_ISOLATED_END PING_TRANSACTION (malloc_ok st) st
                (tr_txn t) _ (bio_init (Bio 0 0 0 0 0 0 0) rdata 256 4) m policy ws name Hst Hname Hsend Ht Hp Hcode) as Hres.
  cbv zeta in Hres. fold h in Hres.
  destruct (answer_read rdata h m Hsz Hh) as (reply & m' & Ew & Hget). rewrite Ew in Hres. cbn [fst snd] in Hres.
  assert (Hs : svc_handler AID_USER AID_ISOLATED_START AID_ISOLATED_END PING_TRANSACTION malloc_ok st t
                 (bio_init_from_txn (tr_data t)) (bio_init (Bio 0 0 0 0 0 0 0) rdata 256 4) m = (0, st, reply, m')).
  { unfold svc_handler. by rewrite Hres. }
  eexists _, _, m'. split.
  - rewrite (parse_transaction log_cmd svc_death _ _ bio _ _ _ _ _ _ _ Hc Hf Hs). reflexivity.
  - intros b o mc Hb Ho. by apply Hget.
Qed.

End Properties.

(** * Witnesses *)

Section Witnesses.
#[local] Existing Instance abi64.
#[local] Existing Instance abi64_ok.
#[local] Existing Instance protocol64.

Definition lookup_msg : txn_data := bio_txn (fst (demo_request [IStr demo_name])).

(** A read buffer at 10000 with the transaction of a lookup. *)
Definition lookup_mem : mem :=
  let s n a v m := store n (10004 + a) v m in
  store 4 10000 BR_TRANSACTION
    (s 8%nat at_target 0 (s 4%nat at_code SVC_MGR_GET_SERVICE (s 4%nat at_flags 0 (s 4%nat at_pid 100 (s 4%nat at_euid 1000
      (s 8%nat at_data_size (td_data_size lookup_msg) (s 8%nat at_offsets_size (td_offsets_size lookup_msg)
        (s 8%nat at_buffer (td_buffer lookup_msg) (s 8%nat at_offsets (td_offsets lookup_msg)
          (snd (demo_request [IStr demo_name]))))))))))).

Lemma lookup_sent : sends (request 0 0 [IStr demo_name]) (bio_init_from_txn (tr_data (read_txn lookup_mem 10004 0))) lookup_mem.
Proof. eexists. vm_compute. reflexivity. Qed.

Lemma lookup_handle :
  spec_find (registry demo_state) demo_name
    (is_isolated 100000 99000 99999 (sender_euid (tr_txn (read_txn lookup_mem 10004 0)))) = 7.
Proof. vm_compute. reflexivity. Qed.

(** The driver delivers the lookup, then the death of the service, then the
    lookup again. *)
Definition death_mem (cookie : Z) : mem := store 4 10000 BR_DEAD_BINDER (store 8 10004 cookie (snd (demo_request [IStr demo_name]))).
Definition demo_reads (cookie : Z) : list read := [Read lookup_mem 68; Read (death_mem cookie) 12; Read lookup_mem 68; ReadError].
Abbreviation demo_loop cookie := (svc_loop 100000 99000 99999 1599098439 (fun _ => true) 20000 10000 (demo_reads cookie) demo_state).

Lemma demo_cookies : cookies_known demo_state.
Proof.
  assert (El : driver_log demo_state = [BC_REQUEST_DEATH_NOTIFICATION 7 1; BC_ACQUIRE 7]) by (vm_compute; reflexivity).
  assert (Es : si_addr <$> svclist demo_state = [1]) by (vm_compute; reflexivity).
  intros h cookie. rewrite El, Es, !elem_of_cons. intros [E|[E|E]]; [injection E as _ ->; by left|discriminate|by apply elem_of_nil in E].
Qed.

(** The cookie of the entry lets its handle go; another one is followed into the void. *)
Lemma demo_loop_runs :
  match demo_loop 1 with Some (Ran (IoctlFailed, st)) => map si_handle (svclist st) = [0] | _ => False end /\
  match demo_loop 4242 with Some (Wild cookie _) => cookie = 4242 | _ => False end.
Proof. split; vm_compute; reflexivity. Qed.

Lemma svc_loop_invariant_witness :
  exists st',
    ((exists why, demo_loop 1 = Some (Ran (why, st'))) \/
     (exists cookie, demo_loop 1 = Some (Wild cookie st') /\ forall h, BC_REQUEST_DEATH_NOTIFICATION h cookie ∉ driver_log st')) /\
    sm_reachable st' /\ cookies_known st' /\ forall h, h <> 0 -> refs h (driver_log st') = live h (svclist st').
Proof. exact (svc_loop_invariant 100000 99000 99999 1599098439 (fun _ => true) 20000 10000 (demo_reads 1) demo_state demo_reachable demo_cookies). Defined.

Lemma get_service_served_witness :
  exists payload offsets m',
    binder_parse log_cmd svc_death (Some (svc_handler 100000 99000 99999 1599098439 (fun _ => true)))
      20000 false (Bio 0 0 0 0 0 0 0) 10000 (4 + sizeof_txn) demo_state lookup_mem
    = Some (Ran (1, Bio 0 0 0 0 0 0 0, log_cmd (BC_REPLY 0 payload offsets)
              (log_cmd (BC_FREE_BUFFER (td_buffer (tr_data (read_txn lookup_mem (10000 + 4) 0)))) demo_state), m')) /\
    forall b o mc,
      bytes_at mc b (Z.of_nat (length payload)) = payload -> bytes_at mc o (Z.of_nat (length offsets)) = offsets ->
      let reply := bio_init_from_txn (TxnData b o (Z.of_nat (length payload)) (Z.of_nat (length offsets))) in
      let h := spec_find (registry demo_state) demo_name
                 (is_isolated 100000 99000 99999 (sender_euid (tr_txn (read_txn lookup_mem (10000 + 4) 0)))) in
      if h =? 0 then snd (bio_get_uint32 reply mc) = 0 else snd (bio_get_ref reply mc) = h.
Proof.
  apply (get_service_served 100000 99000 99999 1599098439 (fun _ => true) 20000 10000 (Bio 0 0 0 0 0 0 0)
           demo_state lookup_mem 0 0 demo_name demo_reachable).
  - discriminate.
  - reflexivity.
  - vm_compute. reflexivity.
  - vm_compute. reflexivity.
  - vm_compute. reflexivity.
  - vm_compute. discriminate.
  - left. vm_compute. reflexivity.
  - exact lookup_sent.
  - change (10000 + 4) with 10004. rewrite lookup_handle. lia.
Defined.

End Witnesses.
