(* ===== verification/CLib.v ===== *)
(** What the sources use of the C library's conversions of strings to numbers:
    [strtol], [strtoll] and [atoi], with white space, sign, base prefix,
    saturation and the end pointer. *)

From S2P Require Import Prelude.

Open Scope Z_scope.

(** * Conversions of the C library *)

Definition is_space (c : ascii) : bool := (code c =? 32) || ((9 <=? code c) && (code c <=? 13)).

Definition digit_val (c : ascii) : option Z :=
  let n := code c in
  if (48 <=? n) && (n <=? 57) then Some (n - 48)
  else if (97 <=? n) && (n <=? 122) then Some (n - 87)
  else if (65 <=? n) && (n <=? 90) then Some (n - 55)
  else None.

(** The digits of [base] at the front of [s]: the value, the rest, and
    whether there was one. *)
Fixpoint scan_digits (base : Z) (s : str) (acc : Z) (any : bool) : Z * str * bool :=
  match s with
  | [] => (acc, [], any)
  | c :: s' =>
      match digit_val c with
      | Some d => if d <? base then scan_digits base s' (acc * base + d) true else (acc, s, any)
      | None => (acc, s, any)
      end
  end.

Fixpoint skip_spaces (s : str) : str :=
  match s with
  | c :: s' => if is_space c then skip_spaces s' else s
  | [] => []
  end.

Definition take_sign (s : str) : bool * str :=
  match s with
  | c :: s' => if Ascii.eqb c "-" then (true, s') else if Ascii.eqb c "+" then (false, s') else (false, s)
  | [] => (false, [])
  end.

Definition is_x (c : ascii) : bool := Ascii.eqb c "x" || Ascii.eqb c "X".

Definition is_hex (c : ascii) : bool :=
  match digit_val c with Some d => d <? 16 | None => false end.

(** The base that base 0 stands for, and the string after its prefix. *)
Definition detect_base (base : Z) (s : str) : Z * str :=
  if base =? 0 then
    match s with
    | z :: x :: d :: s' =>
        if Ascii.eqb z "0" && is_x x && is_hex d then (16, d :: s')
        else if Ascii.eqb z "0" then (8, s) else (10, s)
    | z :: _ => if Ascii.eqb z "0" then (8, s) else (10, s)
    | [] => (10, s)
    end
  else (base, s).

Definition clamp (lo hi z : Z) : Z := Z.max lo (Z.min hi z).

(** [strtoll]/[strtol] of a 64-bit [long]: the value and the rest of the
    string, [None] when nothing was converted ([end == in]). *)
Definition strtoll (s : str) (base : Z) : Z * option str :=
  let '(neg, s1) := take_sign (skip_spaces s) in
  let '(b, s2) := detect_base base s1 in
  let '(v, rest, any) := scan_digits b s2 0 false in
  if any then (clamp (- 2 ^ 63) (2 ^ 63 - 1) (if neg then - v else v), Some rest) else (0, None).

Definition atoi (s : str) : Z := i32 (fst (strtoll s 10)).

(** ** Numbers that are printed and read again *)

Lemma pretty_N_char_digit d : (d < 10)%N -> digit_val (pretty_N_char d) = Some (Z.of_N d).
Proof.
  intros H. assert (d = 0 \/ d = 1 \/ d = 2 \/ d = 3 \/ d = 4 \/ d = 5 \/ d = 6 \/ d = 7 \/ d = 8 \/ d = 9)%N as D by lia.
  by repeat (destruct D as [->|D]; [done|]); subst.
Qed.

Lemma scan_digits_pretty x s rest any :
  scan_digits 10 (lit (pretty_N_go x s) ++ rest) 0 any = scan_digits 10 (lit s ++ rest) (Z.of_N x) (any || (0 <? x)%N).
Proof.
  revert s any. induction (N.lt_wf_0 x) as [x _ IH]. intros s any.
  destruct (decide (x = 0)%N) as [->|Hx]; [by rewrite pretty_N_go_0, orb_false_r|].
  rewrite pretty_N_go_step by lia. rewrite IH by (apply N.div_lt; lia).
  unfold lit. cbn [String.list_ascii_of_string app scan_digits].
  pose proof (N.mod_lt x 10 ltac:(done)) as Hm. rewrite pretty_N_char_digit by done.
  replace (Z.of_N (x mod 10) <? 10) with true by (symmetry; apply Z.ltb_lt; lia).
  replace (0 <? x)%N with true by (symmetry; apply N.ltb_lt; lia). rewrite orb_true_r. f_equal.
  rewrite (N.div_mod x 10) at 3 by done. lia.
Qed.

(** A number that does not go on is read as it was printed. *)
Lemma strtoll_fmt_d z rest :
  0 <= z < 2 ^ 63 -> (forall c s d, rest = c :: s -> digit_val c = Some d -> 10 <= d) -> strtoll (fmt_d z ++ rest) 10 = (z, Some rest).
Proof.
  intros Hz Hrest. assert (Hend : forall v, scan_digits 10 rest v true = (v, rest, true)).
  { intros v. destruct rest as [|c s]; [done|]. cbn [scan_digits]. destruct (digit_val c) as [d|] eqn:E; [|done].
    specialize (Hrest c s d eq_refl E). by replace (d <? 10) with false by (symmetry; apply Z.ltb_ge; lia). }
  assert (Hscan : scan_digits 10 (fmt_d z ++ rest) 0 false = (z, rest, true)).
  { destruct z as [|p|p]; [exact (Hend 0)| |lia]. change (fmt_d (Zpos p)) with (lit (pretty_N_go (Npos p) "")).
    rewrite scan_digits_pretty. cbn. apply Hend. }
  assert (Hfirst : skip_spaces (fmt_d z ++ rest) = fmt_d z ++ rest /\ take_sign (fmt_d z ++ rest) = (false, fmt_d z ++ rest)).
  { destruct (fmt_d z ++ rest) as [|c s]; [done|]. cbn [scan_digits] in Hscan. destruct (digit_val c) as [d|] eqn:E; [|done].
    destruct c as [[] [] [] [] [] [] [] []]; first [discriminate E|done]. }
  destruct Hfirst as [H1 H2]. unfold strtoll. rewrite H1, H2. cbn [detect_base]. unfold detect_base. cbn [Z.eqb]. rewrite Hscan.
  unfold clamp. do 2 f_equal. lia.
Qed.

(** * Input *)

(** The results of [getline] up to the end: an empty last part is no line. *)
Definition getlines (delim : ascii) (s : str) : list str :=
  let parts := split_on delim s in
  match last parts with Some [] => removelast parts | _ => parts end.

Lemma getlines_spec delim lines : (forall l, l ∈ lines -> delim ∉ l) ->
  getlines delim (concat (map (fun l => l ++ [delim]) lines)) = lines.
Proof.
  intros Hl. assert (E : split_on delim (concat (map (fun l => l ++ [delim]) lines)) = lines ++ [[]]).
  { induction lines as [|l lines IH]; [done|]. cbn [map concat]. rewrite <- app_assoc. cbn [app].
    rewrite split_on_app, (split_on_single delim l) by (apply Hl; left). cbn [app]. f_equal. apply IH. intros l' Hl'. apply Hl. by right. }
  unfold getlines. by rewrite E, last_snoc, removelast_last.
Qed.

(** [std::isdigit], and the characters of a word in a regular expression. *)
Definition is_decimal (c : ascii) : bool := (48 <=? code c) && (code c <=? 57).
Definition is_word (c : ascii) : bool :=
  is_decimal c || ((65 <=? code c) && (code c <=? 90)) || ((97 <=? code c) && (code c <=? 122)) || Ascii.eqb c "_".
