(* ===== verification/Platform.v ===== *)
(** What the programs use of the platform they run on.

    The libraries and kernel interfaces that are not in the repository enter
    the development as parameters: the user-id arithmetic of [libcutils]
    ([Multiuser], with its documented laws in [MultiuserOk]), the id ranges of
    [private/android_filesystem_config.h] ([AidRanges]), and the views of the
    file system that POSIX calls return ([dirent], [stat], [errno]). *)

From S2P Require Import Prelude.

Open Scope Z_scope.

(** * User and group ids *)

Class AidRanges := {
  AID_APP_START : Z; AID_APP_END : Z;
  AID_CACHE_GID_START : Z; AID_CACHE_GID_END : Z;
  AID_EXT_GID_START : Z;
  AID_SHARED_GID_START : Z; AID_SHARED_GID_END : Z;
  AID_MEDIA_RW : Z; AID_SYSTEM : Z; AID_EVERYBODY : Z;
}.

Class Multiuser := {
  multiuser_get_user_id : Z -> Z;
  multiuser_get_app_id : Z -> Z;
  multiuser_get_uid : Z -> Z -> Z;
  multiuser_get_cache_gid : Z -> Z -> Z;
  multiuser_get_ext_gid : Z -> Z -> Z;
  multiuser_get_ext_cache_gid : Z -> Z -> Z;
  multiuser_get_shared_gid : Z -> Z -> Z;
}.

(** The ids of a user and an application are recovered from the uid. *)
Class MultiuserOk (mu : Multiuser) : Prop := {
  user_id_of_uid : forall u a, 0 <= u < 21474 -> 0 <= a < 100000 ->
    multiuser_get_user_id (multiuser_get_uid u a) = u;
  app_id_of_uid : forall u a, 0 <= u < 21474 -> 0 <= a < 100000 ->
    multiuser_get_app_id (multiuser_get_uid u a) = a;
  user_id_nonneg : forall uid, 0 <= uid -> 0 <= multiuser_get_user_id uid;
}.

(** A concrete instance, for the witnesses: the documented arithmetic. *)
Definition aid_android : AidRanges := {|
  AID_APP_START := 10000; AID_APP_END := 19999;
  AID_CACHE_GID_START := 20000; AID_CACHE_GID_END := 29999;
  AID_EXT_GID_START := 30000;
  AID_SHARED_GID_START := 50000; AID_SHARED_GID_END := 59999;
  AID_MEDIA_RW := 1023; AID_SYSTEM := 1000; AID_EVERYBODY := 9997 |}.

Definition range_gid (start user app : Z) : Z :=
  if (10000 <=? app) && (app <=? 19999) then user * 100000 + (app - 10000 + start) else -1.

Definition mu_android : Multiuser := {|
  multiuser_get_user_id uid := uid / 100000;
  multiuser_get_app_id uid := uid mod 100000;
  multiuser_get_uid u a := u * 100000 + a mod 100000;
  multiuser_get_cache_gid := range_gid 20000;
  multiuser_get_ext_gid := range_gid 30000;
  multiuser_get_ext_cache_gid := range_gid 40000;
  multiuser_get_shared_gid _ := range_gid 50000 0 |}.

(** * Directories and files *)

Inductive dtype := DT_REG | DT_DIR | DT_LNK | DT_UNKNOWN | DT_OTHER.

#[export] Instance dtype_eq_dec : EqDecision dtype.
Proof. solve_decision. Defined.

Record dirent := Dirent {
  d_name : str;
  d_ino : Z;
  d_type : dtype;
}.

(** The [errno] values the sources compare with. *)
Definition ENOENT : Z := 2.
Definition ESRCH : Z := 3.
Definition EINTR : Z := 4.
Definition EEXIST : Z := 17.
Definition ENODATA : Z := 61.
Definition EOPNOTSUPP : Z := 95.

(** The file type of [st_mode], and its permission bits. *)
Inductive ftype := S_IFREG | S_IFDIR | S_IFLNK | S_IFOTHER.

#[export] Instance ftype_eq_dec : EqDecision ftype.
Proof. solve_decision. Defined.

Record stat := Stat {
  st_ino : Z;
  st_type : ftype;
  st_perm : Z;
  st_uid : Z;
  st_gid : Z;
  st_size : Z;
  st_blocks : Z;
  st_mtime : Z;
}.

(** * Lemmas *)

#[export] Instance mu_android_ok : MultiuserOk mu_android.
Proof.
  split; cbn [mu_android multiuser_get_user_id multiuser_get_app_id multiuser_get_uid]; intros.
  - rewrite (Z.mod_small a) by lia. rewrite Z.div_add_l by lia. rewrite Z.div_small; lia.
  - rewrite (Z.mod_small a) by lia. rewrite Z.add_comm, Z.mod_add, Z.mod_small by lia. done.
  - apply Z.div_pos; lia.
Qed.
