(* ===== verification/Fts.v ===== *)
(** The traversal of a file hierarchy by [fts(3)].

    The library is not in the repository; this is the behaviour its manual
    documents for [FTS_PHYSICAL | FTS_NOCHDIR | FTS_XDEV]: one structure per
    object, a directory returned before ([FTS_D]) and after ([FTS_DP]) its
    descendants, [FTS_DNR] instead of the second when it cannot be read, and
    [fts_set(FTS_SKIP)] to visit none of them. A hierarchy is a tree, its
    traversal a cursor with the objects left to visit.

    [fts_loop] is the loop [while ((p = fts_read(fts)) != nullptr) body] of
    the sources; [fts_loop_spec] turns it into a recursion on the tree. *)

From S2P Require Import Prelude Platform.

Open Scope Z_scope.

Inductive ftsinfo := FTS_D | FTS_DP | FTS_DNR | FTS_F | FTS_SL | FTS_SLNONE | FTS_DEFAULT | FTS_NS.

#[export] Instance ftsinfo_eq_dec : EqDecision ftsinfo.
Proof. solve_decision. Defined.

(** [fts_id] stands for the address of the structure: the positions on the
    way from the root, innermost first. The parent of a root is a structure
    of level -1 that no loop visits, [None] here. *)
Inductive FTSENT := Ftsent {
  fts_info : ftsinfo;
  fts_level : Z;
  fts_path : str;
  fts_name : str;
  fts_statp : stat;
  fts_id : list nat;
  fts_parent : option FTSENT;
}.

Inductive ftree :=
| Leaf (info : ftsinfo) (name : str) (st : stat)
| Dir (name : str) (st : stat) (readable : bool) (children : list ftree).

(** ** The cursor *)

Inductive todo :=
| Visit (parent : option FTSENT) (level : Z) (path : str) (id : list nat) (t : ftree)
| Open (e : FTSENT) (readable : bool) (children : list ftree)
| Post (e : FTSENT).

Definition set_info (i : ftsinfo) (e : FTSENT) : FTSENT :=
  Ftsent i (fts_level e) (fts_path e) (fts_name e) (fts_statp e) (fts_id e) (fts_parent e).

Definition ftree_name (t : ftree) : str :=
  match t with Leaf _ n _ => n | Dir n _ _ _ => n end.

Definition ftree_stat (t : ftree) : stat :=
  match t with Leaf _ _ st => st | Dir _ st _ _ => st end.

Definition ends_slash (p : str) : bool :=
  match last p with Some c => Ascii.eqb c slash | None => false end.

(** The path of a child: no second slash after a root that ends in one. *)
Definition child_path (p name : str) : str :=
  if ends_slash p then p ++ name else p ++ slash :: name.

Fixpoint visits (e : FTSENT) (i : nat) (ch : list ftree) : list todo :=
  match ch with
  | [] => []
  | c :: ch' =>
      Visit (Some e) (fts_level e + 1) (child_path (fts_path e) (ftree_name c)) (i :: fts_id e) c
        :: visits e (S i) ch'
  end.

Definition fts_visit (parent : option FTSENT) (level : Z) (path : str) (id : list nat) (t : ftree)
    (rest : list todo) : FTSENT * list todo :=
  match t with
  | Leaf info name st => (Ftsent info level path name st id parent, rest)
  | Dir name st rd ch =>
      let e := Ftsent FTS_D level path name st id parent in (e, Open e rd ch :: rest)
  end.

Definition fts_read (s : list todo) : option (FTSENT * list todo) :=
  match s with
  | [] => None
  | Visit parent level path id t :: r => Some (fts_visit parent level path id t r)
  | Open e false _ :: r => Some (set_info FTS_DNR e, r)
  | Open e true ch :: r =>
      match visits e 0 ch with
      | Visit parent level path id t :: vs => Some (fts_visit parent level path id t (vs ++ Post e :: r))
      | _ => Some (set_info FTS_DP e, r)
      end
  | Post e :: r => Some (set_info FTS_DP e, r)
  end.

(** [fts_set(fts, p, FTS_SKIP)]: it has an effect on the directory just read. *)
Definition fts_set_skip (s : list todo) : list todo :=
  match s with
  | Open e _ _ :: r => Post e :: r
  | _ => s
  end.

(** [fts_open] of the paths of [argv] that lead to the hierarchies [roots]. *)
Fixpoint fts_roots (i : nat) (roots : list (str * ftree)) : list todo :=
  match roots with
  | [] => []
  | (path, t) :: roots' => Visit None 0 path [i] t :: fts_roots (S i) roots'
  end.

(** The visits left, an upper bound: the fuel of the loops. *)
Fixpoint ftree_size (t : ftree) : nat :=
  match t with
  | Leaf _ _ _ => 1
  | Dir _ _ _ ch => 2 + list_sum (map ftree_size ch)
  end.

Definition todo_size (d : todo) : nat :=
  match d with
  | Visit _ _ _ _ t => ftree_size t
  | Open _ _ ch => 1 + list_sum (map ftree_size ch)
  | Post _ => 1
  end.

Definition todos_size (s : list todo) : nat := list_sum (map todo_size s).

(** ** Loops *)

Section Loop.
Context {St : Type} (body : FTSENT -> St -> St * bool).

(** The second component of the body's result says that it set [FTS_SKIP]. *)
Fixpoint fts_loop (fuel : nat) (s : list todo) (st : St) : option St :=
  match fuel with
  | O => None
  | S fuel' =>
      match fts_read s with
      | None => Some st
      | Some (p, s') =>
          let '(st', skip) := body p st in
          fts_loop fuel' (if skip then fts_set_skip s' else s') st'
      end
  end.

Definition fts_run (s : list todo) (st : St) : option St := fts_loop (S (todos_size s)) s st.

(** The same as a recursion on the tree. *)
Definition leaf_step (e : FTSENT) (st : St) : St := fst (body e st).

Fixpoint tree_fold (parent : option FTSENT) (level : Z) (path : str) (id : list nat) (t : ftree)
    (st : St) : St :=
  match t with
  | Leaf info name s => leaf_step (Ftsent info level path name s id parent) st
  | Dir name s rd ch =>
      let e := Ftsent FTS_D level path name s id parent in
      let '(st1, skip) := body e st in
      if skip then leaf_step (set_info FTS_DP e) st1
      else if rd then
        let fix go i l st :=
          match l with
          | [] => st
          | c :: l' =>
              go (S i) l' (tree_fold (Some e) (level + 1) (child_path path (ftree_name c)) (i :: id) c st)
          end in
        leaf_step (set_info FTS_DP e) (go 0%nat ch st1)
      else leaf_step (set_info FTS_DNR e) st1
  end.

Fixpoint forest_fold (e : FTSENT) (i : nat) (l : list ftree) (st : St) : St :=
  match l with
  | [] => st
  | c :: l' =>
      forest_fold e (S i) l'
        (tree_fold (Some e) (fts_level e + 1) (child_path (fts_path e) (ftree_name c)) (i :: fts_id e) c st)
  end.

Definition todo_fold (d : todo) (st : St) : St :=
  match d with
  | Visit parent level path id t => tree_fold parent level path id t st
  | Open e true ch => leaf_step (set_info FTS_DP e) (forest_fold e 0 ch st)
  | Open e false _ => leaf_step (set_info FTS_DNR e) st
  | Post e => leaf_step (set_info FTS_DP e) st
  end.

End Loop.

(** * Lemmas *)

(** Induction on a tree with the hypothesis for every child. *)
Lemma ftree_ind' (P : ftree -> Prop) :
  (forall info name st, P (Leaf info name st)) ->
  (forall name st rd ch, Forall P ch -> P (Dir name st rd ch)) ->
  forall t, P t.
Proof.
  intros HL HD. fix IH 1. intros [info name st|name st rd ch]; [apply HL|].
  apply HD. induction ch as [|c ch IHch]; constructor; [apply IH|apply IHch].
Qed.

Lemma ftree_size_pos t : (1 <= ftree_size t)%nat.
Proof. destruct t; simpl; lia. Qed.

Lemma todo_size_visits e i ch : list_sum (map todo_size (visits e i ch)) = list_sum (map ftree_size ch).
Proof. revert i. induction ch as [|c ch IH]; intros i; simpl; [done|]. by rewrite IH. Qed.

Lemma todos_size_cons d s : todos_size (d :: s) = (todo_size d + todos_size s)%nat.
Proof. done. Qed.

Lemma todos_size_app s1 s2 : todos_size (s1 ++ s2) = (todos_size s1 + todos_size s2)%nat.
Proof. unfold todos_size. by rewrite map_app, list_sum_app. Qed.

Lemma fts_visit_size parent level path id t r :
  (todos_size (snd (fts_visit parent level path id t r)) < ftree_size t + todos_size r)%nat.
Proof. destruct t; simpl; rewrite ?todos_size_cons; simpl; lia. Qed.

(** A read makes the cursor smaller. *)
Lemma fts_read_size s p s' : fts_read s = Some (p, s') -> (todos_size s' < todos_size s)%nat.
Proof.
  destruct s as [|[parent level path id t|e rd ch|e] r]; simpl; [done| | |].
  - intros H. injection H as H. pose proof (fts_visit_size parent level path id t r) as Hs.
    rewrite H in Hs. rewrite todos_size_cons. exact Hs.
  - destruct rd; [|intros [= _ <-]; rewrite todos_size_cons; simpl; lia].
    destruct ch as [|c ch]; simpl; [intros [= _ <-]; rewrite todos_size_cons; simpl; lia|].
    intros H. injection H as H.
    pose proof (fts_visit_size (Some e) (fts_level e + 1) (child_path (fts_path e) (ftree_name c))
                  (0%nat :: fts_id e) c (visits e 1 ch ++ Post e :: r)) as Hs.
    rewrite H in Hs. simpl in Hs. rewrite todos_size_app in Hs. unfold todos_size at 2 in Hs.
    rewrite todo_size_visits in Hs. rewrite !todos_size_cons in *. simpl in *. lia.
  - intros [= _ <-]. rewrite todos_size_cons. simpl. lia.
Qed.

Lemma fts_set_skip_size s : (todos_size (fts_set_skip s) <= todos_size s)%nat.
Proof. destruct s as [|[] s]; simpl; rewrite ?todos_size_cons; simpl; lia. Qed.

Section LoopLemmas.
Context {St : Type} (body : FTSENT -> St -> St * bool).

Lemma tree_fold_Dir parent level path id name s rd ch st :
  tree_fold body parent level path id (Dir name s rd ch) st =
  let e := Ftsent FTS_D level path name s id parent in
  let '(st1, skip) := body e st in
  todo_fold body (if skip then Post e else Open e rd ch) st1.
Proof.
  cbn [tree_fold]. destruct (body _ st) as [st1 []]; [done|]. destruct rd; [|done].
  cbn [todo_fold]. f_equal. generalize 0%nat. revert st1.
  induction ch as [|c ch IH]; intros st1 i; [done|]. cbn [forest_fold fts_level fts_path fts_id].
  by rewrite IH.
Qed.

Lemma fold_visits e i ch st :
  foldl (fun st d => todo_fold body d st) st (visits e i ch) = forest_fold body e i ch st.
Proof. revert i st. induction ch as [|c ch IH]; intros i st; simpl; [done|]. by rewrite IH. Qed.

(** Only the directory just read may be waiting to be opened. *)
Definition not_open (d : todo) : Prop := match d with Open _ _ _ => False | _ => True end.
Definition cursor_ok (s : list todo) : Prop := Forall not_open (tail s).

Lemma cursor_ok_no_skip s : Forall not_open s -> fts_set_skip s = s.
Proof. destruct s as [|[] s]; [done..| |done]. intros H. by inversion H. Qed.

Lemma not_open_cursor s : Forall not_open s -> cursor_ok s.
Proof. destruct s; [done|]. by inversion 1. Qed.

Lemma visits_not_open e i ch : Forall not_open (visits e i ch).
Proof. revert i. induction ch as [|c ch IH]; intros i; simpl; [done|]. constructor; [done|apply IH]. Qed.

Lemma fts_roots_not_open i roots : Forall not_open (fts_roots i roots).
Proof. revert i. induction roots as [|[p t] roots IH]; intros i; simpl; [done|]. constructor; [done|apply IH]. Qed.

Lemma fts_read_open e c ch r :
  fts_read (Open e true (c :: ch) :: r) =
  fts_read (Visit (Some e) (fts_level e + 1) (child_path (fts_path e) (ftree_name c)) (0%nat :: fts_id e) c
              :: visits e 1 ch ++ Post e :: r).
Proof. done. Qed.

Lemma fts_loop_read_eq s1 s2 fuel st :
  fts_read s1 = fts_read s2 -> fts_loop body fuel s1 st = fts_loop body fuel s2 st.
Proof. intros H. destruct fuel; simpl; by rewrite ?H. Qed.

Definition todos_fold (s : list todo) (st : St) : St := foldl (fun st d => todo_fold body d st) st s.

Lemma todos_fold_app s1 s2 st : todos_fold (s1 ++ s2) st = todos_fold s2 (todos_fold s1 st).
Proof. apply foldl_app. Qed.

(** The loop, one visited tree at a time. *)
Lemma fts_loop_spec fuel s st :
  (todos_size s < fuel)%nat -> cursor_ok s -> fts_loop body fuel s st = Some (todos_fold s st).
Proof.
  revert s st. induction fuel as [|fuel IH]; intros s st Hf Hok; [lia|].
  destruct s as [|d r]; [done|].
  (* what remains after a visit is closed *)
  assert (Hleaf : forall e, todo_size d <> 0%nat ->
            (let '(st', skip) := body e st in
             fts_loop body fuel (if skip then fts_set_skip r else r) st') =
            Some (todos_fold r (leaf_step body e st))).
  { intros e Hd. unfold leaf_step. destruct (body e st) as [st' skip]. cbn [fst].
    rewrite cursor_ok_no_skip by done. rewrite todos_size_cons in Hf.
    assert ((if skip then r else r) = r) as -> by by destruct skip.
    apply IH; [lia|by apply not_open_cursor]. }
  assert (Hvisit : forall parent level path id t r', Forall not_open r' ->
            (ftree_size t + todos_size r' < S fuel)%nat ->
            fts_loop body (S fuel) (Visit parent level path id t :: r') st =
            Some (todos_fold r' (tree_fold body parent level path id t st))).
  { clear Hleaf. intros parent level path id t r' Hr' Hs. destruct t as [info n s|n s rd ch].
    - cbn [fts_loop fts_read fts_visit tree_fold]. unfold leaf_step.
      destruct (body _ st) as [st' skip]. cbn [fst]. rewrite cursor_ok_no_skip by done.
      assert ((if skip then r' else r') = r') as -> by by destruct skip.
      apply IH; [simpl in Hs; lia|by apply not_open_cursor].
    - rewrite tree_fold_Dir. cbn [fts_loop fts_read fts_visit]. cbv zeta.
      destruct (body _ st) as [st' []]; cbn [fts_set_skip].
      + rewrite IH; [done|rewrite todos_size_cons; simpl in *; lia|done].
      + rewrite IH; [done|rewrite todos_size_cons; simpl in *; lia|done]. }
  destruct d as [parent level path id t|e rd ch|e].
  - rewrite Hvisit; [done|done|by rewrite todos_size_cons in Hf].
  - destruct rd; [|by apply Hleaf]. destruct ch as [|c ch]; [by apply Hleaf|].
    rewrite (fts_loop_read_eq _ _ _ _ (fts_read_open e c ch r)).
    rewrite Hvisit.
    + unfold todos_fold. rewrite foldl_app, fold_visits. done.
    + apply Forall_app. split; [apply visits_not_open|]. by constructor.
    + rewrite todos_size_app. unfold todos_size at 1. rewrite todo_size_visits.
      rewrite !todos_size_cons in *. simpl in *. lia.
  - by apply Hleaf.
Qed.

(** The loop over the hierarchies of [argv] returns, with the fold over the trees. *)
Lemma fts_run_spec roots st :
  fts_run body (fts_roots 0 roots) st = Some (todos_fold (fts_roots 0 roots) st).
Proof. apply fts_loop_spec; [lia|]. apply not_open_cursor, fts_roots_not_open. Qed.

Lemma fts_run_one path t st :
  fts_run body (fts_roots 0 [(path, t)]) st = Some (tree_fold body None 0 path [0%nat] t st).
Proof. apply fts_run_spec. Qed.

End LoopLemmas.
