(* ===== verification/InstalldPaths.v ===== *)
(** Path construction and validation of [installd]: [globals.cpp], the first
    half and the [validate_*] functions of [utils.cpp], and the argument
    checks of [InstalldNativeService.cpp].

    A failed [CHECK] aborts the process and is [None]. The facts the
    functions ask the system for ([ro.debuggable], whether a directory
    exists, the entries of a directory) are section variables. *)

From S2P Require Import Prelude Platform.

Open Scope Z_scope.

(** * Globals *)

Record globals := Globals {
  android_data_dir : str;
  android_root_dir : str;
  android_app_dir : str;
  android_app_private_dir : str;
  android_app_ephemeral_dir : str;
  android_app_lib_dir : str;
  android_asec_dir : str;
  android_media_dir : str;
  android_mnt_expand_dir : str;
  android_profiles_dir : str;
  android_staging_dir : str;
  android_system_dirs : list str;
}.

Definition APP_SUBDIR : str := lit "app/".
Definition PRIV_APP_SUBDIR : str := lit "priv-app/".
Definition EPHEMERAL_APP_SUBDIR : str := lit "app-ephemeral/".
Definition APP_LIB_SUBDIR : str := lit "app-lib/".
Definition MEDIA_SUBDIR : str := lit "media/".
Definition PROFILES_SUBDIR : str := lit "misc/profiles".
Definition PRIVATE_APP_SUBDIR : str := lit "app-private/".
Definition STAGING_SUBDIR : str := lit "app-staging/".

(** [size() - 1] wraps to [npos] for the empty string, which [rfind] returns. *)
Definition ensure_trailing_slash (path : str) : str :=
  match rfind_char slash path, length path with
  | None, O => path
  | Some i, S n => if (i =? n)%nat then path else path ++ [slash]
  | _, _ => path ++ [slash]
  end.

(** [asec] is the value of the environment variable of the ASEC mount point. *)
Definition init_globals_from_data_and_root_with (data root asec : str) : globals :=
  let data_dir := ensure_trailing_slash data in
  let root_dir := ensure_trailing_slash root in
  {| android_data_dir := data_dir;
     android_root_dir := root_dir;
     android_app_dir := data_dir ++ APP_SUBDIR;
     android_app_private_dir := data_dir ++ PRIVATE_APP_SUBDIR;
     android_app_ephemeral_dir := data_dir ++ EPHEMERAL_APP_SUBDIR;
     android_app_lib_dir := data_dir ++ APP_LIB_SUBDIR;
     android_asec_dir := ensure_trailing_slash asec;
     android_media_dir := data_dir ++ MEDIA_SUBDIR;
     android_mnt_expand_dir := lit "/mnt/expand/";
     android_profiles_dir := data_dir ++ PROFILES_SUBDIR;
     android_staging_dir := data_dir ++ STAGING_SUBDIR;
     android_system_dirs := [root_dir ++ APP_SUBDIR; root_dir ++ PRIV_APP_SUBDIR;
                             lit "/vendor/app/"; lit "/oem/app/"] |}.

Definition init_globals_from_data_and_root (getenv : str -> option str) (asec : str) : option globals :=
  match getenv (lit "ANDROID_DATA") with
  | None => None
  | Some data_path =>
      match getenv (lit "ANDROID_ROOT") with
      | None => None
      | Some root_path => Some (init_globals_from_data_and_root_with data_path root_path asec)
      end
  end.

(** * Names *)

Definition is_valid_filename (name : str) : bool :=
  negb (match name with [] => true | _ => false end
        || (name =s? lit ".") || (name =s? lit "..")
        || match find_char slash name 0 with Some _ => true | None => false end).

Definition in_range (c lo hi : ascii) : bool := (code lo <=? code c) && (code c <=? code hi).
Definition is_alpha (c : ascii) : bool := in_range c "a" "z" || in_range c "A" "Z".
Definition is_digit (c : ascii) : bool := in_range c "0" "9".

(** The loop up to the first dash: the remaining characters and [front], or
    [None] at a bad character. *)
Fixpoint pkg_scan (s : str) (front : bool) : option (str * bool) :=
  match s with
  | [] => Some ([], front)
  | c :: s' =>
      if Ascii.eqb c "-" then Some (s, front)
      else if is_alpha c then pkg_scan s' false
      else if negb front && (is_digit c || Ascii.eqb c "_") then pkg_scan s' front
      else if Ascii.eqb c "." then pkg_scan s' true
      else None
  end.

Fixpoint pkg_suffix (s : str) : bool :=
  match s with
  | [] => true
  | c :: s' =>
      if is_alpha c then pkg_suffix s'
      else if is_digit c || Ascii.eqb c "_" || Ascii.eqb c "-" || Ascii.eqb c "=" then pkg_suffix s'
      else false
  end.

Definition is_valid_package_name (packageName : str) : bool :=
  match pkg_scan packageName true with
  | None => false
  | Some (rest, front) => if front then false else pkg_suffix rest
  end.

(** * Paths *)

Section Paths.
(* property_get_bool("ro.debuggable", false) *)
Context (debuggable : bool).
(* lstat(path) succeeds and S_ISDIR *)
Context (lstat_isdir : str -> bool).
(* opendir and readdir to the end *)
Context (opendir : str -> option (list dirent)).
Context (G : globals).

Definition check (b : bool) : option unit := if b then Some () else None.

Definition check_package_name (package_name : str) : option unit :=
  _ ← check (is_valid_filename package_name);
  check (is_valid_package_name package_name).

Definition create_data_path (volume_uuid : option str) : option str :=
  match volume_uuid with
  | None => Some (lit "/data")
  | Some u =>
      if u =s? lit "TEST" then _ ← check debuggable; Some (lit "/data/local/tmp")
      else _ ← check (is_valid_filename u); Some (lit "/mnt/expand/" ++ u)
  end.

Definition create_data_app_path (volume_uuid : option str) : option str :=
  d ← create_data_path volume_uuid; Some (d ++ lit "/app").

Definition create_data_app_package_path (volume_uuid : option str) (package_name : str) : option str :=
  _ ← check_package_name package_name;
  d ← create_data_app_path volume_uuid; Some (d ++ slash :: package_name).

Definition create_data_user_ce_path (volume_uuid : option str) (userid : N) : option str :=
  data ← create_data_path volume_uuid;
  let legacy := data ++ lit "/data" in
  if (match volume_uuid with None => true | Some _ => false end) && (userid =? 0)%N && lstat_isdir legacy
  then Some legacy
  else Some (data ++ lit "/user/" ++ fmt_u userid).

Definition create_data_user_de_path (volume_uuid : option str) (userid : N) : option str :=
  data ← create_data_path volume_uuid; Some (data ++ lit "/user_de/" ++ fmt_u userid).

Definition create_data_user_ce_package_path (volume_uuid : option str) (user : N) (package_name : str)
    : option str :=
  _ ← check_package_name package_name;
  d ← create_data_user_ce_path volume_uuid user; Some (d ++ slash :: package_name).

Definition create_data_user_ce_package_path_as_user_link (volume_uuid : option str) (userid : N)
    (package_name : str) : option str :=
  _ ← check_package_name package_name;
  data ← create_data_path volume_uuid;
  Some (data ++ lit "/user/" ++ fmt_u userid ++ slash :: package_name).

Definition create_data_user_de_package_path (volume_uuid : option str) (user : N) (package_name : str)
    : option str :=
  _ ← check_package_name package_name;
  d ← create_data_user_de_path volume_uuid user; Some (d ++ slash :: package_name).

Definition resolve_ce_path_by_inode_or_fallback (root_path : str) (ce_data_inode : Z) (fallback : str)
    : str :=
  if nz ce_data_inode then
    match opendir root_path with
    | None => fallback
    | Some entries =>
        match List.find (fun ent => d_ino ent =? ce_data_inode) entries with
        | Some ent => root_path ++ slash :: d_name ent
        | None => fallback
        end
    end
  else fallback.

Definition create_data_user_ce_package_path_inode (volume_uuid : option str) (user : N)
    (package_name : str) (ce_data_inode : Z) : option str :=
  fallback ← create_data_user_ce_package_path volume_uuid user package_name;
  user_path ← create_data_user_ce_path volume_uuid user;
  Some (resolve_ce_path_by_inode_or_fallback user_path ce_data_inode fallback).

Definition create_data_misc_ce_rollback_base_path (volume_uuid : option str) (user : N) : option str :=
  d ← create_data_path volume_uuid; Some (d ++ lit "/misc_ce/" ++ fmt_u user ++ lit "/rollback").

Definition create_data_misc_de_rollback_base_path (volume_uuid : option str) (user : N) : option str :=
  d ← create_data_path volume_uuid; Some (d ++ lit "/misc_de/" ++ fmt_u user ++ lit "/rollback").

Definition create_data_misc_ce_rollback_path (volume_uuid : option str) (user : N) (snapshot_id : Z)
    : option str :=
  d ← create_data_misc_ce_rollback_base_path volume_uuid user; Some (d ++ slash :: fmt_d snapshot_id).

Definition create_data_misc_de_rollback_path (volume_uuid : option str) (user : N) (snapshot_id : Z)
    : option str :=
  d ← create_data_misc_de_rollback_base_path volume_uuid user; Some (d ++ slash :: fmt_d snapshot_id).

Definition create_data_misc_ce_rollback_package_path (volume_uuid : option str) (user : N)
    (snapshot_id : Z) (package_name : str) : option str :=
  d ← create_data_misc_ce_rollback_path volume_uuid user snapshot_id; Some (d ++ slash :: package_name).

Definition create_data_misc_ce_rollback_package_path_inode (volume_uuid : option str) (user : N)
    (snapshot_id : Z) (package_name : str) (ce_rollback_inode : Z) : option str :=
  fallback ← create_data_misc_ce_rollback_package_path volume_uuid user snapshot_id package_name;
  user_path ← create_data_misc_ce_rollback_path volume_uuid user snapshot_id;
  Some (resolve_ce_path_by_inode_or_fallback user_path ce_rollback_inode fallback).

Definition create_data_misc_de_rollback_package_path (volume_uuid : option str) (user : N)
    (snapshot_id : Z) (package_name : str) : option str :=
  d ← create_data_misc_de_rollback_path volume_uuid user snapshot_id; Some (d ++ slash :: package_name).

Definition create_data_media_path (volume_uuid : option str) (userid : N) : option str :=
  d ← create_data_path volume_uuid; Some (d ++ lit "/media/" ++ fmt_u userid).

Definition create_data_media_package_path (volume_uuid : option str) (userid : N)
    (data_type package_name : str) : option str :=
  d ← create_data_media_path volume_uuid userid;
  Some (d ++ lit "/Android/" ++ data_type ++ slash :: package_name).

Definition create_data_misc_legacy_path (userid : N) : option str :=
  d ← create_data_path None; Some (d ++ lit "/misc/user/" ++ fmt_u userid).

Definition create_primary_cur_profile_dir_path (userid : N) : str :=
  android_profiles_dir G ++ lit "/cur/" ++ fmt_u userid.

Definition create_primary_current_profile_package_dir_path (user : N) (package_name : str) : option str :=
  _ ← check_package_name package_name;
  Some (create_primary_cur_profile_dir_path user ++ slash :: package_name).

Definition create_primary_ref_profile_dir_path : str := android_profiles_dir G ++ lit "/ref".

Definition create_primary_reference_profile_package_dir_path (package_name : str) : option str :=
  _ ← check_package_name package_name;
  Some (android_profiles_dir G ++ lit "/ref/" ++ package_name).

Definition create_data_dalvik_cache_path : str := lit "/data/dalvik-cache".

Definition PROFILE_EXT : str := lit ".prof".
Definition CURRENT_PROFILE_EXT : str := lit ".cur".
Definition SNAPSHOT_PROFILE_EXT : str := lit ".snapshot".

(** The directory and the file name, or [None] for [false]. *)
Definition get_secondary_dex_location (dex_path : str) : option (str * str) :=
  match rfind_char slash dex_path with
  | None => None
  | Some dirIndex =>
      if (dirIndex =? length dex_path - 1)%nat then None
      else Some (take dirIndex dex_path, drop (dirIndex + 1) dex_path)
  end.

Definition create_current_profile_path (user : N) (package_name location : str) (is_secondary_dex : bool)
    : option str :=
  if is_secondary_dex then
    '(dex_dir, dex_name) ← get_secondary_dex_location location;
    Some (dex_dir ++ lit "/oat/" ++ dex_name ++ CURRENT_PROFILE_EXT ++ PROFILE_EXT)
  else
    profile_dir ← create_primary_current_profile_package_dir_path user package_name;
    Some (profile_dir ++ slash :: location).

Definition create_reference_profile_path (package_name location : str) (is_secondary_dex : bool)
    : option str :=
  if is_secondary_dex then
    '(dex_dir, dex_name) ← get_secondary_dex_location location;
    Some (dex_dir ++ lit "/oat/" ++ dex_name ++ PROFILE_EXT)
  else
    profile_dir ← create_primary_reference_profile_package_dir_path package_name;
    Some (profile_dir ++ slash :: location).

Definition create_snapshot_profile_path (package profile_name : str) : option str :=
  ref_profile ← create_reference_profile_path package profile_name false;
  Some (ref_profile ++ SNAPSHOT_PROFILE_EXT).

(** * Validation *)

(** [dir.find('/') != 0 || dir.rfind('/') != dir.size() - 1 || dir.find("..")]
    negated; for the empty [dir], [find] returns [npos], which is not 0. *)
Definition valid_dir (dir : str) : bool :=
  match find_char slash dir 0, rfind_char slash dir with
  | Some O, Some r => (r =? length dir - 1)%nat && negb (has_substr (lit "..") dir)
  | _, _ => false
  end.

(** The loop that counts subdirectories; [fuel] bounds the slashes left. *)
Fixpoint count_subdirs (fuel : nat) (path : str) (pos : option nat) : nat :=
  match fuel, pos with
  | S fuel', Some p =>
      let next := find_char slash path (p + 1) in
      let more := match next with Some n => (p + 1 <? n)%nat | None => true end in
      ((if more then 1 else 0) + count_subdirs fuel' path next)%nat
  | _, _ => 0%nat
  end.

(** 0 is success. *)
Definition validate_path (dir path : str) (maxSubdirs : nat) : Z :=
  if negb (valid_dir dir) then -1
  else if has_substr (lit "..") path then -1
  else if negb (prefixb dir path) then -1
  else if (maxSubdirs <? count_subdirs (length path) path (find_char slash path (length dir)))%nat then -1
  else 0.

Definition validate_system_app_path (path : str) : Z :=
  if existsb (fun dir => validate_path dir path 1 =? 0) (android_system_dirs G) then 0 else -1.

Fixpoint validate_apk_path_internal (fuel : nat) (path : str) (maxSubdirs : nat) : option Z :=
  match fuel with
  | O => None
  | S fuel' =>
      if validate_path (android_app_dir G) path maxSubdirs =? 0 then Some 0
      else if validate_path (android_staging_dir G) path maxSubdirs =? 0 then Some 0
      else if validate_path (android_app_private_dir G) path maxSubdirs =? 0 then Some 0
      else if validate_path (android_app_ephemeral_dir G) path maxSubdirs =? 0 then Some 0
      else if validate_path (android_asec_dir G) path maxSubdirs =? 0 then Some 0
      else if prefixb (android_mnt_expand_dir G) path then
        match find_char slash path (length (android_mnt_expand_dir G) + 1) with
        | Some en => validate_apk_path_internal fuel' (android_data_dir G ++ drop (en + 1) path) maxSubdirs
        | None => Some (-1)
        end
      else Some (-1)
  end.

(** Two levels of recursion; [validate_apk_path_fuel] proves them enough. *)
Definition validate_apk_path (path : str) : option Z := validate_apk_path_internal 2 path 1.
Definition validate_apk_path_subdirs (path : str) : option Z := validate_apk_path_internal 2 path 3.

Definition PKG_PATH_MAX : nat := 1024.
Definition FLAG_STORAGE_DE : Z := Z.shiftl 1 0.
Definition FLAG_STORAGE_CE : Z := Z.shiftl 1 1.

Definition validate_secondary_dex_path `{Multiuser} (pkgname dex_path : str) (volume_uuid : option str)
    (uid storage_flag : Z) : option bool :=
  _ ← check ((storage_flag =? FLAG_STORAGE_CE) || (storage_flag =? FLAG_STORAGE_DE));
  match dex_path with
  | [] => Some false
  | c :: _ =>
      if negb (Ascii.eqb c slash) then Some false
      else if match last dex_path with Some e => Ascii.eqb e slash | None => false end then Some false
      else if has_substr (lit "/.") dex_path then Some false
      else if (PKG_PATH_MAX <? length dex_path)%nat then Some false
      else
        let user := Z.to_N (multiuser_get_user_id uid) in
        app_private_dir ←
          (if storage_flag =? FLAG_STORAGE_CE
           then create_data_user_ce_package_path volume_uuid user pkgname
           else create_data_user_de_package_path volume_uuid user pkgname);
        if prefixb app_private_dir dex_path then Some true
        else
          app_private_dir_symlink ← create_data_user_ce_package_path_as_user_link volume_uuid user pkgname;
          Some (prefixb app_private_dir_symlink dex_path)
  end.

End Paths.

(** * Argument checks of the service *)

Inductive status := StatusOk | EX_SECURITY | EX_ILLEGAL_ARGUMENT.

#[export] Instance status_eq_dec : EqDecision status.
Proof. solve_decision. Defined.

Definition AID_ROOT : Z := 0.

Definition checkUid (calling_uid expectedUid : Z) : status :=
  if (calling_uid =? expectedUid) || (calling_uid =? AID_ROOT) then StatusOk else EX_SECURITY.

Definition checkArgumentUuid (uuid : option str) : status :=
  match uuid with
  | None => StatusOk
  | Some u => if is_valid_filename u then StatusOk else EX_ILLEGAL_ARGUMENT
  end.

Definition kTestUuid : str := lit "TEST".

Definition checkArgumentUuidTestOrNull (uuid : option str) : status :=
  match uuid with
  | None => StatusOk
  | Some u => if u =s? kTestUuid then StatusOk else EX_ILLEGAL_ARGUMENT
  end.

Definition checkArgumentPackageName (packageName : str) : status :=
  if is_valid_package_name packageName then StatusOk else EX_ILLEGAL_ARGUMENT.

Definition newline : ascii := ascii_of_N 10.
Definition nul : ascii := ascii_of_N 0.

Definition checkArgumentPath (path : str) : status :=
  match path with
  | [] => EX_ILLEGAL_ARGUMENT
  | c :: _ =>
      if negb (Ascii.eqb c slash) then EX_ILLEGAL_ARGUMENT
      else if has_substr (lit "/../") (path ++ [slash]) then EX_ILLEGAL_ARGUMENT
      else if existsb (fun c => Ascii.eqb c nul || Ascii.eqb c newline) path then EX_ILLEGAL_ARGUMENT
      else StatusOk
  end.

Definition checkArgumentPathOpt (path : option str) : status :=
  match path with Some p => checkArgumentPath p | None => StatusOk end.

(** * Reference definitions *)

Definition is_word (c : ascii) : bool := is_alpha c || is_digit c || Ascii.eqb c "_".
Definition is_suffix (c : ascii) : bool := is_word c || Ascii.eqb c "-" || Ascii.eqb c "=".

(** An empty segment, or a letter followed by letters, digits and [_]. *)
Definition seg_ok (seg : str) : bool :=
  match seg with [] => true | c :: r => is_alpha c && forallb is_word r end.

Fixpoint before_dash (s : str) : str :=
  match s with [] => [] | c :: s' => if Ascii.eqb c "-" then [] else c :: before_dash s' end.

Fixpoint from_dash (s : str) : str :=
  match s with [] => [] | c :: s' => if Ascii.eqb c "-" then s else from_dash s' end.

(** Dot-separated segments of which the last is not empty, then a suffix. *)
Definition package_grammar (s : str) : bool :=
  let segs := split_on dot (before_dash s) in
  forallb seg_ok segs
  && match last segs with Some (_ :: _) => true | _ => false end
  && forallb is_suffix (from_dash s).

(** The maximal runs of slashes of a string. *)
Fixpoint slash_groups (s : str) : nat :=
  match s with
  | [] => 0
  | c :: s' =>
      if Ascii.eqb c slash
      then match s' with
           | d :: _ => if Ascii.eqb d slash then slash_groups s' else S (slash_groups s')
           | [] => 1
           end
      else slash_groups s'
  end.

(** Acceptance under one of the five application directories. *)
Definition under_app_dirs (G : globals) (path : str) (k : nat) : Prop :=
  exists dir, dir ∈ [android_app_dir G; android_staging_dir G; android_app_private_dir G;
                     android_app_ephemeral_dir G; android_asec_dir G]
    /\ validate_path dir path k = 0.

(** * Lemmas *)

Lemma in_slash c : Ascii.eqb c slash = true -> c = slash.
Proof. apply Ascii.eqb_eq. Qed.

Lemma pkg_scan_noslash s front rest f :
  pkg_scan s front = Some (rest, f) -> exists a, s = a ++ rest /\ slash ∉ a.
Proof.
  revert front. induction s as [|c s IH]; intros front H; simpl in H.
  { injection H as <- <-. exists []. split; [done|set_solver]. }
  destruct (Ascii.eqb c "-").
  { injection H as <- <-. exists []. split; [done|set_solver]. }
  assert (Hstep : forall fr, pkg_scan s fr = Some (rest, f) -> c <> slash ->
    exists a, c :: s = a ++ rest /\ slash ∉ a).
  { intros fr Hs Hc. apply IH in Hs as (a & -> & Ha). exists (c :: a). split; [done|set_solver]. }
  destruct (is_alpha c) eqn:Ea; [eapply Hstep; [done|by intros ->]|].
  destruct (negb front && _) eqn:Ew.
  { eapply Hstep; [done|]. intros ->. by rewrite andb_false_r in Ew. }
  destruct (Ascii.eqb c ".") eqn:Ed; [|done]. eapply Hstep; [done|by intros ->].
Qed.

Lemma pkg_suffix_forallb s : pkg_suffix s = forallb is_suffix s.
Proof.
  induction s as [|c s IH]; [done|]. simpl. unfold is_suffix, is_word. rewrite IH.
  destruct (is_alpha c), (is_digit c), (Ascii.eqb c "_"), (Ascii.eqb c "-"), (Ascii.eqb c "="); done.
Qed.

Lemma is_suffix_noslash s : forallb is_suffix s = true -> slash ∉ s.
Proof.
  intros H Hin. apply list_elem_of_In in Hin. rewrite forallb_forall in H.
  by specialize (H _ Hin).
Qed.

Lemma package_name_noslash s : is_valid_package_name s = true -> slash ∉ s.
Proof.
  unfold is_valid_package_name. destruct (pkg_scan s true) as [[rest f]|] eqn:E; [|done].
  destruct f; [done|]. rewrite pkg_suffix_forallb. intros H%is_suffix_noslash.
  apply pkg_scan_noslash in E as (a & -> & Ha). set_solver.
Qed.

(** The state of the scan against the segments still to come. *)
Lemma pkg_scan_segments s front :
  pkg_scan s front =
  match split_on dot (before_dash s) with
  | [] => None
  | h :: t =>
      if (if front then seg_ok h else forallb is_word h) && forallb seg_ok t
      then Some (from_dash s,
                 match last (h :: t) with
                 | Some [] => match t with [] => front | _ => true end
                 | _ => false
                 end)
      else None
  end.
Proof.
  revert front. induction s as [|c s IH]; intros front; [by destruct front|].
  cbn [pkg_scan before_dash from_dash].
  destruct (Ascii.eqb c "-") eqn:Ed; [by destruct front|]. cbn [split_on].
  pose proof (split_on_nonempty dot (before_dash s)) as Hne.
  destruct (split_on dot (before_dash s)) as [|h t] eqn:Es; [done|]. clear Hne.
  destruct (Ascii.eqb c dot) eqn:Edot.
  - apply Ascii.eqb_eq in Edot as ->. change (is_alpha dot) with false.
    replace (negb front && (is_digit dot || Ascii.eqb dot "_")) with false by by destruct front.
    change (Ascii.eqb dot ".") with true. cbv iota. rewrite IH. cbn [forallb seg_ok].
    replace (if front then true else true) with true by by destruct front.
    rewrite andb_true_l.
    destruct (seg_ok h && forallb seg_ok t); [|done].
    do 2 f_equal. change (last ([] :: h :: t)) with (last (h :: t)).
    destruct (last (h :: t)) as [[|? ?]|]; try done. by destruct t.
  - replace (Ascii.eqb c ".") with false by done.
    assert (Hlast : match last ((c :: h) :: t) with
      | Some [] => match t with [] => front | _ => true end | _ => false end
      = match last (h :: t) with
        | Some [] => match t with [] => false | _ => true end | _ => false end).
    { destruct t as [|h2 t]; simpl; [by destruct h|].
      rewrite !last_cons. destruct (last t) as [[|? ?]|]; done. }
    destruct (is_alpha c) eqn:Ea.
    + rewrite IH, Hlast. cbn [seg_ok forallb].
      assert (is_word c = true) as -> by (unfold is_word; by rewrite Ea).
      rewrite Ea. by destruct front.
    + cbn [seg_ok forallb].
      assert (is_word c = is_digit c || Ascii.eqb c "_") as -> by (unfold is_word; by rewrite Ea).
      rewrite Ea. destruct front; [done|]. cbn [negb andb].
      destruct (is_digit c || Ascii.eqb c "_"); cbn [andb]; [|done]. by rewrite IH, Hlast.
Qed.

Lemma find_char_split s n :
  match find_char slash s n with
  | Some p => exists a b, drop n s = a ++ slash :: b /\ slash ∉ a /\ p = (n + length a)%nat
                          /\ drop (p + 1) s = b
  | None => slash ∉ drop n s
  end.
Proof.
  rewrite find_char_from. destruct (find_char slash (drop n s) 0) as [j|] eqn:E; simpl.
  - apply find_char_Some in E as (a & b & Hd & Ha & ->). exists a, b. split_and!; try done.
    rewrite <- Nat.add_assoc, <- drop_drop, Hd.
    rewrite drop_app_ge by lia. replace (length a + 1 - length a)%nat with 1%nat by lia. done.
  - by apply find_char_None in E.
Qed.

Lemma slash_groups_none s : slash ∉ s -> slash_groups s = 0%nat.
Proof.
  induction s as [|c s IH]; intros H; [done|]. cbn [slash_groups].
  destruct (Ascii.eqb_spec c slash); [set_solver|]. apply IH. set_solver.
Qed.

Lemma slash_groups_skip a b : slash ∉ a -> slash_groups (a ++ b) = slash_groups b.
Proof.
  induction a as [|c a IH]; intros H; [done|]. cbn [app slash_groups].
  destruct (Ascii.eqb_spec c slash); [set_solver|]. apply IH. set_solver.
Qed.

Lemma count_subdirs_groups fuel s n :
  (length (drop n s) <= fuel)%nat ->
  count_subdirs fuel s (find_char slash s n) = slash_groups (drop n s).
Proof.
  revert n. induction fuel as [|fuel IH]; intros n Hf.
  { apply Nat.le_0_r, length_zero_iff_nil in Hf. rewrite Hf. done. }
  pose proof (find_char_split s n) as H. cbn [count_subdirs].
  destruct (find_char slash s n) as [p|]; [|by rewrite slash_groups_none].
  destruct H as (a & b & Hd & Ha & -> & Hb). rewrite IH.
  2: { rewrite Hb. rewrite Hd, length_app in Hf. simpl in Hf. lia. }
  rewrite Hb, Hd, slash_groups_skip by done. cbn [slash_groups]. rewrite ascii_eqb_refl.
  pose proof (find_char_split s (n + length a + 1)) as H. rewrite Hb in H.
  destruct (find_char slash s (n + length a + 1)) as [q|].
  - destruct H as (a' & b' & -> & Ha' & -> & _). destruct a' as [|y a']; cbn [app].
    + rewrite ascii_eqb_refl.
      destruct (Nat.ltb_spec (n + length a + 1) (n + length a + 1 + length (@nil ascii)));
        simpl in *; [lia|done].
    + destruct (Ascii.eqb_spec y slash); [set_solver|].
      destruct (Nat.ltb_spec (n + length a + 1) (n + length a + 1 + length (y :: a')));
        simpl in *; [done|lia].
  - destruct b as [|y b]; [done|]. destruct (Ascii.eqb_spec y slash); [set_solver|done].
Qed.

Lemma validate_path_0 dir path k :
  validate_path dir path k = 0 <->
  valid_dir dir = true /\ has_substr (lit "..") path = false /\
  exists rest, path = dir ++ rest /\ (slash_groups rest <= k)%nat.
Proof.
  unfold validate_path. destruct (valid_dir dir); simpl; [|by split; [|intros [? _]]].
  destruct (has_substr _ path); [by split; [|intros (_ & ? & _)]|].
  destruct (prefixb dir path) eqn:Ep; simpl.
  - apply prefixb_spec in Ep as [rest ->].
    rewrite count_subdirs_groups by (rewrite length_drop; lia). rewrite drop_app_length.
    destruct (Nat.ltb_spec k (slash_groups rest)).
    + split; [done|]. intros (_ & _ & r & E & ?). apply app_inv_head in E as ->. lia.
    + split; [|done]. intros _. split_and!; [done..|]. by exists rest.
  - split; [done|]. intros (_ & _ & r & -> & _). by rewrite prefixb_app in Ep.
Qed.

Lemma validate_path_cases dir path k : validate_path dir path k = 0 \/ validate_path dir path k = -1.
Proof. unfold validate_path. repeat dm; auto. Qed.

(** One level of [validate_apk_path_internal]. *)
Lemma validate_apk_step G fuel path k :
  (under_app_dirs G path k /\ validate_apk_path_internal G (S fuel) path k = Some 0) \/
  (~ under_app_dirs G path k /\
   validate_apk_path_internal G (S fuel) path k =
   if prefixb (android_mnt_expand_dir G) path then
     match find_char slash path (length (android_mnt_expand_dir G) + 1) with
     | Some en => validate_apk_path_internal G fuel (android_data_dir G ++ drop (en + 1) path) k
     | None => Some (-1)
     end
   else Some (-1)).
Proof.
  cbn [validate_apk_path_internal]. unfold under_app_dirs.
  destruct (Z.eqb_spec (validate_path (android_app_dir G) path k) 0);
    [left; split; [eexists; split; [|done]; set_solver|done]|].
  destruct (Z.eqb_spec (validate_path (android_staging_dir G) path k) 0);
    [left; split; [eexists; split; [|done]; set_solver|done]|].
  destruct (Z.eqb_spec (validate_path (android_app_private_dir G) path k) 0);
    [left; split; [eexists; split; [|done]; set_solver|done]|].
  destruct (Z.eqb_spec (validate_path (android_app_ephemeral_dir G) path k) 0);
    [left; split; [eexists; split; [|done]; set_solver|done]|].
  destruct (Z.eqb_spec (validate_path (android_asec_dir G) path k) 0);
    [left; split; [eexists; split; [|done]; set_solver|done]|].
  right. split; [|done]. intros (dir & Hin & Hv). rewrite !elem_of_cons in Hin.
  destruct Hin as [->|[->|[->|[->|[->|Hin]]]]]; try done. by apply elem_of_nil in Hin.
Qed.

Lemma valid_dir_intro a b :
  has_substr (lit "..") (slash :: a ++ [slash]) = false -> b = slash :: a ++ [slash] ->
  valid_dir b = true.
Proof.
  intros Hd ->. unfold valid_dir. simpl (find_char slash _ 0). 
  assert (rfind_char slash (slash :: a ++ [slash]) = Some (length (slash :: a))) as ->.
  { apply rfind_char_Some. exists (slash :: a), []. split_and!; [done|set_solver|done]. }
  rewrite Hd. apply andb_true_iff. split; [|done]. apply Nat.eqb_eq. simpl.
  rewrite length_app. simpl. lia.
Qed.

Lemma ensure_trailing_slash_shape p :
  ensure_trailing_slash (slash :: p) = [slash] \/
  exists a, ensure_trailing_slash (slash :: p) = slash :: a ++ [slash]
    /\ (slash :: p = slash :: a ++ [slash] \/ p = a).
Proof.
  unfold ensure_trailing_slash. destruct (rfind_char slash (slash :: p)) as [i|] eqn:E; simpl.
  - apply rfind_char_Some in E as (x & y & Hs & Hy & ->).
    destruct (Nat.eqb_spec (length x) (length p)) as [El|Hne].
    + apply (f_equal length) in Hs as Hl. rewrite length_app in Hl. simpl in Hl.
      assert (y = []) as -> by (apply length_zero_iff_nil; lia).
      destruct x as [|z x]; simpl in Hs; [injection Hs as ->; by left|].
      injection Hs as <- ->. right. exists x. split; [done|by left].
    + right. exists p. split; [done|by right].
  - apply rfind_char_None in E. set_solver.
Qed.

Lemma no_dotdot_app a b :
  has_substr (lit "..") (a ++ slash :: b) = has_substr (lit "..") a || has_substr (lit "..") b.
Proof. apply has_substr_app_sep; [done|]. intros [H|[H|[]]]%list_elem_of_In; discriminate.
Qed.

(** A directory of [init_globals] below an absolute root without [..]. *)
Lemma subdir_valid p sub :
  has_substr (lit "..") (slash :: p) = false ->
  has_substr (lit "..") sub = false ->
  valid_dir (ensure_trailing_slash (slash :: p) ++ sub ++ [slash]) = true.
Proof.
  intros Hp Hs.
  assert (Hs' : has_substr (lit "..") (sub ++ [slash]) = false)
    by (rewrite (no_dotdot_app sub []), Hs; done).
  destruct (ensure_trailing_slash_shape p) as [->|(a & -> & Ha)].
  - apply (valid_dir_intro sub); [|done].
    change (slash :: sub ++ [slash]) with ([] ++ slash :: (sub ++ [slash])).
    by rewrite no_dotdot_app, Hs'.
  - apply (valid_dir_intro (a ++ slash :: sub)); [|simpl; by rewrite <- !app_assoc].
    replace (slash :: (a ++ slash :: sub) ++ [slash])
      with ((slash :: a) ++ slash :: (sub ++ [slash])) by (simpl; by rewrite <- app_assoc).
    rewrite no_dotdot_app, Hs', orb_false_r.
    destruct Ha as [E| ->]; [|done]. rewrite E in Hp.
    change (slash :: a ++ [slash]) with ((slash :: a) ++ slash :: []) in Hp.
    rewrite no_dotdot_app in Hp. by apply orb_false_iff in Hp as [? _].
Qed.

Lemma ensure_valid p :
  p <> [] -> has_substr (lit "..") (slash :: p) = false ->
  valid_dir (ensure_trailing_slash (slash :: p)) = true.
Proof.
  intros Hne Hp. destruct (ensure_trailing_slash_shape p) as [E|(a & -> & Ha)].
  - exfalso. unfold ensure_trailing_slash in E.
    destruct (rfind_char slash (slash :: p)); simpl in E; [|by destruct p].
    destruct (_ =? _)%nat; by destruct p.
  - apply (valid_dir_intro a); [|done]. change (slash :: a ++ [slash]) with ((slash :: a) ++ slash :: []).
    rewrite no_dotdot_app. destruct Ha as [E| ->]; [|by rewrite Hp].
    rewrite E in Hp. change (slash :: a ++ [slash]) with ((slash :: a) ++ slash :: []) in Hp.
    by rewrite no_dotdot_app in Hp.
Qed.

(** * Properties *)

(** A package name is valid exactly when, up to its first dash, it is
    dot-separated segments that are empty or identifiers, the last one not
    empty, and the rest is a suffix of letters, digits and [_-=]. Empty
    segments are accepted: no segment has to follow a dot but the last. *)
Theorem package_name_grammar s : is_valid_package_name s = package_grammar s.
Proof.
  unfold is_valid_package_name, package_grammar. rewrite pkg_scan_segments.
  pose proof (split_on_nonempty dot (before_dash s)).
  destruct (split_on dot (before_dash s)) as [|h t]; [done|]. cbn [forallb].
  destruct (seg_ok h && forallb seg_ok t); [|done]. rewrite pkg_suffix_forallb, andb_true_l.
  destruct (last (h :: t)) as [[|c r]|] eqn:El.
  - by destruct t.
  - done.
  - by apply last_None in El.
Qed.

(** A valid package name is a valid file name: it has no slash and is
    neither [.] nor [..], so the path builders' two checks are one. *)
Theorem package_name_is_filename s :
  is_valid_package_name s = true ->
  slash ∉ s /\ is_valid_filename s = true /\ check_package_name s = Some ().
Proof.
  intros H. pose proof (package_name_noslash _ H) as Hs. split; [done|].
  assert (Hf : is_valid_filename s = true).
  { unfold is_valid_filename. pose proof (proj2 (find_char_None slash s) Hs) as ->.
    rewrite orb_false_r. apply negb_true_iff. rewrite !orb_false_iff. split_and!.
    - by destruct s.
    - apply str_eqb_neq. by intros ->.
    - apply str_eqb_neq. by intros ->. }
  split; [done|]. unfold check_package_name. rewrite Hf. simpl. by rewrite H.
Qed.

(** Two packages of two users never share a credential-encrypted data
    directory on a volume, whether or not the legacy location of user 0 is in
    use, and the directory is a child of the user's one. *)
Theorem ce_package_path_injective lstat_isdir dbg v u1 p1 u2 p2 path :
  create_data_user_ce_package_path dbg lstat_isdir v u1 p1 = Some path ->
  create_data_user_ce_package_path dbg lstat_isdir v u2 p2 = Some path ->
  u1 = u2 /\ p1 = p2 /\
  exists d, create_data_user_ce_path dbg lstat_isdir v u1 = Some d /\ path = d ++ slash :: p1.
Proof.
  unfold create_data_user_ce_package_path, check_package_name, check.
  destruct (is_valid_filename p1), (is_valid_package_name p1) eqn:E1; simpl; try done.
  destruct (is_valid_filename p2), (is_valid_package_name p2) eqn:E2; simpl; try done.
  apply package_name_noslash in E1, E2.
  destruct (create_data_user_ce_path dbg lstat_isdir v u1) as [d1|] eqn:D1; simpl; [|done].
  destruct (create_data_user_ce_path dbg lstat_isdir v u2) as [d2|] eqn:D2; simpl; [|done].
  intros [= <-] [= Heq]. apply last_occurrence in Heq as [-> ->]; [|done..].
  split_and!; [|done|by exists d1].
  unfold create_data_user_ce_path in D1, D2.
  destruct (create_data_path dbg v) as [data|]; simpl in D1, D2; [|done].
  destruct (_ && _) eqn:C1 in D1; destruct (_ && _) eqn:C2 in D2.
  - apply andb_true_iff in C1 as [[_ C1]%andb_true_iff _].
    apply andb_true_iff in C2 as [[_ C2]%andb_true_iff _].
    apply N.eqb_eq in C1, C2. congruence.
  - exfalso. injection D1 as <-. injection D2 as D2. apply app_inv_head in D2. discriminate.
  - exfalso. injection D2 as <-. injection D1 as D1. apply app_inv_head in D1. discriminate.
  - injection D1 as <-. injection D2 as D2. apply app_inv_head in D2.
    injection D2 as D2. symmetry. by apply fmt_u_inj.
Qed.

(** The test of one directory accepts exactly the paths without [..]
    that extend the directory by a string with at most [maxSubdirs] runs of
    slashes, when the directory itself begins and ends with a slash and has
    no [..]. *)
Theorem validate_path_spec dir path maxSubdirs :
  validate_path dir path maxSubdirs =
  if decide (valid_dir dir = true /\ has_substr (lit "..") path = false /\
             prefixb dir path = true /\
             (slash_groups (drop (length dir) path) <= maxSubdirs)%nat)
  then 0 else -1.
Proof.
  destruct (validate_path_cases dir path maxSubdirs) as [E|E]; rewrite E; case_decide as H; try done.
  - destruct H. apply validate_path_0 in E as (? & ? & rest & -> & ?).
    rewrite drop_app_length, prefixb_app. done.
  - destruct H as (Hv & Hd & Hp & Hs). apply prefixb_spec in Hp as [rest ->].
    rewrite drop_app_length in Hs.
    assert (validate_path dir (dir ++ rest) maxSubdirs = 0); [|congruence].
    apply validate_path_0. split_and!; [done..|]. by exists rest.
Qed.

(** Every directory that [init_globals_from_data_and_root] sets up from
    absolute paths without [..] passes the sanity check of [validate_path]. *)
Theorem globals_dirs_valid data root asec :
  has_substr (lit "..") (slash :: data) = false ->
  has_substr (lit "..") (slash :: root) = false ->
  asec <> [] -> has_substr (lit "..") (slash :: asec) = false ->
  let G := init_globals_from_data_and_root_with (slash :: data) (slash :: root) (slash :: asec) in
  Forall (fun d => valid_dir d = true)
    ([android_app_dir G; android_staging_dir G; android_app_private_dir G;
      android_app_ephemeral_dir G; android_asec_dir G] ++ android_system_dirs G).
Proof.
  intros Hd Hr Hne Ha G.
  assert (Hsub : forall p, has_substr (lit "..") (slash :: p) = false ->
    valid_dir (ensure_trailing_slash (slash :: p) ++ lit "app/") = true /\
    valid_dir (ensure_trailing_slash (slash :: p) ++ lit "app-staging/") = true /\
    valid_dir (ensure_trailing_slash (slash :: p) ++ lit "app-private/") = true /\
    valid_dir (ensure_trailing_slash (slash :: p) ++ lit "app-ephemeral/") = true /\
    valid_dir (ensure_trailing_slash (slash :: p) ++ lit "priv-app/") = true).
  { intros p Hp. split_and!.
    - by apply (subdir_valid p (lit "app")).
    - by apply (subdir_valid p (lit "app-staging")).
    - by apply (subdir_valid p (lit "app-private")).
    - by apply (subdir_valid p (lit "app-ephemeral")).
    - by apply (subdir_valid p (lit "priv-app")). }
  destruct (Hsub _ Hd) as (? & ? & ? & ? & ?). destruct (Hsub _ Hr) as (? & ? & ? & ? & ?).
  repeat (apply Forall_cons; split); try done. by apply ensure_valid.
Qed.

(** The APK test terminates and accepts exactly the paths accepted below
    an application directory, and the paths of an expanded volume whose part
    below the volume is accepted below the data directory. Nothing is asked
    of the volume's name but that it is not empty. *)
Theorem validate_apk_path_spec G path k :
  android_mnt_expand_dir G = lit "/mnt/expand/" ->
  (forall r, prefixb (lit "/mnt/expand/") (android_data_dir G ++ r) = false) ->
  exists r, validate_apk_path_internal G 2 path k = Some r /\
  (r = 0 <->
   under_app_dirs G path k \/
   exists c vol rest, path = lit "/mnt/expand/" ++ c :: vol ++ slash :: rest /\ slash ∉ vol /\
     under_app_dirs G (android_data_dir G ++ rest) k).
Proof.
  intros Hexp Hdata. destruct (validate_apk_step G 1 path k) as [[H ->]|[Hn ->]].
  { exists 0. split; [done|]. split; [by left|done]. }
  rewrite Hexp. destruct (prefixb (lit "/mnt/expand/") path) eqn:Ep.
  2: { exists (-1). split; [done|]. split; [done|].
       intros [?|(c & vol & rest & -> & _)]; [done|]. by rewrite prefixb_app in Ep. }
  apply prefixb_spec in Ep as [t ->].
  assert (Hdrop : drop (length (lit "/mnt/expand/") + 1) (lit "/mnt/expand/" ++ t) = drop 1 t).
  { by rewrite <- drop_drop, drop_app_length. }
  pose proof (find_char_split (lit "/mnt/expand/" ++ t) (length (lit "/mnt/expand/") + 1)) as Hf.
  rewrite Hdrop in Hf.
  destruct (find_char slash (lit "/mnt/expand/" ++ t) (length (lit "/mnt/expand/") + 1)) as [en|].
  - destruct Hf as (vol & rest & Hd & Hvol & _ & ->).
    assert (exists c, t = c :: vol ++ slash :: rest) as [c ->].
    { destruct t as [|c t]; simpl in Hd; [by destruct vol|]. exists c. by rewrite <- Hd, drop_0. }
    assert (Huniq : forall c' vol' rest', lit "/mnt/expand/" ++ c :: vol ++ slash :: rest
              = lit "/mnt/expand/" ++ c' :: vol' ++ slash :: rest' -> slash ∉ vol' -> rest' = rest).
    { intros c' vol' rest' E Hv'. apply app_inv_head in E. injection E as <- E.
      by apply first_occurrence in E as [_ ->]. }
    destruct (validate_apk_step G 0 (android_data_dir G ++ rest) k) as [[H ->]|[Hn2 ->]].
    + exists 0. split; [done|]. split; [|done]. intros _. right. by exists c, vol, rest.
    + rewrite Hexp, Hdata. exists (-1). split; [done|]. split; [done|].
      intros [?|(c' & vol' & rest' & E & Hv' & H)]; [done|].
      by rewrite (Huniq _ _ _ E Hv') in H.
  - exists (-1). split; [done|]. split; [done|].
    intros [?|(c & vol & rest & E & _ & _)]; [done|]. apply app_inv_head in E as ->.
    simpl in Hf. rewrite drop_0 in Hf. set_solver.
Qed.

(** What is asked of a secondary dex path wherever it is. *)
Definition dex_shape (path : str) : Prop :=
  (exists p, path = slash :: p) /\ last path <> Some slash /\ (length path <= PKG_PATH_MAX)%nat /\
  (forall a c b, path = a ++ slash :: c :: b -> c <> dot).

Lemma dex_shape_checked c path :
  (Ascii.eqb c slash = true /\ match last (c :: path) with Some e => Ascii.eqb e slash | None => false end = false /\
   has_substr (lit "/.") (c :: path) = false /\ (PKG_PATH_MAX <? length (c :: path))%nat = false) <-> dex_shape (c :: path).
Proof.
  unfold dex_shape. rewrite Ascii.eqb_eq, Nat.ltb_ge. split.
  - intros (-> & El & Eh & Em). split_and!; [by exists path| |done|].
    + intros E. rewrite E in El. by rewrite ascii_eqb_refl in El.
    + intros a c b E ->. assert (has_substr (lit "/.") (slash :: path) = true); [|congruence]. apply has_substr_spec. by exists a, b.
  - intros ([p E] & El & Em & Ed). split_and!; [congruence| | |done].
    + destruct (last (c :: path)) as [e|]; [|done]. apply Ascii.eqb_neq. by intros ->.
    + apply not_true_iff_false. intros (a & b & E')%has_substr_spec. by apply (Ed a dot b).
Qed.

(** The directories of the two storages part after the volume. *)
Lemma ce_de_apart dbg isdir pkg v user ce de path :
  create_data_user_ce_package_path dbg isdir v user pkg = Some ce \/
    create_data_user_ce_package_path_as_user_link dbg v user pkg = Some ce ->
  create_data_user_de_package_path dbg v user pkg = Some de ->
  prefixb ce path = true -> prefixb de path = false.
Proof.
  unfold create_data_user_ce_package_path, create_data_user_ce_package_path_as_user_link, create_data_user_de_package_path,
    create_data_user_ce_path, create_data_user_de_path.
  intros Hce Hde Hp. apply not_true_iff_false. intros Hd.
  destruct (check_package_name pkg); cbn [mbind option_bind] in *; [|done].
  destruct (create_data_path dbg v) as [data|]; cbn [mbind option_bind] in *; [|by destruct Hce].
  injection Hde as <-. apply prefixb_spec in Hp as [t1 E1], Hd as [t2 E2]. rewrite E1 in E2. clear E1.
  assert (Hc : exists tail, ce = data ++ lit "/user/" ++ tail \/ ce = data ++ lit "/data" ++ tail).
  { destruct Hce as [Hce|[= <-] ]; [destruct (_ && _) in Hce|]; cbn [mbind option_bind] in *; try injection Hce as <-; rewrite <- ?app_assoc; eexists; eauto. }
  destruct Hc as [tail [-> | ->]]; rewrite <- !app_assoc in E2; apply app_inv_head in E2; discriminate.
Qed.

(** C23: a secondary dex path is accepted exactly when the storage is CE or DE,
    the path is absolute, does not end in a slash, is at most [PKG_PATH_MAX] long
    and has no component that begins with a dot (so none that leads upwards),
    and it begins with the data directory of the package on that storage, or
    with the [/user/] link of its CE directory. So a path of the DE directory is
    never accepted as one of CE. *)
Theorem secondary_dex_path_confined `{Multiuser} dbg isdir pkg path v uid flag :
  let user := Z.to_N (multiuser_get_user_id uid) in
  (validate_secondary_dex_path dbg isdir pkg path v uid flag = Some true <->
   (flag = FLAG_STORAGE_CE \/ flag = FLAG_STORAGE_DE) /\ dex_shape path /\
   exists own, (if flag =? FLAG_STORAGE_CE then create_data_user_ce_package_path dbg isdir v user pkg
                else create_data_user_de_package_path dbg v user pkg) = Some own /\
     (prefixb own path = true \/
      exists link, create_data_user_ce_package_path_as_user_link dbg v user pkg = Some link /\ prefixb link path = true)) /\
  (flag = FLAG_STORAGE_CE -> validate_secondary_dex_path dbg isdir pkg path v uid flag = Some true ->
   forall de, create_data_user_de_package_path dbg v user pkg = Some de -> prefixb de path = false).
Proof.
  intros user.
  assert (Hiff : validate_secondary_dex_path dbg isdir pkg path v uid flag = Some true <->
   (flag = FLAG_STORAGE_CE \/ flag = FLAG_STORAGE_DE) /\ dex_shape path /\
   exists own, (if flag =? FLAG_STORAGE_CE then create_data_user_ce_package_path dbg isdir v user pkg
                else create_data_user_de_package_path dbg v user pkg) = Some own /\
     (prefixb own path = true \/
      exists link, create_data_user_ce_package_path_as_user_link dbg v user pkg = Some link /\ prefixb link path = true)).
  { unfold validate_secondary_dex_path, check. fold user.
    rewrite <- (Z.eqb_eq flag FLAG_STORAGE_CE), <- (Z.eqb_eq flag FLAG_STORAGE_DE), <- orb_true_iff.
    destruct ((flag =? FLAG_STORAGE_CE) || _); cbn [mbind option_bind]; [|naive_solver].
    destruct path as [|c path]; [by split; [|intros (_ & ([? ?] & _) & _)]|]. rewrite <- dex_shape_checked.
    destruct (Ascii.eqb c slash); cbn [negb]; [|naive_solver].
    destruct (match last (c :: path) with Some e => Ascii.eqb e slash | None => false end); [naive_solver|].
    destruct (has_substr (lit "/.") _); [naive_solver|]. destruct (PKG_PATH_MAX <? _)%nat; [naive_solver|].
    destruct (if flag =? FLAG_STORAGE_CE then _ else _) as [own|]; cbn [mbind option_bind]; [|naive_solver].
    destruct (prefixb own (c :: path)) eqn:Eo; [naive_solver|].
    destruct (create_data_user_ce_package_path_as_user_link dbg v user pkg) as [link|]; cbn [mbind option_bind]; split.
    - intros [= E]. split_and!; try done. exists own. split; [done|]. right. by exists link.
    - intros (_ & _ & own' & [= <-] & [Hp|(l & [= <-] & Hp)]); [by rewrite Eo in Hp|by rewrite Hp].
    - done.
    - intros (_ & _ & own' & [= <-] & [Hp|(l & ? & Hp)]); [by rewrite Eo in Hp|done]. }
  split; [done|]. intros -> (_ & _ & own & Hown & Hp)%Hiff de Hde. rewrite Z.eqb_refl in Hown.
  destruct Hp as [Hp|(link & Hl & Hp)].
  - exact (ce_de_apart dbg isdir pkg v user own de path (or_introl Hown) Hde Hp).
  - exact (ce_de_apart dbg isdir pkg v user link de path (or_intror Hl) Hde Hp).
Qed.

(** [checkArgumentPath] lets a path through exactly when it is absolute,
    none of its components is [..], and it has no NUL and no newline. *)
Theorem checkArgumentPath_spec path :
  checkArgumentPath path = StatusOk <->
  (exists p, path = slash :: p) /\ lit ".." ∉ split_on slash path /\ nul ∉ path /\ newline ∉ path.
Proof.
  unfold checkArgumentPath. destruct path as [|c p]; [split; [done|by intros [[? ?] _]]|].
  destruct (Ascii.eqb_spec c slash) as [->|Hc]; cbn [negb].
  2: { split; [done|]. intros [[? [= ->]] _]. done. }
  assert (Hdd : slash ∉ lit "..") by (intros [H|[H|[]]]%list_elem_of_In; discriminate).
  assert (Hsub : has_substr (lit "/../") ((slash :: p) ++ [slash]) = true
                 <-> lit ".." ∈ split_on slash (slash :: p)).
  { rewrite has_substr_spec. cbn [split_on]. rewrite ascii_eqb_refl, elem_of_cons.
    rewrite (split_on_substr slash p _ Hdd). split.
    - intros (a & b & E). right. by exists a, b.
    - intros [?|(a & b & E)]; [done|]. by exists a, b. }
  destruct (has_substr (lit "/../") _) eqn:E1.
  { split; [done|]. intros (_ & Hn & _). destruct Hn. by apply Hsub. }
  assert (Hne : lit ".." ∉ split_on slash (slash :: p)) by (intros Hin; apply Hsub in Hin; congruence).
  destruct (existsb _ _) eqn:E2.
  - split; [done|]. intros (_ & _ & H0 & H1). apply existsb_exists in E2 as (x & Hin & Hx).
    apply list_elem_of_In in Hin. apply orb_true_iff in Hx as [Hx|Hx]; apply Ascii.eqb_eq in Hx as ->; done.
  - split; [|done]. intros _. split_and!; [by exists p|done| |].
    + intros Hin. assert (existsb (fun c => Ascii.eqb c nul || Ascii.eqb c newline) (slash :: p) = true);
        [|congruence].
      apply existsb_exists. exists nul. split; [by apply list_elem_of_In|done].
    + intros Hin. assert (existsb (fun c => Ascii.eqb c nul || Ascii.eqb c newline) (slash :: p) = true);
        [|congruence].
      apply existsb_exists. exists newline. split; [by apply list_elem_of_In|done].
Qed.

(** ** Witnesses *)

Definition demo_globals : globals :=
  init_globals_from_data_and_root_with (lit "/data") (lit "/system") (lit "/mnt/asec").

(** The volume's name is not looked at: [..] is accepted as one. *)
Example expand_dotdot_accepted :
  validate_apk_path demo_globals (lit "/mnt/expand/../app/com.example/base.apk") = Some 0.
Proof. vm_compute. reflexivity. Qed.

(** The directory is compared without its separator: a sibling package's
    file is accepted. *)
Example sibling_dex_accepted :
  @validate_secondary_dex_path false (fun _ => false) mu_android (lit "com.foo")
    (lit "/data/user/0/com.foobar/x.dex") None 10001 FLAG_STORAGE_CE = Some true.
Proof. vm_compute. reflexivity. Qed.

(** The link is that of the CE directory whatever the storage is: for all users but the
    first it is the CE directory itself, and its files are accepted as DE. *)
Example ce_dex_accepted_as_de :
  @create_data_user_ce_package_path false (fun _ => false) None 10 (lit "com.foo") = Some (lit "/data/user/10/com.foo") /\
  @validate_secondary_dex_path false (fun _ => false) mu_android (lit "com.foo")
    (lit "/data/user/10/com.foo/x.dex") None 1010001 FLAG_STORAGE_DE = Some true.
Proof. vm_compute. done. Qed.

Lemma package_name_is_filename_witness :
  slash ∉ lit "com.example-1" /\ is_valid_filename (lit "com.example-1") = true /\
  check_package_name (lit "com.example-1") = Some ().
Proof. apply package_name_is_filename. vm_compute. reflexivity. Defined.

Lemma ce_package_path_injective_witness :
  0%N = 0%N /\ lit "com.example" = lit "com.example" /\
  exists d, create_data_user_ce_path false (fun _ => true) None 0 = Some d /\
    lit "/data/data/com.example" = d ++ slash :: lit "com.example".
Proof.
  apply (ce_package_path_injective (fun _ => true) false None 0 (lit "com.example") 0 (lit "com.example")
           (lit "/data/data/com.example")).
  - vm_compute. reflexivity.
  - vm_compute. reflexivity.
Defined.

Lemma globals_dirs_valid_witness :
  Forall (fun d => valid_dir d = true)
    ([android_app_dir demo_globals; android_staging_dir demo_globals;
      android_app_private_dir demo_globals; android_app_ephemeral_dir demo_globals;
      android_asec_dir demo_globals] ++ android_system_dirs demo_globals).
Proof.
  apply (globals_dirs_valid (lit "data") (lit "system") (lit "mnt/asec")).
  - vm_compute. reflexivity.
  - vm_compute. reflexivity.
  - discriminate.
  - vm_compute. reflexivity.
Defined.

Lemma validate_apk_path_spec_witness :
  exists r, validate_apk_path_internal demo_globals 2 (lit "/data/app/com.example/base.apk") 1 = Some r /\
  (r = 0 <->
   under_app_dirs demo_globals (lit "/data/app/com.example/base.apk") 1 \/
   exists c vol rest, lit "/data/app/com.example/base.apk" = lit "/mnt/expand/" ++ c :: vol ++ slash :: rest
     /\ slash ∉ vol /\ under_app_dirs demo_globals (android_data_dir demo_globals ++ rest) 1).
Proof.
  apply (validate_apk_path_spec demo_globals (lit "/data/app/com.example/base.apk") 1).
  - reflexivity.
  - intros r. reflexivity.
Defined.

Lemma secondary_dex_path_confined_witness :
  let path := lit "/data/user/0/com.foo/x.dex" in
  FLAG_STORAGE_CE = FLAG_STORAGE_CE /\
  @validate_secondary_dex_path false (fun _ => false) mu_android (lit "com.foo") path None 10001 FLAG_STORAGE_CE = Some true /\
  dex_shape path /\
  forall de, create_data_user_de_package_path false None 0 (lit "com.foo") = Some de -> prefixb de path = false.
Proof.
  intros path.
  destruct (@secondary_dex_path_confined mu_android false (fun _ => false) (lit "com.foo") path None 10001 FLAG_STORAGE_CE) as [[H _] Hde].
  assert (Hv : @validate_secondary_dex_path false (fun _ => false) mu_android (lit "com.foo") path None 10001 FLAG_STORAGE_CE = Some true)
    by (vm_compute; reflexivity).
  split_and!; [done|exact Hv|by apply H|]. exact (Hde eq_refl Hv).
Defined.
