(* ===== verification/InstalldFs.v ===== *)
(** File system helpers of [installd]: the rest of [utils.cpp].

    What a call reads of the file system is a section variable (the hierarchy
    that [fts] meets at a path, the entries of a directory, [stat], the free
    blocks); what it changes is the state of the function (the entries left in
    a directory, extended attributes, the owners and modes it sets). *)

From S2P Require Import Prelude Platform CLib Fts InstalldPaths.

Open Scope Z_scope.

(** * Users of a volume *)

(** The directory entries that name a user other than the owner. *)
Definition known_user (ent : dirent) : option Z :=
  if bool_decide (d_type ent = DT_DIR) then
    match strtoll (d_name ent) 10 with
    | (v, Some []) => if nz (u32 v) then Some (u32 v) else None
    | _ => None
    end
  else None.

Section Users.
Context (debuggable : bool) (opendir : str -> option (list dirent)).

Definition SECONDARY_USER_PREFIX : str := lit "user/".

Definition get_known_users (volume_uuid : option str) : option (list Z) :=
  data ← create_data_path debuggable volume_uuid;
  match opendir (data ++ slash :: SECONDARY_USER_PREFIX) with
  | None => Some [0]
  | Some entries => Some (0 :: omap known_user entries)
  end.
End Users.

(** * Sizes *)

Section Size.
Context {aid : AidRanges} {mu : Multiuser}.
(* the hierarchy that fts_open finds at a path; None when it fails *)
Context (tree_at : str -> option ftree).

Definition between (lo x hi : Z) : bool := (lo <=? x) && (x <=? hi).

(** The objects [exclude_apps] leaves out. *)
Definition app_owned (st : stat) : bool :=
  let user_uid := i32 (multiuser_get_app_id (st_uid st)) in
  let user_gid := i32 (multiuser_get_app_id (st_gid st)) in
  between AID_APP_START user_uid AID_APP_END
  || between AID_CACHE_GID_START user_gid AID_CACHE_GID_END
  || between AID_SHARED_GID_START user_gid AID_SHARED_GID_END.

(** The cases of the switch that measure. *)
Definition measured (i : ftsinfo) : bool :=
  match i with FTS_D | FTS_DEFAULT | FTS_F | FTS_SL | FTS_SLNONE => true | _ => false end.

Definition size_body (include_gid exclude_gid : Z) (exclude_apps : bool) (p : FTSENT) (matchedSize : Z)
    : Z * bool :=
  if measured (fts_info p) then
    let gid := i32 (st_gid (fts_statp p)) in
    if exclude_apps && app_owned (fts_statp p) then (matchedSize, true)
    else if negb (include_gid =? -1) && negb (gid =? include_gid) then (matchedSize, false)
    else if negb (exclude_gid =? -1) && (gid =? exclude_gid) then (matchedSize, false)
    else (i64 (matchedSize + st_blocks (fts_statp p) * 512), false)
  else (matchedSize, false).

(** The result and [*size]; [None] if the loop did not end. *)
Definition calculate_tree_size (path : str) (size include_gid exclude_gid : Z) (exclude_apps : bool)
    : option (Z * Z) :=
  match tree_at path with
  | None => Some (-1, size)
  | Some t =>
      matchedSize ← fts_run (size_body include_gid exclude_gid exclude_apps) (fts_roots 0 [(path, t)]) 0;
      Some (0, i64 (size + matchedSize))
  end.

(** What a hierarchy counts for: the blocks of its objects with the wanted
    group, without the subtrees of applications. *)
Definition node_size (include_gid exclude_gid : Z) (st : stat) : Z :=
  let gid := i32 (st_gid st) in
  if ((include_gid =? -1) || (gid =? include_gid)) && ((exclude_gid =? -1) || negb (gid =? exclude_gid))
  then st_blocks st * 512 else 0.

Fixpoint tree_size (include_gid exclude_gid : Z) (exclude_apps : bool) (t : ftree) : Z :=
  match t with
  | Leaf info _ st =>
      if negb (measured info) || (exclude_apps && app_owned st) then 0
      else node_size include_gid exclude_gid st
  | Dir _ st rd ch =>
      if exclude_apps && app_owned st then 0
      else node_size include_gid exclude_gid st
           + if rd then foldr Z.add 0 (map (tree_size include_gid exclude_gid exclude_apps) ch) else 0
  end.

End Size.

(** [static_cast<int64_t>(sfs.f_bavail) * sfs.f_frsize]. *)
Definition data_disk_free (statvfs : str -> option (Z * Z)) (data_path : str) : Z :=
  match statvfs data_path with
  | Some (bavail, frsize) => i64 (u64 (bavail * frsize))
  | None => -1
  end.

(** * Deletion *)

(** What [readdir] lists and what [openat]/[unlinkat] find under the name:
    [Gone] when it was removed meanwhile, as it is for "." and "..". *)
Inductive dnode :=
| File
| Gone
| Sub (openable : bool) (entries : list (str * dtype * dnode)).

Definition dents := list (str * dtype * dnode).

Section Delete.
(* exclusion_predicate(name, is_dir), false when there is none *)
Context (exclusion_predicate : str -> bool -> bool).
(* unlinkat(dfd, name, flags) has the permission to remove the entry *)
Context (may_unlink : str -> bool).

Definition is_dot (name : str) : bool := (name =s? lit ".") || (name =s? lit "..").

(** The entries that stop [rmdir]. *)
Definition empty_dir (kept : dents) : bool := forallb (fun e => is_dot (fst (fst e))) kept.

(** The result, 0 or -1, and the entries left, for one entry and for the
    loop. [is_dot] entries stay, they are not entries of the tree. *)
Fixpoint delete_entry (name : str) (type : dtype) (n : dnode) : Z * dents :=
  if exclusion_predicate name (bool_decide (type = DT_DIR)) then (0, [(name, type, n)])
  else if bool_decide (type = DT_DIR) then
    if is_dot name then (0, [(name, type, n)])
    else
      match n with
      | Sub true entries =>
          let fix go l :=
            match l with
            | [] => (0, [])
            | (nm, ty, nd) :: l' =>
                let '(r1, kept1) := delete_entry nm ty nd in
                let '(r2, kept2) := go l' in
                ((if (r1 =? 0) && (r2 =? 0) then 0 else -1), kept1 ++ kept2)
            end in
          let '(r, kept) := go entries in
          if empty_dir kept && may_unlink name then (r, [])
          else (-1, [(name, type, Sub true kept)])
      | _ => (-1, match n with Gone => [] | _ => [(name, type, n)] end)
      end
  else
    match n with
    | File => if may_unlink name then (0, []) else (-1, [(name, type, n)])
    | Gone => (-1, [])
    | Sub _ _ => (-1, [(name, type, n)])
    end.

Fixpoint _delete_dir_contents (entries : dents) : Z * dents :=
  match entries with
  | [] => (0, [])
  | (name, type, n) :: entries' =>
      let '(r1, kept1) := delete_entry name type n in
      let '(r2, kept2) := _delete_dir_contents entries' in
      ((if (r1 =? 0) && (r2 =? 0) then 0 else -1), kept1 ++ kept2)
  end.

(** The directory at [pathname]: its entries, or the [errno] of [opendir]. *)
Definition delete_dir_contents (opened : dents + Z) (may_rmdir also_delete_dir ignore_if_missing : bool)
    : Z * option dents :=
  match opened with
  | inr e => if ignore_if_missing && (e =? ENOENT) then (0, None) else (- e, None)
  | inl entries =>
      let '(res, kept) := _delete_dir_contents entries in
      if also_delete_dir then
        if empty_dir kept && may_rmdir then (res, None) else (-1, Some kept)
      else (res, Some kept)
  end.

End Delete.

Definition no_exclusion (name : str) (is_dir : bool) : bool := false.

(** * Directories and attributes *)

(** [stat] and [mkdir], the latter with its result. *)
Definition create_dir_if_needed (st : stat + Z) (mkdir : Z -> Z) (perms : Z) : Z :=
  match st with
  | inr e => if e =? ENOENT then mkdir perms else -1
  | inl st =>
      if negb (bool_decide (st_type st = S_IFDIR)) then -1
      else if negb (st_perm st =? perms) then -1
      else 0
  end.

(** Extended attributes of 8 bytes, by path and name. *)
Abbreviation xattrs := (gmap (str * str) Z).

Section Inode.
Context (stat_ino : str -> option Z).
Context (opendir : str -> option (list dirent)).
(* the errno of setxattr on a path, None on success *)
Context (setxattr_errno : str -> option Z).

Definition get_path_inode (path : str) : option Z := stat_ino path.

Definition write_path_inode (parent name attr : str) (x : xattrs) : Z * xattrs :=
  match get_path_inode (parent ++ slash :: name) with
  | None => (0, x)
  | Some inode =>
      if bool_decide (x !! (parent, attr) = Some inode) then (0, x)
      else
        match setxattr_errno parent with
        | None => (0, <[(parent, attr) := inode]> x)
        | Some e => (if e =? EOPNOTSUPP then 0 else -1, x)
        end
  end.

Definition read_path_inode (x : xattrs) (parent name attr : str) : str :=
  let fallback := parent ++ slash :: name in
  let inode := default 0 (x !! (parent, attr)) in
  if nz inode then
    match opendir parent with
    | None => fallback
    | Some entries =>
        match List.find (fun ent => d_ino ent =? inode) entries with
        | Some ent => parent ++ slash :: d_name ent
        | None => fallback
        end
    end
  else fallback.

Definition remove_path_xattr (path attr : str) (x : xattrs) : xattrs := delete (path, attr) x.
End Inode.

Definition ensure_config_user_dirs {aid : AidRanges} {mu : Multiuser} (debuggable : bool)
    (fs_prepare_dir : str -> Z -> Z -> Z -> Z) (userid : N) : option Z :=
  let uid := i32 (multiuser_get_uid (Z.of_N userid) AID_SYSTEM) in
  let gid := i32 (multiuser_get_uid (Z.of_N userid) AID_EVERYBODY) in
  path ← create_data_misc_legacy_path debuggable userid;
  Some (fs_prepare_dir path 488 uid gid).

(** The results of [waitpid]: the pid and the status, or -1 and [errno];
    [None] when the list ends, an answer is still awaited. *)
Fixpoint wait_child (pid : Z) (answers : list (Z * Z)) : option Z :=
  match answers with
  | [] => None
  | (got_pid, v) :: answers' =>
      if (got_pid =? -1) && (v =? EINTR) then wait_child pid answers'
      else if negb (got_pid =? pid) then Some 1
      else if (Z.land v 127 =? 0) && (Z.land (Z.shiftr v 8) 255 =? 0) then Some 0
      else Some v
  end.

(** ** Cache directories *)

Inductive fix_op := Chmod (path : str) (mode : Z) | Chown (path : str) (gid : Z) | Lchown (path : str) (gid : Z).

Definition fix_body (target_mode gid : Z) (p : FTSENT) (ops : list fix_op) : list fix_op * bool :=
  (match fts_info p with
   | FTS_DP => ops ++ [Chmod (fts_path p) target_mode; Chown (fts_path p) gid]
   | FTS_F => ops ++ [Chown (fts_path p) gid]
   | FTS_SL | FTS_SLNONE => ops ++ [Lchown (fts_path p) gid]
   | _ => ops
   end, false).

(** [S_IRWXU | S_IRWXG | S_IRWXO | S_ISGID]. *)
Definition MODE_MASK : Z := 1535.

Section CacheDir.
Context (stat_of : str -> stat + Z).
Context (fs_prepare_dir_strict : str -> Z -> Z -> Z -> Z).
Context (tree_at : str -> option ftree).

(** The result and the owners and modes set under the directory. *)
Definition prepare_app_cache_dir (parent name : str) (target_mode uid gid : Z)
    : option (Z * list fix_op) :=
  let path := parent ++ slash :: name in
  match stat_of path with
  | inr e =>
      if e =? ENOENT then
        if nz (fs_prepare_dir_strict path target_mode uid gid) then Some (-1, []) else Some (0, [])
      else Some (-1, [])
  | inl st =>
      let actual_mode := Z.land (st_perm st) MODE_MASK in
      if negb (st_uid st =? uid) then Some (-1, [])
      else if (st_gid st =? gid) && (actual_mode =? target_mode) then Some (0, [])
      else
        match tree_at path with
        | None => Some (-1, [])
        | Some t =>
            ops ← fts_run (fix_body target_mode gid) (fts_roots 0 [(path, t)]) [];
            Some (0, ops)
        end
  end.
End CacheDir.

(** ** Profiles *)

(** A profile directory: [readdir] with the size of the regular files
    ([None] when [stat] fails) and the directories that open. *)
Inductive pnode :=
| PFile (size : option Z)
| PSub (entries : option (list (str * dtype * pnode))).

Fixpoint collect_entry (current_path name : str) (type : dtype) (n : pnode) : bool * list str :=
  let local_path := current_path ++ slash :: name in
  match type with
  | DT_REG =>
      if ends_with name PROFILE_EXT then
        match n with
        | PFile (Some size) => (true, if 0 <? size then [local_path] else [])
        | _ => (false, [])
        end
      else (true, [])
  | DT_DIR =>
      if is_dot name then (true, [])
      else
        match n with
        | PSub (Some entries) =>
            let fix go l :=
              match l with
              | [] => (true, [])
              | (nm, ty, nd) :: l' =>
                  let '(r1, ps1) := collect_entry local_path nm ty nd in
                  let '(r2, ps2) := go l' in (r1 && r2, ps1 ++ ps2)
              end in
            go entries
        | _ => (false, [])
        end
  | _ => (true, [])
  end.

Fixpoint collect_profiles_dir (current_path : str) (entries : list (str * dtype * pnode))
    : bool * list str :=
  match entries with
  | [] => (true, [])
  | (nm, ty, nd) :: l' =>
      let '(r1, ps1) := collect_entry current_path nm ty nd in
      let '(r2, ps2) := collect_profiles_dir current_path l' in (r1 && r2, ps1 ++ ps2)
  end.

(** The paths are appended to the caller's vector. *)
Definition collect_profiles (G : globals) (opened : option (list (str * dtype * pnode)))
    (profiles_paths : list str) : bool * list str :=
  match opened with
  | None => (false, profiles_paths)
  | Some entries =>
      let '(r, ps) := collect_profiles_dir (android_profiles_dir G) entries in (r, profiles_paths ++ ps)
  end.

(** * Helper lemmas *)

Section SizeLemmas.
Context {aid : AidRanges} {mu : Multiuser}.
Context (include_gid exclude_gid : Z) (exclude_apps : bool).

Abbreviation body := (size_body include_gid exclude_gid exclude_apps).
Abbreviation tsize := (tree_size include_gid exclude_gid exclude_apps).

Lemma size_body_measured p m :
  measured (fts_info p) = true -> exclude_apps && app_owned (fts_statp p) = false -> i64 m = m ->
  body p m = (i64 (m + node_size include_gid exclude_gid (fts_statp p)), false).
Proof.
  intros Hm Hx Hr. unfold size_body, node_size. rewrite Hm, Hx.
  destruct (include_gid =? -1), (i32 _ =? include_gid), (exclude_gid =? -1), (i32 _ =? exclude_gid);
    cbn [negb andb orb]; rewrite ?Z.add_0_r; congruence.
Qed.

Lemma size_leaf_skipped p m : measured (fts_info p) = false -> leaf_step body p m = m.
Proof. intros H. unfold leaf_step, size_body. by rewrite H. Qed.

Lemma size_forest e i ch m :
  Forall (fun t => forall parent level path id m, i64 m = m ->
            tree_fold body parent level path id t m = i64 (m + tsize t)) ch ->
  i64 m = m -> forest_fold body e i ch m = i64 (m + foldr Z.add 0 (map tsize ch)).
Proof.
  intros H. revert i m. induction H as [|c ch Hc Hch IH]; intros i m Hm; simpl.
  - by rewrite Z.add_0_r.
  - rewrite Hc by done. rewrite IH by apply i64_idem. by rewrite i64_add_l, Z.add_assoc.
Qed.

Lemma size_tree_fold t parent level path id m :
  i64 m = m -> tree_fold body parent level path id t m = i64 (m + tsize t).
Proof.
  revert parent level path id m. induction t as [info n s|n s rd ch IH] using ftree_ind';
    intros parent level path id m Hm.
  - cbn [tree_fold tree_size]. destruct (measured info) eqn:Ei; cbn [negb orb].
    + destruct (exclude_apps && app_owned s) eqn:Ex.
      * unfold leaf_step, size_body. cbn [fts_info fts_statp]. rewrite Ei, Ex.
        by rewrite Z.add_0_r.
      * unfold leaf_step. by rewrite size_body_measured.
    + rewrite size_leaf_skipped by done. by rewrite Z.add_0_r.
  - rewrite tree_fold_Dir. cbn [tree_size].
    destruct (exclude_apps && app_owned s) eqn:Ex.
    + unfold size_body at 1. cbn [fts_info fts_statp measured]. rewrite Ex.
      cbn [todo_fold]. rewrite size_leaf_skipped by done. by rewrite Z.add_0_r.
    + rewrite size_body_measured by done. cbn [fts_statp]. destruct rd; cbn [todo_fold].
      * rewrite size_leaf_skipped by done. rewrite size_forest; [|done|apply i64_idem].
        by rewrite i64_add_l, Z.add_assoc.
      * rewrite size_leaf_skipped by done. by rewrite Z.add_0_r.
Qed.

End SizeLemmas.

(** ** Deletion *)

(** Induction on a directory entry with the hypothesis for every entry inside. *)
Lemma dnode_ind' (P : dnode -> Prop) :
  P File -> P Gone ->
  (forall o l, Forall (fun e => P (snd e)) l -> P (Sub o l)) -> forall n, P n.
Proof.
  intros HF HG HS. fix IH 1. intros [| |o l]; [done|done|]. apply HS.
  induction l as [|[[nm ty] nd] l IHl]; constructor; [apply IH|apply IHl].
Qed.

Section DeleteLemmas.
Context (excl : str -> bool -> bool) (may : str -> bool).

Lemma delete_entry_sub name entries :
  excl name true = false -> is_dot name = false ->
  delete_entry excl may name DT_DIR (Sub true entries) =
  let '(r, kept) := _delete_dir_contents excl may entries in
  if empty_dir kept && may name then (r, []) else (-1, [(name, DT_DIR, Sub true kept)]).
Proof.
  intros Hx Hd. cbn [delete_entry]. rewrite bool_decide_true by done. rewrite Hx, Hd.
  match goal with |- context [?f entries] => set (go := f) end.
  assert (Hgo : forall l, go l = _delete_dir_contents excl may l).
  { induction l as [|[[nm ty] nd] l IH]; [done|]. simpl. by rewrite IH. }
  by rewrite Hgo.
Qed.

(** The entries a successful deletion leaves, untouched. *)
Definition stays (e : str * dtype * dnode) : bool :=
  let '(name, type, _) := e in
  excl name (bool_decide (type = DT_DIR)) || (bool_decide (type = DT_DIR) && is_dot name).

(** An entry the process can delete, with everything inside it. *)
Fixpoint deletable (name : str) (type : dtype) (n : dnode) : bool :=
  stays (name, type, n)
  || match n with
     | File => negb (bool_decide (type = DT_DIR)) && may name
     | Gone => false
     | Sub openable entries =>
         bool_decide (type = DT_DIR) && openable && may name
         && forallb (fun '(nm, ty, nd) => deletable nm ty nd && (negb (stays (nm, ty, nd)) || is_dot nm)) entries
     end.

Definition entry_ok (e : str * dtype * dnode) : Prop :=
  let '(name, type, n) := e in
  forall r kept, delete_entry excl may name type n = (r, kept) ->
    (r = 0 \/ r = -1) /\ (r = 0 -> kept = if stays e then [e] else []) /\
    (deletable name type n = true -> r = 0).

Lemma delete_list_spec entries r kept :
  Forall entry_ok entries ->
  _delete_dir_contents excl may entries = (r, kept) ->
  (r = 0 \/ r = -1) /\ (r = 0 -> kept = List.filter (stays) entries) /\
  (forallb (fun '(nm, ty, nd) => deletable nm ty nd) entries = true -> r = 0).
Proof.
  intros H. revert r kept. induction H as [|[[nm ty] nd] l He Hl IH]; intros r kept Hd.
  - injection Hd as <- <-. split_and!; [by left|done|done].
  - cbn [_delete_dir_contents] in Hd.
    destruct (delete_entry excl may nm ty nd) as [r1 k1] eqn:E1.
    destruct (_delete_dir_contents excl may l) as [r2 k2] eqn:E2. injection Hd as <- <-.
    destruct (He _ _ E1) as (H1 & K1 & D1). destruct (IH _ _ eq_refl) as (H2 & K2 & D2).
    split_and!.
    + by destruct ((r1 =? 0) && (r2 =? 0)); [left|right].
    + destruct (Z.eqb_spec r1 0), (Z.eqb_spec r2 0); cbn [andb]; [|done..]. intros _.
      rewrite K1, K2 by done. cbn [List.filter]. by destruct (stays (nm, ty, nd)).
    + cbn [forallb]. intros [Ha Hb]%andb_true_iff. by rewrite D1, D2.
Qed.

Lemma delete_entry_ok name type n : entry_ok (name, type, n).
Proof.
  revert name type. induction n as [| |o entries IH] using dnode_ind'; intros name type r kept.
  - cbn [delete_entry deletable stays]. destruct (excl name _) eqn:Ex; cbn [orb].
    { intros [= <- <-]. split_and!; [by left|done|done]. }
    destruct (bool_decide (type = DT_DIR)) eqn:Et; cbn [andb orb negb].
    + destruct (is_dot name); intros [= <- <-]; (split_and!; [by auto|done|done]).
    + destruct (may name); intros [= <- <-]; (split_and!; [by auto|done|done]).
  - cbn [delete_entry deletable stays]. destruct (excl name _) eqn:Ex; cbn [orb].
    { intros [= <- <-]. split_and!; [by left|done|done]. }
    destruct (bool_decide (type = DT_DIR)) eqn:Et; cbn [andb orb negb].
    + destruct (is_dot name); intros [= <- <-]; (split_and!; [by auto|done|done]).
    + intros [= <- <-]. split_and!; [by auto|done|done].
  - destruct (excl name (bool_decide (type = DT_DIR))) eqn:Ex.
    { unfold stays. cbn [delete_entry deletable stays]. rewrite Ex. cbn [orb].
      intros [= <- <-]. split_and!; [by left|done|done]. }
    destruct (bool_decide_reflect (type = DT_DIR)) as [->|Ht].
    2: { cbn [delete_entry deletable stays]. rewrite (bool_decide_false (type = DT_DIR)), Ex by done.
         intros [= <- <-]. cbn. split_and!; [by auto|done|done]. }
    destruct (is_dot name) eqn:Hdot.
    { cbn [delete_entry deletable stays]. rewrite bool_decide_true, Ex, Hdot by done.
      intros [= <- <-]. cbn. split_and!; [by auto|done|done]. }
    assert (Hst : stays (name, DT_DIR, Sub o entries) = false).
    { unfold stays. by rewrite bool_decide_true, Ex, Hdot by done. }
    destruct o.
    2: { cbn [delete_entry deletable]. rewrite Hst, bool_decide_true, Ex, Hdot by done.
         intros [= <- <-]. cbn. split_and!; [by auto|done|done]. }
    rewrite delete_entry_sub by done.
    destruct (_delete_dir_contents excl may entries) as [r' k'] eqn:Ed.
    apply delete_list_spec in Ed as (Hr & Hk & Hd).
    2: { apply Forall_forall. intros [[nm ty] nd] Hin. rewrite Forall_forall in IH. by apply (IH _ Hin). }
    rewrite Hst. cbn [deletable]. rewrite Hst, bool_decide_true by done. cbn [orb andb].
    destruct (empty_dir k' && may name) eqn:Eb; intros [= <- <-].
    + split_and!; [done|done|]. rewrite !andb_true_iff, forallb_forall. intros [_ Hf]. apply Hd.
      apply forallb_forall. intros [[nm ty] nd] Hin. specialize (Hf _ Hin). simpl in Hf.
      by apply andb_true_iff in Hf as [? _].
    + split_and!; [by right|done|]. rewrite !andb_true_iff, forallb_forall. intros [Hm Hf]. exfalso.
      rewrite Hk in Eb. 2: { apply Hd. apply forallb_forall. intros [[nm ty] nd] Hin.
        specialize (Hf _ Hin). by apply andb_true_iff in Hf as [? _]. }
      rewrite Hm, andb_true_r in Eb. apply not_true_iff_false in Eb. apply Eb.
      apply forallb_forall. intros [[nm ty] nd] [Hin Hs]%filter_In. specialize (Hf _ Hin).
      apply andb_true_iff in Hf as [_ Hf]. by rewrite Hs in Hf.
Qed.

End DeleteLemmas.

(** A key without duplicates finds its element. *)
Lemma find_unique_key {A} (f : A -> Z) (l : list A) (a : A) (k : Z) :
  a ∈ l -> f a = k -> NoDup (f <$> l) -> List.find (fun b => f b =? k) l = Some a.
Proof.
  intros Hin Hk. induction l as [|b l IH]; intros Hnd; [by apply not_elem_of_nil in Hin|].
  rewrite fmap_cons, NoDup_cons in Hnd. destruct Hnd as [Hb Hnd]. cbn [List.find].
  destruct (Z.eqb_spec (f b) k) as [E|E].
  - apply elem_of_cons in Hin as [->|Hin]; [done|]. exfalso. apply Hb.
    rewrite E, <- Hk. by apply list_elem_of_fmap_2.
  - apply elem_of_cons in Hin as [->|Hin]; [done|by apply IH].
Qed.

(** * Properties *)

(** [calculate_tree_size] adds to [*size] exactly the blocks of the
    objects below the path that have the wanted group and are not in a
    subtree of an application, and returns 0; a path that cannot be opened
    leaves [*size] alone and returns -1. Skipping a subtree in the traversal
    is leaving it out of the sum. *)
Theorem calculate_tree_size_spec {aid : AidRanges} {mu : Multiuser} tree_at path size inc exc apps :
  calculate_tree_size tree_at path size inc exc apps =
  Some (match tree_at path with
        | Some t => (0, i64 (size + tree_size inc exc apps t))
        | None => (-1, size)
        end).
Proof.
  unfold calculate_tree_size. destruct (tree_at path) as [t|]; [|done].
  rewrite fts_run_one, size_tree_fold by done. cbn. by rewrite i64_add_r.
Qed.

(** A deletion that reports success leaves exactly the entries it must
    not touch, excluded or "." and "..", and it reports success when the
    process can delete everything else. One entry that cannot be deleted does
    not stop the deletion of the others. *)
Theorem delete_dir_contents_spec excl may entries r kept :
  _delete_dir_contents excl may entries = (r, kept) ->
  (r = 0 \/ r = -1) /\
  (r = 0 -> kept = List.filter (stays excl) entries) /\
  (forallb (fun '(nm, ty, nd) => deletable excl may nm ty nd) entries = true -> r = 0).
Proof.
  apply delete_list_spec. apply Forall_forall. intros [[nm ty] nd] _. apply delete_entry_ok.
Qed.

(** The inode written for a child finds it again after the child was
    renamed, as it is when the file names become encrypted, provided no other
    entry of the directory has its inode and no attribute call failed. *)
Theorem path_inode_survives_rename stat_ino opendir seterr parent name attr x r x' ino entries ent :
  stat_ino (parent ++ slash :: name) = Some ino -> ino <> 0 -> seterr parent = None ->
  write_path_inode stat_ino seterr parent name attr x = (r, x') ->
  opendir parent = Some entries -> ent ∈ entries -> d_ino ent = ino -> NoDup (d_ino <$> entries) ->
  r = 0 /\ read_path_inode opendir x' parent name attr = parent ++ slash :: d_name ent /\
  forall k, k <> (parent, attr) -> x' !! k = x !! k.
Proof.
  intros Hs Hnz Hse Hw Hop Hin Hino Hnd.
  assert (Hx : x' !! (parent, attr) = Some ino /\ r = 0 /\ forall k, k <> (parent, attr) -> x' !! k = x !! k).
  { revert Hw. unfold write_path_inode, get_path_inode. rewrite Hs, Hse.
    case_bool_decide as Hb; intros [= <- <-]; [done|]. rewrite lookup_insert_eq.
    split_and!; [done|done|]. intros k Hk. by rewrite lookup_insert_ne. }
  destruct Hx as (Hx & -> & Hf). split_and!; [done| |done].
  unfold read_path_inode. rewrite Hx. change (default 0 (Some ino)) with ino. unfold nz.
  destruct (Z.eqb_spec ino 0); [done|]. cbn [negb]. rewrite Hop.
  rewrite (find_unique_key d_ino entries ent ino); done.
Qed.

(** * Witnesses *)

Definition example_dir : dents :=
  [(lit ".", DT_DIR, Gone); (lit "..", DT_DIR, Gone); (lit "lib", DT_LNK, File);
   (lit "cache", DT_DIR, Sub true [(lit ".", DT_DIR, Gone); (lit "a", DT_REG, File)]);
   (lit "keep", DT_REG, File)].

Definition keep_excluded (name : str) (is_dir : bool) : bool := name =s? lit "keep".

Lemma delete_dir_contents_spec_witness :
  let kept := snd (_delete_dir_contents keep_excluded (fun _ => true) example_dir) in
  kept = [(lit ".", DT_DIR, Gone); (lit "..", DT_DIR, Gone); (lit "keep", DT_REG, File)].
Proof.
  set (kept := snd _). cbv zeta.
  assert (E : _delete_dir_contents keep_excluded (fun _ => true) example_dir = (0, kept)) by done.
  apply (delete_dir_contents_spec keep_excluded (fun _ => true) example_dir 0 kept E). done.
Defined.

Definition example_listing : list dirent :=
  [Dirent (lit ".") 10 DT_DIR; Dirent (lit "+Xa3") 12 DT_DIR; Dirent (lit "b") 13 DT_REG].

Definition example_written : xattrs := {[ (lit "/d", lit "user.inode_cache") := 12 ]}.

Lemma path_inode_survives_rename_witness :
  read_path_inode (fun _ => Some example_listing) example_written (lit "/d") (lit "cache")
    (lit "user.inode_cache") = lit "/d/+Xa3".
Proof.
  assert (H : lit "/d" ++ slash :: d_name (Dirent (lit "+Xa3") 12 DT_DIR) = lit "/d/+Xa3") by done.
  rewrite <- H.
  apply (path_inode_survives_rename (fun _ => Some 12) (fun _ => Some example_listing) (fun _ => None)
           (lit "/d") (lit "cache") (lit "user.inode_cache") ∅ 0 example_written 12 example_listing
           (Dirent (lit "+Xa3") 12 DT_DIR)); try done.
  - apply list_elem_of_In. simpl. tauto.
  - apply (bool_decide_eq_true_1 _). vm_compute. reflexivity.
Defined.

Lemma calculate_tree_size_example :
  let st b := Stat 1 S_IFREG 420 0 0 0 b 0 in
  @calculate_tree_size aid_android mu_android
    (fun _ => Some (Dir (lit "cache") (st 8) true [Leaf FTS_F (lit "a") (st 16); Leaf FTS_NS (lit "b") (st 1)]))
    (lit "/data/cache") 100 (-1) (-1) false = Some (0, 100 + 24 * 512).
Proof. vm_compute. reflexivity. Qed.
