(* ===== verification/Quota.v ===== *)
(** Quota accounting of [installd]: [QuotaUtils.cpp].

    The map of the mounts with quotas is the state. A look-up with
    [operator[]] inserts an empty device under a path it does not know, which
    no operation can observe: [mounts_equiv] is the equality of the maps up to
    these entries, and the operations respect it. *)

From S2P Require Import Prelude InstalldPaths.

Open Scope Z_scope.

Abbreviation mounts := (gmap str str).

(** ** The stream of [/proc/mounts] *)

Record istream := Istream { rest : str; eof : bool }.

Fixpoint take_until (delim : ascii) (s : str) : str * option str :=
  match s with
  | [] => ([], None)
  | c :: s' =>
      if Ascii.eqb c delim then ([], Some s')
      else let '(w, r) := take_until delim s' in (c :: w, r)
  end.

(** [std::getline(in, line, delim)]: at the end of the file the line keeps
    its value. *)
Definition getline (delim : ascii) (i : istream) (line : str) : str * istream :=
  if eof i then (line, i)
  else
    match take_until delim (rest i) with
    | (w, Some r) => (w, Istream r false)
    | (w, None) => (w, Istream [] true)
    end.

Definition space : ascii := " "%char.

Inductive quota_kind := USRQUOTA | GRPQUOTA.

(** ** The loop over the mounts

    [line] is what a loop does with the source and the target of a line. *)

Section Loop.
Context (line : str -> str -> mounts -> mounts).

(** One round of the loop: the three strings, the stream and the map. *)
Definition mounts_step (i : istream) (source target ignored : str) (m : mounts)
    : istream * (str * str * str) * mounts :=
  let '(source, i) := getline space i source in
  let '(target, i) := getline space i target in
  let '(ignored, i) := getline newline i ignored in
  (i, (source, target, ignored), line source target m).

Fixpoint mounts_loop (fuel : nat) (i : istream) (lines : str * str * str) (m : mounts)
    : option mounts :=
  match fuel with
  | O => None
  | S fuel' =>
      if eof i then Some m
      else
        let r := mounts_step i (fst (fst lines)) (snd (fst lines)) (snd lines) m in
        mounts_loop fuel' (fst (fst r)) (snd (fst r)) (snd r)
  end.

(** All of a file; every line read or the end of the file takes a step:
    [mounts_loop_total]. *)
Definition read_mounts (s : str) : option mounts :=
  mounts_loop (2 + length s) (Istream s false) ([], [], []) ∅.

End Loop.

Section Quota.
(* quotactl(QCMD(Q_GETQUOTA, kind), device, id): dqb_curspace, None on error *)
Context (quotactl : quota_kind -> str -> Z -> option Z).
Context (debuggable : bool).

(** ** Mounts *)

Definition mount_line (source target : str) (m : mounts) : mounts :=
  if prefixb (lit "/dev/block/") source then
    match quotactl USRQUOTA source 0 with Some _ => <[target := source]> m | None => m end
  else m.

(** [file] is the contents of [/proc/mounts]. *)
Definition InvalidateQuotaMounts (file : option str) (m : mounts) : option (bool * mounts) :=
  match file with
  | None => Some (false, ∅)
  | Some s => m' ← read_mounts mount_line s; Some (true, m')
  end.

(** ** Look-ups *)

(** [uuid.empty() ? nullptr : uuid.c_str()]. *)
Definition uuid_arg (uuid : str) : option str := match uuid with [] => None | _ => Some uuid end.

Definition FindQuotaDeviceForUuid (uuid : str) (m : mounts) : option (str * mounts) :=
  path ← create_data_path debuggable (uuid_arg uuid);
  Some (match m !! path with
        | Some device => (device, m)
        | None => ([], <[path := [] : str]> m)
        end).

Definition IsQuotaSupported (uuid : str) (m : mounts) : option (bool * mounts) :=
  '(device, m') ← FindQuotaDeviceForUuid uuid m;
  Some (match device with [] => false | _ => true end, m').

Definition occupied (kind : quota_kind) (uuid : str) (id : Z) (m : mounts) : option (Z * mounts) :=
  '(device, m') ← FindQuotaDeviceForUuid uuid m;
  Some (match device with
        | [] => -1
        | _ => match quotactl kind device id with Some space => i64 space | None => -1 end
        end, m').

Definition GetOccupiedSpaceForUid (uuid : str) (uid : Z) (m : mounts) : option (Z * mounts) :=
  occupied USRQUOTA uuid uid m.

Definition GetOccupiedSpaceForGid (uuid : str) (gid : Z) (m : mounts) : option (Z * mounts) :=
  occupied GRPQUOTA uuid gid m.

End Quota.

(** ** The mounts file, for the properties *)

Record mount_entry := MountEntry { me_source : str; me_target : str; me_rest : str }.

Definition mount_entry_ok (e : mount_entry) : Prop :=
  space ∉ me_source e /\ space ∉ me_target e /\ newline ∉ me_rest e.

Definition print_mount (e : mount_entry) : str :=
  me_source e ++ space :: me_target e ++ space :: me_rest e ++ [newline].

Definition mounts_equiv (m1 m2 : mounts) : Prop := forall p, default [] (m1 !! p) = default [] (m2 !! p).

(** What the look-ups answer, without the state. *)
Definition device_of (debuggable : bool) (uuid : str) (m : mounts) : option str :=
  path ← create_data_path debuggable (uuid_arg uuid);
  Some (default [] (m !! path)).

Definition space_of (quotactl : quota_kind -> str -> Z -> option Z) (debuggable : bool)
    (kind : quota_kind) (uuid : str) (id : Z) (m : mounts) : option Z :=
  device ← device_of debuggable uuid m;
  Some (match device with
        | [] => -1
        | _ => match quotactl kind device id with Some space => i64 space | None => -1 end
        end).

(** * Lemmas *)

#[export] Instance mounts_equiv_equivalence : Equivalence mounts_equiv.
Proof.
  split; [by intros m p|by intros m1 m2 H p|]. intros m1 m2 m3 H1 H2 p. by rewrite H1, H2.
Qed.

#[export] Instance device_of_proper dbg uuid : Proper (mounts_equiv ==> eq) (device_of dbg uuid).
Proof. intros m1 m2 H. unfold device_of. destruct (create_data_path _ _); simpl; [by rewrite H|done]. Qed.

#[export] Instance space_of_proper q dbg kind uuid id :
  Proper (mounts_equiv ==> eq) (space_of q dbg kind uuid id).
Proof. intros m1 m2 H. unfold space_of. by rewrite H. Qed.

Lemma mounts_equiv_insert_empty (m : mounts) p : m !! p = None -> mounts_equiv (<[p := []]> m) m.
Proof.
  intros Hp q. destruct (decide (p = q)) as [<-|Hne]; [|by rewrite lookup_insert_ne].
  by rewrite lookup_insert_eq, Hp.
Qed.

(** A look-up answers [device_of] and leaves an equivalent map. *)
Lemma FindQuotaDeviceForUuid_spec dbg uuid m :
  match FindQuotaDeviceForUuid dbg uuid m with
  | Some (d, m') => device_of dbg uuid m = Some d /\ mounts_equiv m' m
  | None => device_of dbg uuid m = None
  end.
Proof.
  unfold FindQuotaDeviceForUuid, device_of.
  destruct (create_data_path dbg _) as [path|]; simpl; [|done].
  destruct (m !! path) eqn:E; simpl; [done|]. split; [done|by apply mounts_equiv_insert_empty].
Qed.

Lemma occupied_spec q dbg kind uuid id m :
  match occupied q dbg kind uuid id m with
  | Some (v, m') => space_of q dbg kind uuid id m = Some v /\ mounts_equiv m' m
  | None => space_of q dbg kind uuid id m = None
  end.
Proof.
  unfold occupied, space_of. pose proof (FindQuotaDeviceForUuid_spec dbg uuid m) as H.
  destruct (FindQuotaDeviceForUuid dbg uuid m) as [[d m']|]; simpl.
  - destruct H as [-> H]. done.
  - by rewrite H.
Qed.

Lemma take_until_found c a b : c ∉ a -> take_until c (a ++ c :: b) = (a, Some b).
Proof.
  induction a as [|x a IH]; intros Ha; simpl; [by rewrite ascii_eqb_refl|].
  destruct (Ascii.eqb_spec x c); [set_solver|]. rewrite IH by set_solver. done.
Qed.

Lemma getline_found c a b line :
  c ∉ a -> getline c (Istream (a ++ c :: b) false) line = (a, Istream b false).
Proof. intros H. unfold getline. cbn [eof rest]. by rewrite take_until_found. Qed.

Lemma take_until_length c s w r : take_until c s = (w, Some r) -> (length r < length s)%nat.
Proof.
  revert w. induction s as [|x s IH]; intros w; simpl; [done|].
  destruct (Ascii.eqb x c); [intros [= _ <-]; lia|].
  destruct (take_until c s) as [w' r'] eqn:E. intros [= _ ->]. specialize (IH _ eq_refl). lia.
Qed.

(** What is left to read, with one step for the end of the file. *)
Definition unread (i : istream) : nat := if eof i then 0 else S (length (rest i)).

Lemma getline_unread c i line : (unread (snd (getline c i line)) <= unread i)%nat.
Proof.
  unfold getline, unread. destruct (eof i) eqn:E; [simpl; by rewrite E|].
  destruct (take_until c (rest i)) as [w [r|]] eqn:Et; simpl; [|lia].
  apply take_until_length in Et. lia.
Qed.

Lemma getline_progress c i line : eof i = false -> (unread (snd (getline c i line)) < unread i)%nat.
Proof.
  intros E. unfold getline, unread. rewrite E.
  destruct (take_until c (rest i)) as [w [r|]] eqn:Et; simpl; [|lia].
  apply take_until_length in Et. lia.
Qed.

Section Mounts.
Context (line : str -> str -> mounts -> mounts).

Lemma mounts_step_progress i a b c m :
  eof i = false -> (unread (fst (fst (mounts_step line i a b c m))) < unread i)%nat.
Proof.
  intros E. unfold mounts_step. pose proof (getline_progress space i a E) as H1.
  destruct (getline space i a) as [a' i1]. pose proof (getline_unread space i1 b) as H2.
  destruct (getline space i1 b) as [b' i2]. pose proof (getline_unread newline i2 c) as H3.
  destruct (getline newline i2 c) as [c' i3]. simpl in *. lia.
Qed.

Lemma mounts_loop_total fuel i ls m :
  (unread i < fuel)%nat -> is_Some (mounts_loop line fuel i ls m).
Proof.
  revert i ls m. induction fuel as [|fuel IH]; intros i ls m Hf; [lia|]. cbn [mounts_loop].
  destruct (eof i) eqn:E; [eauto|]. apply IH.
  pose proof (mounts_step_progress i (fst (fst ls)) (snd (fst ls)) (snd ls) m E). lia.
Qed.

Lemma mounts_step_line e s a b c m :
  mount_entry_ok e ->
  mounts_step line (Istream (print_mount e ++ s) false) a b c m =
  (Istream s false, (me_source e, me_target e, me_rest e),
   line (me_source e) (me_target e) m).
Proof.
  intros (Hs & Ht & Hr). unfold mounts_step, print_mount. rewrite <- !app_assoc. cbn [app].
  rewrite getline_found by done. rewrite <- app_assoc. cbn [app].
  rewrite getline_found by done. rewrite <- app_assoc. cbn [app].
  by rewrite getline_found by done.
Qed.

(** The target that the variable holds at the end. *)
Definition last_target (es : list mount_entry) (target : str) : str := foldl (fun _ e => me_target e) target es.

(** The end of the file is one more line: its source is empty and its target
    that of the line before. *)
Lemma mounts_loop_lines fuel es ls m :
  Forall mount_entry_ok es -> (length es + 2 <= fuel)%nat ->
  mounts_loop line fuel (Istream (concat (map print_mount es)) false) ls m =
  Some (line [] (last_target es (snd (fst ls))) (foldl (fun m e => line (me_source e) (me_target e) m) m es)).
Proof.
  intros H. revert fuel ls m. induction H as [|e es He Hes IH]; intros fuel ls m Hf.
  - destruct fuel as [|[|fuel]]; simpl in Hf; [lia..|]. reflexivity.
  - destruct fuel as [|fuel]; simpl in Hf; [lia|]. cbn [mounts_loop eof map concat foldl last_target].
    rewrite mounts_step_line by done. cbn [fst snd]. rewrite IH by lia. reflexivity.
Qed.

Lemma read_mounts_total s : is_Some (read_mounts line s).
Proof. apply mounts_loop_total. unfold unread. simpl. lia. Qed.

Lemma read_mounts_lines es : Forall mount_entry_ok es ->
  read_mounts line (concat (map print_mount es)) =
  Some (line [] (last_target es []) (foldl (fun m e => line (me_source e) (me_target e) m) ∅ es)).
Proof.
  intros H. unfold read_mounts. apply mounts_loop_lines; [done|].
  enough (length es <= length (concat (map print_mount es)))%nat by lia.
  clear H. induction es as [|e es IH]; simpl; [lia|]. unfold print_mount at 1. len. lia.
Qed.

End Mounts.

(** * Properties *)

(** Reading [/proc/mounts] returns for every contents, and on a list of
    mounts it leaves the map with the last block device of each target that
    supports user quotas, whatever the map held before. *)
Theorem quota_mounts_parsed quotactl file es m :
  (is_Some (InvalidateQuotaMounts quotactl file m)) /\
  (Forall mount_entry_ok es ->
   InvalidateQuotaMounts quotactl (Some (concat (map print_mount es))) m =
   Some (true, foldl (fun m e => mount_line quotactl (me_source e) (me_target e) m) ∅ es)).
Proof.
  split.
  - destruct file as [s|]; cbn [InvalidateQuotaMounts]; [|eauto].
    destruct (read_mounts_total (mount_line quotactl) s) as [m' ->]. cbn. eauto.
  - intros H. cbn [InvalidateQuotaMounts]. by rewrite read_mounts_lines.
Qed.

(** * Witnesses *)

Definition example_mounts : list mount_entry :=
  [MountEntry (lit "tmpfs") (lit "/dev") (lit "tmpfs rw 0 0");
   MountEntry (lit "/dev/block/dm-0") (lit "/data") (lit "ext4 rw 0 0")].

Lemma quota_mounts_parsed_witness :
  InvalidateQuotaMounts (fun _ _ _ => Some 1) (Some (concat (map print_mount example_mounts))) ∅ =
  Some (true, <[lit "/data" := lit "/dev/block/dm-0"]> ∅).
Proof.
  apply (quota_mounts_parsed (fun _ _ _ => Some 1) None example_mounts ∅).
  repeat constructor; cbn; apply (bool_decide_eq_true_1 _); reflexivity.
Defined.
