(* ===== verification/Cache.v ===== *)
(** The cache trackers of [installd]: [CacheItem.cpp], [CacheTracker.cpp].

    The items that a tracker loads live in a heap, a list, and the pointers
    between them ([mParent], [fts_pointer], the vector [items]) are positions
    in it. The state of the traversal has the heap and the map from [FTSENT]s
    to items. [loadItemsFrom] reads the same cursor in two nested loops: the
    field [collecting] says that the inner one reads, for which item. *)

From S2P Require Import Prelude Platform Fts InstalldPaths InstalldFs Quota.

Open Scope Z_scope.

Record item := Item {
  level : Z;
  directory : bool;
  group : bool;
  tombstone : bool;
  isize : Z;
  modified : Z;
  mParent : option nat;
  mName : str;
}.

Definition set_flags (g t : bool) (i : item) : item :=
  Item (level i) (directory i) g t (isize i) (modified i) (mParent i) (mName i).
Definition set_size (s : Z) (i : item) : item :=
  Item (level i) (directory i) (group i) (tombstone i) s (modified i) (mParent i) (mName i).
Definition set_modified (m : Z) (i : item) : item :=
  Item (level i) (directory i) (group i) (tombstone i) (isize i) m (mParent i) (mName i).

Definition kXattrInodeCache : str := lit "user.inode_cache".
Definition kXattrInodeCodeCache : str := lit "user.inode_code_cache".
Definition kXattrCacheGroup : str := lit "user.cache_group".
Definition kXattrCacheTombstone : str := lit "user.cache_tombstone".

(** What the calls see of the file system at one moment. *)
Record fsview := FsView {
  fs_tree : str -> option ftree;
  fs_xattr : str -> str -> bool;
  fs_inodes : xattrs;
  fs_opendir : str -> option (list dirent);
}.

(** * CacheItem *)

Abbreviation heap := (list item).

(** [buildPath] follows the parents; [fuel] bounds their number. *)
Fixpoint buildPath_aux (fuel : nat) (h : heap) (res : str) (parent : option nat) : option str :=
  match fuel, parent with
  | _, None => Some res
  | O, Some _ => None
  | S fuel', Some k =>
      match h !! k with
      | Some it => buildPath_aux fuel' h (mName it ++ res) (mParent it)
      | None => None
      end
  end.

Definition buildPath (h : heap) (it : item) : option str :=
  buildPath_aux (length h) h (mName it) (mParent it).

(** ** purge *)

Inductive purge_op := Truncate (path : str) | Unlink (path : str) | Rmdir (path : str).

Record pstate := PState {
  res : Z;
  ops : list purge_op;
  fts_number : gmap (list nat) bool;
}.

Section Purge.
Context (v : fsview).
(* the call succeeds *)
Context (op_ok : purge_op -> bool).

Definition do_op (o : purge_op) (st : pstate) : pstate :=
  PState (if op_ok o then res st else -1) (ops st ++ [o]) (fts_number st).

Definition number_of (e : option FTSENT) (st : pstate) : bool :=
  match e with Some e => default false (fts_number st !! fts_id e) | None => false end.

Definition purge_body (tomb : bool) (p : FTSENT) (st : pstate) : pstate * bool :=
  (match fts_info p with
   | FTS_D =>
       let n := if fts_level p =? 0 then tomb
                else number_of (fts_parent p) st || fs_xattr v (fts_path p) kXattrCacheTombstone in
       PState (res st) (ops st) (<[fts_id p := n]> (fts_number st))
   | FTS_F =>
       if number_of (fts_parent p) st then do_op (Truncate (fts_path p)) st
       else do_op (Unlink (fts_path p)) st
   | FTS_DEFAULT | FTS_SL | FTS_SLNONE => do_op (Unlink (fts_path p)) st
   | FTS_DP => do_op (Rmdir (fts_path p)) st
   | _ => st
   end, false).

(** The result and the calls made; the path is [buildPath()]. *)
Definition purge (it : item) (path : str) : option (Z * list purge_op) :=
  if directory it then
    match fs_tree v path with
    | None => Some (-1, [])
    | Some t =>
        st ← fts_run (purge_body (tombstone it)) (fts_roots 0 [(path, t)]) (PState 0 [] ∅);
        Some (res st, ops st)
    end
  else
    let o := if tombstone it then Truncate path else Unlink path in
    Some (if op_ok o then 0 else -1, [o]).

End Purge.

(** The calls a hierarchy needs: files are emptied in a tombstone directory
    and removed in the others, directories are removed after their contents. *)
Fixpoint purge_plan (v : fsview) (tomb : bool) (path : str) (t : ftree) : list purge_op :=
  match t with
  | Leaf FTS_F _ _ => [if tomb then Truncate path else Unlink path]
  | Leaf (FTS_DEFAULT | FTS_SL | FTS_SLNONE) _ _ => [Unlink path]
  | Leaf FTS_DP _ _ => [Rmdir path]
  | Leaf _ _ _ => []
  | Dir _ _ rd ch =>
      if rd then
        (fix go l := match l with
                     | [] => []
                     | c :: l' =>
                         let cpath := child_path path (ftree_name c) in
                         let ctomb := match c with
                                      | Dir _ _ _ _ => tomb || fs_xattr v cpath kXattrCacheTombstone
                                      | Leaf _ _ _ => tomb
                                      end in
                         purge_plan v ctomb cpath c ++ go l'
                     end) ch ++ [Rmdir path]
      else []
  end.

(** * Loading *)

Inductive load_error := CheckFailed | NullItem.

Record lstate := LState {
  lheap : heap;
  fts_pointer : gmap (list nat) nat;
  collecting : option nat;
  failed : option load_error;
}.

Definition pointer_of (e : option FTSENT) (st : lstate) : option nat :=
  match e with Some e => fts_pointer st !! fts_id e | None => None end.

Definition on_heap (f : heap -> heap) (st : lstate) : lstate :=
  LState (f (lheap st)) (fts_pointer st) (collecting st) (failed st).

(** The constructor [CacheItem(p)], with the directory entry's structure. *)
Definition CacheItem (p : FTSENT) (st : lstate) : item :=
  let parent := pointer_of (fts_parent p) st in
  let pitem := k ← parent; lheap st !! k in
  Item (fts_level p) (bool_decide (st_type (fts_statp p) = S_IFDIR))
       (match pitem with Some q => group q | None => false end)
       (match pitem with Some q => tombstone q | None => false end)
       (st_blocks (fts_statp p) * 512) (st_mtime (fts_statp p)) parent
       (match parent with Some _ => slash :: fts_name p | None => fts_path p end).

Section Load.
Context (v : fsview).

(** The first switch: a tracking node. *)
Definition track (p : FTSENT) (st : lstate) : lstate :=
  if measured (fts_info p) then
    LState (lheap st ++ [CacheItem p st]) (<[fts_id p := length (lheap st)]> (fts_pointer st))
           (collecting st) (failed st)
  else st.

Definition time_bubbles (i : ftsinfo) : bool :=
  match i with FTS_DP | FTS_DEFAULT | FTS_F | FTS_SL | FTS_SLNONE => true | _ => false end.

(** The last switch: the parent is as recent as the item. *)
Definition bubble (p : FTSENT) (st : lstate) : lstate :=
  if time_bubbles (fts_info p) then
    match pointer_of (fts_parent p) st with
    | None => st
    | Some parent =>
        match k ← pointer_of (Some p) st; lheap st !! k with
        | None => LState (lheap st) (fts_pointer st) (collecting st) (Some NullItem)
        | Some it => on_heap (alter (fun q => set_modified (Z.max (modified q) (modified it)) q) parent) st
        end
    end
  else st.

(** The second switch, for [FTS_D]: the flags, and whether the inner loop starts. *)
Definition enter_dir (p : FTSENT) (st : lstate) : lstate :=
  match fts_pointer st !! fts_id p with
  | None => st
  | Some k =>
      match lheap st !! k with
      | None => st
      | Some it =>
          let g := group it || fs_xattr v (fts_path p) kXattrCacheGroup in
          let t := tombstone it || fs_xattr v (fts_path p) kXattrCacheTombstone in
          LState (alter (set_flags g t) k (lheap st)) (fts_pointer st)
                 (if g then Some k else None) (failed st)
      end
  end.

(** The inner loop's body for the group [k]. *)
Definition collect (k : nat) (p : FTSENT) (st : lstate) : lstate :=
  match lheap st !! k with
  | None => st
  | Some it =>
      if bool_decide (fts_info p = FTS_DP) && (fts_level p =? level it) then
        bubble p (LState (lheap st) (fts_pointer st) None (failed st))
      else if measured (fts_info p) then
        on_heap (alter (fun q => set_modified (Z.max (modified q) (st_mtime (fts_statp p)))
                                   (set_size (isize q + st_blocks (fts_statp p) * 512) q)) k) st
      else st
  end.

Definition load_body (p : FTSENT) (st : lstate) : lstate * bool :=
  (match failed st with
   | Some _ => st
   | None =>
       match collecting st with
       | Some k => collect k p st
       | None =>
           if fts_level p =? 0 then st
           else if bool_decide (fts_info p = FTS_D) then enter_dir p (track p st)
           else bubble p (track p st)
       end
   end, false).

(** The heap after the items of [path], or the failure. A cursor that ends in
    the inner loop fails the [CHECK]. *)
Definition loadItemsFrom (path : str) (h : heap) : option (heap + load_error) :=
  match fs_tree v path with
  | None => Some (inl h)
  | Some t =>
      st ← fts_run load_body (fts_roots 0 [(path, t)]) (LState h ∅ None None);
      Some (match failed st, collecting st with
            | Some e, _ => inr e
            | None, Some _ => inr CheckFailed
            | None, None => inl (lheap st)
            end)
  end.

(** The data paths, each with its two cache directories. *)
Fixpoint load_paths (paths : list str) (h : heap) : option (heap + load_error) :=
  match paths with
  | [] => Some (inl h)
  | p :: paths' =>
      r ← loadItemsFrom p h;
      match r with inr e => Some (inr e) | inl h' => load_paths paths' h' end
  end.

Definition cache_paths (dataPaths : list str) : list str :=
  concat (map (fun path =>
    [read_path_inode (fs_opendir v) (fs_inodes v) path (lit "cache") kXattrInodeCache;
     read_path_inode (fs_opendir v) (fs_inodes v) path (lit "code_cache") kXattrInodeCodeCache])
    dataPaths).

End Load.

(** The comparator of [loadItems]. *)
Definition cmp (left right : item) : bool :=
  if negb (modified left =? modified right) then modified right <? modified left
  else if negb (level left =? level right) then level left <? level right
  else directory left.

(** * CacheTracker *)

Record CacheTracker := Tracker {
  cacheUsed : Z;
  cacheQuota : Z;
  mUserId : Z;
  mAppId : Z;
  mItemsLoaded : bool;
  mUuid : str;
  mDataPaths : list str;
  theap : heap;
  items : list nat;
}.

Definition new_tracker (userId appId : Z) (uuid : str) : CacheTracker :=
  Tracker 0 0 userId appId false uuid [] [] [].

Definition set_used (u : Z) (t : CacheTracker) : CacheTracker :=
  Tracker u (cacheQuota t) (mUserId t) (mAppId t) (mItemsLoaded t) (mUuid t) (mDataPaths t) (theap t) (items t).
Definition set_quota (q : Z) (t : CacheTracker) : CacheTracker :=
  Tracker (cacheUsed t) q (mUserId t) (mAppId t) (mItemsLoaded t) (mUuid t) (mDataPaths t) (theap t) (items t).
Definition set_items (l : bool) (h : heap) (i : list nat) (t : CacheTracker) : CacheTracker :=
  Tracker (cacheUsed t) (cacheQuota t) (mUserId t) (mAppId t) l (mUuid t) (mDataPaths t) h i.
Definition addDataPath (p : str) (t : CacheTracker) : CacheTracker :=
  Tracker (cacheUsed t) (cacheQuota t) (mUserId t) (mAppId t) (mItemsLoaded t) (mUuid t)
          (mDataPaths t ++ [p]) (theap t) (items t).

Definition getCacheRatio (t : CacheTracker) : Z :=
  if cacheQuota t =? 0 then 0 else i32 (Z.quot (i64 (cacheUsed t * 10000)) (cacheQuota t)).

Section Tracker.
Context {aid : AidRanges} {mu : Multiuser}.
Context (quotactl : quota_kind -> str -> Z -> option Z) (debuggable : bool).
(* std::stable_sort of the items with the comparator *)
Context (stable_sort : (item -> item -> bool) -> list (nat * item) -> list (nat * item)).

(** [true] is a complete answer; the mounts are the state of the look-ups. *)
Definition loadQuotaStats (t : CacheTracker) (m : mounts) : option (bool * CacheTracker * mounts) :=
  let cacheGid := i32 (multiuser_get_cache_gid (mUserId t) (mAppId t)) in
  let extCacheGid := i32 (multiuser_get_ext_cache_gid (mUserId t) (mAppId t)) in
  '(supported, m) ← IsQuotaSupported debuggable (mUuid t) m;
  if supported && negb (cacheGid =? -1) && negb (extCacheGid =? -1) then
    '(sp, m) ← GetOccupiedSpaceForGid quotactl debuggable (mUuid t) cacheGid m;
    if negb (sp =? -1) then
      let t := set_used (i64 (cacheUsed t + sp)) t in
      '(sp2, m) ← GetOccupiedSpaceForGid quotactl debuggable (mUuid t) extCacheGid m;
      if negb (sp2 =? -1) then Some (true, set_used (i64 (cacheUsed t + sp2)) t, m)
      else Some (false, t, m)
    else Some (false, t, m)
  else Some (false, t, m).

Fixpoint sum_trees (v : fsview) (paths : list str) (used : Z) : option Z :=
  match paths with
  | [] => Some used
  | p :: paths' =>
      '(_, used) ← calculate_tree_size (fs_tree v) p used (-1) (-1) false;
      sum_trees v paths' used
  end.

Definition loadStats (v : fsview) (t : CacheTracker) (m : mounts) : option (CacheTracker * mounts) :=
  '(done, t, m) ← loadQuotaStats (set_used 0 t) m;
  if (done : bool) then Some (t, m)
  else used ← sum_trees v (cache_paths v (mDataPaths t)) 0; Some (set_used used t, m).

Definition loadItems (v : fsview) (t : CacheTracker) : option (CacheTracker + load_error) :=
  r ← load_paths v (cache_paths v (mDataPaths t)) [];
  Some (match r with
        | inl h => inl (set_items (mItemsLoaded t) h (map fst (stable_sort cmp (imap pair h))) t)
        | inr e => inr e
        end).

Definition ensureItems (v : fsview) (t : CacheTracker) : option (CacheTracker + load_error) :=
  if mItemsLoaded t then Some (inl t)
  else
    r ← loadItems v t;
    Some (match r with
          | inl t' => inl (set_items true (theap t') (items t') t')
          | inr e => inr e
          end).

End Tracker.

(** * Reference definitions *)

(** The modification times of the objects of a hierarchy. *)
Fixpoint times (t : ftree) : list Z :=
  match t with
  | Leaf info _ st => if measured info then [st_mtime st] else []
  | Dir _ st _ ch => st_mtime st :: concat (map times ch)
  end.

Definition latest (m : Z) (l : list Z) : Z := foldr Z.max m l.

(** Every object's blocks, groups and applications included. *)
Fixpoint blocks (t : ftree) : Z :=
  match t with
  | Leaf info _ st => if measured info then st_blocks st * 512 else 0
  | Dir _ st _ ch => st_blocks st * 512 + foldr Z.add 0 (map blocks ch)
  end.

(** Every directory can be read. *)
Fixpoint readable (t : ftree) : bool :=
  match t with
  | Leaf info _ _ => negb (bool_decide (info = FTS_D) || bool_decide (info = FTS_DP))
  | Dir _ _ rd ch => rd && forallb readable ch
  end.

(** The items of a hierarchy below a parent item, in the order of the visit:
    one for a group with all it contains, one for every object otherwise. *)
Fixpoint tree_items (v : fsview) (parent : option (nat * bool)) (lvl : Z) (path : str) (base : nat)
    (t : ftree) : list item :=
  let name n := match parent with Some _ => slash :: n | None => path end in
  let ptomb := match parent with Some (_, tb) => tb | None => false end in
  match t with
  | Leaf info n st =>
      if measured info then
        [Item lvl (bool_decide (st_type st = S_IFDIR)) false ptomb (st_blocks st * 512) (st_mtime st)
              (fst <$> parent) (name n)]
      else []
  | Dir n st rd ch =>
      let tomb := ptomb || fs_xattr v path kXattrCacheTombstone in
      let g := fs_xattr v path kXattrCacheGroup in
      Item lvl (bool_decide (st_type st = S_IFDIR)) g tomb
           (if g then blocks t else st_blocks st * 512) (latest (st_mtime st) (concat (map times ch)))
           (fst <$> parent) (name n) ::
      if g then []
      else (fix go b l :=
              match l with
              | [] => []
              | c :: l' =>
                  let its := tree_items v (Some (base, tomb)) (lvl + 1) (child_path path (ftree_name c)) b c in
                  its ++ go (b + length its)%nat l'
              end) (S base) ch
  end.

(** The items of the children of a directory. *)
Fixpoint forest_items (v : fsview) (parent : option (nat * bool)) (lvl : Z) (path : str) (base : nat)
    (l : list ftree) : list item :=
  match l with
  | [] => []
  | c :: l' =>
      let its := tree_items v parent lvl (child_path path (ftree_name c)) base c in
      its ++ forest_items v parent lvl path (base + length its) l'
  end.

(** * Helper lemmas *)

Lemma latest_max m x l : latest (Z.max m x) l = Z.max x (latest m l).
Proof. induction l as [|y l IH]; simpl; [lia|]. unfold latest in *. lia. Qed.

Lemma latest_app m a b : latest m (a ++ b) = latest (latest m a) b.
Proof.
  induction a as [|x a IH]; simpl; [done|]. fold (latest m (a ++ b)) (latest m a).
  by rewrite IH, (Z.max_comm x (latest m a)), latest_max.
Qed.

Lemma latest_cons m x l : latest m (x :: l) = latest (Z.max m x) l.
Proof. by rewrite latest_max. Qed.

Lemma latest_latest m x l : latest m (x :: l) = Z.max m (latest x l).
Proof. by rewrite latest_cons, (Z.max_comm m x), latest_max. Qed.

Lemma latest_ge m l : m <= latest m l.
Proof. induction l as [|x l IH]; simpl; [lia|]. fold (latest m l). lia. Qed.

Lemma alter_at_end {A} (f : A -> A) (l : list A) (x : A) (r : list A) :
  alter f (length l) (l ++ x :: r) = l ++ f x :: r.
Proof. rewrite alter_app_r_alt by lia. by rewrite Nat.sub_diag. Qed.

Lemma lookup_at_end {A} (l : list A) (x : A) (r : list A) : (l ++ x :: r) !! length l = Some x.
Proof. by rewrite lookup_app_r, Nat.sub_diag by lia. Qed.

Section LoadLemmas.
Context (v : fsview).
Abbreviation body := (load_body v).

(** ** The inner loop *)

Definition absorb (tm : list Z) (b : Z) (q : item) : item :=
  set_modified (latest (modified q) tm) (set_size (isize q + b) q).

Definition collecting_at (k : nat) (lvl : Z) (st : lstate) : Prop :=
  collecting st = Some k /\ failed st = None /\
  exists it, lheap st !! k = Some it /\ level it < lvl.

Lemma absorb_absorb t1 b1 t2 b2 k (h : heap) :
  alter (absorb t2 b2) k (alter (absorb t1 b1) k h) = alter (absorb (t1 ++ t2) (b1 + b2)) k h.
Proof.
  rewrite list_alter_alter_eq. apply list_alter_ext; [|done]. intros q _.
  unfold absorb, set_modified, set_size. cbn. rewrite latest_app. f_equal. lia.
Qed.

Lemma collecting_absorb k lvl tm b st :
  collecting_at k lvl st -> collecting_at k lvl (on_heap (alter (absorb tm b) k) st).
Proof.
  intros (Hc & Hf & it & Hk & Hl). split_and!; [done..|]. exists (absorb tm b it). split; [|done].
  cbn. by rewrite list_lookup_alter_eq, Hk.
Qed.

(** One object below the group. *)
Lemma collect_step k lvl p st :
  collecting_at k lvl st -> fts_level p = lvl ->
  fst (body p st) =
  if measured (fts_info p) then
    on_heap (alter (absorb [st_mtime (fts_statp p)] (st_blocks (fts_statp p) * 512)) k) st
  else st.
Proof.
  intros (Hc & Hf & it & Hk & Hl) Hp. unfold load_body. cbn [fst]. rewrite Hf, Hc.
  unfold collect. rewrite Hk. rewrite (proj2 (Z.eqb_neq _ _)), andb_false_r by lia.
  destruct (measured _); [|done]. unfold on_heap. f_equal. apply list_alter_ext; [|done].
  intros q _. unfold absorb, latest. cbn. by rewrite Z.max_comm.
Qed.

Lemma collect_step_noskip p st : snd (body p st) = false.
Proof. done. Qed.

Lemma on_heap_id k st : on_heap (alter (absorb [] 0) k) st = st.
Proof.
  destruct st as [h m c f]. unfold on_heap. cbn. f_equal. apply list_alter_id. intros [].
  unfold absorb, set_modified, set_size, latest. cbn. by rewrite Z.add_0_r.
Qed.

Lemma on_heap_absorb t1 b1 t2 b2 k st :
  on_heap (alter (absorb t2 b2) k) (on_heap (alter (absorb t1 b1) k) st) =
  on_heap (alter (absorb (t1 ++ t2) (b1 + b2)) k) st.
Proof. unfold on_heap. cbn. by rewrite absorb_absorb. Qed.

Lemma collect_forest k e i ch lvl st :
  Forall (fun t => forall parent lvl path id st, readable t = true -> collecting_at k lvl st ->
            tree_fold body parent lvl path id t st = on_heap (alter (absorb (times t) (blocks t)) k) st) ch ->
  forallb readable ch = true -> fts_level e + 1 = lvl -> collecting_at k lvl st ->
  forest_fold body e i ch st =
  on_heap (alter (absorb (concat (map times ch)) (foldr Z.add 0 (map blocks ch))) k) st.
Proof.
  intros H. revert i st. induction H as [|c ch Hc Hch IH]; intros i st Hr Hl Hk; simpl.
  - by rewrite on_heap_id.
  - simpl in Hr. apply andb_true_iff in Hr as [Hr1 Hr2]. rewrite Hc by (done || congruence).
    rewrite IH by (done || by apply collecting_absorb). by rewrite on_heap_absorb.
Qed.

Lemma collect_tree k t parent lvl path id st :
  readable t = true -> collecting_at k lvl st ->
  tree_fold body parent lvl path id t st = on_heap (alter (absorb (times t) (blocks t)) k) st.
Proof.
  revert parent lvl path id st.
  induction t as [info n s|n s rd ch IH] using ftree_ind'; intros parent lvl path id st Hr Hk.
  - cbn [tree_fold times blocks]. unfold leaf_step. rewrite (collect_step k lvl) by done.
    cbn [fts_info fts_statp]. destruct (measured info); [done|]. by rewrite on_heap_id.
  - cbn [readable] in Hr. apply andb_true_iff in Hr as [-> Hr]. rewrite tree_fold_Dir. cbv zeta.
    match goal with |- context [body ?p st] => pose proof (collect_step k lvl p st Hk eq_refl) as E;
      pose proof (collect_step_noskip p st) as E2; destruct (body p st) as [st1 sk] end.
    cbn [fst snd fts_info fts_statp measured] in E, E2. subst st1 sk. cbn [todo_fold].
    unfold leaf_step. assert (Hk1 : collecting_at k lvl (on_heap (alter (absorb [st_mtime s] (st_blocks s * 512)) k) st))
      by by apply collecting_absorb.
    assert (Hk2 : collecting_at k (lvl + 1) (on_heap (alter (absorb [st_mtime s] (st_blocks s * 512)) k) st)).
    { destruct Hk1 as (? & ? & it & ? & ?). split_and!; [done..|]. exists it. split; [done|lia]. }
    rewrite (collect_forest k _ _ _ (lvl + 1)) by done. rewrite on_heap_absorb.
    rewrite (collect_step k lvl) by (done || by apply collecting_absorb). done.
Qed.

(** ** The outer loop *)

(** What a subtree does to its parent item. *)
Definition bump (tm : list Z) (pp : option nat) (h : heap) : heap :=
  match pp with
  | Some k => alter (fun q => set_modified (latest (modified q) tm) q) k h
  | None => h
  end.

(** The item of the parent directory: its position and its tombstone flag. *)
Definition parent_of (e : FTSENT) (st : lstate) : option (nat * bool) :=
  k ← fts_pointer st !! fts_id e; it ← lheap st !! k; Some (k, tombstone it).

(** The state in which the outer loop visits a child of [e]: the parent's
    pointer leads to an item that is not a group. *)
Definition outer (e : FTSENT) (pp : option nat) (st : lstate) : Prop :=
  collecting st = None /\ failed st = None /\ fts_pointer st !! fts_id e = pp /\
  forall k, pp = Some k -> exists it, lheap st !! k = Some it /\ group it = false.

(** The outcome of a visit. *)
Definition visited (pp : option nat) (depth : nat) (tm : list Z) (new : list item) (st st' : lstate) : Prop :=
  lheap st' = bump tm pp (lheap st) ++ new /\ collecting st' = None /\ failed st' = None /\
  forall j, (length j < depth)%nat -> fts_pointer st' !! j = fts_pointer st !! j.

Lemma bump_nil pp h : bump [] pp h = h.
Proof. destruct pp; simpl; [|done]. apply list_alter_id. by intros []. Qed.

Lemma bump_app t1 t2 pp h : bump t2 pp (bump t1 pp h) = bump (t1 ++ t2) pp h.
Proof.
  destruct pp; simpl; [|done]. rewrite list_alter_alter_eq. apply list_alter_ext; [|done].
  intros q _. unfold set_modified. cbn. by rewrite latest_app.
Qed.

Lemma bump_length tm pp h : length (bump tm pp h) = length h.
Proof. destruct pp; simpl; [apply length_alter|done]. Qed.

Lemma bump_over tm pp h r : (forall k, pp = Some k -> (k < length h)%nat) -> bump tm pp (h ++ r) = bump tm pp h ++ r.
Proof. destruct pp; intros H; simpl; [|done]. apply alter_app_l. by apply H. Qed.

Lemma outer_lt e pp st k : outer e pp st -> pp = Some k -> (k < length (lheap st))%nat.
Proof. intros (_ & _ & _ & H) E. destruct (H _ E) as (it & Hi & _). by apply lookup_lt_Some in Hi. Qed.

(** The parent is still there, with the same flags, after a visit. *)
Lemma visited_outer e pp depth tm new st st' :
  outer e pp st -> visited pp depth tm new st st' -> (length (fts_id e) < depth)%nat ->
  outer e pp st' /\ parent_of e st' = parent_of e st.
Proof.
  intros (Hc & Hf & Hp & Hk) (Eh & Ec & Ef & Ep) Hd.
  assert (Hkeep : forall k, pp = Some k -> exists it it', lheap st !! k = Some it /\ lheap st' !! k = Some it' /\
                    group it = false /\ group it' = group it /\ tombstone it' = tombstone it).
  { intros k ->. destruct (Hk k eq_refl) as (it & Hi & Hg).
    exists it, (set_modified (latest (modified it) tm) it). split_and!; try done.
    rewrite Eh, lookup_app_l by (rewrite bump_length; by eapply lookup_lt_Some).
    simpl. by rewrite list_lookup_alter_eq, Hi. }
  split.
  - split_and!; [done..|by rewrite Ep|]. intros k E. destruct (Hkeep k E) as (it & it' & _ & H2 & H3 & H4 & _).
    exists it'. split; [done|congruence].
  - unfold parent_of. rewrite Ep, Hp by done. destruct pp as [k|]; [|done]. simpl.
    destruct (Hkeep k eq_refl) as (it & it' & H1 & H2 & _ & _ & H5). rewrite H1, H2. simpl. by rewrite H5.
Qed.

Lemma load_forest e pp i ch st :
  Forall (fun t => forall e pp lvl path id st, readable t = true -> 1 <= lvl -> outer e pp st ->
            (length (fts_id e) < length id)%nat ->
            visited pp (length id) (times t) (tree_items v (parent_of e st) lvl path (length (lheap st)) t)
              st (tree_fold body (Some e) lvl path id t st)) ch ->
  forallb readable ch = true -> 0 <= fts_level e -> outer e pp st ->
  visited pp (S (length (fts_id e))) (concat (map times ch))
    (forest_items v (parent_of e st) (fts_level e + 1) (fts_path e) (length (lheap st)) ch)
    st (forest_fold body e i ch st).
Proof.
  intros H. revert i st. induction H as [|c ch Hc Hch IH]; intros i st Hr Hl Ho; simpl.
  - destruct Ho as (? & ? & ?). split_and!; [|done..]. by rewrite bump_nil, app_nil_r.
  - simpl in Hr. apply andb_true_iff in Hr as [Hr1 Hr2].
    set (cp := child_path _ _).
    specialize (Hc e pp (fts_level e + 1) cp (i :: fts_id e) st Hr1 ltac:(lia) Ho ltac:(simpl; lia)).
    destruct (visited_outer _ _ _ _ _ _ _ Ho Hc ltac:(simpl; lia)) as [Ho' Hpar].
    specialize (IH (S i) _ Hr2 Hl Ho'). set (st1 := tree_fold _ _ _ _ _ _ _) in *.
    destruct Hc as (Eh & Ec & Ef & Ep), IH as (Eh2 & Ec2 & Ef2 & Ep2).
    split_and!; [|done|done|].
    + rewrite Eh2, Hpar, Eh, length_app, bump_length, bump_over, bump_app, <- app_assoc; [done|].
      intros k E. rewrite bump_length. by eapply outer_lt.
    + intros j Hj. rewrite Ep2 by done. apply Ep. simpl. lia.
Qed.

Lemma forest_items_fix parent lvl path base l :
  (fix go b l := match l with
                 | [] => []
                 | c :: l' =>
                     let its := tree_items v parent lvl (child_path path (ftree_name c)) b c in
                     its ++ go (b + length its)%nat l'
                 end) base l = forest_items v parent lvl path base l.
Proof. revert base. induction l as [|c l IH]; intros base; [done|]. cbn. by rewrite IH. Qed.

(** The node of an object under [e]. *)
Definition node_item (parent : option (nat * bool)) (lvl : Z) (path n : str) (st : stat) : item :=
  Item lvl (bool_decide (st_type st = S_IFDIR)) false
       (match parent with Some (_, tb) => tb | None => false end) (st_blocks st * 512) (st_mtime st)
       (fst <$> parent) (match parent with Some _ => slash :: n | None => path end).

Lemma CacheItem_outer e pp info lvl path n s id st :
  outer e pp st -> CacheItem (Ftsent info lvl path n s id (Some e)) st = node_item (parent_of e st) lvl path n s.
Proof.
  intros (_ & _ & Hp & Hk). unfold CacheItem, node_item, parent_of, pointer_of. cbn [fts_parent]. rewrite Hp.
  destruct pp as [k|]; [|done]. destruct (Hk k eq_refl) as (it & Hi & Hg). cbn. rewrite Hi. cbn. by rewrite Hg.
Qed.

Lemma track_outer e pp info lvl path n s id st :
  outer e pp st -> measured info = true ->
  track (Ftsent info lvl path n s id (Some e)) st =
  LState (lheap st ++ [node_item (parent_of e st) lvl path n s])
         (<[id := length (lheap st)]> (fts_pointer st)) None None.
Proof.
  intros Ho Hm. unfold track. cbn [fts_info fts_id]. rewrite Hm, (CacheItem_outer e pp) by done.
  destruct Ho as (-> & -> & _). done.
Qed.

(** The parent takes the time of the item of [p]. *)
Lemma bubble_item p e pp st own it :
  time_bubbles (fts_info p) = true -> fts_parent p = Some e -> fts_pointer st !! fts_id e = pp ->
  fts_pointer st !! fts_id p = Some own -> lheap st !! own = Some it ->
  bubble p st = on_heap (bump [modified it] pp) st.
Proof.
  intros Ht He Hp Ho Hi. unfold bubble, pointer_of. rewrite Ht, He, Hp. destruct pp as [k|].
  - rewrite Ho. cbn. rewrite Hi. unfold on_heap. f_equal. apply list_alter_ext; [|done].
    intros q _. unfold latest. cbn. by rewrite Z.max_comm.
  - by destruct st.
Qed.

Lemma ids_differ (e : FTSENT) (id : list nat) : (length (fts_id e) < length id)%nat -> id <> fts_id e.
Proof. intros H ->. lia. Qed.

Lemma load_leaf e pp info lvl path n s id st :
  readable (Leaf info n s) = true -> 1 <= lvl -> outer e pp st -> (length (fts_id e) < length id)%nat ->
  visited pp (length id) (times (Leaf info n s))
    (tree_items v (parent_of e st) lvl path (length (lheap st)) (Leaf info n s)) st
    (leaf_step body (Ftsent info lvl path n s id (Some e)) st).
Proof.
  intros Hr Hl Ho Hid. pose proof Ho as (Hc & Hf & Hp & Hk).
  cbn [readable] in Hr. apply negb_true_iff, orb_false_iff in Hr as [HD HP].
  unfold leaf_step, load_body. cbn [fst fts_info fts_level]. rewrite Hf, Hc, HD.
  rewrite (proj2 (Z.eqb_neq _ _)) by lia. cbn [times tree_items].
  destruct (measured info) eqn:Hm.
  - rewrite (track_outer e pp) by done. set (it := node_item _ _ _ _ _).
    rewrite (bubble_item _ e pp _ (length (lheap st)) it).
    + split_and!; [|done|done|].
      * cbn [lheap on_heap]. rewrite bump_over; [done|]. intros k E. by eapply outer_lt.
      * intros j Hj. cbn. rewrite lookup_insert_ne; [done|]. intros <-. lia.
    + cbn. by destruct info.
    + done.
    + cbn. rewrite lookup_insert_ne; [done|]. by apply ids_differ.
    + cbn. by rewrite lookup_insert_eq.
    + cbn. apply lookup_at_end.
  - assert (time_bubbles info = false) as Htb.
    { by destruct info. }
    unfold track, bubble. cbn [fts_info]. rewrite Hm, Htb. split_and!; [|done..].
    by rewrite bump_nil, app_nil_r.
Qed.

(** The item of a directory once its flags are read. *)
Definition dir_item (parent : option (nat * bool)) (lvl : Z) (path n : str) (s : stat) : item :=
  let it := node_item parent lvl path n s in
  set_flags (fs_xattr v path kXattrCacheGroup) (tombstone it || fs_xattr v path kXattrCacheTombstone) it.

(** Entering a directory from the outer loop. *)
Lemma enter_outer e pp lvl path n s id st :
  1 <= lvl -> outer e pp st ->
  body (Ftsent FTS_D lvl path n s id (Some e)) st =
  (LState (lheap st ++ [dir_item (parent_of e st) lvl path n s])
          (<[id := length (lheap st)]> (fts_pointer st))
          (if fs_xattr v path kXattrCacheGroup then Some (length (lheap st)) else None) None, false).
Proof.
  intros Hl Ho. pose proof Ho as (Hc & Hf & _). unfold load_body. cbn [fts_level fts_info].
  rewrite Hf, Hc, (proj2 (Z.eqb_neq _ _)) by lia. rewrite bool_decide_true by done. f_equal.
  rewrite (track_outer e pp) by done. unfold enter_dir. cbn.
  rewrite lookup_insert_eq, lookup_at_end, alter_at_end. done.
Qed.

(** Leaving a directory whose item is the first after the heap [h]. *)
Lemma leave_outer e pp st st1 h r it lvl path n s id :
  1 <= lvl -> (length (fts_id e) < length id)%nat ->
  collecting st1 = None -> failed st1 = None -> lheap st1 = h ++ it :: r ->
  fts_pointer st1 !! id = Some (length h) -> fts_pointer st1 !! fts_id e = pp ->
  (forall k, pp = Some k -> (k < length h)%nat) ->
  (forall j, (length j < length id)%nat -> fts_pointer st1 !! j = fts_pointer st !! j) ->
  let p := Ftsent FTS_DP lvl path n s id (Some e) in
  bubble p st1 = on_heap (bump [modified it] pp) st1 /\
  lheap (on_heap (bump [modified it] pp) st1) = bump [modified it] pp h ++ it :: r.
Proof.
  intros Hl Hid Hc Hf Hh Hown Hp Hlt Hfr p. split.
  - apply (bubble_item _ e pp _ (length h) it); try done. rewrite Hh. apply lookup_at_end.
  - cbn. rewrite Hh. by rewrite bump_over.
Qed.

Lemma latest_times_dir s ch q :
  latest q [latest (st_mtime s) (concat (map times ch))] = latest q (st_mtime s :: concat (map times ch)).
Proof. rewrite (latest_latest q (st_mtime s)). unfold latest at 1. cbn. apply Z.max_comm. Qed.

Lemma bump_dir s ch pp h :
  bump [latest (st_mtime s) (concat (map times ch))] pp h = bump (st_mtime s :: concat (map times ch)) pp h.
Proof.
  destruct pp; [|done]. apply list_alter_ext; [|done]. intros q _. by rewrite latest_times_dir.
Qed.

Lemma load_group e pp lvl path n s id ch st :
  1 <= lvl -> outer e pp st -> (length (fts_id e) < length id)%nat -> forallb readable ch = true ->
  fs_xattr v path kXattrCacheGroup = true ->
  visited pp (length id) (times (Dir n s true ch))
    (tree_items v (parent_of e st) lvl path (length (lheap st)) (Dir n s true ch)) st
    (tree_fold body (Some e) lvl path id (Dir n s true ch) st).
Proof.
  intros Hl Ho Hid Hr Hg. pose proof Ho as (Hc & Hf & Hp & Hk). rewrite tree_fold_Dir. cbv zeta.
  rewrite (enter_outer e pp) by done. rewrite Hg. cbn [todo_fold]. set (d := dir_item _ _ _ _ _).
  set (st1 := LState _ _ _ _).
  assert (Hk1 : collecting_at (length (lheap st)) (lvl + 1) st1).
  { split_and!; [done..|]. exists d. split; [cbn; apply lookup_at_end|cbn; lia]. }
  rewrite (collect_forest (length (lheap st)) _ _ _ (lvl + 1)); [|..|done]; [|by apply Forall_forall; intros; apply collect_tree|done|done].
  set (st2 := on_heap _ st1). set (d2 := absorb (concat (map times ch)) (foldr Z.add 0 (map blocks ch)) d).
  assert (Hh : lheap st2 = lheap st ++ [d2]) by (cbn; by rewrite alter_at_end).
  unfold leaf_step, load_body. cbn [fst]. change (failed st2) with (@None load_error).
  change (collecting st2) with (Some (length (lheap st))). unfold collect. rewrite Hh, lookup_at_end.
  change (level d2) with lvl. change (set_info FTS_DP _) with (Ftsent FTS_DP lvl path n s id (Some e)).
  cbn [fts_info fts_level]. rewrite bool_decide_true, Z.eqb_refl by done.
  cbn [andb]. set (st3 := LState _ _ _ _).
  destruct (leave_outer e pp st st3 (lheap st) [] d2 lvl path n s id) as [-> Eh]; try done.
  - cbn. by rewrite lookup_insert_eq.
  - cbn. rewrite lookup_insert_ne; [done|by apply ids_differ].
  - intros k E. by eapply outer_lt.
  - intros j Hj. cbn. rewrite lookup_insert_ne; [done|]. intros <-. lia.
  - split_and!; [|done|done|].
    + rewrite Eh. change (modified d2) with (latest (st_mtime s) (concat (map times ch))).
      rewrite bump_dir. cbn [times tree_items]. rewrite Hg. do 2 f_equal.
      unfold d2, d, dir_item, absorb, set_flags, set_size, set_modified, node_item. by rewrite Hg.
    + intros j Hj. cbn. rewrite lookup_insert_ne; [done|]. intros <-. lia.
Qed.

Lemma tree_items_open parent lvl path base n s ch :
  fs_xattr v path kXattrCacheGroup = false ->
  tree_items v parent lvl path base (Dir n s true ch) =
  set_modified (latest (st_mtime s) (concat (map times ch))) (dir_item parent lvl path n s) ::
  forest_items v (Some (base, tombstone (dir_item parent lvl path n s))) (lvl + 1) path (S base) ch.
Proof.
  intros Hg. cbn [tree_items]. rewrite forest_items_fix. unfold dir_item, node_item, set_flags, set_modified.
  by rewrite Hg.
Qed.

Lemma load_dir e pp lvl path n s id ch st :
  1 <= lvl -> outer e pp st -> (length (fts_id e) < length id)%nat -> forallb readable ch = true ->
  fs_xattr v path kXattrCacheGroup = false ->
  Forall (fun t => forall e pp lvl path id st, readable t = true -> 1 <= lvl -> outer e pp st ->
            (length (fts_id e) < length id)%nat ->
            visited pp (length id) (times t) (tree_items v (parent_of e st) lvl path (length (lheap st)) t)
              st (tree_fold body (Some e) lvl path id t st)) ch ->
  visited pp (length id) (times (Dir n s true ch))
    (tree_items v (parent_of e st) lvl path (length (lheap st)) (Dir n s true ch)) st
    (tree_fold body (Some e) lvl path id (Dir n s true ch) st).
Proof.
  intros Hl Ho Hid Hr Hg IH. pose proof Ho as (Hc & Hf & Hp & Hk). rewrite tree_fold_Dir. cbv zeta.
  rewrite (enter_outer e pp) by done. rewrite Hg. cbn [todo_fold]. rewrite tree_items_open by done.
  set (d := dir_item _ _ _ _ _). set (st1 := LState _ _ _ _). set (e' := Ftsent FTS_D _ _ _ _ _ _).
  assert (Ho' : outer e' (Some (length (lheap st))) st1).
  { split_and!; [done..|cbn; by rewrite lookup_insert_eq|]. intros k [= <-]. exists d.
    split; [cbn; apply lookup_at_end|done]. }
  pose proof (load_forest e' _ 0 ch st1 IH Hr ltac:(cbn; lia) Ho') as (Eh & Ec & Ef & Ep).
  assert (Hpar : parent_of e' st1 = Some (length (lheap st), tombstone d)).
  { unfold parent_of. cbn. rewrite lookup_insert_eq. cbn. by rewrite lookup_at_end. }
  rewrite Hpar in Eh. set (st2 := forest_fold _ _ _ _ _) in *.
  set (d2 := set_modified (latest (st_mtime s) (concat (map times ch))) d).
  set (new := forest_items _ _ _ _ _ _).
  assert (Hh : lheap st2 = lheap st ++ d2 :: new).
  { rewrite Eh. cbn [bump lheap st1]. rewrite alter_at_end, length_app. cbn [length].
    rewrite Nat.add_1_r, <- app_assoc. done. }
  assert (Hptr : forall j, (length j < length id)%nat -> fts_pointer st2 !! j = fts_pointer st !! j).
  { intros j Hj. rewrite Ep by (cbn; lia). cbn. rewrite lookup_insert_ne; [done|]. intros <-. lia. }
  unfold leaf_step, load_body. cbn [fst]. rewrite Ef, Ec.
  change (set_info FTS_DP e') with (Ftsent FTS_DP lvl path n s id (Some e)).
  cbn [fts_level fts_info]. rewrite (proj2 (Z.eqb_neq _ _)) by lia. rewrite bool_decide_false by done.
  change (track _ st2) with st2.
  destruct (leave_outer e pp st st2 (lheap st) new d2 lvl path n s id) as [-> Eh2]; try done.
  - rewrite Ep by (cbn; lia). cbn. by rewrite lookup_insert_eq.
  - by rewrite Hptr.
  - intros k E. by eapply outer_lt.
  - split_and!; [|done|done|done]. rewrite Eh2.
    change (modified d2) with (latest (st_mtime s) (concat (map times ch))). by rewrite bump_dir.
Qed.

(** A visit from the outer loop adds the reference items of the tree to the
    heap and its latest time to the parent, and nothing else. *)
Lemma load_tree t e pp lvl path id st :
  readable t = true -> 1 <= lvl -> outer e pp st -> (length (fts_id e) < length id)%nat ->
  visited pp (length id) (times t) (tree_items v (parent_of e st) lvl path (length (lheap st)) t)
    st (tree_fold body (Some e) lvl path id t st).
Proof.
  revert e pp lvl path id st.
  induction t as [info n s|n s rd ch IH] using ftree_ind'; intros e pp lvl path id st Hr Hl Ho Hid.
  - by apply load_leaf.
  - cbn [readable] in Hr. apply andb_true_iff in Hr as [-> Hr].
    destruct (fs_xattr v path kXattrCacheGroup) eqn:Hg; [by apply load_group|by apply load_dir].
Qed.

End LoadLemmas.
(** ** Loading a whole tracker *)

Lemma load_root v path n s ch h :
  forallb readable ch = true ->
  fts_run (load_body v) (fts_roots 0 [(path, Dir n s true ch)]) (LState h ∅ None None) =
  Some (forest_fold (load_body v) (Ftsent FTS_D 0 path n s [0%nat] None) 0 ch (LState h ∅ None None)) /\
  let st := forest_fold (load_body v) (Ftsent FTS_D 0 path n s [0%nat] None) 0 ch (LState h ∅ None None) in
  lheap st = h ++ forest_items v None 1 path (length h) ch /\ collecting st = None /\ failed st = None.
Proof.
  intros Hr. set (e := Ftsent FTS_D 0 path n s [0%nat] None). set (st0 := LState h ∅ None None).
  assert (Ho : outer e None st0) by by split_and!.
  assert (HF : Forall (fun t => forall e pp lvl path id st, readable t = true -> 1 <= lvl -> outer e pp st ->
            (length (fts_id e) < length id)%nat ->
            visited pp (length id) (times t) (tree_items v (parent_of e st) lvl path (length (lheap st)) t)
              st (tree_fold (load_body v) (Some e) lvl path id t st)) ch).
  { apply Forall_forall. intros t _ ? ? ? ? ? ?. apply load_tree. }
  pose proof (load_forest v e None 0 ch st0 HF Hr ltac:(cbn; lia) Ho) as (Eh & Ec & Ef & _).
  split; [|by split_and!]. rewrite fts_run_one, tree_fold_Dir. cbv zeta.
  unfold load_body at 1. cbn [failed collecting st0 fts_level]. cbn [Z.eqb]. cbn [todo_fold].
  fold e. fold st0. unfold leaf_step, load_body at 1. rewrite Ef, Ec. done.
Qed.

(** The items a path adds to a heap. *)
Definition path_items (v : fsview) (path : str) (base : nat) : list item :=
  match fs_tree v path with
  | Some (Dir _ _ _ ch) => forest_items v None 1 path base ch
  | _ => []
  end.

Definition path_readable (v : fsview) (path : str) : Prop :=
  match fs_tree v path with Some t => readable t = true | None => True end.

Lemma loadItemsFrom_readable v path h :
  path_readable v path -> loadItemsFrom v path h = Some (inl (h ++ path_items v path (length h))).
Proof.
  unfold path_readable, path_items, loadItemsFrom. destruct (fs_tree v path) as [[info n s|n s rd ch]|]; intros Hr.
  - rewrite fts_run_one. cbn. by rewrite app_nil_r.
  - cbn [readable] in Hr. apply andb_true_iff in Hr as [-> Hr].
    destruct (load_root v path n s ch h Hr) as (-> & Eh & Ec & Ef). cbn. by rewrite Ec, Ef, Eh.
  - by rewrite app_nil_r.
Qed.

(** ** Parents *)

(** Every parent is an earlier item, at a lower level, at least as recent, not
    a group. *)
Definition heap_ok (h : heap) : Prop :=
  forall i it p, h !! i = Some it -> mParent it = Some p ->
    (p < i)%nat /\ exists q, h !! p = Some q /\ level q < level it /\ modified it <= modified q /\ group q = false.

(** The same for the items of a tree under a parent outside them. *)
Definition items_ok (base : nat) (pp : option nat) (lvl : Z) (tm : list Z) (its : list item) : Prop :=
  forall i it, its !! i = Some it ->
    lvl <= level it /\ (forall M, (forall x, x ∈ tm -> x <= M) -> modified it <= M) /\
    (mParent it = pp \/
     exists j q, mParent it = Some (base + j)%nat /\ (j < i)%nat /\ its !! j = Some q /\
       level q < level it /\ modified it <= modified q /\ group q = false).

Lemma items_ok_app b pp lvl tm1 tm2 l1 l2 :
  items_ok b pp lvl tm1 l1 -> items_ok (b + length l1) pp lvl tm2 l2 ->
  items_ok b pp lvl (tm1 ++ tm2) (l1 ++ l2).
Proof.
  intros H1 H2 i it Hi. apply lookup_app_Some in Hi as [Hi|[Hlen Hi]].
  - destruct (H1 _ _ Hi) as (Hl & HM & Hp). split_and!; [done| |].
    + intros M HM'. apply HM. intros x Hx. apply HM', elem_of_app. by left.
    + destruct Hp as [Hp|(j & q & ? & ? & Hj & ?)]; [by left|]. right. exists j, q.
      split_and!; try done; [|by naive_solver..]. by apply lookup_app_l_Some.
  - destruct (H2 _ _ Hi) as (Hl & HM & Hp). split_and!; [done| |].
    + intros M HM'. apply HM. intros x Hx. apply HM', elem_of_app. by right.
    + destruct Hp as [Hp|(j & q & Hpj & ? & Hj & ?)]; [by left|]. right. exists (length l1 + j)%nat, q.
      split_and!; try naive_solver; [rewrite Hpj; f_equal; lia|lia|].
      rewrite lookup_app_r by lia. by replace (length l1 + j - length l1)%nat with j by lia.
Qed.

Lemma forest_items_ok v parent lvl path ch :
  Forall (fun t => forall parent lvl path base,
            items_ok base (fst <$> parent) lvl (times t) (tree_items v parent lvl path base t)) ch ->
  forall base, items_ok base (fst <$> parent) lvl (concat (map times ch)) (forest_items v parent lvl path base ch).
Proof.
  induction 1 as [|c ch Hc Hch IH]; intros base; [done|]. cbn [forest_items map concat].
  apply items_ok_app; [apply Hc|apply IH].
Qed.

Lemma latest_bound m l M : m <= M -> (forall x, x ∈ l -> x <= M) -> latest m l <= M.
Proof.
  intros Hm. induction l as [|x l IH]; intros H; simpl; [done|]. fold (latest m l).
  pose proof (H x ltac:(set_solver)). enough (latest m l <= M) by lia. apply IH. set_solver.
Qed.

Lemma latest_upper m l x : x ∈ l -> x <= latest m l.
Proof.
  induction l as [|y l IH]; intros H; [by apply not_elem_of_nil in H|]. simpl. fold (latest m l).
  apply elem_of_cons in H as [->|H]; [lia|]. specialize (IH H). lia.
Qed.

Lemma tree_items_ok v t parent lvl path base :
  items_ok base (fst <$> parent) lvl (times t) (tree_items v parent lvl path base t).
Proof.
  revert parent lvl path base. induction t as [info n s|n s rd ch IH] using ftree_ind'; intros parent lvl path base.
  - cbn [tree_items times]. destruct (measured info); [|done]. intros i it Hi.
    apply list_lookup_singleton_Some in Hi as [-> <-]. cbn. split_and!; [lia| |by left].
    intros M HM. apply HM. set_solver.
  - cbn [tree_items times]. rewrite forest_items_fix. set (d := Item _ _ _ _ _ _ _ _).
    assert (Hd : forall M, (forall x, x ∈ st_mtime s :: concat (map times ch) -> x <= M) -> modified d <= M).
    { intros M HM. cbn. apply latest_bound; [|intros x Hx]; apply HM; set_solver. }
    intros [|i] it Hi.
    + injection Hi as <-. split_and!; [cbn; lia|done|by left].
    + destruct (fs_xattr v path kXattrCacheGroup) eqn:Hg; [done|]. cbn in Hi.
      destruct (forest_items_ok v (Some (base, tombstone d)) (lvl + 1) path ch IH (S base) _ _ Hi)
        as (Hl & HM & Hp). split_and!; [lia| |].
      * intros M HM'. apply HM. set_solver.
      * right. destruct Hp as [Hp|(j & q & Hpj & Hj & Hq & Hrest)].
        -- exists 0%nat, d. split_and!; [cbn in Hp; rewrite Hp; f_equal; lia|lia|done|cbn; lia| |done].
           apply HM. intros x Hx. cbn. by apply latest_upper.
        -- exists (S j), q. split_and!; [rewrite Hpj; f_equal; lia|lia|done|naive_solver..].
Qed.

Lemma heap_ok_app h lvl tm its :
  heap_ok h -> items_ok (length h) None lvl tm its -> heap_ok (h ++ its).
Proof.
  intros Hh Hi i it p Hl Hp. apply lookup_app_Some in Hl as [Hl|[Hlen Hl]].
  - destruct (Hh _ _ _ Hl Hp) as (? & q & Hq & ?). split; [done|]. exists q. split; [|done].
    by apply lookup_app_l_Some.
  - destruct (Hi _ _ Hl) as (_ & _ & [E|(j & q & E & Hj & Hq & ?)]); [congruence|].
    rewrite E in Hp. injection Hp as <-. split; [lia|]. exists q. split; [|done].
    rewrite lookup_app_r by lia. by replace (length h + j - length h)%nat with j by lia.
Qed.

Lemma path_items_ok v path h : heap_ok h -> heap_ok (h ++ path_items v path (length h)).
Proof.
  intros Hh. unfold path_items. destruct (fs_tree v path) as [[|n s rd ch]|]; rewrite ?app_nil_r; [done| |done].
  eapply heap_ok_app; [done|]. apply (forest_items_ok v None). apply Forall_forall. intros t _ ? ? ? ?.
  apply tree_items_ok.
Qed.

(** The heap of a list of paths. *)
Definition paths_items (v : fsview) (paths : list str) (h : heap) : heap :=
  foldl (fun h p => h ++ path_items v p (length h)) h paths.

Lemma load_paths_readable v paths h :
  Forall (path_readable v) paths -> load_paths v paths h = Some (inl (paths_items v paths h)).
Proof.
  intros H. revert h. induction H as [|p paths Hp Hps IH]; intros h; [done|]. cbn [load_paths].
  rewrite loadItemsFrom_readable by done. cbn. apply IH.
Qed.

Lemma paths_items_ok v paths h : heap_ok h -> heap_ok (paths_items v paths h).
Proof.
  revert h. induction paths as [|p paths IH]; intros h Hh; [done|]. cbn. by apply IH, path_items_ok.
Qed.

(** The path of every item of a well-formed heap is built. *)
Lemma buildPath_aux_total h fuel res p :
  heap_ok h -> (forall k, p = Some k -> (k < fuel)%nat /\ (k < length h)%nat) -> is_Some (buildPath_aux fuel h res p).
Proof.
  intros Hh. revert res p. induction fuel as [|fuel IH]; intros res p Hp.
  - destruct p as [k|]; cbn; [|eauto]. destruct (Hp k eq_refl). lia.
  - destruct p as [k|]; cbn; [|eauto]. destruct (Hp k eq_refl) as [H1 H2].
    destruct (h !! k) as [it|] eqn:E; [|apply lookup_ge_None in E; lia].
    apply IH. intros k' Hk'. destruct (Hh _ _ _ E Hk') as [? _]. lia.
Qed.

Lemma buildPath_total h i it : heap_ok h -> h !! i = Some it -> is_Some (buildPath h it).
Proof.
  intros Hh Hi. apply buildPath_aux_total; [done|]. intros k Hk.
  destruct (Hh _ _ _ Hi Hk) as [? _]. apply lookup_lt_Some in Hi. lia.
Qed.

(** ** The order *)

(** [stable_sort] permutes, and puts no element after one that follows it
    strictly in the comparator's order. *)
Class SortOk (sort : (item -> item -> bool) -> list (nat * item) -> list (nat * item)) : Prop := {
  sort_perm : forall c l, sort c l ≡ₚ l;
  sort_ordered : forall l i j a b, (i < j)%nat -> sort cmp l !! i = Some a -> sort cmp l !! j = Some b ->
    cmp (snd b) (snd a) = true -> cmp (snd a) (snd b) = true;
}.

Lemma cmp_parent_first p c :
  level p < level c -> modified c <= modified p -> cmp p c = true /\ cmp c p = false.
Proof.
  intros Hl Hm. unfold cmp. destruct (Z.eqb_spec (modified p) (modified c)) as [E|E].
  - rewrite (proj2 (Z.eqb_eq (modified c) _)) by lia. cbn [negb].
    rewrite !(proj2 (Z.eqb_neq _ _)) by lia. cbn [negb]. split; [apply Z.ltb_lt|apply Z.ltb_ge]; lia.
  - rewrite (proj2 (Z.eqb_neq (modified c) _)) by lia. cbn [negb]. split; [apply Z.ltb_lt|apply Z.ltb_ge]; lia.
Qed.

(** ** purge *)

Section PurgeLemmas.
Context (v : fsview) (op_ok : purge_op -> bool).
Abbreviation pbody tomb := (purge_body v op_ok tomb).

(** The outcome of calls on a state, the numbers of the directories above the
    ones visited kept. *)
Definition purged (depth : nat) (plan : list purge_op) (st st' : pstate) : Prop :=
  ops st' = ops st ++ plan /\ res st' = (if forallb op_ok plan then res st else -1) /\
  forall j, (length j < depth)%nat -> fts_number st' !! j = fts_number st !! j.

Lemma purged_nil depth st : purged depth [] st st.
Proof. split_and!; [by rewrite app_nil_r|done|done]. Qed.

Lemma purged_op depth o st : purged depth [o] st (do_op op_ok o st).
Proof. split_and!; [done| |done]. cbn. by destruct (op_ok o). Qed.

Lemma purged_trans d1 d2 p1 p2 st1 st2 st3 :
  purged d1 p1 st1 st2 -> purged d2 p2 st2 st3 -> purged (Nat.min d1 d2) (p1 ++ p2) st1 st3.
Proof.
  intros (O1 & R1 & N1) (O2 & R2 & N2). split_and!.
  - by rewrite O2, O1, app_assoc.
  - rewrite R2, R1, forallb_app. by destruct (forallb op_ok p1), (forallb op_ok p2).
  - intros j Hj. rewrite N2, N1; [done|lia..].
Qed.

Lemma purged_le d1 d2 p st st' : (d1 <= d2)%nat -> purged d2 p st st' -> purged d1 p st st'.
Proof. intros Hd (O & R & N). split_and!; [done..|]. intros j Hj. apply N. lia. Qed.

(** The flag with which a child is purged. *)
Definition child_tomb (tomb : bool) (cpath : str) (c : ftree) : bool :=
  match c with Dir _ _ _ _ => tomb || fs_xattr v cpath kXattrCacheTombstone | Leaf _ _ _ => tomb end.

Fixpoint forest_plan (tomb : bool) (path : str) (l : list ftree) : list purge_op :=
  match l with
  | [] => []
  | c :: l' =>
      let cpath := child_path path (ftree_name c) in
      purge_plan v (child_tomb tomb cpath c) cpath c ++ forest_plan tomb path l'
  end.

Lemma purge_plan_Dir tomb path n s ch :
  purge_plan v tomb path (Dir n s true ch) = forest_plan tomb path ch ++ [Rmdir path].
Proof. cbn [purge_plan]. f_equal. induction ch as [|c ch IH]; [done|]. cbn [forest_plan]. by rewrite IH. Qed.

(** The contents of a directory whose number is set, and its removal. *)
Lemma purge_forest root tomb e i ch st :
  Forall (fun t => forall e lvl path id st, 1 <= lvl -> (length (fts_id e) < length id)%nat ->
            purged (length id) (purge_plan v (child_tomb (number_of (Some e) st) path t) path t) st
              (tree_fold (pbody root) (Some e) lvl path id t st)) ch ->
  0 <= fts_level e -> number_of (Some e) st = tomb ->
  purged (S (length (fts_id e))) (forest_plan tomb (fts_path e) ch) st (forest_fold (pbody root) e i ch st).
Proof.
  intros H Hl. revert i st. induction H as [|c ch Hc Hch IH]; intros i st Ht; [apply purged_nil|].
  cbn [forest_fold forest_plan]. set (cp := child_path _ _).
  specialize (Hc e (fts_level e + 1) cp (i :: fts_id e) st ltac:(lia) ltac:(cbn; lia)). rewrite Ht in Hc.
  set (st1 := tree_fold _ _ _ _ _ _ _) in *.
  pose proof Hc as (_ & _ & Hn).
  assert (Ht1 : number_of (Some e) st1 = tomb).
  { rewrite <- Ht. unfold number_of. by rewrite Hn by (cbn; lia). }
  pose proof (purged_trans _ _ _ _ _ _ _ Hc (IH (S i) st1 Ht1)) as Hr.
  eapply purged_le; [|exact Hr]. cbn. lia.
Qed.

Lemma purge_dir root e_parent lvl path n s rd ch id st tomb :
  Forall (fun t => forall e lvl path id st, 1 <= lvl -> (length (fts_id e) < length id)%nat ->
            purged (length id) (purge_plan v (child_tomb (number_of (Some e) st) path t) path t) st
              (tree_fold (pbody root) (Some e) lvl path id t st)) ch ->
  0 <= lvl ->
  (if lvl =? 0 then root else number_of e_parent st || fs_xattr v path kXattrCacheTombstone) = tomb ->
  purged (length id) (purge_plan v tomb path (Dir n s rd ch)) st
    (tree_fold (pbody root) e_parent lvl path id (Dir n s rd ch) st).
Proof.
  intros HF Hl Ht. rewrite tree_fold_Dir. cbv zeta. set (e := Ftsent FTS_D lvl path n s id e_parent).
  unfold purge_body at 1. cbn [fts_info fts_level fts_parent fts_path fts_id e]. rewrite Ht.
  set (st1 := PState _ _ _).
  assert (H1 : purged (length id) [] st st1).
  { split_and!; [cbn; by rewrite app_nil_r|done|]. intros j Hj. cbn. rewrite lookup_insert_ne; [done|].
    intros <-. lia. }
  destruct rd; cbn [todo_fold].
  - rewrite purge_plan_Dir.
    assert (Hn : number_of (Some e) st1 = tomb) by (cbn; by rewrite lookup_insert_eq).
    pose proof (purge_forest root tomb e 0 ch st1 HF ltac:(cbn; lia) Hn) as H2.
    pose proof (purged_trans _ _ _ _ _ _ _ H1 H2) as H3.
    pose proof (purged_trans _ _ _ _ _ _ _ H3 (purged_op (length id) (Rmdir path) _)) as H4.
    eapply purged_le; [|exact H4]. cbn. lia.
  - exact H1.
Qed.

Lemma purge_tree root t e lvl path id st :
  1 <= lvl -> (length (fts_id e) < length id)%nat ->
  purged (length id) (purge_plan v (child_tomb (number_of (Some e) st) path t) path t) st
    (tree_fold (pbody root) (Some e) lvl path id t st).
Proof.
  revert e lvl path id st. induction t as [info n s|n s rd ch IH] using ftree_ind'; intros e lvl path id st Hl Hid.
  - cbn [tree_fold child_tomb]. unfold leaf_step, purge_body. cbn [fst fts_info fts_parent fts_path fts_level fts_id].
    destruct info; cbn [purge_plan]; try apply purged_nil; try apply purged_op.
    + split_and!; [cbn; by rewrite app_nil_r|done|]. intros j Hj. cbn. rewrite lookup_insert_ne; [done|].
      intros <-. lia.
    + destruct (number_of (Some e) st); apply purged_op.
  - apply purge_dir; [exact IH|lia|]. by rewrite (proj2 (Z.eqb_neq _ _)) by lia.
Qed.

End PurgeLemmas.

(** * Properties *)

(** Over hierarchies whose directories can be read, [loadItems] fails no
    check and loads exactly the reference items: one item for every object
    below a cache directory except inside a group, with the blocks of the
    object or of the whole group, and with the latest modification time of
    everything the object contains. *)
Theorem load_items_spec v sort t :
  Forall (path_readable v) (cache_paths v (mDataPaths t)) ->
  loadItems sort v t =
  Some (inl (set_items (mItemsLoaded t) (paths_items v (cache_paths v (mDataPaths t)) [])
               (map fst (sort cmp (imap pair (paths_items v (cache_paths v (mDataPaths t)) [])))) t)).
Proof. intros H. unfold loadItems. rewrite load_paths_readable by done. done. Qed.

(** In the vector of loaded items every parent precedes its children. The
    purge takes items from the back, so a directory is purged after all it
    contains, and the path of an item is built from parents that still exist. *)
Theorem parents_precede_children v sort (Hsort : SortOk sort) t t' i j p c it :
  Forall (path_readable v) (cache_paths v (mDataPaths t)) ->
  loadItems sort v t = Some (inl t') ->
  items t' !! i = Some p -> items t' !! j = Some c -> theap t' !! c = Some it -> mParent it = Some p ->
  (i < j)%nat /\ is_Some (buildPath (theap t') it).
Proof.
  intros Hr Hload Hi Hj Hc Hp. unfold loadItems in Hload. rewrite load_paths_readable in Hload by done.
  injection Hload as <-. cbn [theap items set_items] in *. set (h := paths_items v _ []) in *.
  assert (Hh : heap_ok h) by (apply paths_items_ok; by intros [|] ? ? ?).
  split; [|by eapply buildPath_total].
  destruct (Hh _ _ _ Hc Hp) as (Hlt & q & Hq & Hl & Hm & _).
  assert (Hpair : forall k n, map fst (sort cmp (imap pair h)) !! k = Some n ->
            exists x, sort cmp (imap pair h) !! k = Some (n, x) /\ h !! n = Some x).
  { intros k n Hk. change (map fst) with (fmap (M := list) (@fst nat item)) in Hk.
    apply list_lookup_fmap_Some in Hk as ([n' x] & -> & Hk). exists x. split; [done|].
    apply list_elem_of_lookup_2 in Hk. rewrite (sort_perm cmp (imap pair h)) in Hk.
    apply list_elem_of_lookup in Hk as (m & Hm'). apply list_lookup_imap_Some in Hm' as (y & Hy & [= -> ->]). done. }
  destruct (Hpair _ _ Hi) as (x & Hx & Hxq), (Hpair _ _ Hj) as (y & Hy & Hyc).
  assert (x = q) as -> by congruence. assert (y = it) as -> by congruence.
  destruct (cmp_parent_first q it Hl Hm) as [H1 H2].
  destruct (Nat.lt_trichotomy i j) as [?|[->|Hji]]; [done| |].
  - rewrite Hx in Hy. injection Hy as ->. lia.
  - pose proof (sort_ordered _ j i _ _ Hji Hy Hx H1) as H3. cbn in H3. congruence.
Qed.

(** [purge] of a directory item empties the files below tombstone
    directories, removes the other objects, removes each directory after its
    contents, and nothing else, in the order of the traversal; it reports 0
    exactly when every call succeeded. *)
Theorem purge_spec v op_ok it path n s rd ch :
  directory it = true -> fs_tree v path = Some (Dir n s rd ch) ->
  exists r, purge v op_ok it path = Some (r, purge_plan v (tombstone it) path (Dir n s rd ch)) /\
    r = (if forallb op_ok (purge_plan v (tombstone it) path (Dir n s rd ch)) then 0 else -1).
Proof.
  intros Hd Ht. unfold purge. rewrite Hd, Ht, fts_run_one.
  pose proof (purge_dir v op_ok (tombstone it) None 0 path n s rd ch [0%nat] (PState 0 [] ∅) (tombstone it)) as H.
  destruct H as (Ho & Hr & _); [|lia|done|].
  - apply Forall_forall. intros t _ ? ? ? ? ?. apply purge_tree.
  - cbn [mbind option_bind]. rewrite Ho, Hr. by eexists.
Qed.

(** * Witnesses *)

(** A sort that satisfies [SortOk]: a merge sort on the order without ties. *)
Definition not_after (c : item -> item -> bool) (a b : nat * item) : Prop :=
  c (snd b) (snd a) = true -> c (snd a) (snd b) = true.

#[export] Instance not_after_dec c a b : Decision (not_after c a b).
Proof. unfold not_after. destruct (c (snd b) (snd a)), (c (snd a) (snd b)); (left; congruence) || (right; naive_solver). Defined.

Definition sort_items (c : item -> item -> bool) (l : list (nat * item)) : list (nat * item) :=
  merge_sort (not_after c) l.

Lemma not_after_cmp a b :
  not_after cmp a b <->
  modified (snd b) < modified (snd a) \/
  modified (snd b) = modified (snd a) /\
    (level (snd a) < level (snd b) \/
     level (snd a) = level (snd b) /\ (directory (snd b) = true -> directory (snd a) = true)).
Proof.
  destruct a as [i a], b as [j b]. unfold not_after, cmp. cbn [snd].
  rewrite (Z.eqb_sym (modified b)), (Z.eqb_sym (level b)).
  destruct (Z.eqb_spec (modified a) (modified b)), (Z.eqb_spec (level a) (level b)); cbn [negb];
    rewrite ?Z.ltb_lt; destruct (directory a), (directory b); lia.
Qed.

#[export] Instance sort_items_ok : SortOk sort_items.
Proof.
  split; [intros c l; apply merge_sort_Permutation|].
  assert (Htr : Transitive (not_after cmp)).
  { intros a b c. rewrite !not_after_cmp.
    destruct (directory (snd a)), (directory (snd b)), (directory (snd c)); intuition (lia || congruence). }
  assert (Hto : Total (not_after cmp)).
  { intros a b. rewrite !not_after_cmp. destruct (directory (snd a)), (directory (snd b)); lia. }
  intros l i j a b Hij Ha Hb. change (not_after cmp a b).
  pose proof (StronglySorted_merge_sort (not_after cmp) l) as Hs.
  change (merge_sort (not_after cmp) l) with (sort_items cmp l) in Hs.
  revert i j Hij Ha Hb. induction Hs as [|x l' Hs IH Hx]; intros [|i] [|j] Hij Ha Hb; try done; try lia.
  - injection Ha as ->. rewrite Forall_forall in Hx. apply Hx. by eapply list_elem_of_lookup_2.
  - apply (IH i j); [lia|done..].
Qed.

Definition ex_stat (ty : ftype) (mtime : Z) : stat := Stat 1 ty 420 10001 10001 0 8 mtime.

(** A cache with a file, a group and a file in a directory. *)
Definition ex_cache : ftree :=
  Dir (lit "cache") (ex_stat S_IFDIR 5) true
    [Leaf FTS_F (lit "a") (ex_stat S_IFREG 7);
     Dir (lit "g") (ex_stat S_IFDIR 6) true [Leaf FTS_F (lit "x") (ex_stat S_IFREG 9)];
     Dir (lit "d") (ex_stat S_IFDIR 1) true [Leaf FTS_F (lit "y") (ex_stat S_IFREG 8)]].

Definition ex_view (t : ftree) : fsview :=
  FsView (fun p => if p =s? lit "/d/cache" then Some t else None)
         (fun p a => (p =s? lit "/d/cache/g") && (a =s? kXattrCacheGroup)) ∅ (fun _ => None).

Definition ex_tracker : CacheTracker := addDataPath (lit "/d") (new_tracker 0 10001 []).

Lemma ex_readable : Forall (path_readable (ex_view ex_cache)) (cache_paths (ex_view ex_cache) [lit "/d"]).
Proof. repeat constructor; vm_compute; done. Qed.

Definition ex_loaded : CacheTracker :=
  match loadItems sort_items (ex_view ex_cache) ex_tracker with
  | Some (inl t) => t
  | _ => ex_tracker
  end.

Lemma load_items_spec_witness :
  exists t', loadItems sort_items (ex_view ex_cache) ex_tracker = Some (inl t') /\
    map (fun it => (mName it, isize it, modified it)) (theap t') =
    [(lit "/d/cache/a", 4096, 7); (lit "/d/cache/g", 8192, 9); (lit "/d/cache/d", 4096, 8); (lit "/y", 4096, 8)].
Proof.
  eexists. split; [apply (load_items_spec (ex_view ex_cache) sort_items ex_tracker), ex_readable|].
  vm_compute. reflexivity.
Defined.

Definition ex_item : item := Item 2 false false false 4096 8 (Some 2%nat) (lit "/y").

Lemma parents_precede_children_witness :
  items ex_loaded = [1; 2; 3; 0]%nat /\ (1 < 2)%nat /\
  exists it, theap ex_loaded !! 3%nat = Some it /\ is_Some (buildPath (theap ex_loaded) it).
Proof.
  assert (Hl : loadItems sort_items (ex_view ex_cache) ex_tracker = Some (inl ex_loaded)) by by vm_compute.
  assert (H1 : items ex_loaded !! 1%nat = Some 2%nat) by by vm_compute.
  assert (H2 : items ex_loaded !! 2%nat = Some 3%nat) by by vm_compute.
  assert (Hit : theap ex_loaded !! 3%nat = Some ex_item) by by vm_compute.
  destruct (parents_precede_children (ex_view ex_cache) sort_items sort_items_ok ex_tracker ex_loaded
              1 2 2 3 ex_item ex_readable Hl H1 H2 Hit eq_refl) as [H3 H4].
  split; [by vm_compute|]. split; [exact H3|]. exists ex_item. exact (conj Hit H4).
Defined.

(** The file of the group directory goes with a truncation when the directory
    above is a tombstone. *)
Lemma purge_spec_witness :
  exists r, purge (ex_view ex_cache) (fun o => match o with Rmdir _ => false | _ => true end)
    (Item 0 true false true 0 0 None (lit "/d/cache")) (lit "/d/cache") =
  Some (r, [Truncate (lit "/d/cache/a"); Truncate (lit "/d/cache/g/x"); Rmdir (lit "/d/cache/g");
            Truncate (lit "/d/cache/d/y"); Rmdir (lit "/d/cache/d"); Rmdir (lit "/d/cache")]).
Proof.
  destruct (purge_spec (ex_view ex_cache) (fun o => match o with Rmdir _ => false | _ => true end)
              (Item 0 true false true 0 0 None (lit "/d/cache")) (lit "/d/cache") (lit "cache")
              (ex_stat S_IFDIR 5) true
              (match ex_cache with Dir _ _ _ ch => ch | _ => [] end)) as (r & Hr & _); [done..|].
  exists r. exact Hr.
Defined.

(** ** Directories that cannot be read *)

(** A group that vanishes between the two visits swallows the rest of the
    hierarchy, and the [CHECK] at its end aborts the process. *)
Definition ex_unreadable_group : ftree :=
  Dir (lit "cache") (ex_stat S_IFDIR 5) true
    [Dir (lit "g") (ex_stat S_IFDIR 6) false []; Leaf FTS_F (lit "a") (ex_stat S_IFREG 7)].

Example unreadable_group_aborts :
  loadItems sort_items (ex_view ex_unreadable_group) ex_tracker = Some (inr CheckFailed).
Proof. vm_compute. reflexivity. Qed.

(** The time of a directory that cannot be read does not reach its parent:
    the parent is purged, and destroyed, first. *)
Definition ex_unreadable_dir : ftree :=
  Dir (lit "cache") (ex_stat S_IFDIR 5) true
    [Dir (lit "d") (ex_stat S_IFDIR 1) true [Dir (lit "e") (ex_stat S_IFDIR 9) false []]].

Example unreadable_child_outlives_parent :
  exists t, loadItems sort_items (ex_view ex_unreadable_dir) ex_tracker = Some (inl t) /\
    items t = [1; 0]%nat /\ (it ← theap t !! 1%nat; mParent it) = Some 0%nat.
Proof. eexists. split; [vm_compute; reflexivity|]. by vm_compute. Qed.

(** The comparator is no strict weak order: a directory precedes itself. *)
Example cmp_not_irreflexive (d : item) : directory d = true -> cmp d d = true.
Proof. intros H. unfold cmp. by rewrite !Z.eqb_refl. Qed.
