(* ===== verification/FreeCache.v ===== *)
(** The cache eviction of [installd]: [freeCache] and [setAppQuota] of
    [InstalldNativeService.cpp].

    The disk is an abstract state: what the calls see of it ([view]), its free
    space ([statvfs]), the calls that succeed ([op_ok]) and what they change
    ([apply_ops]) are section variables. The priority queue is a list with a
    [pop] that [QueueOk] requires to take a tracker of the greatest ratio. *)

From S2P Require Import Prelude Platform Fts InstalldPaths InstalldFs Quota Cache.

Open Scope Z_scope.

Definition FLAG_FREE_CACHE_V2 : Z := Z.shiftl 1 8.
Definition FLAG_FREE_CACHE_V2_DEFY_QUOTA : Z := Z.shiftl 1 9.
Definition FLAG_FREE_CACHE_NOOP : Z := Z.shiftl 1 10.

(** [findDataMediaPath]: the mount of the media directory, by default the
    directory. *)
Definition findDataMediaPath (debuggable : bool) (mStorageMounts : gmap str str) (uuid : option str)
    (userid : N) : option str :=
  data ← create_data_path debuggable uuid;
  let path := data ++ lit "/media" in
  let resolved := match default [] (mStorageMounts !! path) with [] => path | r => r end in
  Some (resolved ++ slash :: fmt_u userid).

Definition setAppQuota {mu : Multiuser} (userId appId cacheQuota : Z) (mCacheQuotas : gmap Z Z) : gmap Z Z :=
  <[u32 (multiuser_get_uid userId appId) := cacheQuota]> mCacheQuotas.

(** The queue of [std::priority_queue] with [top] and [pop] in one. *)
Definition queue_pop : Type := (list CacheTracker -> option (CacheTracker * list CacheTracker)).

Class QueueOk (pop : queue_pop) : Prop := {
  pop_empty : forall q, pop q = None <-> q = [];
  pop_perm : forall q t q', pop q = Some (t, q') -> q ≡ₚ t :: q';
  pop_top : forall q t q', pop q = Some (t, q') -> Forall (fun u => getCacheRatio u <= getCacheRatio t) q';
}.

Section FreeCache.
Context {aid : AidRanges} {mu : Multiuser}.
Context (quotactl : quota_kind -> str -> Z -> option Z) (debuggable : bool) (lstat_isdir : str -> bool).
Context (stable_sort : (item -> item -> bool) -> list (nat * item) -> list (nat * item)).
Context (pop : queue_pop).
Context {disk : Type}.
Context (view : disk -> fsview) (statvfs : disk -> str -> option (Z * Z)).
Context (op_ok : disk -> purge_op -> bool) (apply_ops : disk -> list purge_op -> disk).

(** ** 1. Trackers *)

(** The uid a directory's tracker is for. *)
Definition owner_uid (st : stat) : Z :=
  if multiuser_get_app_id (st_uid st) =? AID_MEDIA_RW then
    u32 (multiuser_get_app_id (st_gid st) - AID_EXT_GID_START + AID_APP_START)
  else st_uid st.

Definition DEFAULT_QUOTA : Z := 67108864.

Definition tracker_body (uuidString : str) (quotas : gmap Z Z) (p : FTSENT) (trackers : gmap Z CacheTracker)
    : gmap Z CacheTracker * bool :=
  if bool_decide (fts_info p = FTS_D) && (fts_level p =? 1) then
    let uid := owner_uid (fts_statp p) in
    (match trackers !! uid with
     | Some t => <[uid := addDataPath (fts_path p) t]> trackers
     | None =>
         let quota := default 0 (quotas !! uid) in
         <[uid := set_quota (if quota =? 0 then DEFAULT_QUOTA else quota)
                    (addDataPath (fts_path p)
                       (new_tracker (multiuser_get_user_id uid) (multiuser_get_app_id uid) uuidString))]>
         trackers
     end, true)
  else (trackers, false).

(** The hierarchies of a user; a failed [fts_open] is [None] of the sum. *)
Definition user_roots (v : fsview) (storage : gmap str str) (uuid : option str) (user : Z)
    : option (list (str * ftree)) :=
  ce ← create_data_user_ce_path debuggable lstat_isdir uuid (Z.to_N user);
  de ← create_data_user_de_path debuggable uuid (Z.to_N user);
  media ← findDataMediaPath debuggable storage uuid (Z.to_N user);
  let media := media ++ lit "/Android/data/" in
  Some (omap (fun p => t ← fs_tree v p; Some (p, t)) [ce; de; media]).

Fixpoint create_trackers (v : fsview) (storage : gmap str str) (quotas : gmap Z Z) (uuid : option str)
    (users : list Z) (trackers : gmap Z CacheTracker) : option (gmap Z CacheTracker) :=
  match users with
  | [] => Some trackers
  | user :: users' =>
      roots ← user_roots v storage uuid user;
      trackers' ← fts_run (tracker_body (default [] uuid) quotas) (fts_roots 0 roots) trackers;
      create_trackers v storage quotas uuid users' trackers'
  end.

(** ** 2. Statistics *)

(** The queue and the total of the cached bytes. *)
Fixpoint populate (v : fsview) (ts : list CacheTracker) (queue : list CacheTracker) (cacheTotal : Z) (m : mounts)
    : option (list CacheTracker * Z * mounts) :=
  match ts with
  | [] => Some (queue, cacheTotal, m)
  | t :: ts' =>
      '(t', m') ← loadStats quotactl debuggable v t m;
      populate v ts' (t' :: queue) (i64 (cacheTotal + cacheUsed t')) m'
  end.

(** ** 3. Bounce *)

Record bounce := Bounce {
  active : option CacheTracker;
  queue : list CacheTracker;
  cleared : Z;
  needed : Z;
  dsk : disk;
}.

Record request := Request {
  targetFreeBytes : Z;
  cacheReservedBytes : Z;
  flags : Z;
  data_path : str;
  cacheTotal : Z;
}.

(** One iteration: the loop stops, goes on, or the process aborts. The item
    purged, if any, is part of the step. *)
Inductive outcome :=
| Stop (b : bounce)
| Next (b : bounce)
| Purged (it : item) (b : bounce)
| PurgedStop (it : item) (b : bounce)
| Abort.

Definition defies (r : request) : bool := nz (Z.land (flags r) FLAG_FREE_CACHE_V2_DEFY_QUOTA).
Definition noop (r : request) : bool := nz (Z.land (flags r) FLAG_FREE_CACHE_NOOP).

Definition under_quota (r : request) (b : bounce) : bool :=
  match active b with Some t => (getCacheRatio t <? 10000) && negb (defies r) | None => false end.

Definition in_reserved (r : request) (b : bounce) : bool :=
  (0 <? cacheReservedBytes r) && (i64 (cacheTotal r - cacheReservedBytes r) <=? cleared b).

Definition next_better (b : bounce) : bool :=
  match active b, pop (queue b) with
  | Some t, Some (top, _) => getCacheRatio t <? getCacheRatio top
  | _, _ => false
  end.

(** Purging the last item of the active tracker. *)
Definition purge_last (r : request) (b : bounce) (t : CacheTracker) (k : nat) (rest : list nat) : outcome :=
  match theap t !! k with
  | None => Abort
  | Some it =>
      match buildPath (theap t) it with
      | None => Abort
      | Some path =>
          let d := if noop r then Some (dsk b)
                   else '(_, ops) ← purge (view (dsk b)) (op_ok (dsk b)) it path; Some (apply_ops (dsk b) ops) in
          match d with
          | None => Abort
          | Some d =>
              let t' := set_used (i64 (cacheUsed t - isize it)) (set_items (mItemsLoaded t) (theap t) rest t) in
              let needed' := i64 (needed b - isize it) in
              let cleared' := i64 (cleared b + isize it) in
              let b' n := Bounce (Some t') (queue b) cleared' n d in
              if needed' <=? 0 then
                let free := data_disk_free (statvfs d) (data_path r) in
                let needed'' := i64 (targetFreeBytes r - free) in
                if needed'' <=? 0 then PurgedStop it (b' needed'') else Purged it (b' needed'')
              else Purged it (b' needed')
          end
      end
  end.

Definition bounce_step (r : request) (b : bounce) : outcome :=
  match active b, queue b with
  | None, [] => Stop b
  | _, _ =>
      if under_quota r b then Stop b
      else if in_reserved r b then Stop b
      else if bool_decide (active b = None) || next_better b then
        let q := match active b with Some t => t :: queue b | None => queue b end in
        match pop q with
        | None => Abort
        | Some (t, q') =>
            match ensureItems stable_sort (view (dsk b)) t with
            | Some (inl t') => Next (Bounce (Some t') q' (cleared b) (needed b) (dsk b))
            | _ => Abort
            end
        end
      else
        match active b with
        | None => Abort
        | Some t =>
            match last (items t) with
            | None => Next (Bounce None (queue b) (cleared b) (needed b) (dsk b))
            | Some k => purge_last r b t k (take (length (items t) - 1) (items t))
            end
        end
  end.

(** The loop with the items purged so far; [None] is out of fuel. *)
Fixpoint bounce_loop (fuel : nat) (r : request) (b : bounce) (log : list (bounce * item))
    : option (option bounce * list (bounce * item)) :=
  match fuel with
  | O => None
  | S fuel' =>
      match bounce_step r b with
      | Stop b' => Some (Some b', log)
      | Next b' => bounce_loop fuel' r b' log
      | Purged it b' => bounce_loop fuel' r b' (log ++ [(b, it)])
      | PurgedStop it b' => Some (Some b', log ++ [(b, it)])
      | Abort => Some (None, log)
      end
  end.

(** ** freeCache *)

(** [ok()], a failed argument check, or [error(...)]. *)
Inductive reply := Ok | Denied (s : status) | Error.

Record service := Service {
  mCacheQuotas : gmap Z Z;
  mStorageMounts : gmap str str;
  mMounts : mounts;
}.

(** [None]: the process aborted, or the loop ran out of [fuel]. *)
Definition freeCache (fuel : nat) (calling_uid : Z) (s : service) (d : disk) (uuid : option str)
    (targetFreeBytes cacheReservedBytes flags : Z) : option (reply * disk) :=
  if bool_decide (checkUid calling_uid AID_SYSTEM <> StatusOk) then Some (Denied EX_SECURITY, d)
  else if bool_decide (checkArgumentUuid uuid <> StatusOk) then Some (Denied EX_ILLEGAL_ARGUMENT, d)
  else
  data_path ← create_data_path debuggable uuid;
  let free := data_disk_free (statvfs d) data_path in
  if free <? 0 then Some (Error, d)
  else
    let needed := i64 (targetFreeBytes - free) in
    if targetFreeBytes <=? free then Some (Ok, d)
    else if nz (Z.land flags FLAG_FREE_CACHE_V2) then
      users ← get_known_users debuggable (fs_opendir (view d)) uuid;
      trackers ← create_trackers (view d) (mStorageMounts s) (mCacheQuotas s) uuid users ∅;
      '(queue, cacheTotal, _) ← populate (view d) (map snd (map_to_list trackers)) [] 0 (mMounts s);
      let r := Request targetFreeBytes cacheReservedBytes flags data_path cacheTotal in
      '(b, _) ← bounce_loop fuel r (Bounce None queue 0 needed d) [];
      b ← b;
      let free := data_disk_free (statvfs (dsk b)) data_path in
      Some (if targetFreeBytes <=? free then Ok else Error, dsk b)
    else Some (Error, d).

End FreeCache.

(** * Helper lemmas *)

Lemma sum_perm {A} (f : A -> nat) (l1 l2 : list A) :
  l1 ≡ₚ l2 -> list_sum (map f l1) = list_sum (map f l2).
Proof. induction 1; simpl; lia. Qed.

Section Lemmas.
Context (stable_sort : (item -> item -> bool) -> list (nat * item) -> list (nat * item)).
Context (pop : queue_pop) {pop_ok : QueueOk pop}.
Context {disk : Type}.
Context (view : disk -> fsview) (statvfs : disk -> str -> option (Z * Z)).
Context (op_ok : disk -> purge_op -> bool) (apply_ops : disk -> list purge_op -> disk).
Abbreviation step := (bounce_step stable_sort pop view statvfs op_ok apply_ops).
Abbreviation loop := (bounce_loop stable_sort pop view statvfs op_ok apply_ops).

(** ** Steps *)

(** What holds when an item is purged. *)
Definition purge_allowed (r : request) (b : bounce (disk := disk)) (it : item) : Prop :=
  exists t k, active b = Some t /\ last (items t) = Some k /\ theap t !! k = Some it /\
    (10000 <= getCacheRatio t \/ defies r = true) /\
    (cacheReservedBytes r <= 0 \/ cleared b < i64 (cacheTotal r - cacheReservedBytes r)) /\
    Forall (fun u => getCacheRatio u <= getCacheRatio t) (queue b).

(** The bounce state after the purge of [it], up to the new estimate. *)
Definition after_purge (b b' : bounce (disk := disk)) (it : item) : Prop :=
  exists t, active b = Some t /\ cleared b' = i64 (cleared b + isize it) /\ queue b' = queue b /\
    active b' = Some (set_used (i64 (cacheUsed t - isize it))
                        (set_items (mItemsLoaded t) (theap t) (take (length (items t) - 1) (items t)) t)).

Lemma next_better_false (b : bounce (disk := disk)) t :
  active b = Some t -> next_better pop b = false -> Forall (fun u => getCacheRatio u <= getCacheRatio t) (queue b).
Proof.
  intros Ht. unfold next_better. rewrite Ht. destruct (pop (queue b)) as [[top q']|] eqn:E.
  - intros H%Z.ltb_ge. pose proof (pop_perm _ _ _ E) as Hp. pose proof (pop_top _ _ _ E) as Htop.
    rewrite Hp. constructor; [lia|]. eapply Forall_impl; [exact Htop|]. simpl. intros. lia.
  - intros _. apply pop_empty in E as ->. done.
Qed.

Lemma purge_last_outcome r b t k rst :
  match purge_last view statvfs op_ok apply_ops r b t k rst with
  | Purged it b' | PurgedStop it b' =>
      theap t !! k = Some it /\ cleared b' = i64 (cleared b + isize it) /\ queue b' = queue b /\
      active b' = Some (set_used (i64 (cacheUsed t - isize it)) (set_items (mItemsLoaded t) (theap t) rst t))
  | Abort => True
  | _ => False
  end.
Proof.
  unfold purge_last. destruct (theap t !! k) as [it|]; [|done]. destruct (buildPath _ _) as [path|]; [|done].
  match goal with |- context [match ?x with Some _ => _ | None => Abort end] => destruct x as [d|] end; [|done].
  cbv zeta. destruct (_ <=? 0); [|done]. by destruct (_ <=? 0).
Qed.

Lemma step_purged r b it b' :
  step r b = Purged it b' \/ step r b = PurgedStop it b' -> purge_allowed r b it /\ after_purge b b' it.
Proof.
  intros H. unfold bounce_step in H. destruct (active b) as [t|] eqn:Ha.
  2: { destruct (queue b); [by destruct H|]. repeat (case_match; try by destruct H). }
  destruct (under_quota r b) eqn:Hu; [by destruct H|]. destruct (in_reserved r b) eqn:Hr; [by destruct H|].
  destruct (bool_decide _ || next_better pop b) eqn:Hn; [by repeat (case_match; try by destruct H)|].
  apply orb_false_iff in Hn as [_ Hn]. destruct (last (items t)) as [k|] eqn:Hlast; [|by destruct H].
  pose proof (purge_last_outcome r b t k (take (length (items t) - 1) (items t))) as Ho.
  assert (Hit : theap t !! k = Some it /\ cleared b' = i64 (cleared b + isize it) /\ queue b' = queue b /\
    active b' = Some (set_used (i64 (cacheUsed t - isize it))
                        (set_items (mItemsLoaded t) (theap t) (take (length (items t) - 1) (items t)) t))).
  { destruct H as [H|H]; by rewrite H in Ho. }
  destruct Hit as (Hit & Hc & Hq & Hact). split; [|by exists t].
  exists t, k. split_and!; try done.
  - unfold under_quota in Hu. rewrite Ha in Hu. apply andb_false_iff in Hu as [Hu%Z.ltb_ge|Hu]; [left; lia|right].
    by apply negb_false_iff in Hu.
  - unfold in_reserved in Hr. apply andb_false_iff in Hr as [Hr%Z.ltb_ge|Hr%Z.leb_gt]; [left; lia|right; lia].
  - by apply next_better_false.
Qed.

Lemma step_next_cleared r b b' : step r b = Next b' -> cleared b' = cleared b.
Proof.
  unfold bounce_step. intros H. pose proof purge_last_outcome as Hp.
  repeat match type of H with
  | context [purge_last _ _ _ _ r b ?t ?k ?rst] => specialize (Hp r b t k rst); rewrite H in Hp; done
  | context [match ?x with _ => _ end] => destruct x; try done; try (by injection H as <-)
  end.
Qed.

Lemma step_stop r b b' : step r b = Stop b' -> b' = b.
Proof.
  unfold bounce_step. intros H. pose proof purge_last_outcome as Hp.
  repeat match type of H with
  | context [purge_last _ _ _ _ r b ?t ?k ?rst] => specialize (Hp r b t k rst); rewrite H in Hp; done
  | context [match ?x with _ => _ end] => destruct x; try done; try (by injection H as <-)
  end.
Qed.

(** ** Termination *)

Definition trackers_of (b : bounce (disk := disk)) : list CacheTracker :=
  match active b with Some t => t :: queue b | None => queue b end.

Definition unloaded (b : bounce (disk := disk)) : nat :=
  list_sum (map (fun t => if mItemsLoaded t then 0 else 1)%nat (trackers_of b)).

Definition items_left (b : bounce (disk := disk)) : nat :=
  list_sum (map (fun t => length (items t)) (trackers_of b)).

Definition swap_due (b : bounce (disk := disk)) : bool := bool_decide (active b = None) || next_better pop b.

Definition work (b : bounce (disk := disk)) : nat :=
  (3 * items_left b + 2 * length (trackers_of b) + (if swap_due b then 1 else 0))%nat.

Lemma ensureItems_loaded d t t' :
  ensureItems stable_sort (view d) t = Some (inl t') ->
  mItemsLoaded t' = true /\ (mItemsLoaded t = true -> t' = t).
Proof.
  unfold ensureItems. destruct (mItemsLoaded t) eqn:E; [by intros [= <-]|].
  unfold loadItems. destruct (load_paths _ _ _) as [[h|e]|]; cbn; [|done..]. by intros [= <-].
Qed.

(** Every step that goes on does so with less work. *)
Lemma swap_progress b (t t' : CacheTracker) q' d :
  (match active b with Some a => a :: queue b | None => queue b end) ≡ₚ t :: q' ->
  Forall (fun u => getCacheRatio u <= getCacheRatio t) q' ->
  ensureItems stable_sort (view d) t = Some (inl t') -> swap_due b = true ->
  let b' := Bounce (Some t') q' (cleared b) (needed b) (dsk b) in
  (unloaded b' < unloaded b)%nat \/ unloaded b' = unloaded b /\ (work b' < work b)%nat.
Proof.
  intros Hp Htop He Hs b'. apply ensureItems_loaded in He as [Hl Hsame].
  assert (Hu : unloaded b = (list_sum (map (fun t => if mItemsLoaded t then 0 else 1)%nat (t :: q')))).
  { unfold unloaded, trackers_of. by apply sum_perm. }
  rewrite Hu. destruct (mItemsLoaded t) eqn:E.
  2: { left. unfold unloaded. cbn [trackers_of active queue b' map]. rewrite Hl, E. simpl. lia. }
  right. specialize (Hsame eq_refl). subst t'. split; [done|].
  unfold work. rewrite Hs.
  assert (Hi : items_left b = list_sum (map (fun t => length (items t)) (t :: q'))).
  { unfold items_left, trackers_of. by apply sum_perm. }
  assert (Hn : length (trackers_of b) = length (t :: q')) by by apply Permutation_length.
  assert (Hns : swap_due b' = false).
  { unfold swap_due, next_better. cbn. destruct (pop q') as [[top q'']|] eqn:Eq; [|done].
    apply Z.ltb_ge. pose proof (pop_perm _ _ _ Eq) as Hpq. rewrite Hpq in Htop. by inversion Htop. }
  rewrite Hns, Hi, Hn. unfold items_left, trackers_of. cbn. lia.
Qed.

Lemma take_last_length {A} (l : list A) k : last l = Some k -> S (length (take (length l - 1) l)) = length l.
Proof. destruct l; [done|]. intros _. rewrite length_take. simpl. lia. Qed.

Lemma after_purge_progress b b' it k :
  after_purge b b' it -> (exists t, active b = Some t /\ last (items t) = Some k) ->
  unloaded b' = unloaded b /\ (work b' < work b)%nat.
Proof.
  intros (t & Ha & _ & Hq & Ha') (t2 & Ha2 & Hlast). rewrite Ha in Ha2. injection Ha2 as <-.
  unfold unloaded, work, items_left, trackers_of. rewrite Ha, Ha', Hq. cbn [map list_sum set_used set_items items mItemsLoaded].
  split; [done|]. pose proof (take_last_length _ _ Hlast). cbn.
  destruct (swap_due b'), (swap_due b); lia.
Qed.

Lemma step_progress r b b' :
  step r b = Next b' \/ (exists it, step r b = Purged it b') ->
  (unloaded b' < unloaded b)%nat \/ unloaded b' = unloaded b /\ (work b' < work b)%nat.
Proof.
  intros [H|[it H]].
  2: { right. destruct (step_purged r b it b' (or_introl H)) as [(t & k & Ha & Hl & _) Hap].
       eapply after_purge_progress; [done|]. by exists t. }
  unfold bounce_step in H.
  assert (Hmain : (if under_quota r b then Stop b else if in_reserved r b then Stop b
      else if swap_due b then
        match pop (match active b with Some t => t :: queue b | None => queue b end) with
        | None => Abort
        | Some (t, q') =>
            match ensureItems stable_sort (view (dsk b)) t with
            | Some (inl t') => Next (Bounce (Some t') q' (cleared b) (needed b) (dsk b))
            | _ => Abort
            end
        end
      else match active b with
           | None => Abort
           | Some t =>
               match last (items t) with
               | None => Next (Bounce None (queue b) (cleared b) (needed b) (dsk b))
               | Some k => purge_last view statvfs op_ok apply_ops r b t k (take (length (items t) - 1) (items t))
               end
           end) = Next b').
  { unfold swap_due. destruct (active b), (queue b); [exact H|exact H|discriminate|exact H]. }
  clear H. destruct (under_quota r b); [done|]. destruct (in_reserved r b); [done|].
  destruct (swap_due b) eqn:Hs.
  - destruct (pop _) as [[t q']|] eqn:Ep; [|done].
    destruct (ensureItems _ _ t) as [[t'|]|] eqn:Ee; [|done..]. injection Hmain as <-.
    eapply swap_progress; [by apply pop_perm|by eapply pop_top|done|done].
  - destruct (active b) as [t|] eqn:Ha; [|done]. destruct (last (items t)) as [k|] eqn:Hl.
    + pose proof (purge_last_outcome r b t k (take (length (items t) - 1) (items t))) as Ho.
      by rewrite Hmain in Ho.
    + injection Hmain as <-. apply last_None in Hl.
      unfold unloaded, work, items_left, trackers_of. rewrite Ha, Hs. cbn [active queue map list_sum].
      assert (Hn : (length (items t) = 0)%nat) by by rewrite Hl.
      destruct (mItemsLoaded t); [right|left].
      * split; [done|]. unfold list_sum. cbn. destruct (swap_due _); lia.
      * unfold list_sum. cbn. lia.
Qed.

(** The loop ends, and with more fuel it ends the same. *)
Lemma bounce_loop_total r b log : exists n res, forall fuel, (n <= fuel)%nat -> loop fuel r b log = Some res.
Proof.
  remember (unloaded b) as u eqn:Eu. revert b log Eu. induction u as [u IHu] using lt_wf_ind. intros b log Eu.
  remember (work b) as w eqn:Ew. revert b log Eu Ew. induction w as [w IHw] using lt_wf_ind. intros b log -> ->.
  assert (Hnext : forall b' log', step r b = Next b' \/ (exists it, step r b = Purged it b') ->
            exists n res, forall fuel, (n <= fuel)%nat -> loop fuel r b' log' = Some res).
  { intros b' log' H. apply step_progress in H as [H|[H1 H2]].
    - by eapply IHu.
    - by eapply IHw. }
  destruct (step r b) as [b'|b'|it b'|it b'|] eqn:Es.
  - exists 1%nat. eexists. intros [|fuel] Hf; [lia|]. cbn. rewrite Es. reflexivity.
  - destruct (Hnext b' log ltac:(by left)) as (n & res & H). exists (S n), res.
    intros [|fuel] Hf; [lia|]. cbn. rewrite Es. apply H. lia.
  - destruct (Hnext b' (log ++ [(b, it)]) ltac:(right; by exists it)) as (n & res & H). exists (S n), res.
    intros [|fuel] Hf; [lia|]. cbn. rewrite Es. apply H. lia.
  - exists 1%nat. eexists. intros [|fuel] Hf; [lia|]. cbn. rewrite Es. reflexivity.
  - exists 1%nat. eexists. intros [|fuel] Hf; [lia|]. cbn. rewrite Es. reflexivity.
Qed.

(** What the loop has purged. *)
Lemma bounce_loop_log fuel r b log ob log' :
  loop fuel r b log = Some (ob, log') ->
  exists more, log' = log ++ more /\ Forall (fun e => purge_allowed r (fst e) (snd e)) more /\
    forall b', ob = Some b' -> i64 (cleared b) = cleared b ->
      cleared b' = i64 (cleared b + foldr Z.add 0 (map (fun e => isize (snd e)) more)).
Proof.
  revert b log. induction fuel as [|fuel IH]; intros b log H; [done|]. cbn in H.
  destruct (step r b) as [b'|b'|it b'|it b'|] eqn:Es.
  - injection H as <- <-. exists []. split_and!; [by rewrite app_nil_r|done|]. intros b2 [= <-] Hr.
    apply step_stop in Es as ->. cbn. by rewrite Z.add_0_r.
  - apply IH in H as (more & -> & Hm & Hc). exists more. split_and!; [done..|]. intros b2 E Hr.
    apply step_next_cleared in Es. rewrite <- Es in *. by apply Hc.
  - apply IH in H as (more & -> & Hm & Hc). destruct (step_purged r b it b' (or_introl Es)) as [Ha (t & _ & Hcl & _)].
    exists ((b, it) :: more). split_and!; [by rewrite <- app_assoc|by constructor|]. intros b2 E Hr.
    rewrite (Hc b2 E), Hcl by (rewrite Hcl; apply i64_idem). cbn. by rewrite i64_add_l, Z.add_assoc.
  - injection H as <- <-. destruct (step_purged r b it b' (or_intror Es)) as [Ha (t & _ & Hcl & _)].
    exists [(b, it)]. split_and!; [done|by constructor|]. intros b2 [= <-] Hr. cbn. by rewrite Hcl, Z.add_0_r.
  - injection H as <- <-. exists []. split_and!; [by rewrite app_nil_r|done|done].
Qed.

(** A simulated eviction does not touch the disk. *)
Lemma step_noop r b b' :
  noop r = true ->
  step r b = Next b' \/ step r b = Stop b' \/ (exists it, step r b = Purged it b' \/ step r b = PurgedStop it b') ->
  dsk b' = dsk b.
Proof.
  intros Hn H. destruct (step r b) as [b2|b2|it b2|it b2|] eqn:Es.
  - destruct H as [H|[H|[it [H|H]]]]; try discriminate. injection H as <-. by apply step_stop in Es as ->.
  - destruct H as [H|[H|[it [H|H]]]]; try discriminate. injection H as <-. revert Es. unfold bounce_step.
    intros Es. pose proof purge_last_outcome as Hp.
    repeat match type of Es with
    | context [purge_last _ _ _ _ r b ?t ?k ?rst] => specialize (Hp r b t k rst); rewrite Es in Hp; done
    | context [match ?x with _ => _ end] => destruct x; try done; try (by injection Es as <-)
    end.
  - destruct H as [H|[H|[it2 [H|H]]]]; try discriminate. injection H as _ <-. revert Es. unfold bounce_step, purge_last.
    rewrite Hn. intros Es.
    repeat match type of Es with
    | context [match ?x with _ => _ end] => destruct x; try done; try (by injection Es as _ <-)
    end.
  - destruct H as [H|[H|[it2 [H|H]]]]; try discriminate. injection H as _ <-. revert Es. unfold bounce_step, purge_last.
    rewrite Hn. intros Es.
    repeat match type of Es with
    | context [match ?x with _ => _ end] => destruct x; try done; try (by injection Es as _ <-)
    end.
  - destruct H as [H|[H|[it2 [H|H]]]]; discriminate.
Qed.

Lemma loop_noop fuel r b log b' log' :
  noop r = true -> loop fuel r b log = Some (Some b', log') -> dsk b' = dsk b.
Proof.
  intros Hn. revert b log. induction fuel as [|fuel IH]; intros b log H; [done|]. cbn in H.
  pose proof (step_noop r b) as Hs.
  destruct (step r b) as [b2|b2|it b2|it b2|] eqn:Es.
  - injection H as <- _. by apply Hs; auto.
  - rewrite (IH _ _ H). by apply Hs; auto.
  - rewrite (IH _ _ H). apply Hs; [done|]. right. right. exists it. by left.
  - injection H as <- _. apply Hs; [done|]. right. right. exists it. by right.
  - done.
Qed.

End Lemmas.

(** ** Trackers *)

Section TrackerLemmas.
Context {aid : AidRanges} {mu : Multiuser}.
Context (uuidString : str) (quotas : gmap Z Z).
Abbreviation tbody := (tracker_body uuidString quotas).

(** The directories of level 1. *)
Definition data_dirs (root : str * ftree) : list (str * stat) :=
  match snd root with
  | Dir _ _ true ch =>
      omap (fun c => match c with
                     | Dir n st _ _ | Leaf FTS_D n st => Some (child_path (fst root) n, st)
                     | _ => None
                     end) ch
  | _ => []
  end.

Definition new_tracker_for (uid : Z) (paths : list str) : CacheTracker :=
  let quota := default 0 (quotas !! uid) in
  Tracker 0 (if quota =? 0 then DEFAULT_QUOTA else quota) (multiuser_get_user_id uid)
          (multiuser_get_app_id uid) false uuidString paths [] [].

Definition add_dir (m : gmap Z CacheTracker) (d : str * stat) : gmap Z CacheTracker :=
  match m !! owner_uid (snd d) with
  | Some t => <[owner_uid (snd d) := addDataPath (fst d) t]> m
  | None => <[owner_uid (snd d) := new_tracker_for (owner_uid (snd d)) [fst d]]> m
  end.

Definition owned (uid : Z) (ds : list (str * stat)) : list str :=
  map fst (List.filter (fun d => owner_uid (snd d) =? uid) ds).

Lemma tracker_forest e i ch m :
  fts_level e = 0 ->
  forest_fold tbody e i ch m =
  foldl add_dir m (omap (fun c => match c with
                                  | Dir n st _ _ | Leaf FTS_D n st => Some (child_path (fts_path e) n, st)
                                  | _ => None
                                  end) ch).
Proof.
  intros He. revert i m. induction ch as [|c ch IH]; intros i m; [done|]. cbn [forest_fold].
  rewrite IH, He. destruct c as [info n st|n st rd cs].
  - unfold tree_fold, leaf_step, tracker_body. cbn [fst fts_info fts_level]. by destruct info.
  - rewrite tree_fold_Dir. unfold tracker_body at 1. cbn [fts_info fts_level]. rewrite bool_decide_true by done. done.
Qed.

Lemma tracker_root path i t m : todo_fold tbody (Visit None 0 path [i] t) m = foldl add_dir m (data_dirs (path, t)).
Proof.
  cbn [todo_fold]. destruct t as [info n st|n st rd ch].
  - unfold tree_fold, leaf_step, tracker_body. cbn [fst fts_info fts_level]. by rewrite andb_false_r.
  - rewrite tree_fold_Dir. unfold tracker_body at 1. cbn [fts_info fts_level]. rewrite andb_false_r.
    destruct rd; [|done]. cbn [todo_fold]. rewrite tracker_forest by done. done.
Qed.

Lemma tracker_roots i roots m :
  todos_fold tbody (fts_roots i roots) m = foldl add_dir m (concat (map data_dirs roots)).
Proof.
  unfold todos_fold. revert i m. induction roots as [|[path t] roots IH]; intros i m; [done|]. cbn [fts_roots foldl].
  rewrite IH, tracker_root. cbn [map concat]. by rewrite foldl_app.
Qed.

Lemma owned_cons uid p st ds :
  owned uid ((p, st) :: ds) = if owner_uid st =? uid then p :: owned uid ds else owned uid ds.
Proof. unfold owned. cbn. by destruct (owner_uid st =? uid). Qed.

Lemma add_dirs_lookup ds m uid :
  foldl add_dir m ds !! uid =
  match m !! uid, owned uid ds with
  | Some t, ps => Some (foldl (fun t p => addDataPath p t) t ps)
  | None, [] => None
  | None, ps => Some (new_tracker_for uid ps)
  end.
Proof.
  revert m. induction ds as [|[p st] ds IH]; intros m; cbn [foldl].
  { by destruct (m !! uid). }
  rewrite IH, owned_cons. unfold add_dir. cbn [fst snd].
  destruct (Z.eqb_spec (owner_uid st) uid) as [E|E].
  - rewrite E. destruct (m !! uid) as [t|] eqn:Em; rewrite lookup_insert_eq; cbn [foldl]; [done|].
    f_equal. generalize (owned uid ds) as ps. intros ps.
    enough (H : forall l, foldl (fun t p => addDataPath p t) (new_tracker_for uid l) ps = new_tracker_for uid (l ++ ps)) by apply (H [p]).
    induction ps as [|q ps IHp]; intros l; cbn [foldl]; [by rewrite app_nil_r|].
    change (addDataPath q (new_tracker_for uid l)) with (new_tracker_for uid (l ++ [q])).
    by rewrite IHp, <- app_assoc.
  - destruct (m !! owner_uid st); by rewrite lookup_insert_ne.
Qed.

End TrackerLemmas.

(** * Properties *)

(** C8: every item the eviction loop purges belongs to the tracker that is
    the most over its quota among all the trackers left, and that tracker is
    over its quota unless the caller defies quotas, and what was cleared
    before does not reach the reserved part of the cache. The loop's count of
    cleared bytes is the sum of the items purged. *)
Theorem purges_are_allowed sort pop (Hpop : QueueOk pop) {disk} view statvfs op_ok apply_ops fuel r
    (queue : list CacheTracker) needed (d : disk) ob log :
  bounce_loop sort pop view statvfs op_ok apply_ops fuel r (Bounce None queue 0 needed d) [] = Some (ob, log) ->
  Forall (fun e => purge_allowed r (fst e) (snd e)) log /\
  forall b, ob = Some b -> cleared b = i64 (foldr Z.add 0 (map (fun e => isize (snd e)) log)).
Proof.
  intros H. apply bounce_loop_log in H as (more & -> & Hm & Hc); [|done]. split; [done|].
  intros b E. by apply (Hc b E).
Qed.

(** C24: the eviction loop terminates: from any state some amount of fuel, and
    any larger one, gives the same result, whatever the disk does in between. *)
Theorem bounce_terminates sort pop (Hpop : QueueOk pop) {disk} view statvfs op_ok apply_ops r
    (b : bounce (disk := disk)) :
  exists n res, forall fuel, (n <= fuel)%nat ->
    bounce_loop sort pop view statvfs op_ok apply_ops fuel r b [] = Some res.
Proof. by apply bounce_loop_total. Qed.

(** C25: [freeCache] answers [ok] only when the requested bytes are free on
    the disk it leaves, refuses other callers than the system and malformed
    volume names before it does anything, and leaves the disk alone when asked
    to simulate. *)
Theorem freeCache_contract {aid : AidRanges} {mu : Multiuser} quotactl debuggable lstat_isdir sort pop
    (Hpop : QueueOk pop) {disk} view statvfs op_ok apply_ops fuel uid s (d : disk) uuid target reserved flags
    rep d' data_path :
  freeCache quotactl debuggable lstat_isdir sort pop view statvfs op_ok apply_ops fuel uid s d uuid
    target reserved flags = Some (rep, d') ->
  create_data_path debuggable uuid = Some data_path ->
  (rep = Ok -> target <= data_disk_free (statvfs d') data_path) /\
  (checkUid uid AID_SYSTEM <> StatusOk \/ checkArgumentUuid uuid <> StatusOk -> d' = d /\ rep <> Ok /\ rep <> Error) /\
  (nz (Z.land flags FLAG_FREE_CACHE_NOOP) = true -> d' = d).
Proof.
  intros H Hp. unfold freeCache in H. case_bool_decide as Hu; [by injection H as <- <-; naive_solver|].
  case_bool_decide as Ha; [by injection H as <- <-; naive_solver|]. rewrite Hp in H. cbn [mbind option_bind] in H.
  assert (Hden : forall P : Prop, checkUid uid AID_SYSTEM <> StatusOk \/ checkArgumentUuid uuid <> StatusOk -> P).
  { intros P [E|E]; by contradict E. }
  destruct (data_disk_free (statvfs d) data_path <? 0); [injection H as <- <-; split_and!; [done|apply Hden|done]|].
  destruct (Z.leb_spec target (data_disk_free (statvfs d) data_path)).
  { injection H as <- <-; split_and!; [done|apply Hden|done]. }
  destruct (nz (Z.land flags FLAG_FREE_CACHE_V2)); [|injection H as <- <-; split_and!; [done|apply Hden|done]].
  destruct (get_known_users _ _ _) as [users|]; cbn in H; [|done].
  destruct (create_trackers _ _ _ _ _ _ _ _) as [trackers|]; cbn in H; [|done].
  destruct (populate _ _ _ _ _ _ _) as [[[q total] m]|]; cbn in H; [|done].
  destruct (bounce_loop _ _ _ _ _ _ _ _ _ _) as [[[b|] log]|] eqn:Eb; cbn in H; [|done..].
  destruct (Z.leb_spec target (data_disk_free (statvfs (dsk b)) data_path)); injection H as <- <-;
    (split_and!; [done|apply Hden|]); intros Hn; by apply loop_noop in Eb.
Qed.

(** The trackers partition the data directories of a user: the tracker of
    a uid has exactly the directories of the first level that the uid owns, in
    the order of the traversal, with its quota or 64MB where none is set. *)
Theorem trackers_partition {aid : AidRanges} {mu : Multiuser} uuidString quotas roots :
  exists m, fts_run (tracker_body uuidString quotas) (fts_roots 0 roots) ∅ = Some m /\
    forall uid, m !! uid =
      match owned uid (concat (map data_dirs roots)) with
      | [] => None
      | ps => Some (new_tracker_for uuidString quotas uid ps)
      end.
Proof.
  rewrite fts_run_spec, tracker_roots. eexists. split; [done|]. intros uid. by rewrite add_dirs_lookup, lookup_empty.
Qed.

(** * Witnesses *)

Fixpoint pop_max (q : list CacheTracker) : option (CacheTracker * list CacheTracker) :=
  match q with
  | [] => None
  | t :: q' =>
      match pop_max q' with
      | None => Some (t, [])
      | Some (u, r) => if getCacheRatio t <? getCacheRatio u then Some (u, t :: r) else Some (t, u :: r)
      end
  end.

#[export] Instance pop_max_ok : QueueOk pop_max.
Proof.
  assert (Hperm : forall q t q', pop_max q = Some (t, q') -> q ≡ₚ t :: q').
  { induction q as [|x q IH]; intros t q' H; [done|]. cbn in H.
    destruct (pop_max q) as [[u r]|] eqn:E.
    - specialize (IH _ _ eq_refl). destruct (_ <? _); injection H as <- <-; rewrite IH; [apply perm_swap|done].
    - injection H as <- <-. destruct q as [|y q]; [done|]. cbn in E. destruct (pop_max q) as [[]|]; [|done].
      by destruct (_ <? _). }
  split; [|exact Hperm|].
  - intros [|x q]; [done|]. cbn. destruct (pop_max q) as [[]|]; [destruct (_ <? _)|]; done.
  - induction q as [|x q IH]; intros t q' H; [done|]. cbn in H.
    destruct (pop_max q) as [[u r]|] eqn:E; [|by injection H as <- <-].
    specialize (IH _ _ eq_refl).
    destruct (Z.ltb_spec (getCacheRatio x) (getCacheRatio u)); injection H as <- <-; constructor; try lia; [done|].
    eapply Forall_impl; [exact IH|]. simpl. intros. lia.
Qed.

(** A volume with one application over its quota; the disk is its free bytes. *)
Definition ex_app_dir : str := lit "/data/user/0/com.a".

Definition ex_volume : fsview :=
  FsView (fun p =>
            if p =s? lit "/data/user/0" then
              Some (Dir (lit "0") (ex_stat S_IFDIR 1) true [Dir (lit "com.a") (ex_stat S_IFDIR 1) true []])
            else if p =s? (ex_app_dir ++ lit "/cache") then Some ex_cache
            else None)
         (fun _ _ => false) ∅ (fun _ => None).

Definition ex_statvfs (d : Z) (p : str) : option (Z * Z) := Some (d, 1).
Definition ex_apply (d : Z) (ops : list purge_op) : Z := d + 4096 * Z.of_nat (length ops).

Definition ex_over : CacheTracker := set_quota 4096 (set_used 24576 (addDataPath ex_app_dir (new_tracker 0 10001 []))).

Definition ex_request : request := Request 10000 8192 0 (lit "/data") 24576.

Definition ex_run :=
  bounce_loop sort_items pop_max (fun _ => ex_volume) ex_statvfs (fun _ _ => true) ex_apply 100
    ex_request (Bounce None [ex_over] 0 10000 0) [].

Definition ex_ob : option (bounce (disk := Z)) := match ex_run with Some (b, _) => b | None => None end.
Definition ex_log : list (bounce (disk := Z) * item) := match ex_run with Some (_, l) => l | None => [] end.

Lemma ex_run_eq :
  bounce_loop sort_items pop_max (fun _ => ex_volume) ex_statvfs (fun _ _ => true) ex_apply 100
    ex_request (Bounce None [ex_over] 0 10000 0) [] = Some (ex_ob, ex_log).
Proof. vm_compute. reflexivity. Qed.

Lemma ex_log_names :
  map (fun e => mName (snd e)) ex_log =
  [lit "/data/user/0/com.a/cache/a"; lit "/y"; lit "/data/user/0/com.a/cache/d"; lit "/x"].
Proof. vm_compute. reflexivity. Qed.

Lemma purges_are_allowed_witness :
  Forall (fun e => purge_allowed ex_request (fst e) (snd e)) ex_log /\ length ex_log = 4%nat.
Proof.
  refine (conj (proj1 (purges_are_allowed sort_items pop_max pop_max_ok _ _ _ _ _ _ _ _ _ _ _ ex_run_eq)) _).
  vm_compute. reflexivity.
Defined.

Lemma bounce_terminates_witness :
  exists n res, forall fuel, (n <= fuel)%nat ->
    bounce_loop sort_items pop_max (fun _ => ex_volume) ex_statvfs (fun _ _ => false) ex_apply fuel ex_request
      (Bounce None [ex_over; ex_over] 0 10000 0) [] = Some res.
Proof.
  apply (bounce_terminates sort_items pop_max pop_max_ok (fun _ => ex_volume) ex_statvfs (fun _ _ => false)
           ex_apply ex_request (Bounce None [ex_over; ex_over] 0 10000 0)).
Defined.

Definition ex_service : service := Service {[10001 := 4096]} ∅ ∅.

Definition ex_free (flags : Z) : option (reply * Z) :=
  @freeCache aid_android mu_android (fun _ _ _ => None) false (fun _ => false) sort_items pop_max Z (fun _ => ex_volume)
    ex_statvfs (fun _ _ => true) ex_apply 100 1000 ex_service 100 None 8000 0 flags.

Lemma freeCache_contract_witness :
  ex_free FLAG_FREE_CACHE_V2 = Some (Ok, 8292) /\ 8000 <= data_disk_free (ex_statvfs 8292) (lit "/data") /\
  ex_free (Z.lor FLAG_FREE_CACHE_V2 FLAG_FREE_CACHE_NOOP) = Some (Error, 100).
Proof.
  assert (H : ex_free FLAG_FREE_CACHE_V2 = Some (Ok, 8292)) by by vm_compute.
  assert (Hp : create_data_path false None = Some (lit "/data")) by done.
  split; [exact H|]. split; [|by vm_compute].
  exact (proj1 (freeCache_contract _ _ _ _ _ pop_max_ok _ _ _ _ _ _ _ _ _ _ _ _ _ _ _ H Hp) eq_refl).
Defined.

(** The external cache of another user than the owner is charged to the
    owner's copy of the application: the uid made of the group has no user. *)
Example media_owner_loses_user :
  @owner_uid aid_android mu_android (Stat 1 S_IFDIR 504 (10 * 100000 + 1023) (10 * 100000 + 30001) 0 8 0) = 10001.
Proof. vm_compute. reflexivity. Qed.
