(* ===== verification/StorageMounts.v ===== *)
(** The mounts of the shared storage: [invalidateMounts] of
    [InstalldNativeService.cpp], which reads the state that
    [findDataMediaPath] looks up. *)

From S2P Require Import Prelude Platform InstalldPaths Quota Cache FreeCache.

Open Scope Z_scope.

Definition DEFAULT_VIEW : str := lit "/mnt/runtime/default/".

(** A line of [/proc/mounts]. *)
Definition storage_line (source target : str) (m : mounts) : mounts :=
  if prefixb DEFAULT_VIEW target then <[source := target]> m else m.

Definition set_mounts (s : service) (storage quota : mounts) : service := Service (mCacheQuotas s) storage quota.

Section StorageMounts.
Context {aid : AidRanges} (quotactl : quota_kind -> str -> Z -> option Z).

(** [quota_file] and [file] are [/proc/mounts] as the two readers meet it. *)
Definition invalidateMounts (calling_uid : Z) (quota_file file : option str) (s : service) : option (reply * service) :=
  if bool_decide (checkUid calling_uid AID_SYSTEM <> StatusOk) then Some (Denied EX_SECURITY, s)
  else
    '(read, quota) ← InvalidateQuotaMounts quotactl quota_file (mMounts s);
    if negb read then Some (Error, set_mounts s ∅ quota)
    else
      match file with
      | None => Some (Error, set_mounts s ∅ quota)
      | Some text => m ← read_mounts storage_line text; Some (Ok, set_mounts s m quota)
      end.

End StorageMounts.

(** * Lemmas *)

(** The last target of a source in the default view. *)
Definition default_view (es : list mount_entry) (source : str) : option str :=
  foldl (fun r e => if (me_source e =s? source) && prefixb DEFAULT_VIEW (me_target e) then Some (me_target e) else r) None es.

Lemma storage_lines es m source :
  foldl (fun m e => storage_line (me_source e) (me_target e) m) m es !! source =
  foldl (fun r e => if (me_source e =s? source) && prefixb DEFAULT_VIEW (me_target e) then Some (me_target e) else r) (m !! source) es.
Proof.
  revert m. induction es as [|e es IH]; intros m; [done|]. cbn [foldl]. rewrite IH. f_equal. unfold storage_line.
  destruct (prefixb _ _); [|by rewrite andb_false_r]. rewrite andb_true_r. unfold str_eqb.
  case_bool_decide as E; [subst; by rewrite lookup_insert_eq|by rewrite lookup_insert_ne].
Qed.

Lemma default_view_nonempty es source r : default_view es source = Some r -> r <> [].
Proof.
  unfold default_view. assert (H0 : (None : option str) = Some r -> r <> []) by done. revert H0.
  generalize (None : option str). induction es as [|e es IH]; intros o Ho; [exact Ho|]. cbn [foldl]. apply IH.
  destruct (_ && _) eqn:E; [|exact Ho]. intros [= <-] Hn. rewrite Hn in E. by rewrite andb_false_r in E.
Qed.

Lemma data_path_nonempty debuggable uuid path : create_data_path debuggable uuid = Some path -> path ++ lit "/media" <> [].
Proof. intros _ E. by apply app_eq_nil in E as [_ ?]. Qed.

(** * Properties *)

(** Reading the mounts returns for every contents of the file; a list of
    mounts leaves, for every directory of shared storage, the last mount of it
    in the default view, whatever was known before. *)
Theorem storage_mounts_parsed {aid : AidRanges} (quotactl : quota_kind -> str -> Z -> option Z) (debuggable : bool)
    (quota_file file : option str) (es : list mount_entry) (s : service) (uuid : option str) (path : str) (user : N) :
  is_Some (invalidateMounts quotactl AID_SYSTEM quota_file file s) /\
  (Forall mount_entry_ok es -> create_data_path debuggable uuid = Some path ->
   let text := Some (concat (map print_mount es)) in
   exists s', invalidateMounts quotactl AID_SYSTEM text text s = Some (Ok, s') /\ mCacheQuotas s' = mCacheQuotas s /\
     mMounts s' = foldl (fun m e => mount_line quotactl (me_source e) (me_target e) m) ∅ es /\
     findDataMediaPath debuggable (mStorageMounts s') uuid user =
     Some (default (path ++ lit "/media") (default_view es (path ++ lit "/media")) ++ lit "/" ++ fmt_u user)).
Proof.
  unfold invalidateMounts. rewrite bool_decide_false by (unfold checkUid; rewrite Z.eqb_refl; intros H; by apply H). split.
  - assert (T : exists b q, InvalidateQuotaMounts quotactl quota_file (mMounts s) = Some (b, q)).
    { destruct quota_file as [t|]; cbn [InvalidateQuotaMounts]; [|eauto].
      destruct (read_mounts_total (mount_line quotactl) t) as [m' ->]. cbn. eauto. }
    destruct T as (b & q & ->). cbn [mbind option_bind]. destruct (negb b); [eauto|]. destruct file as [t|]; [|eauto].
    destruct (read_mounts_total storage_line t) as [m' ->]. cbn. eauto.
  - intros Hes Hp. cbn [InvalidateQuotaMounts]. rewrite !read_mounts_lines by done. cbn [mbind option_bind negb].
    eexists. split; [done|]. split; [done|]. split; [done|]. unfold findDataMediaPath. rewrite Hp. cbn [mbind option_bind mStorageMounts set_mounts].
    set (media := path ++ lit "/media"). assert (Hm : media <> []) by by eapply data_path_nonempty.
    assert (L : storage_line [] (last_target es []) (foldl (fun m e => storage_line (me_source e) (me_target e) m) ∅ es) !! media =
                default_view es media).
    { unfold storage_line at 1. destruct (prefixb _ _); [rewrite lookup_insert_ne by congruence|]; apply storage_lines. }
    rewrite L. destruct (default_view es media) as [r|] eqn:E; [|done]. apply default_view_nonempty in E. by destruct r.
Qed.

Definition storage_example : list mount_entry :=
  [MountEntry (lit "/dev/block/dm-0") (lit "/data") (lit "ext4 rw 0 0");
   MountEntry (lit "/data/media") (lit "/mnt/runtime/default/emulated") (lit "sdcardfs rw 0 0")].

Lemma storage_mounts_parsed_witness :
  let s := Service ∅ ∅ ∅ in
  let text := Some (concat (map print_mount storage_example)) in
  exists s', invalidateMounts (aid := aid_android) (fun _ _ _ => Some 1) 1000 text text s = Some (Ok, s') /\ mCacheQuotas s' = ∅ /\
    mMounts s' = <[lit "/data" := lit "/dev/block/dm-0"]> ∅ /\
    findDataMediaPath false (mStorageMounts s') None 0 = Some (lit "/mnt/runtime/default/emulated/0").
Proof.
  apply (storage_mounts_parsed (aid := aid_android) (fun _ _ _ => Some 1) false None None storage_example (Service ∅ ∅ ∅) None (lit "/data") 0).
  - repeat constructor; cbn; apply (bool_decide_eq_true_1 _); reflexivity.
  - reflexivity.
Defined.

(** The end of the file leaves an entry for the empty path where the last
    mount is one of the shared storage. *)
Lemma stray_mount :
  (fun r => mStorageMounts (snd r) !! ([] : str)) <$>
    invalidateMounts (aid := aid_android) (fun _ _ _ => None) 1000 (Some []) (Some (concat (map print_mount storage_example))) (Service ∅ ∅ ∅) =
  Some (Some (lit "/mnt/runtime/default/emulated")).
Proof. by vm_compute. Qed.
