(* ===== verification/World.v ===== *)
(** The file system as the handlers of [installd] see it.

    A handler asks the system questions and makes calls that change it. The
    class [World] has the answers as functions of an abstract state and the
    calls as transitions that return a result, so that an answer may depend on
    everything that happened before. [WorldOk] states what the calls promise
    of the nodes of the file system, and [io] is the monad the handlers run
    in. *)

From S2P Require Import Prelude Platform Fts InstalldPaths InstalldFs.

Open Scope Z_scope.

(** * Calls *)

(** What a handler asks the system to do. [DeleteDir] is [delete_dir_contents]
    of [utils.cpp], whose work on a directory is [InstalldFs]; [CopyDir] runs
    [cp -F -p -R -P -d from to]; [Child] is a process that executes another
    program as a user and is waited for; its result is the wait status. [OpenFile] and [PipeEnd],
    which makes one end of a pipe, answer with a descriptor or minus
    the error number, the calls on paths with 0 or the error number; calls on
    a descriptor name the path that it was opened for. A [Child] changes the
    files that it got a descriptor to write to. [WriteFd] answers with the
    number of bytes written, or a negative number; the verity calls are the
    requests to [ioctl]. *)
Inductive call :=
| PrepareDirStrict (path : str) (mode uid gid : Z)
| PrepareDir (path : str) (mode uid gid : Z)
| MakeDir (path : str) (mode : Z)
| DeleteDir (path : str) (also_delete_dir ignore_if_missing : bool)
| CopyDir (from to : str)
| Rename (from to : str)
| RemoveFile (path : str)
| RemoveEmptyDir (path : str)
| SymLink (target path : str)
| HardLink (from to : str)
| SetMode (path : str) (mode : Z)
| SetOwner (path : str) (uid gid : Z)
| SetOwnerLink (path : str) (uid gid : Z)
| SetAttr (path name : str) (value : Z)
| RemoveAttr (path name : str)
| SetLabel (path label : str)
| Restorecon (path : str) (recurse : bool)
| RestoreconPkg (path seinfo : str) (uid : Z) (recurse : bool)
| PrepareFileStrict (path : str) (mode uid gid : Z)
| OpenFile (path : str) (flags mode : Z)
| PipeEnd (write : bool)
| CloseFd (fd : Z)
| LockFd (fd : Z) (path : str) (operation : Z)
| TruncateFd (fd : Z) (path : str)
| ModeFd (fd : Z) (path : str) (mode : Z)
| OwnerFd (fd : Z) (path : str) (uid gid : Z)
| SetTimes (path : str) (atime mtime : Z)
| WriteFd (fd : Z) (path : str) (offset : Z) (data : str)
| EnableVerity (fd : Z) (path : str)
| MeasureVerity (fd : Z) (path : str) (digest : str)
| Child (argv : list str) (uid : Z) (writes : list str).

#[export] Instance call_eq_dec : EqDecision call.
Proof. solve_decision. Defined.

(** The flags of [open], with the values of the generic headers. *)
Definition O_RDONLY : Z := 0.
Definition O_WRONLY : Z := 1.
Definition O_RDWR : Z := 2.
Definition O_CREAT : Z := 64.
Definition O_EXCL : Z := 128.
Definition O_TRUNC : Z := 512.
Definition O_NOFOLLOW : Z := 131072.
Definition O_CLOEXEC : Z := 524288.

(** The paths a call changes, with what is below them. *)
Definition targets (c : call) : list str :=
  match c with
  | PrepareDirStrict p _ _ _ | PrepareDir p _ _ _ | MakeDir p _ | DeleteDir p _ _ | RemoveFile p
  | RemoveEmptyDir p | SymLink _ p | HardLink _ p | SetMode p _ | SetOwner p _ _ | SetOwnerLink p _ _
  | SetAttr p _ _ | RemoveAttr p _ | SetLabel p _ | Restorecon p _ | RestoreconPkg p _ _ _
  | PrepareFileStrict p _ _ _ | TruncateFd _ p | ModeFd _ p _ | OwnerFd _ p _ _ | SetTimes p _ _ | CopyDir _ p
  | WriteFd _ p _ _ | EnableVerity _ p => [p]
  | OpenFile p flags _ => if nz (Z.land flags (Z.lor O_CREAT O_TRUNC)) then [p] else []
  | Rename from to => [from; to]
  | PipeEnd _ | CloseFd _ | LockFd _ _ _ | MeasureVerity _ _ _ => []
  | Child _ _ writes => writes
  end.

(** * Worlds *)

Class World (W : Type) := {
  w_access : W -> str -> bool;                      (* access(path, F_OK) == 0 *)
  w_isdir : W -> str -> bool;                       (* lstat succeeds, S_ISDIR *)
  w_stat : W -> str -> stat + Z;
  w_lstat : W -> str -> stat + Z;
  w_opendir : W -> str -> option (list dirent);
  w_tree : W -> str -> option ftree;                (* what fts meets at a path *)
  w_attr : W -> xattrs;
  w_label : W -> str -> option str;                 (* lgetfilecon *)
  w_call : call -> W -> Z * W;                      (* the result, and errno for calls that report it *)
}.

(** ** The monad *)

(** [None]: the process aborted in a [CHECK]. *)
Definition io (W A : Type) : Type := W -> option (A * W).

Definition io_bind {W A B} (c : io W A) (k : A -> io W B) : io W B :=
  fun w => match c w with Some (a, w') => k a w' | None => None end.

#[export] Instance io_ret W : MRet (io W) := fun A a w => Some (a, w).

Declare Scope io_scope.
Delimit Scope io_scope with io.
Notation "x ← y ; z" := (io_bind y (fun x => z))
  (at level 20, y at level 100, z at level 200, only parsing) : io_scope.
Notation "' x ← y ; z" := (io_bind y (fun x => z))
  (at level 20, x pattern, y at level 100, z at level 200, only parsing) : io_scope.
Open Scope io_scope.

Definition ask {W A} (q : W -> A) : io W A := fun w => Some (q w, w).
Definition abort_if_none {W A} (o : option A) : io W A := fun w => match o with Some a => Some (a, w) | None => None end.

Section Io.
Context {W : Type} {world : World W}.

Definition do_call (c : call) : io W Z := fun w => Some (w_call c w).

(** [a || b || ...]: the calls up to the first that fails; [true] if one did. *)
Fixpoint any_fails (l : list (io W Z)) : io W bool :=
  match l with
  | [] => mret false
  | c :: l' => r ← c; if nz r then mret true else any_fails l'
  end.

Fixpoint for_all {A} (l : list A) (body : A -> io W unit) : io W unit :=
  match l with
  | [] => mret ()
  | a :: l' => _ ← body a; for_all l' body
  end.

(** A loop with a variable. *)
Fixpoint fold_io {A S} (l : list A) (body : A -> S -> io W S) (s : S) : io W S :=
  match l with
  | [] => mret s
  | a :: l' => s' ← body a s; fold_io l' body s'
  end.

End Io.

(** * Promises *)

(** No component is [.] or [..]. *)
Definition plain (p : str) : bool := forallb (fun c => negb (is_dot c)) (comps p).

(** The last component of a path, as [cp] takes it for the destination. *)
Definition basename (p : str) : str := default [] (last (comps p)).

(** The calls that change labels and attributes only. *)
Definition label_call (c : call) : bool :=
  match c with
  | SetAttr _ _ _ | RemoveAttr _ _ | SetLabel _ _ | Restorecon _ _ | RestoreconPkg _ _ _ _ => true
  | _ => false
  end.

(** The names that [fts] meets: it does not report [.] and [..]. *)
Definition name_ok (n : str) : Prop := slash ∉ n /\ n <> [] /\ is_dot n = false.

Fixpoint names_ok (t : ftree) : Prop :=
  match t with
  | Leaf _ _ _ => True
  | Dir _ _ _ ch =>
      (fix go l := match l with [] => True | c :: l' => name_ok (ftree_name c) /\ names_ok c /\ go l' end) ch
  end.

(** [view] is what is stored at a path: kind, mode, owner and contents, [None]
    where there is nothing. A node has one name, so nothing is stored at a
    path that is not [plain]; links among the directories that the handlers
    name are not described.

    A call changes nodes at or below its paths only; a label or an attribute
    is not part of the view. A deletion creates nothing, and one that succeeds
    leaves nothing below the directory ([InstalldFs.delete_dir_contents_spec] without exclusions). A
    copy into a directory that exists puts every node of the source below it
    and keeps what else is there. *)
Class WorldOk {W : Type} (world : World W) {Node : Type} (view : W -> str -> option Node) (is_dir : Node -> bool) : Prop := {
  access_view : forall w p, plain p = true -> w_access w p = match view w p with Some _ => true | None => false end;
  isdir_view : forall w p, plain p = true -> w_isdir w p = match view w p with Some n => is_dir n | None => false end;
  stat_view : forall w p st, plain p = true -> w_stat w p = inl st -> view w p <> None;
  listed_names : forall w p l e, w_opendir w p = Some l -> e ∈ l -> slash ∉ d_name e;
  tree_names : forall w p t, w_tree w p = Some t -> names_ok t;
  call_frame : forall c w q,
    Forall (fun p => plain p = true /\ ~ below p q) (targets c) -> view (snd (w_call c w)) q = view w q;
  label_view : forall c w q, label_call c = true -> view (snd (w_call c w)) q = view w q;
  made_done : forall p mode w, plain p = true ->
    fst (w_call (MakeDir p mode) w) = 0 -> view (snd (w_call (MakeDir p mode) w)) p <> None;
  delete_shrinks : forall p also ign w q, plain p = true ->
    view (snd (w_call (DeleteDir p also ign) w)) q = view w q \/ view (snd (w_call (DeleteDir p also ign) w)) q = None;
  delete_done : forall p also ign w, plain p = true ->
    fst (w_call (DeleteDir p also ign) w) = 0 ->
    let w' := snd (w_call (DeleteDir p also ign) w) in
    (forall rest, view w' (p ++ slash :: rest) = None) /\ view w' p = if also then None else view w p;
  copy_frame : forall from to w q, plain from = true -> plain to = true ->
    view w to <> None -> ~ below (to ++ slash :: basename from) q ->
    view (snd (w_call (CopyDir from to) w)) q = view w q;
  copy_done : forall from to w, plain from = true -> plain to = true ->
    fst (w_call (CopyDir from to) w) = 0 -> view w to <> None ->
    let w' := snd (w_call (CopyDir from to) w) in
    let dest := to ++ slash :: basename from in
    view w from <> None /\ view w' dest = view w from /\
    forall rest, view w' (dest ++ slash :: rest) =
      match view w (from ++ slash :: rest) with
      | Some n => Some n
      | None => view w (dest ++ slash :: rest)
      end;
}.

(** * Reasoning *)

(** The program returns, with a result and a state that satisfy [Q]. *)
Definition wp {W A} (c : io W A) (Q : A -> W -> Prop) (w : W) : Prop :=
  match c w with Some (a, w') => Q a w' | None => False end.

Section Wp.
Context {W : Type} {world : World W}.

Lemma wp_bind {A B} (c : io W A) (k : A -> io W B) (Q : B -> W -> Prop) w :
  wp c (fun a => wp (k a) Q) w -> wp (io_bind c k) Q w.
Proof. unfold wp, io_bind. by destruct (c w) as [[a w']|]. Qed.

Lemma wp_ret {A} (a : A) (Q : A -> W -> Prop) w : Q a w -> wp (mret a) Q w.
Proof. done. Qed.

Lemma wp_ask {A} (q : W -> A) (Q : A -> W -> Prop) w : Q (q w) w -> wp (ask q) Q w.
Proof. done. Qed.

Lemma wp_some {A} (o : option A) (a : A) (Q : A -> W -> Prop) w :
  o = Some a -> Q a w -> wp (abort_if_none o) Q w.
Proof. by intros ->. Qed.

Lemma wp_mono {A} (c : io W A) (P Q : A -> W -> Prop) w :
  wp c P w -> (forall a w', P a w' -> Q a w') -> wp c Q w.
Proof. unfold wp. destruct (c w) as [[a w']|]; [|done]. intros HP H. by apply H. Qed.

Lemma run_result {A} (c : io W A) w a w0 : fst <$> c w = Some a -> c w = Some (a, default w0 (snd <$> c w)).
Proof. destruct (c w) as [[a' w']|]; [|done]. cbn. by intros [= ->]. Qed.

Lemma wp_exists {A} (c : io W A) (Q : A -> W -> Prop) w : wp c Q w -> exists a w', c w = Some (a, w') /\ Q a w'.
Proof. unfold wp. destruct (c w) as [[a w']|]; [|done]. by exists a, w'. Qed.

Lemma wp_run {A} (c : io W A) (Q : A -> W -> Prop) w a w' : wp c Q w -> c w = Some (a, w') -> Q a w'.
Proof. unfold wp. intros H E. by rewrite E in H. Qed.

(** If the program returns. *)
Definition wlp {A} (c : io W A) (Q : A -> W -> Prop) (w : W) : Prop := forall a w', c w = Some (a, w') -> Q a w'.

Lemma wlp_bind {A B} (c : io W A) (k : A -> io W B) (Q : B -> W -> Prop) w :
  wlp c (fun a => wlp (k a) Q) w -> wlp (io_bind c k) Q w.
Proof. intros H b w' E. unfold io_bind in E. destruct (c w) as [[a w1]|] eqn:Ec; [|done]. by apply (H a w1 Ec). Qed.

Lemma wlp_ret {A} (a : A) (Q : A -> W -> Prop) w : Q a w -> wlp (mret a) Q w.
Proof. intros H b w' [= <- <-]. exact H. Qed.

Lemma wlp_ask {A} (q : W -> A) (Q : A -> W -> Prop) w : Q (q w) w -> wlp (ask q) Q w.
Proof. intros H b w' [= <- <-]. exact H. Qed.

Lemma wlp_some {A} (o : option A) (Q : A -> W -> Prop) w : (forall a, o = Some a -> Q a w) -> wlp (abort_if_none o) Q w.
Proof. intros H b w'. unfold abort_if_none. destruct o; [|done]. intros [= <- <-]. by apply H. Qed.

Lemma wlp_mono {A} (c : io W A) (P Q : A -> W -> Prop) w :
  wlp c P w -> (forall a w', P a w' -> Q a w') -> wlp c Q w.
Proof. intros H HQ a w' E. apply HQ, H, E. Qed.

Lemma wlp_of_wp {A} (c : io W A) (Q : A -> W -> Prop) w : wp c Q w -> wlp c Q w.
Proof. intros H a w' E. by apply (wp_run c Q w). Qed.

End Wp.

(** ** What [fts] visits *)

Section Visits.
Context {St : Type} (body : FTSENT -> St -> St * bool) (I : St -> Prop) (R : str -> Prop).
Context (Hbody : forall e st, R (fts_path e) -> I st -> I (fst (body e st))).
Context (Hchild : forall p n, R p -> name_ok n -> R (child_path p n)).

Lemma leaf_step_invariant e st : R (fts_path e) -> I st -> I (leaf_step body e st).
Proof. apply Hbody. Qed.

(** What holds of the paths of a tree and is kept by the body. *)
Lemma tree_fold_invariant t parent level path id st :
  names_ok t -> R path -> I st -> I (tree_fold body parent level path id t st).
Proof.
  revert parent level path id st. induction t as [info name s|name s rd ch IH] using ftree_ind';
    intros parent level path id st Hn HR HI; [by apply leaf_step_invariant|].
  rewrite tree_fold_Dir. cbv zeta. set (e := Ftsent FTS_D level path name s id parent).
  assert (He : I (fst (body e st))) by by apply Hbody. destruct (body e st) as [st1 []]; cbn [fst] in He.
  { by apply leaf_step_invariant. }
  destruct rd; cbn [todo_fold]; (apply leaf_step_invariant; [done|]); [|done].
  cbn [names_ok] in Hn. clear HI. revert st1 He. generalize 0%nat.
  induction IH as [|c ch IHc _ IHl]; intros i st1 He; [done|]. destruct Hn as (Hc1 & Hc2 & Hl).
  cbn [forest_fold fts_level fts_path fts_id]. apply IHl; [done|].
  apply IHc; [done|by apply Hchild|done].
Qed.
End Visits.

(** Paths that [fts] builds below a root. *)
Definition within (root p : str) : Prop := below root p /\ plain p = true /\ ends_slash p = false.

Lemma ends_slash_child p n : slash ∉ n -> n <> [] -> ends_slash (p ++ slash :: n) = false.
Proof.
  intros Hs Hn. unfold ends_slash. destruct (exists_last Hn) as (n' & c & ->).
  rewrite app_comm_cons, app_assoc, last_snoc. apply Ascii.eqb_neq. set_solver.
Qed.

Lemma within_child root p n : within root p -> name_ok n -> within root (child_path p n).
Proof.
  intros (Hb & Hp & He) (Hs & Hn & Hd). unfold child_path. rewrite He.
  assert (Hjoin : comps (p ++ slash :: n) = comps p ++ [n]) by by apply comps_join.
  split_and!.
  - eapply below_trans; [exact Hb|apply below_join_r].
  - unfold plain. rewrite Hjoin, forallb_app. unfold plain in Hp. rewrite Hp. cbn. by rewrite Hd.
  - by apply ends_slash_child.
Qed.

(** ** Frames *)

Section Frame.
Context {W : Type} {world : World W} {Node : Type} {view : W -> str -> option Node} {is_dir : Node -> bool}.
Context {ok : WorldOk world view is_dir}.

(** The nodes that [S] selects are the same in both states. *)
Definition agree (S : str -> Prop) (w w' : W) : Prop := forall q, S q -> view w' q = view w q.

Lemma agree_refl S w : agree S w w.
Proof. by intros q. Qed.

Lemma agree_trans S w1 w2 w3 : agree S w1 w2 -> agree S w2 w3 -> agree S w1 w3.
Proof. intros H1 H2 q Hq. by rewrite H2, H1. Qed.

Lemma agree_sub (S T : str -> Prop) w w' : agree S w w' -> (forall q, T q -> S q) -> agree T w w'.
Proof. intros H HS q Hq. by apply H, HS. Qed.

(** What lies outside the given directories. *)
Definition outside (ps : list str) (q : str) : Prop := Forall (fun p => ~ below p q) ps.

Lemma call_agrees c w (S : str -> Prop) :
  Forall (fun p => plain p = true /\ forall q, S q -> ~ below p q) (targets c) ->
  agree S w (snd (w_call c w)).
Proof.
  intros Hc q Hq. apply call_frame. eapply Forall_impl; [exact Hc|]. intros p [Hp H]. split; [done|by apply H].
Qed.

Lemma wp_call c (Q : Z -> W -> Prop) w : Q (fst (w_call c w)) (snd (w_call c w)) -> wp (do_call c) Q w.
Proof. unfold wp, do_call. by destruct (w_call c w). Qed.

(** Nothing is stored below a path. *)
Definition emptied (p : str) (w : W) : Prop := forall rest, view w (p ++ slash :: rest) = None.

Lemma emptied_delete p w p' also ign :
  plain p' = true -> emptied p w -> emptied p (snd (w_call (DeleteDir p' also ign) w)).
Proof.
  intros Hp H rest. destruct (delete_shrinks p' also ign w (p ++ slash :: rest) Hp) as [-> | ->]; [apply H|done].
Qed.

Lemma emptied_agree p w w' (S : str -> Prop) :
  agree S w w' -> (forall rest, S (p ++ slash :: rest)) -> emptied p w -> emptied p w'.
Proof. intros Ha HS H rest. by rewrite Ha. Qed.

(** A loop keeps what every round keeps. *)
Lemma wp_fold_io {A St} (l : list A) (body : A -> St -> io W St) (I : St -> W -> Prop) s w :
  I s w -> (forall a s w, a ∈ l -> I s w -> wp (body a s) I w) -> wp (fold_io l body s) I w.
Proof.
  revert s w. induction l as [|a l IH]; intros s w HI Hb; [exact HI|]. cbn [fold_io]. apply wp_bind.
  eapply wp_mono; [apply Hb; [left|exact HI]|]. intros s' w' HI'. apply IH; [done|].
  intros a' s2 w2 Ha. apply Hb. by right.
Qed.

Lemma wp_for_all {A} (l : list A) (body : A -> io W unit) (I : W -> Prop) w :
  I w -> (forall a w, a ∈ l -> I w -> wp (body a) (fun _ => I) w) -> wp (for_all l body) (fun _ => I) w.
Proof.
  revert w. induction l as [|a l IH]; intros w HI Hb; [exact HI|]. cbn [for_all]. apply wp_bind.
  eapply wp_mono; [apply Hb; [left|exact HI]|]. intros [] w' HI'. apply IH; [done|].
  intros a' w2 Ha. apply Hb. by right.
Qed.

Lemma wp_any_fails (l : list (io W Z)) (I : W -> Prop) w :
  I w -> (forall c w, c ∈ l -> I w -> wp c (fun _ => I) w) -> wp (any_fails l) (fun _ => I) w.
Proof.
  revert w. induction l as [|c l IH]; intros w HI Hb; [exact HI|]. cbn [any_fails]. apply wp_bind.
  eapply wp_mono; [apply Hb; [left|exact HI]|]. intros r w' HI'. destruct (nz r); [exact HI'|].
  apply IH; [done|]. intros c' w2 Hc. apply Hb. by right.
Qed.

End Frame.

(** Forward through the monad. *)
Ltac wp1 :=
  match goal with
  | |- wp (io_bind _ _) _ _ => apply wp_bind
  | |- wp (mret _) _ _ => apply wp_ret
  | |- wp (ask _) _ _ => apply wp_ask
  | |- wp (do_call _) _ _ => apply wp_call
  | |- wp (if ?b then _ else _) _ _ => destruct b eqn:?
  end.
Ltac wps := repeat (wp1; cbv beta).

#[export] Hint Resolve agree_refl : cmds.
