(* ===== verification/AppPaths.v ===== *)
(** The directories of an application, as the handlers of [installd] name
    them: the functions of [InstalldPaths] computed for a valid package on a
    given volume, the components of their results, and when two of them have
    no node in common. *)

From S2P Require Import Prelude Platform Fts InstalldPaths InstalldFs World.

Open Scope Z_scope.

(** * Directories

    [d] is the data directory of a volume ([create_data_path]). *)

Definition user_ce_dir (isdir : str -> bool) (v : option str) (u : N) (d : str) : str :=
  if (match v with None => true | Some _ => false end) && (u =? 0)%N && isdir (d ++ lit "/data")
  then d ++ lit "/data" else d ++ lit "/user/" ++ fmt_u u.

Definition user_de_dir (u : N) (d : str) : str := d ++ lit "/user_de/" ++ fmt_u u.

Definition ce_rollback_dir (u : N) (snap : Z) (d : str) : str :=
  d ++ lit "/misc_ce/" ++ fmt_u u ++ lit "/rollback" ++ slash :: fmt_d snap.

Definition de_rollback_dir (u : N) (snap : Z) (d : str) : str :=
  d ++ lit "/misc_de/" ++ fmt_u u ++ lit "/rollback" ++ slash :: fmt_d snap.

Definition app_dir (d : str) : str := d ++ lit "/app".

(** The directories of a package and of its snapshots. *)
Definition ce_package (isdir : str -> bool) (v : option str) (u : N) (d pkg : str) : str :=
  user_ce_dir isdir v u d ++ slash :: pkg.
Definition de_package (u : N) (d pkg : str) : str := user_de_dir u d ++ slash :: pkg.
Definition ce_snapshot (u : N) (snap : Z) (d pkg : str) : str := ce_rollback_dir u snap d ++ slash :: pkg.
Definition de_snapshot (u : N) (snap : Z) (d pkg : str) : str := de_rollback_dir u snap d ++ slash :: pkg.

(** * Components *)

Lemma comps_app p q : comps (p ++ slash :: q) = comps p ++ comps q.
Proof. apply split_on_app. Qed.

Lemma comps_single s : slash ∉ s -> comps s = [s].
Proof. apply split_on_single. Qed.

Lemma plain_app p q : plain (p ++ slash :: q) = plain p && plain q.
Proof. unfold plain. by rewrite comps_app, forallb_app. Qed.

Lemma plain_single s : slash ∉ s -> plain s = negb (is_dot s).
Proof. intros Hs. unfold plain. rewrite comps_single by done. simpl. by rewrite andb_true_r. Qed.

(** Entries of one directory. *)
Lemma siblings_apart p n n' q : slash ∉ n -> slash ∉ n' -> n <> n' -> below (p ++ slash :: n) q -> ~ below (p ++ slash :: n') q.
Proof.
  intros H1 H2 Hn [l E]%below_comps [l' E']%below_comps. rewrite E, !comps_join, <- !app_assoc in E' by done.
  apply app_inv_head in E'. by injection E' as E' _.
Qed.

Lemma not_below_parent dir name : ~ below (dir ++ slash :: name) dir.
Proof.
  intros [l Hl]%below_comps. apply (f_equal length) in Hl. rewrite comps_app, !length_app in Hl.
  unfold comps at 3 in Hl. pose proof (split_on_nonempty slash name) as Hn.
  destruct (split_on slash name); [done|]. simpl in Hl. lia.
Qed.

Lemma numeral_plain s : forallb numeral s = true -> plain s = true.
Proof.
  intros Hs. rewrite plain_single by by apply numeral_not.
  unfold is_dot. apply negb_true_iff, orb_false_iff. split; apply str_eqb_neq; by intros ->.
Qed.

Lemma valid_package_name s :
  check_package_name s = Some () -> slash ∉ s /\ plain s = true /\ is_valid_package_name s = true.
Proof.
  unfold check_package_name, check. destruct (is_valid_filename s); [|done].
  destruct (is_valid_package_name s) eqn:E; [|done]. intros _.
  pose proof (package_name_noslash _ E) as Hs. split_and!; [done| |done].
  rewrite plain_single by done. unfold is_dot. apply negb_true_iff, orb_false_iff.
  split; apply str_eqb_neq; by intros ->.
Qed.

Lemma user_de_dir_eq u d : user_de_dir u d = d ++ slash :: lit "user_de" ++ slash :: fmt_u u.
Proof. done. Qed.

Lemma user_ce_dir_eq isdir v u d :
  user_ce_dir isdir v u d = d ++ slash :: lit "data" \/
  user_ce_dir isdir v u d = d ++ slash :: lit "user" ++ slash :: fmt_u u.
Proof. unfold user_ce_dir. destruct (_ && _); [by left|by right]. Qed.

Lemma ce_rollback_dir_eq u snap d :
  ce_rollback_dir u snap d = d ++ slash :: lit "misc_ce" ++ slash :: fmt_u u ++ slash :: lit "rollback" ++ slash :: fmt_d snap.
Proof. done. Qed.

Lemma de_rollback_dir_eq u snap d :
  de_rollback_dir u snap d = d ++ slash :: lit "misc_de" ++ slash :: fmt_u u ++ slash :: lit "rollback" ++ slash :: fmt_d snap.
Proof. done. Qed.

Lemma app_dir_eq d : app_dir d = d ++ slash :: lit "app".
Proof. done. Qed.

(** ** Kinds of directories *)

(** The directories named in a volume, by their first component there. *)
Inductive area := ACe | ACeLegacy | ADe | AMiscCe | AMiscDe | AApp.

#[export] Instance area_eq_dec : EqDecision area.
Proof. solve_decision. Defined.

Definition area_name (a : area) : str :=
  match a with
  | ACe => lit "user" | ACeLegacy => lit "data" | ADe => lit "user_de"
  | AMiscCe => lit "misc_ce" | AMiscDe => lit "misc_de" | AApp => lit "app"
  end.

Lemma area_name_noslash a : slash ∉ area_name a.
Proof. apply find_char_None. by destruct a. Qed.

Lemma area_name_plain a : plain (area_name a) = true.
Proof. by destruct a. Qed.

Lemma area_name_inj a b : area_name a = area_name b -> a = b.
Proof. by destruct a, b. Qed.

(** The path [p] lies in the area [a] of the volume [d]. *)
Definition in_area (d : str) (a : area) (p : str) : Prop := exists l, comps p = comps d ++ area_name a :: l.

Lemma in_area_below d a p q : in_area d a p -> below p q -> in_area d a q.
Proof. intros [l H] [l' H']%below_comps. exists (l ++ l'). by rewrite H', H, <- app_assoc. Qed.

Lemma areas_disjoint d a b p q : in_area d a p -> in_area d b q -> a <> b -> ~ below p q.
Proof.
  intros Hp [l Hq] Hab Hb. destruct (in_area_below _ _ _ _ Hp Hb) as [l' Hq'].
  rewrite Hq in Hq'. apply app_inv_head in Hq'. injection Hq' as H _. by apply Hab, area_name_inj.
Qed.

Lemma in_area_intro d a rest : in_area d a (d ++ slash :: area_name a ++ slash :: rest).
Proof. exists (comps rest). by rewrite !comps_app, (comps_single (area_name a)) by apply area_name_noslash. Qed.

Lemma in_area_root d a : in_area d a (d ++ slash :: area_name a).
Proof. exists []. by rewrite comps_app, (comps_single (area_name a)) by apply area_name_noslash. Qed.

Lemma in_area_sub d a p rest : in_area d a p -> in_area d a (p ++ slash :: rest).
Proof. intros H. eapply in_area_below; [exact H|]. right. by exists rest. Qed.

Definition ce_area (isdir : str -> bool) (v : option str) (u : N) (d : str) : area :=
  if (match v with None => true | Some _ => false end) && (u =? 0)%N && isdir (d ++ lit "/data")
  then ACeLegacy else ACe.

Lemma ce_in_area isdir v u d : in_area d (ce_area isdir v u d) (user_ce_dir isdir v u d).
Proof.
  unfold ce_area, user_ce_dir. destruct (_ && _); [apply (in_area_root d ACeLegacy)|apply (in_area_intro d ACe)].
Qed.

Lemma de_in_area u d : in_area d ADe (user_de_dir u d).
Proof. apply (in_area_intro d ADe). Qed.

Lemma ce_rollback_in_area u snap d : in_area d AMiscCe (ce_rollback_dir u snap d).
Proof. apply (in_area_intro d AMiscCe). Qed.

Lemma de_rollback_in_area u snap d : in_area d AMiscDe (de_rollback_dir u snap d).
Proof. apply (in_area_intro d AMiscDe). Qed.

Lemma app_in_area d : in_area d AApp (app_dir d).
Proof. apply (in_area_root d AApp). Qed.

#[export] Hint Resolve ce_in_area de_in_area ce_rollback_in_area de_rollback_in_area app_in_area in_area_sub : cmds.

(** ** Plainness *)

Lemma user_ce_plain isdir v u d : plain d = true -> plain (user_ce_dir isdir v u d) = true.
Proof.
  intros Hd. destruct (user_ce_dir_eq isdir v u d) as [-> | ->]; rewrite !plain_app, Hd; [done|].
  by rewrite (numeral_plain (fmt_u u)) by apply fmt_u_numeral.
Qed.

Lemma user_de_plain u d : plain d = true -> plain (user_de_dir u d) = true.
Proof. intros Hd. rewrite user_de_dir_eq, !plain_app, Hd, (numeral_plain (fmt_u u)) by apply fmt_u_numeral. done. Qed.

Lemma ce_rollback_plain u snap d : plain d = true -> plain (ce_rollback_dir u snap d) = true.
Proof.
  intros Hd. rewrite ce_rollback_dir_eq, !plain_app, Hd, (numeral_plain (fmt_u u)) by apply fmt_u_numeral.
  by rewrite (numeral_plain (fmt_d snap)) by apply fmt_d_numeral.
Qed.

Lemma de_rollback_plain u snap d : plain d = true -> plain (de_rollback_dir u snap d) = true.
Proof.
  intros Hd. rewrite de_rollback_dir_eq, !plain_app, Hd, (numeral_plain (fmt_u u)) by apply fmt_u_numeral.
  by rewrite (numeral_plain (fmt_d snap)) by apply fmt_d_numeral.
Qed.

Lemma app_dir_plain d : plain d = true -> plain (app_dir d) = true.
Proof. intros Hd. by rewrite app_dir_eq, plain_app, Hd. Qed.

Lemma package_dir_plain dir pkg : plain dir = true -> check_package_name pkg = Some () -> plain (dir ++ slash :: pkg) = true.
Proof. intros Hd (_ & Hp & _)%valid_package_name. by rewrite plain_app, Hd, Hp. Qed.

#[export] Hint Resolve user_ce_plain user_de_plain ce_rollback_plain de_rollback_plain app_dir_plain package_dir_plain : cmds.

Lemma data_path_plain debuggable v d : create_data_path debuggable v = Some d -> plain d = true.
Proof.
  unfold create_data_path. destruct v as [u|]; [|by intros [= <-]].
  destruct (u =s? lit "TEST"); [unfold check; destruct debuggable; simpl; [by intros [= <-]|done]|].
  unfold check. destruct (is_valid_filename u) eqn:E; simpl; [|done]. intros Hd. apply (inj Some) in Hd as <-.
  change (plain (lit "/mnt/expand" ++ slash :: u) = true). rewrite plain_app.
  unfold is_valid_filename in E. apply negb_true_iff in E. rewrite !orb_false_iff in E. destruct E as [[[_ E1] E2] E3].
  rewrite (plain_single u); [unfold is_dot; by rewrite E1, E2|].
  apply find_char_None. by destruct (find_char slash u 0).
Qed.

Lemma basename_sub dir name : slash ∉ name -> basename (dir ++ slash :: name) = name.
Proof. intros Hn. unfold basename. rewrite comps_join by done. by rewrite last_snoc. Qed.

(** * The functions of [InstalldPaths] *)

Section Paths.
Context (debuggable : bool) (isdir : str -> bool) (opendir : str -> option (list dirent)) (v : option str) (d pkg : str).
Context (Hd : create_data_path debuggable v = Some d) (Hpkg : check_package_name pkg = Some ()).

Lemma ce_path_eq u : create_data_user_ce_path debuggable isdir v u = Some (user_ce_dir isdir v u d).
Proof. unfold create_data_user_ce_path, user_ce_dir. rewrite Hd. cbn [mbind option_bind]. by destruct (_ && _). Qed.

Lemma ce_package_path_eq u :
  create_data_user_ce_package_path debuggable isdir v u pkg = Some (user_ce_dir isdir v u d ++ slash :: pkg).
Proof. unfold create_data_user_ce_package_path. by rewrite Hpkg, ce_path_eq. Qed.

Lemma de_path_eq u : create_data_user_de_path debuggable v u = Some (user_de_dir u d).
Proof. unfold create_data_user_de_path. by rewrite Hd. Qed.

Lemma de_package_path_eq u : create_data_user_de_package_path debuggable v u pkg = Some (user_de_dir u d ++ slash :: pkg).
Proof. unfold create_data_user_de_package_path. by rewrite Hpkg, de_path_eq. Qed.

Lemma ce_rollback_path_eq u snap : create_data_misc_ce_rollback_path debuggable v u snap = Some (ce_rollback_dir u snap d).
Proof.
  unfold create_data_misc_ce_rollback_path, create_data_misc_ce_rollback_base_path. rewrite Hd. cbn [mbind option_bind].
  by rewrite <- !app_assoc.
Qed.

Lemma de_rollback_path_eq u snap : create_data_misc_de_rollback_path debuggable v u snap = Some (de_rollback_dir u snap d).
Proof.
  unfold create_data_misc_de_rollback_path, create_data_misc_de_rollback_base_path. rewrite Hd. cbn [mbind option_bind].
  by rewrite <- !app_assoc.
Qed.

Lemma ce_rollback_package_path_eq u snap :
  create_data_misc_ce_rollback_package_path debuggable v u snap pkg = Some (ce_rollback_dir u snap d ++ slash :: pkg).
Proof. unfold create_data_misc_ce_rollback_package_path. by rewrite ce_rollback_path_eq. Qed.

Lemma de_rollback_package_path_eq u snap :
  create_data_misc_de_rollback_package_path debuggable v u snap pkg = Some (de_rollback_dir u snap d ++ slash :: pkg).
Proof. unfold create_data_misc_de_rollback_package_path. by rewrite de_rollback_path_eq. Qed.

Lemma ce_package_path_inode_0_eq u :
  create_data_user_ce_package_path_inode debuggable isdir opendir v u pkg 0 = Some (user_ce_dir isdir v u d ++ slash :: pkg).
Proof. unfold create_data_user_ce_package_path_inode. by rewrite ce_package_path_eq, ce_path_eq. Qed.

Lemma app_path_eq : create_data_app_path debuggable v = Some (app_dir d).
Proof. unfold create_data_app_path. by rewrite Hd. Qed.

Lemma app_package_path_eq : create_data_app_package_path debuggable v pkg = Some (app_dir d ++ slash :: pkg).
Proof. unfold create_data_app_package_path. by rewrite Hpkg, app_path_eq. Qed.

End Paths.
