(* ===== verification/SimpleFs.v ===== *)
(** A file system that keeps the promises of [WorldOk].

    The state is a function from paths to nodes and every call is carried out
    on it, so the handlers can be run on concrete paths. It shows that the
    promises can be kept, and the theorems about the handlers are applied to
    it. *)

From S2P Require Import Prelude Platform Fts InstalldPaths InstalldFs World AppPaths.

Open Scope Z_scope.

Record node := Node { n_dir : bool; n_mode : Z; n_data : str }.

Abbreviation fs := (str -> option node).

Definition fs_view (w : fs) (p : str) : option node := if plain p then w p else None.

Definition belowb (p q : str) : bool := (p =s? q) || prefixb (p ++ [slash]) q.

Definition set_node (w : fs) (p : str) (n : node) : fs := fun q => if q =s? p then Some n else w q.

(** A directory that is made where there is none. *)
Definition fs_mkdir (w : fs) (p : str) (mode : Z) : Z * fs :=
  match w p with Some _ => (EEXIST, w) | None => (0, set_node w p (Node true mode [])) end.

Definition fs_delete (w : fs) (p : str) (also ign : bool) : Z * fs :=
  match w p with
  | None => (if ign then 0 else - ENOENT, fun q => if belowb p q then None else w q)
  | Some _ => (0, fun q => if belowb p q && (also || negb (q =s? p)) then None else w q)
  end.

(** What takes the place of a node below [dest] in a copy of [from]. *)
Definition moved (from dest q : str) : str := from ++ drop (length dest) q.

(** A copy of a directory onto itself is refused, as [cp] does. *)
Definition fs_copy (w : fs) (from to : str) : Z * fs :=
  let dest := to ++ slash :: basename from in
  match fs_view w to, fs_view w from with
  | Some _, Some _ =>
      if from =s? dest then (1, w)
      else (0, fun q => if belowb dest q then match w (moved from dest q) with Some n => Some n | None => w q end else w q)
  | _, _ => (1, w)
  end.

Definition fs_rename (w : fs) (from to : str) : Z * fs :=
  match w from with
  | None => (-1, w)
  | Some _ => (0, fun q => if belowb to q then w (moved from to q) else if belowb from q then None else w q)
  end.

Definition fs_call (c : call) (w : fs) : Z * fs :=
  match c with
  | PrepareDirStrict p mode _ _ | PrepareDir p mode _ _ => (0, set_node w p (Node true mode []))
  | MakeDir p mode => fs_mkdir w p mode
  | DeleteDir p also ign => fs_delete w p also ign
  | CopyDir from to => fs_copy w from to
  | Rename from to => fs_rename w from to
  | RemoveFile p | RemoveEmptyDir p => (0, fun q => if q =s? p then None else w q)
  | SymLink target p => (0, set_node w p (Node false 511 target))
  | HardLink from p => (0, fun q => if q =s? p then w from else w q)
  | PrepareFileStrict p mode _ _ => (0, set_node w p (Node false mode []))
  | _ => (0, w)
  end.

Definition fs_stat (w : fs) (p : str) : stat + Z :=
  match fs_view w p with
  | Some n => inl (Stat 7 (if n_dir n then S_IFDIR else S_IFREG) (n_mode n) 10010 10010 (Z.of_nat (length (n_data n))) 8 0)
  | None => inr ENOENT
  end.

(** One more user, 10. *)
Definition fs_entries (p : str) : option (list dirent) :=
  if p =s? lit "/data/user/" then Some [Dirent (lit ".") 2 DT_DIR; Dirent (lit "..") 1 DT_DIR; Dirent (lit "10") 3 DT_DIR]
  else None.

#[export] Instance simple_fs : World fs := {|
  w_access w p := match fs_view w p with Some _ => true | None => false end;
  w_isdir w p := match fs_view w p with Some n => n_dir n | None => false end;
  w_stat := fs_stat;
  w_lstat := fs_stat;
  w_opendir _ := fs_entries;
  w_tree _ _ := None;
  w_attr _ := ∅;
  w_label _ _ := Some (lit "u:object_r:app_data_file:s0");
  w_call := fs_call;
|}.

(** * It keeps the promises *)

Lemma belowb_spec p q : belowb p q = true <-> below p q.
Proof.
  unfold belowb, below. rewrite orb_true_iff, str_eqb_eq, prefixb_spec. split.
  - intros [->|[t ->]]; [by left|right]. exists t. by rewrite <- app_assoc.
  - intros [->|[t ->]]; [by left|right]. exists t. by rewrite <- app_assoc.
Qed.

Lemma belowb_false p q : ~ below p q -> belowb p q = false.
Proof. rewrite <- belowb_spec. by destruct (belowb p q). Qed.

Lemma outside_compute ps q : forallb (fun p => negb (belowb p q)) ps = true -> outside ps q.
Proof.
  rewrite forallb_forall. intros H. apply Forall_forall. intros p Hp. apply list_elem_of_In, H in Hp.
  rewrite <- belowb_spec. by destruct (belowb p q).
Qed.

Lemma below_neq p q : ~ below p q -> q =s? p = false.
Proof. intros H. apply str_eqb_neq. intros ->. by destruct H; left. Qed.

Lemma basename_plain p : plain p = true -> plain (basename p) = true.
Proof.
  unfold basename. intros Hp. destruct (last (comps p)) as [s|] eqn:E; [|done]. change (plain s = true).
  apply last_Some in E as [l E]. rewrite plain_single.
  - unfold plain in Hp. rewrite E, forallb_app in Hp. apply andb_true_iff in Hp as [_ Hp]. cbn in Hp.
    by rewrite andb_true_r in Hp.
  - apply (split_on_no_sep slash p). unfold comps in E. rewrite E. apply elem_of_app. right. left.
Qed.

Lemma moved_sub from dest rest : moved from dest (dest ++ rest) = from ++ rest.
Proof. unfold moved. by rewrite drop_app_length. Qed.

Lemma fs_call_frame c w q :
  Forall (fun p => plain p = true /\ ~ below p q) (targets c) -> fs_view (snd (fs_call c w)) q = fs_view w q.
Proof.
  intros H. unfold fs_view. destruct (plain q); [|done].
  assert (Hs : forall p, Forall (fun p => plain p = true /\ ~ below p q) [p] -> belowb p q = false /\ q =s? p = false).
  { intros p [[_ Hp] _]%Forall_cons. by split; [apply belowb_false|apply below_neq]. }
  destruct c; cbn [targets] in H; cbn [fs_call snd]; try done;
    try (apply Hs in H as [Hb Hn]; unfold set_node; by rewrite ?Hb, ?Hn).
  - apply Hs in H as [Hb Hn]. unfold fs_mkdir. destruct (w path); [done|]. cbn. unfold set_node. by rewrite Hn.
  - apply Hs in H as [Hb Hn]. unfold fs_delete. destruct (w path); cbn; rewrite Hb, ?andb_false_r; done.
  - apply Forall_cons in H as [[_ H] _]. unfold fs_copy. destruct (fs_view w to); [|done]. destruct (fs_view w from); [|done].
    destruct (_ =s? _); [done|]. cbn. rewrite belowb_false; [done|]. intros Hb. apply H.
    eapply below_trans; [|exact Hb]. apply below_join_r.
  - apply Forall_cons in H as [[_ H1] H]. apply Hs in H as [H2 _]. unfold fs_rename. destruct (w from); [|done].
    cbn. by rewrite H2, belowb_false.
Qed.

Lemma fs_copy_frame from to w q :
  ~ below (to ++ slash :: basename from) q -> fs_view (snd (fs_copy w from to)) q = fs_view w q.
Proof.
  intros H. unfold fs_copy. destruct (fs_view w to); [|done]. destruct (fs_view w from); [|done].
  destruct (_ =s? _); [done|]. unfold fs_view. destruct (plain q); [|done]. cbn. by rewrite belowb_false.
Qed.

Lemma fs_copy_done from to w :
  plain from = true -> plain to = true -> fst (fs_copy w from to) = 0 ->
  let w' := snd (fs_copy w from to) in
  let dest := to ++ slash :: basename from in
  fs_view w from <> None /\ fs_view w' dest = fs_view w from /\
  forall rest, fs_view w' (dest ++ slash :: rest) =
    match fs_view w (from ++ slash :: rest) with
    | Some n => Some n
    | None => fs_view w (dest ++ slash :: rest)
    end.
Proof.
  intros Hf Ht Hz w' dest. assert (Hd : plain dest = true) by (unfold dest; by rewrite plain_app, Ht, basename_plain).
  unfold w', fs_copy in *. fold dest in Hz |- *.
  destruct (fs_view w to) as [n|] eqn:Eto; [|done]. destruct (fs_view w from) as [m|] eqn:Efrom; [|done].
  destruct (from =s? dest); [done|]. cbn [fst snd]. split; [done|].
  assert (Hb : forall rest, belowb dest (dest ++ slash :: rest) = true) by (intros rest; apply belowb_spec; right; by exists rest).
  split.
  - unfold fs_view. rewrite Hd. assert (belowb dest dest = true) as -> by (apply belowb_spec; by left).
    pose proof (moved_sub from dest []) as Hm. rewrite !app_nil_r in Hm. rewrite Hm.
    unfold fs_view in Efrom. rewrite Hf in Efrom. by rewrite Efrom.
  - intros rest. unfold fs_view. rewrite !plain_app, Hd, Hf, Hb, moved_sub. cbn [andb].
    by destruct (plain rest); [|].
Qed.

Lemma fs_delete_view w p also ign q :
  fs_view (snd (fs_delete w p also ign)) q = fs_view w q \/ fs_view (snd (fs_delete w p also ign)) q = None.
Proof.
  unfold fs_view. destruct (plain q); [|by left]. unfold fs_delete.
  destruct (w p); cbn [snd]; case_match; [by right|by left|by right|by left].
Qed.

Lemma fs_delete_done w p also ign :
  plain p = true -> fst (fs_delete w p also ign) = 0 ->
  (forall rest, fs_view (snd (fs_delete w p also ign)) (p ++ slash :: rest) = None) /\
  fs_view (snd (fs_delete w p also ign)) p = if also then None else fs_view w p.
Proof.
  intros Hp. unfold fs_delete.
  assert (Hb : forall rest, belowb p (p ++ slash :: rest) = true) by (intros rest; apply belowb_spec; right; by exists rest).
  assert (Hn : forall rest, (p ++ slash :: rest) =s? p = false).
  { intros rest. apply str_eqb_neq. intros E. apply (f_equal length) in E. rewrite length_app in E. simpl in E. lia. }
  assert (Hr : belowb p p = true) by (apply belowb_spec; by left).
  unfold fs_view. rewrite Hp. destruct (w p) eqn:Ew; cbn [fst snd].
  - intros _. split; [intros rest; rewrite Hb, Hn; cbn [negb andb]; rewrite orb_true_r; by case_match|].
    rewrite Hr, str_eqb_refl, orb_false_r. destruct also; [done|exact Ew].
  - intros _. split; [intros rest; rewrite Hb; by case_match|]. rewrite Hr. by destruct also.
Qed.

#[export] Instance simple_fs_ok : WorldOk simple_fs fs_view n_dir.
Proof.
  split; cbn [simple_fs w_access w_isdir w_stat w_opendir w_call].
  - done.
  - done.
  - intros w p st _. unfold fs_stat. by destruct (fs_view w p).
  - intros w p l e. unfold fs_entries. destruct (_ =s? _); [|done]. intros [= <-] He.
    rewrite !elem_of_cons in He. destruct He as [-> | [-> | [-> | He]]]; [by apply find_char_None..|by apply elem_of_nil in He].
  - done.
  - apply fs_call_frame.
  - intros c w q Hc. by destruct c.
  - intros p mode w Hp. cbn [fs_call]. unfold fs_mkdir. destruct (w p) eqn:E; [done|]. intros _.
    cbn. unfold fs_view, set_node. by rewrite Hp, str_eqb_refl.
  - intros p also ign w q _. apply fs_delete_view.
  - intros p also ign w Hp Hz. by apply fs_delete_done.
  - intros from to w q _ _ _. apply fs_copy_frame.
  - intros from to w Hf Ht Hz _. by apply fs_copy_done.
Qed.
