(* ===== verification/AppData.v ===== *)
(** The application data of [installd]: the handlers of
    [InstalldNativeService.cpp] that create, migrate, clear, destroy and relabel
    the directories of an application and of a user.

    They run in the monad [io] of [World]: a path or a failed [CHECK] comes
    from [InstalldPaths], what the system answers from the [World]. *)

From S2P Require Import Prelude Platform Fts InstalldPaths InstalldFs Quota Cache FreeCache World AppPaths SimpleFs.

Open Scope Z_scope.
Open Scope io_scope.

Definition FLAG_STORAGE_EXTERNAL : Z := 4.
Definition FLAG_CLEAR_CACHE_ONLY : Z := 16.
Definition FLAG_CLEAR_CODE_CACHE_ONLY : Z := 32.
Definition FLAG_FORCE : Z := 8192.

Definition kXattrDefault : str := lit "user.default".
Definition MIN_RESTRICTED_HOME_SDK_VERSION : Z := 24.
Definition CACHE_DIR_POSTFIX : str := lit "/cache".
Definition CODE_CACHE_DIR_POSTFIX : str := lit "/code_cache".

Definition has (flags f : Z) : bool := nz (Z.land flags f).

(** [userid_t] of an [int32_t]. *)
Definition userid (u : Z) : N := Z.to_N (u32 u).

Section AppData.
Context {W : Type} {world : World W}.
Context {aid : AidRanges} {mu : Multiuser}.
(* ro.debuggable, dalvik.vm.usejitprofiles *)
Context (debuggable usejitprofiles : bool) (G : globals).
(* mStorageMounts *)
Context (mStorageMounts : gmap str str).

(** * Helpers *)

(** A reply that is not [Ok] ends the handler. *)
Definition enforce (checks : list status) (k : io W reply) : io W reply :=
  match List.find (fun s => negb (bool_decide (s = StatusOk))) checks with
  | Some s => mret (Denied s)
  | None => k
  end.

Definition ce_path (uuid : option str) (user : N) : io W str :=
  isdir ← ask w_isdir; abort_if_none (create_data_user_ce_path debuggable isdir uuid user).

Definition ce_package_path (uuid : option str) (user : N) (pkg : str) : io W str :=
  isdir ← ask w_isdir; abort_if_none (create_data_user_ce_package_path debuggable isdir uuid user pkg).

Definition ce_package_path_inode (uuid : option str) (user : N) (pkg : str) (inode : Z) : io W str :=
  isdir ← ask w_isdir; entries ← ask w_opendir;
  abort_if_none (create_data_user_ce_package_path_inode debuggable isdir entries uuid user pkg inode).

Definition de_path (uuid : option str) (user : N) : io W str :=
  abort_if_none (create_data_user_de_path debuggable uuid user).

Definition de_package_path (uuid : option str) (user : N) (pkg : str) : io W str :=
  abort_if_none (create_data_user_de_package_path debuggable uuid user pkg).

Definition known_users (uuid : option str) : io W (list N) :=
  entries ← ask w_opendir;
  users ← abort_if_none (get_known_users debuggable entries uuid);
  mret (userid <$> users).

(** [getxattr(path, name, nullptr, 0) == -1] *)
Definition lacks_attr (path name : str) : io W bool :=
  x ← ask w_attr; mret (match x !! (path, name) with Some _ => false | None => true end).

Definition write_path_inode_io (parent name attr : str) : io W Z :=
  st ← ask w_stat;
  match st (parent ++ slash :: name) with
  | inr _ => mret 0
  | inl st =>
      x ← ask w_attr;
      if bool_decide (x !! (parent, attr) = Some (st_ino st)) then mret 0
      else
        e ← do_call (SetAttr parent attr (st_ino st));
        mret (if e =? 0 then 0 else if e =? EOPNOTSUPP then 0 else -1)
  end.

Definition read_path_inode_io (parent name attr : str) : io W str :=
  x ← ask w_attr; entries ← ask w_opendir; mret (read_path_inode entries x parent name attr).

Definition get_path_inode_io (path : str) : io W (option Z) :=
  st ← ask w_stat; mret (match st path with inl st => Some (st_ino st) | inr _ => None end).

Definition create_dir_if_needed_io (path : str) (perms : Z) : io W Z :=
  st ← ask w_stat;
  match st path with
  | inr e => if e =? ENOENT then do_call (MakeDir path perms) else mret (-1)
  | inl _ => mret (create_dir_if_needed (st path) (fun _ => 0) perms)
  end.

Definition do_fix (f : fix_op) : io W unit :=
  _ ← do_call (match f with
               | Chmod p m => SetMode p m
               | Chown p g => SetOwner p (-1) g
               | Lchown p g => SetOwnerLink p (-1) g
               end);
  mret ().

(** The function of [utils.cpp]: the directory is made, or what its model
    says of the modes and owners is done. *)
Definition prepare_app_cache_dir_io (parent name : str) (target_mode uid gid : Z) : io W Z :=
  let path := parent ++ slash :: name in
  st ← ask w_stat; tree ← ask w_tree;
  match st path with
  | inr e =>
      if e =? ENOENT then
        r ← do_call (PrepareDirStrict path target_mode uid gid); mret (if nz r then -1 else 0)
      else mret (-1)
  | inl _ =>
      '(r, ops) ← abort_if_none (prepare_app_cache_dir st (fun _ _ _ _ => 0) tree parent name target_mode uid gid);
      _ ← for_all ops do_fix;
      mret r
  end.

Definition prepare_app_dir (path : str) (target_mode uid : Z) : io W Z :=
  r ← do_call (PrepareDirStrict path target_mode uid uid); mret (if nz r then -1 else 0).

Definition restorecon_app_data_lazy (path seInfo : str) (uid : Z) : io W Z :=
  label ← ask w_label;
  match label path with
  | None => mret (-1)
  | Some before =>
      r ← do_call (RestoreconPkg path seInfo uid false);
      if r <? 0 then mret (-1)
      else
        label ← ask w_label;
        match label path with
        | None => mret (-1)
        | Some after =>
            if negb (before =s? after) then
              r ← do_call (RestoreconPkg path seInfo uid true);
              mret (if r <? 0 then -1 else 0)
            else mret 0
        end
  end.

Definition prepare_app_profile_dir (packageName : str) (appId userId : Z) : io W bool :=
  if negb usejitprofiles then mret true
  else
    let uid := i32 (multiuser_get_uid userId appId) in
    let shared_app_gid := i32 (multiuser_get_shared_gid userId appId) in
    if shared_app_gid =? -1 then mret true
    else
      profile_dir ← abort_if_none (create_primary_current_profile_package_dir_path G (userid userId) packageName);
      r ← do_call (PrepareDirStrict profile_dir 448 uid uid);
      if nz r then mret false
      else
        ref_profile_path ← abort_if_none (create_primary_reference_profile_package_dir_path G packageName);
        r ← do_call (PrepareDir ref_profile_path 504 AID_SYSTEM shared_app_gid);
        mret (negb (nz r)).

(** [delete_dir_contents(path, ignore)] and [delete_dir_contents_and_dir]. *)
Definition delete_contents (path : str) (ignore_if_missing : bool) : io W Z :=
  do_call (DeleteDir path false ignore_if_missing).
Definition delete_contents_and_dir (path : str) (ignore_if_missing : bool) : io W Z :=
  do_call (DeleteDir path true ignore_if_missing).

Definition copy_directory_recursive (from to : str) : io W Z := do_call (CopyDir from to).

(** [if (r != 0) res = error(...);] *)
Definition or_error (r : Z) (res : reply) : reply := if nz r then Error else res.

(** * Creation *)

(** The directories of one storage. *)
Definition prepare_storage (path seInfo : str) (targetMode uid cacheGid : Z) : io W reply :=
  failed ← any_fails [prepare_app_dir path targetMode uid;
                      prepare_app_cache_dir_io path (lit "cache") 1529 uid cacheGid;
                      prepare_app_cache_dir_io path (lit "code_cache") 1529 uid cacheGid];
  if (failed : bool) then mret Error
  else
    failed ← any_fails [restorecon_app_data_lazy path seInfo uid;
                        restorecon_app_data_lazy (path ++ CACHE_DIR_POSTFIX) seInfo uid;
                        restorecon_app_data_lazy (path ++ CODE_CACHE_DIR_POSTFIX) seInfo uid];
    mret (if (failed : bool) then Error else Ok).

(** The CE part of [createAppData], with the inode it reports, and the DE part. *)
Definition create_ce_at (path seInfo : str) (targetMode uid cacheGid : Z) (want : bool) : io W (reply * Z) :=
  res ← prepare_storage path seInfo targetMode uid cacheGid;
  match (res : reply) with
  | Ok =>
      failed ← any_fails [write_path_inode_io path (lit "cache") kXattrInodeCache;
                          write_path_inode_io path (lit "code_cache") kXattrInodeCodeCache];
      if (failed : bool) then mret (Error, -1)
      else if want then
        ino ← get_path_inode_io path;
        mret (match (ino : option Z) with Some i => (Ok, i) | None => (Error, -1) end)
      else mret (Ok, -1)
  | r => mret (r, -1)
  end.

Definition create_ce (uuid : option str) (packageName : str) (user : N) (flags : Z) (seInfo : str)
    (targetMode uid cacheGid : Z) (want : bool) : io W (reply * Z) :=
  if has flags FLAG_STORAGE_CE then
    path ← ce_package_path uuid user packageName; create_ce_at path seInfo targetMode uid cacheGid want
  else mret (Ok, -1).

Definition create_de (uuid : option str) (packageName : str) (userId appId flags : Z) (seInfo : str)
    (targetMode uid cacheGid : Z) : io W reply :=
  if has flags FLAG_STORAGE_DE then
    path ← de_package_path uuid (userid userId) packageName;
    res ← prepare_storage path seInfo targetMode uid cacheGid;
    match (res : reply) with
    | Ok =>
        prepared ← prepare_app_profile_dir packageName appId userId;
        mret (if (prepared : bool) then Ok else Error)
    | r => mret r
    end
  else mret Ok.

(** The reply and [*_aidl_return], where [want] says that it is not null. *)
Definition createAppData (calling_uid : Z) (uuid : option str) (packageName : str) (userId flags appId : Z)
    (seInfo : str) (targetSdkVersion : Z) (want : bool) : io W (reply * Z) :=
  match List.find (fun s => negb (bool_decide (s = StatusOk)))
          [checkUid calling_uid AID_SYSTEM; checkArgumentUuid uuid; checkArgumentPackageName packageName] with
  | Some s => mret (Denied s, -1)
  | None =>
      let uid := i32 (multiuser_get_uid userId appId) in
      let gid := i32 (multiuser_get_cache_gid userId appId) in
      let targetMode := if targetSdkVersion >=? MIN_RESTRICTED_HOME_SDK_VERSION then 448 else 489 in
      let cacheGid := if gid =? -1 then uid else gid in
      '(res, inode) ← create_ce uuid packageName (userid userId) flags seInfo targetMode uid cacheGid want;
      match (res : reply) with
      | Ok =>
          res ← create_de uuid packageName userId appId flags seInfo targetMode uid cacheGid;
          mret (res, inode)
      | r => mret (r, inode)
      end
  end.

Definition migrateAppData (calling_uid : Z) (uuid : option str) (packageName : str) (userId flags : Z) : io W reply :=
  enforce [checkUid calling_uid AID_SYSTEM; checkArgumentUuid uuid; checkArgumentPackageName packageName] (
    ce ← ce_package_path uuid (userid userId) packageName;
    de ← de_package_path uuid (userid userId) packageName;
    no_ce ← lacks_attr ce kXattrDefault;
    no_de ← lacks_attr de kXattrDefault;
    marked ← (if (no_ce : bool) && no_de then do_call (SetAttr ce kXattrDefault 0) else mret 0);
    if nz marked then mret Error
    else
      let target := if has flags FLAG_STORAGE_DE then de else ce in
      let source := if has flags FLAG_STORAGE_DE then ce else de in
      missing ← lacks_attr target kXattrDefault;
      if (missing : bool) then
        r ← delete_contents_and_dir target false;
        if nz r then mret Error
        else
          r ← do_call (Rename source target);
          mret (if nz r then Error else Ok)
      else mret Ok).

Definition createUserData (calling_uid : Z) (uuid : option str) (userId flags : Z) : io W reply :=
  enforce [checkUid calling_uid AID_SYSTEM; checkArgumentUuid uuid] (
    if has flags FLAG_STORAGE_DE then
      match uuid with
      | None =>
          path ← abort_if_none (create_data_misc_legacy_path debuggable (userid userId));
          r ← do_call (PrepareDir path 488 (i32 (multiuser_get_uid (u32 userId) AID_SYSTEM))
                                           (i32 (multiuser_get_uid (u32 userId) AID_EVERYBODY)));
          mret (or_error r Ok)
      | Some _ => mret Ok
      end
    else mret Ok).

(** * Deletion *)

(** The directories of the shared storage that are cleared for a user: the
    mounts, without those of other media for secondary users. *)
Definition ext_paths (userId : Z) : list str :=
  omap (fun n : str * str =>
    if negb (prefixb (lit "/mnt/media_rw/") (fst n)) then Some (snd n ++ slash :: fmt_d userId)
    else if nz userId then None
    else Some (snd n)) (map_to_list mStorageMounts).

Definition ext_dir (extPath kind pkg : str) : str := extPath ++ lit "/Android/" ++ kind ++ slash :: pkg.

(** Every deletion is tried; one that fails makes the reply an error. *)
Definition delete_all (del : str -> io W Z) (paths : list str) (res : reply) : io W reply :=
  fold_io paths (fun p res => r ← del p; mret (or_error r res)) res.

(** The three parts of [clearAppData]. *)
Definition clear_path (path : str) (flags : Z) : io W reply :=
  exists_ ← ask w_access;
  if exists_ path then
    r ← delete_contents path false;
    if nz r then mret Error
    else if Z.land flags (Z.lor FLAG_CLEAR_CACHE_ONLY FLAG_CLEAR_CODE_CACHE_ONLY) =? 0 then
      _ ← do_call (RemoveAttr path kXattrInodeCache);
      _ ← do_call (RemoveAttr path kXattrInodeCodeCache);
      mret Ok
    else mret Ok
  else mret Ok.

Definition clear_ce (uuid : option str) (packageName : str) (userId flags ceDataInode : Z) : io W reply :=
  if has flags FLAG_STORAGE_CE then
    path ← ce_package_path_inode uuid (userid userId) packageName ceDataInode;
    path ← (if has flags FLAG_CLEAR_CACHE_ONLY then read_path_inode_io path (lit "cache") kXattrInodeCache
            else if has flags FLAG_CLEAR_CODE_CACHE_ONLY
                 then read_path_inode_io path (lit "code_cache") kXattrInodeCodeCache
                 else mret path);
    clear_path path flags
  else mret Ok.

Definition clear_suffix (flags : Z) : str :=
  if has flags FLAG_CLEAR_CACHE_ONLY then CACHE_DIR_POSTFIX
  else if has flags FLAG_CLEAR_CODE_CACHE_ONLY then CODE_CACHE_DIR_POSTFIX else [].

Definition clear_de (uuid : option str) (packageName : str) (userId flags : Z) (res : reply) : io W reply :=
  if has flags FLAG_STORAGE_DE then
    de ← de_package_path uuid (userid userId) packageName;
    exists_ ← ask w_access;
    if exists_ (de ++ clear_suffix flags) then
      r ← delete_contents (de ++ clear_suffix flags) false; mret (or_error r res)
    else mret res
  else mret res.

Definition clear_ext (packageName : str) (userId flags : Z) (res : reply) : io W reply :=
  if has flags FLAG_STORAGE_EXTERNAL then
    fold_io (ext_paths userId) (fun ext res =>
      if has flags FLAG_CLEAR_CACHE_ONLY then
        delete_all (fun p => delete_contents p true) [ext_dir ext (lit "data") packageName ++ CACHE_DIR_POSTFIX] res
      else if has flags FLAG_CLEAR_CODE_CACHE_ONLY then mret res
      else delete_all (fun p => delete_contents p true)
             [ext_dir ext (lit "data") packageName; ext_dir ext (lit "media") packageName;
              ext_dir ext (lit "obb") packageName] res) res
  else mret res.

Definition clearAppData (calling_uid : Z) (uuid : option str) (packageName : str) (userId flags ceDataInode : Z)
    : io W reply :=
  enforce [checkUid calling_uid AID_SYSTEM; checkArgumentUuid uuid; checkArgumentPackageName packageName] (
    res ← clear_ce uuid packageName userId flags ceDataInode;
    res ← clear_de uuid packageName userId flags res;
    clear_ext packageName userId flags res).

Definition destroy_app_reference_profile (pkg : str) : io W Z :=
  p ← abort_if_none (create_primary_reference_profile_package_dir_path G pkg); delete_contents_and_dir p true.

Definition destroy_app_current_profiles (pkg : str) (user : N) : io W Z :=
  p ← abort_if_none (create_primary_current_profile_package_dir_path G user pkg); delete_contents_and_dir p true.

Definition destroyAppProfiles (calling_uid : Z) (packageName : str) : io W reply :=
  enforce [checkUid calling_uid AID_SYSTEM; checkArgumentPackageName packageName] (
    users ← known_users None;
    res ← fold_io users (fun user res => r ← destroy_app_current_profiles packageName user; mret (or_error r res)) Ok;
    r ← destroy_app_reference_profile packageName;
    mret (or_error r res)).

(** The three parts of [destroyAppData]. *)
Definition destroy_ce (uuid : option str) (packageName : str) (userId flags ceDataInode : Z) : io W reply :=
  if has flags FLAG_STORAGE_CE then
    path ← ce_package_path_inode uuid (userid userId) packageName ceDataInode;
    r ← delete_contents_and_dir path false; mret (or_error r Ok)
  else mret Ok.

Definition destroy_de (uuid : option str) (packageName : str) (userId flags : Z) (res : reply) : io W reply :=
  if has flags FLAG_STORAGE_DE then
    path ← de_package_path uuid (userid userId) packageName;
    r ← delete_contents_and_dir path false;
    _ ← destroy_app_current_profiles packageName (userid userId);
    _ ← destroy_app_reference_profile packageName;
    mret (or_error r res)
  else mret res.

Definition destroy_ext (packageName : str) (userId flags : Z) (res : reply) : io W reply :=
  if has flags FLAG_STORAGE_EXTERNAL then
    fold_io (ext_paths userId) (fun ext res =>
      delete_all (fun p => delete_contents_and_dir p true)
        [ext_dir ext (lit "data") packageName; ext_dir ext (lit "media") packageName;
         ext_dir ext (lit "obb") packageName] res) res
  else mret res.

Definition destroyAppData (calling_uid : Z) (uuid : option str) (packageName : str) (userId flags ceDataInode : Z)
    : io W reply :=
  enforce [checkUid calling_uid AID_SYSTEM; checkArgumentUuid uuid; checkArgumentPackageName packageName] (
    res ← destroy_ce uuid packageName userId flags ceDataInode;
    res ← destroy_de uuid packageName userId flags res;
    destroy_ext packageName userId flags res).

Definition destroyUserData (calling_uid : Z) (uuid : option str) (userId flags : Z) : io W reply :=
  enforce [checkUid calling_uid AID_SYSTEM; checkArgumentUuid uuid] (
    let del p := delete_contents_and_dir p true in
    res ←
      (if has flags FLAG_STORAGE_DE then
         path ← de_path uuid (userid userId);
         res ← delete_all del [path] Ok;
         match uuid with
         | None =>
             path ← abort_if_none (create_data_misc_legacy_path debuggable (userid userId));
             delete_all del [path; create_primary_cur_profile_dir_path G (userid userId)] res
         | Some _ => mret res
         end
       else mret Ok);
    if has flags FLAG_STORAGE_CE then
      path ← ce_path uuid (userid userId);
      res ← delete_all del [path] res;
      path ← abort_if_none (findDataMediaPath debuggable mStorageMounts uuid (userid userId));
      delete_all del [path] res
    else mret res).

(** * Labels *)

Definition restoreconAppData (calling_uid : Z) (uuid : option str) (packageName : str) (userId flags appId : Z)
    (seInfo : str) : io W reply :=
  enforce [checkUid calling_uid AID_SYSTEM; checkArgumentUuid uuid; checkArgumentPackageName packageName] (
    let uid := u32 (multiuser_get_uid userId appId) in
    res ←
      (if has flags FLAG_STORAGE_CE then
         path ← ce_package_path uuid (userid userId) packageName;
         r ← do_call (RestoreconPkg path seInfo uid true);
         mret (if r <? 0 then Error else Ok)
       else mret Ok);
    if has flags FLAG_STORAGE_DE then
      path ← de_package_path uuid (userid userId) packageName;
      r ← do_call (RestoreconPkg path seInfo uid true);
      mret (if r <? 0 then Error else res)
    else mret res).

End AppData.

(** * Lemmas *)

Section Spec.
Context {W : Type} {world : World W} {Node : Type} {view : W -> str -> option Node} {is_dir : Node -> bool}.
Context {ok : WorldOk world view is_dir}.
Context {aid : AidRanges} {mu : Multiuser}.
Context (debuggable usejitprofiles : bool) (G : globals) (mStorageMounts : gmap str str).

(** No directory is marked with the inode of its own [.] or [..] entry as a
    cache. *)
Definition no_dot_marks : Prop := forall w parent attr i l e,
  attr = kXattrInodeCache \/ attr = kXattrInodeCodeCache ->
  w_attr w !! (parent, attr) = Some i -> w_opendir w parent = Some l -> e ∈ l -> d_ino e = i ->
  is_dot (d_name e) = false.

Context (Hmarks : no_dot_marks).

Lemma wp_enforce checks (k : io W reply) (Q : reply -> W -> Prop) w :
  Forall (fun s => s = StatusOk) checks -> wp k Q w -> wp (enforce checks k) Q w.
Proof.
  intros Hc Hk. unfold enforce. assert (List.find (fun s => negb (bool_decide (s = StatusOk))) checks = None) as ->; [|done].
  induction Hc as [|s l -> _ IH]; [done|]. exact IH.
Qed.

(** A mark leads to an entry of the directory. *)
Lemma read_path_inode_below w parent name attr :
  plain parent = true -> slash ∉ name -> is_dot name = false ->
  attr = kXattrInodeCache \/ attr = kXattrInodeCodeCache ->
  exists entry, slash ∉ entry /\ is_dot entry = false /\
    read_path_inode (w_opendir w) (w_attr w) parent name attr = parent ++ slash :: entry.
Proof.
  intros Hp Hn Hd Ha. unfold read_path_inode. destruct (nz _) eqn:Hz; [|by exists name].
  destruct (w_opendir w parent) as [l|] eqn:Hl; [|by exists name].
  destruct (List.find _ l) as [e|] eqn:Hf; [|by exists name].
  apply find_some in Hf as [Hin Hi]. apply Z.eqb_eq in Hi. apply list_elem_of_In in Hin.
  exists (d_name e). split; [by eapply (listed_names (view := view))|split; [|done]].
  destruct (w_attr w !! (parent, attr)) as [i|] eqn:Hx; [|done]. by apply (Hmarks w parent attr i l e).
Qed.

(** The flags ask for more than the caches. *)
Definition whole (flags : Z) : Prop := Z.land flags (Z.lor FLAG_CLEAR_CACHE_ONLY FLAG_CLEAR_CODE_CACHE_ONLY) = 0.

Lemma whole_flags flags :
  whole flags -> has flags FLAG_CLEAR_CACHE_ONLY = false /\ has flags FLAG_CLEAR_CODE_CACHE_ONLY = false.
Proof.
  intros H. unfold has, nz.
  assert (Hb : forall m, Z.land (Z.lor FLAG_CLEAR_CACHE_ONLY FLAG_CLEAR_CODE_CACHE_ONLY) m = m -> Z.land flags m = 0).
  { intros m <-. rewrite Z.land_assoc. unfold whole in H. by rewrite H. }
  by rewrite (Hb FLAG_CLEAR_CACHE_ONLY eq_refl), (Hb FLAG_CLEAR_CODE_CACHE_ONLY eq_refl).
Qed.

(** From one state to the next: what [S] selects stays, and nothing appears. *)
Definition shrinks (S : str -> Prop) (w w' : W) : Prop :=
  agree (view := view) S w w' /\ forall q, view w' q = view w q \/ view w' q = None.

Lemma shrinks_refl S w : shrinks S w w.
Proof. split; [apply agree_refl|]. by left. Qed.

Lemma shrinks_trans S w1 w2 w3 : shrinks S w1 w2 -> shrinks S w2 w3 -> shrinks S w1 w3.
Proof.
  intros [A1 H1] [A2 H2]. split; [by eapply agree_trans|]. intros q.
  destruct (H2 q) as [-> | ->]; [apply H1|by right].
Qed.

Lemma shrinks_emptied S w w' p : shrinks S w w' -> emptied (view := view) p w -> emptied (view := view) p w'.
Proof. intros [_ H] He rest. destruct (H (p ++ slash :: rest)) as [-> | ->]; [apply He|done]. Qed.

Lemma shrinks_delete S p also ign w :
  plain p = true -> (forall q, S q -> ~ below p q) -> shrinks S w (snd (w_call (DeleteDir p also ign) w)).
Proof.
  intros Hp HS. split; [|intros q; by apply delete_shrinks]. apply call_agrees.
  by constructor.
Qed.

Lemma shrinks_label S c w : label_call c = true -> shrinks S w (snd (w_call c w)).
Proof. intros Hc. split; intros q; [intros _|left]; by eapply label_view. Qed.

Lemma emptied_deleted p also ign w :
  plain p = true -> nz (fst (w_call (DeleteDir p also ign) w)) = false ->
  emptied (view := view) p (snd (w_call (DeleteDir p also ign) w)).
Proof.
  intros Hp Hz. apply negb_false_iff, Z.eqb_eq in Hz. exact (proj1 (delete_done p also ign w Hp Hz)).
Qed.

Hint Resolve shrinks_refl shrinks_delete shrinks_label emptied_deleted : cmds.

Lemma clear_path_spec path flags w (S : str -> Prop) :
  plain path = true -> (forall q, S q -> ~ below path q) ->
  wp (clear_path path flags) (fun res w' =>
    shrinks S w w' /\ (res = Ok -> view w path = None \/ emptied (view := view) path w')) w.
Proof.
  intros Hp HS. unfold clear_path, delete_contents. apply wp_bind, wp_ask. destruct (w_access w path) eqn:Hacc.
  - apply wp_bind, wp_call. set (w1 := snd _). pose proof (shrinks_delete S path false false w Hp HS) as H1.
    destruct (nz _) eqn:Hz; [by split|]. apply emptied_deleted in Hz; [|done]. fold w1 in H1, Hz.
    destruct (_ =? 0); [|split; [done|by right]].
    apply wp_bind, wp_call. set (w2 := snd _). assert (H2 : shrinks S w1 w2) by by apply shrinks_label.
    apply wp_bind, wp_call. set (w3 := snd _). assert (H3 : shrinks S w2 w3) by by apply shrinks_label.
    split; [eapply shrinks_trans; [exact H1|by eapply shrinks_trans]|].
    intros _. right. eapply shrinks_emptied; [exact H3|]. by eapply shrinks_emptied.
  - split; [apply shrinks_refl|]. intros _. left. rewrite (access_view (view := view)) in Hacc by done.
    by destruct (view w path).
Qed.

Lemma clear_cache_path w target name attr flags (S : str -> Prop) :
  plain target = true -> (forall q, S q -> ~ below target q) -> slash ∉ name -> is_dot name = false ->
  attr = kXattrInodeCache \/ attr = kXattrInodeCodeCache ->
  wp (path ← read_path_inode_io target name attr; clear_path path flags) (fun _ w' => shrinks S w w') w.
Proof.
  intros Hp HS Hn Hd Ha. unfold read_path_inode_io. wps.
  destruct (read_path_inode_below w target name attr Hp Hn Hd Ha) as (e & He & Hde & ->).
  eapply wp_mono; [apply (clear_path_spec _ _ _ S)|by intros ?? [? _]].
  - by rewrite plain_app, Hp, plain_single, Hde.
  - intros q Hq Hb. apply (HS q Hq). eapply below_trans; [apply below_join_r|exact Hb].
Qed.

Lemma clear_ce_spec v pkg userId flags ino w (S : str -> Prop) target :
  create_data_user_ce_package_path_inode debuggable (w_isdir w) (w_opendir w) v (userid userId) pkg ino = Some target ->
  plain target = true -> (forall q, S q -> ~ below target q) ->
  wp (clear_ce debuggable v pkg userId flags ino) (fun res w' =>
    shrinks S w w' /\
    (res = Ok -> whole flags -> has flags FLAG_STORAGE_CE = true ->
     view w target = None \/ emptied (view := view) target w')) w.
Proof.
  intros Ht Hp HS. unfold clear_ce. destruct (has flags FLAG_STORAGE_CE); [|by split; [apply shrinks_refl|]].
  apply wp_bind. unfold ce_package_path_inode. wps. eapply wp_some; [exact Ht|].
  destruct (has flags FLAG_CLEAR_CACHE_ONLY) eqn:Hc; [|destruct (has flags FLAG_CLEAR_CODE_CACHE_ONLY) eqn:Hcc].
  - eapply wp_mono; [apply (clear_cache_path w target _ _ _ S); auto; by apply find_char_None|].
    intros res w' Hsh. split; [done|]. intros _ [? _]%whole_flags. congruence.
  - eapply wp_mono; [apply (clear_cache_path w target _ _ _ S); auto; by apply find_char_None|].
    intros res w' Hsh. split; [done|]. intros _ [_ ?]%whole_flags. congruence.
  - wps. eapply wp_mono; [by apply (clear_path_spec _ _ _ S)|]. intros res w' [Hsh He]. split; [done|].
    intros Hr _ _. by apply He.
Qed.

Lemma clear_suffix_plain p flags : plain p = true -> plain (p ++ clear_suffix flags) = true.
Proof.
  intros Hp. unfold clear_suffix. destruct (has _ _); [|destruct (has _ _); [|by rewrite app_nil_r]].
  - change CACHE_DIR_POSTFIX with (slash :: lit "cache"). by rewrite plain_app, Hp.
  - change CODE_CACHE_DIR_POSTFIX with (slash :: lit "code_cache"). by rewrite plain_app, Hp.
Qed.

Lemma clear_suffix_below p flags : below p (p ++ clear_suffix flags).
Proof.
  unfold clear_suffix. destruct (has _ _); [apply below_join_r|].
  destruct (has _ _); [apply below_join_r|left; by rewrite app_nil_r].
Qed.

Lemma clear_de_spec v pkg userId flags res w (S : str -> Prop) target :
  create_data_user_de_package_path debuggable v (userid userId) pkg = Some target ->
  plain target = true -> (forall q, S q -> ~ below target q) ->
  wp (clear_de debuggable v pkg userId flags res) (fun res' w' =>
    shrinks S w w' /\ (res' = Ok -> res = Ok) /\
    (res' = Ok -> whole flags -> has flags FLAG_STORAGE_DE = true ->
     view w target = None \/ emptied (view := view) target w')) w.
Proof.
  intros Ht Hp HS. unfold clear_de. destruct (has flags FLAG_STORAGE_DE); [|by split_and!; [apply shrinks_refl|..]].
  apply wp_bind. unfold de_package_path. eapply wp_some; [exact Ht|]. apply wp_bind, wp_ask.
  pose proof (clear_suffix_plain target flags Hp) as Hpp.
  assert (HSp : forall q, S q -> ~ below (target ++ clear_suffix flags) q).
  { intros q Hq Hb. apply (HS q Hq). eapply below_trans; [apply clear_suffix_below|exact Hb]. }
  assert (Hwh : whole flags -> target ++ clear_suffix flags = target).
  { intros [Hc Hcc]%whole_flags. unfold clear_suffix. by rewrite Hc, Hcc, app_nil_r. }
  destruct (w_access w _) eqn:Hacc.
  - unfold delete_contents. apply wp_bind, wp_call, wp_ret. unfold or_error. split; [by apply shrinks_delete|].
    destruct (nz _) eqn:Hz; [done|]. split; [done|]. intros _ Hw _. right. apply emptied_deleted in Hz; [|done].
    by rewrite (Hwh Hw) in *.
  - split_and!; [apply shrinks_refl|done|]. intros _ Hw _. left. rewrite (Hwh Hw) in Hacc.
    rewrite (access_view (view := view)) in Hacc by done. by destruct (view w target).
Qed.

(** Directories that may be deleted. *)
Definition guarded (S : str -> Prop) (ps : list str) : Prop :=
  Forall (fun p => plain p = true /\ forall q, S q -> ~ below p q) ps.

Lemma delete_all_spec also ign ps res w (S : str -> Prop) :
  guarded S ps ->
  wp (delete_all (fun p => do_call (DeleteDir p also ign)) ps res) (fun res' w' =>
    shrinks S w w' /\ (res' = Ok -> res = Ok /\ Forall (fun p => emptied (view := view) p w') ps)) w.
Proof.
  unfold delete_all. revert res w. induction ps as [|p ps IH]; intros res w Hg; cbn [fold_io].
  - split; [apply shrinks_refl|done].
  - apply Forall_cons in Hg as [[Hp HS] Hg]. apply wp_bind, wp_bind, wp_call, wp_ret.
    set (w1 := snd _). eapply wp_mono; [by apply IH|]. intros res' w' [Hsh Hok].
    assert (H1 : shrinks S w w1) by by apply shrinks_delete. split; [by eapply shrinks_trans|].
    intros Hr. destruct (Hok Hr) as [Hr1 He]. unfold or_error in Hr1. destruct (nz _) eqn:Hz; [done|].
    split; [done|]. constructor; [|done]. eapply shrinks_emptied; [exact Hsh|]. by apply emptied_deleted.
Qed.

(** The directories on shared storage. *)
Definition ext_dirs (pkg : str) (userId : Z) : list str :=
  concat (map (fun ext => [ext_dir ext (lit "data") pkg; ext_dir ext (lit "media") pkg; ext_dir ext (lit "obb") pkg])
            (ext_paths mStorageMounts userId)).

Lemma guarded_ext S pkg userId ext :
  guarded S (ext_dirs pkg userId) -> ext ∈ ext_paths mStorageMounts userId ->
  guarded S [ext_dir ext (lit "data") pkg; ext_dir ext (lit "media") pkg; ext_dir ext (lit "obb") pkg].
Proof.
  unfold guarded. rewrite !Forall_forall. intros H Hext p Hp. apply H. unfold ext_dirs.
  apply list_elem_of_In, in_concat. eexists. split; [|by apply list_elem_of_In].
  apply in_map_iff. exists ext. split; [done|by apply list_elem_of_In].
Qed.

Lemma ext_loop_spec body pkg userId res w (S : str -> Prop) :
  guarded S (ext_dirs pkg userId) ->
  (forall ext res w, ext ∈ ext_paths mStorageMounts userId ->
     guarded S [ext_dir ext (lit "data") pkg; ext_dir ext (lit "media") pkg; ext_dir ext (lit "obb") pkg] ->
     wp (body ext res) (fun res' w' => shrinks S w w' /\ (res' = Ok -> res = Ok)) w) ->
  wp (fold_io (ext_paths mStorageMounts userId) body res) (fun res' w' => shrinks S w w' /\ (res' = Ok -> res = Ok)) w.
Proof.
  intros Hg Hb. apply (wp_fold_io _ _ (fun res' w' => shrinks S w w' /\ (res' = Ok -> res = Ok))).
  - split; [apply shrinks_refl|done].
  - intros ext res1 w1 Hin [H1 Hr1]. eapply wp_mono; [apply Hb; [done|by apply (guarded_ext S pkg userId)]|].
    intros res' w' [H2 Hr2]. split; [by eapply shrinks_trans|]. auto.
Qed.

Lemma clear_ext_spec pkg userId flags res w (S : str -> Prop) :
  (has flags FLAG_STORAGE_EXTERNAL = true -> guarded S (ext_dirs pkg userId)) ->
  wp (clear_ext mStorageMounts pkg userId flags res) (fun res' w' => shrinks S w w' /\ (res' = Ok -> res = Ok)) w.
Proof.
  intros Hg. unfold clear_ext. destruct (has flags FLAG_STORAGE_EXTERNAL); [|by split; [apply shrinks_refl|]].
  specialize (Hg eq_refl). apply (ext_loop_spec _ pkg); [done|]. intros ext res1 w1 _ Hx.
  destruct (has flags FLAG_CLEAR_CACHE_ONLY); [|destruct (has flags FLAG_CLEAR_CODE_CACHE_ONLY)].
  - eapply wp_mono; [apply (delete_all_spec false true _ _ _ S)|by intros ?? [? H]; split; [|apply H]].
    apply Forall_cons in Hx as [[Hp HS] _]. constructor; [|constructor].
    change CACHE_DIR_POSTFIX with (slash :: lit "cache"). split; [by rewrite plain_app, Hp|].
    intros q Hq Hb. apply (HS q Hq). eapply below_trans; [apply below_join_r|exact Hb].
  - by split; [apply shrinks_refl|].
  - eapply wp_mono; [by apply (delete_all_spec false true _ _ _ S)|by intros ?? [? H]; split; [|apply H]].
Qed.

(** ** Creation *)

(** A program that keeps what [S] selects. *)
Definition keeps {A} (S : str -> Prop) (c : io W A) : Prop :=
  forall w, wp c (fun _ w' => agree (view := view) S w w') w.

Lemma keeps_ret {A} S (a : A) : keeps S (mret a).
Proof. intros w. apply agree_refl. Qed.

Lemma keeps_bind {A B} S (c : io W A) (k : A -> io W B) : keeps S c -> (forall a, keeps S (k a)) -> keeps S (io_bind c k).
Proof.
  intros Hc Hk w. apply wp_bind. eapply wp_mono; [apply Hc|]. intros a w1 H1.
  eapply wp_mono; [apply Hk|]. intros b w2 H2. exact (agree_trans S w w1 w2 H1 H2).
Qed.

Lemma keeps_ask {A} S (q : W -> A) : keeps S (ask q).
Proof. intros w. apply agree_refl. Qed.

Lemma keeps_call S c :
  Forall (fun p => plain p = true /\ forall q, S q -> ~ below p q) (targets c) -> keeps S (do_call c).
Proof. intros H w. apply wp_call. by apply call_agrees. Qed.

Lemma keeps_label S c : label_call c = true -> keeps S (do_call c).
Proof. intros Hc w. apply wp_call. intros q _. by apply label_view. Qed.

Lemma keeps_some {A} S (o : option A) a : o = Some a -> keeps S (abort_if_none o).
Proof. intros -> w. apply agree_refl. Qed.

Lemma keeps_if {A} S (b : bool) (c1 c2 : io W A) : keeps S c1 -> keeps S c2 -> keeps S (if b then c1 else c2).
Proof. by destruct b. Qed.

Lemma keeps_any_fails S l : Forall (keeps S) l -> keeps S (any_fails l).
Proof.
  induction 1 as [|c l Hc _ IH]; [apply keeps_ret|]. cbn [any_fails]. apply keeps_bind; [done|].
  intros r. apply keeps_if; [apply keeps_ret|done].
Qed.

Lemma keeps_for_all {A} S (l : list A) (body : A -> io W unit) :
  (forall a, a ∈ l -> keeps S (body a)) -> keeps S (for_all l body).
Proof.
  induction l as [|a l IH]; intros H; [apply keeps_ret|]. cbn [for_all]. apply keeps_bind; [apply H; left|].
  intros _. apply IH. intros a' Ha. apply H. by right.
Qed.

Hint Resolve keeps_ret keeps_ask keeps_label keeps_if : cmds.

Definition fix_path (f : fix_op) : str := match f with Chmod p _ | Chown p _ | Lchown p _ => p end.

(** The owners and modes that are set lie below the directory. *)
Lemma prepare_app_cache_dir_ops (S : str -> Prop) w parent name mode uid gid st :
  plain (parent ++ slash :: name) = true -> ends_slash (parent ++ slash :: name) = false ->
  (forall q, S q -> ~ below (parent ++ slash :: name) q) -> w_stat w (parent ++ slash :: name) = inl st ->
  exists r ops, prepare_app_cache_dir (w_stat w) (fun _ _ _ _ => 0) (w_tree w) parent name mode uid gid = Some (r, ops) /\
    Forall (fun f => plain (fix_path f) = true /\ forall q, S q -> ~ below (fix_path f) q) ops.
Proof.
  intros Hp He HS Hst. unfold prepare_app_cache_dir. rewrite Hst.
  destruct (negb _); [by exists (-1), []|]. destruct (_ && _); [by exists 0, []|].
  destruct (w_tree w (parent ++ slash :: name)) as [t|] eqn:Ht; [|by exists (-1), []].
  rewrite fts_run_one. cbn [mbind option_bind]. eexists _, _. split; [done|].
  eapply Forall_impl with (P := fun f => within (parent ++ slash :: name) (fix_path f)).
  - apply (tree_fold_invariant _ (fun ops => Forall (fun f => within (parent ++ slash :: name) (fix_path f)) ops) (within (parent ++ slash :: name))).
    + intros e ops HR HI. unfold fix_body. cbn [fst].
      destruct (fts_info e); try done; apply Forall_app; (split; [done|]); repeat (apply Forall_cons_2; [exact HR|]); apply Forall_nil_2.
    + intros p n. apply within_child.
    + by eapply tree_names.
    + split_and!; [apply below_refl|done..].
    + done.
  - intros f (Hb & Hpl & _). split; [done|]. intros q Hq Hbq. apply (HS q Hq). by eapply below_trans.
Qed.

Lemma keeps_do_fix (S : str -> Prop) f :
  plain (fix_path f) = true -> (forall q, S q -> ~ below (fix_path f) q) -> keeps S (do_fix f).
Proof.
  intros Hp HS. unfold do_fix. apply keeps_bind; [|intros _; apply keeps_ret].
  apply keeps_call. destruct f; by constructor.
Qed.

Lemma keeps_prepare_app_cache_dir (S : str -> Prop) parent name mode uid gid :
  plain (parent ++ slash :: name) = true -> ends_slash (parent ++ slash :: name) = false ->
  (forall q, S q -> ~ below (parent ++ slash :: name) q) ->
  keeps S (prepare_app_cache_dir_io parent name mode uid gid).
Proof.
  intros Hp He HS w. unfold prepare_app_cache_dir_io. wps.
  destruct (w_stat w (parent ++ slash :: name)) as [st|e] eqn:Hst.
  - apply wp_bind. destruct (prepare_app_cache_dir_ops S w parent name mode uid gid st Hp He HS Hst) as (r & ops & Hr & Hops).
    eapply wp_some; [exact Hr|]. refine (keeps_bind S (for_all ops do_fix) _ _ _ w); [|intros; apply keeps_ret].
    apply keeps_for_all. intros f Hf. rewrite Forall_forall in Hops. destruct (Hops f Hf). by apply keeps_do_fix.
  - wps; try apply agree_refl; apply call_agrees; by constructor.
Qed.

Section Package.
Context (calling_uid : Z) (v : option str) (pkg d : str).
Context (Hcaller : checkUid calling_uid AID_SYSTEM = StatusOk) (Hv : checkArgumentUuid v = StatusOk).
Context (Hpkg : checkArgumentPackageName pkg = StatusOk) (Hd : create_data_path debuggable v = Some d).

Lemma pkg_checked : check_package_name pkg = Some ().
Proof.
  unfold checkArgumentPackageName in Hpkg. destruct (is_valid_package_name pkg) eqn:E; [|done].
  by apply package_name_is_filename.
Qed.

Lemma d_plain : plain d = true.
Proof. by eapply data_path_plain. Qed.

Hint Resolve pkg_checked d_plain : cmds.

(** The profile directories of the package. *)
Definition profile_dirs (u : N) : list str :=
  [create_primary_cur_profile_dir_path G u ++ slash :: pkg; android_profiles_dir G ++ lit "/ref/" ++ pkg].

Lemma profile_paths_eq u :
  create_primary_current_profile_package_dir_path G u pkg = Some (create_primary_cur_profile_dir_path G u ++ slash :: pkg) /\
  create_primary_reference_profile_package_dir_path G pkg = Some (android_profiles_dir G ++ lit "/ref/" ++ pkg).
Proof.
  unfold create_primary_current_profile_package_dir_path, create_primary_reference_profile_package_dir_path.
  by rewrite pkg_checked.
Qed.

Lemma keeps_prepare_storage (S : str -> Prop) path seInfo mode uid gid :
  plain path = true -> (forall q, S q -> ~ below path q) -> keeps S (prepare_storage path seInfo mode uid gid).
Proof.
  intros Hp HS. unfold prepare_storage.
  assert (Hsub : forall name, slash ∉ name -> is_dot name = false -> name <> [] ->
    keeps S (prepare_app_cache_dir_io path name 1529 uid gid)).
  { intros name Hs Hdot Hn. apply keeps_prepare_app_cache_dir.
    - by rewrite plain_app, Hp, plain_single, Hdot.
    - by apply ends_slash_child.
    - intros q Hq Hb. apply (HS q Hq). eapply below_trans; [apply below_join_r|exact Hb]. }
  assert (Hlabel : forall p, keeps S (restorecon_app_data_lazy p seInfo uid)).
  { intros p w. unfold restorecon_app_data_lazy. wps. destruct (w_label w p); wps; try apply agree_refl;
      try (by intros q _; apply label_view).
    destruct (w_label _ p); wps; (intros q _; rewrite ?(label_view (view := view)) by done; done). }
  apply keeps_bind.
  - apply keeps_any_fails. repeat constructor.
    + apply keeps_bind; [|intros; apply keeps_ret]. apply keeps_call. by constructor.
    + apply Hsub; [by apply find_char_None|done..].
    + apply Hsub; [by apply find_char_None|done..].
  - intros []; [apply keeps_ret|]. apply keeps_bind; [|intros; apply keeps_ret].
    apply keeps_any_fails. repeat constructor; apply Hlabel.
Qed.

Lemma keeps_write_path_inode S path name attr : keeps S (write_path_inode_io path name attr).
Proof.
  intros w. unfold write_path_inode_io. wps. destruct (w_stat w (path ++ slash :: name)); wps; try apply agree_refl.
  all: intros q _; by apply label_view.
Qed.

Lemma wp_ce_package u (Q : str -> W -> Prop) w :
  Q (ce_package (w_isdir w) v u d pkg) w -> wp (ce_package_path debuggable v u pkg) Q w.
Proof.
  intros H. unfold ce_package_path. wps. eapply wp_some; [|exact H].
  apply ce_package_path_eq; [exact Hd|apply pkg_checked].
Qed.

Lemma keeps_ce_rest (S : str -> Prop) path seInfo mode uid gid want :
  plain path = true -> (forall q, S q -> ~ below path q) ->
  keeps S (create_ce_at path seInfo mode uid gid want).
Proof.
  intros Hp HS. unfold create_ce_at. apply keeps_bind; [by apply keeps_prepare_storage|]. intros []; try apply keeps_ret.
  apply keeps_bind; [apply keeps_any_fails; repeat constructor; apply keeps_write_path_inode|].
  intros []; [apply keeps_ret|]. destruct want; [|apply keeps_ret].
  apply keeps_bind; [|intros; apply keeps_ret]. unfold get_path_inode_io.
  apply keeps_bind; [apply keeps_ask|intros; apply keeps_ret].
Qed.

Lemma keeps_profile_dir (S : str -> Prop) appId userId :
  guarded S (profile_dirs (userid userId)) ->
  keeps S (prepare_app_profile_dir usejitprofiles G pkg appId userId).
Proof.
  intros Hg. unfold guarded, profile_dirs in Hg. apply Forall_cons in Hg as [[Hp1 H1] [[Hp2 H2] _]%Forall_cons].
  destruct (profile_paths_eq (userid userId)) as [E1 E2].
  unfold prepare_app_profile_dir. destruct (negb _); [apply keeps_ret|]. destruct (_ =? -1); [apply keeps_ret|].
  intros w. apply wp_bind. eapply wp_some; [exact E1|]. apply wp_bind, wp_call. set (w1 := snd _).
  assert (A1 : agree (view := view) S w w1) by (apply call_agrees; by constructor).
  destruct (nz _); [exact A1|]. apply wp_bind. eapply wp_some; [exact E2|]. apply wp_bind, wp_call, wp_ret.
  eapply agree_trans; [exact A1|]. apply call_agrees. by constructor.
Qed.

Lemma wp_createAppData (S : str -> Prop) userId flags appId seInfo sdk want w :
  let u := userid userId in
  plain (ce_package (w_isdir w) v u d pkg) = true -> (forall q, S q -> ~ below (ce_package (w_isdir w) v u d pkg) q) ->
  guarded S (de_package u d pkg :: profile_dirs u) ->
  wp (createAppData debuggable usejitprofiles G calling_uid v pkg userId flags appId seInfo sdk want)
     (fun _ w' => agree (view := view) S w w') w.
Proof.
  intros u Hce HSce Hg. unfold createAppData. cbn [List.find].
  rewrite Hcaller, Hv, Hpkg. cbn [negb bool_decide]. rewrite bool_decide_eq_true_2 by done. cbn [negb].
  cbv zeta. apply wp_bind. eapply wp_mono with (P := fun _ w' => agree (view := view) S w w').
  - unfold create_ce. destruct (has flags FLAG_STORAGE_CE); [|apply agree_refl].
    apply wp_bind, wp_ce_package. by apply keeps_ce_rest.
  - intros [res inode] w1 A1. destruct res; [|exact A1..]. apply wp_bind.
    assert (Hde : keeps S (create_de debuggable usejitprofiles G v pkg userId appId flags seInfo
                    (if sdk >=? MIN_RESTRICTED_HOME_SDK_VERSION then 448 else 489) (i32 (multiuser_get_uid userId appId))
                    (if i32 (multiuser_get_cache_gid userId appId) =? -1 then i32 (multiuser_get_uid userId appId)
                     else i32 (multiuser_get_cache_gid userId appId)))).
    { apply Forall_cons in Hg as [[Hp HS] Hprof]. intros w2. unfold create_de.
      destruct (has flags FLAG_STORAGE_DE); [|apply agree_refl].
      apply wp_bind. eapply wp_some; [apply de_package_path_eq; [exact Hd|apply pkg_checked]|].
      refine (keeps_bind S _ _ (keeps_prepare_storage S _ _ _ _ _ Hp HS) _ w2).
      intros []; try apply keeps_ret. apply keeps_bind; [by apply keeps_profile_dir|intros; apply keeps_ret]. }
    eapply wp_mono; [apply Hde|]. intros res2 w2 A2. eapply agree_trans; [exact A1|exact A2].
Qed.

(** The directory that an inode leads to. *)
Definition ce_target (w : W) (u : N) (ino : Z) : str :=
  let dir := user_ce_dir (w_isdir w) v u d in
  resolve_ce_path_by_inode_or_fallback (w_opendir w) dir ino (dir ++ slash :: pkg).

Lemma ce_target_eq w u ino :
  create_data_user_ce_package_path_inode debuggable (w_isdir w) (w_opendir w) v u pkg ino = Some (ce_target w u ino).
Proof.
  unfold create_data_user_ce_package_path_inode.
  by rewrite (ce_package_path_eq _ _ _ d), (ce_path_eq _ _ _ d) by (done || apply pkg_checked).
Qed.

Definition de_target (u : N) : str := user_de_dir u d ++ slash :: pkg.

Lemma de_target_plain u : plain (de_target u) = true.
Proof. unfold de_target. eauto with cmds. Qed.

Lemma wp_de_target u (Q : str -> W -> Prop) w : Q (de_target u) w -> wp (de_package_path debuggable v u pkg) Q w.
Proof. intros H. eapply wp_some; [|exact H]. apply de_package_path_eq; [done|apply pkg_checked]. Qed.

Lemma clearAppData_result userId flags ino w (S : str -> Prop) :
  let u := userid userId in
  plain (ce_target w u ino) = true -> ~ below (ce_target w u ino) (de_target u) ->
  guarded S [ce_target w u ino; de_target u] ->
  (has flags FLAG_STORAGE_EXTERNAL = true -> guarded S (ext_dirs pkg userId)) ->
  wp (clearAppData debuggable mStorageMounts calling_uid v pkg userId flags ino) (fun res w' =>
    shrinks S w w' /\
    (res = Ok -> whole flags ->
     (has flags FLAG_STORAGE_CE = true ->
      view w (ce_target w u ino) = None \/ emptied (view := view) (ce_target w u ino) w') /\
     (has flags FLAG_STORAGE_DE = true ->
      view w (de_target u) = None \/ emptied (view := view) (de_target u) w'))) w.
Proof.
  intros u Hp Hdis Hg Hext. apply wp_enforce; [by repeat constructor|].
  assert (Hg' := Hg). apply Forall_cons in Hg as [[_ Hce] [[_ Hde] _]%Forall_cons].
  apply wp_bind. eapply wp_mono; [apply (clear_ce_spec _ _ _ _ _ _ (fun q => S q \/ q = de_target u) (ce_target w u ino))|].
  { apply ce_target_eq. }
  { done. }
  { intros q [Hq | ->]; [by apply Hce|done]. }
  intros res1 w1 [[A1 M1] H1].
  assert (Sh1 : shrinks S w w1) by (split; [|done]; eapply agree_sub; [exact A1|by left]).
  apply wp_bind. eapply wp_mono; [apply (clear_de_spec _ _ _ _ _ _ S (de_target u))|].
  { apply de_package_path_eq; [done|apply pkg_checked]. }
  { apply de_target_plain. }
  { done. }
  intros res2 w2 (Sh2 & R2 & H2). eapply wp_mono; [by apply (clear_ext_spec _ _ _ _ _ S)|].
  intros res3 w3 [Sh3 R3]. split; [by eapply shrinks_trans; [|eapply shrinks_trans]|].
  intros Hok Hw. specialize (R3 Hok). specialize (R2 R3). split; intros Hf.
  - destruct (H1 R2 Hw Hf) as [?|He]; [by left|right]. eapply shrinks_emptied; [exact Sh3|].
    eapply shrinks_emptied; [exact Sh2|exact He].
  - destruct (H2 R3 Hw Hf) as [Hn|He]; [left|right; by eapply shrinks_emptied].
    rewrite (A1 (de_target u)) in Hn; [done|by right].
Qed.

Lemma deleted_gone p ign w :
  plain p = true -> nz (fst (w_call (DeleteDir p true ign) w)) = false ->
  view (snd (w_call (DeleteDir p true ign) w)) p = None /\ emptied (view := view) p (snd (w_call (DeleteDir p true ign) w)).
Proof.
  intros Hp Hz. apply negb_false_iff, Z.eqb_eq in Hz. destruct (delete_done p true ign w Hp Hz) as [H1 H2]. by split.
Qed.

(** Nothing is stored at a path or below it. *)
Definition gone (p : str) (w : W) : Prop := view w p = None /\ emptied (view := view) p w.

Lemma shrinks_gone (S : str -> Prop) p w w' : shrinks S w w' -> gone p w -> gone p w'.
Proof.
  intros Hs [H1 H2]. split; [|by eapply shrinks_emptied]. destruct Hs as [_ Hs].
  by destruct (Hs p) as [-> | ->].
Qed.

Lemma destroy_ce_spec userId flags ino w (S : str -> Prop) :
  plain (ce_target w (userid userId) ino) = true -> (forall q, S q -> ~ below (ce_target w (userid userId) ino) q) ->
  wp (destroy_ce debuggable v pkg userId flags ino) (fun res w' =>
    shrinks S w w' /\ (res = Ok -> has flags FLAG_STORAGE_CE = true -> gone (ce_target w (userid userId) ino) w')) w.
Proof.
  intros Hp HS. unfold destroy_ce. destruct (has flags FLAG_STORAGE_CE); [|by split; [apply shrinks_refl|]].
  apply wp_bind. unfold ce_package_path_inode. wps. eapply wp_some; [apply ce_target_eq|].
  apply wp_bind, wp_call, wp_ret. split; [by apply shrinks_delete|]. unfold or_error. intros Hr _.
  destruct (nz _) eqn:Hz; [done|]. by apply deleted_gone.
Qed.

Lemma wp_profile_delete p o (S : str -> Prop) w :
  o = Some p -> plain p = true -> (forall q, S q -> ~ below p q) ->
  wp (p ← abort_if_none o; delete_contents_and_dir p true) (fun _ w' => shrinks S w w') w.
Proof. intros -> Hp HS. apply wp_bind, (wp_some _ p); [done|]. apply wp_call. by apply shrinks_delete. Qed.

Lemma destroy_de_spec userId flags res w (S : str -> Prop) :
  guarded S (de_target (userid userId) :: profile_dirs (userid userId)) ->
  wp (destroy_de debuggable G v pkg userId flags res) (fun res' w' =>
    shrinks S w w' /\ (res' = Ok -> res = Ok /\ (has flags FLAG_STORAGE_DE = true -> gone (de_target (userid userId)) w'))) w.
Proof.
  intros Hg. apply Forall_cons in Hg as [[Hp HS] Hg]. apply Forall_cons in Hg as [[Hp1 H1] [[Hp2 H2] _]%Forall_cons].
  destruct (profile_paths_eq (userid userId)) as [E1 E2].
  unfold destroy_de. destruct (has flags FLAG_STORAGE_DE); [|by split; [apply shrinks_refl|]].
  apply wp_bind, wp_de_target, wp_bind, wp_call. set (w1 := snd _).
  assert (Sh1 : shrinks S w w1) by by apply shrinks_delete.
  apply wp_bind. eapply wp_mono; [by apply (wp_profile_delete _ _ S _ E1)|]. intros ? w2 Sh2.
  apply wp_bind. eapply wp_mono; [by apply (wp_profile_delete _ _ S _ E2)|]. intros ? w3 Sh3. apply wp_ret.
  pose proof (shrinks_trans _ _ _ _ Sh2 Sh3) as Sh23. split; [by eapply shrinks_trans|]. unfold or_error.
  destruct (nz _) eqn:Hz; [done|]. intros Hr. split; [done|]. intros _. eapply shrinks_gone; [exact Sh23|]. by apply deleted_gone.
Qed.

Lemma destroy_ext_spec userId flags res w (S : str -> Prop) :
  (has flags FLAG_STORAGE_EXTERNAL = true -> guarded S (ext_dirs pkg userId)) ->
  wp (destroy_ext mStorageMounts pkg userId flags res) (fun res' w' => shrinks S w w' /\ (res' = Ok -> res = Ok)) w.
Proof.
  intros Hg. unfold destroy_ext. destruct (has flags FLAG_STORAGE_EXTERNAL); [|by split; [apply shrinks_refl|]].
  apply (ext_loop_spec _ pkg); [by apply Hg|]. intros ext res1 w1 _ Hx.
  eapply wp_mono; [by apply (delete_all_spec true true _ _ _ S)|by intros ?? [? H]; split; [|apply H]].
Qed.

Lemma destroyAppData_result userId flags ino w (S : str -> Prop) :
  guarded S (ce_target w (userid userId) ino :: de_target (userid userId) :: profile_dirs (userid userId)) ->
  (has flags FLAG_STORAGE_EXTERNAL = true -> guarded S (ext_dirs pkg userId)) ->
  wp (destroyAppData debuggable G mStorageMounts calling_uid v pkg userId flags ino) (fun res w' =>
    shrinks S w w' /\
    (res = Ok ->
     (has flags FLAG_STORAGE_CE = true -> gone (ce_target w (userid userId) ino) w') /\
     (has flags FLAG_STORAGE_DE = true -> gone (de_target (userid userId)) w'))) w.
Proof.
  intros Hg Hext. apply wp_enforce; [by repeat constructor|]. apply Forall_cons in Hg as [[Hp HS] Hg].
  apply wp_bind. eapply wp_mono; [by apply (destroy_ce_spec _ _ _ _ S)|]. intros res1 w1 [Sh1 G1].
  apply wp_bind. eapply wp_mono; [by apply (destroy_de_spec _ _ _ _ S)|]. intros res2 w2 [Sh2 G2].
  eapply wp_mono; [by apply (destroy_ext_spec _ _ _ _ S)|]. intros res3 w3 [Sh3 R3].
  split; [eapply shrinks_trans; [exact Sh1|by eapply shrinks_trans]|]. intros Hok.
  destruct (G2 (R3 Hok)) as [R2 G2']. split; intros Hf.
  - eapply shrinks_gone; [exact Sh3|]. eapply shrinks_gone; [exact Sh2|]. by apply G1.
  - eapply shrinks_gone; [exact Sh3|]. by apply G2'.
Qed.

(** Labels are not part of the view. *)
Lemma wp_restoreconAppData userId flags appId seInfo w :
  wp (restoreconAppData debuggable calling_uid v pkg userId flags appId seInfo) (fun _ w' =>
    agree (view := view) (fun _ => True) w w') w.
Proof.
  assert (Hl : forall c w0, label_call c = true -> agree (view := view) (fun _ => True) w0 (snd (w_call c w0))).
  { intros c w0 Hc q _. by apply label_view. }
  apply wp_enforce; [by repeat constructor|]. unfold ce_package_path.
  apply wp_bind, (wp_mono _ (fun _ w' => agree (view := view) (fun _ => True) w w')).
  - destruct (has flags FLAG_STORAGE_CE); wps; [|apply agree_refl]. eapply wp_some.
    { apply ce_package_path_eq; [exact Hd|apply pkg_checked]. }
    wps. by apply Hl.
  - intros res w1 A1. destruct (has flags FLAG_STORAGE_DE); wps; [|exact A1].
    apply wp_de_target. wps. eapply agree_trans; [exact A1|]. by apply Hl.
Qed.

End Package.

End Spec.

Lemma outside_guarded (targets ps : list str) :
  (forall p, p ∈ ps -> p ∈ targets /\ plain p = true) -> guarded (outside targets) ps.
Proof.
  intros H. unfold guarded. apply Forall_forall. intros p Hp. destruct (H p Hp) as [Hin Hpl]. split; [done|].
  intros q Hq. unfold outside in Hq. rewrite Forall_forall in Hq. by apply Hq.
Qed.

(** The directories of the shared storage, when they are asked for. *)
Definition ext_targets (mounts : gmap str str) (pkg : str) (userId flags : Z) : list str :=
  if has flags FLAG_STORAGE_EXTERNAL then ext_dirs mounts pkg userId else [].

Lemma ext_guarded mounts pkg userId flags ce de :
  Forall (fun p => plain p = true) (ext_targets mounts pkg userId flags) ->
  has flags FLAG_STORAGE_EXTERNAL = true ->
  guarded (outside (ce :: de :: ext_targets mounts pkg userId flags)) (ext_dirs mounts pkg userId).
Proof.
  intros Hx Hext. unfold ext_targets in *. rewrite Hext in *. apply outside_guarded. intros p Hin.
  rewrite Forall_forall in Hx. split; [by do 2 right|by apply Hx].
Qed.

Lemma ce_de_guarded debuggable v pkg d u ce rest :
  plain ce = true -> checkArgumentPackageName pkg = StatusOk -> create_data_path debuggable v = Some d ->
  guarded (outside (ce :: de_target pkg d u :: rest)) [ce; de_target pkg d u].
Proof.
  intros Hce Hpkg Hd. apply outside_guarded. intros p. rewrite !elem_of_cons, elem_of_nil.
  intros [-> | [-> | []]]; split; [by left|done|by right; left|by apply (de_target_plain debuggable v)].
Qed.

Lemma ce_target_apart {W : Type} {world : World W} v pkg d w u ino :
  ~ below (ce_target v pkg d w u ino) (de_target pkg d u).
Proof.
  assert (Ha : exists a, in_area d a (ce_target v pkg d w u ino) /\ a <> ADe).
  { exists (ce_area (w_isdir w) v u d). split; [|unfold ce_area; by destruct (_ && _)].
    unfold ce_target, resolve_ce_path_by_inode_or_fallback.
    assert (Hsub : forall x, in_area d (ce_area (w_isdir w) v u d) (user_ce_dir (w_isdir w) v u d ++ slash :: x)).
    { intros x. apply in_area_sub, ce_in_area. }
    destruct (nz ino); [|apply Hsub]. destruct (w_opendir w _); [|apply Hsub]. destruct (List.find _ _); apply Hsub. }
  destruct Ha as (a & Ha & Hne). eapply areas_disjoint; [exact Ha|apply in_area_sub, de_in_area|done].
Qed.

(** * Properties *)

(** [clearAppData], asked for more than the caches, returns, changes nothing
    outside the two directories of the package and its directories on shared
    storage, adds nothing, and when it reports success the directories it was
    asked to clear have no content. *)
Theorem clearAppData_contract {W : Type} {world : World W} {Node : Type} (view : W -> str -> option Node)
    (is_dir : Node -> bool) {ok : WorldOk world view is_dir} {aid : AidRanges} (debuggable : bool)
    (mounts : gmap str str) (uid : Z) (v : option str) (pkg d : str) (userId flags ino : Z) (w : W) :
  let u := userid userId in
  let ce := ce_target v pkg d w u ino in
  let de := de_target pkg d u in
  no_dot_marks -> Forall (fun s => s = StatusOk)
    [checkUid uid AID_SYSTEM; checkArgumentUuid v; checkArgumentPackageName pkg] ->
  create_data_path debuggable v = Some d ->
  Forall (fun p => plain p = true) (ce :: ext_targets mounts pkg userId flags) ->
  exists res w',
    clearAppData debuggable mounts uid v pkg userId flags ino w = Some (res, w') /\
    (forall q, outside (ce :: de :: ext_targets mounts pkg userId flags) q -> view w' q = view w q) /\
    (forall q, view w' q = view w q \/ view w' q = None) /\
    (res = Ok -> whole flags ->
     (has flags FLAG_STORAGE_CE = true -> view w ce = None \/ emptied (view := view) ce w') /\
     (has flags FLAG_STORAGE_DE = true -> view w de = None \/ emptied (view := view) de w')).
Proof.
  intros u ce de Hm Hc Hd Hp. apply Forall_cons in Hc as [H1 [H2 [H3 _]%Forall_cons]%Forall_cons].
  apply Forall_cons in Hp as [Hce Hx].
  destruct (wp_exists _ _ _ (clearAppData_result debuggable mounts Hm uid v pkg d H1 H2 H3 Hd userId flags ino w
              (outside (ce :: de :: ext_targets mounts pkg userId flags)) Hce (ce_target_apart _ _ _ _ _ _)
              (ce_de_guarded _ _ _ _ _ _ _ Hce H3 Hd) (ext_guarded _ _ _ _ _ _ Hx))) as (res & w' & Hrun & [Ha Hs] & Hr).
  by exists res, w'.
Qed.


(** ** A run *)

Lemma simple_no_marks : no_dot_marks (world := simple_fs).
Proof. intros w parent attr i l e _ H. discriminate. Qed.

Definition app_nodes : list (str * node) :=
  [(lit "/data/data", Node true 505 []); (lit "/data/data/com.a", Node true 448 []);
   (lit "/data/data/com.a/f", Node false 384 (lit "x")); (lit "/data/data/com.b/f", Node false 384 (lit "y"));
   (lit "/data/user_de/0/com.a", Node true 448 []); (lit "/data/media/0/Android/data/com.a/s", Node false 432 [])].

Definition app_fs : fs := fun p => snd <$> List.find (fun e => p =s? fst e) app_nodes.

Definition app_mounts : gmap str str := {[ lit "/storage/emulated" := lit "/data/media" ]}.

Lemma clearAppData_contract_witness :
  exists res w',
    clearAppData (world := simple_fs) (aid := aid_android) false app_mounts 1000 None (lit "com.a") 0 7 0 app_fs = Some (res, w') /\
    fs_view w' (lit "/data/data/com.b/f") = Some (Node false 384 (lit "y")).
Proof.
  destruct (clearAppData_contract fs_view n_dir (aid := aid_android) false app_mounts 1000 None (lit "com.a") (lit "/data") 0 7 0 app_fs)
    as (res & w' & Hrun & Hframe & _).
  - exact simple_no_marks.
  - repeat constructor.
  - reflexivity.
  - vm_compute. repeat constructor.
  - exists res, w'. split; [exact Hrun|]. rewrite Hframe; [vm_compute; reflexivity|].
    apply outside_compute. vm_compute. reflexivity.
Defined.

Definition app_globals : globals := init_globals_from_data_and_root_with (lit "/data") (lit "/system") (lit "/mnt/asec").


(** An application can mark its directory with the inode of the directory
    above it; the mark is then resolved to the entry [..], and clearing the
    caches of that application clears the directory of the user. *)
Lemma dot_dot_mark :
  let dir := lit "/data/user/0/com.a" in
  let entries := fun _ : str => Some [Dirent (lit ".") 40 DT_DIR; Dirent (lit "..") 2 DT_DIR; Dirent (lit "cache") 41 DT_DIR] in
  read_path_inode entries {[ (dir, kXattrInodeCache) := 2 ]} dir (lit "cache") kXattrInodeCache = lit "/data/user/0/com.a/..".
Proof. vm_compute. reflexivity. Qed.
