(* ===== verification/Snapshots.v ===== *)
(** Snapshots of application data: [snapshotAppData], [restoreAppDataSnapshot]
    and [destroyAppDataSnapshot] of [InstalldNativeService.cpp].

    A snapshot empties the caches and copies the two directories of the
    package into the rollback directories of the user; a restore empties the
    directories of the package and copies the snapshot back. What is proved is
    that the two are inverse, whatever happens to the application's data and
    to the rest of the system in between. *)

From S2P Require Import Prelude Platform Fts InstalldPaths InstalldFs Quota Cache FreeCache World AppPaths AppData SimpleFs.

Open Scope Z_scope.
Open Scope io_scope.

Definition kRollbackFolderMode : Z := 448.

Section Snapshots.
Context {W : Type} {world : World W}.
Context {aid : AidRanges} {mu : Multiuser}.
Context (debuggable : bool) (mStorageMounts : gmap str str).

(** * Snapshots *)

(** One storage of a snapshot: the folder, the old snapshot removed, the copy;
    the scope guard deletes a snapshot that was not completed. *)
Definition snapshot_storage (from to rollback_package_path : str) : io W reply :=
  rc ← create_dir_if_needed_io to kRollbackFolderMode;
  if nz rc then mret Error
  else
    rc ← delete_contents rollback_package_path true;
    if nz rc then mret Error
    else
      rc ← copy_directory_recursive from to;
      if nz rc then _ ← delete_contents_and_dir rollback_package_path false; mret Error
      else mret Ok.

(** The DE and the CE part of [snapshotAppData]; the second with the inode of
    the snapshot. *)
Definition snapshot_de (volumeUuid : option str) (packageName : str) (user : N) (snapshotId storageFlags : Z)
    : io W reply :=
  if has storageFlags FLAG_STORAGE_DE then
    from ← de_package_path debuggable volumeUuid user packageName;
    to ← abort_if_none (create_data_misc_de_rollback_path debuggable volumeUuid user snapshotId);
    rollback ← abort_if_none (create_data_misc_de_rollback_package_path debuggable volumeUuid user snapshotId packageName);
    snapshot_storage from to rollback
  else mret Ok.

Definition snapshot_ce (volumeUuid : option str) (packageName : str) (user : N) (snapshotId storageFlags : Z)
    (want : bool) : io W (reply * Z) :=
  if has storageFlags FLAG_STORAGE_CE then
    from ← ce_package_path debuggable volumeUuid user packageName;
    to ← abort_if_none (create_data_misc_ce_rollback_path debuggable volumeUuid user snapshotId);
    rollback ← abort_if_none (create_data_misc_ce_rollback_package_path debuggable volumeUuid user snapshotId packageName);
    res ← snapshot_storage from to rollback;
    match (res : reply) with
    | Ok =>
        if want then
          ino ← get_path_inode_io rollback;
          match (ino : option Z) with
          | Some i => mret (Ok, i)
          | None => _ ← delete_contents_and_dir rollback false; mret (Error, 0)
          end
        else mret (Ok, 0)
    | r => mret (r, 0)
    end
  else mret (Ok, 0).

(** The reply and [*_aidl_return], where [want] says that it is not null. *)
Definition snapshotAppData (calling_uid : Z) (volumeUuid : option str) (packageName : str)
    (user snapshotId storageFlags : Z) (want : bool) : io W (reply * Z) :=
  match List.find (fun s => negb (bool_decide (s = StatusOk)))
          [checkUid calling_uid AID_SYSTEM; checkArgumentUuidTestOrNull volumeUuid; checkArgumentPackageName packageName] with
  | Some s => mret (Denied s, 0)
  | None =>
      from_ce ← ce_package_path debuggable volumeUuid (userid user) packageName;
      exists_ ← ask w_access;
      if negb (exists_ from_ce) then mret (Ok, 0)
      else
        _ ← clearAppData debuggable mStorageMounts calling_uid volumeUuid packageName user
              (Z.lor storageFlags FLAG_CLEAR_CACHE_ONLY) 0;
        _ ← clearAppData debuggable mStorageMounts calling_uid volumeUuid packageName user
              (Z.lor storageFlags FLAG_CLEAR_CODE_CACHE_ONLY) 0;
        res ← snapshot_de volumeUuid packageName (userid user) snapshotId storageFlags;
        match (res : reply) with
        | Ok => snapshot_ce volumeUuid packageName (userid user) snapshotId storageFlags want
        | r => mret (r, 0)
        end
  end.

(** The copies of [restoreAppDataSnapshot], with their exit codes. *)
Definition restore_ce (volumeUuid : option str) (user : N) (needed : bool) (from_ce : str) : io W Z :=
  if needed then
    to_ce ← ce_path debuggable volumeUuid user; copy_directory_recursive from_ce to_ce
  else mret 0.

Definition restore_de (volumeUuid : option str) (packageName : str) (user : N) (needed with_ce : bool) (from_de : str)
    : io W Z :=
  if needed then
    to_de ← de_path debuggable volumeUuid user;
    rc ← copy_directory_recursive from_de to_de;
    if nz rc && with_ce then
      ce_data ← ce_package_path debuggable volumeUuid user packageName;
      _ ← delete_contents_and_dir ce_data false; mret rc
    else mret rc
  else mret 0.

Definition restoreAppDataSnapshot (calling_uid : Z) (volumeUuid : option str) (packageName : str) (appId : Z)
    (seInfo : str) (user snapshotId storageFlags : Z) : io W reply :=
  enforce [checkUid calling_uid AID_SYSTEM; checkArgumentUuidTestOrNull volumeUuid; checkArgumentPackageName packageName] (
    from_ce ← abort_if_none (create_data_misc_ce_rollback_package_path debuggable volumeUuid (userid user) snapshotId packageName);
    from_de ← abort_if_none (create_data_misc_de_rollback_package_path debuggable volumeUuid (userid user) snapshotId packageName);
    exists_ ← ask w_access;
    let needs_ce_rollback := has storageFlags FLAG_STORAGE_CE && exists_ from_ce in
    let needs_de_rollback := has storageFlags FLAG_STORAGE_DE && exists_ from_de in
    if negb needs_ce_rollback && negb needs_de_rollback then mret Ok
    else
      res ← clearAppData debuggable mStorageMounts calling_uid volumeUuid packageName user storageFlags 0;
      match (res : reply) with
      | Ok =>
          rc ← restore_ce volumeUuid (userid user) needs_ce_rollback from_ce;
          if nz rc then mret Error
          else
            rc ← restore_de volumeUuid packageName (userid user) needs_de_rollback needs_ce_rollback from_de;
            if nz rc then mret Error
            else restoreconAppData debuggable calling_uid volumeUuid packageName user storageFlags appId seInfo
      | r => mret r
      end).

Definition destroyAppDataSnapshot (calling_uid : Z) (volumeUuid : option str) (packageName : str)
    (user ceSnapshotInode snapshotId storageFlags : Z) : io W reply :=
  enforce [checkUid calling_uid AID_SYSTEM; checkArgumentUuidTestOrNull volumeUuid; checkArgumentPackageName packageName] (
    res_de ←
      (if has storageFlags FLAG_STORAGE_DE then
         p ← abort_if_none (create_data_misc_de_rollback_package_path debuggable volumeUuid (userid user) snapshotId packageName);
         delete_contents_and_dir p true
       else mret 0);
    if nz res_de then mret Error
    else if has storageFlags FLAG_STORAGE_CE then
      entries ← ask w_opendir;
      p ← abort_if_none (create_data_misc_ce_rollback_package_path_inode debuggable entries volumeUuid (userid user)
                           snapshotId packageName ceSnapshotInode);
      res ← delete_contents_and_dir p true;
      mret (or_error res Ok)
    else mret Ok).


End Snapshots.

(** * Lemmas *)

Section Spec.
Context {W : Type} {world : World W} {Node : Type} {view : W -> str -> option Node} {is_dir : Node -> bool}.
Context {ok : WorldOk world view is_dir}.
Context {aid : AidRanges} {mu : Multiuser}.
Context (debuggable : bool) (mStorageMounts : gmap str str).

(** Two hierarchies store the same. *)
Definition same_tree (w1 : W) (p1 : str) (w2 : W) (p2 : str) : Prop :=
  view w1 p1 = view w2 p2 /\ forall rest, view w1 (p1 ++ slash :: rest) = view w2 (p2 ++ slash :: rest).

Lemma same_tree_trans w1 p1 w2 p2 w3 p3 :
  same_tree w1 p1 w2 p2 -> same_tree w2 p2 w3 p3 -> same_tree w1 p1 w3 p3.
Proof. intros [H1 H2] [H3 H4]. split; [congruence|]. intros rest. by rewrite H2. Qed.

Lemma same_tree_sym w1 p1 w2 p2 : same_tree w1 p1 w2 p2 -> same_tree w2 p2 w1 p1.
Proof. intros [H1 H2]. by split. Qed.

Lemma agree_same_tree (S : str -> Prop) w w' p :
  agree (view := view) S w w' -> (forall q, below p q -> S q) -> same_tree w' p w p.
Proof. intros Ha HS. split; [apply Ha, HS, below_refl|]. intros rest. apply Ha, HS. right. by exists rest. Qed.

Lemma wp_create_dir_if_needed path perms w :
  plain path = true ->
  wp (create_dir_if_needed_io path perms) (fun rc w' =>
    agree (view := view) (fun q => ~ below path q) w w' /\ (rc = 0 -> view w' path <> None)) w.
Proof.
  intros Hp. unfold create_dir_if_needed_io. wps. destruct (w_stat w path) as [st|e] eqn:Hst.
  - wps. split; [apply agree_refl|]. intros _. by eapply stat_view.
  - wps; [|by split; [apply agree_refl|]]. split.
    + apply call_agrees. by constructor.
    + intros Hz. by apply made_done.
Qed.

(** A copy into an empty place. *)
Lemma wp_copy_same from to pkg w :
  plain from = true -> plain to = true -> basename from = pkg ->
  view w to <> None -> emptied (view := view) (to ++ slash :: pkg) w ->
  (forall q, below from q -> ~ below (to ++ slash :: pkg) q) ->
  wp (copy_directory_recursive from to) (fun rc w' =>
    agree (view := view) (fun q => ~ below (to ++ slash :: pkg) q) w w' /\
    (rc = 0 -> same_tree w' (to ++ slash :: pkg) w from /\ view w from <> None)) w.
Proof.
  intros Hf Ht <- Hto He Hdis. unfold copy_directory_recursive. apply wp_call. split.
  - intros q Hq. by apply (copy_frame (view := view)).
  - intros Hz. destruct (copy_done (view := view) from to w Hf Ht Hz Hto) as (Hsrc & Hroot & Hall).
    split; [|done]. split; [done|]. intros rest. rewrite Hall. destruct (view w (from ++ slash :: rest)); [done|]. apply He.
Qed.

Lemma wp_snapshot_storage from to pkg w :
  plain from = true -> plain to = true -> check_package_name pkg = Some () -> basename from = pkg ->
  (forall q, below from q -> ~ below to q) ->
  wp (snapshot_storage from to (to ++ slash :: pkg)) (fun res w' =>
    agree (view := view) (fun q => ~ below to q) w w' /\
    (res = Ok -> same_tree w' (to ++ slash :: pkg) w from /\ view w from <> None)) w.
Proof.
  intros Hf Ht Hpkg Hb Hdis. unfold snapshot_storage, delete_contents, delete_contents_and_dir.
  set (rb := to ++ slash :: pkg). assert (Hr : plain rb = true) by by apply package_dir_plain.
  assert (Hsub : forall q, ~ below to q -> ~ below rb q) by (intros q Hq Hrb; apply Hq; eapply below_trans; [apply below_join_r|exact Hrb]).
  apply wp_bind. eapply wp_mono; [by apply wp_create_dir_if_needed|]. intros rc w1 [A1 H1].
  destruct (nz rc) eqn:Hz; [by split|]. apply negb_false_iff, Z.eqb_eq in Hz. specialize (H1 Hz). clear rc Hz.
  apply wp_bind, wp_call. set (w2 := snd _).
  assert (A2 : agree (view := view) (fun q => ~ below to q) w w2).
  { eapply agree_trans; [exact A1|]. apply call_agrees. by constructor. }
  destruct (nz _) eqn:Hz; [by split|]. apply (emptied_deleted (view := view)) in Hz; [|done]. fold w2 in Hz.
  assert (H2 : view w2 to <> None).
  { unfold w2. rewrite (call_frame (view := view)); [done|]. constructor; [|done]. split; [done|apply not_below_parent]. }
  apply wp_bind. eapply wp_mono; [apply (wp_copy_same from to pkg); auto|].
  intros rc w3 [A3 H3]. assert (A : agree (view := view) (fun q => ~ below to q) w w3).
  { eapply agree_trans; [exact A2|]. eapply agree_sub; [exact A3|done]. }
  destruct (nz rc) eqn:Hz3.
  - apply wp_bind, wp_call, wp_ret. split; [|done]. eapply agree_trans; [exact A|]. apply call_agrees. by constructor.
  - apply negb_false_iff, Z.eqb_eq in Hz3. split; [done|]. intros _. destruct (H3 Hz3) as [Hs Hn].
    assert (Hfrom : same_tree w2 from w from) by by apply (agree_same_tree (fun q => ~ below to q)).
    split; [by eapply same_tree_trans|]. by rewrite <- (proj1 Hfrom).
Qed.

Context (Hmarks : no_dot_marks).
Context (calling_uid : Z) (v : option str) (pkg d : str) (user snap flags : Z).
Context (Hcaller : checkUid calling_uid AID_SYSTEM = StatusOk) (Hv : checkArgumentUuidTestOrNull v = StatusOk).
Context (Hpkg : checkArgumentPackageName pkg = StatusOk) (Hd : create_data_path debuggable v = Some d).
Context (Hflags : 1 <= flags <= 3).

Let u : N := userid user.
Let ce_dir (w : W) : str := user_ce_dir (w_isdir w) v u d.
Let ce_pkg (w : W) : str := ce_dir w ++ slash :: pkg.
Let de_pkg : str := user_de_dir u d ++ slash :: pkg.
Let ce_rb : str := ce_rollback_dir u snap d ++ slash :: pkg.
Let de_rb : str := de_rollback_dir u snap d ++ slash :: pkg.

Lemma uuid_checked : checkArgumentUuid v = StatusOk.
Proof.
  unfold checkArgumentUuidTestOrNull in Hv. destruct v as [s|]; [|done].
  destruct (s =s? kTestUuid) eqn:E; [|done]. by apply str_eqb_eq in E as ->.
Qed.

Lemma pkg_ok : check_package_name pkg = Some ().
Proof. by eapply pkg_checked. Qed.

Lemma pkg_noslash : slash ∉ pkg.
Proof. apply (valid_package_name _ pkg_ok). Qed.

Lemma dir_plain : plain d = true.
Proof. by eapply data_path_plain. Qed.

Hint Resolve uuid_checked pkg_ok pkg_noslash dir_plain : cmds.

(** ** Where the directories lie *)

Lemma ce_pkg_in_area w : in_area d (ce_area (w_isdir w) v u d) (ce_pkg w).
Proof. apply in_area_sub, ce_in_area. Qed.

Lemma de_pkg_in_area : in_area d ADe de_pkg.
Proof. apply in_area_sub, de_in_area. Qed.

Lemma ce_area_cases w : ce_area (w_isdir w) v u d = ACe \/ ce_area (w_isdir w) v u d = ACeLegacy.
Proof. unfold ce_area. destruct (_ && _); auto. Qed.

Lemma apart (a b : area) p q q' : in_area d a p -> in_area d b q -> a <> b -> below p q' -> ~ below q q'.
Proof. intros Hp Hq Hab Hb. eapply areas_disjoint; [exact Hq|exact (in_area_below _ _ _ _ Hp Hb)|congruence]. Qed.

Lemma ce_area_ne w a : a <> ACe -> a <> ACeLegacy -> ce_area (w_isdir w) v u d <> a.
Proof. destruct (ce_area_cases w) as [-> | ->]; congruence. Qed.

Lemma ce_pkg_apart w b q q' : in_area d b q -> b <> ACe -> b <> ACeLegacy -> below (ce_pkg w) q' -> ~ below q q'.
Proof. intros Hq H1 H2. eapply apart; [apply ce_pkg_in_area|exact Hq|by apply ce_area_ne]. Qed.

Lemma apart_ce_pkg w b q q' : in_area d b q -> b <> ACe -> b <> ACeLegacy -> below q q' -> ~ below (ce_pkg w) q'.
Proof. intros Hq H1 H2. eapply apart; [exact Hq|apply ce_pkg_in_area|]. intros E. by apply (ce_area_ne w b). Qed.

Lemma ce_pkg_plain w : plain (ce_pkg w) = true.
Proof. unfold ce_pkg, ce_dir. eauto with cmds. Qed.

Lemma de_pkg_plain : plain de_pkg = true.
Proof. unfold de_pkg. eauto with cmds. Qed.

(** The place of the CE directories depends on [/data/data]. *)
Lemma ce_dir_stable (S : str -> Prop) w w' :
  agree (view := view) S w w' -> S (d ++ lit "/data") -> ce_dir w' = ce_dir w.
Proof.
  intros Ha HS. unfold ce_dir, user_ce_dir.
  assert (w_isdir w' (d ++ lit "/data") = w_isdir w (d ++ lit "/data")) as ->; [|done].
  assert (Hp : plain (d ++ lit "/data") = true).
  { change (plain (d ++ slash :: lit "data") = true). by rewrite plain_app, dir_plain. }
  rewrite !(isdir_view (view := view)) by done. by rewrite Ha.
Qed.

Definition legacy_in_area : in_area d ACeLegacy (d ++ lit "/data") := in_area_root d ACeLegacy.

Lemma package_not_legacy w : ~ below (ce_pkg w) (d ++ lit "/data").
Proof.
  unfold ce_pkg, ce_dir, user_ce_dir. destruct (_ && _); [apply not_below_parent|].
  eapply areas_disjoint; [apply in_area_sub, (in_area_intro d ACe)|apply legacy_in_area|done].
Qed.

Lemma area_not_legacy a p : in_area d a p -> a <> ACeLegacy -> ~ below p (d ++ lit "/data").
Proof. intros Hp Ha. eapply areas_disjoint; [exact Hp|apply legacy_in_area|done]. Qed.

(** ** Clearing *)

Definition off_package (w : W) (q : str) : Prop := ~ below (ce_pkg w) q /\ ~ below de_pkg q.

Lemma off_package_legacy w : off_package w (d ++ lit "/data").
Proof. split; [apply package_not_legacy|]. by eapply area_not_legacy; [apply de_pkg_in_area|]. Qed.

Lemma wp_clear w f :
  has f FLAG_STORAGE_EXTERNAL = false ->
  wp (clearAppData debuggable mStorageMounts calling_uid v pkg user f 0) (fun res w' =>
    shrinks (view := view) (off_package w) w w' /\
    (res = Ok -> whole f ->
     (has f FLAG_STORAGE_CE = true -> view w (ce_pkg w) = None \/ emptied (view := view) (ce_pkg w) w') /\
     (has f FLAG_STORAGE_DE = true -> view w de_pkg = None \/ emptied (view := view) de_pkg w'))) w.
Proof.
  intros Hext.
  apply (clearAppData_result debuggable mStorageMounts Hmarks calling_uid v pkg d Hcaller uuid_checked Hpkg Hd
           user f 0 w (off_package w)).
  - apply ce_pkg_plain.
  - apply (apart_ce_pkg w ADe de_pkg); [apply de_pkg_in_area|done|done|apply below_refl].
  - repeat constructor; [apply ce_pkg_plain|by intros q [? _]|apply de_pkg_plain|by intros q [_ ?]].
  - congruence.
Qed.

(** ** Snapshot *)

Definition off_de_rollback (q : str) : Prop := ~ below (de_rollback_dir u snap d) q.
Definition off_ce_rollback (q : str) : Prop := ~ below (ce_rollback_dir u snap d) q.

Lemma wp_snapshot_de w :
  wp (snapshot_de debuggable v pkg u snap flags) (fun res w' =>
    agree (view := view) off_de_rollback w w' /\
    (res = Ok -> has flags FLAG_STORAGE_DE = true -> same_tree w' de_rb w de_pkg /\ view w de_pkg <> None)) w.
Proof.
  unfold snapshot_de. destruct (has flags FLAG_STORAGE_DE); [|split; [apply agree_refl|done]].
  apply wp_bind, (wp_de_target debuggable v pkg d Hpkg Hd).
  apply wp_bind. eapply wp_some; [by apply de_rollback_path_eq|].
  apply wp_bind. eapply wp_some; [by apply de_rollback_package_path_eq; auto using pkg_ok|].
  eapply wp_mono; [apply wp_snapshot_storage|].
  - apply de_pkg_plain.
  - eauto with cmds.
  - apply pkg_ok.
  - apply basename_sub, pkg_noslash.
  - intros q. eapply apart; [apply de_pkg_in_area|apply de_rollback_in_area|done].
  - intros res w' [Ha Hs]. split; [exact Ha|]. intros Hr _. by apply Hs.
Qed.

Lemma wp_ce_pkg (Q : str -> W -> Prop) w : Q (ce_pkg w) w -> wp (ce_package_path debuggable v u pkg) Q w.
Proof.
  intros H. unfold ce_package_path. wps. eapply wp_some; [|exact H].
  by apply ce_package_path_eq; [|apply pkg_ok].
Qed.

Lemma wp_snapshot_ce want w :
  wp (snapshot_ce debuggable v pkg u snap flags want) (fun res w' =>
    agree (view := view) off_ce_rollback w w' /\
    (fst res = Ok -> has flags FLAG_STORAGE_CE = true -> same_tree w' ce_rb w (ce_pkg w) /\ view w (ce_pkg w) <> None)) w.
Proof.
  unfold snapshot_ce. destruct (has flags FLAG_STORAGE_CE); [|split; [apply agree_refl|done]].
  apply wp_bind, wp_ce_pkg.
  apply wp_bind. eapply wp_some; [by apply ce_rollback_path_eq|].
  apply wp_bind. eapply wp_some; [by apply ce_rollback_package_path_eq; auto using pkg_ok|].
  apply wp_bind. eapply wp_mono; [apply wp_snapshot_storage|].
  - apply ce_pkg_plain.
  - eauto with cmds.
  - apply pkg_ok.
  - apply basename_sub, pkg_noslash.
  - intros q. by eapply ce_pkg_apart; [apply ce_rollback_in_area|..].
  - intros res w' [Ha Hs]. destruct res; [|by split..].
    destruct want; [|by split; [exact Ha|auto]]. unfold get_path_inode_io. wps.
    destruct (w_stat w' _); [by split; [exact Ha|auto]|].
    unfold delete_contents_and_dir. apply wp_bind, wp_call, wp_ret. split; [|done].
    eapply agree_trans; [exact Ha|]. apply call_agrees. constructor; [|done].
    split; [unfold ce_rb; eauto with cmds|]. intros q Hq Hb. apply Hq. eapply below_trans; [apply below_join_r|exact Hb].
Qed.

Lemma flags_cases : flags = 1 \/ flags = 2 \/ flags = 3.
Proof. lia. Qed.

Lemma flags_plain f : f = FLAG_CLEAR_CACHE_ONLY \/ f = FLAG_CLEAR_CODE_CACHE_ONLY ->
  has (Z.lor flags f) FLAG_STORAGE_EXTERNAL = false /\ has flags FLAG_STORAGE_EXTERNAL = false /\ whole flags.
Proof. destruct flags_cases as [-> | [-> | ->]]; by intros [-> | ->]. Qed.

Lemma snapshot_checks :
  List.find (fun s => negb (bool_decide (s = StatusOk)))
    [checkUid calling_uid AID_SYSTEM; checkArgumentUuidTestOrNull v; checkArgumentPackageName pkg] = None.
Proof. by rewrite Hcaller, Hv, Hpkg. Qed.

Lemma wp_snapshot want w :
  wp (snapshotAppData debuggable mStorageMounts calling_uid v pkg user snap flags want) (fun res w' =>
    fst res = Ok -> view w (ce_pkg w) <> None -> ce_dir w' = ce_dir w /\
      (has flags FLAG_STORAGE_CE = true -> same_tree w' ce_rb w' (ce_pkg w') /\ view w' ce_rb <> None) /\
      (has flags FLAG_STORAGE_DE = true -> same_tree w' de_rb w' de_pkg /\ view w' de_rb <> None)) w.
Proof.
  unfold snapshotAppData. rewrite snapshot_checks. apply wp_bind, wp_ce_pkg, wp_bind, wp_ask.
  destruct (w_access w (ce_pkg w)) eqn:Hacc; cbn [negb].
  2: { apply wp_ret. intros _ H. exfalso. apply H. rewrite (access_view (view := view)) in Hacc by apply ce_pkg_plain.
       by destruct (view w (ce_pkg w)). }
  apply wp_bind. eapply wp_mono; [apply wp_clear, (proj1 (flags_plain _ (or_introl eq_refl)))|]. intros _ w1 [[A1 _] _].
  pose proof (ce_dir_stable _ _ _ A1 (off_package_legacy w)) as E1.
  apply wp_bind. eapply wp_mono; [apply wp_clear, (proj1 (flags_plain _ (or_intror eq_refl)))|]. intros _ w2 [[A2 _] _].
  pose proof (ce_dir_stable _ _ _ A2 (off_package_legacy w1)) as E2.
  apply wp_bind. eapply wp_mono; [apply wp_snapshot_de|]. intros res w3 [A3 H3].
  destruct res; [|apply wp_ret; done..].
  assert (E3 : ce_dir w3 = ce_dir w2).
  { apply (ce_dir_stable _ _ _ A3). eapply area_not_legacy; [apply de_rollback_in_area|done]. }
  eapply wp_mono; [apply wp_snapshot_ce|]. intros [res ino] w4 [A4 H4] Hok _. cbn [fst] in *.
  assert (E4 : ce_dir w4 = ce_dir w3).
  { apply (ce_dir_stable _ _ _ A4). eapply area_not_legacy; [apply ce_rollback_in_area|done]. }
  split; [congruence|]. split; intros Hf.
  - destruct (H4 Hok Hf) as [Hs Hn]. split; [|by rewrite (proj1 Hs)].
    eapply same_tree_trans; [exact Hs|]. apply same_tree_sym. unfold ce_pkg. rewrite E4.
    apply (agree_same_tree _ _ _ _ A4). intros q. by eapply ce_pkg_apart; [apply ce_rollback_in_area|..].
  - destruct (H3 eq_refl Hf) as [Hs Hn].
    assert (R4 : same_tree w4 de_rb w3 de_rb).
    { apply (agree_same_tree _ _ _ _ A4). intros q. eapply apart; [apply in_area_sub, de_rollback_in_area|apply ce_rollback_in_area|done]. }
    assert (P3 : same_tree w3 de_pkg w2 de_pkg).
    { apply (agree_same_tree _ _ _ _ A3). intros q. eapply apart; [apply de_pkg_in_area|apply de_rollback_in_area|done]. }
    assert (P4 : same_tree w4 de_pkg w3 de_pkg).
    { apply (agree_same_tree _ _ _ _ A4). intros q. eapply apart; [apply de_pkg_in_area|apply ce_rollback_in_area|done]. }
    assert (Hall : same_tree w4 de_rb w2 de_pkg) by by eapply same_tree_trans.
    split; [|by rewrite (proj1 Hall)]. eapply same_tree_trans; [exact Hall|]. apply same_tree_sym. by eapply same_tree_trans.
Qed.

Lemma checks_passed a b c :
  List.find (fun s => negb (bool_decide (s = StatusOk))) [a; b; c] = None -> a = StatusOk /\ b = StatusOk /\ c = StatusOk.
Proof.
  cbn [List.find]. repeat case_bool_decide; by cbn.
Qed.

(** ** Restore *)

(** What the restore starts from: the directories of the user exist, and
    nothing is stored below a directory that does not. *)
Record restorable (w : W) : Prop := {
  ce_dir_exists : view w (ce_dir w) <> None;
  de_dir_exists : view w (user_de_dir u d) <> None;
  ce_rooted : view w (ce_pkg w) = None -> emptied (view := view) (ce_pkg w) w;
  de_rooted : view w de_pkg = None -> emptied (view := view) de_pkg w;
  ce_saved : has flags FLAG_STORAGE_CE = true -> view w ce_rb <> None;
  de_saved : has flags FLAG_STORAGE_DE = true -> view w de_rb <> None;
}.

Lemma wp_restore_ce needed w :
  view w (ce_dir w) <> None -> (needed = true -> emptied (view := view) (ce_pkg w) w) ->
  wp (restore_ce debuggable v u needed ce_rb) (fun rc w' =>
    agree (view := view) (fun q => ~ below (ce_pkg w) q) w w' /\
    (rc = 0 -> needed = true -> same_tree w' (ce_pkg w) w ce_rb)) w.
Proof.
  intros Hdir He. unfold restore_ce. destruct needed; [|split; [apply agree_refl|done]].
  apply wp_bind. unfold ce_path. wps. eapply wp_some; [by apply ce_path_eq|].
  eapply wp_mono; [apply (wp_copy_same _ _ pkg)|].
  - unfold ce_rb. eauto with cmds.
  - eauto with cmds.
  - apply basename_sub, pkg_noslash.
  - exact Hdir.
  - by apply He.
  - intros q. eapply apart_ce_pkg; [apply in_area_sub, ce_rollback_in_area|done..].
  - intros rc w' [Ha Hs]. split; [exact Ha|]. intros Hrc _. by apply Hs.
Qed.

Lemma wp_restore_de needed with_ce w :
  view w (user_de_dir u d) <> None -> (needed = true -> emptied (view := view) de_pkg w) ->
  wp (restore_de debuggable v pkg u needed with_ce de_rb) (fun rc w' =>
    rc = 0 -> agree (view := view) (fun q => ~ below de_pkg q) w w' /\
              (needed = true -> same_tree w' de_pkg w de_rb)) w.
Proof.
  intros Hdir He. unfold restore_de. destruct needed; [|split; [apply agree_refl|done]].
  apply wp_bind. eapply wp_some; [by apply de_path_eq|].
  apply wp_bind. eapply wp_mono; [apply (wp_copy_same _ _ pkg)|].
  - unfold de_rb. eauto with cmds.
  - eauto with cmds.
  - apply basename_sub, pkg_noslash.
  - exact Hdir.
  - by apply He.
  - intros q. eapply apart; [apply in_area_sub, de_rollback_in_area|apply de_pkg_in_area|done].
  - intros rc w' [Ha Hs]. destruct (nz rc) eqn:Hz; cbn [andb].
    + apply negb_true_iff, Z.eqb_neq in Hz. destruct with_ce; [|by intros Hz'].
      apply wp_bind, wp_ce_pkg. unfold delete_contents_and_dir. apply wp_bind, wp_call, wp_ret. by intros Hz'.
    + intros Hrc. split; [exact Ha|]. intros _. by apply Hs.
Qed.

Lemma dirs_off_package w : off_package w (ce_dir w) /\ off_package w (user_de_dir u d).
Proof.
  split; split; [apply not_below_parent| | |apply not_below_parent].
  - eapply areas_disjoint; [apply de_pkg_in_area|apply ce_in_area|]. intros E. symmetry in E. revert E. by apply ce_area_ne.
  - eapply apart_ce_pkg; [apply de_in_area|done..|apply below_refl].
Qed.

Lemma rollback_off_package w p q : in_area d AMiscCe p \/ in_area d AMiscDe p -> below p q -> off_package w q.
Proof.
  intros [Hp|Hp] Hq; (split; [by eapply apart_ce_pkg; [exact Hp|..]|]);
    revert Hq; by eapply apart; [exact Hp|apply de_pkg_in_area|].
Qed.

Lemma wp_clear_restorable w :
  restorable w ->
  wp (clearAppData debuggable mStorageMounts calling_uid v pkg user flags 0) (fun res w1 => res = Ok ->
    agree (view := view) (off_package w) w w1 /\ ce_dir w1 = ce_dir w /\
    view w1 (ce_dir w1) <> None /\ view w1 (user_de_dir u d) <> None /\
    (has flags FLAG_STORAGE_CE = true -> emptied (view := view) (ce_pkg w1) w1) /\
    (has flags FLAG_STORAGE_DE = true -> emptied (view := view) de_pkg w1)) w.
Proof.
  intros [Hce Hde Rce Rde _ _]. destruct (flags_plain _ (or_introl eq_refl)) as (_ & Hext & Hwh).
  eapply wp_mono; [by apply wp_clear|]. intros res w1 [Sh H1] Hok. destruct (H1 Hok Hwh) as [Ece Ede].
  pose proof (proj1 Sh) as A1. pose proof (ce_dir_stable _ _ _ A1 (off_package_legacy w)) as E1.
  assert (Epkg : ce_pkg w1 = ce_pkg w) by (unfold ce_pkg; by rewrite E1).
  rewrite E1, Epkg, (A1 _ (proj1 (dirs_off_package w))), (A1 _ (proj2 (dirs_off_package w))).
  split_and!; [done..| |]; intros Hf.
  - destruct (Ece Hf) as [He|He]; [|exact He]. eapply shrinks_emptied; [exact Sh|by apply Rce].
  - destruct (Ede Hf) as [He|He]; [|exact He]. eapply shrinks_emptied; [exact Sh|by apply Rde].
Qed.

Lemma saved_needed w f p :
  plain p = true -> (has flags f = true -> view w p <> None) -> has flags f && w_access w p = has flags f.
Proof.
  intros Hp Hs. destruct (has flags f); [|done]. rewrite (access_view (view := view)) by done.
  specialize (Hs eq_refl). by destruct (view w p).
Qed.

Lemma wp_restore appId seInfo w :
  restorable w ->
  wp (restoreAppDataSnapshot debuggable mStorageMounts calling_uid v pkg appId seInfo user snap flags) (fun res w' =>
    res = Ok ->
    (has flags FLAG_STORAGE_CE = true -> same_tree w' (ce_pkg w) w ce_rb) /\
    (has flags FLAG_STORAGE_DE = true -> same_tree w' de_pkg w de_rb)) w.
Proof.
  intros Hw. apply wp_enforce; [by repeat constructor|].
  apply wp_bind. eapply wp_some; [by apply ce_rollback_package_path_eq; auto using pkg_ok|].
  apply wp_bind. eapply wp_some; [by apply de_rollback_package_path_eq; auto using pkg_ok|].
  apply wp_bind, wp_ask. fold u. fold ce_rb de_rb. cbv zeta.
  rewrite (saved_needed w FLAG_STORAGE_CE ce_rb), (saved_needed w FLAG_STORAGE_DE de_rb);
    [|unfold de_rb; eauto with cmds|apply Hw|unfold ce_rb; eauto with cmds|apply Hw].
  destruct (negb (has _ _) && negb (has _ _)) eqn:Hnone.
  { exfalso. apply andb_true_iff in Hnone as [H1%negb_true_iff H2%negb_true_iff].
    destruct flags_cases as [E | [E | E]]; by rewrite E in H1, H2. }
  apply wp_bind. eapply wp_mono; [by apply wp_clear_restorable|]. intros res w1 H1.
  destruct res; [|apply wp_ret; done..]. destruct (H1 eq_refl) as (A1 & E1 & Hce & Hde & Ece & Ede).
  apply wp_bind. eapply wp_mono; [by apply wp_restore_ce|].
  intros rc w2 [A2 H2]. destruct (nz rc) eqn:Hz; [by apply wp_ret|]. apply negb_false_iff, Z.eqb_eq in Hz.
  specialize (H2 Hz). assert (Epkg : ce_pkg w1 = ce_pkg w) by (unfold ce_pkg; by rewrite E1). rewrite Epkg in A2, H2. clear rc Hz.
  assert (Hde2 : agree (view := view) (fun q => in_area d ADe q) w1 w2).
  { eapply agree_sub; [exact A2|]. intros q Hq. eapply apart_ce_pkg; [exact Hq|done..|apply below_refl]. }
  apply wp_bind. eapply wp_mono; [apply wp_restore_de|].
  { by rewrite (Hde2 (user_de_dir u d)) by apply de_in_area. }
  { intros Hn. eapply emptied_agree; [exact Hde2|intros rest; apply in_area_sub, de_pkg_in_area|by apply Ede]. }
  intros rc w3 H3. destruct (nz rc) eqn:Hz; [by apply wp_ret|]. apply negb_false_iff, Z.eqb_eq in Hz.
  destruct (H3 Hz) as [A3 D3]. clear H3.
  eapply wp_mono; [apply (wp_restoreconAppData debuggable _ _ _ d); auto using uuid_checked|]. intros res w4 A4 _.
  assert (T4 : forall p, same_tree w4 p w3 p) by (intros p; by apply (agree_same_tree _ _ _ _ A4)).
  split; intros Hf; (eapply same_tree_trans; [apply T4|]).
  - eapply same_tree_trans.
    { apply (agree_same_tree _ _ _ _ A3). intros q. by eapply ce_pkg_apart; [apply de_pkg_in_area|..]. }
    eapply same_tree_trans; [by apply H2|]. apply (agree_same_tree _ _ _ _ A1). intros q.
    apply rollback_off_package. left. apply in_area_sub, ce_rollback_in_area.
  - eapply same_tree_trans; [by apply D3|]. eapply same_tree_trans.
    { apply (agree_same_tree _ _ _ _ A2). intros q. eapply apart_ce_pkg; [apply in_area_sub, de_rollback_in_area|done..]. }
    apply (agree_same_tree _ _ _ _ A1). intros q.
    apply rollback_off_package. right. apply in_area_sub, de_rollback_in_area.
Qed.

End Spec.

(** * Properties *)

(** C28: a snapshot that is restored gives back what it was taken of, whatever
    happened to the package in between: the directories of the package after
    the restore store what they stored when the snapshot was complete. It is
    enough that the snapshot itself was left alone and that the directories
    of the user exist. *)
Theorem snapshot_restore_roundtrip {W : Type} {world : World W} {Node : Type} (view : W -> str -> option Node)
    (is_dir : Node -> bool) {ok : WorldOk world view is_dir} {aid : AidRanges} {mu : Multiuser} (debuggable : bool)
    (mounts : gmap str str) (uid : Z) (v : option str) (pkg d seInfo : str) (user snap flags appId ino : Z)
    (want : bool) (w0 w1 w2 w3 : W) :
  no_dot_marks -> create_data_path debuggable v = Some d -> 1 <= flags <= 3 ->
  view w0 (ce_package (w_isdir w0) v (userid user) d pkg) <> None ->
  snapshotAppData debuggable mounts uid v pkg user snap flags want w0 = Some (Ok, ino, w1) ->
  (forall q, below (ce_snapshot (userid user) snap d pkg) q \/ below (de_snapshot (userid user) snap d pkg) q ->
     view w2 q = view w1 q) ->
  view w2 (user_ce_dir (w_isdir w2) v (userid user) d) <> None -> view w2 (user_de_dir (userid user) d) <> None ->
  (forall p, p = ce_package (w_isdir w2) v (userid user) d pkg \/ p = de_package (userid user) d pkg ->
     view w2 p = None -> emptied (view := view) p w2) ->
  restoreAppDataSnapshot debuggable mounts uid v pkg appId seInfo user snap flags w2 = Some (Ok, w3) ->
  (has flags FLAG_STORAGE_CE = true ->
   same_tree (view := view) w3 (ce_package (w_isdir w2) v (userid user) d pkg)
                            w1 (ce_package (w_isdir w1) v (userid user) d pkg)) /\
  (has flags FLAG_STORAGE_DE = true ->
   same_tree (view := view) w3 (de_package (userid user) d pkg) w1 (de_package (userid user) d pkg)).
Proof.
  intros Hm Hd Hf Hdata Hsnap Hkept Hce Hde Hroot Hrest.
  destruct (List.find (fun s => negb (bool_decide (s = StatusOk)))
              [checkUid uid AID_SYSTEM; checkArgumentUuidTestOrNull v; checkArgumentPackageName pkg]) eqn:Hc.
  { unfold snapshotAppData in Hsnap. by rewrite Hc in Hsnap. }
  apply checks_passed in Hc as (Hcaller & Hv & Hpkg).
  pose proof (wp_run _ _ _ _ _ (wp_snapshot debuggable mounts Hm uid v pkg d user snap flags Hcaller Hv Hpkg Hd Hf want w0) Hsnap
                eq_refl Hdata) as (_ & Sce & Sde).
  assert (Hr : restorable (view := view) v pkg d user snap flags w2).
  { split; [done..| | | |].
    - apply Hroot. by left.
    - apply Hroot. by right.
    - intros H. rewrite Hkept; [by apply Sce|left; by left].
    - intros H. rewrite Hkept; [by apply Sde|right; by left]. }
  pose proof (wp_run _ _ _ _ _ (wp_restore debuggable mounts Hm uid v pkg d user snap flags Hcaller Hv Hpkg Hd Hf
                                  appId seInfo w2 Hr) Hrest eq_refl) as [Rce Rde].
  split; intros H.
  - eapply same_tree_trans; [by apply Rce|]. eapply same_tree_trans; [|by apply Sce].
    split; [apply Hkept; left; apply below_refl|]. intros rest. apply Hkept. left. right. by exists rest.
  - eapply same_tree_trans; [by apply Rde|]. eapply same_tree_trans; [|by apply Sde].
    split; [apply Hkept; right; apply below_refl|]. intros rest. apply Hkept. right. right. by exists rest.
Qed.

(** ** A run *)

Definition demo_nodes : list (str * node) :=
  [(lit "/data/data", Node true 505 []); (lit "/data/user_de/0", Node true 505 []);
   (lit "/data/data/com.a", Node true 448 []); (lit "/data/data/com.a/f", Node false 384 (lit "old"));
   (lit "/data/data/com.a/cache", Node true 505 []); (lit "/data/data/com.a/cache/c", Node false 384 []);
   (lit "/data/user_de/0/com.a", Node true 448 []); (lit "/data/user_de/0/com.a/g", Node false 384 (lit "key"))].

Definition demo_fs : fs := fun p => snd <$> List.find (fun e => p =s? fst e) demo_nodes.

Definition demo_snapshot : option (reply * Z * fs) :=
  snapshotAppData (aid := aid_android) false ∅ 1000 None (lit "com.a") 0 5 3 true demo_fs.

Definition demo_saved : fs := default demo_fs (snd <$> demo_snapshot).

(** The application overwrites a file and makes another one. *)
Definition demo_changed : fs :=
  set_node (set_node demo_saved (lit "/data/data/com.a/f") (Node false 384 (lit "new")))
    (lit "/data/data/com.a/h") (Node false 384 (lit "stale")).

Definition demo_restore : option (reply * fs) :=
  restoreAppDataSnapshot (aid := aid_android) (mu := mu_android) false ∅ 1000 None (lit "com.a") 10 (lit "default") 0 5 3 demo_changed.

Definition demo_restored : fs := default demo_fs (snd <$> demo_restore).

Lemma set_node_below w p q n x : below p x -> belowb p q = false -> fs_view (set_node w q n) x = fs_view w x.
Proof.
  intros Hb Hq. unfold fs_view, set_node. destruct (x =s? q) eqn:E; [|done].
  apply str_eqb_eq in E as ->. apply belowb_spec in Hb. congruence.
Qed.

Lemma snapshot_restore_roundtrip_witness :
  same_tree (view := fs_view) demo_restored (lit "/data/data/com.a") demo_saved (lit "/data/data/com.a") /\
  same_tree (view := fs_view) demo_restored (lit "/data/user_de/0/com.a") demo_saved (lit "/data/user_de/0/com.a").
Proof.
  destruct (snapshot_restore_roundtrip fs_view n_dir (aid := aid_android) (mu := mu_android) false ∅ 1000 None
              (lit "com.a") (lit "/data") (lit "default") 0 5 3 10 7 true
              demo_fs demo_saved demo_changed demo_restored) as [Hce Hde].
  - exact simple_no_marks.
  - reflexivity.
  - lia.
  - vm_compute. discriminate.
  - apply run_result. vm_compute. reflexivity.
  - intros q [Hb|Hb]; unfold demo_changed; by rewrite !(set_node_below _ _ _ _ _ Hb) by (vm_compute; reflexivity).
  - vm_compute. discriminate.
  - vm_compute. discriminate.
  - intros p [-> | ->]; vm_compute; discriminate.
  - apply run_result. vm_compute. reflexivity.
  - split; [exact (Hce eq_refl)|exact (Hde eq_refl)].
Defined.

(** The file has its old contents again and the other one is gone; the cache
    was not saved. *)
Lemma snapshot_restore_example :
  fs_view demo_restored (lit "/data/data/com.a/f") = Some (Node false 384 (lit "old")) /\
  fs_view demo_restored (lit "/data/data/com.a/h") = None /\
  fs_view demo_restored (lit "/data/data/com.a/cache/c") = None.
Proof. vm_compute. split_and!; reflexivity. Qed.
