(* ===== verification/MoveApp.v ===== *)
(** Moving an application to another volume: [moveCompleteApp] of
    [InstalldNativeService.cpp].

    The code of the application and, for every user, its data are copied to
    the target volume; when a step fails everything that may have been copied
    is deleted. The source is left to the caller, who deletes it after the
    new location is recorded. *)

From S2P Require Import Prelude Platform Fts InstalldPaths InstalldFs Quota Cache FreeCache World AppPaths SimpleFs AppData.

Open Scope Z_scope.
Open Scope io_scope.

Section Move.
Context {W : Type} {world : World W}.
Context {aid : AidRanges} {mu : Multiuser}.
Context (debuggable usejitprofiles : bool) (G : globals).


(** The copies of one user's data. *)
Definition move_de (from_uuid to_uuid : option str) (packageName : str) (user : N) : io W Z :=
  from ← de_package_path debuggable from_uuid user packageName;
  to ← de_path debuggable to_uuid user;
  copy_directory_recursive from to.

Definition move_ce (from_uuid to_uuid : option str) (packageName : str) (user : N) : io W Z :=
  from ← ce_package_path debuggable from_uuid user packageName;
  to ← ce_path debuggable to_uuid user;
  copy_directory_recursive from to.

(** The round of the loop for one user, [true] for success. *)
Definition move_user (calling_uid : Z) (from_uuid to_uuid : option str) (packageName : str) (appId : Z) (seInfo : str)
    (targetSdkVersion : Z) (user : N) : io W bool :=
  from_ce ← ce_package_path debuggable from_uuid user packageName;
  exists_ ← ask w_access;
  if negb (exists_ from_ce) then mret true
  else
    '(created, _) ← createAppData debuggable usejitprofiles G calling_uid to_uuid packageName (i32 (Z.of_N user))
                      (Z.lor FLAG_STORAGE_CE FLAG_STORAGE_DE) appId seInfo targetSdkVersion false;
    match (created : reply) with
    | Ok =>
        rc ← move_de from_uuid to_uuid packageName user;
        if nz rc then mret false
        else
          rc ← move_ce from_uuid to_uuid packageName user;
          if nz rc then mret false
          else
            res ← restoreconAppData debuggable calling_uid to_uuid packageName (i32 (Z.of_N user))
                    (Z.lor FLAG_STORAGE_CE FLAG_STORAGE_DE) appId seInfo;
            mret (match (res : reply) with Ok => true | _ => false end)
    | _ => mret false
    end.

Fixpoint move_users (move : N -> io W bool) (users : list N) : io W bool :=
  match users with
  | [] => mret true
  | u :: users' => moved ← move u; if (moved : bool) then move_users move users' else mret false
  end.

(** The copies of the code and of the data of all users. *)
Definition move_copies (from to to_parent : str) (move : N -> io W bool) (users : list N) : io W bool :=
  rc ← copy_directory_recursive from to_parent;
  if nz rc then mret false
  else
    rc ← do_call (Restorecon to true);
    if nz rc then mret false else move_users move users.

(** The label [fail]: everything that may have been copied is deleted. *)
Definition move_rollback (to_uuid : option str) (packageName dataAppName : str) (users : list N) : io W unit :=
  to ← abort_if_none (create_data_app_package_path debuggable to_uuid dataAppName);
  _ ← delete_contents_and_dir to false;
  for_all users (fun user =>
    to ← de_package_path debuggable to_uuid user packageName;
    _ ← delete_contents_and_dir to false;
    to ← ce_package_path debuggable to_uuid user packageName;
    _ ← delete_contents_and_dir to false;
    mret ()).

Definition moveCompleteApp (calling_uid : Z) (fromUuid toUuid : option str) (packageName dataAppName : str)
    (appId : Z) (seInfo : str) (targetSdkVersion : Z) : io W reply :=
  enforce [checkUid calling_uid AID_SYSTEM; checkArgumentUuid fromUuid; checkArgumentUuid toUuid;
           checkArgumentPackageName packageName] (
    users ← known_users debuggable fromUuid;
    from ← abort_if_none (create_data_app_package_path debuggable fromUuid dataAppName);
    to ← abort_if_none (create_data_app_package_path debuggable toUuid dataAppName);
    to_parent ← abort_if_none (create_data_app_path debuggable toUuid);
    moved ← move_copies from to to_parent
              (move_user calling_uid fromUuid toUuid packageName appId seInfo targetSdkVersion) users;
    if (moved : bool) then mret Ok
    else _ ← move_rollback toUuid packageName dataAppName users; mret Error).

End Move.

(** * Lemmas *)

(** The data directories of two volumes have no component list in common. *)
Lemma data_path_comps debuggable v d :
  create_data_path debuggable v = Some d ->
  comps d = [[]; lit "data"] \/ comps d = [[]; lit "data"; lit "local"; lit "tmp"] \/
  exists u, comps d = [[]; lit "mnt"; lit "expand"; u].
Proof.
  unfold create_data_path, check. destruct v as [u|]; [|intros [= <-]; by left].
  destruct (u =s? lit "TEST").
  - destruct debuggable; cbn; [|done]. intros [= <-]. right. by left.
  - destruct (is_valid_filename u) eqn:E; cbn [mbind option_bind]; [|done]. intros H. apply (inj Some) in H as <-.
    right. right. exists u. change (comps (lit "/mnt/expand" ++ slash :: u) = [[]; lit "mnt"; lit "expand"; u]).
    rewrite comps_app, (comps_single u); [done|]. apply find_char_None.
    unfold is_valid_filename in E. apply negb_true_iff in E. rewrite !orb_false_iff in E. destruct E as [_ E].
    by destruct (find_char slash u 0).
Qed.

Lemma volumes_apart debuggable v1 v2 d1 d2 a b p q q' :
  create_data_path debuggable v1 = Some d1 -> create_data_path debuggable v2 = Some d2 -> d1 <> d2 ->
  in_area d1 a p -> in_area d2 b q -> below p q' -> ~ below q q'.
Proof.
  intros H1 H2 Hne Hp Hq Hb Hb'. destruct (in_area_below _ _ _ _ Hp Hb) as [l1 E1].
  destruct (in_area_below _ _ _ _ Hq Hb') as [l2 E2]. rewrite E1 in E2.
  apply data_path_comps in H1, H2.
  destruct H1 as [H1 | [H1 | [u1 H1]]], H2 as [H2 | [H2 | [u2 H2]]].
  all: try (apply Hne, comps_inj; by rewrite H1, H2).
  all: rewrite H1, H2 in E2; cbn [app] in E2; try discriminate.
  - injection E2 as E2 _. by destruct a.
  - injection E2 as E2 _. by destruct b.
  - apply Hne, comps_inj. rewrite H1, H2. by injection E2 as ->.
Qed.

Section Spec.
Context {W : Type} {world : World W} {Node : Type} {view : W -> str -> option Node} {is_dir : Node -> bool}.
Context {ok : WorldOk world view is_dir}.
Context {aid : AidRanges} {mu : Multiuser}.
Context (debuggable usejitprofiles : bool) (G : globals).

(** [p1] stores all that [p2] stores. *)
Definition covers (w1 : W) (p1 : str) (w2 : W) (p2 : str) : Prop :=
  view w1 p1 = view w2 p2 /\
  forall rest n, view w2 (p2 ++ slash :: rest) = Some n -> view w1 (p1 ++ slash :: rest) = Some n.

Lemma covers_same w1 p1 w2 p2 w3 :
  covers w1 p1 w2 p2 -> (forall q, below p1 q -> view w3 q = view w1 q) -> covers w3 p1 w2 p2.
Proof.
  intros [H1 H2] H. split; [rewrite H; [done|apply below_refl]|]. intros rest n Hn.
  rewrite H; [by apply H2|right; by exists rest].
Qed.

Lemma covers_source w1 p1 w2 p2 w3 :
  covers w1 p1 w2 p2 -> (forall q, below p2 q -> view w3 q = view w2 q) -> covers w1 p1 w3 p2.
Proof.
  intros [H1 H2] H. split; [rewrite H; [done|apply below_refl]|]. intros rest n Hn.
  rewrite H in Hn; [by apply H2|right; by exists rest].
Qed.

Lemma wp_copy_covers from to name w :
  plain from = true -> plain to = true -> basename from = name -> view w to <> None ->
  wp (copy_directory_recursive from to) (fun rc w' =>
    agree (view := view) (fun q => ~ below (to ++ slash :: name) q) w w' /\
    (rc = 0 -> covers w' (to ++ slash :: name) w from)) w.
Proof.
  intros Hf Ht <- Hto. unfold copy_directory_recursive. apply wp_call. split.
  - intros q Hq. by apply (copy_frame (view := view)).
  - intros Hz. destruct (copy_done (view := view) from to w Hf Ht Hz Hto) as (_ & Hroot & Hall).
    split; [done|]. intros rest n Hn. by rewrite Hall, Hn.
Qed.

Context (calling_uid : Z) (v1 v2 : option str) (pkg name d1 d2 : str).
Context (Hcaller : checkUid calling_uid AID_SYSTEM = StatusOk).
Context (Hv1 : checkArgumentUuid v1 = StatusOk) (Hv2 : checkArgumentUuid v2 = StatusOk).
Context (Hpkg : checkArgumentPackageName pkg = StatusOk) (Hname : check_package_name name = Some ()).
Context (Hd1 : create_data_path debuggable v1 = Some d1) (Hd2 : create_data_path debuggable v2 = Some d2).
Context (Hne : d1 <> d2) (HG : android_profiles_dir G = lit "/data/misc/profiles").
(* whether /data/data of the source and of the target is a directory *)
Context (L1 L2 : bool).

(** The directories of a user on both volumes. *)
Definition src_ce (u : N) : str := ce_package (fun _ => L1) v1 u d1 pkg.
Definition src_de (u : N) : str := de_package u d1 pkg.
Definition dst_ce (u : N) : str := ce_package (fun _ => L2) v2 u d2 pkg.
Definition dst_de (u : N) : str := de_package u d2 pkg.
Definition dst_ce_dir (u : N) : str := user_ce_dir (fun _ => L2) v2 u d2.

(** What the round of a user may change. *)
Definition user_targets (u : N) : list str := dst_de u :: dst_ce u :: profile_dirs G pkg u.

Lemma pkg_ok2 : check_package_name pkg = Some ().
Proof. by apply pkg_checked. Qed.

Lemma pkg_noslash2 : slash ∉ pkg.
Proof. apply (valid_package_name _ pkg_ok2). Qed.

Lemma d1_plain : plain d1 = true.
Proof. exact (data_path_plain _ _ _ Hd1). Qed.

Lemma d2_plain : plain d2 = true.
Proof. exact (data_path_plain _ _ _ Hd2). Qed.

Hint Resolve pkg_ok2 pkg_noslash2 d1_plain d2_plain : cmds.

Lemma src_plain u : plain (src_ce u) = true /\ plain (src_de u) = true.
Proof. split; apply package_dir_plain; eauto using pkg_ok2 with cmds. Qed.

Lemma dst_plain u : plain (dst_ce u) = true /\ plain (dst_de u) = true.
Proof. split; apply package_dir_plain; eauto using pkg_ok2 with cmds. Qed.

Lemma profile_dirs_plain u : Forall (fun p => plain p = true) (profile_dirs G pkg u).
Proof.
  unfold profile_dirs, create_primary_cur_profile_dir_path. rewrite HG.
  destruct (valid_package_name _ pkg_ok2) as (_ & Hp & _). repeat constructor.
  - change (plain (lit "/data/misc/profiles/cur" ++ slash :: fmt_u u ++ slash :: pkg) = true) ||
    (assert (E : (lit "/data/misc/profiles" ++ lit "/cur/" ++ fmt_u u) ++ slash :: pkg =
       lit "/data/misc/profiles/cur" ++ slash :: fmt_u u ++ slash :: pkg) by (rewrite <- app_assoc; done); rewrite E).
    rewrite !plain_app, Hp, (numeral_plain (fmt_u u)) by apply fmt_u_numeral. done.
  - change (plain (lit "/data/misc/profiles/ref" ++ slash :: pkg) = true). by rewrite plain_app, Hp.
Qed.

(** A directory of the source has nothing in common with a target. *)
Lemma profile_not_in_area debug v d a p u q :
  create_data_path debug v = Some d -> in_area d a p -> below p q -> Forall (fun t => ~ below t q) (profile_dirs G pkg u).
Proof.
  intros Hd Hp Hb. destruct (in_area_below _ _ _ _ Hp Hb) as [l E]. apply data_path_comps in Hd.
  assert (H : forall t, below t q -> below (lit "/data/misc/profiles") t -> False).
  { intros t Ht Hpt. pose proof (below_trans _ _ _ Hpt Ht) as [l' E']%below_comps.
    change (comps (lit "/data/misc/profiles")) with [[]; lit "data"; lit "misc"; lit "profiles"] in E'.
    rewrite E in E'. destruct Hd as [Hd | [Hd | [x Hd]]]; rewrite Hd in E'; cbn [app] in E'; try discriminate.
    injection E' as E' _. by destruct a. }
  unfold profile_dirs, create_primary_cur_profile_dir_path. rewrite HG.
  repeat constructor; intros Hx; eapply H; try exact Hx.
  - right. exists (lit "cur/" ++ fmt_u u ++ slash :: pkg). rewrite <- !app_assoc. done.
  - right. exists (lit "ref/" ++ pkg). done.
Qed.

Lemma dst_ce_in_area u : exists a, in_area d2 a (dst_ce u) /\ (a = ACe \/ a = ACeLegacy).
Proof.
  exists (ce_area (fun _ => L2) v2 u d2). split; [apply in_area_sub, ce_in_area|].
  unfold ce_area. destruct (_ && _); auto.
Qed.

Lemma dst_de_in_area u : in_area d2 ADe (dst_de u).
Proof. apply in_area_sub, de_in_area. Qed.

Lemma source_outside a p q u : in_area d1 a p -> below p q -> outside (user_targets u) q.
Proof.
  intros Hp Hb. destruct (dst_ce_in_area u) as (b & Hce & _).
  constructor; [exact (volumes_apart debuggable v1 v2 d1 d2 a ADe p _ q Hd1 Hd2 Hne Hp (dst_de_in_area u) Hb)|].
  constructor; [exact (volumes_apart debuggable v1 v2 d1 d2 a b p _ q Hd1 Hd2 Hne Hp Hce Hb)|].
  exact (profile_not_in_area debuggable v1 d1 a p u q Hd1 Hp Hb).
Qed.

Lemma area_outside a p q u : in_area d2 a p -> a <> ADe -> a <> ACe -> a <> ACeLegacy -> below p q -> outside (user_targets u) q.
Proof.
  intros Hp H1 H2 H3 Hb. pose proof (in_area_below _ _ _ _ Hp Hb) as Hq.
  destruct (dst_ce_in_area u) as (b & Hce & Hb').
  constructor; [eapply areas_disjoint; [apply dst_de_in_area|exact Hq|congruence]|].
  constructor; [eapply areas_disjoint; [exact Hce|exact Hq|destruct Hb'; congruence]|].
  exact (profile_not_in_area debuggable v2 d2 a p u q Hd2 Hp Hb).
Qed.

Lemma comps_ce_dir u : comps (dst_ce_dir u) = comps d2 ++ [lit "data"] /\ u = 0%N /\ L2 = true \/
  comps (dst_ce_dir u) = comps d2 ++ [lit "user"; fmt_u u].
Proof.
  unfold dst_ce_dir, user_ce_dir. destruct (_ && _) eqn:E.
  - left. apply andb_true_iff in E as [[_ E]%andb_true_iff HL]. apply N.eqb_eq in E. split; [|done].
    change (comps (d2 ++ slash :: lit "data") = comps d2 ++ [lit "data"]). by rewrite comps_app.
  - right. change (comps (d2 ++ slash :: lit "user" ++ slash :: fmt_u u) = comps d2 ++ [lit "user"; fmt_u u]).
    rewrite !comps_app, (comps_single (fmt_u u)) by apply fmt_u_noslash. done.
Qed.

Lemma comps_de_dir u : comps (user_de_dir u d2) = comps d2 ++ [lit "user_de"; fmt_u u].
Proof.
  change (comps (d2 ++ slash :: lit "user_de" ++ slash :: fmt_u u) = comps d2 ++ [lit "user_de"; fmt_u u]).
  rewrite !comps_app, (comps_single (fmt_u u)) by apply fmt_u_noslash. done.
Qed.

(** The directories of different users have nothing in common. *)
Lemma users_apart u u' q q' :
  u <> u' -> (q = dst_ce u \/ q = dst_de u) -> below q q' ->
  ~ below (dst_ce u') q' /\ ~ below (dst_de u') q'.
Proof.
  intros Hu Hq Hb.
  assert (Ece : forall x, comps (dst_ce x) = comps (dst_ce_dir x) ++ [pkg]) by (intros x; apply comps_join, pkg_noslash2).
  assert (Ede : forall x, comps (dst_de x) = comps (user_de_dir x d2) ++ [pkg]) by (intros x; apply comps_join, pkg_noslash2).
  apply below_comps in Hb as [l Hl].
  assert (Hf : forall x, x <> u -> fmt_u x <> fmt_u u) by (intros x Hx E; by apply Hx, fmt_u_inj).
  split; intros [l' Hl']%below_comps; rewrite Hl in Hl'; destruct Hq as [-> | ->].
  all: rewrite ?Ece, ?Ede, ?comps_de_dir in Hl'.
  - destruct (comps_ce_dir u) as [(E & -> & _)|E], (comps_ce_dir u') as [(E' & -> & _)|E']; rewrite ?E, ?E', <- !app_assoc in Hl';
      apply app_inv_head in Hl'; [done|discriminate..|]. injection Hl' as Hl' _. by apply (Hf u'); [congruence|].
  - destruct (comps_ce_dir u') as [(E' & _)|E']; rewrite E', <- !app_assoc in Hl'; apply app_inv_head in Hl'; discriminate.
  - destruct (comps_ce_dir u) as [(E & _)|E]; rewrite E, <- !app_assoc in Hl'; apply app_inv_head in Hl'; discriminate.
  - rewrite <- !app_assoc in Hl'. apply app_inv_head in Hl'. injection Hl' as Hl' _. by apply (Hf u'); [congruence|].
Qed.

Lemma comps_dst u : comps (dst_ce u) = comps (dst_ce_dir u) ++ [pkg] /\ comps (dst_de u) = comps (user_de_dir u d2) ++ [pkg].
Proof. split; apply comps_join, pkg_noslash2. Qed.

(** The directories of the users and [/data/data] are not in the directory of
    a package. *)
Lemma dirs_outside u q x :
  q = dst_ce_dir x \/ q = user_de_dir x d2 \/ q = d2 ++ lit "/data" -> outside (user_targets u) q.
Proof.
  intros Hq. destruct (comps_dst u) as [Ece Ede]. rewrite comps_de_dir in Ede.
  assert (Eq : comps q = comps d2 ++ [lit "data"] \/ comps q = comps d2 ++ [lit "user"; fmt_u x] \/
               comps q = comps d2 ++ [lit "user_de"; fmt_u x]).
  { destruct Hq as [-> | [-> | ->]].
    - destruct (comps_ce_dir x) as [(E & _)|E]; auto.
    - rewrite comps_de_dir. auto.
    - left. change (comps (d2 ++ slash :: lit "data") = comps d2 ++ [lit "data"]). by rewrite comps_app. }
  assert (Harea : exists a, in_area d2 a q).
  { destruct Eq as [E | [E | E]]; [exists ACeLegacy|exists ACe|exists ADe]; eexists; rewrite E; done. }
  destruct Harea as [a Ha].
  constructor; [|constructor; [|exact (profile_not_in_area debuggable v2 d2 a q u q Hd2 Ha (below_refl q))]].
  - intros [l Hl]%below_comps. rewrite Ede, <- !app_assoc in Hl.
    destruct Eq as [E | [E | E]]; rewrite E in Hl; apply app_inv_head in Hl; discriminate.
  - intros [l Hl]%below_comps. rewrite Ece in Hl.
    destruct (comps_ce_dir u) as [(E' & _)|E']; rewrite E', <- !app_assoc in Hl;
      destruct Eq as [E | [E | E]]; rewrite E in Hl; apply app_inv_head in Hl; discriminate.
Qed.

(** ** One user *)

(** The state of the file system that the copies need. *)
Record ready (users : list N) (w : W) : Prop := {
  src_legacy : w_isdir w (d1 ++ lit "/data") = L1;
  dst_legacy : w_isdir w (d2 ++ lit "/data") = L2;
  dst_dirs : forall u, u ∈ users -> view w (dst_ce_dir u) <> None /\ view w (user_de_dir u d2) <> None;
  users_small : forall u, u ∈ users -> (u < 2 ^ 32)%N;
}.

Lemma ce_dir_legacy w v u d L : w_isdir w (d ++ lit "/data") = L -> user_ce_dir (w_isdir w) v u d = user_ce_dir (fun _ => L) v u d.
Proof. intros <-. done. Qed.

Lemma userid_i32 u : (u < 2 ^ 32)%N -> userid (i32 (Z.of_N u)) = u.
Proof.
  intros Hu. assert (Hz : 0 <= Z.of_N u < 4294967296) by lia. unfold userid, i32, u32, sgn.
  change (2 ^ 32) with 4294967296. change (2 ^ (32 - 1)) with 2147483648. rewrite (Z.mod_small (Z.of_N u)) by lia.
  destruct (_ <? _) eqn:E; [rewrite Z.mod_small by lia; lia|].
  rewrite <- (Z.mod_add _ 1) by lia. rewrite Z.mod_small by lia. lia.
Qed.

Lemma data_dir_plain d : plain d = true -> plain (d ++ lit "/data") = true.
Proof. intros Hd. change (plain (d ++ slash :: lit "data") = true). by rewrite plain_app, Hd. Qed.

Lemma ready_agree (users users' : list N) w w' :
  ready users w -> agree (view := view) (fun q => forall u, u ∈ users' -> outside (user_targets u) q) w w' -> ready users w'.
Proof.
  intros [H1 H2 H3 H4] Ha.
  split.
  - rewrite (isdir_view (view := view)) in * by apply data_dir_plain, d1_plain. rewrite Ha; [done|].
    intros u _. eapply source_outside; [|apply below_refl]. apply (in_area_root d1 ACeLegacy).
  - rewrite (isdir_view (view := view)) in * by apply data_dir_plain, d2_plain. rewrite Ha; [done|].
    intros u _. apply (dirs_outside u _ 0%N). auto.
  - intros u Hu. destruct (H3 u Hu). rewrite !Ha; [done|intros u' _; apply (dirs_outside u' _ u); auto..].
  - done.
Qed.

Lemma ready_user u w w' : ready [u] w -> agree (view := view) (outside (user_targets u)) w w' -> ready [u] w'.
Proof.
  intros Hr Ha. apply (ready_agree [u] [u] w); [done|]. eapply agree_sub; [exact Ha|].
  intros q Hq. apply Hq. left.
Qed.

Lemma targets_guarded u : guarded (outside (user_targets u)) (user_targets u).
Proof.
  unfold guarded. pose proof (profile_dirs_plain u) as Hp. destruct (dst_plain u) as [H1 H2].
  assert (Hplain : Forall (fun p => plain p = true) (user_targets u)) by (apply Forall_cons_2; [done|by apply Forall_cons_2]).
  rewrite Forall_forall in *. intros p Hin. split; [by apply Hplain|]. intros q Hq. unfold outside in Hq.
  rewrite Forall_forall in Hq. by apply Hq.
Qed.

Lemma wp_src_ce u (Q : str -> W -> Prop) w :
  w_isdir w (d1 ++ lit "/data") = L1 -> Q (src_ce u) w -> wp (ce_package_path debuggable v1 u pkg) Q w.
Proof.
  intros HL HQ. apply (wp_ce_package debuggable v1 pkg d1 Hpkg Hd1).
  unfold ce_package. rewrite (ce_dir_legacy w v1 u d1 L1 HL). exact HQ.
Qed.

(** The copy of one directory of the package. *)
Lemma wp_copy_package u from dir dst w :
  ready [u] w -> plain from = true -> basename from = pkg -> plain dir = true -> dst = dir ++ slash :: pkg ->
  view w dir <> None -> (dst = dst_ce u \/ dst = dst_de u) ->
  wp (copy_directory_recursive from dir) (fun rc w' =>
    agree (view := view) (outside (user_targets u)) w w' /\
    agree (view := view) (fun q => ~ below dst q) w w' /\ (rc = 0 -> covers w' dst w from)) w.
Proof.
  intros Hr Hf Hb Hp -> Hv Hdst. eapply wp_mono; [by apply (wp_copy_covers _ _ pkg)|].
  intros rc w' [Ha Hc]. split_and!; [|done..]. eapply agree_sub; [exact Ha|]. intros q Hq.
  apply Forall_cons in Hq as [H1 [H2 _]%Forall_cons]. by destruct Hdst as [-> | ->].
Qed.

Lemma src_basename u : basename (src_ce u) = pkg /\ basename (src_de u) = pkg.
Proof. split; apply basename_sub, pkg_noslash2. Qed.

Lemma src_in_area u : (exists a, in_area d1 a (src_ce u)) /\ in_area d1 ADe (src_de u).
Proof. split; [eexists; apply in_area_sub, ce_in_area|apply in_area_sub, de_in_area]. Qed.

(** The sources are not touched by the rounds. *)
Lemma source_same u w w' p :
  agree (view := view) (outside (user_targets u)) w w' -> (exists a, in_area d1 a p) ->
  forall q, below p q -> view w' q = view w q.
Proof. intros Ha [a Hp] q Hq. apply Ha. by eapply source_outside. Qed.

Lemma dst_apart u q : below (dst_de u) q -> ~ below (dst_ce u) q.
Proof.
  intros Hb. destruct (dst_ce_in_area u) as (b & Hce & Hb'). eapply areas_disjoint; [exact Hce| |].
  - eapply in_area_below; [apply dst_de_in_area|exact Hb].
  - destruct Hb'; congruence.
Qed.

Lemma wp_move_user u appId seInfo sdk w :
  ready [u] w ->
  wp (move_user debuggable usejitprofiles G calling_uid v1 v2 pkg appId seInfo sdk u) (fun moved w' =>
    agree (view := view) (outside (user_targets u)) w w' /\
    (moved = true -> view w (src_ce u) <> None ->
     covers w' (dst_de u) w (src_de u) /\ covers w' (dst_ce u) w (src_ce u))) w.
Proof.
  intros Hr. destruct (src_plain u) as [Hpc Hpd]. destruct (src_in_area u) as [Hac Had].
  destruct (src_basename u) as [Hbc Hbd]. pose proof (targets_guarded u) as Hg.
  apply wp_bind, wp_src_ce, wp_bind, wp_ask; [apply Hr|]. destruct (w_access w (src_ce u)) eqn:Hacc; cbn [negb].
  2: { split; [apply agree_refl|]. intros _ H. exfalso. apply H. rewrite (access_view (view := view)) in Hacc by done.
       by destruct (view w (src_ce u)). }
  apply wp_bind. eapply wp_mono.
  { apply (wp_createAppData debuggable usejitprofiles G calling_uid v2 pkg d2 Hcaller Hv2 Hpkg Hd2 (outside (user_targets u)));
      rewrite userid_i32 by (apply Hr; left); unfold ce_package; rewrite ?(ce_dir_legacy w v2 u d2 L2) by apply Hr.
    - apply dst_plain.
    - intros q Hq. by apply Forall_cons in Hq as [_ [? _]%Forall_cons].
    - apply Forall_cons in Hg as [? [_ ?]%Forall_cons]. by constructor. }
  intros [created ino] w1 A1. pose proof (ready_user _ _ _ Hr A1) as Hr1. destruct created; [|by split..].
  apply wp_bind, wp_bind, (wp_de_target debuggable v1 pkg d1 Hpkg Hd1), wp_bind. eapply wp_some; [by apply de_path_eq|].
  eapply wp_mono.
  { apply (wp_copy_package u (src_de u) _ (dst_de u) w1 Hr1 Hpd Hbd); [eauto with cmds|done|apply Hr1; left|auto]. }
  intros rc w2 (A2 & _ & C2). pose proof (ready_user _ _ _ Hr1 A2) as Hr2.
  pose proof (agree_trans _ _ _ _ A1 A2) as A12. destruct (nz rc) eqn:Hz; [by split|].
  apply negb_false_iff, Z.eqb_eq in Hz. specialize (C2 Hz). clear rc Hz.
  apply wp_bind, wp_bind, wp_src_ce; [apply Hr2|]. apply wp_bind. unfold ce_path. wps. eapply wp_some; [by apply ce_path_eq|].
  rewrite (ce_dir_legacy w2 v2 u d2 L2) by apply Hr2. eapply wp_mono.
  { apply (wp_copy_package u (src_ce u) _ (dst_ce u) w2 Hr2 Hpc Hbc); [eauto with cmds|done|apply Hr2; left|auto]. }
  intros rc w3 (A3 & F3 & C3). pose proof (agree_trans _ _ _ _ A12 A3) as A13.
  destruct (nz rc) eqn:Hz; [by split|]. apply negb_false_iff, Z.eqb_eq in Hz. specialize (C3 Hz). clear rc Hz.
  apply wp_bind. eapply wp_mono; [apply (wp_restoreconAppData debuggable _ _ _ d2); done|]. intros res w4 A4.
  apply wp_ret. split; [eapply agree_trans; [exact A13|]; by eapply agree_sub; [exact A4|]|]. intros _ _. split.
  - eapply covers_same; [|intros q _; by apply A4]. eapply covers_same; [|intros q Hq; apply F3; by apply dst_apart].
    eapply covers_source; [exact C2|]. intros q Hq. symmetry. by eapply (source_same u w w1); [|exists ADe|].
  - eapply covers_same; [|intros q _; by apply A4]. eapply covers_source; [exact C3|]. intros q Hq. symmetry.
    by eapply (source_same u w w2).
Qed.

(** ** All users *)

(** What the rounds of the users leave alone. *)
Definition off_users (users : list N) (q : str) : Prop := forall u, u ∈ users -> outside (user_targets u) q.

Lemma other_user u users q p :
  u ∉ users -> (p = dst_ce u \/ p = dst_de u) -> below p q -> off_users users q.
Proof.
  intros Hu Hp Hb u' Hu'. assert (Hne' : u <> u') by (intros ->; done).
  destruct (users_apart u u' p q Hne' Hp Hb) as [H1 H2]. constructor; [done|]. constructor; [done|].
  destruct (dst_ce_in_area u) as (b & Hce & _). destruct Hp as [-> | ->].
  - exact (profile_not_in_area debuggable v2 d2 b _ u' q Hd2 Hce Hb).
  - exact (profile_not_in_area debuggable v2 d2 ADe _ u' q Hd2 (dst_de_in_area u) Hb).
Qed.

Definition copied (w' w : W) (u : N) : Prop :=
  view w (src_ce u) <> None -> covers w' (dst_de u) w (src_de u) /\ covers w' (dst_ce u) w (src_ce u).

Lemma wp_move_users appId seInfo sdk users w :
  ready users w ->
  wp (move_users (move_user debuggable usejitprofiles G calling_uid v1 v2 pkg appId seInfo sdk) users) (fun moved w' =>
    agree (view := view) (off_users users) w w' /\ (moved = true -> forall u, u ∈ users -> copied w' w u)) w.
Proof.
  revert w. induction users as [|u users IH]; intros w Hr; cbn [move_users].
  - split; [apply agree_refl|]. intros _ u Hu. by apply elem_of_nil in Hu.
  - apply wp_bind. eapply wp_mono; [apply wp_move_user|].
    { split; try apply Hr; intros x Hx%list_elem_of_singleton; subst x; apply Hr; left. }
    intros moved w1 [A1 C1].
    assert (A1' : agree (view := view) (off_users (u :: users)) w w1).
    { eapply agree_sub; [exact A1|]. intros q Hq. apply Hq. left. }
    destruct moved; [|by split].
    assert (Hr1 : ready users w1).
    { apply (ready_agree users [u] w); [split; try apply Hr; intros x Hx; apply Hr; by right|].
      eapply agree_sub; [exact A1|]. intros q Hq. apply Hq. left. }
    assert (Hsame : forall p, (exists a, in_area d1 a p) -> forall q, below p q -> view w q = view w1 q).
    { intros p Hp q Hq. symmetry. by apply (source_same u w w1 p). }
    eapply wp_mono; [by apply IH|]. intros moved w2 [A2 C2]. split.
    { eapply agree_trans; [exact A1'|]. eapply agree_sub; [exact A2|]. intros q Hq x Hx. apply Hq. by right. }
    intros Hm x Hx Hdata. specialize (C2 Hm). destruct (src_in_area x) as [Hac Had].
    destruct (decide (x ∈ users)) as [Hin|Hout].
    + destruct (C2 x Hin) as [Cd Cc]; [by rewrite <- (Hsame (src_ce x)) by (done || apply below_refl)|].
      split; (eapply covers_source; [eassumption|]); intros q Hq; [by apply (Hsame (src_de x)); [exists ADe|]|by apply (Hsame (src_ce x))].
    + apply elem_of_cons in Hx as [->|?]; [|done]. destruct (C1 eq_refl Hdata) as [Cd Cc].
      split; (eapply covers_same; [eassumption|]); intros q Hq; apply A2; eapply (other_user u); try exact Hq; auto.
Qed.

(** ** The rollback *)

(** Deletions do not fail for want of permission or by an error of the disk. *)
Definition deletions_work : Prop := forall p w, plain p = true -> gone (view := view) p (snd (w_call (DeleteDir p true false) w)).

Definition app_dst : str := app_dir d2 ++ slash :: name.

(** What a rollback deletes. *)
Definition rollback_targets (users : list N) : list str :=
  app_dst :: concat (map (fun u => [dst_de u; dst_ce u]) users).

Lemma rollback_legacy users : outside (rollback_targets users) (d2 ++ lit "/data").
Proof.
  constructor.
  - eapply areas_disjoint; [apply in_area_sub, app_in_area|apply (in_area_root d2 ACeLegacy)|done].
  - induction users as [|u users IH]; [constructor|]. cbn [map concat app].
    assert (H : outside (user_targets u) (d2 ++ lit "/data")) by (apply (dirs_outside u _ 0%N); auto).
    apply Forall_cons in H as [H1 [H2 _]%Forall_cons]. by repeat constructor.
Qed.

Lemma app_dst_plain : plain app_dst = true.
Proof. apply package_dir_plain; eauto with cmds. Qed.

Lemma wp_delete_step (S : str -> Prop) p w (Q : W -> Prop) :
  plain p = true -> (forall q, S q -> ~ below p q) ->
  (forall w', shrinks (view := view) S w w' -> (deletions_work -> gone (view := view) p w') -> Q w') ->
  wp (delete_contents_and_dir p false) (fun _ w' => Q w') w.
Proof.
  intros Hp HS HQ. apply wp_call. apply HQ; [by apply shrinks_delete|]. intros Hw. by apply Hw.
Qed.

Lemma wp_rollback_users (S : str -> Prop) users w :
  w_isdir w (d2 ++ lit "/data") = L2 -> S (d2 ++ lit "/data") ->
  (forall u q, u ∈ users -> S q -> ~ below (dst_de u) q /\ ~ below (dst_ce u) q) ->
  wp (for_all users (fun user =>
        to ← de_package_path debuggable v2 user pkg;
        _ ← delete_contents_and_dir to false;
        to ← ce_package_path debuggable v2 user pkg;
        _ ← delete_contents_and_dir to false;
        mret ())) (fun _ w' =>
    shrinks (view := view) S w w' /\ (deletions_work -> forall u, u ∈ users -> gone (view := view) (dst_de u) w' /\ gone (view := view) (dst_ce u) w')) w.
Proof.
  intros HL HSl. revert w HL. induction users as [|u users IH]; intros w HL HS; cbn [for_all].
  { split; [apply shrinks_refl|]. intros _ u Hu. by apply elem_of_nil in Hu. }
  destruct (dst_plain u) as [Hpc Hpd].
  assert (Hu : forall q, S q -> ~ below (dst_de u) q /\ ~ below (dst_ce u) q) by (intros q Hq; apply HS; [left|done]).
  assert (Hleg : forall w1, shrinks (view := view) S w w1 -> w_isdir w1 (d2 ++ lit "/data") = L2).
  { intros w1 [A1 _]. rewrite <- HL, !(isdir_view (view := view)) by apply data_dir_plain, d2_plain. by rewrite A1. }
  apply wp_bind, wp_bind, (wp_de_target debuggable v2 pkg d2 Hpkg Hd2).
  apply wp_bind, (wp_delete_step S (dst_de u)); [done|intros q Hq; by apply Hu|]. intros w1 Sh1 G1.
  apply wp_bind, (wp_ce_package debuggable v2 pkg d2 Hpkg Hd2). unfold ce_package.
  rewrite (ce_dir_legacy w1 v2 u d2 L2) by by apply Hleg.
  apply wp_bind, (wp_delete_step S (dst_ce u)); [done|intros q Hq; by apply Hu|]. intros w2 Sh2 G2.
  apply wp_ret. pose proof (shrinks_trans _ _ _ _ Sh1 Sh2) as Sh12.
  eapply wp_mono; [apply IH; [by apply Hleg|intros x q Hx; apply HS; by right]|].
  intros [] w3 [Sh3 G3]. split; [by eapply shrinks_trans|]. intros Hw x [->|Hx]%elem_of_cons; [|by apply G3].
  split; [eapply shrinks_gone; [exact (shrinks_trans _ _ _ _ Sh2 Sh3)|by apply G1]|eapply shrinks_gone; [exact Sh3|by apply G2]].
Qed.

Lemma wp_move_rollback (S : str -> Prop) users w :
  w_isdir w (d2 ++ lit "/data") = L2 -> S (d2 ++ lit "/data") ->
  (forall q, S q -> ~ below app_dst q) ->
  (forall u q, u ∈ users -> S q -> ~ below (dst_de u) q /\ ~ below (dst_ce u) q) ->
  wp (move_rollback debuggable v2 pkg name users) (fun _ w' =>
    shrinks (view := view) S w w' /\
    (deletions_work -> gone (view := view) app_dst w' /\ forall u, u ∈ users -> gone (view := view) (dst_de u) w' /\ gone (view := view) (dst_ce u) w')) w.
Proof.
  intros HL HSl Happ HS. unfold move_rollback.
  apply wp_bind. eapply wp_some; [by apply app_package_path_eq|].
  apply wp_bind, (wp_delete_step S app_dst); [apply app_dst_plain|done|]. intros w1 Sh1 G1.
  eapply wp_mono; [apply (wp_rollback_users S users); [|done|done]|].
  { destruct Sh1 as [A1 _]. rewrite <- HL, !(isdir_view (view := view)) by apply data_dir_plain, d2_plain. by rewrite A1. }
  intros [] w2 [Sh2 G2]. split; [by eapply shrinks_trans|]. intros Hw. split; [|by apply G2].
  eapply shrinks_gone; [exact Sh2|by apply G1].
Qed.

(** ** The whole move *)

Lemma app_in_target : in_area d2 AApp app_dst.
Proof. apply in_area_sub, app_in_area. Qed.

Lemma app_not_below q a : in_area d2 a q -> a <> AApp -> ~ below app_dst q.
Proof. intros Hq Ha. eapply areas_disjoint; [apply app_in_target|exact Hq|congruence]. Qed.

Lemma source_not_app a p q : in_area d1 a p -> below p q -> ~ below app_dst q.
Proof. intros Hp Hb. exact (volumes_apart debuggable v1 v2 d1 d2 a AApp p _ q Hd1 Hd2 Hne Hp app_in_target Hb). Qed.

(** The copy of the code leaves the rest ready. *)
Lemma ready_after_app users w w' :
  ready users w -> agree (view := view) (fun q => ~ below app_dst q) w w' -> ready users w'.
Proof.
  intros [H1 H2 H3 H4] Ha.
  assert (Hl : in_area d2 ACeLegacy (d2 ++ lit "/data")) by apply (in_area_root d2 ACeLegacy).
  split; [| | |done].
  - rewrite (isdir_view (view := view)) in * by apply data_dir_plain, d1_plain. rewrite Ha; [done|].
    eapply source_not_app; [apply (in_area_root d1 ACeLegacy)|apply below_refl].
  - rewrite (isdir_view (view := view)) in * by apply data_dir_plain, d2_plain. rewrite Ha; [done|]. by eapply app_not_below.
  - intros u Hu. destruct (H3 u Hu). rewrite !Ha; [done| |].
    + by eapply app_not_below; [apply de_in_area|].
    + eapply app_not_below; [apply ce_in_area|]. unfold ce_area. by destruct (_ && _).
Qed.

(** What is copied and what is left, for the list of users that is read. *)
Definition moved_all (users : list N) (w w' : W) : Prop :=
  covers w' app_dst w (app_dir d1 ++ slash :: name) /\ forall u, u ∈ users -> copied w' w u.

Definition source (q : str) : Prop := exists a p, in_area d1 a p /\ below p q.

Lemma source_off_users users q : source q -> off_users users q.
Proof. intros (a & p & Hp & Hb) u _. by eapply source_outside. Qed.

Lemma app_off_users users q : below app_dst q -> off_users users q.
Proof. intros Hb u _. by eapply area_outside; [apply app_in_target|..]. Qed.

Lemma wp_copies appId seInfo sdk users w :
  ready users w -> view w (app_dir d2) <> None ->
  wp (move_copies (app_dir d1 ++ slash :: name) app_dst (app_dir d2)
        (move_user debuggable usejitprofiles G calling_uid v1 v2 pkg appId seInfo sdk) users) (fun moved w' =>
    agree (view := view) source w w' /\ w_isdir w' (d2 ++ lit "/data") = L2 /\ (moved = true -> moved_all users w w')) w.
Proof.
  intros Hr Happ. unfold move_copies. apply wp_bind. eapply wp_mono.
  { apply (wp_copy_covers _ _ name); [apply package_dir_plain; eauto with cmds|eauto with cmds| |done].
    apply basename_sub. by destruct (valid_package_name _ Hname). }
  intros rc w1 [A1 C1]. fold app_dst in A1, C1. pose proof (ready_after_app _ _ _ Hr A1) as Hr1.
  assert (S1 : agree (view := view) source w w1).
  { eapply agree_sub; [exact A1|]. intros q (a & p & Hp & Hb). by eapply source_not_app. }
  destruct (nz rc) eqn:Hz; [by split; [|split; [apply Hr1|]]|]. apply negb_false_iff, Z.eqb_eq in Hz. specialize (C1 Hz).
  apply wp_bind, wp_call. set (w2 := snd _).
  assert (A2 : agree (view := view) (fun _ => True) w1 w2) by (intros q _; by apply label_view).
  assert (Hr2 : ready users w2) by by eapply ready_after_app, agree_sub.
  assert (S2 : agree (view := view) source w w2) by (eapply agree_trans; [exact S1|by eapply agree_sub]).
  destruct (nz _); [by split; [|split; [apply Hr2|]]|].
  eapply wp_mono; [by apply wp_move_users|]. intros moved w3 [A3 C3]. split_and!.
  - eapply agree_trans; [exact S2|]. eapply agree_sub; [exact A3|]. intros q. apply source_off_users.
  - apply (ready_agree users users w2); [done|]. exact A3.
  - intros Hm. split.
    + eapply covers_same; [eapply covers_same; [exact C1|intros q _; by apply A2]|].
      intros q Hq. by apply A3, app_off_users.
    + intros u Hu Hdata. destruct (src_in_area u) as [[a Hac] Had].
      assert (Hs : forall p, (exists a, in_area d1 a p) -> forall q, below p q -> view w q = view w2 q).
      { intros p [b Hp] q Hq. symmetry. apply S2. by exists b, p. }
      destruct (C3 Hm u Hu) as [Cd Cc]; [rewrite <- (Hs (src_ce u)); [done|by exists a|apply below_refl]|].
      split; (eapply covers_source; [eassumption|]); intros q Hq;
        [by apply (Hs (src_de u)); [exists ADe|]|by apply (Hs (src_ce u)); [exists a|]].
Qed.

Lemma move_result appId seInfo sdk ids users w :
  get_known_users debuggable (w_opendir w) v1 = Some ids -> users = userid <$> ids ->
  ready users w -> view w (app_dir d2) <> None ->
  wp (moveCompleteApp debuggable usejitprofiles G calling_uid v1 v2 pkg name appId seInfo sdk) (fun res w' =>
    agree (view := view) source w w' /\
    (res = Ok /\ moved_all users w w' \/
     res = Error /\ (deletions_work -> gone (view := view) app_dst w' /\ forall u, u ∈ users -> gone (view := view) (dst_de u) w' /\ gone (view := view) (dst_ce u) w'))) w.
Proof.
  intros Hids -> Hr Happ. apply wp_enforce; [by repeat constructor|].
  apply wp_bind. unfold known_users. wps. eapply wp_some; [exact Hids|]. apply wp_ret.
  apply wp_bind. eapply wp_some; [by apply app_package_path_eq|].
  apply wp_bind. eapply wp_some; [by apply app_package_path_eq|].
  apply wp_bind. eapply wp_some; [by apply app_path_eq|].
  apply wp_bind. eapply wp_mono; [by apply wp_copies|]. intros moved w1 (S1 & HL & Hm).
  destruct moved; [apply wp_ret; split; [done|left; by auto]|].
  apply wp_bind. eapply wp_mono.
  { apply (wp_move_rollback (fun q => source q \/ q = d2 ++ lit "/data")); [exact HL|by right| |].
    - intros q [(a & p & Hp & Hb) | ->]; [by eapply source_not_app|].
      by eapply app_not_below; [apply (in_area_root d2 ACeLegacy)|].
    - intros u q _ Hq. assert (Ho : outside (user_targets u) q).
      { destruct Hq as [(a & p & Hp & Hb) | ->]; [by eapply source_outside|]. apply (dirs_outside u _ 0%N). auto. }
      by apply Forall_cons in Ho as [H1 [H2 _]%Forall_cons]. }
  intros [] w2 [[A2 _] G2]. apply wp_ret. split; [|by right].
  eapply agree_trans; [exact S1|]. eapply agree_sub; [exact A2|]. by left.
Qed.

End Spec.

(** * Properties *)

(** C1: a move between two volumes returns and never changes what is stored on
    the source volume. When it succeeds, the target has the code of the
    application and, for every user who has data of it, the CE and the DE
    directory with all that the source has; when it fails, and deletions work,
    nothing of the application is left on the target, neither its code nor the
    data of any user. *)
Theorem moveCompleteApp_contract {W : Type} {world : World W} {Node : Type} (view : W -> str -> option Node)
    (is_dir : Node -> bool) {ok : WorldOk world view is_dir} {aid : AidRanges} {mu : Multiuser}
    (debuggable usejitprofiles : bool) (G : globals) (uid : Z) (v1 v2 : option str) (pkg name d1 d2 seInfo : str)
    (appId sdk : Z) (ids : list Z) (w : W) :
  Forall (fun s => s = StatusOk)
    [checkUid uid AID_SYSTEM; checkArgumentUuid v1; checkArgumentUuid v2; checkArgumentPackageName pkg] ->
  check_package_name name = Some () ->
  create_data_path debuggable v1 = Some d1 -> create_data_path debuggable v2 = Some d2 -> d1 <> d2 ->
  android_profiles_dir G = lit "/data/misc/profiles" ->
  get_known_users debuggable (w_opendir w) v1 = Some ids ->
  view w (app_dir d2) <> None ->
  (forall u, u ∈ userid <$> ids ->
     view w (user_ce_dir (w_isdir w) v2 u d2) <> None /\ view w (user_de_dir u d2) <> None) ->
  exists res w',
    moveCompleteApp debuggable usejitprofiles G uid v1 v2 pkg name appId seInfo sdk w = Some (res, w') /\
    (forall a p q, in_area d1 a p -> below p q -> view w' q = view w q) /\
    (res = Ok /\
     covers (view := view) w' (app_dir d2 ++ slash :: name) w (app_dir d1 ++ slash :: name) /\
     (forall u, u ∈ userid <$> ids -> view w (ce_package (w_isdir w) v1 u d1 pkg) <> None ->
        covers (view := view) w' (de_package u d2 pkg) w (de_package u d1 pkg) /\
        covers (view := view) w' (ce_package (w_isdir w) v2 u d2 pkg) w (ce_package (w_isdir w) v1 u d1 pkg)) \/
     res = Error /\
     (deletions_work (view := view) ->
      gone (view := view) (app_dir d2 ++ slash :: name) w' /\
      forall u, u ∈ userid <$> ids ->
        gone (view := view) (de_package u d2 pkg) w' /\ gone (view := view) (ce_package (w_isdir w) v2 u d2 pkg) w')).
Proof.
  intros Hc Hname Hd1 Hd2 Hne HG Hids Happ Hdirs.
  apply Forall_cons in Hc as [H1 [H2 [H3 [H4 _]%Forall_cons]%Forall_cons]%Forall_cons].
  pose proof (move_result debuggable usejitprofiles G uid v1 v2 pkg name d1 d2 H1 H2 H3 H4 Hname Hd1 Hd2 Hne HG
                (w_isdir w (d1 ++ lit "/data")) (w_isdir w (d2 ++ lit "/data"))
                appId seInfo sdk ids _ w Hids eq_refl) as Hwp.
  unfold wp in Hwp. destruct (moveCompleteApp _ _ _ _ _ _ _ _ _ _ _ w) as [[res w']|].
  - exists res, w'. split; [done|]. destruct Hwp as [Hs Hr]; [|done|].
    + split; [done..| |].
      * exact Hdirs.
      * intros u Hu. apply list_elem_of_fmap in Hu as (x & -> & _). unfold userid, u32.
        pose proof (Z.mod_pos_bound x (2 ^ 32) ltac:(lia)). lia.
    + split; [intros a p q Hp Hb; apply Hs; by exists a, p|]. exact Hr.
  - destruct Hwp; [|done]. split; [done..|exact Hdirs|].
    intros u Hu. apply list_elem_of_fmap in Hu as (x & -> & _). unfold userid, u32.
    pose proof (Z.mod_pos_bound x (2 ^ 32) ltac:(lia)). lia.
Qed.

(** ** A run *)

Lemma simple_deletions_work : deletions_work (world := simple_fs) (view := fs_view).
Proof.
  intros p w Hp. cbn [simple_fs w_call fs_call]. unfold gone, emptied, fs_delete, fs_view.
  assert (Hb : forall q, below p q -> belowb p q = true) by (intros q; apply belowb_spec).
  destruct (w p); cbn [snd].
  - split; [by rewrite Hp, Hb by apply below_refl|]. intros rest. rewrite Hb by (right; by exists rest). by case_match.
  - split; [by rewrite Hp, Hb by apply below_refl|]. intros rest. rewrite Hb by (right; by exists rest). by case_match.
Qed.

Definition move_nodes : list (str * node) :=
  [(lit "/data/data", Node true 505 []); (lit "/data/app", Node true 505 []);
   (lit "/data/app/com.a-1", Node true 493 []); (lit "/data/app/com.a-1/base.apk", Node false 420 (lit "code"));
   (lit "/data/data/com.a", Node true 448 []); (lit "/data/data/com.a/f", Node false 384 (lit "owner"));
   (lit "/data/user_de/0/com.a", Node true 448 []);
   (lit "/data/user/10/com.a", Node true 448 []); (lit "/data/user/10/com.a/f", Node false 384 (lit "guest"));
   (lit "/data/user_de/10/com.a", Node true 448 []);
   (lit "/mnt/expand/v/app", Node true 505 []);
   (lit "/mnt/expand/v/user/0", Node true 505 []); (lit "/mnt/expand/v/user_de/0", Node true 505 []);
   (lit "/mnt/expand/v/user/10", Node true 505 []); (lit "/mnt/expand/v/user_de/10", Node true 505 [])].

Definition move_fs : fs := fun p => snd <$> List.find (fun e => p =s? fst e) move_nodes.

Definition move_globals : globals := init_globals_from_data_and_root_with (lit "/data") (lit "/system") (lit "/mnt/asec").

Lemma moveCompleteApp_contract_witness :
  exists res w',
    moveCompleteApp (aid := aid_android) (mu := mu_android) false false move_globals 1000 None (Some (lit "v"))
      (lit "com.a") (lit "com.a-1") 10 (lit "default") 26 move_fs = Some (res, w') /\
    (forall a p q, in_area (lit "/data") a p -> below p q -> fs_view w' q = fs_view move_fs q).
Proof.
  destruct (moveCompleteApp_contract fs_view n_dir (aid := aid_android) (mu := mu_android) false false move_globals 1000
              None (Some (lit "v")) (lit "com.a") (lit "com.a-1") (lit "/data") (lit "/mnt/expand/v") (lit "default")
              10 26 [0; 10] move_fs) as (res & w' & Hrun & Hs & _).
  - repeat constructor.
  - reflexivity.
  - reflexivity.
  - reflexivity.
  - discriminate.
  - reflexivity.
  - vm_compute. reflexivity.
  - vm_compute. discriminate.
  - intros u Hu. apply list_elem_of_In in Hu. vm_compute in Hu.
    destruct Hu as [<- | [<- | []]]; split; vm_compute; discriminate.
  - exists res, w'. split; [exact Hrun|exact Hs].
Defined.

Definition run_move (v2 : option str) : option (reply * fs) :=
  moveCompleteApp (aid := aid_android) (mu := mu_android) false false move_globals 1000 None v2
    (lit "com.a") (lit "com.a-1") 10 (lit "default") 26 move_fs.

Definition stored_after (o : option (reply * fs)) (p : str) : option (reply * option str) :=
  match o with Some (res, w) => Some (res, n_data <$> fs_view w p) | None => None end.

Lemma move_example :
  stored_after (run_move (Some (lit "v"))) (lit "/mnt/expand/v/app/com.a-1/base.apk") = Some (Ok, Some (lit "code")) /\
  stored_after (run_move (Some (lit "v"))) (lit "/mnt/expand/v/user/0/com.a/f") = Some (Ok, Some (lit "owner")) /\
  stored_after (run_move (Some (lit "v"))) (lit "/mnt/expand/v/user/10/com.a/f") = Some (Ok, Some (lit "guest")).
Proof. vm_compute. split_and!; reflexivity. Qed.

(** The volumes are not compared. A move of an application to the volume it is
    on fails in the first copy, and the rollback then deletes the application
    and the data of all its users. *)
Lemma move_to_itself_deletes :
  stored_after (run_move None) (lit "/data/app/com.a-1/base.apk") = Some (Error, None) /\
  stored_after (run_move None) (lit "/data/data/com.a/f") = Some (Error, None) /\
  stored_after (run_move None) (lit "/data/user/10/com.a/f") = Some (Error, None).
Proof. vm_compute. split_and!; reflexivity. Qed.

(** The name of the code directory is not among the checked arguments: one
    that is not a package name aborts the process. *)
Lemma move_unchecked_name_aborts :
  moveCompleteApp (aid := aid_android) (mu := mu_android) (world := simple_fs) false false move_globals 1000 None (Some (lit "v"))
    (lit "com.a") (lit "..") 10 (lit "default") 26 move_fs = None.
Proof. vm_compute. reflexivity. Qed.
