(* ===== verification/Fixup.v ===== *)
(** The repair of group ids: [fixupAppData] of [InstalldNativeService.cpp].

    One traversal of the CE and DE directories of each user. [fts_number] of a
    structure is the group it should have; it is kept by the address of the
    structure, given to the children of an application's directory when that
    directory is met, and inherited further down. What the pass sets is
    compared with [fix_root], a recursion on the hierarchy. *)

From S2P Require Import Prelude Platform Fts InstalldPaths InstalldFs Quota Cache FreeCache World AppPaths SimpleFs AppData.

Open Scope Z_scope.
Open Scope io_scope.

Section Fixup.
Context {mu : Multiuser}.

Definition get_cache_gid (uid : Z) : Z :=
  let gid := i32 (multiuser_get_cache_gid (multiuser_get_user_id uid) (multiuser_get_app_id uid)) in
  if gid =? -1 then uid else u32 gid.

(** The children of a directory, with their addresses. *)
Fixpoint subtree (t : ftree) (pos : list nat) : option ftree :=
  match pos with
  | [] => Some t
  | i :: pos' => match t with Dir _ _ true ch => match ch !! i with Some c => subtree c pos' | None => None end | _ => None end
  end.

Definition fts_children (roots : list (str * ftree)) (p : FTSENT) : list (list nat * ftree) :=
  match rev (fts_id p) with
  | r :: pos =>
      match roots !! r with
      | Some (_, t) =>
          match subtree t pos with
          | Some (Dir _ _ true ch) => imap (fun i c => (i :: fts_id p, c)) ch
          | _ => []
          end
      | None => []
      end
  | [] => []
  end.

(** The numbers and the changes made so far. *)
Definition fixup_state := (gmap (list nat) Z * list fix_op)%type.

Definition number (nums : gmap (list nat) Z) (id : list nat) : Z := default 0 (nums !! id).

(** A child of an application's directory that is a cache: by one of the two
    marks, or by its name. *)
Definition is_cache_child (inode_cache inode_code_cache : Z) (child : ftree) : bool :=
  (st_ino (ftree_stat child) =? inode_cache) || (st_ino (ftree_stat child) =? inode_code_cache)
  || (ftree_name child =s? lit "cache") || (ftree_name child =s? lit "code_cache").

Definition child_gid (x : xattrs) (path : str) (uid : Z) (child : ftree) : Z :=
  if is_cache_child (default 0 (x !! (path, kXattrInodeCache))) (default 0 (x !! (path, kXattrInodeCodeCache))) child
  then get_cache_gid uid else uid.

(** The switch. *)
Definition fix_switch (info : ftsinfo) (path : str) (expected cache_gid : Z) : list fix_op :=
  match info with
  | FTS_DP => (if expected =? cache_gid then [Chmod path 1529] else []) ++ [Chown path expected]
  | FTS_F => [Chown path expected]
  | FTS_SL | FTS_SLNONE => [Lchown path expected]
  | _ => []
  end.

Definition fixup_body (roots : list (str * ftree)) (x : xattrs) (flags : Z) (p : FTSENT) (s : fixup_state)
    : fixup_state * bool :=
  let '(nums, ops) := s in
  if bool_decide (fts_info p = FTS_D) && (fts_level p =? 1) then
    ((foldl (fun m c => <[fst c := child_gid x (fts_path p) (st_uid (fts_statp p)) (snd c)]> m) nums (fts_children roots p), ops),
     false)
  else if 2 <=? fts_level p then
    match fts_parent p with
    | None => (s, false)
    | Some parent =>
        let nums := if 2 <? fts_level p then <[fts_id p := number nums (fts_id parent)]> nums else nums in
        let uid := st_uid (fts_statp parent) in
        let cache_gid := get_cache_gid uid in
        let expected := number nums (fts_id p) in
        let actual := st_gid (fts_statp p) in
        if actual =? expected then ((nums, ops), negb (has flags FLAG_FORCE))
        else if (actual =? uid) || (actual =? cache_gid) then
          ((nums, ops ++ fix_switch (fts_info p) (fts_path p) expected cache_gid), false)
        else ((nums, ops), negb (has flags FLAG_FORCE))
    end
  else (s, false).

(** ** The handler *)

Section Handler.
Context {W : Type} {world : World W} {aid : AidRanges} (debuggable : bool).

(** The round for one user, [false] when [fts_open] failed. *)
Definition fixup_user (uuid : option str) (flags : Z) (user : N) : io W bool :=
  ce ← ce_path debuggable uuid user;
  de ← de_path debuggable uuid user;
  tree ← ask w_tree; x ← ask w_attr;
  match tree ce, tree de with
  | Some t1, Some t2 =>
      let roots := [(ce, t1); (de, t2)] in
      s ← abort_if_none (fts_run (fixup_body roots x flags) (fts_roots 0 roots) (∅, []));
      _ ← for_all (snd s) do_fix;
      mret true
  | _, _ => mret false
  end.

Fixpoint fixup_users (fixup : N -> io W bool) (users : list N) : io W reply :=
  match users with
  | [] => mret Ok
  | u :: users' => opened ← fixup u; if (opened : bool) then fixup_users fixup users' else mret Error
  end.

Definition fixupAppData (calling_uid : Z) (uuid : option str) (flags : Z) : io W reply :=
  enforce [checkUid calling_uid AID_SYSTEM; checkArgumentUuid uuid] (
    users ← known_users debuggable uuid; fixup_users (fixup_user uuid flags) users).

End Handler.

(** * The reference *)

Section Reference.
Context (x : xattrs) (force : bool).

(** The object has a group of the application, but not the right one. *)
Definition wrong (puid expected : Z) (st : stat) : bool :=
  negb (st_gid st =? expected) && ((st_gid st =? puid) || (st_gid st =? get_cache_gid puid)).

(** What is set in a hierarchy below an application's directory: [puid] is the
    owner of the parent. A directory with the right group, or a group that is
    not the application's, is not entered unless forced. *)
Fixpoint fix_tree (puid expected : Z) (path : str) (t : ftree) : list fix_op :=
  match t with
  | Leaf info _ st => if wrong puid expected st then fix_switch info path expected (get_cache_gid puid) else []
  | Dir _ st rd ch =>
      if (wrong puid expected st || force) && rd then
        (fix go l := match l with
                     | [] => []
                     | c :: l' => fix_tree (st_uid st) expected (child_path path (ftree_name c)) c ++ go l'
                     end) ch
        ++ (if wrong puid expected st then fix_switch FTS_DP path expected (get_cache_gid puid) else [])
      else []
  end.

(** An application's directory: its caches get the cache group, the rest the
    owner's. *)
Definition fix_app (path : str) (t : ftree) : list fix_op :=
  match t with
  | Dir _ st true ch =>
      concat (map (fun c => fix_tree (st_uid st) (child_gid x path (st_uid st) c) (child_path path (ftree_name c)) c) ch)
  | _ => []
  end.

(** The directory of a user. *)
Definition fix_root (root : str * ftree) : list fix_op :=
  match snd root with
  | Dir _ _ true apps => concat (map (fun a => fix_app (child_path (fst root) (ftree_name a)) a) apps)
  | _ => []
  end.

End Reference.

(** * Lemmas *)

Lemma fix_tree_dir force puid expected path nm st rd ch :
  fix_tree force puid expected path (Dir nm st rd ch) =
  if (wrong puid expected st || force) && rd then
    concat (map (fun c => fix_tree force (st_uid st) expected (child_path path (ftree_name c)) c) ch)
    ++ (if wrong puid expected st then fix_switch FTS_DP path expected (get_cache_gid puid) else [])
  else [].
Proof.
  cbn [fix_tree]. destruct (_ && rd); [|done]. f_equal. induction ch as [|c ch IH]; [done|]. cbn [map concat]. by rewrite IH.
Qed.

Section Equivalence.
Context (roots : list (str * ftree)) (x : xattrs) (flags : Z).
Let body := fixup_body roots x flags.
Let force := has flags FLAG_FORCE.

(** What is expected of an object, from the numbers when it is met. *)
Definition expected_of (nums : gmap (list nat) Z) (level : Z) (parent : FTSENT) (id : list nat) : Z :=
  if 2 <? level then number nums (fts_id parent) else number nums id.

(** The numbers of other objects that are not further down stay. *)
Definition nums_frame (id : list nat) (nums nums' : gmap (list nat) Z) : Prop :=
  forall id', (length id' <= length id)%nat -> id' <> id -> nums' !! id' = nums !! id'.

Definition nums_above (id : list nat) (nums nums' : gmap (list nat) Z) : Prop :=
  forall id', (length id' <= length id)%nat -> nums' !! id' = nums !! id'.

(** The body at an object below an application's directory. *)
Lemma body_deep info level path nm st id parent nums ops :
  2 <= level ->
  let e := Ftsent info level path nm st id (Some parent) in
  let expected := expected_of nums level parent id in
  let puid := st_uid (fts_statp parent) in
  exists nums', body e (nums, ops) =
    ((nums', ops ++ if wrong puid expected st then fix_switch info path expected (get_cache_gid puid) else []),
     negb (wrong puid expected st || force)) /\
  number nums' id = expected /\ nums_frame id nums nums'.
Proof.
  intros Hl e expected puid. unfold body, fixup_body, e. cbn [fts_info fts_level fts_parent fts_statp fts_id fts_path].
  assert (level =? 1 = false) as -> by (apply Z.eqb_neq; lia). rewrite andb_false_r.
  assert (2 <=? level = true) as -> by (apply Z.leb_le; lia).
  set (nums1 := if 2 <? level then _ else nums).
  assert (Hn : number nums1 id = expected).
  { unfold nums1, expected, expected_of. destruct (2 <? level); [|done]. unfold number at 1. by rewrite lookup_insert_eq. }
  assert (Hf : nums_frame id nums nums1).
  { intros id' _ Hid. unfold nums1. destruct (2 <? level); [|done]. by rewrite lookup_insert_ne. }
  exists nums1. rewrite Hn. split; [|done]. fold puid. unfold wrong, force.
  destruct (st_gid st =? expected) eqn:E1; cbn [negb andb orb]; [by rewrite app_nil_r|].
  destruct (_ || _); cbn [negb orb]; [done|by rewrite app_nil_r].
Qed.

(** A subtree below an application's directory. *)
Definition deep_ok (t : ftree) : Prop := forall parent level path id nums ops,
  2 <= level -> (length (fts_id parent) < length id)%nat ->
  let expected := expected_of nums level parent id in
  exists nums', tree_fold body (Some parent) level path id t (nums, ops) =
    (nums', ops ++ fix_tree force (st_uid (fts_statp parent)) expected path t) /\
  nums_frame id nums nums'.

Lemma deep_forest ch (Hch : Forall deep_ok ch) e i nums ops (E : nat -> Z) :
  1 <= fts_level e ->
  (forall j nums', (i <= j)%nat -> nums_above (fts_id e) nums nums' ->
     (forall k, (i <= k)%nat -> (k >= j)%nat -> nums' !! (k :: fts_id e) = nums !! (k :: fts_id e)) ->
     expected_of nums' (fts_level e + 1) e (j :: fts_id e) = E j) ->
  exists nums', forest_fold body e i ch (nums, ops) =
    (nums', ops ++ concat (imap (fun k c => fix_tree force (st_uid (fts_statp e)) (E (i + k)%nat)
                                             (child_path (fts_path e) (ftree_name c)) c) ch)) /\
  nums_above (fts_id e) nums nums'.
Proof.
  intros Hl. revert i nums ops E. induction Hch as [|c ch Hc _ IH]; intros i nums ops E HE; cbn [forest_fold imap concat].
  { exists nums. rewrite app_nil_r. by split. }
  destruct (Hc e (fts_level e + 1) (child_path (fts_path e) (ftree_name c)) (i :: fts_id e) nums ops
              ltac:(lia) ltac:(simpl; lia)) as (nums1 & -> & F1).
  assert (A1 : nums_above (fts_id e) nums nums1).
  { intros id' Hid. apply F1; [simpl; lia|]. intros ->. simpl in Hid. lia. }
  destruct (IH (S i) nums1 (ops ++ fix_tree force (st_uid (fts_statp e)) (E i) (child_path (fts_path e) (ftree_name c)) c)
              E) as (nums2 & E2 & A2).
  { intros j nums' Hj A' S'. apply HE; [lia| |].
    - intros id' Hid. rewrite A', A1; done.
    - intros k Hk Hkj. rewrite S' by lia. apply F1; [simpl; lia|]. intros [=]. lia. }
  rewrite (HE i nums) by (done || lia). exists nums2. rewrite E2. split.
  - rewrite <- app_assoc. rewrite Nat.add_0_r. do 3 f_equal. f_equal. apply imap_ext. intros k c' _. simpl. f_equal. f_equal. lia.
  - intros id' Hid. by rewrite A2, A1.
Qed.

Lemma deep_tree t : deep_ok t.
Proof.
  induction t as [info nm st|nm st rd ch IH] using ftree_ind'; intros parent level path id nums ops Hl Hid expected.
  - cbn [tree_fold]. unfold leaf_step.
    destruct (body_deep info level path nm st id parent nums ops Hl) as (nums1 & -> & _ & F1). by exists nums1.
  - rewrite tree_fold_Dir. cbv zeta. rewrite fix_tree_dir.
    set (e := Ftsent FTS_D level path nm st id (Some parent)).
    destruct (body_deep FTS_D level path nm st id parent nums ops Hl) as (nums1 & E1 & N1 & F1).
    fold e in E1. rewrite E1. fold expected in N1 |- *. set (puid := st_uid (fts_statp parent)) in *.
    assert (Hexp : forall nums2, nums_above id nums1 nums2 -> expected_of nums2 level parent id = expected).
    { intros nums2 A. unfold expected, expected_of in N1 |- *. destruct (2 <? level); unfold number in N1 |- *.
      - rewrite A by lia. rewrite F1; [done|lia|]. intros Heq. rewrite Heq in Hid. lia.
      - by rewrite A. }
    assert (Hpost : forall info nums2 ops2, nums_above id nums1 nums2 ->
      exists nums3, leaf_step body (set_info info e) (nums2, ops2) =
        (nums3, ops2 ++ if wrong puid expected st then fix_switch info path expected (get_cache_gid puid) else []) /\
        nums_frame id nums nums3).
    { intros info nums2 ops2 A. unfold leaf_step, set_info, e. cbn [fts_level fts_path fts_name fts_statp fts_id fts_parent].
      destruct (body_deep info level path nm st id parent nums2 ops2 Hl) as (nums3 & -> & _ & F3).
      rewrite (Hexp nums2 A). exists nums3. split; [done|]. intros id' Hle Hne. by rewrite F3, A, F1. }
    assert (Hnone : forall info, (if wrong puid expected st then fix_switch FTS_D path expected info else []) = []) by (intros info; by destruct (wrong _ _ _)).
    rewrite Hnone, app_nil_r. destruct (wrong puid expected st || force) eqn:Hin; cbn [negb andb].
    + destruct rd; cbn [todo_fold].
      * destruct (deep_forest ch IH e 0 nums1 ops (fun _ => expected)) as (nums2 & -> & A2); [unfold e; cbn; lia| |].
        { intros j nums' _ A _. unfold expected_of. assert (2 <? fts_level e + 1 = true) as -> by (unfold e; cbn; apply Z.ltb_lt; lia).
          unfold number, e. cbn [fts_id]. rewrite A by done. exact N1. }
        destruct (Hpost FTS_DP nums2 (ops ++ concat (imap (fun k c => fix_tree force (st_uid st) expected
                                        (child_path path (ftree_name c)) c) ch)) A2) as (nums3 & E3 & F3).
        exists nums3. unfold e in *. cbn [fts_statp fts_path] in *. rewrite E3, <- app_assoc. split; [|done].
        assert (Hi : imap (fun (_ : nat) c => fix_tree force (st_uid st) expected (child_path path (ftree_name c)) c) ch =
                     map (fun c => fix_tree force (st_uid st) expected (child_path path (ftree_name c)) c) ch) by apply imap_const.
        by rewrite Hi.
      * destruct (Hpost FTS_DNR nums1 ops) as (nums3 & -> & F3); [by intros id'|]. exists nums3. split; [|done].
        by destruct (wrong _ _ _).
    + cbn [todo_fold]. destruct (Hpost FTS_DP nums1 ops) as (nums3 & -> & F3); [by intros id'|]. exists nums3. split; [|done].
      apply orb_false_iff in Hin as [-> _]. done.
Qed.

Lemma foldl_children_lookup (f : ftree -> Z) (id : list nat) (ch : list ftree) (i : nat) (nums : gmap (list nat) Z) k c :
  ch !! k = Some c ->
  foldl (fun (m : gmap (list nat) Z) (c : list nat * ftree) => <[fst c := f (snd c)]> m) nums (imap (fun k c => ((i + k)%nat :: id, c)) ch)
    !! ((i + k)%nat :: id) = Some (f c).
Proof.
  revert i nums k. induction ch as [|c0 ch IH]; intros i nums k Hk; [done|]. cbn [imap foldl fst snd].
  assert (Himap : imap ((fun k c => ((i + k)%nat :: id, c)) ∘ S) ch = imap (fun k c => ((S i + k)%nat :: id, c)) ch).
  { apply imap_ext. intros k' c' _. simpl. do 2 f_equal. lia. }
  rewrite Himap. destruct k as [|k].
  - injection Hk as ->. clear IH Himap.
    assert (Hkeep : forall l i' (m : gmap (list nat) Z), (i < i')%nat -> m !! ((i + 0)%nat :: id) = Some (f c) ->
      foldl (fun (m : gmap (list nat) Z) (c : list nat * ftree) => <[fst c := f (snd c)]> m) m (imap (fun k c => ((i' + k)%nat :: id, c)) l)
        !! ((i + 0)%nat :: id) = Some (f c)).
    { induction l as [|c1 l IHl]; intros i' m Hi Hm; [done|]. cbn [imap foldl fst snd].
      assert (He : imap ((fun k c => ((i' + k)%nat :: id, c)) ∘ S) l = imap (fun k c => ((S i' + k)%nat :: id, c)) l).
      { apply imap_ext. intros k' c' _. simpl. do 2 f_equal. lia. }
      rewrite He. apply IHl; [lia|]. rewrite lookup_insert_ne; [done|]. intros [=]. lia. }
    apply Hkeep; [lia|]. by rewrite lookup_insert_eq.
  - replace (i + S k)%nat with (S i + k)%nat by lia. by apply IH.
Qed.

Lemma body_shallow info level path nm st id parent s :
  level < 2 -> info <> FTS_D \/ level <> 1 -> body (Ftsent info level path nm st id parent) s = (s, false).
Proof.
  intros Hl Hi. unfold body, fixup_body. destruct s as [nums ops]. cbn [fts_info fts_level].
  assert (bool_decide (info = FTS_D) && (level =? 1) = false) as ->.
  { apply andb_false_iff. destruct Hi as [Hi|Hi]; [left; by apply bool_decide_eq_false|right; by apply Z.eqb_neq]. }
  assert (2 <=? level = false) as -> by (apply Z.leb_gt; lia). done.
Qed.

(** An application's directory. *)
Lemma app_tree_fold t path j r rp rn rs apps e0 nums ops :
  roots !! r = Some (rp, Dir rn rs true apps) -> apps !! j = Some t ->
  exists nums', tree_fold body (Some e0) 1 path [j; r] t (nums, ops) = (nums', ops ++ fix_app x force path t).
Proof.
  intros Hr Hj. destruct t as [info nm st|nm st rd ch].
  - cbn [tree_fold fix_app]. rewrite app_nil_r. unfold leaf_step, body, fixup_body. cbn [fts_info fts_level].
    destruct (bool_decide _); cbn [andb Z.eqb Pos.eqb]; [|by exists nums].
    unfold fts_children. cbn [fts_id rev app]. rewrite Hr. cbn [subtree]. rewrite Hj. by exists nums.
  - rewrite tree_fold_Dir. cbv zeta. set (e := Ftsent FTS_D 1 path nm st [j; r] (Some e0)).
    set (f := child_gid x path (st_uid st)).
    assert (Hb : body e (nums, ops) =
      ((foldl (fun m c => <[fst c := f (snd c)]> m) nums (fts_children roots e), ops), false)) by done.
    rewrite Hb. destruct rd; cbn [todo_fold].
    2: { unfold leaf_step, set_info, e. cbn [fts_level fts_path fts_name fts_statp fts_id fts_parent].
         rewrite body_shallow by (lia || by left). cbn [fix_app fst]. rewrite app_nil_r. by eexists. }
    assert (Hch : fts_children roots e = imap (fun i c => (i :: [j; r], c)) ch).
    { unfold fts_children, e. cbn [fts_id rev app]. rewrite Hr. cbn [subtree]. by rewrite Hj. }
    rewrite Hch. set (nums1 := foldl _ nums _).
    destruct (deep_forest ch (proj2 (Forall_forall _ _) (fun c _ => deep_tree c)) e 0 nums1 ops
                (fun k => number nums1 (k :: [j; r]))) as (nums2 & -> & _).
    { done. }
    { intros k nums' _ _ S'. unfold expected_of, e. cbn [fts_level fts_id]. unfold number. by rewrite S' by lia. }
    unfold leaf_step, set_info, e. cbn [fts_level fts_path fts_name fts_statp fts_id fts_parent].
    rewrite body_shallow by (lia || by left). exists nums2. cbn [fst fix_app]. do 3 f_equal.
    assert (Hi : imap (fun (_ : nat) c => fix_tree force (st_uid st) (child_gid x path (st_uid st) c) (child_path path (ftree_name c)) c) ch =
                 map (fun c => fix_tree force (st_uid st) (child_gid x path (st_uid st) c) (child_path path (ftree_name c)) c) ch)
      by apply imap_const.
    rewrite <- Hi. clear Hi.
    apply imap_ext. intros k c Hk. cbn [const]. f_equal. change (0 + k)%nat with k. unfold number.
    assert (Hl : nums1 !! (k :: [j; r]) = Some (f c)) by exact (foldl_children_lookup f [j; r] ch 0 nums k c Hk).
    by rewrite Hl.
Qed.

(** The directory of a user. *)
Lemma apps_forest r rp rn rs apps e0 l i nums ops :
  roots !! r = Some (rp, Dir rn rs true apps) -> fts_level e0 = 0 -> fts_id e0 = [r] -> fts_path e0 = rp ->
  drop i apps = l ->
  exists nums', forest_fold body e0 i l (nums, ops) =
    (nums', ops ++ concat (map (fun a => fix_app x force (child_path rp (ftree_name a)) a) l)).
Proof.
  intros Hr He Hid Hp. revert i nums ops. induction l as [|a l IH]; intros i nums ops Hl; cbn [forest_fold map concat].
  { exists nums. by rewrite app_nil_r. }
  assert (Hi : apps !! i = Some a) by (rewrite <- (Nat.add_0_r i), <- lookup_drop, Hl; done).
  rewrite He, Hid, Hp. destruct (app_tree_fold a (child_path rp (ftree_name a)) i r rp rn rs apps e0 nums ops Hr Hi) as (nums1 & E1).
  change (0 + 1) with 1. rewrite E1.
  destruct (IH (S i) nums1 (ops ++ fix_app x force (child_path rp (ftree_name a)) a)) as (nums2 & E2).
  { by rewrite <- Nat.add_1_r, <- drop_drop, Hl. }
  exists nums2. by rewrite E2, <- app_assoc.
Qed.

Lemma root_fold r path t nums ops :
  roots !! r = Some (path, t) ->
  exists nums', tree_fold body None 0 path [r] t (nums, ops) = (nums', ops ++ fix_root x force (path, t)).
Proof.
  intros Hr. destruct t as [info nm st|nm st rd apps].
  - cbn [tree_fold]. unfold leaf_step. rewrite body_shallow by (lia || by right). exists nums. cbn. by rewrite app_nil_r.
  - rewrite tree_fold_Dir. cbv zeta. rewrite body_shallow by (lia || by right).
    set (e0 := Ftsent FTS_D 0 path nm st [r] None). destruct rd; cbn [todo_fold].
    + destruct (apps_forest r path nm st apps e0 apps 0 nums ops Hr) as (nums1 & ->); [done..|].
      unfold leaf_step, set_info, e0. cbn [fts_level fts_path fts_name fts_statp fts_id fts_parent].
      rewrite body_shallow by (lia || by right). by exists nums1.
    + unfold leaf_step, set_info, e0. cbn [fts_level fts_path fts_name fts_statp fts_id fts_parent].
      rewrite body_shallow by (lia || by right). exists nums. cbn. by rewrite app_nil_r.
Qed.

Lemma roots_fold l r nums ops :
  drop r roots = l ->
  exists nums', todos_fold body (fts_roots r l) (nums, ops) = (nums', ops ++ concat (map (fix_root x force) l)).
Proof.
  revert r nums ops. induction l as [|[path t] l IH]; intros r nums ops Hl; cbn [fts_roots map concat].
  { exists nums. by rewrite app_nil_r. }
  assert (Hr : roots !! r = Some (path, t)) by (rewrite <- (Nat.add_0_r r), <- lookup_drop, Hl; done).
  destruct (root_fold r path t nums ops Hr) as (nums1 & E1).
  unfold todos_fold. cbn [foldl todo_fold]. rewrite E1.
  destruct (IH (S r) nums1 (ops ++ fix_root x force (path, t))) as (nums2 & E2).
  { rewrite <- Nat.add_1_r, <- drop_drop, Hl. done. }
  exists nums2. unfold todos_fold in E2. by rewrite E2, <- app_assoc.
Qed.

Lemma fixup_run : exists nums, fts_run body (fts_roots 0 roots) (∅, []) = Some (nums, concat (map (fix_root x force) roots)).
Proof.
  rewrite fts_run_spec. destruct (roots_fold roots 0 ∅ []) as (nums & ->); [by rewrite drop_0|]. by exists nums.
Qed.

End Equivalence.

(** ** The hierarchy after the changes *)

Definition set_gid (g : Z) (st : stat) : stat :=
  Stat (st_ino st) (st_type st) (st_perm st) (st_uid st) g (st_size st) (st_blocks st) (st_mtime st).

Definition set_perm (m : Z) (st : stat) : stat :=
  Stat (st_ino st) (st_type st) m (st_uid st) (st_gid st) (st_size st) (st_blocks st) (st_mtime st).

Definition apply_op (path : str) (st : stat) (f : fix_op) : stat :=
  if fix_path f =s? path then match f with Chmod _ m => set_perm m st | Chown _ g | Lchown _ g => set_gid g st end else st.

Fixpoint apply_fix (ops : list fix_op) (path : str) (t : ftree) : ftree :=
  match t with
  | Leaf info n st => Leaf info n (foldl (apply_op path) st ops)
  | Dir n st rd ch => Dir n (foldl (apply_op path) st ops) rd (map (fun c => apply_fix ops (child_path path (ftree_name c)) c) ch)
  end.

(** A directory has no two entries of one name. *)
Fixpoint distinct (t : ftree) : Prop :=
  match t with
  | Leaf _ _ _ => True
  | Dir _ _ _ ch =>
      NoDup (map ftree_name ch) /\
      (fix all l := match l with [] => True | c :: l' => name_ok (ftree_name c) /\ distinct c /\ all l' end) ch
  end.

Lemma distinct_children n st rd ch :
  distinct (Dir n st rd ch) -> NoDup (map ftree_name ch) /\ Forall (fun c => name_ok (ftree_name c) /\ distinct c) ch.
Proof.
  intros [Hn H]. split; [done|]. clear Hn. induction ch as [|c ch IH]; [constructor|]. destruct H as (H1 & H2 & H3).
  constructor; [done|by apply IH].
Qed.

Lemma child_path_join p n : ends_slash p = false -> child_path p n = p ++ slash :: n.
Proof. intros H. unfold child_path. by rewrite H. Qed.

Definition off (p : str) (f : fix_op) : Prop := ~ below p (fix_path f).

Lemma apply_stat_off path st ops : Forall (fun f => fix_path f <> path) ops -> foldl (apply_op path) st ops = st.
Proof.
  induction 1 as [|f ops Hf _ IH]; [done|]. cbn [foldl]. unfold apply_op at 2.
  assert (fix_path f =s? path = false) as -> by by apply str_eqb_neq. done.
Qed.

Lemma apply_fix_name ops path t : ftree_name (apply_fix ops path t) = ftree_name t.
Proof. by destruct t. Qed.

Lemma map_id_Forall {A} (f : A -> A) l : Forall (fun a => f a = a) l -> map f l = l.
Proof. induction 1 as [|a l Ha _ IH]; [done|]. cbn [map]. by rewrite Ha, IH. Qed.

(** Changes elsewhere do not matter. *)
Lemma apply_fix_off t ops path : distinct t -> ends_slash path = false -> Forall (off path) ops -> apply_fix ops path t = t.
Proof.
  revert path. induction t as [info n st|n st rd ch IH] using ftree_ind'; intros path Hd He Ho; cbn [apply_fix].
  - f_equal. apply apply_stat_off. eapply Forall_impl; [exact Ho|]. intros f Hf E. apply Hf. left. done.
  - assert (foldl (apply_op path) st ops = st) as ->.
    { apply apply_stat_off. eapply Forall_impl; [exact Ho|]. intros f Hf E. apply Hf. by left. }
    f_equal. apply map_id_Forall. apply distinct_children in Hd as [_ Hc].
    rewrite Forall_forall in IH, Hc. rewrite Forall_forall in Ho. rewrite Forall_forall.
    intros c Hin. destruct (Hc c Hin) as [(Hs & Hn & Hdot) Hdc].
    rewrite child_path_join by done. apply IH; [done|done|by apply ends_slash_child|].
    rewrite Forall_forall. intros f Hf Hb. apply (Ho f Hf). eapply below_trans; [apply below_join_r|exact Hb].
Qed.

Lemma apply_fix_app a b path t : apply_fix (a ++ b) path t = apply_fix b path (apply_fix a path t).
Proof.
  revert path. induction t as [info n st|n st rd ch IH] using ftree_ind'; intros path; cbn [apply_fix]; rewrite foldl_app; [done|].
  f_equal. rewrite map_map. apply map_ext_in. intros c Hc. rewrite apply_fix_name. rewrite Forall_forall in IH.
  apply IH. by apply list_elem_of_In.
Qed.

Lemma apply_distinct ops path t : distinct t -> distinct (apply_fix ops path t).
Proof.
  revert path. induction t as [info n st|n st rd ch IH] using ftree_ind'; intros path; [done|].
  intros Hd. cbn [apply_fix distinct]. destruct Hd as [Hn Hc]. split.
  - rewrite map_map. erewrite map_ext; [exact Hn|]. intros c. apply apply_fix_name.
  - clear Hn. induction IH as [|c ch Hc1 _ IHl]; [done|]. cbn [map]. destruct Hc as (H1 & H2 & H3).
    rewrite apply_fix_name. split_and!; [done|by apply Hc1|by apply IHl].
Qed.

(** Each child sees its own changes only. *)
Lemma apply_forest p (g : ftree -> list fix_op) extra ch c :
  ends_slash p = false -> NoDup (map ftree_name ch) -> Forall (fun c => name_ok (ftree_name c) /\ distinct c) ch ->
  Forall (fun c => Forall (fun f => below (p ++ slash :: ftree_name c) (fix_path f)) (g c)) ch ->
  Forall (fun f => fix_path f = p) extra -> c ∈ ch ->
  apply_fix (concat (map g ch) ++ extra) (p ++ slash :: ftree_name c) c = apply_fix (g c) (p ++ slash :: ftree_name c) c.
Proof.
  intros He Hn Hc Hg Hx Hin.
  assert (Hown : slash ∉ ftree_name c /\ ends_slash (p ++ slash :: ftree_name c) = false /\ distinct c).
  { rewrite Forall_forall in Hc. destruct (Hc c Hin) as [(Hs & Hne & _) Hd]. split_and!; [done|by apply ends_slash_child|done]. }
  destruct Hown as (Hs & Hec & Hd).
  rewrite apply_fix_app. rewrite (apply_fix_off _ extra).
  2: { by apply apply_distinct. }
  2: { done. }
  2: { eapply Forall_impl; [exact Hx|]. intros f Hf. unfold off. rewrite Hf. apply not_below_parent. }
  apply list_elem_of_split in Hin as (l1 & l2 & ->). rewrite map_app, concat_app, map_cons, concat_cons.
  rewrite map_app in Hn. cbn [map] in Hn. apply NoDup_app in Hn as (_ & H12 & [Hc2 _]%NoDup_cons).
  rewrite Forall_app, Forall_cons in Hc, Hg. destruct Hc as (Hc1 & _ & Hc3), Hg as (Hg1 & Hgc & Hg2).
  assert (Hoff : forall l, Forall (fun c' => name_ok (ftree_name c') /\ distinct c') l ->
    Forall (fun c' => Forall (fun f => below (p ++ slash :: ftree_name c') (fix_path f)) (g c')) l ->
    ftree_name c ∉ map ftree_name l -> Forall (off (p ++ slash :: ftree_name c)) (concat (map g l))).
  { intros l Hl Hgl Hno. induction l as [|c' l IHl]; [constructor|]. cbn [map concat].
    apply Forall_cons in Hl as [[(Hs' & _) _] Hl]. apply Forall_cons in Hgl as [Hgc' Hgl].
    cbn [map] in Hno. apply not_elem_of_cons in Hno as [Hne Hno]. apply Forall_app. split; [|by apply IHl].
    eapply Forall_impl; [exact Hgc'|]. intros f Hf. by eapply (siblings_apart p (ftree_name c') (ftree_name c)). }
  rewrite apply_fix_app, apply_fix_app.
  rewrite (apply_fix_off c (concat (map g l1))); [|done..|apply Hoff; [done..|]].
  - apply apply_fix_off; [by apply apply_distinct|done|]. apply Hoff; done.
  - intros Hin. apply (H12 _ Hin). left.
Qed.

Lemma fix_switch_path info path expected cache_gid : Forall (fun f => fix_path f = path) (fix_switch info path expected cache_gid).
Proof. destruct info; cbn [fix_switch]; try destruct (_ =? _); by repeat constructor. Qed.

Definition ops_below (p : str) (ops : list fix_op) : Prop := Forall (fun f => below p (fix_path f)) ops.

Lemma ops_below_at p ops : Forall (fun f => fix_path f = p) ops -> ops_below p ops.
Proof. intros H. eapply Forall_impl; [exact H|]. intros f Hf. by left. Qed.

(** The operations of the children lie below the directory. *)
Lemma ops_below_concat {A} (g : A -> list fix_op) (name : A -> str) p l :
  Forall (fun c => ops_below (p ++ slash :: name c) (g c)) l -> ops_below p (concat (map g l)).
Proof.
  intros H. induction H as [|c l Hc _ IH]; [constructor|]. cbn [map concat]. apply Forall_app. split; [|done].
  eapply Forall_impl; [exact Hc|]. intros f Hf. eapply below_trans; [apply below_join_r|exact Hf].
Qed.

Section Fixed.
Context (x : xattrs) (force : bool).

Lemma fix_tree_below t puid expected path :
  distinct t -> ends_slash path = false -> ops_below path (fix_tree force puid expected path t).
Proof.
  revert puid expected path. induction t as [info n st|n st rd ch IH] using ftree_ind'; intros puid expected path Hd He.
  - cbn [fix_tree]. destruct (wrong _ _ _); [apply ops_below_at, fix_switch_path|constructor].
  - rewrite fix_tree_dir. destruct (_ && rd); [|constructor]. apply Forall_app. split.
    + apply (ops_below_concat _ ftree_name). apply distinct_children in Hd as [_ Hc].
      rewrite Forall_forall in IH, Hc. apply Forall_forall. intros c Hin. destruct (Hc c Hin) as [(Hs & Hn & _) Hdc].
      rewrite child_path_join by done. apply IH; [done..|by apply ends_slash_child].
    + destruct (wrong _ _ _); [apply ops_below_at, fix_switch_path|constructor].
Qed.

Lemma concat_nil {A B} (g : A -> list B) l : (forall a, a ∈ l -> g a = []) -> concat (map g l) = [].
Proof.
  intros H. induction l as [|a l IH]; [done|]. cbn [map concat]. rewrite H by left. apply IH. intros b Hb. apply H. by right.
Qed.

(** The directory's children, changed by their own operations. *)
Lemma forest_fixed p (g g' : ftree -> list fix_op) extra ch :
  ends_slash p = false -> NoDup (map ftree_name ch) -> Forall (fun c => name_ok (ftree_name c) /\ distinct c) ch ->
  (forall c, c ∈ ch -> ops_below (p ++ slash :: ftree_name c) (g c)) ->
  (forall c, c ∈ ch -> g' (apply_fix (g c) (p ++ slash :: ftree_name c) c) = []) ->
  Forall (fun f => fix_path f = p) extra ->
  concat (map g' (map (fun c => apply_fix (concat (map g ch) ++ extra) (child_path p (ftree_name c)) c) ch)) = [].
Proof.
  intros He Hn Hc Hb Hg' Hx. rewrite map_map. apply concat_nil. intros c Hin. rewrite child_path_join by done.
  rewrite (apply_forest p g extra ch c He Hn Hc); [by apply Hg'| |done..].
  apply Forall_forall. exact Hb.
Qed.

Lemma forest_fixed0 p (g g' : ftree -> list fix_op) ch :
  ends_slash p = false -> NoDup (map ftree_name ch) -> Forall (fun c => name_ok (ftree_name c) /\ distinct c) ch ->
  (forall c, c ∈ ch -> ops_below (p ++ slash :: ftree_name c) (g c)) ->
  (forall c, c ∈ ch -> g' (apply_fix (g c) (p ++ slash :: ftree_name c) c) = []) ->
  concat (map g' (map (fun c => apply_fix (concat (map g ch)) (child_path p (ftree_name c)) c) ch)) = [].
Proof.
  intros He Hn Hc Hb Hg. pose proof (forest_fixed p g g' [] ch He Hn Hc Hb Hg (Forall_nil_2 _)) as H.
  by rewrite app_nil_r in H.
Qed.

(** The operations of a directory's children and its own, seen by the
    directory itself. *)
Lemma apply_stat_children p (g : ftree -> list fix_op) ch extra st :
  (forall c, c ∈ ch -> ops_below (p ++ slash :: ftree_name c) (g c)) ->
  foldl (apply_op p) st (concat (map g ch) ++ extra) = foldl (apply_op p) st extra.
Proof.
  intros Hb. rewrite foldl_app. f_equal. apply apply_stat_off.
  induction ch as [|c ch IH]; [constructor|]. cbn [map concat]. apply Forall_app. split.
  - eapply Forall_impl; [apply Hb; left|]. intros f Hf E. cbn in Hf. rewrite E in Hf. by apply (not_below_parent p (ftree_name c)).
  - apply IH. intros c' Hc'. apply Hb. by right.
Qed.

Lemma wrong_fixed info path puid expected cache st :
  fix_switch info path expected cache <> [] ->
  wrong puid expected (foldl (apply_op path) st (fix_switch info path expected cache)) = false.
Proof.
  intros Hne. assert (st_gid (foldl (apply_op path) st (fix_switch info path expected cache)) = expected) as Hg.
  { destruct info; cbn [fix_switch] in *; try done; try destruct (_ =? _); cbn [foldl app]; unfold apply_op; cbn [fix_path];
      by rewrite ?str_eqb_refl. }
  unfold wrong. by rewrite Hg, Z.eqb_refl.
Qed.

Lemma st_uid_apply path st ops : st_uid (foldl (apply_op path) st ops) = st_uid st.
Proof.
  revert st. induction ops as [|f ops IH]; intros st; [done|]. cbn [foldl]. rewrite IH. unfold apply_op.
  destruct (_ =s? _); [|done]. by destruct f.
Qed.

Lemma st_ino_apply path st ops : st_ino (foldl (apply_op path) st ops) = st_ino st.
Proof.
  revert st. induction ops as [|f ops IH]; intros st; [done|]. cbn [foldl]. rewrite IH. unfold apply_op.
  destruct (_ =s? _); [|done]. by destruct f.
Qed.

Lemma fix_tree_fixed t puid expected path :
  distinct t -> ends_slash path = false ->
  fix_tree force puid expected path (apply_fix (fix_tree force puid expected path t) path t) = [].
Proof.
  revert puid expected path. induction t as [info n st|n st rd ch IH] using ftree_ind'; intros puid expected path Hd He.
  - cbn [fix_tree apply_fix]. destruct (wrong puid expected st) eqn:Hw; [|cbn [foldl]; by rewrite Hw].
    destruct (decide (fix_switch info path expected (get_cache_gid puid) = [])) as [Hnil|Hne].
    + rewrite Hnil. cbn [foldl]. by rewrite Hw.
    + by rewrite wrong_fixed.
  - rewrite fix_tree_dir. destruct ((wrong puid expected st || force) && rd) eqn:Hin.
    2: { rewrite apply_fix_off; [|done..|constructor]. by rewrite fix_tree_dir, Hin. }
    apply andb_true_iff in Hin as [Hin ->]. apply distinct_children in Hd as [Hn Hc].
    set (g := fun c => fix_tree force (st_uid st) expected (child_path path (ftree_name c)) c).
    set (own := if wrong puid expected st then _ else _).
    assert (Hbelow : forall c, c ∈ ch -> ops_below (path ++ slash :: ftree_name c) (g c)).
    { intros c Hcin. rewrite Forall_forall in Hc. destruct (Hc c Hcin) as [(Hs & Hne & _) Hdc]. unfold g.
      rewrite child_path_join by done. apply fix_tree_below; [done|by apply ends_slash_child]. }
    assert (Hown : Forall (fun f => fix_path f = path) own).
    { unfold own. destruct (wrong _ _ _); [apply fix_switch_path|constructor]. }
    cbn [apply_fix]. rewrite apply_stat_children by done. rewrite fix_tree_dir, st_uid_apply.
    assert (Hw : wrong puid expected (foldl (apply_op path) st own) = false).
    { unfold own. destruct (wrong puid expected st) eqn:Hw; [apply wrong_fixed; by cbn; destruct (_ =? _)|exact Hw]. }
    rewrite Hw. cbn [orb]. destruct (force && true); [|done]. rewrite app_nil_r.
    rewrite (forest_fixed path g _ own ch); [done|done..| |done].
    intros c Hcin. rewrite apply_fix_name. rewrite Forall_forall in IH, Hc. destruct (Hc c Hcin) as [(Hs & Hne & _) Hdc].
    unfold g. rewrite child_path_join by done. apply IH; [done..|by apply ends_slash_child].
Qed.

Lemma child_gid_apply path uid ops p c : child_gid x path uid (apply_fix ops p c) = child_gid x path uid c.
Proof. unfold child_gid, is_cache_child. rewrite apply_fix_name. destruct c; cbn [apply_fix ftree_stat]; by rewrite st_ino_apply. Qed.

Lemma fix_app_below t path : distinct t -> ends_slash path = false -> ops_below path (fix_app x force path t).
Proof.
  intros Hd He. destruct t as [|n st [] ch]; [constructor| |constructor]. cbn [fix_app].
  apply (ops_below_concat _ ftree_name). apply distinct_children in Hd as [_ Hc]. rewrite Forall_forall in Hc.
  apply Forall_forall. intros c Hin. destruct (Hc c Hin) as [(Hs & Hn & _) Hdc]. rewrite child_path_join by done.
  apply fix_tree_below; [done|by apply ends_slash_child].
Qed.

Lemma fix_app_fixed t path :
  distinct t -> ends_slash path = false -> fix_app x force path (apply_fix (fix_app x force path t) path t) = [].
Proof.
  intros Hd He. destruct t as [|n st [] ch]; [done| |done]. cbn [fix_app apply_fix]. rewrite st_uid_apply.
  apply distinct_children in Hd as [Hn Hc].
  apply forest_fixed0; [done..| |].
  - intros c Hin. rewrite Forall_forall in Hc. destruct (Hc c Hin) as [(Hs & Hne & _) Hdc].
    rewrite child_path_join by done. apply fix_tree_below; [done|by apply ends_slash_child].
  - intros c Hin. rewrite Forall_forall in Hc. destruct (Hc c Hin) as [(Hs & Hne & _) Hdc].
    rewrite child_gid_apply, apply_fix_name, child_path_join by done. apply fix_tree_fixed; [done|by apply ends_slash_child].
Qed.

Lemma fix_root_fixed path t :
  distinct t -> ends_slash path = false -> fix_root x force (path, apply_fix (fix_root x force (path, t)) path t) = [].
Proof.
  intros Hd He. destruct t as [|n st [] ch]; [done| |done]. unfold fix_root. cbn [snd fst apply_fix].
  apply distinct_children in Hd as [Hn Hc].
  apply forest_fixed0; [done..| |].
  - intros c Hin. rewrite Forall_forall in Hc. destruct (Hc c Hin) as [(Hs & Hne & _) Hdc].
    rewrite child_path_join by done. apply fix_app_below; [done|by apply ends_slash_child].
  - intros c Hin. rewrite Forall_forall in Hc. destruct (Hc c Hin) as [(Hs & Hne & _) Hdc].
    rewrite apply_fix_name, child_path_join by done. apply fix_app_fixed; [done|by apply ends_slash_child].
Qed.

End Fixed.

End Fixup.

(** * Properties *)

(** C29: the pass over the directories of a user sets, in order, exactly what the
    recursion [fix_root] lists for them: the table of numbers, the traversal
    and its skipped directories are accounted for. *)
Theorem fixup_user_spec {W : Type} {world : World W} {mu : Multiuser} (debuggable : bool)
    (uuid : option str) (flags : Z) (user : N) (w : W) (ce de : str) (t1 t2 : ftree) :
  create_data_user_ce_path debuggable (w_isdir w) uuid user = Some ce ->
  create_data_user_de_path debuggable uuid user = Some de ->
  w_tree w ce = Some t1 -> w_tree w de = Some t2 ->
  let fix_of := fix_root (w_attr w) (has flags FLAG_FORCE) in
  fixup_user debuggable uuid flags user w =
  (_ ← for_all (fix_of (ce, t1) ++ fix_of (de, t2)) do_fix; mret true) w.
Proof.
  intros Hce Hde H1 H2 fix_of. unfold fixup_user, ce_path, de_path, io_bind, ask, abort_if_none.
  rewrite Hce, Hde, H1, H2. destruct (fixup_run [(ce, t1); (de, t2)] (w_attr w) flags) as (nums & ->).
  cbn [snd map concat]. by rewrite app_nil_r.
Qed.

(** The changes of one pass over the directories of a user. *)
Definition fixup_pass {mu : Multiuser} (x : xattrs) (flags : Z) (ce de : str) (t1 t2 : ftree)
    : option (list fix_op) :=
  let roots := [(ce, t1); (de, t2)] in
  match fts_run (fixup_body roots x flags) (fts_roots 0 roots) (∅, []) with Some (_, ops) => Some ops | None => None end.

Lemma fixup_pass_eq {mu : Multiuser} x flags ce de t1 t2 :
  fixup_pass x flags ce de t1 t2 =
  Some (fix_root x (has flags FLAG_FORCE) (ce, t1) ++ fix_root x (has flags FLAG_FORCE) (de, t2)).
Proof.
  unfold fixup_pass. destruct (fixup_run [(ce, t1); (de, t2)] x flags) as (nums & ->).
  cbn [map concat]. by rewrite app_nil_r.
Qed.

Lemma fix_root_below {mu : Multiuser} x force path t :
  distinct t -> ends_slash path = false -> ops_below path (fix_root x force (path, t)).
Proof.
  intros Hd He. destruct t as [|n st [] ch]; [constructor| |constructor]. unfold fix_root. cbn [snd fst].
  apply (ops_below_concat _ ftree_name). apply distinct_children in Hd as [_ Hc]. rewrite Forall_forall in Hc.
  apply Forall_forall. intros c Hin. destruct (Hc c Hin) as [(Hs & Hn & _) Hdc]. rewrite child_path_join by done.
  apply fix_app_below; [done|by apply ends_slash_child].
Qed.

(** One pass repairs everything it can repair: a second pass over the
    hierarchy with the changes of the first finds nothing to change, forced or
    not. *)
Theorem fixup_idempotent {mu : Multiuser} (x : xattrs) (flags : Z) (ce de : str) (t1 t2 : ftree) :
  distinct t1 -> distinct t2 -> ends_slash ce = false -> ends_slash de = false ->
  (forall q, below ce q -> ~ below de q) ->
  exists ops, fixup_pass x flags ce de t1 t2 = Some ops /\
    fixup_pass x flags ce de (apply_fix ops ce t1) (apply_fix ops de t2) = Some [].
Proof.
  intros D1 D2 E1 E2 Hap. set (force := has flags FLAG_FORCE). rewrite fixup_pass_eq. eexists. split; [done|].
  rewrite fixup_pass_eq. fold force. f_equal.
  assert (O2 : Forall (off ce) (fix_root x force (de, t2))).
  { eapply Forall_impl; [by apply fix_root_below|]. intros f Hf Hc. by apply (Hap (fix_path f)). }
  assert (O1 : Forall (off de) (fix_root x force (ce, t1))).
  { eapply Forall_impl; [by apply fix_root_below|]. intros f Hf. by apply Hap. }
  rewrite !apply_fix_app. rewrite (apply_fix_off _ (fix_root x force (de, t2))) by (done || by apply apply_distinct).
  rewrite (apply_fix_off t2 (fix_root x force (ce, t1))) by done.
  by rewrite !fix_root_fixed.
Qed.

(** ** A run *)

Definition demo_stat (ino uid gid : Z) (ty : ftype) : stat := Stat ino ty 448 uid gid 4096 8 0.

Definition demo_ce : ftree :=
  Dir (lit "0") (demo_stat 2 1000 1000 S_IFDIR) true
    [Dir (lit "com.a") (demo_stat 10 10010 10010 S_IFDIR) true
       [Dir (lit "cache") (demo_stat 11 10010 10010 S_IFDIR) true [Leaf FTS_F (lit "c") (demo_stat 12 10010 10010 S_IFREG)];
        Dir (lit "files") (demo_stat 13 10010 10010 S_IFDIR) true [Leaf FTS_F (lit "f") (demo_stat 14 10010 20010 S_IFREG)];
        Leaf FTS_F (lit "odd") (demo_stat 15 10010 0 S_IFREG);
        Leaf FTS_SL (lit "link") (demo_stat 16 10010 20010 S_IFLNK)]].

Definition demo_de : ftree := Dir (lit "0") (demo_stat 3 1000 1000 S_IFDIR) true [].

Lemma fixup_idempotent_witness :
  exists ops, fixup_pass (mu := mu_android) ∅ 0 (lit "/data/user/0") (lit "/data/user_de/0") demo_ce demo_de = Some ops /\
    fixup_pass (mu := mu_android) ∅ 0 (lit "/data/user/0") (lit "/data/user_de/0")
      (apply_fix ops (lit "/data/user/0") demo_ce) (apply_fix ops (lit "/data/user_de/0") demo_de) = Some [].
Proof.
  apply (fixup_idempotent (mu := mu_android) ∅ 0).
  - cbn. unfold name_ok. split_and!; try done; try (by apply find_char_None); repeat (constructor; [set_solver|]); constructor.
  - cbn. split; [constructor|done].
  - reflexivity.
  - reflexivity.
  - intros q Hq. eapply (areas_disjoint (lit "/data") ADe ACe); [apply (in_area_intro (lit "/data") ADe (lit "0"))| |done].
    eapply in_area_below; [apply (in_area_intro (lit "/data") ACe (lit "0"))|exact Hq].
Defined.

(** The hierarchies of the user, in the file system of [SimpleFs]. *)
Definition fixup_world : World fs := {|
  w_access := w_access (World := simple_fs);
  w_isdir _ _ := false;
  w_stat := fs_stat;
  w_lstat := fs_stat;
  w_opendir _ := fs_entries;
  w_tree _ p := if p =s? lit "/data/user/0" then Some demo_ce else if p =s? lit "/data/user_de/0" then Some demo_de else None;
  w_attr _ := ∅;
  w_label _ _ := None;
  w_call := fs_call;
|}.

Lemma fixup_user_spec_witness (w := (fun _ => None) : fs) :
  fixup_user (world := fixup_world) (mu := mu_android) false None 0 0 w =
  (_ ← for_all [Chown (lit "/data/user/0/com.a/cache/c") 20010; Chmod (lit "/data/user/0/com.a/cache") 1529;
                Chown (lit "/data/user/0/com.a/cache") 20010; Chown (lit "/data/user/0/com.a/files/f") 10010;
                Lchown (lit "/data/user/0/com.a/link") 10010] (do_fix (world := fixup_world)); mret true) w.
Proof.
  rewrite (fixup_user_spec (world := fixup_world) (mu := mu_android) false None 0 0 w
             (lit "/data/user/0") (lit "/data/user_de/0") demo_ce demo_de eq_refl eq_refl eq_refl eq_refl).
  reflexivity.
Defined.
