(* ===== verification/MediaExt.v ===== *)
(** The table of media file extensions of [installd]: the generated
    [MatchExtensionGen.h] against the lists of [matchgen.py].

    The nested switches are a tree of labelled branches, [run] their
    evaluation on a C string, whose end is the label of [End]. The theorem
    says that the generated code recognises exactly the listed extensions, in
    any case. *)

From S2P Require Import Prelude.

Open Scope char_scope.

Inductive media := AID_MEDIA_AUDIO | AID_MEDIA_VIDEO | AID_MEDIA_IMAGE.

#[export] Instance media_eq_dec : EqDecision media.
Proof. solve_decision. Defined.

(** [case 'c': case 'C': switch (...) { ... } break;] and
    [case '\0': return id;]. *)
Inductive branch :=
| Case (labels : list ascii) (cases : list branch)
| End (id : media).

(** * The generated switches, one definition per first letter *)

Definition case_3 : list branch :=
  [Case ["g"; "G"] [Case ["2"] [End AID_MEDIA_VIDEO];
     Case ["p"; "P"] [End AID_MEDIA_VIDEO;
       Case ["p"; "P"] [End AID_MEDIA_VIDEO;
         Case ["2"] [End AID_MEDIA_VIDEO]]]]].

Definition case_a : list branch :=
  [Case ["a"; "A"] [Case ["c"; "C"] [End AID_MEDIA_AUDIO]];
   Case ["i"; "I"] [Case ["f"; "F"] [End AID_MEDIA_AUDIO;
       Case ["c"; "C"] [End AID_MEDIA_AUDIO];
       Case ["f"; "F"] [End AID_MEDIA_AUDIO]]];
   Case ["m"; "M"] [Case ["r"; "R"] [End AID_MEDIA_AUDIO]];
   Case ["r"; "R"] [Case ["t"; "T"] [End AID_MEDIA_IMAGE];
     Case ["w"; "W"] [End AID_MEDIA_IMAGE]];
   Case ["s"; "S"] [Case ["f"; "F"] [End AID_MEDIA_VIDEO];
     Case ["x"; "X"] [End AID_MEDIA_VIDEO]];
   Case ["v"; "V"] [Case ["i"; "I"] [End AID_MEDIA_VIDEO]];
   Case ["w"; "W"] [Case ["b"; "B"] [End AID_MEDIA_AUDIO]]].

Definition case_b : list branch :=
  [Case ["m"; "M"] [Case ["p"; "P"] [End AID_MEDIA_IMAGE]]].

Definition case_c : list branch :=
  [Case ["r"; "R"] [Case ["2"] [End AID_MEDIA_IMAGE]]].

Definition case_d : list branch :=
  [Case ["i"; "I"] [Case ["f"; "F"] [End AID_MEDIA_VIDEO]];
   Case ["l"; "L"] [End AID_MEDIA_VIDEO];
   Case ["n"; "N"] [Case ["g"; "G"] [End AID_MEDIA_IMAGE]];
   Case ["v"; "V"] [End AID_MEDIA_VIDEO]].

Definition case_f : list branch :=
  [Case ["l"; "L"] [Case ["a"; "A"] [Case ["c"; "C"] [End AID_MEDIA_AUDIO]];
     Case ["i"; "I"] [End AID_MEDIA_VIDEO]]].

Definition case_g : list branch :=
  [Case ["i"; "I"] [Case ["f"; "F"] [End AID_MEDIA_IMAGE]];
   Case ["s"; "S"] [Case ["m"; "M"] [End AID_MEDIA_AUDIO]]].

Definition case_j : list branch :=
  [Case ["n"; "N"] [Case ["g"; "G"] [End AID_MEDIA_IMAGE]];
   Case ["p"; "P"] [Case ["e"; "E"] [End AID_MEDIA_IMAGE;
       Case ["g"; "G"] [End AID_MEDIA_IMAGE]];
     Case ["g"; "G"] [End AID_MEDIA_IMAGE]]].

Definition case_l : list branch :=
  [Case ["s"; "S"] [Case ["f"; "F"] [End AID_MEDIA_VIDEO];
     Case ["x"; "X"] [End AID_MEDIA_VIDEO]]].

Definition case_m : list branch :=
  [Case ["3"] [Case ["u"; "U"] [End AID_MEDIA_AUDIO]];
   Case ["4"] [Case ["a"; "A"] [End AID_MEDIA_AUDIO];
     Case ["v"; "V"] [End AID_MEDIA_VIDEO]];
   Case ["k"; "K"] [Case ["a"; "A"] [End AID_MEDIA_AUDIO];
     Case ["v"; "V"] [End AID_MEDIA_VIDEO]];
   Case ["n"; "N"] [Case ["g"; "G"] [End AID_MEDIA_VIDEO]];
   Case ["o"; "O"] [Case ["v"; "V"] [End AID_MEDIA_VIDEO;
       Case ["i"; "I"] [Case ["e"; "E"] [End AID_MEDIA_VIDEO]]]];
   Case ["p"; "P"] [Case ["2"] [End AID_MEDIA_AUDIO];
     Case ["3"] [End AID_MEDIA_AUDIO];
     Case ["4"] [End AID_MEDIA_VIDEO];
     Case ["e"; "E"] [End AID_MEDIA_VIDEO;
       Case ["g"; "G"] [End AID_MEDIA_VIDEO;
         Case ["a"; "A"] [End AID_MEDIA_AUDIO]]];
     Case ["g"; "G"] [End AID_MEDIA_VIDEO;
       Case ["a"; "A"] [End AID_MEDIA_AUDIO]]];
   Case ["x"; "X"] [Case ["u"; "U"] [End AID_MEDIA_VIDEO]]].

Definition case_n : list branch :=
  [Case ["e"; "E"] [Case ["f"; "F"] [End AID_MEDIA_IMAGE]];
   Case ["r"; "R"] [Case ["w"; "W"] [End AID_MEDIA_IMAGE]]].

Definition case_o : list branch :=
  [Case ["g"; "G"] [Case ["a"; "A"] [End AID_MEDIA_AUDIO];
     Case ["g"; "G"] [End AID_MEDIA_AUDIO]];
   Case ["r"; "R"] [Case ["f"; "F"] [End AID_MEDIA_IMAGE]]].

Definition case_p : list branch :=
  [Case ["b"; "B"] [Case ["m"; "M"] [End AID_MEDIA_IMAGE]];
   Case ["c"; "C"] [Case ["x"; "X"] [End AID_MEDIA_IMAGE]];
   Case ["e"; "E"] [Case ["f"; "F"] [End AID_MEDIA_IMAGE]];
   Case ["g"; "G"] [Case ["m"; "M"] [End AID_MEDIA_IMAGE]];
   Case ["l"; "L"] [Case ["s"; "S"] [End AID_MEDIA_AUDIO]];
   Case ["n"; "N"] [Case ["g"; "G"] [End AID_MEDIA_IMAGE];
     Case ["m"; "M"] [End AID_MEDIA_IMAGE]];
   Case ["p"; "P"] [Case ["m"; "M"] [End AID_MEDIA_IMAGE]];
   Case ["s"; "S"] [Case ["d"; "D"] [End AID_MEDIA_IMAGE]]].

Definition case_q : list branch :=
  [Case ["t"; "T"] [End AID_MEDIA_VIDEO]].

Definition case_r : list branch :=
  [Case ["a"; "A"] [End AID_MEDIA_AUDIO;
     Case ["m"; "M"] [End AID_MEDIA_AUDIO];
     Case ["s"; "S"] [End AID_MEDIA_IMAGE]];
   Case ["g"; "G"] [Case ["b"; "B"] [End AID_MEDIA_IMAGE]];
   Case ["m"; "M"] [End AID_MEDIA_AUDIO];
   Case ["w"; "W"] [Case ["2"] [End AID_MEDIA_IMAGE]]].

Definition case_s : list branch :=
  [Case ["d"; "D"] [Case ["2"] [End AID_MEDIA_AUDIO]];
   Case ["n"; "N"] [Case ["d"; "D"] [End AID_MEDIA_AUDIO]];
   Case ["r"; "R"] [Case ["w"; "W"] [End AID_MEDIA_IMAGE]];
   Case ["v"; "V"] [Case ["g"; "G"] [End AID_MEDIA_IMAGE;
       Case ["z"; "Z"] [End AID_MEDIA_IMAGE]]]].

Definition case_t : list branch :=
  [Case ["i"; "I"] [Case ["f"; "F"] [End AID_MEDIA_IMAGE;
       Case ["f"; "F"] [End AID_MEDIA_IMAGE]]];
   Case ["s"; "S"] [End AID_MEDIA_VIDEO]].

Definition case_v : list branch :=
  [Case ["o"; "O"] [Case ["b"; "B"] [End AID_MEDIA_VIDEO]]].

Definition case_w : list branch :=
  [Case ["a"; "A"] [Case ["v"; "V"] [End AID_MEDIA_AUDIO];
     Case ["x"; "X"] [End AID_MEDIA_AUDIO]];
   Case ["b"; "B"] [Case ["m"; "M"] [Case ["p"; "P"] [End AID_MEDIA_IMAGE]]];
   Case ["e"; "E"] [Case ["b"; "B"] [Case ["m"; "M"] [End AID_MEDIA_VIDEO];
       Case ["p"; "P"] [End AID_MEDIA_IMAGE]]];
   Case ["m"; "M"] [End AID_MEDIA_VIDEO;
     Case ["a"; "A"] [End AID_MEDIA_AUDIO];
     Case ["v"; "V"] [End AID_MEDIA_VIDEO];
     Case ["x"; "X"] [End AID_MEDIA_VIDEO]];
   Case ["r"; "R"] [Case ["f"; "F"] [End AID_MEDIA_VIDEO]];
   Case ["v"; "V"] [Case ["x"; "X"] [End AID_MEDIA_VIDEO]]].

Definition case_x : list branch :=
  [Case ["b"; "B"] [Case ["m"; "M"] [End AID_MEDIA_IMAGE]];
   Case ["p"; "P"] [Case ["m"; "M"] [End AID_MEDIA_IMAGE]];
   Case ["w"; "W"] [Case ["d"; "D"] [End AID_MEDIA_IMAGE]]].

Definition MatchExtension_switch : list branch :=
  [Case ["3"] case_3;
   Case ["a"; "A"] case_a;
   Case ["b"; "B"] case_b;
   Case ["c"; "C"] case_c;
   Case ["d"; "D"] case_d;
   Case ["f"; "F"] case_f;
   Case ["g"; "G"] case_g;
   Case ["j"; "J"] case_j;
   Case ["l"; "L"] case_l;
   Case ["m"; "M"] case_m;
   Case ["n"; "N"] case_n;
   Case ["o"; "O"] case_o;
   Case ["p"; "P"] case_p;
   Case ["q"; "Q"] case_q;
   Case ["r"; "R"] case_r;
   Case ["s"; "S"] case_s;
   Case ["t"; "T"] case_t;
   Case ["v"; "V"] case_v;
   Case ["w"; "W"] case_w;
   Case ["x"; "X"] case_x].

(** ** Evaluation *)

Definition has_label (c : ascii) (labels : list ascii) : bool := existsb (Ascii.eqb c) labels.

(** One branch: [None] if its label is not the character, else the result of
    the switch, which is [None] when it falls through to [return 0]. *)
Fixpoint run_branch (b : branch) (s : str) : option (option media) :=
  match b, s with
  | End id, [] => Some (Some id)
  | End _, _ :: _ | Case _ _, [] => None
  | Case labels cases, c :: s' =>
      if has_label c labels then
        Some ((fix go l := match l with
                           | [] => None
                           | b :: l' => match run_branch b s' with Some r => r | None => go l' end
                           end) cases)
      else None
  end.

Fixpoint run (cases : list branch) (s : str) : option media :=
  match cases with
  | [] => None
  | b :: cases' => match run_branch b s with Some r => r | None => run cases' s end
  end.

Definition MatchExtension (ext : str) : option media := run MatchExtension_switch ext.

(** * The lists of the generator *)

Open Scope string_scope.

Definition audio_extensions : list string :=
  ["aac"; "aac"; "amr"; "awb"; "snd"; "flac"; "flac"; "mp3"; "mpga"; "mpega"; "mp2"; "m4a";
   "aif"; "aiff"; "aifc"; "gsm"; "mka"; "m3u"; "wma"; "wax"; "ra"; "rm"; "ram"; "ra"; "pls";
   "sd2"; "wav"; "ogg"; "oga"]%string.

Definition video_extensions : list string :=
  ["3gpp"; "3gp"; "3gpp2"; "3g2"; "avi"; "dl"; "dif"; "dv"; "fli"; "m4v"; "ts"; "mpeg"; "mpg";
   "mpe"; "mp4"; "vob"; "qt"; "mov"; "mxu"; "webm"; "lsf"; "lsx"; "mkv"; "mng"; "asf"; "asx";
   "wm"; "wmv"; "wmx"; "wvx"; "movie"; "wrf"]%string.

Definition image_extensions : list string :=
  ["bmp"; "gif"; "jpg"; "jpeg"; "jpe"; "pcx"; "png"; "svg"; "svgz"; "tiff"; "tif"; "wbmp";
   "webp"; "dng"; "cr2"; "ras"; "art"; "jng"; "nef"; "nrw"; "orf"; "rw2"; "pef"; "psd"; "pnm";
   "pbm"; "pgm"; "ppm"; "srw"; "arw"; "rgb"; "xbm"; "xpm"; "xwd"]%string.

Definition TYPES : list (string * media) :=
  map (fun e => (e, AID_MEDIA_AUDIO)) audio_extensions ++
  map (fun e => (e, AID_MEDIA_VIDEO)) video_extensions ++
  map (fun e => (e, AID_MEDIA_IMAGE)) image_extensions.

Definition lower (c : ascii) : ascii :=
  let n := N_of_ascii c in
  if ((65 <=? n) && (n <=? 90))%N then ascii_of_N (n + 32) else c.

(** The media type of an extension in any case. *)
Definition media_of (ext : str) : option media :=
  match List.find (fun e => lit (fst e) =s? map lower ext) TYPES with
  | Some (_, id) => Some id
  | None => None
  end.

(** * Helper lemmas *)

(** The strings a branch recognises, in lower case. *)
Fixpoint words_of (b : branch) : list (str * media) :=
  match b with
  | End id => [([], id)]
  | Case labels cases =>
      match labels with
      | [] => []
      | c :: _ => map (fun w => (c :: fst w, snd w)) (concat (map words_of cases))
      end
  end.

Definition words (cases : list branch) : list (str * media) := concat (map words_of cases).

(** The label of a branch, [None] for the end of the string. *)
Definition key (b : branch) : option ascii :=
  match b with End _ => None | Case labels _ => head labels end.

(** A branch has a lower case label and the same in upper case, if any, and
    the branches of a switch have different labels. *)
Definition labels_ok (labels : list ascii) : bool :=
  match labels with
  | [c] => Ascii.eqb (lower c) c && forallb (fun n => negb (Ascii.eqb (lower (ascii_of_nat n)) c) || Ascii.eqb (ascii_of_nat n) c) (seq 0 256)
  | [c; d] => Ascii.eqb (lower c) c && forallb (fun n => Bool.eqb (Ascii.eqb (lower (ascii_of_nat n)) c) (Ascii.eqb (ascii_of_nat n) c || Ascii.eqb (ascii_of_nat n) d)) (seq 0 256)
  | _ => false
  end.

Definition keys_distinct (l : list branch) : bool := bool_decide (NoDup (map key l)).

Fixpoint branch_ok (b : branch) : bool :=
  match b with
  | End _ => true
  | Case labels cases => labels_ok labels && keys_distinct cases && forallb branch_ok cases
  end.

Definition switch_ok (cases : list branch) : bool := keys_distinct cases && forallb branch_ok cases.

Definition assoc (s : str) (l : list (str * media)) : option media :=
  match List.find (fun w => fst w =s? s) l with Some (_, id) => Some id | None => None end.

Lemma branch_ind' (P : branch -> Prop) :
  (forall id, P (End id)) -> (forall labels cases, Forall P cases -> P (Case labels cases)) -> forall b, P b.
Proof.
  intros HE HC. fix IH 1. intros [labels cases|id]; [|apply HE]. apply HC.
  induction cases as [|b cases IHc]; constructor; [apply IH|apply IHc].
Qed.

Lemma forallb_ascii (p : ascii -> bool) (c : ascii) :
  forallb (fun n => p (ascii_of_nat n)) (seq 0 256) = true -> p c = true.
Proof.
  rewrite forallb_forall. intros H. rewrite <- (ascii_nat_embedding c). apply H, in_seq.
  pose proof (nat_ascii_bounded c). lia.
Qed.

Lemma labels_ok_spec labels :
  labels_ok labels = true -> exists c ls, labels = c :: ls /\ forall x, has_label x labels = Ascii.eqb (lower x) c.
Proof.
  unfold labels_ok. destruct labels as [|c [|d [|? ?]]]; try done; intros [H1 H2]%andb_true_iff; exists c.
  - exists []. split; [done|]. intros x. cbn. rewrite orb_false_r.
    apply (forallb_ascii (fun x => negb (Ascii.eqb (lower x) c) || Ascii.eqb x c) x) in H2.
    destruct (Ascii.eqb_spec x c) as [Hx|Hx]; [by rewrite Hx, H1|]. by destruct (Ascii.eqb (lower x) c).
  - exists [d]. split; [done|]. intros x. cbn. rewrite orb_false_r.
    apply (forallb_ascii (fun x => Bool.eqb (Ascii.eqb (lower x) c) (Ascii.eqb x c || Ascii.eqb x d)) x) in H2.
    apply Bool.eqb_prop in H2. by rewrite H2.
Qed.

Lemma assoc_app s l1 l2 :
  assoc s (l1 ++ l2) = match assoc s l1 with Some id => Some id | None => assoc s l2 end.
Proof.
  unfold assoc. induction l1 as [|[w id] l1 IH]; [done|]. cbn [app List.find fst].
  by destruct (w =s? s).
Qed.

Lemma assoc_prefix c x s l :
  assoc (x :: s) (map (fun w => (c :: fst w, snd w)) l) = if Ascii.eqb x c then assoc s l else None.
Proof.
  unfold assoc. induction l as [|[w id] l IH]; [by destruct (Ascii.eqb x c)|]. cbn [map List.find fst snd].
  destruct (Ascii.eqb_spec x c) as [->|Hne].
  - destruct (w =s? s) eqn:E.
    + apply str_eqb_eq in E as ->. by rewrite str_eqb_refl.
    + apply str_eqb_neq in E. rewrite (proj2 (str_eqb_neq _ _)); [done|congruence].
  - rewrite (proj2 (str_eqb_neq _ _)); [done|congruence].
Qed.

Lemma assoc_nil_prefix c l : assoc [] (map (fun w => (c :: fst w, snd w)) l) = None.
Proof. unfold assoc. induction l as [|[w id] l IH]; [done|]. exact IH. Qed.

(** What a branch does: its switch if its label is the next character. *)
Definition branch_spec (b : branch) : Prop :=
  branch_ok b = true -> forall s,
    run_branch b s = (if decide (key b = head (map lower s)) then Some (assoc (map lower s) (words_of b)) else None) /\
    (key b <> head (map lower s) -> assoc (map lower s) (words_of b) = None).

Lemma run_words cases s :
  Forall branch_spec cases -> switch_ok cases = true -> run cases s = assoc (map lower s) (words cases).
Proof.
  intros HF [Hk Hok]%andb_true_iff. apply bool_decide_eq_true in Hk.
  induction HF as [|b cases Hb HF IH]; [done|]. cbn [map] in Hk. apply NoDup_cons in Hk as [Hnot Hk].
  cbn [forallb] in Hok. apply andb_true_iff in Hok as [Hbo Hok]. specialize (IH Hk Hok).
  destruct (Hb Hbo s) as [Hr Hn]. unfold words. cbn [run map concat]. rewrite assoc_app, Hr.
  destruct (decide (key b = head (map lower s))) as [E|E].
  - destruct (assoc (map lower s) (words_of b)); [done|]. fold (words cases). rewrite <- IH.
    clear - HF Hnot E Hok. induction HF as [|b' cases Hb' HF IHF]; [done|].
    cbn [forallb] in Hok. apply andb_true_iff in Hok as [Hbo' Hok]. cbn [map] in Hnot. cbn [run].
    destruct (Hb' Hbo' s) as [-> _]. rewrite decide_False by (intros E'; apply Hnot; rewrite E, <- E'; left).
    apply IHF; [|done]. set_solver.
  - rewrite (Hn E). exact IH.
Qed.

Lemma run_fix cases s :
  (fix go l := match l with
               | [] => None
               | b :: l' => match run_branch b s with Some r => r | None => go l' end
               end) cases = run cases s.
Proof. induction cases as [|b cases IH]; [done|]. cbn [run]. by rewrite IH. Qed.

Lemma branch_spec_all b : branch_spec b.
Proof.
  induction b as [id|labels cases IH] using branch_ind'; intros Hok s.
  - destruct s as [|x s]; cbn; split; try done.
  - cbn [branch_ok] in Hok. apply andb_true_iff in Hok as [[Hl Hk]%andb_true_iff Hc].
    destruct (labels_ok_spec labels Hl) as (c & ls & -> & Hlab).
    pose proof (fun s => run_words cases s IH (proj2 (andb_true_iff _ _) (conj Hk Hc))) as Hrun.
    cbn [words_of key head]. destruct s as [|x s]; cbn [map head].
    + cbn [run_branch]. split; [done|]. intros _. apply assoc_nil_prefix.
    + cbn [run_branch]. rewrite Hlab, run_fix, Hrun, assoc_prefix.
      destruct (Ascii.eqb_spec (lower x) c) as [->|Hne].
      * rewrite decide_True by done. split; [done|]. congruence.
      * rewrite decide_False by congruence. done.
Qed.

Lemma run_switch cases s : switch_ok cases = true -> run cases s = assoc (map lower s) (words cases).
Proof. intros H. apply run_words; [|done]. apply Forall_forall. intros. apply branch_spec_all. Qed.

(** Two association lists that agree on each other's keys. *)
Lemma assoc_agree (w1 : list (str * media)) (w2 : list (string * media)) s :
  forallb (fun e => match List.find (fun x => lit (fst x) =s? fst e) w2 with
                    | Some (_, id) => bool_decide (id = snd e) | None => false end) w1 = true ->
  forallb (fun e => existsb (fun x => fst x =s? lit (fst e)) w1) w2 = true ->
  assoc s w1 = match List.find (fun e => lit (fst e) =s? s) w2 with Some (_, id) => Some id | None => None end.
Proof.
  rewrite !forallb_forall. intros H1 H2. unfold assoc.
  destruct (List.find (fun w => fst w =s? s) w1) as [[w id]|] eqn:E.
  - apply find_some in E as [Hin Hw]. apply str_eqb_eq in Hw. cbn in Hw. subst w. specialize (H1 _ Hin). cbn in H1.
    destruct (List.find _ w2) as [[e id']|]; [|done]. apply bool_decide_eq_true in H1. cbn in H1. by subst.
  - destruct (List.find (fun e => lit (fst e) =s? s) w2) as [[e id]|] eqn:E2; [|done].
    apply find_some in E2 as [Hin He]. apply str_eqb_eq in He. specialize (H2 _ Hin).
    apply existsb_exists in H2 as ([w id'] & Hw & Hwe). apply str_eqb_eq in Hwe. cbn in *.
    pose proof (find_none _ _ E _ Hw) as Hn. cbn in Hn. rewrite Hwe, He, str_eqb_refl in Hn. done.
Qed.

(** * Properties *)

(** The generated switches recognise exactly the extensions of the
    generator's lists, in upper, lower or mixed case, each with the media type
    of its list. *)
Theorem match_extension_spec ext : MatchExtension ext = media_of ext.
Proof.
  unfold MatchExtension, media_of. rewrite run_switch by (vm_compute; reflexivity).
  apply assoc_agree; vm_compute; reflexivity.
Qed.
