(* ===== verification/Stats.v ===== *)
(** Storage statistics of [installd]: [collectQuotaStats],
    [collectManualStats], [collectManualStatsForUser],
    [collectManualExternalStatsForUser], [getAppSize], [getUserSize] and
    [getExternalSize] of [InstalldNativeService.cpp].

    The measurements read the quota mounts, which a look-up may extend, and
    abort on a bad package name: they run in the state and error monad
    [measure]. *)

From S2P Require Import Prelude Platform Fts InstalldPaths InstalldFs Quota Cache MediaExt.

Open Scope Z_scope.

(** ** The monad *)

Definition measure (A : Type) : Type := mounts -> option (A * mounts).

Definition mret' {A} (a : A) : measure A := fun m => Some (a, m).
Definition mbind' {A B} (c : measure A) (k : A -> measure B) : measure B :=
  fun m => match c m with Some (a, m') => k a m' | None => None end.
Definition pure {A} (o : option A) : measure A := fun m => match o with Some a => Some (a, m) | None => None end.

Declare Scope measure_scope.
Delimit Scope measure_scope with measure.
Notation "'let!' x := c 'in' k" := (mbind' c (fun x => k))
  (at level 10, x pattern, c at level 100, k at level 200) : measure_scope.
Open Scope measure_scope.

Fixpoint for_each {A S} (body : A -> S -> measure S) (l : list A) (s : S) : measure S :=
  match l with
  | [] => mret' s
  | a :: l' => let! s' := body a s in for_each body l' s'
  end.

(** ** Statistics *)

Record stats := Stats { codeSize : Z; dataSize : Z; cacheSize : Z }.

Definition no_stats : stats := Stats 0 0 0.
Definition add_code (z : Z) (s : stats) : stats := Stats (i64 (codeSize s + z)) (dataSize s) (cacheSize s).
Definition add_data (z : Z) (s : stats) : stats := Stats (codeSize s) (i64 (dataSize s + z)) (cacheSize s).
Definition add_cache (z : Z) (s : stats) : stats := Stats (codeSize s) (dataSize s) (i64 (cacheSize s + z)).

(** Adding a measurement that is not -1. *)
Definition if_known (space : Z) (f : Z -> stats -> stats) (s : stats) : stats :=
  if space =? -1 then s else f space s.

Class MediaIds := { AID_MEDIA_OBB : Z; media_id : media -> Z }.

Definition FLAG_USE_QUOTA : Z := Z.shiftl 1 12.

Section Stats.
Context {aid : AidRanges} {mu : Multiuser} {ids : MediaIds}.
Context (quotactl : quota_kind -> str -> Z -> option Z) (debuggable : bool) (lstat_isdir : str -> bool).
Context (G : globals).
Context (v : fsview).
(* fstatat(dfd, name, AT_SYMLINK_NOFOLLOW) in the directory of a path *)
Context (fstatat : str -> str -> option stat).

Abbreviation gid_space uuid gid := (GetOccupiedSpaceForGid quotactl debuggable uuid gid).
Abbreviation uid_space uuid uid := (GetOccupiedSpaceForUid quotactl debuggable uuid uid).

(** A group of -1 is none. *)
Definition known_gid (uuid : str) (gid : Z) : measure Z :=
  if gid =? -1 then mret' (-1) else gid_space uuid gid.

Definition collectQuotaStats (uuid : str) (userId appId : Z) (st : option stats) (ext : option stats)
    : measure (option stats * option stats) :=
  let! st := match st with
             | None => mret' None
             | Some s =>
                 let! sp := uid_space uuid (u32 (multiuser_get_uid userId appId)) in
                 let s := if_known sp add_data s in
                 let! sp := known_gid uuid (i32 (multiuser_get_cache_gid userId appId)) in
                 let s := if_known sp add_cache s in
                 let! sp := known_gid uuid (i32 (multiuser_get_shared_gid 0 appId)) in
                 mret' (Some (if_known sp add_code s))
             end in
  let! ext := match ext with
              | None => mret' None
              | Some s =>
                  let! sp := known_gid uuid (i32 (multiuser_get_ext_gid userId appId)) in
                  let s := if_known sp add_data s in
                  let! sp := known_gid uuid (i32 (multiuser_get_ext_cache_gid userId appId)) in
                  mret' (Some (if_known sp (fun z s => add_cache z (add_data z s)) s))
              end in
  mret' (st, ext).

(** [calculate_tree_size] into a size. *)
Definition tree_into (path : str) (size inc exc : Z) (apps : bool) : option Z :=
  '(_, size) ← calculate_tree_size (fs_tree v) path size inc exc apps; Some size.

Definition is_cache_name (name : str) : bool := (name =s? lit "cache") || (name =s? lit "code_cache").

(** One entry of a data directory. *)
Definition manual_entry (path : str) (de : dirent) (s : stats) : option stats :=
  let name := d_name de in
  let size := match fstatat path name with Some st => st_blocks st * 512 | None => 0 end in
  if bool_decide (d_type de = DT_DIR) then
    if name =s? lit ".." then Some s
    else
      size ← (if name =s? lit "." then Some size
              else tree_into (path ++ slash :: name) 0 (-1) (-1) false);
      Some (add_data size (if is_cache_name name then add_cache size s else s))
  else if bool_decide (d_type de = DT_LNK) && (name =s? lit "lib") then Some s
  else Some (add_data size s).

Fixpoint fold_entries (f : dirent -> stats -> option stats) (l : list dirent) (s : stats) : option stats :=
  match l with
  | [] => Some s
  | de :: l' => s ← f de s; fold_entries f l' s
  end.

Definition collectManualStats (path : str) (s : stats) : option stats :=
  match fs_opendir v path with
  | None => Some s
  | Some entries => fold_entries (manual_entry path) entries s
  end.

Definition user_entry (path : str) (exclude_apps : bool) (de : dirent) (s : stats) : option stats :=
  if bool_decide (d_type de = DT_DIR) then
    match fstatat path (d_name de) with
    | None => Some s
    | Some st =>
        let user_uid := i32 (multiuser_get_app_id (st_uid st)) in
        if is_dot (d_name de) then Some s
        else if exclude_apps && between AID_APP_START user_uid AID_APP_END then Some s
        else collectManualStats (path ++ slash :: d_name de) s
    end
  else Some s.

Definition collectManualStatsForUser (path : str) (s : stats) (exclude_apps : bool) : option stats :=
  match fs_opendir v path with
  | None => Some s
  | Some entries => fold_entries (user_entry path exclude_apps) entries s
  end.

(** ** External storage *)

Record ext_state := ExtState { est : stats; numbers : gmap (list nat) Z }.

Definition number (e : option FTSENT) (st : ext_state) : Z :=
  match e with Some e => default 0 (numbers st !! fts_id e) | None => 0 end.

Definition named (e : option FTSENT) (n : str) : bool :=
  match e with Some e => fts_name e =s? n | None => false end.

Definition parent (e : option FTSENT) : option FTSENT := e ← e; fts_parent e.

Definition is_ext_cache (p : FTSENT) : bool :=
  (fts_level p =? 4) && (fts_name p =s? lit "cache")
  && named (parent (fts_parent p)) (lit "data")
  && named (parent (parent (fts_parent p))) (lit "Android").

Definition external_body (p : FTSENT) (st : ext_state) : ext_state * bool :=
  let inherited := number (fts_parent p) st in
  let n := if bool_decide (fts_info p = FTS_D) && is_ext_cache p then 1 else inherited in
  let numbers' := <[fts_id p := n]> (numbers st) in
  let size := st_blocks (fts_statp p) * 512 in
  (if measured (fts_info p) then
     ExtState (add_data size (if n =? 1 then add_cache size (est st) else est st)) numbers'
   else ExtState (est st) numbers', false).

Definition collectManualExternalStatsForUser (path : str) (s : stats) : option stats :=
  match fs_tree v path with
  | None => Some s
  | Some t => st ← fts_run external_body (fts_roots 0 [(path, t)]) (ExtState s ∅); Some (est st)
  end.

(** ** getAppSize *)

Inductive sizes := Sizes (l : list Z) | Refused (s : status) | SizeError.

Definition checked (packageNames codePaths : list str) (calling_uid : Z) (uuid : option str)
    (k : measure sizes) : measure sizes :=
  if bool_decide (checkUid calling_uid AID_SYSTEM <> StatusOk) then mret' (Refused EX_SECURITY)
  else if bool_decide (checkArgumentUuid uuid <> StatusOk)
          || existsb (fun p => bool_decide (checkArgumentPackageName p <> StatusOk)) packageNames
          || existsb (fun p => bool_decide (checkArgumentPath p <> StatusOk)) codePaths
       then mret' (Refused EX_ILLEGAL_ARGUMENT)
  else k.

(** The flags without [FLAG_USE_QUOTA] where quotas are not supported. *)
Definition use_quota (uuid : option str) (flags : Z) : measure bool :=
  let! supported := IsQuotaSupported debuggable (default [] uuid) in
  mret' ((supported : bool) && nz (Z.land flags FLAG_USE_QUOTA)).

(** [calculate_tree_size(path, &field, inc, exc, apps)] of a statistic. *)
Definition tree_code (path : str) (inc exc : Z) (apps : bool) (s : stats) : measure stats :=
  let! z := pure (tree_into path (codeSize s) inc exc apps) in mret' (Stats z (dataSize s) (cacheSize s)).
Definition tree_data (path : str) (inc exc : Z) (apps : bool) (s : stats) : measure stats :=
  let! z := pure (tree_into path (dataSize s) inc exc apps) in mret' (Stats (codeSize s) z (cacheSize s)).

Definition the_stats (s : option stats) : stats := default no_stats s.

(** The six sizes in the order of the result. *)
Definition result (s ext : stats) : sizes :=
  Sizes [codeSize s; dataSize s; cacheSize s; codeSize ext; dataSize ext; cacheSize ext].

(** One package of the manual measurement; [inode] is its CE data inode. *)
Definition manual_package (uuid : option str) (userId : Z) (pkg : str * Z) (se : stats * stats)
    : measure (stats * stats) :=
  let '(pkgname, inode) := pkg in
  let '(s, ext) := se in
  let user := Z.to_N (u32 userId) in
  let! cePath := pure (create_data_user_ce_package_path_inode debuggable lstat_isdir (fs_opendir v) uuid user pkgname inode) in
  let! s := pure (collectManualStats cePath s) in
  let! dePath := pure (create_data_user_de_package_path debuggable uuid user pkgname) in
  let! s := pure (collectManualStats dePath s) in
  let! s := match uuid with
            | Some _ => mret' s
            | None =>
                let! cur := pure (create_primary_current_profile_package_dir_path G user pkgname) in
                let! s := tree_data cur (-1) (-1) false s in
                let! ref := pure (create_primary_reference_profile_package_dir_path G pkgname) in
                tree_code ref (-1) (-1) false s
            end in
  let! extPath := pure (create_data_media_package_path debuggable uuid user (lit "data") pkgname) in
  let! ext := pure (collectManualStats extPath ext) in
  let! mediaPath := pure (create_data_media_package_path debuggable uuid user (lit "media") pkgname) in
  let! ext := tree_data mediaPath (-1) (-1) false ext in
  mret' (s, ext).

(** [ceDataInodes[i]] out of range is undefined, [None] here. *)
Fixpoint zip_inodes (packageNames : list str) (ceDataInodes : list Z) : option (list (str * Z)) :=
  match packageNames, ceDataInodes with
  | [], _ => Some []
  | p :: ps, i :: is' => l ← zip_inodes ps is'; Some ((p, i) :: l)
  | _ :: _, [] => None
  end.

Definition getAppSize (calling_uid : Z) (uuid : option str) (packageNames : list str) (userId flags appId : Z)
    (ceDataInodes : list Z) (codePaths : list str) : measure sizes :=
  checked packageNames codePaths calling_uid uuid (
    let user := Z.to_N (u32 userId) in
    let! quota := use_quota uuid flags in
    let! ext := for_each (fun p ext =>
                  let! obb := pure (create_data_media_package_path debuggable uuid user (lit "obb") p) in
                  tree_code obb (-1) (-1) false ext) packageNames no_stats in
    if (quota : bool) && (AID_APP_START <=? appId) then
      let! s := for_each (fun p s => tree_code p (-1) (i32 (multiuser_get_shared_gid 0 appId)) false s)
                  codePaths no_stats in
      let! se := collectQuotaStats (default [] uuid) userId appId (Some s) (Some ext) in
      mret' (result (the_stats (fst se)) (the_stats (snd se)))
    else
      let! s := for_each (fun p s => tree_code p (-1) (-1) false s) codePaths no_stats in
      let! pkgs := pure (zip_inodes packageNames ceDataInodes) in
      let! se := for_each (manual_package uuid userId) pkgs (s, ext) in
      let '(s, ext) := se in
      let sharedGid := i32 (multiuser_get_shared_gid 0 appId) in
      let! s := match uuid with
                | None => if sharedGid =? -1 then mret' s
                          else tree_code create_data_dalvik_cache_path sharedGid (-1) false s
                | Some _ => mret' s
                end in
      mret' (result s ext)).

(** ** getUserSize *)

(** The measurements both branches make, with or without the applications:
    code, the data of the user, the profiles. *)
Definition user_common (uuid : option str) (user : N) (apps : bool) (s : stats) : measure stats :=
  let! app := pure (create_data_app_path debuggable uuid) in
  let! s := tree_code app (-1) (-1) apps s in
  let! ce := pure (create_data_user_ce_path debuggable lstat_isdir uuid user) in
  let! s := pure (collectManualStatsForUser ce s apps) in
  let! de := pure (create_data_user_de_path debuggable uuid user) in
  let! s := pure (collectManualStatsForUser de s apps) in
  match uuid with
  | Some _ => mret' s
  | None =>
      let! s := tree_data (create_primary_cur_profile_dir_path G user) (-1) (-1) apps s in
      tree_code (create_primary_ref_profile_dir_path G) (-1) (-1) apps s
  end.

(** The end of both branches. *)
Definition user_dalvik (uuid : option str) (user : N) (apps : bool) (s : stats) : measure stats :=
  match uuid with
  | Some _ => mret' s
  | None =>
      let! s := tree_code create_data_dalvik_cache_path (-1) (-1) apps s in
      tree_data (create_primary_cur_profile_dir_path G user) (-1) (-1) apps s
  end.

Definition app_quota_stats (uuid : str) (userId appId : Z) (se : stats * stats) : measure (stats * stats) :=
  if AID_APP_START <=? appId then
    let! r := collectQuotaStats uuid userId appId (Some (fst se)) (Some (snd se)) in
    mret' (the_stats (fst r), the_stats (snd r))
  else mret' se.

Definition getUserSize (calling_uid : Z) (uuid : option str) (userId flags : Z) (appIds : list Z) : measure sizes :=
  checked [] [] calling_uid uuid (
    let user := Z.to_N (u32 userId) in
    let uuid_ := default [] uuid in
    let! quota := use_quota uuid flags in
    if (quota : bool) then
      let! sp := gid_space uuid_ AID_MEDIA_OBB in
      let ext := if_known sp add_code no_stats in
      let! s := user_common uuid user true no_stats in
      let! sp := uid_space uuid_ (u32 (multiuser_get_uid userId AID_MEDIA_RW)) in
      let ext := if_known sp add_data ext in
      let! s := user_dalvik uuid user true s in
      let dataSize_ := dataSize ext in
      let! se := for_each (app_quota_stats uuid_ userId) appIds (s, ext) in
      let '(s, ext) := se in
      mret' (result s (Stats (codeSize ext) dataSize_ (cacheSize ext)))
    else
      let! data := pure (create_data_path debuggable uuid) in
      let! ext := tree_code (data ++ lit "/media/obb") (-1) (-1) false no_stats in
      let! s := user_common uuid user false no_stats in
      let! media := pure (create_data_media_path debuggable uuid user) in
      let! ext := pure (collectManualExternalStatsForUser media ext) in
      let! s := user_dalvik uuid user false s in
      mret' (result s ext)).

(** ** getExternalSize *)

Record ext_sizes := ExtSizes {
  totalSize : Z; audioSize : Z; videoSize : Z; imageSize : Z; appSize : Z; ext_numbers : gmap (list nat) Z;
}.

(** The part of the name after the last dot. *)
Definition extension (name : str) : option str :=
  i ← rfind_char dot name; Some (drop (i + 1) name).

Definition add_media (m : option media) (size : Z) (x : ext_sizes) : ext_sizes :=
  match m with
  | Some AID_MEDIA_AUDIO => ExtSizes (totalSize x) (i64 (audioSize x + size)) (videoSize x) (imageSize x) (appSize x) (ext_numbers x)
  | Some AID_MEDIA_VIDEO => ExtSizes (totalSize x) (audioSize x) (i64 (videoSize x + size)) (imageSize x) (appSize x) (ext_numbers x)
  | Some AID_MEDIA_IMAGE => ExtSizes (totalSize x) (audioSize x) (videoSize x) (i64 (imageSize x + size)) (appSize x) (ext_numbers x)
  | None => x
  end.

Definition ext_number (e : option FTSENT) (x : ext_sizes) : Z :=
  match e with Some e => default 0 (ext_numbers x !! fts_id e) | None => 0 end.

(** [case FTS_F] falls through to [case FTS_D] and then to the others. *)
Definition external_size_body (p : FTSENT) (x : ext_sizes) : ext_sizes * bool :=
  let size := st_blocks (fts_statp p) * 512 in
  let up := ext_number (fts_parent p) x in
  let categorize x :=
    if up =? 0 then
      match extension (fts_name p) with Some e => add_media (MatchExtension e) size x | None => x end
    else x in
  let inherit x :=
    let n := if (fts_level p =? 1) && (fts_name p =s? lit "Android") then 1 else up in
    ExtSizes (totalSize x) (audioSize x) (videoSize x) (imageSize x) (appSize x) (<[fts_id p := n]> (ext_numbers x)) in
  let count x :=
    ExtSizes (i64 (totalSize x + size)) (audioSize x) (videoSize x) (imageSize x)
             (if ext_number (fts_parent p) x =? 1 then i64 (appSize x + size) else appSize x) (ext_numbers x) in
  (match fts_info p with
   | FTS_F => count (inherit (categorize x))
   | FTS_D => count (inherit x)
   | FTS_DEFAULT | FTS_SL | FTS_SLNONE => count x
   | _ => x
   end, false).

Definition known (sp : Z) : Z := if sp =? -1 then 0 else sp.

Definition ext_app_stats (uuid : str) (userId appId : Z) (ext : stats) : measure stats :=
  if AID_APP_START <=? appId then
    let! r := collectQuotaStats uuid userId appId None (Some ext) in mret' (the_stats (snd r))
  else mret' ext.

Definition getExternalSize (calling_uid : Z) (uuid : option str) (userId flags : Z) (appIds : list Z)
    : measure sizes :=
  checked [] [] calling_uid uuid (
    let user := Z.to_N (u32 userId) in
    let uuid_ := default [] uuid in
    let! quota := use_quota uuid flags in
    if (quota : bool) then
      let! total := uid_space uuid_ (u32 (multiuser_get_uid userId AID_MEDIA_RW)) in
      let! audio := gid_space uuid_ (u32 (multiuser_get_uid userId (media_id AID_MEDIA_AUDIO))) in
      let! video := gid_space uuid_ (u32 (multiuser_get_uid userId (media_id AID_MEDIA_VIDEO))) in
      let! image := gid_space uuid_ (u32 (multiuser_get_uid userId (media_id AID_MEDIA_IMAGE))) in
      let! obb := gid_space uuid_ AID_MEDIA_OBB in
      let! ext := for_each (ext_app_stats uuid_ userId) appIds no_stats in
      mret' (Sizes [known total; known audio; known video; known image; dataSize ext; known obb])
    else
      let! path := pure (create_data_media_path debuggable uuid user) in
      match fs_tree v path with
      | None => mret' SizeError
      | Some t =>
          let! x := pure (fts_run external_size_body (fts_roots 0 [(path, t)]) (ExtSizes 0 0 0 0 0 ∅)) in
          let! obb := pure (tree_into (path ++ lit "/Android/obb") 0 (-1) (-1) false) in
          mret' (Sizes [totalSize x; audioSize x; videoSize x; imageSize x; appSize x; obb])
      end).

End Stats.

(** * Reference definitions *)

(** What an object of the external storage counts for: its category, whether
    it is below the directory of the applications, its size. *)
Record contribution := Contribution { category : option media; in_app : bool; csize : Z }.

Definition name_media (name : str) : option media :=
  match extension name with Some e => MatchExtension e | None => None end.

Fixpoint contributions (app : bool) (lvl : Z) (t : ftree) : list contribution :=
  match t with
  | Leaf info name st =>
      if measured info then
        [Contribution (if bool_decide (info = FTS_F) && negb app then name_media name else None) app
                      (st_blocks st * 512)]
      else []
  | Dir name st rd ch =>
      let app' := app || (lvl =? 1) && (name =s? lit "Android") in
      Contribution None app (st_blocks st * 512) ::
      if rd then concat (map (contributions app' (lvl + 1)) ch) else []
  end.

Definition total (p : contribution -> bool) (l : list contribution) : Z :=
  foldr Z.add 0 (map csize (List.filter p l)).

Definition media_size (m : media) (x : ext_sizes) : Z :=
  match m with AID_MEDIA_AUDIO => audioSize x | AID_MEDIA_VIDEO => videoSize x | AID_MEDIA_IMAGE => imageSize x end.

Definition of_media (m : media) (c : contribution) : bool := bool_decide (category c = Some m).

(** * Helper lemmas *)

Lemma total_app p l1 l2 : total p (l1 ++ l2) = total p l1 + total p l2.
Proof.
  unfold total. rewrite List.filter_app, map_app. induction (map csize (List.filter p l1)); cbn; lia.
Qed.

Lemma total_cons p c l : total p (c :: l) = (if p c then csize c else 0) + total p l.
Proof. unfold total. cbn. by destruct (p c). Qed.

(** The sizes [x'] are the sizes [x] with the contributions [l] added, the
    numbers of shorter paths unchanged. *)
Definition counted (depth : nat) (l : list contribution) (x x' : ext_sizes) : Prop :=
  totalSize x' = i64 (totalSize x + total (fun _ => true) l) /\
  (forall m, media_size m x' = i64 (media_size m x + total (of_media m) l)) /\
  appSize x' = i64 (appSize x + total in_app l) /\
  forall j, (length j < depth)%nat -> ext_numbers x' !! j = ext_numbers x !! j.

(** All five sizes are 64-bit integers. *)
Definition in_range64 (x : ext_sizes) : Prop :=
  i64 (totalSize x) = totalSize x /\ (forall m, i64 (media_size m x) = media_size m x) /\ i64 (appSize x) = appSize x.

Lemma counted_range depth l x x' : counted depth l x x' -> in_range64 x'.
Proof. intros (H1 & H2 & H3 & _). split_and!; [by rewrite H1, i64_idem| |by rewrite H3, i64_idem]. intros m. by rewrite H2, i64_idem. Qed.

Lemma counted_nil depth x x' :
  in_range64 x -> totalSize x' = totalSize x -> (forall m, media_size m x' = media_size m x) -> appSize x' = appSize x ->
  (forall j, (length j < depth)%nat -> ext_numbers x' !! j = ext_numbers x !! j) -> counted depth [] x x'.
Proof.
  intros (R1 & R2 & R3) H1 H2 H3 Hn. unfold counted, total. cbn.
  split_and!; [by rewrite Z.add_0_r, R1| |by rewrite Z.add_0_r, R3|done]. intros m. by rewrite Z.add_0_r, R2.
Qed.

Lemma counted_trans d1 d2 l1 l2 x1 x2 x3 :
  counted d1 l1 x1 x2 -> counted d2 l2 x2 x3 -> counted (Nat.min d1 d2) (l1 ++ l2) x1 x3.
Proof.
  intros (A1 & A2 & A3 & A4) (B1 & B2 & B3 & B4). split_and!.
  - by rewrite B1, A1, total_app, i64_add_l, Z.add_assoc.
  - intros m. by rewrite B2, A2, total_app, i64_add_l, Z.add_assoc.
  - by rewrite B3, A3, total_app, i64_add_l, Z.add_assoc.
  - intros j Hj. rewrite B4, A4; [done|lia..].
Qed.

Lemma counted_le d1 d2 l x x' : (d1 <= d2)%nat -> counted d2 l x x' -> counted d1 l x x'.
Proof. intros Hd (A1 & A2 & A3 & A4). split_and!; [done..|]. intros j Hj. apply A4. lia. Qed.

#[local] Arguments MatchExtension : simpl never.
#[local] Arguments extension : simpl never.

(** One object. [app] is the number of its parent. *)
Lemma count_object info lvl path n s id e x (app : bool) :
  in_range64 x -> ext_number e x = (if app then 1 else 0) ->
  (forall e', e = Some e' -> (length (fts_id e') < length id)%nat) -> measured info = true ->
  let x' := fst (external_size_body (Ftsent info lvl path n s id e) x) in
  counted (length id)
    [Contribution (if bool_decide (info = FTS_F) && negb app then name_media n else None) app (st_blocks s * 512)] x x' /\
  (info = FTS_D -> ext_numbers x' !! id = Some (if (lvl =? 1) && (n =s? lit "Android") then 1 else if app then 1 else 0)).
Proof.
  intros (R1 & R2 & R3) Hup He Hm x'.
  assert (Hins : forall k z j, (length j < length id)%nat -> k = <[id := z]> (ext_numbers x) -> k !! j = ext_numbers x !! j).
  { intros k z j Hj ->. rewrite lookup_insert_ne; [done|]. intros <-. lia. }
  assert (Hsame : forall t a b c d k, ext_number e (ExtSizes t a b c d (<[id := k]> (ext_numbers x))) = ext_number e x).
  { intros. destruct e as [e'|]; [|done]. cbn. rewrite lookup_insert_ne; [done|]. intros E. specialize (He e' eq_refl). rewrite E in He. lia. }
  pose proof (R2 AID_MEDIA_AUDIO) as RA. pose proof (R2 AID_MEDIA_VIDEO) as RV. pose proof (R2 AID_MEDIA_IMAGE) as RI.
  cbn in RA, RV, RI. unfold x', external_size_body. cbn [fts_info fts_name fts_level fts_parent fts_statp fts_id fst].
  rewrite Hup. unfold counted, total, of_media, name_media.
  destruct info; try done; (split; [|try done; by intros _; cbn; rewrite lookup_insert_eq]).
  2: destruct app, (extension n) as [ex|]; try destruct (MatchExtension ex) as [[]|].
  all: cbn [add_media ext_numbers totalSize audioSize videoSize imageSize appSize]; rewrite ?Hsame, ?Hup.
  all: try destruct app; cbn; split_and!; rewrite ?Z.add_0_r; try done; try (by eauto).
  all: intros []; cbn; rewrite ?Z.add_0_r; try done.
  all: repeat (rewrite bool_decide_true by done; cbn); by rewrite Z.add_0_r.
Qed.

Definition b2n (app : bool) : Z := if app then 1 else 0.

(** The contents of a directory whose number is set. *)
Lemma count_forest e i ch x app lvl :
  Forall (fun t => forall e lvl path id x app, in_range64 x -> ext_number e x = b2n app ->
            (forall e', e = Some e' -> (length (fts_id e') < length id)%nat) ->
            counted (length id) (contributions app lvl t) x (tree_fold external_size_body e lvl path id t x)) ch ->
  fts_level e + 1 = lvl -> in_range64 x -> ext_number (Some e) x = b2n app ->
  counted (S (length (fts_id e))) (concat (map (contributions app lvl) ch)) x
    (forest_fold external_size_body e i ch x).
Proof.
  intros H Hl. revert i x. induction H as [|c ch Hc Hch IH]; intros i x Hr Hn; [by apply counted_nil|].
  cbn [forest_fold map concat]. set (cp := child_path _ _).
  assert (H1 : counted (length (i :: fts_id e)) (contributions app lvl c) x
                 (tree_fold external_size_body (Some e) (fts_level e + 1) cp (i :: fts_id e) c x)).
  { rewrite Hl. apply Hc; [done|done|]. intros e' [= <-]. cbn. lia. }
  set (x1 := tree_fold _ _ _ _ _ _ _) in *.
  assert (Hn1 : ext_number (Some e) x1 = b2n app).
  { destruct H1 as (_ & _ & _ & Hk). rewrite <- Hn. unfold ext_number. by rewrite Hk by (cbn; lia). }
  pose proof (counted_trans _ _ _ _ _ _ _ H1 (IH (S i) x1 (counted_range _ _ _ _ H1) Hn1)) as H2.
  eapply counted_le; [|exact H2]. cbn. lia.
Qed.

Lemma count_tree t e lvl path id x app :
  in_range64 x -> ext_number e x = b2n app ->
  (forall e', e = Some e' -> (length (fts_id e') < length id)%nat) ->
  counted (length id) (contributions app lvl t) x (tree_fold external_size_body e lvl path id t x).
Proof.
  revert e lvl path id x app. induction t as [info n s|n s rd ch IH] using ftree_ind'; intros e lvl path id x app Hr Hn He.
  - cbn [tree_fold contributions]. destruct (measured info) eqn:Hm; [by apply count_object|].
    unfold leaf_step, external_size_body. cbn [fst fts_info]. by destruct info; try done; apply counted_nil.
  - rewrite tree_fold_Dir. cbv zeta. set (p := Ftsent FTS_D lvl path n s id e).
    destruct (count_object FTS_D lvl path n s id e x app Hr Hn He eq_refl) as [H1 H2]. specialize (H2 eq_refl).
    fold p in H1, H2. assert (Hsk : snd (external_size_body p x) = false) by done.
    destruct (external_size_body p x) as [x1 sk]. cbn [fst snd] in *. subst sk.
    rewrite bool_decide_false in H1 by done. cbn [andb] in H1.
    pose proof (counted_range _ _ _ _ H1) as Hr1. cbn [contributions].
    set (app' := app || (lvl =? 1) && (n =s? lit "Android")).
    assert (Hn1 : ext_number (Some p) x1 = b2n app').
    { cbn. rewrite H2. unfold app', b2n. by destruct app, ((lvl =? 1) && _). }
    destruct rd; cbn [todo_fold].
    + pose proof (count_forest p 0 ch x1 app' (lvl + 1) IH eq_refl Hr1 Hn1) as H3.
      pose proof (counted_trans _ _ _ _ _ _ _ H1 H3) as H4.
      eapply counted_le; [|exact H4]. cbn. lia.
    + exact H1.
Qed.

(** * Properties *)

(** Without quotas, the traversal of the external storage counts every
    object once in the total, every object below [Android] for the
    applications, and every other file in the category of its extension and in
    no other. *)
Theorem external_sizes_spec path t :
  exists x, fts_run external_size_body (fts_roots 0 [(path, t)]) (ExtSizes 0 0 0 0 0 ∅) = Some x /\
    totalSize x = i64 (total (fun _ => true) (contributions false 0 t)) /\
    (forall m, media_size m x = i64 (total (of_media m) (contributions false 0 t))) /\
    appSize x = i64 (total in_app (contributions false 0 t)).
Proof.
  rewrite fts_run_one. eexists. split; [done|].
  assert (Hr : in_range64 (ExtSizes 0 0 0 0 0 ∅)) by (split_and!; [done|by intros []|done]).
  destruct (count_tree t None 0 path [0%nat] _ false Hr eq_refl ltac:(done)) as (H1 & H2 & H3 & _).
  split_and!; [exact H1| |exact H3]. intros m. rewrite (H2 m). by destruct m.
Qed.

(** A picture and the data of an application. *)
Example external_sizes_example :
  let st b := Stat 1 S_IFREG 432 1023 1023 0 b 0 in
  (fun x => (totalSize x, imageSize x, appSize x)) <$>
    fts_run external_size_body
      (fts_roots 0 [(lit "/data/media/0",
         Dir (lit "0") (st 8) true
           [Leaf FTS_F (lit "a.b.JPG") (st 16);
            Dir (lit "Android") (st 8) true [Leaf FTS_F (lit "c.png") (st 24)]])]) (ExtSizes 0 0 0 0 0 ∅) =
  Some (56 * 512, 16 * 512, 24 * 512).
Proof. vm_compute. reflexivity. Qed.

(** The current profiles of a user enter the data size twice, with the
    profiles and with the dalvik cache. *)
Definition ids_android : MediaIds := {|
  AID_MEDIA_OBB := 1059;
  media_id m := match m with AID_MEDIA_AUDIO => 1055 | AID_MEDIA_VIDEO => 1056 | AID_MEDIA_IMAGE => 1057 end |}.

Definition profiles_view : fsview :=
  FsView (fun p => if p =s? lit "/data/misc/profiles/cur/0"
                   then Some (Dir (lit "0") (Stat 1 S_IFDIR 505 1000 1000 0 10 0) true []) else None)
         (fun _ _ => false) ∅ (fun _ => None).

Example profiles_counted_twice :
  fst <$> @getUserSize aid_android mu_android ids_android (fun _ _ _ => None) false (fun _ => false)
    (init_globals_from_data_and_root_with (lit "/data/") (lit "/system/") (lit "/mnt/asec/"))
    profiles_view (fun _ _ => None) 1000 None 0 0 [] ∅ =
  Some (Sizes [0; 2 * (10 * 512); 0; 0; 0; 0]).
Proof. vm_compute. reflexivity. Qed.
