(* ===== verification/OtaParameters.v ===== *)
(** The command line of [otapreopt]: [installd/otapreopt_parameters.cpp].

    [OTAPreoptParameters::ReadArguments] decodes the arguments that the
    package manager of the running system sends to the [otapreopt] of the new
    one, in one of the formats of versions 1 to 10. The object is the record
    [params]; the fields a call does not reach keep their old values. A read
    past the null pointer that ends [argv] is undefined and makes the result
    [None]. *)

From S2P Require Import Prelude CLib.

Open Scope Z_scope.

(** * Parameters *)

Definition DEXOPT_PUBLIC : Z := Z.shiftl 1 1.
Definition DEXOPT_DEBUGGABLE : Z := Z.shiftl 1 2.
Definition DEXOPT_BOOTCOMPLETE : Z := Z.shiftl 1 3.
Definition DEXOPT_PROFILE_GUIDED : Z := Z.shiftl 1 4.
Definition DEXOPT_GENERATE_COMPACT_DEX : Z := Z.shiftl 1 11.

Record params := Params {
  apk_path : option str;
  uid : Z;
  pkgName : option str;
  instruction_set : option str;
  dexopt_needed : Z;
  oat_dir : option str;
  dexopt_flags : Z;
  compiler_filter : option str;
  volume_uuid : option str;
  shared_libraries : option str;
  se_info : option str;
  downgrade : bool;
  target_sdk_version : Z;
  profile_name : option str;
  dex_metadata_path : option str;
  compilation_reason : option str;
  target_slot : str;
}.

Definition ParseBool (s : str) : bool := s =s? lit "true".
Definition ParseNull (arg : str) : option str := if arg =s? lit "!" then None else Some arg.

Definition ParseUInt (s : str) : option Z :=
  match strtoll s 0 with
  | (_, None) => None
  | (result, Some rest) =>
      match rest with
      | _ :: _ => None
      | [] => if (result <? 0) || (2 ^ 32 - 1 <? result) then None else Some (u32 result)
      end
  end.

(** The regular expression [[a-zA-Z0-9_]+]. *)
Definition slot_char (c : ascii) : bool :=
  let n := code c in
  ((97 <=? n) && (n <=? 122)) || ((65 <=? n) && (n <=? 90)) || ((48 <=? n) && (n <=? 57)) || (n =? 95).

Definition ValidateTargetSlotSuffix (input : str) : bool :=
  match input with [] => false | _ => forallb slot_char input end.

Definition ReplaceMask (input old_mask new_mask : Z) : Z :=
  if nz (Z.land input old_mask) then new_mask else 0.

Definition SetDefaultsForPostV1Arguments (p : params) : params :=
  {| apk_path := apk_path p; uid := uid p; pkgName := pkgName p;
     instruction_set := instruction_set p; dexopt_needed := dexopt_needed p; oat_dir := oat_dir p;
     dexopt_flags := DEXOPT_GENERATE_COMPACT_DEX;
     compiler_filter := compiler_filter p; volume_uuid := volume_uuid p;
     shared_libraries := shared_libraries p;
     se_info := None; downgrade := false; target_sdk_version := 0;
     profile_name := Some (lit "primary.prof"); dex_metadata_path := None;
     compilation_reason := Some (lit "ab-ota"); target_slot := target_slot p |}.

(** ** One assignment per field *)

Definition set_apk_path p v := Params v (uid p) (pkgName p) (instruction_set p) (dexopt_needed
  p) (oat_dir p) (dexopt_flags p) (compiler_filter p) (volume_uuid p) (shared_libraries p)
  (se_info p) (downgrade p) (target_sdk_version p) (profile_name p) (dex_metadata_path p)
  (compilation_reason p) (target_slot p).
Definition set_uid p v := Params (apk_path p) v (pkgName p) (instruction_set p) (dexopt_needed
  p) (oat_dir p) (dexopt_flags p) (compiler_filter p) (volume_uuid p) (shared_libraries p)
  (se_info p) (downgrade p) (target_sdk_version p) (profile_name p) (dex_metadata_path p)
  (compilation_reason p) (target_slot p).
Definition set_pkgName p v := Params (apk_path p) (uid p) v (instruction_set p) (dexopt_needed
  p) (oat_dir p) (dexopt_flags p) (compiler_filter p) (volume_uuid p) (shared_libraries p)
  (se_info p) (downgrade p) (target_sdk_version p) (profile_name p) (dex_metadata_path p)
  (compilation_reason p) (target_slot p).
Definition set_instruction_set p v := Params (apk_path p) (uid p) (pkgName p) v (dexopt_needed
  p) (oat_dir p) (dexopt_flags p) (compiler_filter p) (volume_uuid p) (shared_libraries p)
  (se_info p) (downgrade p) (target_sdk_version p) (profile_name p) (dex_metadata_path p)
  (compilation_reason p) (target_slot p).
Definition set_dexopt_needed p v := Params (apk_path p) (uid p) (pkgName p) (instruction_set p)
  v (oat_dir p) (dexopt_flags p) (compiler_filter p) (volume_uuid p) (shared_libraries p)
  (se_info p) (downgrade p) (target_sdk_version p) (profile_name p) (dex_metadata_path p)
  (compilation_reason p) (target_slot p).
Definition set_oat_dir p v := Params (apk_path p) (uid p) (pkgName p) (instruction_set p)
  (dexopt_needed p) v (dexopt_flags p) (compiler_filter p) (volume_uuid p) (shared_libraries p)
  (se_info p) (downgrade p) (target_sdk_version p) (profile_name p) (dex_metadata_path p)
  (compilation_reason p) (target_slot p).
Definition set_dexopt_flags p v := Params (apk_path p) (uid p) (pkgName p) (instruction_set p)
  (dexopt_needed p) (oat_dir p) v (compiler_filter p) (volume_uuid p) (shared_libraries p)
  (se_info p) (downgrade p) (target_sdk_version p) (profile_name p) (dex_metadata_path p)
  (compilation_reason p) (target_slot p).
Definition set_compiler_filter p v := Params (apk_path p) (uid p) (pkgName p) (instruction_set
  p) (dexopt_needed p) (oat_dir p) (dexopt_flags p) v (volume_uuid p) (shared_libraries p)
  (se_info p) (downgrade p) (target_sdk_version p) (profile_name p) (dex_metadata_path p)
  (compilation_reason p) (target_slot p).
Definition set_volume_uuid p v := Params (apk_path p) (uid p) (pkgName p) (instruction_set p)
  (dexopt_needed p) (oat_dir p) (dexopt_flags p) (compiler_filter p) v (shared_libraries p)
  (se_info p) (downgrade p) (target_sdk_version p) (profile_name p) (dex_metadata_path p)
  (compilation_reason p) (target_slot p).
Definition set_shared_libraries p v := Params (apk_path p) (uid p) (pkgName p) (instruction_set
  p) (dexopt_needed p) (oat_dir p) (dexopt_flags p) (compiler_filter p) (volume_uuid p) v
  (se_info p) (downgrade p) (target_sdk_version p) (profile_name p) (dex_metadata_path p)
  (compilation_reason p) (target_slot p).
Definition set_se_info p v := Params (apk_path p) (uid p) (pkgName p) (instruction_set p)
  (dexopt_needed p) (oat_dir p) (dexopt_flags p) (compiler_filter p) (volume_uuid p)
  (shared_libraries p) v (downgrade p) (target_sdk_version p) (profile_name p)
  (dex_metadata_path p) (compilation_reason p) (target_slot p).
Definition set_downgrade p v := Params (apk_path p) (uid p) (pkgName p) (instruction_set p)
  (dexopt_needed p) (oat_dir p) (dexopt_flags p) (compiler_filter p) (volume_uuid p)
  (shared_libraries p) (se_info p) v (target_sdk_version p) (profile_name p) (dex_metadata_path
  p) (compilation_reason p) (target_slot p).
Definition set_target_sdk_version p v := Params (apk_path p) (uid p) (pkgName p)
  (instruction_set p) (dexopt_needed p) (oat_dir p) (dexopt_flags p) (compiler_filter p)
  (volume_uuid p) (shared_libraries p) (se_info p) (downgrade p) v (profile_name p)
  (dex_metadata_path p) (compilation_reason p) (target_slot p).
Definition set_profile_name p v := Params (apk_path p) (uid p) (pkgName p) (instruction_set p)
  (dexopt_needed p) (oat_dir p) (dexopt_flags p) (compiler_filter p) (volume_uuid p)
  (shared_libraries p) (se_info p) (downgrade p) (target_sdk_version p) v (dex_metadata_path p)
  (compilation_reason p) (target_slot p).
Definition set_dex_metadata_path p v := Params (apk_path p) (uid p) (pkgName p) (instruction_set
  p) (dexopt_needed p) (oat_dir p) (dexopt_flags p) (compiler_filter p) (volume_uuid p)
  (shared_libraries p) (se_info p) (downgrade p) (target_sdk_version p) (profile_name p) v
  (compilation_reason p) (target_slot p).
Definition set_compilation_reason p v := Params (apk_path p) (uid p) (pkgName p)
  (instruction_set p) (dexopt_needed p) (oat_dir p) (dexopt_flags p) (compiler_filter p)
  (volume_uuid p) (shared_libraries p) (se_info p) (downgrade p) (target_sdk_version p)
  (profile_name p) (dex_metadata_path p) v (target_slot p).
Definition set_target_slot p v := Params (apk_path p) (uid p) (pkgName p) (instruction_set p)
  (dexopt_needed p) (oat_dir p) (dexopt_flags p) (compiler_filter p) (volume_uuid p)
  (shared_libraries p) (se_info p) (downgrade p) (target_sdk_version p) (profile_name p)
  (dex_metadata_path p) (compilation_reason p) v.

(** * Reading *)

(** [argv[i]]: an argument, the null pointer after the last one, or a read
    out of bounds. *)
Inductive cell := Arg (s : str) | Null | Oob.

Definition argv_at (argv : list str) (i : nat) : cell :=
  match argv !! i with
  | Some s => Arg s
  | None => if (i =? length argv)%nat then Null else Oob
  end.

Section Read.
(* DEX2OAT_FROM_SCRATCH of the runtime's dexopt header *)
Context (DEX2OAT_FROM_SCRATCH : Z).

Definition OLD_DEXOPT_PUBLIC : Z := Z.shiftl 1 1.
Definition OLD_DEXOPT_DEBUGGABLE : Z := Z.shiftl 1 3.
Definition OLD_DEXOPT_BOOTCOMPLETE : Z := Z.shiftl 1 4.
Definition OLD_DEXOPT_PROFILE_GUIDED : Z := Z.shiftl 1 5.
Definition OLD_DEXOPT_OTA : Z := Z.shiftl 1 6.

(** The switch of [ReadArgumentsV1]; [None] is its default. *)
Definition v1_case (i : nat) (param : str) (p : params) : option params :=
  match i with
  | 0%nat => Some (set_apk_path p (Some param))
  | 1%nat => Some (set_uid p (u32 (atoi param)))
  | 2%nat => Some (set_pkgName p (Some param))
  | 3%nat => Some (set_instruction_set p (Some param))
  | 4%nat => Some (set_dexopt_needed p DEX2OAT_FROM_SCRATCH)
  | 5%nat => Some (set_oat_dir p (Some param))
  | 6%nat =>
      let input := atoi param in
      Some (set_dexopt_flags p
        (Z.lor (dexopt_flags p)
          (Z.lor (Z.lor (Z.lor (Z.lor
             (ReplaceMask input OLD_DEXOPT_PUBLIC DEXOPT_PUBLIC)
             (ReplaceMask input OLD_DEXOPT_DEBUGGABLE DEXOPT_DEBUGGABLE))
             (ReplaceMask input OLD_DEXOPT_BOOTCOMPLETE DEXOPT_BOOTCOMPLETE))
             (ReplaceMask input OLD_DEXOPT_PROFILE_GUIDED DEXOPT_PROFILE_GUIDED))
             (ReplaceMask input OLD_DEXOPT_OTA 0))))
  | 7%nat => Some (set_compiler_filter p (Some param))
  | 8%nat => Some (set_volume_uuid p (ParseNull param))
  | 9%nat => Some (set_shared_libraries p (ParseNull param))
  | _ => None
  end.

(** [for (;; ++param_index)] over the arguments from [argv[3]] on. *)
Fixpoint v1_loop (i : nat) (args : list str) (p : params) : bool * params :=
  match args with
  | [] => ((i =? 10)%nat, p)
  | param :: args' =>
      match v1_case i param p with
      | Some p' => v1_loop (S i) args' p'
      | None => (false, p)
      end
  end.

Definition ReadArgumentsV1 (argv : list str) (p : params) : option (bool * params) :=
  match argv_at argv 2 with
  | Oob => None
  | Null => Some (false, p)
  | Arg d =>
      if negb (lit "dexopt" =s? d) then Some (false, p)
      else
        let p := SetDefaultsForPostV1Arguments p in
        if (3 <=? length argv)%nat then Some (v1_loop 0 (drop 3 argv) p) else None
  end.

(** The switch of [ReadArgumentsPostV1]; [None] is [LOG(FATAL)]. *)
Definition post_v1_case (version : Z) (i : nat) (param : str) (p : params) : option params :=
  match i with
  | 0%nat => Some (set_apk_path p (Some param))
  | 1%nat => Some (set_uid p (u32 (atoi param)))
  | 2%nat => Some (set_pkgName p (Some param))
  | 3%nat => Some (set_instruction_set p (Some param))
  | 4%nat => Some (set_dexopt_needed p (atoi param))
  | 5%nat => Some (set_oat_dir p (Some param))
  | 6%nat =>
      let p := set_dexopt_flags p (atoi param) in
      Some (set_dexopt_flags p
              (Z.lor (dexopt_flags p) (if version <? 8 then DEXOPT_GENERATE_COMPACT_DEX else 0)))
  | 7%nat => Some (set_compiler_filter p (Some param))
  | 8%nat => Some (set_volume_uuid p (ParseNull param))
  | 9%nat => Some (set_shared_libraries p (ParseNull param))
  | 10%nat => Some (set_se_info p (ParseNull param))
  | 11%nat => Some (set_downgrade p (ParseBool param))
  | 12%nat => Some (set_target_sdk_version p (atoi param))
  | 13%nat => Some (set_profile_name p (ParseNull param))
  | 14%nat => Some (set_dex_metadata_path p (ParseNull param))
  | 15%nat => Some (set_compilation_reason p (ParseNull param))
  | _ => None
  end.

Fixpoint post_v1_loop (version : Z) (i : nat) (args : list str) (p : params) : option params :=
  match args with
  | [] => Some p
  | param :: args' =>
      match post_v1_case version i param p with
      | Some p' => post_v1_loop version (S i) args' p'
      | None => None
      end
  end.

Definition num_args_expected (version : Z) : option nat :=
  if version =? 2 then Some 11%nat
  else if version =? 3 then Some 12%nat
  else if version =? 4 then Some 13%nat
  else if version =? 5 then Some 14%nat
  else if version =? 6 then Some 15%nat
  else if (version =? 7) || (version =? 8) then Some 16%nat
  else if version =? 9 then Some 16%nat
  else if version =? 10 then Some 16%nat
  else None.

Definition ReadArgumentsPostV1 (version : Z) (argv : list str) (versioned : bool) (p : params)
    : option (bool * params) :=
  match num_args_expected version with
  | None => Some (false, p)
  | Some expected =>
      let dexopt_index := if versioned then 3%nat else 2%nat in
      match argv_at argv dexopt_index with
      | Oob => None
      | Null => Some (false, p)
      | Arg d =>
          if negb (lit "dexopt" =s? d) then Some (false, p)
          else
            let args := drop (dexopt_index + 1) argv in
            if negb (length args =? expected)%nat then Some (false, p)
            else
              match post_v1_loop version 0 args (SetDefaultsForPostV1Arguments p) with
              | None => None
              | Some p =>
                  if (version <? 10)
                     && match shared_libraries p with Some l => lit "&" =s? l | None => false end
                  then Some (false, p)
                  else Some (true, p)
              end
      end
  end.

Definition kV2ArgCount : nat := 14.

Definition ReadArguments (argc : nat) (argv : list str) (p : params) : option (bool * params) :=
  match argv_at argv 1 with
  | Oob => None
  | Null => Some (false, p)
  | Arg slot =>
      let p := set_target_slot p slot in
      if negb (ValidateTargetSlotSuffix slot) then Some (false, p)
      else
        match argv_at argv 2 with
        | Oob => None
        | Null => Some (false, p)
        | Arg a2 =>
            if lit "dexopt" =s? a2 then
              if (argc =? kV2ArgCount)%nat then ReadArgumentsPostV1 2 argv false p
              else ReadArgumentsV1 argv p
            else
              match ParseUInt a2 with
              | None => Some (false, p)
              | Some version => ReadArgumentsPostV1 version argv true p
              end
        end
  end.

End Read.

(** * Reference definitions *)

Definition arg (args : list str) (i : nat) : str := default [] (args !! i).

(** The parameters a complete post-V1 argument list stands for: the ones a
    version does not send have their defaults. *)
Definition post_v1_params (version : Z) (args : list str) (slot : str) : params :=
  let has i := (i <? length args)%nat in
  {| apk_path := Some (arg args 0); uid := u32 (atoi (arg args 1)); pkgName := Some (arg args 2);
     instruction_set := Some (arg args 3); dexopt_needed := atoi (arg args 4);
     oat_dir := Some (arg args 5);
     dexopt_flags := Z.lor (atoi (arg args 6))
                           (if version <? 8 then DEXOPT_GENERATE_COMPACT_DEX else 0);
     compiler_filter := Some (arg args 7); volume_uuid := ParseNull (arg args 8);
     shared_libraries := ParseNull (arg args 9); se_info := ParseNull (arg args 10);
     downgrade := if has 11%nat then ParseBool (arg args 11) else false;
     target_sdk_version := if has 12%nat then atoi (arg args 12) else 0;
     profile_name := if has 13%nat then ParseNull (arg args 13) else Some (lit "primary.prof");
     dex_metadata_path := if has 14%nat then ParseNull (arg args 14) else None;
     compilation_reason := if has 15%nat then ParseNull (arg args 15) else Some (lit "ab-ota");
     target_slot := slot |}.

(** The bit of the flags of version 1 that stands for each flag. *)
Definition v1_flag_bits : list (Z * Z) := [(1, 1); (3, 2); (4, 3); (5, 4)].

(** The parameters of a version 1 argument list. *)
Definition v1_params (scratch : Z) (args : list str) (slot : str) : params :=
  {| apk_path := Some (arg args 0); uid := u32 (atoi (arg args 1)); pkgName := Some (arg args 2);
     instruction_set := Some (arg args 3); dexopt_needed := scratch;
     oat_dir := Some (arg args 5);
     dexopt_flags :=
       foldr (fun b acc =>
                if Z.testbit (atoi (arg args 6)) (fst b) then Z.setbit acc (snd b) else acc)
             DEXOPT_GENERATE_COMPACT_DEX v1_flag_bits;
     compiler_filter := Some (arg args 7); volume_uuid := ParseNull (arg args 8);
     shared_libraries := ParseNull (arg args 9); se_info := None;
     downgrade := false; target_sdk_version := 0;
     profile_name := Some (lit "primary.prof"); dex_metadata_path := None;
     compilation_reason := Some (lit "ab-ota"); target_slot := slot |}.

(** A conventional argument vector: the slot suffix of a valid name first. *)
Definition slot_valid (s : str) : Prop := s <> [] /\ Forall (fun c => slot_char c = true) s.

(** * Helper lemmas *)

Lemma argv_at_nth argv i s : argv_at argv i = Arg s <-> argv !! i = Some s.
Proof.
  unfold argv_at. destruct (argv !! i); [split; by intros [= ->]|].
  split; [|done]. by destruct (i =? length argv)%nat.
Qed.

Lemma argv_at_in_bounds argv i : (i <= length argv)%nat -> argv_at argv i <> Oob.
Proof.
  intros Hi. unfold argv_at. destruct (argv !! i) eqn:E; [done|].
  apply lookup_ge_None in E. by rewrite (proj2 (Nat.eqb_eq _ _)) by lia.
Qed.

Lemma argv_at_last argv i s : argv_at argv i = Arg s -> (S i <= length argv)%nat.
Proof. intros H%argv_at_nth%lookup_lt_Some. lia. Qed.

Lemma ValidateTargetSlotSuffix_spec s : ValidateTargetSlotSuffix s = true <-> slot_valid s.
Proof.
  unfold ValidateTargetSlotSuffix, slot_valid. destruct s as [|c s]; [by split; [|intros []]|].
  rewrite forallb_forall, List.Forall_forall. by split; [|intros [_ ?]].
Qed.

(** A list whose length is between two constants, as its elements. *)
Ltac explode args H :=
  let x := fresh "a" in
  destruct args as [|x args]; cbn [length] in H; [try (exfalso; lia)|try (explode args H)].

Lemma post_v1_loop_spec version args p :
  (11 <= length args <= 16)%nat ->
  post_v1_loop version 0 args (SetDefaultsForPostV1Arguments p) =
  Some (post_v1_params version args (target_slot p)).
Proof.
  intros H. do 11 (destruct args as [|? args]; [simpl in H; lia|]).
  do 5 (destruct args as [|? args]; [reflexivity|]).
  destruct args; [reflexivity|simpl in H; lia].
Qed.

Lemma num_args_expected_spec version n :
  num_args_expected version = Some n <->
  2 <= version <= 10 /\ Z.of_nat n = Z.min (version + 9) 16.
Proof.
  unfold num_args_expected. split.
  - repeat (dm; bool_props); intros [= <-]; try lia.
  - intros [Hv Hn]. assert (n = Z.to_nat (Z.min (version + 9) 16)) as -> by lia.
    assert (version = 2 \/ version = 3 \/ version = 4 \/ version = 5 \/ version = 6 \/ version = 7
            \/ version = 8 \/ version = 9 \/ version = 10) as Hc by lia.
    destruct_or? Hc; subst; reflexivity.
Qed.

Lemma num_args_expected_bounds version n : num_args_expected version = Some n -> (11 <= n <= 16)%nat.
Proof. intros H. apply num_args_expected_spec in H. lia. Qed.

Lemma ReadArgumentsPostV1_total version argv (versioned : bool) p :
  ((if versioned then 3 else 2) <= length argv)%nat ->
  is_Some (ReadArgumentsPostV1 version argv versioned p).
Proof.
  intros Hi. unfold ReadArgumentsPostV1. destruct (num_args_expected version) eqn:E; [|eauto].
  apply num_args_expected_bounds in E.
  pose proof (argv_at_in_bounds argv (if versioned then 3 else 2)%nat).
  repeat (dm; bool_props); eauto; [|tauto].
  rewrite post_v1_loop_spec in * by lia. done.
Qed.

(** A mask of one bit tests that bit. *)
Lemma ReplaceMask_bit input k m :
  0 <= k -> ReplaceMask input (Z.shiftl 1 k) m = if Z.testbit input k then m else 0.
Proof.
  intros Hk. unfold ReplaceMask, nz. rewrite Z.shiftl_1_l.
  assert (Z.land input (2 ^ k) = if Z.testbit input k then 2 ^ k else 0) as ->.
  { apply Z.bits_inj'. intros i Hi. rewrite Z.land_spec, Z.pow2_bits_eqb by lia.
    destruct (Z.eqb_spec k i) as [->|Hne].
    - destruct (Z.testbit input i); simpl; [by rewrite Z.pow2_bits_true|by rewrite Z.bits_0].
    - rewrite andb_false_r.
      destruct (Z.testbit input k); [by rewrite Z.pow2_bits_false by lia|by rewrite Z.bits_0]. }
  destruct (Z.testbit input k); [|done].
  pose proof (Z.pow_pos_nonneg 2 k ltac:(lia) Hk). destruct (Z.eqb_spec (2 ^ k) 0); [lia|done].
Qed.

Lemma v1_flags_spec input :
  Z.lor DEXOPT_GENERATE_COMPACT_DEX
    (Z.lor (Z.lor (Z.lor (Z.lor
       (ReplaceMask input OLD_DEXOPT_PUBLIC DEXOPT_PUBLIC)
       (ReplaceMask input OLD_DEXOPT_DEBUGGABLE DEXOPT_DEBUGGABLE))
       (ReplaceMask input OLD_DEXOPT_BOOTCOMPLETE DEXOPT_BOOTCOMPLETE))
       (ReplaceMask input OLD_DEXOPT_PROFILE_GUIDED DEXOPT_PROFILE_GUIDED))
       (ReplaceMask input OLD_DEXOPT_OTA 0)) =
  foldr (fun b acc => if Z.testbit input (fst b) then Z.setbit acc (snd b) else acc)
        DEXOPT_GENERATE_COMPACT_DEX v1_flag_bits.
Proof.
  unfold OLD_DEXOPT_PUBLIC, OLD_DEXOPT_DEBUGGABLE, OLD_DEXOPT_BOOTCOMPLETE,
    OLD_DEXOPT_PROFILE_GUIDED, OLD_DEXOPT_OTA.
  rewrite !ReplaceMask_bit by lia. cbn [v1_flag_bits foldr fst snd].
  by destruct (Z.testbit input 1), (Z.testbit input 3), (Z.testbit input 4),
    (Z.testbit input 5), (Z.testbit input 6).
Qed.

(** The loop of version 1 succeeds on ten arguments and on no other number. *)
Lemma v1_loop_spec scratch args p :
  length args = 10%nat ->
  v1_loop scratch 0 args (SetDefaultsForPostV1Arguments p) =
  (true, v1_params scratch args (target_slot p)).
Proof.
  intros H. do 10 (destruct args as [|? args]; [simpl in H; lia|]).
  destruct args; [|simpl in H; lia]. unfold v1_params.
  rewrite <- v1_flags_spec. reflexivity.
Qed.

Lemma v1_loop_fails scratch i args p p' :
  (i <= 10)%nat -> v1_loop scratch i args p = (true, p') -> (i + length args = 10)%nat.
Proof.
  revert i p. induction args as [|a args IH]; intros i p Hi H; simpl in *.
  - injection H as H _. bool_props. lia.
  - destruct (v1_case scratch i a p) as [q|] eqn:E; [|done].
    assert (i <> 10)%nat by (intros ->; done).
    apply IH in H; lia.
Qed.

Lemma ReadArgumentsV1_total scratch argv p :
  (2 <= length argv)%nat -> is_Some (ReadArgumentsV1 scratch argv p).
Proof.
  intros Hi. unfold ReadArgumentsV1. pose proof (argv_at_in_bounds argv 2 Hi).
  destruct (argv_at argv 2) eqn:E; [|eauto|done]. dm; [eauto|].
  apply argv_at_last in E. rewrite (proj2 (Nat.leb_le _ _)) by lia. eauto.
Qed.

(** The test for ["&"] after the loop. *)
Lemma amp_before_10 version l :
  (version <? 10) && match ParseNull l with Some l => lit "&" =s? l | None => false end =
  bool_decide (version < 10 /\ l = lit "&").
Proof.
  unfold ParseNull. destruct (l =s? lit "!") eqn:E.
  - apply str_eqb_eq in E as ->. rewrite andb_false_r. symmetry. apply bool_decide_eq_false.
    by intros [_ [=]].
  - destruct (Z.ltb_spec version 10); symmetry; [|apply bool_decide_eq_false; lia].
    destruct (lit "&" =s? l) eqn:Ea.
    + apply str_eqb_eq in Ea as <-. by apply bool_decide_eq_true.
    + apply str_eqb_neq in Ea. apply bool_decide_eq_false. by intros [_ ->].
Qed.

(** * Properties *)

(** [ReadArgumentsPostV1] accepts exactly the complete argument lists of
    the versions 2 to 10: [dexopt] where the caller says it is, then version + 9
    arguments (16 from version 7 on), and no ["&"] as shared libraries before
    version 10. The object then holds the arguments in the fields their
    positions stand for, and the defaults of an OTA in the ones the version
    does not send, whatever it held before. *)
Theorem post_v1_arguments_spec version argv (versioned : bool) p p' :
  let index := if versioned then 3%nat else 2%nat in
  let args := drop (index + 1) argv in
  ReadArgumentsPostV1 version argv versioned p = Some (true, p') <->
  2 <= version <= 10 /\ argv !! index = Some (lit "dexopt") /\
  Z.of_nat (length args) = Z.min (version + 9) 16 /\
  (version < 10 -> arg args 9 <> lit "&") /\
  p' = post_v1_params version args (target_slot p).
Proof.
  intros index args. unfold ReadArgumentsPostV1. fold index.
  destruct (num_args_expected version) as [n|] eqn:En.
  2: { split; [done|]. intros (Hv & _ & Hl & _).
       assert (num_args_expected version = Some (length args)) by by apply num_args_expected_spec.
       congruence. }
  pose proof (num_args_expected_bounds _ _ En) as Hb. apply num_args_expected_spec in En as [Hv Hn].
  destruct (argv_at argv index) as [d| |] eqn:Ed.
  2,3: split; [done|]; intros (_ & Hd & _); apply argv_at_nth in Hd; congruence.
  apply argv_at_nth in Ed. rewrite Ed. fold args.
  destruct (lit "dexopt" =s? d) eqn:Es; cbn [negb].
  2: { split; [done|]. intros (_ & [= ->] & _). by rewrite str_eqb_refl in Es. }
  apply str_eqb_eq in Es as <-.
  destruct (length args =? n)%nat eqn:El; cbn [negb]; bool_props.
  2: { split; [done|]. intros (_ & _ & Hl & _). lia. }
  rewrite post_v1_loop_spec by lia. cbn [shared_libraries post_v1_params].
  rewrite amp_before_10. case_bool_decide as Hamp.
  - split; [done|]. intros (_ & _ & _ & Hno & _). destruct Hamp as [? Hamp]. by apply Hno in Hamp.
  - split.
    + intros [= <-]. split_and!; [lia..|done|lia|tauto|done].
    + by intros (_ & _ & _ & _ & ->).
Qed.

(** [ReadArguments] returns on every argument vector that names the
    program: no read past the null pointer that ends it, and never the fatal
    branch of the switch. *)
Theorem read_arguments_total scratch argc argv p :
  (1 <= length argv)%nat -> is_Some (ReadArguments scratch argc argv p).
Proof.
  intros Hl. unfold ReadArguments.
  pose proof (argv_at_in_bounds argv 1 Hl). destruct (argv_at argv 1) eqn:E1; [|eauto|done].
  apply argv_at_last in E1. dm; [eauto|].
  pose proof (argv_at_in_bounds argv 2 E1). destruct (argv_at argv 2) eqn:E2; [|eauto|done].
  apply argv_at_last in E2. repeat dm; eauto using ReadArgumentsV1_total.
  - by apply ReadArgumentsPostV1_total.
  - by apply ReadArgumentsPostV1_total.
Qed.

(** A vector whose third element is [dexopt] is accepted as version 1
    exactly with ten arguments after it, and under a legal slot suffix. The
    flags of the old numbering become the ones of the new, with compact dex
    enabled, the need for [dex2oat] is forced, and the other fields are the
    arguments or the defaults of an OTA. *)
Theorem v1_arguments_spec scratch argv p p' :
  argv !! 2%nat = Some (lit "dexopt") -> length argv <> kV2ArgCount ->
  let slot := arg argv 1 in
  let args := drop 3 argv in
  ReadArguments scratch (length argv) argv p = Some (true, p') <->
  slot_valid slot /\ length args = 10%nat /\ p' = v1_params scratch args slot.
Proof.
  intros Hd Hl slot args. pose proof (lookup_lt_Some _ _ _ Hd).
  destruct (lookup_lt_is_Some_2 argv 1 ltac:(lia)) as [sl Hsl].
  assert (slot = sl) as -> by (unfold slot, arg; by rewrite Hsl).
  unfold ReadArguments, ReadArgumentsV1.
  rewrite (proj2 (argv_at_nth argv 1 sl) Hsl), (proj2 (argv_at_nth argv 2 _) Hd), !str_eqb_refl.
  rewrite (proj2 (Nat.eqb_neq _ _) Hl), (proj2 (Nat.leb_le 3 _)) by lia. cbn [negb]. fold args.
  rewrite <- ValidateTargetSlotSuffix_spec.
  destruct (ValidateTargetSlotSuffix sl); cbn [negb]; [|by split; [|intros [? _]]].
  split.
  - intros [= Hv]. pose proof (v1_loop_fails _ 0 _ _ _ (Nat.le_0_l _) Hv) as Hn. simpl in Hn.
    rewrite v1_loop_spec in Hv by done. by injection Hv as <-.
  - intros (_ & Hn & ->). by rewrite v1_loop_spec.
Qed.

(** * Witnesses *)

Definition example_v1 : list str :=
  lit <$> ["otapreopt"; "_b"; "dexopt"; "/data/app/a/base.apk"; "10003"; "com.a"; "arm"; "1"; "!";
           "42"; "speed"; "!"; "&"]%string.

Lemma read_arguments_total_witness :
  (1 <= length example_v1)%nat /\
  is_Some (ReadArguments 1 13 example_v1 (v1_params 0 [] [])).
Proof.
  split; [apply Nat.leb_le; reflexivity|].
  apply (read_arguments_total 1 13 example_v1 (v1_params 0 [] [])). apply Nat.leb_le. reflexivity.
Defined.

Lemma v1_arguments_spec_witness :
  ReadArguments 1 (length example_v1) example_v1 (v1_params 0 [] []) =
  Some (true, v1_params 1 (drop 3 example_v1) (lit "_b")) /\
  dexopt_flags (v1_params 1 (drop 3 example_v1) (lit "_b")) = 2 + 4 + 16 + 2048 /\
  shared_libraries (v1_params 1 (drop 3 example_v1) (lit "_b")) = Some (lit "&").
Proof.
  split; [|by split; vm_compute].
  apply (v1_arguments_spec 1 example_v1 (v1_params 0 [] []));
    [reflexivity|discriminate|split_and!; [|reflexivity|reflexivity]].
  apply ValidateTargetSlotSuffix_spec. reflexivity.
Defined.
