(* ===== verification/DexPaths.v ===== *)
(** The paths of compiled code: the path computations of
    [installd/dexopt.cpp], and those of [installd/otapreopt.cpp], which
    replaces three of them.

    The compiler of the running system writes to [<oat_dir>/<isa>/<name>.odex]
    or into the dalvik cache; [otapreopt] writes the same names with the
    target slot behind them, and [move_ab] renames them after the update. The
    three functions that the two programs implement differently are the
    fields of the class [OatPaths]. *)

From S2P Require Import Prelude InstalldPaths OtaParameters.

Open Scope Z_scope.

(** * Strings *)

(** [s.rfind(c, end)]: the last occurrence at or before [end]. *)
Definition rfind_upto (c : ascii) (s : str) (en : option nat) : option nat :=
  rfind_char c (match en with Some n => take (S n) s | None => s end).

(** [s.rfind(sub)]. *)
Fixpoint rfind_sub_aux (sub s : str) (i : nat) (best : option nat) : option nat :=
  let best' := if prefixb sub s then Some i else best in
  match s with [] => best' | _ :: s' => rfind_sub_aux sub s' (S i) best' end.
Definition rfind_sub (sub s : str) : option nat := rfind_sub_aux sub s 0 None.

(** A buffer of [PKG_PATH_MAX] bytes filled by [snprintf]. *)
Definition path_buffer (s : str) : str := take (PKG_PATH_MAX - 1) s.

(** * Names *)

Definition get_location_from_path (path : str) : str :=
  match rfind_char slash path with Some i => drop (S i) path | None => path end.

(** [None]: a [CHECK] failed. The empty string denotes an error. *)
Definition replace_file_extension (oat_path new_ext : str) : option str :=
  if ends_with oat_path (lit ".dex") then
    let new_path := take (length oat_path - length (lit ".dex")) oat_path ++ new_ext in
    if ends_with new_path new_ext then Some new_path else None
  else
    match rfind_sub (lit ".odex") oat_path with
    | Some i =>
        let new_path := take i oat_path ++ new_ext ++ drop (i + length (lit ".odex")) oat_path in
        if has_substr new_ext new_path then Some new_path else None
    | None => Some []
    end.

Definition create_image_filename (oat_path : str) : option str := replace_file_extension oat_path (lit ".art").
Definition create_vdex_filename (oat_path : str) : option str := replace_file_extension oat_path (lit ".vdex").

Definition is_absolute_path (path : str) : bool :=
  match find_char slash path 0 with Some O => negb (has_substr (lit "..") path) | _ => false end.

Definition is_valid_instruction_set (instruction_set : str) : bool :=
  match find_char slash instruction_set 0 with Some _ => false | None => true end.

(** [start] and [end] of the file name in the path of an apk. *)
Definition stem_bounds (apk_path : str) : option (nat * nat) :=
  let en := rfind_char dot apk_path in
  match en, rfind_upto slash apk_path en with
  | Some e, Some s => Some (s, e)
  | _, _ => None
  end.

Definition fits (res : str) : option str := if (PKG_PATH_MAX <=? length res)%nat then None else Some res.

Definition calculate_oat_file_path_default (oat_dir apk_path instruction_set : str) : option str :=
  if negb (is_absolute_path oat_dir) then None
  else if negb (is_absolute_path apk_path) then None
  else if negb (is_valid_instruction_set instruction_set) then None
  else
    match stem_bounds apk_path with
    | None => None
    | Some (s, e) =>
        fits (oat_dir ++ lit "/" ++ instruction_set ++ lit "/" ++ take (e - s - 1) (drop (S s) apk_path) ++ lit ".odex")
    end.

Definition calculate_odex_file_path_default (apk_path instruction_set : str) : option str :=
  if negb (is_absolute_path apk_path) then None
  else if negb (is_valid_instruction_set instruction_set) then None
  else
    match stem_bounds apk_path with
    | None => None
    | Some (s, _) => calculate_oat_file_path_default (take (S s) apk_path ++ lit "oat") apk_path instruction_set
    end.

Definition DALVIK_CACHE : str := lit "dalvik-cache".
Definition DALVIK_CACHE_POSTFIX : str := lit "@classes.dex".

Definition at_sign : ascii := "@"%char.
Definition flatten_char (c : ascii) : ascii := if Ascii.eqb c slash then at_sign else c.

Definition create_cache_path_default (G : globals) (src instruction_set : str) : option str :=
  if negb (is_absolute_path src) then None
  else if negb (is_valid_instruction_set instruction_set) then None
  else fits (android_data_dir G ++ DALVIK_CACHE ++ lit "/" ++ instruction_set ++
             (take 1 src ++ map flatten_char (drop 1 src)) ++ DALVIK_CACHE_POSTFIX).

(** * The functions that a program plugs in *)

Class OatPaths := {
  calculate_oat_file_path : str -> str -> str -> option str;
  calculate_odex_file_path : str -> str -> option str;
  create_cache_path : str -> str -> option str;
}.

(** [installd.cpp]. *)
Definition installd_paths (G : globals) : OatPaths := {|
  calculate_oat_file_path := calculate_oat_file_path_default;
  calculate_odex_file_path := calculate_odex_file_path_default;
  create_cache_path := create_cache_path_default G;
|}.

Section Ota.
(* ANDROID_DATA of init.environ.rc, GetTargetSlot() *)
Context (android_data slot : str).

Definition GetOTADataDirectory : str := (android_data ++ lit "/ota") ++ lit "/" ++ slot.

(** The file name between the last slash and the last dot behind it. *)
Definition ota_stem (apk_path : str) : option (str * str) :=
  match rfind_char slash apk_path with
  | None => None
  | Some s =>
      let name := drop (S s) apk_path in
      match rfind_char dot name with
      | None => None
      | Some e => Some (take s apk_path, take e name)
      end
  end.

Definition ota_calculate_oat_file_path (oat_dir apk_path instruction_set : str) : option str :=
  match ota_stem apk_path with
  | None => None
  | Some (_, file_name) =>
      Some (path_buffer (oat_dir ++ lit "/" ++ instruction_set ++ lit "/" ++ file_name ++ lit ".odex." ++ slot))
  end.

Definition ota_calculate_odex_file_path (apk_path instruction_set : str) : option str :=
  match ota_stem apk_path with
  | None => None
  | Some (path_component, name_component) =>
      fits (path_component ++ lit "/oat/" ++ instruction_set ++ lit "/" ++ name_component ++ lit ".odex." ++ slot)
  end.

Definition ota_create_cache_path (src instruction_set : str) : option str :=
  if negb (prefixb (lit "/") src) || has_substr (lit "..") src then None
  else if (PKG_PATH_MAX <? length src)%nat then None
  else
    let assembled_path := GetOTADataDirectory ++ lit "/" ++ DALVIK_CACHE ++ lit "/" ++ instruction_set ++ lit "/" ++
      map flatten_char (drop 1 src) ++ DALVIK_CACHE_POSTFIX in
    if (PKG_PATH_MAX <? length assembled_path + 1)%nat then None else Some assembled_path.

Definition otapreopt_paths : OatPaths := {|
  calculate_oat_file_path := ota_calculate_oat_file_path;
  calculate_odex_file_path := ota_calculate_odex_file_path;
  create_cache_path := ota_create_cache_path;
|}.

End Ota.

(** * Output paths *)

Definition IsOutputDalvikCache (oat_dir : option str) : bool :=
  match oat_dir with None => true | Some d => prefixb (lit "!") d end.

Definition validate_dex_path_size (dex_path : str) : bool := negb (PKG_PATH_MAX - 8 <=? length dex_path)%nat.

(** [None]: [validate_apk_path] did not end ([validate_apk_path_spec] rules it
    out). *)
Definition create_oat_out_path `{OatPaths} (G : globals) (apk_path instruction_set : str) (oat_dir : option str)
    (is_secondary_dex : bool) : option (option str) :=
  if negb (validate_dex_path_size apk_path) then Some None
  else
    match (if IsOutputDalvikCache oat_dir then None else oat_dir) with
    | Some d =>
        valid ← (if is_secondary_dex then Some 0 else validate_apk_path G d);
        Some (if nz valid then None else calculate_oat_file_path d apk_path instruction_set)
    | None => Some (create_cache_path apk_path instruction_set)
    end.

(** * The reference *)

(** The path of an apk, cut around the name that its compiled code gets. The
    extension may hold a slash: an apk without an extension borrows the dot of
    a directory. *)
Definition apk_parts (apk_path dir stem ext : str) : Prop :=
  apk_path = dir ++ slash :: stem ++ dot :: ext /\ slash ∉ stem /\ dot ∉ ext.

Definition odex_path (oat_dir isa stem : str) : str :=
  oat_dir ++ slash :: isa ++ slash :: stem ++ lit ".odex".

Definition clean_path (p : str) : Prop := (exists t, p = slash :: t) /\ has_substr (lit "..") p = false.

(** What the dalvik cache path of a source without [@] says of it. *)
Definition cache_source (G : globals) (isa p : str) : str :=
  let name := drop (length (android_data_dir G ++ DALVIK_CACHE ++ lit "/" ++ isa)) p in
  map (fun c => if Ascii.eqb c at_sign then slash else c) (take (length name - length DALVIK_CACHE_POSTFIX) name).

(** * Lemmas *)

Lemma is_absolute_spec p : is_absolute_path p = true <-> clean_path p.
Proof.
  unfold is_absolute_path, clean_path. destruct p as [|c t]; [split; [done|by intros [[? ?] _]]|].
  unfold find_char. cbn [drop find_char_aux]. destruct (Ascii.eqb c slash) eqn:E.
  - apply Ascii.eqb_eq in E as ->. rewrite negb_true_iff. split; [intros H; split; [by exists t|done]|by intros [_ ?]].
  - split.
    + destruct (find_char_aux slash t 1) as [[|n]|] eqn:F; [|done..].
      by apply find_char_aux_Some in F as (a & b & _ & _ & ?).
    + intros [[t' [= -> _]] _]. by rewrite ascii_eqb_refl in E.
Qed.

Lemma is_valid_isa_spec isa : is_valid_instruction_set isa = true <-> slash ∉ isa.
Proof.
  unfold is_valid_instruction_set. rewrite <- find_char_None. by destruct (find_char slash isa 0).
Qed.

Lemma take_through (a : str) c b : take (S (length a)) (a ++ c :: b) = a ++ [c].
Proof. induction a as [|x a IH]; [done|]. cbn [length app]. by rewrite <- IH. Qed.

Lemma drop_through (a : str) c b : drop (S (length a)) (a ++ c :: b) = b.
Proof. by induction a as [|x a IH]. Qed.

Lemma stem_bounds_spec apk s e :
  stem_bounds apk = Some (s, e) <->
  exists dir stem ext, apk_parts apk dir stem ext /\ s = length dir /\ e = (length dir + 1 + length stem)%nat.
Proof.
  unfold stem_bounds, rfind_upto. split.
  - destruct (rfind_char dot apk) as [e'|] eqn:E; [|done].
    apply rfind_char_Some in E as (a & ext & -> & Hext & ->).
    rewrite (take_through a).
    destruct (rfind_char slash (a ++ [dot])) as [s'|] eqn:F; [|done]. intros [= <- <-].
    apply rfind_char_Some in F as (dir & b & Hb & Hs & ->).
    destruct (exists_last (l := b)) as (stem & x & ->).
    { intros ->. apply (f_equal last) in Hb. rewrite !last_snoc in Hb. done. }
    rewrite app_comm_cons, app_assoc in Hb. apply app_inj_tail in Hb as [-> <-].
    exists dir, stem, ext. split_and!; [split_and!|done|rewrite length_app; simpl; lia].
    + by rewrite <- !app_assoc.
    + intros Hin. apply Hs, elem_of_app. by left.
    + done.
  - intros (dir & stem & ext & (-> & Hs & Hext) & -> & ->).
    assert (Hd : rfind_char dot (dir ++ slash :: stem ++ dot :: ext) = Some (length dir + 1 + length stem)%nat).
    { apply rfind_char_Some. exists (dir ++ slash :: stem), ext. rewrite <- app_assoc.
      split_and!; [done..|rewrite length_app; simpl; lia]. }
    rewrite Hd.
    replace (length dir + 1 + length stem)%nat with (length (dir ++ slash :: stem)) by (rewrite length_app; simpl; lia).
    rewrite app_comm_cons, (app_assoc dir), take_through.
    erewrite (proj2 (rfind_char_Some _ _ (length dir))); [done|]. exists dir, (stem ++ [dot]).
    rewrite <- app_assoc. split_and!; [done| |done]. intros [?|?%list_elem_of_singleton]%elem_of_app; [done|by discriminate].
Qed.

Lemma stem_of_parts (dir stem ext : str) :
  take (length dir + 1 + length stem - length dir - 1) (drop (S (length dir)) (dir ++ slash :: stem ++ dot :: ext)) = stem.
Proof.
  change (slash :: stem ++ dot :: ext) with ([slash] ++ stem ++ dot :: ext). rewrite app_assoc.
  rewrite drop_app_length' by (rewrite length_app; simpl; lia). by rewrite take_app_length' by lia.
Qed.

Lemma fits_spec r p : fits r = Some p <-> p = r /\ (length r < PKG_PATH_MAX)%nat.
Proof.
  unfold fits. destruct (Nat.leb_spec PKG_PATH_MAX (length r)); split; [done|lia|by intros [= <-]|by intros [-> _]].
Qed.

(** ** Artifacts *)

Lemma rfind_sub_aux_spec sub s i best :
  rfind_sub_aux sub s i best =
  match rfind_sub_aux sub s 0 None with Some j => Some (i + j)%nat | None => best end.
Proof.
  revert i best. induction s as [|x s IH]; intros i best; cbn [rfind_sub_aux].
  - destruct (prefixb sub []); [f_equal; lia|done].
  - rewrite IH, (IH 1%nat). destruct (rfind_sub_aux sub s 0 None); [f_equal; lia|].
    destruct (prefixb sub (x :: s)); [f_equal; lia|done].
Qed.

Lemma rfind_sub_cons sub x s :
  rfind_sub sub (x :: s) =
  match rfind_sub sub s with
  | Some j => Some (S j)
  | None => if prefixb sub (x :: s) then Some 0%nat else None
  end.
Proof. unfold rfind_sub at 1. cbn [rfind_sub_aux]. by rewrite rfind_sub_aux_spec. Qed.

Lemma rfind_sub_None sub s : has_substr sub s = false -> rfind_sub sub s = None.
Proof.
  induction s as [|x s IH].
  - unfold rfind_sub. cbn. destruct sub; [done|done].
  - cbn [has_substr]. intros [Hp Hs]%orb_false_iff. by rewrite rfind_sub_cons, IH, Hp.
Qed.

(** The last occurrence, where no later one overlaps it. *)
Lemma rfind_sub_app sub a b :
  has_substr sub (drop 1 (sub ++ b)) = false -> sub <> [] -> rfind_sub sub (a ++ sub ++ b) = Some (length a).
Proof.
  intros Hb Hne. induction a as [|x a IH].
  - destruct sub as [|y sub]; [done|]. cbn [app drop] in *. rewrite rfind_sub_cons, rfind_sub_None by done.
    change (y :: sub ++ b) with ((y :: sub) ++ b). by rewrite prefixb_app.
  - cbn [app]. by rewrite rfind_sub_cons, IH.
Qed.

Lemma ends_with_spec s suf : ends_with s suf = true <-> exists t, s = t ++ suf.
Proof.
  unfold ends_with. rewrite andb_true_iff, Nat.leb_le, str_eqb_eq. split.
  - intros [_ H]. exists (take (length s - length suf) s). rewrite <- H at 2. by rewrite take_drop.
  - intros [t ->]. rewrite length_app. split; [lia|]. by rewrite drop_app_length' by lia.
Qed.

Lemma replace_dex base ext : replace_file_extension (base ++ lit ".dex") ext = Some (base ++ ext).
Proof.
  unfold replace_file_extension. rewrite (proj2 (ends_with_spec _ _)) by (by exists base).
  rewrite take_app_length' by (rewrite length_app; lia).
  by rewrite (proj2 (ends_with_spec _ _)) by (by exists base).
Qed.

Lemma replace_odex base suf ext :
  ends_with (base ++ lit ".odex" ++ suf) (lit ".dex") = false ->
  has_substr (lit ".odex") (lit "odex" ++ suf) = false ->
  replace_file_extension (base ++ lit ".odex" ++ suf) ext = Some (base ++ ext ++ suf).
Proof.
  intros He Hs. unfold replace_file_extension. rewrite He, rfind_sub_app by done.
  rewrite take_app_length, (app_assoc base (lit ".odex") suf), (drop_app_length' (base ++ lit ".odex")) by (by rewrite length_app).
  by rewrite (proj2 (has_substr_spec _ _)) by (by exists base, suf).
Qed.

(** The slot suffixes for which the name of a B artifact can be derived back. *)
Definition slot_usable (slot : str) : Prop :=
  ValidateTargetSlotSuffix slot = true /\ slot <> lit "dex" /\ prefixb (lit "odex") slot = false.

Lemma slot_no_dot slot : ValidateTargetSlotSuffix slot = true -> dot ∉ slot /\ slot <> [].
Proof.
  unfold ValidateTargetSlotSuffix. intros H. destruct slot as [|c s]; [done|]. split; [|done].
  intros Hin. rewrite ?andb_true_iff in H. apply list_elem_of_In in Hin.
  rewrite forallb_forall in H. by specialize (H dot Hin).
Qed.

Lemma has_substr_no_char sub c s : c ∈ sub -> c ∉ s -> has_substr sub s = false.
Proof.
  intros Hin Hn. destruct (has_substr sub s) eqn:E; [|done]. apply has_substr_spec in E as (a & b & ->).
  destruct Hn. rewrite !elem_of_app. auto.
Qed.

(** The [CHECK]s of the replacement hold. *)
Lemma replace_total p ext : exists q, replace_file_extension p ext = Some q.
Proof.
  unfold replace_file_extension. destruct (ends_with p _).
  - destruct (ends_with _ ext) eqn:E; [by eexists|]. exfalso. apply not_true_iff_false in E. apply E.
    apply ends_with_spec. by eexists.
  - destruct (rfind_sub _ _); [|by eexists]. destruct (has_substr ext _) eqn:E; [by eexists|].
    exfalso. apply not_true_iff_false in E. apply E. apply has_substr_spec. by do 2 eexists.
Qed.

Lemma replace_b_odex base slot ext : slot_usable slot ->
  replace_file_extension (base ++ lit ".odex" ++ dot :: slot) ext = Some (base ++ ext ++ dot :: slot).
Proof.
  intros (Hv & Hd & Ho). apply slot_no_dot in Hv as [Hdot Hne]. apply replace_odex.
  - destruct (ends_with _ _) eqn:E; [|done]. apply ends_with_spec in E as [t Ht].
    rewrite app_assoc in Ht. change (lit ".dex") with (dot :: lit "dex") in Ht.
    apply last_occurrence in Ht as [_ Ht]; [by subst|done|by apply find_char_None].
  - change (has_substr (lit ".odex") (lit "odex" ++ dot :: slot))
      with (prefixb (lit "odex") slot || has_substr (lit ".odex") slot).
    rewrite Ho. apply (has_substr_no_char _ dot); [left|done].
Qed.

Lemma replace_plain_odex base ext :
  replace_file_extension (base ++ lit ".odex") ext = Some (base ++ ext).
Proof.
  change (lit ".odex") with (lit ".odex" ++ []) at 1. rewrite replace_odex; [by rewrite app_nil_r| |done].
  destruct (ends_with _ _) eqn:E; [|done]. apply ends_with_spec in E as [t Ht].
  change (lit ".odex" ++ []) with (dot :: lit "odex") in Ht. change (lit ".dex") with (dot :: lit "dex") in Ht.
  by apply last_occurrence in Ht as [_ Ht]; [|by apply find_char_None..].
Qed.

(** ** The file name *)

Lemma clean_below p q : clean_path p -> has_substr (lit "..") (p ++ q) = false -> clean_path (p ++ q).
Proof. intros [[t ->] _] H. split; [by exists (t ++ q)|done]. Qed.

Lemma oat_file_path_parts oat apk isa p :
  calculate_oat_file_path_default oat apk isa = Some p <->
  clean_path oat /\ clean_path apk /\ slash ∉ isa /\
  exists dir stem ext, apk_parts apk dir stem ext /\ p = odex_path oat isa stem /\ (length p < PKG_PATH_MAX)%nat.
Proof.
  unfold calculate_oat_file_path_default. rewrite <- !is_absolute_spec, <- is_valid_isa_spec.
  destruct (is_absolute_path oat); [|by split; [|intros [? _]]].
  destruct (is_absolute_path apk); [|by split; [|intros (_ & ? & _)]].
  destruct (is_valid_instruction_set isa); [|by split; [|intros (_ & _ & ? & _)]]. cbn [negb].
  split.
  - destruct (stem_bounds apk) as [[s e]|] eqn:E; [|done]. intros [-> Hl]%fits_spec.
    apply stem_bounds_spec in E as (dir & stem & ext & Hp & -> & ->). split_and!; [done..|].
    exists dir, stem, ext. split; [done|]. destruct Hp as (-> & _ & _). rewrite stem_of_parts in *. done.
  - intros (_ & _ & _ & dir & stem & ext & Hp & -> & Hl).
    rewrite (proj2 (stem_bounds_spec _ _ _)) by eauto 10. apply fits_spec.
    destruct Hp as (-> & _ & _). by rewrite stem_of_parts.
Qed.

Lemma odex_path_base oat isa stem : (oat ++ slash :: isa ++ slash :: stem) ++ lit ".odex" = odex_path oat isa stem.
Proof.
  unfold odex_path. rewrite <- app_assoc, <- app_comm_cons. do 2 f_equal. by rewrite <- app_assoc, <- app_comm_cons.
Qed.

Lemma ota_oat_path oat isa stem slot :
  oat ++ lit "/" ++ isa ++ lit "/" ++ stem ++ lit ".odex." ++ slot = odex_path oat isa stem ++ dot :: slot.
Proof.
  rewrite <- odex_path_base. change (dot :: slot) with (lit "." ++ slot).
  rewrite <- !app_assoc, <- app_comm_cons. do 2 f_equal. by rewrite <- app_assoc.
Qed.

Lemma odex_path_comps oat isa stem : slash ∉ isa -> slash ∉ stem ->
  comps (odex_path oat isa stem) = comps oat ++ [isa; stem ++ lit ".odex"].
Proof.
  intros Hi Hs. unfold odex_path, comps. rewrite split_on_app, split_on_app, (split_on_single _ isa) by done.
  rewrite (split_on_single _ (stem ++ _)); [done|]. intros [?|H]%elem_of_app; [done|].
  by apply (proj1 (find_char_None slash (lit ".odex")) eq_refl).
Qed.

Lemma flatten_spec t : slash ∉ map flatten_char t /\
  (at_sign ∉ t -> map (fun c => if Ascii.eqb c at_sign then slash else c) (map flatten_char t) = t).
Proof.
  induction t as [|c t [IH1 IH2]]; [split; [by apply not_elem_of_nil|done]|]. cbn [map]. split.
  - intros [H|H]%elem_of_cons; [|done]. unfold flatten_char in H. destruct (Ascii.eqb_spec c slash); [done|by subst].
  - intros [Hc Ht]%not_elem_of_cons. f_equal; [|auto]. unfold flatten_char.
    destruct (Ascii.eqb_spec c slash) as [->|]; [done|]. by destruct (Ascii.eqb_spec c at_sign) as [->|].
Qed.

(** * Properties *)

(** The compiled code of an apk goes into a file of the directory of the
    instruction set in [oat_dir], named after what is between the last dot of
    the apk and the slash before it; there is such a path exactly when both
    paths are absolute without [..], the instruction set is one component and
    the result fits. *)
Theorem oat_file_path_spec oat apk isa p :
  calculate_oat_file_path_default oat apk isa = Some p <->
  clean_path oat /\ clean_path apk /\ slash ∉ isa /\ (length p < PKG_PATH_MAX)%nat /\
  exists dir stem ext, apk_parts apk dir stem ext /\ comps p = comps oat ++ [isa; stem ++ lit ".odex"].
Proof.
  rewrite oat_file_path_parts. split.
  - intros (Ho & Ha & Hi & dir & stem & ext & Hp & -> & Hl). split_and!; [done..|].
    exists dir, stem, ext. split; [done|]. apply odex_path_comps; [done|by destruct Hp as (_ & ? & _)].
  - intros (Ho & Ha & Hi & Hl & dir & stem & ext & Hp & Hc). split_and!; [done..|].
    exists dir, stem, ext. split_and!; [done| |done]. apply comps_inj. rewrite Hc, odex_path_comps; [done..|].
    by destruct Hp as (_ & ? & _).
Qed.

(** An entry of the dalvik cache is a file of the directory of its instruction
    set, and tells the path that it was compiled from if that path has no
    [@]: no two such sources share an entry. *)
Theorem cache_path_roundtrip G src isa p :
  create_cache_path_default G src isa = Some p -> at_sign ∉ src ->
  cache_source G isa p = src /\
  exists name, comps p = comps (android_data_dir G ++ DALVIK_CACHE) ++ [isa; name].
Proof.
  unfold create_cache_path_default. destruct (is_absolute_path src) eqn:Ha; [|done].
  destruct (is_valid_instruction_set isa) eqn:Hi; [|done]. cbn [negb].
  apply is_absolute_spec in Ha as [[t ->] _]. apply is_valid_isa_spec in Hi.
  cbn [take drop app]. intros [-> _]%fits_spec [_ Hat]%not_elem_of_cons.
  destruct (flatten_spec t) as [Hf Hinv]. split.
  - unfold cache_source. set (pre := android_data_dir G ++ DALVIK_CACHE ++ lit "/" ++ isa).
    replace (android_data_dir G ++ _) with (pre ++ (slash :: map flatten_char t) ++ DALVIK_CACHE_POSTFIX)
      by (unfold pre; by rewrite <- !app_assoc).
    rewrite drop_app_length, length_app, Nat.add_sub, take_app_length. cbn [map]. by rewrite Hinv.
  - exists (map flatten_char t ++ DALVIK_CACHE_POSTFIX). unfold comps.
    replace (android_data_dir G ++ _)
      with ((android_data_dir G ++ DALVIK_CACHE) ++ slash :: isa ++ slash :: map flatten_char t ++ DALVIK_CACHE_POSTFIX)
      by (by rewrite <- app_assoc).
    rewrite split_on_app, split_on_app, (split_on_single _ isa) by done.
    rewrite (split_on_single _ (map _ _ ++ _)); [done|].
    intros [?|H]%elem_of_app; [done|]. by apply (proj1 (find_char_None slash DALVIK_CACHE_POSTFIX) eq_refl).
Qed.

(** C30: what [otapreopt] compiles for a slot is what the running system looks for
    after the update: the oat path of the one is the oat path of the other with
    the suffix of the slot, and so are the vdex and the image that belong to
    it. The three artifacts never share a name. *)
Theorem ota_artifacts_match G android_data slot oat apk isa a :
  slot_usable slot -> ota_stem apk <> None -> (length a + 1 + length slot < PKG_PATH_MAX)%nat ->
  calculate_oat_file_path (OatPaths := installd_paths G) oat apk isa = Some a ->
  let b := a ++ dot :: slot in
  calculate_oat_file_path (OatPaths := otapreopt_paths android_data slot) oat apk isa = Some b /\
  exists vdex image, NoDup [a; vdex; image] /\
    create_vdex_filename a = Some vdex /\ create_vdex_filename b = Some (vdex ++ dot :: slot) /\
    create_image_filename a = Some image /\ create_image_filename b = Some (image ++ dot :: slot).
Proof.
  intros Hslot Hstem Hl (_ & _ & _ & dir & stem & ext & (-> & Hs & He) & -> & _)%oat_file_path_parts b. split.
  - cbn [calculate_oat_file_path otapreopt_paths]. unfold ota_calculate_oat_file_path, ota_stem in *.
    destruct (rfind_char slash _) as [i|] eqn:Ei; [|done].
    apply rfind_char_Some in Ei as (x & name & Hx & Hn & ->).
    rewrite Hx, drop_through in *. destruct (rfind_char dot name) as [j|] eqn:Ej; [|done].
    apply rfind_char_Some in Ej as (y & z & -> & Hz & ->).
    rewrite take_app_length.
    rewrite app_comm_cons, app_assoc, (app_comm_cons y), (app_assoc x) in Hx.
    apply last_occurrence in Hx as [Hx <-]; [|done..].
    apply last_occurrence in Hx as [<- <-]; [|done|].
    + f_equal. rewrite ota_oat_path. unfold path_buffer. rewrite take_ge; [done|].
      rewrite length_app. cbn [length]. lia.
    + intros Hin. apply Hn, elem_of_app. by left.
  - unfold create_vdex_filename, create_image_filename, b, odex_path.
    set (base := oat ++ slash :: isa ++ slash :: stem).
    change (oat ++ slash :: isa ++ slash :: stem ++ lit ".odex") with (odex_path oat isa stem).
    rewrite <- odex_path_base. fold base.
    exists (base ++ lit ".vdex"), (base ++ lit ".art").
    rewrite !replace_plain_odex, <- !app_assoc, !replace_b_odex by done. split_and!; [|done..].
    assert (D : forall x y : str, x <> y -> base ++ x <> base ++ y) by (by intros x y Hne ?%app_inv_head).
    repeat (constructor; [rewrite ?not_elem_of_cons; split_and?; try apply not_elem_of_nil; by apply D|]). constructor.
Qed.

(** ** Runs *)

Definition dex_globals : globals := init_globals_from_data_and_root_with (lit "/data") (lit "/system") (lit "/mnt/asec").

Lemma cache_path_roundtrip_witness :
  let src := lit "/system/framework/am.jar" in
  let p := lit "/data/dalvik-cache/arm64/system@framework@am.jar@classes.dex" in
  create_cache_path_default dex_globals src (lit "arm64") = Some p /\
  cache_source dex_globals (lit "arm64") p = src /\
  exists name, comps p = comps (android_data_dir dex_globals ++ DALVIK_CACHE) ++ [lit "arm64"; name].
Proof.
  intros src p. split; [by vm_compute|].
  apply (cache_path_roundtrip dex_globals src (lit "arm64") p); [by vm_compute|]. by apply find_char_None.
Defined.

Lemma ota_artifacts_match_witness :
  let a := lit "/data/app/com.foo/oat/arm64/base.odex" in
  calculate_oat_file_path (OatPaths := otapreopt_paths (lit "/data") (lit "_b"))
    (lit "/data/app/com.foo/oat") (lit "/data/app/com.foo/base.apk") (lit "arm64") = Some (a ++ lit "._b") /\
  exists vdex image, NoDup [a; vdex; image] /\
    create_vdex_filename a = Some vdex /\ create_vdex_filename (a ++ lit "._b") = Some (vdex ++ lit "._b") /\
    create_image_filename a = Some image /\ create_image_filename (a ++ lit "._b") = Some (image ++ lit "._b").
Proof.
  intros a.
  apply (ota_artifacts_match dex_globals (lit "/data") (lit "_b") (lit "/data/app/com.foo/oat")
           (lit "/data/app/com.foo/base.apk") (lit "arm64") a); [|by vm_compute|by apply Nat.ltb_lt|by vm_compute].
  split_and!; [by vm_compute|done|by vm_compute].
Defined.

(** An apk without an extension borrows the dot of its directory: its code is
    named after the directory, and two such apks share one file. *)
Lemma directory_dot_shared :
  calculate_oat_file_path_default (lit "/o") (lit "/data/app/com.foo/base") (lit "arm") = Some (lit "/o/arm/com.odex") /\
  calculate_oat_file_path_default (lit "/o") (lit "/data/app/com.bar/base") (lit "arm") = Some (lit "/o/arm/com.odex").
Proof. by vm_compute. Qed.

(** An instruction set of [..] leaves the oat directory. *)
Lemma dotdot_isa_accepted :
  calculate_oat_file_path_default (lit "/data/app/com.foo/oat") (lit "/data/app/com.foo/base.apk") (lit "..") =
  Some (lit "/data/app/com.foo/oat/../base.odex").
Proof. by vm_compute. Qed.

(** [@] in a source makes its cache entry that of another one. *)
Lemma cache_collision :
  create_cache_path_default dex_globals (lit "/system/app/a@b.jar") (lit "arm") =
  create_cache_path_default dex_globals (lit "/system/app/a/b.jar") (lit "arm").
Proof. by vm_compute. Qed.

(** Where the target slot is [dex], the vdex that [otapreopt] writes is not the
    one that the update looks for. *)
Lemma slot_dex_mismatch :
  let a := lit "/o/arm/base.odex" in
  create_vdex_filename (a ++ lit ".dex") = Some (lit "/o/arm/base.odex.vdex") /\
  create_vdex_filename a = Some (lit "/o/arm/base.vdex").
Proof. by vm_compute. Qed.
