(* ===== verification/Dex2oat.v ===== *)
(** The command lines of the compiler tools: [ExecVHelper], [RunDex2Oat],
    [RunProfman] and [RunDexoptAnalyzer] of [installd/dexopt.cpp].

    Each helper keeps the vector [args_], which starts with an empty string in
    the place of the program and grows by non-empty arguments. System
    properties, the environment and [access(X_OK)] are the fields of
    [DexEnv]. *)

From S2P Require Import Prelude DexPaths.

Open Scope Z_scope.

(** What the code asks the system. *)
Record DexEnv := {
  prop : str -> str;                        (* GetProperty *)
  bool_prop : str -> bool -> bool;          (* GetBoolProperty(key, default) *)
  server_flag : str -> str -> str;          (* GetServerConfigurableFlag *)
  dex2oat_bootclasspath : option str;       (* getenv("DEX2OATBOOTCLASSPATH") *)
  executable : str -> bool;                 (* access(path, X_OK) == 0 *)
}.

Section Helpers.
Context (env : DexEnv).

(** * [ExecVHelper] *)

Definition no_args : list str := [[]].

Definition AddArg (arg : str) (args_ : list str) : list str :=
  match arg with [] => args_ | _ => args_ ++ [arg] end.

Definition AddRuntimeArg (arg : str) (args_ : list str) : list str :=
  match arg with [] => args_ | _ => args_ ++ [lit "--runtime-arg"; arg] end.

Definition AddArgIf (b : bool) (arg : str) (args_ : list str) : list str := if b then AddArg arg args_ else args_.

(** The argument vector without its null terminator; [None]: a [CHECK]
    failed. *)
Definition PrepareArgs (bin : str) (args_ : list str) : option (list str) :=
  match args_ with [] :: rest => Some (bin :: rest) | _ => None end.

Definition SplitBySpaces (s : str) : list str := match s with [] => [] | _ => split_on " " s end.

(** [format] is a literal before [%s]. *)
Definition MapPropertyToArg (property format : str) : str :=
  match prop env property with [] => [] | v => format ++ v end.

Definition is_debug_runtime : bool := prop env (lit "persist.sys.dalvik.vm.lib.2") =s? lit "libartd.so".
Definition is_debuggable_build : bool := bool_prop env (lit "ro.debuggable") false.

Definition select_execution_binary_with (binary debug_binary : str)
    (background_job_compile debug_runtime is_release debuggable_build : bool) : str :=
  let is_debug_bg_job := background_job_compile && debuggable_build && negb is_release in
  let useDebug := (debug_runtime || is_debug_bg_job) && executable env debug_binary in
  if useDebug then debug_binary else binary.

Definition select_execution_binary (binary debug_binary : str) (background_job_compile : bool) : str :=
  select_execution_binary_with binary debug_binary background_job_compile is_debug_runtime
    (prop env (lit "ro.build.version.codename") =s? lit "REL") is_debuggable_build.

Definition runtime_bin (name : string) : str := lit "/apex/com.android.runtime/bin" ++ lit name.
Definition kDex2oatPath : str := runtime_bin "/dex2oat".
Definition kDex2oatDebugPath : str := runtime_bin "/dex2oatd".
Definition kProfmanPath : str := runtime_bin "/profman".
Definition kProfmanDebugPath : str := runtime_bin "/profmand".
Definition kDexoptanalyzerPath : str := runtime_bin "/dexoptanalyzer".
Definition kDexoptanalyzerDebugPath : str := runtime_bin "/dexoptanalyzerd".
Definition kApexImage : str := lit "/system/framework/apex.art".

(** * [RunDex2Oat] *)

Record dex2oat_input := {
  zip_fd : Z; oat_fd : Z; input_vdex_fd : Z; output_vdex_fd : Z; image_fd : Z;
  input_file_name : str; output_file_name : str;
  swap_fd : Z; instruction_set : str; compiler_filter : option str;
  debuggable : bool; post_bootcomplete : bool; background_job_compile : bool;
  profile_fd : Z; class_loader_context : option str; class_loader_context_fds : str;
  target_sdk_version : Z; enable_hidden_api_checks : bool; generate_compact_dex : bool;
  dex_metadata_fd : Z; compilation_reason : option str;
}.

Definition opt_arg (format : string) (v : option str) : str := match v with Some s => lit format ++ s | None => [] end.
Definition fd_arg (format : string) (fd : Z) : str := if 0 <=? fd then lit format ++ fmt_d fd else [].
Definition isa_key (isa : str) (what : string) : str := lit "dalvik.vm.isa." ++ isa ++ lit what.

(** If booting without the real [/data], no time is spent compiling. *)
Definition skip_compilation : bool :=
  let vold_decrypt := prop env (lit "vold.decrypt") in
  (vold_decrypt =s? lit "trigger_restart_min_framework") || (vold_decrypt =s? lit "1").

Definition boot_image : str :=
  if server_flag env (lit "runtime_native_boot") (lit "enable_apex_image") =s? lit "true"
  then lit "-Ximage:" ++ kApexImage
  else MapPropertyToArg (lit "dalvik.vm.boot-image") (lit "-Ximage:").

Definition resolve_startup_string_arg : str :=
  match MapPropertyToArg (lit "persist.device_config.runtime.dex2oat_resolve_startup_strings")
          (lit "--resolve-startup-const-strings=") with
  | [] => MapPropertyToArg (lit "dalvik.vm.dex2oat-resolve-startup-strings") (lit "--resolve-startup-const-strings=")
  | a => a
  end.

Definition compiler_filter_arg (given : option str) : str :=
  match (if skip_compilation then lit "--compiler-filter=extract" else opt_arg "--compiler-filter=" given) with
  | [] => MapPropertyToArg (lit "dalvik.vm.dex2oat-filter") (lit "--compiler-filter=")
  | a => a
  end.

Definition base_dir (input_file_name : str) : str :=
  match rfind_char slash input_file_name with
  | Some dir_index => lit "--classpath-dir=" ++ take dir_index input_file_name
  | None => []
  end.

Definition context_fds_arg (class_loader_context : option str) (fds : str) : str :=
  match class_loader_context, fds with
  | Some _, _ :: _ => lit "--class-loader-context-fds=" ++ fds
  | _, _ => []
  end.

Notation "x |> f" := (f x) (at level 61, left associativity, only parsing).

(** The arguments before [dalvik.vm.dex2oat-flags]. *)
Definition dex2oat_args (i : dex2oat_input) : list str :=
  let threads_property := if post_bootcomplete i then lit "dalvik.vm.dex2oat-threads"
                          else lit "dalvik.vm.boot-dex2oat-threads" in
  let debuggable := debuggable i || (prop env (lit "dalvik.vm.always_debuggable") =s? lit "1") in
  let disable_cdex := negb (generate_compact_dex i) || (input_vdex_fd i =? output_vdex_fd i) in
  no_args
  |> AddArg (lit "--zip-fd=" ++ fmt_d (zip_fd i))
  |> AddArg (lit "--zip-location=" ++ get_location_from_path (input_file_name i))
  |> AddArg (lit "--input-vdex-fd=" ++ fmt_d (input_vdex_fd i))
  |> AddArg (lit "--output-vdex-fd=" ++ fmt_d (output_vdex_fd i))
  |> AddArg (lit "--oat-fd=" ++ fmt_d (oat_fd i))
  |> AddArg (lit "--oat-location=" ++ output_file_name i)
  |> AddArg (lit "--instruction-set=" ++ instruction_set i)
  |> AddArg (MapPropertyToArg (isa_key (instruction_set i) ".variant") (lit "--instruction-set-variant="))
  |> AddArg (MapPropertyToArg (isa_key (instruction_set i) ".features") (lit "--instruction-set-features="))
  |> AddRuntimeArg boot_image
  |> AddRuntimeArg (opt_arg "-Xbootclasspath:" (dex2oat_bootclasspath env))
  |> AddRuntimeArg (MapPropertyToArg (lit "dalvik.vm.dex2oat-Xms") (lit "-Xms"))
  |> AddRuntimeArg (MapPropertyToArg (lit "dalvik.vm.dex2oat-Xmx") (lit "-Xmx"))
  |> AddArg resolve_startup_string_arg
  |> AddArg (MapPropertyToArg (lit "dalvik.vm.dex2oat-max-image-block-size") (lit "--max-image-block-size="))
  |> AddArg (compiler_filter_arg (compiler_filter i))
  |> AddArg (MapPropertyToArg threads_property (lit "-j"))
  |> AddArg (fd_arg "--swap-fd=" (swap_fd i))
  |> AddArg (fd_arg "--app-image-fd=" (image_fd i))
  |> AddArgIf (bool_prop env (lit "debug.generate-debug-info") false) (lit "--generate-debug-info")
  |> AddArgIf debuggable (lit "--debuggable")
  |> AddArg (if 0 <=? image_fd i then MapPropertyToArg (lit "dalvik.vm.appimageformat") (lit "--image-format=") else [])
  |> AddArg (MapPropertyToArg (lit "dalvik.vm.dex2oat-very-large") (lit "--very-large-app-threshold="))
  |> (fun args => if skip_compilation then AddRuntimeArg (lit "-Xnorelocate") args else args)
  |> AddArg (if profile_fd i =? -1 then [] else lit "--profile-file-fd=" ++ fmt_d (profile_fd i))
  |> AddArg (base_dir (input_file_name i))
  |> AddArg (opt_arg "--class-loader-context=" (class_loader_context i))
  |> AddArg (context_fds_arg (class_loader_context i) (class_loader_context_fds i))
  |> AddArgIf (bool_prop env (lit "dalvik.vm.dex2oat-minidebuginfo") false) (lit "--generate-mini-debug-info")
  |> AddArgIf disable_cdex (lit "--compact-dex-level=none")
  |> AddRuntimeArg (if target_sdk_version i =? 0 then [] else lit "-Xtarget-sdk-version:" ++ fmt_d (target_sdk_version i))
  |> (fun args => if enable_hidden_api_checks i then AddRuntimeArg (lit "-Xhidden-api-policy:enabled") args else args)
  |> AddArgIf (-1 <? dex_metadata_fd i) (lit "--dm-fd=" ++ fmt_d (dex_metadata_fd i))
  |> AddArg (opt_arg "--compilation-reason=" (compilation_reason i)).

Definition RunDex2Oat (i : dex2oat_input) : option (list str) :=
  PrepareArgs (select_execution_binary kDex2oatPath kDex2oatDebugPath (background_job_compile i))
    (dex2oat_args i ++ SplitBySpaces (prop env (lit "dalvik.vm.dex2oat-flags"))).

(** * [RunProfman] *)

Definition add_fds (format : string) (fds : list Z) (args_ : list str) : list str :=
  foldl (fun args fd => AddArg (lit format ++ fmt_d fd) args) args_ fds.

Definition SetupArgs (profile_fds : list Z) (reference_profile_fd : Z) (apk_fds : list Z) (dex_locations : list str)
    (copy_and_update store_aggregation_counters : bool) (args_ : list str) : option (list str) :=
  let profman_bin := select_execution_binary kProfmanPath kProfmanDebugPath true in
  if copy_and_update && negb ((length profile_fds =? 1)%nat && (length apk_fds =? 1)%nat) then None
  else
    PrepareArgs profman_bin
      (args_
       |> AddArgIf (negb (reference_profile_fd =? -1)) (lit "--reference-profile-file-fd=" ++ fmt_d reference_profile_fd)
       |> add_fds "--profile-file-fd=" profile_fds
       |> add_fds "--apk-fd=" apk_fds
       |> (fun args => foldl (fun a l => AddArg (lit "--dex-location=" ++ l) a) args dex_locations)
       |> AddArgIf copy_and_update (lit "--copy-and-update-profile-key")
       |> AddArgIf store_aggregation_counters (lit "--store-aggregation-counters")).

Definition SetupMerge (profiles_fd : list Z) (reference_profile_fd : Z) (apk_fds : list Z) (dex_locations : list str)
    (store_aggregation_counters : bool) : option (list str) :=
  SetupArgs profiles_fd reference_profile_fd apk_fds dex_locations false store_aggregation_counters no_args.

(** The descriptors move into the helper, whose vectors are empty before. *)
Definition SetupCopyAndUpdate (profile_fd reference_profile_fd apk_fd : Z) (dex_location : str) : option (list str) :=
  SetupArgs [profile_fd] reference_profile_fd [apk_fd] [dex_location] true false no_args.

Definition SetupDump (profiles_fd : list Z) (reference_profile_fd : Z) (dex_locations : list str) (apk_fds : list Z)
    (output_fd : Z) : option (list str) :=
  SetupArgs profiles_fd reference_profile_fd apk_fds dex_locations false false
    (no_args |> AddArg (lit "--dump-only") |> AddArg (lit "--dump-output-to-fd=" ++ fmt_d output_fd)).

(** * [RunDexoptAnalyzer] *)

Definition RunDexoptAnalyzer (dex_file : str) (vdex_fd oat_fd zip_fd : Z) (instruction_set compiler_filter : str)
    (profile_was_updated downgrade : bool) (class_loader_context : option str) (class_loader_context_fds : str)
    : option (list str) :=
  if zip_fd <? 0 then None
  else
    PrepareArgs (select_execution_binary kDexoptanalyzerPath kDexoptanalyzerDebugPath true)
      (no_args
       |> AddArg (lit "--dex-file=" ++ dex_file)
       |> AddArg (lit "--isa=" ++ instruction_set)
       |> AddArg (lit "--compiler-filter=" ++ compiler_filter)
       |> AddArgIf (0 <=? oat_fd) (lit "--oat-fd=" ++ fmt_d oat_fd)
       |> AddArgIf (0 <=? vdex_fd) (lit "--vdex-fd=" ++ fmt_d vdex_fd)
       |> AddArg (lit "--zip-fd=" ++ fmt_d zip_fd)
       |> AddArgIf profile_was_updated (lit "--assume-profile-changed")
       |> AddArgIf downgrade (lit "--downgrade")
       |> (fun args =>
             match class_loader_context with
             | None => args
             | Some c =>
                 args |> AddArg (lit "--class-loader-context=" ++ c)
                      |> match class_loader_context_fds with
                         | [] => id
                         | fds => AddArg (lit "--class-loader-context-fds=" ++ fds)
                         end
             end)).

(** The mode that flattens a class loader context. *)
Definition RunDexoptAnalyzer_flatten (class_loader_context : str) : option (list str) :=
  PrepareArgs (select_execution_binary kDexoptanalyzerPath kDexoptanalyzerDebugPath true)
    (no_args |> AddArg (lit "--flatten-class-loader-context")
             |> AddArg (lit "--class-loader-context=" ++ class_loader_context)).

(** * Reading a command line *)

(** How the tools read an argument: what follows [--runtime-arg] belongs to
    the runtime, an option is what stands before the first [=]. *)
Inductive item :=
| Runtime (arg : str)
| Option (key value : str)
| Switch (arg : str).

Definition equals : ascii := "="%char.

Definition item_of (a : str) : item :=
  match find_char equals a 0 with Some i => Option (take i a) (drop (S i) a) | None => Switch a end.

Fixpoint read_items (args : list str) : list item :=
  match args with
  | [] => []
  | a :: rest =>
      if a =s? lit "--runtime-arg" then
        match rest with b :: rest' => Runtime b :: read_items rest' | [] => [Switch a] end
      else item_of a :: read_items rest
  end.

Definition given (key : string) (value : str) : list item := [Option (lit key) value].
Definition given_if (b : bool) (key : string) (value : str) : list item := if b then given key value else [].
Definition given_opt (key : string) (value : option str) : list item :=
  match value with Some v => given key v | None => [] end.
Definition switch_if (b : bool) (arg : string) : list item := if b then [Switch (lit arg)] else [].
Definition runtime_if (b : bool) (arg : str) : list item := if b then [Runtime arg] else [].
Definition runtime_opt (prefix : string) (value : option str) : list item :=
  match value with Some v => [Runtime (lit prefix ++ v)] | None => [] end.

(** A property that is set; the first of two answers. *)
Definition setting (property : str) : option str := match prop env property with [] => None | v => Some v end.
Definition or_else {A} (a b : option A) : option A := match a with Some _ => a | None => b end.

Definition parent_dir (path : str) : option str := (fun n => take n path) <$> rfind_char slash path.

(** What the compiler is told. *)
Definition dex2oat_items (i : dex2oat_input) : list item :=
  let apex := server_flag env (lit "runtime_native_boot") (lit "enable_apex_image") =s? lit "true" in
  let threads := if post_bootcomplete i then lit "dalvik.vm.dex2oat-threads" else lit "dalvik.vm.boot-dex2oat-threads" in
  given "--zip-fd" (fmt_d (zip_fd i)) ++
  given "--zip-location" (get_location_from_path (input_file_name i)) ++
  given "--input-vdex-fd" (fmt_d (input_vdex_fd i)) ++
  given "--output-vdex-fd" (fmt_d (output_vdex_fd i)) ++
  given "--oat-fd" (fmt_d (oat_fd i)) ++
  given "--oat-location" (output_file_name i) ++
  given "--instruction-set" (instruction_set i) ++
  given_opt "--instruction-set-variant" (setting (isa_key (instruction_set i) ".variant")) ++
  given_opt "--instruction-set-features" (setting (isa_key (instruction_set i) ".features")) ++
  runtime_opt "-Ximage:" (if apex then Some kApexImage else setting (lit "dalvik.vm.boot-image")) ++
  runtime_opt "-Xbootclasspath:" (dex2oat_bootclasspath env) ++
  runtime_opt "-Xms" (setting (lit "dalvik.vm.dex2oat-Xms")) ++
  runtime_opt "-Xmx" (setting (lit "dalvik.vm.dex2oat-Xmx")) ++
  given_opt "--resolve-startup-const-strings"
    (or_else (setting (lit "persist.device_config.runtime.dex2oat_resolve_startup_strings"))
             (setting (lit "dalvik.vm.dex2oat-resolve-startup-strings"))) ++
  given_opt "--max-image-block-size" (setting (lit "dalvik.vm.dex2oat-max-image-block-size")) ++
  given_opt "--compiler-filter"
    (if skip_compilation then Some (lit "extract")
     else or_else (compiler_filter i) (setting (lit "dalvik.vm.dex2oat-filter"))) ++
  match setting threads with Some v => [item_of (lit "-j" ++ v)] | None => [] end ++
  given_if (0 <=? swap_fd i) "--swap-fd" (fmt_d (swap_fd i)) ++
  given_if (0 <=? image_fd i) "--app-image-fd" (fmt_d (image_fd i)) ++
  switch_if (bool_prop env (lit "debug.generate-debug-info") false) "--generate-debug-info" ++
  switch_if (debuggable i || (prop env (lit "dalvik.vm.always_debuggable") =s? lit "1")) "--debuggable" ++
  given_opt "--image-format" (if 0 <=? image_fd i then setting (lit "dalvik.vm.appimageformat") else None) ++
  given_opt "--very-large-app-threshold" (setting (lit "dalvik.vm.dex2oat-very-large")) ++
  runtime_if skip_compilation (lit "-Xnorelocate") ++
  given_if (negb (profile_fd i =? -1)) "--profile-file-fd" (fmt_d (profile_fd i)) ++
  given_opt "--classpath-dir" (parent_dir (input_file_name i)) ++
  given_opt "--class-loader-context" (class_loader_context i) ++
  given_if (negb (bool_decide (class_loader_context i = None)) && negb (bool_decide (class_loader_context_fds i = [])))
    "--class-loader-context-fds" (class_loader_context_fds i) ++
  switch_if (bool_prop env (lit "dalvik.vm.dex2oat-minidebuginfo") false) "--generate-mini-debug-info" ++
  given_if (negb (generate_compact_dex i) || (input_vdex_fd i =? output_vdex_fd i)) "--compact-dex-level" (lit "none") ++
  runtime_if (negb (target_sdk_version i =? 0)) (lit "-Xtarget-sdk-version:" ++ fmt_d (target_sdk_version i)) ++
  runtime_if (enable_hidden_api_checks i) (lit "-Xhidden-api-policy:enabled") ++
  given_if (-1 <? dex_metadata_fd i) "--dm-fd" (fmt_d (dex_metadata_fd i)) ++
  given_opt "--compilation-reason" (compilation_reason i).

(** * Lemmas *)

(** [args_] holds a program still to be named and then arguments that read as
    [its], whatever follows them. *)
Definition Reads (args_ : list str) (its : list item) : Prop :=
  exists rest, args_ = [] :: rest /\ forall more, read_items (rest ++ more) = its ++ read_items more.

Lemma reads_none : Reads no_args [].
Proof. by exists []. Qed.

Lemma reads_snoc args_ its a x :
  Reads args_ its -> (forall more, read_items (a :: more) = x :: read_items more) -> Reads (args_ ++ [a]) (its ++ [x]).
Proof.
  intros (rest & -> & H) Ha. exists (rest ++ [a]). split; [done|]. intros more.
  rewrite <- !app_assoc, H. cbn [app]. by rewrite Ha.
Qed.

Lemma item_option key v : equals ∉ key -> item_of (key ++ equals :: v) = Option key v.
Proof.
  intros H. unfold item_of, find_char. rewrite drop_0.
  erewrite (proj2 (find_char_aux_Some equals (key ++ equals :: v) 0 (length key))) by (by exists key, v).
  by rewrite take_app_length, drop_through.
Qed.

Lemma read_plain a more : a <> lit "--runtime-arg" -> read_items (a :: more) = item_of a :: read_items more.
Proof. intros H. cbn [read_items]. by rewrite (proj2 (str_eqb_neq _ _) H). Qed.

Lemma reads_nil args_ its : Reads args_ its -> Reads (AddArg [] args_) (its ++ []).
Proof. by rewrite app_nil_r. Qed.

Lemma reads_nil_runtime args_ its : Reads args_ its -> Reads (AddRuntimeArg [] args_) (its ++ []).
Proof. by rewrite app_nil_r. Qed.

(** A format that is a key and [=]. *)
Definition key_of (k : string) : string := String.substring 0 (String.length k - 1) k.
Definition key_format (k : string) : bool :=
  (lit k =s? (lit (key_of k) ++ [equals])) && match find_char equals (lit (key_of k)) 0 with None => true | _ => false end.

Lemma key_format_spec k v : key_format k = true ->
  lit k ++ v = lit (key_of k) ++ equals :: v /\ equals ∉ lit (key_of k).
Proof.
  unfold key_format. intros [->%str_eqb_eq H]%andb_true_iff. rewrite <- app_assoc. split; [done|].
  apply find_char_None. by destruct (find_char equals (lit (key_of k)) 0).
Qed.

Lemma reads_given k v args_ its : key_format k = true -> Reads args_ its ->
  Reads (AddArg (lit k ++ v) args_) (its ++ given (key_of k) v).
Proof.
  intros Hk H. destruct (key_format_spec k v Hk) as [-> He]. unfold AddArg.
  destruct (lit (key_of k) ++ equals :: v) as [|c t] eqn:E; [by destruct (lit (key_of k))|]. rewrite <- E.
  apply reads_snoc; [done|]. intros more. rewrite read_plain, item_option; [done..|].
  intros Hr. apply (proj1 (find_char_None equals (lit "--runtime-arg")) eq_refl). rewrite <- Hr.
  apply elem_of_app. right. left.
Qed.

Lemma reads_given_opt k v args_ its : key_format k = true -> Reads args_ its ->
  Reads (AddArg (opt_arg k v) args_) (its ++ given_opt (key_of k) v).
Proof. destruct v; [apply reads_given|intros _; apply reads_nil]. Qed.

Lemma reads_property p k args_ its : key_format k = true -> Reads args_ its ->
  Reads (AddArg (MapPropertyToArg p (lit k)) args_) (its ++ given_opt (key_of k) (setting p)).
Proof.
  unfold MapPropertyToArg, setting. destruct (prop env p); [intros _; apply reads_nil|apply reads_given].
Qed.

Lemma reads_given_if (b : bool) k v args_ its : key_format k = true -> Reads args_ its ->
  Reads (AddArg (if b then lit k ++ v else []) args_) (its ++ given_if b (key_of k) v).
Proof. destruct b; [apply reads_given|intros _; apply reads_nil]. Qed.

Lemma reads_add_if (b : bool) k v args_ its : key_format k = true -> Reads args_ its ->
  Reads (AddArgIf b (lit k ++ v) args_) (its ++ given_if b (key_of k) v).
Proof. destruct b; [apply reads_given|]. intros _. by rewrite app_nil_r. Qed.

Lemma reads_switch_if (b : bool) a args_ its :
  match lit a with [] => false | _ => negb (lit a =s? lit "--runtime-arg") end = true ->
  find_char equals (lit a) 0 = None -> Reads args_ its -> Reads (AddArgIf b (lit a) args_) (its ++ switch_if b a).
Proof.
  intros Ha He H. destruct b; [|by rewrite app_nil_r]. cbn [AddArgIf switch_if]. unfold AddArg.
  destruct (lit a) as [|c t] eqn:E; [done|]. rewrite <- E in *. apply reads_snoc; [done|]. intros more.
  rewrite read_plain; [by unfold item_of; rewrite He|]. by apply str_eqb_neq, negb_true_iff.
Qed.

Lemma reads_runtime a args_ its : a <> [] -> Reads args_ its -> Reads (AddRuntimeArg a args_) (its ++ [Runtime a]).
Proof.
  intros Ha (rest & -> & H). destruct a as [|c t]; [done|]. unfold AddRuntimeArg.
  exists (rest ++ [lit "--runtime-arg"; c :: t]). split; [done|]. intros more.
  rewrite <- !app_assoc, H. cbn [app read_items]. by rewrite str_eqb_refl.
Qed.

Lemma reads_runtime_opt k v args_ its : lit k <> [] -> Reads args_ its ->
  Reads (AddRuntimeArg (opt_arg k v) args_) (its ++ runtime_opt k v).
Proof.
  intros Hk H. destruct v; [|by apply reads_nil_runtime]. apply reads_runtime; [|done].
  cbn [opt_arg]. by destruct (lit k).
Qed.

Lemma reads_runtime_property p k args_ its : lit k <> [] -> Reads args_ its ->
  Reads (AddRuntimeArg (MapPropertyToArg p (lit k)) args_) (its ++ runtime_opt k (setting p)).
Proof.
  unfold MapPropertyToArg, setting. intros Hk H. destruct (prop env p) as [|c t]; [by apply reads_nil_runtime|].
  apply reads_runtime; [|done]. by destruct (lit k).
Qed.

Lemma reads_runtime_if (b : bool) a args_ its : a <> [] -> Reads args_ its ->
  Reads (if b then AddRuntimeArg a args_ else args_) (its ++ runtime_if b a).
Proof. intros Ha H. destruct b; [by apply reads_runtime|by rewrite app_nil_r]. Qed.

Lemma reads_runtime_unless (b : bool) a args_ its : a <> [] -> Reads args_ its ->
  Reads (AddRuntimeArg (if b then [] else a) args_) (its ++ runtime_if (negb b) a).
Proof. destruct b; [intros _; apply reads_nil_runtime|apply reads_runtime]. Qed.

Lemma reads_given_unless (b : bool) k v args_ its : key_format k = true -> Reads args_ its ->
  Reads (AddArg (if b then [] else lit k ++ v) args_) (its ++ given_if (negb b) (key_of k) v).
Proof. destruct b; [intros _; apply reads_nil|apply reads_given]. Qed.

(** ** The computed arguments of the compiler *)

Lemma property_opt p k : MapPropertyToArg p (lit k) = opt_arg k (setting p).
Proof. unfold MapPropertyToArg, setting. by destruct (prop env p). Qed.

Lemma boot_image_opt :
  boot_image = opt_arg "-Ximage:"
    (if server_flag env (lit "runtime_native_boot") (lit "enable_apex_image") =s? lit "true" then Some kApexImage
     else setting (lit "dalvik.vm.boot-image")).
Proof. unfold boot_image. destruct (_ =s? _); [done|apply property_opt]. Qed.

Lemma first_arg (k : string) a b : lit k <> [] ->
  match opt_arg k a with [] => opt_arg k b | x => x end = opt_arg k (or_else a b).
Proof.
  intros Hk. destruct a as [v|]; [|done]. cbn [opt_arg or_else]. by destruct (lit k).
Qed.

Lemma resolve_startup_opt :
  resolve_startup_string_arg = opt_arg "--resolve-startup-const-strings="
    (or_else (setting (lit "persist.device_config.runtime.dex2oat_resolve_startup_strings"))
             (setting (lit "dalvik.vm.dex2oat-resolve-startup-strings"))).
Proof. unfold resolve_startup_string_arg. rewrite !property_opt. by apply first_arg. Qed.

Lemma compiler_filter_opt given :
  compiler_filter_arg given = opt_arg "--compiler-filter="
    (if skip_compilation then Some (lit "extract") else or_else given (setting (lit "dalvik.vm.dex2oat-filter"))).
Proof.
  unfold compiler_filter_arg. destruct skip_compilation; [done|]. rewrite property_opt. by apply first_arg.
Qed.

Lemma base_dir_opt path : base_dir path = opt_arg "--classpath-dir=" (parent_dir path).
Proof. unfold base_dir, parent_dir. by destruct (rfind_char slash path). Qed.

Lemma image_format_opt fd :
  (if 0 <=? fd then MapPropertyToArg (lit "dalvik.vm.appimageformat") (lit "--image-format=") else []) =
  opt_arg "--image-format=" (if 0 <=? fd then setting (lit "dalvik.vm.appimageformat") else None).
Proof. destruct (0 <=? fd); [apply property_opt|done]. Qed.

Lemma context_fds_if c fds :
  context_fds_arg c fds =
  if negb (bool_decide (c = @None str)) && negb (bool_decide (fds = [])) then lit "--class-loader-context-fds=" ++ fds else [].
Proof. by destruct c, fds. Qed.

Lemma reads_threads p args_ its : Reads args_ its ->
  Reads (AddArg (MapPropertyToArg p (lit "-j")) args_)
    (its ++ match setting p with Some v => [item_of (lit "-j" ++ v)] | None => [] end).
Proof.
  unfold MapPropertyToArg, setting. intros H. destruct (prop env p) as [|c t]; [by apply reads_nil|].
  apply reads_snoc; [done|]. intros more. by apply read_plain.
Qed.

Lemma reads_eq args_ its its' : Reads args_ its -> its = its' -> Reads args_ its'.
Proof. by intros ? <-. Qed.

Ltac read_next :=
  first [ apply reads_none
        | eapply reads_threads | eapply reads_given; [reflexivity|] | eapply reads_property; [reflexivity|]
        | eapply reads_given_opt; [reflexivity|] | eapply reads_given_if; [reflexivity|]
        | eapply reads_given_unless; [reflexivity|] | eapply reads_add_if; [reflexivity|]
        | eapply reads_switch_if; [reflexivity|reflexivity|]
        | eapply reads_runtime_opt; [done|] | eapply reads_runtime_property; [done|]
        | eapply reads_runtime_unless; [done|] | eapply reads_runtime_if; [done|] ].

Lemma reads_dex2oat i : Reads (dex2oat_args i) (dex2oat_items i).
Proof.
  unfold dex2oat_args, dex2oat_items.
  rewrite boot_image_opt, resolve_startup_opt, compiler_filter_opt, base_dir_opt, image_format_opt, context_fds_if.
  unfold fd_arg.
  change (lit "--compact-dex-level=none") with (lit "--compact-dex-level=" ++ lit "none").
  cbv beta. eapply reads_eq; [repeat read_next|]. by rewrite <- !app_assoc.
Qed.

(** ** The other tools *)

Definition each (key : string) (values : list str) : list item := concat (map (given key) values).

Definition profman_items (profile_fds : list Z) (reference_profile_fd : Z) (apk_fds : list Z) (dex_locations : list str)
    (copy_and_update store_aggregation_counters : bool) : list item :=
  given_if (negb (reference_profile_fd =? -1)) "--reference-profile-file-fd" (fmt_d reference_profile_fd) ++
  each "--profile-file-fd" (map fmt_d profile_fds) ++
  each "--apk-fd" (map fmt_d apk_fds) ++
  each "--dex-location" dex_locations ++
  switch_if copy_and_update "--copy-and-update-profile-key" ++
  switch_if store_aggregation_counters "--store-aggregation-counters".

Definition analyzer_items (dex_file : str) (vdex_fd oat_fd zip_fd : Z) (instruction_set compiler_filter : str)
    (profile_was_updated downgrade : bool) (class_loader_context : option str) (class_loader_context_fds : str)
    : list item :=
  given "--dex-file" dex_file ++
  given "--isa" instruction_set ++
  given "--compiler-filter" compiler_filter ++
  given_if (0 <=? oat_fd) "--oat-fd" (fmt_d oat_fd) ++
  given_if (0 <=? vdex_fd) "--vdex-fd" (fmt_d vdex_fd) ++
  given "--zip-fd" (fmt_d zip_fd) ++
  switch_if profile_was_updated "--assume-profile-changed" ++
  switch_if downgrade "--downgrade" ++
  given_opt "--class-loader-context" class_loader_context ++
  given_if (negb (bool_decide (class_loader_context = None)) && negb (bool_decide (class_loader_context_fds = [])))
    "--class-loader-context-fds" class_loader_context_fds.

Lemma reads_each {A} (show : A -> str) k l args_ its : key_format k = true -> Reads args_ its ->
  Reads (foldl (fun args x => AddArg (lit k ++ show x) args) args_ l) (its ++ each (key_of k) (map show l)).
Proof.
  intros Hk. revert args_ its. induction l as [|x l IH]; intros args_ its H; [by rewrite app_nil_r|].
  cbn [foldl map]. unfold each. cbn [map concat]. rewrite app_assoc. by apply IH, reads_given.
Qed.

Lemma reads_fds k fds args_ its : key_format k = true -> Reads args_ its ->
  Reads (add_fds k fds args_) (its ++ each (key_of k) (map fmt_d fds)).
Proof. apply (reads_each fmt_d). Qed.

Lemma reads_locations k l args_ its : key_format k = true -> Reads args_ its ->
  Reads (foldl (fun args x => AddArg (lit k ++ x) args) args_ l) (its ++ each (key_of k) l).
Proof. intros Hk H. rewrite <- (map_id l) at 2. by apply (reads_each (fun x => x)). Qed.

(** What a tool reads of the vector it is started with. *)
Definition started (bin : str) (its : list item) (argv : option (list str)) : Prop :=
  exists args, argv = Some (bin :: args) /\ read_items args = its.

Lemma prepared bin args_ its : Reads args_ its -> started bin its (PrepareArgs bin args_).
Proof.
  intros (rest & -> & H). exists rest. split; [done|]. specialize (H []). by rewrite !app_nil_r in H.
Qed.

Lemma reads_profman profiles ref apks locs copy store args_ its :
  copy && negb ((length profiles =? 1)%nat && (length apks =? 1)%nat) = false -> Reads args_ its ->
  started (select_execution_binary kProfmanPath kProfmanDebugPath true)
    (its ++ profman_items profiles ref apks locs copy store)
    (SetupArgs profiles ref apks locs copy store args_).
Proof.
  intros Hc H. unfold SetupArgs, profman_items. rewrite Hc. apply prepared. cbv beta.
  eapply reads_eq.
  - eapply reads_switch_if; [done..|]. eapply reads_switch_if; [done..|]. eapply reads_locations; [done|].
    eapply reads_fds; [done|]. eapply reads_fds; [done|]. eapply reads_add_if; [done|]. exact H.
  - by rewrite <- !app_assoc.
Qed.

Lemma reads_analyzer dex_file vdex oat zip isa filter updated down context fds : 0 <= zip ->
  started (select_execution_binary kDexoptanalyzerPath kDexoptanalyzerDebugPath true)
    (analyzer_items dex_file vdex oat zip isa filter updated down context fds)
    (RunDexoptAnalyzer dex_file vdex oat zip isa filter updated down context fds).
Proof.
  intros Hz. unfold RunDexoptAnalyzer. rewrite (proj2 (Z.ltb_ge _ _) Hz). apply prepared. unfold analyzer_items.
  cbv beta. destruct context as [c|]; [destruct fds as [|f fds]|]; cbv [id]; eapply reads_eq.
  all: try (repeat read_next).
  all: cbn [given_opt given_if bool_decide negb andb]; by rewrite <- ?app_assoc, ?app_nil_r.
Qed.

End Helpers.

(** * Properties *)

(** C31: the compiler reads from its command line exactly the settings that
    [dex2oat_items] lists for the request: every file descriptor, path, filter
    and reason comes back as the value of its own option, whatever characters
    it has, so that no caller can add an option or replace another one. The
    arguments of [dalvik.vm.dex2oat-flags] come after all of them. *)
Theorem dex2oat_command_line (env : DexEnv) (i : dex2oat_input) :
  exists args,
    RunDex2Oat env i = Some (select_execution_binary env kDex2oatPath kDex2oatDebugPath (background_job_compile i) :: args) /\
    read_items args = dex2oat_items env i ++ read_items (SplitBySpaces (prop env (lit "dalvik.vm.dex2oat-flags"))).
Proof.
  destruct (reads_dex2oat env i) as (rest & Hr & H). unfold RunDex2Oat. rewrite Hr. by eexists.
Qed.

(** The same of the profile manager in its three modes; the copying mode is
    never started with other than one profile and one apk. *)
Theorem profman_command_lines (env : DexEnv) (profiles apks : list Z) (ref out profile apk : Z)
    (locs : list str) (loc : str) (store : bool) :
  let bin := select_execution_binary env kProfmanPath kProfmanDebugPath true in
  started bin (profman_items profiles ref apks locs false store) (SetupMerge env profiles ref apks locs store) /\
  started bin (profman_items [profile] ref [apk] [loc] true false) (SetupCopyAndUpdate env profile ref apk loc) /\
  started bin (Switch (lit "--dump-only") :: given "--dump-output-to-fd" (fmt_d out) ++
               profman_items profiles ref apks locs false false)
    (SetupDump env profiles ref locs apks out).
Proof.
  intros bin. split_and!.
  - apply (reads_profman env profiles ref apks locs false store no_args []); [done|apply reads_none].
  - apply (reads_profman env [profile] ref [apk] [loc] true false no_args []); [done|apply reads_none].
  - apply (reads_profman env profiles ref apks locs false false _
             (switch_if true "--dump-only" ++ given "--dump-output-to-fd" (fmt_d out))); [done|].
    apply (reads_given "--dump-output-to-fd="); [done|].
    apply (reads_switch_if true "--dump-only" no_args []); [done..|apply reads_none].
Qed.

(** The analyzer is started exactly when the dex file is open, and reads what
    it was asked. *)
Theorem analyzer_command_line (env : DexEnv) (dex_file : str) (vdex oat zip : Z) (isa filter : str)
    (updated down : bool) (context : option str) (fds : str) :
  let run := RunDexoptAnalyzer env dex_file vdex oat zip isa filter updated down context fds in
  (zip < 0 -> run = None) /\
  (0 <= zip -> started (select_execution_binary env kDexoptanalyzerPath kDexoptanalyzerDebugPath true)
                 (analyzer_items dex_file vdex oat zip isa filter updated down context fds) run).
Proof.
  intros run. split; intros Hz; [|by apply reads_analyzer]. unfold run, RunDexoptAnalyzer.
  by rewrite (proj2 (Z.ltb_lt _ _) Hz).
Qed.

(** ** A run *)

Definition demo_env (flags : str) : DexEnv := {|
  prop k := if k =s? lit "dalvik.vm.dex2oat-flags" then flags
            else if k =s? lit "dalvik.vm.dex2oat-Xmx" then lit "512m" else [];
  bool_prop _ d := d;
  server_flag _ _ := [];
  dex2oat_bootclasspath := None;
  executable _ := false;
|}.

Definition demo_input : dex2oat_input := {|
  zip_fd := 10; oat_fd := 11; input_vdex_fd := -1; output_vdex_fd := 12; image_fd := -1;
  input_file_name := lit "/data/app/com.foo/base.apk"; output_file_name := lit "/data/app/com.foo/oat/arm/base.odex";
  swap_fd := -1; instruction_set := lit "arm"; compiler_filter := Some (lit "speed");
  debuggable := false; post_bootcomplete := true; background_job_compile := false;
  profile_fd := -1; class_loader_context := Some (lit "PCL[]"); class_loader_context_fds := [];
  target_sdk_version := 28; enable_hidden_api_checks := true; generate_compact_dex := true;
  dex_metadata_fd := -1; compilation_reason := None;
|}.

Lemma dex2oat_example :
  RunDex2Oat (demo_env (lit "--debug")) demo_input = Some (map lit
    ["/apex/com.android.runtime/bin/dex2oat"; "--zip-fd=10"; "--zip-location=base.apk"; "--input-vdex-fd=-1";
     "--output-vdex-fd=12"; "--oat-fd=11"; "--oat-location=/data/app/com.foo/oat/arm/base.odex";
     "--instruction-set=arm"; "--runtime-arg"; "-Xmx512m"; "--compiler-filter=speed";
     "--classpath-dir=/data/app/com.foo"; "--class-loader-context=PCL[]"; "--runtime-arg";
     "-Xtarget-sdk-version:28"; "--runtime-arg"; "-Xhidden-api-policy:enabled"; "--debug"]%string).
Proof. by vm_compute. Qed.

(** The other arguments are added only where they are not empty; two spaces in
    the flags make an empty argument. *)
Lemma double_space_empty_argument :
  last (drop 16 (default [] (RunDex2Oat (demo_env (lit "-a  -b")) demo_input))) = Some (lit "-b") /\
  [] ∈ default [] (RunDex2Oat (demo_env (lit "-a  -b")) demo_input).
Proof. vm_compute. split; [done|]. repeat (first [left|right]). Qed.
