(* ===== verification/Descriptors.v ===== *)
(** File descriptors and children of [installd].

    [Process] adds to a world the table of open descriptors and what a child
    leaves to its parent; [ProcessOk] states how the calls change the table.
    Closing a descriptor that is not open has no result here, so that a program
    that returns has closed nothing twice. [owns] accounts for the descriptors
    that a function holds. *)

From S2P Require Import Prelude Platform Fts InstalldPaths InstalldFs World SimpleFs.

Open Scope Z_scope.
Open Scope io_scope.

Class Process (W : Type) := {
  open_fds : W -> gset Z;
  exit_status : W -> Z -> Z;      (* the wait status of a child that calls _exit, or is killed there *)
  join_child : W -> W -> W;       (* the parent's descriptors, the files as the child left them *)
  drop_failure : W -> Z -> option Z;   (* the code a child exits with that cannot drop its capabilities *)
}.

(** The calls that answer with a new descriptor. *)
Definition is_open_call (c : call) : bool :=
  match c with OpenFile _ _ _ | PipeEnd _ => true | _ => false end.

Definition is_fd_call (c : call) : bool :=
  match c with CloseFd _ => true | _ => is_open_call c end.

Class ProcessOk {W : Type} (world : World W) (proc : Process W) {Node : Type} (view : W -> str -> option Node) : Prop := {
  open_fresh : forall c w, is_open_call c = true -> 0 <= fst (w_call c w) ->
    fst (w_call c w) ∉ open_fds w /\ open_fds (snd (w_call c w)) = {[fst (w_call c w)]} ∪ open_fds w;
  open_failed : forall c w, is_open_call c = true -> fst (w_call c w) < 0 -> open_fds (snd (w_call c w)) = open_fds w;
  close_removes : forall fd w, open_fds (snd (w_call (CloseFd fd) w)) = open_fds w ∖ {[fd]};
  other_calls : forall c w, is_fd_call c = false -> open_fds (snd (w_call c w)) = open_fds w;
  join_fds : forall w w', open_fds (join_child w w') = open_fds w;
  join_view : forall w w' q, view (join_child w w') q = view w' q;
}.

(** * Operations *)

Definition LOCK_EX : Z := 2.
Definition LOCK_NB : Z := 4.
Definition LOCK_UN : Z := 8.

Definition WIFEXITED (status : Z) : bool := Z.land status 127 =? 0.
Definition WEXITSTATUS (status : Z) : Z := Z.land (Z.shiftr status 8) 255.

Section Operations.
Context {W : Type} {world : World W} {proc : Process W}.

(** The descriptor, or minus [errno]. *)
Definition open_file (path : str) (flags mode : Z) : io W Z := do_call (OpenFile path flags mode).

(** [-1] where a call failed. *)
Definition fd_of (r : Z) : Z := if r <? 0 then -1 else r.

(** [None]: the descriptor is not open. *)
Definition close_fd (fd : Z) : io W unit := fun w =>
  if bool_decide (fd ∈ open_fds w) then (_ ← do_call (CloseFd fd); mret ()) w else None.

(** The destructor of a [unique_fd]. *)
Definition drop_fd (fd : Z) : io W unit := if fd <? 0 then mret () else close_fd fd.

Definition drop_fds (fds : list Z) : io W unit := for_all fds drop_fd.

(** A [unique_fd] that lives while [body] runs. *)
Definition with_fd {A} (fd : Z) (body : io W A) : io W A := a ← body; _ ← drop_fd fd; mret a.

Definition do_exit (code : Z) : io W Z := ask (fun w => exit_status w code).

(** [drop_capabilities] at the start of a child. *)
Definition dropped (uid : Z) (body : io W Z) : io W Z :=
  failure ← ask (fun w => drop_failure w uid);
  match failure with Some code => do_exit code | None => body end.

(** [fork], [body] in the child, [wait_child] in the parent; the answer of the
    child is its wait status, perhaps with what it wrote to a pipe. *)
Definition in_child_with {A} (body : io W A) : io W A := fun w =>
  match body w with Some (a, w') => Some (a, join_child w w') | None => None end.

Definition in_child (body : io W Z) : io W Z := in_child_with body.

End Operations.

(** * Accounting *)

Section Owns.
Context {W : Type} {world : World W} {proc : Process W} {Node : Type} {view : W -> str -> option Node}.
Context {pok : ProcessOk world proc view}.

(** Besides those of [base], exactly the descriptors of [l] are open. *)
Definition owns (base : gset Z) (l : list Z) (w : W) : Prop :=
  NoDup l /\ (forall fd, fd ∈ l -> fd ∉ base /\ 0 <= fd) /\ open_fds w = list_to_set l ∪ base.

#[export] Instance owns_proper : Proper ((=) ==> (≡ₚ) ==> (=) ==> iff) owns.
Proof.
  intros b ? <- l l' Hl w ? <-. unfold owns. by setoid_rewrite Hl.
Qed.

Lemma owns_nil w : owns (open_fds w) [] w.
Proof. split_and!; [constructor|intros fd H; by apply not_elem_of_nil in H|]. cbn. by rewrite union_empty_l_L. Qed.

Lemma owns_none base w : owns base [] w -> open_fds w = base.
Proof. intros (_ & _ & ->). cbn. by rewrite union_empty_l_L. Qed.

Lemma owns_same base l w w' : open_fds w' = open_fds w -> owns base l w -> owns base l w'.
Proof. intros E (H1 & H2 & H3). split_and!; [done..|]. by rewrite E. Qed.

Lemma wp_open base l c w (Q : Z -> W -> Prop) :
  is_open_call c = true -> owns base l w ->
  (forall r w', w_call c w = (r, w') -> owns base (if r <? 0 then l else r :: l) w' -> Q r w') ->
  wp (do_call c) Q w.
Proof.
  intros Hc (Hn & Hf & He) HQ. apply wp_call, HQ; [by destruct (w_call _ _)|].
  pose proof (fun H => open_fresh c w Hc H) as Hnew. pose proof (fun H => open_failed c w Hc H) as Hold.
  destruct (w_call c w) as [r w']. cbn [fst snd] in *.
  destruct (Z.ltb_spec r 0) as [Hr|Hr].
  - apply (owns_same base l w); [by apply Hold|done].
  - destruct (Hnew Hr) as [Hfresh Ho]. rewrite He in Hfresh. apply not_elem_of_union in Hfresh as [H1 H2].
    rewrite elem_of_list_to_set in H1. split_and!.
    + by constructor.
    + intros fd [->|Hin]%elem_of_cons; [done|auto].
    + cbn [list_to_set]. by rewrite Ho, He, union_assoc_L.
Qed.

Lemma wp_close base l fd w (Q : unit -> W -> Prop) :
  owns base (fd :: l) w ->
  (forall w', (forall q, view w' q = view (snd (w_call (CloseFd fd) w)) q) -> owns base l w' -> Q () w') ->
  wp (close_fd fd) Q w.
Proof.
  intros ([Hni Hn]%NoDup_cons & Hf & He) HQ. unfold wp, close_fd.
  assert (Hin : fd ∈ open_fds w) by (rewrite He; cbn [list_to_set]; set_solver).
  rewrite bool_decide_eq_true_2 by done. cbn. destruct (w_call (CloseFd fd) w) as [r w'] eqn:E. cbn.
  apply HQ; [done|]. split_and!; [done|intros x Hx; apply Hf; by right|].
  pose proof (close_removes fd w) as Hc. rewrite E in Hc. cbn in Hc. rewrite Hc, He. cbn [list_to_set].
  destruct (Hf fd) as [Hb _]; [left|]. apply set_eq. intros x.
  rewrite elem_of_difference, !elem_of_union, !elem_of_list_to_set, !elem_of_singleton.
  split; [tauto|]. intros [Hx|Hx]; (split; [auto|]); by intros ->.
Qed.

End Owns.

(** ** Moving descriptors

    [moves S pre c post]: [c] returns, keeps what is stored at the paths of
    [S] and, where the descriptors of [pre] were held, holds those of [post] of
    its result; all others stay as they are. *)

Section Moves.
Context {W : Type} {world : World W} {proc : Process W} {Node : Type} {view : W -> str -> option Node}.
Context {is_dir : Node -> bool} {ok : WorldOk world view is_dir} {pok : ProcessOk world proc view}.

Definition moves {A} (S : str -> Prop) (pre : list Z) (c : io W A) (post : A -> list Z) : Prop :=
  forall base l w, owns base (pre ++ l) w ->
    wp c (fun a w' => owns base (post a ++ l) w' /\ agree (view := view) S w w') w.

(** What a descriptor, or [-1], holds. *)
Definition held (fd : Z) : list Z := if fd <? 0 then [] else [fd].
Definition held_all (fds : list Z) : list Z := concat (map held fds).

(** The call leaves the paths of [S] alone. *)
Definition spares (S : str -> Prop) (c : call) : Prop :=
  forall q, S q -> Forall (fun p => plain p = true /\ ~ below p q) (targets c).

Context (S : str -> Prop).

Lemma moves_perm {A} pre pre' (c : io W A) post : pre ≡ₚ pre' -> moves S pre' c post -> moves S pre c post.
Proof. intros Hp H base l w Ho. apply H. by rewrite <- Hp. Qed.

Lemma moves_ret {A} (a : A) pre (post : A -> list Z) : pre ≡ₚ post a -> moves S pre (mret a : io W A) post.
Proof. intros Hp base l w H. apply wp_ret. split; [by rewrite <- Hp|apply agree_refl]. Qed.

Lemma moves_bind {A B} (c : io W A) (k : A -> io W B) pre mid post :
  moves S pre c mid -> (forall a, moves S (mid a) (k a) post) -> moves S pre (io_bind c k) post.
Proof.
  intros Hc Hk base l w H. apply wp_bind. eapply wp_mono; [by apply Hc|]. intros a w1 [Ho H1].
  eapply wp_mono; [by apply Hk|]. intros b w2 [Ho2 H2]. split; [done|]. exact (agree_trans S w w1 w2 H1 H2).
Qed.

Lemma moves_frame {A} (c : io W A) pre post fr :
  moves S pre c post -> moves S (pre ++ fr) c (fun a => post a ++ fr).
Proof.
  intros Hc base l w H. eapply wp_mono; [apply Hc; by rewrite app_assoc|]. cbn. intros a w'.
  by rewrite app_assoc.
Qed.

Lemma moves_weaken {A} (c : io W A) pre post post' :
  moves S pre c post -> (forall a, post a ≡ₚ post' a) -> moves S pre c post'.
Proof. intros Hc Hp base l w H. eapply wp_mono; [by apply Hc|]. intros a w'. cbn. by rewrite Hp. Qed.

(** A program that holds nothing runs with whatever is held. *)
Lemma moves_any {A} (c : io W A) l : moves S [] c (fun _ => []) -> moves S l c (fun _ => l).
Proof. intros H. apply (moves_frame c [] _ l H). Qed.

Lemma moves_call c l : is_fd_call c = false -> spares S c -> moves S l (do_call c) (fun _ => l).
Proof.
  intros Hc Hs base l' w H. apply wp_call. split; [eapply owns_same; [by apply other_calls|done]|].
  intros q Hq. by apply call_frame, Hs.
Qed.

Lemma moves_ask {A} (q : W -> A) l : moves S l (ask q) (fun _ => l).
Proof. intros base l' w H. apply wp_ask. split; [done|apply agree_refl]. Qed.

Lemma moves_some {A} (a : A) o l : o = Some a -> moves S l (abort_if_none o) (fun _ => l).
Proof. intros -> base l' w H. eapply wp_some; [done|]. split; [done|apply agree_refl]. Qed.

Lemma moves_at_some {A B} (a : A) o (k : A -> io W B) l post :
  o = Some a -> moves S l (k a) post -> moves S l (io_bind (abort_if_none o) k) post.
Proof. intros -> H. exact H. Qed.

Lemma moves_opening c l :
  is_open_call c = true -> spares S c -> moves S l (do_call c) (fun r => held r ++ l).
Proof.
  intros Hc Hs base l' w H. eapply wp_open; [done..|]. intros r w' Hr Ho. split.
  - unfold held. by destruct (r <? 0).
  - intros q Hq. pose proof (call_frame c w q (Hs q Hq)) as Hf. by rewrite Hr in Hf.
Qed.

Lemma moves_open p flags mode l :
  spares S (OpenFile p flags mode) -> moves S l (open_file p flags mode) (fun r => held r ++ l).
Proof. by apply moves_opening. Qed.

Lemma moves_drop fd l : moves S (held fd ++ l) (drop_fd fd) (fun _ => l).
Proof.
  intros base l' w H. unfold drop_fd, held in *. destruct (fd <? 0); [by apply wp_ret; split; [|apply agree_refl]|].
  eapply wp_close; [exact H|]. intros w' Hv Ho. split; [done|]. intros q _. rewrite Hv.
  by apply (call_frame (CloseFd fd)).
Qed.

Lemma held_all_app a b : held_all (a ++ b) = held_all a ++ held_all b.
Proof. unfold held_all. by rewrite map_app, concat_app. Qed.

Lemma held_fd_of r : held (fd_of r) = held r.
Proof. unfold held, fd_of. destruct (r <? 0) eqn:E; [done|]. by rewrite E. Qed.

Lemma moves_drop_all fds l : moves S (held_all fds ++ l) (drop_fds fds) (fun _ => l).
Proof.
  unfold drop_fds. induction fds as [|fd fds IH]; [by apply moves_ret|]. cbn [for_all held_all map concat].
  rewrite <- app_assoc. eapply moves_bind; [apply moves_drop|]. intros ?. exact IH.
Qed.

Lemma moves_with_fd {A} fd (body : io W A) l :
  moves S (held fd ++ l) body (fun _ => held fd ++ l) -> moves S (held fd ++ l) (with_fd fd body) (fun _ => l).
Proof.
  intros H. unfold with_fd. eapply moves_bind; [exact H|]. intros a. eapply moves_bind; [apply moves_drop|].
  intros u. by apply moves_ret.
Qed.

Lemma moves_fold {A T} (xs : list A) (body : A -> T -> io W T) (hold : T -> list Z) s :
  (forall x s, moves S (hold s) (body x s) hold) -> moves S (hold s) (fold_io xs body s) hold.
Proof.
  intros H. revert s. induction xs as [|x xs IH]; intros s; cbn [fold_io]; [by apply moves_ret|].
  eapply moves_bind; [apply H|]. intros s'. apply IH.
Qed.

(** A loop that collects descriptors. *)
Lemma moves_collect {A} (open : A -> io W Z) xs l :
  (forall x l, moves S l (open x) (fun fd => held fd ++ l)) ->
  moves S l (fold_io xs (fun x fds => io_bind (open x) (fun fd => mret (if fd <? 0 then fds else fds ++ [fd]))) [])
    (fun fds => held_all fds ++ l).
Proof.
  intros H. apply (moves_fold xs _ (fun fds => held_all fds ++ l) []). intros x fds.
  eapply moves_bind; [apply H|]. intros fd. apply moves_ret. unfold held. destruct (fd <? 0) eqn:E; [done|].
  rewrite held_all_app. unfold held_all at 2. cbn. unfold held. rewrite E. cbn.
  rewrite <- app_assoc. cbn. by rewrite Permutation_middle.
Qed.

(** A child has descriptors of its own; its files are those of the parent. It
    starts with what the parent holds, and need not close it. *)
Definition holding {A} (l : list Z) (c : io W A) : Prop :=
  forall base l' w, owns base (l ++ l') w -> wp c (fun _ w' => agree (view := view) S w w') w.

Lemma holding_any {A} (c : io W A) l : (forall w, wp c (fun _ w' => agree (view := view) S w w') w) -> holding l c.
Proof. intros H base l' w _. apply H. Qed.

Lemma holding_bind {A B} (c : io W A) (k : A -> io W B) l mid :
  moves S l c mid -> (forall a, holding (mid a) (k a)) -> holding l (io_bind c k).
Proof.
  intros Hc Hk base l' w H. apply wp_bind. eapply wp_mono; [by apply Hc|]. intros a w1 [Ho H1].
  eapply wp_mono; [by eapply Hk|]. intros b w2 H2. exact (agree_trans S w w1 w2 H1 H2).
Qed.

Lemma moves_child {A} (body : io W A) l : holding l body -> moves S l (in_child_with body) (fun _ => l).
Proof.
  intros H base l' w Ho. unfold wp, in_child_with. specialize (H base l' w Ho). unfold wp in H.
  destruct (body w) as [[status w']|]; [|done]. split; [eapply owns_same; [apply join_fds|done]|].
  intros q Hq. rewrite join_view. by apply H.
Qed.

Lemma moves_start {A} (c : io W A) post : moves S [] c post -> forall w, wp c (fun _ w' => agree (view := view) S w w') w.
Proof. intros H w. eapply wp_mono; [apply (H (open_fds w) [] w), owns_nil|]. by intros a w' [_ Ha]. Qed.

(** [moves] with a property of the result. *)
Definition moves_to {A} (pre : list Z) (c : io W A) (post : A -> list Z) (P : A -> Prop) : Prop :=
  forall base l w, owns base (pre ++ l) w ->
    wp c (fun a w' => owns base (post a ++ l) w' /\ agree (view := view) S w w' /\ P a) w.

Lemma moves_to_ret {A} (a : A) pre (post : A -> list Z) (P : A -> Prop) :
  pre ≡ₚ post a -> P a -> moves_to pre (mret a) post P.
Proof. intros Hp HP base l w H. apply wp_ret. split; [by rewrite <- Hp|]. split; [apply agree_refl|done]. Qed.

Lemma moves_to_intro {A} (c : io W A) pre post : moves S pre c post -> moves_to pre c post (fun _ => True).
Proof. intros Hc base l w H. eapply wp_mono; [by apply Hc|]. by intros a w' [? ?]. Qed.

Lemma moves_to_call c l (P : Z -> Prop) : is_fd_call c = false -> spares S c -> (forall w, P (fst (w_call c w))) ->
  moves_to l (do_call c) (fun _ => l) P.
Proof.
  intros Hc Hs HP base l' w H. apply wp_call. split; [eapply owns_same; [by apply other_calls|done]|].
  split; [|apply HP]. intros q Hq. by apply call_frame, Hs.
Qed.

Lemma moves_to_bind_to {A B} (c : io W A) (k : A -> io W B) pre mid P post Q :
  moves_to pre c mid P -> (forall a, P a -> moves_to (mid a) (k a) post Q) -> moves_to pre (io_bind c k) post Q.
Proof.
  intros Hc Hk base l w H. apply wp_bind. eapply wp_mono; [by apply Hc|]. intros a w1 (Ho & H1 & HP).
  eapply wp_mono; [by apply (Hk a HP)|]. intros b w2 (Ho2 & H2 & HQ). split; [done|]. split; [|done].
  exact (agree_trans S w w1 w2 H1 H2).
Qed.

Lemma moves_to_bind {A B} (c : io W A) (k : A -> io W B) pre mid post Q :
  moves S pre c mid -> (forall a, moves_to (mid a) (k a) post Q) -> moves_to pre (io_bind c k) post Q.
Proof. intros Hc Hk. eapply moves_to_bind_to; [by apply moves_to_intro|]. intros a _. apply Hk. Qed.

Lemma moves_bind_to {A B} (c : io W A) (k : A -> io W B) pre mid P post :
  moves_to pre c mid P -> (forall a, P a -> moves S (mid a) (k a) post) -> moves S pre (io_bind c k) post.
Proof.
  intros Hc Hk base l w H. apply wp_bind. eapply wp_mono; [by apply Hc|]. intros a w1 (Ho & H1 & HP).
  eapply wp_mono; [by apply (Hk a HP)|]. intros b w2 [Ho2 H2]. split; [done|].
  exact (agree_trans S w w1 w2 H1 H2).
Qed.

Lemma moves_to_at_some {A B} (a : A) o (k : A -> io W B) l post P :
  o = Some a -> moves_to l (k a) post P -> moves_to l (io_bind (abort_if_none o) k) post P.
Proof. intros -> H. exact H. Qed.

Lemma moves_to_perm {A} pre pre' (c : io W A) post P : pre ≡ₚ pre' -> moves_to pre' c post P -> moves_to pre c post P.
Proof. intros Hp H base l w Ho. apply H. by rewrite <- Hp. Qed.

(** What [moves] says of a whole program. *)
Lemma moves_whole {A} (c : io W A) : moves S [] c (fun _ => []) ->
  forall w, exists a w', c w = Some (a, w') /\ open_fds w' = open_fds w /\ agree (view := view) S w w'.
Proof.
  intros H w. apply wp_exists. eapply wp_mono; [apply (H (open_fds w) [] w), owns_nil|].
  intros a w' [Ho Ha]. split; [by apply (owns_none _ _ Ho)|done].
Qed.

Lemma spares_nothing c : targets c = [] -> spares S c.
Proof. intros E q _. by rewrite E. Qed.

Lemma spares_path c p : targets c = [p] -> (forall q, S q -> plain p = true /\ ~ below p q) -> spares S c.
Proof. intros E H q Hq. rewrite E. constructor; [by apply H|constructor]. Qed.

Lemma spares_open p flags mode :
  flags = O_RDONLY \/ (forall q, S q -> plain p = true /\ ~ below p q) -> spares S (OpenFile p flags mode).
Proof.
  intros [-> | H] q Hq; [apply Forall_nil_2|]. cbn [targets]. destruct (nz _); [|apply Forall_nil_2].
  apply Forall_cons. split; [by apply H|apply Forall_nil_2].
Qed.

End Moves.

(** One step of a program; a path has to be spared by a hypothesis. *)
Ltac spare :=
  solve [ by apply spares_nothing
        | eapply spares_path; [reflexivity|]; eauto
        | apply spares_open; eauto
        | eauto ].

Ltac move_step :=
  match goal with
  | |- moves _ _ (io_bind (do_call _) _) _ => eapply moves_bind; [apply moves_call; [done|spare]|]; intros ?; cbv beta
  | |- moves _ _ (io_bind (ask _) _) _ => eapply moves_bind; [apply moves_ask|]; intros ?; cbv beta
  | |- moves _ _ (io_bind (open_file _ _ _) _) _ => eapply moves_bind; [apply moves_open; spare|]; intros ?; cbv beta
  end.
