(* ===== verification/ProcFs.v ===== *)
(** A concrete world with descriptors: the file system of [SimpleFs], a table
    of descriptors that are numbered upwards and never used twice, and tools
    that write a fixed text to the files they may write and exit with a fixed
    status. The witnesses of the theorems about descriptors run in it. *)

From S2P Require Import Prelude Platform Fts InstalldPaths InstalldFs World SimpleFs Descriptors.

Open Scope Z_scope.

Record pstate := PState { p_fs : fs; p_next : Z; p_fds : gset Z }.

Definition set_fs (s : pstate) (w : fs) : pstate := PState w (p_next s) (p_fds s).

Definition has_flag (flags f : Z) : bool := nz (Z.land flags f).

(** The result and the file system of an [open] that may create. *)
Definition open_node (w : fs) (p : str) (flags mode : Z) : option Z * fs :=
  match w p with
  | Some n =>
      if has_flag flags O_CREAT && has_flag flags O_EXCL then (Some EEXIST, w)
      else if has_flag flags O_TRUNC then (None, set_node w p (Node (n_dir n) (n_mode n) []))
      else (None, w)
  | None => if has_flag flags O_CREAT then (None, set_node w p (Node false mode [])) else (Some ENOENT, w)
  end.

Definition proc_new (s : pstate) (w : fs) : Z * pstate :=
  if (p_next s <? 0) || bool_decide (p_next s ∈ p_fds s) then (-24, s)
  else (p_next s, PState w (p_next s + 1) ({[p_next s]} ∪ p_fds s)).

Definition proc_open (s : pstate) (p : str) (flags mode : Z) : Z * pstate :=
  match open_node (p_fs s) p flags mode with
  | (Some e, _) => (- e, s)
  | (None, w) => proc_new s w
  end.

Definition set_data (w : fs) (p : str) (d : str) : fs :=
  match w p with Some n => set_node w p (Node (n_dir n) (n_mode n) d) | None => w end.

Definition set_mode (w : fs) (p : str) (m : Z) : fs :=
  match w p with Some n => set_node w p (Node (n_dir n) m (n_data n)) | None => w end.

Definition unlink_node (w : fs) (p : str) : Z * fs :=
  match w p with
  | None => (ENOENT, w)
  | Some n => if n_dir n then (21, w) else (0, fun q => if q =s? p then None else w q)
  end.

(** What a file holds after a write at an offset, which fills a gap with
    zeros. *)
Definition overlay (data : str) (off : nat) (bytes : str) : str :=
  take off data ++ repeat nul (off - length data) ++ bytes ++ drop (off + length bytes) data.

(** What a tool writes. *)
Definition tool_output : str := lit "compiled".

Definition proc_fs_call (status : Z) (c : call) (w : fs) : Z * fs :=
  match c with
  | RemoveFile p => unlink_node w p
  | RemoveEmptyDir p => (match w p with Some _ => 39 | None => ENOENT end, w)
  | TruncateFd _ p => (0, set_data w p [])
  | ModeFd _ p m => (0, set_mode w p m)
  | WriteFd _ p off d =>
      (Z.of_nat (length d), match w p with
                            | Some n => set_node w p (Node (n_dir n) (n_mode n) (overlay (n_data n) (Z.to_nat off) d))
                            | None => w
                            end)
  | Child _ _ writes => (status, foldl (fun w p => set_data w p tool_output) w writes)
  | _ => fs_call c w
  end.

Definition proc_call (status : Z) (c : call) (s : pstate) : Z * pstate :=
  match c with
  | OpenFile p flags mode => proc_open s p flags mode
  | PipeEnd _ => proc_new s (p_fs s)
  | CloseFd fd =>
      (if bool_decide (fd ∈ p_fds s) then 0 else -1, PState (p_fs s) (p_next s) (p_fds s ∖ {[fd]}))
  | _ => let '(r, w) := proc_fs_call status c (p_fs s) in (r, set_fs s w)
  end.

Section Instances.
Context (status : Z).

#[export] Instance proc_fs : World pstate := {|
  w_access s p := w_access (p_fs s) p;
  w_isdir s p := w_isdir (p_fs s) p;
  w_stat s p := w_stat (p_fs s) p;
  w_lstat s p := w_lstat (p_fs s) p;
  w_opendir s := w_opendir (p_fs s);
  w_tree s := w_tree (p_fs s);
  w_attr s := w_attr (p_fs s);
  w_label s := w_label (p_fs s);
  w_call := proc_call status;
|}.

#[export] Instance proc_table : Process pstate := {|
  open_fds := p_fds;
  exit_status _ code := Z.shiftl (code mod 256) 8;
  join_child s s' := set_fs s (p_fs s');
  drop_failure _ _ := None;
|}.

Definition proc_view (s : pstate) (q : str) : option node := fs_view (p_fs s) q.

(** * It keeps the promises *)

Lemma set_node_view w p n q : q =s? p = false -> fs_view (set_node w p n) q = fs_view w q.
Proof. intros H. unfold fs_view, set_node. by rewrite H. Qed.

Lemma set_data_view w p d q : q =s? p = false -> fs_view (set_data w p d) q = fs_view w q.
Proof. intros H. unfold set_data. destruct (w p); [by apply set_node_view|done]. Qed.

Lemma set_mode_view w p m q : q =s? p = false -> fs_view (set_mode w p m) q = fs_view w q.
Proof. intros H. unfold set_mode. destruct (w p); [by apply set_node_view|done]. Qed.

Lemma unlink_view w p q : q =s? p = false -> fs_view (snd (unlink_node w p)) q = fs_view w q.
Proof.
  intros H. unfold unlink_node. destruct (w p) as [n|]; [|done]. destruct (n_dir n); [done|].
  cbn. unfold fs_view. by rewrite H.
Qed.

Lemma open_node_view w p flags mode q :
  Forall (fun p => plain p = true /\ ~ below p q) (targets (OpenFile p flags mode)) ->
  fs_view (snd (open_node w p flags mode)) q = fs_view w q.
Proof.
  intros H. unfold open_node. cbn [targets] in H. destruct (nz _) eqn:E.
  - apply Forall_cons in H as [[_ H] _]. apply below_neq in H.
    destruct (w p) as [n|]; repeat case_match; cbn [snd]; by rewrite ?set_node_view.
  - apply negb_false_iff, Z.eqb_eq in E. rewrite Z.land_lor_distr_r in E. apply Z.lor_eq_0_iff in E as [Hc Ht].
    unfold has_flag. rewrite Hc, Ht. change (nz 0) with false. cbn [andb]. by destruct (w p).
Qed.

Lemma tools_view w writes q :
  Forall (fun p => plain p = true /\ ~ below p q) writes ->
  fs_view (foldl (fun w p => set_data w p tool_output) w writes) q = fs_view w q.
Proof.
  revert w. induction writes as [|p ps IH]; intros w H; [done|]. apply Forall_cons in H as [[_ Hp] H].
  cbn [foldl]. rewrite IH by done. by apply set_data_view, below_neq.
Qed.

Lemma proc_call_frame c s q :
  Forall (fun p => plain p = true /\ ~ below p q) (targets c) ->
  proc_view (snd (proc_call status c s)) q = proc_view s q.
Proof.
  intros H. unfold proc_view.
  assert (Hs : forall p, Forall (fun p => plain p = true /\ ~ below p q) [p] -> q =s? p = false).
  { intros p [[_ Hp] _]%Forall_cons. by apply below_neq. }
  destruct c; cbn [proc_call proc_fs_call]; try (cbn [snd set_fs p_fs]; done);
    try (match goal with |- context [fs_call ?c ?w] =>
           rewrite <- (fs_call_frame c w q H); by destruct (fs_call c w) end).
  - rewrite <- (unlink_view (p_fs s) path q) by by apply Hs. by destruct (unlink_node _ _).
  - unfold proc_open. pose proof (open_node_view (p_fs s) path flags mode q H) as Hv.
    destruct (open_node _ _ _ _) as [[e|] w]; [done|]. unfold proc_new. by destruct (_ || _).
  - unfold proc_new. by destruct (_ || _).
  - cbn. apply Hs in H. by apply set_data_view.
  - cbn. apply Hs in H. by apply set_mode_view.
  - cbn. apply Hs in H. destruct (p_fs s path); [by apply set_node_view|done].
  - cbn. by apply tools_view.
Qed.

#[export] Instance proc_fs_ok : WorldOk proc_fs proc_view n_dir.
Proof.
  split; cbn [proc_fs w_access w_isdir w_stat w_opendir w_call w_tree]; unfold proc_view.
  - intros s. apply (access_view (view := fs_view)).
  - intros s. apply (isdir_view (view := fs_view)).
  - intros s. apply (stat_view (view := fs_view)).
  - intros s. apply (listed_names (view := fs_view)).
  - intros s. apply (tree_names (view := fs_view)).
  - apply proc_call_frame.
  - intros c s q Hc. by destruct c.
  - intros p mode s Hp. cbn [proc_call proc_fs_call]. pose proof (made_done (view := fs_view) p mode (p_fs s) Hp) as H.
    cbn [w_call simple_fs] in H. by destruct (fs_call _ _).
  - intros p also ign s q Hp. cbn [proc_call proc_fs_call].
    pose proof (delete_shrinks (view := fs_view) p also ign (p_fs s) q Hp) as H.
    cbn [w_call simple_fs] in H. by destruct (fs_call _ _).
  - intros p also ign s Hp. cbn [proc_call proc_fs_call].
    pose proof (delete_done (view := fs_view) p also ign (p_fs s) Hp) as H.
    cbn [w_call simple_fs] in H. by destruct (fs_call _ _).
  - intros from to s q Hf Ht. cbn [proc_call proc_fs_call].
    pose proof (copy_frame (view := fs_view) from to (p_fs s) q Hf Ht) as H.
    cbn [w_call simple_fs] in H. by destruct (fs_call _ _).
  - intros from to s Hf Ht. cbn [proc_call proc_fs_call].
    pose proof (copy_done (view := fs_view) from to (p_fs s) Hf Ht) as H.
    cbn [w_call simple_fs] in H. by destruct (fs_call _ _).
Qed.

(** What an opening call may answer. *)
Definition opened (s : pstate) (x : Z * pstate) : Prop :=
  fst x < 0 /\ p_fds (snd x) = p_fds s \/
  0 <= fst x /\ fst x ∉ p_fds s /\ p_fds (snd x) = {[fst x]} ∪ p_fds s.

Lemma proc_opened c s : is_open_call c = true -> opened s (proc_call status c s).
Proof.
  assert (N : forall w, opened s (proc_new s w)).
  { intros w. unfold proc_new. destruct (_ || _) eqn:E; [by left|].
    apply orb_false_iff in E as [E%Z.ltb_ge H%bool_decide_eq_false]. by right. }
  destruct c; try done; intros _; cbn [proc_call]; [|apply N].
  unfold proc_open. destruct (open_node _ _ _ _) as [[e|] w] eqn:Eo; [|apply N]. left. split; [|done].
  unfold open_node in Eo. repeat case_match; simplify_eq; done.
Qed.

#[export] Instance proc_table_ok : ProcessOk proc_fs proc_table proc_view.
Proof.
  split; cbn [proc_fs proc_table w_call open_fds join_child proc_call].
  - intros c s Hc Hr. destruct (proc_opened c s Hc) as [[H _]|(_ & H)]; [lia|done].
  - intros c s Hc Hr. destruct (proc_opened c s Hc) as [[_ ->]|(H & _)]; [done|lia].
  - done.
  - intros c s Hc. destruct c; try done; cbn [proc_call]; by destruct (proc_fs_call _ _ _).
  - done.
  - done.
Qed.

End Instances.
