(* ===== verification/Profiles.v ===== *)
(** Profiles of compiled code: [installd/dexopt.cpp] and the handlers of
    [InstalldNativeService.cpp] that manage them.

    A reference profile collects the current profiles of all users; [profman]
    merges them and says with its exit code whether compiling is worth it. The
    profiles are opened by the daemon, and only their descriptors reach the
    tool. *)

From S2P Require Import Prelude Platform Fts InstalldPaths InstalldFs FreeCache World SimpleFs AppPaths AppData.
From S2P Require Import DexPaths Dex2oat Descriptors ProcFs.

Open Scope Z_scope.
Open Scope io_scope.

Section Profiles.
Context {W : Type} {world : World W} {proc : Process W}.
Context {aid : AidRanges} {mu : Multiuser}.
(* ro.debuggable *)
Context (debuggable : bool) (G : globals) (env : DexEnv).
(* what lies below /data/misc/profiles *)
Context (profile_tree : W -> option (list (str * dtype * pnode))).

(** * Clearing *)

(** A profile that its owner has locked is in use and stays as it is. *)
Definition clear_profile (profile : str) : io W bool :=
  r ← open_file profile (Z.lor O_WRONLY (Z.lor O_NOFOLLOW O_CLOEXEC)) 0;
  if r <? 0 then mret (r =? - ENOENT)
  else with_fd r (
    locked ← do_call (LockFd r profile (Z.lor LOCK_EX LOCK_NB));
    if nz locked then mret false
    else
      truncated ← do_call (TruncateFd r profile);
      _ ← do_call (LockFd r profile LOCK_UN);
      mret (negb (nz truncated))).

Definition current_path (user : N) (package_name location : str) (is_secondary_dex : bool) : io W str :=
  abort_if_none (create_current_profile_path G user package_name location is_secondary_dex).
Definition reference_path (package_name location : str) (is_secondary_dex : bool) : io W str :=
  abort_if_none (create_reference_profile_path G package_name location is_secondary_dex).

Definition clear_reference_profile (package_name location : str) (is_secondary_dex : bool) : io W bool :=
  p ← reference_path package_name location is_secondary_dex; clear_profile p.

Definition clear_current_profile (package_name location : str) (user : N) (is_secondary_dex : bool) : io W bool :=
  p ← current_path user package_name location is_secondary_dex; clear_profile p.

Definition clear_primary_reference_profile (package_name location : str) : io W bool :=
  clear_reference_profile package_name location false.

Definition clear_primary_current_profiles (package_name location : str) : io W bool :=
  users ← known_users debuggable None;
  fold_io users (fun user success =>
    c ← clear_current_profile package_name location user false; mret (success && c)) true.

(** [InstalldNativeService::clearAppProfiles] *)
Definition clearAppProfiles (calling_uid : Z) (packageName profileName : str) : io W reply :=
  enforce [checkUid calling_uid AID_SYSTEM; checkArgumentPackageName packageName] (
    reference ← clear_primary_reference_profile packageName profileName;
    current ← clear_primary_current_profiles packageName profileName;
    mret (if reference && current then Ok else Error)).

(** * Opening *)

(** The answers are descriptors, [-1] where there is none. *)
Definition create_profile (uid : Z) (profile : str) (flags : Z) : io W Z :=
  r ← open_file profile flags 384;
  if (r <? 0) && negb (r =? - EEXIST) then mret (-1)
  else
    owned ← do_call (OwnerFd (fd_of r) profile uid uid);
    if owned <? 0 then (_ ← drop_fd (fd_of r); mret (-1)) else mret (fd_of r).

Definition open_profile (uid : Z) (profile : str) (flags : Z) : io W Z :=
  let flags := Z.lor flags O_NOFOLLOW in
  if nz (Z.land flags O_CREAT) then create_profile uid profile flags
  else (r ← open_file profile flags 0; mret (fd_of r)).

Definition open_current_profile (uid : Z) (user : N) (package_name location : str) (is_secondary_dex : bool) : io W Z :=
  p ← current_path user package_name location is_secondary_dex; open_profile uid p O_RDONLY.

Definition open_reference_profile (uid : Z) (package_name location : str) (read_write is_secondary_dex : bool) : io W Z :=
  p ← reference_path package_name location is_secondary_dex;
  open_profile uid p (if read_write then Z.lor O_CREAT O_RDWR else O_RDONLY).

Definition open_snapshot_profile (uid : Z) (package_name location : str) : io W Z :=
  p ← abort_if_none (create_snapshot_profile_path G package_name location);
  open_profile uid p (Z.lor O_CREAT (Z.lor O_RDWR O_TRUNC)).

(** The descriptors of the current profiles, and that of the reference
    profile. *)
Definition open_profile_files (uid : Z) (package_name location : str) (is_secondary_dex : bool)
    : io W (list Z * Z) :=
  reference ← open_reference_profile uid package_name location true is_secondary_dex;
  users ← (if is_secondary_dex then mret [userid (multiuser_get_user_id uid)] else known_users debuggable None);
  profiles ← fold_io users (fun user fds =>
    fd ← open_current_profile uid user package_name location is_secondary_dex;
    mret (if fd <? 0 then fds else fds ++ [fd])) [];
  mret (profiles, reference).

(** * Merging *)

Definition PROFMAN_BIN_RETURN_CODE_COMPILE : Z := 0.
Definition PROFMAN_BIN_RETURN_CODE_SKIP_COMPILATION : Z := 1.
Definition PROFMAN_BIN_RETURN_CODE_BAD_PROFILES : Z := 2.
Definition PROFMAN_BIN_RETURN_CODE_ERROR_IO : Z := 3.
Definition PROFMAN_BIN_RETURN_CODE_ERROR_LOCKING : Z := 4.

(** Whether to compile, to clear the current profiles and to clear the
    reference profile. *)
Definition profman_verdict (status : Z) : bool * bool * bool :=
  if negb (WIFEXITED status) then (false, false, false)
  else
    let return_code := WEXITSTATUS status in
    if return_code =? PROFMAN_BIN_RETURN_CODE_COMPILE then (true, true, false)
    else if return_code =? PROFMAN_BIN_RETURN_CODE_SKIP_COMPILATION then (false, false, false)
    else if return_code =? PROFMAN_BIN_RETURN_CODE_BAD_PROFILES then (false, true, true)
    else if (return_code =? PROFMAN_BIN_RETURN_CODE_ERROR_IO) || (return_code =? PROFMAN_BIN_RETURN_CODE_ERROR_LOCKING)
    then (false, false, false)
    else (false, true, true).

(** A child that drops its capabilities and executes a tool; the wait status.
    The argument vector is made before the fork. *)
Definition run_tool (argv : option (list str)) (uid : Z) (writes : list str) : io W Z :=
  a ← abort_if_none argv; do_call (Child a uid writes).

Definition analyze_profiles (uid : Z) (package_name location : str) (is_secondary_dex : bool) : io W bool :=
  '(profiles_fd, reference_profile_fd) ← open_profile_files uid package_name location is_secondary_dex;
  need_to_compile ← (
    if bool_decide (profiles_fd = []) || (reference_profile_fd <? 0) then mret false
    else
      p ← reference_path package_name location is_secondary_dex;
      status ← run_tool (SetupMerge env profiles_fd reference_profile_fd [] [] false) uid [p];
      let '(need, clear_current, clear_reference) := profman_verdict status in
      _ ← (if clear_current then
             if is_secondary_dex
             then clear_current_profile package_name location (userid (multiuser_get_user_id uid)) is_secondary_dex
             else clear_primary_current_profiles package_name location
           else mret true);
      _ ← (if clear_reference then clear_reference_profile package_name location is_secondary_dex else mret true);
      mret need);
  _ ← drop_fd reference_profile_fd;
  _ ← drop_fds profiles_fd;
  mret need_to_compile.

Definition analyze_primary_profiles (uid : Z) (package_name profile_name : str) : io W bool :=
  analyze_profiles uid package_name profile_name false.

Definition dump_profiles (uid : Z) (pkgname profile_name code_path : str) : io W bool :=
  let out_file_name := lit "/data/misc/profman/" ++ pkgname ++ lit "-" ++ profile_name ++ lit ".txt" in
  '(profile_fds, reference_profile_fd) ← open_profile_files uid pkgname profile_name false;
  res ← (
    if bool_decide (profile_fds = []) && (reference_profile_fd =? -1) then mret false
    else
      out ← open_file out_file_name (Z.lor O_WRONLY (Z.lor O_CREAT (Z.lor O_TRUNC O_NOFOLLOW))) 420;
      with_fd (fd_of out) (
        m ← do_call (ModeFd (fd_of out) out_file_name 420);
        if m <? 0 then mret false
        else
          apk ← open_file code_path (Z.lor O_RDONLY O_NOFOLLOW) 0;
          if apk <? 0 then mret false
          else with_fd apk (
            status ← run_tool (SetupDump env profile_fds reference_profile_fd [get_location_from_path code_path] [apk]
                                 (fd_of out)) uid [out_file_name];
            mret (WIFEXITED status))));
  _ ← drop_fd reference_profile_fd;
  _ ← drop_fds profile_fds;
  mret res.

(** * Snapshots *)

(** [false] where an element cannot be opened; the descriptors opened before
    are answered too. *)
Fixpoint open_classpath_files (elems : list str) (apk_fds : list Z) : io W (bool * list Z) :=
  match elems with
  | [] => mret (true, apk_fds)
  | elem :: elems' =>
      r ← open_file elem O_RDONLY 0;
      if r <? 0 then mret (false, apk_fds) else open_classpath_files elems' (apk_fds ++ [r])
  end.

Definition create_app_profile_snapshot (app_id : Z) (package_name profile_name classpath : str) : io W bool :=
  let app_shared_gid := multiuser_get_shared_gid 0 app_id in
  snapshot ← open_snapshot_profile AID_SYSTEM package_name profile_name;
  if snapshot <? 0 then mret false
  else with_fd snapshot (
    '(profiles_fd, reference_profile_fd) ← open_profile_files app_shared_gid package_name profile_name false;
    res ← (
      if bool_decide (profiles_fd = []) || (reference_profile_fd <? 0) then mret false
      else
        let elems := split_on ":" classpath in
        '(opened, apk_fds) ← open_classpath_files elems [];
        r ← (if opened then
               p ← abort_if_none (create_snapshot_profile_path G package_name profile_name);
               status ← run_tool (SetupMerge env (profiles_fd ++ [reference_profile_fd]) snapshot apk_fds elems false)
                          app_shared_gid [p];
               mret (WIFEXITED status)
             else mret false);
        _ ← drop_fds apk_fds;
        mret r);
    _ ← drop_fd reference_profile_fd;
    _ ← drop_fds profiles_fd;
    mret res).

Definition kAggregationBatchSize : nat := 10.

(** The profiles of a batch that can be opened. *)
Definition open_batch (profiles : list str) : io W (list Z) :=
  fold_io profiles (fun p fds =>
    fd ← open_profile AID_SYSTEM p O_RDONLY; mret (if fd <? 0 then fds else fds ++ [fd])) [].

(** The loop over the batches: its body returns in the first round. *)
Definition merge_batches (profiles : list str) (snapshot : Z) (snapshot_path : str) (apk_fds : list Z) (elems : list str)
    : io W bool :=
  match profiles with
  | [] => mret true
  | _ =>
      fds ← open_batch (take kAggregationBatchSize profiles);
      status ← run_tool (SetupMerge env fds snapshot apk_fds elems true) AID_SYSTEM [snapshot_path];
      _ ← drop_fds fds;
      mret (WIFEXITED status)
  end.

Definition create_boot_image_profile_snapshot (package_name profile_name classpath : str) : io W bool :=
  ref_profile_dir ← abort_if_none (create_primary_reference_profile_package_dir_path G package_name);
  made ← do_call (PrepareDir ref_profile_dir 504 AID_SYSTEM AID_SYSTEM);
  if nz made then mret false
  else if bool_decide (classpath = []) then mret false
  else
    snapshot ← open_snapshot_profile AID_SYSTEM package_name profile_name;
    with_fd snapshot (
      tree ← ask profile_tree;
      let profiles := snd (collect_profiles G tree []) in
      if bool_decide (profiles = []) then mret true
      else
        let elems := split_on ":" classpath in
        '(opened, apk_fds) ← open_classpath_files elems [];
        r ← (if negb opened then mret false
             else if bool_decide (apk_fds = []) then mret false
             else
               p ← abort_if_none (create_snapshot_profile_path G package_name profile_name);
               merge_batches profiles snapshot p apk_fds elems);
        _ ← drop_fds apk_fds;
        mret r).

Definition create_profile_snapshot (app_id : Z) (package_name profile_name classpath : str) : io W bool :=
  if app_id =? -1 then create_boot_image_profile_snapshot package_name profile_name classpath
  else create_app_profile_snapshot app_id package_name profile_name classpath.

Definition prepare_app_profile (package_name : str) (user_id : Z) (app_id : Z) (profile_name code_path : str)
    (dex_metadata : option str) : io W bool :=
  cur_profile ← current_path (userid user_id) package_name profile_name false;
  let uid := multiuser_get_uid user_id app_id in
  made ← do_call (PrepareFileStrict cur_profile 384 uid uid);
  if nz made then mret false
  else
    match dex_metadata with
    | None => mret true
    | Some dm =>
        reference ← open_reference_profile uid package_name profile_name true false;
        dm_r ← open_file dm (Z.lor O_RDONLY O_NOFOLLOW) 0;
        apk ← open_file code_path (Z.lor O_RDONLY O_NOFOLLOW) 0;
        res ← (
          if apk <? 0 then mret false
          else
            p ← reference_path package_name profile_name false;
            status ← run_tool (SetupCopyAndUpdate env (fd_of dm_r) reference apk code_path)
                       (multiuser_get_shared_gid user_id app_id) [p];
            mret (WIFEXITED status));
        _ ← drop_fd (fd_of apk);
        _ ← drop_fd (fd_of dm_r);
        _ ← drop_fd reference;
        mret res
    end.

(** * Handlers *)

(** The reply, and the answer where there is one. *)
Definition enforce_bool (checks : list status) (k : io W bool) : io W (reply * bool) :=
  match List.find (fun s => negb (bool_decide (s = StatusOk))) checks with
  | Some s => mret (Denied s, false)
  | None => b ← k; mret (Ok, b)
  end.

Definition dumpProfiles (calling_uid uid : Z) (packageName profileName codePath : str) : io W (reply * bool) :=
  enforce_bool [checkUid calling_uid AID_SYSTEM; checkArgumentPackageName packageName; checkArgumentPath codePath]
    (dump_profiles uid packageName profileName codePath).

Definition mergeProfiles (calling_uid uid : Z) (packageName profileName : str) : io W (reply * bool) :=
  enforce_bool [checkUid calling_uid AID_SYSTEM; checkArgumentPackageName packageName]
    (analyze_primary_profiles uid packageName profileName).

Definition createProfileSnapshot (calling_uid appId : Z) (packageName profileName classpath : str) : io W (reply * bool) :=
  enforce_bool [checkUid calling_uid AID_SYSTEM; checkArgumentPackageName packageName]
    (create_profile_snapshot appId packageName profileName classpath).

Definition destroyProfileSnapshot (calling_uid : Z) (packageName profileName : str) : io W reply :=
  enforce [checkUid calling_uid AID_SYSTEM; checkArgumentPackageName packageName] (
    snapshot ← abort_if_none (create_snapshot_profile_path G packageName profileName);
    r ← do_call (RemoveFile snapshot);
    mret (if nz r && negb (r =? ENOENT) then Error else Ok)).

Definition prepareAppProfile (calling_uid : Z) (packageName : str) (userId appId : Z) (profileName codePath : str)
    (dexMetadata : option str) : io W (reply * bool) :=
  enforce_bool [checkUid calling_uid AID_SYSTEM; checkArgumentPackageName packageName; checkArgumentPath codePath]
    (prepare_app_profile packageName userId appId profileName codePath dexMetadata).

End Profiles.

(** * Lemmas *)

Lemma known_users_some debuggable entries : exists ids, get_known_users debuggable entries None = Some ids.
Proof. unfold get_known_users, create_data_path. cbn. destruct (entries _); eauto. Qed.

Section Moves.
Context {W : Type} {world : World W} {proc : Process W} {Node : Type} {view : W -> str -> option Node}.
Context {is_dir : Node -> bool} {ok : WorldOk world view is_dir} {pok : ProcessOk world proc view}.
Context {aid : AidRanges} {mu : Multiuser}.
Context (debuggable : bool) (G : globals) (env : DexEnv) (profile_tree : W -> option (list (str * dtype * pnode))).
Context (S : str -> Prop).

(** [S] leaves the path out. *)
Definition spared (p : str) : Prop := forall q, S q -> plain p = true /\ ~ below p q.

Abbreviation moves := (moves (view := view) S).

Lemma moves_known_users l : moves l (known_users debuggable None) (fun _ => l).
Proof.
  unfold known_users. move_step. destruct (known_users_some debuggable a) as [ids ->].
  eapply moves_bind; [by eapply moves_some|]. intros x. by apply moves_ret.
Qed.

Lemma moves_clear_profile p l : spared p -> moves l (clear_profile p) (fun _ => l).
Proof.
  intros Hp. unfold clear_profile. move_step. unfold held. destruct (a <? 0) eqn:E; [by apply moves_ret|].
  replace ([a] ++ l) with (held a ++ l) by (unfold held; by rewrite E).
  apply moves_with_fd. move_step. destruct (nz _); [by apply moves_ret|]. do 2 move_step. by apply moves_ret.
Qed.

Lemma moves_create_profile uid p flags l : spared p ->
  moves l (create_profile uid p flags) (fun fd => held fd ++ l).
Proof.
  intros Hp. unfold create_profile.
  move_step. destruct ((a <? 0) && _) eqn:E.
  - apply andb_true_iff in E as [E _]. apply moves_ret. unfold held. by rewrite E.
  - move_step. rewrite <- held_fd_of. destruct (a0 <? 0); [|by apply moves_ret].
    eapply moves_bind; [apply moves_drop|]. intros u. by apply moves_ret.
Qed.

Lemma moves_open_profile uid p flags l : (flags = O_RDONLY \/ spared p) ->
  moves l (open_profile uid p flags) (fun fd => held fd ++ l).
Proof.
  intros Hp. unfold open_profile. destruct Hp as [->|Hp].
  - change (nz _) with false. cbv iota. move_step. rewrite <- held_fd_of. by apply moves_ret.
  - destruct (nz _) eqn:E; [by apply moves_create_profile|].
    move_step. rewrite <- held_fd_of. by apply moves_ret.
Qed.

(** The profiles of a location can be named, and [S] leaves them out. *)
Record profiles_ok (pkg loc : str) (sec : bool) : Prop := {
  current_some : forall u, is_Some (create_current_profile_path G u pkg loc sec);
  reference_some : is_Some (create_reference_profile_path G pkg loc sec);
  current_spared : forall u p, create_current_profile_path G u pkg loc sec = Some p -> spared p;
  reference_spared : forall p, create_reference_profile_path G pkg loc sec = Some p -> spared p;
}.

Section Location.
Context (pkg loc : str) (sec : bool) (Hok : profiles_ok pkg loc sec).

Lemma moves_at_current {A} (k : str -> io W A) u l post :
  (forall p, spared p -> moves l (k p) post) -> moves l (io_bind (current_path G u pkg loc sec) k) post.
Proof.
  intros Hk. destruct (current_some _ _ _ Hok u) as [p Hp]. unfold current_path. rewrite Hp.
  intros base l' w H. apply (Hk p); [|done]. by eapply current_spared.
Qed.

Lemma moves_at_reference {A} (k : str -> io W A) l post :
  (forall p, spared p -> moves l (k p) post) -> moves l (io_bind (reference_path G pkg loc sec) k) post.
Proof.
  intros Hk. destruct (reference_some _ _ _ Hok) as [p Hp]. unfold reference_path. rewrite Hp.
  intros base l' w H. apply (Hk p); [|done]. by eapply reference_spared.
Qed.

Lemma moves_clear_reference l : moves l (clear_reference_profile G pkg loc sec) (fun _ => l).
Proof. apply moves_at_reference. intros p. apply moves_clear_profile. Qed.

Lemma moves_clear_current u l : moves l (clear_current_profile G pkg loc u sec) (fun _ => l).
Proof. apply moves_at_current. intros p. apply moves_clear_profile. Qed.

Lemma moves_open_current uid u l : moves l (open_current_profile G uid u pkg loc sec) (fun fd => held fd ++ l).
Proof. apply moves_at_current. intros p Hp. apply moves_open_profile. by right. Qed.

Lemma moves_open_reference uid rw l : moves l (open_reference_profile G uid pkg loc rw sec) (fun fd => held fd ++ l).
Proof. apply moves_at_reference. intros p Hp. apply moves_open_profile. by right. Qed.

Lemma moves_open_profile_files uid l :
  moves l (open_profile_files debuggable G uid pkg loc sec) (fun r => held_all (fst r) ++ held (snd r) ++ l).
Proof.
  unfold open_profile_files. eapply moves_bind; [apply moves_open_reference|]. intros ref.
  eapply (moves_bind S _ _ _ (fun _ => held ref ++ l)).
  { destruct sec; [by apply moves_ret|apply moves_known_users]. }
  intros users. eapply moves_bind; [apply moves_collect; intros; apply moves_open_current|].
  intros fds. by apply moves_ret.
Qed.

End Location.

Lemma moves_run_tool bin its argv uid writes l : started bin its argv -> Forall spared writes ->
  moves l (run_tool argv uid writes) (fun _ => l).
Proof.
  intros (args & -> & _) Hw. unfold run_tool. eapply moves_bind; [by eapply moves_some|]. intros a.
  apply moves_call; [done|]. intros q Hq. eapply Forall_impl; [exact Hw|]. intros p Hp. by apply Hp.
Qed.

Lemma moves_tool_exited bin its argv uid writes l : started bin its argv -> Forall spared writes ->
  moves l (status ← run_tool argv uid writes; mret (WIFEXITED status)) (fun _ => l).
Proof. intros Ha Hw. eapply moves_bind; [by eapply moves_run_tool|]. intros status. by apply moves_ret. Qed.

Lemma moves_clear_primary_current pkg loc l : profiles_ok pkg loc false ->
  moves l (clear_primary_current_profiles debuggable G pkg loc) (fun _ => l).
Proof.
  intros Hok. eapply moves_bind; [apply moves_known_users|]. intros users.
  apply (moves_fold S _ _ (fun _ => l)). intros u s.
  eapply moves_bind; [by apply moves_clear_current|]. intros c. by apply moves_ret.
Qed.

Lemma moves_analyze_profiles uid pkg loc sec l : profiles_ok pkg loc sec ->
  moves l (analyze_profiles debuggable G env uid pkg loc sec) (fun _ => l).
Proof.
  intros Hok. unfold analyze_profiles. eapply moves_bind; [by apply moves_open_profile_files|].
  intros [profiles ref]. cbn [fst snd].
  eapply (moves_bind S _ _ _ (fun _ => held_all profiles ++ held ref ++ l)).
  - destruct (_ || _); [by apply moves_ret|]. apply (moves_at_reference pkg); [done|]. intros p Hp.
    eapply moves_bind.
    { eapply moves_run_tool; [|by constructor].
      apply (reads_profman env profiles ref [] [] false false no_args []); [done|apply reads_none]. }
    intros status. cbv beta. destruct (profman_verdict status) as [[need cc] cr].
    eapply (moves_bind S _ _ _ (fun _ => held_all profiles ++ held ref ++ l)).
    { destruct cc; [|by apply moves_ret]. destruct sec; [by apply moves_clear_current|].
      by apply moves_clear_primary_current. }
    intros b1. eapply (moves_bind S _ _ _ (fun _ => held_all profiles ++ held ref ++ l)).
    { destruct cr; [|by apply moves_ret]. by apply moves_clear_reference. }
    intros b2. by apply moves_ret.
  - intros need. cbv beta. eapply moves_bind; [eapply moves_perm; [apply Permutation_app_swap_app|apply moves_drop]|].
    intros u. eapply moves_bind; [apply moves_drop_all|]. intros u'. by apply moves_ret.
Qed.

Lemma moves_swap_drop fd a l : moves (a ++ held fd ++ l) (drop_fd fd) (fun _ => a ++ l).
Proof. eapply moves_perm; [apply Permutation_app_swap_app|apply moves_drop]. Qed.

(** What both ends of the functions that open profiles share. *)
Lemma moves_profile_files {A} uid pkg loc sec (k : list Z -> Z -> io W A) l : profiles_ok pkg loc sec ->
  (forall fds ref, moves (held_all fds ++ held ref ++ l) (k fds ref) (fun _ => held_all fds ++ held ref ++ l)) ->
  moves l ('(fds, ref) ← open_profile_files debuggable G uid pkg loc sec;
           res ← k fds ref; _ ← drop_fd ref; _ ← drop_fds fds; mret res) (fun _ => l).
Proof.
  intros Hok Hk. eapply moves_bind; [by apply moves_open_profile_files|]. intros [fds ref]. cbn [fst snd].
  eapply moves_bind; [apply Hk|]. intros res. eapply moves_bind; [apply moves_swap_drop|]. intros u.
  eapply moves_bind; [apply moves_drop_all|]. intros u'. by apply moves_ret.
Qed.

Lemma moves_dump_profiles uid pkg loc code l : profiles_ok pkg loc false ->
  spared (lit "/data/misc/profman/" ++ pkg ++ lit "-" ++ loc ++ lit ".txt") ->
  moves l (dump_profiles debuggable G env uid pkg loc code) (fun _ => l).
Proof.
  intros Hok Hout. unfold dump_profiles. apply moves_profile_files; [done|]. intros fds ref.
  destruct (_ && _); [by apply moves_ret|]. move_step. rewrite <- held_fd_of. apply moves_with_fd. move_step.
  destruct (_ <? 0); [by apply moves_ret|]. move_step. destruct (a1 <? 0) eqn:E.
  - apply moves_ret. unfold held at 1. by rewrite E.
  - apply moves_with_fd. eapply moves_tool_exited; [|by constructor].
    apply (reads_profman env fds ref [a1] [get_location_from_path code] false false _
             (switch_if true "--dump-only" ++ given "--dump-output-to-fd" (fmt_d (fd_of a)))); [done|].
    apply (reads_given "--dump-output-to-fd="); [done|].
    apply (reads_switch_if true "--dump-only" no_args []); [done..|apply reads_none].
Qed.

Lemma moves_classpath elems fds l :
  moves (held_all fds ++ l) (open_classpath_files elems fds) (fun r => held_all (snd r) ++ l).
Proof.
  revert fds. induction elems as [|e elems IH]; intros fds; cbn [open_classpath_files]; [by apply moves_ret|].
  move_step. destruct (a <? 0) eqn:E.
  - apply moves_ret. unfold held at 1. by rewrite E.
  - eapply moves_perm; [|apply IH]. rewrite held_all_app. unfold held_all at 3. cbn. rewrite app_nil_r.
    rewrite <- app_assoc. apply Permutation_app_swap_app.
Qed.

Lemma started_merge fds ref apks locs store :
  started (select_execution_binary env kProfmanPath kProfmanDebugPath true)
    (profman_items fds ref apks locs false store) (SetupMerge env fds ref apks locs store).
Proof. apply (reads_profman env fds ref apks locs false store no_args []); [done|apply reads_none]. Qed.

(** The snapshot of a location can be named, and [S] leaves it out. *)
Definition snapshot_ok (pkg loc : str) : Prop :=
  exists p, create_snapshot_profile_path G pkg loc = Some p /\ spared p.

Lemma moves_open_snapshot uid pkg loc l : snapshot_ok pkg loc ->
  moves l (open_snapshot_profile G uid pkg loc) (fun fd => held fd ++ l).
Proof.
  intros (p & Hp & Hs). eapply moves_at_some; [exact Hp|]. apply moves_open_profile. by right.
Qed.

Lemma moves_app_snapshot app_id pkg loc classpath l : profiles_ok pkg loc false -> snapshot_ok pkg loc ->
  moves l (create_app_profile_snapshot debuggable G env app_id pkg loc classpath) (fun _ => l).
Proof.
  intros Hok Hsnap. unfold create_app_profile_snapshot. eapply moves_bind; [by apply moves_open_snapshot|].
  intros fd. cbv beta. destruct (fd <? 0) eqn:E; [apply moves_ret; unfold held; by rewrite E|].
  apply moves_with_fd. apply moves_profile_files; [done|]. intros fds ref.
  destruct (_ || _); [by apply moves_ret|].
  eapply moves_bind; [apply (moves_classpath _ [])|]. intros [opened apks]. cbn [snd].
  eapply (moves_bind S _ _ _ (fun _ => held_all apks ++ held_all fds ++ held ref ++ held fd ++ l)).
  - destruct opened; [|by apply moves_ret]. destruct Hsnap as (p & Hp & Hs).
    eapply moves_at_some; [exact Hp|]. eapply moves_tool_exited; [apply started_merge|by constructor].
  - intros r. eapply moves_bind; [apply moves_drop_all|]. intros u. by apply moves_ret.
Qed.

Lemma moves_merge_batches profiles fd p apks elems l : spared p ->
  moves l (merge_batches env profiles fd p apks elems) (fun _ => l).
Proof.
  intros Hp. unfold merge_batches. destruct profiles as [|x xs]; [by apply moves_ret|].
  eapply moves_bind.
  { apply moves_collect. intros y l'. apply moves_open_profile. by left. }
  intros fds. eapply moves_bind; [eapply moves_run_tool; [apply started_merge|by constructor]|].
  intros status. eapply moves_bind; [apply moves_drop_all|]. intros u. by apply moves_ret.
Qed.

Lemma moves_boot_snapshot pkg loc classpath l dir : snapshot_ok pkg loc ->
  create_primary_reference_profile_package_dir_path G pkg = Some dir -> spared dir ->
  moves l (create_boot_image_profile_snapshot G env profile_tree pkg loc classpath) (fun _ => l).
Proof.
  intros Hsnap Hdir Hd. unfold create_boot_image_profile_snapshot. eapply moves_at_some; [exact Hdir|].
  move_step. destruct (nz a); [by apply moves_ret|]. destruct (bool_decide _); [by apply moves_ret|].
  eapply moves_bind; [by apply moves_open_snapshot|]. intros fd. apply moves_with_fd. move_step.
  destruct (bool_decide _); [by apply moves_ret|].
  eapply moves_bind; [apply (moves_classpath _ [])|]. intros [opened apks]. cbn [snd].
  eapply (moves_bind S _ _ _ (fun _ => held_all apks ++ held fd ++ l)).
  - destruct (negb opened); [by apply moves_ret|]. destruct (bool_decide _); [by apply moves_ret|].
    destruct Hsnap as (p & Hp & Hs). eapply moves_at_some; [exact Hp|]. by apply moves_merge_batches.
  - intros r. eapply moves_bind; [apply moves_drop_all|]. intros u. by apply moves_ret.
Qed.

Lemma moves_prepare_profile pkg user app loc code dm l : profiles_ok pkg loc false ->
  moves l (prepare_app_profile G env pkg user app loc code dm) (fun _ => l).
Proof.
  intros Hok. unfold prepare_app_profile. apply moves_at_current; [done|]. intros p Hp.
  move_step. destruct (nz a); [by apply moves_ret|]. destruct dm as [dm|]; [|by apply moves_ret].
  eapply moves_bind; [by apply moves_open_reference|]. intros ref. cbv beta. move_step. move_step.
  eapply (moves_bind S _ _ _ (fun _ => held a1 ++ held a0 ++ held ref ++ l)).
  - destruct (a1 <? 0); [by apply moves_ret|]. apply (moves_at_reference pkg); [done|]. intros rp Hrp.
    eapply moves_tool_exited; [|by constructor].
    apply (reads_profman env [fd_of a0] ref [a1] [code] true false no_args []); [done|apply reads_none].
  - intros res. cbv beta. rewrite <- (held_fd_of a1), <- (held_fd_of a0).
    do 3 (eapply moves_bind; [apply moves_drop|]; intros ?; cbv beta). by apply moves_ret.
Qed.

End Moves.

(** * All requests *)

Inductive request :=
| ClearProfiles
| MergeProfiles (uid : Z)
| DumpProfiles (uid : Z) (codePath : str)
| SnapshotProfile (appId : Z) (classpath : str)
| DestroySnapshot
| PrepareProfile (userId appId : Z) (codePath : str) (dexMetadata : option str).

Section Requests.
Context {W : Type} {world : World W} {proc : Process W} {aid : AidRanges} {mu : Multiuser}.
Context (debuggable : bool) (G : globals) (env : DexEnv) (profile_tree : W -> option (list (str * dtype * pnode))).

(** The handler of a request. *)
Definition serve (calling_uid : Z) (pkg profile : str) (r : request) : io W reply :=
  match r with
  | ClearProfiles => clearAppProfiles debuggable G calling_uid pkg profile
  | MergeProfiles uid => x ← mergeProfiles debuggable G env calling_uid uid pkg profile; mret (fst x)
  | DumpProfiles uid code => x ← dumpProfiles debuggable G env calling_uid uid pkg profile code; mret (fst x)
  | SnapshotProfile app classpath =>
      x ← createProfileSnapshot debuggable G env profile_tree calling_uid app pkg profile classpath; mret (fst x)
  | DestroySnapshot => destroyProfileSnapshot G calling_uid pkg profile
  | PrepareProfile user app code dm => x ← prepareAppProfile G env calling_uid pkg user app profile code dm; mret (fst x)
  end.

End Requests.

Definition profman_dir : str := lit "/data/misc/profman".

Section Contract.
Context {W : Type} {world : World W} {proc : Process W} {Node : Type} {view : W -> str -> option Node}.
Context {is_dir : Node -> bool} {ok : WorldOk world view is_dir} {pok : ProcessOk world proc view}.
Context {aid : AidRanges} {mu : Multiuser}.
Context (debuggable : bool) (G : globals) (env : DexEnv) (profile_tree : W -> option (list (str * dtype * pnode))).
Context (pkg profile : str) (Hdir : plain (android_profiles_dir G) = true) (Hname : name_ok profile).

(** The files that are neither profiles nor dumps of profiles. *)
Definition other_files (q : str) : Prop := ~ below (android_profiles_dir G) q /\ ~ below profman_dir q.

Lemma profile_plain : plain profile = true.
Proof. destruct Hname as (Hs & _ & Hd). by rewrite plain_single, Hd. Qed.

Lemma below_profiles_spared rest : plain rest = true -> spared other_files (android_profiles_dir G ++ slash :: rest).
Proof.
  intros Hr q [Hq _]. split; [by rewrite plain_app, Hdir, Hr|]. intros Hb. apply Hq.
  eapply below_trans; [apply below_join_r|exact Hb].
Qed.

Context (Hpkg : checkArgumentPackageName pkg = StatusOk).

Lemma reference_package_dir :
  create_primary_reference_profile_package_dir_path G pkg = Some (android_profiles_dir G ++ slash :: lit "ref" ++ slash :: pkg).
Proof. unfold create_primary_reference_profile_package_dir_path. by rewrite (pkg_checked _ Hpkg). Qed.

Lemma current_package_dir u :
  create_primary_current_profile_package_dir_path G u pkg =
  Some (android_profiles_dir G ++ slash :: lit "cur" ++ slash :: fmt_u u ++ slash :: pkg).
Proof.
  unfold create_primary_current_profile_package_dir_path, create_primary_cur_profile_dir_path.
  rewrite (pkg_checked _ Hpkg). cbn [mbind option_bind]. by rewrite <- !app_assoc.
Qed.

Lemma pkg_plain : plain pkg = true.
Proof. by apply (valid_package_name pkg), pkg_checked. Qed.

Lemma ref_rest_plain : plain (lit "ref" ++ slash :: pkg) = true.
Proof. rewrite plain_app. by rewrite pkg_plain. Qed.

Lemma primary_profiles_ok : profiles_ok G other_files pkg profile false.
Proof.
  assert (Hr : forall dir rest, plain rest = true -> dir = android_profiles_dir G ++ slash :: rest ->
               spared other_files (dir ++ slash :: profile)).
  { intros dir rest Hrest ->. rewrite <- app_assoc, <- app_comm_cons. apply below_profiles_spared.
    by rewrite plain_app, Hrest, profile_plain. }
  split.
  - intros u. unfold create_current_profile_path. rewrite current_package_dir. eauto.
  - unfold create_reference_profile_path. rewrite reference_package_dir. eauto.
  - intros u p. unfold create_current_profile_path. rewrite current_package_dir. cbn [mbind option_bind].
    intros [= <-]. apply (Hr _ (lit "cur" ++ slash :: fmt_u u ++ slash :: pkg)); [|done]. rewrite !plain_app, (numeral_plain (fmt_u u)), pkg_plain by apply fmt_u_numeral.
    done.
  - intros p. unfold create_reference_profile_path. rewrite reference_package_dir. cbn [mbind option_bind].
    intros [= <-]. by apply (Hr _ (lit "ref" ++ slash :: pkg)); [apply ref_rest_plain|].
Qed.

Lemma profile_snapshot_ok : snapshot_ok G other_files pkg profile.
Proof.
  unfold snapshot_ok, create_snapshot_profile_path, create_reference_profile_path. rewrite reference_package_dir.
  eexists. split; [done|].
  replace ((_ ++ slash :: profile) ++ SNAPSHOT_PROFILE_EXT)
    with (android_profiles_dir G ++ slash :: (lit "ref" ++ slash :: pkg) ++ slash :: profile ++ SNAPSHOT_PROFILE_EXT)
    by (by rewrite <- !app_assoc).
  apply below_profiles_spared. rewrite plain_app, ref_rest_plain. destruct Hname as (Hs & _ & _).
  rewrite plain_single.
  - apply negb_true_iff, orb_false_iff. split; apply str_eqb_neq; intros E; apply (f_equal length) in E;
      rewrite length_app in E; cbn in E; lia.
  - intros [?|H]%elem_of_app; [done|]. by apply (proj1 (find_char_None slash SNAPSHOT_PROFILE_EXT) eq_refl).
Qed.

Lemma dump_spared : spared other_files (lit "/data/misc/profman/" ++ pkg ++ lit "-" ++ profile ++ lit ".txt").
Proof.
  set (file := pkg ++ lit "-" ++ profile ++ lit ".txt").
  change (lit "/data/misc/profman/" ++ file) with (profman_dir ++ slash :: file). intros q [_ Hq].
  assert (Hs : slash ∉ file).
  { unfold file. destruct (valid_package_name pkg (pkg_checked _ Hpkg)) as (Hp & _ & _), Hname as (Hn & _ & _).
    rewrite !elem_of_app. intros [H|[H|[H|H]]].
    - exact (Hp H).
    - exact (proj1 (find_char_None slash (lit "-")) eq_refl H).
    - exact (Hn H).
    - exact (proj1 (find_char_None slash (lit ".txt")) eq_refl H). }
  split.
  - rewrite plain_app, (plain_single file) by done. apply andb_true_iff. split; [by vm_compute|].
    apply negb_true_iff, orb_false_iff. unfold file.
    split; apply str_eqb_neq; intros E; apply (f_equal length) in E; rewrite !length_app in E; cbn in E; lia.
  - intros Hb. apply Hq. eapply below_trans; [apply below_join_r|exact Hb].
Qed.
Lemma moves_enforce checks k l : moves (view := view) other_files l k (fun _ => l) ->
  moves (view := view) other_files l (enforce checks k) (fun _ => l).
Proof. intros H. unfold enforce. by destruct (List.find _ checks); [apply moves_ret|]. Qed.

Lemma moves_enforce_bool checks k l : moves (view := view) other_files l k (fun _ => l) ->
  moves (view := view) other_files l (x ← enforce_bool checks k; mret (fst x)) (fun _ => l).
Proof.
  intros H. unfold enforce_bool. destruct (List.find _ checks); [by apply moves_ret|].
  eapply (moves_bind _ _ _ _ (fun _ => l)); [|intros x; by apply moves_ret].
  eapply moves_bind; [exact H|]. intros b. by apply moves_ret.
Qed.

Lemma moves_serve calling_uid r :
  moves (view := view) other_files [] (serve debuggable G env profile_tree calling_uid pkg profile r) (fun _ => []).
Proof.
  pose proof primary_profiles_ok as Hok. pose proof profile_snapshot_ok as Hs.
  destruct r; cbn [serve].
  - apply moves_enforce. eapply moves_bind; [by apply moves_clear_reference|]. intros b1.
    eapply moves_bind; [by apply moves_clear_primary_current|]. intros b2. by apply moves_ret.
  - apply moves_enforce_bool. by apply moves_analyze_profiles.
  - apply moves_enforce_bool. apply moves_dump_profiles; [done|apply dump_spared].
  - apply moves_enforce_bool. unfold create_profile_snapshot. destruct (appId =? -1).
    + eapply moves_boot_snapshot; [done|apply reference_package_dir|]. apply below_profiles_spared, ref_rest_plain.
    + by apply moves_app_snapshot.
  - apply moves_enforce. destruct Hs as (p & Hp & Hsp). eapply moves_at_some; [exact Hp|].
    move_step. by apply moves_ret.
  - apply moves_enforce_bool. by apply moves_prepare_profile.
Qed.

End Contract.

(** A check that fails ends the handler. *)
Lemma find_failed (checks : list status) c : c ∈ checks -> c <> StatusOk ->
  exists s, List.find (fun s => negb (bool_decide (s = StatusOk))) checks = Some s.
Proof.
  intros Hin Hc. destruct (List.find _ checks) eqn:E; [eauto|]. exfalso.
  pose proof (List.find_none _ _ E c (proj1 (list_elem_of_In _ _) Hin)) as Hn.
  apply negb_false_iff, bool_decide_eq_true in Hn. done.
Qed.

Lemma serve_denied {W : Type} {world : World W} {proc : Process W} {aid : AidRanges} {mu : Multiuser}
    debuggable G env profile_tree calling_uid pkg profile r (w : W) :
  checkArgumentPackageName pkg <> StatusOk ->
  exists s, serve debuggable G env profile_tree calling_uid pkg profile r w = Some (Denied s, w).
Proof.
  intros Hp.
  assert (H : forall l, exists s, List.find (fun s => negb (bool_decide (s = StatusOk)))
                                    (checkUid calling_uid AID_SYSTEM :: checkArgumentPackageName pkg :: l) = Some s).
  { intros l. apply (find_failed _ (checkArgumentPackageName pkg)); [right; left|done]. }
  destruct r; cbn [serve]; [| |destruct (H [checkArgumentPath codePath]) as [s E]| | |destruct (H [checkArgumentPath codePath]) as [s E]];
    try destruct (H []) as [s E]; exists s;
    unfold clearAppProfiles, mergeProfiles, dumpProfiles, createProfileSnapshot, destroyProfileSnapshot, prepareAppProfile,
      enforce, enforce_bool, io_bind; by rewrite E.
Qed.

Lemma bind_inv {W A B} (c : io W A) (k : A -> io W B) w b w' :
  io_bind c k w = Some (b, w') -> exists a w1, c w = Some (a, w1) /\ k a w1 = Some (b, w').
Proof. unfold io_bind. destruct (c w) as [[a w1]|]; [eauto|done]. Qed.

(** * Properties *)

(** Every request for the profiles of a package returns, closes each
    descriptor that it opens exactly once, and changes no file outside the
    directory of the profiles and that of their dumps - if the profile is
    named by a file name, which the handlers do not check. *)
Theorem profile_requests_contract {W : Type} {world : World W} {proc : Process W} {Node : Type}
    (view : W -> str -> option Node) (is_dir : Node -> bool) {ok : WorldOk world view is_dir}
    {pok : ProcessOk world proc view} {aid : AidRanges} {mu : Multiuser} (debuggable : bool) (G : globals)
    (env : DexEnv) (profile_tree : W -> option (list (str * dtype * pnode))) (calling_uid : Z) (pkg profile : str)
    (r : request) (w : W) :
  plain (android_profiles_dir G) = true -> name_ok profile ->
  exists reply w',
    serve debuggable G env profile_tree calling_uid pkg profile r w = Some (reply, w') /\
    open_fds w' = open_fds w /\
    forall q, ~ below (android_profiles_dir G) q -> ~ below profman_dir q -> view w' q = view w q.
Proof.
  intros Hd Hn. destruct (decide (checkArgumentPackageName pkg = StatusOk)) as [Hpkg|Hpkg].
  - destruct (moves_whole _ _ (moves_serve debuggable G env profile_tree pkg profile Hd Hn Hpkg calling_uid r) w)
      as (reply & w' & Hr & Hf & Ha).
    exists reply, w'. split_and!; [done..|]. intros q H1 H2. by apply Ha.
  - destruct (serve_denied debuggable G env profile_tree calling_uid pkg profile r w Hpkg) as [s Hr].
    by exists (Denied s), w.
Qed.

(** Merging asks for a compilation only where there is a profile to merge, the
    reference profile is open and [profman] has exited with its code for it;
    a killed tool, an unknown code or an I/O error never does. *)
Theorem merge_needs_verdict {W : Type} {world : World W} {proc : Process W} {aid : AidRanges} {mu : Multiuser}
    (debuggable : bool) (G : globals) (env : DexEnv) (calling_uid uid : Z) (pkg profile : str) (w w' : W) :
  mergeProfiles debuggable G env calling_uid uid pkg profile w = Some (Ok, true, w') ->
  exists fds ref argv path w1,
    fds <> [] /\ 0 <= ref /\ SetupMerge env fds ref [] [] false = Some argv /\
    create_reference_profile_path G pkg profile false = Some path /\
    let status := fst (w_call (Child argv uid [path]) w1) in
    WIFEXITED status = true /\ WEXITSTATUS status = PROFMAN_BIN_RETURN_CODE_COMPILE.
Proof.
  unfold mergeProfiles, enforce_bool. destruct (List.find _ _); [done|].
  intros (b & w2 & Ha & [= -> ->])%bind_inv. unfold analyze_primary_profiles, analyze_profiles in Ha.
  apply bind_inv in Ha as ([fds ref] & w3 & _ & (need & w4 & Hn & Hrest)%bind_inv).
  apply bind_inv in Hrest as (u & w5 & _ & (u' & w6 & _ & [= -> ->])%bind_inv).
  destruct (bool_decide (fds = []) || (ref <? 0)) eqn:E; [done|].
  apply orb_false_iff in E as [Hfds%bool_decide_eq_false Href%Z.ltb_ge].
  apply bind_inv in Hn as (p & w7 & Hp & (status & w8 & Hs & Hv)%bind_inv).
  unfold reference_path, abort_if_none in Hp. destruct (create_reference_profile_path _ _ _ _) as [p'|] eqn:Ep; [|done].
  injection Hp as -> ->. unfold run_tool in Hs. apply bind_inv in Hs as (argv & w9 & Hargv & Hc).
  unfold abort_if_none in Hargv. destruct (SetupMerge _ _ _ _ _ _) as [argv'|] eqn:Eargv; [|done].
  injection Hargv as -> ->. exists fds, ref, argv, p, w9. do 4 (split; [done|]).
  unfold do_call in Hc. injection Hc as Hc. rewrite Hc. cbn [fst]. unfold profman_verdict in Hv.
  destruct (WIFEXITED status); cbn [negb] in Hv.
  - destruct (Z.eqb_spec (WEXITSTATUS status) PROFMAN_BIN_RETURN_CODE_COMPILE); [done|].
    repeat (destruct (_ =? _) in Hv; cbn [orb] in Hv).
    all: apply bind_inv in Hv as (b1 & w10 & _ & (b2 & w11 & _ & [= ])%bind_inv).
  - apply bind_inv in Hv as (b1 & w10 & _ & (b2 & w11 & _ & [= ])%bind_inv).
Qed.

(** ** Runs *)

Definition profile_nodes : list (str * node) :=
  [(lit "/data/misc/profiles/cur/0/com.foo/primary.prof", Node false 384 (lit "hot"));
   (lit "/data/misc/profiles/cur/10/com.foo/primary.prof", Node false 384 (lit "warm"))].

Definition profile_state : pstate :=
  PState (fun p => snd <$> List.find (fun e => p =s? fst e) profile_nodes) 7 ∅.

Definition merge_run (status : Z) : option (reply * bool * pstate) :=
  mergeProfiles (world := proc_fs status) (proc := proc_table) (aid := aid_android) (mu := mu_android)
    false app_globals (demo_env []) 1000 10010 (lit "com.foo") (lit "primary.prof") profile_state.

Definition merged_state (status : Z) : pstate := default profile_state (snd <$> merge_run status).

(** With code 0 the current profiles are emptied and the reference profile is
    what the tool wrote; with code 2 the reference profile is emptied too. *)
Lemma merge_example :
  let data s p := n_data <$> p_fs s (lit p) in
  (fst <$> merge_run 0 = Some (Ok, true) /\
   data (merged_state 0) "/data/misc/profiles/cur/0/com.foo/primary.prof"%string = Some [] /\
   data (merged_state 0) "/data/misc/profiles/ref/com.foo/primary.prof"%string = Some tool_output) /\
  (fst <$> merge_run 512 = Some (Ok, false) /\
   data (merged_state 512) "/data/misc/profiles/ref/com.foo/primary.prof"%string = Some []).
Proof. by vm_compute. Qed.

Lemma profile_requests_contract_witness :
  plain (android_profiles_dir app_globals) = true /\
  exists reply w',
    serve (world := proc_fs 0) (proc := proc_table) (aid := aid_android) (mu := mu_android) false app_globals (demo_env [])
      (fun _ => None) 1000 (lit "com.foo") (lit "primary.prof") ClearProfiles profile_state = Some (reply, w') /\
    open_fds w' = open_fds profile_state /\
    forall q, ~ below (android_profiles_dir app_globals) q -> ~ below profman_dir q ->
      proc_view w' q = proc_view profile_state q.
Proof.
  split; [by vm_compute|].
  apply (profile_requests_contract (world := proc_fs 0) (proc := proc_table) (aid := aid_android) (mu := mu_android)
           proc_view n_dir false app_globals (demo_env []) (fun _ => None) 1000 (lit "com.foo") (lit "primary.prof")
           ClearProfiles profile_state); [by vm_compute|].
  split_and!; [by apply find_char_None|done|by vm_compute].
Defined.

Lemma merge_needs_verdict_witness :
  exists fds ref argv path w1,
    fds <> [] /\ 0 <= ref /\ SetupMerge (demo_env []) fds ref [] [] false = Some argv /\
    create_reference_profile_path app_globals (lit "com.foo") (lit "primary.prof") false = Some path /\
    let status := fst (w_call (World := proc_fs 0) (Child argv 10010 [path]) w1) in
    WIFEXITED status = true /\ WEXITSTATUS status = PROFMAN_BIN_RETURN_CODE_COMPILE.
Proof.
  apply (merge_needs_verdict (world := proc_fs 0) (proc := proc_table) (aid := aid_android) (mu := mu_android)
           false app_globals (demo_env []) 1000 10010 (lit "com.foo") (lit "primary.prof") profile_state (merged_state 0)).
  unfold merged_state. change (mergeProfiles _ _ _ _ _ _ _ _) with (merge_run 0).
  assert (H : fst <$> merge_run 0 = Some (Ok, true)) by by vm_compute.
  by destruct (merge_run 0) as [[[r b] s]|]; [injection H as -> ->|].
Defined.

(** A profile name with slashes leaves the directory of the profiles: the file
    is deleted as root. *)
Lemma profile_name_escapes :
  let foreign := lit "/data/misc/profiles/ref/com.foo/../../../../system/x.snapshot" in
  let s := PState (fun p => if p =s? foreign then Some (Node false 384 []) else None) 7 ∅ in
  (fst <$> destroyProfileSnapshot (world := proc_fs 0) (aid := aid_android) app_globals 1000 (lit "com.foo")
     (lit "../../../../system/x") s) = Some Ok /\
  create_snapshot_profile_path app_globals (lit "com.foo") (lit "../../../../system/x") = Some foreign.
Proof. by vm_compute. Qed.

(** The loop over the batches of profiles returns in its first round: the
    profiles of the later batches are never merged. *)
Lemma later_batches_not_merged {W : Type} {world : World W} {proc : Process W} {aid : AidRanges}
    (env : DexEnv) (first rest : list str) (snapshot : Z) (path : str) (apks : list Z) (elems : list str) :
  length first = kAggregationBatchSize ->
  merge_batches env (first ++ rest) snapshot path apks elems = merge_batches env first snapshot path apks elems.
Proof.
  intros H. unfold merge_batches. destruct first as [|x first]; [done|]. cbn [app].
  change (x :: first ++ rest) with ((x :: first) ++ rest). rewrite <- H, take_app_length.
  by rewrite firstn_all.
Qed.
