(* ===== verification/Artifacts.v ===== *)
(** The files that the compiler leaves: deleting and moving them, from
    [installd/dexopt.cpp] and the handlers of [InstalldNativeService.cpp].

    The artifacts of an apk are the oat file, its vdex and its image, three
    entries of one directory. [FileOps] states what [unlink] and [rename] do
    to single files. *)

From S2P Require Import Prelude Platform Fts InstalldPaths InstalldFs FreeCache World SimpleFs AppPaths AppData.
From S2P Require Import OtaParameters DexPaths Dex2oat Descriptors ProcFs.

Open Scope Z_scope.
Open Scope io_scope.

Definition EPERM : Z := 1.
Definition EACCES : Z := 13.
Definition ENOTEMPTY : Z := 39.

Section Artifacts.
Context {W : Type} {world : World W} {paths : OatPaths} {aid : AidRanges}.
Context (G : globals) (env : DexEnv).

Definition rmdir_if_empty (dir : str) : io W bool :=
  r ← do_call (RemoveEmptyDir dir); mret ((r =? 0) || (r =? ENOENT) || (r =? ENOTEMPTY)).

Definition unlink_if_exists (file : str) : io W bool :=
  r ← do_call (RemoveFile file); mret ((r =? 0) || (r =? ENOENT)).

(** * The artifacts of a slot *)

Definition unlink_and_rename (from to : str) : io W bool :=
  s ← ask (fun w => w_stat w to);
  free ← (match s with
          | inl st =>
              if negb (bool_decide (st_type st = S_IFREG)) then mret false
              else (r ← do_call (RemoveFile to); mret (r =? 0))
          | inr _ => mret true
          end);
  if negb free then mret false
  else (r ← do_call (Rename from to); mret (r =? 0)).

Definition move_ab_path (b_path a_path : str) : io W bool :=
  s ← ask (fun w => w_stat w b_path);
  match s with
  | inr _ => mret false
  | inl st =>
      if negb (bool_decide (st_type st = S_IFREG)) then (_ ← do_call (RemoveFile b_path); mret false)
      else
        moved ← unlink_and_rename b_path a_path;
        if moved then mret true else (_ ← do_call (RemoveFile b_path); mret false)
  end.

(** The failure to move the image is ignored. *)
Definition move_ab_paths (b_path b_vdex_path b_image_path a_path a_vdex_path a_image_path : str) : io W bool :=
  moved ← move_ab_path b_path a_path;
  if moved then
    moved_vdex ← move_ab_path b_vdex_path a_vdex_path;
    if moved_vdex then
      if bool_decide (a_image_path = []) then mret true
      else
        moved_image ← move_ab_path b_image_path a_image_path;
        if moved_image then mret true else (_ ← do_call (RemoveFile a_image_path); mret true)
    else (_ ← do_call (RemoveFile b_image_path); mret false)
  else
    _ ← do_call (RemoveFile b_vdex_path);
    _ ← do_call (RemoveFile b_image_path);
    mret false.

Definition move_ab (apk_path instruction_set oat_dir : str) : io W bool :=
  let slot_suffix := prop env (lit "ro.boot.slot_suffix") in
  if bool_decide (slot_suffix = []) then mret false
  else if negb (ValidateTargetSlotSuffix slot_suffix) then mret false
  else
    apk_valid ← abort_if_none (validate_apk_path G apk_path);
    if nz apk_valid then mret false
    else
      dir_valid ← abort_if_none (validate_apk_path G oat_dir);
      if nz dir_valid then mret false
      else
        match calculate_oat_file_path oat_dir apk_path instruction_set with
        | None => mret false
        | Some a_path =>
            a_vdex_path ← abort_if_none (create_vdex_filename a_path);
            a_image_path ← abort_if_none (create_image_filename a_path);
            let b p := p ++ dot :: slot_suffix in
            move_ab_paths (b a_path) (b a_vdex_path) (b a_image_path) a_path a_vdex_path a_image_path
        end.

Definition moveAb (calling_uid : Z) (apkPath instructionSet outputPath : str) : io W reply :=
  enforce [checkUid calling_uid AID_SYSTEM; checkArgumentPath apkPath; checkArgumentPath outputPath] (
    success ← move_ab apkPath instructionSet outputPath; mret (if success then Ok else Error)).

(** * Deleting *)

Definition unlink_and_check (path : str) : io W bool :=
  r ← do_call (RemoveFile path);
  mret (negb (nz r && ((r =? EACCES) || (r =? EPERM)))).

Definition delete_odex (apk_path instruction_set : str) (oat_dir : option str) : io W bool :=
  out ← abort_if_none (create_oat_out_path G apk_path instruction_set oat_dir false);
  match out with
  | None => mret false
  | Some out_path =>
      oat ← unlink_and_check out_path;
      image ← abort_if_none (create_image_filename out_path);
      art ← unlink_and_check image;
      vdex_path ← abort_if_none (create_vdex_filename out_path);
      vdex ← unlink_and_check vdex_path;
      mret (oat && art && vdex)
  end.

Definition deleteOdex (calling_uid : Z) (apkPath instructionSet : str) (outputPath : option str) : io W reply :=
  enforce [checkUid calling_uid AID_SYSTEM; checkArgumentPath apkPath; checkArgumentPathOpt outputPath] (
    res ← delete_odex apkPath instructionSet outputPath; mret (if res then Ok else Error)).

End Artifacts.

(** * Promises about files *)

(** The daemon has the privileges of the system: only a directory resists
    [unlink]. The paths are no links and nothing is mounted read-only on
    them. *)
Class FileOps {W : Type} (world : World W) {Node : Type} (view : W -> str -> option Node) (is_dir : Node -> bool) : Prop := {
  unlink_done : forall p w, plain p = true -> fst (w_call (RemoveFile p) w) = 0 -> view (snd (w_call (RemoveFile p) w)) p = None;
  unlink_failed : forall p w q, fst (w_call (RemoveFile p) w) <> 0 -> view (snd (w_call (RemoveFile p) w)) q = view w q;
  unlink_refused : forall p w, plain p = true -> fst (w_call (RemoveFile p) w) <> 0 ->
    match view w p with
    | Some n => is_dir n = true /\ fst (w_call (RemoveFile p) w) <> ENOENT
    | None => fst (w_call (RemoveFile p) w) = ENOENT
    end;
  rename_done : forall from to w, plain from = true -> plain to = true -> ~ below to from ->
    fst (w_call (Rename from to) w) = 0 ->
    view (snd (w_call (Rename from to) w)) to = view w from /\ view (snd (w_call (Rename from to) w)) from = None;
  stat_missing : forall p w e, plain p = true -> w_stat w p = inr e -> view w p = None;
  times_view : forall p a m w q, view (snd (w_call (SetTimes p a m) w)) q = view w q;
}.

Section Files.
Context {W : Type} {world : World W} {Node : Type} {view : W -> str -> option Node} {is_dir : Node -> bool}.
Context {ok : WorldOk world view is_dir} {fok : FileOps world view is_dir}.

(** No file is left at a path. *)
Definition gone (p : str) (w : W) : Prop := match view w p with Some n => is_dir n = true | None => True end.

(** What is not at or below the paths is the same. *)
Abbreviation kept_off ps := (agree (view := view) (outside ps)).

Lemma kept_one p q w w' : kept_off [p] w w' -> ~ below p q -> view w' q = view w q.
Proof. intros H Hb. apply H. constructor; [done|constructor]. Qed.

Lemma gone_same p w w' : view w' p = view w p -> gone p w -> gone p w'.
Proof. unfold gone. by intros ->. Qed.

Lemma wp_unlink p w (Q : Z -> W -> Prop) : plain p = true ->
  (forall r w', kept_off [p] w w' -> gone p w' ->
     (r = 0 \/ r = ENOENT) /\ view w' p = None \/ (exists n, view w p = Some n /\ is_dir n = true) -> Q r w') ->
  wp (do_call (RemoveFile p)) Q w.
Proof.
  intros Hp H. apply wp_call.
  assert (K : kept_off [p] w (snd (w_call (RemoveFile p) w))).
  { intros q [Hq _]%Forall_cons. apply call_frame. constructor; [done|constructor]. }
  unfold gone in H. destruct (decide (fst (w_call (RemoveFile p) w) = 0)) as [E|E].
  - pose proof (unlink_done p w Hp E) as Hv. apply H; [done|by rewrite Hv|auto].
  - pose proof (unlink_refused p w Hp E) as R. pose proof (unlink_failed p w p E) as Hv.
    apply H; [done|rewrite Hv; destruct (view w p); tauto|]. rewrite Hv. destruct (view w p); [|auto].
    right. destruct R. eauto.
Qed.

Lemma agree_outside_sub ps qs w w' : (forall p, p ∈ ps -> p ∈ qs) -> kept_off ps w w' -> kept_off qs w w'.
Proof.
  intros Hs H q Hq. apply H. unfold outside in *. rewrite Forall_forall in *. intros p Hp. by apply Hq, Hs.
Qed.

(** ** Moving one file *)

Context (a b : str) (Ha : plain a = true) (Hb : plain b = true).
Context (Hab : ~ below a b) (Hba : ~ below b a).

Lemma wp_unlink_and_rename w (Q : bool -> W -> Prop) :
  (forall r w', kept_off [a; b] w w' -> (r = true -> view w' a = view w b /\ view w' b = None) -> Q r w') ->
  wp (unlink_and_rename b a) Q w.
Proof.
  intros H. unfold unlink_and_rename. apply wp_bind, wp_ask.
  apply wp_bind. apply (wp_mono _ (fun _ w' => kept_off [a] w w')).
  - destruct (w_stat w a) as [st|e]; [|apply wp_ret, agree_refl].
    destruct (bool_decide _); cbn [negb]; [|apply wp_ret, agree_refl].
    apply wp_bind, wp_unlink; [done|]. intros r w' Hw _ _. by apply wp_ret.
  - intros free w1 H1. destruct free; cbn [negb].
    2: { apply wp_ret, H; [|done]. eapply agree_outside_sub; [|exact H1]. set_solver. }
    apply wp_bind, wp_call, wp_ret, H.
    + eapply agree_trans; [eapply agree_outside_sub; [|exact H1]; set_solver|].
      intros q [Hqa [Hqb _]%Forall_cons]%Forall_cons.
      apply call_frame. by repeat constructor.
    + intros Hr%Z.eqb_eq. destruct (rename_done (view := view) b a w1 Hb Ha Hab Hr) as [-> ->]. split; [|done].
      by apply (kept_one a).
Qed.

(** Whatever happens, [b] is not left; success puts it at [a]. *)
Lemma wp_move_ab_path w (Q : bool -> W -> Prop) :
  (forall r w', kept_off [a; b] w w' -> gone b w' ->
     (r = true -> view w b <> None /\ view w' a = view w b) -> Q r w') ->
  wp (move_ab_path b a) Q w.
Proof.
  intros H. unfold move_ab_path. apply wp_bind, wp_ask. destruct (w_stat w b) as [st|e] eqn:Es.
  2: { apply wp_ret, H; [apply agree_refl| |done]. unfold gone. by rewrite (stat_missing b w e Hb Es). }
  assert (Hn : view w b <> None) by by apply (stat_view w b st).
  destruct (bool_decide _); cbn [negb].
  2: { apply wp_bind, wp_unlink; [done|]. intros r w' Hw Hg _. apply wp_ret, H; [|done..].
       eapply agree_outside_sub; [|exact Hw]. set_solver. }
  apply wp_bind, wp_unlink_and_rename. intros r w1 H1 Hm. destruct r.
  - destruct (Hm eq_refl) as [Hva Hvb]. apply wp_ret, H; [done| |done]. unfold gone. by rewrite Hvb.
  - apply wp_bind, wp_unlink; [done|]. intros r w' Hw Hg _. apply wp_ret, H; [|done..].
    eapply agree_trans; [exact H1|]. eapply agree_outside_sub; [|exact Hw]. set_solver.
Qed.

End Files.

(** ** Moving the artifacts *)

Inductive artifact := Oat | Vdex | Image.

#[export] Instance artifact_eq_dec : EqDecision artifact.
Proof. solve_decision. Defined.

Section Move.
Context {W : Type} {world : World W} {Node : Type} {view : W -> str -> option Node} {is_dir : Node -> bool}.
Context {ok : WorldOk world view is_dir} {fok : FileOps world view is_dir}.

Abbreviation gone := (gone (view := view) (is_dir := is_dir)).

(* the paths of the artifacts; [true]: with the suffix of the slot *)
Context (path : artifact * bool -> str).
Context (Hplain : forall x, plain (path x) = true).
Context (Hapart : forall x y, x <> y -> ~ below (path x) (path y)).

Definition off_artifacts (q : str) : Prop := forall x, ~ below (path x) q.

(** Only the given artifacts may change. *)
Definition kept (l : list (artifact * bool)) (w w' : W) : Prop := agree (view := view) (outside (map path l)) w w'.

Lemma kept_at l w w' x : kept l w w' -> bool_decide (x ∈ l) = false -> view w' (path x) = view w (path x).
Proof.
  intros H Hx%bool_decide_eq_false. apply H. unfold outside. rewrite Forall_map, Forall_forall. intros y Hy.
  apply Hapart. by intros ->.
Qed.

Lemma kept_off l w w' : kept l w w' -> agree (view := view) off_artifacts w w'.
Proof. intros H. apply (agree_sub _ _ _ _ H). intros q Hq. unfold outside. rewrite Forall_map, Forall_forall. auto. Qed.

Lemma wp_move_one x w (Q : bool -> W -> Prop) :
  (forall r w', kept [(x, false); (x, true)] w w' -> gone (path (x, true)) w' ->
     (r = true -> view w (path (x, true)) <> None /\ view w' (path (x, false)) = view w (path (x, true))) -> Q r w') ->
  wp (move_ab_path (path (x, true)) (path (x, false))) Q w.
Proof. intros H. by apply wp_move_ab_path; [apply Hplain|apply Hplain|apply Hapart; congruence|apply Hapart; congruence|]. Qed.

Lemma wp_unlink_one x w (Q : Z -> W -> Prop) :
  (forall r w', kept [x] w w' -> gone (path x) w' -> Q r w') -> wp (do_call (RemoveFile (path x))) Q w.
Proof. intros H. apply wp_unlink; [apply Hplain|]. intros r w' K G _. by apply H. Qed.

(** Carries what was known of a path over the steps that do not touch it. *)
Ltac carry :=
  unfold Artifacts.gone in *;
  repeat match goal with
         | H : kept ?l ?w ?w' |- context [view ?w' (path ?x)] => rewrite (kept_at l w w' x H eq_refl)
         | H : kept ?l ?w ?w', H' : context [view ?w' (path ?x)] |- _ => rewrite (kept_at l w w' x H eq_refl) in H'
         end; auto.

Ltac off_trans :=
  first [eassumption | eapply kept_off; eassumption
        | match goal with K : kept _ ?w1 ?w' |- agree _ _ ?w' => eapply agree_trans; [|eapply kept_off; exact K]; off_trans end].

Lemma wp_check_one x w (Q : bool -> W -> Prop) :
  (forall r w', kept [x] w w' -> gone (path x) w' ->
     (r = false -> exists n, view w (path x) = Some n /\ is_dir n = true) -> Q r w') ->
  wp (unlink_and_check (path x)) Q w.
Proof.
  intros H. unfold unlink_and_check. apply wp_bind, wp_unlink; [apply Hplain|]. intros r w' K G Hr. apply wp_ret, H; [done..|].
  intros [Hn Hc]%negb_false_iff%andb_true_iff. destruct Hr as [[[-> | ->] _]|Hr]; done.
Qed.

Definition moved_to (w w' : W) (x : artifact) : Prop :=
  view w (path (x, true)) <> None /\ view w' (path (x, false)) = view w (path (x, true)).

Lemma wp_move_ab_paths w : path (Image, false) <> [] ->
  wp (move_ab_paths (path (Oat, true)) (path (Vdex, true)) (path (Image, true))
                    (path (Oat, false)) (path (Vdex, false)) (path (Image, false))) (fun r w' =>
    agree (view := view) off_artifacts w w' /\ (forall x, gone (path (x, true)) w') /\
    (r = true -> moved_to w w' Oat /\ moved_to w w' Vdex /\ (moved_to w w' Image \/ gone (path (Image, false)) w'))) w.
Proof.
  intros Hai. unfold move_ab_paths. apply wp_bind, wp_move_one. intros r1 w1 K1 G1 S1. destruct r1.
  - specialize (S1 eq_refl). apply wp_bind, wp_move_one. intros r2 w2 K2 G2 S2. destruct r2.
    + specialize (S2 eq_refl). rewrite bool_decide_false by done. apply wp_bind, wp_move_one. intros r3 w3 K3 G3 S3.
      destruct r3.
      * specialize (S3 eq_refl). apply wp_ret. split_and!; [off_trans|intros []; carry|]. intros _. unfold moved_to. carry.
      * apply wp_bind, wp_unlink_one. intros r4 w4 K4 G4. apply wp_ret.
        split_and!; [off_trans|intros []; carry|]. intros _. unfold moved_to. carry.
    + apply wp_bind, wp_unlink_one. intros r4 w4 K4 G4. apply wp_ret. split_and!; [off_trans|intros []; carry|done].
  - apply wp_bind, wp_unlink_one. intros r2 w2 K2 G2. apply wp_bind, wp_unlink_one. intros r3 w3 K3 G3.
    apply wp_ret. split_and!; [off_trans|intros []; carry|done].
Qed.

Lemma wp_check_three w :
  wp (oat ← unlink_and_check (path (Oat, false));
      art ← unlink_and_check (path (Image, false));
      vdex ← unlink_and_check (path (Vdex, false));
      mret (oat && art && vdex)) (fun r w' =>
    kept [(Oat, false); (Image, false); (Vdex, false)] w w' /\ (forall x, gone (path (x, false)) w') /\
    (r = false -> exists x n, view w (path (x, false)) = Some n /\ is_dir n = true)) w.
Proof.
  apply wp_bind, wp_check_one. intros r1 w1 K1 G1 R1. apply wp_bind, wp_check_one. intros r2 w2 K2 G2 R2.
  apply wp_bind, wp_check_one. intros r3 w3 K3 G3 R3. apply wp_ret. split_and!; [|intros []; carry|].
  - intros q Hq. cbn in Hq. apply Forall_cons in Hq as [Ho [Hi [Hv _]%Forall_cons]%Forall_cons].
    rewrite (K3 q), (K2 q), (K1 q); [done|by repeat constructor..].
  - intros Hf. destruct r1; [|destruct (R1 eq_refl) as (n & H); by exists Oat, n].
    destruct r2; [|destruct (R2 eq_refl) as (n & H); exists Image, n; by rewrite (kept_at _ _ _ (Image, false) K1 eq_refl) in H].
    destruct r3; [done|]. destruct (R3 eq_refl) as (n & H). exists Vdex, n.
    by rewrite (kept_at _ _ _ (Vdex, false) K2 eq_refl), (kept_at _ _ _ (Vdex, false) K1 eq_refl) in H.
Qed.

End Move.

(** ** Their paths *)

Definition extension (x : artifact) : str := match x with Oat => lit ".odex" | Vdex => lit ".vdex" | Image => lit ".art" end.

(** [base]: the path of an oat file without its extension. *)
Definition artifact_path (base slot : str) (x : artifact * bool) : str :=
  base ++ extension (fst x) ++ (if snd x then dot :: slot else []).

Lemma extension_no_slash x : slash ∉ extension x.
Proof. destruct x; [apply (proj1 (find_char_None slash (lit ".odex")) eq_refl)
                   |apply (proj1 (find_char_None slash (lit ".vdex")) eq_refl)
                   |apply (proj1 (find_char_None slash (lit ".art")) eq_refl)]. Qed.

Section Paths.
Context (oat isa stem slot : str) (Hoat : plain oat = true) (Hisa : is_dot isa = false).
Context (Hi : slash ∉ isa) (Hs : slash ∉ stem) (Hslot : ValidateTargetSlotSuffix slot = true).

Definition base : str := oat ++ slash :: isa ++ slash :: stem.
Definition artifact_name (x : artifact * bool) : str := stem ++ extension (fst x) ++ (if snd x then dot :: slot else []).

Lemma artifact_path_eq x : artifact_path base slot x = (oat ++ slash :: isa) ++ slash :: artifact_name x.
Proof. unfold artifact_path, base, artifact_name. rewrite <- !app_assoc, <- !app_comm_cons. by rewrite <- app_assoc. Qed.

Lemma artifact_name_no_slash x : slash ∉ artifact_name x.
Proof.
  unfold artifact_name. rewrite !elem_of_app. intros [H|[H|H]]; [done|by apply extension_no_slash in H|].
  destruct (snd x); [|by apply elem_of_nil in H]. apply elem_of_cons in H as [H|H]; [done|].
  unfold ValidateTargetSlotSuffix in Hslot. destruct slot as [|c t]; [done|].
  rewrite forallb_forall in Hslot. by specialize (Hslot slash (proj1 (list_elem_of_In _ _) H)).
Qed.

Lemma artifact_name_inj x y : artifact_name x = artifact_name y -> x = y.
Proof.
  unfold artifact_name. intros H%app_inv_head. destruct x as [[] []], y as [[] []]; cbn in H; try done;
    injection H as H; done.
Qed.

Lemma artifact_plain x : plain (artifact_path base slot x) = true.
Proof.
  rewrite artifact_path_eq, !plain_app, Hoat, (plain_single isa), Hisa by done.
  rewrite plain_single by apply artifact_name_no_slash. apply negb_true_iff. unfold is_dot, artifact_name.
  apply orb_false_iff. split; apply bool_decide_eq_false; intros E%(f_equal length); rewrite !length_app in E;
    destruct x as [[] s]; cbn in E; lia.
Qed.

Lemma artifact_apart x y : x <> y -> ~ below (artifact_path base slot x) (artifact_path base slot y).
Proof.
  intros Hne. rewrite !artifact_path_eq.
  eapply siblings_apart; [apply artifact_name_no_slash..| |apply below_refl].
  intros E%artifact_name_inj. by apply Hne.
Qed.

End Paths.

(** * Properties *)

Section Run.
Context {W : Type} {world : World W} {Node : Type} {view : W -> str -> option Node} {is_dir : Node -> bool}.
Context {ok : WorldOk world view is_dir} {fok : FileOps world view is_dir}.
Context (G : globals) (env : DexEnv).

Definition slot_suffix : str := prop env (lit "ro.boot.slot_suffix").

(** A request that [move_ab] acts on. *)
Record ab_request (apk isa oat base : str) : Prop := {
  ab_slot : ValidateTargetSlotSuffix slot_suffix = true;
  ab_apk : validate_apk_path G apk = Some 0;
  ab_dir : validate_apk_path G oat = Some 0;
  ab_path : calculate_oat_file_path_default oat apk isa = Some (base ++ lit ".odex");
  ab_dir_plain : plain oat = true;
  ab_isa : is_dot isa = false;
}.

Lemma move_ab_runs apk isa oat base : ab_request apk isa oat base ->
  (move_ab (paths := installd_paths G) G env apk isa oat : io W bool) =
  (let p := artifact_path base slot_suffix in
   move_ab_paths (p (Oat, true)) (p (Vdex, true)) (p (Image, true)) (p (Oat, false)) (p (Vdex, false)) (p (Image, false))) /\
  exists stem, base = oat ++ slash :: isa ++ slash :: stem /\ slash ∉ isa /\ slash ∉ stem.
Proof.
  intros [Hv Ha Hd Hp _ _]. pose proof Hp as (_ & _ & Hi & dir & stem & ext & (_ & Hs & _) & He & _)%oat_file_path_parts.
  rewrite <- odex_path_base in He. apply app_inv_tail in He. split; [|by exists stem].
  unfold move_ab. fold slot_suffix. rewrite bool_decide_false by (intros E; by rewrite E in Hv).
  rewrite Hv, Ha, Hd. cbn [negb abort_if_none]. unfold io_bind, abort_if_none. change (nz 0) with false.
  cbn [calculate_oat_file_path installd_paths]. rewrite Hp.
  unfold create_vdex_filename, create_image_filename. rewrite !replace_plain_odex.
  unfold artifact_path. cbn [fst snd extension]. by rewrite !app_nil_r, <- !app_assoc.
Qed.

End Run.

(** C32: the update of an application: for a request that is acted on, no file of
    the B slot is left, whatever the outcome, and nothing but the artifacts of
    the apk changes. If the answer is [true], the oat file and the vdex are
    those of the B slot, and the image is that of the B slot too or there is
    none: compiled code is never combined with a stale image. *)
Theorem move_ab_contract {W : Type} {world : World W} {Node : Type} (view : W -> str -> option Node)
    (is_dir : Node -> bool) {ok : WorldOk world view is_dir} {fok : FileOps world view is_dir}
    (G : globals) (env : DexEnv) (apk isa oat base : str) (w : W) :
  ab_request G env apk isa oat base ->
  let at_ x := artifact_path base (slot_suffix env) x in
  exists r w',
    move_ab (paths := installd_paths G) G env apk isa oat w = Some (r, w') /\
    (forall q, (forall x, ~ below (at_ x) q) -> view w' q = view w q) /\
    (forall x, gone (view := view) (is_dir := is_dir) (at_ (x, true)) w') /\
    (r = true ->
       (forall x, x <> Image -> view w (at_ (x, true)) <> None /\ view w' (at_ (x, false)) = view w (at_ (x, true))) /\
       (view w' (at_ (Image, false)) = view w (at_ (Image, true)) \/
        gone (view := view) (is_dir := is_dir) (at_ (Image, false)) w')).
Proof.
  intros Hr at_. destruct (move_ab_runs (W := W) G env apk isa oat base Hr) as (Hrun & stem & Hb & Hi & Hs).
  destruct Hr as [Hv _ _ _ Hd Hdot]. rewrite Hrun. cbv zeta.
  assert (Hpl : forall x, plain (at_ x) = true) by (intros x; unfold at_; rewrite Hb; by apply artifact_plain).
  assert (Hap : forall x y, x <> y -> ~ below (at_ x) (at_ y))
    by (intros x y Hne; unfold at_; rewrite Hb; by apply artifact_apart).
  assert (Hne : at_ (Image, false) <> []).
  { intros E. pose proof (Hap (Image, false) (Oat, false) ltac:(done)) as H. unfold at_, artifact_path in E.
    by apply app_eq_nil in E as [_ ?]. }
  apply wp_exists. eapply wp_mono; [by apply (wp_move_ab_paths (view := view) (is_dir := is_dir) at_)|].
  intros r w' (Hoff & Hgone & Hmoved). split_and!; [intros q Hq; by apply Hoff|done|].
  intros Ht. destruct (Hmoved Ht) as (Ho & Hx & Himg). split; [by intros []|].
  destruct Himg as [[_ Himg]|Himg]; auto.
Qed.

(** Deleting the compiled code of an apk leaves none of its three artifacts
    and changes nothing else; the answer is [false] only where a directory is
    in the place of one. *)
Theorem delete_odex_contract {W : Type} {world : World W} {Node : Type} (view : W -> str -> option Node)
    (is_dir : Node -> bool) {ok : WorldOk world view is_dir} {fok : FileOps world view is_dir}
    (G : globals) (apk isa oat base : str) (w : W) :
  validate_dex_path_size apk = true -> IsOutputDalvikCache (Some oat) = false -> validate_apk_path G oat = Some 0 ->
  calculate_oat_file_path_default oat apk isa = Some (base ++ lit ".odex") -> plain oat = true -> is_dot isa = false ->
  let at_ x := base ++ extension x in
  exists r w',
    delete_odex (paths := installd_paths G) G apk isa (Some oat) w = Some (r, w') /\
    (forall q, (forall x, ~ below (at_ x) q) -> view w' q = view w q) /\
    (forall x, gone (view := view) (is_dir := is_dir) (at_ x) w') /\
    (r = false -> exists x n, view w (at_ x) = Some n /\ is_dir n = true).
Proof.
  intros Hsz Hc Hv Hp Hd Hdot at_.
  pose proof Hp as (_ & _ & Hi & dir & stem & ext & (_ & Hs & _) & He & _)%oat_file_path_parts.
  rewrite <- odex_path_base in He. apply app_inv_tail in He.
  set (slot := lit "a"). set (path := artifact_path base slot).
  assert (Hpath : forall x, path (x, false) = at_ x).
  { intros x. unfold path, artifact_path, at_. cbn [fst snd]. by rewrite app_nil_r. }
  assert (Hpl : forall x, plain (path x) = true) by (intros x; unfold path; rewrite He; by apply artifact_plain).
  assert (Hap : forall x y, x <> y -> ~ below (path x) (path y))
    by (intros x y Hne; unfold path; rewrite He; by apply artifact_apart).
  apply wp_exists. unfold delete_odex, create_oat_out_path. rewrite Hsz, Hc, Hv. cbn [negb mbind option_bind].
  change (nz 0) with false. cbn [calculate_oat_file_path installd_paths]. rewrite Hp. apply wp_bind. eapply wp_some; [done|].
  unfold create_vdex_filename, create_image_filename. rewrite !replace_plain_odex.
  pose proof (wp_check_three (view := view) (is_dir := is_dir) path Hpl Hap w) as H. rewrite !Hpath in H.
  eapply wp_mono; [exact H|]. intros r w' (K & Hg & Hr). split_and!.
  - intros q Hq. apply K. cbn [map]. rewrite !Hpath. by repeat constructor.
  - intros x. specialize (Hg x). by rewrite Hpath in Hg.
  - intros Hf. destruct (Hr Hf) as (x & n & Hn & Hdir). exists x, n. by rewrite Hpath in Hn.
Qed.

(** ** Runs *)

#[export] Instance proc_files (status : Z) : FileOps (proc_fs status) proc_view n_dir.
Proof.
  split; cbn [proc_fs w_call proc_call proc_fs_call]; unfold proc_view.
  - intros p s Hp. unfold unlink_node. destruct (p_fs s p) as [n|]; [|done]. destruct (n_dir n); [done|].
    intros _. cbn. unfold fs_view. rewrite Hp. unfold str_eqb. by rewrite bool_decide_true.
  - intros p s q. unfold unlink_node. destruct (p_fs s p) as [n|]; [|done]. by destruct (n_dir n).
  - intros p s Hp. unfold unlink_node, fs_view. rewrite Hp. destruct (p_fs s p) as [n|]; [|done].
    by destruct (n_dir n).
  - intros from to s Hf Ht Hb. cbn [fs_call]. unfold fs_rename. destruct (p_fs s from) as [n|] eqn:E; [|done]. intros _.
    cbn. unfold fs_view. rewrite Hf, Ht, (belowb_false to from Hb), (proj2 (belowb_spec to to) (below_refl to)).
    rewrite (proj2 (belowb_spec from from) (below_refl from)). unfold moved. by rewrite drop_all, app_nil_r.
  - intros p s e Hp. cbn. unfold fs_stat. by destruct (fs_view (p_fs s) p).
  - intros p a m s q. cbn. by destruct s.
Qed.

Definition ab_dir_path : str := lit "/data/app/com.foo-1/oat".
Definition ab_apk_path : str := lit "/data/app/com.foo-1/base.apk".
Definition ab_base : str := lit "/data/app/com.foo-1/oat/arm64/base".

Definition ab_env : DexEnv := {| prop k := if k =s? lit "ro.boot.slot_suffix" then lit "_b" else []; bool_prop _ d := d;
  server_flag _ _ := []; dex2oat_bootclasspath := None; executable _ := false |}.

Definition ab_state (names : list (string * string)) : pstate :=
  PState (fun q => (fun e => Node false 420 (lit (snd e))) <$> List.find (fun e => q =s? (ab_base ++ lit (fst e))) names) 3 ∅.

(** Both slots have their files, but B has no image. *)
Definition ab_start : pstate :=
  ab_state [(".odex", "old oat"); (".vdex", "old vdex"); (".art", "old image"); (".odex._b", "oat"); (".vdex._b", "vdex")].

Definition ab_run (s : pstate) : option (bool * pstate) :=
  move_ab (world := proc_fs 0) (paths := installd_paths dex_globals) dex_globals ab_env ab_apk_path (lit "arm64") ab_dir_path s.

(** The data at the six paths, A before B. *)
Definition ab_files (s : pstate) : list (option str) :=
  map (fun x => n_data <$> p_fs s (artifact_path ab_base (lit "_b") x))
    [(Oat, false); (Vdex, false); (Image, false); (Oat, true); (Vdex, true); (Image, true)].

Lemma move_ab_example :
  ((fun rs => (fst rs, ab_files (snd rs))) <$> ab_run ab_start) =
  Some (true, [Some (lit "oat"); Some (lit "vdex"); None; None; None; None]).
Proof. by vm_compute. Qed.

(** Where B has no vdex, the request fails and leaves the new oat file beside
    the old vdex. *)
Lemma new_oat_beside_old_vdex :
  ((fun rs => (fst rs, ab_files (snd rs))) <$>
     ab_run (ab_state [(".odex", "old oat"); (".vdex", "old vdex"); (".odex._b", "oat")])) =
  Some (false, [Some (lit "oat"); Some (lit "old vdex"); None; None; None; None]).
Proof. by vm_compute. Qed.

Lemma ab_example_request : ab_request dex_globals ab_env ab_apk_path (lit "arm64") ab_dir_path ab_base.
Proof. by split; vm_compute. Qed.

Lemma move_ab_contract_witness :
  let at_ x := artifact_path ab_base (slot_suffix ab_env) x in
  exists r w',
    ab_run ab_start = Some (r, w') /\
    (forall q, (forall x, ~ below (at_ x) q) -> proc_view w' q = proc_view ab_start q) /\
    (forall x, gone (view := proc_view) (is_dir := n_dir) (at_ (x, true)) w') /\
    (r = true ->
       (forall x, x <> Image -> proc_view ab_start (at_ (x, true)) <> None /\
                                proc_view w' (at_ (x, false)) = proc_view ab_start (at_ (x, true))) /\
       (proc_view w' (at_ (Image, false)) = proc_view ab_start (at_ (Image, true)) \/
        gone (view := proc_view) (is_dir := n_dir) (at_ (Image, false)) w')).
Proof.
  apply (move_ab_contract (world := proc_fs 0) proc_view n_dir dex_globals ab_env ab_apk_path (lit "arm64") ab_dir_path
           ab_base ab_start).
  apply ab_example_request.
Defined.

Lemma delete_odex_contract_witness :
  exists r w',
    delete_odex (world := proc_fs 0) (paths := installd_paths dex_globals) dex_globals ab_apk_path (lit "arm64")
      (Some ab_dir_path) ab_start = Some (r, w') /\
    (forall q, (forall x, ~ below (ab_base ++ extension x) q) -> proc_view w' q = proc_view ab_start q) /\
    (forall x, gone (view := proc_view) (is_dir := n_dir) (ab_base ++ extension x) w') /\
    (r = false -> exists x n, proc_view ab_start (ab_base ++ extension x) = Some n /\ n_dir n = true).
Proof.
  by apply (delete_odex_contract (world := proc_fs 0) proc_view n_dir dex_globals ab_apk_path (lit "arm64") ab_dir_path
              ab_base ab_start); vm_compute.
Defined.
