(* ===== verification/SecondaryDex.v ===== *)
(** Dex files that an application loads from its own data: their analysis,
    reconciliation and hashes, from [installd/dexopt.cpp] and the handlers of
    [InstalldNativeService.cpp].

    The daemon never touches these files itself. It forks, and the child drops
    its privileges before it validates the path, so that what comes back is an
    exit code or the bytes of a pipe. *)

From S2P Require Import Prelude Platform Fts InstalldPaths InstalldFs FreeCache World SimpleFs AppPaths AppData.
From S2P Require Import OtaParameters DexPaths Dex2oat Descriptors ProcFs Profiles Artifacts.

Open Scope Z_scope.
Open Scope io_scope.

(** What the children ask the system. *)
Class DexReads (W : Type) := {
  access_read : W -> str -> Z;            (* access(path, R_OK): 0 or the error *)
  pipe_text : W -> option str;            (* what a child wrote to the pipe; None: read failed *)
  file_bytes : W -> str -> option str;    (* the bytes read to the end of an open file; None: read failed *)
  pipe_accepts : W -> bool;               (* WriteFully *)
  sha256 : str -> str;
  access_time : W -> str -> Z;            (* st_atime *)
  schedule_failure : W -> option Z;       (* the exit code of set_sched_policy or setpriority *)
}.

Definition SHA256_DIGEST_LENGTH : nat := 32.

Definition NO_DEXOPT_NEEDED : Z := 0.
Definition DEX2OAT_FROM_SCRATCH : Z := 1.
Definition DEX2OAT_FOR_BOOT_IMAGE : Z := 2.
Definition DEX2OAT_FOR_FILTER : Z := 3.

Definition DEXOPT_SECONDARY_DEX : Z := Z.shiftl 1 5.
Definition DEXOPT_FORCE : Z := Z.shiftl 1 6.
Definition DEXOPT_STORAGE_CE : Z := Z.shiftl 1 7.
Definition DEXOPT_STORAGE_DE : Z := Z.shiftl 1 8.
Definition DEXOPT_IDLE_BACKGROUND_JOB : Z := Z.shiftl 1 9.
Definition DEXOPT_ENABLE_HIDDEN_API_CHECKS : Z := Z.shiftl 1 10.
Definition DEXOPT_GENERATE_APP_IMAGE : Z := Z.shiftl 1 12.

Definition has_bit (flags f : Z) : bool := nz (Z.land flags f).

(** * Codes *)

Definition kSecondaryDexDexoptAnalyzerSkippedValidatePath : Z := 200.
Definition kSecondaryDexDexoptAnalyzerSkippedOpenZip : Z := 201.
Definition kSecondaryDexDexoptAnalyzerSkippedPrepareDir : Z := 202.
Definition kSecondaryDexDexoptAnalyzerSkippedOpenOutput : Z := 203.
Definition kSecondaryDexDexoptAnalyzerSkippedFailExec : Z := 204.
Definition kSecondaryDexDexoptAnalyzerSkippedNoFile : Z := 205.

(** The compilation that an exit code of the analyzer asks for; [None]: an
    error. *)
Definition process_secondary_dexoptanalyzer_result (result : Z) : option Z :=
  if result =? 0 then Some NO_DEXOPT_NEEDED
  else if result =? 1 then Some DEX2OAT_FROM_SCRATCH
  else if result =? 4 then Some (- DEX2OAT_FOR_BOOT_IMAGE)
  else if result =? 5 then Some (- DEX2OAT_FOR_FILTER)
  else if (result =? 2) || (result =? 3) then None
  else if result =? kSecondaryDexDexoptAnalyzerSkippedNoFile then Some NO_DEXOPT_NEEDED
  else None.

Inductive SecondaryDexAccess :=
| kSecondaryDexAccessReadOk | kSecondaryDexAccessDoesNotExist
| kSecondaryDexAccessPermissionError | kSecondaryDexAccessIOError.

Definition kReconcileSecondaryDexExists : Z := 0.
Definition kReconcileSecondaryDexCleanedUp : Z := 1.
Definition kReconcileSecondaryDexValidationError : Z := 2.
Definition kReconcileSecondaryDexCleanUpError : Z := 3.
Definition kReconcileSecondaryDexAccessIOError : Z := 4.

Definition kHashValidatePath : Z := 74.
Definition kHashOpenPath : Z := 75.
Definition kHashReadDex : Z := 76.
Definition kHashWrite : Z := 77.

(** [FLAG_STORAGE_CE] or [FLAG_STORAGE_DE]. *)
Definition validate_dexopt_storage_flags (dexopt_flags : Z) : option Z :=
  if has_bit dexopt_flags DEXOPT_STORAGE_CE then
    if has_bit dexopt_flags DEXOPT_STORAGE_DE then None else Some FLAG_STORAGE_CE
  else if has_bit dexopt_flags DEXOPT_STORAGE_DE then Some FLAG_STORAGE_DE
  else None.

Definition join_fds (fds : list Z) : str :=
  match map fmt_d fds with
  | [] => []
  | s :: rest => s ++ concat (map (fun t => ":"%char :: t) rest)
  end.

Section SecondaryDex.
Context {W : Type} {world : World W} {proc : Process W} {reads : DexReads W} {paths : OatPaths}.
Context {aid : AidRanges} {mu : Multiuser}.
Context (debuggable : bool) (G : globals) (env : DexEnv).

(** * Layout *)

(** The oat directory, the directory of the instruction set and the oat
    file. *)
Definition create_secondary_dex_oat_layout (dex_path isa : str) : option (option (str * str * str)) :=
  match rfind_char slash dex_path with
  | None => Some None
  | Some dirIndex =>
      let apk_dir := take dirIndex dex_path in
      let oat_dir := path_buffer (apk_dir ++ lit "/oat") in
      let oat_isa_dir := path_buffer (oat_dir ++ lit "/" ++ isa) in
      match create_oat_out_path G dex_path isa (Some oat_dir) true with
      | None => None
      | Some None => Some None
      | Some (Some oat_path) => Some (Some (oat_dir, oat_isa_dir, oat_path))
      end
  end.

Definition prepare_secondary_dex_oat_dir (dex_path : str) (uid : Z) (instruction_set : str) : io W bool :=
  match rfind_char slash dex_path with
  | None => mret false
  | Some dirIndex =>
      let dex_dir := take dirIndex dex_path in
      r ← prepare_app_cache_dir_io dex_dir (lit "oat") 505 uid uid;
      if nz r then mret false
      else
        r ← prepare_app_cache_dir_io (path_buffer (dex_dir ++ lit "/oat")) instruction_set 505 uid uid;
        mret (negb (nz r))
  end.

Definition check_secondary_dex_access (dex_path : str) : io W SecondaryDexAccess :=
  e ← ask (fun w => access_read w dex_path);
  mret (if e =? 0 then kSecondaryDexAccessReadOk
        else if e =? ENOENT then kSecondaryDexAccessDoesNotExist
        else if e =? EACCES then kSecondaryDexAccessPermissionError
        else kSecondaryDexAccessIOError).

Definition is_file_public (filename : str) : io W bool :=
  s ← ask (fun w => w_stat w filename);
  mret (match s with inl st => nz (Z.land (st_perm st) 4) | inr _ => false end).

Definition validate_secondary (pkgname dex_path : str) (volume_uuid : option str) (uid storage_flag : Z) : io W bool :=
  isdir ← ask w_isdir;
  abort_if_none (validate_secondary_dex_path debuggable isdir pkgname dex_path volume_uuid uid storage_flag).

(** * Pipes *)

Definition Pipe : io W (option (Z * Z)) :=
  r ← do_call (PipeEnd false);
  if r <? 0 then mret None
  else
    wr ← do_call (PipeEnd true);
    if wr <? 0 then (_ ← close_fd r; mret None) else mret (Some (r, wr)).

(** [None]: an error. *)
Definition get_class_loader_context_dex_paths (class_loader_context : option str) (uid : Z) : io W (option (list str)) :=
  match class_loader_context with
  | None => mret (Some [])
  | Some context =>
      ends ← Pipe;
      match ends with
      | None => mret None
      | Some (pipe_read, pipe_write) =>
          status ← in_child (dropped uid (
            _ ← drop_fd pipe_write;
            _ ← drop_fd pipe_read;
            run_tool (RunDexoptAnalyzer_flatten env context) uid []));
          _ ← drop_fd pipe_write;
          str_dex_paths ← ask pipe_text;
          _ ← drop_fd pipe_read;
          match str_dex_paths with
          | None => mret None
          | Some text =>
              if negb (WIFEXITED status) then mret None
              else if negb (WEXITSTATUS status =? 50) then mret None
              else mret (Some (match text with [] => [] | _ => split_on ":" text end))
          end
      end
  end.

(** The code, 0 where all could be opened, and the descriptors. *)
Fixpoint open_dex_paths (dex_paths : list str) (zip_fds : list Z) : io W (Z * list Z) :=
  match dex_paths with
  | [] => mret (0, zip_fds)
  | dex_path :: rest =>
      r ← open_file dex_path O_RDONLY 0;
      if r <? 0 then
        mret (if r =? - ENOENT then kSecondaryDexDexoptAnalyzerSkippedNoFile
              else kSecondaryDexDexoptAnalyzerSkippedOpenZip, zip_fds)
      else open_dex_paths rest (zip_fds ++ [r])
  end.

(** The descriptors of the oat file and the vdex, [-1] where there is none. *)
Definition maybe_open_oat_and_vdex_file (apk_path oat_dir instruction_set : str) (is_secondary_dex : bool)
    : io W (option (Z * Z)) :=
  out ← abort_if_none (create_oat_out_path G apk_path instruction_set (Some oat_dir) is_secondary_dex);
  match out with
  | None => mret None
  | Some oat_path =>
      oat ← open_file oat_path O_RDONLY 0;
      vdex_filename ← abort_if_none (create_vdex_filename oat_path);
      vdex ← open_file vdex_filename O_RDONLY 0;
      mret (Some (fd_of oat, fd_of vdex))
  end.

(** * Analysis *)

(** The child that opens the files of the application and becomes the
    analyzer. *)
Definition analyze_secondary_child (dex_path pkgname : str) (storage_flag : Z) (volume_uuid : option str) (uid : Z)
    (instruction_set compiler_filter oat_dir : str) (downgrade : bool) (class_loader_context : option str)
    (context_dex_paths : list str) : io W Z :=
  dropped uid (
    valid ← validate_secondary pkgname dex_path volume_uuid uid storage_flag;
    if negb valid then do_exit kSecondaryDexDexoptAnalyzerSkippedValidatePath
    else
      zip ← open_file dex_path O_RDONLY 0;
      if zip <? 0 then
        do_exit (if zip =? - ENOENT then kSecondaryDexDexoptAnalyzerSkippedNoFile
                 else kSecondaryDexDexoptAnalyzerSkippedOpenZip)
      else
        '(open_dex_paths_rc, context_zip_fds) ← open_dex_paths context_dex_paths [];
        if nz open_dex_paths_rc then do_exit open_dex_paths_rc
        else
          prepared ← prepare_secondary_dex_oat_dir dex_path uid instruction_set;
          if negb prepared then do_exit kSecondaryDexDexoptAnalyzerSkippedPrepareDir
          else
            opened ← maybe_open_oat_and_vdex_file dex_path oat_dir instruction_set true;
            match opened with
            | None => do_exit kSecondaryDexDexoptAnalyzerSkippedOpenOutput
            | Some (oat_file_fd, vdex_file_fd) =>
                profile_was_updated ← analyze_profiles debuggable G env uid pkgname dex_path true;
                run_tool (RunDexoptAnalyzer env dex_path vdex_file_fd oat_file_fd zip instruction_set compiler_filter
                            profile_was_updated downgrade class_loader_context (join_fds context_zip_fds)) uid []
            end).

(** Whether the result may be public, which compilation is needed and where
    its oat directory is; [None]: an error. *)
Definition process_secondary_dex_dexopt (dex_path pkgname : str) (dexopt_flags : Z) (volume_uuid : option str) (uid : Z)
    (instruction_set compiler_filter : str) (downgrade : bool) (class_loader_context : option str)
    (context_dex_paths : list str) : io W (option (bool * Z * str)) :=
  match validate_dexopt_storage_flags dexopt_flags with
  | None => mret None
  | Some storage_flag =>
      layout ← abort_if_none (create_secondary_dex_oat_layout dex_path instruction_set);
      match layout with
      | None => mret None
      | Some (oat_dir, _, _) =>
          status ← in_child (analyze_secondary_child dex_path pkgname storage_flag volume_uuid uid instruction_set
                               compiler_filter oat_dir downgrade class_loader_context context_dex_paths);
          if negb (WIFEXITED status) then mret None
          else
            let result := WEXITSTATUS status in
            let dexopt_needed := process_secondary_dexoptanalyzer_result result in
            file_public ← is_file_public dex_path;
            mret (match dexopt_needed with
                  | None => None
                  | Some needed =>
                      let forced := negb (result =? kSecondaryDexDexoptAnalyzerSkippedNoFile) &&
                                    has_bit dexopt_flags DEXOPT_FORCE in
                      Some (has_bit dexopt_flags DEXOPT_PUBLIC && file_public,
                            if forced then DEX2OAT_FROM_SCRATCH else needed, oat_dir)
                  end)
      end
  end.

(** * Reconciliation *)

(** The artifacts and profiles of one instruction set; [None]: there is no
    path for them. The result of the old profile replaces the results before
    it. *)
Definition clean_isa (dex_path pkgname : str) (uid : Z) (isa : str) (result : bool) : io W (option bool) :=
  layout ← abort_if_none (create_secondary_dex_oat_layout dex_path isa);
  match layout with
  | None => mret None
  | Some (oat_dir, oat_isa_dir, oat_path) =>
      oat ← unlink_if_exists oat_path;
      vdex_path ← abort_if_none (create_vdex_filename oat_path);
      vdex ← unlink_if_exists vdex_path;
      image_path ← abort_if_none (create_image_filename oat_path);
      image ← unlink_if_exists image_path;
      current_profile ← current_path G (userid (multiuser_get_user_id uid)) pkgname dex_path true;
      reference_profile ← reference_path G pkgname dex_path true;
      current ← unlink_if_exists current_profile;
      reference ← unlink_if_exists reference_profile;
      old ← unlink_if_exists (dex_path ++ lit ".prof");
      let result := old in
      isa_dir ← rmdir_if_empty oat_isa_dir;
      dir ← rmdir_if_empty oat_dir;
      mret (Some (dir && (isa_dir && result)))
  end.

(** The loop over the instruction sets; [None]: the layout of one failed. *)
Fixpoint clean_isas (dex_path pkgname : str) (uid : Z) (isas : list str) (result : bool) : io W (option bool) :=
  match isas with
  | [] => mret (Some result)
  | isa :: rest =>
      r ← clean_isa dex_path pkgname uid isa result;
      match r with
      | None => mret None
      | Some result' => clean_isas dex_path pkgname uid rest result'
      end
  end.

Definition reconcile_child (dex_path pkgname : str) (uid : Z) (isas : list str) (volume_uuid : option str)
    (storage_flag : Z) : io W Z :=
  dropped uid (
    valid ← validate_secondary pkgname dex_path volume_uuid uid storage_flag;
    if negb valid then do_exit kReconcileSecondaryDexValidationError
    else
      access_check ← check_secondary_dex_access dex_path;
      match access_check with
      | kSecondaryDexAccessDoesNotExist =>
          r ← clean_isas dex_path pkgname uid isas true;
          do_exit (match r with
                   | None => kReconcileSecondaryDexValidationError
                   | Some true => kReconcileSecondaryDexCleanedUp
                   | Some false => kReconcileSecondaryDexAccessIOError
                   end)
      | kSecondaryDexAccessReadOk => do_exit kReconcileSecondaryDexExists
      | kSecondaryDexAccessIOError => do_exit kReconcileSecondaryDexAccessIOError
      | kSecondaryDexAccessPermissionError => do_exit kReconcileSecondaryDexValidationError
      end).

(** The result and whether the file exists. The status of a child that was
    killed is read as an exit code. *)
Definition reconcile_verdict (status : Z) : bool * bool :=
  let return_code := if WIFEXITED status then WEXITSTATUS status else status in
  if (return_code =? kReconcileSecondaryDexCleanedUp) || (return_code =? kReconcileSecondaryDexValidationError)
  then (true, false)
  else if return_code =? kReconcileSecondaryDexExists then (true, true)
  else (false, false).

Definition reconcile_secondary_dex_file (dex_path pkgname : str) (uid : Z) (isas : list str) (volume_uuid : option str)
    (storage_flag : Z) : io W (bool * bool) :=
  if bool_decide (isas = []) then mret (false, false)
  else if negb ((storage_flag =? FLAG_STORAGE_CE) || (storage_flag =? FLAG_STORAGE_DE)) then mret (false, false)
  else
    status ← in_child (reconcile_child dex_path pkgname uid isas volume_uuid storage_flag);
    mret (reconcile_verdict status).

Definition secondary_checks (calling_uid : Z) (dexPath packageName : str) (volumeUuid : option str) : list status :=
  [checkUid calling_uid AID_SYSTEM; checkArgumentUuid volumeUuid; checkArgumentPackageName packageName;
   checkArgumentPath dexPath].

(** A reply, and the answer where it is [Ok]. *)
Definition enforce_result {A} (checks : list status) (default : A) (k : io W (bool * A)) : io W (reply * A) :=
  match List.find (fun s => negb (bool_decide (s = StatusOk))) checks with
  | Some s => mret (Denied s, default)
  | None => '(result, a) ← k; mret (if result then Ok else Error, a)
  end.

Definition reconcileSecondaryDexFile (calling_uid : Z) (dexPath packageName : str) (uid : Z) (isas : list str)
    (volumeUuid : option str) (storage_flag : Z) : io W (reply * bool) :=
  enforce_result (secondary_checks calling_uid dexPath packageName volumeUuid) false
    (reconcile_secondary_dex_file dexPath packageName uid isas volumeUuid storage_flag).

(** * Hashes *)

(** The exit code and what was written to the pipe. *)
Definition hash_child (dex_path pkgname : str) (uid : Z) (volume_uuid : option str) (storage_flag : Z) (pipe_read : Z)
    : io W (Z * str) :=
  failure ← ask (fun w => drop_failure w uid);
  match failure with
  | Some code => mret (code, [])
  | None =>
      _ ← drop_fd pipe_read;
      valid ← validate_secondary pkgname dex_path volume_uuid uid storage_flag;
      if negb valid then mret (kHashValidatePath, [])
      else
        fd ← open_file dex_path (Z.lor O_RDONLY (Z.lor O_CLOEXEC O_NOFOLLOW)) 0;
        if fd <? 0 then mret (if (fd =? - EACCES) || (fd =? - ENOENT) then 0 else kHashOpenPath, [])
        else
          bytes ← ask (fun w => file_bytes w dex_path);
          match bytes with
          | None => mret (kHashReadDex, [])
          | Some bytes =>
              accepted ← ask pipe_accepts;
              mret (if accepted then (0, sha256 bytes) else (kHashWrite, []))
          end
  end.

(** The result and the hash. *)
Definition hash_secondary_dex_file (dex_path pkgname : str) (uid : Z) (volume_uuid : option str) (storage_flag : Z)
    : io W (bool * str) :=
  if negb ((storage_flag =? FLAG_STORAGE_CE) || (storage_flag =? FLAG_STORAGE_DE)) then mret (false, [])
  else
    ends ← Pipe;
    match ends with
    | None => mret (false, [])
    | Some (pipe_read, pipe_write) =>
        '(status, written) ← in_child_with (
          '(code, written) ← hash_child dex_path pkgname uid volume_uuid storage_flag pipe_read;
          status ← do_exit code; mret (status, written));
        _ ← drop_fd pipe_write;
        _ ← drop_fd pipe_read;
        mret (status =? 0, if (length written <? SHA256_DIGEST_LENGTH)%nat then [] else take SHA256_DIGEST_LENGTH written)
    end.

Definition hashSecondaryDexFile (calling_uid : Z) (dexPath packageName : str) (uid : Z) (volumeUuid : option str)
    (storageFlag : Z) : io W (reply * str) :=
  enforce_result (secondary_checks calling_uid dexPath packageName volumeUuid) []
    (hash_secondary_dex_file dexPath packageName uid volumeUuid storageFlag).

End SecondaryDex.

(** * Paths *)

Lemma undotted p : has_substr (lit "/.") (slash :: p) = false -> plain p = true.
Proof.
  remember (length p) as n eqn:Hn. revert p Hn. induction (lt_wf n) as [n _ IH]. intros p -> H.
  assert (Hd : forall a b, p = a ++ b -> slash ∉ a -> plain a = true).
  { intros a b -> Ha. rewrite plain_single by done. apply negb_true_iff. destruct (is_dot a) eqn:E; [|done].
    assert (Hs : exists t, a = dot :: t).
    { apply orb_true_iff in E as [E|E]; apply bool_decide_eq_true in E; subst a; eexists; reflexivity. }
    destruct Hs as [t ->]. exfalso. apply not_true_iff_false in H. apply H.
    apply has_substr_spec. by exists [], (t ++ b). }
  destruct (find_char slash p 0) as [i|] eqn:E.
  - apply find_char_Some in E as (a & b & -> & Ha & _). rewrite plain_app, (Hd a (slash :: b)) by done. cbn [andb].
    apply (IH (length b)); [rewrite length_app; cbn; lia|done|].
    apply not_true_iff_false. intros (x & y & Hxy)%has_substr_spec. apply not_true_iff_false in H. apply H.
    apply has_substr_spec. exists (slash :: a ++ x), y. by rewrite Hxy, <- app_comm_cons, <- app_assoc.
  - apply find_char_None in E. apply (Hd p []); [by rewrite app_nil_r|done].
Qed.

(** The directory and the name of a dex file that passes the validation. *)
Definition located (dex dir name : str) : Prop :=
  dex = dir ++ slash :: name /\ slash ∉ name /\ name <> [] /\ plain dir = true /\ plain dex = true /\
  (dir = [] \/ exists t, dir = slash :: t).

Section Layout.
Context (G : globals) (dex dir name : str) (Hdex : located dex dir name).
Context {aid : AidRanges} {mu : Multiuser}.

Lemma located_rfind : rfind_char slash dex = Some (length dir).
Proof. destruct Hdex as (-> & Hn & _). apply rfind_char_Some. by exists dir, name. Qed.

Lemma located_take : take (length dir) dex = dir.
Proof. destruct Hdex as (-> & _). apply take_app_length. Qed.

Lemma located_not_cache rest : IsOutputDalvikCache (Some (path_buffer (dir ++ slash :: rest))) = false.
Proof. destruct Hdex as (_ & _ & _ & _ & _ & [-> | [t ->]]); done. Qed.

Lemma path_buffer_short p : (length p < PKG_PATH_MAX)%nat -> path_buffer p = p.
Proof. intros H. apply take_ge. lia. Qed.

(** The layout is below the directory of the dex file. *)
Lemma layout_spec isa r : create_secondary_dex_oat_layout (paths := installd_paths G) G dex isa = r ->
  r = Some None \/
  exists stem, slash ∉ isa /\ slash ∉ stem /\
    let oat := dir ++ lit "/oat" in
    r = Some (Some (oat, oat ++ slash :: isa, (oat ++ slash :: isa ++ slash :: stem) ++ lit ".odex")).
Proof.
  intros <-. unfold create_secondary_dex_oat_layout. rewrite located_rfind, located_take.
  change (lit "/oat") with (slash :: lit "oat"). unfold create_oat_out_path. rewrite located_not_cache.
  destruct (validate_dex_path_size dex) eqn:Hsz; cbn [negb]; [|by left]. cbn [mbind option_bind].
  change (nz 0) with false. cbn [calculate_oat_file_path installd_paths].
  destruct (calculate_oat_file_path_default _ _ _) as [p|] eqn:Hp; [|by left]. right.
  assert (Hl : (length dir < length dex)%nat).
  { destruct Hdex as (-> & _). rewrite length_app. cbn. lia. }
  unfold validate_dex_path_size in Hsz. apply negb_true_iff, Nat.leb_gt in Hsz.
  rewrite (path_buffer_short (dir ++ _)) in * by (rewrite length_app; cbn; unfold PKG_PATH_MAX in *; lia).
  apply oat_file_path_parts in Hp as (_ & _ & Hi & d & stem & ext & (_ & Hs & _) & -> & Hlen).
  exists stem. split_and!; [done..|]. cbv zeta. rewrite odex_path_base.
  rewrite path_buffer_short; [done|]. unfold odex_path in Hlen. rewrite !length_app in *. cbn [length] in *.
  rewrite length_app in Hlen. cbn [length] in Hlen. change (length (lit "/")) with 1%nat. lia.
Qed.

Lemma located_secondary : get_secondary_dex_location dex = Some (dir, name).
Proof.
  unfold get_secondary_dex_location. rewrite located_rfind, located_take. destruct Hdex as (-> & _ & Hn & _).
  rewrite length_app. cbn [length]. destruct (Nat.eqb_spec (length dir) (length dir + S (length name) - 1)).
  { destruct name; [done|cbn in *; lia]. }
  by rewrite Nat.add_1_r, drop_through.
Qed.

Lemma secondary_current u pkg :
  create_current_profile_path G u pkg dex true = Some ((dir ++ lit "/oat") ++ slash :: name ++ lit ".cur" ++ lit ".prof").
Proof. unfold create_current_profile_path. rewrite located_secondary. cbn [mbind option_bind]. by rewrite <- app_assoc. Qed.

Lemma secondary_reference pkg :
  create_reference_profile_path G pkg dex true = Some ((dir ++ lit "/oat") ++ slash :: name ++ lit ".prof").
Proof. unfold create_reference_profile_path. rewrite located_secondary. cbn [mbind option_bind]. by rewrite <- app_assoc. Qed.

End Layout.

(** ** Validation *)

Lemma validate_located {mu : Multiuser} debuggable isdir pkg dex vol uid flag d :
  check_package_name pkg = Some () -> create_data_path debuggable vol = Some d ->
  flag = FLAG_STORAGE_CE \/ flag = FLAG_STORAGE_DE ->
  exists b, validate_secondary_dex_path debuggable isdir pkg dex vol uid flag = Some b /\
    (b = true -> exists dir name, located dex dir name).
Proof.
  intros Hpkg Hd Hflag. unfold validate_secondary_dex_path.
  assert (Hf : (flag =? FLAG_STORAGE_CE) || (flag =? FLAG_STORAGE_DE) = true).
  { apply orb_true_iff. by destruct Hflag as [-> | ->]; [left|right]. }
  rewrite Hf. cbn [check mbind option_bind]. destruct dex as [|c t]; [by exists false|].
  destruct (Ascii.eqb_spec c slash) as [->|]; cbn [negb]; [|by exists false].
  destruct (last (slash :: t)) as [e|] eqn:Hlast; [|by apply last_None in Hlast].
  destruct (Ascii.eqb_spec e slash) as [->|He]; [by exists false|].
  destruct (has_substr _ _) eqn:Hdot; [by exists false|]. destruct (_ <? _)%nat; [by exists false|].
  assert (Hloc : exists dir name, located (slash :: t) dir name).
  { destruct (rfind_char slash (slash :: t)) as [j|] eqn:Er.
    2: { apply rfind_char_None in Er. set_solver. }
    apply rfind_char_Some in Er as (dir & name & Heq & Hn & _). exists dir, name.
    pose proof (undotted t Hdot) as Hpt.
    assert (Hp : plain (slash :: t) = true) by (change (slash :: t) with ([] ++ slash :: t); by rewrite plain_app).
    unfold located. split_and!; [done|done| | |done|].
    - intros ->. rewrite Heq, last_snoc in Hlast. by injection Hlast as <-.
    - rewrite Heq, plain_app in Hp. by apply andb_true_iff in Hp as [? _].
    - destruct dir as [|x dir]; [by left|]. right. injection Heq as <- _. by exists dir. }
  unfold create_data_user_ce_package_path, create_data_user_de_package_path, create_data_user_ce_package_path_as_user_link,
    create_data_user_ce_path, create_data_user_de_path.
  rewrite Hpkg, Hd. cbn [mbind option_bind].
  destruct (flag =? FLAG_STORAGE_CE); [destruct (_ && _)|]; cbn [mbind option_bind]; destruct (prefixb _ _); eauto.
Qed.

(** * Frames *)

(** The two places that belong to a dex file beside itself. *)
Definition dex_oat_dir (dex : str) : str :=
  match rfind_char slash dex with Some i => take i dex | None => dex end ++ lit "/oat".
Definition off_dex (dex q : str) : Prop := ~ below (dex_oat_dir dex) q /\ ~ below (dex ++ lit ".prof") q.

Section Keeps.
Context {W : Type} {world : World W} {proc : Process W} {reads : DexReads W} {Node : Type} {view : W -> str -> option Node}.
Context {is_dir : Node -> bool} {ok : WorldOk world view is_dir} {pok : ProcessOk world proc view}.
Context {aid : AidRanges} {mu : Multiuser}.
Context (debuggable : bool) (G : globals) (env : DexEnv).

Abbreviation keeps := (keeps (view := view)).

Lemma keeps_below (S : str -> Prop) root p c : targets c = [p] -> plain p = true -> below root p ->
  (forall q, S q -> ~ below root q) -> keeps S (do_call c).
Proof.
  intros Ht Hp Hb HS. apply keeps_call. rewrite Ht. constructor; [|constructor]. split; [done|].
  intros q Hq Hpq. apply (HS q Hq). by eapply below_trans.
Qed.

Lemma keeps_unlink (S : str -> Prop) root p : plain p = true -> below root p ->
  (forall q, S q -> ~ below root q) -> keeps S (unlink_if_exists p).
Proof. intros. apply keeps_bind; [by eapply (keeps_below S root p)|]. intros r. apply keeps_ret. Qed.

Lemma keeps_rmdir (S : str -> Prop) root p : plain p = true -> below root p ->
  (forall q, S q -> ~ below root q) -> keeps S (rmdir_if_empty p).
Proof. intros. apply keeps_bind; [by eapply (keeps_below S root p)|]. intros r. apply keeps_ret. Qed.

Lemma keeps_at_some {A B} S (o : option A) a (k : A -> io W B) :
  o = Some a -> keeps S (k a) -> keeps S (io_bind (abort_if_none o) k).
Proof. intros -> H. exact H. Qed.

Section Located.
Context (dex dir name : str) (Hdex : located dex dir name).

Lemma dex_oat_dir_eq : dex_oat_dir dex = dir ++ slash :: lit "oat".
Proof. unfold dex_oat_dir. by rewrite (located_rfind dex dir name Hdex), (located_take dex dir name Hdex). Qed.

Lemma off_oat q : off_dex dex q -> ~ below (dir ++ slash :: lit "oat") q.
Proof. intros [H _]. by rewrite dex_oat_dir_eq in H. Qed.

Lemma oat_plain : plain (dir ++ slash :: lit "oat") = true.
Proof. destruct Hdex as (_ & _ & _ & Hp & _). by rewrite plain_app, Hp. Qed.

(** A file name that is longer than [..]. *)
Lemma plain_entry p n : plain p = true -> slash ∉ n -> (2 < length n)%nat -> plain (p ++ slash :: n) = true.
Proof.
  intros Hp Hn Hl. rewrite plain_app, Hp, plain_single by done. apply negb_true_iff, orb_false_iff.
  split; apply bool_decide_eq_false; intros ->; cbn in Hl; lia.
Qed.

Lemma no_slash_app a b : slash ∉ a -> find_char slash b 0 = None -> slash ∉ a ++ b.
Proof. intros Ha Hb%find_char_None [?|?]%elem_of_app; done. Qed.

Lemma prof_plain : plain (dex ++ lit ".prof") = true.
Proof.
  destruct Hdex as (-> & Hn & Hne & Hp & _). rewrite <- app_assoc, <- app_comm_cons. apply plain_entry; [done| |].
  - by apply no_slash_app.
  - rewrite length_app. cbn. lia.
Qed.

Lemma oat_entry_plain n : slash ∉ n -> (2 < length n)%nat -> plain ((dir ++ lit "/oat") ++ slash :: n) = true.
Proof. intros Hn Hl. by apply plain_entry; [apply oat_plain|..]. Qed.

Lemma keeps_clean_isa pkg uid isa result : is_dot isa = false ->
  keeps (off_dex dex) (clean_isa (paths := installd_paths G) G dex pkg uid isa result).
Proof.
  intros Hisa. unfold clean_isa. pose proof Hdex as (_ & Hn & _).
  destruct (layout_spec G dex dir name Hdex isa _ eq_refl) as [E|(stem & Hi & Hs & E)]; rewrite E; cbv zeta.
  { eapply keeps_at_some; [done|]. apply keeps_ret. }
  eapply keeps_at_some; [done|]. cbv beta iota. set (oat := dir ++ lit "/oat").
  assert (Hf : forall x, plain ((oat ++ slash :: isa ++ slash :: stem) ++ extension x) = true).
  { intros x. pose proof (artifact_plain oat isa stem (lit "a") oat_plain Hisa Hi Hs eq_refl (x, false)) as H.
    unfold artifact_path in H. cbn [fst snd] in H. by rewrite app_nil_r in H. }
  assert (Hb : forall x, below oat ((oat ++ slash :: isa ++ slash :: stem) ++ extension x)).
  { intros x. right. eexists. rewrite <- app_assoc, <- app_comm_cons. reflexivity. }
  unfold create_vdex_filename, create_image_filename. rewrite !replace_plain_odex.
  unfold current_path, reference_path.
  rewrite (secondary_current G dex dir name Hdex), (secondary_reference G dex dir name Hdex). fold oat.
  apply keeps_bind; [apply (keeps_unlink _ oat _ (Hf Oat) (Hb Oat) off_oat)|intros r1].
  eapply keeps_at_some; [done|]. apply keeps_bind; [apply (keeps_unlink _ oat _ (Hf Vdex) (Hb Vdex) off_oat)|intros r2].
  eapply keeps_at_some; [done|]. apply keeps_bind; [apply (keeps_unlink _ oat _ (Hf Image) (Hb Image) off_oat)|intros r3].
  do 2 (eapply keeps_at_some; [done|]).
  do 2 (apply keeps_bind;
        [apply (keeps_unlink _ oat); [apply oat_entry_plain; [by repeat apply no_slash_app|rewrite !length_app; cbn; lia]
                                     |right; by eexists|apply off_oat]|intros ?]).
  apply keeps_bind; [apply (keeps_unlink _ (dex ++ lit ".prof")); [apply prof_plain|apply below_refl|by intros q [_ ?]]|intros r6].
  apply keeps_bind.
  { apply (keeps_rmdir _ oat); [|right; by eexists|apply off_oat].
    unfold oat. change (lit "/oat") with (slash :: lit "oat"). rewrite plain_app, oat_plain, plain_single by done. by rewrite Hisa. }
  intros r7. apply keeps_bind; [apply (keeps_rmdir _ oat); [apply oat_plain|apply below_refl|apply off_oat]|].
  intros r8. apply keeps_ret.
Qed.

Lemma keeps_clean_isas pkg uid isas result : Forall (fun isa => is_dot isa = false) isas ->
  keeps (off_dex dex) (clean_isas (paths := installd_paths G) G dex pkg uid isas result).
Proof.
  intros H. revert result. induction H as [|isa isas Hi _ IH]; intros result; cbn [clean_isas]; [apply keeps_ret|].
  apply keeps_bind; [by apply keeps_clean_isa|]. intros [r|]; [apply IH|apply keeps_ret].
Qed.

End Located.
End Keeps.

(** What a child that calls [_exit] leaves, if it is not killed before; the
    codes of [drop_capabilities] are those of its errors. *)
Class ExitOk {W : Type} (proc : Process W) : Prop := {
  exit_code : forall w c, WIFEXITED (exit_status w c) = true -> WEXITSTATUS (exit_status w c) = c mod 256;
  drop_code : forall w uid c, drop_failure w uid = Some c -> c mod 256 <> 0;
}.

Section Reconcile.
Context {W : Type} {world : World W} {proc : Process W} {reads : DexReads W} {Node : Type} {view : W -> str -> option Node}.
Context {is_dir : Node -> bool} {ok : WorldOk world view is_dir} {pok : ProcessOk world proc view} {eok : ExitOk proc}.
Context {aid : AidRanges} {mu : Multiuser}.
Context (debuggable : bool) (G : globals) (env : DexEnv).
Context (pkg dex : str) (vol : option str) (d : str) (uid flag : Z).
Context (Hpkg : check_package_name pkg = Some ()) (Hd : create_data_path debuggable vol = Some d).
Context (Hflag : flag = FLAG_STORAGE_CE \/ flag = FLAG_STORAGE_DE).

(** The child did not exit with code 0. *)
Definition not_zero (status : Z) : Prop := exists w c, status = exit_status w c /\ c mod 256 <> 0.

Lemma not_zero_nonzero status : not_zero status -> status <> 0.
Proof. intros (w & c & -> & Hc) E. apply Hc. rewrite <- (exit_code w c); by rewrite E. Qed.

Lemma wp_exit code w (Q : Z -> W -> Prop) : Q (exit_status w code) w -> wp (do_exit code) Q w.
Proof. intros H. by apply wp_ask. Qed.

Lemma wp_reconcile_child isas w : Forall (fun isa => is_dot isa = false) isas ->
  wp (reconcile_child (paths := installd_paths G) debuggable G dex pkg uid isas vol flag) (fun status w' =>
    agree (view := view) (off_dex dex) w w' /\
    (access_read w dex <> ENOENT -> agree (view := view) (fun _ => True) w w') /\
    (access_read w dex <> 0 -> not_zero status)) w.
Proof.
  intros Hisas. unfold reconcile_child, dropped. apply wp_bind, wp_ask.
  assert (Hstay : forall code, (access_read w dex <> 0 -> code mod 256 <> 0) ->
    wp (do_exit code) (fun status w' => agree (view := view) (off_dex dex) w w' /\
      (access_read w dex <> ENOENT -> agree (view := view) (fun _ => True) w w') /\
      (access_read w dex <> 0 -> not_zero status)) w).
  { intros code Hc. apply wp_exit. split_and!; [apply agree_refl|intros _; apply agree_refl|].
    intros Ha. exists w, code. auto. }
  destruct (drop_failure w uid) as [code|] eqn:Edrop; [apply Hstay; intros _; by eapply drop_code|].
  apply wp_bind. unfold validate_secondary. apply wp_bind, wp_ask.
  destruct (validate_located debuggable (w_isdir w) pkg dex vol uid flag d Hpkg Hd Hflag) as (b & Hv & Hloc).
  eapply wp_some; [exact Hv|]. destruct b; cbn [negb]; [|by apply Hstay].
  destruct (Hloc eq_refl) as (dir & name & Hdex). clear Hloc.
  apply wp_bind. unfold check_secondary_dex_access. apply wp_bind, wp_ask, wp_ret.
  destruct (Z.eqb_spec (access_read w dex) 0) as [E0|E0]; [by apply Hstay|].
  destruct (Z.eqb_spec (access_read w dex) ENOENT) as [E1|E1].
  2: { destruct (_ =? EACCES); by apply Hstay. }
  apply wp_bind. eapply wp_mono; [by apply (keeps_clean_isas G dex dir name Hdex pkg uid isas true Hisas w)|].
  intros r w1 Ha. apply wp_exit. split_and!; [done|done|]. intros _. exists w1. eexists. split; [reflexivity|].
  by destruct r as [[]|].
Qed.

(** A verdict that the file exists comes from exit code 0. *)
Lemma verdict_exists status r : reconcile_verdict status = (r, true) -> r = true /\ WIFEXITED status = true /\ WEXITSTATUS status = 0.
Proof.
  unfold reconcile_verdict. destruct (WIFEXITED status) eqn:E.
  - destruct (_ || _); [done|]. destruct (Z.eqb_spec (WEXITSTATUS status) kReconcileSecondaryDexExists); [|done].
    by intros [= <-].
  - destruct (_ || _); [done|]. destruct (Z.eqb_spec status kReconcileSecondaryDexExists) as [->|]; done.
Qed.

End Reconcile.

(** Reconciling a secondary dex file returns, leaves the descriptors of the
    daemon as they are and changes nothing but the oat directory beside the
    file and its old profile. If the file can be read, or cannot be looked at,
    its code and its profiles stay; and it is reported to exist only if the
    child could read it. *)
Theorem reconcile_secondary_contract {W : Type} {world : World W} {proc : Process W} {reads : DexReads W} {Node : Type}
    (view : W -> str -> option Node) (is_dir : Node -> bool) {ok : WorldOk world view is_dir}
    {pok : ProcessOk world proc view} {eok : ExitOk proc} {mu : Multiuser}
    (debuggable : bool) (G : globals) (pkg dex : str) (vol : option str) (d : str) (uid flag : Z) (isas : list str) (w : W) :
  check_package_name pkg = Some () -> create_data_path debuggable vol = Some d ->
  Forall (fun isa => is_dot isa = false) isas ->
  exists r ex w',
    reconcile_secondary_dex_file (paths := installd_paths G) debuggable G dex pkg uid isas vol flag w = Some (r, ex, w') /\
    open_fds w' = open_fds w /\
    (forall q, off_dex dex q -> view w' q = view w q) /\
    (access_read w dex <> ENOENT -> forall q, view w' q = view w q) /\
    (ex = true -> r = true /\ access_read w dex = 0).
Proof.
  intros Hpkg Hd Hisas. unfold reconcile_secondary_dex_file.
  destruct (bool_decide (isas = [])); [by exists false, false, w|].
  destruct ((flag =? FLAG_STORAGE_CE) || (flag =? FLAG_STORAGE_DE)) eqn:Hf; cbn [negb]; [|by exists false, false, w].
  assert (Hflag : flag = FLAG_STORAGE_CE \/ flag = FLAG_STORAGE_DE).
  { apply orb_true_iff in Hf as [H|H]; [left|right]; by apply Z.eqb_eq. }
  pose proof (wp_reconcile_child (view := view) debuggable G pkg dex vol d uid flag Hpkg Hd Hflag isas w Hisas) as H.
  unfold wp in H. unfold in_child, in_child_with, io_bind. destruct (reconcile_child _ _ _ _ _ _ _ _ w) as [[status w1]|]; [|done].
  destruct H as (Ha & Hall & Hz). destruct (reconcile_verdict status) as [r ex] eqn:Ev. exists r, ex, (join_child w w1).
  split; [done|]. split; [apply Descriptors.join_fds|]. split; [intros q Hq; rewrite join_view; by apply Ha|].
  split; [intros He q; rewrite join_view; by apply Hall|]. intros ->.
  destruct (verdict_exists status r Ev) as (-> & Hx & Hs). split; [done|].
  destruct (decide (access_read w dex = 0)) as [|Hne]; [done|]. destruct (Hz Hne) as (w2 & c & -> & Hc).
  by rewrite exit_code in Hs.
Qed.

(** * Pipes *)

Section Pipes.
Context {W : Type} {world : World W} {proc : Process W} {reads : DexReads W} {Node : Type} {view : W -> str -> option Node}.
Context {is_dir : Node -> bool} {ok : WorldOk world view is_dir} {pok : ProcessOk world proc view}.
Context (S : str -> Prop).

Definition held_ends (e : option (Z * Z)) : list Z :=
  match e with Some (r, wr) => held r ++ held wr | None => [] end.

Lemma moves_pipe l : moves (view := view) S l Pipe (fun e => held_ends e ++ l).
Proof.
  unfold Pipe. eapply moves_bind; [apply moves_opening; [done|by apply spares_nothing]|]. intros r.
  destruct (r <? 0) eqn:Er; [apply moves_ret; unfold held; by rewrite Er|].
  eapply moves_bind; [apply moves_opening; [done|by apply spares_nothing]|]. intros wr.
  destruct (wr <? 0) eqn:Ew.
  - eapply (moves_bind _ _ _ _ (fun _ => l)); [|intros u; by apply moves_ret]. unfold held at 1. rewrite Ew. cbn [app].
    pose proof (moves_drop (view := view) S r l) as H. unfold drop_fd in H. by rewrite Er in H.
  - apply moves_ret. cbn [held_ends]. rewrite <- app_assoc. by rewrite Permutation_app_swap_app.
Qed.

Lemma moves_drop_second r fd l : moves (view := view) S (held r ++ held fd ++ l) (drop_fd fd) (fun _ => held r ++ l).
Proof.
  eapply moves_perm; [apply Permutation_app_swap_app|]. apply moves_drop.
Qed.

End Pipes.

Section Hash.
Context {W : Type} {world : World W} {proc : Process W} {reads : DexReads W} {Node : Type} {view : W -> str -> option Node}.
Context {is_dir : Node -> bool} {ok : WorldOk world view is_dir} {pok : ProcessOk world proc view} {eok : ExitOk proc}.
Context {aid : AidRanges} {mu : Multiuser}.
Context (debuggable : bool) (pkg dex : str) (vol : option str) (d : str) (uid flag : Z).
Context (Hpkg : check_package_name pkg = Some ()) (Hd : create_data_path debuggable vol = Some d).
Context (Hflag : flag = FLAG_STORAGE_CE \/ flag = FLAG_STORAGE_DE).

(** The files of two states are the same. *)
Definition same_files (w w' : W) : Prop := forall q, view w' q = view w q.

(** The open of the child is refused. *)
Definition refused (w : W) : Prop :=
  let r := fst (w_call (OpenFile dex (Z.lor O_RDONLY (Z.lor O_CLOEXEC O_NOFOLLOW)) 0) w) in r = - EACCES \/ r = - ENOENT.

(** What a hash of no error says. *)
Definition hashed (w : W) (written : str) : Prop :=
  exists w1, same_files w w1 /\
    (written = [] /\ refused w1 \/ exists bytes, file_bytes w1 dex = Some bytes /\ written = sha256 bytes).

Lemma wp_hash_child base r l w : owns base (held r ++ l) w ->
  wp (hash_child debuggable dex pkg uid vol flag r) (fun a w' =>
    same_files w w' /\ (fst a mod 256 = 0 -> hashed w (snd a))) w.
Proof.
  intros Ho. unfold hash_child. apply wp_bind, wp_ask.
  destruct (drop_failure w uid) as [code|] eqn:Edrop.
  { apply wp_ret. split; [done|]. intros Hc. by destruct (drop_code w uid code). }
  apply wp_bind. eapply wp_mono; [apply (moves_drop (view := view) (fun _ => True) r l base [] w); by rewrite app_nil_r|].
  intros u w1 [_ H1]. assert (Hs1 : same_files w w1) by (intros q; by apply H1). clear H1.
  apply wp_bind. unfold validate_secondary. apply wp_bind, wp_ask.
  destruct (validate_located debuggable (w_isdir w1) pkg dex vol uid flag d Hpkg Hd Hflag) as (b & Hv & _).
  eapply wp_some; [exact Hv|]. destruct b; cbn [negb]; [|by apply wp_ret].
  apply wp_bind, wp_call. set (c := OpenFile _ _ _). pose proof (call_frame (view := view) c w1) as Hcf.
  assert (Hs2 : same_files w (snd (w_call c w1))).
  { intros q. rewrite (Hcf q); [apply Hs1|constructor]. }
  set (fd := fst (w_call c w1)). destruct (fd <? 0) eqn:Ef.
  { apply wp_ret. split; [done|]. cbn [fst snd]. destruct ((fd =? - EACCES) || (fd =? - ENOENT)) eqn:Ee; [|done].
    intros _. exists w1. split; [done|]. left. split; [done|]. unfold refused. fold c. fold fd.
    apply orb_true_iff in Ee as [E|E]; [left|right]; by apply Z.eqb_eq. }
  apply wp_bind, wp_ask. destruct (file_bytes _ dex) as [bytes|] eqn:Eb; [|by apply wp_ret].
  apply wp_bind, wp_ask, wp_ret. destruct (pipe_accepts _); [|by split].
  split; [done|]. intros _. eexists. split; [exact Hs2|]. right. by exists bytes.
Qed.

Lemma hashed_same w0 w1 h : same_files w0 w1 -> hashed w1 h -> hashed w0 h.
Proof. intros H (w2 & H2 & Hh). exists w2. split; [|done]. intros q. by rewrite H2. Qed.

Lemma wp_hash_body base r wr l w : owns base (held r ++ held wr ++ l) w ->
  wp ('(status, written) ← in_child_with (
        '(code, written) ← hash_child debuggable dex pkg uid vol flag r;
        status ← do_exit code; mret (status, written));
      _ ← drop_fd wr; _ ← drop_fd r;
      mret (status =? 0, if (length written <? SHA256_DIGEST_LENGTH)%nat then [] else take SHA256_DIGEST_LENGTH written))
    (fun a w' => owns base l w' /\ same_files w w' /\
       (fst a = true -> exists written, hashed w written /\
          snd a = if (length written <? SHA256_DIGEST_LENGTH)%nat then [] else take SHA256_DIGEST_LENGTH written)) w.
Proof.
  intros Ho. apply wp_bind. unfold in_child_with, wp at 1. unfold io_bind at 1.
  pose proof (wp_hash_child base r (held wr ++ l) w Ho) as H. unfold wp in H.
  destruct (hash_child _ _ _ _ _ _ _ w) as [[[code written] w1]|]; [|done]. destruct H as [Hs1 Hh]. cbn [fst snd] in Hh.
  cbn. assert (Ho2 : owns base (held r ++ held wr ++ l) (join_child w w1)).
  { eapply owns_same; [apply Descriptors.join_fds|done]. }
  assert (Hs2 : same_files w (join_child w w1)) by (intros q; by rewrite join_view).
  apply wp_bind. eapply wp_mono.
  { apply (moves_drop_second (view := view) (fun _ => True) r wr l base []). by rewrite app_nil_r. }
  intros u w2 [Ho3 H3]. apply wp_bind. eapply wp_mono; [apply (moves_drop (view := view) (fun _ => True) r l base [])|].
  { by rewrite app_nil_r in Ho3 |- *. }
  intros u' w3 [Ho4 H4]. apply wp_ret. rewrite app_nil_r in Ho4. split_and!; [done| |].
  - intros q. by rewrite H4, H3, Hs2.
  - intros Hz%Z.eqb_eq. exists written. split; [|done]. apply Hh. rewrite <- (exit_code w1 code); by rewrite Hz.
Qed.

End Hash.

(** Hashing returns, changes no file and no descriptor of the daemon. An
    answer without error holds the digest of the contents of the file, or
    nothing where the application may not open it or it is not there. *)
Theorem hash_secondary_contract {W : Type} {world : World W} {proc : Process W} {reads : DexReads W} {Node : Type}
    (view : W -> str -> option Node) (is_dir : Node -> bool) {ok : WorldOk world view is_dir}
    {pok : ProcessOk world proc view} {eok : ExitOk proc} {mu : Multiuser}
    (debuggable : bool) (pkg dex : str) (vol : option str) (d : str) (uid flag : Z) (w : W) :
  check_package_name pkg = Some () -> create_data_path debuggable vol = Some d ->
  (forall bytes, length (sha256 bytes) = SHA256_DIGEST_LENGTH) ->
  exists r h w',
    hash_secondary_dex_file debuggable dex pkg uid vol flag w = Some (r, h, w') /\
    open_fds w' = open_fds w /\ same_files (view := view) w w' /\
    (r = true -> exists w1, same_files (view := view) w w1 /\
       (h = [] /\ refused dex w1 \/ exists bytes, file_bytes w1 dex = Some bytes /\ h = sha256 bytes)).
Proof.
  intros Hpkg Hd Hsha. unfold hash_secondary_dex_file.
  destruct ((flag =? FLAG_STORAGE_CE) || (flag =? FLAG_STORAGE_DE)) eqn:Hf; cbn [negb]; [|by exists false, [], w].
  assert (Hflag : flag = FLAG_STORAGE_CE \/ flag = FLAG_STORAGE_DE).
  { apply orb_true_iff in Hf as [H|H]; [left|right]; by apply Z.eqb_eq. }
  set (fine := fun (a : bool * str) (w' : W) => open_fds w' = open_fds w /\ same_files (view := view) w w' /\
    (fst a = true -> exists w1, same_files (view := view) w w1 /\
       (snd a = [] /\ refused dex w1 \/ exists bytes, file_bytes w1 dex = Some bytes /\ snd a = sha256 bytes))).
  match goal with |- context [?c w = Some _] => assert (H : wp c fine w) end.
  2: { apply wp_exists in H as ([r h] & w' & Hrun & H). by exists r, h, w'. }
  apply wp_bind. eapply wp_mono; [apply (moves_pipe (view := view) (fun _ => True) [] (open_fds w) [] w), owns_nil|].
  intros ends w1 [Ho H1]. rewrite !app_nil_r in Ho. assert (Hs1 : same_files (view := view) w w1) by (intros q; by apply H1).
  destruct ends as [[r wr]|]; [|apply wp_ret; split_and!; [by apply (owns_none _ _ Ho)|done|done]].
  cbn [held_ends] in Ho. rewrite <- (app_nil_r (held wr)) in Ho.
  eapply wp_mono; [by apply (wp_hash_body (view := view) debuggable pkg dex vol d uid flag Hpkg Hd Hflag _ r wr [] w1 Ho)|].
  intros [res h] w2 (Ho2 & Hs2 & Hh). split_and!; [by apply (owns_none _ _ Ho2)|intros q; by rewrite Hs2|].
  intros Hr. destruct (Hh Hr) as (written & (w3 & Hs3 & Hw) & Hh'). exists w3.
  split; [intros q; by rewrite Hs3|]. cbn [snd] in *. destruct Hw as [[-> Href]|(bytes & Hb & ->)].
  - left. by subst.
  - right. exists bytes. split; [done|]. rewrite Hh', (Hsha bytes), Nat.ltb_irrefl. by rewrite take_ge by (by rewrite Hsha).
Qed.

(** * Runs *)

(** A digest of the right length. *)
Definition demo_digest (bytes : str) : str := take SHA256_DIGEST_LENGTH (bytes ++ repeat nul SHA256_DIGEST_LENGTH).

#[export] Instance proc_reads : DexReads pstate := {|
  access_read s p := match proc_view s p with Some _ => 0 | None => ENOENT end;
  pipe_text _ := Some [];
  file_bytes s p := n_data <$> proc_view s p;
  pipe_accepts _ := true;
  sha256 := demo_digest;
  access_time _ _ := 0;
  schedule_failure _ := None;
|}.

#[export] Instance proc_exits : ExitOk proc_table.
Proof.
  split; [|done]. intros s c _. cbn [proc_table exit_status]. unfold WEXITSTATUS.
  rewrite Z.shiftr_shiftl_l by lia. change (8 - 8) with 0. rewrite Z.shiftl_0_r.
  change 255 with (Z.ones 8). rewrite Z.land_ones by lia. by rewrite Zmod_mod.
Qed.

Definition demo_dex : str := lit "/data/user/0/com.foo/files/a.dex".

Definition dex_state (nodes : list (string * node)) : pstate :=
  PState (fun q => snd <$> List.find (fun e => q =s? (lit "/data/user/0/com.foo/files/" ++ lit (fst e))) nodes) 3 ∅.

Definition file (data : string) : node := Node false 384 (lit data).

(** The dex file is gone, its code and its profile are left. *)
Definition stale_state : pstate :=
  dex_state [("oat/arm64/a.odex", file "code"); ("oat/arm64/a.vdex", file "code"); ("oat/a.dex.prof", file "hot")].

Definition reconcile_run (s : pstate) : option (bool * bool * pstate) :=
  reconcile_secondary_dex_file (world := proc_fs 0) (proc := proc_table) (mu := mu_android)
    (paths := installd_paths app_globals) false app_globals demo_dex (lit "com.foo") 10010 [lit "arm64"] None FLAG_STORAGE_CE s.

Definition left_over (s : pstate) : list bool :=
  map (fun n => match proc_view s (lit "/data/user/0/com.foo/files/" ++ lit n) with Some _ => true | None => false end)
    ["oat/arm64/a.odex"; "oat/arm64/a.vdex"; "oat/a.dex.prof"]%string.

Lemma reconcile_example :
  ((fun x => (fst x, left_over (snd x))) <$> reconcile_run stale_state) = Some (true, false, [false; false; false]) /\
  ((fun x => (fst x, left_over (snd x))) <$> reconcile_run (dex_state [("a.dex", file "dex"); ("oat/arm64/a.odex", file "code")])) =
    Some (true, true, [true; false; false]).
Proof. by vm_compute. Qed.

Lemma reconcile_secondary_contract_witness :
  check_package_name (lit "com.foo") = Some () /\ create_data_path false None = Some (lit "/data") /\
  exists r ex w',
    reconcile_run stale_state = Some (r, ex, w') /\
    open_fds w' = open_fds stale_state /\
    (forall q, off_dex demo_dex q -> proc_view w' q = proc_view stale_state q) /\
    (access_read stale_state demo_dex <> ENOENT -> forall q, proc_view w' q = proc_view stale_state q) /\
    (ex = true -> r = true /\ access_read stale_state demo_dex = 0).
Proof.
  split; [by vm_compute|]. split; [done|].
  apply (reconcile_secondary_contract (world := proc_fs 0) (proc := proc_table) (mu := mu_android) proc_view n_dir false
           app_globals (lit "com.foo") demo_dex None (lit "/data") 10010 FLAG_STORAGE_CE [lit "arm64"] stale_state);
    [by vm_compute|done|by repeat constructor].
Defined.

(** Where a file resists its removal, the failure is forgotten. *)
Lemma reconcile_forgets_failures :
  ((fun x => (fst x, left_over (snd x))) <$> reconcile_run (dex_state [("oat/arm64/a.vdex", Node true 448 [])])) =
  Some (true, false, [false; true; false]).
Proof. by vm_compute. Qed.

(** A child that a signal kills, or cannot be waited for, is taken for one that
    has cleaned up. *)
Lemma killed_child_reported_clean :
  WIFEXITED 1 = false /\ reconcile_verdict 1 = (true, false) /\ WIFEXITED 2 = false /\ reconcile_verdict 2 = (true, false).
Proof. by vm_compute. Qed.

Definition dex_present : pstate := dex_state [("a.dex", file "dex")].

Lemma hash_secondary_contract_witness :
  check_package_name (lit "com.foo") = Some () /\ create_data_path false None = Some (lit "/data") /\
  exists r h w',
    hash_secondary_dex_file (world := proc_fs 0) (proc := proc_table) (mu := mu_android) false demo_dex (lit "com.foo")
      10010 None FLAG_STORAGE_CE dex_present = Some (r, h, w') /\
    open_fds w' = open_fds dex_present /\ same_files (view := proc_view) dex_present w' /\
    (r = true -> exists w1, same_files (view := proc_view) dex_present w1 /\
       (h = [] /\ refused (world := proc_fs 0) demo_dex w1 \/
        exists bytes, file_bytes w1 demo_dex = Some bytes /\ h = sha256 bytes)).
Proof.
  split; [by vm_compute|]. split; [done|].
  apply (hash_secondary_contract (world := proc_fs 0) (proc := proc_table) (mu := mu_android) proc_view n_dir false
           (lit "com.foo") demo_dex None (lit "/data") 10010 FLAG_STORAGE_CE dex_present); [by vm_compute|done|].
  intros bytes. unfold sha256, proc_reads, demo_digest. rewrite length_take, length_app, repeat_length. lia.
Defined.
