(* ===== verification/Dexopt.v ===== *)
(** Compiling a dex file: [dexopt] of [installd/dexopt.cpp].

    The function opens its inputs and outputs one after the other and leaves at
    the first error; what undoes its work are the destructors of its locals. A
    [Dex2oatFileWrapper] is a record here, [local] lists what has to be
    destroyed, and [leave] destroys it in the reverse order of its
    construction. *)

From S2P Require Import Prelude Platform Fts InstalldPaths InstalldFs FreeCache World SimpleFs AppPaths AppData.
From S2P Require Import OtaParameters DexPaths Dex2oat Descriptors ProcFs Profiles Artifacts SecondaryDex.

Open Scope Z_scope.
Open Scope io_scope.

Definition kSetSchedPolicy : Z := 70.
Definition kSetPriority : Z := 71.
Definition kFlock : Z := 67.

Definition DEXOPT_MASK : Z :=
  foldl Z.lor DEXOPT_PUBLIC
    [DEXOPT_DEBUGGABLE; DEXOPT_BOOTCOMPLETE; DEXOPT_PROFILE_GUIDED; DEXOPT_SECONDARY_DEX; DEXOPT_FORCE;
     DEXOPT_STORAGE_CE; DEXOPT_STORAGE_DE; DEXOPT_IDLE_BACKGROUND_JOB; DEXOPT_ENABLE_HIDDEN_API_CHECKS;
     DEXOPT_GENERATE_COMPACT_DEX; DEXOPT_GENERATE_APP_IMAGE].

(** What a wrapper does after closing its descriptor. *)
Inductive cleanup :=
| UnlinkFile (path : str)
| ClearReference (package_name location : str) (is_secondary_dex : bool).

Record wrapper := Dex2oatFileWrapper {
  value_ : Z;
  cleanup_ : option cleanup;
  do_cleanup_ : bool;
  auto_close_ : bool;
}.

Definition no_file : wrapper := Dex2oatFileWrapper (-1) None true true.
Definition new_file (value : Z) (c : cleanup) : wrapper := Dex2oatFileWrapper value (Some c) true true.

Definition SetCleanup (b : bool) (f : wrapper) : wrapper := Dex2oatFileWrapper (value_ f) (cleanup_ f) b (auto_close_ f).
Definition DisableAutoClose (f : wrapper) : wrapper := Dex2oatFileWrapper (value_ f) (cleanup_ f) (do_cleanup_ f) false.

Section Dexopt.
Context {W : Type} {world : World W} {proc : Process W} {reads : DexReads W} {paths : OatPaths}.
Context {aid : AidRanges} {mu : Multiuser}.
Context (debuggable : bool) (G : globals) (env : DexEnv).

(** * Wrappers *)

Definition run_cleanup (c : cleanup) : io W unit :=
  match c with
  | UnlinkFile path => _ ← do_call (RemoveFile path); mret ()
  | ClearReference package_name location is_secondary_dex =>
      _ ← clear_reference_profile G package_name location is_secondary_dex; mret ()
  end.

(** Close and clean up, as [reset] does before it takes the new value. *)
Definition release (f : wrapper) : io W unit :=
  _ ← (if auto_close_ f && (0 <=? value_ f) then close_fd (value_ f) else mret ());
  match (if do_cleanup_ f then cleanup_ f else None) with Some c => run_cleanup c | None => mret () end.

Definition reset (f : wrapper) (new_value : Z) : io W wrapper :=
  _ ← release f; mret (Dex2oatFileWrapper new_value (cleanup_ f) (do_cleanup_ f) (auto_close_ f)).

Definition reset_with (f : wrapper) (new_value : Z) (new_cleanup : cleanup) : io W wrapper :=
  _ ← release f; mret (Dex2oatFileWrapper new_value (Some new_cleanup) (do_cleanup_ f) (auto_close_ f)).

(** * Output files *)

(** Both answer with a descriptor or [-1]. *)
Definition open_existing (path : str) (flags : Z) : io W Z := r ← open_file path flags 0; mret (fd_of r).

Definition open_output_file (file_name : str) (recreate : bool) (permissions : Z) : io W Z :=
  _ ← (if recreate then (_ ← do_call (RemoveFile file_name); mret ()) else mret ());
  r ← open_file file_name (Z.lor (Z.lor O_RDWR O_CREAT) (if recreate then O_EXCL else 0)) permissions;
  mret (fd_of r).

Definition set_permissions_and_ownership (fd : Z) (is_public : bool) (uid : Z) (path : str) (is_secondary_dex : bool)
    : io W bool :=
  m ← do_call (ModeFd fd path (if is_public then 420 else 416));
  if m <? 0 then mret false
  else
    o ← do_call (OwnerFd fd path (if is_secondary_dex then uid else AID_SYSTEM) uid);
    mret (negb (o <? 0)).

(** [kAlwaysProvideSwapFile] is false, [kDefaultProvideSwapFile] is true. *)
Definition ShouldUseSwapFileForDexopt : bool :=
  match prop env (lit "dalvik.vm.dex2oat-swap") with [] => true | v => v =s? lit "true" end.

Definition maybe_open_app_image (out_oat_path : str) (generate_app_image is_public : bool) (uid : Z)
    (is_secondary_dex : bool) : io W wrapper :=
  if is_secondary_dex then mret no_file
  else
    image_path ← abort_if_none (create_image_filename out_oat_path);
    if bool_decide (image_path = []) then mret no_file
    else
      _ ← do_call (RemoveFile image_path);
      if negb generate_app_image then mret no_file
      else if bool_decide (prop env (lit "dalvik.vm.appimageformat") = []) then mret no_file
      else
        fd ← open_output_file image_path true 384;
        let wrapper_fd := new_file fd (UnlinkFile image_path) in
        if fd <? 0 then (_ ← do_call (RemoveFile image_path); mret wrapper_fd)
        else
          owned ← set_permissions_and_ownership fd is_public uid image_path is_secondary_dex;
          if owned then mret wrapper_fd else reset wrapper_fd (-1).

Definition maybe_open_dexopt_swap_file (out_oat_path : str) : io W Z :=
  if negb ShouldUseSwapFileForDexopt then mret (-1)
  else
    let swap_file_name := out_oat_path ++ lit ".swap" in
    swap_fd ← open_output_file swap_file_name true 384;
    if swap_fd <? 0 then mret swap_fd
    else (_ ← do_call (RemoveFile swap_file_name); mret swap_fd).

Definition maybe_open_reference_profile (pkgname dex_path : str) (profile_name : option str)
    (profile_guided is_public : bool) (uid : Z) (is_secondary_dex : bool) : io W wrapper :=
  if negb profile_guided || prefixb (lit "*") pkgname then mret no_file
  else if is_secondary_dex && is_public then mret no_file
  else
    match (if is_secondary_dex then Some dex_path else profile_name) with
    | None => mret no_file
    | Some location =>
        ufd ← open_reference_profile G uid pkgname location false is_secondary_dex;
        mret (new_file ufd (ClearReference pkgname location is_secondary_dex))
    end.

(** The oat file, and its path where there is one. *)
Definition open_oat_out_file (apk_path : str) (oat_dir : option str) (is_public : bool) (uid : Z) (instruction_set : str)
    (is_secondary_dex : bool) : io W (wrapper * str) :=
  out ← abort_if_none (create_oat_out_path G apk_path instruction_set oat_dir is_secondary_dex);
  match out with
  | None => mret (no_file, [])
  | Some out_oat_path =>
      fd ← open_output_file out_oat_path true 420;
      let wrapper_fd := new_file fd (UnlinkFile out_oat_path) in
      if fd <? 0 then mret (wrapper_fd, out_oat_path)
      else
        owned ← set_permissions_and_ownership fd is_public uid out_oat_path is_secondary_dex;
        if owned then mret (wrapper_fd, out_oat_path)
        else (f ← reset wrapper_fd (-1); mret (f, out_oat_path))
  end.

(** * The vdex files *)

(** Where the vdex to start from is; [None]: there is no such path. *)
Definition in_vdex_path (apk_path out_oat_path : str) (is_odex_location : bool) (instruction_set : str) : io W (option str) :=
  match (if is_odex_location then calculate_odex_file_path apk_path instruction_set else Some out_oat_path) with
  | None => mret None
  | Some path =>
      v ← abort_if_none (create_vdex_filename path);
      mret (if bool_decide (v = []) then None else Some v)
  end.

(** Opens the input; whether it is updated in place. *)
Definition open_in_vdex (in_vdex_path_str out_vdex_path_str : str) (dexopt_action : Z) (profile_guided : bool)
    (in_vdex : wrapper) : io W (bool * wrapper) :=
  let update_vdex_in_place := (in_vdex_path_str =s? out_vdex_path_str) &&
    (dexopt_action =? DEX2OAT_FOR_BOOT_IMAGE) && negb profile_guided in
  if update_vdex_in_place then
    fd ← open_existing in_vdex_path_str O_RDWR;
    f ← reset in_vdex fd;
    mret (negb (value_ f =? -1), f)
  else
    fd ← open_existing in_vdex_path_str O_RDONLY;
    f ← reset in_vdex fd;
    mret (false, f).

(** The result and the wrappers of the input and the output. *)
Definition open_vdex_files_for_dex2oat (apk_path out_oat_path : str) (dexopt_needed : Z) (instruction_set : str)
    (is_public : bool) (uid : Z) (is_secondary_dex profile_guided : bool) (in_vdex out_vdex : wrapper)
    : io W (bool * wrapper * wrapper) :=
  let dexopt_action := Z.abs dexopt_needed in
  out_vdex_path_str ← abort_if_none (create_vdex_filename out_oat_path);
  if bool_decide (out_vdex_path_str = []) then mret (false, in_vdex, out_vdex)
  else
    '(found, update_vdex_in_place, in_vdex) ← (
      if dexopt_action =? DEX2OAT_FROM_SCRATCH then mret (true, false, in_vdex)
      else
        path ← in_vdex_path apk_path out_oat_path (dexopt_needed <? 0) instruction_set;
        match path with
        | None => mret (false, false, in_vdex)
        | Some in_vdex_path_str =>
            '(in_place, f) ← open_in_vdex in_vdex_path_str out_vdex_path_str dexopt_action profile_guided in_vdex;
            mret (true, in_place, f)
        end);
    if negb found then mret (false, in_vdex, out_vdex)
    else
      '(opened, in_vdex, out_vdex) ← (
        if update_vdex_in_place then
          f ← reset_with out_vdex (value_ in_vdex) (UnlinkFile out_vdex_path_str);
          mret (true, DisableAutoClose in_vdex, f)
        else
          fd ← open_output_file out_vdex_path_str true 420;
          f ← reset_with out_vdex fd (UnlinkFile out_vdex_path_str);
          mret (negb (value_ f <? 0), in_vdex, f));
      if negb opened then mret (false, in_vdex, out_vdex)
      else
        owned ← set_permissions_and_ownership (value_ out_vdex) is_public uid out_vdex_path_str is_secondary_dex;
        mret (owned, in_vdex, out_vdex).

Definition update_out_oat_access_times (apk_path out_oat_path : str) : io W unit :=
  s ← ask (fun w => w_stat w apk_path);
  match s with
  | inr _ => mret ()
  | inl st =>
      atime ← ask (fun w => access_time w apk_path);
      _ ← do_call (SetTimes out_oat_path atime (st_mtime st));
      mret ()
  end.

(** * Locals *)

Inductive local := Fd (fd : Z) | Fds (fds : list Z) | Wrapped (f : wrapper).

Definition destroy (l : local) : io W unit :=
  match l with Fd fd => drop_fd fd | Fds fds => drop_fds fds | Wrapped f => release f end.

(** The end of a function whose locals were constructed in this order. *)
Definition leave (r : Z) (locals : list local) : io W Z := _ ← for_all (rev locals) destroy; mret r.

(** * [dexopt] *)

Record dexopt_args := {
  a_dex_path : str; a_uid : Z; a_pkgname : str; a_instruction_set : str; a_dexopt_needed : Z;
  a_oat_dir : option str; a_dexopt_flags : Z; a_compiler_filter : str; a_volume_uuid : option str;
  a_class_loader_context : option str; a_se_info : str; a_downgrade : bool; a_target_sdk_version : Z;
  a_profile_name : option str; a_dex_metadata_path : option str; a_compilation_reason : option str;
}.

(** The child drops its capabilities and its priority, locks the output and
    becomes the compiler. *)
Definition run_compiler (argv : list str) (uid : Z) (boot_complete : bool) (out_oat : Z) (out_oat_path : str)
    (writes : list str) : io W Z :=
  in_child (dropped uid (
    failure ← ask (fun w => if boot_complete then schedule_failure w else None);
    match failure with
    | Some code => do_exit code
    | None =>
        locked ← do_call (LockFd out_oat out_oat_path (Z.lor LOCK_EX LOCK_NB));
        if nz locked then do_exit kFlock else do_call (Child argv uid writes)
    end)).

(** The files that a wrapper holds open for writing. *)
Definition output_file (f : wrapper) : list str :=
  match cleanup_ f with Some (UnlinkFile p) => if 0 <=? value_ f then [p] else [] | _ => [] end.

(** The answer, and the locals that are alive. *)
Definition dexopt_body (a : dexopt_args) (is_public : bool) (dexopt_needed : Z) (oat_dir : option str)
    (context_dex_paths : list str) : io W (Z * list local) :=
  let flag f := has_bit (a_dexopt_flags a) f in
  let is_secondary_dex := flag DEXOPT_SECONDARY_DEX in
  let profile_guided := flag DEXOPT_PROFILE_GUIDED in
  input ← open_existing (a_dex_path a) O_RDONLY;
  if input <? 0 then mret (-1, [])
  else
    '(rc, context_fds) ← open_dex_paths context_dex_paths [];
    let locals := [Fd input; Fds context_fds] in
    if nz rc then mret (-1, locals)
    else
      '(out_oat, out_oat_path) ← open_oat_out_file (a_dex_path a) oat_dir is_public (a_uid a) (a_instruction_set a)
                                   is_secondary_dex;
      let locals := locals ++ [Wrapped out_oat] in
      if value_ out_oat <? 0 then mret (-1, locals)
      else
        '(opened, in_vdex, out_vdex) ← open_vdex_files_for_dex2oat (a_dex_path a) out_oat_path dexopt_needed
                                         (a_instruction_set a) is_public (a_uid a) is_secondary_dex profile_guided
                                         no_file no_file;
        let files := locals ++ [Wrapped in_vdex; Wrapped out_vdex] in
        if negb opened then mret (-1, files)
        else
          restored ← (if is_secondary_dex
                      then do_call (RestoreconPkg (default [] oat_dir) (a_se_info a) (a_uid a) true) else mret 0);
          if nz restored then mret (-1, files)
          else
            swap ← maybe_open_dexopt_swap_file out_oat_path;
            image ← maybe_open_app_image out_oat_path (flag DEXOPT_GENERATE_APP_IMAGE) is_public (a_uid a) is_secondary_dex;
            reference ← maybe_open_reference_profile (a_pkgname a) (a_dex_path a) (a_profile_name a) profile_guided
                          is_public (a_uid a) is_secondary_dex;
            metadata ← (match a_dex_metadata_path a with
                        | Some p => open_existing p (Z.lor O_RDONLY O_NOFOLLOW)
                        | None => mret (-1)
                        end);
            argv ← abort_if_none (RunDex2Oat env {|
              zip_fd := input; oat_fd := value_ out_oat; input_vdex_fd := value_ in_vdex;
              output_vdex_fd := value_ out_vdex; image_fd := value_ image;
              input_file_name := a_dex_path a; output_file_name := out_oat_path; swap_fd := swap;
              instruction_set := a_instruction_set a; compiler_filter := Some (a_compiler_filter a);
              Dex2oat.debuggable := flag DEXOPT_DEBUGGABLE; post_bootcomplete := flag DEXOPT_BOOTCOMPLETE;
              background_job_compile := flag DEXOPT_IDLE_BACKGROUND_JOB; profile_fd := value_ reference;
              class_loader_context := a_class_loader_context a; class_loader_context_fds := join_fds context_fds;
              target_sdk_version := a_target_sdk_version a;
              enable_hidden_api_checks := flag DEXOPT_ENABLE_HIDDEN_API_CHECKS;
              generate_compact_dex := flag DEXOPT_GENERATE_COMPACT_DEX; dex_metadata_fd := metadata;
              compilation_reason := a_compilation_reason a |});
            status ← run_compiler argv (a_uid a) (flag DEXOPT_BOOTCOMPLETE) (value_ out_oat) out_oat_path
                       (output_file out_oat ++ output_file out_vdex ++ output_file image);
            let alive keep :=
              [Fd input; Fds context_fds; Wrapped (keep out_oat); Wrapped in_vdex; Wrapped (keep out_vdex); Fd swap;
               Wrapped (keep image); Wrapped (keep reference); Fd metadata] in
            if nz status then mret (status, alive id)
            else
              _ ← update_out_oat_access_times (a_dex_path a) out_oat_path;
              mret (0, alive (SetCleanup false)).

Definition run_body (a : dexopt_args) (is_public : bool) (dexopt_needed : Z) (oat_dir : option str)
    (context_dex_paths : list str) : io W Z :=
  '(r, locals) ← dexopt_body a is_public dexopt_needed oat_dir context_dex_paths;
  leave r locals.

Definition dexopt (a : dexopt_args) : io W Z :=
  let flags := a_dexopt_flags a in
  _ ← abort_if_none (check (negb (bool_decide (a_pkgname a = []))));
  _ ← abort_if_none (check (Z.land flags (Z.lnot DEXOPT_MASK) =? 0));
  if negb (validate_dex_path_size (a_dex_path a)) then mret (-1)
  else if match a_class_loader_context a with Some c => (PKG_PATH_MAX <? length c)%nat | None => false end then mret (-1)
  else if has_bit flags DEXOPT_SECONDARY_DEX then
    context_dex_paths ← get_class_loader_context_dex_paths env (a_class_loader_context a) (a_uid a);
    match context_dex_paths with
    | None => mret (-1)
    | Some context_dex_paths =>
        processed ← process_secondary_dex_dexopt debuggable G env (a_dex_path a) (a_pkgname a) flags (a_volume_uuid a)
                      (a_uid a) (a_instruction_set a) (a_compiler_filter a) (a_downgrade a) (a_class_loader_context a)
                      context_dex_paths;
        match processed with
        | None => mret (-1)
        | Some (is_public, dexopt_needed, oat_dir) =>
            if dexopt_needed =? NO_DEXOPT_NEEDED then mret 0
            else run_body a is_public dexopt_needed (Some oat_dir) context_dex_paths
        end
    end
  else
    _ ← abort_if_none (check (negb (has_bit flags DEXOPT_STORAGE_CE)));
    _ ← abort_if_none (check (negb (has_bit flags DEXOPT_STORAGE_DE)));
    run_body a (has_bit flags DEXOPT_PUBLIC) (a_dexopt_needed a) (a_oat_dir a) [].

(** [InstalldNativeService::dexopt]; the name of the package may be missing. *)
Definition dexopt_handler (calling_uid : Z) (packageName : option str) (a : dexopt_args) : io W reply :=
  enforce ([checkUid calling_uid AID_SYSTEM; checkArgumentUuid (a_volume_uuid a); checkArgumentPath (a_dex_path a)] ++
           match packageName with
           | Some p => if p =s? lit "*" then [] else [checkArgumentPackageName p]
           | None => []
           end ++
           [checkArgumentPathOpt (a_oat_dir a); checkArgumentPathOpt (a_dex_metadata_path a)]) (
    res ← dexopt {|
      a_dex_path := a_dex_path a; a_uid := a_uid a; a_pkgname := default (lit "*") packageName;
      a_instruction_set := a_instruction_set a; a_dexopt_needed := a_dexopt_needed a; a_oat_dir := a_oat_dir a;
      a_dexopt_flags := a_dexopt_flags a; a_compiler_filter := a_compiler_filter a; a_volume_uuid := a_volume_uuid a;
      a_class_loader_context := a_class_loader_context a; a_se_info := a_se_info a; a_downgrade := a_downgrade a;
      a_target_sdk_version := a_target_sdk_version a; a_profile_name := a_profile_name a;
      a_dex_metadata_path := a_dex_metadata_path a; a_compilation_reason := a_compilation_reason a |};
    mret (if nz res then Error else Ok)).

End Dexopt.

(** * Descriptors *)

Section Accounting.
Context {W : Type} {world : World W} {proc : Process W} {reads : DexReads W} {Node : Type} {view : W -> str -> option Node}.
Context {is_dir : Node -> bool} {ok : WorldOk world view is_dir} {pok : ProcessOk world proc view}.
Context {aid : AidRanges} {mu : Multiuser}.
Context (debuggable : bool) (G : globals) (env : DexEnv).

(** Any path may change here. *)
Definition anywhere : str -> Prop := fun _ => False.

Abbreviation moves := (moves (view := view) anywhere).
Abbreviation moves_to := (moves_to (view := view) anywhere).

Lemma spares_anywhere c : spares anywhere c.
Proof. by intros q. Qed.

Lemma spared_anywhere p : spared anywhere p.
Proof. by intros q. Qed.

Hint Resolve spares_anywhere spared_anywhere : core.

Lemma moves_do c l : is_fd_call c = false -> moves l (do_call c) (fun _ => l).
Proof. intros Hc. by apply moves_call. Qed.

Lemma moves_opens p flags l : moves l (open_existing p flags) (fun r => held r ++ l).
Proof.
  unfold open_existing. eapply moves_bind; [by apply moves_open|]. intros r. apply moves_ret. by rewrite held_fd_of.
Qed.

(** ** Wrappers *)

Definition held_wrapper (f : wrapper) : list Z := if auto_close_ f && (0 <=? value_ f) then [value_ f] else [].

Definition cleanup_ok (c : option cleanup) : Prop :=
  match c with
  | Some (ClearReference pkg loc sec) => is_Some (create_reference_profile_path G pkg loc sec)
  | _ => True
  end.

Definition held_local (l : local) : list Z :=
  match l with Fd fd => held fd | Fds fds => held_all fds | Wrapped f => held_wrapper f end.
Definition held_locals (ls : list local) : list Z := concat (map held_local ls).
Definition local_ok (l : local) : Prop := match l with Wrapped f => cleanup_ok (cleanup_ f) | _ => True end.

Lemma moves_release f l : cleanup_ok (cleanup_ f) -> moves (held_wrapper f ++ l) (release G f) (fun _ => l).
Proof.
  intros Hok. unfold release. eapply (moves_bind _ _ _ _ (fun _ => l)).
  { unfold held_wrapper. destruct (auto_close_ f); cbn [andb]; [|by apply moves_ret].
    destruct (Z.leb_spec 0 (value_ f)) as [Hv|Hv]; [|by apply moves_ret].
    pose proof (moves_drop (view := view) anywhere (value_ f) l) as H. unfold drop_fd, held in H.
    by rewrite (proj2 (Z.ltb_ge _ _) Hv) in H. }
  intros u. destruct (do_cleanup_ f); [|by apply moves_ret].
  destruct (cleanup_ f) as [[p|pkg loc sec]|]; [..|by apply moves_ret]; cbn [run_cleanup cleanup_ok] in *.
  - eapply moves_bind; [by apply moves_do|]. intros r. by apply moves_ret.
  - destruct Hok as [p Hp]. unfold clear_reference_profile, reference_path. rewrite Hp.
    eapply moves_bind; [by apply moves_clear_profile|]. intros b. by apply moves_ret.
Qed.

Lemma moves_destroy x l : local_ok x -> moves (held_local x ++ l) (destroy G x) (fun _ => l).
Proof. destruct x; intros H; [apply moves_drop|apply moves_drop_all|by apply moves_release]. Qed.

Lemma moves_destroy_all ls l : Forall local_ok ls -> moves (held_locals ls ++ l) (for_all ls (destroy G)) (fun _ => l).
Proof.
  induction 1 as [|x ls Hx _ IH]; [by apply moves_ret|]. cbn [for_all held_locals map concat]. rewrite <- app_assoc.
  eapply moves_bind; [by apply moves_destroy|]. intros u. exact IH.
Qed.

Lemma held_locals_rev ls : held_locals (rev ls) ≡ₚ held_locals ls.
Proof. unfold held_locals. rewrite <- (Permutation_rev ls). done. Qed.

Lemma held_rev_cons x ls : held_locals (rev (x :: ls)) = held_locals (rev ls) ++ held_local x.
Proof. cbn [rev]. unfold held_locals. rewrite map_app, concat_app. cbn [map concat]. by rewrite app_nil_r. Qed.

Lemma held_rev_app a b : held_locals (rev (a ++ b)) = held_locals (rev b) ++ held_locals (rev a).
Proof. rewrite rev_app_distr. unfold held_locals. by rewrite map_app, concat_app. Qed.

Lemma held_locals_app a b : held_locals (a ++ b) = held_locals a ++ held_locals b.
Proof. unfold held_locals. by rewrite map_app, concat_app. Qed.

Lemma moves_leave r ls l : Forall local_ok ls -> moves (held_locals ls ++ l) (leave G r ls) (fun _ => l).
Proof.
  intros H. unfold leave. eapply moves_perm; [by rewrite <- held_locals_rev|].
  eapply moves_bind; [apply moves_destroy_all|intros u; by apply moves_ret].
  by rewrite <- (Permutation_rev ls).
Qed.

(** ** Opening *)

Definition file_ok (f : wrapper) : Prop := cleanup_ok (cleanup_ f).

Lemma held_wrapper_new fd c : held_wrapper (new_file fd c) = held fd.
Proof. unfold held_wrapper, held. cbn. destruct (Z.ltb_spec fd 0), (Z.leb_spec 0 fd); done || lia. Qed.

Lemma moves_open_output p recreate perms l : moves l (open_output_file p recreate perms) (fun fd => held fd ++ l).
Proof.
  unfold open_output_file. eapply (moves_bind _ _ _ _ (fun _ => l)).
  { destruct recreate; [|by apply moves_ret]. eapply moves_bind; [by apply moves_do|]. intros r. by apply moves_ret. }
  intros u. eapply moves_bind; [by apply moves_open|]. intros r. apply moves_ret. by rewrite held_fd_of.
Qed.

Lemma moves_set_permissions fd public uid p sec l :
  moves l (set_permissions_and_ownership fd public uid p sec) (fun _ => l).
Proof.
  unfold set_permissions_and_ownership. eapply moves_bind; [by apply moves_do|]. intros m.
  destruct (m <? 0); [by apply moves_ret|]. eapply moves_bind; [by apply moves_do|]. intros o. by apply moves_ret.
Qed.

(** [reset] of a file that is held: only the new value is held after it. *)
Lemma moves_reset f v l : file_ok f -> v = -1 ->
  moves_to (held_wrapper f ++ l) (reset G f v) (fun f' => held_wrapper f' ++ l) file_ok.
Proof.
  intros Hf ->. unfold reset. eapply moves_to_bind; [by apply moves_release|]. intros u. apply moves_to_ret; [|done].
  unfold held_wrapper. cbn. by rewrite andb_false_r.
Qed.

Lemma moves_app_image p gen public uid sec l :
  moves_to l (maybe_open_app_image G env p gen public uid sec) (fun f => held_wrapper f ++ l) file_ok.
Proof.
  unfold maybe_open_app_image. destruct sec; [by apply moves_to_ret|].
  destruct (replace_total p (lit ".art")) as [image Hi]. eapply moves_to_at_some; [exact Hi|].
  destruct (bool_decide _); [by apply moves_to_ret|]. eapply moves_to_bind; [by apply moves_do|]. intros r.
  destruct gen; cbn [negb]; [|by apply moves_to_ret]. destruct (bool_decide _); [by apply moves_to_ret|].
  eapply moves_to_bind; [apply moves_open_output|]. intros fd. cbv zeta. destruct (fd <? 0) eqn:Ef.
  - eapply moves_to_bind; [by apply moves_do|]. intros r2. apply moves_to_ret; [by rewrite held_wrapper_new|done].
  - eapply moves_to_bind; [apply moves_set_permissions|]. intros [].
    + apply moves_to_ret; [by rewrite held_wrapper_new|done].
    + rewrite <- (held_wrapper_new fd (UnlinkFile image)). by apply moves_reset.
Qed.

Lemma moves_swap p l : moves l (maybe_open_dexopt_swap_file env p) (fun fd => held fd ++ l).
Proof.
  unfold maybe_open_dexopt_swap_file. destruct (ShouldUseSwapFileForDexopt env); cbn [negb]; [|by apply moves_ret].
  eapply moves_bind; [apply moves_open_output|]. intros fd. destruct (fd <? 0); [by apply moves_ret|].
  eapply moves_bind; [by apply moves_do|]. intros r. by apply moves_ret.
Qed.

Lemma moves_oat_out {paths : OatPaths} apk dir public uid isa sec out l :
  create_oat_out_path G apk isa dir sec = Some out ->
  moves_to l (open_oat_out_file G apk dir public uid isa sec) (fun r => held_wrapper (fst r) ++ l) (fun r => file_ok (fst r)).
Proof.
  intros Hout. unfold open_oat_out_file. eapply moves_to_at_some; [exact Hout|].
  destruct out as [p|]; [|by apply moves_to_ret]. eapply moves_to_bind; [apply moves_open_output|]. intros fd. cbv zeta.
  destruct (fd <? 0); [apply moves_to_ret; [cbn [fst]; by rewrite held_wrapper_new|done]|].
  eapply moves_to_bind; [apply moves_set_permissions|]. intros [].
  - apply moves_to_ret; [cbn [fst]; by rewrite held_wrapper_new|done].
  - rewrite <- (held_wrapper_new fd (UnlinkFile p)). eapply moves_to_bind_to; [by apply moves_reset|]. intros f Hf.
    by apply moves_to_ret.
Qed.

Lemma moves_reference (pkg dex : str) (loc : option str) guided public uid (sec : bool) l :
  (forall location, (if sec then Some dex else loc) = Some location -> prefixb (lit "*") pkg = false ->
     is_Some (create_reference_profile_path G pkg location sec)) ->
  moves_to l (maybe_open_reference_profile G pkg dex loc guided public uid sec) (fun f => held_wrapper f ++ l) file_ok.
Proof.
  intros Href. unfold maybe_open_reference_profile. destruct (negb guided || _) eqn:E; [by apply moves_to_ret|].
  apply orb_false_iff in E as [_ Hs]. destruct (sec && public); [by apply moves_to_ret|].
  destruct (if sec then Some dex else loc) as [location|]; [|by apply moves_to_ret].
  destruct (Href location eq_refl Hs) as [p Hp]. unfold open_reference_profile, reference_path. rewrite Hp.
  eapply moves_to_bind; [apply moves_open_profile; by left|]. intros fd. apply moves_to_ret; [by rewrite held_wrapper_new|].
  red. cbn. rewrite Hp. by exists p.
Qed.

(** ** The vdex files *)

Lemma moves_assign v l : moves_to l (reset G no_file v) (fun _ => l) (fun f => f = Dex2oatFileWrapper v None true true).
Proof.
  unfold reset. eapply moves_to_bind; [by apply (moves_release no_file l)|]. intros u. by apply moves_to_ret.
Qed.

Lemma moves_assign_with v c l : moves_to l (reset_with G no_file v c) (fun _ => l) (fun f => f = new_file v c).
Proof.
  unfold reset_with. eapply moves_to_bind; [by apply (moves_release no_file l)|]. intros u. by apply moves_to_ret.
Qed.

Lemma held_wrapper_plain v : held_wrapper (Dex2oatFileWrapper v None true true) = held v.
Proof. unfold held_wrapper, held. cbn. destruct (Z.ltb_spec v 0), (Z.leb_spec 0 v); done || lia. Qed.

(** An input that was assigned: its descriptor is in the wrapper. *)
Definition assigned (f : wrapper) : Prop := f = Dex2oatFileWrapper (value_ f) None true true.

Lemma moves_in_vdex a b action guided l :
  moves_to l (open_in_vdex G a b action guided no_file) (fun r => held_wrapper (snd r) ++ l) (fun r => assigned (snd r)).
Proof.
  unfold open_in_vdex. cbv zeta. destruct (_ && negb guided); eapply moves_to_bind; try apply moves_opens; intros fd;
    (eapply moves_to_bind_to; [apply moves_assign|]); intros f ->; apply moves_to_ret; cbn [snd];
    by rewrite ?held_wrapper_plain.
Qed.

Definition vdex_found (r : bool * bool * wrapper) : Prop := assigned (snd r).

Lemma moves_find_vdex {paths : OatPaths} apk out needed isa action guided out_vdex l :
  moves_to l (
    if action =? DEX2OAT_FROM_SCRATCH then mret (true, false, no_file)
    else
      path ← in_vdex_path apk out (needed <? 0) isa;
      match path with
      | None => mret (false, false, no_file)
      | Some p => '(in_place, f) ← open_in_vdex G p out_vdex action guided no_file; mret (true, in_place, f)
      end) (fun r => held_wrapper (snd r) ++ l) vdex_found.
Proof.
  destruct (_ =? _); [by apply moves_to_ret|]. unfold in_vdex_path. destruct (if needed <? 0 then _ else _) as [p|].
  2: { eapply (moves_to_bind _ _ _ _ (fun _ => l)); [by apply moves_ret|]. intros [q|]; [|by apply moves_to_ret].
       eapply moves_to_bind_to; [apply moves_in_vdex|]. intros [b f] Hf. by apply moves_to_ret. }
  destruct (replace_total p (lit ".vdex")) as [v Hv].
  eapply (moves_to_bind _ _ _ _ (fun _ => l)).
  { eapply moves_at_some; [exact Hv|]. by apply moves_ret. }
  intros [q|]; [|by apply moves_to_ret].
  eapply moves_to_bind_to; [apply moves_in_vdex|]. intros [b f] Hf. by apply moves_to_ret.
Qed.

(** Updating in place hands the descriptor from the input to the output. *)
Lemma moves_output_vdex (in_place : bool) f path l : assigned f ->
  moves_to (held_wrapper f ++ l) (
    if in_place then
      g ← reset_with G no_file (value_ f) (UnlinkFile path); mret (true, DisableAutoClose f, g)
    else
      fd ← open_output_file path true 420;
      g ← reset_with G no_file fd (UnlinkFile path); mret (negb (value_ g <? 0), f, g))
    (fun r => held_wrapper (snd (fst r)) ++ held_wrapper (snd r) ++ l)
    (fun r => file_ok (snd (fst r)) /\ file_ok (snd r)).
Proof.
  intros Hf. rewrite Hf. destruct in_place.
  - eapply moves_to_bind_to; [apply moves_assign_with|]. intros g ->. apply moves_to_ret; [|done]. cbn [fst snd].
    rewrite held_wrapper_new, held_wrapper_plain. done.
  - eapply moves_to_bind; [apply moves_open_output|]. intros fd.
    eapply moves_to_bind_to; [apply moves_assign_with|]. intros g ->. apply moves_to_ret; [|done]. cbn [fst snd].
    rewrite held_wrapper_new. by rewrite Permutation_app_swap_app.
Qed.

(** What the wrappers hold, the last first. *)
Definition vdex_wrappers (r : bool * wrapper * wrapper) : list Z := held_wrapper (snd r) ++ held_wrapper (snd (fst r)).

Lemma moves_vdex_files {paths : OatPaths} apk out needed isa public uid sec guided l :
  moves_to l (open_vdex_files_for_dex2oat G apk out needed isa public uid sec guided no_file no_file)
    (fun r => vdex_wrappers r ++ l) (fun r => file_ok (snd (fst r)) /\ file_ok (snd r)).
Proof.
  unfold open_vdex_files_for_dex2oat. cbv zeta.
  destruct (replace_total out (lit ".vdex")) as [v Hv]. eapply moves_to_at_some; [exact Hv|].
  destruct (bool_decide _); [by apply moves_to_ret|]. eapply moves_to_bind_to; [apply moves_find_vdex|].
  intros [[found in_place] f] Hf. cbn [snd] in Hf |- *. unfold vdex_found in Hf. cbn [snd] in Hf.
  assert (Hok : file_ok f) by (rewrite Hf; done).
  destruct found; cbn [negb].
  2: { apply moves_to_ret; [|done]. unfold vdex_wrappers. cbn [fst snd]. done. }
  eapply moves_to_bind_to; [by apply moves_output_vdex|]. intros [[opened g] h] [Hg Hh]. cbn [fst snd] in *.
  assert (Hswap : held_wrapper g ++ held_wrapper h ++ l ≡ₚ vdex_wrappers (opened, g, h) ++ l).
  { unfold vdex_wrappers. cbn [fst snd]. rewrite <- app_assoc. by rewrite Permutation_app_swap_app. }
  destruct opened; cbn [negb]; [|by apply moves_to_ret].
  eapply moves_to_bind; [apply moves_set_permissions|]. intros owned. by apply moves_to_ret.
Qed.

(** ** The function *)

Lemma moves_dex_paths ps fds l :
  moves (held_all fds ++ l) (open_dex_paths ps fds) (fun r => held_all (snd r) ++ l).
Proof.
  revert fds. induction ps as [|p ps IH]; intros fds; cbn [open_dex_paths]; [by apply moves_ret|].
  eapply moves_bind; [by apply moves_open|]. intros r. destruct (r <? 0) eqn:Er.
  - apply moves_ret. cbn [snd]. unfold held. by rewrite Er.
  - eapply moves_perm; [|apply IH]. rewrite held_all_app, <- app_assoc, Permutation_app_swap_app.
    unfold held_all at 3. cbn. by rewrite app_nil_r.
Qed.

Lemma keeps_dropped uid (body : io W Z) : keeps (view := view) anywhere body -> keeps (view := view) anywhere (dropped uid body).
Proof. intros H. apply keeps_bind; [apply keeps_ask|]. intros [c|]; [apply keeps_ask|done]. Qed.

Lemma moves_compiler argv uid boot fd p writes l : moves l (run_compiler argv uid boot fd p writes) (fun _ => l).
Proof.
  unfold run_compiler. apply moves_child, holding_any, keeps_dropped.
  apply keeps_bind; [apply keeps_ask|]. intros [c|]; [apply keeps_ask|].
  apply keeps_bind; [by apply keeps_call|]. intros locked. destruct (nz locked); [apply keeps_ask|].
  intros w. apply wp_call. by intros q.
Qed.

Lemma moves_times apk out l : moves l (update_out_oat_access_times apk out) (fun _ => l).
Proof.
  unfold update_out_oat_access_times. eapply moves_bind; [apply moves_ask|]. intros [st|e]; [|by apply moves_ret].
  eapply moves_bind; [apply moves_ask|]. intros t. eapply moves_bind; [by apply moves_do|]. intros r. by apply moves_ret.
Qed.

Lemma RunDex2Oat_some i : is_Some (RunDex2Oat env i).
Proof. destruct (reads_dex2oat env i) as (rest & Hr & _). unfold RunDex2Oat. rewrite Hr. by eexists. Qed.

Lemma moves_metadata path l :
  moves l (match path with Some p => open_existing p (Z.lor O_RDONLY O_NOFOLLOW) | None => mret (-1) end)
    (fun fd => held fd ++ l).
Proof. destruct path; [apply moves_opens|by apply moves_ret]. Qed.

Context {paths : OatPaths} (a : dexopt_args).

(** Nothing that the function names is refused by a [CHECK]. *)
Record args_ok (oat_dir : option str) : Prop := {
  out_some : is_Some (create_oat_out_path G (a_dex_path a) (a_instruction_set a) oat_dir
                        (has_bit (a_dexopt_flags a) DEXOPT_SECONDARY_DEX));
  profile_some : forall location,
    (if has_bit (a_dexopt_flags a) DEXOPT_SECONDARY_DEX then Some (a_dex_path a) else a_profile_name a) = Some location ->
    prefixb (lit "*") (a_pkgname a) = false ->
    is_Some (create_reference_profile_path G (a_pkgname a) location (has_bit (a_dexopt_flags a) DEXOPT_SECONDARY_DEX));
}.

Definition body_post (r : Z * list local) : list Z := held_locals (rev (snd r)).
Definition body_ok (r : Z * list local) : Prop := Forall local_ok (snd r).

Ltac leaving :=
  apply moves_to_ret;
    [unfold body_post; cbn [snd]; rewrite ?held_rev_app, ?held_rev_cons; cbn [held_local];
     change (held_locals (rev [])) with (@nil Z); by rewrite ?app_nil_l, ?app_nil_r, <- ?app_assoc
    |unfold body_ok; cbn [snd]; rewrite ?Forall_app, ?Forall_cons; split_and?; first [done|by apply Forall_nil_2]].

Lemma moves_body public needed oat_dir context : args_ok oat_dir ->
  moves_to [] (dexopt_body G env a public needed oat_dir context) body_post body_ok.
Proof.
  intros [[out Hout] Href]. unfold dexopt_body. cbv zeta.
  eapply moves_to_bind; [apply moves_opens|]. intros input. destruct (input <? 0) eqn:Ei.
  { unfold held. rewrite Ei. leaving. }
  eapply moves_to_bind; [apply (moves_dex_paths context [] (held input ++ []))|]. intros [rc ctx]. destruct (nz rc); [leaving|].
  eapply moves_to_bind_to; [by apply (moves_oat_out _ _ _ _ _ _ out)|]. intros [oat p] Hoat. cbn [fst snd app] in *.
  destruct (value_ oat <? 0); [leaving|].
  eapply moves_to_bind_to; [apply moves_vdex_files|]. intros [[opened f] g] [Hf Hg]. unfold vdex_wrappers. cbn [fst snd] in *.
  destruct opened; cbn [negb]; [|leaving].
  eapply moves_to_bind; [destruct (has_bit _ DEXOPT_SECONDARY_DEX); [by apply moves_do|by apply moves_ret]|]. intros restored.
  destruct (nz restored); [leaving|].
  eapply moves_to_bind; [apply moves_swap|]. intros swap.
  eapply moves_to_bind_to; [apply moves_app_image|]. intros image Himg.
  eapply moves_to_bind_to; [by apply moves_reference|]. intros reference Hrf.
  eapply moves_to_bind; [apply moves_metadata|]. intros metadata. match goal with |- context [RunDex2Oat env ?i] => destruct (RunDex2Oat_some i) as [argv Hargv] end.
  eapply moves_to_at_some; [exact Hargv|]. eapply moves_to_bind; [apply moves_compiler|]. intros status.
  destruct (nz status); [leaving|]. eapply moves_to_bind; [apply moves_times|]. intros u. leaving.
Qed.

Lemma moves_run public needed oat_dir context l : args_ok oat_dir ->
  moves l (run_body G env a public needed oat_dir context) (fun _ => l).
Proof.
  intros H. apply moves_any. unfold run_body. eapply moves_bind_to; [by apply moves_body|]. intros [r ls] Hok.
  unfold body_post. eapply moves_perm; [by rewrite held_locals_rev|]. cbn [snd].
  rewrite <- (app_nil_r (held_locals ls)). by apply moves_leave.
Qed.

(** ** Secondary dex files *)

Lemma keeps_do c : keeps (view := view) anywhere (do_call c).
Proof. intros w. apply wp_call. by intros q. Qed.

Lemma keeps_open p flags mode : keeps (view := view) anywhere (open_file p flags mode).
Proof. apply keeps_do. Qed.

Lemma keeps_exit code : keeps (view := view) anywhere (do_exit code).
Proof. apply keeps_ask. Qed.

Lemma keeps_dex_paths ps fds : keeps (view := view) anywhere (open_dex_paths ps fds).
Proof.
  revert fds. induction ps as [|p ps IH]; intros fds; cbn [open_dex_paths]; [apply keeps_ret|].
  apply keeps_bind; [apply keeps_open|]. intros r. apply keeps_if; [apply keeps_ret|apply IH].
Qed.

Lemma keeps_oat_and_vdex dex dir isa : keeps (view := view) anywhere (maybe_open_oat_and_vdex_file G dex dir isa true).
Proof.
  unfold maybe_open_oat_and_vdex_file.
  assert (Hout : is_Some (create_oat_out_path G dex isa (Some dir) true)).
  { unfold create_oat_out_path. destruct (negb _); [by eexists|]. destruct (IsOutputDalvikCache _); by eexists. }
  destruct Hout as [out Hout]. eapply keeps_at_some; [exact Hout|]. destruct out as [p|]; [|apply keeps_ret].
  apply keeps_bind; [apply keeps_open|]. intros r. destruct (replace_total p (lit ".vdex")) as [v Hv].
  eapply keeps_at_some; [exact Hv|]. apply keeps_bind; [apply keeps_open|]. intros r2. apply keeps_ret.
Qed.

Lemma keeps_prepare_oat_dir dex dir name uid isa : located dex dir name -> name_ok isa ->
  (length dir + 4 < PKG_PATH_MAX)%nat ->
  keeps (view := view) anywhere (prepare_secondary_dex_oat_dir dex uid isa).
Proof.
  intros Hdex (Hi & Hne & Hdot) Hl. unfold prepare_secondary_dex_oat_dir.
  rewrite (located_rfind dex dir name Hdex), (located_take dex dir name Hdex). cbv zeta.
  pose proof (oat_plain dex dir name Hdex) as Hoat.
  rewrite path_buffer_short by (rewrite length_app; cbn; lia).
  apply keeps_bind.
  { apply keeps_prepare_app_cache_dir; [exact Hoat| |done].
    apply ends_slash_child; [by apply find_char_None|done]. }
  intros r. destruct (nz r); [apply keeps_ret|]. apply keeps_bind; [|intros r2; apply keeps_ret].
  apply keeps_prepare_app_cache_dir; [|by apply ends_slash_child|done].
  change (lit "/oat") with (slash :: lit "oat"). rewrite plain_app, Hoat, plain_single by done. by rewrite Hdot.
Qed.

Lemma secondary_profiles_ok dex dir name pkg : located dex dir name -> profiles_ok G anywhere pkg dex true.
Proof.
  intros Hdex. split; [intros u; by rewrite (secondary_current G dex dir name Hdex)
                      |by rewrite (secondary_reference G dex dir name Hdex)|intros; apply spared_anywhere..].
Qed.

Lemma keeps_run_tool bin its argv uid : started bin its argv -> keeps (view := view) anywhere (run_tool argv uid []).
Proof. intros Ha. intros w. eapply moves_start. by apply (moves_run_tool anywhere bin its). Qed.

Context (Hisa : name_ok (a_instruction_set a)).
Context (d : str) (Hpkg : check_package_name (a_pkgname a) = Some ()).
Context (Hd : create_data_path debuggable (a_volume_uuid a) = Some d).

Lemma keeps_analyze flag oat_dir context : flag = FLAG_STORAGE_CE \/ flag = FLAG_STORAGE_DE ->
  validate_dex_path_size (a_dex_path a) = true ->
  keeps (view := view) anywhere
    (analyze_secondary_child debuggable G env (a_dex_path a) (a_pkgname a) flag (a_volume_uuid a) (a_uid a)
       (a_instruction_set a) (a_compiler_filter a) oat_dir (a_downgrade a) (a_class_loader_context a) context).
Proof.
  intros Hflag Hsz. apply keeps_dropped. intros w. apply wp_bind. unfold validate_secondary. apply wp_bind, wp_ask.
  destruct (validate_located debuggable (w_isdir w) (a_pkgname a) (a_dex_path a) (a_volume_uuid a) (a_uid a) flag d
              Hpkg Hd Hflag) as (b & Hv & Hloc).
  eapply wp_some; [exact Hv|]. destruct b; cbn [negb]; [|apply keeps_exit].
  destruct (Hloc eq_refl) as (dir & name & Hdex). clear Hloc Hv.
  assert (Hl : (length dir + 4 < PKG_PATH_MAX)%nat).
  { unfold validate_dex_path_size in Hsz. apply negb_true_iff, Nat.leb_gt in Hsz. pose proof Hdex as (E & _).
    rewrite E, length_app in Hsz. cbn [length] in Hsz. unfold PKG_PATH_MAX in *. lia. }
  revert w. apply keeps_bind; [apply keeps_open|]. intros zip.
  destruct (zip <? 0) eqn:Ez; [apply keeps_exit|]. apply keeps_bind; [apply keeps_dex_paths|]. intros [rc ctx].
  destruct (nz rc); [apply keeps_exit|]. apply keeps_bind; [by apply (keeps_prepare_oat_dir _ dir name)|]. intros prepared.
  destruct prepared; cbn [negb]; [|apply keeps_exit]. apply keeps_bind; [apply keeps_oat_and_vdex|].
  intros [[oat vdex]|]; [|apply keeps_exit]. apply keeps_bind.
  { intros w. eapply moves_start. by apply (moves_analyze_profiles debuggable G env), (secondary_profiles_ok _ dir name). }
  intros updated. eapply keeps_run_tool, reads_analyzer. by apply Z.ltb_ge.
Qed.

Lemma flatten_started context : exists bin its, started bin its (RunDexoptAnalyzer_flatten env context).
Proof. eexists _, _. eexists. split; reflexivity. Qed.

Lemma holding_dropped uid (body : io W Z) l : holding (view := view) anywhere l body -> holding (view := view) anywhere l (dropped uid body).
Proof.
  intros H. eapply holding_bind; [apply moves_ask|]. intros [c|]; [|exact H]. apply holding_any. apply keeps_exit.
Qed.

Lemma moves_context context uid l : moves l (get_class_loader_context_dex_paths env context uid) (fun _ => l).
Proof.
  unfold get_class_loader_context_dex_paths. destruct context as [c|]; [|by apply moves_ret].
  eapply moves_bind; [apply moves_pipe|]. intros [[r wr]|]; [|by apply moves_ret]. cbn [held_ends]. rewrite <- app_assoc.
  eapply moves_bind; [apply moves_child, holding_dropped|].
  { eapply holding_bind; [apply moves_drop_second|]. intros u. eapply holding_bind; [apply moves_drop|]. intros u2.
    destruct (flatten_started c) as (bin & its & H). apply holding_any. by eapply keeps_run_tool. }
  intros status. eapply moves_bind; [apply moves_drop_second|]. intros u.
  eapply moves_bind; [apply moves_ask|]. intros text. eapply moves_bind; [apply moves_drop|]. intros u2.
  destruct text; [|by apply moves_ret]. repeat (destruct (negb _); [by apply moves_ret|]). by apply moves_ret.
Qed.

Lemma storage_flags_ok flags flag : validate_dexopt_storage_flags flags = Some flag -> flag = FLAG_STORAGE_CE \/ flag = FLAG_STORAGE_DE.
Proof. unfold validate_dexopt_storage_flags. repeat case_match; intros [= <-]; auto. Qed.

Lemma layout_some dex isa : is_Some (create_secondary_dex_oat_layout G dex isa).
Proof.
  unfold create_secondary_dex_oat_layout. destruct (rfind_char slash dex); [|by eexists]. cbv zeta.
  unfold create_oat_out_path. destruct (negb (validate_dex_path_size dex)); [by eexists|].
  destruct (IsOutputDalvikCache _); cbn [mbind option_bind]; change (nz 0) with false; cbv iota;
    repeat case_match; try (by eexists); by simplify_eq.
Qed.

Lemma layout_size dex isa r : create_secondary_dex_oat_layout G dex isa = Some (Some r) -> validate_dex_path_size dex = true.
Proof.
  unfold create_secondary_dex_oat_layout, create_oat_out_path. destruct (rfind_char slash dex); [|done]. cbv zeta.
  by destruct (validate_dex_path_size dex).
Qed.

Lemma moves_process context l :
  moves l (process_secondary_dex_dexopt debuggable G env (a_dex_path a) (a_pkgname a) (a_dexopt_flags a) (a_volume_uuid a)
             (a_uid a) (a_instruction_set a) (a_compiler_filter a) (a_downgrade a) (a_class_loader_context a) context)
    (fun _ => l).
Proof.
  unfold process_secondary_dex_dexopt. destruct (validate_dexopt_storage_flags _) as [flag|] eqn:Hf; [|by apply moves_ret].
  destruct (layout_some (a_dex_path a) (a_instruction_set a)) as [layout Hlay]. eapply moves_at_some; [exact Hlay|].
  destruct layout as [[[oat_dir isa_dir] oat]|]; [|by apply moves_ret].
  eapply moves_bind.
  { apply moves_child, holding_any. apply keeps_analyze; [by eapply storage_flags_ok|by eapply layout_size]. }
  intros status. destruct (negb _); [by apply moves_ret|]. cbv zeta. unfold is_file_public.
  eapply (moves_bind _ _ _ _ (fun _ => l)); [|intros public; by apply moves_ret].
  eapply moves_bind; [apply moves_ask|]. intros s. by apply moves_ret.
Qed.

End Accounting.

(** A request that no [CHECK] refuses: the handler sees to the name of the
    package and of the volume, the flags are those of the package manager. *)
Record request_ok {mu : Multiuser} {paths : OatPaths} (debuggable : bool) (G : globals) (a : dexopt_args) : Prop := {
  rq_named : a_pkgname a <> [];
  rq_flags : Z.land (a_dexopt_flags a) (Z.lnot DEXOPT_MASK) = 0;
  rq_primary : has_bit (a_dexopt_flags a) DEXOPT_SECONDARY_DEX = false ->
    has_bit (a_dexopt_flags a) DEXOPT_STORAGE_CE = false /\ has_bit (a_dexopt_flags a) DEXOPT_STORAGE_DE = false /\
    (check_package_name (a_pkgname a) = Some () \/ a_pkgname a = lit "*") /\
    is_Some (create_oat_out_path G (a_dex_path a) (a_instruction_set a) (a_oat_dir a) false);
  rq_secondary : has_bit (a_dexopt_flags a) DEXOPT_SECONDARY_DEX = true ->
    check_package_name (a_pkgname a) = Some () /\ is_Some (create_data_path debuggable (a_volume_uuid a)) /\
    name_ok (a_instruction_set a) /\ exists dir name, located (a_dex_path a) dir name;
}.

(** ** Every request *)

Lemma moves_dexopt {W : Type} {world : World W} {proc : Process W} {reads : DexReads W} {Node : Type}
    (view : W -> str -> option Node) (is_dir : Node -> bool) {ok : WorldOk world view is_dir}
    {pok : ProcessOk world proc view} {aid : AidRanges} {mu : Multiuser} {paths : OatPaths}
    (debuggable : bool) (G : globals) (env : DexEnv) (a : dexopt_args) :
  request_ok debuggable G a -> moves (view := view) anywhere [] (dexopt debuggable G env a) (fun _ => []).
Proof.
  intros [Hname Hflags Hprim Hsec].
  unfold dexopt. cbv zeta. eapply moves_at_some; [by rewrite bool_decide_false by done|].
  eapply moves_at_some; [by rewrite Hflags|]. destruct (negb (validate_dex_path_size _)); [by apply moves_ret|].
  destruct (match a_class_loader_context a with Some _ => _ | None => _ end); [by apply moves_ret|].
  destruct (has_bit (a_dexopt_flags a) DEXOPT_SECONDARY_DEX) eqn:Es.
  - destruct (Hsec eq_refl) as (Hpkg & [d Hd] & Hisa & dir & name & Hdex).
    eapply moves_bind; [apply moves_context|]. intros [context|]; [|by apply moves_ret].
    eapply moves_bind; [by eapply moves_process|]. intros [[[public needed] oat_dir]|]; [|by apply moves_ret].
    destruct (needed =? NO_DEXOPT_NEEDED); [by apply moves_ret|]. apply moves_run. split; rewrite Es.
    + unfold create_oat_out_path. destruct (negb _); [by eexists|]. destruct (IsOutputDalvikCache _); by eexists.
    + intros loc [= <-] _. by rewrite (secondary_reference G _ dir name Hdex).
  - destruct (Hprim eq_refl) as (Hce & Hde & Hpkg & Hout). rewrite Hce, Hde.
    do 2 (eapply moves_at_some; [done|]). apply moves_run. split; rewrite Es; [done|].
    intros loc _ Hstar. destruct Hpkg as [Hpkg|Hpkg]; [|by rewrite Hpkg in Hstar].
    unfold create_reference_profile_path, create_primary_reference_profile_package_dir_path. rewrite Hpkg. by eexists.
Qed.

(** * Artifacts *)

Section Outputs.
Context {W : Type} {world : World W} {proc : Process W} {reads : DexReads W} {Node : Type} {view : W -> str -> option Node}.
Context {is_dir : Node -> bool} {ok : WorldOk world view is_dir} {pok : ProcessOk world proc view}.
Context {fok : FileOps world view is_dir} {aid : AidRanges} {mu : Multiuser} {paths : OatPaths}.
Context (debuggable : bool) (G : globals) (env : DexEnv).

Abbreviation gone := (gone (view := view) (is_dir := is_dir)).

Context (path : artifact -> str).

(** The artifacts of the request are three files of their own, the swap file
    and the reference profiles are elsewhere. *)
Record outputs_ok (pkg : str) (profile : option str) : Prop := {
  path_plain : forall x, plain (path x) = true;
  path_some : forall x, path x <> [];
  path_apart : forall x y, x <> y -> ~ below (path x) (path y);
  path_vdex : create_vdex_filename (path Oat) = Some (path Vdex);
  path_image : create_image_filename (path Oat) = Some (path Image);
  swap_apart : forall x, plain (path Oat ++ lit ".swap") = true /\ ~ below (path Oat ++ lit ".swap") (path x);
  profile_apart : forall loc p x, profile = Some loc -> create_reference_profile_path G pkg loc false = Some p ->
    plain p = true /\ ~ below p (path x);
}.

Context (pkg : str) (profile : option str) (Hok : outputs_ok pkg profile).

(** The artifacts outside [l] are as they were. *)
Definition same_but (l : list artifact) (w w' : W) : Prop := forall x, x ∉ l -> view w' (path x) = view w (path x).

Lemma same_but_refl l w : same_but l w w.
Proof. by intros x. Qed.

Lemma same_but_trans l l' l2 w1 w2 w3 : same_but l w1 w2 -> same_but l' w2 w3 ->
  (forall x, x ∈ l \/ x ∈ l' -> x ∈ l2) -> same_but l2 w1 w3.
Proof. intros H1 H2 Hs x Hx. rewrite H2, H1; [done|intros ?; apply Hx, Hs; auto..]. Qed.

Lemma gone_but l w w' x : same_but l w w' -> x ∉ l -> gone (path x) w -> gone (path x) w'.
Proof. intros H Hx. apply gone_same. by apply H. Qed.

(** A call that does not touch the artifacts. *)
Definition quiet (c : call) : Prop := Forall (fun p => plain p = true /\ forall x, ~ below p (path x)) (targets c).

Lemma wlp_quiet c w (Q : Z -> W -> Prop) : quiet c -> (forall r w', same_but [] w w' -> Q r w') -> wlp (do_call c) Q w.
Proof.
  intros Hq H. apply wlp_of_wp, wp_call, H. intros x _. apply call_frame. eapply Forall_impl; [exact Hq|].
  intros p [Hp Hb]. by split.
Qed.

(** A call on one artifact. *)
Lemma wlp_on c x w (Q : Z -> W -> Prop) : targets c = [path x] ->
  (forall r w', same_but [x] w w' -> Q r w') -> wlp (do_call c) Q w.
Proof.
  intros Ht H. apply wlp_of_wp, wp_call, H. intros y Hy. apply call_frame. rewrite Ht. constructor; [|constructor].
  split; [by eapply path_plain|]. apply (path_apart _ _ Hok). intros ->. apply Hy. by left.
Qed.

Lemma wlp_unlink x w (Q : Z -> W -> Prop) : (forall r w', same_but [x] w w' -> gone (path x) w' -> Q r w') ->
  wlp (do_call (RemoveFile (path x))) Q w.
Proof.
  intros H. apply wlp_of_wp, wp_unlink; [by eapply path_plain|]. intros r w' K Hg _. apply H; [|done].
  intros y Hy. apply K. constructor; [|constructor]. apply (path_apart _ _ Hok). intros ->. apply Hy. by left.
Qed.

Lemma wlp_close fd w (Q : unit -> W -> Prop) : (forall w', (forall q, view w' q = view w q) -> Q () w') -> wlp (close_fd fd) Q w.
Proof.
  intros H u w'. unfold close_fd. destruct (bool_decide _); [|done]. unfold io_bind, do_call.
  destruct (w_call (CloseFd fd) w) as [r w1] eqn:E. intros [= <- <-]. apply H. intros q.
  pose proof (call_frame (view := view) (CloseFd fd) w q) as Hf. rewrite E in Hf. by apply Hf.
Qed.

(** ** Destruction *)

Definition guards (x : artifact) (f : wrapper) : Prop := cleanup_ f = Some (UnlinkFile (path x)) /\ do_cleanup_ f = true.

(** What the wrappers of a compilation do at their end. *)
Definition known (f : wrapper) : Prop :=
  match cleanup_ f with
  | Some (UnlinkFile p) => exists x, p = path x
  | Some (ClearReference n loc sec) => n = pkg /\ profile = Some loc /\ sec = false
  | None => True
  end.

Lemma wlp_clear_profile p w (Q : bool -> W -> Prop) : plain p = true -> (forall x, ~ below p (path x)) ->
  (forall b w', same_but [] w w' -> Q b w') -> wlp (clear_profile p) Q w.
Proof.
  intros Hp Hb H. unfold clear_profile, open_file. apply wlp_bind, wlp_quiet; [by apply Forall_nil_2|]. intros r w1 H1.
  assert (T : forall w2 w3 b, same_but [] w w2 -> same_but [] w2 w3 -> Q b w3).
  { intros w2 w3 b Ha Hc. apply H. by apply (same_but_trans [] [] [] w w2 w3 Ha Hc ltac:(naive_solver)). }
  destruct (r <? 0); [apply wlp_ret; by apply (T w1 w1); [|apply same_but_refl]|].
  unfold with_fd. apply wlp_bind. eapply (wlp_mono _ (fun _ w' => same_but [] w w')).
  - apply wlp_bind, wlp_quiet; [by apply Forall_nil_2|]. intros locked w2 H2.
    assert (H12 : same_but [] w w2) by by apply (same_but_trans [] [] [] w w1 w2 H1 H2 ltac:(naive_solver)).
    destruct (nz locked); [by apply wlp_ret|]. apply wlp_bind, wlp_quiet; [by repeat constructor|]. intros t w3 H3.
    assert (H13 : same_but [] w w3) by by apply (same_but_trans [] [] [] w w2 w3 H12 H3 ltac:(naive_solver)).
    apply wlp_bind, wlp_quiet; [by apply Forall_nil_2|]. intros u w4 H4. apply wlp_ret.
    by apply (same_but_trans [] [] [] w w3 w4 H13 H4 ltac:(naive_solver)).
  - intros b w2 H2. apply wlp_bind. unfold drop_fd. destruct (r <? 0); [apply wlp_ret, wlp_ret; by apply (T w2 w2); [|apply same_but_refl]|].
    apply wlp_close. intros w3 H3. apply wlp_ret. apply (T w2 w3); [done|]. intros x _. apply H3.
Qed.

Lemma wlp_release f w (Q : unit -> W -> Prop) : known f ->
  (forall w', (forall x, guards x f /\ gone (path x) w' \/ ~ guards x f /\ view w' (path x) = view w (path x)) -> Q () w') ->
  wlp (release G f) Q w.
Proof.
  intros Hk H. unfold release. apply wlp_bind.
  assert (Hc : wlp (if auto_close_ f && (0 <=? value_ f) then close_fd (value_ f) else mret ())
                 (fun _ w1 => forall q, view w1 q = view w q) w).
  { destruct (_ && _); [by apply wlp_close|by apply wlp_ret]. }
  eapply wlp_mono; [exact Hc|]. clear Hc. intros [] w1 H1. unfold guards in H. unfold known in Hk.
  destruct (do_cleanup_ f); [|apply wlp_ret, H; intros x; right; split; [naive_solver|apply H1]].
  destruct (cleanup_ f) as [[p|n loc sec]|]; cbn [run_cleanup].
  - destruct Hk as [x ->]. apply wlp_bind, wlp_unlink. intros r w2 Hs Hg. apply wlp_ret, H. intros y.
    destruct (decide (y = x)) as [->|Hne]; [by left|]. right. split.
    + intros [[= E] _]. apply (path_apart _ _ Hok y x Hne). rewrite E. apply below_refl.
    + rewrite Hs by (intros ->%list_elem_of_singleton; done). apply H1.
  - destruct Hk as (-> & Hloc & ->). apply wlp_bind. unfold clear_reference_profile, reference_path. apply wlp_bind, wlp_some.
    intros p Hp. apply wlp_clear_profile; [by apply (profile_apart _ _ Hok loc p Oat)|intros x; by apply (profile_apart _ _ Hok loc p x)|].
    intros b w2 H2. apply wlp_ret, H. intros x. right. split; [naive_solver|]. rewrite H2 by apply not_elem_of_nil. apply H1.
  - apply wlp_ret, H. intros x. right. split; [naive_solver|apply H1].
Qed.

(** The local removes the artifact at its end. *)
Definition guarded (x : artifact) (ls : list local) : Prop := exists f, Wrapped f ∈ ls /\ guards x f.

Definition all_known (ls : list local) : Prop := Forall (fun l => match l with Wrapped f => known f | _ => True end) ls.

Lemma wlp_drop fd w (Q : unit -> W -> Prop) : (forall w', (forall q, view w' q = view w q) -> Q () w') -> wlp (drop_fd fd) Q w.
Proof. intros H. unfold drop_fd. destruct (fd <? 0); [apply wlp_ret; by apply H|by apply wlp_close]. Qed.

Lemma wlp_drop_fds fds w (Q : unit -> W -> Prop) :
  (forall w', (forall q, view w' q = view w q) -> Q () w') -> wlp (drop_fds fds) Q w.
Proof.
  unfold drop_fds. revert w. induction fds as [|fd fds IH]; intros w H; [apply wlp_ret; by apply H|].
  cbn [for_all]. apply wlp_bind, wlp_drop. intros w1 H1. apply IH. intros w2 H2. apply H. intros q. by rewrite H2, H1.
Qed.

(** After the locals are destroyed a guarded artifact is gone, any other is as
    it was. *)
Lemma wlp_destroy_all ls w : all_known ls ->
  wlp (for_all ls (destroy G)) (fun _ w' => forall x, gone (path x) w' \/ ~ guarded x ls /\ view w' (path x) = view w (path x)) w.
Proof.
  revert w. induction ls as [|l ls IH]; intros w Hk.
  { apply wlp_ret. intros x. right. split; [|done]. intros (f & Hf & _). by apply not_elem_of_nil in Hf. }
  apply Forall_cons in Hk as [Hl Hk]. cbn [for_all]. apply wlp_bind.
  apply (wlp_mono _ (fun _ w1 => forall x, gone (path x) w1 \/
           ~ guarded x [l] /\ view w1 (path x) = view w (path x))).
  - assert (Hplain : forall fd, match l with Wrapped _ => False | _ => True end -> ~ guarded fd [l]).
    { intros x Hx (f & E%list_elem_of_singleton & _). by subst. }
    destruct l as [fd|fds|f]; cbn [destroy].
    + apply wlp_drop. intros w1 H1 x. right. split; [by apply Hplain|apply H1].
    + apply wlp_drop_fds. intros w1 H1 x. right. split; [by apply Hplain|apply H1].
    + apply wlp_release; [done|]. intros w1 H1 x. destruct (H1 x) as [[_ Hg]|[Hn Hv]]; [by left|]. right.
      split; [|done]. intros (g & [= ->]%list_elem_of_singleton & Hg). done.
  - intros [] w1 H1. eapply wlp_mono; [by apply IH|]. intros [] w2 H2 x. destruct (H2 x) as [Hg|[Hn Hv]]; [by left|].
    destruct (H1 x) as [Hg|[Hn1 Hv1]]; [left; by apply (gone_same _ w1)|]. right. split.
    + intros (f & [E|Hf]%elem_of_cons & Hg); [|apply Hn; by exists f].
      apply Hn1. exists f. split; [rewrite E; by left|done].
    + by rewrite Hv.
Qed.

(** Locals without a cleanup leave every file alone. *)
Definition harmless (l : local) : Prop :=
  match l with Wrapped f => cleanup_ f = None \/ do_cleanup_ f = false | _ => True end.

Lemma wlp_destroy_harmless ls w : Forall harmless ls ->
  wlp (for_all ls (destroy G)) (fun _ w' => forall q, view w' q = view w q) w.
Proof.
  revert w. induction ls as [|l ls IH]; intros w H; [by apply wlp_ret|]. apply Forall_cons in H as [Hl H].
  cbn [for_all]. apply wlp_bind. apply (wlp_mono _ (fun _ w1 => forall q, view w1 q = view w q)).
  - destruct l as [fd|fds|f]; cbn [destroy]; [by apply wlp_drop|by apply wlp_drop_fds|].
    unfold release. apply wlp_bind. apply (wlp_mono _ (fun _ w1 => forall q, view w1 q = view w q)).
    { destruct (_ && _); [by apply wlp_close|by apply wlp_ret]. }
    intros [] w1 H1. destruct Hl as [-> | ->]; [destruct (do_cleanup_ f)|]; by apply wlp_ret.
  - intros [] w1 H1. eapply wlp_mono; [by apply IH|]. intros [] w2 H2 q. by rewrite H2.
Qed.

(** ** Construction *)

Lemma wlp_existing p flags w (Q : Z -> W -> Prop) : Z.land flags (Z.lor O_CREAT O_TRUNC) = 0 ->
  (forall r w', same_but [] w w' -> Q r w') -> wlp (open_existing p flags) Q w.
Proof.
  intros Hf H. unfold open_existing, open_file. apply wlp_bind, wlp_quiet.
  { unfold quiet. cbn [targets]. rewrite Hf. by apply Forall_nil_2. }
  intros r w1 H1. by apply wlp_ret, H.
Qed.

Ltac chain H1 H2 := eapply (same_but_trans _ _ _ _ _ _ H1 H2); set_solver.

Lemma wlp_output x perms w (Q : Z -> W -> Prop) :
  (forall r w', same_but [x] w w' -> Q r w') -> wlp (open_output_file (path x) true perms) Q w.
Proof.
  intros H. unfold open_output_file, open_file. apply wlp_bind, wlp_bind, wlp_unlink. intros r w1 H1 _. apply wlp_ret.
  apply wlp_bind, (wlp_on _ x); [done|]. intros r2 w2 H2. apply wlp_ret, H. chain H1 H2.
Qed.

Lemma wlp_permissions fd public uid x sec w (Q : bool -> W -> Prop) :
  (forall b w', same_but [x] w w' -> Q b w') -> wlp (set_permissions_and_ownership fd public uid (path x) sec) Q w.
Proof.
  intros H. unfold set_permissions_and_ownership. apply wlp_bind, (wlp_on _ x); [done|]. intros m w1 H1.
  destruct (m <? 0); [by apply wlp_ret, H|]. apply wlp_bind, (wlp_on _ x); [done|]. intros o w2 H2. apply wlp_ret, H.
  chain H1 H2.
Qed.

Lemma guards_new x fd : guards x (new_file fd (UnlinkFile (path x))).
Proof. done. Qed.

Lemma guards_known x f : guards x f -> known f.
Proof. intros [H _]. unfold known. rewrite H. by exists x. Qed.

Lemma wlp_reset_new x fd w (Q : wrapper -> W -> Prop) :
  (forall f w', guards x f -> same_but [x] w w' -> Q f w') -> wlp (reset G (new_file fd (UnlinkFile (path x))) (-1)) Q w.
Proof.
  intros H. unfold reset. apply wlp_bind, wlp_release; [by exists x|]. intros w1 H1. apply wlp_ret, H; [done|].
  intros y Hy. destruct (H1 y) as [[[[= E] _] _]|[_ Hv]]; [|done].
  exfalso. destruct (decide (y = x)) as [->|Hne]; [apply Hy; by left|].
  apply (path_apart _ _ Hok y x Hne). rewrite E. apply below_refl.
Qed.

Lemma wlp_oat_out dex isa dir public uid w (Q : wrapper * str -> W -> Prop) :
  create_oat_out_path G dex isa dir false = Some (Some (path Oat)) ->
  (forall f w', guards Oat f -> same_but [Oat] w w' -> Q (f, path Oat) w') ->
  wlp (open_oat_out_file G dex dir public uid isa false) Q w.
Proof.
  intros Hout H. unfold open_oat_out_file. apply wlp_bind, wlp_some. intros out Eo. rewrite Hout in Eo. injection Eo as <-.
  apply wlp_bind, wlp_output. intros fd w1 H1. cbv zeta. destruct (fd <? 0); [by apply wlp_ret, H|].
  apply wlp_bind, wlp_permissions. intros b w2 H2. assert (H12 : same_but [Oat] w w2) by chain H1 H2.
  destruct b; [by apply wlp_ret, H|]. apply wlp_bind, wlp_reset_new. intros f w3 Hf H3. apply wlp_ret, H; [done|].
  chain H12 H3.
Qed.

Lemma wlp_assign v w (Q : wrapper -> W -> Prop) :
  (forall f, cleanup_ f = None -> Q f w) -> wlp (reset G no_file v) Q w.
Proof. intros H. unfold reset, release. cbn [no_file value_ auto_close_ do_cleanup_ cleanup_ andb]. apply wlp_bind, wlp_bind, wlp_ret, wlp_ret, wlp_ret. by apply H. Qed.

Lemma wlp_assign_vdex v w (Q : wrapper -> W -> Prop) :
  (forall f, guards Vdex f -> Q f w) -> wlp (reset_with G no_file v (UnlinkFile (path Vdex))) Q w.
Proof. intros H. unfold reset_with, release. cbn [no_file value_ auto_close_ do_cleanup_ cleanup_ andb]. apply wlp_bind, wlp_bind, wlp_ret, wlp_ret, wlp_ret. by apply H. Qed.

Lemma wlp_in_vdex p q action guided w (Q : bool * wrapper -> W -> Prop) :
  (forall b f w', cleanup_ f = None -> same_but [] w w' -> Q (b, f) w') ->
  wlp (open_in_vdex G p q action guided no_file) Q w.
Proof.
  intros H. unfold open_in_vdex. cbv zeta. destruct (_ && negb guided);
    (apply wlp_bind, wlp_existing; [done|]); intros fd w1 H1; apply wlp_bind, wlp_assign; intros f Hf; by apply wlp_ret, H.
Qed.

(** What is known of the wrappers of the vdex files. *)
Definition vdex_state (w w' : W) (r : bool * wrapper * wrapper) : Prop :=
  let '(opened, f, g) := r in
  cleanup_ f = None /\
  (guards Vdex g /\ same_but [Vdex] w w' \/ opened = false /\ cleanup_ g = None /\ same_but [] w w').

Lemma wlp_vdex_files dex needed isa public uid guided w :
  wlp (open_vdex_files_for_dex2oat G dex (path Oat) needed isa public uid false guided no_file no_file)
    (fun r w' => vdex_state w w' r) w.
Proof.
  unfold open_vdex_files_for_dex2oat. cbv zeta. apply wlp_bind, wlp_some. intros v Ev. rewrite (path_vdex _ _ Hok) in Ev.
  injection Ev as <-. rewrite bool_decide_false by by apply (path_some _ _ Hok). apply wlp_bind.
  apply (wlp_mono _ (fun r w1 => same_but [] w w1 /\ cleanup_ (snd r) = None)).
  { destruct (_ =? _); [by apply wlp_ret|]. apply wlp_bind. apply (wlp_mono _ (fun _ w1 => same_but [] w w1)).
    - unfold in_vdex_path. destruct (if needed <? 0 then _ else _); [|by apply wlp_ret].
      apply wlp_bind, wlp_some. intros v _. by apply wlp_ret.
    - intros [p|] w1 H1; [|by apply wlp_ret]. apply wlp_bind, wlp_in_vdex. intros b f w2 Hf H2. apply wlp_ret.
      split; [|done]. chain H1 H2. }
  intros [[found in_place] f] w1 [H1 Hf]. cbn [snd] in Hf. destruct found; cbn [negb].
  2: { apply wlp_ret. split; [done|]. right. done. }
  apply wlp_bind. apply (wlp_mono _ (fun r w2 => same_but [Vdex] w w2 /\ cleanup_ (snd (fst r)) = None /\ guards Vdex (snd r))).
  { destruct in_place.
    - apply wlp_bind, wlp_assign_vdex. intros g Hg. apply wlp_ret. split_and!; [|done|done]. intros x _. apply H1, not_elem_of_nil.
    - apply wlp_bind, wlp_output. intros fd w2 H2. apply wlp_bind, wlp_assign_vdex. intros g Hg. apply wlp_ret.
      split_and!; [|done|done]. chain H1 H2. }
  intros [[opened f2] g] w2 (H2 & Hf2 & Hg). cbn [fst snd] in *. destruct opened; cbn [negb].
  - apply wlp_bind, wlp_permissions. intros owned w3 H3. apply wlp_ret. split; [done|]. left. split; [done|]. chain H2 H3.
  - apply wlp_ret. split; [done|]. by left.
Qed.

Lemma swap_quiet c : targets c = [path Oat ++ lit ".swap"] -> quiet c.
Proof.
  intros Ht. unfold quiet. rewrite Ht. apply Forall_singleton. split; [by apply (swap_apart _ _ Hok Oat)|].
  intros x. by apply (swap_apart _ _ Hok x).
Qed.

Lemma wlp_swap w (Q : Z -> W -> Prop) :
  (forall r w', same_but [] w w' -> Q r w') -> wlp (maybe_open_dexopt_swap_file env (path Oat)) Q w.
Proof.
  intros H. unfold maybe_open_dexopt_swap_file. destruct (negb _); [by apply wlp_ret, H|]. cbv zeta.
  apply wlp_bind. unfold open_output_file, open_file. apply wlp_bind, wlp_bind, wlp_quiet; [by apply swap_quiet|].
  intros r w1 H1. apply wlp_ret, wlp_bind, wlp_quiet; [by apply swap_quiet|]. intros r2 w2 H2. apply wlp_ret.
  assert (H12 : same_but [] w w2) by chain H1 H2. destruct (_ <? 0); [by apply wlp_ret, H|].
  apply wlp_bind, wlp_quiet; [by apply swap_quiet|]. intros r3 w3 H3. apply wlp_ret, H. chain H12 H3.
Qed.

(** The image is guarded, or there is none. *)
Definition image_state (w : W) (f : wrapper) : Prop := guards Image f \/ cleanup_ f = None /\ gone (path Image) w.

Lemma wlp_app_image gen public uid w (Q : wrapper -> W -> Prop) :
  (forall f w', image_state w' f -> same_but [Image] w w' -> Q f w') ->
  wlp (maybe_open_app_image G env (path Oat) gen public uid false) Q w.
Proof.
  intros H. unfold maybe_open_app_image. apply wlp_bind, wlp_some. intros v Ev. rewrite (path_image _ _ Hok) in Ev.
  injection Ev as <-. rewrite bool_decide_false by by apply (path_some _ _ Hok).
  apply wlp_bind, wlp_unlink. intros r w1 H1 Hg. destruct (negb gen); [apply wlp_ret, H; [by right|done]|].
  destruct (bool_decide _); [apply wlp_ret, H; [by right|done]|].
  apply wlp_bind, wlp_output. intros fd w2 H2. assert (H12 : same_but [Image] w w2) by chain H1 H2. cbv zeta.
  destruct (fd <? 0).
  - apply wlp_bind, wlp_unlink. intros r2 w3 H3 _. apply wlp_ret, H; [by left|]. chain H12 H3.
  - apply wlp_bind, wlp_permissions. intros owned w3 H3. assert (H13 : same_but [Image] w w3) by chain H12 H3.
    destruct owned; [apply wlp_ret, H; [by left|done]|]. apply wlp_reset_new. intros f w4 Hf H4. apply H; [by left|].
    chain H13 H4.
Qed.

Definition reference_state (f : wrapper) : Prop :=
  cleanup_ f = None \/ exists loc, profile = Some loc /\ cleanup_ f = Some (ClearReference pkg loc false).

Lemma wlp_reference dex guided public uid w (Q : wrapper -> W -> Prop) :
  (forall f w', reference_state f -> same_but [] w w' -> Q f w') ->
  wlp (maybe_open_reference_profile G pkg dex profile guided public uid false) Q w.
Proof.
  intros H. unfold maybe_open_reference_profile. destruct (_ || _); [by apply wlp_ret, H; [left|]|]. cbn [andb].
  destruct profile as [loc|] eqn:Ep; [|by apply wlp_ret, H; [left|]]. apply wlp_bind. unfold open_reference_profile, reference_path.
  apply wlp_bind, wlp_some. intros p Hp. unfold open_profile. apply wlp_bind. unfold open_file.
  apply wlp_quiet; [by apply Forall_nil_2|]. intros r w1 H1. apply wlp_ret, wlp_ret, H; [|done]. right. by exists loc.
Qed.

Lemma wlp_compiler argv uid boot fd out l w (Q : Z -> W -> Prop) :
  (forall w', same_but l w w' -> forall status, run_compiler argv uid boot fd out (map path l) w = Some (status, w') ->
     Q status w') ->
  wlp (run_compiler argv uid boot fd out (map path l)) Q w.
Proof.
  intros H status w' E. apply H; [|done]. clear H Q. unfold run_compiler, in_child, in_child_with in E.
  match type of E with match ?c w with _ => _ end = _ =>
    assert (Hc : wlp c (fun _ w1 => same_but l w w1) w); [|destruct (c w) as [[s w1]|] eqn:Ec; [|done]]
  end.
  2: { injection E as <- <-. intros x Hx. rewrite join_view. by apply (Hc s w1 Ec). }
  clear E. unfold dropped. apply wlp_bind, wlp_ask. destruct (drop_failure w uid); [by apply wlp_ask|].
  apply wlp_bind, wlp_ask. destruct (if boot then _ else _); [by apply wlp_ask|].
  apply wlp_bind, wlp_quiet; [by apply Forall_nil_2|]. intros locked w1 H1.
  assert (H1l : same_but l w w1) by (intros x _; apply H1, not_elem_of_nil).
  destruct (nz locked); [by apply wlp_ask|]. apply wlp_of_wp, wp_call. intros x Hx.
  rewrite (call_frame (view := view)); [by apply H1l|]. cbn [targets]. apply Forall_map, Forall_forall. intros y Hy.
  split; [by eapply path_plain|]. apply (path_apart _ _ Hok). by intros ->.
Qed.

Lemma wlp_times dex w (Q : unit -> W -> Prop) :
  (forall w', (forall q, view w' q = view w q) -> Q () w') -> wlp (update_out_oat_access_times dex (path Oat)) Q w.
Proof.
  intros H. unfold update_out_oat_access_times. apply wlp_bind, wlp_ask. destruct (w_stat w dex) as [st|e]; [|by apply wlp_ret, H].
  apply wlp_bind, wlp_ask, wlp_bind, wlp_of_wp, wp_call, wlp_ret, H. intros q. apply times_view.
Qed.

(** The files that a wrapper lets the compiler write. *)
Definition writable (x : artifact) (f : wrapper) : list artifact :=
  match cleanup_ f with Some (UnlinkFile _) => if 0 <=? value_ f then [x] else [] | _ => [] end.

Lemma output_file_guarded x f : guards x f -> output_file f = map path (writable x f).
Proof. intros [H _]. unfold output_file, writable. rewrite H. by destruct (0 <=? value_ f). Qed.

Lemma output_file_none x f : cleanup_ f = None -> output_file f = map path (writable x f).
Proof. intros H. unfold output_file, writable. by rewrite H. Qed.

Lemma elem_of_writable x y f : x ∈ writable y f -> x = y.
Proof.
  unfold writable. destruct (cleanup_ f) as [[]|]; [destruct (0 <=? _)|..]; rewrite ?list_elem_of_singleton; try done;
    by intros ?%not_elem_of_nil.
Qed.

(** ** The function *)

(** The compiler has exited with 0, and nothing has changed since. *)
Definition compiled (w : W) : Prop :=
  exists argv uid boot fd out writes w0 w1,
    run_compiler argv uid boot fd out writes w0 = Some (0, w1) /\ forall q, view w q = view w1 q.

Definition outcome (w : W) (r : Z * list local) (w' : W) : Prop :=
  let '(r, ls) := r in
  all_known ls /\
  (r <> 0 -> forall x, guarded x ls \/ gone (path x) w' \/ view w' (path x) = view w (path x)) /\
  (r <> 0 -> r <> -1 -> forall x, guarded x ls \/ gone (path x) w') /\
  (r = 0 -> Forall harmless ls /\ compiled w').

(** The function stops with an error before the compiler is started. *)
Lemma outcome_error w ls w' : all_known ls ->
  (forall x, guarded x ls \/ gone (path x) w' \/ view w' (path x) = view w (path x)) -> outcome w (-1, ls) w'.
Proof. intros Hk H. split_and!; [done|intros _; apply H|done|done]. Qed.

Lemma all_known_app a b : all_known a -> all_known b -> all_known (a ++ b).
Proof. apply Forall_app_2. Qed.

Lemma known_none f : cleanup_ f = None -> known f.
Proof. intros H. unfold known. by rewrite H. Qed.

Lemma known_reference f : reference_state f -> known f.
Proof. unfold known. by intros [-> | (loc & Hl & ->)]. Qed.

Lemma known_image w f : image_state w f -> known f.
Proof. intros [H|[H _]]; [by eapply guards_known|by apply known_none]. Qed.

Ltac knows :=
  repeat (apply Forall_cons; split; [try match goal with |- known (SetCleanup _ ?f) => change (known f) end;
                                     first [done | by eapply guards_known | by apply known_none
                                           | by apply known_reference | by eapply known_image]|]); apply Forall_nil_2.
Ltac guarded_by f := left; exists f; split; [set_solver|done].

Context (a : dexopt_args) (Hpkg : a_pkgname a = pkg) (Hprof : a_profile_name a = profile).
Context (Hprim : has_bit (a_dexopt_flags a) DEXOPT_SECONDARY_DEX = false).

Lemma wlp_body public needed dir w :
  create_oat_out_path G (a_dex_path a) (a_instruction_set a) dir false = Some (Some (path Oat)) ->
  wlp (dexopt_body G env a public needed dir []) (outcome w) w.
Proof.
  intros Hout. unfold dexopt_body. cbv zeta. rewrite Hprim, Hpkg, Hprof. apply wlp_bind, wlp_existing; [done|]. intros input w1 H1.
  destruct (input <? 0).
  { apply wlp_ret, outcome_error; [knows|]. intros x. right. right. apply H1, not_elem_of_nil. }
  cbn [open_dex_paths]. apply wlp_bind, wlp_ret. change (nz 0) with false. cbv iota beta.
  apply wlp_bind, wlp_oat_out; [done|]. intros oat w2 Hoat H2. assert (H12 : same_but [Oat] w w2) by chain H1 H2. cbn [app].
  assert (Hold : forall ls, Wrapped oat ∈ ls -> forall w3, same_but [Oat] w w3 ->
            forall x, guarded x ls \/ gone (path x) w3 \/ view w3 (path x) = view w (path x)).
  { intros ls Hin w3 H3 x. destruct (decide (x = Oat)) as [->|Hx]; [left; by exists oat|].
    right. right. apply H3. set_solver. }
  destruct (_ <? 0); [apply wlp_ret, outcome_error; [knows|apply Hold; [set_solver|done]]|].
  apply wlp_bind. eapply wlp_mono; [apply wlp_vdex_files|]. intros [[opened f] g] w3 [Hf Hg]. cbn [app].
  assert (Hvdex : forall ls, Wrapped oat ∈ ls -> Wrapped g ∈ ls ->
            forall x, guarded x ls \/ gone (path x) w3 \/ view w3 (path x) = view w (path x)).
  { intros ls Hi1 Hi2. destruct Hg as [[Hg H3]|(_ & _ & H3)]; [|apply Hold; [done|chain H12 H3]].
    intros x. destruct x; [left; by exists oat|left; by exists g|]. right. right. rewrite H3, H12; set_solver. }
  assert (Hgk : known g) by (destruct Hg as [[Hg _]|(_ & Hg & _)]; [by eapply guards_known|by apply known_none]).
  destruct opened; cbn [negb].
  2: { apply wlp_ret, outcome_error; [knows|apply Hvdex; set_solver]. }
  destruct Hg as [[Hg H3]|[? _]]; [|done]. apply wlp_bind, wlp_ret. change (nz 0) with false. cbv iota beta.
  apply wlp_bind, wlp_swap. intros swap w4 H4. apply wlp_bind, wlp_app_image. intros image w5 Him H5.
  apply wlp_bind, wlp_reference. intros reference w6 Hrf H6.
  apply wlp_bind. apply (wlp_mono _ (fun _ w7 => same_but [] w6 w7)).
  { destruct (a_dex_metadata_path a); [by apply wlp_existing|by apply wlp_ret]. }
  intros metadata w7 H7. apply wlp_bind, wlp_some. intros argv _. apply wlp_bind.
  assert (Himg : output_file image = map path (writable Image image)).
  { destruct Him as [Hi|[Hi _]]; [by apply output_file_guarded|by apply output_file_none]. }
  rewrite (output_file_guarded Oat oat Hoat), (output_file_guarded Vdex g Hg), Himg, <- !map_app.
  apply wlp_compiler. intros w8 H8 status Hrun.
  assert (Hdone : forall ls, Wrapped oat ∈ ls -> Wrapped g ∈ ls -> Wrapped image ∈ ls -> forall x, guarded x ls \/ gone (path x) w8).
  { intros ls Hi1 Hi2 Hi3 x. destruct x; [left; by exists oat|left; by exists g|].
    destruct Him as [Hi|[Hi Hgone]]; [left; by exists image|]. right.
    apply (gone_but (writable Oat oat ++ writable Vdex g ++ writable Image image) w7 w8); [done| |].
    - rewrite !elem_of_app. intros [Hx%elem_of_writable|[Hx%elem_of_writable|Hx]]; [done..|].
      unfold writable in Hx. rewrite Hi in Hx. by apply not_elem_of_nil in Hx.
    - apply (gone_but [] w5 w7); [chain H6 H7|apply not_elem_of_nil|done]. }
  destruct (nz status) eqn:Est; cbv zeta; cbv [id].
  - apply wlp_ret. match goal with |- outcome _ (_, ?ls) _ => assert (Hg3 := Hdone ls ltac:(set_solver) ltac:(set_solver) ltac:(set_solver)) end.
    split; [knows|]. split; [intros _ x; destruct (Hg3 x); auto|]. split; [by intros _ _|]. intros ->. by vm_compute in Est.
  - apply wlp_bind, wlp_times. intros w9 H9. apply wlp_ret. split; [knows|]. split; [done|]. split; [done|]. intros _.
    split.
    + repeat (apply Forall_cons; split; [first [done|by right|by left]|]). apply Forall_nil_2.
    + unfold nz in Est. apply negb_false_iff, Z.eqb_eq in Est. subst status. by do 8 eexists.
Qed.

Definition result (w : W) (r : Z) (w' : W) : Prop :=
  (r <> 0 -> forall x, gone (path x) w' \/ view w' (path x) = view w (path x)) /\
  (r <> 0 -> r <> -1 -> forall x, gone (path x) w') /\ (r = 0 -> compiled w').

Lemma all_known_rev ls : all_known ls -> all_known (rev ls).
Proof. unfold all_known. by rewrite <- (Permutation_rev ls). Qed.

Lemma guarded_rev x ls : guarded x (rev ls) <-> guarded x ls.
Proof. unfold guarded. by setoid_rewrite <- (Permutation_rev ls). Qed.

Lemma wlp_run public needed dir w :
  create_oat_out_path G (a_dex_path a) (a_instruction_set a) dir false = Some (Some (path Oat)) ->
  wlp (run_body G env a public needed dir []) (result w) w.
Proof.
  intros Hout. unfold run_body. apply wlp_bind. eapply wlp_mono; [by apply wlp_body|].
  intros [r ls] w1 (Hk & Hkept & Hgone & Hcomp). unfold leave. apply wlp_bind. destruct (decide (r = 0)) as [->|Hr].
  - destruct (Hcomp eq_refl) as [Hh (argv & uid & boot & fd & out & writes & w2 & w3 & Hrun & Hv)].
    eapply wlp_mono; [apply wlp_destroy_harmless; by rewrite <- (Permutation_rev ls)|]. intros u w4 H4. apply wlp_ret.
    split; [done|]. split; [done|]. intros _. exists argv, uid, boot, fd, out, writes, w2, w3. split; [done|].
    intros q. by rewrite H4, Hv.
  - eapply wlp_mono; [by apply wlp_destroy_all, all_known_rev|]. intros u w2 H2. apply wlp_ret. split; [|split; [|done]].
    + intros _ x. destruct (H2 x) as [|[Hn Hv]]; [by left|]. rewrite guarded_rev in Hn.
      destruct (Hkept Hr x) as [|[|]]; [done|left; by apply (gone_same _ w1)|right; by rewrite Hv].
    + intros _ Hr1 x. destruct (H2 x) as [|[Hn Hv]]; [done|]. rewrite guarded_rev in Hn.
      destruct (Hgone Hr Hr1 x); [done|]. by apply (gone_same _ w1).
Qed.

Lemma result_refused w : result w (-1) w.
Proof. split; [by right|]. by split. Qed.

Lemma wlp_dexopt w :
  create_oat_out_path G (a_dex_path a) (a_instruction_set a) (a_oat_dir a) false = Some (Some (path Oat)) ->
  wlp (dexopt debuggable G env a) (result w) w.
Proof.
  intros Hout. unfold dexopt. cbv zeta. rewrite Hprim. do 2 (apply wlp_bind, wlp_some; intros _ _).
  destruct (negb _); [apply wlp_ret, result_refused|].
  destruct (match a_class_loader_context a with Some _ => _ | None => _ end); [apply wlp_ret, result_refused|].
  do 2 (apply wlp_bind, wlp_some; intros _ _). by apply wlp_run.
Qed.

End Outputs.

(** * Properties *)

(** C33: whatever fails on its way, a compilation returns and closes every
    descriptor that it opened exactly once. *)
Theorem dexopt_descriptors {W : Type} {world : World W} {proc : Process W} {reads : DexReads W} {Node : Type}
    (view : W -> str -> option Node) (is_dir : Node -> bool) {ok : WorldOk world view is_dir}
    {pok : ProcessOk world proc view} {aid : AidRanges} {mu : Multiuser} {paths : OatPaths}
    (debuggable : bool) (G : globals) (env : DexEnv) (a : dexopt_args) (w : W) :
  request_ok debuggable G a ->
  exists r w', dexopt debuggable G env a w = Some (r, w') /\ open_fds w' = open_fds w.
Proof.
  intros Hreq. destruct (moves_whole _ _ (moves_dexopt view is_dir debuggable G env a Hreq) w) as (r & w' & Hr & Hf & _).
  by exists r, w'.
Qed.

(** ** Runs *)

Definition demo_args : dexopt_args := {|
  a_dex_path := ab_apk_path; a_uid := 10010; a_pkgname := lit "com.foo"; a_instruction_set := lit "arm64";
  a_dexopt_needed := DEX2OAT_FROM_SCRATCH; a_oat_dir := Some ab_dir_path;
  a_dexopt_flags := Z.lor DEXOPT_PROFILE_GUIDED DEXOPT_GENERATE_APP_IMAGE; a_compiler_filter := lit "speed-profile";
  a_volume_uuid := None; a_class_loader_context := None; a_se_info := []; a_downgrade := false;
  a_target_sdk_version := 29; a_profile_name := Some (lit "primary.prof"); a_dex_metadata_path := None;
  a_compilation_reason := Some (lit "install") |}.

Definition image_env : DexEnv := {| prop k := if k =s? lit "dalvik.vm.appimageformat" then lit "lz4" else [];
  bool_prop _ d := d; server_flag _ _ := []; dex2oat_bootclasspath := None; executable _ := false |}.

(** The apk and what an older compilation has left. *)
Definition dexopt_state : pstate :=
  PState (fun q => if q =s? ab_apk_path then Some (Node false 420 (lit "apk")) else p_fs ab_start q) 3 ∅.

Definition dexopt_run (status : Z) : option (Z * pstate) :=
  dexopt (world := proc_fs status) (proc := proc_table) (aid := aid_android) (mu := mu_android)
    (paths := installd_paths dex_globals) false dex_globals image_env demo_args dexopt_state.

(** The data of the oat file, the vdex and the image after a run. *)
Definition dexopt_files (status : Z) : option (Z * list (option str)) :=
  (fun x => (fst x, map (fun y => n_data <$> p_fs (snd x) (ab_base ++ extension y)) [Oat; Vdex; Image])) <$> dexopt_run status.

Lemma dexopt_example :
  dexopt_files 0 = Some (0, [Some tool_output; Some tool_output; Some tool_output]) /\
  dexopt_files 256 = Some (256, [None; None; None]).
Proof. by vm_compute. Qed.

Lemma demo_request : request_ok (mu := mu_android) (paths := installd_paths dex_globals) false dex_globals demo_args.
Proof.
  split; [done|done| |done]. intros _. split_and!; [done|done|left; by vm_compute|]. by eexists; vm_compute.
Qed.

Lemma demo_outputs : outputs_ok dex_globals (fun x => ab_base ++ extension x) (lit "com.foo") (Some (lit "primary.prof")).
Proof.
  assert (B : forall p q, belowb p q = false -> ~ below p q) by (intros p q H Hb%belowb_spec; by rewrite H in Hb).
  split; [by intros []|by intros []| |by vm_compute|by vm_compute| |].
  - intros [] [] Hne; try done; by apply B; vm_compute.
  - intros []; (split; [by vm_compute|by apply B; vm_compute]).
  - intros loc p x [= <-]. vm_compute (create_reference_profile_path _ _ _ _). intros [= <-].
    split; [by vm_compute|]. destruct x; by apply B; vm_compute.
Qed.

Lemma dexopt_descriptors_witness :
  exists r w', dexopt_run 256 = Some (r, w') /\ open_fds w' = open_fds dexopt_state.
Proof.
  apply (dexopt_descriptors (world := proc_fs 256) (proc := proc_table) (aid := aid_android) (mu := mu_android)
           (paths := installd_paths dex_globals) proc_view n_dir false dex_globals image_env demo_args dexopt_state).
  apply demo_request.
Defined.
