(* ===== verification/DexoptFiles.v ===== *)
(** What a compilation compiles, and on which files.

    The descriptors that [dexopt] hands to the compiler are numbers on its
    command line. [FdFiles] adds to a world what each open descriptor was
    opened for; [request_files] reads a command line against it, and
    [compiled_for] says that the compiler ran for a request: with the
    descriptors of the files of the request and no others, as its user, and
    with the answer 0. Any world can be given such a table ([traced]). *)

From S2P Require Import Prelude Platform Fts InstalldPaths InstalldFs FreeCache World SimpleFs AppPaths AppData.
From S2P Require Import OtaParameters DexPaths Dex2oat Descriptors ProcFs Profiles Artifacts SecondaryDex Dexopt.

Open Scope Z_scope.
Open Scope io_scope.

(** The path and the flags that a descriptor was opened with. *)
Class FdFiles (W : Type) := fd_file : W -> Z -> option (str * Z).

(** An [open] that succeeds records its descriptor, and what is recorded of an
    open descriptor stays until it is closed. *)
Class FdFilesOk {W : Type} (world : World W) (proc : Process W) (files : FdFiles W) : Prop := {
  fd_opened : forall p flags mode w, 0 <= fst (w_call (OpenFile p flags mode) w) ->
    fd_file (snd (w_call (OpenFile p flags mode) w)) (fst (w_call (OpenFile p flags mode) w)) = Some (p, flags);
  fd_kept : forall c w fd, fd ∈ open_fds w -> c <> CloseFd fd -> fd_file (snd (w_call c w)) fd = fd_file w fd;
}.

(** The codes that a child exits with where it cannot lower its priority. *)
Class ScheduleOk {W : Type} (reads : DexReads W) : Prop :=
  schedule_code : forall w c, schedule_failure w = Some c -> c ∈ [kSetSchedPolicy; kSetPriority].

(** * A table for any world *)

Section Traced.
Context {W : Type} {world : World W} {proc : Process W} {reads : DexReads W}.

Definition traced : Type := W * gmap Z (str * Z).

Definition record_call (c : call) (r : Z) (t : gmap Z (str * Z)) : gmap Z (str * Z) :=
  match c with
  | OpenFile p flags _ => if 0 <=? r then <[r := (p, flags)]> t else t
  | CloseFd fd => delete fd t
  | _ => t
  end.

#[export] Instance traced_world : World traced := {|
  w_access s := w_access (fst s);
  w_isdir s := w_isdir (fst s);
  w_stat s := w_stat (fst s);
  w_lstat s := w_lstat (fst s);
  w_opendir s := w_opendir (fst s);
  w_tree s := w_tree (fst s);
  w_attr s := w_attr (fst s);
  w_label s := w_label (fst s);
  w_call c s := let '(r, w) := w_call c (fst s) in (r, (w, record_call c r (snd s)));
|}.

#[export] Instance traced_proc : Process traced := {|
  open_fds s := open_fds (fst s);
  exit_status s := exit_status (fst s);
  join_child s s' := (join_child (fst s) (fst s'), snd s);
  drop_failure s := drop_failure (fst s);
|}.

#[export] Instance traced_reads : DexReads traced := {|
  access_read s := access_read (fst s);
  pipe_text s := pipe_text (fst s);
  file_bytes s := file_bytes (fst s);
  pipe_accepts s := pipe_accepts (fst s);
  SecondaryDex.sha256 := SecondaryDex.sha256;
  access_time s := access_time (fst s);
  schedule_failure s := schedule_failure (fst s);
|}.

#[export] Instance traced_files : FdFiles traced := fun s fd => snd s !! fd.

Context {Node : Type} {view : W -> str -> option Node} {is_dir : Node -> bool}.

Definition traced_view (s : traced) : str -> option Node := view (fst s).

Lemma traced_call c s : fst (w_call c s) = fst (w_call c (fst s)) /\ fst (snd (w_call c s)) = snd (w_call c (fst s)).
Proof. cbn [w_call traced_world]. by destruct (w_call c (fst s)). Qed.

Ltac traced_law law :=
  cbv zeta; intros; unfold traced_view in *; cbn [w_access w_isdir w_stat w_opendir w_tree traced_world] in *;
  rewrite ?(proj1 (traced_call _ _)), ?(proj2 (traced_call _ _)) in *; eapply law; eauto.

#[export] Instance traced_ok {ok : WorldOk world view is_dir} : WorldOk traced_world traced_view is_dir.
Proof.
  split; [traced_law access_view|traced_law isdir_view|traced_law stat_view|traced_law listed_names|traced_law tree_names
         |traced_law call_frame|traced_law label_view|traced_law made_done|traced_law delete_shrinks
         |traced_law delete_done|traced_law copy_frame|traced_law copy_done].
Qed.

#[export] Instance traced_proc_ok {pok : ProcessOk world proc view} : ProcessOk traced_world traced_proc traced_view.
Proof.
  split; cbn [open_fds join_child traced_proc];
    [traced_law open_fresh|traced_law open_failed|traced_law close_removes|traced_law other_calls
    |traced_law Descriptors.join_fds|traced_law join_view].
Qed.

#[export] Instance traced_file_ops {fok : FileOps world view is_dir} : FileOps traced_world traced_view is_dir.
Proof.
  split; [traced_law unlink_done|traced_law unlink_failed| |traced_law rename_done|traced_law stat_missing|traced_law times_view].
  intros p s Hp. unfold traced_view. rewrite !(proj1 (traced_call _ _)). by apply unlink_refused.
Qed.

#[export] Instance traced_exits {eok : ExitOk proc} : ExitOk traced_proc.
Proof. split; cbn [exit_status drop_failure traced_proc]; intros; [by eapply exit_code|by eapply drop_code]. Qed.

#[export] Instance traced_schedule {sok : ScheduleOk reads} : ScheduleOk traced_reads.
Proof. intros s c H. by apply (schedule_code (fst s)). Qed.

#[export] Instance traced_files_ok {pok : ProcessOk world proc view} : FdFilesOk traced_world traced_proc traced_files.
Proof.
  split; unfold fd_file, traced_files; cbn [open_fds traced_proc w_call traced_world].
  - intros p flags mode [w t] Hr. cbn [fst snd] in *. destruct (w_call _ w) as [r w']. cbn [fst snd record_call] in *.
    by rewrite (proj2 (Z.leb_le 0 r) Hr), lookup_insert_eq.
  - intros c [w t] fd Hin Hc. cbn [fst snd] in *. pose proof (fun H => open_fresh c w H) as Hnew.
    destruct (w_call c w) as [r w']. cbn [fst snd] in *. destruct c; try done; cbn [record_call].
    + destruct (Z.leb_spec 0 r) as [Hr|Hr]; [|done]. apply lookup_insert_ne. intros <-. by destruct (Hnew eq_refl Hr).
    + apply lookup_delete_ne. by intros ->.
Qed.

End Traced.

(** * What the compiler is given *)

Section Files.
Context {W : Type} {world : World W} {proc : Process W} {reads : DexReads W} {files : FdFiles W}.
Context {Node : Type} {view : W -> str -> option Node} {is_dir : Node -> bool}.
Context {ok : WorldOk world view is_dir} {pok : ProcessOk world proc view} {fok : FileOps world view is_dir}.
Context {ffok : FdFilesOk world proc files} {eok : ExitOk proc} {sok : ScheduleOk reads}.
Context {aid : AidRanges} {mu : Multiuser} {paths : OatPaths}.
Context (debuggable : bool) (G : globals) (env : DexEnv) (path : artifact -> str).

(** The paths that the function changes. *)
Definition outputs : list str := [path Oat; path Vdex; path Image; path Oat ++ lit ".swap"].

(** From [w] to [w'] no other file has changed, and every descriptor of [w] is
    open as it was. *)
Definition since (w w' : W) : Prop :=
  agree (view := view) (outside outputs) w w' /\
  forall fd, fd ∈ open_fds w -> fd ∈ open_fds w' /\ fd_file w' fd = fd_file w fd.

(** The descriptor is open on the file. *)
Definition on (w : W) (fd : Z) (p : str) (flags : Z) : Prop :=
  0 <= fd /\ fd ∈ open_fds w /\ fd_file w fd = Some (p, flags).

(** On the way from [w] the call failed. *)
Definition refused (w : W) (c : call) : Prop := exists w1, since w w1 /\ fst (w_call c w1) < 0.

(** The file was opened, or that failed and there is no descriptor. *)
Definition tried (w w' : W) (p : str) (flags mode fd : Z) : Prop :=
  on w' fd p flags \/ fd = -1 /\ refused w (OpenFile p flags mode).

Definition created : Z := Z.lor (Z.lor O_RDWR O_CREAT) O_EXCL.

Context (a : dexopt_args) (dexopt_needed : Z).

Definition flag (f : Z) : bool := has_bit (a_dexopt_flags a) f.

(** The vdex that the compilation starts from. *)
Definition vdex_source : option str :=
  if dexopt_needed <? 0 then calculate_odex_file_path (a_dex_path a) (a_instruction_set a) ≫= create_vdex_filename
  else Some (path Vdex).

(** The input and the output: a new vdex, or the old one where only the boot
    image has changed and no profile guides the compilation. *)
Definition vdex_files (w w0 : W) (input output : Z) : Prop :=
  if Z.abs dexopt_needed =? DEX2OAT_FROM_SCRATCH then input = -1 /\ on w0 output (path Vdex) created
  else
    exists source, vdex_source = Some source /\
      let in_place := (source =s? path Vdex) && (Z.abs dexopt_needed =? DEX2OAT_FOR_BOOT_IMAGE) &&
                      negb (flag DEXOPT_PROFILE_GUIDED) in
      tried w w0 source (if in_place then O_RDWR else O_RDONLY) 0 input /\
      if in_place && negb (input =? -1) then output = input else on w0 output (path Vdex) created.

(** An image, if one is asked for and the system has a format for it. *)
Definition image_file (w w0 : W) (fd : Z) : Prop :=
  if flag DEXOPT_GENERATE_APP_IMAGE && negb (bool_decide (prop env (lit "dalvik.vm.appimageformat") = [])) then
    on w0 fd (path Image) created \/
    fd = -1 /\ exists c, refused w c /\
      (c = OpenFile (path Image) created 384 \/ (exists d m, c = ModeFd d (path Image) m) \/
       exists d u g, c = OwnerFd d (path Image) u g)
  else fd = -1.

Definition swap_file (w w0 : W) (fd : Z) : Prop :=
  if ShouldUseSwapFileForDexopt env then tried w w0 (path Oat ++ lit ".swap") created 384 fd else fd = -1.

(** The reference profile of the package, which is the only one that may guide
    a compilation. *)
Definition profile_file (w w0 : W) (fd : Z) : Prop :=
  match (if flag DEXOPT_PROFILE_GUIDED && negb (prefixb (lit "*") (a_pkgname a)) then a_profile_name a else None) with
  | Some location =>
      exists p, create_reference_profile_path G (a_pkgname a) location false = Some p /\
        tried w w0 p (Z.lor O_RDONLY O_NOFOLLOW) 0 fd
  | None => fd = -1
  end.

Definition metadata_file (w w0 : W) (fd : Z) : Prop :=
  match a_dex_metadata_path a with Some p => tried w w0 p (Z.lor O_RDONLY O_NOFOLLOW) 0 fd | None => fd = -1 end.

(** The input of the command line is that of the request, and in [w0] its
    descriptors are those of the files of the request. *)
Record request_files (w w0 : W) (i : dex2oat_input) : Prop := {
  rf_zip : on w0 (zip_fd i) (a_dex_path a) O_RDONLY;
  rf_oat : on w0 (oat_fd i) (path Oat) created;
  rf_vdex : vdex_files w w0 (input_vdex_fd i) (output_vdex_fd i);
  rf_image : image_file w w0 (image_fd i);
  rf_swap : swap_file w w0 (swap_fd i);
  rf_profile : profile_file w w0 (profile_fd i);
  rf_metadata : metadata_file w w0 (dex_metadata_fd i);
  rf_names : input_file_name i = a_dex_path a /\ output_file_name i = path Oat;
  rf_target : instruction_set i = a_instruction_set a /\ compiler_filter i = Some (a_compiler_filter a) /\
    target_sdk_version i = a_target_sdk_version a /\ compilation_reason i = a_compilation_reason a;
  rf_context : class_loader_context i = a_class_loader_context a /\ class_loader_context_fds i = [];
  rf_flags : Dex2oat.debuggable i = flag DEXOPT_DEBUGGABLE /\ post_bootcomplete i = flag DEXOPT_BOOTCOMPLETE /\
    background_job_compile i = flag DEXOPT_IDLE_BACKGROUND_JOB /\
    enable_hidden_api_checks i = flag DEXOPT_ENABLE_HIDDEN_API_CHECKS /\
    generate_compact_dex i = flag DEXOPT_GENERATE_COMPACT_DEX;
}.

(** In [w0], with its files open, the compiler was started for the request,
    as its user and with the oat file locked; it answered 0, and in [w'] every
    file is as it has left it. *)
Definition compiled_for (w w' : W) : Prop :=
  exists i argv w0 w1 w2,
    since w w0 /\ request_files w w0 i /\ RunDex2Oat env i = Some argv /\
    w_call (LockFd (oat_fd i) (path Oat) (Z.lor LOCK_EX LOCK_NB)) w0 = (0, w1) /\
    w_call (Child argv (a_uid a) ([path Oat; path Vdex] ++ if image_fd i <? 0 then [] else [path Image])) w1 = (0, w2) /\
    forall q, view w' q = view w2 q.

(** ** Steps *)

Context (Hok : outputs_ok G path (a_pkgname a) (a_profile_name a)).

Lemma outputs_plain p : p ∈ outputs -> plain p = true.
Proof.
  unfold outputs. rewrite !elem_of_cons. intros [->|[->|[->|[->|[]%not_elem_of_nil]]]]; try by eapply path_plain.
  by apply (swap_apart _ _ _ _ Hok Oat).
Qed.

Lemma since_refl w : since w w.
Proof. by split. Qed.

Lemma since_trans w1 w2 w3 : since w1 w2 -> since w2 w3 -> since w1 w3.
Proof.
  intros [H1 F1] [H2 F2]. split; [by eapply agree_trans|]. intros fd Hfd. destruct (F1 fd Hfd) as [Hi <-]. by apply F2.
Qed.

Lemma on_since w w' fd p flags : since w w' -> on w fd p flags -> on w' fd p flags.
Proof. intros [_ H] (H0 & Hi & Hf). destruct (H fd Hi) as [Hi' E]. split_and!; [done..|]. by rewrite E. Qed.

Lemma refused_since w w1 c : since w w1 -> refused w1 c -> refused w c.
Proof. intros H (w2 & H2 & Hr). exists w2. split; [by eapply since_trans|done]. Qed.

Lemma tried_since w w1 w2 w3 p flags mode fd :
  since w w1 -> since w2 w3 -> tried w1 w2 p flags mode fd -> tried w w3 p flags mode fd.
Proof.
  intros H1 H2 [H|[-> H]]; [left; by eapply on_since|right]. split; [done|by eapply refused_since].
Qed.

Lemma call_since c w : (forall fd, c <> CloseFd fd) -> targets c ⊆ outputs -> since w (snd (w_call c w)).
Proof.
  intros Hc Ht. split.
  - apply call_agrees, Forall_forall. intros p Hp%Ht. split; [by apply outputs_plain|].
    intros q Hq. unfold outside in Hq. rewrite Forall_forall in Hq. by apply Hq.
  - intros fd Hfd. split; [|by apply fd_kept]. destruct (is_fd_call c) eqn:E; [|by rewrite other_calls].
    assert (Ho : is_open_call c = true) by (destruct c; try done; by destruct (Hc fd0)).
    destruct (Z_lt_le_dec (fst (w_call c w)) 0) as [Hr|Hr]; [by rewrite open_failed|].
    destruct (open_fresh c w Ho Hr) as [_ ->]. set_solver.
Qed.

Lemma close_since fd w0 w : since w0 w -> fd ∉ open_fds w0 -> since w0 (snd (w_call (CloseFd fd) w)).
Proof.
  intros [Ha Hf] Hn. split.
  - intros q Hq. rewrite call_frame by apply Forall_nil_2. by apply Ha.
  - intros x Hx. destruct (Hf x Hx) as [Hi E]. assert (x <> fd) by (by intros ->). rewrite close_removes.
    split; [set_solver|]. rewrite fd_kept; [done|done|]. by intros [= ->].
Qed.

Lemma wlp_does c w (Q : Z -> W -> Prop) : (forall fd, c <> CloseFd fd) -> targets c ⊆ outputs ->
  (forall r w', w_call c w = (r, w') -> since w w' -> Q r w') -> wlp (do_call c) Q w.
Proof.
  intros Hc Ht H r w' [= E]. apply H; [done|]. pose proof (call_since c w Hc Ht) as Hs. by rewrite E in Hs.
Qed.

Lemma wlp_opens p flags mode w (Q : Z -> W -> Prop) : targets (OpenFile p flags mode) ⊆ outputs ->
  (forall fd w', since w w' -> tried w w' p flags mode fd -> (0 <= fd -> fd ∉ open_fds w) -> Q fd w') ->
  wlp (r ← open_file p flags mode; mret (fd_of r)) Q w.
Proof.
  intros Ht H. apply wlp_bind, wlp_does; [done|done|]. intros r w' E Hs. apply wlp_ret.
  unfold fd_of. destruct (Z.ltb_spec r 0) as [Hr|Hr].
  - apply H; [done| |by intros ?]. right. split; [done|]. exists w. split; [apply since_refl|by rewrite E].
  - pose proof (open_fresh (OpenFile p flags mode) w eq_refl) as Hnew.
    pose proof (fd_opened p flags mode w) as Hf. rewrite E in Hnew, Hf. destruct (Hnew Hr) as [Hn Ho].
    apply H; [done| |by intros _]. left. split_and!; [done| |by apply Hf]. cbn [snd fst] in Ho. rewrite Ho. set_solver.
Qed.

Lemma wlp_opens_existing p flags w (Q : Z -> W -> Prop) : Z.land flags (Z.lor O_CREAT O_TRUNC) = 0 ->
  (forall fd w', since w w' -> tried w w' p flags 0 fd -> Q fd w') -> wlp (open_existing p flags) Q w.
Proof. intros Hf H. apply wlp_opens; [|auto]. cbn [targets]. rewrite Hf. apply list_subseteq_nil. Qed.

(** An output is removed before it is made. *)
Lemma wlp_opens_output p perms w (Q : Z -> W -> Prop) : p ∈ outputs ->
  (forall fd w', since w w' -> tried w w' p created perms fd -> (0 <= fd -> fd ∉ open_fds w) -> Q fd w') ->
  wlp (open_output_file p true perms) Q w.
Proof.
  intros Hp H. assert (Ht : [p] ⊆ outputs) by (by intros q ->%list_elem_of_singleton).
  unfold open_output_file. apply wlp_bind, wlp_bind, wlp_does; [done|done|]. intros r w1 _ H1. apply wlp_ret, wlp_opens; [done|].
  intros fd w2 H2 T Hn. apply H; [by eapply since_trans|exact (tried_since w w1 w2 w2 p _ _ fd H1 (since_refl w2) T)|].
  intros H0 Hi. by apply (Hn H0), H1.
Qed.

Lemma wlp_sets_permissions fd public uid p sec w (Q : bool -> W -> Prop) : p ∈ outputs ->
  (forall b w', since w w' ->
     (b = false -> exists c, refused w c /\ ((exists d m, c = ModeFd d p m) \/ exists d u g, c = OwnerFd d p u g)) -> Q b w') ->
  wlp (set_permissions_and_ownership fd public uid p sec) Q w.
Proof.
  intros Hp H. assert (Ht : [p] ⊆ outputs) by (by intros q ->%list_elem_of_singleton).
  unfold set_permissions_and_ownership. apply wlp_bind, wlp_does; [done|done|]. intros m w1 E1 H1.
  destruct (Z.ltb_spec m 0) as [Hm|Hm].
  { apply wlp_ret, H; [done|]. intros _. eexists. split; [exists w; split; [apply since_refl|by rewrite E1]|]. left. by eexists _, _. }
  apply wlp_bind, wlp_does; [done|done|]. intros o w2 E2 H2. apply wlp_ret, H; [by eapply since_trans|].
  destruct (Z.ltb_spec o 0) as [Ho|Ho]; [|done]. intros _. eexists.
  split; [exists w1; split; [done|by rewrite E2]|]. right. by eexists _, _, _.
Qed.

(** A file that was opened on the way is closed and removed again. *)
Lemma wlp_undoes fd p w0 w (Q : wrapper -> W -> Prop) : p ∈ outputs -> since w0 w -> fd ∉ open_fds w0 ->
  (forall f w', value_ f = -1 -> since w0 w' -> Q f w') -> wlp (reset G (new_file fd (UnlinkFile p)) (-1)) Q w.
Proof.
  intros Hp H0 Hn H. assert (Ht : [p] ⊆ outputs) by (by intros q ->%list_elem_of_singleton).
  unfold reset, release. cbn [new_file value_ cleanup_ do_cleanup_ auto_close_ andb run_cleanup].
  apply wlp_bind, wlp_bind. apply (wlp_mono _ (fun _ w1 => since w0 w1)).
  - destruct (0 <=? fd); [|by apply wlp_ret]. intros u w1. unfold close_fd. destruct (bool_decide _); [|done].
    unfold io_bind, do_call. pose proof (close_since fd w0 w H0 Hn) as Hs. destruct (w_call (CloseFd fd) w) as [r w2].
    by intros [= _ <-].
  - intros _ w1 H1. apply wlp_bind, wlp_does; [done|done|]. intros r w2 _ H2. apply wlp_ret, wlp_ret, H; [done|].
    by eapply since_trans.
Qed.

Lemma output_in x : path x ∈ outputs.
Proof. unfold outputs. destruct x; set_solver. Qed.

Lemma swap_in : path Oat ++ lit ".swap" ∈ outputs.
Proof. unfold outputs. set_solver. Qed.

(** ** The files one by one *)

Definition held_on (w : W) (x : artifact) (f : wrapper) : Prop :=
  f = new_file (value_ f) (UnlinkFile (path x)) /\ on w (value_ f) (path x) created.

Lemma wlp_opens_oat dir public w (Q : wrapper * str -> W -> Prop) :
  create_oat_out_path G (a_dex_path a) (a_instruction_set a) dir false = Some (Some (path Oat)) ->
  (forall f w', since w w' -> (0 <= value_ f -> held_on w' Oat f) -> Q (f, path Oat) w') ->
  wlp (open_oat_out_file G (a_dex_path a) dir public (a_uid a) (a_instruction_set a) false) Q w.
Proof.
  intros Hout H. unfold open_oat_out_file. apply wlp_bind, wlp_some. intros out Eo. rewrite Hout in Eo. injection Eo as <-.
  apply wlp_bind, wlp_opens_output; [apply output_in|]. intros fd w1 H1 T Hn. cbv zeta.
  destruct (Z.ltb_spec fd 0) as [Hfd|Hfd]; [apply wlp_ret, H; [done|cbn; lia]|].
  destruct T as [T|[-> _]]; [|done].
  apply wlp_bind, wlp_sets_permissions; [apply output_in|]. intros b w2 H2 _.
  assert (H12 : since w w2) by by eapply since_trans.
  destruct b.
  - apply wlp_ret, H; [done|]. intros _. split; [done|]. exact (on_since w1 w2 _ _ _ H2 T).
  - apply wlp_bind, (wlp_undoes fd _ w); [apply output_in|done|by apply Hn|]. intros f w3 Hf H3.
    apply wlp_ret, H; [done|]. rewrite Hf. lia.
Qed.

Lemma reset_none v w (Q : wrapper -> W -> Prop) : Q (Dex2oatFileWrapper v None true true) w -> wlp (reset G no_file v) Q w.
Proof. intros H. by apply wlp_bind, wlp_bind, wlp_ret, wlp_ret, wlp_ret. Qed.

Lemma reset_new v c w (Q : wrapper -> W -> Prop) : Q (new_file v c) w -> wlp (reset_with G no_file v c) Q w.
Proof. intros H. by apply wlp_bind, wlp_bind, wlp_ret, wlp_ret, wlp_ret. Qed.

Definition updates_in_place (source : str) : bool :=
  (source =s? path Vdex) && (Z.abs dexopt_needed =? DEX2OAT_FOR_BOOT_IMAGE) && negb (flag DEXOPT_PROFILE_GUIDED).

(** The input vdex, and whether it is to be the output. *)
Definition vdex_input (w w1 : W) (in_place : bool) (f : wrapper) : Prop :=
  f = Dex2oatFileWrapper (value_ f) None true true /\
  if Z.abs dexopt_needed =? DEX2OAT_FROM_SCRATCH then value_ f = -1 /\ in_place = false
  else exists source, vdex_source = Some source /\
    tried w w1 source (if updates_in_place source then O_RDWR else O_RDONLY) 0 (value_ f) /\
    in_place = updates_in_place source && negb (value_ f =? -1).

Lemma wlp_opens_input w (Q : bool * bool * wrapper -> W -> Prop) :
  (forall found in_place f w', since w w' -> (found = true -> vdex_input w w' in_place f) -> Q (found, in_place, f) w') ->
  wlp (if Z.abs dexopt_needed =? DEX2OAT_FROM_SCRATCH then mret (true, false, no_file)
       else
         p ← in_vdex_path (a_dex_path a) (path Oat) (dexopt_needed <? 0) (a_instruction_set a);
         match p with
         | None => mret (false, false, no_file)
         | Some source =>
             '(in_place, f) ← open_in_vdex G source (path Vdex) (Z.abs dexopt_needed) (flag DEXOPT_PROFILE_GUIDED) no_file;
             mret (true, in_place, f)
         end) Q w.
Proof.
  intros H. destruct (Z.abs dexopt_needed =? DEX2OAT_FROM_SCRATCH) eqn:Es.
  { apply wlp_ret, H; [apply since_refl|]. intros _. split; [done|]. by rewrite Es. }
  apply wlp_bind. apply (wlp_mono _ (fun p w1 => w1 = w /\ forall source, p = Some source -> vdex_source = Some source)).
  { unfold in_vdex_path, vdex_source. destruct (dexopt_needed <? 0).
    - destruct (calculate_odex_file_path _ _) as [odex|]; [|by apply wlp_ret]. apply wlp_bind, wlp_some. intros v Hv.
      apply wlp_ret. split; [done|]. intros source. by destruct (bool_decide _); [|intros [= <-]].
    - apply wlp_bind, wlp_some. rewrite (path_vdex _ _ _ _ Hok). intros v [= <-].
      apply wlp_ret. split; [done|]. intros source. by destruct (bool_decide _); [|intros [= <-]]. }
  intros [source|] w1 [-> Hsource]; [|apply wlp_ret, H; [apply since_refl|done]].
  assert (Hv : forall in_place fd w', tried w w' source (if updates_in_place source then O_RDWR else O_RDONLY) 0 fd ->
            in_place = updates_in_place source && negb (fd =? -1) ->
            vdex_input w w' in_place (Dex2oatFileWrapper fd None true true)).
  { intros in_place fd w' T E. split; [done|]. rewrite Es. exists source. by split; [apply Hsource|]. }
  apply wlp_bind. unfold open_in_vdex. cbv zeta. fold (updates_in_place source). destruct (updates_in_place source);
    (apply wlp_bind, wlp_opens_existing; [done|]); intros fd w2 H2 T; apply wlp_bind, reset_none, wlp_ret, wlp_ret, H; auto.
Qed.

(** The files of a compilation that got them. *)
Definition vdex_opened (w w' : W) (r : bool * wrapper * wrapper) : Prop :=
  let '(opened, f, g) := r in
  opened = true ->
    cleanup_ f = None /\ g = new_file (value_ g) (UnlinkFile (path Vdex)) /\ 0 <= value_ g /\
    vdex_files w w' (value_ f) (value_ g).

Lemma vdex_files_since w w1 w2 w3 input output :
  since w w1 -> since w2 w3 -> vdex_files w1 w2 input output -> vdex_files w w3 input output.
Proof.
  intros H1 H2. unfold vdex_files. destruct (_ =? DEX2OAT_FROM_SCRATCH); [intros [-> H]; split; [done|by eapply on_since]|].
  intros (source & Hs & T & Ho). exists source. split; [done|]. cbv zeta. split; [by eapply tried_since|].
  destruct (_ && negb (input =? -1)); [done|by eapply on_since].
Qed.

Lemma updates_input w w1 f : vdex_input w w1 true f -> 0 <= value_ f /\ vdex_files w w1 (value_ f) (value_ f).
Proof.
  intros [_ H]. unfold vdex_files. destruct (_ =? DEX2OAT_FROM_SCRATCH); [by destruct H|].
  destruct H as (source & Hs & T & E). symmetry in E. pose proof (proj2 (proj1 (andb_true_iff _ _) E)) as Hv.
  split; [destruct T as [[H0 _]|[Hn _]]; [done|by rewrite Hn in Hv]|].
  exists source. split; [done|]. cbv zeta. fold (updates_in_place source). split; [done|]. by rewrite E.
Qed.

Lemma makes_output w w1 w2 f fd : vdex_input w w1 false f -> since w1 w2 -> on w2 fd (path Vdex) created ->
  vdex_files w w2 (value_ f) fd.
Proof.
  intros [_ H] H2 Hon. unfold vdex_files. destruct (_ =? DEX2OAT_FROM_SCRATCH); [by destruct H|].
  destruct H as (source & Hs & T & E). exists source. split; [done|]. cbv zeta. fold (updates_in_place source).
  split; [exact (tried_since w w w1 w2 _ _ _ _ (since_refl w) H2 T)|]. by rewrite <- E.
Qed.

Lemma wlp_opens_vdex public w (Q : bool * wrapper * wrapper -> W -> Prop) :
  (forall r w', since w w' -> vdex_opened w w' r -> Q r w') ->
  wlp (open_vdex_files_for_dex2oat G (a_dex_path a) (path Oat) dexopt_needed (a_instruction_set a) public (a_uid a) false
         (flag DEXOPT_PROFILE_GUIDED) no_file no_file) Q w.
Proof.
  intros H. unfold open_vdex_files_for_dex2oat. cbv zeta. apply wlp_bind, wlp_some. intros v Ev.
  rewrite (path_vdex _ _ _ _ Hok) in Ev. injection Ev as <-. rewrite bool_decide_false by by apply (path_some _ _ _ _ Hok).
  apply wlp_bind, wlp_opens_input. intros found in_place f w1 H1 Hf. destruct found; cbn [negb]; [|by apply wlp_ret, H].
  specialize (Hf eq_refl). pose proof (proj1 Hf) as Ef.
  assert (Hend : forall opened f' g w2, since w w2 -> vdex_opened w w2 (true, f', g) -> wlp (
            if negb opened then mret (false, f', g)
            else owned ← set_permissions_and_ownership (value_ g) public (a_uid a) (path Vdex) false; mret (owned, f', g)) Q w2).
  { intros opened f' g w2 H2 Hv. destruct opened; cbn [negb]; [|by apply wlp_ret, H].
    apply wlp_bind, wlp_sets_permissions; [apply output_in|]. intros owned w3 H3 _. apply wlp_ret, H; [by eapply since_trans|].
    intros _. destruct (Hv eq_refl) as (Hc & Hg & H0 & Hfiles). split_and!; [done..|]. exact (vdex_files_since w w w2 w3 _ _ (since_refl w) H3 Hfiles). }
  apply wlp_bind. apply (wlp_mono _ (fun r w2 => since w w2 /\ (fst (fst r) = true -> vdex_opened w w2 (true, snd (fst r), snd r)))).
  2: { intros [[opened f'] g] w2 [H2 Hv]. destruct opened; cbn [negb]; [|by apply wlp_ret, H].
       apply (Hend true); [done|by apply Hv]. }
  destruct in_place.
  - apply wlp_bind, reset_new, wlp_ret. split; [done|]. intros _ _. cbn [fst snd value_ new_file cleanup_ DisableAutoClose].
    destruct (updates_input w w1 f Hf) as [H0 Hv]. rewrite Ef. by split_and!.
  - apply wlp_bind, wlp_opens_output; [apply output_in|]. intros fd w2 H2 T _. apply wlp_bind, reset_new, wlp_ret.
    split; [by eapply since_trans|]. cbn [fst snd value_ new_file cleanup_]. intros Hopen%negb_true_iff%Z.ltb_ge _.
    destruct T as [T|[-> _]]; [|done]. split_and!; [by rewrite Ef|done..|]. by apply (makes_output w w1).
Qed.

Lemma wlp_opens_swap w (Q : Z -> W -> Prop) :
  (forall fd w', since w w' -> swap_file w w' fd -> Q fd w') -> wlp (maybe_open_dexopt_swap_file env (path Oat)) Q w.
Proof.
  intros H. unfold maybe_open_dexopt_swap_file, swap_file in *. destruct (ShouldUseSwapFileForDexopt env); cbn [negb].
  2: { apply wlp_ret, H; [apply since_refl|done]. }
  cbv zeta. apply wlp_bind, wlp_opens_output; [apply swap_in|]. intros fd w1 H1 T _.
  destruct (fd <? 0); [by apply wlp_ret, H|]. apply wlp_bind, wlp_does; [done| |].
  { intros q ->%list_elem_of_singleton. apply swap_in. }
  intros r w2 _ H2. apply wlp_ret, H; [by eapply since_trans|]. exact (tried_since w w w1 w2 _ _ _ fd (since_refl w) H2 T).
Qed.

(** The wrapper of the image: without a descriptor there is nothing to write. *)
Lemma wlp_opens_image public w (Q : wrapper -> W -> Prop) :
  (forall f w', since w w' -> image_file w w' (value_ f) ->
     (0 <= value_ f -> f = new_file (value_ f) (UnlinkFile (path Image))) -> Q f w') ->
  wlp (maybe_open_app_image G env (path Oat) (flag DEXOPT_GENERATE_APP_IMAGE) public (a_uid a) false) Q w.
Proof.
  intros H. unfold maybe_open_app_image, image_file in *. apply wlp_bind, wlp_some. intros v Ev.
  rewrite (path_image _ _ _ _ Hok) in Ev. injection Ev as <-. rewrite bool_decide_false by by apply (path_some _ _ _ _ Hok).
  assert (Ht : [path Image] ⊆ outputs) by (intros q ->%list_elem_of_singleton; apply output_in).
  apply wlp_bind, wlp_does; [done|done|]. intros r w1 _ H1.
  destruct (flag DEXOPT_GENERATE_APP_IMAGE); cbn [negb andb] in *; [|by apply wlp_ret, H].
  destruct (bool_decide (prop env _ = [])); cbn [negb] in *; [by apply wlp_ret, H|].
  apply wlp_bind, wlp_opens_output; [apply output_in|]. intros fd w2 H2 T Hn. assert (H12 : since w w2) by by eapply since_trans.
  cbv zeta. destruct (Z.ltb_spec fd 0) as [Hfd|Hfd].
  - apply wlp_bind, wlp_does; [done|done|]. intros r2 w3 _ H3. apply wlp_ret, H; [by eapply since_trans| |cbn; lia].
    destruct T as [[T _]|[-> Hr]]; [lia|]. right. split; [done|]. eexists.
    split; [exact (refused_since w w1 _ H1 Hr)|by left].
  - destruct T as [T|[-> _]]; [|done]. apply wlp_bind, wlp_sets_permissions; [apply output_in|]. intros owned w3 H3 Hr.
    destruct owned.
    + apply wlp_ret, H; [by eapply since_trans| |done]. left. exact (on_since w2 w3 _ _ _ H3 T).
    + apply (wlp_undoes fd _ w); [apply output_in|by eapply since_trans| |].
      { intros Hi. by apply (Hn Hfd), H1. }
      intros f w4 Hf H4. apply H; [done| |lia]. rewrite Hf. right. split; [done|].
      destruct (Hr eq_refl) as (c & Hc & Hcase). exists c. split; [exact (refused_since w w2 c H12 Hc)|by right].
Qed.

Lemma wlp_opens_profile public w (Q : wrapper -> W -> Prop) :
  (forall f w', since w w' -> profile_file w w' (value_ f) -> Q f w') ->
  wlp (maybe_open_reference_profile G (a_pkgname a) (a_dex_path a) (a_profile_name a) (flag DEXOPT_PROFILE_GUIDED)
         public (a_uid a) false) Q w.
Proof.
  intros H. unfold maybe_open_reference_profile, profile_file in *. destruct (flag DEXOPT_PROFILE_GUIDED); cbn [negb orb andb] in *.
  2: { apply wlp_ret, H; [apply since_refl|done]. }
  destruct (prefixb _ _); cbn [negb] in *; [apply wlp_ret, H; [apply since_refl|done]|].
  destruct (a_profile_name a) as [location|] in H |- *; [|apply wlp_ret, H; [apply since_refl|done]].
  apply wlp_bind. unfold open_reference_profile, reference_path. apply wlp_bind, wlp_some. intros p Hp.
  apply (wlp_opens_existing p (Z.lor O_RDONLY O_NOFOLLOW)); [done|]. intros fd w1 H1 T. apply wlp_ret, H; [done|].
  by exists p.
Qed.

Lemma wlp_opens_metadata w (Q : Z -> W -> Prop) :
  (forall fd w', since w w' -> metadata_file w w' fd -> Q fd w') ->
  wlp (match a_dex_metadata_path a with
       | Some p => open_existing p (Z.lor O_RDONLY O_NOFOLLOW)
       | None => mret (-1)
       end) Q w.
Proof.
  intros H. unfold metadata_file in H. destruct (a_dex_metadata_path a) as [p|]; [|apply wlp_ret, H; [apply since_refl|done]].
  by apply wlp_opens_existing.
Qed.

(** What was found holds for a run that has begun before and goes on. *)
Lemma image_file_since w w1 w2 w3 fd : since w w1 -> since w2 w3 -> image_file w1 w2 fd -> image_file w w3 fd.
Proof.
  intros H1 H2. unfold image_file. destruct (_ && _); [|done]. intros [H|(-> & c & Hr & Hc)]; [left; by eapply on_since|].
  right. split; [done|]. exists c. split; [by eapply refused_since|done].
Qed.

Lemma swap_file_since w w1 w2 w3 fd : since w w1 -> since w2 w3 -> swap_file w1 w2 fd -> swap_file w w3 fd.
Proof. intros H1 H2. unfold swap_file. destruct (ShouldUseSwapFileForDexopt env); [by apply tried_since|done]. Qed.

Lemma profile_file_since w w1 w2 w3 fd : since w w1 -> since w2 w3 -> profile_file w1 w2 fd -> profile_file w w3 fd.
Proof.
  intros H1 H2. unfold profile_file. destruct (if _ && _ then _ else _); [|done].
  intros (p & Hp & T). exists p. split; [done|by eapply tried_since].
Qed.

Lemma metadata_file_since w w1 w2 w3 fd : since w w1 -> since w2 w3 -> metadata_file w1 w2 fd -> metadata_file w w3 fd.
Proof. intros H1 H2. unfold metadata_file. destruct (a_dex_metadata_path a); [by apply tried_since|done]. Qed.

Hint Resolve since_refl : core.
Hint Extern 2 (since _ _) => eapply since_trans; [eassumption|] : core.

(** ** The run *)

Lemma exits_with w code : exit_status w code = 0 -> code mod 256 = 0.
Proof. intros E. pose proof (exit_code w code) as H. rewrite E in H. symmetry. by apply H. Qed.

(** A child that answers 0 is the compiler. *)
Lemma compiler_answers argv uid boot fd out writes w0 w' :
  run_compiler argv uid boot fd out writes w0 = Some (0, w') ->
  exists w1 w2,
    w_call (LockFd fd out (Z.lor LOCK_EX LOCK_NB)) w0 = (0, w1) /\ w_call (Child argv uid writes) w1 = (0, w2) /\
    forall q, view w' q = view w2 q.
Proof.
  unfold run_compiler, in_child, in_child_with, dropped, io_bind, ask, do_exit, do_call.
  destruct (drop_failure w0 uid) as [c|] eqn:Ed.
  { intros [= E%exits_with _]. by apply drop_code in Ed. }
  destruct (if boot then schedule_failure w0 else None) as [c|] eqn:Es.
  { intros [= E%exits_with _]. destruct boot; [|done]. apply schedule_code in Es.
    apply elem_of_cons in Es as [-> | ->%list_elem_of_singleton]; by vm_compute in E. }
  destruct (w_call (LockFd _ _ _) w0) as [locked w1] eqn:El. destruct (nz locked) eqn:Enz.
  { intros [= E%exits_with _]. by vm_compute in E. }
  apply negb_false_iff, Z.eqb_eq in Enz. subst locked. destruct (w_call (Child _ _ _) w1) as [status w2] eqn:Ec.
  intros [= -> <-]. exists w1, w2. split_and!; [done..|]. intros q. apply join_view.
Qed.

Lemma output_of x f : 0 <= value_ f -> f = new_file (value_ f) (UnlinkFile (path x)) -> output_file f = [path x].
Proof. intros H0 ->. unfold output_file. cbn. by rewrite (proj2 (Z.leb_le _ _) H0). Qed.

Lemma output_of_image f : (0 <= value_ f -> f = new_file (value_ f) (UnlinkFile (path Image))) ->
  output_file f = if value_ f <? 0 then [] else [path Image].
Proof.
  intros H. destruct (Z.ltb_spec (value_ f) 0) as [Hf|Hf]; [|by apply (output_of Image), H].
  unfold output_file. rewrite (proj2 (Z.leb_gt _ _) Hf). by destruct (cleanup_ f) as [[]|].
Qed.

Context (Hprim : has_bit (a_dexopt_flags a) DEXOPT_SECONDARY_DEX = false).

Definition body_compiled (w : W) (r : Z * list local) (w' : W) : Prop :=
  fst r = 0 -> Forall harmless (snd r) /\ compiled_for w w'.

Lemma wlp_compiles public dir w :
  create_oat_out_path G (a_dex_path a) (a_instruction_set a) dir false = Some (Some (path Oat)) ->
  wlp (dexopt_body G env a public dexopt_needed dir []) (body_compiled w) w.
Proof.
  intros Hout. assert (Hfail : forall ls w', body_compiled w (-1, ls) w') by (by intros ls w' H).
  unfold dexopt_body. cbv zeta. rewrite Hprim. fold (flag DEXOPT_PROFILE_GUIDED) (flag DEXOPT_GENERATE_APP_IMAGE).
  apply wlp_bind, wlp_opens_existing; [done|]. intros input w1 H1 Tz.
  destruct (Z.ltb_spec input 0) as [Hi|Hi]; [by apply wlp_ret|]. destruct Tz as [Tz|[-> _]]; [|done].
  cbn [open_dex_paths]. apply wlp_bind, wlp_ret. change (nz 0) with false. cbv iota beta.
  apply wlp_bind, wlp_opens_oat; [done|]. intros oat w2 H2 Ho. cbn [app].
  destruct (Z.ltb_spec (value_ oat) 0) as [Hv|Hv]; [by apply wlp_ret|]. destruct (Ho Hv) as [Eo To].
  apply wlp_bind, wlp_opens_vdex. intros [[opened f] g] w3 H3 Hg. destruct opened; cbn [negb]; [|by apply wlp_ret].
  destruct (Hg eq_refl) as (Ef & Eg & Hg0 & Hvdex). apply wlp_bind, wlp_ret. change (nz 0) with false. cbv iota beta.
  apply wlp_bind, wlp_opens_swap. intros swap w4 H4 Tswap. apply wlp_bind, wlp_opens_image. intros image w5 H5 Timage Ei.
  apply wlp_bind, wlp_opens_profile. intros reference w6 H6 Tprofile.
  apply wlp_bind, wlp_opens_metadata. intros metadata w7 H7 Tmeta. apply wlp_bind, wlp_some. intros argv Hargv.
  apply wlp_bind. intros status w8 Hrun. destruct (nz status) eqn:Est; cbv zeta.
  { apply wlp_ret. intros E. cbn [fst] in E. by rewrite E in Est. }
  apply negb_false_iff, Z.eqb_eq in Est. subst status. apply wlp_bind, wlp_times. intros w9 H9. apply wlp_ret. intros _. split.
  { repeat (apply Forall_cons; split; [first [done|by right|by left]|]). apply Forall_nil_2. }
  rewrite (output_of Oat oat Hv Eo), (output_of Vdex g Hg0 Eg) in Hrun. destruct (compiler_answers _ _ _ _ _ _ _ _ Hrun) as (wl & wc & Hlock & Hchild & Hview).
  eexists _, argv, w7, wl, wc. split; [eauto 12|]. split; [|split_and!; [exact Hargv|exact Hlock| |intros q; by rewrite H9]].
  2: { cbn [image_fd]. rewrite <- Hchild. rewrite output_of_image; done. }
  split; cbn [zip_fd oat_fd input_vdex_fd output_vdex_fd image_fd swap_fd profile_fd dex_metadata_fd];
    [eapply on_since, Tz|eapply on_since, To|eapply vdex_files_since, Hvdex|eapply image_file_since, Timage
    |eapply swap_file_since, Tswap|eapply profile_file_since, Tprofile|eapply metadata_file_since, Tmeta|done..]; eauto 12.
Qed.

Lemma wlp_run_compiles public dir w :
  create_oat_out_path G (a_dex_path a) (a_instruction_set a) dir false = Some (Some (path Oat)) ->
  wlp (run_body G env a public dexopt_needed dir []) (fun r w' => r = 0 -> compiled_for w w') w.
Proof.
  intros Hout. unfold run_body. apply wlp_bind. eapply wlp_mono; [by apply wlp_compiles|]. intros [r ls] w1 Hc.
  unfold leave. apply wlp_bind. destruct (decide (r = 0)) as [->|Hr]; [|by intros u w2 _; apply wlp_ret].
  destruct (Hc eq_refl) as [Hh (i & argv & w2 & w3 & w4 & Hs & Hf & Ha & Hl & Hchild & Hv)].
  eapply wlp_mono; [apply wlp_destroy_harmless; by rewrite <- (Permutation_rev ls)|]. intros u w5 H5. apply wlp_ret.
  intros _. exists i, argv, w2, w3, w4. split_and!; [done..|]. intros q. by rewrite H5.
Qed.

End Files.

Lemma wlp_dexopt_compiles {W : Type} {world : World W} {proc : Process W} {reads : DexReads W} {files : FdFiles W}
    {Node : Type} (view : W -> str -> option Node) (is_dir : Node -> bool) {ok : WorldOk world view is_dir}
    {pok : ProcessOk world proc view} {fok : FileOps world view is_dir} {ffok : FdFilesOk world proc files}
    {eok : ExitOk proc} {sok : ScheduleOk reads} {aid : AidRanges} {mu : Multiuser} {paths : OatPaths}
    (debuggable : bool) (G : globals) (env : DexEnv) (path : artifact -> str) (a : dexopt_args) (w : W) :
  has_bit (a_dexopt_flags a) DEXOPT_SECONDARY_DEX = false -> outputs_ok G path (a_pkgname a) (a_profile_name a) ->
  create_oat_out_path G (a_dex_path a) (a_instruction_set a) (a_oat_dir a) false = Some (Some (path Oat)) ->
  wlp (dexopt debuggable G env a)
    (fun r w' => r = 0 -> compiled_for (view := view) G env path a (a_dexopt_needed a) w w') w.
Proof.
  intros Hprim Hok Hout. unfold dexopt. cbv zeta. rewrite Hprim. do 2 (apply wlp_bind, wlp_some; intros _ _).
  destruct (negb _); [by apply wlp_ret|].
  destruct (match a_class_loader_context a with Some _ => _ | None => _ end); [by apply wlp_ret|].
  do 2 (apply wlp_bind, wlp_some; intros _ _). by apply (wlp_run_compiles (is_dir := is_dir)).
Qed.

(** * Properties *)

(** C6: the artifacts of an apk are never half of one compilation. If the
    answer is 0, the compiler was run for this request: on the apk, with the
    oat file, the vdex, the image, the swap file, the profile and the metadata
    of the request behind the descriptors that its command line names (each of
    the optional ones missing only where it is not wanted or could not be
    opened), as the user of the request; it answered 0, and every file is as it
    has left it. If the compiler fails, the oat file, the vdex and the image
    are all gone; if it is not reached, each is gone or as it was. *)
Theorem dexopt_artifacts {W : Type} {world : World W} {proc : Process W} {reads : DexReads W} {files : FdFiles W}
    {Node : Type} (view : W -> str -> option Node) (is_dir : Node -> bool) {ok : WorldOk world view is_dir}
    {pok : ProcessOk world proc view} {fok : FileOps world view is_dir} {ffok : FdFilesOk world proc files}
    {eok : ExitOk proc} {sok : ScheduleOk reads} {aid : AidRanges} {mu : Multiuser} {paths : OatPaths}
    (debuggable : bool) (G : globals) (env : DexEnv) (path : artifact -> str) (a : dexopt_args) (w : W) :
  request_ok debuggable G a -> has_bit (a_dexopt_flags a) DEXOPT_SECONDARY_DEX = false ->
  outputs_ok G path (a_pkgname a) (a_profile_name a) ->
  create_oat_out_path G (a_dex_path a) (a_instruction_set a) (a_oat_dir a) false = Some (Some (path Oat)) ->
  exists r w',
    dexopt debuggable G env a w = Some (r, w') /\
    (r <> 0 -> forall x, gone (view := view) (is_dir := is_dir) (path x) w' \/ view w' (path x) = view w (path x)) /\
    (r <> 0 -> r <> -1 -> forall x, gone (view := view) (is_dir := is_dir) (path x) w') /\
    (r = 0 -> compiled_for (view := view) G env path a (a_dexopt_needed a) w w').
Proof.
  intros Hreq Hprim Hok Hout.
  destruct (moves_whole _ _ (moves_dexopt view is_dir debuggable G env a Hreq) w) as (r & w' & Hr & _ & _).
  exists r, w'. split; [done|].
  destruct (wlp_dexopt debuggable G env path _ _ Hok a eq_refl eq_refl Hprim w Hout r w' Hr) as (H1 & H2 & _).
  split_and!; [done..|]. by apply (wlp_dexopt_compiles view is_dir debuggable G env path a w Hprim Hok Hout).
Qed.

(** ** Runs *)

#[export] Instance proc_schedule : ScheduleOk proc_reads.
Proof. by intros s c. Qed.

Definition traced_start : traced (W := pstate) := (dexopt_state, ∅).

Definition traced_run (status : Z) : option (Z * traced) :=
  dexopt (world := traced_world (world := proc_fs status)) (proc := traced_proc (proc := proc_table))
    (reads := traced_reads (reads := proc_reads)) (aid := aid_android) (mu := mu_android)
    (paths := installd_paths dex_globals) false dex_globals image_env demo_args traced_start.

(** The run returns with everything closed and the three artifacts written. *)
Lemma traced_example :
  (fun x => (fst x, map_to_list (snd (snd x)),
             map (fun y => n_data <$> p_fs (fst (snd x)) (ab_base ++ extension y)) [Oat; Vdex; Image])) <$> traced_run 0 =
  Some (0, [], [Some tool_output; Some tool_output; Some tool_output]).
Proof. vm_compute. reflexivity. Qed.

Lemma dexopt_artifacts_witness :
  exists r w',
    traced_run 0 = Some (r, w') /\
    (r <> 0 -> forall x, gone (view := traced_view (view := proc_view)) (is_dir := n_dir) (ab_base ++ extension x) w' \/
                         traced_view (view := proc_view) w' (ab_base ++ extension x) =
                         traced_view (view := proc_view) traced_start (ab_base ++ extension x)) /\
    (r <> 0 -> r <> -1 -> forall x, gone (view := traced_view (view := proc_view)) (is_dir := n_dir) (ab_base ++ extension x) w') /\
    (r = 0 -> compiled_for (world := traced_world (world := proc_fs 0)) (proc := traced_proc (proc := proc_table))
                (files := traced_files) (paths := installd_paths dex_globals) (view := traced_view (view := proc_view)) dex_globals image_env
                (fun x => ab_base ++ extension x) demo_args DEX2OAT_FROM_SCRATCH traced_start w').
Proof.
  apply (dexopt_artifacts (world := traced_world (world := proc_fs 0)) (proc := traced_proc (proc := proc_table))
           (reads := traced_reads (reads := proc_reads)) (files := traced_files) (aid := aid_android) (mu := mu_android)
           (paths := installd_paths dex_globals) (traced_view (view := proc_view)) n_dir false dex_globals image_env
           (fun x => ab_base ++ extension x) demo_args traced_start); [apply demo_request|done|apply demo_outputs|by vm_compute].
Defined.
