(* ===== verification/CodeFiles.v ===== *)
(** The handlers of [InstalldNativeService.cpp] that look after the code of
    applications: the oat directories, links to installed files, native
    libraries, the maps of resource overlays and the hash trees of [fsverity].

    [CodeReads] are the questions that only these handlers ask. *)

From S2P Require Import Prelude Platform Fts InstalldPaths InstalldFs FreeCache World SimpleFs AppPaths AppData.
From S2P Require Import OtaParameters DexPaths Dex2oat Descriptors ProcFs Profiles Artifacts SecondaryDex.

Open Scope Z_scope.
Open Scope io_scope.

Class CodeReads (W : Type) := {
  setids_fail : W -> Z -> bool;           (* setgid(uid) or setuid(uid) *)
  verity_mode : W -> bool;                (* ro.apk_verity.mode *)
  page_size_ok : W -> bool;               (* NDEBUG, or getpagesize() is kVerityPageSize *)
  ashmem_valid : W -> Z -> bool;
  ashmem_size : W -> Z -> Z;              (* ashmem_get_size_region *)
  ashmem_bytes : W -> Z -> str;           (* what is mapped *)
  mapped : W -> Z -> Z -> bool;           (* mmap of so many bytes *)
  seekable : W -> Z -> Z -> bool;
}.

Definition PKG_LIB_POSTFIX : str := lit "/lib".
Definition kIdMapPath : str := lit "/system/bin/idmap".
Definition IDMAP_PREFIX : str := lit "/data/resource-cache/".
Definition IDMAP_SUFFIX : str := lit "@idmap".
Definition PATH_MAX : nat := 4096.
Definition kVerityPageSize : Z := 4096.
Definition kSha256Size : nat := 32.
Definition AID_INSTALL : Z := 1012.

(** * Names *)

(** What becomes of a character of an overlay path. *)
Definition idmap_char (c : ascii) : ascii := if Ascii.eqb c slash then "@"%char else c.

(** The contents of the buffer of [N] bytes; [None]: the result is [-1]. *)
Definition flatten_path (prefix suffix overlay_path : str) (N : nat) : option str :=
  match overlay_path with
  | c :: rest =>
      if (length overlay_path <? 2)%nat || negb (Ascii.eqb c slash) then None
      else if (N <? length prefix + length overlay_path + length suffix)%nat then None
      else
        let buffer := take (N - 1) (prefix ++ rest ++ suffix) in
        Some (take (length prefix) buffer ++ map idmap_char (drop (length prefix) buffer))
  | [] => None
  end.

(** The bytes from the end of a file to the next page. *)
Definition verity_padding (size : Z) : Z :=
  let padding := kVerityPageSize - Z.rem size kVerityPageSize in
  if padding =? kVerityPageSize then 0 else padding.

Section CodeFiles.
Context {W : Type} {world : World W} {proc : Process W} {code : CodeReads W} {paths : OatPaths}.
Context {aid : AidRanges}.
Context (debuggable : bool) (G : globals).

Definition succeeded (r : Z) : reply := if nz r then Error else Ok.

(** * Compiled code *)

Definition rmdex (calling_uid : Z) (codePath instructionSet : str) : io W reply :=
  enforce [checkUid calling_uid AID_SYSTEM; checkArgumentPath codePath] (
    apk ← abort_if_none (validate_apk_path G codePath);
    if nz apk && nz (validate_system_app_path G codePath) then mret Error
    else
      match create_cache_path codePath instructionSet with
      | None => mret Error
      | Some dex_path =>
          r ← do_call (RemoveFile dex_path);
          mret (if nz r && negb (r =? ENOENT) then Error else Ok)
      end).

(** [sprintf] does not look at the size of the buffer. *)
Definition markBootComplete (calling_uid : Z) (instructionSet : str) : io W reply :=
  enforce [checkUid calling_uid AID_SYSTEM] (
    let marker := android_data_dir G ++ lit "/" ++ DALVIK_CACHE ++ lit "/" ++ instructionSet ++ lit "/.booting" in
    boot_marker_path ← abort_if_none (if (length marker <? PKG_PATH_MAX)%nat then Some marker else None);
    r ← do_call (RemoveFile boot_marker_path);
    mret (succeeded r)).

Definition createOatDir (calling_uid : Z) (oatDir instructionSet : str) : io W reply :=
  enforce [checkUid calling_uid AID_SYSTEM; checkArgumentPath oatDir] (
    valid ← abort_if_none (validate_apk_path G oatDir);
    if nz valid then mret Error
    else
      failed ← any_fails [
        do_call (PrepareDir oatDir 505 AID_SYSTEM AID_INSTALL);
        do_call (Restorecon oatDir false);
        do_call (PrepareDir (path_buffer (oatDir ++ lit "/" ++ instructionSet)) 505 AID_SYSTEM AID_INSTALL)];
      mret (if failed then Error else Ok)).

Definition rm_package_dir (package_dir : str) : io W Z := do_call (DeleteDir package_dir true false).

Definition rmPackageDir (calling_uid : Z) (packageDir : str) : io W reply :=
  enforce [checkUid calling_uid AID_SYSTEM; checkArgumentPath packageDir] (
    valid ← abort_if_none (validate_apk_path G packageDir);
    if nz valid then mret Error
    else (r ← rm_package_dir packageDir; mret (succeeded r))).

Definition linkFile (calling_uid : Z) (relativePath fromBase toBase : str) : io W reply :=
  enforce [checkUid calling_uid AID_SYSTEM; checkArgumentPath fromBase; checkArgumentPath toBase] (
    let from_path := path_buffer (fromBase ++ lit "/" ++ relativePath) in
    let to_path := path_buffer (toBase ++ lit "/" ++ relativePath) in
    from_valid ← abort_if_none (validate_apk_path_subdirs G from_path);
    if nz from_valid then mret Error
    else
      to_valid ← abort_if_none (validate_apk_path_subdirs G to_path);
      if nz to_valid then mret Error
      else (r ← do_call (HardLink from_path to_path); mret (succeeded r))).

(** * Native libraries *)

(** Up to the label [out]. *)
Definition link_library (pkgdir libsymlink asecLibDir con : str) : io W reply :=
  o ← do_call (SetOwner pkgdir AID_INSTALL AID_INSTALL);
  if nz o then mret Error
  else
    m ← do_call (SetMode pkgdir 448);
    if nz m then mret Error
    else
      libStat ← ask (fun w => w_lstat w libsymlink);
      cleared ← (match libStat with
                 | inr e => mret (e =? ENOENT)
                 | inl st =>
                     match st_type st with
                     | S_IFDIR => r ← do_call (DeleteDir libsymlink true false); mret (negb (nz r))
                     | S_IFLNK => r ← do_call (RemoveFile libsymlink); mret (negb (nz r))
                     | _ => mret true
                     end
                 end);
      if negb cleared then mret Error
      else
        l ← do_call (SymLink asecLibDir libsymlink);
        if nz l then mret Error
        else (c ← do_call (SetLabel libsymlink con); mret (succeeded c)).

(** The owner and the mode of the directory of the package are put back
    whatever happened. *)
Definition linkNativeLibraryDirectory (calling_uid : Z) (uuid : option str) (packageName nativeLibPath32 : str)
    (userId : Z) : io W reply :=
  enforce [checkUid calling_uid AID_SYSTEM; checkArgumentUuid uuid; checkArgumentPackageName packageName;
           checkArgumentPath nativeLibPath32] (
    pkgdir ← ce_package_path debuggable uuid (userid userId) packageName;
    let libsymlink := pkgdir ++ PKG_LIB_POSTFIX in
    s ← ask (fun w => w_stat w pkgdir);
    match s with
    | inr _ => mret Error
    | inl s =>
        con ← ask (fun w => w_label w pkgdir);
        match con with
        | None => mret Error
        | Some con =>
            res ← link_library pkgdir libsymlink nativeLibPath32 con;
            m ← do_call (SetMode pkgdir (st_perm s));
            let res := or_error m res in
            o ← do_call (SetOwner pkgdir (st_uid s) (st_gid s));
            mret (or_error o res)
        end
    end).

(** * Resource overlays *)

(** The child that verifies or writes an idmap. *)
Definition idmap_child (mode target_apk overlay_apk idmap_path : str) (idmap_fd uid : Z) : io W Z :=
  failed ← ask (fun w => setids_fail w uid);
  if failed then do_exit 1
  else
    locked ← do_call (LockFd idmap_fd idmap_path (Z.lor LOCK_EX LOCK_NB));
    if nz locked then do_exit 1
    else do_call (Child [kIdMapPath; mode; target_apk; overlay_apk; fmt_d idmap_fd] uid [idmap_path]).

Definition run_idmap : str := lit "--fd".
Definition run_verify_idmap : str := lit "--verify".

Definition delete_stale_idmap (target_apk overlay_apk idmap_path : str) (uid : Z) : io W bool :=
  idmap_fd ← open_file idmap_path O_RDWR 0;
  if idmap_fd <? 0 then (_ ← do_call (RemoveFile idmap_path); mret true)
  else
    status ← in_child (idmap_child run_verify_idmap target_apk overlay_apk idmap_path idmap_fd uid);
    _ ← close_fd idmap_fd;
    if nz status then (_ ← do_call (RemoveFile idmap_path); mret true) else mret false.

(** The label [fail] with an open descriptor. *)
Definition idmap_fail (idmap_fd : Z) (idmap_path : str) : io W reply :=
  _ ← close_fd idmap_fd; _ ← do_call (RemoveFile idmap_path); mret Error.

(** With the descriptor open. *)
Definition idmap_opened (target_apk overlay_apk idmap_path : str) (uid idmap_fd : Z) (outdated : bool) : io W reply :=
  o ← do_call (OwnerFd idmap_fd idmap_path AID_SYSTEM uid);
  if o <? 0 then idmap_fail idmap_fd idmap_path
  else
    m ← do_call (ModeFd idmap_fd idmap_path 420);
    if m <? 0 then idmap_fail idmap_fd idmap_path
    else if negb outdated then (_ ← close_fd idmap_fd; mret Ok)
    else
      status ← in_child (idmap_child run_idmap target_apk overlay_apk idmap_path idmap_fd uid);
      if nz status then idmap_fail idmap_fd idmap_path
      else (_ ← close_fd idmap_fd; mret Ok).

Definition idmap_at (target_apk overlay_apk idmap_path : str) (uid : Z) : io W reply :=
  idmap_stat ← ask (fun w => w_stat w idmap_path);
  outdated ← (match idmap_stat with
              | inr _ => mret true
              | inl _ => delete_stale_idmap target_apk overlay_apk idmap_path uid
              end);
  idmap_fd ← open_file idmap_path (if outdated then Z.lor O_RDWR (Z.lor O_CREAT O_EXCL) else O_RDWR)
               (if outdated then 420 else 0);
  if idmap_fd <? 0 then mret Error
  else idmap_opened target_apk overlay_apk idmap_path uid idmap_fd outdated.

Definition idmap (calling_uid : Z) (targetApkPath overlayApkPath : str) (uid : Z) : io W reply :=
  enforce [checkUid calling_uid AID_SYSTEM; checkArgumentPath targetApkPath; checkArgumentPath overlayApkPath] (
    match flatten_path IDMAP_PREFIX IDMAP_SUFFIX overlayApkPath PATH_MAX with
    | None => mret Error
    | Some idmap_path => idmap_at targetApkPath overlayApkPath idmap_path uid
    end).

Definition removeIdmap (calling_uid : Z) (overlayApkPath : str) : io W reply :=
  enforce [checkUid calling_uid AID_SYSTEM; checkArgumentPath overlayApkPath] (
    match flatten_path IDMAP_PREFIX IDMAP_SUFFIX overlayApkPath PATH_MAX with
    | None => mret Error
    | Some idmap_path => r ← do_call (RemoveFile idmap_path); mret (succeeded r)
    end).

(** * Hash trees *)

(** The loop over [write]: the fuel is the number of bytes, as a write makes
    progress ([write_all_done]). *)
Fixpoint write_all (fuel : nat) (fd : Z) (path : str) (offset : Z) (data : str) : io W bool :=
  match data, fuel with
  | [], _ => mret true
  | _, O => abort_if_none None
  | _, S fuel' =>
      ret ← do_call (WriteFd fd path offset data);
      if ret <? 0 then mret false else write_all fuel' fd path (offset + ret) (drop (Z.to_nat ret) data)
  end.

(** Steps 1 and 2, with the file open for writing. *)
Definition write_verity (wfd : Z) (filePath : str) (verityInputAshmem contentSize : Z) : io W bool :=
  st ← ask (fun w => w_stat w filePath);
  match st with
  | inr _ => mret false
  | inl st =>
      let offset := st_size st + verity_padding (st_size st) in
      seek ← ask (fun w => seekable w wfd offset);
      if negb seek then mret false
      else
        shmSize ← ask (fun w => ashmem_size w verityInputAshmem);
        if (shmSize <? 0) || (contentSize <? 0) || (shmSize <? contentSize) then mret false
        else
          map ← ask (fun w => mapped w verityInputAshmem contentSize);
          if negb map then mret false
          else
            data ← ask (fun w => ashmem_bytes w verityInputAshmem);
            write_all (Z.to_nat contentSize) wfd filePath offset (take (Z.to_nat contentSize) data)
  end.

Definition installApkVerity (calling_uid : Z) (filePath : str) (verityInputAshmem contentSize : Z) : io W reply :=
  enforce [checkUid calling_uid AID_SYSTEM; checkArgumentPath filePath] (
    enabled ← ask verity_mode;
    if negb enabled then mret Ok
    else
      page_4k ← ask page_size_ok;
      valid ← ask (fun w => ashmem_valid w verityInputAshmem);
      if negb (page_4k && valid) then mret Error
      else
        wfd ← open_file filePath O_WRONLY 0;
        if wfd <? 0 then mret Error
        else
          written ← write_verity wfd filePath verityInputAshmem contentSize;
          _ ← drop_fd wfd;
          if negb written then mret Error
          else
            rfd ← open_file filePath O_RDONLY 0;
            r ← (if rfd <? 0 then mret (-1) else do_call (EnableVerity rfd filePath));
            _ ← drop_fd rfd;
            mret (if r <? 0 then Error else Ok)).

Definition assertFsverityRootHashMatches (calling_uid : Z) (filePath expectedHash : str) : io W reply :=
  enforce [checkUid calling_uid AID_SYSTEM; checkArgumentPath filePath] (
    enabled ← ask verity_mode;
    if negb enabled then mret Ok
    else if negb (length expectedHash =? kSha256Size)%nat then mret Error
    else
      fd ← open_file filePath O_RDONLY 0;
      if fd <? 0 then mret Error
      else
        r ← do_call (MeasureVerity fd filePath expectedHash);
        _ ← drop_fd fd;
        mret (if r <? 0 then Error else Ok)).

End CodeFiles.

(** * Reasoning *)

Section Partial.
Context {W : Type} {world : World W} {proc : Process W} {Node : Type} {view : W -> str -> option Node} {is_dir : Node -> bool}.
Context {ok : WorldOk world view is_dir}.

Lemma wlp_call c (Q : Z -> W -> Prop) w : Q (fst (w_call c w)) (snd (w_call c w)) -> wlp (do_call c) Q w.
Proof. intros H a w' [= Ha]. by rewrite Ha in H. Qed.

(** What is stored stays. *)
Definition same_view (w w' : W) : Prop := forall q, view w' q = view w q.

Lemma wlp_still c (Q : Z -> W -> Prop) w :
  targets c = [] -> (forall r w', r = fst (w_call c w) -> same_view w w' -> Q r w') -> wlp (do_call c) Q w.
Proof. intros Ht H. apply wlp_call, H; [done|]. intros q. apply call_frame. rewrite Ht. apply Forall_nil_2. Qed.

Lemma wlp_close_fd fd (Q : unit -> W -> Prop) w : (forall w', same_view w w' -> Q () w') -> wlp (close_fd fd) Q w.
Proof.
  intros H. unfold close_fd. destruct (bool_decide (fd ∈ open_fds w)) eqn:E.
  - intros a w' Hr. revert a w' Hr. change (wlp (fun w => if bool_decide (fd ∈ open_fds w)
      then (_ ← do_call (CloseFd fd); mret ()) w else None) Q w). intros a w'. rewrite E. revert a w'.
    apply wlp_bind, wlp_still; [done|]. intros r w1 _ Hs. by apply wlp_ret, H.
  - intros a w'. by rewrite E.
Qed.

Lemma wlp_drop_fd fd (Q : unit -> W -> Prop) w : (forall w', same_view w w' -> Q () w') -> wlp (drop_fd fd) Q w.
Proof. intros H. unfold drop_fd. destruct (fd <? 0); [by apply wlp_ret, H|by apply wlp_close_fd]. Qed.

Lemma wlp_in_child {pok : ProcessOk world proc view} (c : io W Z) (Q : Z -> W -> Prop) w :
  wlp c (fun r w1 => forall w', same_view w1 w' -> Q r w') w -> wlp (in_child c) Q w.
Proof.
  intros H r w' Hr. unfold in_child, in_child_with in Hr. destruct (c w) as [[r1 w1]|] eqn:E; [|done].
  injection Hr as <- <-. apply (H r1 w1 E). intros q. apply join_view.
Qed.

End Partial.

(** ** Idmaps *)

(** A call that fails to open changes nothing. *)
Class OpenOk {W : Type} (world : World W) {Node : Type} (view : W -> str -> option Node) : Prop :=
  open_refused : forall p flags mode w q, fst (w_call (OpenFile p flags mode) w) < 0 ->
    view (snd (w_call (OpenFile p flags mode) w)) q = view w q.

Section Idmap.
Context {W : Type} {world : World W} {proc : Process W} {code : CodeReads W}.
Context {Node : Type} {view : W -> str -> option Node} {is_dir : Node -> bool}.
Context {ok : WorldOk world view is_dir} {pok : ProcessOk world proc view} {fok : FileOps world view is_dir}.
Context {oko : OpenOk world view} {eok : ExitOk proc} {aid : AidRanges}.
Context (target overlay p : str) (uid : Z) (Hp : plain p = true).

Abbreviation gone := (Artifacts.gone (view := view) (is_dir := is_dir)).
Abbreviation off := (outside [p]).

(** ** Descriptors *)

Lemma off_spared q : off q -> plain p = true /\ ~ below p q.
Proof. by intros [Hq _]%Forall_cons. Qed.

Lemma holding_idmap_child mode fd l :
  holding (view := view) off l (idmap_child mode target overlay p fd uid).
Proof.
  apply holding_any. intros w. unfold idmap_child. apply wp_bind, wp_ask. destruct (setids_fail w uid).
  { apply wp_ask, agree_refl. }
  apply wp_bind, wp_call. assert (A : forall c w, Forall (fun t => t = p) (targets c) -> agree (view := view) off w (snd (w_call c w))).
  { intros c w0 Hc. apply call_agrees. eapply Forall_impl; [exact Hc|]. cbv beta. intros t ->. split; [done|].
    intros q Hq. by apply off_spared. }
  destruct (nz _); [apply wp_ask; cbv beta|apply wp_call; cbv beta; eapply agree_trans].
  - eapply (A (LockFd _ _ _)), Forall_nil_2.
  - eapply (A (LockFd _ _ _)), Forall_nil_2.
  - apply A. by repeat constructor.
Qed.

Lemma moves_close_fd fd l : (fd <? 0) = false ->
  moves (view := view) off (held fd ++ l) (close_fd fd) (fun _ => l).
Proof.
  intros H. pose proof (moves_drop (view := view) off fd l) as M. unfold drop_fd in M. by rewrite H in M.
Qed.

Hint Resolve off_spared : core.

Lemma moves_idmap_fail fd l : (fd <? 0) = false ->
  moves (view := view) off (held fd ++ l) (idmap_fail fd p) (fun _ => l).
Proof.
  intros H. unfold idmap_fail. eapply moves_bind; [by apply moves_close_fd|]. intros u. move_step. by apply moves_ret.
Qed.

Lemma moves_idmap_opened fd outdated l : (fd <? 0) = false ->
  moves (view := view) off (held fd ++ l) (idmap_opened target overlay p uid fd outdated) (fun _ => l).
Proof.
  intros H. unfold idmap_opened. move_step. destruct (a <? 0); [by apply moves_idmap_fail|].
  move_step. destruct (a0 <? 0); [by apply moves_idmap_fail|].
  assert (C : moves (view := view) off (held fd ++ l) (_ ← close_fd fd; mret Ok) (fun _ => l)).
  { eapply moves_bind; [by apply moves_close_fd|]. intros u. by apply moves_ret. }
  destruct outdated; cbn [negb]; [|exact C].
  eapply moves_bind; [apply moves_child, holding_idmap_child|]. intros status.
  destruct (nz status); [by apply moves_idmap_fail|exact C].
Qed.

Lemma moves_delete_stale l :
  moves (view := view) off l (delete_stale_idmap target overlay p uid) (fun _ => l).
Proof.
  unfold delete_stale_idmap. move_step. destruct (a <? 0) eqn:E.
  - unfold held. rewrite E. move_step. by apply moves_ret.
  - eapply moves_bind; [apply moves_child, holding_idmap_child|]. intros status.
    eapply moves_bind; [by apply moves_close_fd|]. intros u. destruct (nz status); [|by apply moves_ret].
    move_step. by apply moves_ret.
Qed.

Lemma moves_idmap_at l : moves (view := view) off l (idmap_at target overlay p uid) (fun _ => l).
Proof.
  unfold idmap_at. move_step. eapply (moves_bind _ _ _ _ (fun _ => l)).
  { destruct a; [apply moves_delete_stale|by apply moves_ret]. }
  intros outdated. move_step. destruct (a0 <? 0) eqn:E; [unfold held; rewrite E; by apply moves_ret|].
  by apply moves_idmap_opened.
Qed.

(** ** What is left *)

Definition idmap_argv (mode : str) (fd : Z) : list str := [kIdMapPath; mode; target; overlay; fmt_d fd].

(** The tool has accepted the file with exit code 0; [w1] is what it left. *)
Definition tool_ran (mode : str) (w1 : W) : Prop :=
  exists fd w0, w_call (Child (idmap_argv mode fd) uid [p]) w0 = (0, w1).

Lemma wlp_idmap_child mode fd w (Q : Z -> W -> Prop) :
  (forall r w', (r = 0 -> tool_ran mode w') -> Q r w') -> wlp (idmap_child mode target overlay p fd uid) Q w.
Proof.
  intros H. unfold idmap_child. apply wlp_bind, wlp_ask.
  assert (X : forall w1, Q (exit_status w1 1) w1).
  { intros w1. apply H. intros E. exfalso. apply (not_zero_nonzero (exit_status w1 1)); [by exists w1, 1|done]. }
  destruct (setids_fail w uid); [apply wlp_ask, X|]. apply wlp_bind, wlp_call.
  destruct (nz _); [apply wlp_ask, X|]. apply wlp_call, H. intros E. exists fd. eexists.
  rewrite <- E. apply surjective_pairing.
Qed.

Lemma wlp_remove w (Q : Z -> W -> Prop) : (forall r w', gone p w' -> Q r w') -> wlp (do_call (RemoveFile p)) Q w.
Proof. intros H. apply wlp_of_wp, wp_unlink; [done|]. intros r w' _ Hg _. by apply H. Qed.

Lemma wlp_idmap_fail fd w (Q : reply -> W -> Prop) : (forall w', gone p w' -> Q Error w') -> wlp (idmap_fail fd p) Q w.
Proof.
  intros H. unfold idmap_fail. apply wlp_bind, wlp_close_fd. intros w1 _. apply wlp_bind, wlp_remove.
  intros r w2 Hg. by apply wlp_ret, H.
Qed.

(** Of a file that is kept: the tool has verified it. *)
Lemma wlp_delete_stale w :
  wlp (delete_stale_idmap target overlay p uid) (fun outdated w' =>
    if outdated then gone p w' else exists w1, tool_ran run_verify_idmap w1 /\ view w' p = view w1 p) w.
Proof.
  unfold delete_stale_idmap, open_file. apply wlp_bind, wlp_call. destruct (_ <? 0).
  { apply wlp_bind, wlp_remove. intros r w1 Hg. by apply wlp_ret. }
  apply wlp_bind, wlp_in_child, wlp_idmap_child. intros status w1 Hs w2 H2. apply wlp_bind, wlp_close_fd. intros w3 H3.
  destruct (nz status) eqn:E; [apply wlp_bind, wlp_remove; intros r w4 Hg; by apply wlp_ret|].
  apply wlp_ret. exists w1. split; [apply Hs; unfold nz in E; by apply negb_false_iff, Z.eqb_eq in E|by rewrite H3, H2].
Qed.

(** The answer and the file. *)
Definition idmap_outcome (w : W) (r : reply) (w' : W) : Prop :=
  match r with
  | Ok => (exists w1, tool_ran run_idmap w1 /\ view w' p = view w1 p) \/ exists w1, tool_ran run_verify_idmap w1
  | Error => gone p w' \/ view w' p = view w p \/ exists w1, tool_ran run_verify_idmap w1 /\ view w' p = view w1 p
  | Denied _ => False
  end.

Lemma wlp_idmap_opened w fd outdated w0 : (outdated = false -> exists w1, tool_ran run_verify_idmap w1) ->
  wlp (idmap_opened target overlay p uid fd outdated) (idmap_outcome w0) w.
Proof.
  intros Hv. unfold idmap_opened. assert (F : forall w, wlp (idmap_fail fd p) (idmap_outcome w0) w).
  { intros w1. apply wlp_idmap_fail. intros w2 Hg. by left. }
  apply wlp_bind, wlp_call. destruct (_ <? 0); [apply F|]. apply wlp_bind, wlp_call. destruct (_ <? 0); [apply F|].
  destruct outdated; cbn [negb].
  - apply wlp_bind, wlp_in_child, wlp_idmap_child. intros status w1 Hs w2 H2. destruct (nz status) eqn:E; [apply F|].
    apply wlp_bind, wlp_close_fd. intros w3 H3. apply wlp_ret. left. exists w1.
    split; [apply Hs; unfold nz in E; by apply negb_false_iff, Z.eqb_eq in E|by rewrite H3, H2].
  - apply wlp_bind, wlp_close_fd. intros w3 H3. apply wlp_ret. right. by apply Hv.
Qed.

Lemma wlp_idmap_at w : wlp (idmap_at target overlay p uid) (idmap_outcome w) w.
Proof.
  unfold idmap_at. apply wlp_bind, wlp_ask. apply wlp_bind.
  apply (wlp_mono _ (fun (outdated : bool) w' => if outdated then gone p w' \/ view w' p = view w p
                       else exists w1, tool_ran run_verify_idmap w1 /\ view w' p = view w1 p)).
  { destruct (w_stat w p); [|apply wlp_ret; by right].
    eapply wlp_mono; [apply wlp_delete_stale|]. intros [] w1 H; [by left|done]. }
  intros outdated w1 H1. unfold open_file. apply wlp_bind, wlp_call. destruct (_ <? 0) eqn:E.
  - apply wlp_ret. apply Z.ltb_lt in E. pose proof (open_refused _ _ _ w1 p E) as Ho. destruct outdated; cbn in Ho |- *.
    + unfold gone, Artifacts.gone in *. rewrite Ho. tauto.
    + right. right. rewrite Ho. exact H1.
  - apply wlp_idmap_opened. intros ->. destruct H1 as (w2 & H & _). by exists w2.
Qed.

End Idmap.

(** ** Names of idmaps *)

Lemma idmap_char_no_slash s : slash ∉ map idmap_char s.
Proof.
  intros (c & E & _)%list_elem_of_fmap. unfold idmap_char in E. destruct (Ascii.eqb c slash) eqn:Ec; [done|].
  subst c. by rewrite Ascii.eqb_refl in Ec.
Qed.

Lemma flatten_path_shape prefix suffix path N p :
  flatten_path prefix suffix path N = Some p ->
  exists rest, path = slash :: rest /\ rest <> [] /\ (length p < N)%nat /\ p = prefix ++ map idmap_char (rest ++ suffix).
Proof.
  unfold flatten_path. destruct path as [|c rest]; [done|].
  destruct (Nat.ltb_spec (length (c :: rest)) 2) as [|Hl]; [done|]. destruct (Ascii.eqb c slash) eqn:Ec; [|done]. cbn [orb negb].
  apply Ascii.eqb_eq in Ec as ->. destruct (Nat.ltb_spec N (length prefix + length (slash :: rest) + length suffix)) as [|HN]; [done|].
  intros [= <-]. cbn [length] in *. rewrite (take_ge (prefix ++ rest ++ suffix)) by (rewrite !length_app; lia).
  rewrite take_app_length, drop_app_length. exists rest. split; [done|]. split; [by intros ->; cbn in Hl; lia|].
  split; [|done]. rewrite length_app, length_map, length_app. lia.
Qed.

(** The overlay that a name stands for. *)
Definition unflatten (prefix suffix p : str) : str :=
  slash :: map (fun c => if Ascii.eqb c "@"%char then slash else c)
             (take (length p - length prefix - length suffix) (drop (length prefix) p)).

Lemma unflatten_flat prefix suffix rest : "@"%char ∉ rest ->
  unflatten prefix suffix (prefix ++ map idmap_char (rest ++ suffix)) = slash :: rest.
Proof.
  intros H. unfold unflatten. rewrite drop_app_length, !length_app, length_map, length_app. f_equal.
  replace (length prefix + (length rest + length suffix) - length prefix - length suffix)%nat with (length rest) by lia.
  rewrite map_app, take_app_le by (by rewrite length_map). rewrite take_ge by (by rewrite length_map).
  rewrite map_map. induction rest as [|c rest IH]; [done|]. cbn. rewrite IH by set_solver. f_equal.
  unfold idmap_char. destruct (Ascii.eqb c slash) eqn:E; [by apply Ascii.eqb_eq in E as ->|].
  destruct (Ascii.eqb c "@") eqn:E2; [|done]. apply Ascii.eqb_eq in E2 as ->. set_solver.
Qed.

Lemma idmap_path_plain overlay p : flatten_path IDMAP_PREFIX IDMAP_SUFFIX overlay PATH_MAX = Some p -> plain p = true.
Proof.
  intros (rest & _ & _ & _ & ->)%flatten_path_shape.
  change IDMAP_PREFIX with (lit "/data/resource-cache" ++ [slash]). rewrite <- app_assoc. cbn [app].
  rewrite plain_app, (plain_single (map _ _)) by apply idmap_char_no_slash. apply andb_true_iff. split; [by vm_compute|].
  apply negb_true_iff, orb_false_iff. rewrite map_app.
  split; apply str_eqb_neq; intros E; apply (f_equal length) in E; rewrite length_app in E; cbn in E; lia.
Qed.

(** ** Writing the hash tree *)

(** The contents of files: the size is their length, [write] puts a part of
    the bytes at the offset and makes progress, and enabling verity changes
    none of them. *)
Class FileData {W : Type} (world : World W) {Node : Type} (view : W -> str -> option Node) (contents : Node -> str) : Prop := {
  size_contents : forall w p st n, plain p = true -> w_stat w p = inl st -> view w p = Some n ->
    st_size st = Z.of_nat (length (contents n));
  write_progress : forall fd p off d w, d <> [] -> fst (w_call (WriteFd fd p off d) w) <> 0;
  write_done : forall fd p off d w n, plain p = true -> 0 <= off -> view w p = Some n ->
    let r := fst (w_call (WriteFd fd p off d) w) in
    exists n', view (snd (w_call (WriteFd fd p off d) w)) p = Some n' /\
      if r <? 0 then contents n' = contents n
      else r <= Z.of_nat (length d) /\ contents n' = overlay (contents n) (Z.to_nat off) (take (Z.to_nat r) d);
  verity_keeps : forall fd p w n, plain p = true -> view w p = Some n ->
    exists n', view (snd (w_call (EnableVerity fd p) w)) p = Some n' /\ contents n' = contents n;
}.

Lemma overlay_end data off d : (length data <= off)%nat -> overlay data off d = data ++ repeat nul (off - length data) ++ d.
Proof. intros H. unfold overlay. rewrite take_ge, drop_ge by lia. by rewrite app_nil_r. Qed.

Lemma overlay_more data off a b : (length data <= off)%nat ->
  overlay (overlay data off a) (off + length a) b = overlay data off (a ++ b).
Proof.
  intros H. rewrite !(overlay_end data) by done.
  assert (L : length (data ++ repeat nul (off - length data) ++ a) = (off + length a)%nat) by (rewrite !length_app, repeat_length; lia).
  rewrite overlay_end by lia. rewrite L, Nat.sub_diag. cbn [repeat app]. by rewrite <- !app_assoc.
Qed.

Lemma verity_padding_spec size : 0 <= size ->
  0 <= verity_padding size < kVerityPageSize /\ (size + verity_padding size) mod kVerityPageSize = 0.
Proof.
  intros H. unfold verity_padding, kVerityPageSize. cbv zeta. rewrite Z.rem_mod_nonneg by lia.
  pose proof (Z.mod_pos_bound size 4096 ltac:(lia)). pose proof (Z.div_mod size 4096 ltac:(lia)) as Hd.
  destruct (Z.eqb_spec (4096 - size mod 4096) 4096) as [E|E].
  - split; [lia|]. rewrite Z.add_0_r. lia.
  - split; [lia|]. rewrite Hd at 1. replace (4096 * (size / 4096) + size mod 4096 + (4096 - size mod 4096))
      with ((size / 4096 + 1) * 4096) by lia. apply Z.mod_mul. lia.
Qed.

Section Verity.
Context {W : Type} {world : World W} {proc : Process W} {code : CodeReads W}.
Context {Node : Type} {view : W -> str -> option Node} {is_dir : Node -> bool} {contents : Node -> str}.
Context {ok : WorldOk world view is_dir} {pok : ProcessOk world proc view} {fdo : FileData world view contents}.
Context (p : str) (Hp : plain p = true).

Abbreviation off := (outside [p]).

Lemma file_spared q : off q -> plain p = true /\ ~ below p q.
Proof. by intros [Hq _]%Forall_cons. Qed.
Hint Resolve file_spared : core.

Lemma moves_write_all fuel fd offset data l : (length data <= fuel)%nat ->
  moves (view := view) off l (write_all fuel fd p offset data) (fun _ => l).
Proof.
  revert offset data. induction fuel as [|fuel IH]; intros offset data Hl; destruct data as [|c data]; try by apply moves_ret.
  { cbn in Hl. lia. }
  cbn [write_all]. set (d := c :: data) in *. eapply moves_bind_to.
  { apply (moves_to_call off (WriteFd fd p offset d) l (fun r => r <> 0)); [done|spare|]. intros w. by apply write_progress. }
  intros r Hr. cbv beta in Hr. destruct (Z.ltb_spec r 0); [by apply moves_ret|]. apply IH. rewrite length_drop. lia.
Qed.

Lemma moves_write_verity wfd ashmem size l :
  moves (view := view) off l (write_verity wfd p ashmem size) (fun _ => l).
Proof.
  unfold write_verity. move_step. destruct a as [st|]; [|by apply moves_ret]. cbv zeta.
  move_step. destruct (negb a); [by apply moves_ret|]. move_step. destruct (_ || _); [by apply moves_ret|].
  move_step. destruct (negb a1); [by apply moves_ret|]. move_step. apply moves_write_all. rewrite length_take. lia.
Qed.

(** A file after so many bytes were written past its end. *)
Definition extended (c : str) (offset : nat) (d : str) : str := match d with [] => c | _ => overlay c offset d end.

Lemma wlp_write_all fuel fd offset data w n (Q : bool -> W -> Prop) :
  view w p = Some n -> Z.of_nat (length (contents n)) <= offset ->
  (forall b w' n', view w' p = Some n' -> (exists t, contents n' = contents n ++ t) ->
     (b = true -> contents n' = extended (contents n) (Z.to_nat offset) data) -> Q b w') ->
  wlp (write_all fuel fd p offset data) Q w.
Proof.
  revert offset data w n Q. induction fuel as [|fuel IH]; intros offset data w n Q Hv Hl HQ; destruct data as [|c data].
  1, 3: apply wlp_ret; apply (HQ true w n); [done|exists []; by rewrite app_nil_r|done].
  { by apply wlp_some. }
  cbn [write_all]. set (d := c :: data) in *. apply wlp_bind, wlp_call.
  destruct (write_done fd p offset d w n Hp ltac:(lia) Hv) as (n1 & Hv1 & Hc).
  destruct (w_call (WriteFd fd p offset d) w) as [r w1]. cbn [fst snd] in *. destruct (Z.ltb_spec r 0) as [Hr|Hr].
  { apply wlp_ret. apply (HQ false w1 n1); [done|exists []; by rewrite app_nil_r|done]. }
  destruct Hc as [Hrl Hc]. assert (Ht : length (take (Z.to_nat r) d) = Z.to_nat r) by (rewrite length_take; lia).
  assert (He : contents n1 = contents n ++ repeat nul (Z.to_nat offset - length (contents n)) ++ take (Z.to_nat r) d)
    by (by rewrite Hc, overlay_end by lia).
  apply (IH _ _ w1 n1 Q Hv1).
  - rewrite He, !length_app, repeat_length, Ht. lia.
  - intros b w' n' Hv' [t Ht'] Hb. apply (HQ b w' n' Hv').
    + rewrite Ht', He, <- app_assoc. by eexists.
    + intros Hbt. rewrite (Hb Hbt). unfold extended at 2. fold d. change (match d with [] => _ | _ => ?x end) with x.
      rewrite <- (take_drop (Z.to_nat r) d) at 2. destruct (drop (Z.to_nat r) d) as [|e rest] eqn:Ed; cbn [extended].
      * by rewrite app_nil_r, Hc.
      * rewrite Hc, Z2Nat.inj_add by lia.
        replace (Z.to_nat offset + Z.to_nat r)%nat with (Z.to_nat offset + length (take (Z.to_nat r) d))%nat by (by rewrite Ht).
        by rewrite overlay_more by lia.
Qed.

(** Whatever the answer, nothing of the file is lost; after success the bytes
    follow at the next page. *)
Definition verity_written (ashmem size : Z) (c c' : str) : Prop :=
  exists w1, size <= ashmem_size w1 ashmem /\ c' = extended c (length c + Z.to_nat (verity_padding (Z.of_nat (length c))))
                    (take (Z.to_nat size) (ashmem_bytes w1 ashmem)).

Lemma wlp_write_verity wfd ashmem size w n : view w p = Some n ->
  wlp (write_verity wfd p ashmem size) (fun b w' => exists n', view w' p = Some n' /\
    (exists t, contents n' = contents n ++ t) /\
    (b = true -> verity_written ashmem size (contents n) (contents n'))) w.
Proof.
  intros Hv. assert (F : exists n', view w p = Some n' /\ (exists t, contents n' = contents n ++ t) /\
                           (false = true -> verity_written ashmem size (contents n) (contents n'))).
  { exists n. split; [done|]. split; [exists []; by rewrite app_nil_r|done]. }
  unfold write_verity. apply wlp_bind, wlp_ask. destruct (w_stat w p) as [st|] eqn:Es; [|by apply wlp_ret]. cbv zeta.
  pose proof (size_contents w p st n Hp Es Hv) as Hs. pose proof (verity_padding_spec (st_size st) ltac:(lia)) as [Hpad _].
  apply wlp_bind, wlp_ask. destruct (negb _); [by apply wlp_ret|]. apply wlp_bind, wlp_ask.
  destruct (_ || _) eqn:Eb; [by apply wlp_ret|]. apply orb_false_iff in Eb as [_ Eb%Z.ltb_ge]. apply wlp_bind, wlp_ask. destruct (negb _); [by apply wlp_ret|].
  apply wlp_bind, wlp_ask. apply (wlp_write_all _ _ _ _ w n); [done|lia|].
  intros b w' n' Hv' Ht Hb. exists n'. split; [done|]. split; [done|]. intros Hbt. exists w. split; [done|]. rewrite (Hb Hbt), Hs.
  rewrite Hs in Hpad. f_equal. rewrite Z2Nat.inj_add by lia. by rewrite Nat2Z.id.
Qed.

Context {aid : AidRanges}.

Lemma moves_install calling_uid ashmem size :
  moves (view := view) off [] (installApkVerity calling_uid p ashmem size) (fun _ => []).
Proof.
  unfold installApkVerity, enforce. destruct (List.find _ _); [by apply moves_ret|].
  move_step. destruct (negb a); [by apply moves_ret|]. do 2 move_step. destruct (negb _); [by apply moves_ret|].
  move_step. destruct (a2 <? 0) eqn:E; [unfold held; rewrite E; by apply moves_ret|].
  eapply moves_bind; [apply moves_write_verity|]. intros b. eapply moves_bind; [apply moves_drop|]. intros u.
  destruct (negb b); [by apply moves_ret|]. move_step. eapply (moves_bind _ _ _ _ (fun _ => held a3 ++ [])).
  { destruct (a3 <? 0); [by apply moves_ret|]. apply moves_call; [done|spare]. }
  intros r. eapply moves_bind; [apply moves_drop|]. intros u2. by apply moves_ret.
Qed.

(** The file holds [c], or bytes behind it. *)
Definition holds (P : str -> Prop) (w : W) : Prop := exists n, view w p = Some n /\ P (contents n).

Lemma holds_same P w w' : same_view (view := view) w w' -> holds P w -> holds P w'.
Proof. intros Hs (n & Hv & HP). exists n. by rewrite Hs. Qed.

Lemma wlp_install calling_uid ashmem size w n : view w p = Some n ->
  wlp (installApkVerity calling_uid p ashmem size) (fun r w' =>
    holds (fun c => (exists t, c = contents n ++ t) /\
                    (r = Ok -> verity_mode w = true -> verity_written ashmem size (contents n) c)) w') w.
Proof.
  intros Hv. assert (F : forall r w', holds (fun c => exists t, c = contents n ++ t) w' -> (r = Ok -> verity_mode w = false) ->
    holds (fun c => (exists t, c = contents n ++ t) /\ (r = Ok -> verity_mode w = true -> verity_written ashmem size (contents n) c)) w').
  { intros r w' (n' & Hn & Ht) Hr. exists n'. split; [done|]. split; [done|]. intros ->. by rewrite Hr. }
  assert (F0 : holds (fun c => exists t, c = contents n ++ t) w) by (exists n; split; [done|]; exists []; by rewrite app_nil_r).
  unfold installApkVerity, enforce. destruct (List.find _ _); [by apply wlp_ret, F|]. apply wlp_bind, wlp_ask.
  destruct (verity_mode w); cbn [negb]; [|by apply wlp_ret, F]. do 2 apply wlp_bind, wlp_ask.
  destruct (negb _); [by apply wlp_ret, F|]. apply wlp_bind, wlp_still; [done|]. intros wfd w1 _ H1.
  destruct (wfd <? 0); [apply wlp_ret, F; [by eapply holds_same|done]|].
  apply wlp_bind. eapply wlp_mono; [apply (wlp_write_verity _ _ _ w1 n); by rewrite H1|]. intros b w2 (n2 & Hn2 & Ht & Hb).
  apply wlp_bind, wlp_drop_fd. intros w3 H3. destruct b; cbn [negb].
  2: { apply wlp_ret, F; [|done]. exists n2. by rewrite H3. }
  apply wlp_bind, wlp_still; [done|]. intros rfd w4 _ H4. apply wlp_bind.
  assert (H42 : view w4 p = Some n2) by by rewrite H4, H3.
  apply (wlp_mono _ (fun _ w5 => exists n5, view w5 p = Some n5 /\ contents n5 = contents n2)).
  { destruct (rfd <? 0); [apply wlp_ret; by exists n2|]. apply wlp_call. by apply verity_keeps. }
  intros r w5 (n5 & Hn5 & Hc). apply wlp_bind, wlp_drop_fd. intros w6 H6. apply wlp_ret. exists n5. rewrite H6, Hc.
  split; [done|]. split; [done|]. intros _ _. by apply Hb.
Qed.

End Verity.

(** ** Where requests act *)

Inductive code_request :=
| Rmdex (codePath instructionSet : str)
| CreateOatDir (oatDir instructionSet : str)
| RmPackageDir (packageDir : str)
| LinkFile (relativePath fromBase toBase : str)
| Idmap (targetApkPath overlayApkPath : str) (uid : Z)
| RemoveIdmap (overlayApkPath : str).

Section Requests.
Context {W : Type} {world : World W} {proc : Process W} {code : CodeReads W} {Node : Type} {view : W -> str -> option Node}.
Context {is_dir : Node -> bool} {ok : WorldOk world view is_dir} {pok : ProcessOk world proc view} {aid : AidRanges}.
Context (G : globals).

Definition serve_code (calling_uid : Z) (r : code_request) : io W reply :=
  match r with
  | Rmdex c isa => rmdex (paths := installd_paths G) G calling_uid c isa
  | CreateOatDir d isa => createOatDir G calling_uid d isa
  | RmPackageDir d => rmPackageDir G calling_uid d
  | LinkFile rel from to => linkFile G calling_uid rel from to
  | Idmap t o uid => idmap calling_uid t o uid
  | RemoveIdmap o => removeIdmap calling_uid o
  end.

(** The paths that a request builds from its arguments. *)
Definition code_paths (r : code_request) : list str :=
  match r with
  | Rmdex c isa => match create_cache_path_default G c isa with Some p => [p] | None => [] end
  | CreateOatDir d isa => [d; path_buffer (d ++ lit "/" ++ isa)]
  | RmPackageDir d => [d]
  | LinkFile rel from to => [path_buffer (to ++ lit "/" ++ rel)]
  | Idmap _ _ _ | RemoveIdmap _ => []
  end.

Definition code_dirs : list str :=
  [android_app_dir G; android_staging_dir G; android_app_private_dir G; android_app_ephemeral_dir G; android_asec_dir G;
   android_mnt_expand_dir G; android_data_dir G ++ DALVIK_CACHE ++ [slash]; IDMAP_PREFIX].

Definition elsewhere (q : str) : Prop := forall dir, dir ∈ code_dirs -> prefixb dir q = false.

Lemma code_spared dir t : dir ∈ code_dirs -> prefixb dir t = true -> plain t = true -> spared elsewhere t.
Proof.
  intros Hd Ht Hp q Hq. split; [done|]. intros Hb. specialize (Hq dir Hd). apply prefixb_spec in Ht as [u ->].
  destruct Hb as [-> | [rest ->]]; rewrite <- ?app_assoc, prefixb_app in Hq; done.
Qed.

Context (Hdata : forall r, prefixb (android_mnt_expand_dir G) (android_data_dir G ++ r) = false).
Context (Hshort : Forall (fun dir => (length dir < PKG_PATH_MAX)%nat) code_dirs).

Lemma app_dir_prefix path k : under_app_dirs G path k -> exists dir, dir ∈ code_dirs /\ prefixb dir path = true.
Proof.
  intros (dir & Hd & (_ & _ & rest & -> & _)%validate_path_0). exists dir. split; [|by apply prefixb_app].
  unfold code_dirs. set_solver.
Qed.

(** The validators answer, and what they accept lies in the directories. *)
Lemma validated path k :
  exists r, validate_apk_path_internal G 2 path k = Some r /\
    (nz r = false -> exists dir, dir ∈ code_dirs /\ prefixb dir path = true).
Proof.
  destruct (validate_apk_step G 1 path k) as [[H ->]|[_ ->]].
  { exists 0. split; [done|]. intros _. by eapply app_dir_prefix. }
  destruct (prefixb (android_mnt_expand_dir G) path) eqn:E; [|by exists (-1)].
  destruct (find_char _ _ _); [|by exists (-1)].
  assert (Hin : exists dir, dir ∈ code_dirs /\ prefixb dir path = true).
  { exists (android_mnt_expand_dir G). split; [unfold code_dirs; set_solver|done]. }
  match goal with |- context [validate_apk_path_internal G 1 ?p k] =>
    destruct (validate_apk_step G 0 p k) as [[_ ->]|[_ ->]]; [by exists 0|rewrite Hdata; by exists (-1)] end.
Qed.

Lemma prefixb_buffer dir d rest : dir ∈ code_dirs -> prefixb dir d = true -> prefixb dir (path_buffer (d ++ rest)) = true.
Proof.
  intros Hd (t & ->)%prefixb_spec. rewrite Forall_forall in Hshort. specialize (Hshort dir Hd).
  unfold path_buffer. rewrite <- app_assoc, take_app_ge by lia. apply prefixb_app.
Qed.

Abbreviation moves := (moves (view := view) elsewhere).

Lemma moves_checks checks k : moves [] k (fun _ => []) -> moves [] (enforce checks k) (fun _ => []).
Proof. intros H. unfold enforce. by destruct (List.find _ checks); [apply moves_ret|]. Qed.

Lemma moves_any_fails (cs : list (io W Z)) l : Forall (fun c => moves l c (fun _ => l)) cs ->
  moves l (any_fails cs) (fun _ => l).
Proof.
  induction 1 as [|c cs Hc _ IH]; [by apply moves_ret|]. cbn [any_fails]. eapply moves_bind; [exact Hc|].
  intros r. destruct (nz r); [by apply moves_ret|exact IH].
Qed.

Lemma moves_removed t l (k : Z -> reply) : spared elsewhere t ->
  moves l (r ← do_call (RemoveFile t); mret (k r)) (fun _ => l).
Proof. intros H. move_step. by apply moves_ret. Qed.

Lemma idmap_path_spared overlay p : flatten_path IDMAP_PREFIX IDMAP_SUFFIX overlay PATH_MAX = Some p -> spared elsewhere p.
Proof.
  intros H. apply (code_spared IDMAP_PREFIX); [unfold code_dirs; set_solver| |by apply (idmap_path_plain overlay)].
  apply flatten_path_shape in H as (rest & _ & _ & _ & ->). apply prefixb_app.
Qed.

(** [moves] of the idmap file is [moves] of all that is elsewhere. *)
Lemma moves_elsewhere {A} p (c : io W A) : spared elsewhere p ->
  Descriptors.moves (view := view) (outside [p]) [] c (fun _ => []) -> moves [] c (fun _ => []).
Proof.
  intros Hp H base l w Ho. eapply wp_mono; [by apply H|]. intros a w' [Ho' Ha]. split; [done|].
  apply (agree_sub _ _ _ _ Ha). intros q Hq. constructor; [by apply Hp|constructor].
Qed.

Lemma cache_path_area c isa p : create_cache_path_default G c isa = Some p ->
  prefixb (android_data_dir G ++ DALVIK_CACHE ++ [slash]) p = true.
Proof.
  unfold create_cache_path_default, fits. destruct (negb _); [done|]. destruct (negb _); [done|].
  case_match; [done|]. intros [= <-]. apply prefixb_spec. exists (isa ++ (take 1 c ++ map flatten_char (drop 1 c)) ++ DALVIK_CACHE_POSTFIX).
  rewrite <- !app_assoc. reflexivity.
Qed.

Lemma moves_serve_code calling_uid r : Forall (fun p => plain p = true) (code_paths r) ->
  moves [] (serve_code calling_uid r) (fun _ => []).
Proof.
  intros Hpl. destruct r; cbn [serve_code code_paths] in *; apply moves_checks.
  - destruct (validated codePath 1) as (v & Hv & _). eapply moves_at_some; [exact Hv|].
    destruct (nz v && _); [by apply moves_ret|]. cbn [create_cache_path installd_paths].
    destruct (create_cache_path_default G codePath instructionSet) as [p|] eqn:E; [|by apply moves_ret].
    apply Forall_cons in Hpl as [Hpl _]. apply (moves_removed p [] (fun r => if nz r && negb (r =? ENOENT) then Error else Ok)).
    eapply code_spared; [|by eapply cache_path_area|done]. unfold code_dirs. set_solver.
  - destruct (validated oatDir 1) as (v & Hv & Hin). eapply moves_at_some; [exact Hv|].
    destruct (nz v); [by apply moves_ret|]. destruct (Hin eq_refl) as (dir & Hd & Hpre).
    apply Forall_cons in Hpl as [H1 [H2 _]%Forall_cons].
    pose proof (code_spared dir oatDir Hd Hpre H1) as S1.
    pose proof (code_spared dir _ Hd (prefixb_buffer dir oatDir (lit "/" ++ instructionSet) Hd Hpre) H2) as S2.
    eapply moves_bind; [apply moves_any_fails|intros b; by apply moves_ret].
    repeat constructor; (apply moves_call; [done|by eapply spares_path]).
  - destruct (validated packageDir 1) as (v & Hv & Hin). eapply moves_at_some; [exact Hv|].
    destruct (nz v); [by apply moves_ret|]. destruct (Hin eq_refl) as (dir & Hd & Hpre).
    apply Forall_cons in Hpl as [H1 _]. pose proof (code_spared dir packageDir Hd Hpre H1) as S1.
    unfold rm_package_dir. move_step. by apply moves_ret.
  - destruct (validated (path_buffer (fromBase ++ lit "/" ++ relativePath)) 3) as (v & Hv & _).
    eapply moves_at_some; [exact Hv|]. destruct (nz v); [by apply moves_ret|].
    destruct (validated (path_buffer (toBase ++ lit "/" ++ relativePath)) 3) as (v2 & Hv2 & Hin).
    eapply moves_at_some; [exact Hv2|]. destruct (nz v2); [by apply moves_ret|].
    destruct (Hin eq_refl) as (dir & Hd & Hpre). apply Forall_cons in Hpl as [H1 _].
    pose proof (code_spared dir _ Hd Hpre H1) as S1. move_step. by apply moves_ret.
  - destruct (flatten_path _ _ _ _) as [p|] eqn:E; [|by apply moves_ret].
    apply (moves_elsewhere p); [by eapply idmap_path_spared|]. apply moves_idmap_at. by eapply idmap_path_plain.
  - destruct (flatten_path _ _ _ _) as [p|] eqn:E; [|by apply moves_ret].
    apply (moves_removed p [] succeeded). by eapply idmap_path_spared.
Qed.

End Requests.

(** * Properties *)

(** The name of an idmap is never cut off by its buffer, names one file of the
    directory of the idmaps and, for an overlay without [@], tells which. *)
Theorem flatten_path_spec (prefix suffix overlay : str) (N : nat) :
  flatten_path prefix suffix overlay N =
    match overlay with
    | c :: rest =>
        if decide (c = slash /\ rest <> [] /\ (length prefix + length overlay + length suffix <= N)%nat)
        then Some (prefix ++ map idmap_char (rest ++ suffix)) else None
    | [] => None
    end /\
  forall p, flatten_path prefix suffix overlay N = Some p ->
    (length p < N)%nat /\ slash ∉ drop (length prefix) p /\ ("@"%char ∉ overlay -> unflatten prefix suffix p = overlay).
Proof.
  split.
  - unfold flatten_path. destruct overlay as [|c rest]; [done|]. case_decide as H.
    + destruct H as (-> & Hr & HN). destruct (Nat.ltb_spec (length (slash :: rest)) 2) as [Hx|_].
      { destruct rest; [done|]. cbn in Hx. lia. }
      rewrite Ascii.eqb_refl. cbn [orb negb]. destruct (Nat.ltb_spec N (length prefix + length (slash :: rest) + length suffix)); [lia|].
      cbv zeta. cbn [length] in HN. rewrite (take_ge (prefix ++ _)) by (rewrite !length_app; cbn [length]; lia).
      by rewrite take_app_length, drop_app_length.
    + destruct (Nat.ltb_spec (length (c :: rest)) 2) as [|Hl]; [done|]. destruct (Ascii.eqb c slash) eqn:Ec; [|done]. cbn [orb negb].
      destruct (Nat.ltb_spec N (length prefix + length (c :: rest) + length suffix)) as [|HN]; [done|].
      destruct H. split; [by apply Ascii.eqb_eq|]. split; [|done]. intros ->. cbn in Hl. lia.
  - intros p (rest & -> & _ & Hl & ->)%flatten_path_shape. split; [done|]. rewrite drop_app_length.
    split; [apply idmap_char_no_slash|]. intros Ha. apply unflatten_flat. set_solver.
Qed.

(** A request for an idmap returns, closes what it opens and changes no file
    but the idmap. Success means that the tool has written this file, or
    verified the one that was there, and exited with 0; after an error the
    file is gone, untouched, or one that the tool has verified: a file that it
    did not finish is never left. *)
Theorem idmap_contract {W : Type} {world : World W} {proc : Process W} {code : CodeReads W} {Node : Type}
    (view : W -> str -> option Node) (is_dir : Node -> bool) {ok : WorldOk world view is_dir}
    {pok : ProcessOk world proc view} {fok : FileOps world view is_dir} {oko : OpenOk world view} {eok : ExitOk proc}
    {aid : AidRanges} (target overlay p : str) (uid : Z) (w : W) :
  flatten_path IDMAP_PREFIX IDMAP_SUFFIX overlay PATH_MAX = Some p ->
  let ran := tool_ran (world := world) target overlay p uid in
  exists r w',
    idmap_at target overlay p uid w = Some (r, w') /\ open_fds w' = open_fds w /\
    (forall q, ~ below p q -> view w' q = view w q) /\
    match r with
    | Ok => (exists w1, ran run_idmap w1 /\ view w' p = view w1 p) \/ exists w1, ran run_verify_idmap w1
    | Error => gone (view := view) (is_dir := is_dir) p w' \/ view w' p = view w p \/
               exists w1, ran run_verify_idmap w1 /\ view w' p = view w1 p
    | Denied _ => False
    end.
Proof.
  intros Hp ran. pose proof (idmap_path_plain overlay p Hp) as Hpl.
  destruct (moves_whole _ _ (moves_idmap_at (view := view) target overlay p uid Hpl []) w) as (r & w' & Hr & Hf & Ha).
  exists r, w'. split; [done|]. split; [done|]. split; [intros q Hq; apply Ha; constructor; [done|constructor]|].
  exact (wlp_idmap_at (view := view) (is_dir := is_dir) target overlay p uid Hpl w r w' Hr).
Qed.

(** C34: installing a hash tree returns and closes what it opens; no other file
    changes and nothing of the package file is lost, whatever fails. Success
    means that, where verity is on, the bytes follow the file from the next
    multiple of the page size, with zeros in between. *)
Theorem verity_contract {W : Type} {world : World W} {proc : Process W} {code : CodeReads W} {Node : Type}
    (view : W -> str -> option Node) (is_dir : Node -> bool) (contents : Node -> str) {ok : WorldOk world view is_dir}
    {pok : ProcessOk world proc view} {fdo : FileData world view contents} {aid : AidRanges}
    (calling_uid : Z) (p : str) (ashmem size : Z) (n : Node) (w : W) :
  plain p = true -> view w p = Some n -> 0 < size ->
  (forall w1, ashmem_size w1 ashmem = Z.of_nat (length (ashmem_bytes w1 ashmem))) ->
  let pad := Z.to_nat (verity_padding (Z.of_nat (length (contents n)))) in
  exists r w' n',
    installApkVerity calling_uid p ashmem size w = Some (r, w') /\ open_fds w' = open_fds w /\
    (forall q, ~ below p q -> view w' q = view w q) /\
    view w' p = Some n' /\ (exists t, contents n' = contents n ++ t) /\
    (pad < 4096)%nat /\ (Z.of_nat (length (contents n) + pad) mod kVerityPageSize = 0) /\
    (r = Ok -> verity_mode w = true ->
       exists w1, contents n' = contents n ++ repeat nul pad ++ take (Z.to_nat size) (ashmem_bytes w1 ashmem)).
Proof.
  intros Hp Hv Hsz Hlen pad.
  destruct (moves_whole _ _ (moves_install (view := view) p Hp calling_uid ashmem size) w) as (r & w' & Hr & Hf & Ha).
  destruct (wlp_install (view := view) p Hp calling_uid ashmem size w n Hv r w' Hr) as (n' & Hv' & Ht & Hok).
  destruct (verity_padding_spec (Z.of_nat (length (contents n))) ltac:(lia)) as [Hpad Hmod].
  exists r, w', n'. split_and!; [done|done|intros q Hq; apply Ha; by repeat constructor|done|done|unfold pad, kVerityPageSize in *; lia| |].
  - unfold pad. rewrite Nat2Z.inj_add, Z2Nat.id by lia. done.
  - intros Hok1 Hm. destruct (Hok Hok1 Hm) as (w1 & Hs & ->). exists w1. unfold pad.
    rewrite Hlen in Hs. destruct (take (Z.to_nat size) (ashmem_bytes w1 ashmem)) as [|c d] eqn:E.
    + apply (f_equal length) in E. rewrite length_take in E. cbn in E. lia.
    + cbn [extended]. rewrite overlay_end by lia. repeat f_equal. lia.
Qed.

(** Each request for code files returns, closes what it opens, and changes
    nothing outside the directories of installed packages, the dalvik cache
    and the idmaps - if the paths that it builds have no component [.] or
    [..], which is not checked of the instruction set. *)
Theorem code_requests_confined {W : Type} {world : World W} {proc : Process W} {code : CodeReads W} {Node : Type}
    (view : W -> str -> option Node) (is_dir : Node -> bool) {ok : WorldOk world view is_dir}
    {pok : ProcessOk world proc view} {aid : AidRanges} (G : globals) (calling_uid : Z) (r : code_request) (w : W) :
  (forall rest, prefixb (android_mnt_expand_dir G) (android_data_dir G ++ rest) = false) ->
  Forall (fun dir => (length dir < PKG_PATH_MAX)%nat) (code_dirs G) ->
  Forall (fun p => plain p = true) (code_paths G r) ->
  exists reply w',
    serve_code G calling_uid r w = Some (reply, w') /\ open_fds w' = open_fds w /\
    forall q, elsewhere G q -> view w' q = view w q.
Proof.
  intros Hdata Hshort Hpl.
  destruct (moves_whole _ _ (moves_serve_code (view := view) G Hdata Hshort calling_uid r Hpl) w) as (reply & w' & Hr & Hf & Ha).
  by exists reply, w'.
Qed.

(** ** Runs *)

#[export] Instance proc_code : CodeReads pstate := {|
  setids_fail _ _ := false;
  verity_mode _ := true;
  page_size_ok _ := true;
  ashmem_valid _ _ := true;
  ashmem_size _ _ := 4;
  ashmem_bytes _ _ := lit "tree";
  mapped _ _ size := 0 <? size;
  seekable _ _ _ := true;
|}.

#[export] Instance proc_open_ok (status : Z) : OpenOk (proc_fs status) proc_view.
Proof.
  intros p flags mode s q. cbn [proc_fs w_call proc_call]. unfold proc_open. destruct (open_node _ _ _ _) as [[e|] w]; [done|].
  unfold proc_new. destruct (_ || _) eqn:E; [done|]. apply orb_false_iff in E as [E%Z.ltb_ge _]. cbn. lia.
Qed.

#[export] Instance proc_data (status : Z) : FileData (proc_fs status) proc_view n_data.
Proof.
  split; cbn [proc_fs w_call proc_call proc_fs_call w_stat]; unfold proc_view.
  - intros s p st n _. cbn. unfold fs_stat. destruct (fs_view _ p); [|done]. by intros [= <-] [= ->].
  - intros fd p off d s Hd. cbn. destruct d; [done|]. cbn. lia.
  - intros fd p off d s n Hp _ Hv. unfold fs_view in Hv |- *. rewrite Hp in Hv |- *. rewrite Hv. cbn.
    unfold set_node, str_eqb. rewrite bool_decide_true by done. eexists. split; [done|].
    destruct (Z.ltb_spec (Z.of_nat (length d)) 0); [lia|]. split; [done|]. cbn [n_data]. rewrite take_ge by lia. done.
  - intros fd p s n _ Hv. by exists n.
Qed.

Definition overlay_apk : str := lit "/vendor/overlay/Theme.apk".
Definition overlay_idmap : str := lit "/data/resource-cache/vendor@overlay@Theme.apk@idmap".

Definition idmap_run (status : Z) (s : pstate) : option (reply * pstate) :=
  idmap_at (world := proc_fs status) (proc := proc_table) (aid := aid_android) (lit "/system/app/A.apk") overlay_apk overlay_idmap 1000 s.

(** A tool that succeeds leaves what it wrote, one that fails nothing. *)
Lemma idmap_example :
  let run status := (fun r => (fst r, n_data <$> p_fs (snd r) overlay_idmap)) <$> idmap_run status (PState (fun _ => None) 3 ∅) in
  run 0 = Some (Ok, Some tool_output) /\ run 256 = Some (Error, None).
Proof. by vm_compute. Qed.

Lemma idmap_contract_witness :
  flatten_path IDMAP_PREFIX IDMAP_SUFFIX overlay_apk PATH_MAX = Some overlay_idmap /\
  let s := PState (fun _ => None) 3 ∅ in
  let ran := tool_ran (world := proc_fs 0) (lit "/system/app/A.apk") overlay_apk overlay_idmap 1000 in
  exists r w',
    idmap_run 0 s = Some (r, w') /\ open_fds w' = open_fds s /\
    (forall q, ~ below overlay_idmap q -> proc_view w' q = proc_view s q) /\
    match r with
    | Ok => (exists w1, ran run_idmap w1 /\ proc_view w' overlay_idmap = proc_view w1 overlay_idmap) \/
            exists w1, ran run_verify_idmap w1
    | Error => gone (view := proc_view) (is_dir := n_dir) overlay_idmap w' \/
               proc_view w' overlay_idmap = proc_view s overlay_idmap \/
               exists w1, ran run_verify_idmap w1 /\ proc_view w' overlay_idmap = proc_view w1 overlay_idmap
    | Denied _ => False
    end.
Proof.
  split; [by vm_compute|].
  apply (idmap_contract (world := proc_fs 0) (proc := proc_table) (aid := aid_android) proc_view n_dir
           (lit "/system/app/A.apk") overlay_apk overlay_idmap 1000 (PState (fun _ => None) 3 ∅)).
  by vm_compute.
Defined.

Definition signed_apk : str := lit "/data/app/com.foo-1/base.apk".
Definition apk_state : pstate := PState (fun q => if q =s? signed_apk then Some (Node false 420 (lit "apk")) else None) 3 ∅.

Lemma verity_contract_witness :
  let pad := Z.to_nat (verity_padding 3) in
  exists r w' n',
    installApkVerity (world := proc_fs 0) (proc := proc_table) (aid := aid_android) 1000 signed_apk 9 4 apk_state = Some (r, w') /\
    open_fds w' = open_fds apk_state /\
    (forall q, ~ below signed_apk q -> proc_view w' q = proc_view apk_state q) /\
    proc_view w' signed_apk = Some n' /\ (exists t, n_data n' = lit "apk" ++ t) /\
    (pad < 4096)%nat /\ (Z.of_nat (3 + pad) mod kVerityPageSize = 0) /\
    (r = Ok -> verity_mode apk_state = true ->
       exists w1, n_data n' = lit "apk" ++ repeat nul pad ++ take 4 (ashmem_bytes (w1 : pstate) 9)).
Proof.
  apply (verity_contract (world := proc_fs 0) (proc := proc_table) (aid := aid_android) proc_view n_dir n_data 1000 signed_apk 9 4
           (Node false 420 (lit "apk")) apk_state); [by vm_compute|by vm_compute|done|done].
Defined.

Lemma code_requests_confined_witness :
  let r := CreateOatDir (lit "/data/app/com.foo-1/oat") (lit "arm64") in
  exists reply w',
    serve_code (world := proc_fs 0) (proc := proc_table) (aid := aid_android) dex_globals 1000 r apk_state = Some (reply, w') /\
    open_fds w' = open_fds apk_state /\ forall q, elsewhere dex_globals q -> proc_view w' q = proc_view apk_state q.
Proof.
  apply (code_requests_confined (world := proc_fs 0) (proc := proc_table) (aid := aid_android) proc_view n_dir dex_globals 1000
           (CreateOatDir (lit "/data/app/com.foo-1/oat") (lit "arm64")) apk_state); [done| |].
  - repeat (apply Forall_cons; split; [by apply Nat.ltb_lt; vm_compute|]). apply Forall_nil_2.
  - repeat (apply Forall_cons; split; [by vm_compute|]). apply Forall_nil_2.
Defined.

(** The instruction set may lead out of the directories. *)
Lemma oat_dir_escapes :
  (fst <$> createOatDir (world := proc_fs 0) (aid := aid_android) dex_globals 1000 (lit "/data/app/com.foo-1/oat")
             (lit "../../../../system/x") apk_state) = Some Ok.
Proof. by vm_compute. Qed.

(** A long instruction set overruns the buffer of the marker. *)
Lemma boot_marker_overrun :
  markBootComplete (world := proc_fs 0) (aid := aid_android) dex_globals 1000 (repeat dot 1024) apk_state = None.
Proof. by vm_compute. Qed.
