(* ===== verification/OtaMain.v ===== *)
(** The main program of [otapreopt]: [installd/otapreopt.cpp] around the
    decoding of its arguments ([OtaParameters]) and the paths of its slot
    ([DexPaths]), with [system_properties.h], [file_parsing.h] and
    [otapreopt_utils.cpp].

    [OtaReads] are the questions that only this program asks. *)

From S2P Require Import Prelude CLib Platform Fts InstalldPaths InstalldFs Quota FreeCache World SimpleFs AppPaths AppData.
From S2P Require Import OtaParameters DexPaths Dex2oat Descriptors ProcFs Profiles Artifacts SecondaryDex Dexopt.

Open Scope Z_scope.

Class OtaReads (W : Type) := {
  file_text : W -> str -> option str;          (* std::ifstream *)
  own_env : W -> str -> option str;            (* getenv *)
  setenv_fails : W -> bool;
  random_delta : W -> Z -> Z -> Z;             (* a draw of the distribution on [min, max] *)
}.

(** * Files of lines *)

Section ParseFile.
Context {S : Type} (parse : str -> S -> bool * S).

(** The loop: empty lines and comments are passed over. *)
Fixpoint parse_lines (fuel : nat) (i : istream) (s : S) : option (bool * S) :=
  match fuel with
  | O => None
  | Datatypes.S fuel' =>
      if eof i then Some (true, s)
      else
        let '(line, i) := getline newline i [] in
        match line with
        | [] => parse_lines fuel' i s
        | c :: _ =>
            if Ascii.eqb c "#"%char then parse_lines fuel' i s
            else
              let '(ok, s) := parse line s in
              if ok then parse_lines fuel' i s else Some (false, s)
        end
  end.

(** [None] for a file that cannot be opened. Every line takes a step:
    [parse_file_lines]. *)
Definition ParseFile (file : option str) (s : S) : option (bool * S) :=
  match file with
  | None => Some (false, s)
  | Some text => parse_lines (2 + length text) (Istream text false) s
  end.

End ParseFile.

(** * Properties *)

Abbreviation properties := (gmap str str).

Definition GetProperty (key : str) (m : properties) : option str := m !! key.

(** [insert] keeps the value that is there. *)
Definition SetProperty (key value : str) (m : properties) : properties :=
  match m !! key with Some _ => m | None => <[key := value]> m end.

Definition load_line (line : str) (m : properties) : bool * properties :=
  match find_char "="%char line 0 with
  | None | Some O => (true, m)
  | Some equals_pos => (true, SetProperty (take equals_pos line) (drop (equals_pos + 1) line) m)
  end.

Definition Load (file : option str) (m : properties) : option (bool * properties) := ParseFile load_line file m.

(** The plug-in function: the length and what is in the buffer; [None] where
    nothing was written. *)
Definition kPropertyValueMax : nat := 92.

Definition ota_get_property (m : properties) (key : str) (default_value : option str) : Z * option str :=
  match GetProperty key m with
  | None =>
      match default_value with
      | None => (0, None)
      | Some d => (Z.of_nat (length d), Some (take (kPropertyValueMax - 2) d))
      end
  | Some v =>
      let size := (Nat.min (kPropertyValueMax - 1) (length v) + 1)%nat in
      (Z.of_nat (size - 1), Some (take (size - 1) v))
  end.

(** * The environment *)

(** The first characters that satisfy [P], and the rest. *)
Fixpoint span (P : ascii -> bool) (s : str) : str * str :=
  match s with
  | c :: s' => if P c then let '(a, b) := span P s' in (c :: a, b) else ([], s)
  | [] => ([], [])
  end.

Definition not_space (c : ascii) : bool := negb (is_space c).

(** The regular expression of [ReadEnvironment] against a whole line: spaces,
    [export], spaces, a name, spaces and a value. *)
Definition export_match (line : str) : option (str * str) :=
  let rest := snd (span is_space line) in
  if negb (prefixb (lit "export") rest) then None
  else
    let '(gap, rest) := span is_space (drop 6 rest) in
    let '(name, rest) := span not_space rest in
    let '(gap2, value) := span is_space rest in
    let '(value, rest) := span not_space value in
    match gap, name, gap2, value, rest with
    | _ :: _, _ :: _, _ :: _, _ :: _, [] => Some (name, value)
    | _, _, _, _, _ => None
    end.

Definition export_line (line : str) (m : properties) : bool * properties :=
  match export_match line with Some (name, value) => (true, SetProperty name value m) | None => (true, m) end.

Definition kBootClassPathPropertyName : str := lit "BOOTCLASSPATH".
Definition kAndroidRootPathPropertyName : str := lit "ANDROID_ROOT".
Definition kAndroidDataPathPropertyName : str := lit "ANDROID_DATA".
Definition ASEC_MOUNTPOINT_ENV_NAME : str := lit "ASEC_MOUNTPOINT".

Record ota := Ota {
  system_properties_ : properties;
  android_root_ : str; android_data_ : str; boot_classpath_ : str; asec_mountpoint_ : str;
  parameters_ : params;
}.

(** * Relocation *)

Definition kPageSize : Z := 4096.

Definition RoundDown (x n : Z) : Z := i32 (Z.land x (- n)).
Definition RoundUp (x n : Z) : Z := RoundDown (i32 (i32 (x + n) - 1)) n.

(** [None]: a [CHECK] failed. The remainders are those of [size_t]. *)
Definition ChooseRelocationOffsetDelta (draw : Z -> Z -> Z) (min_delta max_delta : Z) : option Z :=
  if negb ((u64 min_delta mod kPageSize =? 0) && (u64 max_delta mod kPageSize =? 0) && (min_delta <? max_delta)) then None
  else
    let r := draw min_delta max_delta in
    let r := if Z.rem r 2 =? 0 then RoundUp r kPageSize else RoundDown r kPageSize in
    if (min_delta <=? r) && (r <=? max_delta) && (u64 r mod kPageSize =? 0) then Some r else None.

Open Scope io_scope.

(** * The service *)

(** Bits of the constants of the runtime: its base address, the bounds of the
    relocation, and the code of a runtime that could not start. *)
Record art := Art { GetImageBaseAddress : Z; GetImageMinBaseAddressDelta : Z; GetImageMaxBaseAddressDelta : Z; kCreateRuntime : Z }.

Definition GetOtaDirectoryPrefix (o : ota) : str := android_data_ o ++ lit "/ota".
Definition OTADataDirectory (o : ota) : str := GetOTADataDirectory (android_data_ o) (target_slot (parameters_ o)).

(** Lower-case hexadecimal digits, as [%x] prints them. *)
Definition hex_digit (d : Z) : ascii := ascii_of_N (Z.to_N (if d <? 10 then 48 + d else 87 + d)).

Fixpoint hex_digits (fuel : nat) (n : Z) (acc : str) : str :=
  match fuel with
  | O => acc
  | S fuel' =>
      let acc := hex_digit (n mod 16) :: acc in
      if n / 16 =? 0 then acc else hex_digits fuel' (n / 16) acc
  end.

Definition fmt_x (n : Z) : str := hex_digits 8 (u32 n) [].

(** [AddCompilerOptionFromSystemProperty]. *)
Definition AddCompilerOptionFromSystemProperty (m : OtaMain.properties) (system_property prefix : str) (runtime : bool)
    (out : list str) : list str :=
  match GetProperty system_property m with
  | None => out
  | Some value => out ++ (if runtime then [lit "--runtime-arg"] else []) ++ [prefix ++ value]
  end.

(** The command line that makes the boot image, with the chosen offset. *)
Definition boot_image_command (o : ota) (a : art) (boot_cp art_path oat_path isa : str) (base_offset : Z) : list str :=
  let m := system_properties_ o in
  let cmd := [kDex2oatPath; lit "--image=" ++ art_path] ++
             map (fun boot_part => lit "--dex-file=" ++ boot_part) (split_on ":" boot_cp) ++
             [lit "--oat-file=" ++ oat_path;
              lit "--base=0x" ++ fmt_x (GetImageBaseAddress a + base_offset);
              lit "--instruction-set=" ++ isa] in
  let cmd := AddCompilerOptionFromSystemProperty m (lit "dalvik.vm.image-dex2oat-Xms") (lit "-Xms") true cmd in
  let cmd := AddCompilerOptionFromSystemProperty m (lit "dalvik.vm.image-dex2oat-Xmx") (lit "-Xmx") true cmd in
  let cmd := AddCompilerOptionFromSystemProperty m (lit "dalvik.vm.image-dex2oat-filter") (lit "--compiler-filter=") false cmd in
  let cmd := cmd ++ [lit "--image-classes=/system/etc/preloaded-classes"] in
  let cmd := match GetProperty (lit "dalvik.vm.image-dex2oat-flags") m with
             | Some extra_opts => cmd ++ split_on space extra_opts
             | None => cmd
             end in
  let cmd := AddCompilerOptionFromSystemProperty m (lit "dalvik.vm.image-dex2oat-threads") (lit "-j") false cmd in
  let cmd := AddCompilerOptionFromSystemProperty m (lit "dalvik.vm.isa." ++ isa ++ lit ".variant")
               (lit "--instruction-set-variant=") false cmd in
  AddCompilerOptionFromSystemProperty m (lit "dalvik.vm.isa." ++ isa ++ lit ".features")
    (lit "--instruction-set-features=") false cmd.

Section OtaMain.
Context {W : Type} {world : World W} {proc : Process W} {reads : DexReads W} {ota_reads : OtaReads W}.
Context {aid : AidRanges} {mu : Multiuser}.
Context (debuggable : bool) (env : DexEnv) (a : art).

(** [fork], [execv] and [waitpid]; the program writes below [writes]. *)
Definition Exec (arg_vector : list str) (writes : list str) : io W bool :=
  _ ← abort_if_none (check (negb (bool_decide (arg_vector = []))));
  status ← do_call (Child arg_vector 0 writes);
  mret (WIFEXITED status && (WEXITSTATUS status =? 0)).

(** * Start *)

Definition read_file {T} (parse : str -> T -> bool * T) (path : str) (s : T) : io W (bool * T) :=
  file ← ask (fun w => file_text w path); abort_if_none (ParseFile parse file s).

Definition ReadSystemProperties (m : OtaMain.properties) : io W (bool * OtaMain.properties) :=
  '(ok, m) ← read_file load_line (lit "/default.prop") m;
  if negb ok then mret (false, m) else read_file load_line (lit "/system/build.prop") m.

(** [None]: a name is missing. *)
Definition ReadEnvironment (m : OtaMain.properties) (p : params) : io W (option ota) :=
  '(ok, m) ← read_file export_line (lit "/init.environ.rc") m;
  mret (if negb ok then None
        else
          match GetProperty kAndroidDataPathPropertyName m, GetProperty kAndroidRootPathPropertyName m,
                GetProperty kBootClassPathPropertyName m, GetProperty ASEC_MOUNTPOINT_ENV_NAME m with
          | Some data, Some root, Some boot, Some asec => Some (Ota m root data boot asec p)
          | _, _, _, _ => None
          end).

(** The globals; [setenv] does not replace what the environment has. *)
Definition CheckAndInitializeInstalldGlobals (o : ota) : io W (option globals) :=
  _ ← abort_if_none (GetProperty ASEC_MOUNTPOINT_ENV_NAME (system_properties_ o));
  failed ← ask setenv_fails;
  if failed then mret None
  else
    asec ← ask (fun w => own_env w ASEC_MOUNTPOINT_ENV_NAME);
    readable ← ask (fun w => access_read w (GetOtaDirectoryPrefix o));
    mret (if nz readable then None
          else Some (init_globals_from_data_and_root_with (android_data_ o) (android_root_ o)
                       (default (asec_mountpoint_ o) asec))).

(** The environment that the tools get. *)
Definition PrepareEnvironment (o : ota) : list str :=
  [lit "BOOTCLASSPATH=" ++ boot_classpath_ o; lit "ANDROID_DATA=" ++ OTADataDirectory o;
   lit "ANDROID_ROOT=" ++ android_root_ o].

(** * The boot image *)

(** The recursion takes components off the path; [None] where the fuel ends,
    which is never with the length of the path ([moves_create_path]). *)
Fixpoint CreatePath (fuel : nat) (path : str) : io W bool :=
  match fuel with
  | O => abort_if_none None
  | S fuel' =>
      r ← do_call (MakeDir path 457);
      if negb (nz r) then mret true
      else if negb (r =? ENOENT) then mret false
      else
        match rfind_char slash path with
        | None | Some O => mret false
        | Some last_slash =>
            parent ← CreatePath fuel' (take last_slash path);
            if negb parent then mret false
            else (r ← do_call (MakeDir path 457); mret (negb (nz r)))
        end
  end.

(** Files and links are removed, whatever else is there stays. *)
Definition ClearDirectory (dir : str) : io W unit :=
  entries ← ask (fun w => w_opendir w dir);
  match entries with
  | None => mret ()
  | Some entries =>
      for_all entries (fun de =>
        if is_dot (d_name de) then mret ()
        else if bool_decide (d_type de = DT_REG) || bool_decide (d_type de = DT_LNK) then
          _ ← do_call (RemoveFile (dir ++ lit "/" ++ d_name de)); mret ()
        else mret ())
  end.

Definition Dex2oatBootImage (o : ota) (boot_cp art_path oat_path isa isa_path : str) : io W bool :=
  draw ← ask random_delta;
  base_offset ← abort_if_none (ChooseRelocationOffsetDelta draw (GetImageMinBaseAddressDelta a) (GetImageMaxBaseAddressDelta a));
  Exec (boot_image_command o a boot_cp art_path oat_path isa base_offset) [isa_path].

(** A directory that is made unless it is there. *)
Definition ensure_path (path : str) : io W bool :=
  there ← ask (fun w => w_access w path); if there then mret true else CreatePath (length path) path.

Definition boot_art (isa_path : str) : str := isa_path ++ lit "/system@framework@boot.art".
Definition boot_oat (isa_path : str) : str := isa_path ++ lit "/system@framework@boot.oat".

Definition PrepareBootImage (o : ota) (force : bool) : io W bool :=
  match OtaParameters.instruction_set (parameters_ o) with
  | None => mret false
  | Some isa =>
      let dalvik_cache := OTADataDirectory o ++ lit "/" ++ DALVIK_CACHE in
      let isa_path := dalvik_cache ++ lit "/" ++ isa in
      made ← ensure_path dalvik_cache;
      if negb made then mret false
      else
        made ← ensure_path isa_path;
        if negb made then mret false
        else
          present ← ask (fun w => w_access w (boot_art isa_path) && w_access w (boot_oat isa_path));
          if present && negb force then mret true
          else
            _ ← (if present then ClearDirectory isa_path else mret ());
            preopted ← ask (fun w => w_access w (lit "/system/framework/" ++ isa ++ lit "/boot.art"));
            if preopted then mret true
            else
              _ ← (if present then mret () else ClearDirectory isa_path);
              Dex2oatBootImage o (boot_classpath_ o) (boot_art isa_path) (boot_oat isa_path) isa isa_path
  end.

(** * The update *)

(** The arguments of [dexopt]; [None]: a pointer that has to be there is
    null. *)
Definition preopt_args (p : params) : option dexopt_args :=
  match OtaParameters.apk_path p, OtaParameters.pkgName p, OtaParameters.instruction_set p,
        OtaParameters.compiler_filter p with
  | Some dex_path, Some pkgname, Some isa, Some filter => Some {|
    a_dex_path := dex_path; a_uid := OtaParameters.uid p; a_pkgname := pkgname; a_instruction_set := isa;
    a_dexopt_needed := OtaParameters.dexopt_needed p; a_oat_dir := OtaParameters.oat_dir p;
    a_dexopt_flags := OtaParameters.dexopt_flags p; a_compiler_filter := filter;
    a_volume_uuid := OtaParameters.volume_uuid p; a_class_loader_context := OtaParameters.shared_libraries p;
    a_se_info := default [] (OtaParameters.se_info p); a_downgrade := OtaParameters.downgrade p;
    a_target_sdk_version := OtaParameters.target_sdk_version p; a_profile_name := OtaParameters.profile_name p;
    a_dex_metadata_path := OtaParameters.dex_metadata_path p; a_compilation_reason := OtaParameters.compilation_reason p |}
  | _, _, _, _ => None
  end.

(** The plug-in functions are those of the slot. *)
Definition Dexopt (o : ota) (G : globals) (p : params) : io W Z :=
  args ← abort_if_none (preopt_args p);
  dexopt (paths := otapreopt_paths (android_data_ o) (target_slot p)) debuggable G env args.

Definition ShouldSkipPreopt (o : ota) (p : params) : io W bool :=
  apk_path ← abort_if_none (OtaParameters.apk_path p);
  preopted ← (match rfind_char slash apk_path with
              | Some last_slash =>
                  if prefixb (android_root_ o) apk_path
                  then ask (fun w => w_access w (take (last_slash + 1) apk_path ++ lit "oat")) else mret false
              | None => mret false
              end);
  if preopted then mret true
  else (there ← ask (fun w => w_access w apk_path); mret (negb there)).

Definition clear_profile_guided (p : params) : params :=
  OtaParameters.set_dexopt_flags p (Z.land (OtaParameters.dexopt_flags p) (Z.lnot DEXOPT_PROFILE_GUIDED)).

(** The last try, without the profile. *)
Definition downgraded (o : ota) (G : globals) (p : params) (dexopt_result : Z) : io W Z :=
  if negb (has_bit (OtaParameters.dexopt_flags p) DEXOPT_PROFILE_GUIDED) then mret dexopt_result
  else Dexopt o G (clear_profile_guided p).

Definition RunPreopt (o : ota) (G : globals) : io W Z :=
  let p := parameters_ o in
  skip ← ShouldSkipPreopt o p;
  if skip then mret 0
  else
    dexopt_result ← Dexopt o G p;
    if dexopt_result =? 0 then mret 0
    else if WEXITSTATUS dexopt_result =? kCreateRuntime a then
      prepared ← PrepareBootImage o true;
      if negb prepared then mret dexopt_result
      else
        dexopt_result_boot_image_retry ← Dexopt o G p;
        if dexopt_result_boot_image_retry =? 0 then mret 0 else downgraded o G p dexopt_result
    else downgraded o G p dexopt_result.

Definition Main (argc : nat) (argv : list str) (p : params) : io W Z :=
  '(read, p) ← abort_if_none (ReadArguments DEX2OAT_FROM_SCRATCH argc argv p);
  if negb read then mret 1
  else
    '(ok, m) ← ReadSystemProperties ∅;
    if negb ok then mret 2
    else
      o ← ReadEnvironment m p;
      match o with
      | None => mret 3
      | Some o =>
          G ← CheckAndInitializeInstalldGlobals o;
          match G with
          | None => mret 4
          | Some G =>
              let environ_ := PrepareEnvironment o in
              prepared ← PrepareBootImage o false;
              if negb prepared then mret 5 else RunPreopt o G
          end
      end.

End OtaMain.

Close Scope io_scope.

(** * Reading files *)

Section Lines.
Context {S : Type} (parse : str -> S -> bool * S).

(** The lines that are parsed. *)
Definition relevant (line : str) : bool := match line with [] => false | c :: _ => negb (Ascii.eqb c "#"%char) end.

Definition file_lines (text : str) : list str := List.filter relevant (split_on newline text).

(** One line after the other, up to the first that is refused. *)
Fixpoint parse_all (lines : list str) (s : S) : bool * S :=
  match lines with
  | [] => (true, s)
  | line :: rest => let '(ok, s) := parse line s in if ok then parse_all rest s else (false, s)
  end.

Lemma take_until_split c s :
  (c ∉ s /\ take_until c s = (s, None) /\ split_on c s = [s]) \/
  exists w r, s = w ++ c :: r /\ take_until c s = (w, Some r) /\ split_on c s = w :: split_on c r.
Proof.
  destruct (split_on_cases c s) as [[Hn E]|(h & r & -> & Hh & E)].
  - left. split; [done|]. split; [|done]. clear E. induction s as [|x s IH]; [done|]. cbn.
    destruct (Ascii.eqb_spec x c); [set_solver|]. by rewrite IH by set_solver.
  - right. exists h, r. split; [done|]. split; [by apply take_until_found|done].
Qed.

Lemma parse_lines_spec fuel text s : (length text + 2 <= fuel)%nat ->
  parse_lines parse fuel (Istream text false) s = Some (parse_all (file_lines text) s).
Proof.
  revert text s. induction fuel as [|fuel IH]; intros text s Hf; [lia|]. cbn [parse_lines eof]. unfold getline. cbn [eof rest].
  unfold file_lines. destruct (take_until_split newline text) as [(_ & -> & ->)|(w & r & -> & -> & ->)].
  - assert (E : forall s, parse_lines parse fuel (Istream [] true) s = Some (true, s)) by (intros s0; destruct fuel; [lia|done]).
    cbn [List.filter relevant]. destruct text as [|c text]; [apply E|]. cbn [relevant].
    destruct (Ascii.eqb c "#"); cbn [negb]; [apply E|]. cbn [parse_all]. destruct (parse _ s) as [[] s1]; [apply E|done].
  - rewrite length_app in Hf. cbn [length] in Hf. cbn [List.filter]. destruct w as [|c w]; [apply IH; lia|]. cbn [relevant].
    destruct (Ascii.eqb c "#"); cbn [negb]; [apply IH; cbn in Hf; lia|]. cbn [parse_all].
    destruct (parse _ s) as [[] s1]; [apply IH; cbn in Hf; lia|done].
Qed.

Lemma parse_file_lines text s : ParseFile parse (Some text) s = Some (parse_all (file_lines text) s).
Proof. apply parse_lines_spec. lia. Qed.

End Lines.

(** Pairs that are inserted in turn: the first of a key counts. *)
Definition first_value (k : str) (kvs : list (str * str)) : option str := snd <$> List.find (fun kv => fst kv =s? k) kvs.

Definition set_pairs (kvs : list (str * str)) (m : properties) : properties :=
  foldl (fun m kv => SetProperty (fst kv) (snd kv) m) m kvs.

Lemma set_pairs_lookup kvs m k :
  set_pairs kvs m !! k = match m !! k with Some v => Some v | None => first_value k kvs end.
Proof.
  revert m. induction kvs as [|[x v] kvs IH]; intros m; [unfold set_pairs, first_value; cbn [foldl List.find]; by destruct (m !! k)|]. cbn [set_pairs foldl fst snd].
  change (foldl _ _ kvs) with (set_pairs kvs (SetProperty x v m)). rewrite IH. unfold SetProperty, first_value. cbn [List.find fst].
  unfold str_eqb. destruct (m !! x) as [u|] eqn:Ex.
  - case_bool_decide as E; [subst; by rewrite Ex|done].
  - case_bool_decide as E; [subst; rewrite lookup_insert_eq; by rewrite Ex|by rewrite lookup_insert_ne].
Qed.

Lemma set_pairs_app a b m : set_pairs (a ++ b) m = set_pairs b (set_pairs a m).
Proof. unfold set_pairs. by rewrite foldl_app. Qed.

(** What a line of a property file says. *)
Definition key_value (line : str) : option (str * str) :=
  match find_char "="%char line 0 with
  | None | Some O => None
  | Some equals_pos => Some (take equals_pos line, drop (equals_pos + 1) line)
  end.

Lemma parse_all_pairs (parse : str -> properties -> bool * properties) (pair : str -> option (str * str)) lines m :
  (forall line m, parse line m = (true, match pair line with Some kv => SetProperty (fst kv) (snd kv) m | None => m end)) ->
  parse_all parse lines m = (true, set_pairs (omap pair lines) m).
Proof.
  intros H. revert m. induction lines as [|line lines IH]; intros m; [done|]. cbn [parse_all omap list_omap]. rewrite H, IH.
  by destruct (pair line).
Qed.

Lemma load_pairs text m : Load (Some text) m = Some (true, set_pairs (omap key_value (file_lines text)) m).
Proof.
  unfold Load. rewrite parse_file_lines. f_equal. apply parse_all_pairs. intros line m0. unfold load_line, key_value.
  by destruct (find_char _ _ _) as [[|n]|].
Qed.

Lemma export_pairs text m :
  ParseFile export_line (Some text) m = Some (true, set_pairs (omap export_match (file_lines text)) m).
Proof.
  rewrite parse_file_lines. f_equal. apply parse_all_pairs. intros line m0. unfold export_line.
  by destruct (export_match line) as [[n v]|].
Qed.

(** ** The regular expression *)

Lemma span_spec P s : exists a b, span P s = (a, b) /\ s = a ++ b /\ forallb P a = true /\
  match b with [] => True | c :: _ => P c = false end.
Proof.
  induction s as [|c s IH]; [by exists [], []|]. cbn. destruct (P c) eqn:E.
  - destruct IH as (a & b & -> & -> & Ha & Hb). exists (c :: a), b. cbn. by rewrite E, Ha.
  - by exists [], (c :: s).
Qed.

Lemma span_app P a b : forallb P a = true -> match b with [] => True | c :: _ => P c = false end -> span P (a ++ b) = (a, b).
Proof.
  intros Ha Hb. induction a as [|c a IH]; cbn in *.
  - destruct b as [|c b]; [done|]. cbn. by rewrite Hb.
  - apply andb_true_iff in Ha as [-> Ha]. by rewrite (IH Ha).
Qed.

(** What the expression describes. *)
Record exports (line name value : str) : Prop := {
  exports_shape : exists lead gap gap2, line = lead ++ lit "export" ++ gap ++ name ++ gap2 ++ value /\
    forallb is_space lead = true /\ forallb is_space gap = true /\ forallb is_space gap2 = true /\ gap <> [] /\ gap2 <> [];
  exports_name : name <> [] /\ forallb not_space name = true;
  exports_value : value <> [] /\ forallb not_space value = true;
}.

Lemma starts_word w rest : w <> [] -> forallb not_space w = true -> match w ++ rest with [] => True | c :: _ => is_space c = false end.
Proof. intros Hn H. destruct w as [|c w]; [done|]. cbn in *. apply andb_true_iff in H as [H _]. by apply negb_true_iff in H. Qed.

Lemma starts_gap g rest : g <> [] -> forallb is_space g = true -> match g ++ rest with [] => True | c :: _ => not_space c = false end.
Proof. intros Hn H. destruct g as [|c g]; [done|]. cbn in *. apply andb_true_iff in H as [H _]. unfold not_space. by rewrite H. Qed.

Lemma export_match_exports line name value : export_match line = Some (name, value) <-> exports line name value.
Proof.
  split.
  - unfold export_match. destruct (span_spec is_space line) as (lead & rest & -> & -> & Hl & _). cbn [snd].
    destruct (prefixb (lit "export") rest) eqn:Ep; [|done]. cbn [negb]. apply prefixb_spec in Ep as [t ->].
    change 6%nat with (length (lit "export")). rewrite drop_app_length.
    destruct (span_spec is_space t) as (gap & t1 & -> & -> & Hg & _).
    destruct (span_spec not_space t1) as (nm & t2 & -> & -> & Hn & _).
    destruct (span_spec is_space t2) as (gap2 & t3 & -> & -> & Hg2 & _).
    destruct (span_spec not_space t3) as (v & t4 & -> & -> & Hv & _).
    destruct gap as [|g gap]; [done|]. destruct nm as [|n nm]; [done|]. destruct gap2 as [|g2 gap2]; [done|].
    destruct v as [|v0 v]; [done|]. destruct t4; [|done]. intros [= <- <-]. rewrite app_nil_r.
    split; [exists lead, (g :: gap), (g2 :: gap2); by split_and!|done|done].
  - intros [(lead & gap & gap2 & -> & Hl & Hg & Hg2 & Hne & Hne2) [Hn0 Hn] [Hv0 Hv]]. unfold export_match.
    rewrite (span_app is_space lead) by (try done; by vm_compute). cbn [snd]. rewrite prefixb_app. cbn [negb].
    change 6%nat with (length (lit "export")). rewrite drop_app_length.
    rewrite (span_app is_space gap) by (try done; by apply starts_word).
    rewrite (span_app not_space name) by (try done; by apply starts_gap).
    rewrite (span_app is_space gap2) by (try done; pose proof (starts_word value [] Hv0 Hv) as H; by rewrite app_nil_r in H).
    pose proof (span_app not_space value [] Hv I) as H. rewrite app_nil_r in H. rewrite H.
    destruct gap, name, gap2, value; done.
Qed.

(** ** Offsets *)

Lemma RoundDown_value x : -2147483648 <= x < 2147483648 -> RoundDown x kPageSize = x - x mod 4096.
Proof.
  intros Hx. unfold RoundDown, kPageSize. change (Z.opp 4096) with (Z.lnot (Z.ones 12)).
  rewrite <- Z.ldiff_land, Z.ldiff_ones_r by lia. rewrite Z.shiftl_mul_pow2, Z.shiftr_div_pow2 by lia. change (2 ^ 12) with 4096.
  pose proof (Z.div_mod x 4096 ltac:(lia)). replace (x / 4096 * 4096) with (x - x mod 4096) by lia.
  apply i32_small. pose proof (Z.mod_pos_bound x 4096 ltac:(lia)).
  pose proof (Z.div_le_mono (-2147483648) x 4096 ltac:(lia) ltac:(lia)).
  change (-2147483648 / 4096) with (-524288) in *. lia.
Qed.

Lemma RoundUp_value x : -2147483648 <= x < 2147479552 -> RoundUp x kPageSize = (x + 4095) - (x + 4095) mod 4096.
Proof.
  intros Hx. unfold RoundUp. rewrite (i32_small (x + kPageSize)) by (unfold kPageSize; lia).
  rewrite i32_small by (unfold kPageSize; lia). replace (x + kPageSize - 1) with (x + 4095) by (unfold kPageSize; lia).
  apply RoundDown_value. lia.
Qed.

Lemma u64_page x : u64 x mod kPageSize = x mod 4096.
Proof.
  unfold u64, kPageSize. apply Z.mod_mod_divide. by exists (2 ^ 52).
Qed.

(** Rounding stays between bounds that are multiples of the page size. *)
Lemma rounded x lo hi : lo mod 4096 = 0 -> hi mod 4096 = 0 -> lo <= x <= hi ->
  (lo <= x - x mod 4096 <= hi /\ (x - x mod 4096) mod 4096 = 0) /\
  (lo <= (x + 4095) - (x + 4095) mod 4096 <= hi /\ ((x + 4095) - (x + 4095) mod 4096) mod 4096 = 0).
Proof.
  intros Hlo Hhi Hx. apply Z.mod_divide in Hlo as [a ->]; [|lia]. apply Z.mod_divide in Hhi as [b ->]; [|lia].
  pose proof (Z.div_mod x 4096 ltac:(lia)). pose proof (Z.mod_pos_bound x 4096 ltac:(lia)).
  pose proof (Z.div_mod (x + 4095) 4096 ltac:(lia)). pose proof (Z.mod_pos_bound (x + 4095) 4096 ltac:(lia)).
  replace (x - x mod 4096) with (x / 4096 * 4096) by lia.
  replace (x + 4095 - (x + 4095) mod 4096) with ((x + 4095) / 4096 * 4096) by lia.
  rewrite !Z.mod_mul by lia. lia.
Qed.

(** ** Directories *)

(** [mkdir] makes one directory and changes nothing else. *)
Class MkdirOk {W : Type} (world : World W) {Node : Type} (view : W -> str -> option Node) : Prop :=
  mkdir_only : forall p mode w q, comps q <> comps p -> view (snd (w_call (MakeDir p mode) w)) q = view w q.

(** The draws are from the interval. *)
Class DrawOk {W : Type} (ota_reads : OtaReads W) : Prop :=
  draw_between : forall w lo hi, lo <= hi -> lo <= random_delta w lo hi <= hi.

(** The bounds of the relocation, as the runtime defines them. *)
Record art_ok (a : art) : Prop := {
  delta_pages : GetImageMinBaseAddressDelta a mod 4096 = 0 /\ GetImageMaxBaseAddressDelta a mod 4096 = 0;
  delta_order : -2147483648 <= GetImageMinBaseAddressDelta a < GetImageMaxBaseAddressDelta a;
  delta_small : GetImageMaxBaseAddressDelta a < 2147479552;
}.

Lemma offset_chosen draw lo hi : lo mod 4096 = 0 -> hi mod 4096 = 0 -> -2147483648 <= lo < hi -> hi < 2147479552 ->
  lo <= draw lo hi <= hi ->
  exists d, ChooseRelocationOffsetDelta draw lo hi = Some d /\ lo <= d <= hi /\ d mod 4096 = 0.
Proof.
  intros Hlo Hhi Ho Hs Hd. unfold ChooseRelocationOffsetDelta. rewrite !u64_page, Hlo, Hhi.
  rewrite (proj2 (Z.ltb_lt lo hi)) by lia. cbn [negb andb Z.eqb].
  rewrite RoundUp_value, RoundDown_value by lia. destruct (rounded (draw lo hi) lo hi Hlo Hhi Hd) as [[H1 H2] [H3 H4]].
  destruct (Z.rem (draw lo hi) 2 =? 0); rewrite ?H2, ?H4.
  - eexists. split; [by rewrite (proj2 (Z.leb_le lo _)), (proj2 (Z.leb_le _ hi)) by lia|done].
  - eexists. split; [by rewrite (proj2 (Z.leb_le lo _)), (proj2 (Z.leb_le _ hi)) by lia|done].
Qed.

Section Contract.
Context {W : Type} {world : World W} {proc : Process W} {reads : DexReads W} {ota_reads : OtaReads W}.
Context {Node : Type} {view : W -> str -> option Node} {is_dir : Node -> bool}.
Context {ok : WorldOk world view is_dir} {pok : ProcessOk world proc view} {mk : MkdirOk world view} {draws : DrawOk ota_reads}.
Context {aid : AidRanges} {mu : Multiuser}.
Context (S : str -> Prop).

Lemma moves_for_all {A} (xs : list A) (body : A -> io W unit) l :
  Forall (fun x => moves (view := view) S l (body x) (fun _ => l)) xs -> moves (view := view) S l (for_all xs body) (fun _ => l).
Proof.
  induction 1 as [|x xs Hx _ IH]; [by apply moves_ret|]. cbn [for_all].
  by eapply (moves_bind _ _ _ _ (fun _ => l)); [exact Hx|intros _].
Qed.

Lemma moves_mkdir path mode l : (forall q, S q -> ~ below q path) ->
  moves (view := view) S l (do_call (MakeDir path mode)) (fun _ => l).
Proof.
  intros H base l' w Ho. apply wp_call. split; [eapply owns_same; [by apply other_calls|done]|].
  intros q Hq. apply mkdir_only. intros E. apply (H q Hq). apply below_comps. exists []. by rewrite app_nil_r, E.
Qed.

(** The components are used up before the fuel. *)
Lemma moves_create_path fuel path l : path <> [] -> (length path <= fuel)%nat -> (forall q, S q -> ~ below q path) ->
  moves (view := view) S l (CreatePath fuel path) (fun _ => l).
Proof.
  revert path. induction fuel as [|fuel IH]; intros path Hne Hf HS; [by destruct path; cbn in *; [|lia]|]. cbn [CreatePath].
  eapply (moves_bind _ _ _ _ (fun _ => l)); [by apply moves_mkdir|]. intros r.
  destruct (negb (nz r)); [by apply moves_ret|]. destruct (negb (r =? ENOENT)); [by apply moves_ret|].
  destruct (rfind_char slash path) as [[|n]|] eqn:E; [by apply moves_ret| |by apply moves_ret].
  apply rfind_char_Some in E as (a & b & -> & _ & Ha). rewrite Ha, take_app_length.
  eapply (moves_bind _ _ _ _ (fun _ => l)).
  - apply IH; [by destruct a|rewrite length_app in Hf; cbn in Hf; lia|]. intros q Hq Hb. apply (HS q Hq).
    eapply below_trans; [exact Hb|apply below_join_r].
  - intros parent. destruct (negb parent); [by apply moves_ret|].
    eapply (moves_bind _ _ _ _ (fun _ => l)); [by apply moves_mkdir|]. intros r2. by apply moves_ret.
Qed.

Lemma moves_ensure_path path l : path <> [] -> (forall q, S q -> ~ below q path) ->
  moves (view := view) S l (ensure_path path) (fun _ => l).
Proof.
  intros Hne HS. unfold ensure_path. eapply (moves_bind _ _ _ _ (fun _ => l)); [apply moves_ask|].
  intros [|]; [by apply moves_ret|by apply moves_create_path].
Qed.

(** What is removed and what a tool writes is below a directory. *)
Lemma spares_below dir p : plain p = true -> below dir p -> (forall q, S q -> ~ below dir q) -> forall q, S q -> plain p = true /\ ~ below p q.
Proof. intros Hp Hb HS q Hq. split; [done|]. intros Hq'. apply (HS q Hq). by eapply below_trans. Qed.

Lemma moves_clear dir l : plain dir = true -> (forall q, S q -> ~ below dir q) ->
  moves (view := view) S l (ClearDirectory dir) (fun _ => l).
Proof.
  intros Hp HS base l' w Ho. unfold ClearDirectory. apply wp_bind, wp_ask.
  destruct (w_opendir w dir) as [entries|] eqn:E; [|apply wp_ret; split; [done|apply agree_refl]].
  apply (moves_for_all entries _ l); [|done]. apply Forall_forall. intros de Hde.
  destruct (is_dot (d_name de)) eqn:Ed; [by apply moves_ret|]. destruct (_ || _); [|by apply moves_ret].
  eapply (moves_bind _ _ _ _ (fun _ => l)); [|intros r; by apply moves_ret]. apply moves_call; [done|].
  eapply spares_path; [reflexivity|]. change (lit "/" ++ d_name de) with (slash :: d_name de).
  apply (spares_below dir); [|apply below_join_r|done]. rewrite plain_app, Hp.
  rewrite plain_single by by apply (listed_names w dir entries de). by rewrite Ed.
Qed.

Lemma moves_Exec argv dir l : argv <> [] -> plain dir = true -> (forall q, S q -> ~ below dir q) ->
  moves (view := view) S l (Exec argv [dir]) (fun _ => l).
Proof.
  intros Ha Hp HS. unfold Exec. eapply moves_at_some; [by rewrite bool_decide_false by done|].
  eapply (moves_bind _ _ _ _ (fun _ => l)); [|intros r; by apply moves_ret]. apply moves_call; [done|].
  eapply spares_path; [reflexivity|]. apply (spares_below dir); [done|apply below_refl|done].
Qed.

Lemma below_child p q n : slash ∉ n -> below q (p ++ slash :: n) -> below q p \/ q = p ++ slash :: n.
Proof.
  intros Hn Hb. apply below_comps in Hb as [ls Hb]. rewrite comps_join in Hb by done.
  destruct ls as [|x ls _] using rev_ind.
  - right. apply comps_inj. rewrite app_nil_r in Hb. by rewrite comps_join by done.
  - left. rewrite app_assoc in Hb. apply app_inj_tail in Hb as [Hb _]. apply below_comps. by exists ls.
Qed.

Lemma boot_image_command_some o a boot_cp art_path oat_path isa off :
  boot_image_command o a boot_cp art_path oat_path isa off <> [].
Proof.
  assert (H : forall m k p r x, x <> [] -> AddCompilerOptionFromSystemProperty m k p r x <> []).
  { intros m k p r x Hx. unfold AddCompilerOptionFromSystemProperty. destruct (GetProperty k m); [|done]. by destruct x. }
  unfold boot_image_command. cbv zeta. do 3 apply H. destruct (GetProperty _ _).
  - intros E. apply app_eq_nil in E as [E _]. apply app_eq_nil in E as [_ E]. done.
  - intros E. apply app_eq_nil in E as [_ E]. done.
Qed.

(** The cache of the slot, for the instruction set. *)
Definition slot_cache (o : ota) : str := OTADataDirectory o ++ lit "/" ++ DALVIK_CACHE.

Lemma moves_boot_image o a isa_path isa l : art_ok a -> plain isa_path = true -> (forall q, S q -> ~ below isa_path q) ->
  moves (view := view) S l (Dex2oatBootImage a o (boot_classpath_ o) (boot_art isa_path) (boot_oat isa_path) isa isa_path) (fun _ => l).
Proof.
  intros [[Hlo Hhi] Ho Hs] Hp HS base l' w Hw. unfold Dex2oatBootImage. apply wp_bind, wp_ask.
  destruct (offset_chosen (random_delta w) _ _ Hlo Hhi Ho Hs) as (d & Hd & _); [apply draw_between; lia|].
  apply wp_bind. eapply wp_some; [exact Hd|]. eapply (moves_Exec _ isa_path); [apply boot_image_command_some|done..].
Qed.

Lemma moves_prepare o a force l : art_ok a -> plain (OTADataDirectory o) = true ->
  (forall isa, OtaParameters.instruction_set (parameters_ o) = Some isa -> name_ok isa) ->
  (forall q, S q -> ~ below (slot_cache o) q /\ ~ below q (slot_cache o)) ->
  moves (view := view) S l (PrepareBootImage a o force) (fun _ => l).
Proof.
  intros Ha Hp Hisa HS. unfold PrepareBootImage. destruct (OtaParameters.instruction_set (parameters_ o)) as [isa|]; [|by apply moves_ret].
  destruct (Hisa isa eq_refl) as (Hi1 & Hi2 & Hi3). cbv zeta. change (OTADataDirectory o ++ lit "/" ++ DALVIK_CACHE) with (slot_cache o).
  set (isa_path := slot_cache o ++ lit "/" ++ isa).
  assert (Hin : below (slot_cache o) isa_path) by apply below_join_r.
  assert (Hcache : plain (slot_cache o) = true).
  { unfold slot_cache. change (lit "/" ++ DALVIK_CACHE) with (slash :: DALVIK_CACHE). by rewrite plain_app, Hp. }
  assert (Hplain : plain isa_path = true).
  { unfold isa_path. change (lit "/" ++ isa) with (slash :: isa). by rewrite plain_app, Hcache, plain_single, Hi3 by done. }
  assert (H1 : forall q, S q -> ~ below isa_path q) by (intros q Hq Hb; apply (proj1 (HS q Hq)); by eapply below_trans).
  assert (H2 : forall q, S q -> ~ below q isa_path).
  { intros q Hq [Hb|Hb]%below_child; [by apply (HS q Hq)| |done]. subst q. by apply (proj1 (HS _ Hq)). }
  eapply (moves_bind _ _ _ _ (fun _ => l)).
  { apply moves_ensure_path; [|by intros q Hq; apply HS]. unfold slot_cache. by destruct (OTADataDirectory o). }
  intros made. destruct (negb made); [by apply moves_ret|].
  eapply (moves_bind _ _ _ _ (fun _ => l)); [apply moves_ensure_path; [by unfold isa_path; destruct (slot_cache o)|done]|].
  clear made. intros made. destruct (negb made); [by apply moves_ret|].
  eapply (moves_bind _ _ _ _ (fun _ => l)); [apply moves_ask|]. intros present.
  destruct (present && negb force); [by apply moves_ret|].
  eapply (moves_bind _ _ _ _ (fun _ => l)); [destruct present; [by apply moves_clear|by apply moves_ret]|intros _].
  eapply (moves_bind _ _ _ _ (fun _ => l)); [apply moves_ask|]. intros [|]; [by apply moves_ret|].
  eapply (moves_bind _ _ _ _ (fun _ => l)); [destruct present; [by apply moves_ret|by apply moves_clear]|intros _].
  by apply moves_boot_image.
Qed.

End Contract.

(** ** The update *)

Section Update.
Context {W : Type} {world : World W} {proc : Process W} {reads : DexReads W} {ota_reads : OtaReads W}.
Context {Node : Type} {view : W -> str -> option Node} {is_dir : Node -> bool}.
Context {ok : WorldOk world view is_dir} {pok : ProcessOk world proc view} {fok : FileOps world view is_dir}.
Context {mk : MkdirOk world view} {draws : DrawOk ota_reads} {aid : AidRanges} {mu : Multiuser}.
Context (debuggable : bool) (env : DexEnv) (a : art) (o : ota) (G : globals) (path : artifact -> str) (args : dexopt_args).

Abbreviation gone := (gone (view := view) (is_dir := is_dir)).

Let p := parameters_ o.
Let slot_paths : OatPaths := otapreopt_paths (android_data_ o) (target_slot p).
#[local] Existing Instance slot_paths.

(** What the update server passes on for an apk: a request that no [CHECK]
    refuses, for artifacts that lie outside the cache of the slot. *)
Record preopt_ok : Prop := {
  po_art : art_ok a;
  po_args : preopt_args p = Some args;
  po_request : request_ok debuggable G args;
  po_primary : has_bit (a_dexopt_flags args) DEXOPT_SECONDARY_DEX = false;
  po_outputs : outputs_ok G path (a_pkgname args) (a_profile_name args);
  po_oat : create_oat_out_path G (a_dex_path args) (a_instruction_set args) (a_oat_dir args) false = Some (Some (path Oat));
  po_slot : plain (OTADataDirectory o) = true;
  po_isa : name_ok (a_instruction_set args);
  po_apart : forall x, ~ below (slot_cache o) (path x) /\ ~ below (path x) (slot_cache o);
}.

Context (Hok : preopt_ok).

(** The request with other flags. *)
Definition with_flags (flags : Z) : dexopt_args := {|
  a_dex_path := a_dex_path args; a_uid := a_uid args; a_pkgname := a_pkgname args; a_instruction_set := a_instruction_set args;
  a_dexopt_needed := a_dexopt_needed args; a_oat_dir := a_oat_dir args; a_dexopt_flags := flags;
  a_compiler_filter := a_compiler_filter args; a_volume_uuid := a_volume_uuid args;
  a_class_loader_context := a_class_loader_context args; a_se_info := a_se_info args; a_downgrade := a_downgrade args;
  a_target_sdk_version := a_target_sdk_version args; a_profile_name := a_profile_name args;
  a_dex_metadata_path := a_dex_metadata_path args; a_compilation_reason := a_compilation_reason args |}.

Lemma cleared_args : preopt_args (clear_profile_guided p) = Some (with_flags (Z.land (a_dexopt_flags args) (Z.lnot DEXOPT_PROFILE_GUIDED))).
Proof.
  generalize (po_args Hok). unfold p. generalize (parameters_ o). intros q. unfold preopt_args, clear_profile_guided.
  destruct q; cbn. repeat (case_match; [|done]). intros [= E]. unfold with_flags. by rewrite <- E.
Qed.

Lemma cleared_bit f b : Z.land (Z.lnot DEXOPT_PROFILE_GUIDED) b = b ->
  has_bit (Z.land f (Z.lnot DEXOPT_PROFILE_GUIDED)) b = has_bit f b.
Proof. intros H. unfold has_bit. by rewrite <- Z.land_assoc, H. Qed.

Lemma cleared_request : request_ok debuggable G (with_flags (Z.land (a_dexopt_flags args) (Z.lnot DEXOPT_PROFILE_GUIDED))).
Proof.
  destruct (po_request Hok) as [Hn Hf Hp Hs]. pose proof (po_primary Hok) as Hprim.
  split; cbn [with_flags a_dexopt_flags a_pkgname a_dex_path a_instruction_set a_oat_dir a_volume_uuid]; [done| | |].
  - by rewrite <- Z.land_assoc, (Z.land_comm (Z.lnot _)), Z.land_assoc, Hf.
  - intros _. rewrite !cleared_bit by done. by apply Hp.
  - rewrite cleared_bit by done. by rewrite Hprim.
Qed.

Lemma request_of_slot flags : (flags = a_dexopt_flags args \/ flags = Z.land (a_dexopt_flags args) (Z.lnot DEXOPT_PROFILE_GUIDED)) ->
  request_ok debuggable G (with_flags flags) /\ has_bit flags DEXOPT_SECONDARY_DEX = false.
Proof.
  intros [-> | ->].
  - split; [|apply (po_primary Hok)]. destruct (po_request Hok) as [Hn Hf Hp Hs]. by split.
  - split; [apply cleared_request|]. rewrite cleared_bit by done. apply (po_primary Hok).
Qed.

(** Both tries are requests of the slot. *)
Definition tries (q : params) : Prop := q = p \/ q = clear_profile_guided p.

Lemma tries_args q : tries q -> exists flags, preopt_args q = Some (with_flags flags) /\ target_slot q = target_slot p /\
  request_ok debuggable G (with_flags flags) /\ has_bit flags DEXOPT_SECONDARY_DEX = false.
Proof.
  intros [-> | ->].
  - exists (a_dexopt_flags args). split; [|split; [done|]]; [|apply request_of_slot; by left].
    rewrite (po_args Hok). unfold with_flags. generalize args. by intros [].
  - eexists. split; [apply cleared_args|]. split; [|apply request_of_slot; by right].
    reflexivity.
Qed.

Lemma moves_preopt q l : tries q -> moves (view := view) anywhere l (Dexopt debuggable env o G q) (fun _ => l).
Proof.
  intros Hq. destruct (tries_args q Hq) as (flags & Ha & Hs & Hr & _). unfold Dexopt. eapply moves_at_some; [exact Ha|].
  rewrite Hs. apply moves_any. by apply (moves_dexopt view is_dir).
Qed.

Lemma wlp_preopt q w : tries q ->
  wlp (Dexopt debuggable env o G q) (result (view := view) (is_dir := is_dir) path w) w.
Proof.
  intros Hq. destruct (tries_args q Hq) as (flags & Ha & Hs & _ & Hb). unfold Dexopt. rewrite Ha, Hs.
  apply wlp_bind, wlp_some. intros x [= <-].
  by apply (wlp_dexopt debuggable G env path (a_pkgname args) (a_profile_name args) (po_outputs Hok) (with_flags flags) eq_refl eq_refl Hb w (po_oat Hok)).
Qed.

(** The boot image is made anew. *)
Lemma moves_renewed S l : (forall q, S q -> exists x, q = path x) ->
  moves (view := view) S l (PrepareBootImage a o true) (fun _ => l).
Proof.
  intros HS. apply moves_prepare; [apply (po_art Hok)|apply (po_slot Hok)| |].
  - intros isa Hisa. pose proof (po_args Hok) as E. unfold preopt_args in E. fold p in Hisa. rewrite Hisa in E.
    pose proof (po_isa Hok) as Hn. repeat (case_match; [|done]). injection E as E. rewrite <- E in Hn. exact Hn.
  - intros q Hq. destruct (HS q Hq) as [x ->]. apply (po_apart Hok).
Qed.

Lemma apk_path_some : exists apk, OtaParameters.apk_path p = Some apk.
Proof. pose proof (po_args Hok) as E. unfold preopt_args in E. destruct (OtaParameters.apk_path p); [by eexists|done]. Qed.

Lemma moves_skip l : moves (view := view) anywhere l (ShouldSkipPreopt o p) (fun _ => l).
Proof.
  destruct apk_path_some as [apk E]. unfold ShouldSkipPreopt. eapply moves_at_some; [exact E|].
  eapply (moves_bind _ _ _ _ (fun _ => l)).
  - destruct (rfind_char _ _); [|by apply moves_ret]. destruct (prefixb _ _); [apply moves_ask|by apply moves_ret].
  - intros [|]; [by apply moves_ret|]. eapply (moves_bind _ _ _ _ (fun _ => l)); [apply moves_ask|]. intros there. by apply moves_ret.
Qed.

Lemma moves_run_preopt l : moves (view := view) anywhere l (RunPreopt debuggable env a o G) (fun _ => l).
Proof.
  assert (Hd : forall r, moves (view := view) anywhere l (downgraded debuggable env o G p r) (fun _ => l)).
  { intros r. unfold downgraded. destruct (negb _); [by apply moves_ret|]. apply moves_preopt. by right. }
  unfold RunPreopt. cbv zeta. fold p. eapply (moves_bind _ _ _ _ (fun _ => l)); [apply moves_skip|]. intros [|]; [by apply moves_ret|].
  eapply (moves_bind _ _ _ _ (fun _ => l)); [apply moves_preopt; by left|]. intros r. destruct (r =? 0); [by apply moves_ret|].
  destruct (_ =? kCreateRuntime a); [|apply Hd].
  eapply (moves_bind _ _ _ _ (fun _ => l)); [by apply moves_renewed|]. intros [|]; [|by apply moves_ret]. cbn [negb].
  eapply (moves_bind _ _ _ _ (fun _ => l)); [apply moves_preopt; by left|]. intros r2.
  destruct (r2 =? 0); [by apply moves_ret|apply Hd].
Qed.

(** The artifacts after some steps: each is gone or as it was. *)
Definition kept (w w' : W) : Prop := forall x, gone (path x) w' \/ view w' (path x) = view w (path x).

Lemma kept_trans w1 w2 w3 : kept w1 w2 -> kept w2 w3 -> kept w1 w3.
Proof. intros H1 H2 x. destruct (H2 x) as [|E]; [by left|]. destruct (H1 x); [left; by apply (gone_same _ w2)|right; by rewrite E]. Qed.

Definition preopt_result (w : W) (r : Z) (w' : W) : Prop :=
  (r = 0 -> ShouldSkipPreopt o p w = Some (true, w') \/ compiled (view := view) w') /\ (r <> 0 -> kept w w').

Lemma wlp_try q w w1 (Q : Z -> W -> Prop) : tries q -> kept w w1 ->
  (forall r w', preopt_result w r w' -> (r <> 0 -> kept w w') -> Q r w') -> wlp (Dexopt debuggable env o G q) Q w1.
Proof.
  intros Hq Hk HQ. eapply wlp_mono; [by apply wlp_preopt|]. intros r w' (H1 & _ & H3).
  assert (H : r <> 0 -> kept w w') by (intros Hr; exact (kept_trans w w1 w' Hk (H1 Hr))).
  apply HQ; [|done]. split; [|done]. intros Hr. right. by apply H3.
Qed.

Lemma wlp_downgraded r w w1 : r <> 0 -> kept w w1 -> wlp (downgraded debuggable env o G p r) (preopt_result w) w1.
Proof.
  intros Hr Hk. unfold downgraded. destruct (negb _); [apply wlp_ret; by split|].
  apply (wlp_try _ w); [by right|done|done].
Qed.

Lemma skip_state w b w' : ShouldSkipPreopt o p w = Some (b, w') -> w' = w.
Proof.
  unfold ShouldSkipPreopt, io_bind, abort_if_none, ask. destruct (OtaParameters.apk_path p) as [apk|]; [|done].
  destruct (rfind_char slash apk) as [n|]; [destruct (prefixb _ apk); [destruct (w_access w _)|]|]; by intros [= _ <-].
Qed.

Lemma wlp_renewed w (Q : bool -> W -> Prop) : (forall b w', kept w w' -> Q b w') -> wlp (PrepareBootImage a o true) Q w.
Proof.
  intros HQ. apply wlp_of_wp. eapply wp_mono.
  - apply (moves_start (view := view) (fun q => exists x, q = path x) (PrepareBootImage a o true) (fun _ => [])). by apply moves_renewed.
  - intros b w' H. apply HQ. intros x. right. apply H. by exists x.
Qed.

Lemma wlp_run_preopt w : wlp (RunPreopt debuggable env a o G) (preopt_result w) w.
Proof.
  unfold RunPreopt. cbv zeta. fold p. apply wlp_bind. intros skip w0 Hskip. pose proof (skip_state w skip w0 Hskip) as ->.
  destruct skip; [apply wlp_ret; split; [by left|done]|].
  apply wlp_bind, (wlp_try p w); [by left|by right|]. intros r w1 Hr Hk. destruct (Z.eqb_spec r 0) as [->|Hr0]; [by apply wlp_ret|].
  specialize (Hk Hr0). destruct (_ =? kCreateRuntime a); [|by apply wlp_downgraded].
  apply wlp_bind, wlp_renewed. intros [|] w2 H2; cbn [negb]; [|apply wlp_ret; split; [done|intros _; by apply (kept_trans w w1)]].
  apply wlp_bind, (wlp_try p w); [by left|by apply (kept_trans w w1)|]. intros r2 w3 Hr2 Hk2.
  destruct (Z.eqb_spec r2 0) as [->|Hr20]; [by apply wlp_ret|]. by apply wlp_downgraded, Hk2.
Qed.

End Update.

(** * Properties *)

(** The environment of the program. With the three files in place, the
    properties are the lines of [/default.prop], those of
    [/system/build.prop] and the [export] lines of [/init.environ.rc], in this
    order, and of a name that occurs more than once the first value counts;
    the start succeeds if and only if the four names it needs are among them,
    with these values. *)
Theorem ota_environment_spec {W : Type} {ota_reads : OtaReads W} (default_prop build_prop environ : str) (p : params) (w : W) :
  file_text w (lit "/default.prop") = Some default_prop -> file_text w (lit "/system/build.prop") = Some build_prop ->
  file_text w (lit "/init.environ.rc") = Some environ ->
  let value k := first_value k (omap key_value (file_lines default_prop ++ file_lines build_prop) ++ omap export_match (file_lines environ)) in
  exists m o,
    ReadSystemProperties ∅ w = Some ((true, m), w) /\ ReadEnvironment m p w = Some (o, w) /\
    match o with
    | Some o =>
        (forall k, GetProperty k (system_properties_ o) = value k) /\ parameters_ o = p /\
        value kAndroidDataPathPropertyName = Some (android_data_ o) /\ value kAndroidRootPathPropertyName = Some (android_root_ o) /\
        value kBootClassPathPropertyName = Some (boot_classpath_ o) /\ value ASEC_MOUNTPOINT_ENV_NAME = Some (asec_mountpoint_ o)
    | None => exists k, k ∈ [kAndroidDataPathPropertyName; kAndroidRootPathPropertyName; kBootClassPathPropertyName; ASEC_MOUNTPOINT_ENV_NAME] /\ value k = None
    end.
Proof.
  intros Hd Hb He value.
  set (m := set_pairs (omap key_value (file_lines build_prop)) (set_pairs (omap key_value (file_lines default_prop)) ∅)).
  set (m' := set_pairs (omap export_match (file_lines environ)) m).
  assert (Hm : forall k, GetProperty k m' = value k).
  { intros k. unfold GetProperty, m', m, value. rewrite <- !set_pairs_app, set_pairs_lookup, lookup_empty. by rewrite omap_app, ?app_assoc. }
  assert (Hrun : ReadSystemProperties ∅ w = Some ((true, m), w)).
  { unfold ReadSystemProperties, read_file, io_bind, ask, abort_if_none. rewrite Hd. pose proof (load_pairs default_prop ∅) as L1.
    unfold Load in L1. rewrite L1. cbn [negb]. rewrite Hb. pose proof (load_pairs build_prop (set_pairs (omap key_value (file_lines default_prop)) ∅)) as L2.
    unfold Load in L2. by rewrite L2. }
  exists m. eexists. split; [exact Hrun|].
  split; [unfold ReadEnvironment, read_file, io_bind, ask, abort_if_none; rewrite He, export_pairs; reflexivity|]. cbn [negb]. fold m'.
  rewrite !Hm. destruct (value kAndroidDataPathPropertyName) eqn:E1; [|exists kAndroidDataPathPropertyName; split; [left|done]].
  destruct (value kAndroidRootPathPropertyName) eqn:E2; [|exists kAndroidRootPathPropertyName; split; [right; left|done]].
  destruct (value kBootClassPathPropertyName) eqn:E3; [|exists kBootClassPathPropertyName; split; [do 2 right; left|done]].
  destruct (value ASEC_MOUNTPOINT_ENV_NAME) eqn:E4; [|exists ASEC_MOUNTPOINT_ENV_NAME; split; [do 3 right; left|done]].
  by split_and!.
Qed.

(** The offset of the boot image. Between bounds that are
    multiples of the page size, no [CHECK] fails, whatever is drawn, and the
    chosen offset is a multiple of the page size between the bounds. *)
Theorem relocation_in_bounds (draw : Z -> Z -> Z) (min_delta max_delta : Z) :
  min_delta mod kPageSize = 0 -> max_delta mod kPageSize = 0 ->
  - 2 ^ 31 <= min_delta < max_delta -> max_delta < 2 ^ 31 - kPageSize ->
  min_delta <= draw min_delta max_delta <= max_delta ->
  exists d, ChooseRelocationOffsetDelta draw min_delta max_delta = Some d /\ min_delta <= d <= max_delta /\ d mod kPageSize = 0.
Proof. intros Hlo Hhi Ho Hs Hd. by apply offset_chosen. Qed.

(** C35: the compilation for the other slot. Whatever fails on
    its way, it returns and closes every descriptor that it opened; a result
    of 0 means that there was nothing to do or that the compiler exited with 0
    and no file has changed since, be it in the first try, after a new boot image or
    without the profile; and after any other result each artifact is gone or as
    it was before. *)
Theorem ota_preopt_contract {W : Type} {world : World W} {proc : Process W} {reads : DexReads W} {ota_reads : OtaReads W}
    {Node : Type} (view : W -> str -> option Node) (is_dir : Node -> bool)
    {ok : WorldOk world view is_dir} {pok : ProcessOk world proc view} {fok : FileOps world view is_dir}
    {mk : MkdirOk world view} {draws : DrawOk ota_reads} {aid : AidRanges} {mu : Multiuser}
    (debuggable : bool) (env : DexEnv) (a : art) (o : ota) (G : globals) (path : artifact -> str) (args : dexopt_args) (w : W) :
  preopt_ok debuggable a o G path args ->
  exists r w',
    RunPreopt debuggable env a o G w = Some (r, w') /\ open_fds w' = open_fds w /\
    (r = 0 -> ShouldSkipPreopt o (parameters_ o) w = Some (true, w') \/ compiled (view := view) w') /\
    (r <> 0 -> forall x, gone (view := view) (is_dir := is_dir) (path x) w' \/ view w' (path x) = view w (path x)).
Proof.
  intros Hok.
  destruct (moves_whole _ _ (moves_run_preopt (is_dir := is_dir) debuggable env a o G path args Hok []) w) as (r & w' & Hr & Hf & _).
  exists r, w'. split; [done|]. split; [done|].
  exact (wlp_run_preopt (is_dir := is_dir) debuggable env a o G path args Hok w r w' Hr).
Qed.

(** ** Runs *)

#[export] Instance proc_ota : OtaReads pstate := {|
  file_text s p := n_data <$> proc_view s p;
  own_env _ _ := None;
  setenv_fails _ := false;
  random_delta _ lo hi := Z.min hi (lo + 4097);
|}.

#[export] Instance proc_draws : DrawOk proc_ota.
Proof. intros w lo hi H. cbn [random_delta proc_ota]. lia. Qed.

#[export] Instance proc_mkdir (status : Z) : MkdirOk (proc_fs status) proc_view.
Proof.
  intros p mode s q Hne. unfold proc_view. cbn [w_call proc_fs proc_call proc_fs_call fs_call].
  assert (E : q =s? p = false) by (apply bool_decide_eq_false; by intros ->).
  unfold fs_mkdir. destruct (p_fs s p); [done|]. by apply set_node_view.
Qed.

(** An update of the second slot. *)
Definition ota_params : params := {|
  OtaParameters.apk_path := Some ab_apk_path; OtaParameters.uid := 10010; OtaParameters.pkgName := Some (lit "com.foo");
  OtaParameters.instruction_set := Some (lit "arm64"); OtaParameters.dexopt_needed := SecondaryDex.DEX2OAT_FROM_SCRATCH;
  OtaParameters.oat_dir := Some ab_dir_path;
  OtaParameters.dexopt_flags := Z.lor DEXOPT_PROFILE_GUIDED DEXOPT_GENERATE_APP_IMAGE;
  OtaParameters.compiler_filter := Some (lit "speed-profile"); OtaParameters.volume_uuid := None;
  OtaParameters.shared_libraries := None; OtaParameters.se_info := None; OtaParameters.downgrade := false;
  OtaParameters.target_sdk_version := 29; OtaParameters.profile_name := Some (lit "primary.prof");
  OtaParameters.dex_metadata_path := None; OtaParameters.compilation_reason := Some (lit "ab-ota");
  target_slot := lit "_b" |}.

Definition demo_art : art := Art 1879048192 (- 16777216) 16777216 4.

Definition ota_start : pstate :=
  PState (fun q =>
    if q =s? lit "/default.prop" then Some (Node false 420 (lit "#
ro.zygote=zygote64
"))
    else if q =s? lit "/system/build.prop" then Some (Node false 420 (lit "dalvik.vm.image-dex2oat-Xmx=64m
ro.zygote=other"))
    else if q =s? lit "/init.environ.rc" then Some (Node false 420 (lit "on init
    export ANDROID_ROOT /system
    export ANDROID_DATA /data
    export ASEC_MOUNTPOINT /mnt/asec
    export BOOTCLASSPATH /system/framework/core.jar:/system/framework/framework.jar
"))
    else if q =s? lit "/data/ota" then Some (Node true 448 [])
    else p_fs dexopt_state q) 3 ∅.

Definition demo_ota : ota :=
  match ReadSystemProperties ∅ ota_start with
  | Some ((_, m), w) => match ReadEnvironment m ota_params w with Some (Some o, _) => o | _ => Ota ∅ [] [] [] [] ota_params end
  | None => Ota ∅ [] [] [] [] ota_params
  end.

Definition ota_run (status : Z) : option (Z * pstate) :=
  RunPreopt (world := proc_fs status) (proc := proc_table) (aid := aid_android) (mu := mu_android)
    false image_env demo_art demo_ota dex_globals ota_start.

Definition ota_path (x : artifact) : str := artifact_path ab_base (lit "_b") (x, true).

(** The artifacts of the other slot, and those of the running one. *)
Definition ota_files (status : Z) : option (Z * list (option str * option str)) :=
  (fun x => (fst x, map (fun y => (n_data <$> p_fs (snd x) (ota_path y), n_data <$> p_fs (snd x) (ab_base ++ extension y))) [Oat; Vdex; Image]))
    <$> ota_run status.

(** The artifacts of the running slot stay as they are. *)
Lemma ota_example :
  ota_files 0 = Some (0, map (fun old => (Some tool_output, Some (lit old))) ["old oat"; "old vdex"; "old image"]%string) /\
  ota_files 1024 = Some (1024, map (fun old => (None, Some (lit old))) ["old oat"; "old vdex"; "old image"]%string).
Proof. by vm_compute. Qed.

Definition ota_args : dexopt_args := default demo_args (preopt_args ota_params).

Lemma demo_preopt : preopt_ok (mu := mu_android) false demo_art demo_ota dex_globals ota_path ota_args.
Proof.
  assert (B : forall p q, belowb p q = false -> ~ below p q) by (intros p q H Hb%belowb_spec; by rewrite H in Hb).
  split.
  - split; [done|split; [done|reflexivity]|reflexivity].
  - by vm_compute.
  - split; [done|done| |done]. intros _. split_and!; [done|done|left; by vm_compute|]. by eexists; vm_compute.
  - by vm_compute.
  - split; [by intros []|by intros []| |by vm_compute|by vm_compute| |].
    + intros [] [] Hne; try done; by apply B; vm_compute.
    + intros []; (split; [by vm_compute|by apply B; vm_compute]).
    + intros loc p x. vm_compute (a_profile_name _). vm_compute (a_pkgname _). intros [= <-].
      vm_compute (create_reference_profile_path _ _ _ _). intros [= <-].
      split; [by vm_compute|]. destruct x; by apply B; vm_compute.
  - by vm_compute.
  - by vm_compute.
  - split_and!; [by apply find_char_None|done|by vm_compute].
  - intros []; split; by apply B; vm_compute.
Qed.

Lemma ota_preopt_contract_witness :
  exists r w',
    ota_run 1024 = Some (r, w') /\ open_fds w' = open_fds ota_start /\
    (r = 0 -> ShouldSkipPreopt (world := proc_fs 1024) demo_ota (parameters_ demo_ota) ota_start = Some (true, w') \/
              compiled (world := proc_fs 1024) (proc := proc_table) (view := proc_view) w') /\
    (r <> 0 -> forall x, gone (view := proc_view) (is_dir := n_dir) (ota_path x) w' \/
                         proc_view w' (ota_path x) = proc_view ota_start (ota_path x)).
Proof.
  unfold ota_run. generalize demo_preopt. generalize demo_ota ota_args ota_start. intros o args s Hok.
  apply (ota_preopt_contract (world := proc_fs 1024) (proc := proc_table) (aid := aid_android) (mu := mu_android)
           proc_view n_dir false image_env demo_art o dex_globals ota_path args s Hok).
Defined.

Lemma ota_environment_spec_witness :
  exists d b e m o,
    file_text ota_start (lit "/default.prop") = Some d /\ file_text ota_start (lit "/system/build.prop") = Some b /\
    file_text ota_start (lit "/init.environ.rc") = Some e /\
    ReadSystemProperties ∅ ota_start = Some ((true, m), ota_start) /\ ReadEnvironment m ota_params ota_start = Some (Some o, ota_start) /\
    GetProperty (lit "ro.zygote") (system_properties_ o) = Some (lit "zygote64").
Proof.
  do 3 eexists.
  destruct (ota_environment_spec (default [] (file_text ota_start (lit "/default.prop"))) (default [] (file_text ota_start (lit "/system/build.prop")))
              (default [] (file_text ota_start (lit "/init.environ.rc"))) ota_params ota_start) as (m & o & H1 & H2 & H3);
    [reflexivity..|].
  destruct o as [o|].
  - exists m, o. repeat (split; [reflexivity|]). split; [exact H1|]. split; [exact H2|]. destruct H3 as [H3 _].
    rewrite H3. by vm_compute.
  - exfalso. destruct H3 as (k & Hk & E). revert E. repeat (apply elem_of_cons in Hk as [->|Hk]; [by vm_compute|]). by apply not_elem_of_nil in Hk.
Defined.

Lemma relocation_in_bounds_witness :
  exists d, ChooseRelocationOffsetDelta (fun lo hi => lo + 4097) (- 16777216) 16777216 = Some d /\ - 16777216 <= d <= 16777216 /\
    d mod kPageSize = 0.
Proof. apply (relocation_in_bounds (fun lo hi => lo + 4097) (- 16777216) 16777216); [done|done|split; lia|unfold kPageSize; lia|lia]. Defined.
