(* ===== verification/Backup.v ===== *)
(** The raw backup tool: [rawbu/backup.cpp].

    A [FILE *] that is written is the bytes written and the room left on the
    device ([out]), one that is read is the bytes left. The data partition is
    read by a backup as a tree ([bnode]) and changed by a restore as a map from
    paths to nodes ([files]). The outcomes of the system calls on it are
    section variables. *)

From S2P Require Import Prelude Bytes Platform.

Open Scope Z_scope.

Definition FILE_VERSION_1 : Z := 4294901761.
Definition FILE_VERSION_2 : Z := 4294901762.
Definition FILE_VERSION : Z := FILE_VERSION_2.

Inductive special_type := SPECIAL_NO_TOUCH | SPECIAL_NO_BACKUP.

#[export] Instance special_type_eq_dec : EqDecision special_type.
Proof. solve_decision. Defined.

Definition SKIP_PATHS : list (str * special_type) :=
  [(lit "/data/misc", SPECIAL_NO_TOUCH);
   (lit "/data/system/batterystats.bin", SPECIAL_NO_TOUCH);
   (lit "/data/system/location", SPECIAL_NO_TOUCH);
   (lit "/data/dalvik-cache", SPECIAL_NO_BACKUP)].

Definition skip_path (path : str) : option special_type :=
  match List.find (fun s => fst s =s? path) SKIP_PATHS with Some (_, t) => Some t | None => None end.

(** "." and ".." and [lost+found] are never visited. *)
Definition ignored (name : str) : bool :=
  (name =s? lit ".") || (name =s? lit "..") || (name =s? lit "lost+found").

Definition join (path name : str) : str := path ++ slash :: name.

(** * Writing *)

Record out := Out { written : list Z; room : nat }.

Definition fwrite (l : list Z) (o : out) : bool * out :=
  if (length l <=? room o)%nat then (true, Out (written o ++ l) (room o - length l))
  else (false, Out (written o ++ take (room o) l) 0).

Definition writer : Type := out -> bool * out.

(** [if (!a) return 0; b]. *)
Definition then_write (a b : writer) : writer :=
  fun o => let '(r, o') := a o in if r then b o' else (false, o').

Infix ">>" := then_write (at level 60, right associativity).

Definition write_int32 (val : Z) : writer := fwrite (le_split 4 val).
Definition write_int64 (val : Z) : writer := fwrite (le_split 8 val).

Definition COPY_BUFFER : Z := 8192.

(** The result, the rest of the source, the destination. Every round copies a
    byte at least: [fuel] is the size. *)
Fixpoint copy_loop (fuel : nat) (size : Z) (src : list Z) (dest : out) : bool * list Z * out :=
  if size <=? 0 then (true, src, dest)
  else
    match fuel with
    | O => (false, src, dest)
    | S fuel' =>
        let amt := if COPY_BUFFER <? size then COPY_BUFFER else size in
        let buf := take (Z.to_nat amt) src in
        let src' := drop (Z.to_nat amt) src in
        match buf with
        | [] => (false, src', dest)
        | _ =>
            let '(r, dest') := fwrite buf dest in
            if r then copy_loop fuel' (size - Z.of_nat (length buf)) src' dest' else (false, src', dest')
        end
    end.

Definition copy_file (dest : out) (src : list Z) (size : Z) : bool * list Z * out :=
  copy_loop (Z.to_nat size) size src dest.

Definition TYPE_END : Z := 0.
Definition TYPE_DIR : Z := 1.
Definition TYPE_FILE : Z := 2.

(** The [struct stat] of an object, [st_mode] with the type. *)
Record bstat := BStat {
  st_uid : Z; st_gid : Z; st_mode : Z; st_atime : Z; st_mtime : Z; st_ctime : Z; st_size : Z;
}.

Definition nanos (t : Z) : Z := i64 (t * 1000 * 1000 * 1000).

Definition path_bytes (p : str) : list Z := map code p.

Definition write_header (type : Z) (path : str) (st : bstat) : writer :=
  write_int32 type >> write_int32 (Z.of_nat (length path)) >> fwrite (path_bytes path) >>
  write_int32 (st_uid st) >> write_int32 (st_gid st) >> write_int32 (st_mode st) >>
  write_int64 (nanos (st_atime st)) >> write_int64 (nanos (st_mtime st)) >> write_int64 (nanos (st_ctime st)).

(** An object of the partition: a regular file with its contents, if it opens,
    a directory with its entries, if it opens, anything else. An entry that
    [lstat] fails on has no object. *)
Inductive bnode :=
| BFile (content : option (list Z))
| BDir (entries : option (list (str * option (bstat * bnode))))
| BOther.

Section Backup.
Context (opt_backupAll : bool) (backupFilePath : option str).

Definition skipped (fullPath : str) : bool :=
  negb opt_backupAll && match skip_path fullPath with Some _ => true | None => false end.

Definition is_backup_file (path : str) : bool :=
  match backupFilePath with Some b => path =s? b | None => false end.

(** One object; [true] goes on with the next entry. *)
Fixpoint backup_node (fullPath : str) (st : bstat) (n : bnode) : writer :=
  fun o =>
  match n with
  | BDir entries =>
      let '(r, o1) := write_header TYPE_DIR fullPath st o in
      if r then
        match entries with
        | None => (false, o1)
        | Some l =>
            (fix go l o :=
               match l with
               | [] => (true, o)
               | (name, obj) :: l' =>
                   if ignored name then go l' o
                   else if skipped (join fullPath name) then go l' o
                   else
                     match obj with
                     | None => (false, o)
                     | Some (st, n) =>
                         let '(r, o') := backup_node (join fullPath name) st n o in
                         if r then go l' o' else (false, o')
                     end
               end) l o1
        end
      else (false, o1)
  | BFile content =>
      if is_backup_file fullPath then (true, o)
      else
        let '(r, o1) := (write_header TYPE_FILE fullPath st >> write_int64 (st_size st)) o in
        if r then
          match content with
          | None => (false, o1)
          | Some src => let '(r, _, o2) := copy_file o1 src (st_size st) in (r, o2)
          end
        else (false, o1)
  | BOther => (true, o)
  end.

(** The loop over the entries; a failed [lstat] stops it. *)
Fixpoint backup_entries (srcPath : str) (l : list (str * option (bstat * bnode))) : writer :=
  fun o =>
  match l with
  | [] => (true, o)
  | (name, obj) :: l' =>
      if ignored name then backup_entries srcPath l' o
      else if skipped (join srcPath name) then backup_entries srcPath l' o
      else
        match obj with
        | None => (false, o)
        | Some (st, n) =>
            let '(r, o') := backup_node (join srcPath name) st n o in
            if r then backup_entries srcPath l' o' else (false, o')
        end
  end.

Definition backup_dir (srcPath : str) (entries : option (list (str * option (bstat * bnode)))) : writer :=
  fun o => match entries with None => (false, o) | Some l => backup_entries srcPath l o end.

End Backup.

(** The result and the bytes in the file; [device] is the room on the device,
    [synced] says that [fflush] and [fsync] succeed. *)
Definition backup_data (opt_backupAll : bool) (destPath : str) (opens synced : bool) (device : nat)
    (data : option (list (str * option (bstat * bnode)))) : Z * list Z :=
  if opens then
    let '(r, o) := (write_int32 FILE_VERSION >> write_int32 (if opt_backupAll then 1 else 0) >>
                    backup_dir opt_backupAll (Some destPath) (lit "/data") data >> write_int32 0)
                   (Out [] device) in
    ((if r && synced then 0 else -1), written o)
  else (-1, []).

(** * Reading *)

Definition fread (n : nat) (s : list Z) : list Z * list Z := (take n s, drop n s).

Definition read_int (w : nat) (s : list Z) (defVal : Z) : Z * list Z :=
  let '(b, s') := fread w s in
  if (length b =? w)%nat then (sgn (8 * Z.of_nat w) (le_combine b), s') else (defVal, s').

Definition read_int32 (s : list Z) (defVal : Z) : Z * list Z := read_int 4 s defVal.
Definition read_int64 (s : list Z) (defVal : Z) : Z * list Z := read_int 8 s defVal.

(** The C string at the front of a buffer. *)
Fixpoint c_string (l : list Z) : str :=
  match l with
  | [] => []
  | b :: l' => if b =? 0 then [] else ascii_of_N (Z.to_N b) :: c_string l'
  end.

Inductive header :=
| HBad
| HEnd (rest : list Z)
| HNode (type : Z) (path : str) (st : bstat) (rest : list Z).

Definition MINUS_ONE_32 : Z := 4294967295.
Definition PERM_MASK : Z := 511.
Definition seconds (ltime : Z) : Z := ltime / 1000 / 1000 / 1000.

Definition read_header (s : list Z) : header :=
  let '(type, s) := read_int32 s (-1) in
  if type =? TYPE_END then HEnd s
  else if type <? 0 then HBad
  else
  let '(pathLen, s) := read_int32 s (-1) in
  if pathLen <=? 0 then HBad
  else
  let '(p, s) := fread (Z.to_nat pathLen) s in
  if negb (Z.of_nat (length p) =? pathLen) then HBad
  else
  let '(uid, s) := read_int32 s (-1) in
  if u32 uid =? MINUS_ONE_32 then HBad
  else
  let '(gid, s) := read_int32 s (-1) in
  if u32 gid =? MINUS_ONE_32 then HBad
  else
  let '(mode, s) := read_int32 s (-1) in
  if u32 mode =? MINUS_ONE_32 then HBad
  else
  let '(atime, s) := read_int64 s (-1) in
  if atime <? 0 then HBad
  else
  let '(mtime, s) := read_int64 s (-1) in
  if mtime <? 0 then HBad
  else
  let '(ctime, s) := read_int64 s (-1) in
  if ctime <? 0 then HBad
  else HNode type (c_string p)
         (BStat (u32 uid) (u32 gid) (Z.land (u32 mode) PERM_MASK) (seconds atime) (seconds mtime) (seconds ctime) 0) s.

(** A node of the partition: a directory has no contents. *)
Record fnode := FNode { fcontent : option (list Z); fmode : Z; fuid : Z; fgid : Z; fatime : Z; fmtime : Z }.

Abbreviation files := (gmap str fnode).

Section Restore.
(* the errno of mkdir and rmdir, the calls that succeed, the room for a file *)
Context (mkdir_errno : files -> str -> option Z) (rmdir_ok unlink_ok fopen_ok : files -> str -> bool).
Context (chmod_ok chown_ok utime_ok : files -> str -> bool) (room_for : files -> str -> nat).
Context (opendir : files -> str -> option (list str)) (now : Z).

(** ** The directory of an entry *)

(** The directory of a path, up to its last slash. *)
Fixpoint parent_of (p : str) : option str :=
  match p with
  | [] => None
  | c :: p' =>
      match parent_of p' with
      | Some d => Some (c :: d)
      | None => if Ascii.eqb c slash then Some [] else None
      end
  end.

Definition is_parent (d p : str) : bool := bool_decide (parent_of p = Some d).

Definition set_mtime (t : Z) (n : fnode) : fnode := FNode (fcontent n) (fmode n) (fuid n) (fgid n) (fatime n) t.

(** A directory that an entry is made in or removed from changes [now]. *)
Definition touch_parent (path : str) (fs : files) : files :=
  match parent_of path with Some d => alter (set_mtime now) d fs | None => fs end.

Definition create (path : str) (n : fnode) (fs : files) : files := <[path := n]> (touch_parent path fs).
Definition remove (path : str) (fs : files) : files := touch_parent path (delete path fs).

(** ** wipe *)

(** [true] is success, [None] of the option is out of fuel. A directory the
    backup does not contain loses its contents but stays. *)
Fixpoint wipe (fuel : nat) (opt_backupAll : bool) (backupFilePath : option str) (path : str) (fs : files)
    : option (bool * files) :=
  match fuel with
  | O => None
  | S fuel' =>
      match opendir fs path with
      | None => Some (false, fs)
      | Some names =>
          (fix go names fs :=
             match names with
             | [] => Some (true, fs)
             | name :: names' =>
                 let nameBuffer := join path name in
                 if ignored name then go names' fs
                 else
                   let special := skip_path nameBuffer in
                   let noBackup := match special with
                                   | Some t => opt_backupAll || bool_decide (t = SPECIAL_NO_BACKUP)
                                   | None => false
                                   end in
                   if negb noBackup && match special with Some _ => true | None => false end then go names' fs
                   else
                     match fs !! nameBuffer with
                     | None => go names' fs
                     | Some (FNode None _ _ _ _ _) =>
                         match wipe fuel' opt_backupAll backupFilePath nameBuffer fs with
                         | Some (true, fs') =>
                             go names' (if negb noBackup && rmdir_ok fs' nameBuffer
                                        then remove nameBuffer fs' else fs')
                         | r => r
                         end
                     | Some (FNode (Some _) _ _ _ _ _) =>
                         if is_backup_file backupFilePath nameBuffer then go names' fs
                         else go names' (if unlink_ok fs nameBuffer then remove nameBuffer fs else fs)
                     end
             end) names fs
      end
  end.

(** ** restore *)

Definition fresh (content : option (list Z)) : fnode := FNode content 0 0 0 0 0.
Definition set_content (l : list Z) (n : fnode) : fnode :=
  FNode (Some l) (fmode n) (fuid n) (fgid n) (fatime n) (fmtime n).
Definition set_mode (m : Z) (n : fnode) : fnode := FNode (fcontent n) m (fuid n) (fgid n) (fatime n) (fmtime n).
Definition set_owner (u g : Z) (n : fnode) : fnode := FNode (fcontent n) (fmode n) u g (fatime n) (fmtime n).
Definition set_times (a m : Z) (n : fnode) : fnode := FNode (fcontent n) (fmode n) (fuid n) (fgid n) a m.

(** The attributes of a restored node; [None] when a call fails. *)
Definition restore_attributes (path : str) (st : bstat) (fs : files) : option files :=
  if negb (chmod_ok fs path) then None
  else
  let fs := alter (set_mode (Z.land (st_mode st) PERM_MASK)) path fs in
  if negb (chown_ok fs path) then None
  else
  let fs := alter (set_owner (st_uid st) (st_gid st)) path fs in
  if negb (utime_ok fs path) then None
  else Some (alter (set_times (st_atime st) (st_mtime st)) path fs).

(** The loop of [restore_data]; [None] is out of fuel, and every node takes
    bytes of the file: [restore_loop_total]. *)
Fixpoint restore_loop (fuel : nat) (s : list Z) (fs : files) : option (Z * files) :=
  match fuel with
  | O => None
  | S fuel' =>
      match read_header s with
      | HBad => Some (-1, fs)
      | HEnd _ => Some (0, fs)
      | HNode type path st s =>
          if type =? TYPE_DIR then
            match mkdir_errno fs path with
            | Some e =>
                if e =? EEXIST then
                  match restore_attributes path st fs with
                  | Some fs => restore_loop fuel' s fs
                  | None => Some (-1, fs)
                  end
                else Some (-1, fs)
            | None =>
                let fs := create path (set_mode (st_mode st) (fresh None)) fs in
                match restore_attributes path st fs with
                | Some fs => restore_loop fuel' s fs
                | None => Some (-1, fs)
                end
            end
          else if type =? TYPE_FILE then
            let '(size, s) := read_int64 s (-1) in
            if size <? 0 then Some (-1, fs)
            else if negb (fopen_ok fs path) then Some (-1, fs)
            else
              let '(r, s, dest) := copy_file (Out [] (room_for fs path)) s size in
              let fs := match fs !! path with
                        | Some n => <[path := set_content (written dest) n]> fs
                        | None => create path (set_content (written dest) (fresh None)) fs
                        end in
              if r then
                match restore_attributes path st fs with
                | Some fs => restore_loop fuel' s fs
                | None => Some (-1, fs)
                end
              else Some (-1, fs)
          else Some (-1, fs)
      end
  end.

(** [file] is the contents of the backup file, [None] when it does not open;
    [depth] bounds the depth of the partition. *)
Definition restore_data (depth : nat) (srcPath : str) (file : option (list Z)) (fs : files) : option (Z * files) :=
  match file with
  | None => Some (-1, fs)
  | Some s =>
      let len := length s in
      let '(v, s) := read_int32 s 0 in
      let inputFileVersion := u32 v in
      if (inputFileVersion <? FILE_VERSION_1) || (FILE_VERSION <? inputFileVersion) then Some (-1, fs)
      else
        let '(opt, s) := if FILE_VERSION_2 <=? inputFileVersion then read_int32 s 0 else (0, s) in
        '(wiped, fs) ← wipe depth (nz opt) (Some srcPath) (lit "/data") fs;
        if (wiped : bool) then restore_loop (S len) s fs else Some (-1, fs)
  end.

End Restore.

(** * Reference definitions *)

(** A node as the backup file has it. *)
Record record := Record_ { rtype : Z; rpath : str; rstat : bstat; rcontent : list Z }.

Definition encode_header (type : Z) (path : str) (st : bstat) : list Z :=
  le_split 4 type ++ le_split 4 (Z.of_nat (length path)) ++ path_bytes path ++
  le_split 4 (st_uid st) ++ le_split 4 (st_gid st) ++ le_split 4 (st_mode st) ++
  le_split 8 (nanos (st_atime st)) ++ le_split 8 (nanos (st_mtime st)) ++ le_split 8 (nanos (st_ctime st)).

Definition encode (r : record) : list Z :=
  encode_header (rtype r) (rpath r) (rstat r) ++
  if rtype r =? TYPE_FILE then le_split 8 (st_size (rstat r)) ++ rcontent r else [].

Definition encode_end : list Z := le_split 4 TYPE_END.

Definition encode_all (l : list record) : list Z := concat (map encode l).

Definition prologue (opt_backupAll : bool) : list Z :=
  le_split 4 FILE_VERSION ++ le_split 4 (if opt_backupAll then 1 else 0).

(** The records of a tree, in the order of the backup. *)
Section Records.
Context (opt_backupAll : bool) (backupFilePath : option str).

Fixpoint node_records (path : str) (st : bstat) (n : bnode) : list record :=
  match n with
  | BOther => []
  | BFile content =>
      if is_backup_file backupFilePath path then []
      else [Record_ TYPE_FILE path st (take (Z.to_nat (st_size st)) (default [] content))]
  | BDir entries =>
      Record_ TYPE_DIR path st [] ::
      match entries with
      | None => []
      | Some l =>
          (fix go l :=
             match l with
             | [] => []
             | (name, obj) :: l' =>
                 (if ignored name || skipped opt_backupAll (join path name) then []
                  else match obj with Some (st, n) => node_records (join path name) st n | None => [] end) ++ go l'
             end) l
      end
  end.

Fixpoint dir_records (path : str) (l : list (str * option (bstat * bnode))) : list record :=
  match l with
  | [] => []
  | (name, obj) :: l' =>
      (if ignored name || skipped opt_backupAll (join path name) then []
       else match obj with Some (st, n) => node_records (join path name) st n | None => [] end) ++
      dir_records path l'
  end.

End Records.

(** What a restore can represent: no sentinel, no sign, a path without NUL. *)
Definition stat_ok (st : bstat) : Prop :=
  0 <= st_uid st < MINUS_ONE_32 /\ 0 <= st_gid st < MINUS_ONE_32 /\ 0 <= st_mode st < MINUS_ONE_32 /\
  0 <= st_atime st < 9223372036 /\ 0 <= st_mtime st < 9223372036 /\ 0 <= st_ctime st < 9223372036.

Definition record_ok (r : record) : Prop :=
  rpath r <> [] /\ Z.of_nat (length (rpath r)) < 2 ^ 31 /\ ascii_of_N 0 ∉ rpath r /\ stat_ok (rstat r) /\
  (rtype r = TYPE_DIR /\ rcontent r = [] \/
   rtype r = TYPE_FILE /\ Z.of_nat (length (rcontent r)) = st_size (rstat r) /\ st_size (rstat r) < 2 ^ 63).

#[export] Instance record_ok_dec r : Decision (record_ok r).
Proof. unfold record_ok, stat_ok. apply _. Defined.

(** The node a record is restored to. *)
Definition restored (r : record) : fnode :=
  FNode (if rtype r =? TYPE_FILE then Some (rcontent r) else None)
        (Z.land (st_mode (rstat r)) PERM_MASK) (st_uid (rstat r)) (st_gid (rstat r))
        (st_atime (rstat r)) (st_mtime (rstat r)).

(** * Helper lemmas *)

(** ** Writing *)

(** A writer that succeeds has appended [l]. *)
Definition appends (w : writer) (l : list Z) : Prop :=
  forall o o', w o = (true, o') -> written o' = written o ++ l.

Lemma fwrite_appends l : appends (fwrite l) l.
Proof. intros o o'. unfold fwrite. destruct (length l <=? room o)%nat; by intros [= <-]. Qed.

Lemma then_appends a b la lb : appends a la -> appends b lb -> appends (a >> b) (la ++ lb).
Proof.
  intros Ha Hb o o'. unfold then_write. destruct (a o) as [[] o1] eqn:E; [|done].
  intros H. by rewrite (Hb _ _ H), (Ha _ _ E), app_assoc.
Qed.

Lemma write_header_appends type path st : appends (write_header type path st) (encode_header type path st).
Proof. unfold write_header, encode_header. repeat apply then_appends; apply fwrite_appends. Qed.

(** A copy that succeeds has moved [size] bytes. *)
Lemma copy_loop_success fuel size src dest src' dest' :
  copy_loop fuel size src dest = (true, src', dest') ->
  written dest' = written dest ++ take (Z.to_nat size) src /\ src' = drop (Z.to_nat size) src /\
  size <= Z.of_nat (length src).
Proof.
  revert size src dest. induction fuel as [|fuel IH]; intros size src dest H; cbn in H.
  - destruct (Z.leb_spec size 0); [|done]. injection H as <- <-. replace (Z.to_nat size) with 0%nat by lia. cbn.
    rewrite drop_0, app_nil_r. split_and!; [done|done|lia].
  - destruct (Z.leb_spec size 0).
    { injection H as <- <-. replace (Z.to_nat size) with 0%nat by lia. cbn.
      rewrite drop_0, app_nil_r. split_and!; [done|done|lia]. }
    set (amt := if COPY_BUFFER <? size then COPY_BUFFER else size) in H.
    assert (Ha : 0 < amt <= size) by (unfold amt, COPY_BUFFER; destruct (Z.ltb_spec 8192 size); lia).
    assert (Hlen : length (take (Z.to_nat amt) src) = Nat.min (Z.to_nat amt) (length src)) by apply length_take.
    destruct (take (Z.to_nat amt) src) as [|b buf] eqn:Eb; [done|]. rewrite <- Eb in H, Hlen.
    destruct (fwrite (take (Z.to_nat amt) src) dest) as [[] dest1] eqn:Ew; [|done].
    apply fwrite_appends in Ew. rewrite Hlen in H.
    assert (Hpos : (0 < length src)%nat) by (destruct src; [destruct (Z.to_nat amt); done|simpl; lia]).
    apply IH in H as (H1 & H2 & H3). rewrite length_drop in H3.
    assert (Hle : (Z.to_nat amt <= length src)%nat) by lia.
    rewrite Nat.min_l in H1, H2, H3 by done. split_and!; [|..|lia].
    + rewrite H1, Ew, <- app_assoc. f_equal. rewrite take_take_drop. f_equal. lia.
    + rewrite H2, drop_drop. f_equal. lia.
Qed.

Lemma copy_file_success src dest size src' dest' :
  copy_file dest src size = (true, src', dest') ->
  written dest' = written dest ++ take (Z.to_nat size) src /\ src' = drop (Z.to_nat size) src /\
  size <= Z.of_nat (length src).
Proof. apply copy_loop_success. Qed.

(** With enough bytes and room a copy succeeds. *)
Lemma copy_loop_enough fuel size src dest :
  (Z.to_nat size <= fuel)%nat -> size <= Z.of_nat (length src) -> size <= Z.of_nat (room dest) ->
  fst (fst (copy_loop fuel size src dest)) = true.
Proof.
  revert size src dest. induction fuel as [|fuel IH]; intros size src dest Hf Hs Hr; cbn.
  - destruct (Z.leb_spec size 0); [done|lia].
  - destruct (Z.leb_spec size 0); [done|].
    set (amt := if COPY_BUFFER <? size then COPY_BUFFER else size).
    assert (Ha : 0 < amt <= size) by (unfold amt, COPY_BUFFER; destruct (Z.ltb_spec 8192 size); lia).
    assert (Hlen : length (take (Z.to_nat amt) src) = Z.to_nat amt) by (rewrite length_take; lia).
    destruct (take (Z.to_nat amt) src) as [|b buf] eqn:Eb; [simpl in Hlen; lia|]. rewrite <- Eb in *.
    unfold fwrite at 1. rewrite Hlen, (proj2 (Nat.leb_le _ _)) by lia. apply IH; [lia| |].
    + rewrite length_drop. lia.
    + cbn. lia.
Qed.

(** ** The records of a backup *)

Section BackupLemmas.
Context (all : bool) (dest : option str).

Lemma bnode_ind' (P : bnode -> Prop) :
  (forall c, P (BFile c)) -> P (BDir None) ->
  (forall l, Forall (fun e => match snd e with Some (_, n) => P n | None => True end) l -> P (BDir (Some l))) ->
  P BOther -> forall n, P n.
Proof.
  intros HF HN HD HO. fix IH 1. intros [c|[l|]|]; [apply HF| |apply HN|apply HO]. apply HD.
  induction l as [|[name [[st n]|]] l IHl]; constructor; [apply IH|apply IHl|done|apply IHl].
Qed.

Lemma backup_node_dir path st l o :
  backup_node all dest path st (BDir (Some l)) o =
  (write_header TYPE_DIR path st >> backup_entries all dest path l) o.
Proof.
  unfold then_write. cbn [backup_node]. destruct (write_header TYPE_DIR path st o) as [[] o1]; [|done].
  revert o1. induction l as [|[name [[st' n]|]] l IH]; intros o1; [done| |].
  - cbn [backup_entries]. destruct (ignored name); [apply IH|]. destruct (skipped all (join path name)); [apply IH|].
    destruct (backup_node all dest (join path name) st' n o1) as [[] o2]; [apply IH|done].
  - cbn [backup_entries]. destruct (ignored name); [apply IH|]. destruct (skipped all (join path name)); [apply IH|done].
Qed.

Lemma node_records_dir path st l :
  node_records all dest path st (BDir (Some l)) = Record_ TYPE_DIR path st [] :: dir_records all dest path l.
Proof. cbn [node_records]. f_equal. induction l as [|[name obj] l IH]; [done|]. cbn [dir_records]. by rewrite IH. Qed.

Lemma encode_all_app l1 l2 : encode_all (l1 ++ l2) = encode_all l1 ++ encode_all l2.
Proof. unfold encode_all. by rewrite map_app, concat_app. Qed.

(** A node that is backed up with success is its records. *)
Definition node_appends (n : bnode) : Prop :=
  forall path st, appends (backup_node all dest path st n) (encode_all (node_records all dest path st n)).

Lemma backup_entries_appends path l :
  Forall (fun e => match snd e with Some (_, n) => node_appends n | None => True end) l ->
  appends (backup_entries all dest path l) (encode_all (dir_records all dest path l)).
Proof.
  intros H. induction H as [|[name [[st n]|]] l Hn Hl IH]; intros o o' E.
  - injection E as <-. by rewrite app_nil_r.
  - cbn [backup_entries dir_records] in *.
    destruct (ignored name); cbn [orb]; [by apply IH|]. destruct (skipped all (join path name)); [by apply IH|].
    destruct (backup_node all dest (join path name) st n o) as [[] o1] eqn:E1; [|done].
    apply IH in E. cbn in Hn. apply Hn in E1. by rewrite E, E1, encode_all_app, app_assoc.
  - cbn [backup_entries dir_records] in *.
    destruct (ignored name); cbn [orb]; [by apply IH|]. destruct (skipped all (join path name)); [by apply IH|done].
Qed.

Lemma backup_node_appends n : node_appends n.
Proof.
  induction n as [c| |l IH|] using bnode_ind'; intros path st o o' E.
  - cbn [backup_node node_records] in *. destruct (is_backup_file dest path).
    { injection E as <-. by rewrite app_nil_r. }
    destruct ((write_header TYPE_FILE path st >> write_int64 (st_size st)) o) as [[] o1] eqn:E1; [|done].
    assert (H1 : written o1 = written o ++ encode_header TYPE_FILE path st ++ le_split 8 (st_size st)).
    { eapply then_appends; [apply write_header_appends|apply fwrite_appends|exact E1]. }
    destruct c as [src|]; [|done]. destruct (copy_file o1 src (st_size st)) as [[r src'] o2] eqn:E2.
    injection E as -> <-. apply copy_file_success in E2 as (-> & _ & _). rewrite H1.
    unfold encode_all, encode. cbn [map concat rtype rpath rstat rcontent default]. change (TYPE_FILE =? TYPE_FILE) with true.
    change (default [] (Some src)) with src. rewrite app_nil_r, <- !app_assoc. done.
  - cbn [backup_node] in E. by destruct (write_header TYPE_DIR path st o) as [[] o1].
  - rewrite backup_node_dir in E. rewrite node_records_dir.
    change (encode_all (?r :: ?rs)) with (encode r ++ encode_all rs). revert o o' E. apply then_appends.
    + unfold encode. cbn [rtype rpath rstat]. change (TYPE_DIR =? TYPE_FILE) with false. rewrite app_nil_r.
      apply write_header_appends.
    + by apply backup_entries_appends.
  - injection E as <-. by rewrite app_nil_r.
Qed.

Lemma backup_dir_appends path l : appends (backup_dir all dest path (Some l)) (encode_all (dir_records all dest path l)).
Proof.
  apply backup_entries_appends. apply Forall_forall. intros [name [[st n]|]] _; [apply backup_node_appends|done].
Qed.

End BackupLemmas.

(** A backup that reports success is the prologue, the records and the end. *)
Lemma backup_data_bytes all destPath synced device data bytes :
  backup_data all destPath true synced device data = (0, bytes) ->
  exists l, data = Some l /\
    bytes = prologue all ++ encode_all (dir_records all (Some destPath) (lit "/data") l) ++ encode_end.
Proof.
  unfold backup_data. destruct data as [l|].
  - intros H. exists l. split; [done|].
    destruct ((write_int32 FILE_VERSION >> _) (Out [] device)) as [r o] eqn:E.
    destruct r; [|done]. destruct synced; [|done]. injection H as <-.
    assert (Ha : appends (write_int32 FILE_VERSION >> write_int32 (if all then 1 else 0) >>
              backup_dir all (Some destPath) (lit "/data") (Some l) >> write_int32 0)
              (le_split 4 FILE_VERSION ++ le_split 4 (if all then 1 else 0) ++
               encode_all (dir_records all (Some destPath) (lit "/data") l) ++ encode_end)).
    { repeat apply then_appends; try apply fwrite_appends. apply backup_dir_appends. }
    rewrite (Ha _ _ E). unfold prologue. by rewrite <- app_assoc.
  - unfold then_write, backup_dir. destruct (write_int32 FILE_VERSION (Out [] device)) as [[] o1]; [|done].
    destruct (write_int32 _ o1) as [[] o2]; done.
Qed.

(** ** Reading *)

Lemma sgn_mod_pow w v : sgn w (v mod 2 ^ w) = sgn w v.
Proof. apply sgn_congr. apply Zmod_mod. Qed.

Lemma read_int_split w v s d : read_int w (le_split w v ++ s) d = (sgn (8 * Z.of_nat w) v, s).
Proof.
  unfold read_int, fread. rewrite take_app_length', drop_app_length' by by rewrite length_le_split.
  rewrite length_le_split, Nat.eqb_refl, le_combine_split, pow256. by rewrite sgn_mod_pow.
Qed.

(** A read of a truncated stream: the value if it is complete, or the default
    and the end of the stream. *)
Lemma read_int_trunc w v s k d :
  read_int w (take k (le_split w v ++ s)) d =
  if (w <=? k)%nat then (sgn (8 * Z.of_nat w) v, take (k - w) s) else (d, []).
Proof.
  destruct (Nat.leb_spec w k).
  - rewrite take_app_ge, length_le_split by (rewrite length_le_split; lia). apply read_int_split.
  - rewrite take_app_le by (rewrite length_le_split; lia). unfold read_int, fread.
    rewrite drop_ge by (rewrite length_take; lia). rewrite length_take, length_take, length_le_split.
    destruct (Nat.eqb_spec (w `min` (k `min` w)) w); [lia|done].
Qed.

Lemma read_int_nil w d : (0 < w)%nat -> read_int w [] d = (d, []).
Proof. intros H. unfold read_int, fread. rewrite take_nil, drop_nil. cbn. by destruct w; [lia|]. Qed.

Lemma sgn_u32 v : u32 (sgn 32 v) = u32 v.
Proof.
  unfold u32, sgn. cbv zeta. destruct (_ <? _); [apply Zmod_mod|].
  rewrite Zminus_mod, Z_mod_same_full, Z.sub_0_r. rewrite !Zmod_mod. done.
Qed.

Lemma c_string_path p : ascii_of_N 0 ∉ p -> c_string (path_bytes p) = p.
Proof.
  induction p as [|c p IH]; intros H; [done|]. cbn [path_bytes map c_string]. fold (path_bytes p).
  destruct (Z.eqb_spec (code c) 0) as [E|E].
  - exfalso. apply H. unfold code in E. assert (N_of_ascii c = 0%N) by lia.
    rewrite <- (ascii_N_embedding c), H0. left.
  - unfold code. rewrite N2Z.id, ascii_N_embedding, IH; [done|set_solver].
Qed.

Lemma nanos_small t : 0 <= t < 9223372036 -> nanos t = t * 1000000000 /\ sgn 64 (nanos t) = t * 1000000000.
Proof.
  intros H. unfold nanos. replace (t * 1000 * 1000 * 1000) with (t * 1000000000) by lia.
  rewrite i64_small by lia. split; [done|]. apply i64_small. lia.
Qed.

Lemma seconds_nanos t : 0 <= t -> seconds (t * 1000000000) = t.
Proof.
  intros H. unfold seconds. rewrite !Z.div_div by lia. by rewrite Z.div_mul by lia.
Qed.

(** The stat a header is read back as. *)
Definition stat_back (st : bstat) : bstat :=
  BStat (st_uid st) (st_gid st) (Z.land (st_mode st) PERM_MASK) (st_atime st) (st_mtime st) (st_ctime st) 0.

Lemma field_ok z : 0 <= z < MINUS_ONE_32 -> u32 (sgn 32 z) = z /\ (z =? MINUS_ONE_32) = false.
Proof.
  unfold MINUS_ONE_32. intros H. rewrite sgn_u32. split; [apply Z.mod_small; lia|apply Z.eqb_neq; lia].
Qed.

Definition known_type (type : Z) : Prop := type = TYPE_DIR \/ type = TYPE_FILE.

Definition header_ok (path : str) (st : bstat) : Prop :=
  path <> [] /\ Z.of_nat (length path) < 2 ^ 31 /\ ascii_of_N 0 ∉ path /\ stat_ok st.

Lemma length_path_bytes p : length (path_bytes p) = length p.
Proof. apply length_map. Qed.

Lemma fread_trunc l s k :
  fread (length l) (take k (l ++ s)) =
  if (length l <=? k)%nat then (l, take (k - length l) s) else (take k l, []).
Proof.
  unfold fread. destruct (Nat.leb_spec (length l) k).
  - rewrite take_app_ge by lia. by rewrite take_app_length, drop_app_length.
  - rewrite take_app_le by lia. rewrite drop_ge, take_take by (rewrite length_take; lia). f_equal. f_equal. lia.
Qed.

(** The next integer of a header of [n] bytes, of which [k] are there. *)
Ltac next_int n k :=
  rewrite read_int_trunc;
  match goal with
  | |- context [if (?w <=? ?k')%nat then (sgn _ _, _) else _] =>
      destruct (Nat.leb_spec w k'); [|destruct (Nat.leb_spec n k); [lia|done]]
  end; try change (8 * Z.of_nat 4) with 32; try change (8 * Z.of_nat 8) with 64.

(** A header, whole or truncated. *)
Lemma read_header_trunc type path st s k :
  known_type type -> header_ok path st ->
  read_header (take k (encode_header type path st ++ s)) =
  if (length (encode_header type path st) <=? k)%nat
  then HNode type path (stat_back st) (take (k - length (encode_header type path st)) s)
  else HBad.
Proof.
  intros Ht (Hp & Hlen & Hnul & Hu & Hg & Hm & Ha & Hmt & Hct).
  set (n := length (encode_header type path st)).
  assert (En : n = (44 + length path)%nat).
  { unfold n, encode_header. rewrite !length_app, !length_le_split, length_path_bytes. lia. }
  assert (Hlp : (0 < length path)%nat) by (destruct path; [done|simpl; lia]).
  unfold encode_header. rewrite <- !app_assoc. unfold read_header, read_int32, read_int64.
  next_int n k.
  assert (sgn 32 type = type) as -> by (destruct Ht as [-> | ->]; done).
  assert (type =? TYPE_END = false) as -> by (destruct Ht as [-> | ->]; done).
  assert (type <? 0 = false) as -> by (destruct Ht as [-> | ->]; done).
  next_int n k.
  rewrite sgn_small by (cbn; lia). destruct (Z.leb_spec (Z.of_nat (length path)) 0); [lia|].
  rewrite Nat2Z.id, <- (length_path_bytes path), fread_trunc, !length_path_bytes.
  destruct (Nat.leb_spec (length path) (k - 4 - 4)) as [Hk|Hk].
  2: { rewrite length_take, length_path_bytes. destruct (Z.eqb_spec (Z.of_nat ((k - 4 - 4) `min` length path)) (Z.of_nat (length path))); [lia|].
       cbn [negb]. destruct (Nat.leb_spec n k); [lia|done]. }
  rewrite length_path_bytes, Z.eqb_refl, c_string_path by done. cbn [negb].
  destruct (field_ok _ Hu) as [Eu Eu'], (field_ok _ Hg) as [Eg Eg'], (field_ok _ Hm) as [Em Em'].
  destruct (nanos_small _ Ha) as [Ean Ea], (nanos_small _ Hmt) as [Emtn Emt], (nanos_small _ Hct) as [Ectn Ect].
  next_int n k.
  rewrite Eu, Eu'.
  next_int n k.
  rewrite Eg, Eg'.
  next_int n k.
  rewrite Em, Em'.
  next_int n k.
  rewrite Ea. destruct (Z.ltb_spec (st_atime st * 1000000000) 0); [lia|].
  next_int n k.
  rewrite Emt. destruct (Z.ltb_spec (st_mtime st * 1000000000) 0); [lia|].
  next_int n k.
  rewrite Ect. destruct (Z.ltb_spec (st_ctime st * 1000000000) 0); [lia|].
  destruct (Nat.leb_spec n k); [|lia]. rewrite !seconds_nanos by lia. unfold stat_back. do 2 f_equal. lia.
Qed.

Lemma read_header_full type path st s :
  known_type type -> header_ok path st -> read_header (encode_header type path st ++ s) = HNode type path (stat_back st) s.
Proof.
  intros Ht Hh. pose proof (read_header_trunc type path st s (length (encode_header type path st ++ s)) Ht Hh) as H.
  rewrite take_ge in H by lia. rewrite H, length_app. destruct (Nat.leb_spec (length (encode_header type path st)) (length (encode_header type path st) + length s)); [|lia].
  f_equal. apply take_ge. lia.
Qed.

Lemma record_ok_header r : record_ok r -> known_type (rtype r) /\ header_ok (rpath r) (rstat r).
Proof. intros (H1 & H2 & H3 & H4 & [[? _]|[? _]]); (split; [by (left + right)|done]). Qed.

Section RestoreLemmas.
Context (mkdir_errno : files -> str -> option Z) (fopen_ok chmod_ok chown_ok utime_ok : files -> str -> bool).
Context (room_for : files -> str -> nat) (now : Z).
Abbreviation rloop := (restore_loop mkdir_errno fopen_ok chmod_ok chown_ok utime_ok room_for now).

(** ** Truncation *)

Lemma encode_end_trunc k : (k < length encode_end)%nat -> read_header (take k encode_end) = HBad.
Proof.
  intros Hk. unfold encode_end in *. rewrite length_le_split in Hk. rewrite <- (app_nil_r (le_split 4 TYPE_END)).
  unfold read_header, read_int32. rewrite read_int_trunc. destruct (Nat.leb_spec 4 k); [lia|done].
Qed.

(** ** Termination *)

Lemma read_int_length w s d v s' : read_int w s d = (v, s') -> (length s' <= length s)%nat.
Proof. unfold read_int, fread. destruct (_ =? w)%nat; intros [= _ <-]; rewrite length_drop; lia. Qed.

Lemma read_int_progress w s d v s' : (0 < w)%nat -> read_int w s d = (v, s') -> v <> d -> (length s' < length s)%nat.
Proof.
  unfold read_int, fread. rewrite length_take. intros Hw. destruct (Nat.eqb_spec (w `min` length s) w); intros [= <- <-] H.
  - rewrite length_drop. lia.
  - done.
Qed.

Lemma read_header_length s type path st s' : read_header s = HNode type path st s' -> (length s' < length s)%nat.
Proof.
  unfold read_header, read_int32, read_int64. destruct (read_int 4 s (-1)) as [t s1] eqn:E1.
  destruct (t =? TYPE_END); [done|]. destruct (Z.ltb_spec t 0); [done|].
  apply read_int_progress in E1; [|lia..]. destruct (read_int 4 s1 (-1)) as [n s2] eqn:E2.
  apply read_int_length in E2. destruct (n <=? 0); [done|]. unfold fread. destruct (negb _); [done|].
  repeat match goal with
  | |- context [read_int ?w ?s (-1)] =>
      let E := fresh "E" in destruct (read_int w s (-1)) as [? ?] eqn:E; apply read_int_length in E;
      match goal with |- context [if ?c then HBad else _] => destruct c; [done|] end
  end.
  intros [= _ _ _ <-]. rewrite length_drop in *. lia.
Qed.

Lemma copy_loop_length fuel size src dest r src' dest' :
  copy_loop fuel size src dest = (r, src', dest') -> (length src' <= length src)%nat.
Proof.
  revert size src dest. induction fuel as [|fuel IH]; intros size src dest; cbn.
  - destruct (size <=? 0); intros [= _ <- _]; lia.
  - destruct (size <=? 0); [intros [= _ <- _]; lia|]. destruct (take _ src) eqn:Et.
    { intros [= _ <- _]. rewrite length_drop. lia. }
    destruct (fwrite _ dest) as [[] d1]; [|intros [= _ <- _]; rewrite length_drop; lia].
    intros H. apply IH in H. rewrite length_drop in H. lia.
Qed.

Lemma restore_loop_total fuel s fs : (length s < fuel)%nat -> is_Some (rloop fuel s fs).
Proof.
  revert s fs. induction fuel as [|fuel IH]; intros s fs Hf; [lia|]. cbn [restore_loop].
  destruct (read_header s) as [| |type path st s'] eqn:Eh; [eauto..|]. apply read_header_length in Eh.
  destruct (type =? TYPE_DIR).
  - destruct (mkdir_errno fs path) as [e|]; [destruct (e =? EEXIST); [|eauto]|];
      (destruct (restore_attributes _ _ _ path st _); [apply IH; lia|eauto]).
  - destruct (type =? TYPE_FILE); [|eauto]. unfold read_int64.
    destruct (read_int 8 s' (-1)) as [size s2] eqn:E2. apply read_int_length in E2.
    destruct (size <? 0); [eauto|]. destruct (negb _); [eauto|].
    destruct (copy_file _ s2 size) as [[r s3] dest] eqn:Ec. apply copy_loop_length in Ec.
    destruct r; [|eauto]. destruct (restore_attributes _ _ _ path st _); [apply IH; lia|eauto].
Qed.

(** A file that ends before the last byte of the end mark is never restored
    with success, whatever the calls answer. *)
Lemma restore_loop_trunc rs fuel k fs :
  Forall record_ok rs -> (k < length (encode_all rs ++ encode_end))%nat -> (k < fuel)%nat ->
  exists fs', rloop fuel (take k (encode_all rs ++ encode_end)) fs = Some (-1, fs').
Proof.
  intros H. revert fuel k fs. induction H as [|r rs Hr Hrs IH]; intros fuel k fs Hk Hf.
  - destruct fuel as [|fuel]; [lia|]. cbn [encode_all map concat app restore_loop] in *. rewrite encode_end_trunc by done. eauto.
  - destruct fuel as [|fuel]; [lia|].
    destruct (record_ok_header r Hr) as [Ht Hh]. set (rest := encode_all rs ++ encode_end) in *.
    assert (E : encode_all (r :: rs) ++ encode_end =
                encode_header (rtype r) (rpath r) (rstat r) ++
                (if rtype r =? TYPE_FILE then le_split 8 (st_size (rstat r)) ++ rcontent r else []) ++ rest).
    { unfold rest, encode_all, encode. cbn [map concat]. by rewrite <- !app_assoc. }
    assert (Hpos : (0 < length (encode_header (rtype r) (rpath r) (rstat r)))%nat)
      by (unfold encode_header; rewrite length_app, length_le_split; lia).
    rewrite E in *. clear E. cbn [restore_loop]. rewrite read_header_trunc by done.
    set (hl := length (encode_header _ _ _)) in *. destruct (Nat.leb_spec hl k); [|by eauto].
    rewrite length_app in Hk. fold hl in Hk.
    assert (Hattr : forall path st fs1 s1, (forall fs2, exists fs', rloop fuel s1 fs2 = Some (-1, fs')) ->
              exists fs', match restore_attributes chmod_ok chown_ok utime_ok path st fs1 with
                          | Some fs2 => rloop fuel s1 fs2 | None => Some (-1, fs1) end = Some (-1, fs')).
    { intros path st fs1 s1 Hs. destruct (restore_attributes _ _ _ path st fs1); [apply Hs|by eauto]. }
    clearbody hl. destruct Hr as (_ & _ & _ & _ & [[Et Hc]|(Et & Hlen & Hsz)]); rewrite Et in *.
    + change (TYPE_DIR =? TYPE_FILE) with false in *. change (TYPE_DIR =? TYPE_DIR) with true. cbn [app] in *.
      assert (Hs : forall fs2, exists fs', rloop fuel (take (k - hl) rest) fs2 = Some (-1, fs')) by (intros; apply IH; fold rest; cbn [length] in Hk; lia).
      destruct (mkdir_errno fs (rpath r)) as [e|]; [|by apply Hattr].
      destruct (e =? EEXIST); [by apply Hattr|by eauto].
    + change (TYPE_FILE =? TYPE_FILE) with true in *. change (TYPE_FILE =? TYPE_DIR) with false.
      cbn [app] in *. rewrite <- !app_assoc in *. rewrite !length_app, length_le_split in Hk.
      unfold read_int64. rewrite read_int_trunc. destruct (Nat.leb_spec 8 (k - hl)); [|by eauto].
      rewrite sgn_small by (cbn; lia). destruct (Z.ltb_spec (st_size (rstat r)) 0); [by eauto|].
      destruct (negb (fopen_ok fs (rpath r))); [by eauto|].
      destruct (copy_file _ _ _) as [[res s'] dest] eqn:Ec. destruct res; [|by eauto].
      apply copy_file_success in Ec as (_ & -> & Hle). rewrite length_take, length_app in Hle.
      apply Hattr. intros fs2.
      assert (Ed : drop (Z.to_nat (st_size (rstat r))) (take (k - hl - 8) (rcontent r ++ rest)) =
                   take (k - hl - 8 - length (rcontent r)) rest).
      { rewrite take_app_ge by lia. rewrite drop_app_length' by lia. done. }
      rewrite Ed. apply IH; fold rest; lia.
Qed.
(** ** Success *)

(** The calls succeed on what the restore does with them. *)
Context (capacity : Z).

Class CallsOk : Prop := {
  mkdir_new : forall fs p, fs !! p = None -> mkdir_errno fs p = None;
  fopen_yes : forall fs p, fopen_ok fs p = true;
  chmod_yes : forall fs p, chmod_ok fs p = true;
  chown_yes : forall fs p, chown_ok fs p = true;
  utime_yes : forall fs p, utime_ok fs p = true;
  room_yes : forall fs p, capacity <= Z.of_nat (room_for fs p);
}.

Lemma restore_attributes_insert (Hok : CallsOk) path st n fs :
  restore_attributes chmod_ok chown_ok utime_ok path st (<[path := n]> fs) =
  Some (<[path := FNode (fcontent n) (Z.land (st_mode st) PERM_MASK) (st_uid st) (st_gid st) (st_atime st) (st_mtime st)]> fs).
Proof.
  unfold restore_attributes. rewrite chmod_yes. cbn [negb].
  rewrite (alter_insert_id _ _ path n) by apply lookup_insert_eq. rewrite insert_insert_eq, chown_yes. cbn [negb].
  erewrite alter_insert_id by apply lookup_insert_eq. rewrite insert_insert_eq, utime_yes. cbn [negb].
  erewrite alter_insert_id by apply lookup_insert_eq. by rewrite insert_insert_eq.
Qed.

Lemma land_perm_twice m : Z.land (Z.land m PERM_MASK) PERM_MASK = Z.land m PERM_MASK.
Proof. by rewrite <- Z.land_assoc, Z.land_diag. Qed.

(** One record on a path that is free. *)
Lemma restore_step (Hok : CallsOk) r fuel s fs :
  record_ok r -> fs !! rpath r = None -> Z.of_nat (length (rcontent r)) <= capacity ->
  rloop (S fuel) (encode r ++ s) fs = rloop fuel s (create now (rpath r) (restored r) fs).
Proof.
  intros Hr Hfree Hcap. destruct (record_ok_header r Hr) as [Ht Hh].
  unfold encode. rewrite <- app_assoc. cbn [restore_loop]. rewrite read_header_full by done.
  destruct Hr as (_ & _ & _ & _ & [[Et Hc]|(Et & Hlen & Hsz)]); unfold restored; rewrite Et.
  - change (TYPE_DIR =? TYPE_FILE) with false. change (TYPE_DIR =? TYPE_DIR) with true. cbn [app].
    rewrite mkdir_new by done. unfold create. rewrite restore_attributes_insert by done. cbn [stat_back st_mode st_uid st_gid st_atime st_mtime].
    by rewrite land_perm_twice.
  - change (TYPE_FILE =? TYPE_FILE) with true. change (TYPE_FILE =? TYPE_DIR) with false. cbv iota.
    rewrite <- app_assoc. unfold read_int64. rewrite read_int_split, sgn_small by (cbn; lia).
    destruct (Z.ltb_spec (st_size (rstat r)) 0); [lia|]. rewrite fopen_yes. cbn [negb].
    destruct (copy_file _ _ _) as [[res s'] dest] eqn:Ec.
    assert (res = true) as ->.
    { pose proof (copy_loop_enough (Z.to_nat (st_size (rstat r))) (st_size (rstat r)) (rcontent r ++ s)
                    (Out [] (room_for fs (rpath r)))) as He. unfold copy_file in Ec. rewrite Ec in He. apply He; [lia| |].
      - rewrite length_app. lia.
      - cbn. pose proof (room_yes fs (rpath r)). lia. }
    apply copy_file_success in Ec as (Hw & -> & _). cbn [written app] in Hw.
    rewrite Hw, drop_app_length', take_app_length' by lia. rewrite Hfree. unfold create. rewrite restore_attributes_insert by done.
    cbn [stat_back st_mode st_uid st_gid st_atime st_mtime set_content fcontent]. by rewrite land_perm_twice.
Qed.

Definition restore_all (rs : list record) (fs : files) : files :=
  foldl (fun fs r => create now (rpath r) (restored r) fs) fs rs.

(** The times of a node after the nodes [rs] were made. *)
Definition touched (rs : list record) (path : str) (n : fnode) : fnode :=
  if existsb (fun r => is_parent path (rpath r)) rs then set_mtime now n else n.

Lemma parent_of_shorter p d : parent_of p = Some d -> (length d < length p)%nat.
Proof.
  revert d. induction p as [|c p IH]; intros d H; [done|]. cbn [parent_of] in H. destruct (parent_of p) as [d'|].
  - injection H as <-. specialize (IH d' eq_refl). cbn [length]. lia.
  - destruct (Ascii.eqb c slash); [|done]. injection H as <-. simpl. lia.
Qed.

Lemma is_parent_irrefl p : is_parent p p = false.
Proof. apply bool_decide_eq_false. intros H. apply parent_of_shorter in H. lia. Qed.

(** What making [path] does to another node. *)
Lemma create_other path p n fs : p <> path ->
  create now path n fs !! p = (if is_parent p path then set_mtime now else id) <$> fs !! p.
Proof.
  intros H. unfold create, touch_parent, is_parent. rewrite lookup_insert_ne by done.
  destruct (parent_of path) as [d|].
  - destruct (decide (d = p)) as [->|Hd].
    + by rewrite bool_decide_true, lookup_alter_eq.
    + rewrite bool_decide_false, lookup_alter_ne by congruence. by destruct (fs !! p).
  - rewrite bool_decide_false by done. by destruct (fs !! p).
Qed.

Lemma set_mtime_twice n : set_mtime now (set_mtime now n) = set_mtime now n.
Proof. done. Qed.

Lemma restore_loop_records (Hok : CallsOk) rs fuel fs :
  Forall record_ok rs -> Forall (fun r => Z.of_nat (length (rcontent r)) <= capacity) rs ->
  NoDup (map rpath rs) -> (forall r, r ∈ rs -> fs !! rpath r = None) -> (length rs < fuel)%nat ->
  rloop fuel (encode_all rs ++ encode_end) fs = Some (0, restore_all rs fs).
Proof.
  intros H. revert fuel fs. induction H as [|r rs Hr Hrs IH]; intros fuel fs Hcap Hnd Hfree Hf.
  - destruct fuel as [|fuel]; [lia|]. reflexivity.
  - destruct fuel as [|fuel]; [lia|]. apply Forall_cons in Hcap as [Hc Hcap].
    cbn [map] in Hnd. apply NoDup_cons in Hnd as [Hnot Hnd].
    change (encode_all (r :: rs)) with (encode r ++ encode_all rs). rewrite <- app_assoc.
    rewrite restore_step by (done || apply Hfree; left). cbn [restore_all foldl]. apply IH; [done..| |simpl in Hf; lia].
    intros r' Hin. rewrite create_other; [by rewrite Hfree by (by right)|]. intros E. apply Hnot. rewrite <- E.
    by apply list_elem_of_In, in_map, list_elem_of_In.
Qed.

Lemma restore_all_other rs fs p : p ∉ map rpath rs -> restore_all rs fs !! p = touched rs p <$> fs !! p.
Proof.
  revert fs. induction rs as [|r rs IH]; intros fs Hp; [unfold restore_all, touched; cbn; by destruct (fs !! p)|]. cbn [map] in *.
  change (restore_all (r :: rs) fs) with (restore_all rs (create now (rpath r) (restored r) fs)).
  apply not_elem_of_cons in Hp as [Hne Hp]. rewrite IH, create_other by done. unfold touched. cbn [existsb].
  destruct (is_parent p (rpath r)), (existsb _ rs), (fs !! p); done.
Qed.

Lemma restore_all_lookup pre r post fs :
  NoDup (map rpath (pre ++ r :: post)) ->
  restore_all (pre ++ r :: post) fs !! rpath r = Some (touched post (rpath r) (restored r)).
Proof.
  rewrite map_app. intros Hnd. apply NoDup_app in Hnd as (_ & _ & Hnd). cbn [map] in Hnd.
  apply NoDup_cons in Hnd as [Hnot _]. unfold restore_all. rewrite foldl_app. cbn [foldl].
  match goal with |- foldl ?f ?fs0 _ !! _ = _ => change (foldl f fs0 post) with (restore_all post fs0) end.
  rewrite restore_all_other by done. unfold create. by rewrite lookup_insert_eq.
Qed.

End RestoreLemmas.

(** ** What a wipe keeps *)

Definition but_mtime (n : fnode) : fnode := set_mtime 0 n.

(** The entries a wipe does not look into. *)
Definition kept_entry (all : bool) (path : str) : bool :=
  match skip_path path with Some t => negb (all || bool_decide (t = SPECIAL_NO_BACKUP)) | None => false end.

Lemma below_join q path name : slash ∉ name -> below q (join path name) -> below q path \/ join path name = q.
Proof.
  intros Hn [H|[rest H]]; [by right|]. left. unfold join in H.
  assert (Hr : exists r', rest = r' ++ name /\ path ++ [slash] = q ++ slash :: r').
  { destruct (decide (length name <= length rest)%nat) as [Hle|Hle].
    - exists (take (length rest - length name) rest).
      assert (E : rest = take (length rest - length name) rest ++ drop (length rest - length name) rest) by by rewrite take_drop.
      assert (Hl : (path ++ [slash]) ++ name =
                   (q ++ slash :: take (length rest - length name) rest) ++ drop (length rest - length name) rest).
      { rewrite <- !app_assoc. cbn [app]. rewrite <- E. exact H. }
      apply app_inj_2 in Hl as [Hl1 Hl2]; [|rewrite length_drop; lia]. rewrite Hl2 at 2. by rewrite <- E.
    - exfalso. apply Hn.
      assert (Hl : path ++ slash :: take (length name - S (length rest)) name ++
                   drop (length name - S (length rest)) name = q ++ slash :: rest) by by rewrite take_drop.
      rewrite app_comm_cons, app_assoc in Hl. apply app_inj_2 in Hl as [_ Hl]; [|rewrite length_drop; simpl; lia].
      rewrite <- (take_drop (length name - S (length rest)) name). apply elem_of_app. right. rewrite Hl. left. }
  destruct Hr as (r' & _ & E). destruct (decide (r' = [])) as [->|Hr'].
  - left. apply (app_inj_tail_iff path q slash slash). done.
  - right. destruct (exists_last Hr') as (r2 & c & ->). exists r2. rewrite app_comm_cons, app_assoc in E.
    by apply app_inj_tail in E as [E _].
Qed.

Lemma skip_path_below q t : skip_path q = Some t -> ~ below q (lit "/data").
Proof.
  unfold skip_path. destruct (List.find _ _) as [[q' t']|] eqn:E; [|done]. intros _.
  apply find_some in E as [Hin Hq]. apply str_eqb_eq in Hq. cbn [fst] in Hq. subst q'.
  assert (Hl : Forall (fun s => (5 < length (fst s))%nat) SKIP_PATHS) by (unfold SKIP_PATHS; repeat constructor; vm_compute; lia).
  rewrite Forall_forall in Hl. apply list_elem_of_In in Hin. apply Hl in Hin. cbn [fst] in Hin.
  intros [H|[rest H]]; apply (f_equal length) in H; [|rewrite length_app in H];
    change (length (lit "/data")) with 5%nat in H; simpl in H; lia.
Qed.

Section Wipe.
Context (rmdir_ok unlink_ok : files -> str -> bool) (opendir : files -> str -> option (list str)) (now : Z).
Context (Hnames : forall (fs : files) (path : str) (l : list str), opendir fs path = Some l -> Forall (fun name => slash ∉ name) l).
Context (all : bool) (bp : option str) (p : str) (fs0 : files) (D : str -> Prop).

Abbreviation same fs := (but_mtime <$> fs !! p = but_mtime <$> fs0 !! p).

Context (Hstep : forall (fs : files) (path name : str), D path -> slash ∉ name -> same fs -> kept_entry all (join path name) = false ->
  D (join path name) /\
  forall n, fs !! join path name = Some n -> (fcontent n = None \/ is_backup_file bp (join path name) = false) ->
    join path name <> p).

Lemma remove_same path fs : path <> p -> same fs -> same (remove now path fs).
Proof.
  intros H <-. unfold remove, touch_parent. destruct (parent_of path) as [d|]; [|by rewrite lookup_delete_ne].
  destruct (decide (d = p)) as [->|Hd].
  - rewrite lookup_alter_eq, lookup_delete_ne by done. by destruct (fs !! p).
  - by rewrite lookup_alter_ne, lookup_delete_ne by done.
Qed.

Lemma wipe_same fuel path fs r fs' :
  D path -> same fs -> wipe rmdir_ok unlink_ok opendir now fuel all bp path fs = Some (r, fs') -> same fs'.
Proof.
  revert path fs r fs'. induction fuel as [|fuel IH]; intros path fs r fs' HD Hs; [done|]. cbn [wipe].
  destruct (opendir fs path) as [names|] eqn:En; [|by intros [= _ <-]].
  apply Hnames in En. revert fs Hs r fs'. induction En as [|name names Hn _ IHn]; intros fs Hs r fs'; [by intros [= _ <-]|].
  destruct (ignored name); [by apply IHn|]. cbv zeta.
  pose proof (Hstep fs path name HD Hn Hs) as Hst. unfold kept_entry in Hst.
  destruct (negb _ && _) eqn:Ek; [by apply IHn|].
  destruct Hst as [HD' Hne]; [by destruct (skip_path _), all; cbn in *; rewrite ?andb_true_r in Ek|].
  destruct (fs !! join path name) as [n|] eqn:El; [|by apply IHn].
  specialize (Hne n eq_refl). destruct n as [[c|] ? ? ? ? ?].
  - destruct (is_backup_file bp _); [by apply IHn|]. destruct (unlink_ok fs _); [|by apply IHn].
    apply IHn, remove_same; [apply Hne; by right|done].
  - destruct (wipe _ _ _ _ fuel all bp _ fs) as [[[] fs1]|] eqn:Ew; [|by intros [= _ <-]; eapply IH|done].
    apply IH in Ew; [|done|done]. destruct (negb _ && rmdir_ok fs1 _); [|by apply IHn].
    apply IHn, remove_same; [apply Hne; by left|done].
Qed.

End Wipe.

Lemma no_touch_kept q all : skip_path q = Some SPECIAL_NO_TOUCH -> kept_entry all q = negb all.
Proof. intros H. unfold kept_entry. rewrite H. by destruct all. Qed.

Lemma encode_length r : (1 <= length (encode r))%nat.
Proof. unfold encode, encode_header. rewrite !length_app, length_le_split. lia. Qed.

Lemma encode_all_length rs : (length rs <= length (encode_all rs))%nat.
Proof.
  induction rs as [|r rs IH]; [done|]. change (encode_all (r :: rs)) with (encode r ++ encode_all rs).
  rewrite length_app. pose proof (encode_length r). simpl. lia.
Qed.

(** * Properties *)

Section Properties.
Context (mkdir_errno : files -> str -> option Z) (rmdir_ok unlink_ok fopen_ok : files -> str -> bool).
Context (chmod_ok chown_ok utime_ok : files -> str -> bool) (room_for : files -> str -> nat).
Context (opendir : files -> str -> option (list str)) (now : Z).

(** C4: a backup that reports success restores every directory and file it
    contains, over whatever the wipe left of the partition, with the same
    contents, owner, permission bits and times, provided that the values are
    ones the format can represent, the paths are distinct and were wiped, and
    the calls of the restore succeed; only, a directory that another node of
    the backup is restored into afterwards has the time of the restore as its
    modification time. No other path changes, but for that time. *)
Theorem backup_restore_roundtrip (capacity : Z) (Hok : CallsOk mkdir_errno fopen_ok chmod_ok chown_ok utime_ok room_for capacity)
    (all : bool) (dest : str) (synced : bool) (device : nat)
    (data : list (str * option (bstat * bnode))) (bytes : list Z) (depth : nat) (src : str)
    (fs fs1 : files) :
  backup_data all dest true synced device (Some data) = (0, bytes) ->
  let rs := dir_records all (Some dest) (lit "/data") data in
  Forall record_ok rs -> Forall (fun r => Z.of_nat (length (rcontent r)) <= capacity) rs -> NoDup (map rpath rs) ->
  wipe rmdir_ok unlink_ok opendir now depth all (Some src) (lit "/data") fs = Some (true, fs1) ->
  (forall r, r ∈ rs -> fs1 !! rpath r = None) ->
  exists fs2,
    restore_data mkdir_errno rmdir_ok unlink_ok fopen_ok chmod_ok chown_ok utime_ok room_for opendir now
      depth src (Some bytes) fs = Some (0, fs2) /\
    (forall pre r post, rs = pre ++ r :: post -> fs2 !! rpath r = Some (touched now post (rpath r) (restored r))) /\
    (forall p, p ∉ map rpath rs -> fs2 !! p = touched now rs p <$> fs1 !! p).
Proof.
  intros Hb rs Hrs Hcap Hnd Hwipe Hfree. apply backup_data_bytes in Hb as (l & Hl & Hb).
  injection Hl as <-. subst bytes. fold rs.
  exists (restore_all now rs fs1). split_and!; [| |intros p Hp; by apply restore_all_other].
  2: { intros pre r post E. rewrite E in Hnd |- *. by apply restore_all_lookup. }
  unfold restore_data, read_int32. cbv zeta.
  set (len := length _). assert (Hlen : (length rs < S len)%nat).
  { pose proof (encode_all_length rs). unfold len. rewrite !length_app. lia. }
  clearbody len. unfold prologue. rewrite <- !app_assoc. rewrite read_int_split.
  change (u32 _) with FILE_VERSION. cbv iota beta.
  change ((FILE_VERSION <? FILE_VERSION_1) || (FILE_VERSION <? FILE_VERSION)) with false.
  change (FILE_VERSION_2 <=? FILE_VERSION) with true. cbv iota.
  rewrite read_int_split. replace (nz _) with all by by destruct all. rewrite Hwipe. cbn [mbind option_bind].
  eapply restore_loop_records; [exact Hok|done..].
Qed.

(** C26: a backup file that was cut anywhere before its last byte is never
    restored with success: whatever the calls of the restore answer, provided
    the wipe ends, the restore ends with -1. *)
Theorem truncated_backup_rejected (all : bool) (rs : list record) (k depth : nat) (src : str) (fs : files) :
  Forall record_ok rs -> (k < length (prologue all ++ encode_all rs ++ encode_end))%nat ->
  (forall opt, is_Some (wipe rmdir_ok unlink_ok opendir now depth opt (Some src) (lit "/data") fs)) ->
  exists fs', restore_data mkdir_errno rmdir_ok unlink_ok fopen_ok chmod_ok chown_ok utime_ok room_for opendir now
                depth src (Some (take k (prologue all ++ encode_all rs ++ encode_end))) fs = Some (-1, fs').
Proof.
  intros Hrs Hk Hwipe. unfold restore_data, read_int32. cbv zeta.
  set (len := length (take k _)). unfold prologue in *. rewrite <- !app_assoc in *.
  rewrite !length_app, !length_le_split in Hk.
  assert (Hlen : len = k).
  { unfold len. rewrite length_take, !length_app, !length_le_split, <- !length_app in *. rewrite !length_app in *. lia. }
  rewrite read_int_trunc. destruct (Nat.leb_spec 4 k); [|by eexists].
  change (u32 _) with FILE_VERSION. cbv iota beta.
  change ((FILE_VERSION <? FILE_VERSION_1) || (FILE_VERSION <? FILE_VERSION)) with false.
  change (FILE_VERSION_2 <=? FILE_VERSION) with true. cbv iota. rewrite read_int_trunc.
  assert (Hend : forall j opt, (j < length (encode_all rs ++ encode_end))%nat -> (j <= k)%nat ->
            exists fs', ('(wiped, fs) ← wipe rmdir_ok unlink_ok opendir now depth opt (Some src) (lit "/data") fs;
              if (wiped : bool) then restore_loop mkdir_errno fopen_ok chmod_ok chown_ok utime_ok room_for now (S len)
                                       (take j (encode_all rs ++ encode_end)) fs
              else Some (-1, fs)) = Some (-1, fs')).
  { intros j opt Hj Hjk. destruct (Hwipe opt) as [[w fs1] ->]. cbn [mbind option_bind]. destruct w; [|by eexists].
    apply restore_loop_trunc; [done|done|lia]. }
  destruct (Nat.leb_spec 4 (k - 4)).
  - apply Hend; [rewrite length_app|]; lia.
  - apply (Hend 0%nat); [|lia].
    rewrite length_app. unfold encode_end. rewrite length_le_split. lia.
Qed.

End Properties.

(** Whatever its outcome, a wipe of the data partition does not remove or
    change (but for modification times) what lies outside [/data], the backup
    file itself, and, unless the backup contains every file, the entries marked
    [SPECIAL_NO_TOUCH] with all that is below them. *)
Theorem wipe_keeps (rmdir_ok unlink_ok : files -> str -> bool) (opendir : files -> str -> option (list str)) (now : Z)
    (all : bool) (bp : str) (fuel : nat) (fs fs' : files) (r : bool) (p : str) :
  (forall (fs : files) (path : str) (l : list str), opendir fs path = Some l -> Forall (fun name => slash ∉ name) l) ->
  wipe rmdir_ok unlink_ok opendir now fuel all (Some bp) (lit "/data") fs = Some (r, fs') ->
  (~ below (lit "/data") p \/
   (p = bp /\ exists n c, fs !! p = Some n /\ fcontent n = Some c) \/
   (all = false /\ exists q, skip_path q = Some SPECIAL_NO_TOUCH /\ below q p)) ->
  but_mtime <$> fs' !! p = but_mtime <$> fs !! p.
Proof.
  intros Hn Hw [Hp|[[-> (n & c & Hp & Hc)]|[-> (q & Hq & Hp)]]].
  - refine (wipe_same _ _ _ _ Hn _ _ p fs (below (lit "/data")) _ _ _ _ _ _ _ eq_refl Hw); [|by left].
    intros fs1 path name Hd _ _ _. assert (Hb : below (lit "/data") (join path name)).
    { right. destruct Hd as [->|[rest ->]]; [by exists name|]. exists (rest ++ slash :: name). unfold join; by rewrite <- app_assoc. }
    split; [done|]. intros n _ _ E. by rewrite E in Hb.
  - refine (wipe_same _ _ _ _ Hn _ _ bp fs (fun _ => True) _ _ _ _ _ _ _ eq_refl Hw); [|done].
    intros fs1 path name _ _ Hs _. split; [done|]. intros n' Hl Hor E. rewrite E in *.
    destruct Hor as [Hor|Hor]; [|cbn in Hor; by rewrite str_eqb_refl in Hor].
    rewrite Hp, Hl in Hs. cbn in Hs. injection Hs as Hs. congruence.
  - refine (wipe_same _ _ _ _ Hn _ _ p fs (fun path => ~ below q path) _ _ _ _ _ _ _ eq_refl Hw).
    + intros fs1 path name Hd Hsl _ Hk. assert (Hb : ~ below q (join path name)).
      { intros [E|E]%(below_join _ _ _ Hsl); [done|]. rewrite E, (no_touch_kept q) in Hk by done. done. }
      split; [done|]. intros n _ _ E. by rewrite E in Hb.
    + by apply (skip_path_below q SPECIAL_NO_TOUCH).
Qed.

(** * Witnesses *)

Module BackupWitness.

Definition st (mode size : Z) : bstat := BStat 1000 1000 mode 10 20 30 size.

(** A directory with a file, a skipped directory and a socket. *)
Definition data : list (str * option (bstat * bnode)) :=
  [(lit ".", None);
   (lit "a", Some (st 16877 0, BDir (Some [(lit "f", Some (st 33188 3, BFile (Some [104; 105; 10])))])));
   (lit "misc", None); (lit "s", Some (st 49663 0, BOther))].

Definition dest : str := lit "/data/b.dat".

Definition bytes : list Z := snd (backup_data false dest true true 4096 (Some data)).

Definition records : list record :=
  [Record_ TYPE_DIR (lit "/data/a") (st 16877 0) [];
   Record_ TYPE_FILE (lit "/data/a/f") (st 33188 3) [104; 105; 10]].

Lemma backed_up : backup_data false dest true true 4096 (Some data) = (0, bytes).
Proof. vm_compute. reflexivity. Qed.

Lemma records_eq : dir_records false (Some dest) (lit "/data") data = records.
Proof. vm_compute. reflexivity. Qed.

Lemma records_ok : Forall record_ok records.
Proof.
  apply (bool_decide_unpack (Forall record_ok records)). vm_compute. exact I.
Qed.

(* a stale file is wiped; every call succeeds *)
Definition fs : files := {[ lit "/data/old" := FNode (Some [1]) 420 0 0 0 0; dest := FNode (Some []) 420 0 0 0 0;
     lit "/data" := FNode None 448 0 0 0 0 ]}.
Definition wiped : files := {[ dest := FNode (Some []) 420 0 0 0 0; lit "/data" := FNode None 448 0 0 0 99 ]}.
Definition ok (fs : files) (p : str) : bool := true.
Definition big (fs : files) (p : str) : nat := 100.
Definition mkdir (fs : files) (p : str) : option Z := match fs !! p with Some _ => Some EEXIST | None => None end.
Definition entries (fs : files) (p : str) : option (list str) :=
  if p =s? lit "/data" then Some [lit "old"; lit "b.dat"] else Some [].

Lemma calls_ok : CallsOk mkdir ok ok ok ok big 100.
Proof. split; try done. intros f p E. unfold mkdir. by rewrite E. Qed.

Lemma wipe_eq : wipe ok ok entries 99 3 false (Some dest) (lit "/data") fs = Some (true, wiped).
Proof. vm_compute. reflexivity. Qed.

Lemma records_free : forall r, r ∈ records -> wiped !! rpath r = None.
Proof. apply Forall_forall. repeat constructor. Qed.

Lemma wipe_ends : forall opt, is_Some (wipe ok ok entries 99 3 opt (Some dest) (lit "/data") fs).
Proof. intros []; vm_compute; eauto. Qed.

Lemma records_fit : Forall (fun r => Z.of_nat (length (rcontent r)) <= 100) records.
Proof. repeat constructor; simpl; lia. Qed.

Lemma records_distinct : NoDup (map rpath records).
Proof. apply (bool_decide_unpack (NoDup (map rpath records))). vm_compute. exact I. Qed.

Lemma cut : (20 < length (prologue false ++ encode_all records ++ encode_end))%nat.
Proof. apply Nat.ltb_lt. vm_compute. reflexivity. Qed.

Lemma entries_names : forall (fs : files) (path : str) (l : list str),
  entries fs path = Some l -> Forall (fun name => slash ∉ name) l.
Proof.
  intros f path l. unfold entries. destruct (path =s? lit "/data"); intros [= <-]; [|constructor].
  apply (bool_decide_unpack (Forall (fun name => slash ∉ name) [lit "old"; lit "b.dat"])). vm_compute. exact I.
Qed.

Lemma backup_file_there : fs !! dest = Some (FNode (Some []) 420 0 0 0 0).
Proof. vm_compute. reflexivity. Qed.

End BackupWitness.

Lemma backup_restore_roundtrip_witness :
  exists fs2,
    restore_data BackupWitness.mkdir BackupWitness.ok BackupWitness.ok BackupWitness.ok BackupWitness.ok
      BackupWitness.ok BackupWitness.ok BackupWitness.big BackupWitness.entries 99 3 BackupWitness.dest
      (Some BackupWitness.bytes) BackupWitness.fs = Some (0, fs2) /\
    (forall pre r post, BackupWitness.records = pre ++ r :: post ->
       fs2 !! rpath r = Some (touched 99 post (rpath r) (restored r))) /\
    (forall p, p ∉ map rpath BackupWitness.records ->
       fs2 !! p = touched 99 BackupWitness.records p <$> BackupWitness.wiped !! p).
Proof.
  rewrite <- BackupWitness.records_eq.
  apply (backup_restore_roundtrip _ _ _ _ _ _ _ _ _ _ 100 BackupWitness.calls_ok false BackupWitness.dest true 4096
           BackupWitness.data BackupWitness.bytes 3 BackupWitness.dest BackupWitness.fs BackupWitness.wiped);
    try rewrite BackupWitness.records_eq.
  - exact BackupWitness.backed_up.
  - exact BackupWitness.records_ok.
  - exact BackupWitness.records_fit.
  - exact BackupWitness.records_distinct.
  - exact BackupWitness.wipe_eq.
  - exact BackupWitness.records_free.
Defined.

Lemma truncated_backup_rejected_witness :
  exists fs', restore_data BackupWitness.mkdir BackupWitness.ok BackupWitness.ok BackupWitness.ok BackupWitness.ok
      BackupWitness.ok BackupWitness.ok BackupWitness.big BackupWitness.entries 99 3 BackupWitness.dest
      (Some (take 20 (prologue false ++ encode_all BackupWitness.records ++ encode_end))) BackupWitness.fs = Some (-1, fs').
Proof.
  exact (truncated_backup_rejected _ _ _ _ _ _ _ _ _ _ false BackupWitness.records 20 3 BackupWitness.dest BackupWitness.fs
           BackupWitness.records_ok BackupWitness.cut BackupWitness.wipe_ends).
Defined.

Lemma wipe_keeps_witness :
  but_mtime <$> BackupWitness.wiped !! BackupWitness.dest = but_mtime <$> BackupWitness.fs !! BackupWitness.dest.
Proof.
  apply (wipe_keeps BackupWitness.ok BackupWitness.ok BackupWitness.entries 99 false BackupWitness.dest 3
           BackupWitness.fs BackupWitness.wiped true BackupWitness.dest BackupWitness.entries_names BackupWitness.wipe_eq).
  right. left. split; [reflexivity|]. eexists _, _. split; [exact BackupWitness.backup_file_there|reflexivity].
Defined.
