(* ===== verification/ReplayEvent.v ===== *)
(** The handshake of [surfacereplayer/replayer/Event.cpp]: a mutex, a condition
    variable and a state through which the main thread of the replayer lets a
    worker go on.

    [mon_step] is the handshake with its condition variable: a thread that
    waits is asleep until a [notify_one] picks it. [guard_step] is what the
    replayer relies on, waiting as a guard; [event_refines] and
    [event_handshake] say that the first implements the second. *)

From S2P Require Import Prelude.
From stdpp Require Import relations.

(** * The event *)

Inductive EventState := SettingUp | Waiting | Signaled | Running.

#[export] Instance EventState_eq_dec : EqDecision EventState.
Proof. solve_decision. Defined.

(** What a thread does between two points where others can run. [Test] looks at
    the state with the mutex held, and goes to sleep atomically if it is
    another one; [Notify] comes after the mutex is released. *)
Inductive instr := SetState (s : EventState) | Notify | Test (s : EventState).

#[export] Instance instr_eq_dec : EqDecision instr.
Proof. solve_decision. Defined.

Definition waitUntil (state : EventState) : list instr := [Test state].
Definition changeState (state : EventState) : list instr := [SetState state; Notify].

Definition readyToExecute : list instr := changeState Waiting ++ waitUntil Signaled ++ changeState Running.
Definition complete : list instr := waitUntil Waiting ++ changeState Signaled ++ waitUntil Running.

Inductive thread := Worker | MainThread.

#[export] Instance thread_eq_dec : EqDecision thread.
Proof. solve_decision. Defined.

(** The state, what the two threads have still to do, and who sleeps on the
    condition variable. *)
Record Event := NewEvent { mState : EventState; worker : list instr; main : list instr; sleepers : list thread }.

#[export] Instance Event_eq_dec : EqDecision Event.
Proof. solve_decision. Defined.

Definition new_event : Event := NewEvent SettingUp readyToExecute complete [].

Definition todo (t : thread) (e : Event) : list instr := match t with Worker => worker e | MainThread => main e end.

Definition set_todo (t : thread) (l : list instr) (e : Event) : Event :=
  match t with
  | Worker => NewEvent (mState e) l (main e) (sleepers e)
  | MainThread => NewEvent (mState e) (worker e) l (sleepers e)
  end.

Definition set_state (s : EventState) (e : Event) : Event := NewEvent s (worker e) (main e) (sleepers e).

Definition wake (t : thread) (e : Event) : Event :=
  NewEvent (mState e) (worker e) (main e) (List.filter (fun u => negb (bool_decide (u = t))) (sleepers e)).

Definition sleep (t : thread) (e : Event) : Event := NewEvent (mState e) (worker e) (main e) (t :: sleepers e).

(** The states after one step of a thread: [notify_one] may wake any sleeper. *)
Definition next (t : thread) (e : Event) : list Event :=
  if bool_decide (t ∈ sleepers e) then []
  else
    match todo t e with
    | [] => []
    | SetState s :: k => [set_state s (set_todo t k e)]
    | Notify :: k => match sleepers e with [] => [set_todo t k e] | l => map (fun u => wake u (set_todo t k e)) l end
    | Test s :: k => [if bool_decide (mState e = s) then set_todo t k e else sleep t e]
    end.

Definition steps_of (e : Event) : list Event := next Worker e ++ next MainThread e.

(** The wake-ups without a notification, that the standard allows. *)
Definition spurious (e : Event) : list Event := map (fun t => wake t e) (sleepers e).

Definition mon_step (e e' : Event) : Prop := e' ∈ steps_of e.
Definition any_step (e e' : Event) : Prop := e' ∈ steps_of e ++ spurious e.

(** * The specification *)

(** Waiting as a guard. *)
Record handshake := Handshake { h_state : EventState; h_worker : list instr; h_main : list instr }.

#[export] Instance handshake_eq_dec : EqDecision handshake.
Proof. solve_decision. Defined.

(** One thread at a state: the state and the rest; [None]: it is blocked. *)
Definition guarded (s : EventState) (l : list instr) : option (EventState * list instr) :=
  match l with
  | SetState s' :: k => Some (s', k)
  | Test s' :: k => if bool_decide (s = s') then Some (s, k) else None
  | Notify :: _ | [] => None
  end.

Definition worker_step (h : handshake) : option handshake :=
  match guarded (h_state h) (h_worker h) with Some (s, k) => Some (Handshake s k (h_main h)) | None => None end.

Definition main_step (h : handshake) : option handshake :=
  match guarded (h_state h) (h_main h) with Some (s, k) => Some (Handshake s (h_worker h) k) | None => None end.

Definition guard_steps (h : handshake) : list handshake := option_list (worker_step h) ++ option_list (main_step h).

Definition guard_step (h h' : handshake) : Prop := h' ∈ guard_steps h.

Definition quiet_instr (i : instr) : bool := match i with Notify => false | _ => true end.

Definition abs (e : Event) : handshake :=
  Handshake (mState e) (List.filter quiet_instr (worker e)) (List.filter quiet_instr (main e)).

(** A handshake that has not begun. *)
Definition new_handshake : handshake := abs new_event.

(** * All states *)

(** There are few: they are listed and checked. *)
Fixpoint explore (fuel : nat) (seen todo : list Event) : list Event :=
  match fuel with
  | O => seen
  | S fuel' =>
      match todo with
      | [] => seen
      | e :: todo' =>
          if bool_decide (e ∈ seen) then explore fuel' seen todo'
          else explore fuel' (e :: seen) (steps_of e ++ spurious e ++ todo')
      end
  end.

Definition all_events : list Event := Eval vm_compute in explore 200 [] [new_event].

(** The longest way to the end. *)
Fixpoint rank (fuel : nat) (e : Event) : nat :=
  match fuel with
  | O => 0
  | S fuel' => match steps_of e with [] => 0 | l => S (foldr Nat.max 0 (map (rank fuel') l))%nat end
  end.

Lemma all_events_closed : forallb (fun e => forallb (fun e' => bool_decide (e' ∈ all_events)) (steps_of e ++ spurious e)) all_events = true.
Proof. by vm_compute. Qed.

(** Whether a step of the specification is carried out. *)
Fixpoint answers (fuel : nat) (h : handshake) (e : Event) : bool :=
  bool_decide (abs e = h) ||
  match fuel with O => false | S fuel' => existsb (answers fuel' h) (steps_of e) end.

Lemma all_events_checked : forallb (fun e =>
  forallb (fun e' => bool_decide (abs e' = abs e) || bool_decide (abs e' ∈ guard_steps (abs e))) (steps_of e ++ spurious e) &&
  forallb (fun h => answers 4 h e) (guard_steps (abs e)) &&
  forallb (fun e' => (rank 12 e' <? rank 12 e)%nat) (steps_of e) &&
  (negb (bool_decide (steps_of e = [])) || bool_decide (e = NewEvent Running [] [] [])) &&
  (length (sleepers e) <=? 1)%nat) all_events = true.
Proof. by vm_compute. Qed.

Definition reachable (e : Event) : Prop := rtc any_step new_event e.

Lemma reachable_listed e : reachable e -> e ∈ all_events.
Proof.
  refine (rtc_ind_r (fun e => e ∈ all_events) new_event _ _ e); clear e.
  { change (new_event ∈ all_events). apply (bool_decide_eq_true_1 _). by vm_compute. }
  intros e e' _ Hs IH.
  pose proof all_events_closed as Hc. rewrite forallb_forall in Hc. specialize (Hc e ltac:(by apply list_elem_of_In)).
  rewrite forallb_forall in Hc. specialize (Hc e' ltac:(by apply list_elem_of_In)). by apply bool_decide_eq_true in Hc.
Qed.

Record checked (e : Event) : Prop := {
  ck_refines : forall e', any_step e e' -> abs e' = abs e \/ guard_step (abs e) (abs e');
  ck_answers : forall h, guard_step (abs e) h -> answers 4 h e = true;
  ck_rank : forall e', mon_step e e' -> (rank 12 e' < rank 12 e)%nat;
  ck_end : steps_of e = [] -> e = NewEvent Running [] [] [];
  ck_one : (length (sleepers e) <= 1)%nat;
}.

Lemma reachable_checked e : reachable e -> checked e.
Proof.
  intros H%reachable_listed. pose proof all_events_checked as Hc. rewrite forallb_forall in Hc.
  specialize (Hc e ltac:(by apply list_elem_of_In)). rewrite !andb_true_iff, !forallb_forall in Hc.
  destruct Hc as ((((H1 & H2) & H3) & H4) & H5). split.
  - intros e' He. specialize (H1 e' ltac:(by apply list_elem_of_In)). apply orb_true_iff in H1.
    rewrite !bool_decide_eq_true in H1. exact H1.
  - intros h Hh. apply H2. by apply list_elem_of_In.
  - intros e' He. apply Nat.ltb_lt, H3. by apply list_elem_of_In.
  - intros E. rewrite E in H4. by apply bool_decide_eq_true in H4.
  - by apply Nat.leb_le.
Qed.

Lemma reachable_mon e e' : reachable e -> mon_step e e' -> reachable e'.
Proof. intros H Hs. eapply rtc_r; [exact H|]. apply elem_of_app. by left. Qed.

Lemma answers_reach fuel h e : answers fuel h e = true -> exists e', rtc mon_step e e' /\ abs e' = h.
Proof.
  revert e. induction fuel as [|fuel IH]; intros e; cbn [answers]; rewrite orb_true_iff, bool_decide_eq_true;
    (intros [E|E]; [by exists e|]); [done|].
  apply existsb_exists in E as (e1 & H1 & E). destruct (IH e1 E) as (e' & Hr & Ha). exists e'. split; [|done].
  eapply rtc_l; [|exact Hr]. by apply list_elem_of_In.
Qed.

Lemma reachable_sn e : reachable e -> sn mon_step e.
Proof.
  remember (rank 12 e) as n eqn:E. revert e E. induction n as [n IH] using lt_wf_ind. intros e -> H. constructor.
  intros e' Hs. apply (IH (rank 12 e')); [by apply (ck_rank e (reachable_checked e H))|done|by apply (reachable_mon e)].
Qed.

(** ** The states of the specification *)

Definition all_handshakes : list handshake := Eval vm_compute in remove_dups (map abs all_events).

Lemma all_handshakes_checked : forallb (fun h =>
  forallb (fun h' => bool_decide (h' ∈ all_handshakes) &&
    (length (h_worker h') + length (h_main h') <? length (h_worker h) + length (h_main h))%nat) (guard_steps h) &&
  (negb (bool_decide (h_main h = [])) || bool_decide (h_worker h = [])) &&
  (negb (bool_decide (h_worker h = h_worker new_handshake)) || bool_decide (h = new_handshake)) &&
  (bool_decide (h_main h = []) || bool_decide (is_Some (main_step h)) || bool_decide (is_Some (worker_step h))) &&
  (negb (bool_decide (h_worker h = [])) || negb (bool_decide (h_main h = h_main new_handshake)))) all_handshakes = true.
Proof. by vm_compute. Qed.

(** A handshake as its two threads can make it. *)
Definition shaken (h : handshake) : Prop := h ∈ all_handshakes.

Lemma shaken_new : shaken new_handshake.
Proof. unfold shaken. apply (bool_decide_eq_true_1 _). by vm_compute. Qed.

Record shaken_facts (h : handshake) : Prop := {
  sf_step : forall h', guard_step h h' ->
    shaken h' /\ (length (h_worker h') + length (h_main h') < length (h_worker h) + length (h_main h))%nat;
  sf_main : h_main h = [] -> h_worker h = [];
  sf_new : h_worker h = h_worker new_handshake -> h = new_handshake;
  sf_live : h_main h = [] \/ is_Some (main_step h) \/ is_Some (worker_step h);
  sf_started : h_worker h = [] -> h_main h <> h_main new_handshake;
}.

Lemma shaken_checked h : shaken h -> shaken_facts h.
Proof.
  intros H. pose proof all_handshakes_checked as Hc. rewrite forallb_forall in Hc.
  specialize (Hc h ltac:(by apply list_elem_of_In)).
  rewrite !andb_true_iff, !orb_true_iff, !negb_true_iff, !bool_decide_eq_true, !bool_decide_eq_false, forallb_forall in Hc.
  destruct Hc as ((((H1 & H2) & H3) & H4) & H5). split; [|tauto..].
  intros h' Hs. specialize (H1 h' ltac:(by apply list_elem_of_In)). rewrite andb_true_iff, bool_decide_eq_true in H1.
  destruct H1 as [H1 Hl]. split; [done|]. by apply Nat.ltb_lt.
Qed.

Lemma guard_step_worker h h' : worker_step h = Some h' -> guard_step h h'.
Proof. intros E. unfold guard_step, guard_steps. rewrite E. left. Qed.

Lemma guard_step_main h h' : main_step h = Some h' -> guard_step h h'.
Proof. intros E. unfold guard_step, guard_steps. rewrite E. apply elem_of_app. right. left. Qed.

(** * Properties *)

(** The condition variable implements waiting as a guard: each step
    of the two threads, with wake-ups that nobody asked for, is a step of the
    specification or none, and each step that the specification can make is
    carried out after finitely many. *)
Theorem event_refines (e : Event) :
  reachable e ->
  (forall e', any_step e e' -> abs e' = abs e \/ guard_step (abs e) (abs e')) /\
  (forall h, guard_step (abs e) h -> exists e', rtc mon_step e e' /\ abs e' = h).
Proof.
  intros H%reachable_checked. split; [apply (ck_refines e H)|]. intros h Hh. by eapply answers_reach, (ck_answers e H).
Qed.

(** C37: no wake-up is lost: whatever the threads have done, at most one of them sleeps, they stop
    after finitely many steps, and they stop only when [readyToExecute] and
    [complete] have both returned and the worker runs. *)
Theorem event_handshake (e : Event) :
  reachable e ->
  sn mon_step e /\ (length (sleepers e) <= 1)%nat /\
  (nf mon_step e -> worker e = [] /\ main e = [] /\ mState e = Running /\ sleepers e = []).
Proof.
  intros H. split; [by apply reachable_sn|]. apply reachable_checked in H. split; [apply (ck_one e H)|].
  intros Hn. destruct (steps_of e) as [|e' l] eqn:E.
  - by rewrite (ck_end e H E).
  - exfalso. apply Hn. exists e'. unfold mon_step. rewrite E. left.
Qed.

(** A run in which the main thread sleeps first and is woken for nothing. *)
Definition sleepy_event : Event := wake MainThread (sleep MainThread new_event).

Lemma sleepy_reachable : reachable sleepy_event.
Proof.
  unfold reachable, any_step.
  eapply rtc_l; [|eapply rtc_once].
  - instantiate (1 := sleep MainThread new_event). apply (bool_decide_eq_true_1 _). by vm_compute.
  - apply (bool_decide_eq_true_1 _). by vm_compute.
Qed.

Lemma event_refines_witness :
  reachable sleepy_event /\ exists e', rtc mon_step sleepy_event e' /\ h_state (abs e') = Waiting.
Proof.
  split; [apply sleepy_reachable|]. destruct (event_refines sleepy_event sleepy_reachable) as [_ H].
  destruct (H (Handshake Waiting [Test Signaled; SetState Running] [Test Waiting; SetState Signaled; Test Running])) as (e' & Hr & E);
    [unfold guard_step; apply (bool_decide_eq_true_1 _); by vm_compute|]. exists e'. by rewrite E.
Defined.

Lemma event_handshake_witness : reachable sleepy_event /\ sn mon_step sleepy_event.
Proof. split; [apply sleepy_reachable|]. destruct (event_handshake sleepy_event sleepy_reachable) as [H _]. exact H. Defined.
