(* ===== verification/ReplayScheduler.v ===== *)
(** [surfacereplayer/replayer/BufferQueueScheduler.cpp]: the thread that
    prepares the buffers of one layer, one after the other, and the calls that
    other threads make to it.

    [sched_step] is one step of the thread, from one point where others can
    run to the next: what it does with the mutex held is one step. The event
    of a buffer is its index; waiting for it is a guard ([ReplayEvent]). *)

From S2P Require Import Prelude ReplayEvent.

Open Scope Z_scope.

(** * Data *)

Record Dimensions := { width : Z; height : Z }.
Record BufferEvent := { event : nat; dimensions : Dimensions }.

(** What [Surface::lock] gives: the size of the buffer and its row length, in
    pixels. *)
Record ANativeWindow_Buffer := { buf_width : Z; buf_height : Z; stride : Z }.

Record RGB := { r : Z; g : Z; b : Z }.

Definition LAYER_ALPHA : Z := 190.

(** The colours of [Color.h] are floating point numbers. *)
Class Colors := {
  HSV : Type;
  getRGB : HSV -> RGB;
  modulate : HSV -> HSV;
}.

(** The calls on the surface of a layer. *)
Inductive surface_call :=
| setBuffersDimensions (surface width height : Z)
| lockBuffer (surface : Z)
| writePixels (surface : Z) (writes : list (Z * Z))
| unlockAndPost (surface : Z).

(** Where the thread is. A sleeper is woken by a notification; [Crashed]: a
    null pointer was dereferenced. *)
Inductive sched_pc :=
| Starting
| AwaitSurface (woken : bool)
| Looping
| Update (e : BufferEvent)
| Fill (e : BufferEvent)
| Ready (surface : Z) (e : BufferEvent)
| Post (surface : Z) (e : BufferEvent)
| Popping
| Sleeping (woken : bool)
| Stopped
| Crashed.

Section Scheduler.
Context {colors : Colors}.

Record BufferQueueScheduler := Scheduler {
  mSurfaceControl : option Z;
  mColor : HSV;
  mContinueScheduling : bool;
  mBufferEvents : list BufferEvent;
  pc : sched_pc;
}.

Definition new_scheduler (surfaceControl : option Z) (color : HSV) : BufferQueueScheduler :=
  Scheduler surfaceControl color true [] Starting.

Definition at_pc (p : sched_pc) (s : BufferQueueScheduler) : BufferQueueScheduler :=
  Scheduler (mSurfaceControl s) (mColor s) (mContinueScheduling s) (mBufferEvents s) p.

(** ** The calls of other threads *)

(** [notify_one]: the thread is the only one that waits. *)
Definition notified (p : sched_pc) : sched_pc :=
  match p with AwaitSurface _ => AwaitSurface true | Sleeping _ => Sleeping true | _ => p end.

Definition addEvent (e : BufferEvent) (s : BufferQueueScheduler) : BufferQueueScheduler :=
  Scheduler (mSurfaceControl s) (mColor s) (mContinueScheduling s) (mBufferEvents s ++ [e]) (notified (pc s)).

Definition stopScheduling (s : BufferQueueScheduler) : BufferQueueScheduler :=
  Scheduler (mSurfaceControl s) (mColor s) false (mBufferEvents s) (notified (pc s)).

Definition setSurfaceControl (surfaceControl : option Z) (color : HSV) (s : BufferQueueScheduler) : BufferQueueScheduler :=
  Scheduler surfaceControl color (mContinueScheduling s) (mBufferEvents s) (notified (pc s)).

(** ** The thread *)

(** The pixels row by row, four bytes each. *)
Definition pixel_writes (buf : ANativeWindow_Buffer) (color : RGB) : list (Z * Z) :=
  flat_map (fun y => flat_map (fun x =>
      let pixel := 4 * (y * stride buf + x) in
      [(pixel, r color); (pixel + 1, g color); (pixel + 2, b color); (pixel + 3, LAYER_ALPHA)])
    (seqZ 0 (buf_width buf))) (seqZ 0 (buf_height buf)).

(** The inner loop, with the mutex held: the next event, or sleep. *)
Definition pick (s : BufferQueueScheduler) : BufferQueueScheduler :=
  match mBufferEvents s with
  | [] => at_pc (Sleeping false) s
  | e :: _ => at_pc (Update e) s
  end.

Definition bufferUpdate (surface : Z) (e : BufferEvent) : list surface_call :=
  [setBuffersDimensions surface (width (dimensions e)) (height (dimensions e))].

(** Up to the event: the buffer is locked and filled; an error ends the
    function before the event is ready. *)
Definition fillSurface (surface : Z) (color : HSV) (e : BufferEvent) (locked : Z + ANativeWindow_Buffer) : sched_pc * list surface_call :=
  match locked with
  | inl _ => (Popping, [lockBuffer surface])
  | inr buf => (Ready surface e,
                [lockBuffer surface; writePixels surface (pixel_writes buf (getRGB color))])
  end.

(** The state after a step, the event of the buffer if it has changed, and the
    calls; [None]: asleep, blocked or at the end. *)
Definition sched_result : Type := BufferQueueScheduler * option handshake * list surface_call.

Definition startScheduling (lock : nat -> Z + ANativeWindow_Buffer) (event_of : nat -> handshake)
    (s : BufferQueueScheduler) : option sched_result :=
  let go p calls := Some (at_pc p s, None, calls) in
  let on_surface k := match mSurfaceControl s with Some surface => k surface | None => go Crashed [] end in
  match pc s with
  | Starting | AwaitSurface true => go (match mSurfaceControl s with None => AwaitSurface false | Some _ => Looping end) []
  | Looping => Some (if mContinueScheduling s then pick s else at_pc Stopped s, None, [])
  | Update e => on_surface (fun surface => go (Fill e) (bufferUpdate surface e))
  | Fill e => on_surface (fun surface => let '(p, calls) := fillSurface surface (mColor s) e (lock (event e)) in go p calls)
  | Ready surface e =>
      match h_worker (event_of (event e)) with
      | [] => go (Post surface e) []
      | _ :: _ =>
          match worker_step (event_of (event e)) with
          | Some h => Some (s, Some h, [])
          | None => None
          end
      end
  | Post surface e => go Popping [unlockAndPost surface]
  | Popping => Some (pick (Scheduler (mSurfaceControl s) (modulate (mColor s)) (mContinueScheduling s) (tail (mBufferEvents s)) Popping), None, [])
  | Sleeping true => go Looping []
  | AwaitSurface false | Sleeping false | Stopped | Crashed => None
  end.

(** * Histories *)

(** What can happen to a scheduler: [added] are the events that were given to
    it, [handled] those it has done with, in order; [h_wake] is a wake-up that
    nobody asked for. *)
Inductive history : BufferQueueScheduler -> list BufferEvent -> list BufferEvent -> Prop :=
| h_new surfaceControl color : history (new_scheduler surfaceControl color) [] []
| h_add e s added handled : history s added handled -> history (addEvent e s) (added ++ [e]) handled
| h_stop s added handled : history s added handled -> history (stopScheduling s) added handled
| h_surface surfaceControl color s added handled :
    history s added handled -> history (setSurfaceControl (Some surfaceControl) color s) added handled
| h_run lock event_of s s' state calls added handled :
    history s added handled -> startScheduling lock event_of s = Some (s', state, calls) ->
    history s' added (handled ++ match pc s with Popping => take 1 (mBufferEvents s) | _ => [] end)
| h_wake s added handled : history s added handled -> history (at_pc (notified (pc s)) s) added handled.

(** The event in the thread's hands. *)
Definition current (p : sched_pc) : option BufferEvent :=
  match p with Update e | Fill e | Ready _ e | Post _ e => Some e | _ => None end.

Definition busy (p : sched_pc) : bool :=
  match p with Update _ | Fill _ | Ready _ _ | Post _ _ | Popping => true | _ => false end.

Record sched_ok (s : BufferQueueScheduler) : Prop := {
  ok_current : forall e, current (pc s) = Some e -> head (mBufferEvents s) = Some e;
  ok_busy : busy (pc s) = true -> mBufferEvents s <> [];
  ok_asleep : pc s = Sleeping false -> mBufferEvents s = [];
  ok_waiting : pc s = AwaitSurface false -> mSurfaceControl s = None;
  ok_surface : mSurfaceControl s = None -> match pc s with Starting | AwaitSurface _ => True | _ => False end;
  ok_alive : pc s <> Crashed;
}.

Lemma pick_ok s : mSurfaceControl s <> None -> sched_ok (pick s).
Proof.
  intros Hs. unfold pick. destruct (mBufferEvents s) as [|e l] eqn:E; (split; cbn; rewrite ?E; try done).
Qed.

Lemma notified_ok s s' : sched_ok s -> pc s' = notified (pc s) ->
  (exists l, mBufferEvents s' = mBufferEvents s ++ l) -> (mSurfaceControl s' = None -> mSurfaceControl s = None) -> sched_ok s'.
Proof.
  intros [H1 H2 H3 H4 H5 H6] Hp [l Hl] Hs. split; rewrite Hp, ?Hl.
  - intros e He. assert (E : current (pc s) = Some e) by (by destruct (pc s)). specialize (H1 e E).
    by destruct (mBufferEvents s).
  - intros Hb. assert (E : busy (pc s) = true) by (by destruct (pc s)). specialize (H2 E). by destruct (mBufferEvents s).
  - intros E. exfalso. by destruct (pc s).
  - intros E. exfalso. by destruct (pc s).
  - intros E. specialize (H5 (Hs E)). by destruct (pc s).
  - by destruct (pc s).
Qed.

(** A step inside the work on an event. *)
Lemma at_pc_ok s p : sched_ok s -> mSurfaceControl s <> None ->
  (forall e, current p = Some e -> current (pc s) = Some e) -> (busy p = true -> busy (pc s) = true) -> (busy p = true \/ p = Looping \/ p = Stopped) ->
  sched_ok (at_pc p s).
Proof.
  intros [H1 H2 H3 H4 H5 H6] Hs Hc Hb Hp. split; cbn; [by intros e He; apply H1, Hc|by intros Hp'; apply H2, Hb| | |done|].
  all: intros ->; by destruct Hp as [|[]].
Qed.

(** The step stays at work on the same event. *)
Ltac inside :=
  apply at_pc_ok; try match goal with H : pc _ = _ |- _ => rewrite H end;
    first [done | by intros | by left | by right; left | by right; right | congruence].

Lemma run_ok lock event_of s s' state calls : sched_ok s -> startScheduling lock event_of s = Some (s', state, calls) ->
  sched_ok s' /\ mSurfaceControl s' = mSurfaceControl s /\ mContinueScheduling s' = mContinueScheduling s /\
  mBufferEvents s = match pc s with Popping => take 1 (mBufferEvents s) | _ => [] end ++ mBufferEvents s'.
Proof.
  intros Hok. pose proof Hok as [H1 H2 H3 H4 H5 H6]. unfold startScheduling.
  assert (Hpick : forall s, mSurfaceControl (pick s) = mSurfaceControl s /\ mContinueScheduling (pick s) = mContinueScheduling s /\
    mBufferEvents (pick s) = mBufferEvents s).
  { intros s0. unfold pick. destruct (mBufferEvents s0) eqn:E; cbn; by rewrite E. }
  destruct (pc s) as [|[]| |e|e|surface e|surface e| |[]| |] eqn:Ep; try done.
  1, 2: intros [= <- <- <-]; (split; [|done]); destruct (mSurfaceControl s) as [c|] eqn:Ec;
    (split; cbn; rewrite ?Ec; naive_solver).
  - intros [= <- <- <-]. destruct (mContinueScheduling s) eqn:Ec.
    + destruct (Hpick s) as (-> & -> & ->). split; [|done]. apply pick_ok. intros E. by apply H5 in E.
    + split; [|done]. inside.
  - destruct (mSurfaceControl s) as [c|] eqn:Ec; [|by destruct (H5 eq_refl)]. intros [= <- <- <-]. split; [|done].
    inside.
  - destruct (mSurfaceControl s) as [c|] eqn:Ec; [|by destruct (H5 eq_refl)]. unfold fillSurface.
    destruct (lock (event e)); intros [= <- <- <-]; (split; [|done]); inside.
  - destruct (h_worker _).
    + intros [= <- <- <-]. split; [|done]. inside.
    + destruct (worker_step _); [|done]. intros [= <- <- <-]. done.
  - intros [= <- <- <-]. split; [|done]. inside.
  - intros [= <- <- <-]. set (s0 := Scheduler _ _ _ _ _). destruct (Hpick s0) as (-> & -> & ->).
    split; [|split_and!; [done|done|]; cbn; by destruct (mBufferEvents s); rewrite ?take_0].
    apply pick_ok. cbn. intros E. by apply H5 in E.
  - intros [= <- <- <-]. split; [|done]. inside.
Qed.

Lemma history_ok s added handled : history s added handled -> sched_ok s /\ added = handled ++ mBufferEvents s.
Proof.
  induction 1 as [surface color|e s added handled _ [H ->]|s added handled _ [H ->]|surface color s added handled _ [H ->]
    |lock event_of s s' state calls added handled _ [H ->] Hr|s added handled _ [H ->]].
  - split; [|done]. split; done.
  - split; [|by rewrite <- app_assoc]. apply (notified_ok s); [done|done|by eexists|done].
  - split; [|done]. apply (notified_ok s); [done|done|by exists []; rewrite app_nil_r|done].
  - split; [|done]. apply (notified_ok s); [done|done|by exists []; rewrite app_nil_r|done].
  - destruct (run_ok _ _ _ _ _ _ H Hr) as (H' & _ & _ & E). split; [done|]. by rewrite <- app_assoc, <- E.
  - split; [|done]. apply (notified_ok s); [done|done|by exists []; rewrite app_nil_r|done].
Qed.

End Scheduler.

(** * Properties *)

(** C38: the events of a layer are handled one after the other, each once and in the order in
    which they were given; the one in the thread's hands is the first that is
    not done. No wake-up is lost: when the thread can make no step, it is
    waiting for the event in its hands or for its surface, or it was stopped, or
    it has handled every event. *)
Theorem scheduler_fifo {colors : Colors} (lock : nat -> Z + ANativeWindow_Buffer) (event_of : nat -> handshake)
    (s : BufferQueueScheduler) (added handled : list BufferEvent) :
  history s added handled ->
  added = handled ++ mBufferEvents s /\
  (forall e, current (pc s) = Some e -> head (mBufferEvents s) = Some e) /\
  (startScheduling lock event_of s = None ->
     (exists surface e, pc s = Ready surface e /\ worker_step (event_of (event e)) = None /\ h_worker (event_of (event e)) <> []) \/
     mSurfaceControl s = None \/ pc s = Stopped \/ handled = added).
Proof.
  intros [[H1 H2 H3 H4 H5 H6] E]%history_ok. split; [done|]. split; [done|]. unfold startScheduling.
  assert (Hall : mBufferEvents s = [] -> handled = added) by (intros E'; by rewrite E, E', app_nil_r).
  destruct (pc s) as [|[]| |e|e|surface e|surface e| |[]| |] eqn:Ep; try done.
  - intros _. right; left. by apply H4.
  - by destruct (mSurfaceControl s); [|intros _; right; left].
  - destruct (mSurfaceControl s); [|intros _; by right; left]. by destruct (fillSurface _ _ _ _).
  - destruct (h_worker _) eqn:Ew; [done|]. destruct (worker_step _) eqn:Es; [done|]. intros _. left. exists surface, e. by rewrite Ew.
  - intros _. right; right; right. by apply Hall, H3.
  - by intros _; right; right; left.
Qed.

(** The pixels that are written lie in the buffer. *)
Lemma pixel_writes_in_bounds buf color off v :
  0 <= buf_width buf <= stride buf -> (off, v) ∈ pixel_writes buf color -> 0 <= off < 4 * stride buf * buf_height buf.
Proof.
  intros Hw H%list_elem_of_In. unfold pixel_writes in H. apply in_flat_map in H as (y & Hy & H).
  apply in_flat_map in H as (x & Hx & H). rewrite <- list_elem_of_In, elem_of_seqZ in Hy, Hx.
  assert (E : exists k, 0 <= k < 4 /\ off = 4 * (y * stride buf + x) + k).
  { cbn [In] in H. destruct H as [[= <- _]|[[= <- _]|[[= <- _]|[[= <- _]|[]]]]]; [exists 0|exists 1|exists 2|exists 3]; lia. }
  destruct E as (k & Hk & ->). nia.
Qed.

(** ** Runs *)

Definition demo_colors : Colors := {| HSV := Z; getRGB v := {| r := v; g := v; b := v |}; modulate v := v + 1 |}.
#[local] Existing Instance demo_colors.

Definition demo_buffer (n : nat) : Z + ANativeWindow_Buffer := inr {| buf_width := 1; buf_height := 2; stride := 2 |}.
Definition demo_event (n : nat) : BufferEvent := {| event := n; dimensions := {| width := 1; height := 2 |} |}.

(** Some steps of the thread, the event of every buffer as it is. *)
Fixpoint run_scheduler (n : nat) (h : handshake) (s : BufferQueueScheduler) : BufferQueueScheduler :=
  match n with
  | O => s
  | S n' => match startScheduling demo_buffer (fun _ => h) s with Some (s', _, _) => run_scheduler n' h s' | None => s end
  end.

Definition handled_by (s : BufferQueueScheduler) : list BufferEvent :=
  match pc s with Popping => take 1 (mBufferEvents s) | _ => [] end.

Lemma history_run n h s added handled : history s added handled ->
  exists more, history (run_scheduler n h s) added (handled ++ more).
Proof.
  revert s handled. induction n as [|n IH]; intros s handled H; [by exists []; rewrite app_nil_r|]. cbn [run_scheduler].
  destruct (startScheduling _ _ s) as [[[s' st] calls]|] eqn:E; [|by exists []; rewrite app_nil_r].
  destruct (IH s' _ (h_run _ _ _ _ _ _ _ _ H E)) as (more & Hm). rewrite <- app_assoc in Hm. by eexists.
Qed.

(** The event of a buffer whose work has been released. *)
Definition released : handshake := Handshake Running [] [].

(** Two events for a layer whose surface comes after the first. *)
Definition demo_given : BufferQueueScheduler :=
  addEvent (demo_event 1) (setSurfaceControl (colors := demo_colors) (Some 7) 0 (run_scheduler 1 released (addEvent (demo_event 0) (new_scheduler (colors := demo_colors) None 0)))).

Lemma demo_history : exists handled, history demo_given [demo_event 0; demo_event 1] handled.
Proof.
  destruct (history_run 1 released (addEvent (demo_event 0) (new_scheduler (colors := demo_colors) None 0)) [demo_event 0] []) as (more & H).
  - apply (h_add _ _ []), h_new.
  - exists ([] ++ more). apply (h_add (demo_event 1) _ [demo_event 0]), h_surface, H.
Qed.

Lemma scheduler_fifo_witness :
  let s := run_scheduler 40 released demo_given in
  pc s = Sleeping false /\ exists handled, history s [demo_event 0; demo_event 1] handled /\ handled = [demo_event 0; demo_event 1].
Proof.
  intros s. split; [by vm_compute|]. destruct demo_history as (handled & H). destruct (history_run 40 released _ _ _ H) as (more & H').
  exists (handled ++ more). split; [exact H'|].
  destruct (scheduler_fifo demo_buffer (fun _ => released) _ _ _ H') as (_ & _ & E). destruct (E ltac:(by vm_compute)) as [E'|[E'|[E'|E']]]; [| | |exact E'].
  - destruct E' as (surface & e & E' & _). revert E'. by vm_compute.
  - revert E'. by vm_compute.
  - revert E'. by vm_compute.
Defined.

(** A request to stop that comes while the thread is at work is not noticed: it
    goes to sleep and does not end. *)
Lemma stop_lost :
  let s := run_scheduler 40 released (stopScheduling (run_scheduler 4 released demo_given)) in
  mContinueScheduling s = false /\ pc s = Sleeping false /\ startScheduling demo_buffer (fun _ => released) s = None.
Proof. by vm_compute. Qed.
