(* ===== verification/Replayer.v ===== *)
(** [surfacereplayer/replayer/Replayer.cpp]: a trace of what happened to
    SurfaceFlinger is replayed by a main thread and a thread per increment.

    [step] is one step of one thread, from one point where others can run to
    the next; what a thread does with a mutex held is one step, and waiting for
    a layer, a display or an event is a guard. The events are the
    specification of [ReplayEvent], the threads of the layers are those of
    [ReplayScheduler]. Floating point numbers of a trace are passed on as they
    are: they stand here as their bits. *)

From S2P Require Import Prelude CLib ReplayEvent ReplayScheduler.
From stdpp Require Import relations.

Open Scope Z_scope.

(** * Traces *)

Record Rectangle := { left_ : Z; top_ : Z; right_ : Z; bottom_ : Z }.

Inductive surface_change :=
| kPosition (x y : Z)
| kSize (w h : Z)
| kAlpha (alpha : Z)
| kLayer (layer : Z)
| kCrop (rectangle : Rectangle)
| kCornerRadius (corner_radius : Z)
| kMatrix (dsdx dtdx dsdy dtdy : Z)
| kOverrideScalingMode (mode : Z)
| kTransparentRegionHint (region : list Rectangle)
| kLayerStack (layer_stack : Z)
| kHiddenFlag (hidden_flag : bool)
| kOpaqueFlag (opaque_flag : bool)
| kSecureFlag (secure_flag : bool)
| kDeferredTransaction (layer_id frame_number : Z)
| SURFACECHANGE_NOT_SET.

Record SurfaceChange := { sc_id : Z; sc_change : surface_change }.

Inductive display_change :=
| kSurface (buffer_queue_id : Z) (buffer_queue_name : str)
| kDispLayerStack (layer_stack : Z)
| kDispSize (w h : Z)
| kProjection (orientation : Z) (viewport frame : Rectangle)
| DISPLAYCHANGE_NOT_SET.

Record DisplayChange := { dc_id : Z; dc_change : display_change }.

Inductive increment_case :=
| kTransaction (surface : list SurfaceChange) (display : list DisplayChange) (synchronous animation : bool)
| kSurfaceCreation (id : Z) (name : str) (w h : Z)
| kSurfaceDeletion (id : Z)
| kBufferUpdate (id w h frame_number : Z)
| kVsyncEvent (when_ : Z)
| kDisplayCreation (id : Z) (name : str) (display_id : Z) (is_secure : bool)
| kDisplayDeletion (id : Z)
| kPowerModeUpdate (id mode : Z)
| INCREMENT_NOT_SET.

Record Increment := { time_stamp : Z; increment : increment_case }.

(** * SurfaceFlinger *)

(** The calls on a [SurfaceComposerClient::Transaction]. *)
Inductive transaction_op :=
| setPosition (layer x y : Z)
| setSize (layer w h : Z)
| setAlpha (layer alpha : Z)
| setLayer (layer z : Z)
| setCrop_legacy (layer : Z) (crop : Rectangle)
| setCornerRadius (layer radius : Z)
| setMatrix (layer dsdx dtdx dsdy dtdy : Z)
| setOverrideScalingMode (layer mode : Z)
| setTransparentRegionHint (layer : Z) (region : list Rectangle)
| setLayerStack (layer stack : Z)
| setFlags (layer flags mask : Z)
| deferTransactionUntil_legacy (layer handle frame : Z)
| setDisplaySurface (display : Z)
| setDisplayLayerStack (display stack : Z)
| setDisplaySize (display w h : Z)
| setDisplayProjection (display orientation : Z) (viewport frame : Rectangle)
| setAnimationTransaction.

(** What reaches SurfaceFlinger. *)
Inductive effect :=
| enableVSyncInjections (enabled : bool)
| applyTransaction (ops : list transaction_op) (synchronous : bool)
| createdSurface (name : str) (w h : Z)
| onSurface (c : surface_call)
| injectVSync (when_ : Z)
| createdDisplay (name : str) (is_secure : bool)
| destroyDisplay (display : option Z)
| setDisplayPowerMode (display : option Z) (mode : Z).

(** The answers of SurfaceFlinger, by the number of the event that asks. *)
Class Composer {colors : Colors} := {
  eLayerHidden : Z;
  eLayerOpaque : Z;
  eLayerSecure : Z;
  initCheck : Z;
  createSurface : nat -> option Z;
  createDisplay : nat -> option Z;
  lock_buffer : nat -> Z + ANativeWindow_Buffer;
  random_color : nat -> HSV;      (* HSV(rand() % 360, 1, 1), the n-th *)
}.

Definition NO_ERROR : Z := 0.
Definition BAD_VALUE : Z := -22.

(** * The console *)

(** [input] are the lines that have been typed; [timers] the threads that will
    stop the replay. *)
Record console := Console {
  sReplayingManually : bool; mWaitingForNextVSync : bool; mStopTimeStamp : Z; mHasStopped : bool;
  mLastInput : str; input : list str; timers : nat;
}.

Inductive outcome :=
| Go (c : console)
| Quit (c : console)
| NoInput
| Abort.

Definition split (s : str) (delim : ascii) : list str := getlines delim s.
Definition isNumber (s : str) : bool := negb (bool_decide (s = [])) && forallb is_decimal s.

(** [std::stol] and [std::stoi]: [None] is an exception. *)
Definition sto (lo hi : Z) (s : str) : option Z :=
  let '(neg, digits) := take_sign (skip_spaces s) in
  let '(value, _, any) := scan_digits 10 digits 0 false in
  let value := if neg : bool then - value else value in
  if any && (lo <=? value) && (value <=? hi) then Some value else None.

Definition stoi : str -> option Z := sto (- 2 ^ 31) (2 ^ 31 - 1).
Definition stol : str -> option Z := sto (- 2 ^ 63) (2 ^ 63 - 1).

Definition set_last (last : str) (rest : list str) (c : console) : console :=
  Console (sReplayingManually c) (mWaitingForNextVSync c) (mStopTimeStamp c) (mHasStopped c) last rest (timers c).

(** The command [c]: go on without the console. *)
Definition continue_ (timer : nat) (c : console) : console :=
  Console false false (mStopTimeStamp c) (mHasStopped c) (mLastInput c) (input c) (timers c + timer).

(** One line. [None]: the next one is read. [Abort]: an exception, or a word
    that is not there is read. *)
Definition command (inputs : list str) (c : console) : option outcome :=
  match inputs with
  | [] => Some Abort
  | name :: args =>
      if name =s? lit "n" then
        Some (Go (Console (sReplayingManually c) true (mStopTimeStamp c) (mHasStopped c) (mLastInput c) (input c) (timers c)))
      else if name =s? lit "ni" then Some (Go c)
      else if name =s? lit "c" then
        match args with
        | arg :: _ =>
            if isNumber arg then match stoi arg with Some _ => Some (Go (continue_ 1 c)) | None => Some Abort end
            else Some (Go (continue_ 0 c))
        | [] => Some (Go (continue_ 0 c))
        end
      else if name =s? lit "s" then
        match args with
        | [] => Some Abort
        | arg :: _ =>
            match stol arg with
            | Some stop => Some (Go (Console false (mWaitingForNextVSync c) stop false (mLastInput c) (input c) (timers c)))
            | None => Some Abort
            end
        end
      else if name =s? lit "l" then None
      else if name =s? lit "q" then Some (Quit c)
      else None
  end.

Fixpoint read_commands (lines : list str) (c : console) : outcome :=
  match lines with
  | [] => NoInput
  | line :: rest =>
      let last := match line with [] => mLastInput c | _ => line end in
      let c := set_last last rest c in
      match last with
      | [] => read_commands rest c
      | _ => match command (split last " "%char) c with Some o => o | None => read_commands rest c end
      end
  end.

Definition waitForConsoleCommmand (c : console) : outcome :=
  if negb (sReplayingManually c) || mWaitingForNextVSync c then Go c else read_commands (input c) c.

(** The replay stops at a time stamp. *)
Definition check_stop (now : Z) (c : console) : console :=
  if negb (mHasStopped c) && (mStopTimeStamp c <=? now) then
    Console true (mWaitingForNextVSync c) (mStopTimeStamp c) true (mLastInput c) (input c) (timers c)
  else c.

Definition no_vsync_wait (c : console) : console :=
  Console (sReplayingManually c) false (mStopTimeStamp c) (mHasStopped c) (mLastInput c) (input c) (timers c).

Definition timer_fires (c : console) : console :=
  Console true (mWaitingForNextVSync c) (mStopTimeStamp c) (mHasStopped c) (mLastInput c) (input c) (timers c - 1).

(** * The replayer *)

(** Where the thread of an increment is. [Delegated]: the increment is for a
    layer's scheduler; [NoThread]: there is none. *)
Inductive job_pc :=
| Surfaces (changes : list SurfaceChange) (ops : list transaction_op)
| Displays (changes : list DisplayChange) (ops : list transaction_op)
| Shaking (ops : list transaction_op)
| Acting (ops : list transaction_op)
| Publishing (surface : Z)
| Delegated
| NoThread
| Finished.

(** An increment that was dispatched, with its event. *)
Record job := Job { j_increment : Increment; j_event : handshake; j_pc : job_pc }.

Definition set_event (h : handshake) (j : job) : job := Job (j_increment j) h (j_pc j).
Definition set_job_pc (p : job_pc) (j : job) : job := Job (j_increment j) (j_event j) p.

(** [Return]: [replay] has returned; [Exited], [Aborted]: the process is on its
    way out. [Ended]: it is gone, and its threads with it; the status is what
    [replay] had returned. *)
Inductive main_pc :=
| Start
| InitReplay (i : nat)
| Loop
| Completing (job : nat)
| Return (status : Z)
| Exited
| Aborted
| Ended (status : option Z).

#[export] Instance main_pc_eq_dec : EqDecision main_pc.
Proof. solve_decision. Defined.

Section Replayer.
Context {colors : Colors} {composer : Composer}.
Context (mTrace : list Increment) (mNumThreads : nat).

Record replayer := Replayer {
  mLayers : gmap Z Z;
  mColors : gmap Z HSV;
  mDisplays : gmap Z Z;
  mBufferQueueSchedulers : list (Z * BufferQueueScheduler);
  mPendingIncrements : list nat;
  mIncrementIndex : nat;
  console_ : console;
  jobs : list job;
  main_ : main_pc;
  colors_made : nat;
  log : list (option nat * effect);
}.

(** [black] is the colour of a layer that has none. *)
Context (black : HSV).

Definition at_main (p : main_pc) (s : replayer) : replayer :=
  Replayer (mLayers s) (mColors s) (mDisplays s) (mBufferQueueSchedulers s) (mPendingIncrements s) (mIncrementIndex s)
    (console_ s) (jobs s) p (colors_made s) (log s).

Definition with_console (c : console) (s : replayer) : replayer :=
  Replayer (mLayers s) (mColors s) (mDisplays s) (mBufferQueueSchedulers s) (mPendingIncrements s) (mIncrementIndex s)
    c (jobs s) (main_ s) (colors_made s) (log s).

Definition with_jobs (js : list job) (s : replayer) : replayer :=
  Replayer (mLayers s) (mColors s) (mDisplays s) (mBufferQueueSchedulers s) (mPendingIncrements s) (mIncrementIndex s)
    (console_ s) js (main_ s) (colors_made s) (log s).

Definition with_pending (l : list nat) (s : replayer) : replayer :=
  Replayer (mLayers s) (mColors s) (mDisplays s) (mBufferQueueSchedulers s) l (mIncrementIndex s)
    (console_ s) (jobs s) (main_ s) (colors_made s) (log s).

Definition with_schedulers (l : list (Z * BufferQueueScheduler)) (s : replayer) : replayer :=
  Replayer (mLayers s) (mColors s) (mDisplays s) l (mPendingIncrements s) (mIncrementIndex s)
    (console_ s) (jobs s) (main_ s) (colors_made s) (log s).

Definition with_displays (m : gmap Z Z) (s : replayer) : replayer :=
  Replayer (mLayers s) (mColors s) m (mBufferQueueSchedulers s) (mPendingIncrements s) (mIncrementIndex s)
    (console_ s) (jobs s) (main_ s) (colors_made s) (log s).

Definition next_index (s : replayer) : replayer :=
  Replayer (mLayers s) (mColors s) (mDisplays s) (mBufferQueueSchedulers s) (mPendingIncrements s) (S (mIncrementIndex s))
    (console_ s) (jobs s) (main_ s) (colors_made s) (log s).

Definition say (who : option nat) (es : list effect) (s : replayer) : replayer :=
  Replayer (mLayers s) (mColors s) (mDisplays s) (mBufferQueueSchedulers s) (mPendingIncrements s) (mIncrementIndex s)
    (console_ s) (jobs s) (main_ s) (colors_made s) (log s ++ map (fun e => (who, e)) es).

(** One thread's job. *)
Definition set_job (k : nat) (f : job -> job) (s : replayer) : replayer :=
  match jobs s !! k with Some j => with_jobs (<[k := f j]> (jobs s)) s | None => s end.

Definition event_of (s : replayer) (k : nat) : handshake := match jobs s !! k with Some j => j_event j | None => new_handshake end.

(** ** Dispatching *)

Definition scheduler_of (id : Z) (l : list (Z * BufferQueueScheduler)) : option BufferQueueScheduler :=
  snd <$> List.find (fun e => fst e =? id) l.

Definition on_scheduler (id : Z) (f : BufferQueueScheduler -> BufferQueueScheduler) (l : list (Z * BufferQueueScheduler)) :
    list (Z * BufferQueueScheduler) :=
  map (fun e => if fst e =? id then (fst e, f (snd e)) else e) l.

(** The buffer goes to the scheduler of its layer, which is made for the first
    one, with the surface and the colour that are there. *)
Definition dispatch_buffer (id : Z) (e : BufferEvent) (s : replayer) : replayer :=
  match scheduler_of id (mBufferQueueSchedulers s) with
  | Some _ => with_schedulers (on_scheduler id (addEvent e) (mBufferQueueSchedulers s)) s
  | None =>
      with_schedulers (mBufferQueueSchedulers s ++
        [(id, addEvent e (new_scheduler (mLayers s !! id) (default black (mColors s !! id))))]) s
  end.

(** Where the thread of an increment starts; [None]: it is unknown. *)
Definition start_of (i : increment_case) : option job_pc :=
  match i with
  | kTransaction surface _ _ _ => Some (Surfaces surface [])
  | kSurfaceCreation _ _ _ _ | kVsyncEvent _ | kDisplayCreation _ _ _ _ | kDisplayDeletion _ | kPowerModeUpdate _ _ => Some (Shaking [])
  | kBufferUpdate _ _ _ _ => Some Delegated
  | kSurfaceDeletion _ | INCREMENT_NOT_SET => None
  end.

(** The status, and the state; [None]: the index is out of range. *)
Definition dispatchEvent (index : nat) (s : replayer) : option (Z * replayer) :=
  match mTrace !! index with
  | None => None
  | Some i =>
      let k := length (jobs s) in
      let s := with_pending (mPendingIncrements s ++ [k]) s in
      let s := with_jobs (jobs s ++ [Job i new_handshake (default NoThread (start_of (increment i)))]) s in
      Some (match increment i with
            | kBufferUpdate id w h _ => (NO_ERROR, dispatch_buffer id {| event := k; dimensions := {| width := w; height := h |} |} s)
            | kSurfaceDeletion _ | INCREMENT_NOT_SET => (BAD_VALUE, s)
            | _ => (NO_ERROR, s)
            end)
  end.

(** ** The main thread *)

(** One round of [initReplay]; its status is not looked at. *)
Definition initReplay (i : nat) (s : replayer) : replayer :=
  if (i <? mNumThreads)%nat && (i <? length mTrace)%nat then
    match dispatchEvent i s with
    | None => at_main Aborted s
    | Some (status, s) => at_main (if status =? NO_ERROR then InitReplay (S i) else Loop) s
    end
  else at_main Loop s.

(** The head of the loop of [replay], up to the event. *)
Definition next_event (s : replayer) : option replayer :=
  match mPendingIncrements s with
  | [] => Some (at_main (Return NO_ERROR) (say None [enableVSyncInjections false] s))
  | k :: pending =>
      match mTrace !! mIncrementIndex s with
      | None => Some (at_main Aborted s)
      | Some mCurrentIncrement =>
          match waitForConsoleCommmand (check_stop (time_stamp mCurrentIncrement) (console_ s)) with
          | NoInput => None
          | Abort => Some (at_main Aborted s)
          | Quit c => Some (at_main Exited (say None [enableVSyncInjections false] (with_console c s)))
          | Go c => Some (at_main (Completing k) (with_pending pending (with_console c s)))
          end
      end
  end.

Definition is_vsync (i : increment_case) : bool := match i with kVsyncEvent _ => true | _ => false end.

(** The increment that is dispatched ahead of the current one. *)
Definition ahead_index (s : replayer) : Z := i32 (Z.of_nat (mIncrementIndex s) + Z.of_nat mNumThreads).

(** The rest of the round, after [event->complete()]. *)
Definition completed (k : nat) (s : replayer) : replayer :=
  let s := match jobs s !! k with
           | Some j => if is_vsync (increment (j_increment j)) then with_console (no_vsync_wait (console_ s)) s else s
           | None => s
           end in
  if ahead_index s <? Z.of_nat (length mTrace) then
    match (if ahead_index s <? 0 then None else dispatchEvent (Z.to_nat (ahead_index s)) s) with
    | None => at_main Aborted s
    | Some (status, s) =>
        if status =? NO_ERROR then at_main Loop (next_index s)
        else at_main (Return status) (say None [enableVSyncInjections false] s)
    end
  else at_main Loop (next_index s).

Definition replay (s : replayer) : option replayer :=
  match main_ s with
  | Start =>
      Some (if initCheck =? NO_ERROR then at_main (InitReplay 0) (say None [enableVSyncInjections true] s)
            else at_main (Return initCheck) s)
  | InitReplay i => Some (initReplay i s)
  | Loop => next_event s
  | Completing k =>
      match h_main (event_of s k) with
      | [] => Some (completed k s)
      | _ :: _ => (fun h => set_job k (set_event h) s) <$> main_step (event_of s k)
      end
  | Return status => Some (at_main (Ended (Some status)) s)
  | Exited | Aborted => Some (at_main (Ended None) s)
  | Ended _ => None
  end.

(** ** The threads of the increments *)

(** A change of a layer that exists; [None]: the thread waits for the layer
    that a deferred transaction names. *)
Definition surface_op (s : replayer) (layer : Z) (c : surface_change) : option (list transaction_op) :=
  match c with
  | kPosition x y => Some [setPosition layer x y]
  | kSize w h => Some [setSize layer w h]
  | kAlpha a => Some [setAlpha layer a]
  | kLayer z => Some [setLayer layer z]
  | kCrop r => Some [setCrop_legacy layer r]
  | kCornerRadius r => Some [setCornerRadius layer r]
  | kMatrix a b c d => Some [setMatrix layer a b c d]
  | kOverrideScalingMode m => Some [setOverrideScalingMode layer m]
  | kTransparentRegionHint region => Some [setTransparentRegionHint layer region]
  | kLayerStack n => Some [setLayerStack layer n]
  | kHiddenFlag f => Some [setFlags layer (if f then eLayerHidden else 0) eLayerHidden]
  | kOpaqueFlag f => Some [setFlags layer (if f then eLayerOpaque else 0) eLayerOpaque]
  | kSecureFlag f => Some [setFlags layer (if f then eLayerSecure else 0) eLayerSecure]
  | kDeferredTransaction other frame =>
      (fun handle => [deferTransactionUntil_legacy layer handle frame]) <$> mLayers s !! other
  | SURFACECHANGE_NOT_SET => Some []
  end.

(** One round of [doSurfaceTransaction]; an unknown change ends it. *)
Definition doSurfaceTransaction (s : replayer) (displays : list DisplayChange) (changes : list SurfaceChange)
    (ops : list transaction_op) : option job_pc :=
  match changes with
  | [] => Some (Displays displays ops)
  | c :: rest =>
      match mLayers s !! sc_id c with
      | None => None
      | Some layer =>
          (fun more => match sc_change c with
                       | SURFACECHANGE_NOT_SET => Displays displays ops
                       | _ => Surfaces rest (ops ++ more)
                       end) <$> surface_op s layer (sc_change c)
      end
  end.

Definition display_op (display : Z) (c : display_change) : list transaction_op :=
  match c with
  | kSurface _ _ => [setDisplaySurface display]
  | kDispLayerStack n => [setDisplayLayerStack display n]
  | kDispSize w h => [setDisplaySize display w h]
  | kProjection o v f => [setDisplayProjection display o v f]
  | DISPLAYCHANGE_NOT_SET => []
  end.

(** One round of [doDisplayTransaction]. *)
Definition doDisplayTransaction (s : replayer) (animation : bool) (changes : list DisplayChange) (ops : list transaction_op) :
    option job_pc :=
  match changes with
  | [] => Some (Shaking (ops ++ if animation then [setAnimationTransaction] else []))
  | c :: rest => (fun display => Displays rest (ops ++ display_op display (dc_change c))) <$> mDisplays s !! dc_id c
  end.

Definition set_display (id : Z) (display : option Z) (s : replayer) : replayer :=
  with_displays (partial_alter (fun _ => display) id (mDisplays s)) s.

(** The surface becomes known to the others. *)
Definition publish (id surface : Z) (s : replayer) : replayer :=
  let color := random_color (colors_made s) in
  Replayer (<[id := surface]> (mLayers s)) (<[id := color]> (mColors s)) (mDisplays s)
    (on_scheduler id (setSurfaceControl (Some surface) color) (mBufferQueueSchedulers s)) (mPendingIncrements s)
    (mIncrementIndex s) (console_ s) (jobs s) (main_ s) (S (colors_made s)) (log s).

(** What a thread does after [event->readyToExecute()]. *)
Definition act (k : nat) (i : increment_case) (ops : list transaction_op) (s : replayer) : replayer :=
  let finish := set_job k (set_job_pc Finished) in
  let did e := say (Some k) [e] in
  match i with
  | kTransaction _ _ synchronous _ => finish (did (applyTransaction ops synchronous) s)
  | kSurfaceCreation id name w h =>
      set_job k (set_job_pc (match createSurface k with Some surface => Publishing surface | None => Finished end))
        (did (createdSurface name w h) s)
  | kVsyncEvent when_ => finish (did (injectVSync when_) s)
  | kDisplayCreation id name _ is_secure => finish (set_display id (createDisplay k) (did (createdDisplay name is_secure) s))
  | kDisplayDeletion id => finish (set_display id None (did (destroyDisplay (mDisplays s !! id)) s))
  | kPowerModeUpdate id mode => finish (did (setDisplayPowerMode (mDisplays s !! id) mode) s)
  | kSurfaceDeletion _ | kBufferUpdate _ _ _ _ | INCREMENT_NOT_SET => s
  end.

Definition worker_thread (k : nat) (s : replayer) : option replayer :=
  match jobs s !! k with
  | None => None
  | Some j =>
      let go p := Some (set_job k (set_job_pc p) s) in
      match j_pc j, increment (j_increment j) with
      | Surfaces changes ops, kTransaction _ display _ _ => doSurfaceTransaction s display changes ops ≫= go
      | Displays changes ops, kTransaction _ _ _ animation => doDisplayTransaction s animation changes ops ≫= go
      | Shaking ops, _ =>
          match h_worker (j_event j) with
          | [] => go (Acting ops)
          | _ :: _ => (fun h => set_job k (set_event h) s) <$> worker_step (j_event j)
          end
      | Acting ops, i => Some (act k i ops s)
      | Publishing surface, kSurfaceCreation id _ _ _ => Some (set_job k (set_job_pc Finished) (publish id surface s))
      | _, _ => None
      end
  end.

(** ** The threads of the layers *)

Definition layer_thread (id : Z) (s : replayer) : option replayer :=
  match scheduler_of id (mBufferQueueSchedulers s) with
  | None => None
  | Some sched =>
      match startScheduling lock_buffer (event_of s) sched with
      | None => None
      | Some (sched', h, calls) =>
          let who := event <$> current (pc sched) in
          let s' := say who (map onSurface calls) (with_schedulers (on_scheduler id (fun _ => sched') (mBufferQueueSchedulers s)) s) in
          Some (match who, h with Some k, Some h => set_job k (set_event h) s' | _, _ => s' end)
      end
  end.

(** The handler of the interrupt signal. *)
Definition stopAutoReplayHandler (s : replayer) : replayer :=
  let c := console_ s in
  if sReplayingManually c then at_main Exited (say None [enableVSyncInjections false] s)
  else with_console (Console true (mWaitingForNextVSync c) (mStopTimeStamp c) (mHasStopped c) (mLastInput c) (input c) (timers c)) s.

(** * The system *)

(** The threads are detached: they run until the process ends, which is any
    time after [replay] has returned to [main]. *)
Definition ended (s : replayer) : bool := match main_ s with Ended _ => true | _ => false end.

Inductive tid := TMain | TWorker (k : nat) | TLayer (id : Z) | TTimer.

Definition thread_step (t : tid) (s : replayer) : option replayer :=
  if ended s then None else
  match t with
  | TMain => replay s
  | TWorker k => worker_thread k s
  | TLayer id => layer_thread id s
  | TTimer => if (timers (console_ s) =? 0)%nat then None else Some (with_console (timer_fires (console_ s)) s)
  end.

Definition step (s s' : replayer) : Prop := exists t, thread_step t s = Some s'.

Lemma thread_step_alive t s s' : thread_step t s = Some s' -> ended s = false.
Proof. unfold thread_step. by destruct (ended s). Qed.

(** Where the sum does not wrap around. *)
Lemma completed_eq k s : Z.of_nat (length mTrace + mNumThreads) < 2 ^ 31 -> (mIncrementIndex s <= length mTrace)%nat ->
  completed k s =
    let s1 := match jobs s !! k with
              | Some j => if is_vsync (increment (j_increment j)) then with_console (no_vsync_wait (console_ s)) s else s
              | None => s
              end in
    if (mIncrementIndex s1 + mNumThreads <? length mTrace)%nat then
      match dispatchEvent (mIncrementIndex s1 + mNumThreads) s1 with
      | None => at_main Aborted s1
      | Some (status, s2) =>
          if status =? NO_ERROR then at_main Loop (next_index s2)
          else at_main (Return status) (say None [enableVSyncInjections false] s2)
      end
    else at_main Loop (next_index s1).
Proof.
  intros Hw Hi. unfold completed. set (s1 := match jobs s !! k with Some _ => _ | None => _ end). cbv zeta.
  assert (E : mIncrementIndex s1 = mIncrementIndex s) by (unfold s1; destruct (jobs s !! k); [by destruct (is_vsync _)|done]).
  clearbody s1. unfold ahead_index. rewrite i32_small, <- Nat2Z.inj_add, Nat2Z.id by lia.
  rewrite (proj2 (Z.ltb_ge _ 0)) by lia. destruct (Nat.ltb_spec (mIncrementIndex s1 + mNumThreads) (length mTrace));
    [rewrite (proj2 (Z.ltb_lt _ _)) by lia|rewrite (proj2 (Z.ltb_ge _ _)) by lia]; done.
Qed.

(** The constructor: with a time stamp to stop at, two fields are not
    initialised. *)
Definition new_replayer (replayManually : bool) (stopHere : Z) (waiting stopped : bool) (lines : list str) : replayer :=
  Replayer ∅ ∅ ∅ [] [] 0 (Console replayManually waiting stopHere ((stopHere <? 0) || stopped) [] lines 0) [] Start 0 [].

Fixpoint run (schedule : list tid) (s : replayer) : replayer :=
  match schedule with
  | [] => s
  | t :: rest => run rest (default s (thread_step t s))
  end.

End Replayer.

Lemma run_reachable {colors : Colors} {composer : Composer} mTrace mNumThreads black schedule s :
  rtc (step mTrace mNumThreads black) s (run mTrace mNumThreads black schedule s).
Proof.
  revert s. induction schedule as [|t schedule IH]; intros s; [done|]. cbn [run].
  destruct (thread_step _ _ _ t s) as [s'|] eqn:E; [|by apply IH]. eapply rtc_l; [by exists t|by apply IH].
Qed.

(** * A replay *)

#[local] Existing Instance demo_colors.

Definition demo_composer : Composer := {|
  eLayerHidden := 1; eLayerOpaque := 2; eLayerSecure := 128; initCheck := 0;
  createSurface k := Some (Z.of_nat k + 100); createDisplay k := Some (Z.of_nat k + 200);
  lock_buffer := demo_buffer; random_color k := Z.of_nat k |}.
#[local] Existing Instance demo_composer.

Definition demo_trace : list Increment := [
  {| time_stamp := 0; increment := kSurfaceCreation 5 (lit "a") 10 20 |};
  {| time_stamp := 1; increment := kBufferUpdate 5 10 20 0 |};
  {| time_stamp := 2; increment := kTransaction
       [{| sc_id := 5; sc_change := kLayer 3 |}; {| sc_id := 5; sc_change := kDeferredTransaction 5 1 |}] [] true true |};
  {| time_stamp := 3; increment := kBufferUpdate 5 11 20 1 |};
  {| time_stamp := 4; increment := kVsyncEvent 99 |};
  {| time_stamp := 5; increment := kDisplayCreation 1 (lit "d") 0 false |};
  {| time_stamp := 6; increment := kTransaction [] [{| dc_id := 1; dc_change := kDispSize 3 4 |}] false false |};
  {| time_stamp := 7; increment := kDisplayDeletion 1 |}].

(** Every thread in turn, the later increments first. *)
Definition demo_schedule (n : nat) : list tid :=
  concat (repeat (map TWorker (rev (seq 0 8)) ++ [TLayer 5; TMain]) n).

Definition demo_start : replayer := new_replayer false (-1) false false [].
Definition demo_run (n : nat) : replayer := run demo_trace 3 (0 : Z) (demo_schedule n) demo_start.

(** A trace with the deletion of a layer. *)
Definition deletion_trace : list Increment := [{| time_stamp := 0; increment := kSurfaceDeletion 5 |}].
