(* ===== verification/ReplayOrder.v ===== *)
(** The order in which the increments of a trace take effect: the invariant of
    the replayer, for every trace and every schedule, and what it says of the
    calls that reach SurfaceFlinger. *)

From S2P Require Import Prelude CLib ReplayEvent ReplayScheduler Replayer.
From stdpp Require Import relations.

Section Order.
Context {colors : Colors} {composer : Composer}.
Context (mTrace : list Increment) (mNumThreads : nat) (black : HSV).

Definition pc_of (s : replayer) (k : nat) : job_pc := match jobs s !! k with Some j => j_pc j | None => NoThread end.

(** ** The jobs after a step *)

Lemma jobs_set_job k f s : jobs (set_job k f s) = match jobs s !! k with Some j => <[k := f j]> (jobs s) | None => jobs s end.
Proof. unfold set_job. by destruct (jobs s !! k). Qed.

Lemma length_set_job k f s : length (jobs (set_job k f s)) = length (jobs s).
Proof. rewrite jobs_set_job. destruct (jobs s !! k); [apply length_insert|done]. Qed.

Lemma job_set_job k f s i : jobs (set_job k f s) !! i = if decide (i = k) then f <$> jobs s !! k else jobs s !! i.
Proof.
  rewrite jobs_set_job. destruct (jobs s !! k) as [j|] eqn:E; case_decide as Hi; subst; try done.
  - apply list_lookup_insert_eq. by apply lookup_lt_Some in E.
  - by apply list_lookup_insert_ne.
Qed.

Lemma event_of_pc k p s i : event_of (set_job k (set_job_pc p) s) i = event_of s i.
Proof. unfold event_of. rewrite job_set_job. case_decide; [subst|done]. by destruct (jobs s !! k). Qed.

Lemma event_of_event k h s i : is_Some (jobs s !! k) -> event_of (set_job k (set_event h) s) i = if decide (i = k) then h else event_of s i.
Proof. intros [j E]. unfold event_of. rewrite job_set_job. case_decide; [subst; by rewrite E|done]. Qed.

Lemma pc_of_event k h s i : pc_of (set_job k (set_event h) s) i = pc_of s i.
Proof. unfold pc_of. rewrite job_set_job. case_decide; [subst|done]. by destruct (jobs s !! k). Qed.

Lemma pc_of_pc k p s i : is_Some (jobs s !! k) -> pc_of (set_job k (set_job_pc p) s) i = if decide (i = k) then p else pc_of s i.
Proof. intros [j E]. unfold pc_of. rewrite job_set_job. case_decide; [subst; by rewrite E|done]. Qed.

Lemma event_of_same s s' : jobs s' = jobs s -> forall i, event_of s' i = event_of s i.
Proof. intros E i. unfold event_of. by rewrite E. Qed.

Lemma event_of_push s s' i e p : jobs s' = jobs s ++ [Job i new_handshake p] -> event_of s' e = event_of s e.
Proof.
  intros E. unfold event_of. rewrite E. destruct (decide (e < length (jobs s))%nat).
  - by rewrite lookup_app_l.
  - rewrite (lookup_ge_None_2 (jobs s)) by lia. destruct (decide (e = length (jobs s))) as [->|].
    + by rewrite lookup_app_r, Nat.sub_diag.
    + rewrite lookup_ge_None_2; [done|]. rewrite length_app. cbn. lia.
Qed.

Lemma some_event s k : h_worker (event_of s k) <> h_worker new_handshake \/ h_main (event_of s k) <> h_main new_handshake -> is_Some (jobs s !! k).
Proof. unfold event_of. destruct (jobs s !! k); [by eexists|]. by intros []. Qed.

(** ** The schedulers after a step *)

Lemma scheduler_of_on id f l i :
  scheduler_of i (on_scheduler id f l) = if decide (i = id) then f <$> scheduler_of id l else scheduler_of i l.
Proof.
  unfold scheduler_of, on_scheduler. induction l as [|[x sc] l IH]; [by case_decide|]. cbn [map List.find fst snd].
  destruct (Z.eqb_spec x id) as [->|Hx]; cbn [fst snd].
  - destruct (Z.eqb_spec id i) as [->|Hi]; [by rewrite decide_True by done|]. rewrite decide_False in * by congruence. exact IH.
  - destruct (Z.eqb_spec x i) as [->|Hi]; [by rewrite decide_False by done|]. rewrite IH. case_decide as Hd; [|done].
    subst. by destruct (Z.eqb_spec x id).
Qed.

Lemma scheduler_of_snoc id sc l i : scheduler_of id l = None ->
  scheduler_of i (l ++ [(id, sc)]) = if decide (i = id) then Some sc else scheduler_of i l.
Proof.
  unfold scheduler_of. intros H. induction l as [|[x sc'] l IH]; cbn [List.find app fst snd] in *.
  - case_decide as Hd; [by subst; rewrite Z.eqb_refl|]. by destruct (Z.eqb_spec id i); [subst|].
  - destruct (Z.eqb_spec x i) as [->|Hi]; [|by apply IH; destruct (Z.eqb_spec x id)].
    case_decide; [|done]. subst. by rewrite Z.eqb_refl in H.
Qed.

(** * The invariant *)

(** The work that waits for the event is done. *)
Definition past (p : job_pc) : bool := match p with Acting _ | Publishing _ | Finished => true | _ => false end.

(** The calls that wait for the event: all but those that prepare a buffer. *)
Definition timed (e : effect) : bool :=
  match e with onSurface (unlockAndPost _) => true | onSurface _ => false | _ => true end.

Definition released (s : replayer) (k : nat) : Prop := h_worker (event_of s k) = [].

Definition posts_released (s : replayer) (l : list (Z * BufferQueueScheduler)) : Prop :=
  forall id sc surface e, scheduler_of id l = Some sc -> pc sc = Post surface e -> released s (event e).

Record popped (s : replayer) (a : nat) : Prop := {
  po_length : (a <= length (jobs s))%nat;
  po_pending : mPendingIncrements s = seq a (length (jobs s) - a);
  po_current : forall k, main_ s = Completing k -> S k = a;
  po_done : forall k, (k < a)%nat -> main_ s <> Completing k -> h_main (event_of s k) = [];
  po_waiting : forall k, (a <= k)%nat -> h_main (event_of s k) = h_main new_handshake;
}.

Record sane (s : replayer) : Prop := {
  sn_shaken : forall k, shaken (event_of s k);
  sn_done : forall k, past (pc_of s k) = true -> released s k;
  sn_popped : exists a, popped s a;
  sn_post : posts_released s (mBufferQueueSchedulers s);
  sn_log : forall k e, (Some k, e) ∈ log s -> timed e = true -> released s k;
}.

Lemma same_pc s s' : jobs s' = jobs s -> forall k, pc_of s' k = pc_of s k.
Proof. intros E k. unfold pc_of. by rewrite E. Qed.

Lemma popped_same s s' a : popped s a -> jobs s' = jobs s -> mPendingIncrements s' = mPendingIncrements s -> main_ s' = main_ s -> popped s' a.
Proof.
  intros [H1 H2 H3 H4 H5] Hj Hp Hm. pose proof (event_of_same s s' Hj) as Hev.
  split; rewrite ?Hj, ?Hp, ?Hm; intros; rewrite ?Hev; auto.
Qed.

(** What a step does not touch does not matter. *)
Lemma sane_same s s' : sane s -> jobs s' = jobs s -> mPendingIncrements s' = mPendingIncrements s -> main_ s' = main_ s ->
  mBufferQueueSchedulers s' = mBufferQueueSchedulers s -> log s' = log s -> sane s'.
Proof.
  intros [H1 H2 [a H3] H4 H5] Hj Hp Hm Hs Hl. pose proof (event_of_same s s' Hj) as Hev.
  unfold posts_released, released in *. split.
  - intros k. by rewrite Hev.
  - intros k. unfold released. rewrite Hev, (same_pc s s' Hj). apply H2.
  - exists a. by apply (popped_same s).
  - intros id sc surface e. unfold released. rewrite Hs, Hev. apply H4.
  - intros k e. unfold released. rewrite Hl, Hev. apply H5.
Qed.

Lemma sane_say who es s : sane s -> (forall k e, who = Some k -> e ∈ es -> timed e = true -> released s k) -> sane (say who es s).
Proof.
  intros [H1 H2 H3 H4 H5] He. split; try done.
  - destruct H3 as [a H3]. exists a. by apply (popped_same s).
  - intros k e. cbn [log say]. intros [H|H]%elem_of_app; [by apply H5|].
    apply list_elem_of_fmap in H as (e' & [= <- ->] & H). by apply He.
Qed.

Lemma sane_schedulers l s : sane s -> posts_released s l -> sane (with_schedulers l s).
Proof. intros [H1 H2 [a H3] H4 H5] Hl. split; try done. exists a. by apply (popped_same s). Qed.

Lemma sane_pc k p s : sane s -> is_Some (jobs s !! k) -> (past p = true -> released s k) -> sane (set_job k (set_job_pc p) s).
Proof.
  intros [H1 H2 [a H3] H4 H5] Hk Hp. unfold posts_released, released in *. split.
  - intros i. by rewrite event_of_pc.
  - intros i. unfold released. rewrite event_of_pc, pc_of_pc by done. case_decide; [by subst|apply H2].
  - exists a. destruct H3 as [A B C D E]. unfold set_job in *. destruct (jobs s !! k) as [j|] eqn:Ek; [|by destruct Hk].
    split; cbn; rewrite ?length_insert; try done; intros i; (pose proof (event_of_pc k p s i) as Hi; unfold set_job in Hi; rewrite Ek in Hi;
      rewrite Hi); auto.
  - intros id sc surface e Hs Hpc. unfold released. rewrite event_of_pc. unfold set_job in Hs. destruct (jobs s !! k); by eapply H4.
  - intros i e. unfold released. rewrite event_of_pc. unfold set_job. destruct (jobs s !! k); apply H5.
Qed.

Lemma worker_step_main h h' : worker_step h = Some h' -> h_main h' = h_main h.
Proof. unfold worker_step. destruct (guarded _ _) as [[]|]; [|done]. by intros [= <-]. Qed.

Lemma main_step_worker h h' : main_step h = Some h' -> h_worker h' = h_worker h.
Proof. unfold main_step. destruct (guarded _ _) as [[]|]; [|done]. by intros [= <-]. Qed.

Lemma worker_step_some h h' : worker_step h = Some h' -> h_worker h <> [].
Proof. unfold worker_step. by destruct (h_worker h). Qed.

Lemma set_event_same k h s :
  mPendingIncrements (set_job k (set_event h) s) = mPendingIncrements s /\ main_ (set_job k (set_event h) s) = main_ s /\
  mBufferQueueSchedulers (set_job k (set_event h) s) = mBufferQueueSchedulers s /\ log (set_job k (set_event h) s) = log s.
Proof. unfold set_job. by destruct (jobs s !! k). Qed.

(** A step of an event keeps what was released. *)
Lemma sane_event k h s : sane s -> is_Some (jobs s !! k) -> guard_step (event_of s k) h ->
  (released s k -> h_worker h = []) ->
  (h_main h = h_main (event_of s k) \/ main_ s = Completing k) -> sane (set_job k (set_event h) s).
Proof.
  intros [H1 H2 [a H3] H4 H5] Hk Hg Hr Hm. destruct (set_event_same k h s) as (E1 & E2 & E3 & E4).
  assert (Hrel : forall i, released s i -> released (set_job k (set_event h) s) i).
  { intros i. unfold released. rewrite event_of_event by done. case_decide; [subst; apply Hr|done]. }
  split.
  - intros i. rewrite event_of_event by done. case_decide; [|done]. by apply (sf_step _ (shaken_checked _ (H1 k))).
  - intros i. rewrite pc_of_event. intros Hp. by apply Hrel, H2.
  - exists a. destruct H3 as [A B C D E]. split; rewrite ?E1, ?E2, ?length_set_job; try done; intros i;
      rewrite event_of_event by done; case_decide; auto; subst.
    + intros Hi Hc. destruct Hm as [->|Hm]; [by apply D|done].
    + intros Hi. destruct Hm as [->|Hm]; [by apply E|]. specialize (C k Hm). lia.
  - rewrite E3. intros id sc surface e Hs Hpc. apply Hrel. by eapply H4.
  - rewrite E4. intros i e He Ht. by apply Hrel, (H5 i e).
Qed.

Lemma sane_worker_event k h s : sane s -> is_Some (jobs s !! k) -> worker_step (event_of s k) = Some h -> sane (set_job k (set_event h) s).
Proof.
  intros Hs Hk Hw. apply sane_event; [done|done|by apply guard_step_worker| |left; by apply worker_step_main].
  intros Hr. by apply worker_step_some in Hw.
Qed.

Lemma sane_main_event k h s : sane s -> is_Some (jobs s !! k) -> main_ s = Completing k -> main_step (event_of s k) = Some h ->
  sane (set_job k (set_event h) s).
Proof.
  intros Hs Hk Hm Hw. apply sane_event; [done|done|by apply guard_step_main| |by right].
  intros Hr. by rewrite (main_step_worker _ _ Hw).
Qed.

(** ** Dispatching *)

Lemma posts_add s id (f : BufferQueueScheduler -> BufferQueueScheduler) l :
  (forall sc, pc (f sc) = notified (pc sc)) -> posts_released s l -> posts_released s (on_scheduler id f l).
Proof.
  intros Hf Hl i sc surface e. rewrite scheduler_of_on. case_decide; [|by apply Hl]. intros Hsc Hp.
  destruct (scheduler_of id l) as [sc0|] eqn:E; [|done]. injection Hsc as <-. rewrite Hf in Hp.
  apply (Hl id sc0 surface e E). by destruct (pc sc0).
Qed.

Lemma sane_push i p s : sane s -> past p = false ->
  sane (with_jobs (jobs s ++ [Job i new_handshake p]) (with_pending (mPendingIncrements s ++ [length (jobs s)]) s)).
Proof.
  intros [H1 H2 [a H3] H4 H5] Hp. set (s' := with_jobs _ _).
  assert (Hev : forall k, event_of s' k = event_of s k) by (intros k; by eapply event_of_push).
  unfold posts_released, released in *. split.
  - intros k. by rewrite Hev.
  - intros k. unfold released. rewrite Hev. intros Hk. apply H2. revert Hk. unfold pc_of, s'. cbn [jobs with_jobs].
    destruct (decide (k < length (jobs s))%nat); [by rewrite lookup_app_l|].
    destruct (decide (k = length (jobs s))) as [->|]; [rewrite lookup_app_r, Nat.sub_diag by lia; cbn; by rewrite Hp|].
    by rewrite lookup_ge_None_2 by (rewrite length_app; cbn; lia).
  - exists a. destruct H3 as [A B C D E]. split; unfold s'; cbn [jobs with_jobs with_pending mPendingIncrements main_];
      fold s'; rewrite ?length_app; cbn [length]; try done; [lia| |intros k; rewrite Hev; apply D|intros k; rewrite Hev; apply E].
    rewrite B. replace (length (jobs s) + 1 - a)%nat with (length (jobs s) - a + 1)%nat by lia. rewrite seq_app. cbn.
    do 3 f_equal. lia.
  - intros id sc surface e Hs Hpc. unfold released. rewrite Hev. by eapply H4.
  - intros k e. unfold released. rewrite Hev. apply H5.
Qed.

Lemma sane_dispatch index s status s' : sane s -> dispatchEvent mTrace black index s = Some (status, s') ->
  sane s' /\ main_ s' = main_ s /\ forall k, event_of s' k = event_of s k.
Proof.
  intros Hs. unfold dispatchEvent. destruct (mTrace !! index) as [i|]; [|done]. cbv zeta.
  pose proof (sane_push i (default NoThread (start_of (increment i))) s Hs ltac:(by destruct (increment i))) as Hp.
  cbn [jobs with_pending]. set (s1 := with_jobs _ _) in *.
  assert (Hev : forall k, event_of s1 k = event_of s k) by (intros k; by eapply event_of_push).
  destruct (increment i); intros [= <- <-]; try done. unfold dispatch_buffer.
  destruct (scheduler_of id (mBufferQueueSchedulers s1)) eqn:E; (split; [|done]); apply sane_schedulers; try done; cbn [main_].
  - by apply posts_add; [|apply (sn_post _ Hp)].
  - intros k sc surface e. rewrite scheduler_of_snoc by done. case_decide; [by intros [= <-]|by apply (sn_post _ Hp)].
Qed.

(** ** The main thread *)

Lemma sane_main p s : sane s -> (forall k, p <> Completing k) -> (forall k, main_ s = Completing k -> h_main (event_of s k) = []) ->
  sane (at_main p s).
Proof.
  intros [H1 H2 [a [A B C D E]] H4 H5] Hp Hm. split; try done. exists a. split; try done.
  - intros k Hk. by apply Hp in Hk.
  - intros k Hk _. destruct (decide (main_ s = Completing k)) as [Ec|Ec]; [by apply Hm|by apply D].
Qed.

Lemma sane_front k pending s : sane s -> (forall i, main_ s <> Completing i) -> mPendingIncrements s = k :: pending ->
  sane (at_main (Completing k) (with_pending pending s)).
Proof.
  intros [H1 H2 [a [A B C D E]] H4 H5] Hm Hk. split; try done. rewrite Hk in B.
  destruct (length (jobs s) - a)%nat as [|n] eqn:En; [done|]. injection B as -> ->.
  exists (S a). split; cbn [jobs main_ mPendingIncrements at_main with_pending].
  - lia.
  - f_equal. lia.
  - by intros k [= <-].
  - intros k Hlt Hne. apply D; [|apply Hm]. destruct (decide (k = a)); [by subst|lia].
  - intros k Hle. apply E. lia.
Qed.

Lemma sane_next_event s s' : sane s -> main_ s = Loop -> next_event mTrace s = Some s' -> sane s'.
Proof.
  intros Hs Hm. unfold next_event.
  assert (Hmain : forall p s0, sane s0 -> main_ s0 = Loop -> (forall k, p <> Completing k) -> sane (at_main p s0)).
  { intros p s0 H0 E Hp. apply sane_main; [done|done|]. intros k. by rewrite E. }
  destruct (mPendingIncrements s) as [|k pending] eqn:Hp.
  { intros [= <-]. apply Hmain; [|done|done]. by apply sane_say. }
  destruct (mTrace !! mIncrementIndex s) as [i|]; [|intros [= <-]; by apply Hmain].
  assert (Hc : forall c, sane (with_console c s)) by (intros c; by apply (sane_same s)).
  destruct (waitForConsoleCommmand _) as [c|c| |]; [| |done|intros [= <-]; by apply Hmain].
  - intros [= <-]. apply (sane_front k pending); [apply Hc| |done]. intros i'. cbn [main_ with_console]. by rewrite Hm.
  - intros [= <-]. apply Hmain; [|done|done]. by apply sane_say.
Qed.

Lemma sane_completed k s : sane s -> main_ s = Completing k -> h_main (event_of s k) = [] ->
  sane (completed mTrace mNumThreads black k s).
Proof.
  intros Hs Hm Hk. unfold completed.
  assert (H0 : forall s0, sane s0 -> main_ s0 = Completing k -> h_main (event_of s0 k) = [] -> forall p, (forall i, p <> Completing i) -> sane (at_main p s0)).
  { intros s0 Hs0 Hm0 Hk0 p Hp. apply sane_main; [done|done|]. rewrite Hm0. by intros i [= <-]. }
  set (s1 := match jobs s !! k with Some _ => _ | None => _ end).
  assert (H1 : sane s1 /\ main_ s1 = Completing k /\ h_main (event_of s1 k) = []).
  { unfold s1. destruct (jobs s !! k); [destruct (is_vsync _)|]; [|done..]. split; [by apply (sane_same s)|done]. }
  clearbody s1. destruct H1 as (Hs1 & Hm1 & Hk1). cbv zeta.
  assert (Hnext : forall s0, sane s0 -> sane (next_index s0)) by (intros s0 Hs0; by apply (sane_same s0)).
  destruct (ahead_index mNumThreads s1 <? _)%Z; [|by apply H0; [apply Hnext| | |]].
  destruct (ahead_index mNumThreads s1 <? 0)%Z; [by apply H0|].
  destruct (dispatchEvent _ _ _ s1) as [[status s2]|] eqn:Ed; [|by apply H0].
  destruct (sane_dispatch _ _ _ _ Hs1 Ed) as (Hs2 & Hm2 & Hev). rewrite Hm1 in Hm2.
  assert (Hk2 : h_main (event_of s2 k) = []) by (by rewrite Hev).
  destruct (status =? NO_ERROR)%Z.
  - apply H0; [by apply Hnext|done..].
  - apply H0; [by apply sane_say|done..].
Qed.

Lemma sane_replay s s' : sane s -> replay mTrace mNumThreads black s = Some s' -> sane s'.
Proof.
  intros Hs. unfold replay. destruct (main_ s) as [|i| |k|st| | |st] eqn:Hm; try done.
  - assert (Hn : forall k, main_ s = Completing k -> h_main (event_of s k) = []) by (by rewrite Hm).
    destruct (initCheck =? NO_ERROR)%Z; intros [= <-]; apply sane_main; try done. by apply sane_say.
  - intros [= <-]. unfold initReplay.
    assert (Hn : forall s0, main_ s0 = InitReplay i -> forall k, main_ s0 = Completing k -> h_main (event_of s0 k) = []) by (by intros s0 ->).
    destruct (_ && _); [|apply sane_main; auto]. destruct (dispatchEvent _ _ i s) as [[st s1]|] eqn:Ed; [|apply sane_main; auto].
    destruct (sane_dispatch _ _ _ _ Hs Ed) as (Hs1 & Hm1 & _). rewrite Hm in Hm1.
    apply sane_main; [done|by destruct (st =? NO_ERROR)%Z|auto].
  - by apply sane_next_event.
  - destruct (h_main (event_of s k)) as [|x l] eqn:Ek; [intros [= <-]; by apply sane_completed|].
    intros E. apply fmap_Some in E as (h & Hh & ->). apply sane_main_event; try done.
    destruct Hs as [_ _ [a [A B C D E']] _ _]. specialize (C k Hm).
    apply lookup_lt_is_Some. lia.
  - intros [= <-]. apply sane_main; [done|done|]. by rewrite Hm.
  - intros [= <-]. apply sane_main; [done|done|]. by rewrite Hm.
  - intros [= <-]. apply sane_main; [done|done|]. by rewrite Hm.
Qed.

(** ** The other threads *)

Lemma sane_publish id surface s : sane s -> sane (publish id surface s).
Proof.
  intros [H1 H2 [a H3] H4 H5]. split; try done; [exists a; by apply (popped_same s)|].
  cbn [mBufferQueueSchedulers publish]. by apply posts_add.
Qed.

Lemma say_job k e s : jobs (say k e s) = jobs s.
Proof. done. Qed.

Lemma sane_act k i ops s : sane s -> is_Some (jobs s !! k) -> released s k -> sane (act k i ops s).
Proof.
  intros Hs Hk Hr.
  assert (Hsay : forall e, sane (say (Some k) [e] s)) by (intros e; apply sane_say; [done|by intros k' e' [= <-]]).
  assert (Hd : forall id d s0, sane s0 -> sane (set_display id d s0)) by (intros id d s0 H0; by apply (sane_same s0)).
  unfold act. cbv zeta. destruct i; try done; (apply sane_pc; [|done|done]); auto.
Qed.

Lemma sane_worker k s s' : sane s -> worker_thread k s = Some s' -> sane s'.
Proof.
  intros Hs. unfold worker_thread. destruct (jobs s !! k) as [j|] eqn:Ek; [|done]. cbv zeta.
  assert (Hk : is_Some (jobs s !! k)) by (by eexists).
  assert (Hev : event_of s k = j_event j) by (unfold event_of; by rewrite Ek).
  assert (Hp : forall p, past p = false -> sane (set_job k (set_job_pc p) s)).
  { intros p Hf. apply sane_pc; [done|done|]. by rewrite Hf. }
  assert (Hdone : past (j_pc j) = true -> released s k) by (intros H; apply (sn_done _ Hs); unfold pc_of; by rewrite Ek).
  destruct (j_pc j) as [changes ops|changes ops|ops|ops|surface| | |] eqn:Ep; try done.
  - destruct (increment (j_increment j)); try done. unfold doSurfaceTransaction. destruct changes as [|c rest]; [intros [= <-]; by apply Hp|].
    destruct (mLayers s !! sc_id c) as [layer|]; [|done]. destruct (surface_op s layer (sc_change c)); [|done].
    intros [= <-]. apply Hp. by destruct (sc_change c).
  - destruct (increment (j_increment j)); try done. unfold doDisplayTransaction. destruct changes as [|c rest]; [intros [= <-]; by apply Hp|].
    destruct (mDisplays s !! dc_id c); [|done]. intros [= <-]. by apply Hp.
  - destruct (h_worker (j_event j)) eqn:Ew.
    + intros [= <-]. apply sane_pc; [done|done|]. intros _. unfold released. by rewrite Hev.
    + intros E. apply fmap_Some in E as (h & Hh & ->). apply sane_worker_event; [done|done|]. by rewrite Hev.
  - intros [= <-]. apply sane_act; [done|done|by apply Hdone].
  - destruct (increment (j_increment j)); try done. intros [= <-]. apply sane_pc; [by apply sane_publish|done|].
    intros _. by apply Hdone.
Qed.

(** What a step of a layer's thread does to its event. *)
Lemma layer_step s sched sched' h calls : startScheduling lock_buffer (event_of s) sched = Some (sched', h, calls) ->
  (match pc sched' with
   | Post _ e => pc sched = pc sched' \/ (exists surface, pc sched = Ready surface e) /\ released s (event e)
   | _ => True
   end) /\
  (forall k, h = Some k -> exists surface e, pc sched = Ready surface e /\ sched' = sched /\ worker_step (event_of s (event e)) = Some k) /\
  (forall c, c ∈ calls -> timed (onSurface c) = true -> exists surface e, pc sched = Post surface e).
Proof.
  assert (Hpick : forall sc (P : Z -> BufferEvent -> Prop), match pc (pick sc) with Post surface e => P surface e | _ => True end).
  { intros sc P. unfold pick. by destruct (mBufferEvents sc). }
  unfold startScheduling. destruct (pc sched) as [|[]| |e|e|surface e|surface e| |[]| |] eqn:Ep; try done.
  1, 2: intros [= <- <- <-]; destruct (mSurfaceControl sched); split_and!; try done; by intros ? ?%elem_of_nil.
  - intros [= <- <- <-]. split; [|split; [done|by intros ? ?%elem_of_nil]]. destruct (mContinueScheduling sched); [|done].
    apply (Hpick sched (fun _ _ => _)).
  - destruct (mSurfaceControl sched); intros [= <- <- <-]; (split_and!; [done..|]); [|by intros ? ?%elem_of_nil].
    by intros c ->%list_elem_of_singleton.
  - destruct (mSurfaceControl sched); [unfold fillSurface; destruct (lock_buffer _)|]; intros [= <- <- <-]; (split_and!; [done..|]).
    + by intros c ->%list_elem_of_singleton.
    + intros c [->|[->|[]%elem_of_nil]%elem_of_cons]%elem_of_cons; done.
    + by intros ? ?%elem_of_nil.
  - destruct (h_worker _) eqn:Ew.
    + intros [= <- <- <-]. split_and!; [right; split; [by eexists|done]|done|by intros ? ?%elem_of_nil].
    + destruct (worker_step _) as [h'|] eqn:Eh; [|done]. intros [= <- <- <-]. rewrite Ep.
      split_and!; [done|intros k [= <-]; by exists surface, e|by intros ? ?%elem_of_nil].
  - intros [= <- <- <-]. split_and!; [done|done|]. intros c _ _. by exists surface, e.
  - intros [= <- <- <-]. split; [|split; [done|by intros ? ?%elem_of_nil]]. apply (Hpick _ (fun _ _ => _)).
  - intros [= <- <- <-]. split_and!; [done|done|by intros ? ?%elem_of_nil].
Qed.

Lemma sane_layer id s s' : sane s -> layer_thread id s = Some s' -> sane s'.
Proof.
  intros Hs. unfold layer_thread. destruct (scheduler_of id _) as [sched|] eqn:Esc; [|done].
  destruct (startScheduling _ _ sched) as [[[sched' h] calls]|] eqn:Est; [|done]. cbv zeta.
  destruct (layer_step _ _ _ _ _ Est) as (Hpost & Hev & Hcalls).
  set (s1 := say _ _ _). assert (H1 : sane s1).
  { apply sane_say.
    - apply sane_schedulers; [done|]. intros i sc surface e. rewrite scheduler_of_on. case_decide; [subst i|apply (sn_post _ Hs)].
      rewrite Esc. intros [= <-] Hp. rewrite Hp in Hpost. destruct Hpost as [Hpost|[_ Hr]]; [|done].
      by apply (sn_post _ Hs id sched surface e).
    - intros k e Hk He Ht. apply list_elem_of_fmap in He as (c & -> & Hc). destruct (Hcalls c Hc Ht) as (surface & e & Hp).
      rewrite Hp in Hk. injection Hk as <-. by apply (sn_post _ Hs id sched surface e). }
  intros [= <-]. destruct h as [h|]; [|by destruct (event <$> current (pc sched))].
  destruct (Hev h eq_refl) as (surface & e & Hp & -> & Hw). rewrite Hp. cbn [current fmap option_fmap option_map].
  destruct (jobs s1 !! event e) as [j|] eqn:Ej.
  - apply sane_worker_event; [done|by eexists|done].
  - unfold set_job. by rewrite Ej.
Qed.

Lemma sane_step s s' : sane s -> step mTrace mNumThreads black s s' -> sane s'.
Proof.
  intros Hs [t Ht]. unfold thread_step in Ht. destruct (ended s); [done|]. destruct t as [|k|id|].
  - by eapply sane_replay.
  - by eapply sane_worker.
  - by eapply sane_layer.
  - destruct (timers _ =? 0)%nat; [done|]. injection Ht as <-. by apply (sane_same s).
Qed.

Lemma sane_interrupt s : sane s -> (forall k, main_ s <> Completing k) -> sane (stopAutoReplayHandler s).
Proof.
  intros Hs Hm. unfold stopAutoReplayHandler. destruct (sReplayingManually _); [|by apply (sane_same s)].
  apply sane_main; [by apply sane_say|done|]. intros k E. by apply Hm in E.
Qed.

Lemma sane_init manual stop waiting stopped lines : sane (new_replayer manual stop waiting stopped lines).
Proof.
  split; try done.
  - intros k. apply shaken_new.
  - exists 0%nat. split; cbn; try done. lia.
  - intros k e []%elem_of_nil.
Qed.

Lemma sane_reachable manual stop waiting stopped lines s :
  rtc (step mTrace mNumThreads black) (new_replayer manual stop waiting stopped lines) s -> sane s.
Proof.
  intros H. remember (new_replayer _ _ _ _ _) as s0 eqn:E. assert (H0 : sane s0) by (subst; apply sane_init). clear E.
  induction H as [|s0 s1 s Hs _ IH]; [done|]. apply IH. by eapply sane_step.
Qed.

End Order.

(** * Properties *)

(** C7: increments are released in the order of the trace. Whatever the trace, the
    schedule, the answers of SurfaceFlinger and the console: when a timed call for
    an increment reaches SurfaceFlinger (a transaction, a creation, a
    post, ...), the main thread has completed every increment that was
    dispatched before it, and each of these has been let go. *)
Theorem replay_ordered {colors : Colors} {composer : Composer} (mTrace : list Increment) (mNumThreads : nat) (black : HSV)
    (manual : bool) (stop : Z) (waiting stopped : bool) (lines : list str) (s : replayer) (k : nat) (e : effect) (i : nat) :
  rtc (step mTrace mNumThreads black) (new_replayer manual stop waiting stopped lines) s ->
  (Some k, e) ∈ log s -> timed e = true -> (i < k)%nat ->
  h_main (event_of s i) = [] /\ h_worker (event_of s i) = [].
Proof.
  intros H He Ht Hi. apply sane_reachable in H. destruct H as [H1 _ [a [A B C D E]] _ H5].
  specialize (H5 k e He Ht). assert (Hk : (k < a)%nat).
  { apply not_le. intros Hle. by apply (sf_started _ (shaken_checked _ (H1 k)) H5), E. }
  assert (Hm : h_main (event_of s i) = []).
  { apply D; [lia|]. intros Hc. apply C in Hc. lia. }
  split; [done|]. by apply (sf_main _ (shaken_checked _ (H1 i))).
Qed.

(** The second buffer of the demonstration, that is for the layer of the first increment. *)
Lemma replay_ordered_witness :
  (Some 3%nat, onSurface (unlockAndPost 100)) ∈ log (demo_run 100) /\ h_main (event_of (demo_run 100) 0) = [].
Proof.
  assert (He : (Some 3%nat, onSurface (unlockAndPost 100)) ∈ log (demo_run 100)).
  { apply list_elem_of_lookup. exists 10%nat. by vm_compute. }
  split; [exact He|].
  destruct (replay_ordered (colors := demo_colors) (composer := demo_composer) demo_trace 3 (0 : Z) false (-1) false false [] (demo_run 100) 3 _ 0
    ltac:(apply run_reachable) He eq_refl ltac:(lia)) as [H _]. exact H.
Defined.
