(* ===== verification/ReplayInvariant.v ===== *)
(** What holds in every state of the replay of a well-formed trace. *)

From S2P Require Import Prelude CLib ReplayEvent ReplayScheduler Replayer ReplayOrder.
From stdpp Require Import relations.

Section Invariant.
Context {colors : Colors} {composer : Composer}.
Context (mTrace : list Increment) (mNumThreads : nat) (black : HSV).

Abbreviation step := (step mTrace mNumThreads black).

(** * Traces that can be replayed *)

(** An earlier increment makes the layer. *)
Definition layer_made (i : nat) (id : Z) : Prop :=
  exists k t name w h, (k < i)%nat /\ mTrace !! k = Some {| time_stamp := t; increment := kSurfaceCreation id name w h |} /\
    is_Some (createSurface k).

(** An earlier increment makes the display, and until [i] no other one makes
    or deletes it. *)
Definition display_made (i : nat) (id : Z) : Prop :=
  exists k t name did secure, (k < i)%nat /\
    mTrace !! k = Some {| time_stamp := t; increment := kDisplayCreation id name did secure |} /\ is_Some (createDisplay k) /\
    forall k' inc, (k' < i)%nat -> k' <> k -> mTrace !! k' = Some inc ->
      match increment inc with kDisplayCreation id' _ _ _ | kDisplayDeletion id' => id' <> id | _ => True end.

Definition replayable (i : nat) (inc : increment_case) : Prop :=
  match inc with
  | kTransaction surface display _ _ =>
      (forall c, c ∈ surface -> layer_made i (sc_id c) /\
         match sc_change c with kDeferredTransaction other _ => layer_made i other | _ => True end) /\
      (forall c, c ∈ display -> display_made i (dc_id c))
  | kBufferUpdate id _ _ _ => layer_made i id /\ exists buf, lock_buffer i = inr buf
  | kSurfaceDeletion _ | INCREMENT_NOT_SET => False
  | _ => True
  end.

(** The answers of SurfaceFlinger are part of what can be replayed; the numbers
    of the increments fit in an [int], those that are looked for ahead too. *)
Record well_formed : Prop := {
  wf_threads : (0 < mNumThreads)%nat;
  wf_width : (Z.of_nat (length mTrace + mNumThreads) < 2 ^ 31)%Z;
  wf_client : initCheck = NO_ERROR;
  wf_increments : forall i inc, mTrace !! i = Some inc -> replayable i (increment inc);
}.

(** * The invariant *)

Definition size : nat := length mTrace.

(** The replay goes on by itself. *)
Definition automatic (c : console) : Prop := sReplayingManually c = false /\ mHasStopped c = true /\ timers c = 0%nat.

Definition main_ok (s : replayer) : Prop :=
  let idx := mIncrementIndex s in
  let d := length (jobs s) in
  match main_ s with
  | Start => d = 0%nat /\ mPendingIncrements s = [] /\ idx = 0%nat
  | InitReplay i => d = i /\ mPendingIncrements s = seq 0 i /\ idx = 0%nat /\ (i <= mNumThreads)%nat /\ (i <= size)%nat
  | Loop => d = Nat.min (idx + mNumThreads) size /\ mPendingIncrements s = seq idx (d - idx) /\ (idx <= d)%nat
  | Completing k => k = idx /\ (idx < d)%nat /\ d = Nat.min (idx + mNumThreads) size /\ mPendingIncrements s = seq (S idx) (d - S idx)
  | Return status => status = NO_ERROR /\ idx = d /\ d = size
  | Ended status => status = Some NO_ERROR /\ idx = d /\ d = size
  | Exited | Aborted => False
  end.

(** The main thread's part of the events. *)
Definition main_events (s : replayer) : Prop :=
  forall k, ((k < mIncrementIndex s)%nat -> h_main (event_of s k) = []) /\
            ((mIncrementIndex s <= k)%nat -> main_ s <> Completing k -> h_main (event_of s k) = h_main new_handshake).

Definition job_ok (k : nat) (i : increment_case) (h : handshake) (p : job_pc) : Prop :=
  match i, p with
  | kTransaction surface _ _ _, Surfaces changes _ => h = new_handshake /\ changes ⊆ surface
  | kTransaction _ display _ _, Displays changes _ => h = new_handshake /\ changes ⊆ display
  | kBufferUpdate _ _ _ _, Delegated => True
  | kBufferUpdate _ _ _ _, _ => False
  | kSurfaceCreation _ _ _ _, Publishing surface => h_worker h = [] /\ createSurface k = Some surface
  | _, Shaking _ => True
  | _, Acting _ | _, Finished => h_worker h = []
  | _, _ => False
  end.

(** The buffers that a scheduler holds. *)
Definition queue_ids (sc : BufferQueueScheduler) : list nat := map event (mBufferEvents sc).

Definition is_buffer_of (id : Z) (j : job) : Prop :=
  match increment (j_increment j) with kBufferUpdate id' _ _ _ => id' = id | _ => False end.

Record scheduler_ok (s : replayer) (id : Z) (sc : BufferQueueScheduler) : Prop := {
  so_sched : sched_ok sc;
  so_continue : mContinueScheduling sc = true /\ pc sc <> Stopped;
  so_surface : mSurfaceControl sc = None -> mLayers s !! id = None;
  so_sorted : StronglySorted lt (queue_ids sc);
  so_jobs : forall k, k ∈ queue_ids sc -> exists j, jobs s !! k = Some j /\ is_buffer_of id j;
  so_rest : forall k, k ∈ tail (queue_ids sc) -> event_of s k = new_handshake;
  so_front : forall k, head (queue_ids sc) = Some k ->
    match pc sc with Ready _ _ => True | Post _ _ | Popping => released s k | _ => event_of s k = new_handshake end;
}.

(** What the finished increments have left. *)
Definition layers_ok (s : replayer) : Prop :=
  forall k j id name w h, jobs s !! k = Some j -> increment (j_increment j) = kSurfaceCreation id name w h ->
    is_Some (createSurface k) -> j_pc j = Finished -> is_Some (mLayers s !! id).

Definition displays_ok (s : replayer) : Prop :=
  forall k j id name did secure, jobs s !! k = Some j -> increment (j_increment j) = kDisplayCreation id name did secure ->
    is_Some (createDisplay k) -> j_pc j = Finished ->
    (forall k' j', jobs s !! k' = Some j' -> k' <> k -> j_pc j' = Finished ->
       match increment (j_increment j') with kDisplayCreation id' _ _ _ | kDisplayDeletion id' => id' <> id | _ => True end) ->
    is_Some (mDisplays s !! id).

Record inv (s : replayer) : Prop := {
  i_shaken : forall k, shaken (event_of s k);
  i_console : automatic (console_ s);
  i_main : main_ok s;
  i_events : main_events s;
  i_trace : forall k j, jobs s !! k = Some j -> mTrace !! k = Some (j_increment j);
  i_jobs : forall k j, jobs s !! k = Some j -> job_ok k (increment (j_increment j)) (j_event j) (j_pc j);
  i_layers : layers_ok s;
  i_displays : displays_ok s;
  i_schedulers : forall id sc, scheduler_of id (mBufferQueueSchedulers s) = Some sc -> scheduler_ok s id sc;
  i_keys : NoDup (map fst (mBufferQueueSchedulers s));
  i_buffers : forall k j id, jobs s !! k = Some j -> is_buffer_of id j ->
    exists sc, scheduler_of id (mBufferQueueSchedulers s) = Some sc /\ (k ∈ queue_ids sc \/ released s k);
}.

(** ** Events *)

Lemma set_job_eq k f s j : jobs s !! k = Some j -> set_job k f s = with_jobs (<[k := f j]> (jobs s)) s.
Proof. intros E. unfold set_job. by rewrite E. Qed.

Lemma event_of_job s k j : jobs s !! k = Some j -> event_of s k = j_event j.
Proof. intros E. unfold event_of. by rewrite E. Qed.

(** A job after one of them was changed. *)
Lemma job_after k f s i j : jobs (set_job k f s) !! i = Some j ->
  (i <> k /\ jobs s !! i = Some j) \/ (i = k /\ exists j0, jobs s !! k = Some j0 /\ j = f j0).
Proof.
  rewrite job_set_job. case_decide; [subst; right|by left]. split; [done|].
  destruct (jobs s !! k) as [j0|]; [|done]. by exists j0; injection H as <-.
Qed.

Lemma released_new s k : released s k -> event_of s k <> new_handshake.
Proof. unfold released. intros H E. by rewrite E in H. Qed.

Lemma same_front id sc s k k' : scheduler_ok s id sc -> k ∈ queue_ids sc -> k' ∈ tail (queue_ids sc) -> head (queue_ids sc) = Some k -> k <> k'.
Proof.
  intros H _ Hk' Hk. pose proof (so_sorted _ _ _ H) as Hsort. destruct (queue_ids sc) as [|x l]; [done|]. injection Hk as ->.
  apply StronglySorted_inv in Hsort as [_ Hall]. rewrite Forall_forall in Hall. specialize (Hall k' Hk'). lia.
Qed.

Lemma buffer_unique id id' j : is_buffer_of id j -> is_buffer_of id' j -> id = id'.
Proof. unfold is_buffer_of. destruct (increment (j_increment j)); try done. by intros -> ->. Qed.

(** An event that moves on, with what its job and the schedulers say of it. *)
Lemma inv_event k h s j : inv s -> jobs s !! k = Some j -> guard_step (j_event j) h ->
  job_ok k (increment (j_increment j)) h (j_pc j) ->
  (forall id sc, scheduler_of id (mBufferQueueSchedulers s) = Some sc -> k ∉ tail (queue_ids sc) /\
     (head (queue_ids sc) = Some k -> match pc sc with Ready _ _ | Post _ _ | Popping => True | _ => False end)) ->
  (h_worker (j_event j) = [] -> h_worker h = []) ->
  (h_main h = h_main (j_event j) \/ main_ s = Completing k) -> inv (set_job k (set_event h) s).
Proof.
  intros H Hj Hg Hok Hsc Hr Hm. pose proof (event_of_job s k j Hj) as Hev.
  assert (Hk : is_Some (jobs s !! k)) by (by eexists).
  assert (Hrel : forall i, released s i -> released (set_job k (set_event h) s) i).
  { intros i. unfold released. rewrite event_of_event by done. case_decide; [subst; by rewrite Hev|done]. }
  assert (Hoff : forall i, i <> k -> event_of (set_job k (set_event h) s) i = event_of s i).
  { intros i Hi. by rewrite event_of_event, decide_False. }
  destruct (set_event_same k h s) as (E1 & E2 & E3 & E4). pose proof (set_job_eq k (set_event h) s j Hj) as Eq.
  destruct H as [H1 H2 H3 H4 H5 H6 H7 H8 H9 H10 H11]. split.
  - intros i. rewrite event_of_event by done. case_decide; [|done]. apply (sf_step _ (shaken_checked _ (H1 k))). by rewrite Hev.
  - by rewrite Eq.
  - unfold main_ok in *. rewrite length_set_job, E1, E2. by rewrite Eq.
  - intros i. rewrite E2. replace (mIncrementIndex (set_job k (set_event h) s)) with (mIncrementIndex s) by (by rewrite Eq).
    rewrite event_of_event by done. case_decide; [subst i|apply H4]. destruct Hm as [->|Hm]; [rewrite <- Hev; apply H4|].
    unfold main_ok in H3. rewrite Hm in H3. destruct H3 as (-> & _). split; [lia|]. intros _ Hne. by rewrite Hm in Hne.
  - intros i j' [[Hi Hj']|(-> & j0 & Hj0 & ->)]%job_after; [by apply H5|]. cbn. by apply H5.
  - intros i j' [[Hi Hj']|(-> & j0 & Hj0 & ->)]%job_after; [by apply H6|]. rewrite Hj in Hj0. by injection Hj0 as <-.
  - intros i j' id name w hh [[Hi Hj']|(-> & j0 & Hj0 & ->)]%job_after Hinc Hc Hp; rewrite Eq.
    + exact (H7 i j' id name w hh Hj' Hinc Hc Hp).
    + exact (H7 k j0 id name w hh Hj0 Hinc Hc Hp).
  - intros i j' id name did sec Hi Hinc Hc Hp Hall. rewrite Eq. cbn [mDisplays with_jobs].
    assert (Hback : forall i j', jobs (set_job k (set_event h) s) !! i = Some j' -> exists j0, jobs s !! i = Some j0 /\ j_pc j0 = j_pc j' /\ j_increment j0 = j_increment j').
    { intros i0 j0 [[Hi0 Hj']|(-> & j1 & Hj1 & ->)]%job_after; by eexists. }
    destruct (Hback i j' Hi) as (j0 & Hj0 & Ep & Ei). eapply (H8 i j0); [done|by rewrite Ei|done|by rewrite Ep|].
    intros k' j1 Hj1 Hne Hp1.
    assert (Hf : exists j2, jobs (set_job k (set_event h) s) !! k' = Some j2 /\ j_pc j2 = j_pc j1 /\ j_increment j2 = j_increment j1).
    { rewrite job_set_job. case_decide; [subst; rewrite Hj1; by eexists|by eexists]. }
    destruct Hf as (j2 & Hj2 & Ep2 & Ei2). rewrite <- Ei2. apply (Hall k' j2); [done|done|by rewrite Ep2].
  - intros id sc. rewrite E3. intros Hid. destruct (Hsc id sc Hid) as [Htail Hhead]. specialize (H9 id sc Hid).
    destruct H9 as [S1 S2 S3 S4 S5 S6 S7]. split; try done; [by rewrite Eq| | |].
    + intros i Hi. destruct (S5 i Hi) as (j' & Hj' & Hb). rewrite job_set_job. case_decide; [subst; rewrite Hj'; by eexists|by eexists].
    + intros i Hi. rewrite Hoff; [by apply S6|]. by intros ->.
    + intros i Hi. specialize (S7 i Hi). destruct (decide (i = k)) as [->|Hne].
      * specialize (Hhead Hi). destruct (pc sc); try done; by apply Hrel.
      * destruct (pc sc); rewrite ?Hoff by done; try done; by apply Hrel.
  - by rewrite E3.
  - rewrite E3. intros i j' id [[Hi Hj']|(-> & j0 & Hj0 & ->)]%job_after Hb.
    + destruct (H11 i j' id Hj' Hb) as (sc & Hsc' & [Hq|Hq]); exists sc; split; [done|by left|done|right; by apply Hrel].
    + destruct (H11 k j0 id Hj0 Hb) as (sc & Hsc' & [Hq|Hq]); exists sc; split; [done|by left|done|right; by apply Hrel].
Qed.

(** ** Jobs *)

(** What a job that finishes leaves. *)
Definition finish_ok (s : replayer) (k : nat) (i : increment_case) (p : job_pc) : Prop :=
  p = Finished ->
  match i with kSurfaceCreation id _ _ _ => is_Some (createSurface k) -> is_Some (mLayers s !! id) | _ => True end.

Lemma inv_pc k p m s j : inv s -> jobs s !! k = Some j -> job_ok k (increment (j_increment j)) (j_event j) p ->
  finish_ok s k (increment (j_increment j)) p ->
  displays_ok (with_displays m (set_job k (set_job_pc p) s)) -> inv (with_displays m (set_job k (set_job_pc p) s)).
Proof.
  intros H Hj Hok Hfin Hdisp. set (s' := with_displays m _) in *.
  assert (Hev : forall i, event_of s' i = event_of s i) by (intros i; apply event_of_pc).
  assert (Eq : s' = with_displays m (with_jobs (<[k := set_job_pc p j]> (jobs s)) s)) by (unfold s'; by rewrite (set_job_eq k _ s j Hj)).
  assert (Hjob : forall i j', jobs s' !! i = Some j' -> exists j0, jobs s !! i = Some j0 /\ j_increment j' = j_increment j0 /\ j_event j' = j_event j0 /\
    ((i <> k /\ j' = j0) \/ (i = k /\ j_pc j' = p))).
  { intros i j' [[Hi Hj']|(-> & j0 & Hj0 & ->)]%job_after; [exists j'; split_and!; try done; by left|exists j0; split_and!; try done; by right]. }
  assert (Hsome : forall i j0, jobs s !! i = Some j0 -> exists j', jobs s' !! i = Some j' /\ j_increment j' = j_increment j0).
  { intros i j0 Hi. unfold s'. cbn [jobs with_displays]. rewrite job_set_job. case_decide; [subst; rewrite Hi; by eexists|by eexists]. }
  destruct H as [H1 H2 H3 H4 H5 H6 H7 H8 H9 H10 H11]. split.
  - intros i. by rewrite Hev.
  - by rewrite Eq.
  - unfold main_ok in *. replace (length (jobs s')) with (length (jobs s)) by (rewrite Eq; cbn; by rewrite length_insert). by rewrite Eq.
  - intros i. rewrite Hev. specialize (H4 i). by rewrite Eq.
  - intros i j' Hi. destruct (Hjob i j' Hi) as (j0 & Hj0 & -> & _). by apply H5.
  - intros i j' Hi. destruct (Hjob i j' Hi) as (j0 & Hj0 & -> & -> & [[_ ->]|[-> ->]]); [by apply H6|].
    rewrite Hj in Hj0. by injection Hj0 as <-.
  - intros i j' id name w hh Hi. destruct (Hjob i j' Hi) as (j0 & Hj0 & -> & _ & Hcase). intros Hinc Hc Hp.
    replace (mLayers s') with (mLayers s) by (by rewrite Eq). destruct Hcase as [[_ ->]|[-> Ep]]; [by eapply H7|].
    rewrite Hj in Hj0. injection Hj0 as <-. rewrite Ep in Hp. specialize (Hfin Hp). rewrite Hinc in Hfin. by apply Hfin.
  - exact Hdisp.
  - intros id sc Hid. assert (Hid' : scheduler_of id (mBufferQueueSchedulers s) = Some sc) by (by rewrite Eq in Hid).
    destruct (H9 id sc Hid') as [S1 S2 S3 S4 S5 S6 S7]. split; try done; [by rewrite Eq| | |].
    + intros i Hi. destruct (S5 i Hi) as (j0 & Hj0 & Hb). destruct (Hsome i j0 Hj0) as (j' & Hj' & E). exists j'. split; [done|].
      unfold is_buffer_of. by rewrite E.
    + intros i Hi. rewrite Hev. by apply S6.
    + intros i Hi. specialize (S7 i Hi). unfold released in *. rewrite Hev. exact S7.
  - by rewrite Eq.
  - intros i j' id Hi Hb. destruct (Hjob i j' Hi) as (j0 & Hj0 & E & _). unfold is_buffer_of in Hb. rewrite E in Hb.
    destruct (H11 i j0 id Hj0 Hb) as (sc & Hsc & Hq). exists sc. split; [by rewrite Eq|]. unfold released. by rewrite Hev.
Qed.

(** Displays where no display increment finishes. *)
Lemma displays_pc k p s j : displays_ok s -> jobs s !! k = Some j ->
  (p = Finished -> match increment (j_increment j) with kDisplayCreation _ _ _ _ | kDisplayDeletion _ => False | _ => True end) ->
  j_pc j <> Finished -> displays_ok (with_displays (mDisplays s) (set_job k (set_job_pc p) s)).
Proof.
  intros H Hj Hp Hnf i j' id name did sec Hi Hinc Hc Hfin Hall. cbn [mDisplays with_displays jobs] in *.
  apply job_after in Hi as [[Hi Hj']|(-> & j0 & Hj0 & ->)].
  - eapply (H i j'); [done|done|done|done|]. intros k' j1 Hj1 Hne Hf1.
    destruct (decide (k' = k)) as [->|Hk']; [rewrite Hj in Hj1; by injection Hj1 as <-|].
    apply (Hall k' j1); [|done|done]. by rewrite job_set_job, decide_False.
  - cbn in Hfin, Hinc. rewrite Hj in Hj0. injection Hj0 as <-. specialize (Hp Hfin). by rewrite Hinc in Hp.
Qed.

Lemma with_displays_same s : with_displays (mDisplays s) s = s.
Proof. by destruct s. Qed.

Lemma inv_pc_plain k p s j : inv s -> jobs s !! k = Some j -> job_ok k (increment (j_increment j)) (j_event j) p ->
  finish_ok s k (increment (j_increment j)) p -> j_pc j <> Finished ->
  (p = Finished -> match increment (j_increment j) with kDisplayCreation _ _ _ _ | kDisplayDeletion _ => False | _ => True end) ->
  inv (set_job k (set_job_pc p) s).
Proof.
  intros H Hj Hok Hfin Hnf Hp. assert (E : set_job k (set_job_pc p) s = with_displays (mDisplays s) (set_job k (set_job_pc p) s)).
  { rewrite (set_job_eq k _ s j Hj). by destruct s. }
  rewrite E. apply (inv_pc k p _ s j); try done. apply (displays_pc k p s j); try done. apply (i_displays _ H).
Qed.

(** A display increment finishes. *)
Lemma inv_pc_display k id d s j : inv s -> jobs s !! k = Some j -> h_worker (j_event j) = [] -> j_pc j <> Finished ->
  (increment (j_increment j) = kDisplayDeletion id /\ d = None \/
   exists name did secure, increment (j_increment j) = kDisplayCreation id name did secure /\ d = createDisplay k) ->
  inv (with_displays (partial_alter (fun _ => d) id (mDisplays s)) (set_job k (set_job_pc Finished) s)).
Proof.
  intros H Hj Hw Hnf Hd. apply (inv_pc k Finished _ s j H Hj).
  - by destruct Hd as [[-> _]|(? & ? & ? & -> & _)].
  - intros _. by destruct Hd as [[-> _]|(? & ? & ? & -> & _)].
  - intros i j' id' name did sec Hi Hinc Hc Hfin Hall. cbn [mDisplays with_displays jobs] in *.
    apply job_after in Hi as [[Hi Hj']|(-> & j0 & Hj0 & ->)].
    + assert (Hne : id' <> id).
      { specialize (Hall k (set_job_pc Finished j)). rewrite job_set_job, decide_True, Hj in Hall by done.
        specialize (Hall eq_refl ltac:(done) eq_refl). cbn in Hall.
        destruct Hd as [[E _]|(? & ? & ? & E & _)]; rewrite E in Hall; by intros ->. }
      rewrite lookup_partial_alter_ne by done. eapply (i_displays _ H i j'); [done|done|done|done|]. intros k' j1 Hj1 Hne' Hf1.
      destruct (decide (k' = k)) as [->|Hk']; [rewrite Hj in Hj1; by injection Hj1 as <-|].
      apply (Hall k' j1); [|done|done]. by rewrite job_set_job, decide_False.
    + rewrite Hj in Hj0. injection Hj0 as <-. cbn in Hinc. destruct Hd as [[E _]|(? & ? & ? & E & ->)]; rewrite Hinc in E; [done|].
      injection E as -> -> -> ->. by rewrite lookup_partial_alter_eq.
Qed.

(** ** Layers *)

Lemma keys_on_scheduler id f l : map fst (on_scheduler id f l) = map fst l.
Proof. unfold on_scheduler. rewrite map_map. apply map_ext. intros [x sc]. cbn [fst]. by destruct (x =? id)%Z. Qed.

Lemma front_notified s p (k : nat) :
  match p with Ready _ _ => True | Post _ _ | Popping => released s k | _ => event_of s k = new_handshake end ->
  match notified p with Ready _ _ => True | Post _ _ | Popping => released s k | _ => event_of s k = new_handshake end.
Proof. by destruct p. Qed.

Lemma inv_publish id surface s : inv s -> inv (publish id surface s).
Proof.
  intros [H1 H2 H3 H4 H5 H6 H7 H8 H9 H10 H11]. split; try done.
  - intros k j id' name w h Hj Hinc Hc Hp. cbn [mLayers publish]. destruct (decide (id' = id)) as [->|Hne].
    + rewrite lookup_insert_eq. by eexists.
    + rewrite lookup_insert_ne by done. by eapply H7.
  - intros i sc. cbn [mBufferQueueSchedulers publish]. rewrite scheduler_of_on. case_decide as Hi.
    + subst i. intros E. apply fmap_Some in E as (sc0 & Hsc & ->). destruct (H9 id sc0 Hsc) as [S1 [S2 S2'] S3 S4 S5 S6 S7].
      split; try done.
      * apply (notified_ok sc0); [done|done|exists []; by rewrite app_nil_r|done].
      * split; [done|]. cbn [pc setSurfaceControl]. by destruct (pc sc0).
      * intros k Hk. apply front_notified. by apply S7.
    + intros Hsc. destruct (H9 i sc Hsc) as [S1 S2 S3 S4 S5 S6 S7]. split; try done.
      intros E. cbn [mLayers publish]. rewrite lookup_insert_ne by done. by apply S3.
  - cbn [mBufferQueueSchedulers publish]. by rewrite keys_on_scheduler.
  - intros k j i Hj Hb. cbn [mBufferQueueSchedulers publish]. rewrite scheduler_of_on.
    destruct (H11 k j i Hj Hb) as (sc & Hsc & Hq). case_decide as Hi; [|by exists sc].
    subst i. rewrite Hsc. by eexists.
Qed.

Lemma scheduler_ok_same s s' id sc : jobs s' = jobs s -> mLayers s' = mLayers s -> scheduler_ok s id sc -> scheduler_ok s' id sc.
Proof.
  intros Ej El [S1 S2 S3 S4 S5 S6 S7]. pose proof (event_of_same s s' Ej) as Hev. unfold released in *.
  split; try done; unfold released; rewrite ?El, ?Ej; try done; intros k Hk; rewrite Hev; [by apply S6|by apply S7].
Qed.

Lemma inv_say who es s : inv s -> inv (say who es s).
Proof.
  intros [H1 H2 H3 H4 H5 H6 H7 H8 H9 H10 H11]. split; try done.
  intros id sc Hsc. apply (scheduler_ok_same s); [done|done|by apply H9].
Qed.

Lemma set_job_say k f who es s : set_job k f (say who es s) = say who es (set_job k f s).
Proof. unfold set_job. cbn [jobs say]. by destruct (jobs s !! k). Qed.

Lemma set_job_displays k f m s : set_job k f (with_displays m s) = with_displays m (set_job k f s).
Proof. unfold set_job. cbn [jobs with_displays]. by destruct (jobs s !! k). Qed.

(** ** The threads of the increments *)

Lemma inv_act k ops s j : inv s -> jobs s !! k = Some j -> j_pc j = Acting ops -> inv (act k (increment (j_increment j)) ops s).
Proof.
  intros H Hj Hp. pose proof (i_jobs _ H k j Hj) as Hok. rewrite Hp in Hok.
  assert (Hnf : j_pc j <> Finished) by (by rewrite Hp).
  assert (Hfin : forall who es i, increment (j_increment j) = i ->
    match i with kTransaction _ _ _ _ | kVsyncEvent _ | kPowerModeUpdate _ _ => True | _ => False end ->
    inv (set_job k (set_job_pc Finished) (say who es s))).
  { intros who es i Ei Hi. rewrite set_job_say. apply inv_say, (inv_pc_plain k Finished s j); try done.
    all: rewrite Ei in Hok |- *; by destruct i. }
  unfold act. cbv zeta. destruct (increment (j_increment j)) as [|id name w h| | | |id name did sec|id|id mode|] eqn:Ei; try done;
    try by (eapply Hfin; [reflexivity|done]).
  - rewrite set_job_say. apply inv_say. apply (inv_pc_plain k _ s j); rewrite ?Ei; try done.
    + by destruct (createSurface k) eqn:Ec; rewrite ?Ec.
    + destruct (createSurface k) as [surface|] eqn:Ec; [done|]. intros _ Hc. rewrite Ec in Hc. by destruct Hc.
  - unfold set_display. rewrite set_job_displays, set_job_say. cbn [mDisplays say].
    apply (inv_say (Some k) [createdDisplay name sec] (with_displays _ (set_job k _ s))).
    apply (inv_pc_display k id (createDisplay k) s j); try done. right. by exists name, did, sec.
  - unfold set_display. rewrite set_job_displays, set_job_say. cbn [mDisplays say].
    apply (inv_say (Some k) [destroyDisplay _] (with_displays _ (set_job k _ s))).
    apply (inv_pc_display k id None s j); try done. by left.
Qed.

Lemma inv_worker k s s' : inv s -> worker_thread k s = Some s' -> inv s'.
Proof.
  intros H. unfold worker_thread. destruct (jobs s !! k) as [j|] eqn:Hj; [|done]. cbv zeta.
  pose proof (i_jobs _ H k j Hj) as Hok.
  assert (Hplain : forall p, job_ok k (increment (j_increment j)) (j_event j) p -> p <> Finished -> j_pc j <> Finished ->
    inv (set_job k (set_job_pc p) s)).
  { intros p Hp Hnf Hnf'. apply (inv_pc_plain k p s j); try done; intros E; by destruct (Hnf E). }
  destruct (j_pc j) as [changes ops|changes ops|ops|ops|surface| | |] eqn:Ep; try done.
  - destruct (increment (j_increment j)) as [sf dp sync an| | | | | | | |] eqn:Ei; try done. destruct Hok as [Hev Hsub].
    unfold doSurfaceTransaction. destruct changes as [|c rest]; [intros [= <-]; by apply Hplain|].
    destruct (mLayers s !! sc_id c) as [layer|]; [|done]. destruct (surface_op s layer (sc_change c)) as [more|]; [|done].
    intros [= <-]. apply Hplain; [|by destruct (sc_change c)|done].
    destruct (sc_change c); (split; [done|]); try done; intros c0 Hx; apply Hsub; by right.
  - destruct (increment (j_increment j)) as [sf dp sync an| | | | | | | |] eqn:Ei; try done. destruct Hok as [Hev Hsub].
    unfold doDisplayTransaction. destruct changes as [|c rest]; [intros [= <-]; by apply Hplain|].
    destruct (mDisplays s !! dc_id c); [|done]. intros [= <-]. apply Hplain; [|done|done].
    split; [done|]. intros c0 Hx. apply Hsub. by right.
  - destruct (h_worker (j_event j)) eqn:Ew.
    + intros [= <-]. apply Hplain; [|done|done]. by destruct (increment (j_increment j)).
    + intros E. apply fmap_Some in E as (h & Hh & ->). apply (inv_event k h s j); try done.
      * by apply guard_step_worker.
      * rewrite Ep. by destruct (increment (j_increment j)).
      * intros id sc Hsc. assert (Hnq : k ∉ queue_ids sc).
        { intros Hq. destruct (so_jobs _ _ _ (i_schedulers _ H id sc Hsc) k Hq) as (j' & Hj' & Hb). rewrite Hj in Hj'. injection Hj' as <-.
          unfold is_buffer_of in Hb. by destruct (increment (j_increment j)). }
        destruct (queue_ids sc) as [|x0 l0]; [done|]. cbn [tail head]. split; [|intros [= ->]]; set_solver.
      * by rewrite Ew.
      * left. by apply worker_step_main.
  - intros [= <-]. by apply (inv_act k ops s j).
  - destruct (increment (j_increment j)) as [|id name w h| | | | | | |] eqn:Ei; try done. intros [= <-]. destruct Hok as [Hw Hc].
    apply (inv_pc_plain k Finished (publish id surface s) j); rewrite ?Ei, ?Ep; try done; [by apply inv_publish|].
    intros _ _. cbn [mLayers publish]. rewrite lookup_insert_eq. by eexists.
Qed.

(** ** The threads of the layers *)

Lemma inv_scheduler id sc sc' s : inv s -> scheduler_of id (mBufferQueueSchedulers s) = Some sc -> scheduler_ok s id sc' ->
  (forall k, k ∈ queue_ids sc -> k ∈ queue_ids sc' \/ released s k) ->
  inv (with_schedulers (on_scheduler id (fun _ => sc') (mBufferQueueSchedulers s)) s).
Proof.
  intros [H1 H2 H3 H4 H5 H6 H7 H8 H9 H10 H11] Hid Hok Hq. split; try done.
  - intros i sc0. cbn [mBufferQueueSchedulers with_schedulers]. rewrite scheduler_of_on.
    case_decide; [subst i; rewrite Hid; intros [= <-]; by apply (scheduler_ok_same s)|intros Hsc].
    apply (scheduler_ok_same s); [done|done|by apply H9].
  - cbn [mBufferQueueSchedulers with_schedulers]. by rewrite keys_on_scheduler.
  - intros k j i Hj Hb. cbn [mBufferQueueSchedulers with_schedulers]. rewrite scheduler_of_on.
    destruct (H11 k j i Hj Hb) as (sc0 & Hsc & Hr). case_decide; [subst i|by exists sc0].
    rewrite Hid in Hsc |- *. injection Hsc as <-. exists sc'. split; [done|]. destruct Hr as [Hr|Hr]; [by apply Hq|by right].
Qed.

Context (wf : well_formed).

(** The front event after a step, where the queue is the same. *)
Lemma front_step s id sc sc' h calls : inv s -> scheduler_ok s id sc -> startScheduling lock_buffer (event_of s) sc = Some (sc', h, calls) ->
  pc sc' <> Stopped /\
  (forall k, head (queue_ids sc') = Some k ->
    match pc sc' with Ready _ _ => True | Post _ _ | Popping => released s k | _ => event_of s k = new_handshake end).
Proof.
  intros H [S1 [S2 S2'] S3 S4 S5 S6 S7]. pose proof (ok_current _ S1) as Hcur. unfold queue_ids in *.
  assert (Hpick : forall s0, (forall k, head (map event (mBufferEvents s0)) = Some k -> event_of s k = new_handshake) ->
    pc (pick s0) <> Stopped /\ (forall k, head (map event (mBufferEvents (pick s0))) = Some k ->
      match pc (pick s0) with Ready _ _ => True | Post _ _ | Popping => released s k | _ => event_of s k = new_handshake end)).
  { intros s0 H0. unfold pick. destruct (mBufferEvents s0) eqn:E; cbn; rewrite E; (split; [done|]); [done|]. intros k [= <-]. by apply H0. }
  unfold startScheduling. destruct (pc sc) as [|[]| |e|e|surface e|surface e| |[]| |] eqn:Ep; try done.
  1, 2: intros [= <- <- <-]; by destruct (mSurfaceControl sc).
  - rewrite S2. intros [= <- <- <-]. by apply Hpick.
  - destruct (mSurfaceControl sc); intros [= <- <- <-]; by (split; [|intros k Hk; apply S7]).
  - destruct (mSurfaceControl sc); [|intros [= <- <- <-]; by (split; [|intros k Hk; apply S7])].
    specialize (Hcur e eq_refl). destruct (mBufferEvents sc) as [|e0 l] eqn:El; [done|]. injection Hcur as ->.
    destruct (S5 (event e)) as (j & Hj & Hb); [left|]. pose proof (wf_increments wf _ _ (i_trace _ H _ _ Hj)) as Hr.
    unfold is_buffer_of in Hb. destruct (increment (j_increment j)); try done. destruct Hr as [_ [buf Hbuf]].
    unfold fillSurface. rewrite Hbuf. intros [= <- <- <-]. cbn. by split.
  - specialize (Hcur e eq_refl). destruct (mBufferEvents sc) as [|e0 l] eqn:El; [done|]. injection Hcur as ->.
    destruct (h_worker (event_of s (event e))) eqn:Ew.
    + intros [= <- <- <-]. cbn. rewrite El. split; [done|]. by intros k [= <-].
    + destruct (worker_step _); [|done]. intros [= <- <- <-]. by rewrite Ep.
  - intros [= <- <- <-]. by split.
  - intros [= <- <- <-]. apply Hpick. cbn. intros k Hk. apply S6. destruct (mBufferEvents sc) as [|e0 l]; [done|].
    cbn in *. destruct l; [done|]. injection Hk as <-. left.
  - intros [= <- <- <-]. by split.
Qed.

Lemma scheduler_step_ok s id sc sc' h calls : inv s -> scheduler_ok s id sc ->
  startScheduling lock_buffer (event_of s) sc = Some (sc', h, calls) ->
  scheduler_ok s id sc' /\ (forall k, k ∈ queue_ids sc -> k ∈ queue_ids sc' \/ released s k).
Proof.
  intros H Hsc Hst. destruct (front_step _ _ _ _ _ _ H Hsc Hst) as [Hstop Hfront]. destruct Hsc as [S1 [S2 S2'] S3 S4 S5 S6 S7].
  destruct (run_ok _ _ _ _ _ _ S1 Hst) as (R1 & R2 & R3 & R4).
  assert (Hq : queue_ids sc' = queue_ids sc \/ pc sc = Popping /\ queue_ids sc' = tail (queue_ids sc)).
  { unfold queue_ids. destruct (pc sc) eqn:Ep; try (left; by rewrite R4). right. split; [done|].
    destruct (mBufferEvents sc) as [|e l]; cbn in R4; [by rewrite <- R4|]. rewrite take_0 in R4. by injection R4 as <-. }
  assert (Hsub : forall k, k ∈ tail (queue_ids sc) -> k ∈ queue_ids sc) by (intros k; destruct (queue_ids sc); [done|by right]).
  split.
  - split; try done.
    + by rewrite R3.
    + by rewrite R2.
    + destruct Hq as [->|[_ ->]]; [done|]. destruct (queue_ids sc); [done|]. by apply StronglySorted_inv in S4 as [S4 _].
    + intros k Hk. apply S5. destruct Hq as [Hq|[_ Hq]]; rewrite Hq in Hk; [done|by apply Hsub].
    + intros k Hk. apply S6. destruct Hq as [Hq|[_ Hq]]; rewrite Hq in Hk; [done|].
      destruct (queue_ids sc) as [|x [|y l]]; [done..|]. by right.
  - intros k Hk. destruct Hq as [->|[Ep ->]]; [by left|]. destruct (queue_ids sc) as [|x l] eqn:El; [by apply not_elem_of_nil in Hk|].
    apply elem_of_cons in Hk as [->|Hk]; [right|by left]. specialize (S7 x eq_refl). by rewrite Ep in S7.
Qed.

(** The event in the hands of a layer's thread. *)
Lemma current_job s id sc e : scheduler_ok s id sc -> current (pc sc) = Some e ->
  exists j, jobs s !! event e = Some j /\ is_buffer_of id j.
Proof.
  intros Hsc He. apply (so_jobs _ _ _ Hsc). pose proof (ok_current _ (so_sched _ _ _ Hsc) e He) as Hh. unfold queue_ids.
  destruct (mBufferEvents sc) as [|e0 l]; [done|]. injection Hh as ->. left.
Qed.

Lemma inv_layer id s s' : inv s -> layer_thread id s = Some s' -> inv s'.
Proof.
  intros H. unfold layer_thread. destruct (scheduler_of id _) as [sc|] eqn:Hid; [|done].
  destruct (startScheduling _ _ sc) as [[[sc' h] calls]|] eqn:Hst; [|done]. cbv zeta.
  pose proof (i_schedulers _ H id sc Hid) as Hsc. destruct (scheduler_step_ok _ _ _ _ _ _ H Hsc Hst) as [Hsc' Hq].
  set (s1 := say _ _ _). assert (H1 : inv s1) by (apply inv_say, (inv_scheduler id sc); done).
  intros [= <-]. destruct h as [h|]; [|by destruct (event <$> current (pc sc))].
  destruct (layer_step _ _ _ _ _ Hst) as (_ & Hev & _). destruct (Hev h eq_refl) as (surface & e & Hp & -> & Hw). rewrite Hp.
  cbn [current fmap option_fmap option_map]. pose proof (ok_current _ (so_sched _ _ _ Hsc) e ltac:(by rewrite Hp)) as Hcur.
  assert (Hin : head (queue_ids sc) = Some (event e)) by (unfold queue_ids; destruct (mBufferEvents sc); [done|by injection Hcur as ->]).
  assert (Hmem : event e ∈ queue_ids sc) by (destruct (queue_ids sc); [done|injection Hin as ->; left]).
  destruct (so_jobs _ _ _ Hsc (event e) Hmem) as (j & Hj & Hb). rewrite (event_of_job s _ j Hj) in Hw.
  apply (inv_event (event e) h s1 j); [done|done|by apply guard_step_worker| | | |left; by apply worker_step_main].
  - pose proof (i_jobs _ H _ _ Hj) as Hok. unfold is_buffer_of in Hb. destruct (increment (j_increment j)); try done.
  - intros id' sc0. unfold s1. cbn [mBufferQueueSchedulers say with_schedulers]. rewrite scheduler_of_on. case_decide as Hd.
    + subst id'. rewrite Hid. intros [= <-]. rewrite Hp. split; [|done]. intros Ht.
      by apply (same_front id sc s (event e) (event e) Hsc).
    + intros Hid'. assert (Hn : event e ∉ queue_ids sc0).
      { intros Hq'. destruct (so_jobs _ _ _ (i_schedulers _ H id' sc0 Hid') _ Hq') as (j' & Hj' & Hb'). rewrite Hj in Hj'. injection Hj' as <-.
        apply Hd. by apply (buffer_unique _ _ j). }
      destruct (queue_ids sc0) as [|x0 l0]; [done|]. cbn [tail head]. split; [|intros [= ->]]; set_solver.
  - intros Ew. by apply worker_step_some in Hw.
Qed.

(** ** Dispatching *)

Lemma job_push s s' i p k j : jobs s' = jobs s ++ [Job i new_handshake p] -> jobs s' !! k = Some j ->
  jobs s !! k = Some j \/ (k = length (jobs s) /\ j = Job i new_handshake p).
Proof.
  intros E Hk. rewrite E in Hk. apply lookup_app_Some in Hk as [Hk|[Hle Hk]]; [by left|].
  apply list_lookup_singleton_Some in Hk as [Hk <-]. right. split; [lia|done].
Qed.

(** The new job breaks nothing that is said of jobs. *)
Lemma push_jobs s s' i p : inv s -> jobs s' = jobs s ++ [Job i new_handshake p] -> mTrace !! length (jobs s) = Some i ->
  mLayers s' = mLayers s -> mDisplays s' = mDisplays s -> start_of (increment i) = Some p ->
  (forall k, shaken (event_of s' k)) /\ (forall k j, jobs s' !! k = Some j -> mTrace !! k = Some (j_increment j)) /\
  (forall k j, jobs s' !! k = Some j -> job_ok k (increment (j_increment j)) (j_event j) (j_pc j)) /\ layers_ok s' /\ displays_ok s'.
Proof.
  intros H Ej Hi El Ed Hp. split_and!.
  - intros k. rewrite (event_of_push s s' i k p Ej). apply (i_shaken _ H).
  - intros k j Hk. destruct (job_push s s' i p k j Ej Hk) as [Hk'|[-> ->]]; [by apply (i_trace _ H)|done].
  - intros k j Hk. destruct (job_push s s' i p k j Ej Hk) as [Hk'|[-> ->]]; [by apply (i_jobs _ H)|].
    cbn. destruct (increment i); try done; injection Hp as <-; done.
  - intros k j id name w h Hk Hinc Hc Hf. destruct (job_push s s' i p k j Ej Hk) as [Hk'|[-> ->]].
    + rewrite El. by eapply (i_layers _ H).
    + cbn in Hf, Hinc. rewrite Hinc in Hp. injection Hp as <-. done.
  - intros k j id name did sec Hk Hinc Hc Hf Hall. destruct (job_push s s' i p k j Ej Hk) as [Hk'|[-> ->]].
    + rewrite Ed. eapply (i_displays _ H k j); [done|done|done|done|]. intros k' j' Hj' Hne Hf'. apply (Hall k' j'); [|done|done].
      rewrite Ej. by apply lookup_app_l_Some.
    + cbn in Hf, Hinc. rewrite Hinc in Hp. injection Hp as <-. done.
Qed.

(** A scheduler whose queue did not change. *)
Lemma scheduler_push s s' i p id sc : jobs s' = jobs s ++ [Job i new_handshake p] -> mLayers s' = mLayers s ->
  scheduler_ok s id sc -> scheduler_ok s' id sc.
Proof.
  intros Ej El [S1 S2 S3 S4 S5 S6 S7]. assert (Hev : forall k, event_of s' k = event_of s k) by (intros k; by apply (event_of_push s s' i k p)).
  split; try done; unfold released in *.
  - by rewrite El.
  - intros k Hk. destruct (S5 k Hk) as (j & Hj & Hb). exists j. split; [|done]. rewrite Ej. by apply lookup_app_l_Some.
  - intros k Hk. rewrite Hev. by apply S6.
  - intros k Hk. unfold released. rewrite Hev. by apply S7.
Qed.

(** A buffer for a scheduler that is there. *)
Lemma scheduler_add s s' i p id sc dims : inv s -> jobs s' = jobs s ++ [Job i new_handshake p] -> mLayers s' = mLayers s ->
  is_buffer_of id (Job i new_handshake p) ->
  scheduler_ok s id sc -> scheduler_ok s' id (addEvent {| event := length (jobs s); dimensions := dims |} sc).
Proof.
  intros H Ej El Hb Hsc. destruct (scheduler_push s s' i p id sc Ej El Hsc) as [S1 [S2 S2'] S3 S4 S5 S6 S7].
  pose proof (so_jobs _ _ _ Hsc) as Hold. set (k := length (jobs s)) in *.
  assert (Eq : queue_ids (addEvent {| event := k; dimensions := dims |} sc) = queue_ids sc ++ [k]).
  { unfold queue_ids. cbn [mBufferEvents addEvent]. by rewrite map_app. }
  assert (Hk : event_of s' k = new_handshake) by (unfold event_of, k; by rewrite Ej, lookup_app_r, Nat.sub_diag by lia).
  split; rewrite ?Eq.
  - apply (notified_ok sc); [done|done|by eexists|done].
  - split; [done|]. cbn [pc addEvent]. by destruct (pc sc).
  - done.
  - apply StronglySorted_app_2; [|done|by repeat constructor]. intros x y Hx ->%list_elem_of_singleton.
    destruct (Hold x Hx) as (j & Hj & _). by apply lookup_lt_Some in Hj.
  - intros x [Hx| ->%list_elem_of_singleton]%elem_of_app; [by apply S5|]. exists (Job i new_handshake p). split; [|done].
    unfold k. by rewrite Ej, lookup_app_r, Nat.sub_diag by lia.
  - intros x Hx. destruct (queue_ids sc) as [|y l] eqn:Eq'; [by apply not_elem_of_nil in Hx|]. cbn [tail app] in Hx.
    apply elem_of_app in Hx as [Hx|Hx]; [by apply S6|]. apply list_elem_of_singleton in Hx as ->. done.
  - intros x Hx. cbn [pc addEvent]. apply front_notified. pose proof (ok_busy _ S1) as Hbusy. unfold queue_ids in *.
    destruct (mBufferEvents sc) as [|y l] eqn:Eq'; [|by apply S7]. cbn in Hx. injection Hx as <-.
    destruct (pc sc); try done; by destruct (Hbusy eq_refl).
Qed.

(** Everything but the main thread. *)
Record others (s : replayer) : Prop := {
  o_shaken : forall k, shaken (event_of s k);
  o_trace : forall k j, jobs s !! k = Some j -> mTrace !! k = Some (j_increment j);
  o_jobs : forall k j, jobs s !! k = Some j -> job_ok k (increment (j_increment j)) (j_event j) (j_pc j);
  o_layers : layers_ok s;
  o_displays : displays_ok s;
  o_schedulers : forall id sc, scheduler_of id (mBufferQueueSchedulers s) = Some sc -> scheduler_ok s id sc;
  o_keys : NoDup (map fst (mBufferQueueSchedulers s));
  o_buffers : forall k j id, jobs s !! k = Some j -> is_buffer_of id j ->
    exists sc, scheduler_of id (mBufferQueueSchedulers s) = Some sc /\ (k ∈ queue_ids sc \/ released s k);
}.

Lemma others_inv s s' : others s -> jobs s' = jobs s -> mLayers s' = mLayers s -> mDisplays s' = mDisplays s ->
  mBufferQueueSchedulers s' = mBufferQueueSchedulers s -> automatic (console_ s') -> main_ok s' -> main_events s' -> inv s'.
Proof.
  intros [H1 H5 H6 H7 H8 H9 H10 H11] Ej El Ed Es Hc Hm He. pose proof (event_of_same s s' Ej) as Hev.
  unfold layers_ok, displays_ok, released in *. split; try done; unfold layers_ok, displays_ok, released; rewrite ?Ej, ?El, ?Ed, ?Es; try done.
  - intros k. by rewrite Hev.
  - intros id sc Hsc. apply (scheduler_ok_same s); [done|done|by apply H9].
  - intros k j id Hj Hb. destruct (H11 k j id Hj Hb) as (sc & Hsc & Hq). exists sc. by rewrite Hev.
Qed.

Lemma inv_others s : inv s -> others s.
Proof. by intros []. Qed.

Lemma scheduler_of_None id l : scheduler_of id l = None -> id ∉ map fst l.
Proof.
  unfold scheduler_of. induction l as [|[x sc] l IH]; cbn [map fst List.find]; [by intros _ ?%not_elem_of_nil|].
  destruct (Z.eqb_spec x id) as [->|Hne]; [done|]. intros E [->|Hin]%elem_of_cons; [done|by apply IH].
Qed.

(** A new job that is not a buffer. *)
Lemma others_plain s s1 i p : inv s -> mTrace !! length (jobs s) = Some i -> start_of (increment i) = Some p ->
  jobs s1 = jobs s ++ [Job i new_handshake p] -> mLayers s1 = mLayers s -> mDisplays s1 = mDisplays s ->
  mBufferQueueSchedulers s1 = mBufferQueueSchedulers s -> (forall id, ~ is_buffer_of id (Job i new_handshake p)) -> others s1.
Proof.
  intros H Hi Hp Ej El Ed Es Hnb. destruct (push_jobs s s1 i p H Ej Hi El Ed Hp) as (P1 & P2 & P3 & P4 & P5). split; try done.
  - intros id sc. rewrite Es. intros Hsc. apply (scheduler_push s s1 i p); [done|done|by apply (i_schedulers _ H)].
  - rewrite Es. apply (i_keys _ H).
  - intros k j id Hj Hb. rewrite Es. destruct (job_push s s1 i p k j Ej Hj) as [Hk|[-> ->]]; [|by destruct (Hnb id)].
    destruct (i_buffers _ H k j id Hk Hb) as (sc & Hsc & Hq). exists sc. split; [done|]. unfold released.
    by rewrite (event_of_push s s1 i k p Ej).
Qed.

(** A new buffer, that the scheduler of its layer has got. *)
Lemma others_buffer s s1 i p id sc' l : inv s -> mTrace !! length (jobs s) = Some i -> start_of (increment i) = Some p ->
  jobs s1 = jobs s ++ [Job i new_handshake p] -> mLayers s1 = mLayers s -> mDisplays s1 = mDisplays s ->
  is_buffer_of id (Job i new_handshake p) ->
  (forall id0, scheduler_of id0 l = if decide (id0 = id) then Some sc' else scheduler_of id0 (mBufferQueueSchedulers s)) ->
  NoDup (map fst l) -> scheduler_ok s1 id sc' -> length (jobs s) ∈ queue_ids sc' ->
  (forall sc k, scheduler_of id (mBufferQueueSchedulers s) = Some sc -> k ∈ queue_ids sc -> k ∈ queue_ids sc') ->
  others (with_schedulers l s1).
Proof.
  intros H Hi Hp Ej El Ed Hb0 Hl Hnd Hsc' Hk Hmore. destruct (push_jobs s s1 i p H Ej Hi El Ed Hp) as (P1 & P2 & P3 & P4 & P5).
  split; try done.
  - intros id0 sc. cbn [mBufferQueueSchedulers with_schedulers]. rewrite Hl. case_decide.
    + subst id0. intros [= <-]. by apply (scheduler_ok_same s1).
    + intros Hsc. apply (scheduler_ok_same s1); [done|done|]. apply (scheduler_push s s1 i p); [done|done|by apply (i_schedulers _ H)].
  - intros k j id0 Hj Hb. cbn [mBufferQueueSchedulers with_schedulers]. rewrite Hl. unfold released.
    rewrite (event_of_same s1 (with_schedulers l s1)), (event_of_push s s1 i k p Ej) by done.
    destruct (job_push s s1 i p k j Ej Hj) as [Hx|[-> ->]].
    + destruct (i_buffers _ H k j id0 Hx Hb) as (sc0 & Hsc0 & Hq). case_decide; [subst id0|by exists sc0].
      exists sc'. split; [done|]. destruct Hq as [Hq|Hq]; [left; by apply (Hmore sc0)|by right].
    + rewrite (buffer_unique _ _ _ Hb Hb0), decide_True by done. exists sc'. split; [done|by left].
Qed.

(** A new job, with its buffer at its scheduler if it has one. *)
Lemma others_dispatch s i p : inv s -> mTrace !! length (jobs s) = Some i -> start_of (increment i) = Some p ->
  let s1 := with_jobs (jobs s ++ [Job i new_handshake p]) (with_pending (mPendingIncrements s ++ [length (jobs s)]) s) in
  match increment i with
  | kBufferUpdate id w h _ => others (dispatch_buffer black id {| event := length (jobs s); dimensions := {| width := w; height := h |} |} s1)
  | _ => others s1
  end.
Proof.
  intros H Hi Hp s1. assert (Ej : jobs s1 = jobs s ++ [Job i new_handshake p]) by done.
  destruct (increment i) as [| | |id w h fr| | | | |] eqn:Ei;
    try (apply (others_plain s s1 i p); rewrite ?Ei; try done; intros id0 Hb'; unfold is_buffer_of in Hb'; cbn in Hb'; by rewrite Ei in Hb').
  assert (Hb0 : is_buffer_of id (Job i new_handshake p)) by (unfold is_buffer_of; cbn; by rewrite Ei).
  set (e := {| event := length (jobs s); dimensions := {| width := w; height := h |} |}). unfold dispatch_buffer.
  assert (Hthere : forall sc, length (jobs s) ∈ queue_ids (addEvent e sc)).
  { intros sc. unfold queue_ids. cbn [mBufferEvents addEvent]. rewrite map_app. apply elem_of_app. right. left. }
  assert (Hmore : forall sc k, k ∈ queue_ids sc -> k ∈ queue_ids (addEvent e sc)).
  { intros sc k. unfold queue_ids. cbn [mBufferEvents addEvent]. rewrite map_app. intros Hx. apply elem_of_app. by left. }
  change (mBufferQueueSchedulers s1) with (mBufferQueueSchedulers s).
  destruct (scheduler_of id (mBufferQueueSchedulers s)) as [sc|] eqn:Esc.
  - apply (others_buffer s s1 i p id (addEvent e sc)); rewrite ?Ei; try done.
    + intros id0. rewrite scheduler_of_on. case_decide; [by rewrite Esc|done].
    + rewrite keys_on_scheduler. apply (i_keys _ H).
    + apply (scheduler_add s s1 i p); try done. by apply (i_schedulers _ H).
    + intros sc0 k. rewrite Esc. intros [= <-]. apply Hmore.
  - apply (others_buffer s s1 i p id (addEvent e (new_scheduler (mLayers s !! id) (default black (mColors s !! id))))); rewrite ?Ei; try done.
    + intros id0. by rewrite scheduler_of_snoc.
    + rewrite map_app. apply NoDup_app. split_and!; [apply (i_keys _ H)| |apply NoDup_singleton].
      intros x Hx ->%list_elem_of_singleton. by apply (scheduler_of_None id (mBufferQueueSchedulers s)).
    + apply (scheduler_add s s1 i p); try done. split; try done; [by constructor|by intros x ?%not_elem_of_nil..].
    + intros sc k. by rewrite Esc.
Qed.

(** Every increment of the trace can be dispatched. *)
Lemma dispatched s status s' : inv s -> dispatchEvent mTrace black (length (jobs s)) s = Some (status, s') ->
  status = NO_ERROR /\ others s' /\ (exists j, jobs s' = jobs s ++ [j]) /\ (forall k, event_of s' k = event_of s k) /\
  mPendingIncrements s' = mPendingIncrements s ++ [length (jobs s)] /\ mIncrementIndex s' = mIncrementIndex s /\
  main_ s' = main_ s /\ console_ s' = console_ s.
Proof.
  intros H. unfold dispatchEvent. destruct (mTrace !! length (jobs s)) as [i|] eqn:Hi; [|done]. cbv zeta. cbn [jobs with_pending].
  pose proof (wf_increments wf _ _ Hi) as Hr. assert (Hp : exists p, start_of (increment i) = Some p) by (destruct (increment i); try done; by eexists).
  destruct Hp as [p Hp]. rewrite Hp. cbn [default]. pose proof (others_dispatch s i p H Hi Hp) as Ho. cbv zeta in Ho.
  set (s1 := with_jobs _ _) in *. assert (Hev : forall k, event_of s1 k = event_of s k) by (intros k; by eapply event_of_push).
  destruct (increment i); try done; intros [= <- <-]; (split; [done|]); (split; [exact Ho|]);
    try (split_and!; [by eexists|exact Hev|done..]).
  unfold dispatch_buffer. destruct (scheduler_of _ _); split_and!; try done; by eexists.
Qed.

(** ** The main thread *)

Lemma jobs_in_trace s : inv s -> (length (jobs s) <= size)%nat.
Proof.
  intros H. destruct (length (jobs s)) as [|d] eqn:E; [lia|]. destruct (lookup_lt_is_Some_2 (jobs s) d) as [j Hj]; [lia|].
  pose proof (i_trace _ H d j Hj) as Ht. apply lookup_lt_Some in Ht. unfold size. lia.
Qed.

(** The main thread goes on, nothing else changes. *)
Lemma inv_main s s' : inv s -> jobs s' = jobs s -> mLayers s' = mLayers s -> mDisplays s' = mDisplays s ->
  mBufferQueueSchedulers s' = mBufferQueueSchedulers s -> automatic (console_ s') -> main_ok s' -> main_events s' -> inv s'.
Proof. intros H. apply others_inv. by apply inv_others. Qed.

Lemma automatic_go c now : automatic c -> check_stop now c = c /\ waitForConsoleCommmand c = Go c.
Proof. intros (Hm & Hs & _). unfold check_stop, waitForConsoleCommmand. by rewrite Hs, Hm. Qed.

Lemma inv_loop s s' : inv s -> main_ s = Loop -> next_event mTrace s = Some s' -> inv s'.
Proof.
  intros H Hm. pose proof (i_main _ H) as Hok. pose proof (i_events _ H) as Hev. pose proof (jobs_in_trace s H) as Hsize.
  pose proof (wf_threads wf) as Hn. unfold main_ok in Hok. rewrite Hm in Hok. destruct Hok as (Hd & Hp & Hle).
  unfold next_event. rewrite Hp. destruct (length (jobs s) - mIncrementIndex s)%nat as [|n] eqn:En; cbn [seq].
  - intros [= <-]. apply (inv_main s); try done; [apply (i_console _ H)| |].
    + cbn. split; [done|]. lia.
    + intros k. destruct (Hev k) as [H1 H2]. split; [exact H1|]. intros Hk _. apply H2; [exact Hk|]. by rewrite Hm.
  - destruct (mTrace !! mIncrementIndex s) as [i|] eqn:Hi; [|apply lookup_ge_None in Hi; unfold size in *; lia].
    destruct (automatic_go (console_ s) (time_stamp i) (i_console _ H)) as [-> ->]. intros [= <-].
    apply (inv_main s); try done; [apply (i_console _ H)| |].
    + cbn. split_and!; [done|lia|done|]. f_equal. lia.
    + intros k. destruct (Hev k) as [H1 H2]. split; [exact H1|]. intros Hk _. apply H2; [exact Hk|]. by rewrite Hm.
Qed.

Lemma inv_init i s : inv s -> main_ s = InitReplay i -> inv (initReplay mTrace mNumThreads black i s).
Proof.
  intros H Hm. pose proof (i_main _ H) as Hok. pose proof (i_events _ H) as Hev. unfold main_ok in Hok. rewrite Hm in Hok.
  destruct Hok as (Hd & Hp & Hidx & Hn & Hsize). unfold initReplay.
  assert (Hev0 : forall p s0, (forall k, event_of s0 k = event_of s k) -> mIncrementIndex s0 = mIncrementIndex s -> main_events (at_main p s0)).
  { intros p s0 He Hi k. destruct (Hev k) as [H1 H2]. unfold event_of in *. cbn [jobs at_main mIncrementIndex] in *. rewrite He, Hi.
    split; [exact H1|]. intros Hk _. apply H2; [exact Hk|]. by rewrite Hm. }
  destruct ((i <? mNumThreads)%nat && (i <? length mTrace)%nat) eqn:Eb.
  - apply andb_true_iff in Eb as [E1%Nat.ltb_lt E2%Nat.ltb_lt]. rewrite <- Hd.
    destruct (dispatchEvent mTrace black (length (jobs s)) s) as [[status s1]|] eqn:Ed.
    + destruct (dispatched s status s1 H Ed) as (-> & Ho & [j Ej] & Hev1 & Hp1 & Hi1 & Hm1 & Hc1). cbn [NO_ERROR Z.eqb].
      apply (others_inv s1); try done; [cbn; rewrite Hc1; apply (i_console _ H)| |by apply Hev0].
      cbn. rewrite Ej, length_app, Hp1, Hp, Hi1, Hidx, Hd. cbn [length]. split_and!; [lia| |done|lia|unfold size; lia].
      symmetry. exact (seq_S i 0).
    + unfold dispatchEvent in Ed. destruct (mTrace !! length (jobs s)) eqn:Hi; [by destruct (increment i0)|].
      apply lookup_ge_None in Hi. lia.
  - apply (inv_main s); try done; [apply (i_console _ H)| |by apply Hev0]. cbn. rewrite Hidx, Hd, Hp.
    apply andb_false_iff in Eb as [E%Nat.ltb_ge|E%Nat.ltb_ge]; unfold size in *; split_and!; try lia; f_equal; lia.
Qed.

Lemma inv_completed k s : inv s -> main_ s = Completing k -> h_main (event_of s k) = [] -> inv (completed mTrace mNumThreads black k s).
Proof.
  intros H Hm Hk. pose proof (i_main _ H) as Hok. pose proof (i_events _ H) as Hev. pose proof (jobs_in_trace s H) as Hsize.
  unfold main_ok in Hok. rewrite Hm in Hok. destruct Hok as (-> & Hlt & Hd & Hp). rewrite completed_eq by (first [exact (wf_width wf)|unfold size in *; lia]).
  set (s1 := match jobs s !! _ with Some _ => _ | None => _ end).
  assert (H1 : inv s1 /\ jobs s1 = jobs s /\ main_ s1 = main_ s /\ mIncrementIndex s1 = mIncrementIndex s /\ mPendingIncrements s1 = mPendingIncrements s).
  { unfold s1. destruct (jobs s !! _) as [j|]; [|done]. destruct (is_vsync _); [|done]. split; [|done]. apply (inv_main s); try done; [|exact (i_main _ H)].
    destruct (i_console _ H) as (A & B & C). by split_and!. }
  clearbody s1. destruct H1 as (H1 & Ej & Em & Ei & Ep). cbv zeta. rewrite Ei.
  assert (Hev0 : forall s0, (forall k, event_of s0 k = event_of s k) -> mIncrementIndex s0 = mIncrementIndex s -> main_events (at_main Loop (next_index s0))).
  { intros s0 He Hi k. destruct (Hev k) as [E1 E2]. unfold event_of in *. cbn [jobs at_main next_index mIncrementIndex] in *. rewrite He, Hi.
    split; [intros Hlt'|intros Hle _].
    - destruct (decide (k = mIncrementIndex s)) as [->|]; [exact Hk|apply E1; lia].
    - apply E2; [lia|]. rewrite Hm. intros [= E]. lia. }
  pose proof (event_of_same s s1 Ej) as He1.
  destruct (mIncrementIndex s + mNumThreads <? length mTrace)%nat eqn:Eb.
  - apply Nat.ltb_lt in Eb. assert (Hlen : (mIncrementIndex s + mNumThreads)%nat = length (jobs s1)) by (rewrite Ej; unfold size in *; lia).
    rewrite Hlen. destruct (dispatchEvent mTrace black (length (jobs s1)) s1) as [[status s2]|] eqn:Ed.
    + destruct (dispatched s1 status s2 H1 Ed) as (-> & Ho & [j Ej2] & Hev1 & Hp1 & Hi1 & Hm1 & Hc1). cbn [NO_ERROR Z.eqb].
      apply (others_inv s2); try done; [cbn; rewrite Hc1; apply (i_console _ H1)| |].
      * unfold main_ok. cbn [main_ at_main next_index jobs mPendingIncrements mIncrementIndex].
        rewrite Ej2, length_app, Hp1, Ep, Hp, Hi1, Ei, Ej. cbn [length]. split_and!; [unfold size in *; lia| |lia].
        replace (length (jobs s) + 1 - S (mIncrementIndex s))%nat with (S (length (jobs s) - S (mIncrementIndex s)))%nat by lia.
        rewrite seq_S. do 2 f_equal. lia.
      * apply Hev0; [intros k; by rewrite Hev1, He1|by rewrite Hi1].
    + unfold dispatchEvent in Ed. destruct (mTrace !! length (jobs s1)) eqn:Hi; [by destruct (increment i)|].
      apply lookup_ge_None in Hi. lia.
  - apply Nat.ltb_ge in Eb. apply (inv_main s1); try done; [apply (i_console _ H1)| |by apply Hev0].
    unfold main_ok. cbn [main_ at_main next_index jobs mPendingIncrements mIncrementIndex].
    rewrite Ej, Ei, Ep, Hp. unfold size in *. split_and!; [lia|done|lia].
Qed.

Lemma inv_replay s s' : inv s -> replay mTrace mNumThreads black s = Some s' -> inv s'.
Proof.
  intros H. unfold replay. destruct (main_ s) as [|i| |k|st| | |st] eqn:Hm; try done.
  - rewrite (wf_client wf). cbn [NO_ERROR Z.eqb]. intros [= <-]. pose proof (i_main _ H) as Hok. unfold main_ok in Hok.
    rewrite Hm in Hok. destruct Hok as (Hd & Hp & Hi). apply (inv_main s); try done; [apply (i_console _ H)| |].
    + cbn. split_and!; try done; lia.
    + intros k. destruct (i_events _ H k) as [H1 H2]. split; [exact H1|]. intros Hk _. apply H2; [exact Hk|]. by rewrite Hm.
  - intros [= <-]. by apply inv_init.
  - by apply inv_loop.
  - destruct (h_main (event_of s k)) as [|x l] eqn:Ek; [intros [= <-]; by apply inv_completed|].
    intros E. apply fmap_Some in E as (h & Hh & ->). pose proof (i_main _ H) as Hok. unfold main_ok in Hok. rewrite Hm in Hok.
    destruct Hok as (Eidx & Hlt & _). rewrite <- Eidx in Hlt. destruct (lookup_lt_is_Some_2 (jobs s) k Hlt) as [j Hj].
    rewrite (event_of_job s k j Hj) in Hh. pose proof (i_jobs _ H k j Hj) as Hjob.
    assert (Hnew : event_of s k <> new_handshake) by (rewrite (event_of_job s k j Hj); intros E; by rewrite E in Hh).
    assert (Hw : h_worker h = h_worker (j_event j)) by by apply main_step_worker.
    apply (inv_event k h s j); [done|done|by apply guard_step_main| | |by rewrite Hw|by right].
    + rewrite (event_of_job s k j Hj) in Hnew. destruct (increment (j_increment j)), (j_pc j); cbn in *; rewrite ?Hw; try done; by destruct Hjob.
    + intros id sc Hid. pose proof (i_schedulers _ H id sc Hid) as Hsc. split; [intros Ht; by apply Hnew, (so_rest _ _ _ Hsc)|].
      intros Hk. pose proof (so_front _ _ _ Hsc k Hk) as Hf. by destruct (pc sc).
  - intros [= <-]. pose proof (i_main _ H) as Hok. unfold main_ok in Hok. rewrite Hm in Hok. destruct Hok as (-> & Hok).
    apply (inv_main s); try done; [apply (i_console _ H)|]. intros k. destruct (i_events _ H k) as [H1 H2].
    split; [exact H1|]. intros Hk _. apply H2; [exact Hk|]. by rewrite Hm.
  - pose proof (i_main _ H) as Hok. unfold main_ok in Hok. by rewrite Hm in Hok.
  - pose proof (i_main _ H) as Hok. unfold main_ok in Hok. by rewrite Hm in Hok.
Qed.

Lemma inv_step s s' : inv s -> step s s' -> inv s'.
Proof.
  intros H [t Ht]. unfold thread_step in Ht. destruct (ended s); [done|]. destruct t as [|k|id|].
  - by apply (inv_replay s).
  - by apply (inv_worker k s).
  - by apply (inv_layer id s).
  - destruct (i_console _ H) as (_ & _ & Et). by rewrite Et in Ht.
Qed.

Lemma inv_start stop waiting stopped lines : (stop <? 0)%Z = true -> inv (new_replayer false stop waiting stopped lines).
Proof.
  intros Hs. split; try done.
  - intros k. apply shaken_new.
  - split_and!; [done| |done]. cbn. by rewrite Hs.
  - intros k. cbn. split; [lia|done].
  - constructor.
Qed.

Lemma inv_reachable stop waiting stopped lines s : (stop <? 0)%Z = true ->
  rtc step (new_replayer false stop waiting stopped lines) s -> inv s.
Proof.
  intros Hs H. remember (new_replayer _ _ _ _ _) as s0 eqn:E. assert (H0 : inv s0) by (subst; by apply inv_start). clear E.
  induction H as [|s0 s1 s Hst _ IH]; [done|]. apply IH. by apply (inv_step s0).
Qed.

End Invariant.
