(* ===== verification/ReplayEffects.v ===== *)
(** What has become of the increments: the call that an increment stands for
    has reached SurfaceFlinger once its thread has finished, or its buffer has
    left the queue of its layer. *)

From S2P Require Import Prelude CLib ReplayEvent ReplayScheduler Replayer ReplayOrder ReplayInvariant.
From stdpp Require Import relations.

(** The call of an increment. *)
Definition carries (i : increment_case) (e : effect) : Prop :=
  match i, e with
  | kTransaction _ _ synchronous _, applyTransaction _ synchronous' => synchronous' = synchronous
  | kSurfaceCreation _ name w h, createdSurface name' w' h' => name' = name /\ w' = w /\ h' = h
  | kBufferUpdate _ _ _ _, onSurface (unlockAndPost _) => True
  | kVsyncEvent when_, injectVSync when_' => when_' = when_
  | kDisplayCreation _ name _ secure, createdDisplay name' secure' => name' = name /\ secure' = secure
  | kDisplayDeletion _, destroyDisplay _ => True
  | kPowerModeUpdate _ mode, setDisplayPowerMode _ mode' => mode' = mode
  | _, _ => False
  end.

Section Effects.
Context {colors : Colors} {composer : Composer}.
Context (mTrace : list Increment) (mNumThreads : nat) (black : HSV).

Abbreviation step := (step mTrace mNumThreads black).
Abbreviation inv := (inv mTrace mNumThreads).

Definition carried (s : replayer) (k : nat) (i : increment_case) : Prop := exists e, (Some k, e) ∈ log s /\ carries i e.
Definition posted (s : replayer) (k : nat) : Prop := exists surface, (Some k, onSurface (unlockAndPost surface)) ∈ log s.

Definition queued (s : replayer) (k : nat) (id : Z) : Prop :=
  exists sc, scheduler_of id (mBufferQueueSchedulers s) = Some sc /\ k ∈ queue_ids sc.

(** A buffer that is about to leave its queue. *)
Definition popping (s : replayer) (k : nat) (id : Z) : Prop :=
  exists sc, scheduler_of id (mBufferQueueSchedulers s) = Some sc /\ pc sc = Popping /\ head (queue_ids sc) = Some k.

(** The thread has made its call. *)
Definition called (p : job_pc) : bool := match p with Publishing _ | Finished => true | _ => false end.

Record told (s : replayer) : Prop := {
  to_jobs : forall k j, jobs s !! k = Some j -> called (j_pc j) = true -> carried s k (increment (j_increment j));
  to_popping : forall k id, popping s k id -> posted s k;
  to_buffers : forall k j id, jobs s !! k = Some j -> is_buffer_of id j -> queued s k id \/ posted s k;
}.

Lemma told_step s s' : told s -> log s ⊆ log s' ->
  (forall k j', jobs s' !! k = Some j' -> called (j_pc j') = true -> carried s' k (increment (j_increment j')) \/
     exists j, jobs s !! k = Some j /\ j_increment j' = j_increment j /\ called (j_pc j) = true) ->
  (forall k id, popping s' k id -> posted s' k \/ popping s k id) ->
  (forall k j' id, jobs s' !! k = Some j' -> is_buffer_of id j' -> queued s' k id \/
     exists j, jobs s !! k = Some j /\ j_increment j' = j_increment j) ->
  (forall k id, queued s k id -> queued s' k id \/ posted s' k) -> told s'.
Proof.
  intros [H1 H2 H3] Hl Hj Hp Hb Hq. assert (Hposted : forall k, posted s k -> posted s' k) by (intros k [sf E]; exists sf; by apply Hl). split.
  - intros k j' Hk Hc. destruct (Hj k j' Hk Hc) as [Hc'|(j & Hj' & Ei & Hc')]; [done|]. destruct (H1 k j Hj' Hc') as (e & He & Hi).
    exists e. rewrite Ei. split; [by apply Hl|done].
  - intros k id Hk. destruct (Hp k id Hk) as [Hk'|Hk']; [done|]. by eapply Hposted, H2.
  - intros k j' id Hk Hid. destruct (Hb k j' id Hk Hid) as [Hq'|(j & Hj' & Ei)]; [by left|].
    destruct (H3 k j id Hj') as [Hq'|Hq']; [unfold is_buffer_of in *; by rewrite <- Ei|by apply Hq|right; by apply Hposted].
Qed.

(** Where the buffers are as they were. *)
Lemma told_jobs s s' : told s -> log s ⊆ log s' -> mBufferQueueSchedulers s' = mBufferQueueSchedulers s ->
  (forall k j', jobs s' !! k = Some j' -> exists j, jobs s !! k = Some j /\ j_increment j' = j_increment j /\
     (called (j_pc j') = true -> called (j_pc j) = true \/ carried s' k (increment (j_increment j')))) -> told s'.
Proof.
  intros H Hl Es Hj. apply (told_step s); try done.
  - intros k j' Hk Hc. destruct (Hj k j' Hk) as (j & Hj' & Ei & Hcall). destruct (Hcall Hc) as [Hc'|Hc']; [right; by exists j|by left].
  - intros k id. unfold popping. rewrite Es. by right.
  - intros k j' id Hk _. destruct (Hj k j' Hk) as (j & Hj' & Ei & _). right. by exists j.
  - intros k id. unfold queued. rewrite Es. by left.
Qed.

Lemma told_same s s' : told s -> log s ⊆ log s' -> mBufferQueueSchedulers s' = mBufferQueueSchedulers s -> jobs s' = jobs s -> told s'.
Proof. intros H Hl Es Ej. apply (told_jobs s); try done. rewrite Ej. intros k j Hk. exists j. split_and!; [done..|by left]. Qed.

Lemma told_say who es s : told s -> told (say who es s).
Proof. intros H. apply (told_same s); try done. cbn [log say]. intros x Hx. apply elem_of_app. by left. Qed.

Lemma told_event k h s : told s -> told (set_job k (set_event h) s).
Proof.
  intros H. destruct (set_event_same k h s) as (_ & _ & E3 & E4). apply (told_jobs s); [done|by rewrite E4|done|].
  intros i j' [[Hi Hj]|(-> & j0 & Hj0 & ->)]%job_after; [exists j'|exists j0]; (split_and!; [done..|by left]).
Qed.

(** A job goes on; its call has been made if it says so. *)
Lemma told_pc k p s : told s -> (forall j, jobs s !! k = Some j -> called p = true -> called (j_pc j) = true \/ carried s k (increment (j_increment j))) ->
  told (set_job k (set_job_pc p) s).
Proof.
  intros H Hp. destruct (jobs s !! k) as [j|] eqn:Hj; [|by unfold set_job; rewrite Hj].
  apply (told_jobs s); try done; try by rewrite (set_job_eq k _ s j Hj).
  intros i j' [[Hi Hj']|(-> & j0 & Hj0 & ->)]%job_after; [exists j'; split_and!; [done..|by left]|exists j0].
  rewrite Hj in Hj0. injection Hj0 as <-. split_and!; [done..|]. intros Hc. destruct (Hp j eq_refl Hc) as [Hc'|(e & He & Hi)]; [by left|right].
  exists e. split; [|done]. by rewrite (set_job_eq k _ s j Hj).
Qed.

Lemma told_publish id surface s : told s -> told (publish id surface s).
Proof.
  intros H. apply (told_step s); try done; cbn [log publish jobs].
  - intros k j Hk Hc. right. by exists j.
  - intros k i (sc & Hsc & Hp & Hh). right. cbn [mBufferQueueSchedulers publish] in Hsc. rewrite scheduler_of_on in Hsc. case_decide; [subst i|by exists sc].
    apply fmap_Some in Hsc as (sc0 & Hsc0 & ->). exists sc0. split_and!; [done| |done]. cbn [pc setSurfaceControl] in Hp. by destruct (pc sc0).
  - intros k j i Hk Hb. right. by exists j.
  - intros k i (sc & Hsc & Hq). left. unfold queued. cbn [mBufferQueueSchedulers publish]. rewrite scheduler_of_on.
    case_decide; [subst i; rewrite Hsc|]; by eexists.
Qed.

(** ** The threads *)

Lemma told_act k ops s j : told s -> jobs s !! k = Some j -> told (act k (increment (j_increment j)) ops s).
Proof.
  intros H Hj.
  assert (Hfin : forall p e s0, jobs s0 = jobs s -> log s0 = log (say (Some k) [e] s) -> mBufferQueueSchedulers s0 = mBufferQueueSchedulers s ->
    carries (increment (j_increment j)) e -> told (set_job k (set_job_pc p) s0)).
  { intros p e s0 Ej El Es Hc. assert (H0 : told s0).
    { apply (told_same (say (Some k) [e] s)); [by apply told_say|by rewrite El|done|done]. }
    apply told_pc; [done|]. rewrite Ej, Hj. intros j0 [= <-] _. right. exists e. split; [|done]. rewrite El. cbn [log say].
    apply elem_of_app. right. left. }
  unfold act. cbv zeta. destruct (increment (j_increment j)); try done; by eapply Hfin.
Qed.

Lemma told_worker k s s' : told s -> worker_thread k s = Some s' -> told s'.
Proof.
  intros H. unfold worker_thread. destruct (jobs s !! k) as [j|] eqn:Hj; [|done]. cbv zeta.
  assert (Hpc : forall p, called p = false -> told (set_job k (set_job_pc p) s)) by (intros p Hp; apply told_pc; [done|by rewrite Hp]).
  destruct (j_pc j) as [changes ops|changes ops|ops|ops|surface| | |] eqn:Ep; try done.
  - destruct (increment (j_increment j)); try done. unfold doSurfaceTransaction. destruct changes as [|c rest]; [intros [= <-]; by apply Hpc|].
    destruct (mLayers s !! sc_id c); [|done]. destruct (surface_op _ _ _); [|done]. intros [= <-]. apply Hpc. by destruct (sc_change c).
  - destruct (increment (j_increment j)); try done. unfold doDisplayTransaction. destruct changes as [|c rest]; [intros [= <-]; by apply Hpc|].
    destruct (mDisplays s !! dc_id c); [|done]. intros [= <-]. by apply Hpc.
  - destruct (h_worker (j_event j)); [intros [= <-]; by apply Hpc|]. intros E. apply fmap_Some in E as (h & _ & ->). by apply told_event.
  - intros [= <-]. by apply told_act.
  - destruct (increment (j_increment j)) as [|id name w h| | | | | | |] eqn:Ei; try done. intros [= <-].
    apply told_pc; [by apply told_publish|]. cbn [jobs publish]. rewrite Hj. intros j0 [= <-] _. left. by rewrite Ep.
Qed.

Context (wf : well_formed mTrace mNumThreads).

(** A buffer leaves its queue after its post. *)
Lemma layer_pops s id sc sc' h calls : inv s -> scheduler_of id (mBufferQueueSchedulers s) = Some sc ->
  startScheduling lock_buffer (event_of s) sc = Some (sc', h, calls) ->
  (pc sc' = Popping -> queue_ids sc' = queue_ids sc /\ exists surface e, pc sc = Post surface e /\ head (queue_ids sc) = Some (event e) /\
     calls = [unlockAndPost surface]) /\
  (queue_ids sc' = queue_ids sc \/ pc sc = Popping /\ queue_ids sc' = tail (queue_ids sc)).
Proof.
  intros H Hid Hst. pose proof (i_schedulers _ _ _ H id sc Hid) as Hsc. pose proof (so_sched _ _ _ Hsc) as S1.
  pose proof (ok_current _ S1) as Hcur. destruct (run_ok _ _ _ _ _ _ S1 Hst) as (_ & _ & _ & Hq).
  assert (Hhead : forall e, current (pc sc) = Some e -> head (queue_ids sc) = Some (event e)).
  { intros e He. specialize (Hcur e He). unfold queue_ids. destruct (mBufferEvents sc); [done|]. by injection Hcur as ->. }
  assert (Hpick : forall sc0, pc (pick sc0) <> Popping) by (intros sc0; unfold pick; by destruct (mBufferEvents sc0)).
  unfold startScheduling in Hst. unfold queue_ids in *.
  destruct (pc sc) as [|[]| |e|e|surface e|surface e| |[]| |] eqn:Ep; try done; cbn [app] in Hq.
  1, 2: injection Hst as <- <- <-; split; [by destruct (mSurfaceControl sc)|by left].
  - injection Hst as <- <- <-. rewrite <- Hq. split; [|by left]. destruct (mContinueScheduling sc); [|done]. intros E. by apply Hpick in E.
  - rewrite <- Hq. split; [|by left]. destruct (mSurfaceControl sc); injection Hst as <- <- <-; done.
  - rewrite <- Hq. split; [|by left]. destruct (mSurfaceControl sc); [|by injection Hst as <- <- <-].
    destruct (current_job s id sc e Hsc ltac:(by rewrite Ep)) as (j & Hj & Hb).
    pose proof (wf_increments _ _ wf _ _ (i_trace _ _ _ H _ _ Hj)) as Hr. unfold is_buffer_of in Hb.
    destruct (increment (j_increment j)); try done. destruct Hr as [_ [buf Hbuf]]. unfold fillSurface in Hst. rewrite Hbuf in Hst.
    by injection Hst as <- <- <-.
  - rewrite <- Hq. split; [|by left]. destruct (h_worker _); [by injection Hst as <- <- <-|]. destruct (worker_step _); [|done].
    injection Hst as <- <- <-. by rewrite Ep.
  - injection Hst as <- <- <-. split; [|by left]. intros _. split; [done|]. exists surface, e. split_and!; [done| |done]. by apply Hhead.
  - injection Hst as <- <- <-. split; [intros E; by apply Hpick in E|]. right. split; [done|]. rewrite Hq at 2. destruct (mBufferEvents sc) as [|e l]; [done|].
    cbn [take]. by rewrite take_0.
  - injection Hst as <- <- <-. by split; [|left].
Qed.

Lemma told_layer id s s' : inv s -> told s -> layer_thread id s = Some s' -> told s'.
Proof.
  intros Hi H. unfold layer_thread. destruct (scheduler_of id _) as [sc|] eqn:Hid; [|done].
  destruct (startScheduling _ _ sc) as [[[sc' h] calls]|] eqn:Hst; [|done]. cbv zeta.
  destruct (layer_pops s id sc sc' h calls Hi Hid Hst) as [Hpop Hq].
  set (s1 := say _ _ _). assert (H1 : told s1).
  { apply (told_step s); [done|cbn [s1 log say with_schedulers]; intros x Hx; apply elem_of_app; by left| | | |].
    - intros k j Hk Hc. right. by exists j.
    - intros k i (sc0 & Hsc0 & Hp & Hh). cbn [s1 mBufferQueueSchedulers say with_schedulers] in Hsc0. rewrite scheduler_of_on in Hsc0.
      case_decide; [subst i|right; by exists sc0]. rewrite Hid in Hsc0. injection Hsc0 as <-. left.
      destruct (Hpop Hp) as (Eq & surface & e & Epost & Hhead & ->). rewrite Eq, Hhead in Hh. injection Hh as <-. exists surface.
      cbn [s1 log say]. rewrite Epost. cbn [current fmap option_fmap option_map map]. apply elem_of_app. right. left.
    - intros k j i Hk Hb. right. by exists j.
    - intros k i (sc0 & Hsc0 & Hk). destruct (decide (i = id)) as [->|Hne].
      + rewrite Hid in Hsc0. injection Hsc0 as <-.
        assert (Hnew : k ∈ queue_ids sc' -> queued s1 k id).
        { intros Hk'. exists sc'. split; [|done]. cbn [s1 mBufferQueueSchedulers say with_schedulers]. by rewrite scheduler_of_on, decide_True, Hid. }
        destruct Hq as [Eq|[Ep Eq]]; [left; apply Hnew; by rewrite Eq|]. destruct (queue_ids sc) as [|x l] eqn:El; [by apply not_elem_of_nil in Hk|].
        apply elem_of_cons in Hk as [->|Hk]; [right|left; apply Hnew; by rewrite Eq].
        destruct (to_popping s H x id) as [surface Hs]; [exists sc; by rewrite El|]. exists surface. cbn [s1 log say with_schedulers]. apply elem_of_app. by left.
      + left. exists sc0. split; [|done]. cbn [s1 mBufferQueueSchedulers say with_schedulers]. by rewrite scheduler_of_on, decide_False. }
  intros [= <-]. destruct h as [h|]; [|by destruct (event <$> current (pc sc))]. destruct (event <$> current (pc sc)); [by apply told_event|done].
Qed.

(** The schedulers after a buffer has come: the queues are longer. *)
Definition longer (l l' : list (Z * BufferQueueScheduler)) : Prop :=
  (forall id sc, scheduler_of id l = Some sc -> exists sc', scheduler_of id l' = Some sc' /\ queue_ids sc ⊆ queue_ids sc') /\
  (forall id sc' k, scheduler_of id l' = Some sc' -> pc sc' = Popping -> head (queue_ids sc') = Some k ->
     exists sc, scheduler_of id l = Some sc /\ pc sc = Popping /\ head (queue_ids sc) = Some k).

Lemma queue_ids_add e sc : queue_ids (addEvent e sc) = queue_ids sc ++ [event e].
Proof. unfold queue_ids. cbn [mBufferEvents addEvent]. by rewrite map_app. Qed.

Lemma longer_dispatch s id e : (forall i sc, scheduler_of i (mBufferQueueSchedulers s) = Some sc -> sched_ok sc) ->
  longer (mBufferQueueSchedulers s) (mBufferQueueSchedulers (dispatch_buffer black id e s)) /\
  queued (dispatch_buffer black id e s) (event e) id.
Proof.
  intros H. unfold dispatch_buffer. destruct (scheduler_of id (mBufferQueueSchedulers s)) as [sc|] eqn:Hid.
  - assert (Hthere : scheduler_of id (on_scheduler id (addEvent e) (mBufferQueueSchedulers s)) = Some (addEvent e sc)).
    { by rewrite scheduler_of_on, decide_True, Hid. }
    split; [split|exists (addEvent e sc); split; [done|rewrite queue_ids_add; apply elem_of_app; right; left]].
    + intros i sc0. cbn [mBufferQueueSchedulers with_schedulers]. rewrite scheduler_of_on. case_decide; [subst i|intros ->; by exists sc0].
      rewrite Hid. intros [= <-]. exists (addEvent e sc). split; [done|]. rewrite queue_ids_add. set_solver.
    + intros i sc0 k. cbn [mBufferQueueSchedulers with_schedulers]. rewrite scheduler_of_on. case_decide; [subst i|intros Hi; by exists sc0].
      rewrite Hid. intros [= <-] Hp Hh. exists sc. rewrite queue_ids_add in Hh. cbn [pc addEvent] in Hp.
      assert (Ep : pc sc = Popping) by (by destruct (pc sc)). split_and!; [done|done|].
      pose proof (ok_busy _ (H id sc Hid)) as Hb. rewrite Ep in Hb. specialize (Hb eq_refl).
      unfold queue_ids in *. by destruct (mBufferEvents sc).
  - set (sc := new_scheduler _ _). assert (Hl : forall i, scheduler_of i (mBufferQueueSchedulers s ++ [(id, addEvent e sc)]) =
      if decide (i = id) then Some (addEvent e sc) else scheduler_of i (mBufferQueueSchedulers s)) by (intros i; by apply scheduler_of_snoc).
    split; [split|exists (addEvent e sc); split; [cbn [mBufferQueueSchedulers with_schedulers]; by rewrite Hl, decide_True|left]].
    + intros i sc0 Hi. exists sc0. cbn [mBufferQueueSchedulers with_schedulers]. rewrite Hl. case_decide; [subst; by rewrite Hid in Hi|done].
    + intros i sc0 k. cbn [mBufferQueueSchedulers with_schedulers]. rewrite Hl. case_decide; [by intros [= <-]|intros Hi; by exists sc0].
Qed.

Lemma told_push s s1 i p l : told s -> jobs s1 = jobs s ++ [Job i new_handshake p] -> called p = false -> log s1 = log s ->
  mBufferQueueSchedulers s1 = l -> longer (mBufferQueueSchedulers s) l ->
  (forall id, is_buffer_of id (Job i new_handshake p) -> queued s1 (length (jobs s)) id) -> told s1.
Proof.
  intros H Ej Hp El Es [L1 L2] Hb. apply (told_step s); [done|by rewrite El| | | |].
  - intros k j Hk Hc. destruct (job_push s s1 i p k j Ej Hk) as [Hk'|[-> ->]]; [right; by exists j|by cbn in Hc; rewrite Hp in Hc].
  - intros k id (sc & Hsc & Hpc & Hh). rewrite Es in Hsc. right. by apply (L2 id sc k).
  - intros k j id Hk Hbuf. destruct (job_push s s1 i p k j Ej Hk) as [Hk'|[-> ->]]; [right; by exists j|left; by apply Hb].
  - intros k id (sc & Hsc & Hk). left. destruct (L1 id sc Hsc) as (sc' & Hsc' & Hsub). exists sc'. rewrite Es. split; [done|by apply Hsub].
Qed.

Lemma told_dispatch s status s' : inv s -> told s -> dispatchEvent mTrace black (length (jobs s)) s = Some (status, s') -> told s'.
Proof.
  intros Hi H. unfold dispatchEvent. destruct (mTrace !! length (jobs s)) as [i|] eqn:Ht; [|done]. cbv zeta. cbn [jobs with_pending].
  pose proof (wf_increments _ _ wf _ _ Ht) as Hr. assert (Hp : exists p, start_of (increment i) = Some p) by (destruct (increment i); try done; by eexists).
  destruct Hp as [p Hp]. rewrite Hp. cbn [default]. set (s1 := with_jobs _ _).
  assert (Hc : called p = false) by (destruct (increment i); try done; by injection Hp as <-).
  assert (Hplain : (forall id, ~ is_buffer_of id (Job i new_handshake p)) -> told s1).
  { intros Hn. apply (told_push s s1 i p (mBufferQueueSchedulers s)); try done; [|intros id Hb; by destruct (Hn id)].
    split; [intros id sc Hsc; by exists sc|intros id sc k Hsc; by exists sc]. }
  destruct (increment i) as [| | |id w h fr| | | | |] eqn:Ei; try done; intros [= <- <-];
    try (apply Hplain; intros id0 Hb; unfold is_buffer_of in Hb; cbn in Hb; by rewrite Ei in Hb).
  set (e := {| event := _; dimensions := _ |}).
  destruct (longer_dispatch s1 id e) as [Hl Hq]; [intros id0 sc Hsc; apply (so_sched s id0), (i_schedulers _ _ _ Hi), Hsc|].
  apply (told_push s _ i p (mBufferQueueSchedulers (dispatch_buffer black id e s1))); try done.
  - unfold dispatch_buffer. by destruct (scheduler_of id _).
  - unfold dispatch_buffer. by destruct (scheduler_of id _).
  - intros id0 Hb. unfold is_buffer_of in Hb. cbn in Hb. rewrite Ei in Hb. by subst id0.
Qed.

Lemma told_main p s : told s -> told (at_main p s).
Proof. intros H. by apply (told_same s). Qed.

Lemma told_replay s s' : inv s -> told s -> replay mTrace mNumThreads black s = Some s' -> told s'.
Proof.
  intros Hi H. pose proof (i_main _ _ _ Hi) as Hok. unfold main_ok in Hok. unfold replay. destruct (main_ s) as [|i| |k|st| | |st] eqn:Hm; try done.
  - destruct (initCheck =? NO_ERROR)%Z; intros [= <-]; [by apply told_main, told_say|by apply told_main].
  - intros [= <-]. unfold initReplay. destruct (_ && _); [|by apply told_main]. destruct Hok as (Hd & _).
    destruct (dispatchEvent _ _ i s) as [[st s1]|] eqn:Ed; [|by apply told_main]. rewrite <- Hd in Ed. by eapply told_main, told_dispatch.
  - unfold next_event. destruct (mPendingIncrements s); [intros [= <-]; by apply told_main, told_say|].
    destruct (mTrace !! mIncrementIndex s); [|intros [= <-]; by apply told_main].
    destruct (waitForConsoleCommmand _); [intros [= <-]..| |intros [= <-]]; try done; try by (apply (told_same s)).
    apply told_main, told_say. by apply (told_same s).
  - destruct (h_main (event_of s k)) eqn:Ek; [intros [= <-]|intros E; apply fmap_Some in E as (h & _ & ->); by apply told_event].
    destruct Hok as (-> & Hlt & Hd & _).
    pose proof (jobs_in_trace _ _ s Hi) as Hsize. rewrite completed_eq by (first [exact (wf_width _ _ wf)|unfold ReplayInvariant.size in *; lia]). cbv zeta. set (s1 := match jobs s !! _ with Some _ => _ | None => _ end).
    assert (H1 : told s1 /\ inv s1 /\ jobs s1 = jobs s /\ mIncrementIndex s1 = mIncrementIndex s).
    { unfold s1. destruct (jobs s !! _) as [j|]; [|done]. destruct (is_vsync _); [|done]. split; [by apply (told_same s)|]. split; [|done].
      apply (inv_main mTrace mNumThreads s); try done; [|exact (i_main _ _ _ Hi)|exact (i_events _ _ _ Hi)].
      destruct (i_console _ _ _ Hi) as (A & B & C). by split_and!. }
    clearbody s1. destruct H1 as (H1 & Hi1 & Ej & Ei). cbv zeta. rewrite Ei.
    destruct (_ <? _) eqn:Eb; [|by apply (told_same s1)]. apply Nat.ltb_lt in Eb. unfold ReplayInvariant.size in Hd.
    destruct (dispatchEvent _ _ _ s1) as [[st s2]|] eqn:Ed; [|by apply told_main].
    replace (mIncrementIndex s + mNumThreads)%nat with (length (jobs s1)) in Ed by (rewrite Ej; lia).
    pose proof (told_dispatch s1 st s2 Hi1 H1 Ed) as H2. destruct (st =? NO_ERROR)%Z; [by apply (told_same s2)|]. by apply told_main, told_say.
  - intros [= <-]. by apply told_main.
Qed.

Lemma told_inv_step s s' : inv s -> told s -> step s s' -> told s'.
Proof.
  intros Hi H [t Ht]. unfold thread_step in Ht. destruct (ended s); [done|]. destruct t as [|k|id|].
  - by apply (told_replay s).
  - by apply (told_worker k s).
  - by apply (told_layer id s).
  - destruct (timers _ =? 0); [done|]. injection Ht as <-. by apply (told_same s).
Qed.

Lemma told_reachable stop waiting stopped lines s : (stop <? 0)%Z = true ->
  rtc step (new_replayer false stop waiting stopped lines) s -> told s.
Proof.
  intros Hs H. remember (new_replayer _ _ _ _ _) as s0 eqn:E.
  assert (H0 : inv s0 /\ told s0) by (subst; split; [by apply inv_start|]; split; [done|by intros k id (sc & Hsc & _)|done]). clear E.
  induction H as [|s0 s1 s Hst _ IH]; [apply H0|]. destruct H0 as [Hi Ht]. apply IH.
  split; [by apply (inv_step mTrace mNumThreads black wf s0)|by apply (told_inv_step s0)].
Qed.

End Effects.
