(* ===== verification/ReplayLiveness.v ===== *)
(** Every replay of a well-formed trace comes to its end: no schedule of the
    threads deadlocks or goes on for ever. *)

From S2P Require Import Prelude CLib ReplayEvent ReplayScheduler Replayer ReplayOrder ReplayInvariant ReplayEffects.
From stdpp Require Import relations.

Section Liveness.
Context {colors : Colors} {composer : Composer}.
Context (mTrace : list Increment) (mNumThreads : nat) (black : HSV).

Abbreviation step := (step mTrace mNumThreads black).
Abbreviation size := (length mTrace).
Abbreviation inv := (inv mTrace mNumThreads).

(** * The work that is left *)

Definition pc_weight (i : increment_case) (p : job_pc) : nat :=
  match p with
  | Surfaces changes _ => length changes + 1 + match i with kTransaction _ display _ _ => length display | _ => 0 end + 21
  | Displays changes _ => length changes + 21
  | Shaking _ => 20
  | Acting _ => 15
  | Publishing _ => 8
  | Delegated | NoThread | Finished => 0
  end.

Definition event_weight (h : handshake) : nat := length (h_worker h) + length (h_main h).
Definition job_weight (j : job) : nat := event_weight (j_event j) + pc_weight (increment (j_increment j)) (j_pc j).

Definition sched_weight (sc : BufferQueueScheduler) : nat :=
  let n := length (mBufferEvents sc) in
  match pc sc with
  | Starting | AwaitSurface true | Sleeping true => 20 * n + 3
  | Looping => 20 * n + 2
  | AwaitSurface false | Sleeping false | Stopped | Crashed => 20 * n
  | Update _ => 20 * (n - 1) + 19
  | Fill _ => 20 * (n - 1) + 18
  | Ready _ _ => 20 * (n - 1) + 17
  | Post _ _ => 20 * (n - 1) + 16
  | Popping => 20 * (n - 1) + 15
  end.

(** An increment that was not dispatched. *)
Definition start_weight (i : Increment) : nat :=
  event_weight new_handshake + pc_weight (increment i) (default NoThread (start_of (increment i))) + 23.

Definition main_weight (s : replayer) : nat :=
  match main_ s with
  | Start => 11 * size + 4
  | InitReplay i => 10 * size + (size - i) + 3
  | Loop => 10 * (size - mIncrementIndex s) + 2
  | Completing _ => 10 * (size - mIncrementIndex s) - 4
  | Return _ | Exited | Aborted => 1
  | Ended _ => 0
  end.

Fixpoint sum {A} (f : A -> nat) (l : list A) : nat := match l with [] => 0 | x :: rest => f x + sum f rest end.

Definition weight (s : replayer) : nat :=
  main_weight s + sum job_weight (jobs s) + sum (fun e => sched_weight (snd e)) (mBufferQueueSchedulers s) +
  sum start_weight (drop (length (jobs s)) mTrace).

Lemma sum_app {A} (f : A -> nat) l l' : sum f (l ++ l') = sum f l + sum f l'.
Proof. induction l as [|x l IH]; [done|]. cbn. rewrite IH. lia. Qed.

Lemma sum_insert {A} (f : A -> nat) l k x y : l !! k = Some x -> sum f (<[k := y]> l) + f x = sum f l + f y.
Proof.
  revert k. induction l as [|z l IH]; intros [|k]; try done.
  - intros [= ->]. change (<[0 := y]> (x :: l)) with (y :: l). cbn [sum]. lia.
  - intros H. specialize (IH k H). change (<[S k := y]> (z :: l)) with (z :: <[k := y]> l). cbn [sum]. lia.
Qed.

Lemma on_scheduler_cons id f x sc l :
  on_scheduler id f ((x, sc) :: l) = (if (x =? id)%Z then (x, f sc) else (x, sc)) :: on_scheduler id f l.
Proof. done. Qed.

Lemma scheduler_of_cons id x sc l : scheduler_of id ((x, sc) :: l) = if (x =? id)%Z then Some sc else scheduler_of id l.
Proof. unfold scheduler_of. cbn [List.find fst]. by destruct (x =? id)%Z. Qed.

Lemma on_scheduler_absent id f l : id ∉ map fst l -> on_scheduler id f l = l.
Proof.
  induction l as [|[x sc] l IH]; [done|]. cbn [map fst]. intros [Hx Hl]%not_elem_of_cons. rewrite on_scheduler_cons, IH by done.
  destruct (Z.eqb_spec x id); [by subst|done].
Qed.

Lemma scheduler_of_key id l sc : scheduler_of id l = Some sc -> id ∈ map fst l.
Proof.
  induction l as [|[x sc0] l IH]; [done|]. rewrite scheduler_of_cons. cbn [map fst]. destruct (Z.eqb_spec x id) as [->|_]; [left|right; by apply IH].
Qed.

Lemma on_scheduler_none id f l : scheduler_of id l = None -> on_scheduler id f l = l.
Proof. intros H. apply on_scheduler_absent. by apply scheduler_of_None. Qed.

Lemma sum_schedulers id f l sc : NoDup (map fst l) -> scheduler_of id l = Some sc ->
  sum (fun e => sched_weight (snd e)) (on_scheduler id f l) + sched_weight sc = sum (fun e => sched_weight (snd e)) l + sched_weight (f sc).
Proof.
  induction l as [|[x sc0] l IH]; [done|]. cbn [map fst]. rewrite NoDup_cons. intros [Hx Hn]. rewrite scheduler_of_cons, on_scheduler_cons.
  destruct (Z.eqb_spec x id) as [->|Hne]; cbn [sum snd].
  - intros [= ->]. rewrite on_scheduler_absent by done. lia.
  - intros H. specialize (IH Hn H). lia.
Qed.

(** One job. *)
Lemma weight_job k f s j : jobs s !! k = Some j -> weight (set_job k f s) + job_weight j = weight s + job_weight (f j).
Proof.
  intros Hj. unfold weight. rewrite (set_job_eq k f s j Hj). cbn [jobs with_jobs mBufferQueueSchedulers]. rewrite length_insert.
  pose proof (sum_insert job_weight (jobs s) k j (f j) Hj). change (main_weight (with_jobs _ s)) with (main_weight s). lia.
Qed.

Lemma notified_weight sc sc' : mBufferEvents sc' = mBufferEvents sc -> pc sc' = notified (pc sc) -> sched_weight sc' <= sched_weight sc + 3.
Proof. intros El Ep. unfold sched_weight. rewrite El, Ep. destruct (pc sc); cbn [notified]; try destruct woken; lia. Qed.

Lemma weight_publish id surface s : inv s -> weight (publish id surface s) <= weight s + 3.
Proof.
  intros H. unfold weight. cbn [jobs mBufferQueueSchedulers publish]. change (main_weight (publish id surface s)) with (main_weight s).
  destruct (scheduler_of id (mBufferQueueSchedulers s)) as [sc|] eqn:E.
  - pose proof (sum_schedulers id (setSurfaceControl (Some surface) (random_color (colors_made s))) _ sc (i_keys _ _ _ H) E).
    pose proof (notified_weight sc (setSurfaceControl (Some surface) (random_color (colors_made s)) sc) eq_refl eq_refl). lia.
  - rewrite on_scheduler_none by done. lia.
Qed.

(** ** The threads of the layers *)

Lemma sched_step_weight event_of sc sc' h calls : sched_ok sc ->
  startScheduling lock_buffer event_of sc = Some (sc', h, calls) ->
  match h with None => sched_weight sc' < sched_weight sc | Some _ => True end.
Proof.
  intros Hok. pose proof (ok_busy _ Hok) as Hb. pose proof (ok_surface _ Hok) as Hs. pose proof (ok_alive _ Hok) as Ha. unfold sched_weight, startScheduling, pick.
  destruct (pc sc) as [|[]| |e|e|surface e|surface e| |[]| |] eqn:Ep; try done.
  1, 2: intros [= <- <- <-]; cbn; destruct (mSurfaceControl sc); lia.
  - destruct (mContinueScheduling sc); [|intros [= <- <- <-]; cbn; lia].
    destruct (mBufferEvents sc) as [|e l] eqn:El; intros [= <- <- <-]; cbn; rewrite El; cbn; lia.
  - destruct (mSurfaceControl sc); [|by destruct (Hs eq_refl)]. intros [= <- <- <-]. cbn. lia.
  - destruct (mSurfaceControl sc); [|by destruct (Hs eq_refl)]. unfold fillSurface.
    destruct (lock_buffer (event e)); intros [= <- <- <-]; cbn; lia.
  - destruct (h_worker _); [intros [= <- <- <-]; cbn; lia|]. destruct (worker_step _); [|done]. by intros [= <- <- <-].
  - intros [= <- <- <-]. cbn. lia.
  - specialize (Hb eq_refl). cbn [mBufferEvents]. destruct (mBufferEvents sc) as [|e [|e' l]]; [done|..]; intros [= <- <- <-]; cbn; lia.
  - intros [= <- <- <-]. cbn. lia.
Qed.

Lemma event_weight_step s k h : inv s -> guard_step (event_of s k) h -> event_weight h < event_weight (event_of s k).
Proof. intros H Hg. by apply (sf_step _ (shaken_checked _ (i_shaken _ _ _ H k))). Qed.

(** A step of an event. *)
Lemma weight_event k h s j : inv s -> jobs s !! k = Some j -> guard_step (j_event j) h -> weight (set_job k (set_event h) s) < weight s.
Proof.
  intros H Hj Hg. pose proof (weight_job k (set_event h) s j Hj) as E. rewrite <- (event_of_job s k j Hj) in Hg.
  pose proof (event_weight_step s k h H Hg) as El. rewrite (event_of_job s k j Hj) in El. unfold job_weight in E. cbn in E. lia.
Qed.

Lemma weight_layer id s s' : inv s -> layer_thread id s = Some s' -> weight s' < weight s.
Proof.
  intros H. unfold layer_thread. destruct (scheduler_of id _) as [sc|] eqn:Hid; [|done].
  destruct (startScheduling _ _ sc) as [[[sc' h] calls]|] eqn:Hst; [|done]. cbv zeta.
  pose proof (i_schedulers _ _ _ H id sc Hid) as Hsc. pose proof (sched_step_weight _ _ _ _ _ (so_sched _ _ _ Hsc) Hst) as Hw.
  pose proof (sum_schedulers id (fun _ => sc') _ sc (i_keys _ _ _ H) Hid) as Hsum.
  set (s1 := say _ _ _). assert (E1 : weight s1 + sched_weight sc = weight s + sched_weight sc').
  { unfold s1, weight. cbn [jobs mBufferQueueSchedulers say with_schedulers]. change (main_weight (say _ _ _)) with (main_weight s). lia. }
  destruct h as [h|]; [|by destruct (event <$> current (pc sc)); intros [= <-]; lia].
  destruct (layer_step _ _ _ _ _ Hst) as (_ & Hev & _). destruct (Hev h eq_refl) as (surface & e & Hp & -> & Hws). rewrite Hp.
  cbn [current fmap option_fmap option_map]. intros [= <-].
  destruct (current_job s id sc e Hsc ltac:(by rewrite Hp)) as (j & Hj & Hb). rewrite (event_of_job s _ j Hj) in Hws.
  assert (Hlt : weight (set_job (event e) (set_event h) s1) < weight s1).
  { apply (weight_event _ _ _ j); [|done|by apply guard_step_worker]. apply inv_say. apply (inv_scheduler _ _ id sc); try done. intros k Hk. by left. }
  lia.
Qed.

(** ** The threads of the increments *)

Lemma weight_pc k p s j : jobs s !! k = Some j ->
  weight (set_job k (set_job_pc p) s) + pc_weight (increment (j_increment j)) (j_pc j) = weight s + pc_weight (increment (j_increment j)) p.
Proof. intros Hj. pose proof (weight_job k (set_job_pc p) s j Hj) as E. unfold job_weight in E. cbn in E. lia. Qed.

Lemma weight_say who es s : weight (say who es s) = weight s.
Proof. done. Qed.

Lemma weight_displays m s : weight (with_displays m s) = weight s.
Proof. done. Qed.

Context (wf : well_formed mTrace mNumThreads).

Lemma weight_act k ops s j : inv s -> jobs s !! k = Some j -> j_pc j = Acting ops -> weight (act k (increment (j_increment j)) ops s) < weight s.
Proof.
  intros H Hj Hp. pose proof (i_jobs _ _ _ H k j Hj) as Hok. rewrite Hp in Hok.
  pose proof (wf_increments _ _ wf k _ (i_trace _ _ _ H k j Hj)) as Hr.
  assert (Hlt : forall p s0, jobs s0 = jobs s -> weight s0 = weight s -> pc_weight (increment (j_increment j)) p < 15 ->
    weight (set_job k (set_job_pc p) s0) < weight s).
  { intros p s0 Ej Ew Hlt. rewrite <- Ej in Hj. pose proof (weight_pc k p s0 j Hj) as E. rewrite Hp, Ew in E. cbn [pc_weight] in E. lia. }
  unfold act. cbv zeta. destruct (increment (j_increment j)); try done; apply Hlt; try done; cbn; try lia.
  destruct (createSurface k); cbn; lia.
Qed.

Lemma weight_worker k s s' : inv s -> worker_thread k s = Some s' -> weight s' < weight s.
Proof.
  intros H. unfold worker_thread. destruct (jobs s !! k) as [j|] eqn:Hj; [|done]. cbv zeta.
  assert (Hlt : forall p, pc_weight (increment (j_increment j)) p < pc_weight (increment (j_increment j)) (j_pc j) ->
    weight (set_job k (set_job_pc p) s) < weight s) by (intros p Hl; pose proof (weight_pc k p s j Hj); lia).
  destruct (j_pc j) as [changes ops|changes ops|ops|ops|surface| | |] eqn:Ep; try done.
  - destruct (increment (j_increment j)) as [sf dp sync an| | | | | | | |] eqn:Ei; try done.
    unfold doSurfaceTransaction. destruct changes as [|c rest]; [intros [= <-]; apply Hlt; cbn; lia|].
    destruct (mLayers s !! sc_id c) as [layer|]; [|done]. destruct (surface_op s layer (sc_change c)); [|done].
    intros [= <-]. apply Hlt. destruct (sc_change c); cbn; lia.
  - destruct (increment (j_increment j)); try done. unfold doDisplayTransaction.
    destruct changes as [|c rest]; [intros [= <-]; apply Hlt; cbn; lia|].
    destruct (mDisplays s !! dc_id c); [|done]. intros [= <-]. apply Hlt. cbn. lia.
  - destruct (h_worker (j_event j)) eqn:Ew; [intros [= <-]; apply Hlt; cbn; lia|].
    intros E. apply fmap_Some in E as (h & Hh & ->). apply (weight_event k h s j); [done|done|by apply guard_step_worker].
  - intros [= <-]. by apply (weight_act k ops s j).
  - destruct (increment (j_increment j)) as [|id name w h| | | | | | |] eqn:Ei; try done. intros [= <-].
    pose proof (weight_publish id surface s H). pose proof (weight_pc k Finished (publish id surface s) j Hj) as E.
    rewrite Ep, Ei in E. cbn [pc_weight] in E. lia.
Qed.

(** ** The main thread *)

Lemma added_weight e sc : sched_ok sc -> sched_weight (addEvent e sc) <= sched_weight sc + 23.
Proof.
  intros Hok. pose proof (ok_busy _ Hok) as Hb. unfold sched_weight, addEvent. cbn [mBufferEvents pc]. rewrite length_app. cbn [length].
  destruct (pc sc) as [|[]| |e'|e'|surface e'|surface e'| |[]| |]; cbn [notified busy] in *; try lia;
    specialize (Hb eq_refl); destruct (mBufferEvents sc); try done; cbn [length]; lia.
Qed.

(** What is dispatched was counted. *)
Lemma dispatch_weight s i p : inv s -> mTrace !! length (jobs s) = Some i -> start_of (increment i) = Some p ->
  let s1 := with_jobs (jobs s ++ [Job i new_handshake p]) (with_pending (mPendingIncrements s ++ [length (jobs s)]) s) in
  weight s1 + 23 <= weight s /\
  forall id w h fr, increment i = kBufferUpdate id w h fr ->
    weight (dispatch_buffer black id {| event := length (jobs s); dimensions := {| width := w; height := h |} |} s1) <= weight s.
Proof.
  intros H Hi Hp s1. assert (E1 : weight s1 + 23 <= weight s).
  { unfold weight. cbn [jobs mBufferQueueSchedulers s1 with_jobs with_pending]. change (main_weight s1) with (main_weight s).
    rewrite length_app, sum_app. cbn [length sum]. rewrite (drop_S mTrace i (length (jobs s)) Hi). cbn [sum]. rewrite Nat.add_1_r.
    unfold start_weight, job_weight. cbn [j_event j_increment j_pc]. rewrite Hp. change (default NoThread (Some p)) with p. lia. }
  split; [done|]. intros id w h fr Ei. set (e := {| event := _; dimensions := _ |}).
  assert (Hsum : forall l, sum (fun e => sched_weight (snd e)) l <= sum (fun e => sched_weight (snd e)) (mBufferQueueSchedulers s) + 23 ->
    weight (with_schedulers l s1) <= weight s).
  { intros l Hl. unfold weight in *. cbn [jobs mBufferQueueSchedulers s1 with_jobs with_pending with_schedulers] in *.
    change (main_weight (with_schedulers l s1)) with (main_weight s1). lia. }
  unfold dispatch_buffer. change (mBufferQueueSchedulers s1) with (mBufferQueueSchedulers s).
  destruct (scheduler_of id (mBufferQueueSchedulers s)) as [sc|] eqn:Esc; apply Hsum.
  - pose proof (sum_schedulers id (addEvent e) _ sc (i_keys _ _ _ H) Esc).
    pose proof (added_weight e sc (so_sched _ _ _ (i_schedulers _ _ _ H id sc Esc))). lia.
  - rewrite sum_app. cbn [sum snd]. change (sched_weight (addEvent e _)) with 23. lia.
Qed.

(** Dispatching does not move the main thread. *)
Lemma dispatched_weight s status s' : inv s -> dispatchEvent mTrace black (length (jobs s)) s = Some (status, s') ->
  weight s' <= weight s /\ main_weight s' = main_weight s /\ (main_weight s <= weight s)%nat.
Proof.
  intros H Hd. destruct (dispatched mTrace mNumThreads black wf s status s' H Hd) as (_ & _ & _ & _ & _ & Hidx & Hm & _).
  split_and!; [|unfold main_weight; by rewrite Hidx, Hm|unfold weight; lia].
  unfold dispatchEvent in Hd. destruct (mTrace !! length (jobs s)) as [i|] eqn:Hi; [|done]. cbv zeta in Hd. cbn [jobs with_pending] in Hd.
  pose proof (wf_increments _ _ wf _ _ Hi) as Hr. assert (Hp : exists p, start_of (increment i) = Some p) by (destruct (increment i); try done; by eexists).
  destruct Hp as [p Hp]. destruct (dispatch_weight s i p H Hi Hp) as [H1 H2]. cbv zeta in H1, H2. rewrite Hp in Hd. cbn [default] in Hd.
  destruct (increment i) as [| | |id w h fr| | | | |]; injection Hd as <- <-; first [lia | by apply (H2 id w h fr)].
Qed.

(** What is left once the main thread has gone on. *)
Lemma weight_at_main p s : weight (at_main p s) + main_weight s = weight s + main_weight (at_main p s).
Proof. unfold weight. cbn [jobs mBufferQueueSchedulers at_main]. lia. Qed.

(** The main thread moves on from [s] through [s0], with less before it. *)
Lemma weight_main p s s0 : main_weight s0 = main_weight s -> weight s0 <= weight s ->
  main_weight (at_main p s0) < main_weight s -> main_weight s <= weight s -> weight (at_main p s0) < weight s.
Proof. intros Em Hw Hlt Hle. pose proof (weight_at_main p s0). lia. Qed.

Lemma main_weight_le s : main_weight s <= weight s.
Proof. unfold weight. lia. Qed.

Lemma weight_init i s : inv s -> main_ s = InitReplay i -> weight (initReplay mTrace mNumThreads black i s) < weight s.
Proof.
  intros H Hm. pose proof (i_main _ _ _ H) as Hok. unfold main_ok in Hok. rewrite Hm in Hok. destruct Hok as (Hd & _ & Hidx & _ & Hsize).
  pose proof (main_weight_le s) as Hle. assert (Em : main_weight s = 10 * size + (size - i) + 3) by (unfold main_weight; by rewrite Hm).
  unfold initReplay. destruct ((i <? mNumThreads) && (i <? size)) eqn:Eb.
  - apply andb_true_iff in Eb as [_ E2%Nat.ltb_lt]. rewrite <- Hd. destruct (dispatchEvent mTrace black (length (jobs s)) s) as [[status s1]|] eqn:Ed.
    + destruct (dispatched mTrace mNumThreads black wf s status s1 H Ed) as (-> & _). destruct (dispatched_weight s _ s1 H Ed) as (Hw & Hm1 & _).
      cbn [NO_ERROR Z.eqb]. apply weight_main; try done. rewrite Em. cbn [main_weight main_ at_main]. lia.
    + apply weight_main; try done. rewrite Em. cbn [main_weight main_ at_main]. lia.
  - apply weight_main; try done. rewrite Em. unfold main_weight. cbn [main_ at_main mIncrementIndex]. rewrite Hidx. lia.
Qed.

Lemma weight_loop s s' : inv s -> main_ s = Loop -> next_event mTrace s = Some s' -> weight s' < weight s.
Proof.
  intros H Hm. pose proof (jobs_in_trace _ _ s H) as Hsize. unfold ReplayInvariant.size in Hsize.
  pose proof (i_main _ _ _ H) as Hok. unfold main_ok in Hok. rewrite Hm in Hok. destruct Hok as (Hd & Hp & Hle).
  pose proof (main_weight_le s) as Hwle. assert (Em : main_weight s = 10 * (size - mIncrementIndex s) + 2) by (unfold main_weight; by rewrite Hm).
  assert (Hstop : forall s0 p, main_weight s0 = main_weight s -> weight s0 = weight s -> (forall s1, main_weight (at_main p s1) = 1) -> weight (at_main p s0) < weight s).
  { intros s0 p E1 E2 E3. apply weight_main; [done|by rewrite E2|rewrite E3; lia|done]. }
  unfold next_event. destruct (mPendingIncrements s) as [|k pending] eqn:Epend; [intros [= <-]; by apply Hstop|].
  destruct (mTrace !! mIncrementIndex s) as [i|]; [|intros [= <-]; by apply Hstop].
  destruct (waitForConsoleCommmand _) as [c|c| |]; [|intros [= <-]; by apply Hstop|done|intros [= <-]; by apply Hstop].
  intros [= <-]. apply weight_main; try done. rewrite Em. unfold main_weight. cbn [main_ at_main mIncrementIndex with_pending with_console].
  destruct (length (jobs s) - mIncrementIndex s)%nat as [|n] eqn:En; [done|]. lia.
Qed.

Lemma weight_completed k s : inv s -> main_ s = Completing k -> h_main (event_of s k) = [] ->
  weight (completed mTrace mNumThreads black k s) < weight s.
Proof.
  intros H Hm Hk. pose proof (jobs_in_trace _ _ s H) as Hsize. unfold ReplayInvariant.size in Hsize.
  pose proof (i_main _ _ _ H) as Hok. unfold main_ok in Hok. rewrite Hm in Hok. destruct Hok as (-> & Hlt & Hd & Hp).
  pose proof (main_weight_le s) as Hwle. assert (Em : main_weight s = 10 * (size - mIncrementIndex s) - 4) by (unfold main_weight; by rewrite Hm).
  unfold ReplayInvariant.size in Hd. rewrite completed_eq by (first [exact (wf_width _ _ wf)|lia]). cbv zeta. set (s1 := match jobs s !! _ with Some _ => _ | None => _ end).
  assert (H1 : inv s1 /\ jobs s1 = jobs s /\ weight s1 = weight s /\ main_weight s1 = main_weight s /\ mIncrementIndex s1 = mIncrementIndex s).
  { unfold s1. destruct (jobs s !! _) as [j|]; [|done]. destruct (is_vsync _); [|done]. split; [|done].
    apply (inv_main mTrace mNumThreads s); try done; [|exact (i_main _ _ _ H)|exact (i_events _ _ _ H)].
    destruct (i_console _ _ _ H) as (A & B & C). by split_and!. }
  clearbody s1. destruct H1 as (H1 & Ej & Ew & Em1 & Ei). cbv zeta. rewrite Ei.
  assert (Hnext : forall s0, main_weight s0 = main_weight s -> weight s0 <= weight s -> mIncrementIndex s0 = mIncrementIndex s ->
    weight (at_main Loop (next_index s0)) < weight s).
  { intros s0 E0 Hw0 Ei0. pose proof (weight_at_main Loop s0) as E. change (main_weight (at_main Loop (next_index s0))) with (10 * (size - S (mIncrementIndex s0)) + 2) in *.
    assert (E' : weight (at_main Loop (next_index s0)) + main_weight s0 = weight s0 + (10 * (size - S (mIncrementIndex s0)) + 2)).
    { unfold weight. cbn [jobs mBufferQueueSchedulers at_main next_index].
      change (main_weight (at_main Loop (next_index s0))) with (10 * (size - S (mIncrementIndex s0)) + 2). lia. }
    rewrite Ei0 in E'. lia. }
  destruct (mIncrementIndex s + mNumThreads <? size) eqn:Eb; [|apply Hnext; [done|by rewrite Ew|done]].
  apply Nat.ltb_lt in Eb. assert (Hlen : (mIncrementIndex s + mNumThreads)%nat = length (jobs s1)) by (rewrite Ej; lia).
  rewrite Hlen. destruct (dispatchEvent mTrace black (length (jobs s1)) s1) as [[status s2]|] eqn:Ed.
  - destruct (dispatched mTrace mNumThreads black wf s1 status s2 H1 Ed) as (-> & _ & _ & _ & _ & Hi1 & _).
    destruct (dispatched_weight s1 _ s2 H1 Ed) as (Hw & Hm2 & _). cbn [NO_ERROR Z.eqb]. apply Hnext; [congruence|lia|congruence].
  - apply weight_main; [done|by rewrite Ew| |done]. rewrite Em. change (main_weight (at_main Aborted s1)) with 1. lia.
Qed.

Lemma weight_replay s s' : inv s -> replay mTrace mNumThreads black s = Some s' -> weight s' < weight s.
Proof.
  intros H. unfold replay. destruct (main_ s) as [|i| |k|st| | |st] eqn:Hm; try done.
  - rewrite (wf_client _ _ wf). cbn [NO_ERROR Z.eqb]. intros [= <-]. apply weight_main; try done; [|apply main_weight_le].
    unfold main_weight. rewrite Hm. cbn [main_ at_main]. lia.
  - intros [= <-]. by apply weight_init.
  - by apply weight_loop.
  - destruct (h_main (event_of s k)) as [|x l] eqn:Ek; [intros [= <-]; by apply weight_completed|].
    intros E. apply fmap_Some in E as (h & Hh & ->). pose proof (i_main _ _ _ H) as Hok. unfold main_ok in Hok. rewrite Hm in Hok.
    destruct Hok as (Eidx & Hlt & _). rewrite <- Eidx in Hlt. destruct (lookup_lt_is_Some_2 (jobs s) k Hlt) as [j Hj].
    rewrite (event_of_job s k j Hj) in Hh. apply (weight_event k h s j); [done|done|by apply guard_step_main].
  - intros [= <-]. apply weight_main; try done; [|apply main_weight_le]. unfold main_weight. rewrite Hm. cbn [main_ at_main]. lia.
  - intros [= <-]. apply weight_main; try done; [|apply main_weight_le]. unfold main_weight. rewrite Hm. cbn [main_ at_main]. lia.
  - intros [= <-]. apply weight_main; try done; [|apply main_weight_le]. unfold main_weight. rewrite Hm. cbn [main_ at_main]. lia.
Qed.

Lemma weight_step s s' : inv s -> step s s' -> weight s' < weight s.
Proof.
  intros H [t Ht]. unfold thread_step in Ht. destruct (ended s); [done|]. destruct t as [|k|id|].
  - by apply weight_replay.
  - by apply (weight_worker k).
  - by apply (weight_layer id).
  - destruct (i_console _ _ _ H) as (_ & _ & Et). by rewrite Et in Ht.
Qed.

Lemma inv_sn s : inv s -> sn step s.
Proof.
  remember (weight s) as n eqn:E. revert s E. induction n as [n IH] using lt_wf_ind. intros s -> H. constructor. intros s' Hs.
  apply (IH (weight s')); [by apply weight_step|done|by apply (inv_step mTrace mNumThreads black wf s)].
Qed.

(** * Where the threads come to rest *)

(** The detached threads can do nothing. *)
Definition at_rest (s : replayer) : Prop := forall t, t <> TMain -> thread_step mTrace mNumThreads black t s = None.

Definition returned (s : replayer) : bool := match main_ s with Return _ => true | _ => false end.

(** No thread can do anything; the main thread may have returned from
    [replay], the process lives. *)
Record stuck (s : replayer) : Prop := {
  st_alive : ended s = false;
  st_main : returned s = false -> replay mTrace mNumThreads black s = None;
  st_rest : at_rest s;
}.

Lemma stuck_worker s k : stuck s -> worker_thread k s = None.
Proof. intros [Ha _ Hr]. specialize (Hr (TWorker k)). unfold thread_step in Hr. rewrite Ha in Hr. by apply Hr. Qed.

Lemma stuck_layer_thread s id : stuck s -> layer_thread id s = None.
Proof. intros [Ha _ Hr]. specialize (Hr (TLayer id)). unfold thread_step in Hr. rewrite Ha in Hr. by apply Hr. Qed.

Lemma nf_threads s t : nf step s -> thread_step mTrace mNumThreads black t s = None.
Proof. intros Hn. destruct (thread_step _ _ _ t s) as [s'|] eqn:E; [|done]. destruct Hn. by exists s', t. Qed.

(** An increment that the main thread has completed is done. *)
Lemma stuck_done s k j : inv s -> stuck s -> jobs s !! k = Some j -> h_main (j_event j) = [] ->
  h_worker (j_event j) = [] /\ (j_pc j = Finished \/ j_pc j = Delegated).
Proof.
  intros H Hs Hj Hm. pose proof (shaken_checked _ (i_shaken _ _ _ H k)) as Hf. rewrite (event_of_job s k j Hj) in Hf.
  pose proof (sf_main _ Hf Hm) as Hw. split; [done|]. pose proof (i_jobs _ _ _ H k j Hj) as Hok.
  apply (stuck_worker s k) in Hs. unfold worker_thread in Hs. rewrite Hj, Hw in Hs. cbv zeta in Hs.
  destruct (j_pc j); try (by left); try (by right); destruct (increment (j_increment j)); try done; destruct Hok as [Hn _]; by rewrite Hn in Hw.
Qed.

(** The job of an increment that the main thread waits for has all earlier ones behind it. *)
Definition behind (s : replayer) (k : nat) : Prop :=
  (k < length (jobs s))%nat /\ (forall i, (i < k)%nat -> h_main (event_of s i) = []).

(** It has not looked at the later ones. *)
Definition ahead (s : replayer) (k : nat) : Prop := forall i, (k < i)%nat -> h_main (event_of s i) = h_main new_handshake.

Lemma behind_job s k i inc : inv s -> stuck s -> behind s k -> (i < k)%nat -> mTrace !! i = Some inc ->
  exists j, jobs s !! i = Some j /\ j_increment j = inc /\ (j_pc j = Finished \/ j_pc j = Delegated).
Proof.
  intros H Hs (Hk & Hb) Hi Hinc. destruct (lookup_lt_is_Some_2 (jobs s) i) as [j Hj]; [lia|]. exists j.
  pose proof (i_trace _ _ _ H i j Hj) as Ht. rewrite Hinc in Ht. injection Ht as ->. split_and!; [done|done|].
  apply (stuck_done s i j H Hs Hj). rewrite <- (event_of_job s i j Hj). by apply Hb.
Qed.

Lemma layer_there s k id : inv s -> stuck s -> behind s k -> layer_made mTrace k id -> is_Some (mLayers s !! id).
Proof.
  intros H Hs Hb (i & t & name & w & h & Hi & Ht & Hc). destruct (behind_job s k i _ H Hs Hb Hi Ht) as (j & Hj & Ej & Hp).
  apply (i_layers _ _ _ H i j id name w h); try done; [by rewrite Ej|]. destruct Hp as [Hp|Hp]; [done|].
  pose proof (i_jobs _ _ _ H i j Hj) as Hok. by rewrite Ej, Hp in Hok.
Qed.

Lemma display_there s k j id : inv s -> stuck s -> behind s k -> ahead s k -> jobs s !! k = Some j -> j_pc j <> Finished ->
  display_made mTrace k id -> is_Some (mDisplays s !! id).
Proof.
  intros H Hs Hb Ha Hk Hnf (i & t & name & did & sec & Hi & Ht & Hc & Hothers).
  destruct (behind_job s k i _ H Hs Hb Hi Ht) as (ji & Hj & Ej & Hp).
  apply (i_displays _ _ _ H i ji id name did sec); try done.
  - by rewrite Ej.
  - destruct Hp as [Hp|Hp]; [done|]. pose proof (i_jobs _ _ _ H i ji Hj) as Hok. by rewrite Ej, Hp in Hok.
  - intros k' j' Hj' Hne Hf'. destruct (decide (k' < k)%nat) as [Hlt|Hge].
    + apply (Hothers k' (j_increment j')); [done|done|]. by apply (i_trace _ _ _ H).
    + destruct (decide (k' = k)) as [->|Hne']; [rewrite Hk in Hj'; by injection Hj' as ->|].
      specialize (Ha k' ltac:(lia)).
      pose proof (shaken_checked _ (i_shaken _ _ _ H k')) as Hsf. rewrite (event_of_job s k' j' Hj') in Ha, Hsf.
      pose proof (i_jobs _ _ _ H k' j' Hj') as Hok. rewrite Hf' in Hok.
      destruct (increment (j_increment j')); try done; by destruct (sf_started _ Hsf Hok).
Qed.

(** A layer's thread that can do nothing. *)
Lemma stuck_layer s id sc : inv s -> stuck s -> scheduler_of id (mBufferQueueSchedulers s) = Some sc -> queue_ids sc <> [] ->
  mLayers s !! id = None \/
  exists surface e, pc sc = Ready surface e /\ head (queue_ids sc) = Some (event e) /\ h_worker (event_of s (event e)) <> [] /\
    worker_step (event_of s (event e)) = None.
Proof.
  intros H Hs Hid Hq. pose proof (i_schedulers _ _ _ H id sc Hid) as [S1 [S2 S2'] S3 _ _ _ _].
  pose proof (ok_current _ S1) as Hcur. pose proof (ok_asleep _ S1) as Hsl. pose proof (ok_waiting _ S1) as Hwt. pose proof (ok_alive _ S1) as Hal.
  apply (stuck_layer_thread s id) in Hs. unfold layer_thread in Hs. rewrite Hid in Hs.
  destruct (startScheduling _ _ sc) as [[[sc' h] calls]|] eqn:Hst; [done|]. clear Hs. unfold startScheduling in Hst.
  destruct (pc sc) as [|[]| |e|e|surface e|surface e| |[]| |] eqn:Ep; try done.
  - left. by apply S3, Hwt.
  - destruct (mSurfaceControl sc) eqn:Ec; [done|]. left. by apply S3.
  - destruct (mSurfaceControl sc) eqn:Ec; [|left; by apply S3]. by destruct (fillSurface _ _ _ _).
  - right. exists surface, e. destruct (h_worker _) eqn:Ew; [done|]. destruct (worker_step _); [done|]. split_and!; try done.
    specialize (Hcur e eq_refl). unfold queue_ids. destruct (mBufferEvents sc); [done|]. by injection Hcur as ->.
  - unfold queue_ids in Hq. by rewrite Hsl in Hq.
Qed.

Lemma head_least s id sc k k' : scheduler_ok s id sc -> head (queue_ids sc) = Some k -> k' ∈ queue_ids sc -> (k <= k')%nat.
Proof.
  intros [_ _ _ Hs _ _ _] Hk Hk'. destruct (queue_ids sc) as [|x l]; [done|]. injection Hk as ->.
  apply StronglySorted_inv in Hs as [_ Hall]. rewrite Forall_forall in Hall. apply elem_of_cons in Hk' as [->|Hk']; [done|].
  specialize (Hall k' Hk'). lia.
Qed.

Lemma stuck_buffer s k j id : inv s -> stuck s -> behind s k -> jobs s !! k = Some j -> is_buffer_of id j -> layer_made mTrace k id ->
  is_Some (worker_step (j_event j)) -> False.
Proof.
  intros H Hs Hb Hj Hbuf Hmade [h Hstep]. destruct (i_buffers _ _ _ H k j id Hj Hbuf) as (sc & Hid & [Hq|Hrel]).
  - destruct (stuck_layer s id sc H Hs Hid) as [Hn|(surface & e & _ & Hhd & Hw & Hws)].
    + intros E. rewrite E in Hq. by apply not_elem_of_nil in Hq.
    + destruct (layer_there s k id H Hs Hb Hmade) as [x Hx]. by rewrite Hx in Hn.
    + pose proof (head_least s id sc (event e) k (i_schedulers _ _ _ H id sc Hid) Hhd Hq) as Hle.
      destruct (decide (event e = k)) as [Ee|Hne]; [rewrite Ee, (event_of_job s k j Hj), Hstep in Hws; done|].
      destruct Hb as (_ & Hbefore). apply Hw, (sf_main _ (shaken_checked _ (i_shaken _ _ _ H (event e)))), Hbefore. lia.
  - unfold released in Hrel. rewrite (event_of_job s k j Hj) in Hrel. by apply worker_step_some in Hstep.
Qed.

Lemma stuck_surfaces s k j sf dp sync an changes ops : inv s -> stuck s -> behind s k -> jobs s !! k = Some j ->
  increment (j_increment j) = kTransaction sf dp sync an -> j_pc j = Surfaces changes ops -> False.
Proof.
  intros H Hs Hb Hj Ei Ep. pose proof (i_jobs _ _ _ H k j Hj) as Hok. rewrite Ei, Ep in Hok. destruct Hok as [_ Hsub].
  pose proof (wf_increments _ _ wf k _ (i_trace _ _ _ H k j Hj)) as Hr. rewrite Ei in Hr. destruct Hr as [Hr _].
  pose proof (stuck_worker s k Hs) as Hw. unfold worker_thread in Hw. rewrite Hj, Ei, Ep in Hw. cbv zeta in Hw.
  unfold doSurfaceTransaction in Hw. destruct changes as [|c rest]; [done|].
  destruct (Hr c (Hsub c ltac:(left))) as [Hl Hl']. destruct (layer_there s k _ H Hs Hb Hl) as [layer El]. rewrite El in Hw.
  destruct (sc_change c) as [| | | | | | | | | | | | |other frame|]; try done.
  destruct (layer_there s k _ H Hs Hb Hl') as [handle Eh]. cbn [surface_op] in Hw. by rewrite Eh in Hw.
Qed.

Lemma stuck_displays s k j sf dp sync an changes ops : inv s -> stuck s -> behind s k -> ahead s k -> jobs s !! k = Some j ->
  increment (j_increment j) = kTransaction sf dp sync an -> j_pc j = Displays changes ops -> False.
Proof.
  intros H Hs Hb Ha Hj Ei Ep. pose proof (i_jobs _ _ _ H k j Hj) as Hok. rewrite Ei, Ep in Hok. destruct Hok as [_ Hsub].
  pose proof (wf_increments _ _ wf k _ (i_trace _ _ _ H k j Hj)) as Hr. rewrite Ei in Hr. destruct Hr as [_ Hr].
  pose proof (stuck_worker s k Hs) as Hw. unfold worker_thread in Hw. rewrite Hj, Ei, Ep in Hw. cbv zeta in Hw.
  unfold doDisplayTransaction in Hw. destruct changes as [|c rest]; [done|].
  destruct (display_there s k j (dc_id c) H Hs Hb Ha Hj ltac:(by rewrite Ep) (Hr c (Hsub c ltac:(left)))) as [d Ed]. by rewrite Ed in Hw.
Qed.

(** The event that the main thread waits for can go on. *)
Lemma stuck_job s k j : inv s -> stuck s -> behind s k -> ahead s k -> jobs s !! k = Some j -> is_Some (worker_step (j_event j)) -> False.
Proof.
  intros H Hs Hb Ha Hj Hw. pose proof (i_jobs _ _ _ H k j Hj) as Hok. pose proof (wf_increments _ _ wf k _ (i_trace _ _ _ H k j Hj)) as Hr.
  assert (Hn : h_worker (j_event j) <> []) by (destruct Hw as [h Hw]; by apply worker_step_some in Hw).
  pose proof (stuck_worker s k Hs) as Ht. unfold worker_thread in Ht. rewrite Hj in Ht. cbv zeta in Ht.
  destruct (increment (j_increment j)) as [sf dp sync an| | |id w h fr| | | | |] eqn:Ei, (j_pc j) as [changes ops|changes ops|ops|ops|surface| | |] eqn:Ep;
    try done; try by destruct Hok.
  1: by apply (stuck_surfaces s k j sf dp sync an changes ops).
  1: by apply (stuck_displays s k j sf dp sync an changes ops).
  all: try (destruct (h_worker (j_event j)); [done|]; destruct Hw as [h' Hw]; by rewrite Hw in Ht).
  destruct Hr as [Hr _]. apply (stuck_buffer s k j id H Hs Hb Hj); try done. unfold is_buffer_of. by rewrite Ei.
Qed.

Lemma stuck_main s : inv s -> stuck s -> main_ s = Return NO_ERROR.
Proof.
  intros H Hs. pose proof (i_main _ _ _ H) as Hok. unfold main_ok in Hok.
  destruct (returned s) eqn:Hret.
  { unfold returned in Hret. destruct (main_ s); try done. by destruct Hok as (-> & _). }
  pose proof (st_main s Hs Hret) as Ht. pose proof (st_alive s Hs) as Ha. unfold returned in Hret.
  unfold replay in Ht. unfold ended in Ha. destruct (main_ s) as [|i| |k|st| | |st] eqn:Hm; try done.
  - exfalso. unfold next_event in Ht. destruct (mPendingIncrements s); [done|]. destruct (mTrace !! mIncrementIndex s) as [inc|]; [|done].
    by destruct (automatic_go (console_ s) (time_stamp inc) (i_console _ _ _ H)) as [E1 E2]; rewrite E1, E2 in Ht.
  - exfalso. destruct Hok as (-> & Hlt & _). set (k := mIncrementIndex s) in *. destruct (lookup_lt_is_Some_2 (jobs s) k Hlt) as [j Hj].
    assert (Hb : behind s k).
    { split; [done|]. intros i Hi. by apply (i_events _ _ _ H i). }
    assert (Hah : ahead s k).
    { intros i Hi. apply (i_events _ _ _ H i); [unfold k in Hi; lia|]. rewrite Hm. intros [= E]. lia. }
    destruct (h_main (event_of s k)) eqn:Eh; [done|]. rewrite (event_of_job s k j Hj) in Ht, Eh.
    pose proof (shaken_checked _ (i_shaken _ _ _ H k)) as Hf. rewrite (event_of_job s k j Hj) in Hf.
    destruct (sf_live _ Hf) as [E|[[h E]|E]]; [by rewrite E in Eh|by rewrite E in Ht|]. by apply (stuck_job s k j).
Qed.

(** Every process comes to its end through the return of [replay]. *)
Lemma nf_ended s : inv s -> nf step s -> main_ s = Ended (Some NO_ERROR).
Proof.
  intros H Hn. pose proof (i_main _ _ _ H) as Hok. unfold main_ok in Hok. destruct (ended s) eqn:Ha.
  { unfold ended in Ha. destruct (main_ s); try done. by destruct Hok as (-> & _). }
  assert (Hmain : replay mTrace mNumThreads black s = None).
  { pose proof (nf_threads s TMain Hn) as E. unfold thread_step in E. by rewrite Ha in E. }
  pose proof (stuck_main s H ltac:(split; [done|done|intros t _; by apply nf_threads])) as Hm.
  unfold replay in Hmain. by rewrite Hm in Hmain.
Qed.

(** The thread of an increment has been let go, and its call is the next that it
    makes. *)
Definition let_go (s : replayer) (k : nat) (i : increment_case) : Prop :=
  match i with
  | kBufferUpdate id _ _ _ =>
      exists sc surface e, scheduler_of id (mBufferQueueSchedulers s) = Some sc /\ event e = k /\
        (pc sc = Ready surface e \/ pc sc = Post surface e)
  | _ => exists j ops, jobs s !! k = Some j /\ (j_pc j = Shaking ops \/ j_pc j = Acting ops)
  end.

(** What has happened when [replay] returns: every increment was dispatched, the
    main thread and the thread of the increment are through its event, and
    the call was made or is the next. *)
Record replayed (s : replayer) : Prop := {
  rp_all : map j_increment (jobs s) = mTrace;
  rp_events : forall k j, jobs s !! k = Some j -> h_worker (j_event j) = [] /\ h_main (j_event j) = [];
  rp_calls : forall k i, mTrace !! k = Some i -> carried s k (increment i) \/ let_go s k (increment i);
}.

Definition over (s : replayer) : bool := returned s || ended s.

Lemma over_main s : inv s -> over s = true ->
  (main_ s = Return NO_ERROR \/ main_ s = Ended (Some NO_ERROR)) /\ mIncrementIndex s = length (jobs s) /\ length (jobs s) = size.
Proof.
  intros H Ho. pose proof (i_main _ _ _ H) as Hok. unfold main_ok, ReplayInvariant.size in Hok. unfold over, returned, ended in Ho.
  destruct (main_ s); try done; destruct Hok as (-> & Hok); (split; [|done]); [by left|by right].
Qed.

Lemma over_events s k j : inv s -> over s = true -> jobs s !! k = Some j -> h_worker (j_event j) = [] /\ h_main (j_event j) = [].
Proof.
  intros H Ho Hj. destruct (over_main s H Ho) as (_ & Hidx & _). assert (Hm : h_main (j_event j) = []).
  { rewrite <- (event_of_job s k j Hj). apply (i_events _ _ _ H k). rewrite Hidx. by apply lookup_lt_Some in Hj. }
  split; [|done]. pose proof (shaken_checked _ (i_shaken _ _ _ H k)) as Hf. rewrite (event_of_job s k j Hj) in Hf. by apply (sf_main _ Hf).
Qed.

Lemma over_all s : inv s -> over s = true -> map j_increment (jobs s) = mTrace.
Proof.
  intros H Ho. destruct (over_main s H Ho) as (_ & _ & Hd). apply list_eq_same_length with (length mTrace); [done|by rewrite length_map|].
  intros k x y _ Hx Hy. apply list_lookup_fmap_Some in Hx as (j & -> & Hj). apply (i_trace _ _ _ H) in Hj. congruence.
Qed.

(** A buffer whose event is over was posted, or its layer's thread is about to. *)
Lemma released_buffer s k j id : inv s -> told s -> jobs s !! k = Some j -> is_buffer_of id j -> released s k ->
  posted s k \/ exists sc surface e, scheduler_of id (mBufferQueueSchedulers s) = Some sc /\ event e = k /\
    (pc sc = Ready surface e \/ pc sc = Post surface e).
Proof.
  intros H Ht Hj Hb Hr. destruct (to_buffers _ Ht k j id Hj Hb) as [(sc & Hsc & Hq)|]; [|by left].
  pose proof (i_schedulers _ _ _ H id sc Hsc) as Hok. assert (Hnew : event_of s k <> new_handshake) by (intros E; unfold released in Hr; by rewrite E in Hr).
  assert (Hh : head (queue_ids sc) = Some k).
  { destruct (queue_ids sc) as [|x l] eqn:El; [by apply not_elem_of_nil in Hq|]. apply elem_of_cons in Hq as [->|Hq]; [done|].
    destruct Hnew. apply (so_rest _ _ _ Hok). by rewrite El. }
  assert (Hcur : forall e, current (pc sc) = Some e -> event e = k).
  { intros e He. pose proof (ok_current _ (so_sched _ _ _ Hok) e He) as Hc. unfold queue_ids in Hh. destruct (mBufferEvents sc); [done|].
    injection Hc as ->. by injection Hh. }
  pose proof (so_front _ _ _ Hok k Hh) as Hf. destruct (pc sc) as [|[]| |e|e|surface e|surface e| |[]| |] eqn:Ep; try done.
  - right. exists sc, surface, e. split_and!; [done|by apply Hcur|by left].
  - right. exists sc, surface, e. split_and!; [done|by apply Hcur|by right].
  - left. apply (to_popping _ Ht k id). by exists sc.
Qed.

Lemma over_calls s k j : inv s -> told s -> over s = true -> jobs s !! k = Some j ->
  carried s k (increment (j_increment j)) \/ let_go s k (increment (j_increment j)).
Proof.
  intros H Ht Ho Hj. destruct (over_events s k j H Ho Hj) as [Hw _]. pose proof (i_jobs _ _ _ H k j Hj) as Hok.
  destruct (called (j_pc j)) eqn:Hc; [left; by apply (to_jobs _ Ht k j)|]. unfold let_go.
  destruct (increment (j_increment j)) as [| | |id w h fr| | | | |] eqn:Ei, (j_pc j) as [| |ops|ops| | | |] eqn:Ep;
    try done; try (right; exists j, ops; split; [done|first [by left|by right]]); try (destruct Hok as [Hn _]; by rewrite Hn in Hw).
  destruct (released_buffer s k j id H Ht Hj) as [[surface Hp]|Hp]; [unfold is_buffer_of; by rewrite Ei| |left|by right].
  - unfold released. by rewrite (event_of_job s k j Hj).
  - by exists (onSurface (unlockAndPost surface)).
Qed.

Lemma over_replayed s : inv s -> told s -> over s = true -> replayed s.
Proof.
  intros H Ht Ho. pose proof (over_all s H Ho) as Hall. split; [done|intros k j; by apply over_events|].
  intros k i Hk. rewrite <- Hall in Hk. apply list_lookup_fmap_Some in Hk as (j & -> & Hj). by apply over_calls.
Qed.

(** The threads have come to rest: nothing is left. *)
Record finished (s : replayer) : Prop := {
  fi_jobs : forall k j, jobs s !! k = Some j -> match increment (j_increment j) with kBufferUpdate _ _ _ _ => j_pc j = Delegated | _ => j_pc j = Finished end;
  fi_buffers : forall id sc, scheduler_of id (mBufferQueueSchedulers s) = Some sc -> mBufferEvents sc = [];
  fi_calls : forall k i, mTrace !! k = Some i -> carried s k (increment i);
}.

Lemma stuck_jobs s k j : inv s -> stuck s -> over s = true -> jobs s !! k = Some j ->
  match increment (j_increment j) with kBufferUpdate _ _ _ _ => j_pc j = Delegated | _ => j_pc j = Finished end.
Proof.
  intros H Hs Ho Hj. destruct (over_events s k j H Ho Hj) as [_ Hm]. destruct (stuck_done s k j H Hs Hj Hm) as [_ Hp].
  pose proof (i_jobs _ _ _ H k j Hj) as Hj'. destruct Hp as [Hp|Hp]; rewrite Hp in Hj'; by destruct (increment (j_increment j)).
Qed.

Lemma stuck_buffers s id sc : inv s -> stuck s -> over s = true -> scheduler_of id (mBufferQueueSchedulers s) = Some sc -> mBufferEvents sc = [].
Proof.
  intros H Hs Ho Hid. pose proof (i_schedulers _ _ _ H id sc Hid) as Hsc. destruct (mBufferEvents sc) as [|e l] eqn:El; [done|exfalso].
  assert (Hin : event e ∈ queue_ids sc) by (unfold queue_ids; rewrite El; left).
  destruct (so_jobs _ _ _ Hsc (event e) Hin) as (j & Hj & Hb).
  destruct (stuck_layer s id sc H Hs Hid) as [Hn|(surface & e' & _ & Hhd & Hw & _)].
  - unfold queue_ids. by rewrite El.
  - pose proof (wf_increments _ _ wf _ _ (i_trace _ _ _ H _ _ Hj)) as Hr. unfold is_buffer_of in Hb.
    destruct (increment (j_increment j)); try done. subst id0. destruct Hr as [Hmade _].
    destruct (layer_there s (event e) id H Hs) as [x Hx]; [|done|by rewrite Hx in Hn].
    split; [by apply lookup_lt_Some in Hj|]. intros i Hi. apply lookup_lt_Some in Hj. destruct (lookup_lt_is_Some_2 (jobs s) i) as [ji Hji]; [lia|].
    rewrite (event_of_job s i ji Hji). by apply (over_events s i).
  - unfold queue_ids in Hhd. rewrite El in Hhd. injection Hhd as E. apply Hw. rewrite <- E, (event_of_job s _ j Hj). by apply (over_events s (event e)).
Qed.

Lemma stuck_finished s : inv s -> told s -> stuck s -> over s = true -> finished s.
Proof.
  intros H Ht Hs Ho. pose proof (stuck_buffers s) as Hbuf. split; [intros k j; by apply stuck_jobs|intros id sc; by apply Hbuf|].
  intros k i Hk. rewrite <- (over_all s H Ho) in Hk. apply list_lookup_fmap_Some in Hk as (j & -> & Hj).
  pose proof (stuck_jobs s k j H Hs Ho Hj) as Hp. pose proof (to_jobs _ Ht k j Hj) as Hc.
  destruct (increment (j_increment j)) as [| | |id w h fr| | | | |] eqn:Ei; try (apply Hc; by rewrite Hp).
  destruct (to_buffers _ Ht k j id Hj) as [(sc & Hsc & Hq)|[surface E]]; [unfold is_buffer_of; by rewrite Ei| |by exists (onSurface (unlockAndPost surface))].
  unfold queue_ids in Hq. rewrite (Hbuf id sc H Hs Ho Hsc) in Hq. by apply not_elem_of_nil in Hq.
Qed.

Lemma rest_stuck s : at_rest s -> returned s = true -> stuck s.
Proof. intros Hr Hret. split; [by unfold ended; unfold returned in Hret; destruct (main_ s)|by rewrite Hret|done]. Qed.

End Liveness.

(** * Properties *)


(** ** The demonstration *)

#[local] Existing Instance demo_colors.
#[local] Existing Instance demo_composer.

Lemma demo_ends : main_ (demo_run 60) = Return NO_ERROR /\ main_ (demo_run 61) = Ended (Some NO_ERROR).
Proof. by vm_compute. Qed.

(** The threads have come to rest when this replay returns. *)
Lemma demo_rest : at_rest (colors := demo_colors) demo_trace 3 (0 : Z) (demo_run 60).
Proof.
  assert (Hsc : map fst (mBufferQueueSchedulers (demo_run 60)) = [5%Z]) by (by vm_compute).
  assert (Hlen : length (jobs (demo_run 60)) = 8) by (by vm_compute).
  intros [|k|id|] Hne; [by destruct Hne| | |vm_compute; reflexivity].
  - do 8 (destruct k as [|k]; [vm_compute; reflexivity|]). unfold thread_step, worker_thread.
    rewrite (lookup_ge_None_2 (jobs (demo_run 60))) by (rewrite Hlen; lia). by case_match.
  - destruct (decide (id = 5%Z)) as [->|Hid]; [vm_compute; reflexivity|]. unfold thread_step. clear Hlen.
    revert Hsc. generalize (demo_run 60). intros s Hsc. unfold layer_thread.
    destruct (scheduler_of id _) as [sc|] eqn:E; [|by case_match]. apply scheduler_of_key in E.
    rewrite Hsc in E. by apply list_elem_of_singleton in E.
Qed.

Lemma demo_layer i : (0 < i)%nat -> layer_made demo_trace i 5.
Proof. intros Hi. exists 0%nat. do 4 eexists. split_and!; [done|reflexivity|by eexists]. Qed.

Lemma demo_display i : (5 < i)%nat -> (i <= 7)%nat -> display_made demo_trace i 1.
Proof.
  intros Hi Hle. exists 5%nat. do 4 eexists. split_and!; [done|reflexivity|by eexists|].
  intros k' inc Hk Hne E. do 7 (destruct k' as [|k']; [first [by destruct Hne | by injection E as <-]|]). lia.
Qed.

Lemma demo_well_formed : well_formed demo_trace 3.
Proof.
  split; [lia|cbn; lia|done|]. intros i inc E.
  destruct i as [|[|[|[|[|[|[|[|i]]]]]]]]; cbn in E; [injection E as <-; cbn; try done..|done].
  - split; [apply demo_layer; lia|by eexists].
  - split; [|by intros c ?%not_elem_of_nil]. intros c [->|[->|[]%not_elem_of_nil]%elem_of_cons]%elem_of_cons; split; try done; apply demo_layer; lia.
  - split; [apply demo_layer; lia|by eexists].
  - split; [by intros c ?%not_elem_of_nil|]. intros c ->%list_elem_of_singleton. apply demo_display; lia.
Qed.

Abbreviation demo_step trace := (Replayer.step (colors := demo_colors) (composer := demo_composer) trace 3 (0 : Z)).


(** The process can end before the last call: the main thread is through the
    event of the last increment, returns, and takes the threads with it. *)
Definition cut_off_schedule : list tid := demo_schedule 55 ++ [TMain; TWorker 7; TWorker 7] ++ repeat TMain 5 ++ repeat (TWorker 7) 9.
Definition cut_off : replayer := run (colors := demo_colors) demo_trace 3 (0 : Z) cut_off_schedule demo_start.

Lemma last_call_lost :
  rtc (demo_step demo_trace) demo_start cut_off /\ main_ cut_off = Ended (Some NO_ERROR) /\
  existsb (fun e => bool_decide (fst e = Some 7)) (log cut_off) = false.
Proof.
  split; [apply run_reachable|]. split; vm_compute; reflexivity.
Qed.

(** The deletion of a layer is dispatched and nothing waits for its event: the
    replay never ends. *)
Lemma deletion_hangs :
  let s := run (colors := demo_colors) deletion_trace 3 (0 : Z) [TMain; TMain; TMain] demo_start in
  rtc (demo_step deletion_trace) demo_start s /\ main_ s = Completing 0 /\
  forall t, thread_step (colors := demo_colors) deletion_trace 3 (0 : Z) t s = None.
Proof.
  cbv zeta. split; [apply run_reachable|]. split; [by vm_compute|]. intros [|[|k]|id|]; by vm_compute.
Qed.

(** With a number of threads near the end of an [int], the index that is looked for ahead
    is negative, and the replay goes down. *)
Lemma ahead_wraps {colors : Colors} {composer : Composer} mTrace mNumThreads black k s :
  (2 ^ 31 <= Z.of_nat (mIncrementIndex s) + Z.of_nat mNumThreads < 2 ^ 32)%Z ->
  main_ (completed mTrace mNumThreads black k s) = Aborted.
Proof.
  intros H. unfold completed. set (s1 := match jobs s !! k with Some _ => _ | None => _ end). cbv zeta.
  assert (E : mIncrementIndex s1 = mIncrementIndex s) by (unfold s1; destruct (jobs s !! k); [by destruct (is_vsync _)|done]).
  assert (Hneg : (ahead_index mNumThreads s1 < 0)%Z).
  { unfold ahead_index, i32, sgn. rewrite E, Z.mod_small by lia. change (32 - 1)%Z with 31%Z.
    rewrite (proj2 (Z.ltb_ge _ _)); lia. }
  clearbody s1. rewrite (proj2 (Z.ltb_lt _ _)) by lia. by rewrite (proj2 (Z.ltb_lt _ 0)) by lia.
Qed.
