(* ===== verification/LshalTable.v ===== *)
(** The tables of [lshal]: [utils.cpp], [utils.h], [TextTable.cpp],
    [TextTable.h], [TableEntry.cpp] and [TableEntry.h].

    Enumerators of the library of VINTF objects that the sources name are
    constructors; what that library and the library of hashes compute is the
    class [HalLibraries]. *)

From S2P Require Import Prelude CLib.

Open Scope nat_scope.

(** * utils *)

Definition newline : ascii := ascii_of_nat 10.
Definition space : ascii := " "%char.

(** What [c_str()] shows of a string. *)
Fixpoint c_str (s : str) : str :=
  match s with
  | [] => []
  | c :: rest => if Ascii.eqb c zero then [] else c :: c_str rest
  end.

Definition splitFirst (s : str) (c : ascii) : str * str :=
  match find_char c (c_str s) 0 with
  | None => (s, [])
  | Some pos => (take pos (c_str s), drop (S pos) (c_str s))
  end.

(** The loop of [split]. *)
Fixpoint split_loop (fuel : nat) (s : str) (c : ascii) (startPos : nat) (components : list str) : list str :=
  match fuel with
  | O => components
  | S fuel' =>
      match find_char c s startPos with
      | Some matchPos => split_loop fuel' s c (S matchPos) (components ++ [take (matchPos - startPos) (drop startPos s)])
      | None => if startPos <=? length s then components ++ [drop startPos s] else components
      end
  end.

Definition split (s : str) (c : ascii) : list str := split_loop (S (S (length s))) s c 0 [].

Definition replaceAll (s : str) (from to : ascii) : str := map (fun c => if Ascii.eqb c from then to else c) s.

Fixpoint join (components : list str) (separator : str) : str :=
  match components with
  | [] => []
  | [c] => c
  | c :: rest => c ++ separator ++ join rest separator
  end.

Definition hex_digit (n : Z) : ascii := ascii_of_N (Z.to_N (if (n <? 10)%Z then 48 + n else 87 + n)).

(** Sixteen digits of a 64-bit number. *)
Definition toHexString (t : Z) : str :=
  map (fun i => hex_digit (Z.land (Z.shiftr t (4 * Z.of_nat i)) 15)) (rev (seq 0 16)).

(** * TextTable *)

Record TextTableRow := Row { fields : list str; line : str }.

Definition empty_row : TextTableRow := Row [] [].
Definition cells (v : list str) : TextTableRow := Row v [].
Definition comment (s : str) : TextTableRow := Row [] s.
Definition isRow (r : TextTableRow) : bool := match fields r with [] => false | _ => true end.

Record TextTable := { mWidths : list nat; mTable : list TextTableRow }.

Definition new_text_table : TextTable := {| mWidths := []; mTable := [] |}.

(** The widths are extended with zeros where the row is longer. *)
Fixpoint computeWidth (widths : list nat) (v : list str) : list nat :=
  match v, widths with
  | [], _ => widths
  | f :: v', [] => Nat.max 0 (length f) :: computeWidth [] v'
  | f :: v', w :: widths' => Nat.max w (length f) :: computeWidth widths' v'
  end.

Definition add_empty (t : TextTable) : TextTable := {| mWidths := mWidths t; mTable := mTable t ++ [empty_row] |}.
Definition add_row (v : list str) (t : TextTable) : TextTable :=
  {| mWidths := computeWidth (mWidths t) v; mTable := mTable t ++ [cells v] |}.
Definition add_text (s : str) (t : TextTable) : TextTable := {| mWidths := mWidths t; mTable := mTable t ++ [comment s] |}.

Definition addAll (other t : TextTable) : TextTable :=
  fold_left (fun t row => {| mWidths := if isRow row then computeWidth (mWidths t) (fields row) else mWidths t;
                             mTable := mTable t ++ [row] |}) (mTable other) t.

(** [std::left << std::setw(w)]. *)
Definition setw (w : nat) (s : str) : str := s ++ replicate (w - length s) space.

(** The cells from the [i]-th on; [None]: a width out of range is read. *)
Fixpoint dump_fields (widths : list nat) (i : nat) (fs : list str) : option str :=
  match fs with
  | [] => Some []
  | f :: rest =>
      let sep := if (i =? 0) then [] else [space] in
      match rest with
      | [] => Some (sep ++ f)
      | _ :: _ =>
          match widths !! i, dump_fields widths (S i) rest with
          | Some w, Some tail => Some (sep ++ setw w f ++ tail)
          | _, _ => None
          end
      end
  end.

Definition dump_row (widths : list nat) (r : TextTableRow) : option str :=
  (fun l => l ++ [newline]) <$> (if isRow r then dump_fields widths 0 (fields r) else Some (line r)).

Definition dump (t : TextTable) : option str := @concat ascii <$> mapM (dump_row (mWidths t)) (mTable t).

(** * TableEntry *)

Inductive Transport := EMPTY | HWBINDER | PASSTHROUGH.
Inductive Arch := ARCH_EMPTY | ARCH_32 | ARCH_64 | ARCH_32_64.
Inductive Partition := UNKNOWN | SYSTEM | VENDOR | ODM.
Inductive ServiceStatus := STATUS_UNKNOWN | ALIVE | NON_RESPONSIVE | DECLARED.

Inductive TableColumnType :=
| INTERFACE_NAME | TRANSPORT | SERVER_PID | SERVER_CMD | SERVER_ADDR | CLIENT_PIDS | CLIENT_CMDS | ARCH | THREADS
| RELEASED | HASH | VINTF | SERVICE_STATUS.

#[export] Instance Transport_eq_dec : EqDecision Transport. Proof. solve_decision. Defined.
#[export] Instance Arch_eq_dec : EqDecision Arch. Proof. solve_decision. Defined.
#[export] Instance Partition_eq_dec : EqDecision Partition. Proof. solve_decision. Defined.
#[export] Instance ServiceStatus_eq_dec : EqDecision ServiceStatus. Proof. solve_decision. Defined.
#[export] Instance TableColumnType_eq_dec : EqDecision TableColumnType. Proof. solve_decision. Defined.

Class HalLibraries := {
  transport_to_string : Transport -> str;     (* vintf::to_string *)
  arch_or : Arch -> Arch -> Arch;             (* vintf's operator|= *)
  hexString : list Z -> str;                  (* Hash::hexString *)
  kEmptyHash : list Z;                        (* Hash::kEmptyHash *)
}.

Definition VINTF_INFO_EMPTY : Z := 0.
Definition DEVICE_MANIFEST : Z := 1.
Definition DEVICE_MATRIX : Z := 2.
Definition FRAMEWORK_MANIFEST : Z := 4.
Definition FRAMEWORK_MATRIX : Z := 8.
Definition NO_PID : Z := -1.
Definition NO_PTR : Z := 0.

Record TableEntry := {
  interfaceName : str;
  transport : Transport;
  serverPid : Z;
  threadUsage : Z;
  threadCount : Z;
  serverCmdline : str;
  serverObjectAddress : Z;
  clientPids : list Z;
  clientCmdlines : list str;
  arch : Arch;
  hash : str;
  partition : Partition;
  vintfInfo : Z;
  serviceStatus : ServiceStatus;
}.

Definition new_entry : TableEntry := {|
  interfaceName := []; transport := EMPTY; serverPid := NO_PID; threadUsage := 0; threadCount := 0; serverCmdline := [];
  serverObjectAddress := NO_PTR; clientPids := []; clientCmdlines := []; arch := ARCH_EMPTY; hash := [];
  partition := UNKNOWN; vintfInfo := VINTF_INFO_EMPTY; serviceStatus := STATUS_UNKNOWN |}.

Definition getArchString (a : Arch) : str :=
  match a with ARCH_64 => lit "64" | ARCH_32 => lit "32" | ARCH_32_64 => lit "32+64" | ARCH_EMPTY => lit "?" end.

Definition getTitle (type : TableColumnType) : str :=
  match type with
  | INTERFACE_NAME => lit "Interface"
  | TRANSPORT => lit "Transport"
  | SERVER_PID => lit "Server"
  | SERVER_CMD => lit "Server CMD"
  | SERVER_ADDR => lit "PTR"
  | CLIENT_PIDS => lit "Clients"
  | CLIENT_CMDS => lit "Clients CMD"
  | ARCH => lit "Arch"
  | THREADS => lit "Thread Use"
  | RELEASED => lit "R"
  | HASH => lit "Hash"
  | VINTF => lit "VINTF"
  | SERVICE_STATUS => lit "Status"
  end.

Definition status_to_string (s : ServiceStatus) : str :=
  match s with
  | ALIVE => lit "alive"
  | NON_RESPONSIVE => lit "non-responsive"
  | DECLARED => lit "declared"
  | STATUS_UNKNOWN => lit "N/A"
  end.

Definition getThreadUsage (e : TableEntry) : str :=
  if (threadCount e =? 0)%Z then lit "N/A" else fmt_d (threadUsage e) ++ lit "/" ++ fmt_d (threadCount e).

Definition getVintfInfo (info : Z) : str :=
  let values := [(DEVICE_MANIFEST, lit "DM"); (DEVICE_MATRIX, lit "DC"); (FRAMEWORK_MANIFEST, lit "FM"); (FRAMEWORK_MATRIX, lit "FC")] in
  let ret := map snd (List.filter (fun v => nz (Z.land info (fst v))) values) in
  match join ret (lit ",") with [] => lit "X" | joined => joined end.

Section Entries.
Context {libs : HalLibraries}.

Definition isReleased (e : TableEntry) : str :=
  match hash e with
  | [] => lit "?"
  | h => if h =s? hexString kEmptyHash then lit "N" else lit "Y"
  end.

Definition getField (e : TableEntry) (type : TableColumnType) : str :=
  match type with
  | INTERFACE_NAME => interfaceName e
  | TRANSPORT => transport_to_string (transport e)
  | SERVER_PID => if (serverPid e =? NO_PID)%Z then lit "N/A" else fmt_d (serverPid e)
  | SERVER_CMD => serverCmdline e
  | SERVER_ADDR => if (serverObjectAddress e =? NO_PTR)%Z then lit "N/A" else toHexString (serverObjectAddress e)
  | CLIENT_PIDS => join (map fmt_d (clientPids e)) (lit " ")
  | CLIENT_CMDS => join (clientCmdlines e) (lit ";")
  | ARCH => getArchString (arch e)
  | THREADS => getThreadUsage e
  | RELEASED => isReleased e
  | HASH => hash e
  | VINTF => getVintfInfo (vintfInfo e)
  | SERVICE_STATUS => status_to_string (serviceStatus e)
  end.

(** * Table *)

Record Table := { mDescription : str; mEntries : list TableEntry; mSelectedColumns : list TableColumnType }.

Definition table_add (e : TableEntry) (t : Table) : Table :=
  {| mDescription := mDescription t; mEntries := mEntries t ++ [e]; mSelectedColumns := mSelectedColumns t |}.
Definition setSelectedColumns (s : list TableColumnType) (t : Table) : Table :=
  {| mDescription := mDescription t; mEntries := mEntries t; mSelectedColumns := s |}.
Definition setDescription (d : str) (t : Table) : Table :=
  {| mDescription := d; mEntries := mEntries t; mSelectedColumns := mSelectedColumns t |}.

(** The rows of the entries from the [n]-th on; [emitDebugInfo n name] is what
    the [n]-th call gives. *)
Fixpoint add_entries (columns : list TableColumnType) (emitDebugInfo : option (nat -> str -> str)) (n : nat)
    (entries : list TableEntry) (text : TextTable) : TextTable :=
  match entries with
  | [] => text
  | e :: rest =>
      let text := add_row (map (getField e) columns) text in
      let text := match emitDebugInfo with
                  | None => text
                  | Some emit => match emit n (interfaceName e) with [] => text | debugInfo => add_text debugInfo text end
                  end in
      add_entries columns emitDebugInfo (S n) rest text
  end.

Definition createTextTable (neat : bool) (emitDebugInfo : option (nat -> str -> str)) (t : Table) : TextTable :=
  let text := new_text_table in
  let text := if neat then text
              else add_row (map getTitle (mSelectedColumns t)) (add_text (mDescription t) text) in
  add_entries (mSelectedColumns t) emitDebugInfo 0 (mEntries t) text.

(** [MergedTable]. *)
Definition merged_table (tables : list Table) : TextTable :=
  fold_left (fun text t => addAll (createTextTable true None t) text) tables new_text_table.

End Entries.

(** * Strings *)

(** The loop of [split] cuts at every separator. *)
Lemma split_loop_spec fuel s c startPos components : (length s < startPos + fuel)%nat -> (startPos <= length s)%nat ->
  split_loop fuel s c startPos components = components ++ split_on c (drop startPos s).
Proof.
  revert startPos components. induction fuel as [|fuel IH]; intros startPos components Hf Hs; [lia|]. cbn [split_loop].
  rewrite find_char_from. destruct (split_on_cases c (drop startPos s)) as [[Hn ->]|(h & r & E & Hh & ->)].
  - apply find_char_None in Hn. rewrite Hn. cbn. by rewrite (proj2 (Nat.leb_le _ _) Hs).
  - assert (Ef : find_char c (drop startPos s) 0 = Some (length h)) by (apply find_char_Some; by exists h, r).
    rewrite Ef. cbn [fmap option_fmap option_map]. assert (El : (length s = startPos + length h + S (length r))%nat).
    { apply (f_equal length) in E. rewrite length_drop, length_app in E. cbn [length] in E. lia. }
    rewrite IH by lia. replace (startPos + length h - startPos)%nat with (length h) by lia. rewrite E, take_app_length, <- app_assoc.
    cbn [app]. do 2 f_equal. replace (S (startPos + length h)) with (startPos + (length h + 1))%nat by lia.
    rewrite <- drop_drop, E. rewrite drop_app_add. done.
Qed.

Lemma split_spec s c : split s c = split_on c s.
Proof. unfold split. rewrite split_loop_spec by lia. done. Qed.

(** * Widths *)

(** The lengths of the cells of a column. *)
Definition column (rows : list TextTableRow) (i : nat) : list nat := omap (fun r => length <$> fields r !! i) rows.

Definition width_of (rows : list TextTableRow) (i : nat) : option nat :=
  match column rows i with [] => None | l => Some (list_max l) end.

Definition widths_ok (t : TextTable) : Prop := forall i, mWidths t !! i = width_of (mTable t) i.

Inductive built : TextTable -> Prop :=
| built_new : built new_text_table
| built_empty t : built t -> built (add_empty t)
| built_row v t : built t -> built (add_row v t)
| built_text s t : built t -> built (add_text s t)
| built_all other t : built other -> built t -> built (addAll other t).

Lemma computeWidth_lookup ws v i : computeWidth ws v !! i =
  match ws !! i, v !! i with
  | Some w, Some f => Some (Nat.max w (length f))
  | Some w, None => Some w
  | None, Some f => Some (length f)
  | None, None => None
  end.
Proof.
  revert ws i. induction v as [|f v IH]; intros [|w ws] [|i]; cbn; try done.
  - by destruct (ws !! i).
  - by rewrite IH.
Qed.

Lemma column_snoc rows r i : column (rows ++ [r]) i = column rows i ++ match fields r !! i with Some f => [length f] | None => [] end.
Proof. unfold column. rewrite omap_app. cbn. by destruct (fields r !! i). Qed.

Lemma width_of_snoc rows r i : width_of (rows ++ [r]) i =
  match width_of rows i, fields r !! i with
  | Some w, Some f => Some (Nat.max w (length f))
  | Some w, None => Some w
  | None, Some f => Some (length f)
  | None, None => None
  end.
Proof.
  unfold width_of. rewrite column_snoc. destruct (column rows i) as [|n l], (fields r !! i) as [f|]; cbn [app]; rewrite ?app_nil_r; try done.
  - cbn. by rewrite Nat.max_0_r.
  - change (n :: l ++ [length f]) with ((n :: l) ++ [length f]). rewrite list_max_app. cbn [list_max foldr]. by rewrite Nat.max_0_r.
Qed.

Lemma widths_push t r ws : widths_ok t -> (forall i, ws !! i = computeWidth (mWidths t) (fields r) !! i) ->
  widths_ok {| mWidths := ws; mTable := mTable t ++ [r] |}.
Proof. intros H Hw i. cbn. by rewrite Hw, width_of_snoc, computeWidth_lookup, (H i). Qed.

Lemma widths_row t r : widths_ok t ->
  widths_ok {| mWidths := if isRow r then computeWidth (mWidths t) (fields r) else mWidths t; mTable := mTable t ++ [r] |}.
Proof. intros H. apply widths_push; [done|]. intros i. unfold isRow. by destruct (fields r), (mWidths t). Qed.

Lemma built_widths t : built t -> widths_ok t.
Proof.
  induction 1 as [|t _ IH|v t _ IH|s t _ IH|other t _ _ _ IH]; [done|..].
  - by apply widths_push.
  - by apply widths_push.
  - by apply widths_push.
  - unfold addAll. revert t IH. induction (mTable other) as [|r rows IHr]; intros t IH; [done|]. cbn. by apply IHr, widths_row.
Qed.

(** * Layout *)

(** Where the [i]-th column starts. *)
Fixpoint offset (widths : list nat) (i : nat) : nat :=
  match i with
  | O => 0
  | S i' => offset widths i' + default 0 (widths !! i') + 1
  end.

(** Every cell stands at its column with blanks up to the next, the last one at
    the end of the line. *)
Definition row_layout (widths : list nat) (fs : list str) (l : str) : Prop :=
  forall i f, fs !! i = Some f ->
    take (length f) (drop (offset widths i) l) = f /\
    if (S i =? length fs) then length l = offset widths i + length f
    else offset widths i + length f < offset widths (S i) /\
         take (offset widths (S i) - offset widths i - length f) (drop (offset widths i + length f) l) =
           replicate (offset widths (S i) - offset widths i - length f) space.

Definition line_layout (widths : list nat) (r : TextTableRow) (l : str) : Prop :=
  if isRow r then row_layout widths (fields r) l else l = line r.

Definition fits (widths : list nat) (i : nat) (fs : list str) : Prop :=
  forall k f, fs !! k = Some f -> exists w, widths !! (i + k) = Some w /\ length f <= w.

Lemma fits_tail widths i f fs : fits widths i (f :: fs) -> fits widths (S i) fs.
Proof. intros H k g Hk. destruct (H (S k) g Hk) as (w & Hw & Hl). exists w. by rewrite <- Nat.add_succ_comm in Hw. Qed.

(** The cells from the [i]-th on, without the first separator. *)
Fixpoint cells_text (widths : list nat) (i : nat) (fs : list str) : str :=
  match fs with
  | [] => []
  | [f] => f
  | f :: rest => setw (default 0 (widths !! i)) f ++ [space] ++ cells_text widths (S i) rest
  end.

Lemma dump_fields_spec widths i fs : fits widths i fs ->
  dump_fields widths i fs = Some (match fs with [] => [] | _ => (if (i =? 0) then [] else [space]) ++ cells_text widths i fs end).
Proof.
  revert i. induction fs as [|f fs IH]; intros i Hf; [done|]. destruct fs as [|g fs]; [done|].
  pose proof (IH (S i) (fits_tail _ _ _ _ Hf)) as E. destruct (Hf 0 f eq_refl) as (w & Hw & _). rewrite Nat.add_0_r in Hw.
  change (dump_fields widths i (f :: g :: fs)) with
    (match widths !! i, dump_fields widths (S i) (g :: fs) with
     | Some w, Some tail => Some ((if (i =? 0) then [] else [space]) ++ setw w f ++ tail) | _, _ => None end).
  rewrite E, Hw. cbn [Nat.eqb]. f_equal. cbn [cells_text]. rewrite Hw. done.
Qed.

Lemma length_setw w f : length f <= w -> length (setw w f) = w.
Proof. intros H. unfold setw. rewrite length_app, length_replicate. lia. Qed.

Lemma offset_shift widths i k : offset widths (i + S k) = offset widths i + default 0 (widths !! i) + 1 + (offset widths (i + S k) - offset widths (S i)).
Proof.
  induction k as [|k IH].
  - rewrite Nat.add_1_r. cbn [offset]. lia.
  - rewrite !Nat.add_succ_r in *. cbn [offset] in *. lia.
Qed.

(** The cells from the [i]-th on are laid out from its column on. *)
Lemma cells_layout widths i fs k f : fits widths i fs -> fs !! k = Some f ->
  let o := offset widths (i + k) - offset widths i in
  take (length f) (drop o (cells_text widths i fs)) = f /\
  if (S k =? length fs) then length (cells_text widths i fs) = o + length f
  else exists w, widths !! (i + k) = Some w /\ length f <= w /\
       take (w + 1 - length f) (drop (o + length f) (cells_text widths i fs)) = replicate (w + 1 - length f) space.
Proof.
  cbv zeta. revert i k. induction fs as [|g fs IH]; intros i k Hf Hk; [done|]. destruct (Hf 0 g eq_refl) as (w & Hw & Hl). rewrite Nat.add_0_r in Hw.
  destruct fs as [|h fs].
  - destruct k as [|k]; [|done]. injection Hk as ->. rewrite Nat.add_0_r, Nat.sub_diag. cbn. by rewrite firstn_all.
  - change (cells_text widths i (g :: h :: fs)) with (setw (default 0 (widths !! i)) g ++ [space] ++ cells_text widths (S i) (h :: fs)).
    rewrite Hw. change (default 0 (Some w)) with w. destruct k as [|k].
    + injection Hk as ->. rewrite Nat.add_0_r, Nat.sub_diag. cbn [Nat.add]. rewrite drop_0. unfold setw. rewrite <- app_assoc, take_app_length.
      split; [done|]. cbn [Nat.eqb length]. exists w. split_and!; [done|done|]. rewrite drop_app_length.
      replace (w + 1 - length f) with (w - length f + 1) by lia. rewrite replicate_add, app_assoc.
      rewrite take_app_le by (rewrite length_app, length_replicate; cbn; lia). rewrite firstn_all2 by (rewrite length_app, length_replicate; cbn; lia). done.
    + pose proof (IH (S i) k (fits_tail _ _ _ _ Hf) Hk) as [IH1 IH2].
      pose proof (offset_shift widths i k) as Eo. assert (Es : offset widths (S i) = offset widths i + w + 1) by (cbn [offset]; by rewrite Hw).
      rewrite Hw in Eo. change (default 0 (Some w)) with w in Eo.
      replace (S i + k) with (i + S k) in * by lia. set (o := offset widths (i + S k)) in *.
      assert (Ed : drop (o - offset widths i) (setw w g ++ [space] ++ cells_text widths (S i) (h :: fs)) =
        drop (o - offset widths (S i)) (cells_text widths (S i) (h :: fs))).
      { rewrite app_assoc, drop_app, length_app, length_setw by done. cbn [length].
        rewrite drop_ge by (rewrite length_app, length_setw by done; cbn; lia). cbn [app]. f_equal. lia. }
      rewrite Ed. split; [done|]. change (S (S k) =? length (g :: h :: fs)) with (S k =? length (h :: fs)).
      destruct (S k =? length (h :: fs)).
      * rewrite !length_app, length_setw by done. rewrite IH2. cbn [length]. lia.
      * destruct IH2 as (w' & Hw' & Hl' & E'). exists w'. split_and!; [done|done|]. rewrite <- E'. f_equal.
        rewrite <- !drop_drop, Ed. done.
Qed.

Lemma dump_fields_layout widths fs : fits widths 0 fs -> exists l, dump_fields widths 0 fs = Some l /\ row_layout widths fs l.
Proof.
  intros Hf. exists (cells_text widths 0 fs). split; [rewrite dump_fields_spec by done; by destruct fs|].
  intros i f Hi. destruct (cells_layout widths 0 fs i f Hf Hi) as [H1 H2]. cbn [Nat.add offset] in H1, H2. rewrite Nat.sub_0_r in H1, H2.
  split; [done|]. destruct (S i =? length fs); [done|]. destruct H2 as (w & Hw & Hl & E). cbn [offset]. rewrite Hw.
  change (default 0 (Some w)) with w. split; [lia|].
  by replace (offset widths i + w + 1 - offset widths i - length f) with (w + 1 - length f) by lia.
Qed.

Lemma widths_fit t r : widths_ok t -> r ∈ mTable t -> fits (mWidths t) 0 (fields r).
Proof.
  intros H Hr k f Hk. rewrite Nat.add_0_l. rewrite (H k). unfold width_of.
  assert (Hin : length f ∈ column (mTable t) k).
  { unfold column. apply list_elem_of_omap. exists r. by rewrite Hk. }
  destruct (column (mTable t) k) as [|n l] eqn:E; [by apply not_elem_of_nil in Hin|]. eexists. split; [done|].
  pose proof (proj1 (list_max_le (n :: l) (list_max (n :: l))) (Nat.le_refl _)) as Hall. rewrite List.Forall_forall in Hall.
  apply Hall. by apply list_elem_of_In.
Qed.

Lemma dump_rows widths rows : (forall r, r ∈ rows -> fits widths 0 (fields r)) ->
  exists lines, mapM (dump_row widths) rows = Some (map (fun l => l ++ [newline]) lines) /\ Forall2 (line_layout widths) rows lines.
Proof.
  induction rows as [|r rows IH]; intros Hf; [by exists []; split; [|constructor]|].
  destruct IH as (lines & E & Hl); [intros r' Hr'; apply Hf; by right|].
  assert (Hrow : exists l, dump_row widths r = Some (l ++ [newline]) /\ line_layout widths r l).
  { unfold dump_row, line_layout. destruct (isRow r); [|by exists (line r)].
    destruct (dump_fields_layout widths (fields r) (Hf r ltac:(left))) as (l & El & Hlay). exists l. by rewrite El. }
  destruct Hrow as (l & El & Hlay). exists (l :: lines). split; [|by constructor]. cbn [mapM]. by rewrite El, E.
Qed.

(** ** Words *)

(** The words of a line. *)
Definition words (s : str) : list str := List.filter (fun w => negb (bool_decide (w = []))) (split_on space s).

Lemma words_app a b : words (a ++ space :: b) = words a ++ words b.
Proof. unfold words. by rewrite split_on_app, List.filter_app. Qed.

Lemma words_blanks a n : words (a ++ replicate n space) = words a.
Proof.
  induction n as [|n IH]; [by rewrite app_nil_r|]. rewrite replicate_S_end, app_assoc.
  change ((a ++ replicate n space) ++ [space]) with ((a ++ replicate n space) ++ space :: []).
  rewrite words_app, IH. by rewrite app_nil_r.
Qed.

Lemma cells_words widths i fs : words (cells_text widths i fs) = concat (map words fs).
Proof.
  revert i. induction fs as [|f fs IH]; intros i; [done|]. destruct fs as [|g fs]; [cbn; by rewrite app_nil_r|].
  change (cells_text widths i (f :: g :: fs)) with (setw (default 0 (widths !! i)) f ++ space :: cells_text widths (S i) (g :: fs)).
  rewrite words_app, IH. unfold setw. rewrite words_blanks. done.
Qed.

Lemma cells_newline widths i fs : (forall f, f ∈ fs -> newline ∉ f) -> newline ∉ cells_text widths i fs.
Proof.
  revert i. induction fs as [|f fs IH]; intros i Hf; [by apply not_elem_of_nil|]. destruct fs as [|g fs]; [apply Hf; left|].
  change (cells_text widths i (f :: g :: fs)) with (setw (default 0 (widths !! i)) f ++ space :: cells_text widths (S i) (g :: fs)).
  unfold setw. intros [[Hn|[Hn _]%elem_of_replicate]%elem_of_app|[Hn|Hn]%elem_of_cons]%elem_of_app; [|done|done|].
  - by apply (Hf f); [left|].
  - by apply (IH (S i)); [intros h Hh; apply Hf; by right|].
Qed.

(** ** The text of tables *)

Lemma addAll_rows other t : mTable (addAll other t) = mTable t ++ mTable other.
Proof.
  unfold addAll. revert t. induction (mTable other) as [|r rows IH]; intros t; cbn; [by rewrite app_nil_r|].
  rewrite IH. cbn. by rewrite <- app_assoc.
Qed.

Section Tables.
Context {libs : HalLibraries}.

Lemma add_entries_built columns emit n entries text : built text -> built (add_entries columns emit n entries text).
Proof.
  revert n text. induction entries as [|e entries IH]; intros n text H; [done|]. cbn [add_entries]. apply IH.
  destruct emit as [emit|]; [destruct (emit n (interfaceName e))|]; repeat constructor; done.
Qed.

Lemma createTextTable_built neat emit t : built (createTextTable neat emit t).
Proof. unfold createTextTable. apply add_entries_built. destruct neat; repeat constructor. Qed.

Lemma merged_built tables text : built text -> built (fold_left (fun text t => addAll (createTextTable true None t) text) tables text).
Proof. revert text. induction tables as [|t tables IH]; intros text H; [done|]. cbn. apply IH. constructor; [apply createTextTable_built|done]. Qed.

Definition entry_row (columns : list TableColumnType) (e : TableEntry) : TextTableRow := cells (map (getField e) columns).

Lemma add_entries_rows columns n entries text : mTable (add_entries columns None n entries text) = mTable text ++ map (entry_row columns) entries.
Proof.
  revert n text. induction entries as [|e entries IH]; intros n text; cbn; [by rewrite app_nil_r|]. rewrite IH. cbn. by rewrite <- app_assoc.
Qed.

Lemma merged_rows tables text :
  mTable (fold_left (fun text t => addAll (createTextTable true None t) text) tables text) =
  mTable text ++ concat (map (fun t => map (entry_row (mSelectedColumns t)) (mEntries t)) tables).
Proof.
  revert text. induction tables as [|t tables IH]; intros text; cbn; [by rewrite app_nil_r|].
  rewrite IH, addAll_rows. unfold createTextTable. rewrite add_entries_rows. cbn. by rewrite <- app_assoc.
Qed.

End Tables.

Lemma dump_row_spec widths r : fits widths 0 (fields r) ->
  dump_row widths r = Some ((if isRow r then cells_text widths 0 (fields r) else line r) ++ [newline]).
Proof. intros Hf. unfold dump_row, isRow. rewrite dump_fields_spec by done. by destruct (fields r). Qed.

Lemma dump_lines widths rows : (forall r, r ∈ rows -> fits widths 0 (fields r)) ->
  mapM (dump_row widths) rows = Some (map (fun r => (if isRow r then cells_text widths 0 (fields r) else line r) ++ [newline]) rows).
Proof.
  induction rows as [|r rows IH]; intros Hf; [done|]. cbn [mapM map]. rewrite dump_row_spec by (apply Hf; left).
  rewrite IH by (intros r' Hr'; apply Hf; by right). done.
Qed.

(** * Properties *)

(** Whatever rows, comments and other tables a text table was built from, printing it
    reads no width out of range; the width of each column is the length of its
    longest cell, every cell of a row stands at the start of its column with
    blanks up to the next column, and a line ends with its last cell. *)
Theorem text_table_layout (t : TextTable) :
  built t ->
  (forall i, mWidths t !! i = width_of (mTable t) i) /\
  exists lines, dump t = Some (concat (map (fun l => l ++ [newline]) lines)) /\ Forall2 (line_layout (mWidths t)) (mTable t) lines.
Proof.
  intros Hb. pose proof (built_widths t Hb) as Hw. split; [exact Hw|].
  destruct (dump_rows (mWidths t) (mTable t)) as (lines & E & Hl); [intros r Hr; by apply widths_fit|].
  exists lines. split; [|done]. unfold dump. by rewrite E.
Qed.

(** The output of [lshal --neat] can be read by a machine: there is one
    line for each entry of the tables, in their order, and the words of the line are
    those of the selected fields, in the order of the columns. *)
Theorem neat_output_words {libs : HalLibraries} (tables : list Table) :
  (forall t e c, t ∈ tables -> e ∈ mEntries t -> c ∈ mSelectedColumns t -> newline ∉ getField e c) ->
  exists text lines, dump (merged_table tables) = Some text /\ getlines newline text = lines /\
    map words lines =
      concat (map (fun t => map (fun e => concat (map (fun c => words (getField e c)) (mSelectedColumns t))) (mEntries t)) tables).
Proof.
  intros Hn. set (t := merged_table tables).
  assert (Hb : built t) by (apply merged_built; constructor). pose proof (built_widths t Hb) as Hw.
  assert (Er : mTable t = concat (map (fun t => map (entry_row (mSelectedColumns t)) (mEntries t)) tables)) by exact (merged_rows tables new_text_table).
  set (lines := map (fun r => if isRow r then cells_text (mWidths t) 0 (fields r) else line r) (mTable t)).
  assert (Hin : forall r, r ∈ mTable t -> exists t0 e, t0 ∈ tables /\ e ∈ mEntries t0 /\ r = entry_row (mSelectedColumns t0) e).
  { intros r Hr. rewrite Er in Hr. apply list_elem_of_In, in_concat in Hr as (l & Hl & Hr). apply in_map_iff in Hl as (t0 & <- & Ht0).
    apply in_map_iff in Hr as (e & <- & He). exists t0, e. by rewrite !list_elem_of_In. }
  exists (concat (map (fun l => l ++ [newline]) lines)), lines. split_and!.
  - unfold dump. rewrite dump_lines by (intros r Hr; by apply widths_fit). unfold lines. by rewrite map_map.
  - apply getlines_spec. intros l Hl. apply list_elem_of_In, in_map_iff in Hl as (r & <- & Hr).
    apply list_elem_of_In in Hr. destruct (Hin r Hr) as (t0 & e & Ht0 & He & ->). cbn [entry_row cells fields line].
    destruct (isRow _); [|by apply not_elem_of_nil]. apply cells_newline. intros f Hf. apply list_elem_of_In, in_map_iff in Hf as (c & <- & Hc).
    apply (Hn t0); [done|done|by apply list_elem_of_In].
  - unfold lines. rewrite map_map, Er, concat_map, map_map. f_equal. apply map_ext. intros t0. rewrite map_map. apply map_ext. intros e.
    unfold entry_row, isRow. cbn [cells fields line]. rewrite <- map_map with (g := words). rewrite <- (cells_words (mWidths t) 0).
    by destruct (map (getField e) (mSelectedColumns t0)).
Qed.

(** ** A table *)

Definition demo_libraries : HalLibraries := {|
  transport_to_string t := match t with EMPTY => [] | HWBINDER => lit "hwbinder" | PASSTHROUGH => lit "passthrough" end;
  arch_or a b := match a, b with ARCH_EMPTY, x | x, ARCH_EMPTY => x | ARCH_32, ARCH_32 => ARCH_32 | ARCH_64, ARCH_64 => ARCH_64 | _, _ => ARCH_32_64 end;
  hexString l := concat (map (fun b => [hex_digit (b / 16)%Z; hex_digit (b mod 16)%Z]) l);
  kEmptyHash := replicate 4 0%Z |}.
#[local] Existing Instance demo_libraries.

Definition demo_entry (name : string) (pid : Z) (clients : list Z) : TableEntry := {|
  interfaceName := lit name; transport := HWBINDER; serverPid := pid; threadUsage := 1; threadCount := 4; serverCmdline := [];
  serverObjectAddress := 43981; clientPids := clients; clientCmdlines := []; arch := ARCH_64; hash := lit "00000000";
  partition := VENDOR; vintfInfo := 5; serviceStatus := ALIVE |}.

Definition demo_tables : list Table :=
  [{| mDescription := lit "| services"; mEntries := [demo_entry "a@1.0::IA/default" 7 [1; 22]%Z; demo_entry "bb@1.0::IB/x" 100 []];
      mSelectedColumns := [VINTF; RELEASED; INTERFACE_NAME; THREADS; SERVER_PID; CLIENT_PIDS] |};
   {| mDescription := []; mEntries := [demo_entry "c@2.0" NO_PID [3]%Z]; mSelectedColumns := [INTERFACE_NAME; SERVER_ADDR] |}].

Lemma text_table_layout_witness :
  mWidths (merged_table demo_tables) = [5; 16; 17; 3; 3; 4] /\ is_Some (dump (merged_table demo_tables)) /\
  width_of (mTable (merged_table demo_tables)) 2 = Some 17.
Proof.
  assert (Hb : built (merged_table demo_tables)) by (apply merged_built; constructor).
  destruct (text_table_layout _ Hb) as [Hw (lines & E & _)]. split_and!; [by vm_compute|by rewrite E|by rewrite <- Hw].
Defined.

Lemma neat_output_words_witness :
  exists text lines, dump (merged_table demo_tables) = Some text /\ getlines newline text = lines /\
    map words lines = [[lit "DM,FM"; lit "N"; lit "a@1.0::IA/default"; lit "1/4"; lit "7"; lit "1"; lit "22"];
                       [lit "DM,FM"; lit "N"; lit "bb@1.0::IB/x"; lit "1/4"; lit "100"]; [lit "c@2.0"; lit "000000000000abcd"]].
Proof.
  destruct (neat_output_words demo_tables) as (text & lines & E1 & E2 & E3);
    [|exists text, lines; split_and!; [done|done|rewrite E3; by vm_compute]].
  intros t e c Ht He Hc. assert (Hall : forallb (fun t => forallb (fun e => forallb (fun c => negb (bool_decide (newline ∈ getField e c))) (mSelectedColumns t)) (mEntries t)) demo_tables = true)
    by (by vm_compute).
  rewrite forallb_forall in Hall. specialize (Hall t ltac:(by apply list_elem_of_In)). rewrite forallb_forall in Hall.
  specialize (Hall e ltac:(by apply list_elem_of_In)). rewrite forallb_forall in Hall. specialize (Hall c ltac:(by apply list_elem_of_In)).
  by apply negb_true_iff, bool_decide_eq_false in Hall.
Defined.
