(* ===== verification/LshalPids.v ===== *)
(** What [lshal] learns of processes: [ListCommand::getPidInfo] reads what the
    binder driver says of the hwbinder context of a process, and
    [libprocpartition] guesses the partition that a process comes from.

    The regular expressions are matched with backtracking as [std::regex] does
    it; [ParseInt] and [ParseUint] of [android-base] are a class. *)

From S2P Require Import Prelude CLib LshalTable.

Open Scope Z_scope.

(** * Regular expressions *)

(** What the three expressions are made of: one, some ([+]) or any ([*]) of
    a class of characters, captured or not, and the end of the line. They all
    start at the beginning of the line. *)
Inductive quantity := One | Plus | Star.
Inductive item := Chars (n : quantity) (p : ascii -> bool) (captured : bool) | End.

Definition str_items (s : string) : list item := map (fun c => Chars One (Ascii.eqb c) false) (lit s).

(** As many as there are, fewer if the rest does not match. *)
Fixpoint greedy (p : ascii -> bool) (k : str -> str -> option (list str)) (taken s : str) : option (list str) :=
  match s with
  | c :: rest =>
      if p c then match greedy p k (taken ++ [c]) rest with Some r => Some r | None => k taken s end
      else k taken s
  | [] => k taken s
  end.

(** The captures of a match at the front of the string. *)
Fixpoint match_items (items : list item) (s : str) (captures : list str) : option (list str) :=
  match items with
  | [] => Some captures
  | End :: rest => match s with [] => match_items rest s captures | _ => None end
  | Chars n p captured :: rest =>
      let k taken s := match_items rest s (if captured : bool then captures ++ [taken] else captures) in
      match n, s with
      | One, c :: s' | Plus, c :: s' =>
          if p c then match n with One => k [c] s' | _ => greedy p k [c] s' end else None
      | One, [] | Plus, [] => None
      | Star, _ => greedy p k [] s
      end
  end.

Definition regex_search (line : str) (items : list item) : option (list str) := match_items items line [].

Definition is_lower_hex (c : ascii) : bool := is_decimal c || ((97 <=? code c) && (code c <=? 102)).

(** "^context (\w+)$" *)
Definition kContextLine : list item := str_items "context " ++ [Chars Plus is_word true; End].

(** "^\s*node \d+:\s+u([0-9a-f]+)\s+c([0-9a-f]+)\s+" *)
Definition kReferencePrefix : list item :=
  [Chars Star is_space false] ++ str_items "node " ++ [Chars Plus is_decimal false] ++ str_items ":" ++ [Chars Plus is_space false] ++
  str_items "u" ++ [Chars Plus is_lower_hex true; Chars Plus is_space false] ++
  str_items "c" ++ [Chars Plus is_lower_hex true; Chars Plus is_space false].

(** "^\s*thread \d+:\s+l\s+(\d)(\d)" *)
Definition kThreadPrefix : list item :=
  [Chars Star is_space false] ++ str_items "thread " ++ [Chars Plus is_decimal false] ++ str_items ":" ++ [Chars Plus is_space false] ++
  str_items "l" ++ [Chars Plus is_space false; Chars One is_decimal true; Chars One is_decimal true].

(** * getPidInfo *)

Record PidInfo := { refPids : gmap Z (list Z); pi_threadUsage : Z; pi_threadCount : Z }.

Definition new_pid_info : PidInfo := {| refPids := ∅; pi_threadUsage := 0; pi_threadCount := 0 |}.

(** [std::string::rfind] of a string. *)
Fixpoint rfind_str (sub s : str) : option nat :=
  match s with
  | [] => if prefixb sub [] then Some O else None
  | _ :: rest =>
      match rfind_str sub rest with
      | Some i => Some (S i)
      | None => if prefixb sub s then Some O else None
      end
  end.

(** [ParseUint] of 64 bits, [ParseInt] of 32 bits. *)
Class ParseNumbers := {
  ParseUint : str -> option Z;
  ParseInt : str -> option Z;
}.

Section PidInfo.
Context {numbers : ParseNumbers}.

(** The process ids at the end of a line, up to one that cannot be read. *)
Fixpoint push_pids (ptr : Z) (pids : list str) (info : PidInfo) : PidInfo :=
  match pids with
  | [] => info
  | pidStr :: rest =>
      match ParseInt pidStr with
      | None => info
      | Some pid =>
          push_pids ptr rest {| refPids := <[ptr := default [] (refPids info !! ptr) ++ [pid]]> (refPids info);
                                pi_threadUsage := pi_threadUsage info; pi_threadCount := pi_threadCount info |}
      end
  end.

Definition proc : str := lit " proc ".

Definition eachLine (line : str) (info : PidInfo) : PidInfo :=
  match regex_search line kReferencePrefix with
  | Some captures =>
      match ParseUint (lit "0x" ++ nth 1 captures []) with
      | None => info
      | Some ptr =>
          match rfind_str proc line with
          | Some pos => push_pids ptr (split (drop (pos + length proc) line) " ") info
          | None => info
          end
      end
  | None =>
      match regex_search line kThreadPrefix with
      | Some captures =>
          let isInUse := negb (nth 0 captures [] =s? lit "1") in
          let isHwbinderThread := negb (nth 1 captures [] =s? lit "0") in
          if negb isHwbinderThread then info
          else {| refPids := refPids info;
                  pi_threadUsage := if isInUse then u32 (pi_threadUsage info + 1) else pi_threadUsage info;
                  pi_threadCount := u32 (pi_threadCount info + 1) |}
      | None => info
      end
  end.

(** The loop over the lines of the file. *)
Fixpoint scan_lines (contextName : str) (isDesiredContext : bool) (lines : list str) (info : PidInfo) : PidInfo :=
  match lines with
  | [] => info
  | line :: rest =>
      match regex_search line kContextLine with
      | Some captures => scan_lines contextName (nth 0 captures [] =s? contextName) rest info
      | None => scan_lines contextName isDesiredContext rest (if isDesiredContext then eachLine line info else info)
      end
  end.

(** [scanBinderContext] of a file that may not be there: whether it could be
    opened, and the result. *)
Definition scanBinderContext (file : option str) (contextName : str) (info : PidInfo) : bool * PidInfo :=
  match file with
  | None => (false, info)
  | Some content => (true, scan_lines contextName false (getlines newline content) info)
  end.

Definition getPidInfo (file : option str) (info : PidInfo) : bool * PidInfo := scanBinderContext file (lit "hwbinder") info.

End PidInfo.

Definition binder_proc_file (pid : Z) : str := lit "/d/binder/proc/" ++ fmt_d pid.

(** * libprocpartition *)

Definition parsePartition (s : str) : Partition :=
  if s =s? lit "system" then SYSTEM
  else if s =s? lit "vendor" then VENDOR
  else if s =s? lit "odm" then ODM
  else UNKNOWN.

Definition getPartitionFromRealpath (path : str) : Partition :=
  if (path =s? lit "/system/bin/app_process64") || (path =s? lit "/system/bin/app_process32") then UNKNOWN
  else
    let partition := match find_char "/" path 1 with Some backslash => take (backslash - 1) (drop 1 path) | None => path end in
    parsePartition partition.

(** [ReadFileToString] of the command line, up to its first word. *)
Definition getCmdline (content : option str) : str := match content with Some content => c_str content | None => [] end.

Definition getExe (link : str -> option str) (realpath : str -> option str) (pid : Z) : str :=
  match link (lit "/proc/" ++ fmt_d pid ++ lit "/exe") with
  | None => []
  | Some exe => default [] (realpath exe)
  end.

Definition is_absolute (s : str) : bool := match s with c :: _ => Ascii.eqb c "/" | [] => false end.

Definition getPartitionFromCmdline (cmdline : str) : Partition :=
  if cmdline =s? lit "system_server" then SYSTEM
  else if negb (is_absolute cmdline) then UNKNOWN
  else getPartitionFromRealpath cmdline.

Definition getPartitionFromExe (real : str) : Partition :=
  if negb (is_absolute real) then UNKNOWN else getPartitionFromRealpath real.

Definition getPartition (exe : str) (cmdline : str) : Partition :=
  match getPartitionFromExe exe with UNKNOWN => getPartitionFromCmdline cmdline | p => p end.

(** * Matching *)

Lemma greedy_all p k taken a b r : forallb p a = true -> match b with c :: _ => p c = false | [] => True end ->
  k (taken ++ a) b = Some r -> greedy p k taken (a ++ b) = Some r.
Proof.
  revert taken. induction a as [|c a IH]; intros taken Ha Hb Hk; cbn [app].
  - rewrite app_nil_r in Hk. destruct b as [|c b]; [done|]. cbn. by rewrite Hb.
  - cbn in Ha |- *. apply andb_true_iff in Ha as [-> Ha]. rewrite (IH (taken ++ [c])); [done|done|done|]. by rewrite <- app_assoc.
Qed.

Lemma match_star p captured rest a b captures r : forallb p a = true -> match b with c :: _ => p c = false | [] => True end ->
  match_items rest b (if captured : bool then captures ++ [a] else captures) = Some r ->
  match_items (Chars Star p captured :: rest) (a ++ b) captures = Some r.
Proof. intros Ha Hb H. cbn. assert (E : greedy p (fun taken s => match_items rest s (if captured then captures ++ [taken] else captures)) [] (a ++ b) = Some r) by (by apply greedy_all).
  by destruct (a ++ b). Qed.

Lemma match_plus p captured rest a b captures r : a <> [] -> forallb p a = true -> match b with c :: _ => p c = false | [] => True end ->
  match_items rest b (if captured : bool then captures ++ [a] else captures) = Some r ->
  match_items (Chars Plus p captured :: rest) (a ++ b) captures = Some r.
Proof.
  intros Hne Ha Hb H. destruct a as [|c a]; [done|]. cbn in Ha |- *. apply andb_true_iff in Ha as [-> Ha]. by apply greedy_all.
Qed.

Lemma match_str s rest b captures : match_items (str_items s ++ rest) (lit s ++ b) captures = match_items rest b captures.
Proof.
  unfold str_items, lit. induction (String.list_ascii_of_string s) as [|c l IH]; [done|]. cbn [map app match_items]. rewrite Ascii.eqb_refl.
  destruct captures; exact IH.
Qed.

(** * Lines *)

Lemma rfind_none s : "p"%char ∉ tail s -> rfind_str proc s = None.
Proof.
  induction s as [|c s IH]; [done|]. cbn [tail rfind_str]. intros Hp. rewrite IH by (destruct s; [done|]; cbn; set_solver).
  destruct (prefixb proc (c :: s)) eqn:E; [|done]. apply prefixb_spec in E as [t E]. destruct s as [|d s]; [done|]. injection E as _ -> _. destruct Hp. left.
Qed.

Lemma rfind_last sub a b : rfind_str sub (tail (sub ++ b)) = None -> sub <> [] -> rfind_str sub (a ++ sub ++ b) = Some (length a).
Proof.
  intros Hn Hne. induction a as [|c a IH].
  - cbn [app length]. pose proof (prefixb_app sub b) as Hp. destruct (sub ++ b) as [|c l] eqn:E; [by destruct sub|]. cbn [rfind_str tail] in *.
    by rewrite Hn, Hp.
  - cbn [app rfind_str length]. by rewrite IH.
Qed.

Lemma split_on_join c l : l <> [] -> (forall x, x ∈ l -> c ∉ x) -> split_on c (join l [c]) = l.
Proof.
  intros Hne Hl. induction l as [|x l IH]; [done|]. destruct l as [|y l]; [apply split_on_single, Hl; left|].
  change (join (x :: y :: l) [c]) with (x ++ c :: join (y :: l) [c]). rewrite split_on_app, (split_on_single c x) by (apply Hl; left).
  rewrite IH; [done|done|]. intros z Hz. apply Hl. by right.
Qed.

(** The lines of a file, with the numbers that they show. *)
Inductive proc_line :=
| Context (name : str)
| Node (id u c : str) (ptr : Z) (flags : str) (pids : list Z)
| Thread (id : str) (l0 l1 : ascii) (rest : str)
| Other (s : str).

Definition pids_text (pids : list Z) : str := match pids with [] => [] | _ => proc ++ join (map fmt_d pids) [space] end.

Definition line_text (l : proc_line) : str :=
  match l with
  | Context name => lit "context " ++ name
  | Node id u c _ flags pids => lit "  " ++ lit "node " ++ id ++ lit ":" ++ lit " " ++ lit "u" ++ u ++ lit " " ++ lit "c" ++ c ++ lit " " ++ flags ++ pids_text pids
  | Thread id l0 l1 rest => lit "  " ++ lit "thread " ++ id ++ lit ":" ++ lit " " ++ lit "l" ++ lit " " ++ l0 :: l1 :: rest
  | Other s => s
  end.

Definition token (p : ascii -> bool) (s : str) : Prop := s <> [] /\ forallb p s = true.

Section Parsed.
Context {numbers : ParseNumbers}.

Definition line_ok (l : proc_line) : Prop :=
  newline ∉ line_text l /\
  match l with
  | Context name => token is_word name
  | Node id u c ptr flags pids =>
      token is_decimal id /\ token is_lower_hex u /\ token is_lower_hex c /\ ParseUint (lit "0x" ++ c) = Some ptr /\
      match flags with x :: _ => is_space x = false | [] => False end /\
      (forall pid, pid ∈ pids -> ParseInt (fmt_d pid) = Some pid) /\ (pids = [] -> rfind_str proc (line_text l) = None)
  | Thread id l0 l1 rest => token is_decimal id /\ is_decimal l0 = true /\ is_decimal l1 = true
  | Other s => regex_search s kContextLine = None /\ regex_search s kReferencePrefix = None /\ regex_search s kThreadPrefix = None
  end.

Lemma match_context name : token is_word name -> regex_search (lit "context " ++ name) kContextLine = Some [name].
Proof.
  intros [Hne Hw]. unfold regex_search, kContextLine. rewrite match_str. rewrite <- (app_nil_r name) at 1. by apply match_plus.
Qed.

Lemma match_node id u c ptr flags pids : line_ok (Node id u c ptr flags pids) ->
  regex_search (line_text (Node id u c ptr flags pids)) kReferencePrefix = Some [u; c].
Proof.
  intros (_ & [Hi1 Hi2] & [Hu1 Hu2] & [Hc1 Hc2] & _ & Hf & _). unfold regex_search, kReferencePrefix. cbn [line_text].
  destruct flags as [|x flags]; [done|].
  change ([Chars Star is_space false] ++ ?l) with (Chars Star is_space false :: l). apply match_star; [done|done|].
  rewrite match_str. apply match_plus; [done|done|done|]. rewrite match_str. apply match_plus; [done|done|done|].
  rewrite match_str. apply match_plus; [done|done|done|]. apply match_plus; [done|done|done|].
  rewrite match_str. apply match_plus; [done|done|done|]. apply match_plus; [done|done|done|]. done.
Qed.

Lemma match_thread id l0 l1 rest : line_ok (Thread id l0 l1 rest) ->
  regex_search (line_text (Thread id l0 l1 rest)) kThreadPrefix = Some [[l0]; [l1]].
Proof.
  intros (_ & [Hi1 Hi2] & H0 & H1). unfold regex_search, kThreadPrefix. cbn [line_text].
  change ([Chars Star is_space false] ++ ?l) with (Chars Star is_space false :: l). apply match_star; [done|done|].
  rewrite match_str. apply match_plus; [done|done|done|]. rewrite match_str. apply match_plus; [done|done|done|].
  rewrite match_str. apply match_plus; [done|done| |cbn; by rewrite H0, H1].
  unfold is_space. unfold is_decimal in H0. bool_props. lia.
Qed.

Lemma push_pids_spec ptr pids i : (forall pid, pid ∈ pids -> ParseInt (fmt_d pid) = Some pid) -> pids <> [] ->
  push_pids ptr (map fmt_d pids) i = {| refPids := <[ptr := default [] (refPids i !! ptr) ++ pids]> (refPids i);
    pi_threadUsage := pi_threadUsage i; pi_threadCount := pi_threadCount i |}.
Proof.
  revert i. induction pids as [|p pids IH]; intros i Hp Hne; [done|]. cbn [map push_pids].
  rewrite Hp by left. destruct pids as [|q pids]; [done|]. rewrite IH; [|intros x Hx; apply Hp; by right|done].
  cbn [refPids pi_threadUsage pi_threadCount]. rewrite lookup_insert_eq, insert_insert_eq. cbn. by rewrite <- app_assoc.
Qed.

Lemma eachLine_node id u c ptr flags pids info : line_ok (Node id u c ptr flags pids) ->
  eachLine (line_text (Node id u c ptr flags pids)) info =
  {| refPids := if bool_decide (pids = []) then refPids info else <[ptr := default [] (refPids info !! ptr) ++ pids]> (refPids info);
     pi_threadUsage := pi_threadUsage info; pi_threadCount := pi_threadCount info |}.
Proof.
  intros Hok. unfold eachLine. rewrite (match_node _ _ _ _ _ _ Hok). destruct Hok as (_ & _ & _ & _ & Hptr & _ & Hpids & Hnil).
  cbn [nth]. rewrite Hptr. destruct pids as [|pid pids].
  - rewrite Hnil by done. by destruct info.
  - rewrite bool_decide_false by done. clear Hnil. set (l := pid :: pids) in *.
    assert (Eb : forall x, x ∈ map fmt_d l -> space ∉ x).
    { intros x Hx. apply list_elem_of_In, in_map_iff in Hx as (z & <- & _). by apply numeral_not; [|apply fmt_d_numeral]. }
    assert (Ep : "p"%char ∉ join (map fmt_d l) [space]).
    { generalize l. clear. intros l. induction l as [|x l IH]; [by apply not_elem_of_nil|]. destruct l as [|y l].
      - by apply numeral_not; [|apply fmt_d_numeral].
      - change (join (map fmt_d (x :: y :: l)) [space]) with (fmt_d x ++ space :: join (map fmt_d (y :: l)) [space]).
        intros [Hx|[Hx|Hx]%elem_of_cons]%elem_of_app; [|done|done]. revert Hx. by apply numeral_not; [|apply fmt_d_numeral]. }
    set (prefix := lit "  " ++ lit "node " ++ id ++ lit ":" ++ lit " " ++ lit "u" ++ u ++ lit " " ++ lit "c" ++ c ++ lit " " ++ flags).
    assert (El : line_text (Node id u c ptr flags l) = prefix ++ proc ++ join (map fmt_d l) [space]).
    { unfold prefix. cbn [line_text pids_text l]. by rewrite <- !app_assoc. }
    rewrite El, rfind_last; [|apply rfind_none; unfold proc; cbn; set_solver|done].
    rewrite drop_app_add, drop_app_length, split_spec, split_on_join by done.
    by rewrite push_pids_spec.
Qed.

Lemma eachLine_thread id l0 l1 rest info : line_ok (Thread id l0 l1 rest) ->
  eachLine (line_text (Thread id l0 l1 rest)) info =
  if Ascii.eqb l1 "0" then info
  else {| refPids := refPids info;
          pi_threadUsage := if Ascii.eqb l0 "1" then pi_threadUsage info else u32 (pi_threadUsage info + 1);
          pi_threadCount := u32 (pi_threadCount info + 1) |}.
Proof.
  intros Hok. unfold eachLine. rewrite (match_thread _ _ _ _ Hok).
  assert (En : regex_search (line_text (Thread id l0 l1 rest)) kReferencePrefix = None) by reflexivity. rewrite En. cbn [nth].
  assert (Es : forall c d : ascii, ([c] =s? [d]) = Ascii.eqb c d).
  { intros c d. destruct (Ascii.eqb_spec c d) as [->|Hne]; [apply str_eqb_refl|]. apply str_eqb_neq. congruence. }
  change (lit "1") with ["1"%char]. change (lit "0") with ["0"%char]. rewrite !Es.
  by destruct (Ascii.eqb l1 "0"), (Ascii.eqb l0 "1").
Qed.

(** ** Files *)

(** The lines of the contexts of a name. *)
Fixpoint lines_in (contextName : str) (desired : bool) (lines : list proc_line) : list proc_line :=
  match lines with
  | [] => []
  | Context name :: rest => lines_in contextName (name =s? contextName) rest
  | l :: rest => (if desired then [l] else []) ++ lines_in contextName desired rest
  end.

(** The processes that refer to a node, line by line. *)
Definition refs_of (lines : list proc_line) (ptr : Z) : list Z :=
  concat (map (fun l => match l with Node _ _ _ p _ pids => if (p =? ptr)%Z then pids else [] | _ => [] end) lines).

Definition looper (l : proc_line) : bool := match l with Thread _ _ l1 _ => negb (Ascii.eqb l1 "0") | _ => false end.
Definition in_use (l : proc_line) : bool := match l with Thread _ l0 _ _ => negb (Ascii.eqb l0 "1") | _ => false end.
Definition count (f : proc_line -> bool) (lines : list proc_line) : Z := Z.of_nat (length (List.filter f lines)).

(** What the lines say, on top of what is known. *)
Definition described (lines : list proc_line) (info info' : PidInfo) : Prop :=
  (forall ptr, default [] (refPids info' !! ptr) = default [] (refPids info !! ptr) ++ refs_of lines ptr) /\
  u32 (pi_threadUsage info') = u32 (pi_threadUsage info + count (fun l => looper l && in_use l) lines) /\
  u32 (pi_threadCount info') = u32 (pi_threadCount info + count looper lines).

Lemma described_nil info : described [] info info.
Proof. split_and!; intros; rewrite ?app_nil_r, ?Z.add_0_r; done. Qed.

Lemma u32_add_l a b : u32 (u32 a + b) = u32 (a + b).
Proof. unfold u32. by rewrite Zplus_mod_idemp_l. Qed.

Lemma described_app l1 l2 info info1 info2 : described l1 info info1 -> described l2 info1 info2 -> described (l1 ++ l2) info info2.
Proof.
  intros (A1 & B1 & C1) (A2 & B2 & C2).
  assert (Hc : forall f, count f (l1 ++ l2) = (count f l1 + count f l2)%Z).
  { intros f. unfold count. rewrite List.filter_app, length_app. lia. }
  assert (Hu : forall x y z n m, u32 y = u32 (x + n) -> u32 z = u32 (y + m) -> u32 z = u32 (x + (n + m))).
  { intros x y z n m E1 E2. by rewrite E2, <- u32_add_l, E1, u32_add_l, Z.add_assoc. }
  split_and!.
  - intros ptr. rewrite A2, A1, <- app_assoc. do 2 f_equal. unfold refs_of. by rewrite map_app, concat_app.
  - rewrite Hc. by eapply Hu.
  - rewrite Hc. by eapply Hu.
Qed.

Lemma eachLine_described l info : line_ok l -> match l with Context _ => False | _ => True end -> described [l] info (eachLine (line_text l) info).
Proof.
  intros Hok Hn. destruct l as [name|id u c ptr flags pids|id l0 l1 rest|s]; [done|..].
  - rewrite eachLine_node by done. split_and!; [|by rewrite Z.add_0_r..]. intros p. cbn. rewrite app_nil_r.
    case_bool_decide as E; [subst; destruct (_ =? _)%Z; by rewrite app_nil_r|].
    destruct (Z.eqb_spec ptr p) as [->|Hne]; [by rewrite lookup_insert_eq|]. by rewrite lookup_insert_ne, app_nil_r.
  - rewrite eachLine_thread by done. unfold described, refs_of, count. cbn [List.filter looper in_use map concat].
    destruct (Ascii.eqb l1 "0"), (Ascii.eqb l0 "1"); cbn [negb andb length refPids pi_threadUsage pi_threadCount];
      (split_and!; [intros; by rewrite app_nil_r|..]); rewrite ?Z.add_0_r; try done; unfold u32; by rewrite Z.mod_mod.
  - destruct Hok as (_ & _ & E1 & E2). unfold eachLine. cbn [line_text]. rewrite E1, E2. apply (described_nil info).
Qed.

Lemma context_line l : line_ok l -> regex_search (line_text l) kContextLine = match l with Context name => Some [name] | _ => None end.
Proof.
  intros [_ Hok]. destruct l as [name|id u c ptr flags pids|id l0 l1 rest|s]; [by apply match_context|reflexivity|reflexivity|by destruct Hok].
Qed.

Lemma scan_described contextName desired lines info : (forall l, l ∈ lines -> line_ok l) ->
  described (lines_in contextName desired lines) info (scan_lines contextName desired (map line_text lines) info).
Proof.
  revert desired info. induction lines as [|l lines IH]; intros desired info Hok; [apply described_nil|]. cbn [map scan_lines].
  pose proof (Hok l ltac:(left)) as Hl. assert (Hrest : forall l, l ∈ lines -> line_ok l) by (intros l' Hl'; apply Hok; by right).
  rewrite context_line by done. destruct l as [name|id u c ptr flags pids|id l0 l1 rest|s]; [by apply IH|..]; cbn [lines_in];
    (destruct desired; [|by apply IH]; eapply described_app; [by apply eachLine_described|by apply IH]).
Qed.

End Parsed.

(** * Properties *)

(** C39: what the binder driver says of a process is understood: for a file of contexts
    with nodes, threads and other lines, the processes that refer to a node are
    those that its lines in the hwbinder context name, in their order, and the
    threads are counted there, those in use apart; other contexts do not count. *)
Theorem pid_info_parsed {numbers : ParseNumbers} (lines : list proc_line) :
  (forall l, l ∈ lines -> line_ok l) ->
  exists info, getPidInfo (Some (concat (map (fun l => line_text l ++ [newline]) lines))) new_pid_info = (true, info) /\
    described (lines_in (lit "hwbinder") false lines) new_pid_info info.
Proof.
  intros Hok. unfold getPidInfo, scanBinderContext. eexists. split; [reflexivity|].
  rewrite <- (map_map line_text (fun l => l ++ [newline])), getlines_spec; [by apply scan_described|].
  intros l Hl. apply list_elem_of_In, in_map_iff in Hl as (l' & <- & Hl'). apply list_elem_of_In in Hl'. by apply Hok.
Qed.

(** ** A file *)

Definition demo_numbers : ParseNumbers := {|
  ParseUint s := match strtoll s 0 with (v, Some []) => if (0 <=? v)%Z then Some v else None | _ => None end;
  ParseInt s := match strtoll s 10 with (v, Some []) => if (v <? 2 ^ 31)%Z && (- 2 ^ 31 <=? v)%Z then Some v else None | _ => None end |}.
#[local] Existing Instance demo_numbers.

Definition demo_lines : list proc_line := [
  Other (lit "binder proc state:"); Context (lit "binder"); Node (lit "1") (lit "b4") (lit "b8") 184 (lit "pri 0:139") [9]%Z;
  Context (lit "hwbinder"); Thread (lit "11") "1" "2" (lit " need_return 0"); Thread (lit "12") "0" "1" []; Thread (lit "13") "0" "0" [];
  Node (lit "2") (lit "7f") (lit "7d0") 2000 (lit "pri 0:139 hs 1") [31; 4]%Z; Node (lit "3") (lit "7f") (lit "7d0") 2000 (lit "x") [5]%Z].

Lemma demo_lines_ok l : l ∈ demo_lines -> line_ok l.
Proof.
  intros H. repeat (apply elem_of_cons in H as [->|H]; [|]); [..|by apply not_elem_of_nil in H].
  all: split; [apply (bool_decide_eq_true_1 _); by vm_compute|]; cbn; rewrite ?bool_decide_eq_true; try done.
  all: split_and?; try done.
  all: intros pid Hp; repeat (apply elem_of_cons in Hp as [->|Hp]; [by vm_compute|]); by apply not_elem_of_nil in Hp.
Qed.

Lemma pid_info_parsed_witness :
  exists info, getPidInfo (Some (concat (map (fun l => line_text l ++ [newline]) demo_lines))) new_pid_info = (true, info) /\
    default [] (refPids info !! 2000%Z) = [31; 4; 5]%Z /\ default [] (refPids info !! 184%Z) = [] /\ u32 (pi_threadCount info) = 2%Z.
Proof.
  destruct (pid_info_parsed demo_lines demo_lines_ok) as (info & E & Hr & _ & Hc). exists info.
  split_and!; [done|by rewrite Hr|by rewrite Hr|by rewrite Hc].
Defined.
