(* ===== verification/LshalList.v ===== *)
(** The command [lshal list]: [ListCommand.cpp] up to its options and its
    output, which are in [LshalMain].

    What other processes and the libraries of HIDL and VINTF answer is the class
    [Hals]: an answer depends on the number of the question, so that it may
    change. Code that can dereference a null pointer is in the monad [M], where
    [None] is that crash. Messages to the error stream are left out. *)

From S2P Require Import Prelude CLib LshalTable LshalPids.

Open Scope Z_scope.

(** * Status *)

Definition OK : Z := 0.
Definition USAGE : Z := 1.
Definition NO_BINDERIZED_MANAGER : Z := 2.
Definition NO_PASSTHROUGH_MANAGER : Z := 4.
Definition DUMP_BINDERIZED_ERROR : Z := 8.
Definition DUMP_PASSTHROUGH_ERROR : Z := 16.
Definition DUMP_ALL_LIBS_ERROR : Z := 32.
Definition IO_ERROR : Z := 64.
Definition NO_INTERFACE : Z := 128.
Definition TRANSACTION_ERROR : Z := 256.
Definition BAD_IMPL : Z := 512.
Definition VINTF_ERROR : Z := 1024.

Inductive HalType := BINDERIZED_SERVICES | PASSTHROUGH_CLIENTS | PASSTHROUGH_LIBRARIES | VINTF_MANIFEST | LAZY_HALS.

#[export] Instance HalType_eq_dec : EqDecision HalType. Proof. solve_decision. Defined.

Inductive Architecture := ARCHITECTURE_UNKNOWN | IS_64BIT | IS_32BIT.
Inductive SchemaType := FRAMEWORK | DEVICE.

Record DebugInfo := { di_pid : Z; di_ptr : Z; di_arch : Architecture }.
Record InstanceDebugInfo := { info_interfaceName : str; info_instanceName : str; info_clientPids : list Z; info_arch : Architecture }.

(** * What others answer *)

Class Hals := {
  hals_libraries :: HalLibraries;
  hals_numbers :: ParseNumbers;
  Service : Type;                                        (* sp<IBase> *)
  (* the service managers; None: the call failed or timed out *)
  defaultServiceManager : bool;
  passthroughServiceManager : bool;
  list_names : nat -> option (list str);
  get_service : nat -> str -> str -> option (option Service);
  debugDump : nat -> bool -> option (list InstanceDebugInfo);
  (* services *)
  getDebugInfo : nat -> Service -> option DebugInfo;
  interfaceChain : nat -> Service -> option (list str);
  getHashChain : nat -> Service -> option (list (list Z));
  (* processes *)
  my_pid : Z;
  read_file : nat -> str -> option str;
  read_link : nat -> str -> option str;
  real_path : nat -> str -> option str;
  (* names *)
  FqInstance : Type;
  Version : Type;
  setTo : str -> option FqInstance;
  getPackage : FqInstance -> str;
  getVersion : FqInstance -> Version;
  fq_interface : FqInstance -> option str;
  fq_instance : FqInstance -> option str;
  inPackage : FqInstance -> str -> bool;
  minorAtLeast : Version -> Version -> bool;
  parse_version : str -> option Version;
  FQName : Type;
  FQName_parse : str -> option FQName;
  package_and_version : FQName -> FQName;
  fqname_eqb : FQName -> FQName -> bool;
  gIBase_package : str;
  (* VINTF objects; None: null *)
  ManifestInstance : Type;
  MatrixInstance : Type;
  HalManifest : Type;
  CompatibilityMatrix : Type;
  manifest_instances : HalManifest -> list ManifestInstance;
  manifest_type : HalManifest -> SchemaType;
  instances_of_version : HalManifest -> str -> Version -> list ManifestInstance;
  matrix_of_version : CompatibilityMatrix -> str -> Version -> list MatrixInstance;
  mi_name : ManifestInstance -> str;
  mi_transport : ManifestInstance -> Transport;
  mi_arch : ManifestInstance -> Arch;
  mi_interface : ManifestInstance -> str;
  mi_instance : ManifestInstance -> str;
  mx_interface : MatrixInstance -> str;
  mx_matchInstance : MatrixInstance -> str -> bool;
  arch_contains : Arch -> Arch -> bool;
  getDeviceManifest : option HalManifest;
  getFrameworkManifest : option HalManifest;
  getDeviceMatrix : option CompatibilityMatrix;
  getFrameworkMatrix : option CompatibilityMatrix;
  new_manifest : SchemaType -> HalManifest;
  insertInstance : HalManifest -> FqInstance -> Transport -> Arch -> option HalManifest;
  (* std::sort *)
  std_sort : (TableEntry -> TableEntry -> bool) -> list TableEntry -> list TableEntry;
}.

(** * Ordered maps *)

(** [std::map] as a list in the order of its keys: the value of a key is
    changed, a new key gets [v0] first. *)
Fixpoint map_update {A} (key : str) (v0 : A) (f : A -> A) (m : list (str * A)) : list (str * A) :=
  match m with
  | [] => [(key, f v0)]
  | (k, v) :: rest =>
      if str_ltb key k then (key, f v0) :: m
      else if str_ltb k key then (k, v) :: map_update key v0 f rest
      else (k, f v) :: rest
  end.

Definition map_find {A} (key : str) (m : list (str * A)) : option A := snd <$> List.find (fun e => fst e =s? key) m.

(** * The command *)

Section List.
Context {hals : Hals}.

Inductive sort_column := sortByInterfaceName | sortByServerPid.

Definition compare (c : sort_column) (a b : TableEntry) : bool :=
  match c with
  | sortByInterfaceName => str_ltb (interfaceName a) (interfaceName b)
  | sortByServerPid => serverPid a <? serverPid b
  end.

(** [asked]: how many questions have been asked. *)
Record ListCommand := {
  mServicesTable : Table;
  mPassthroughRefTable : Table;
  mImplementationsTable : Table;
  mManifestHalsTable : Table;
  mLazyHalsTable : Table;
  mFileOutputPath : str;
  mSortColumn : option sort_column;
  mEmitDebugInfo : bool;
  mVintf : bool;
  mVintfPartition : Partition;
  mNeat : bool;
  mListTypes : list HalType;
  mFetchTypes : list HalType;
  mCmdlines : gmap Z str;
  mCachedPidInfos : gmap Z PidInfo;
  mPartitions : gmap Z Partition;
  lc_selectedColumns : list TableColumnType;
  mEnableCmdlines : bool;
  asked : nat;
}.

Definition empty_table : Table := {| mDescription := []; mEntries := []; mSelectedColumns := [] |}.

Definition new_list_command : ListCommand := {|
  mServicesTable := empty_table; mPassthroughRefTable := empty_table; mImplementationsTable := empty_table;
  mManifestHalsTable := empty_table; mLazyHalsTable := empty_table; mFileOutputPath := []; mSortColumn := None;
  mEmitDebugInfo := false; mVintf := false; mVintfPartition := UNKNOWN; mNeat := false; mListTypes := []; mFetchTypes := [];
  mCmdlines := ∅; mCachedPidInfos := ∅; mPartitions := ∅; lc_selectedColumns := []; mEnableCmdlines := false; asked := 0 |}.

(** ** The monad *)

Definition M (A : Type) : Type := ListCommand -> option (A * ListCommand).

#[export] Instance M_ret : MRet M := fun A a s => Some (a, s).
#[export] Instance M_bind : MBind M := fun A B f m s => match m s with Some (a, s) => f a s | None => None end.

Definition crash {A} : M A := fun _ => None.
Definition get {A} (f : ListCommand -> A) : M A := fun s => Some (f s, s).
Definition modify (f : ListCommand -> ListCommand) : M unit := fun s => Some (tt, f s).

(** A question to others. *)
Definition ask {A} (answer : nat -> A) : M A := fun s =>
  Some (answer (asked s), {|
    mServicesTable := mServicesTable s; mPassthroughRefTable := mPassthroughRefTable s; mImplementationsTable := mImplementationsTable s;
    mManifestHalsTable := mManifestHalsTable s; mLazyHalsTable := mLazyHalsTable s; mFileOutputPath := mFileOutputPath s;
    mSortColumn := mSortColumn s; mEmitDebugInfo := mEmitDebugInfo s; mVintf := mVintf s; mVintfPartition := mVintfPartition s;
    mNeat := mNeat s; mListTypes := mListTypes s; mFetchTypes := mFetchTypes s; mCmdlines := mCmdlines s;
    mCachedPidInfos := mCachedPidInfos s; mPartitions := mPartitions s; lc_selectedColumns := lc_selectedColumns s;
    mEnableCmdlines := mEnableCmdlines s; asked := S (asked s) |}).

Fixpoint mfold {A S} (f : A -> S -> M S) (l : list A) (acc : S) : M S :=
  match l with
  | [] => mret acc
  | x :: rest => acc ← f x acc; mfold f rest acc
  end.

Definition with_caches (cmdlines : gmap Z str) (infos : gmap Z PidInfo) (partitions : gmap Z Partition) (s : ListCommand) : ListCommand := {|
  mServicesTable := mServicesTable s; mPassthroughRefTable := mPassthroughRefTable s; mImplementationsTable := mImplementationsTable s;
  mManifestHalsTable := mManifestHalsTable s; mLazyHalsTable := mLazyHalsTable s; mFileOutputPath := mFileOutputPath s;
  mSortColumn := mSortColumn s; mEmitDebugInfo := mEmitDebugInfo s; mVintf := mVintf s; mVintfPartition := mVintfPartition s;
  mNeat := mNeat s; mListTypes := mListTypes s; mFetchTypes := mFetchTypes s; mCmdlines := cmdlines; mCachedPidInfos := infos;
  mPartitions := partitions; lc_selectedColumns := lc_selectedColumns s; mEnableCmdlines := mEnableCmdlines s; asked := asked s |}.

Definition tableForType (type : HalType) (s : ListCommand) : Table :=
  match type with
  | BINDERIZED_SERVICES => mServicesTable s
  | PASSTHROUGH_CLIENTS => mPassthroughRefTable s
  | PASSTHROUGH_LIBRARIES => mImplementationsTable s
  | VINTF_MANIFEST => mManifestHalsTable s
  | LAZY_HALS => mLazyHalsTable s
  end.

Definition set_table (type : HalType) (t : Table) (s : ListCommand) : ListCommand :=
  let pick k old := if decide (k = type) then t else old in {|
  mServicesTable := pick BINDERIZED_SERVICES (mServicesTable s); mPassthroughRefTable := pick PASSTHROUGH_CLIENTS (mPassthroughRefTable s);
  mImplementationsTable := pick PASSTHROUGH_LIBRARIES (mImplementationsTable s);
  mManifestHalsTable := pick VINTF_MANIFEST (mManifestHalsTable s); mLazyHalsTable := pick LAZY_HALS (mLazyHalsTable s);
  mFileOutputPath := mFileOutputPath s; mSortColumn := mSortColumn s; mEmitDebugInfo := mEmitDebugInfo s; mVintf := mVintf s;
  mVintfPartition := mVintfPartition s; mNeat := mNeat s; mListTypes := mListTypes s; mFetchTypes := mFetchTypes s;
  mCmdlines := mCmdlines s; mCachedPidInfos := mCachedPidInfos s; mPartitions := mPartitions s;
  lc_selectedColumns := lc_selectedColumns s; mEnableCmdlines := mEnableCmdlines s; asked := asked s |}.

Definition putEntry (type : HalType) (e : TableEntry) : M unit :=
  modify (fun s => set_table type (table_add e (tableForType type s)) s).

(** ** Processes *)

Definition parseCmdline (pid : Z) : M str :=
  content ← ask (fun n => read_file n (lit "/proc/" ++ fmt_d pid ++ lit "/cmdline"));
  mret (LshalPids.getCmdline content).

Definition getCmdline (pid : Z) : M str :=
  if pid =? NO_PID then mret []
  else
    s ← get (fun s => s);
    match mCmdlines s !! pid with
    | Some cmdline => mret cmdline
    | None =>
        cmdline ← parseCmdline pid;
        _ ← modify (fun s => with_caches (<[pid := cmdline]> (mCmdlines s)) (mCachedPidInfos s) (mPartitions s) s);
        mret cmdline
    end.

Fixpoint removeDeadProcesses (pids : list Z) : M (list Z) :=
  match pids with
  | [] => mret []
  | pid :: rest =>
      dead ← (if pid =? my_pid then mret true else cmdline ← getCmdline pid; mret (bool_decide (cmdline = [])));
      rest ← removeDeadProcesses rest;
      mret (if dead : bool then rest else pid :: rest)
  end.

(** [procpartition::getPartition]: the command line is read only if the
    executable does not tell. *)
Definition procpartition (pid : Z) : M Partition :=
  exe ← ask (fun n => getExe (read_link n) (real_path n) pid);
  match getPartitionFromExe exe with
  | UNKNOWN => cmdline ← parseCmdline pid; mret (getPartitionFromCmdline cmdline)
  | p => mret p
  end.

Definition getPartition (pid : Z) : M Partition :=
  if pid =? NO_PID then mret UNKNOWN
  else
    s ← get (fun s => s);
    match mPartitions s !! pid with
    | Some p => mret p
    | None =>
        p ← procpartition pid;
        _ ← modify (fun s => with_caches (mCmdlines s) (mCachedPidInfos s) (<[pid := p]> (mPartitions s)) s);
        mret p
    end.

(** The entry is there before it is filled, and stays when that fails. *)
Definition getPidInfoCached (serverPid : Z) : M (option PidInfo) :=
  s ← get (fun s => s);
  match mCachedPidInfos s !! serverPid with
  | Some info => mret (Some info)
  | None =>
      file ← ask (fun n => read_file n (binder_proc_file serverPid));
      let '(ok, info) := getPidInfo file new_pid_info in
      _ ← modify (fun s => with_caches (mCmdlines s) (<[serverPid := info]> (mCachedPidInfos s)) (mPartitions s) s);
      mret (if ok then Some info else None)
  end.

(** ** VINTF *)

Definition toSchemaType (p : Partition) : SchemaType := match p with SYSTEM => FRAMEWORK | _ => DEVICE end.
Definition toPartition (t : SchemaType) : Partition := match t with FRAMEWORK => SYSTEM | DEVICE => VENDOR end.

Definition getPackageAndVersion (fqInstance : str) : str := fst (splitFirst fqInstance ":").

Definition resolvePartition (process : Partition) (fq : FqInstance) : Partition :=
  if inPackage fq (lit "vendor") || inPackage fq (lit "com") then VENDOR
  else if inPackage fq (lit "android.frameworks") || inPackage fq (lit "android.system") || inPackage fq (lit "android.hidl") then SYSTEM
  else if inPackage fq (lit "android.hardware") then match process with UNKNOWN => VENDOR | p => p end
  else process.

(** A part of the name that is not there allows any. *)
Definition allows (part : option str) (ok : str -> bool) : bool := match part with Some x => ok x | None => true end.

Definition match_manifest (instance : ManifestInstance) (fq : FqInstance) (t : Transport) (a : Arch) : bool :=
  bool_decide (t = mi_transport instance) &&
  (bool_decide (t = HWBINDER) || arch_contains (mi_arch instance) a) &&
  allows (fq_interface fq) (fun i => i =s? mi_interface instance) &&
  allows (fq_instance fq) (fun i => i =s? mi_instance instance).

Definition match_matrix (instance : MatrixInstance) (fq : FqInstance) : bool :=
  allows (fq_interface fq) (fun i => i =s? mx_interface instance) &&
  allows (fq_instance fq) (mx_matchInstance instance).

Definition manifest_info (object : option HalManifest) (fq : FqInstance) (t : Transport) (a : Arch) (value : Z) : M Z :=
  match object with
  | None => crash
  | Some m => mret (if existsb (fun i => match_manifest i fq t a) (instances_of_version m (getPackage fq) (getVersion fq))
                    then value else VINTF_INFO_EMPTY)
  end.

Definition matrix_info (object : option CompatibilityMatrix) (fq : FqInstance) (value : Z) : M Z :=
  match object with
  | None => crash
  | Some m => mret (if existsb (fun i => match_matrix i fq) (matrix_of_version m (getPackage fq) (getVersion fq))
                    then value else VINTF_INFO_EMPTY)
  end.

Definition getVintfInfo (fqInstanceName : str) (t : Transport) (a : Arch) : M Z :=
  match (match setTo fqInstanceName with Some fq => Some fq | None => setTo (getPackageAndVersion fqInstanceName) end) with
  | None => mret VINTF_INFO_EMPTY
  | Some fq =>
      dm ← manifest_info getDeviceManifest fq t a DEVICE_MANIFEST;
      fm ← manifest_info getFrameworkManifest fq t a FRAMEWORK_MANIFEST;
      dc ← matrix_info getDeviceMatrix fq DEVICE_MATRIX;
      fc ← matrix_info getFrameworkMatrix fq FRAMEWORK_MATRIX;
      mret (Z.lor (Z.lor (Z.lor dm fm) dc) fc)
  end.

(** ** Fetching *)

Definition shouldFetchHalType (type : HalType) : M bool := get (fun s => bool_decide (type ∈ mFetchTypes s)).

Definition fromBaseArchitecture (a : Architecture) : Arch :=
  match a with IS_64BIT => ARCH_64 | IS_32BIT => ARCH_32 | ARCHITECTURE_UNKNOWN => ARCH_EMPTY end.

Definition set_arch (a : Arch) (e : TableEntry) : TableEntry := {|
  interfaceName := interfaceName e; transport := transport e; serverPid := serverPid e; threadUsage := threadUsage e;
  threadCount := threadCount e; serverCmdline := serverCmdline e; serverObjectAddress := serverObjectAddress e;
  clientPids := clientPids e; clientCmdlines := clientCmdlines e; arch := a; hash := hash e; partition := partition e;
  vintfInfo := vintfInfo e; serviceStatus := serviceStatus e |}.

(** An entry of a name, a transport, a server and its clients. *)
Definition hal_entry (name : str) (t : Transport) (server : Z) (clients : list Z) (a : Arch) (p : Partition) (st : ServiceStatus) : TableEntry := {|
  interfaceName := name; transport := t; serverPid := server; threadUsage := 0; threadCount := 0; serverCmdline := [];
  serverObjectAddress := NO_PTR; clientPids := clients; clientCmdlines := []; arch := a; hash := []; partition := p;
  vintfInfo := VINTF_INFO_EMPTY; serviceStatus := st |}.

Definition instance_name (info : InstanceDebugInfo) : str := c_str (info_interfaceName info) ++ lit "/" ++ c_str (info_instanceName info).

Definition put_entries (type : HalType) (entries : list TableEntry) : M unit := mfold (fun e _ => putEntry type e) entries tt.

Definition library_entries (infos : list InstanceDebugInfo) : list (str * TableEntry) :=
  fold_left (fun m info =>
    map_update (instance_name info) (hal_entry (instance_name info) PASSTHROUGH NO_PID (info_clientPids info) ARCH_EMPTY UNKNOWN STATUS_UNKNOWN)
      (fun e => set_arch (arch_or (arch e) (fromBaseArchitecture (info_arch info))) e) m) infos [].

Definition fetchAllLibraries : M Z :=
  fetch ← shouldFetchHalType PASSTHROUGH_LIBRARIES;
  if negb fetch then mret OK
  else
    ret ← ask (fun n => debugDump n true);
    match ret with
    | None => mret DUMP_ALL_LIBS_ERROR
    | Some infos => _ ← put_entries PASSTHROUGH_LIBRARIES (map snd (library_entries infos)); mret OK
    end.

Definition passthrough_entries (infos : list InstanceDebugInfo) : list TableEntry :=
  map (fun info => hal_entry (instance_name info) PASSTHROUGH (match info_clientPids info with [pid] => pid | _ => NO_PID end)
                     (info_clientPids info) (fromBaseArchitecture (info_arch info)) UNKNOWN STATUS_UNKNOWN)
    (List.filter (fun info => match info_clientPids info with [] => false | _ => true end) infos).

Definition fetchPassthrough : M Z :=
  fetch ← shouldFetchHalType PASSTHROUGH_CLIENTS;
  if negb fetch then mret OK
  else
    ret ← ask (fun n => debugDump n false);
    match ret with
    | None => mret DUMP_PASSTHROUGH_ERROR
    | Some infos => _ ← put_entries PASSTHROUGH_CLIENTS (passthrough_entries infos); mret OK
    end.

(** The entry of a service so far, with what has been learnt. *)
Definition set_server (pid ptr : Z) (a : Arch) (e : TableEntry) : TableEntry := {|
  interfaceName := interfaceName e; transport := transport e; serverPid := pid; threadUsage := threadUsage e;
  threadCount := threadCount e; serverCmdline := serverCmdline e; serverObjectAddress := ptr;
  clientPids := clientPids e; clientCmdlines := clientCmdlines e; arch := a; hash := hash e; partition := partition e;
  vintfInfo := vintfInfo e; serviceStatus := serviceStatus e |}.

Definition set_pid_info (clients : list Z) (usage count : Z) (e : TableEntry) : TableEntry := {|
  interfaceName := interfaceName e; transport := transport e; serverPid := serverPid e; threadUsage := usage;
  threadCount := count; serverCmdline := serverCmdline e; serverObjectAddress := serverObjectAddress e;
  clientPids := clients; clientCmdlines := clientCmdlines e; arch := arch e; hash := hash e; partition := partition e;
  vintfInfo := vintfInfo e; serviceStatus := serviceStatus e |}.

Definition set_hash (h : str) (e : TableEntry) : TableEntry := {|
  interfaceName := interfaceName e; transport := transport e; serverPid := serverPid e; threadUsage := threadUsage e;
  threadCount := threadCount e; serverCmdline := serverCmdline e; serverObjectAddress := serverObjectAddress e;
  clientPids := clientPids e; clientCmdlines := clientCmdlines e; arch := arch e; hash := h; partition := partition e;
  vintfInfo := vintfInfo e; serviceStatus := serviceStatus e |}.

Definition set_status (st : ServiceStatus) (e : TableEntry) : TableEntry := {|
  interfaceName := interfaceName e; transport := transport e; serverPid := serverPid e; threadUsage := threadUsage e;
  threadCount := threadCount e; serverCmdline := serverCmdline e; serverObjectAddress := serverObjectAddress e;
  clientPids := clientPids e; clientCmdlines := clientCmdlines e; arch := arch e; hash := hash e; partition := partition e;
  vintfInfo := vintfInfo e; serviceStatus := st |}.

Definition set_name (name : str) (t : Transport) (e : TableEntry) : TableEntry := {|
  interfaceName := name; transport := t; serverPid := serverPid e; threadUsage := threadUsage e;
  threadCount := threadCount e; serverCmdline := serverCmdline e; serverObjectAddress := serverObjectAddress e;
  clientPids := clientPids e; clientCmdlines := clientCmdlines e; arch := arch e; hash := hash e; partition := partition e;
  vintfInfo := vintfInfo e; serviceStatus := serviceStatus e |}.

Definition handleError (additionalError : Z) (status : Z) : Z := Z.lor status (Z.lor DUMP_BINDERIZED_ERROR additionalError).

(** The first of the two blocks of [fetchBinderizedEntry]. *)
Definition fetch_debug_info (service : Service) (status : Z) (entry : TableEntry) : M (Z * TableEntry) :=
  debugRet ← ask (fun n => getDebugInfo n service);
  match debugRet with
  | None => mret (handleError TRANSACTION_ERROR status, entry)
  | Some debugInfo =>
      let entry := set_server (di_pid debugInfo) (di_ptr debugInfo) (fromBaseArchitecture (di_arch debugInfo)) entry in
      if di_pid debugInfo =? NO_PID then mret (status, entry)
      else
        pidInfo ← getPidInfoCached (di_pid debugInfo);
        match pidInfo with
        | None => mret (handleError IO_ERROR status, entry)
        | Some info =>
            let clients := if di_ptr debugInfo =? NO_PTR then clientPids entry
                           else default (clientPids entry) (refPids info !! di_ptr debugInfo) in
            mret (status, set_pid_info clients (pi_threadUsage info) (pi_threadCount info) entry)
        end
  end.

(** The position of a name among those of the interface chain. *)
Fixpoint index_of (name : str) (chain : list str) : option nat :=
  match chain with
  | [] => None
  | c :: rest => if name =s? c then Some O else S <$> index_of name rest
  end.

Definition fetch_hash (service : Service) (serviceName : str) (status : Z) (entry : TableEntry) : M (Z * TableEntry) :=
  chainRet ← ask (fun n => interfaceChain n service);
  match chainRet with
  | None => mret (handleError TRANSACTION_ERROR status, entry)
  | Some chain =>
      match index_of serviceName chain with
      | None => mret (handleError BAD_IMPL status, entry)
      | Some hashIndex =>
          hashRet ← ask (fun n => getHashChain n service);
          mret match hashRet with
               | None => (handleError TRANSACTION_ERROR status, entry)
               | Some hashChain =>
                   match hashChain !! hashIndex with
                   | None => (handleError BAD_IMPL status, entry)
                   | Some hashArray => (status, set_hash (hexString hashArray) entry)
                   end
               end
      end
  end.

Definition fetchBinderizedEntry (entry : TableEntry) : M (Z * TableEntry) :=
  let '(serviceName, instanceName) := splitFirst (interfaceName entry) "/" in
  getRet ← ask (fun n => get_service n serviceName instanceName);
  match getRet with
  | None => mret (handleError TRANSACTION_ERROR OK, entry)
  | Some None => mret (handleError NO_INTERFACE OK, entry)
  | Some (Some service) =>
      '(status, entry) ← fetch_debug_info service OK entry;
      '(status, entry) ← fetch_hash service serviceName status entry;
      mret (status, if status =? OK then set_status ALIVE entry else entry)
  end.

(** One round of [fetchBinderized]. *)
Definition fetch_name (name : str) (acc : Z * list (str * TableEntry)) : M (Z * list (str * TableEntry)) :=
  let '(status, m) := acc in
  let entry := set_status NON_RESPONSIVE (set_name name HWBINDER (default new_entry (map_find name m))) in
  '(st, entry) ← fetchBinderizedEntry entry;
  mret (Z.lor status st, map_update name entry (fun _ => entry) m).

Definition fetchBinderized : M Z :=
  fetch ← shouldFetchHalType BINDERIZED_SERVICES;
  if negb fetch then mret OK
  else
    listRet ← ask list_names;
    match listRet with
    | None => mret DUMP_BINDERIZED_ERROR
    | Some fqInstanceNames =>
        '(status, allTableEntries) ← mfold fetch_name fqInstanceNames (OK, []);
        _ ← put_entries BINDERIZED_SERVICES (map snd allTableEntries);
        mret status
    end.

(** The entries of a manifest: the first instance of a name counts. *)
Definition manifest_entries (m : HalManifest) : list (str * TableEntry) :=
  fold_left (fun acc i =>
    map_update (mi_name i) (hal_entry (mi_name i) (mi_transport i) NO_PID [] (mi_arch i) (toPartition (manifest_type m)) DECLARED)
      (fun e => e) acc) (manifest_instances m) [].

Definition fetch_manifest (object : option HalManifest) (status : Z) : M Z :=
  match object with
  | None => mret (Z.lor status VINTF_ERROR)
  | Some m => _ ← put_entries VINTF_MANIFEST (map snd (manifest_entries m)); mret status
  end.

Definition fetchManifestHals : M Z :=
  fetch ← shouldFetchHalType VINTF_MANIFEST;
  if negb fetch then mret OK
  else status ← fetch_manifest getDeviceManifest OK; fetch_manifest getFrameworkManifest status.

Definition hasHwbinderEntry (e : TableEntry) (s : ListCommand) : bool :=
  existsb (fun existing => interfaceName existing =s? interfaceName e) (mEntries (mServicesTable s)).

Definition hasPassthroughEntry (e : TableEntry) (s : ListCommand) : bool :=
  match setTo (interfaceName e) with
  | None => false
  | Some fq =>
      existsb (fun existing =>
        match setTo (getPackageAndVersion (interfaceName existing)) with
        | None => false
        | Some existing_fq => (getPackage fq =s? getPackage existing_fq) && minorAtLeast (getVersion fq) (getVersion existing_fq)
        end) (mEntries (mImplementationsTable s))
  end.

Definition fetch_lazy (e : TableEntry) (status : Z) : M Z :=
  s ← get (fun s => s);
  match transport e with
  | HWBINDER => _ ← (if hasHwbinderEntry e s then mret tt else putEntry LAZY_HALS e); mret status
  | PASSTHROUGH => _ ← (if hasPassthroughEntry e s then mret tt else putEntry LAZY_HALS e); mret status
  | EMPTY => mret (Z.lor status VINTF_ERROR)
  end.

Definition fetchLazyHals : M Z :=
  fetch ← shouldFetchHalType LAZY_HALS;
  if negb fetch then mret OK
  else entries ← get (fun s => mEntries (mManifestHalsTable s)); mfold fetch_lazy entries OK.

Definition fetch : M Z :=
  status ← (if defaultServiceManager
            then st1 ← fetchBinderized; st2 ← fetchPassthrough; mret (Z.lor (Z.lor OK st1) st2)
            else mret (Z.lor OK NO_BINDERIZED_MANAGER));
  status ← (if passthroughServiceManager
            then st ← fetchAllLibraries; mret (Z.lor status st)
            else mret (Z.lor status NO_PASSTHROUGH_MANAGER));
  st ← fetchManifestHals; status ← mret (Z.lor status st);
  st ← fetchLazyHals; mret (Z.lor status st).

End List.

(** * The monad *)

Section Facts.
Context {hals : Hals}.

(** ** Questions leave the tables and the options alone *)

(** What is asked later: the caches may have grown. *)
Record later (s s' : ListCommand) : Prop := {
  lt_tables : forall t, tableForType t s' = tableForType t s;
  lt_types : mListTypes s' = mListTypes s /\ mFetchTypes s' = mFetchTypes s /\ mSortColumn s' = mSortColumn s;
  lt_cmdlines : mCmdlines s ⊆ mCmdlines s';
}.

#[export] Instance later_preorder : PreOrder later.
Proof.
  split.
  - intros s. by split.
  - intros s1 s2 s3 [A1 (B1 & C1 & D1) E1] [A2 (B2 & C2 & D2) E2]. split; [intros t; congruence| |by etrans].
    split_and!; congruence.
Qed.

Lemma later_caches cmdlines infos partitions s : mCmdlines s ⊆ cmdlines -> later s (with_caches cmdlines infos partitions s).
Proof. intros H. split; [by intros []|done|done]. Qed.

(** Code that returns, having done no more than ask, with a result in [Q]. *)
Definition answers {A} (m : M A) (s : ListCommand) (Q : A -> ListCommand -> Prop) : Prop :=
  exists a s', m s = Some (a, s') /\ later s s' /\ Q a s'.

Lemma answers_ret {A} (a : A) s (Q : A -> ListCommand -> Prop) : Q a s -> answers (mret a) s Q.
Proof. intros H. by exists a, s. Qed.

Lemma answers_bind {A B} (m : M A) (f : A -> M B) s P Q :
  answers m s P -> (forall a s1, later s s1 -> P a s1 -> answers (f a) s1 Q) -> answers (m ≫= f) s Q.
Proof.
  intros (a & s1 & E1 & L1 & H1) Hf. destruct (Hf a s1 L1 H1) as (b & s2 & E2 & L2 & H2). exists b, s2.
  split_and!; [|by etrans|done]. unfold mbind, M_bind. by rewrite E1.
Qed.

Lemma answers_mono {A} (m : M A) s (P Q : A -> ListCommand -> Prop) : answers m s P -> (forall a s', later s s' -> P a s' -> Q a s') -> answers m s Q.
Proof. intros (a & s' & E & L & H) HPQ. exists a, s'. auto. Qed.

Lemma answers_get {A} (f : ListCommand -> A) s (Q : A -> ListCommand -> Prop) : Q (f s) s -> answers (get f) s Q.
Proof. intros H. by exists (f s), s. Qed.

Lemma answers_ask {A} (answer : nat -> A) s (Q : A -> ListCommand -> Prop) :
  (forall s', mCmdlines s' = mCmdlines s -> Q (answer (asked s)) s') -> answers (ask answer) s Q.
Proof. intros H. do 2 eexists. split; [reflexivity|]. split; [split; [by intros []|done|done]|by apply H]. Qed.

Lemma answers_modify cmdlines infos partitions s (Q : unit -> ListCommand -> Prop) :
  mCmdlines s ⊆ cmdlines s -> Q tt (with_caches (cmdlines s) (infos s) (partitions s) s) ->
  answers (modify (fun s => with_caches (cmdlines s) (infos s) (partitions s) s)) s Q.
Proof. intros H HQ. do 2 eexists. split; [reflexivity|]. split; [by apply later_caches|done]. Qed.

Lemma answers_parseCmdline pid s : answers (parseCmdline pid) s (fun _ s' => mCmdlines s' = mCmdlines s).
Proof.
  unfold parseCmdline. eapply (answers_bind _ _ _ (fun _ s' => mCmdlines s' = mCmdlines s)); [by apply answers_ask|].
  intros c s1 _ H. by apply answers_ret.
Qed.

(** The command line of a process, asked for once. *)
Lemma answers_getCmdline pid s : answers (getCmdline pid) s (fun c s' => if pid =? NO_PID then c = [] else mCmdlines s' !! pid = Some c).
Proof.
  unfold getCmdline. destruct (pid =? NO_PID); [by apply answers_ret|].
  eapply answers_bind; [apply (answers_get _ _ (fun a s' => a = s /\ s' = s)); done|]. intros ? ? _ [-> ->].
  destruct (mCmdlines s !! pid) as [c|] eqn:E; [by apply answers_ret|].
  eapply answers_bind; [apply answers_parseCmdline|]. intros c s1 _ H.
  eapply answers_bind; [apply (answers_modify (fun s => <[pid := c]> (mCmdlines s)) mCachedPidInfos mPartitions _ (fun _ s' => mCmdlines s' !! pid = Some c))|].
  - apply insert_subseteq. by rewrite H.
  - by apply lookup_insert_eq.
  - intros ? s2 _ H2. by apply answers_ret.
Qed.

Definition any {A} (_ : A) (_ : ListCommand) : Prop := True.

Lemma answers_any {A} (m : M A) s Q : answers m s Q -> answers m s any.
Proof. intros H. by eapply answers_mono. Qed.

Lemma answers_getPartition pid s : answers (getPartition pid) s any.
Proof.
  unfold getPartition. destruct (pid =? NO_PID); [by apply answers_ret|].
  eapply answers_bind; [by apply (answers_get _ _ any)|]. intros s0 s1 _ _.
  destruct (mPartitions s0 !! pid); [by apply answers_ret|].
  eapply (answers_bind _ _ _ any).
  - eapply answers_bind; [by apply (answers_ask _ _ any)|]. intros exe s2 _ _.
    destruct (getPartitionFromExe exe); [|by apply answers_ret..].
    eapply answers_bind; [apply answers_parseCmdline|]. intros c s3 _ _. by apply answers_ret.
  - intros p s2 _ _. eapply answers_bind; [by apply (answers_modify mCmdlines mCachedPidInfos (fun s => <[pid := p]> (mPartitions s)) _ any)|].
    intros. by apply answers_ret.
Qed.

Lemma answers_getPidInfoCached pid s : answers (getPidInfoCached pid) s any.
Proof.
  unfold getPidInfoCached. eapply answers_bind; [by apply (answers_get _ _ any)|]. intros s0 s1 _ _.
  destruct (mCachedPidInfos s0 !! pid); [by apply answers_ret|].
  eapply answers_bind; [by apply (answers_ask _ _ any)|]. intros file s2 _ _. destruct (getPidInfo file new_pid_info) as [ok info].
  eapply answers_bind; [by apply (answers_modify mCmdlines (fun s => <[pid := info]> (mCachedPidInfos s)) mPartitions _ any)|].
  intros. by apply answers_ret.
Qed.

(** All four objects must be there: no check for null comes before their use. *)
Lemma answers_getVintfInfo name t a s :
  is_Some getDeviceManifest -> is_Some getFrameworkManifest -> is_Some getDeviceMatrix -> is_Some getFrameworkMatrix ->
  answers (getVintfInfo name t a) s any.
Proof.
  intros [dm Hdm] [fm Hfm] [dc Hdc] [fc Hfc]. unfold getVintfInfo. rewrite Hdm, Hfm, Hdc, Hfc.
  destruct (match setTo name with Some fq => Some fq | None => _ end); [|by apply answers_ret].
  do 4 (eapply answers_bind; [by apply (answers_ret _ _ any)|intros ? ? _ _]). by apply answers_ret.
Qed.

(** Only the first question about a process can fail: the second answer is the
    empty entry that the first has left. *)
Lemma pid_info_fails_once pid s : mCachedPidInfos s !! pid = None -> read_file (asked s) (binder_proc_file pid) = None ->
  exists s1 s2, getPidInfoCached pid s = Some (None, s1) /\ getPidInfoCached pid s1 = Some (Some new_pid_info, s2).
Proof.
  intros Hc Hr. unfold getPidInfoCached, mbind, M_bind, get, ask, modify, mret, M_ret. rewrite Hc, Hr.
  do 2 eexists. split; [reflexivity|]. cbn [mCachedPidInfos with_caches]. by rewrite lookup_insert_eq.
Qed.

End Facts.
