(* ===== verification/LshalFetch.v ===== *)
(** What [lshal list] fetches: the table of binderized services against the
    names that the service manager lists, and the table of lazy HALs against
    the tables it is made of. *)

From S2P Require Import Prelude CLib LshalTable LshalPids LshalList.

Open Scope Z_scope.

(** * Ordered maps *)

Definition keys {A} (m : list (str * A)) : list str := map fst m.

(** A map has its keys in order. *)
Definition ordered {A} (m : list (str * A)) : Prop := StronglySorted str_lt (keys m).

Lemma map_update_keys {A} key (v0 : A) f m : forall k, k ∈ keys (map_update key v0 f m) <-> k = key \/ k ∈ keys m.
Proof.
  intros k. unfold keys. induction m as [|[k' v] m IH]; cbn; [by rewrite elem_of_cons|].
  destruct (str_ltb key k') eqn:E1; cbn; [by rewrite !elem_of_cons|].
  destruct (str_ltb k' key) eqn:E2; cbn; [rewrite !elem_of_cons, IH; tauto|].
  rewrite (str_trichotomy _ _ E1 E2), !elem_of_cons. tauto.
Qed.

Lemma map_update_ordered {A} key (v0 : A) f m : ordered m -> ordered (map_update key v0 f m).
Proof.
  unfold ordered. induction m as [|[k v] m IH]; cbn; [by repeat constructor|]. intros Hs. apply StronglySorted_inv in Hs as [Hs Hall].
  destruct (str_ltb key k) eqn:E1; cbn.
  - constructor; [by constructor|]. constructor; [done|]. eapply List.Forall_impl; [|exact Hall]. intros x Hx. by etrans.
  - destruct (str_ltb k key) eqn:E2; cbn; [|by constructor]. constructor; [by apply IH|].
    apply List.Forall_forall. intros x Hx. apply list_elem_of_In, map_update_keys in Hx as [->|Hx]; [done|].
    rewrite List.Forall_forall in Hall. by apply Hall, list_elem_of_In.
Qed.

Lemma ordered_nodup {A} (m : list (str * A)) : ordered m -> NoDup (keys m).
Proof.
  unfold ordered. induction 1 as [|k l Hs IH Hall]; constructor; [|done]. intros Hk. rewrite List.Forall_forall in Hall.
  eapply (irreflexivity str_lt). apply Hall. by apply list_elem_of_In.
Qed.

(** What is in a map after a key has been set. *)
Lemma map_update_set {A} key (v : A) m : ordered m ->
  forall k w, (k, w) ∈ map_update key v (fun _ => v) m <-> (k = key /\ w = v) \/ (k <> key /\ (k, w) ∈ m).
Proof.
  intros Hs k w. revert Hs. unfold ordered. induction m as [|[k' v'] m IH]; cbn; intros Hs.
  - rewrite list_elem_of_singleton. split; [intros [= -> ->]; by left|]. intros [[-> ->]|[_ H]]; [done|by apply not_elem_of_nil in H].
  - pose proof (ordered_nodup ((k', v') :: m) Hs) as Hn. apply StronglySorted_inv in Hs as [Hs Hall]. rewrite List.Forall_forall in Hall.
    assert (Hne : str_ltb key k' = true -> forall x, (k, x) ∈ (k', v') :: m -> k <> key).
    { intros E1 x Hx ->. assert (Hk : key ∈ keys ((k', v') :: m)) by (by apply list_elem_of_In, (in_map fst _ (key, x)), list_elem_of_In).
      apply elem_of_cons in Hk as [->|Hk]; [by apply (irreflexivity str_lt k')|].
      apply (irreflexivity str_lt key). etrans; [exact E1|]. by apply Hall, list_elem_of_In. }
    destruct (str_ltb key k') eqn:E1; [|destruct (str_ltb k' key) eqn:E2]; rewrite elem_of_cons.
    + split; [intros [[= -> ->]|H]; [by left|right; split; [by eapply Hne|done]]|]. intros [[-> ->]|[_ H]]; [by left|by right].
    + rewrite IH, elem_of_cons by done. assert (Hkk : k' <> key) by (intros ->; by apply (irreflexivity str_lt key)).
      split; [intros [[= -> ->]|[H|[H1 H2]]]; tauto|]. intros [H|[H1 [[= -> ->]|H]]]; tauto.
    + pose proof (str_trichotomy _ _ E1 E2) as <-. apply NoDup_cons in Hn as [Hn _]. rewrite elem_of_cons.
      assert (Hk : forall x, (key, x) ∈ m -> False) by (intros x Hx; by apply Hn, list_elem_of_In, (in_map fst _ (key, x)), list_elem_of_In).
      split; [intros [[= -> ->]|H]; [by left|right; split; [intros ->; by eapply Hk|by right]]|].
      intros [[-> ->]|[Hne' [[= -> ->]|H]]]; [by left|done|by right].
Qed.

Lemma map_find_elem {A} key (m : list (str * A)) v : map_find key m = Some v -> (key, v) ∈ m.
Proof.
  unfold map_find. destruct (List.find _ m) as [[k w]|] eqn:E; [|done]. intros [= ->]. apply find_some in E as [E1 E2].
  apply str_eqb_eq in E2. cbn in E2. subst. by apply list_elem_of_In.
Qed.

(** * Binderized services *)

Section Binderized.
Context {hals : Hals}.

(** A status other than [OK] says that a binderized service could not be asked. *)
Definition reported (status : Z) : Prop := status = OK \/ Z.testbit status 3 = true.

Lemma handleError_bit a st : Z.testbit (handleError a st) 3 = true.
Proof. unfold handleError. rewrite !Z.lor_spec. change (Z.testbit DUMP_BINDERIZED_ERROR 3) with true. by rewrite !orb_true_r. Qed.

Lemma reported_handleError a st : reported (handleError a st).
Proof. right. apply handleError_bit. Qed.

Lemma handleError_not_ok a st : handleError a st <> OK.
Proof. intros H. pose proof (handleError_bit a st) as Hb. by rewrite H in Hb. Qed.

Lemma reported_lor a b : reported a -> reported b -> reported (Z.lor a b).
Proof. intros [->|Ha] [->|Hb]; [by left|right; rewrite ?Z.lor_spec, ?Ha, ?Hb, ?orb_true_r; done..]. Qed.

Lemma lor_ok a b : Z.lor a b = OK <-> a = OK /\ b = OK.
Proof. apply Z.lor_eq_0_iff. Qed.

#[local] Hint Resolve reported_handleError : cmds.

(** What asking about a service leaves of its entry. *)
Definition kept (e e' : TableEntry) : Prop :=
  interfaceName e' = interfaceName e /\ transport e' = transport e /\ serviceStatus e' = serviceStatus e.

(** One of the two blocks: a status that was not [OK] stays. *)
Definition block (st : Z) (e : TableEntry) (r : Z * TableEntry) (_ : ListCommand) : Prop :=
  reported r.1 /\ (r.1 = OK -> st = OK) /\ kept e r.2.

Lemma block_error a st e e' s : kept e e' -> block st e (handleError a st, e') s.
Proof. intros H. split_and!; [apply reported_handleError| |done]. intros E. by apply handleError_not_ok in E. Qed.

Lemma answers_debug_info service st e s : reported st -> answers (fetch_debug_info service st e) s (block st e).
Proof.
  intros Hst. unfold fetch_debug_info. eapply answers_bind; [by apply (answers_ask _ _ any)|]. intros [info|] s1 _ _.
  - destruct (di_pid info =? NO_PID); [by apply answers_ret|].
    eapply answers_bind; [apply answers_getPidInfoCached|]. intros [pi|] s2 _ _; apply answers_ret; [done|]. by apply block_error.
  - apply answers_ret. by apply block_error.
Qed.

Lemma answers_hash service name st e s : reported st -> answers (fetch_hash service name st e) s (block st e).
Proof.
  intros Hst. unfold fetch_hash. eapply answers_bind; [by apply (answers_ask _ _ any)|]. intros [chain|] s1 _ _.
  - destruct (index_of name chain); [|apply answers_ret; by apply block_error].
    eapply answers_bind; [by apply (answers_ask _ _ any)|]. intros hashRet s2 _ _. apply answers_ret.
    destruct hashRet as [hashes|]; [|by apply block_error]. destruct (hashes !! n); [done|by apply block_error].
  - apply answers_ret. by apply block_error.
Qed.

(** A service is alive if all went well, and only then. *)
Lemma answers_fetchBinderizedEntry e s : serviceStatus e = NON_RESPONSIVE ->
  answers (fetchBinderizedEntry e) s (fun r _ => reported r.1 /\ interfaceName r.2 = interfaceName e /\ transport r.2 = transport e /\
    serviceStatus r.2 = if r.1 =? OK then ALIVE else NON_RESPONSIVE).
Proof.
  intros Hs. unfold fetchBinderizedEntry. destruct (splitFirst (interfaceName e) "/") as [serviceName instanceName].
  eapply answers_bind; [by apply (answers_ask _ _ any)|].
  assert (Herr : forall a, (handleError a OK =? OK) = false) by (intros a; apply Z.eqb_neq, handleError_not_ok).
  intros [[service|]|] s1 _ _; [|apply answers_ret; cbn [fst snd]; rewrite Herr; auto with cmds..].
  eapply answers_bind; [apply answers_debug_info; by left|]. intros [st1 e1] s2 _ (R1 & _ & N1 & T1 & S1).
  eapply answers_bind; [by apply answers_hash|]. intros [st2 e2] s3 _ (R2 & _ & N2 & T2 & S2). cbn [fst snd] in *.
  apply answers_ret. cbn [fst snd]. destruct (st2 =? OK); cbn; split_and!; congruence.
Qed.

(** What the rounds keep: the map has an entry for every name so far. *)
Record round_ok (done : list str) (acc : Z * list (str * TableEntry)) : Prop := {
  ro_ordered : ordered acc.2;
  ro_keys : forall k, k ∈ keys acc.2 <-> k ∈ done;
  ro_entries : forall k e, (k, e) ∈ acc.2 -> interfaceName e = k /\ transport e = HWBINDER /\
                 (serviceStatus e = ALIVE \/ serviceStatus e = NON_RESPONSIVE);
  ro_reported : reported acc.1;
  ro_ok : acc.1 = OK -> forall k e, (k, e) ∈ acc.2 -> serviceStatus e = ALIVE;
  ro_alive : NoDup done -> (forall k e, (k, e) ∈ acc.2 -> serviceStatus e = ALIVE) -> acc.1 = OK;
}.

Lemma keys_elem {A} (m : list (str * A)) k v : (k, v) ∈ m -> k ∈ keys m.
Proof. intros H. apply list_elem_of_In, (in_map fst _ (k, v)). by apply list_elem_of_In. Qed.

Lemma round_start : round_ok [] (OK, []).
Proof.
  split; cbn; [constructor|done|..]; [by intros k e H%not_elem_of_nil|by left|by intros _ k e H%not_elem_of_nil|done].
Qed.

Lemma round_step done name acc s : round_ok done acc -> answers (fetch_name name acc) s (fun acc' _ => round_ok (done ++ [name]) acc').
Proof.
  destruct acc as [status m]. intros [O K E R F G]. cbn [fst snd] in *. unfold fetch_name.
  eapply answers_bind; [by apply answers_fetchBinderizedEntry|]. intros [st e] s1 _ (Rs & N & T & S). cbn [fst snd] in *.
  apply answers_ret. pose proof (map_update_set name e m O) as Hset. pose proof (map_update_ordered name e (fun _ => e) m O) as Ho.
  pose proof (map_update_keys name e (fun _ => e) m) as Hk. split; cbn [fst snd]; [done| | | | |].
  - intros k. rewrite Hk, K, elem_of_app, list_elem_of_singleton. tauto.
  - intros k e'. rewrite Hset. intros [[-> ->]|[_ H]]; [|by apply E]. split_and!; [done..|]. rewrite S. destruct (st =? OK); tauto.
  - by apply reported_lor.
  - rewrite lor_ok. intros [H1 H2] k e' [[-> ->]|[_ H]]%Hset; [by rewrite S, H2|by eapply F].
  - intros [Hd [Hnew _]]%NoDup_app Hall. apply lor_ok. split.
    + apply G; [done|]. intros k e' H. apply (Hall k). apply Hset. right. split; [|done]. intros ->.
      apply keys_elem, K in H. by eapply Hnew, list_elem_of_singleton.
    + specialize (Hall name e (proj2 (Hset _ _) (or_introl (conj eq_refl eq_refl)))). rewrite S in Hall. by destruct (Z.eqb_spec st OK).
Qed.

Lemma rounds names done acc s : round_ok done acc -> answers (mfold fetch_name names acc) s (fun acc' _ => round_ok (done ++ names) acc').
Proof.
  revert done acc s. induction names as [|name names IH]; intros done acc s H; cbn [mfold]; [apply answers_ret; by rewrite app_nil_r|].
  eapply answers_bind; [by apply round_step|]. intros acc' s1 _ H'. rewrite cons_middle, app_assoc. by apply IH.
Qed.

Lemma tableForType_set t type x s : tableForType t (set_table type x s) = if decide (t = type) then x else tableForType t s.
Proof. by destruct t, type. Qed.

(** Entries are appended to their table. *)
Lemma put_entries_spec type es s : exists s', put_entries type es s = Some (tt, s') /\
  mEntries (tableForType type s') = mEntries (tableForType type s) ++ es /\
  (forall t, t <> type -> tableForType t s' = tableForType t s) /\ mFetchTypes s' = mFetchTypes s /\ mCmdlines s' = mCmdlines s /\
  mListTypes s' = mListTypes s /\ asked s' = asked s.
Proof.
  unfold put_entries. revert s. induction es as [|e es IH]; intros s; [exists s; by rewrite app_nil_r|]. cbn [mfold].
  destruct (IH (set_table type (table_add e (tableForType type s)) s)) as (s' & E & H & Ht & Hf & Hc & Hl & Ha).
  exists s'. split; [exact E|]. split_and!; [|by intros t Hne; rewrite Ht, tableForType_set, decide_False by done|done..].
  rewrite H, tableForType_set, decide_True by done. cbn. by rewrite <- app_assoc.
Qed.

(** ** What the steps of [fetch] do to the tables *)

(** Code that returns a status having changed no more than one table. *)
Definition fills (type : HalType) (m : M Z) (s : ListCommand) : Prop :=
  exists status s', m s = Some (status, s') /\ (forall t, t <> type -> tableForType t s' = tableForType t s) /\ mFetchTypes s' = mFetchTypes s.

Lemma fills_ret type st s : fills type (mret st) s.
Proof. by exists st, s. Qed.

Lemma fills_put type es st s : fills type (_ ← put_entries type es; mret st) s.
Proof.
  destruct (put_entries_spec type es s) as (s' & E & _ & Ht & Hf & _). exists st, s'. split_and!; [|done..].
  unfold mbind, M_bind. by rewrite E.
Qed.

Lemma fills_bind {A} type (m : M A) f s (P : A -> ListCommand -> Prop) :
  answers m s P -> (forall a s1, fills type (f a) s1) -> fills type (m ≫= f) s.
Proof.
  intros (a & s1 & E1 & L & _) Hf. destruct (Hf a s1) as (st & s2 & E2 & Ht & Hfe). exists st, s2.
  split_and!; [by unfold mbind, M_bind; rewrite E1|by intros t Hne; rewrite Ht, (lt_tables _ _ L)|].
  destruct L as [_ (_ & Hl & _) _]. congruence.
Qed.

Lemma fills_seq type (m1 : M Z) (m2 : Z -> M Z) s : fills type m1 s -> (forall st s1, fills type (m2 st) s1) -> fills type (m1 ≫= m2) s.
Proof.
  intros (st & s1 & E1 & Ht1 & Hf1) H2. destruct (H2 st s1) as (st2 & s2 & E2 & Ht2 & Hf2). exists st2, s2.
  split_and!; [by unfold mbind, M_bind; rewrite E1|by intros t Hne; rewrite Ht2, Ht1|congruence].
Qed.

Lemma fills_fetch type (m : M Z) s : (forall s1, fills type m s1) ->
  fills type (fetch ← shouldFetchHalType type; if negb fetch then mret OK else m) s.
Proof.
  intros H. apply (fills_bind _ _ _ _ any); [by apply answers_get|]. intros [] s1; [apply H|apply fills_ret].
Qed.

Lemma fills_binderized s : fills BINDERIZED_SERVICES fetchBinderized s.
Proof.
  apply fills_fetch. intros s1. apply (fills_bind _ _ _ _ any); [by apply answers_ask|]. intros [names|] s2; [|apply fills_ret].
  eapply fills_bind; [apply rounds, round_start|]. intros [st m] s3. apply fills_put.
Qed.

Lemma fills_passthrough s : fills PASSTHROUGH_CLIENTS fetchPassthrough s.
Proof.
  apply fills_fetch. intros s1. apply (fills_bind _ _ _ _ any); [by apply answers_ask|].
  intros [infos|] s2; [apply fills_put|apply fills_ret].
Qed.

Lemma fills_libraries s : fills PASSTHROUGH_LIBRARIES fetchAllLibraries s.
Proof.
  apply fills_fetch. intros s1. apply (fills_bind _ _ _ _ any); [by apply answers_ask|].
  intros [infos|] s2; [apply fills_put|apply fills_ret].
Qed.

Lemma fills_manifest s : fills VINTF_MANIFEST fetchManifestHals s.
Proof.
  apply fills_fetch. intros s1. assert (H : forall object st s1, fills VINTF_MANIFEST (fetch_manifest object st) s1)
    by (intros [m|] st s2; [apply fills_put|apply fills_ret]). apply fills_seq; [apply H|intros; apply H].
Qed.

(** The lazy HALs: declared, with nothing there. *)
Definition unavailable (s : ListCommand) (e : TableEntry) : bool :=
  match transport e with
  | HWBINDER => negb (hasHwbinderEntry e s)
  | PASSTHROUGH => negb (hasPassthroughEntry e s)
  | EMPTY => false
  end.

(** What only depends on other tables than that of the lazy HALs. *)
Definition same_others (s s' : ListCommand) : Prop := forall t, t <> LAZY_HALS -> tableForType t s' = tableForType t s.

Lemma unavailable_others s s' e : same_others s s' -> unavailable s' e = unavailable s e.
Proof.
  intros H. pose proof (H BINDERIZED_SERVICES ltac:(done)) as H1. pose proof (H PASSTHROUGH_LIBRARIES ltac:(done)) as H2. cbn in H1, H2.
  unfold unavailable, hasHwbinderEntry, hasPassthroughEntry. by rewrite H1, H2.
Qed.

Lemma lazy_round e st s : exists st' s', fetch_lazy e st s = Some (st', s') /\ same_others s s' /\
  mEntries (mLazyHalsTable s') = mEntries (mLazyHalsTable s) ++ (if unavailable s e then [e] else []).
Proof.
  unfold fetch_lazy, unavailable, mbind, M_bind, get, mret, M_ret, putEntry, modify.
  destruct (transport e); [|destruct (hasHwbinderEntry e s)|destruct (hasPassthroughEntry e s)]; cbn [negb];
    (do 2 eexists; split; [reflexivity|]; split; [|cbn; by rewrite ?app_nil_r]).
  all: intros [] Hne; done.
Qed.

Lemma lazy_rounds es st s : exists st' s', mfold fetch_lazy es st s = Some (st', s') /\ same_others s s' /\
  mEntries (mLazyHalsTable s') = mEntries (mLazyHalsTable s) ++ List.filter (unavailable s) es.
Proof.
  revert st s. induction es as [|e es IH]; intros st s; [exists st, s; by rewrite app_nil_r|]. cbn [mfold List.filter].
  destruct (lazy_round e st s) as (st1 & s1 & E1 & O1 & H1). destruct (IH st1 s1) as (st2 & s2 & E2 & O2 & H2).
  exists st2, s2. split_and!; [by unfold mbind, M_bind; rewrite E1|by intros t Hne; rewrite O2, O1|].
  rewrite H2, H1, (List.filter_ext _ _ (fun e => unavailable_others s s1 e O1)), <- app_assoc. by destruct (unavailable s e).
Qed.

Lemma fetchLazyHals_spec s : LAZY_HALS ∈ mFetchTypes s -> exists st s', fetchLazyHals s = Some (st, s') /\ same_others s s' /\
  mEntries (mLazyHalsTable s') = mEntries (mLazyHalsTable s) ++ List.filter (unavailable s) (mEntries (mManifestHalsTable s)).
Proof.
  intros H. unfold fetchLazyHals, shouldFetchHalType, mbind, M_bind, get. rewrite bool_decide_eq_true_2 by done. apply lazy_rounds.
Qed.

Lemma unavailable_spec s e : unavailable s e = true <->
  match transport e with
  | EMPTY => False
  | HWBINDER => forall service, service ∈ mEntries (mServicesTable s) -> interfaceName service <> interfaceName e
  | PASSTHROUGH => forall fq library libfq, setTo (interfaceName e) = Some fq -> library ∈ mEntries (mImplementationsTable s) ->
      setTo (getPackageAndVersion (interfaceName library)) = Some libfq ->
      ~ (getPackage fq = getPackage libfq /\ minorAtLeast (getVersion fq) (getVersion libfq) = true)
  end.
Proof.
  assert (Hex : forall (f : TableEntry -> bool) l, negb (existsb f l) = true <-> forall x, x ∈ l -> f x = false).
  { intros f l. rewrite negb_true_iff, <- not_true_iff_false, existsb_exists. split.
    - intros H x Hx%list_elem_of_In. apply not_true_iff_false. intros Hf. apply H. by exists x.
    - intros H (x & Hx%list_elem_of_In & Hf). by rewrite H in Hf. }
  unfold unavailable, hasHwbinderEntry, hasPassthroughEntry. destruct (transport e); [done|..].
  - rewrite Hex. by setoid_rewrite str_eqb_neq.
  - destruct (setTo (interfaceName e)) as [fq|]; [|by split]. rewrite Hex. split.
    + intros H ? library libfq [= <-] Hl Hs [H1 H2]. specialize (H library Hl). rewrite Hs, H1, str_eqb_refl, H2 in H. done.
    + intros H library Hl. destruct (setTo (getPackageAndVersion _)) as [libfq|] eqn:Hs; [|done].
      apply not_true_iff_false. rewrite andb_true_iff, str_eqb_eq. by apply (H fq library libfq).
Qed.

End Binderized.

(** * Properties *)

(** C10: binderized services are listed completely: after [fetchBinderized] the table
    has exactly one entry for each name that the service manager lists, in the
    order of the names, each of them of hwbinder and either alive or
    non-responsive; a status other than [OK] has the bit of an error in
    dumping binderized services; [OK] means that every service is alive, and
    when no name is listed twice the other way round. Other tables are as they were. *)
Theorem binderized_services_listed {hals : Hals} (s : ListCommand) (names : list str) :
  BINDERIZED_SERVICES ∈ mFetchTypes s -> mEntries (mServicesTable s) = [] -> list_names (asked s) = Some names ->
  exists status s' es, fetchBinderized s = Some (status, s') /\ mEntries (mServicesTable s') = es /\
    (forall t, t <> BINDERIZED_SERVICES -> tableForType t s' = tableForType t s) /\
    StronglySorted str_lt (map interfaceName es) /\ (forall n, n ∈ map interfaceName es <-> n ∈ names) /\
    (forall e, e ∈ es -> transport e = HWBINDER /\ (serviceStatus e = ALIVE \/ serviceStatus e = NON_RESPONSIVE)) /\
    (status = OK \/ Z.testbit status 3 = true) /\ (status = OK -> forall e, e ∈ es -> serviceStatus e = ALIVE) /\
    (NoDup names -> (forall e, e ∈ es -> serviceStatus e = ALIVE) -> status = OK).
Proof.
  intros Hf He Hn. unfold fetchBinderized, shouldFetchHalType, get, ask. unfold mbind, M_bind at 1. rewrite bool_decide_eq_true_2 by done.
  cbn [negb]. unfold mbind, M_bind at 1. rewrite Hn. set (s1 := {| mServicesTable := _ |}).
  assert (H1 : later s s1) by (split; [by intros []|done|done]).
  destruct (rounds names [] (OK, []) s1 round_start) as ([status m] & s2 & E2 & L2 & R). unfold mbind, M_bind. rewrite E2.
  destruct (put_entries_spec BINDERIZED_SERVICES (map snd m) s2) as (s3 & E3 & P3 & O3 & _). rewrite E3.
  assert (L : later s s2) by (by etrans). destruct R as [O K Hes Rp F G]. cbn [fst snd app] in *.
  assert (Ek : map interfaceName (map snd m) = keys m).
  { unfold keys. rewrite map_map. apply map_ext_in. intros [k e] H%list_elem_of_In. apply Hes in H as [H _]. exact H. }
  assert (Hsnd : forall e, e ∈ map snd m <-> exists k, (k, e) ∈ m).
  { intros e. rewrite list_elem_of_In, in_map_iff. setoid_rewrite list_elem_of_In. split; [intros ([k e'] & <- & H); by exists k|].
    intros (k & H). by exists (k, e). }
  exists status, s3, (map snd m). split_and!; [done| |..].
  - change (mServicesTable s3) with (tableForType BINDERIZED_SERVICES s3). rewrite P3, (lt_tables _ _ L). cbn [tableForType]. by rewrite He.
  - intros t Hne. by rewrite O3, (lt_tables _ _ L).
  - by rewrite Ek.
  - by rewrite Ek.
  - intros e (k & H)%Hsnd. by apply Hes in H as (_ & H).
  - done.
  - intros Hst e (k & H)%Hsnd. by eapply F.
  - intros Hd Hall. apply G; [done|]. intros k e H. apply Hall, Hsnd. by exists k.
Qed.

(** The lazy HALs are those that are declared and not there: after all tables have been
    fetched, the table of lazy HALs has, in their order, the entries of the
    VINTF manifests that are of hwbinder with no service of that name, or
    passthrough with no library of the package at that minor version or above. *)
Theorem lazy_hals_unavailable {hals : Hals} (s : ListCommand) :
  LAZY_HALS ∈ mFetchTypes s -> mEntries (mLazyHalsTable s) = [] ->
  exists status s', fetch s = Some (status, s') /\
    mEntries (mLazyHalsTable s') = List.filter (unavailable s') (mEntries (mManifestHalsTable s')) /\
    (forall e, unavailable s' e = true <->
       match transport e with
       | EMPTY => False
       | HWBINDER => forall service, service ∈ mEntries (mServicesTable s') -> interfaceName service <> interfaceName e
       | PASSTHROUGH => forall fq library libfq, setTo (interfaceName e) = Some fq -> library ∈ mEntries (mImplementationsTable s') ->
           setTo (getPackageAndVersion (interfaceName library)) = Some libfq ->
           ~ (getPackage fq = getPackage libfq /\ minorAtLeast (getVersion fq) (getVersion libfq) = true)
       end).
Proof.
  intros Hf He. unfold fetch.
  set (first := if defaultServiceManager then _ else _).
  assert (H1 : exists st s1, first s = Some (st, s1) /\ tableForType LAZY_HALS s1 = tableForType LAZY_HALS s /\ mFetchTypes s1 = mFetchTypes s).
  { unfold first. destruct defaultServiceManager; [|by do 2 eexists].
    destruct (fills_binderized s) as (a & s1 & E1 & T1 & F1). destruct (fills_passthrough s1) as (b & s2 & E2 & T2 & F2).
    eexists _, s2. split_and!; [unfold mbind, M_bind; by rewrite E1, E2|by rewrite T2, T1|congruence]. }
  destruct H1 as (st1 & s1 & E1 & T1 & F1).
  assert (H2 : exists st s2, (if passthroughServiceManager then st ← fetchAllLibraries; mret (Z.lor st1 st) else mret (Z.lor st1 NO_PASSTHROUGH_MANAGER)) s1 = Some (st, s2) /\
     tableForType LAZY_HALS s2 = tableForType LAZY_HALS s1 /\ mFetchTypes s2 = mFetchTypes s1).
  { destruct passthroughServiceManager; [|by do 2 eexists]. destruct (fills_libraries s1) as (a & s2 & E2 & T2 & F2).
    eexists _, s2. split_and!; [unfold mbind, M_bind; by rewrite E2|by apply T2|done]. }
  destruct H2 as (st2 & s2 & E2 & T2 & F2). destruct (fills_manifest s2) as (st3 & s3 & E3 & T3 & F3).
  destruct (fetchLazyHals_spec s3) as (st4 & s4 & E4 & O4 & P4); [congruence|].
  eexists _, s4. split; [unfold mbind, M_bind, mret, M_ret in E2 |- *; rewrite E1; cbv beta iota; rewrite E2; cbv beta iota; rewrite E3; cbv beta iota; by rewrite E4|]. split; [|intros e; apply unavailable_spec].
  pose proof (O4 VINTF_MANIFEST ltac:(done)) as Hm. cbn in Hm. rewrite P4, Hm.
  change (mLazyHalsTable s3) with (tableForType LAZY_HALS s3). rewrite T3, T2, T1 by done. cbn [tableForType]. rewrite He. cbn [app].
  apply List.filter_ext. intros e. by rewrite (unavailable_others s3 s4).
Qed.

(** ** A device *)

(** Names with versions of one digit each. *)
Definition demo_version (s : str) : option (Z * Z) :=
  match s with [major; dot; minor] => if Ascii.eqb dot "." then Some (code major - 48, code minor - 48) else None | _ => None end.

Definition demo_name (s : str) : option (str * (Z * Z) * str) :=
  let '(package, rest) := splitFirst s "@" in
  let '(version, rest) := splitFirst rest ":" in
  match demo_version version with Some v => Some (package, v, rest) | None => None end.

Fixpoint demo_insert (before : TableEntry -> TableEntry -> bool) (e : TableEntry) (l : list TableEntry) : list TableEntry :=
  match l with
  | [] => [e]
  | x :: rest => if before e x then e :: l else x :: demo_insert before e rest
  end.

Definition demo_instances : list (str * Transport) :=
  [(lit "lights@1.0::ILights/default", HWBINDER); (lit "radio@1.1::IRadio/slot1", HWBINDER); (lit "mapper@2.0::IMapper/default", PASSTHROUGH);
   (lit "sound@2.0::ISound/default", PASSTHROUGH)].

#[export] Instance demo_hals : Hals := {|
  hals_libraries := demo_libraries;
  hals_numbers := demo_numbers;
  Service := Z;
  defaultServiceManager := true;
  passthroughServiceManager := true;
  list_names _ := Some [lit "vibrator@1.0::IVibrator/default"; lit "lights@1.0::ILights/default"];
  get_service _ name _ := if name =s? lit "lights@1.0::ILights" then Some (Some 7) else None;
  debugDump _ libraries :=
    Some [{| info_interfaceName := if libraries then lit "mapper@2.0::I*" else lit "mapper@2.0::IMapper"; info_instanceName := lit "x";
             info_clientPids := [4; 9; 4]; info_arch := IS_64BIT |}];
  getDebugInfo _ _ := Some {| di_pid := 7; di_ptr := 2000; di_arch := IS_64BIT |};
  interfaceChain _ _ := Some [lit "lights@1.0::ILights"];
  getHashChain _ _ := Some [[1; 2; 3; 4]];
  my_pid := 4;
  read_file _ path :=
    if path =s? lit "/d/binder/proc/7" then Some (concat (map (fun l => line_text l ++ [newline]) demo_lines))
    else if path =s? lit "/proc/7/cmdline" then Some (lit "/vendor/bin/lights")
    else if path =s? lit "/proc/31/cmdline" then Some (lit "system_server") else None;
  read_link _ _ := None;
  real_path _ _ := None;
  FqInstance := str * (Z * Z) * str;
  Version := Z * Z;
  setTo := demo_name;
  getPackage fq := fst (fst fq);
  getVersion fq := snd (fst fq);
  fq_interface _ := None;
  fq_instance _ := None;
  inPackage fq package := prefixb package (fst (fst fq));
  minorAtLeast v w := (fst v =? fst w) && (snd w <=? snd v);
  parse_version := demo_version;
  FQName := str * (Z * Z) * str;
  FQName_parse := demo_name;
  package_and_version n := (fst n, []);
  fqname_eqb a b := bool_decide (a = b);
  gIBase_package := lit "android.hidl.base";
  ManifestInstance := str * Transport;
  MatrixInstance := str;
  HalManifest := list (str * Transport);
  CompatibilityMatrix := list str;
  manifest_instances m := m;
  manifest_type _ := DEVICE;
  instances_of_version m package version := List.filter (fun i => match demo_name (fst i) with Some n => bool_decide (fst n = (package, version)) | None => false end) m;
  matrix_of_version m _ _ := m;
  mi_name := fst;
  mi_transport := snd;
  mi_arch _ := ARCH_64;
  mi_interface := fst;
  mi_instance := fst;
  mx_interface i := i;
  mx_matchInstance _ _ := true;
  arch_contains _ _ := true;
  getDeviceManifest := Some demo_instances;
  getFrameworkManifest := Some [];
  getDeviceMatrix := Some [];
  getFrameworkMatrix := Some [];
  new_manifest _ := [];
  insertInstance m fq t _ := Some (m ++ [(fst (fst fq), t)]);
  std_sort before l := foldr (demo_insert before) [] l |}.

Definition demo_command (types : list HalType) : ListCommand := {|
  mServicesTable := empty_table; mPassthroughRefTable := empty_table; mImplementationsTable := empty_table;
  mManifestHalsTable := empty_table; mLazyHalsTable := empty_table; mFileOutputPath := []; mSortColumn := None;
  mEmitDebugInfo := false; mVintf := false; mVintfPartition := UNKNOWN; mNeat := false; mListTypes := types; mFetchTypes := types;
  mCmdlines := ∅; mCachedPidInfos := ∅; mPartitions := ∅; lc_selectedColumns := []; mEnableCmdlines := false; asked := 0 |}.

Definition all_types : list HalType := [BINDERIZED_SERVICES; PASSTHROUGH_CLIENTS; PASSTHROUGH_LIBRARIES; VINTF_MANIFEST; LAZY_HALS].

(** One service answers and one does not. *)
Lemma binderized_services_listed_witness :
  exists status s' es, fetchBinderized (demo_command all_types) = Some (status, s') /\ mEntries (mServicesTable s') = es /\
    map (fun e => (interfaceName e, serviceStatus e, clientPids e)) es =
      [(lit "lights@1.0::ILights/default", ALIVE, [31; 4; 5]); (lit "vibrator@1.0::IVibrator/default", NON_RESPONSIVE, [])] /\
    lit "lights@1.0::ILights/default" ∈ map interfaceName es /\ (status = OK \/ Z.testbit status 3 = true).
Proof.
  destruct (binderized_services_listed (demo_command all_types) [lit "vibrator@1.0::IVibrator/default"; lit "lights@1.0::ILights/default"])
    as (status & s' & es & E & Hes & _ & _ & Hn & _ & Hr & _); [by apply (bool_decide_eq_true_1 _); vm_compute|done..|].
  exists status, s', es. split_and!; [done|done| |by apply Hn; right; left|done].
  subst es. revert E. vm_compute. by intros [= <- <-].
Defined.

Lemma lazy_hals_unavailable_witness :
  exists status s', fetch (demo_command all_types) = Some (status, s') /\
    map interfaceName (mEntries (mLazyHalsTable s')) = [lit "radio@1.1::IRadio/slot1"; lit "sound@2.0::ISound/default"] /\
    mEntries (mLazyHalsTable s') = List.filter (unavailable s') (mEntries (mManifestHalsTable s')).
Proof.
  destruct (lazy_hals_unavailable (demo_command all_types)) as (status & s' & E & El & _); [by apply (bool_decide_eq_true_1 _); vm_compute|done|].
  exists status, s'. split_and!; [done| |done]. revert E. clear El. vm_compute. by intros [= <- <-].
Defined.
