(* ===== verification/LshalMain.v ===== *)
(** The rest of [lshal]: what [ListCommand.cpp] does with the tables once they
    are filled, its options and its output, and the other commands
    ([Lshal.cpp], [DebugCommand.cpp], [HelpCommand.cpp]).

    [getopt_long] is a parameter: the options it finds and what is left. Help
    texts and the relay of a pipe ([PipeRelay.cpp]) are not described. *)

From S2P Require Import Prelude CLib LshalTable LshalPids LshalList.

Open Scope Z_scope.

(** [std::string::find] of a string. *)
Fixpoint find_str (sub s : str) : option nat :=
  if prefixb sub s then Some O
  else match s with [] => None | _ :: rest => S <$> find_str sub rest end.

(** * Tables once they are filled *)

Section Post.
Context {hals : Hals}.

Fixpoint mmap {A B} (f : A -> M B) (l : list A) : M (list B) :=
  match l with
  | [] => mret []
  | x :: rest => y ← f x; ys ← mmap f rest; mret (y :: ys)
  end.

Definition set_cmdlines (server : str) (clients : list Z) (cmdlines : list str) (e : TableEntry) : TableEntry := {|
  interfaceName := interfaceName e; transport := transport e; serverPid := serverPid e; threadUsage := threadUsage e;
  threadCount := threadCount e; serverCmdline := server; serverObjectAddress := serverObjectAddress e;
  clientPids := clients; clientCmdlines := cmdlines; arch := arch e; hash := hash e; partition := partition e;
  vintfInfo := vintfInfo e; serviceStatus := serviceStatus e |}.

Definition set_origin (p : Partition) (info : Z) (e : TableEntry) : TableEntry := {|
  interfaceName := interfaceName e; transport := transport e; serverPid := serverPid e; threadUsage := threadUsage e;
  threadCount := threadCount e; serverCmdline := serverCmdline e; serverObjectAddress := serverObjectAddress e;
  clientPids := clientPids e; clientCmdlines := clientCmdlines e; arch := arch e; hash := hash e; partition := p;
  vintfInfo := info; serviceStatus := serviceStatus e |}.

Definition post_cmdlines (e : TableEntry) : M TableEntry :=
  server ← getCmdline (serverPid e);
  clients ← removeDeadProcesses (clientPids e);
  cmdlines ← mmap getCmdline clients;
  mret (set_cmdlines server clients (clientCmdlines e ++ cmdlines) e).

Definition post_origin (e : TableEntry) : M TableEntry :=
  p ← (match partition e with UNKNOWN => getPartition (serverPid e) | p => mret p end);
  info ← getVintfInfo (interfaceName e) (transport e) (arch e);
  mret (set_origin p info e).

Definition set_entries (type : HalType) (entries : list TableEntry) : M unit :=
  modify (fun s => let t := tableForType type s in
    set_table type {| mDescription := mDescription t; mEntries := entries; mSelectedColumns := mSelectedColumns t |} s).

(** One table. *)
Definition post_table (type : HalType) : M unit :=
  s ← get (fun s => s);
  let entries := mEntries (tableForType type s) in
  entries ← mmap post_cmdlines (match mSortColumn s with Some c => std_sort (compare c) entries | None => entries end);
  entries ← mmap post_origin entries;
  set_entries type entries.

(** The bitness of a passthrough client is that of its library. *)
Definition inherit_arch (package : TableEntry) (clients : list TableEntry) : list TableEntry :=
  let packageName := interfaceName package in
  match FQName_parse (match find_str (lit "::") packageName with Some n => take n packageName | None => packageName end) with
  | None => clients
  | Some fqPackageName =>
      map (fun e =>
        if bool_decide (arch e <> ARCH_EMPTY) then e
        else match FQName_parse (fst (splitFirst (interfaceName e) "/")) with
             | None => e
             | Some name => if fqname_eqb (package_and_version name) fqPackageName then set_arch (arch package) e else e
             end) clients
  end.

Definition describe (type : HalType) (d : string) : M unit :=
  modify (fun s => set_table type (setDescription (lit d) (tableForType type s)) s).

Definition postprocess : M unit :=
  types ← get mListTypes;
  _ ← mfold (fun type _ => post_table type) types tt;
  s ← get (fun s => s);
  _ ← set_entries PASSTHROUGH_CLIENTS
        (fold_left (fun clients package => inherit_arch package clients) (mEntries (mImplementationsTable s)) (mEntries (mPassthroughRefTable s)));
  _ ← describe BINDERIZED_SERVICES "| All binderized services (registered with hwservicemanager)";
  _ ← describe PASSTHROUGH_CLIENTS "| All interfaces that getService() has ever returned as a passthrough interface;
| PIDs / processes shown below might be inaccurate because the process
| might have relinquished the interface or might have died.
| The Server / Server CMD column can be ignored.
| The Clients / Clients CMD column shows all process that have ever dlopen'ed 
| the library and successfully fetched the passthrough implementation.";
  _ ← describe PASSTHROUGH_LIBRARIES "| All available passthrough implementations (all -impl.so files).
| These may return subclasses through their respective HIDL_FETCH_I* functions.";
  _ ← describe VINTF_MANIFEST "| All HALs that are in VINTF manifest.";
  describe LAZY_HALS "| All HALs that are declared in VINTF manifest:
|    - as hwbinder HALs but are not registered to hwservicemanager, and
|    - as hwbinder/passthrough HALs with no implementation.".

(** ** A skeleton of a manifest *)

(** Whether an entry is in the manifest or need not be. *)
Definition addEntryWithInstance (target : Partition) (e : TableEntry) (manifest : HalManifest) : bool * HalManifest :=
  match setTo (interfaceName e) with
  | None => (false, manifest)
  | Some fq =>
      if getPackage fq =s? gIBase_package then (true, manifest)
      else
        match resolvePartition (partition e) fq with
        | UNKNOWN => (false, manifest)
        | p =>
            if bool_decide (p <> target) then (true, manifest)
            else
              match (match transport e with
                     | HWBINDER => Some ARCH_EMPTY
                     | PASSTHROUGH => if bool_decide (arch e = ARCH_EMPTY) then None else Some (arch e)
                     | EMPTY => None
                     end) with
              | None => (false, manifest)
              | Some a =>
                  match insertInstance manifest fq (transport e) a with
                  | None => (false, manifest)
                  | Some manifest => (true, manifest)
                  end
              end
        end
  end.

Definition addEntryWithoutInstance (e : TableEntry) (manifest : HalManifest) : bool :=
  let '(package, version) := splitFirst (getPackageAndVersion (interfaceName e)) "@" in
  match parse_version version with
  | None => false
  | Some version => match instances_of_version manifest package version with [] => false | _ :: _ => true end
  end.

(** The manifest and the names that were not added. *)
Definition skeleton (s : ListCommand) : HalManifest * list str * list str :=
  let '(manifest, error) :=
    fold_left (fun acc e =>
      let '(manifest, error) := acc in
      let '(ok, manifest) := addEntryWithInstance (mVintfPartition s) e manifest in
      (manifest, if ok then error else error ++ [interfaceName e]))
      (mEntries (mServicesTable s) ++ mEntries (mPassthroughRefTable s) ++ mEntries (mManifestHalsTable s))
      (new_manifest (toSchemaType (mVintfPartition s)), []) in
  let passthrough := map interfaceName (List.filter (fun e => negb (addEntryWithoutInstance e manifest)) (mEntries (mImplementationsTable s))) in
  (manifest, error, passthrough).

(** ** Options *)

(** An option that was found, by the number of its long form or its letter. *)
Inductive opt_event := LongOption (val : nat) (arg : option str) | ShortOption (c : ascii) (arg : option str) | Unrecognized.

Inductive has_arg := no_argument | required_argument | optional_argument.

Record RegisteredOption := {
  shortOption : option ascii;
  longOption : str;
  hasArg : has_arg;
  val : nat;
  op : option str -> ListCommand -> option (Z * ListCommand);
}.

Definition with_output (path : str) (debug vintf : bool) (p : Partition) (s : ListCommand) : ListCommand := {|
  mServicesTable := mServicesTable s; mPassthroughRefTable := mPassthroughRefTable s; mImplementationsTable := mImplementationsTable s;
  mManifestHalsTable := mManifestHalsTable s; mLazyHalsTable := mLazyHalsTable s; mFileOutputPath := path;
  mSortColumn := mSortColumn s; mEmitDebugInfo := debug; mVintf := vintf; mVintfPartition := p;
  mNeat := mNeat s; mListTypes := mListTypes s; mFetchTypes := mFetchTypes s; mCmdlines := mCmdlines s;
  mCachedPidInfos := mCachedPidInfos s; mPartitions := mPartitions s; lc_selectedColumns := lc_selectedColumns s;
  mEnableCmdlines := mEnableCmdlines s; asked := asked s |}.

Definition with_listing (sort : option sort_column) (neat : bool) (types fetch_types : list HalType) (columns : list TableColumnType)
    (cmdlines : bool) (s : ListCommand) : ListCommand := {|
  mServicesTable := mServicesTable s; mPassthroughRefTable := mPassthroughRefTable s; mImplementationsTable := mImplementationsTable s;
  mManifestHalsTable := mManifestHalsTable s; mLazyHalsTable := mLazyHalsTable s; mFileOutputPath := mFileOutputPath s;
  mSortColumn := sort; mEmitDebugInfo := mEmitDebugInfo s; mVintf := mVintf s; mVintfPartition := mVintfPartition s;
  mNeat := neat; mListTypes := types; mFetchTypes := fetch_types; mCmdlines := mCmdlines s;
  mCachedPidInfos := mCachedPidInfos s; mPartitions := mPartitions s; lc_selectedColumns := columns;
  mEnableCmdlines := cmdlines; asked := asked s |}.

Definition select (c : TableColumnType) (_ : option str) (s : ListCommand) : option (Z * ListCommand) :=
  Some (OK, with_listing (mSortColumn s) (mNeat s) (mListTypes s) (mFetchTypes s) (lc_selectedColumns s ++ [c]) (mEnableCmdlines s) s).

Definition or_path (arg : option str) (s : ListCommand) : str := match arg with Some path => path | None => mFileOutputPath s end.

Definition kHalTypeMap : list (str * HalType) := [
  (lit "binderized", BINDERIZED_SERVICES); (lit "b", BINDERIZED_SERVICES);
  (lit "passthrough_clients", PASSTHROUGH_CLIENTS); (lit "c", PASSTHROUGH_CLIENTS);
  (lit "passthrough_libs", PASSTHROUGH_LIBRARIES); (lit "l", PASSTHROUGH_LIBRARIES);
  (lit "vintf", VINTF_MANIFEST); (lit "v", VINTF_MANIFEST); (lit "lazy", LAZY_HALS); (lit "z", LAZY_HALS)].

(** The types of a list, each once; [None]: one is not known. The types before
    it are kept. *)
Fixpoint add_types (args : list str) (types : list HalType) : list HalType * bool :=
  match args with
  | [] => (types, true)
  | [] :: rest => add_types rest types
  | arg :: rest =>
      match map_find arg kHalTypeMap with
      | None => (types, false)
      | Some t => add_types rest (if decide (t ∈ types) then types else types ++ [t])
      end
  end.

Definition op_types (arg : option str) (s : ListCommand) : option (Z * ListCommand) :=
  match arg with
  | None => Some (USAGE, s)
  | Some arg =>
      let '(types, ok) := add_types (split arg ",") (mListTypes s) in
      let s := with_listing (mSortColumn s) (mNeat s) types (mFetchTypes s) (lc_selectedColumns s) (mEnableCmdlines s) s in
      Some (if negb ok then USAGE else match types with [] => USAGE | _ => OK end, s)
  end.

Definition op_sort (arg : option str) (s : ListCommand) : option (Z * ListCommand) :=
  let go c := Some (OK, with_listing (Some c) (mNeat s) (mListTypes s) (mFetchTypes s) (lc_selectedColumns s) (mEnableCmdlines s) s) in
  match arg with
  | None => None
  | Some arg =>
      if (arg =s? lit "interface") || (arg =s? lit "i") then go sortByInterfaceName
      else if (arg =s? lit "pid") || (arg =s? lit "p") then go sortByServerPid
      else Some (USAGE, s)
  end.

Definition op_partition (arg : option str) (s : ListCommand) : option (Z * ListCommand) :=
  match arg with
  | None => Some (USAGE, s)
  | Some arg =>
      let p := parsePartition arg in
      Some (match p with UNKNOWN => USAGE | _ => OK end, with_output (mFileOutputPath s) (mEmitDebugInfo s) (mVintf s) p s)
  end.

Definition option_ (short : option ascii) (long : string) (h : has_arg) (v : nat) (f : option str -> ListCommand -> option (Z * ListCommand)) :
    RegisteredOption := {| shortOption := short; longOption := lit long; hasArg := h; val := v; op := f |}.

Definition registerAllOptions : list RegisteredOption := [
  option_ (Some "h"%char) "help" no_argument 0 (fun _ s => Some (USAGE, s));
  option_ (Some "i"%char) "interface" no_argument 1 (select INTERFACE_NAME);
  option_ (Some "l"%char) "released" no_argument 2 (select RELEASED);
  option_ (Some "t"%char) "transport" no_argument 3 (select TRANSPORT);
  option_ (Some "r"%char) "arch" no_argument 4 (select ARCH);
  option_ (Some "s"%char) "hash" no_argument 5 (select HASH);
  option_ (Some "p"%char) "pid" no_argument 6 (select SERVER_PID);
  option_ (Some "a"%char) "address" no_argument 7 (select SERVER_ADDR);
  option_ (Some "c"%char) "clients" no_argument 8 (select CLIENT_PIDS);
  option_ (Some "e"%char) "threads" no_argument 9 (select THREADS);
  option_ (Some "m"%char) "cmdline" no_argument 10 (fun _ s =>
    Some (OK, with_listing (mSortColumn s) (mNeat s) (mListTypes s) (mFetchTypes s) (lc_selectedColumns s) true s));
  option_ (Some "d"%char) "debug" optional_argument 11 (fun arg s =>
    Some (OK, with_output (or_path arg s) true (mVintf s) (mVintfPartition s) s));
  option_ (Some "V"%char) "vintf" no_argument 12 (select VINTF);
  option_ (Some "S"%char) "service-status" no_argument 13 (select SERVICE_STATUS);
  option_ None "init-vintf" no_argument 14 (fun arg s =>
    Some (OK, with_output (or_path arg s) (mEmitDebugInfo s) true (match mVintfPartition s with UNKNOWN => VENDOR | p => p end) s));
  option_ None "init-vintf-partition" required_argument 15 op_partition;
  option_ None "sort" required_argument 16 op_sort;
  option_ None "neat" no_argument 17 (fun _ s =>
    Some (OK, with_listing (mSortColumn s) true (mListTypes s) (mFetchTypes s) (lc_selectedColumns s) (mEnableCmdlines s) s));
  option_ None "types" required_argument 18 op_types].

Definition getLongOptions (options : list RegisteredOption) : list (str * has_arg * nat) :=
  map (fun e => (longOption e, hasArg e, val e)) options.

Definition getShortOptions (options : list RegisteredOption) : str := omap shortOption options.

(** The last option that fits. *)
Definition found (e : opt_event) (options : list RegisteredOption) : option (RegisteredOption * option str) :=
  match e with
  | LongOption v arg => (fun o => (o, arg)) <$> last (List.filter (fun o => (v =? val o)%nat) options)
  | ShortOption c arg => (fun o => (o, arg)) <$> last (List.filter (fun o => bool_decide (Some c = shortOption o)) options)
  | Unrecognized => None
  end.

Fixpoint run_options (events : list opt_event) (s : ListCommand) : option (Z * ListCommand) :=
  match events with
  | [] => Some (OK, s)
  | e :: rest =>
      match found e registerAllOptions with
      | None => Some (USAGE, s)
      | Some (o, arg) =>
          match op o arg s with
          | None => None
          | Some (status, s) => if status =? OK then run_options rest s else Some (status, s)
          end
      end
  end.

Definition kDependencies (t : HalType) : list HalType :=
  match t with LAZY_HALS => [BINDERIZED_SERVICES; PASSTHROUGH_LIBRARIES; VINTF_MANIFEST] | _ => [] end.

(** The types to fetch, as a set. *)
Definition initFetchTypes (types fetch_types : list HalType) : list HalType :=
  list_union (list_union fetch_types types) (concat (map kDependencies types)).

Definition forEachTable (f : Table -> Table) (s : ListCommand) : ListCommand :=
  fold_left (fun s type => set_table type (f (tableForType type s)) s) (mListTypes s) s.

Definition cmdline_column (c : TableColumnType) : TableColumnType :=
  match c with SERVER_PID => SERVER_CMD | CLIENT_PIDS => CLIENT_CMDS | c => c end.

Definition default_columns : list TableColumnType := [VINTF; RELEASED; INTERFACE_NAME; THREADS; SERVER_PID; CLIENT_PIDS].
Definition default_types : list HalType := [BINDERIZED_SERVICES; PASSTHROUGH_CLIENTS; PASSTHROUGH_LIBRARIES].

(** [getopt_long] gives the options among the words and the words that are
    left. *)
Definition list_parseArgs (getopt_long : str -> list (str * has_arg * nat) -> list str -> list opt_event * list str)
    (args : list str) (s : ListCommand) : option (Z * ListCommand) :=
  let s := with_listing (mSortColumn s) (mNeat s) [] (mFetchTypes s) (lc_selectedColumns s) (mEnableCmdlines s) s in
  let '(events, rest) := getopt_long (getShortOptions registerAllOptions) (getLongOptions registerAllOptions) args in
  match run_options events s with
  | None => None
  | Some (status, s) =>
      if negb (status =? OK) then Some (status, s)
      else match rest with
           | _ :: _ => Some (USAGE, s)
           | [] =>
               if mNeat s && mEmitDebugInfo s then Some (USAGE, s)
               else
                 let columns := match lc_selectedColumns s with [] => default_columns | c => c end in
                 let columns := if mEnableCmdlines s then map cmdline_column columns else columns in
                 let types := match mListTypes s with [] => default_types | t => t end in
                 let s := with_listing (mSortColumn s) (mNeat s) types (initFetchTypes types (mFetchTypes s)) columns (mEnableCmdlines s) s in
                 Some (OK, forEachTable (setSelectedColumns columns) s)
           end
  end.

End Post.

(** * Output *)

(** What only the output asks. *)
Class Outputs {hals : Hals} := {
  schema_to_string : SchemaType -> str;               (* vintf's operator<< *)
  serialize_hals : HalManifest -> str;                (* gHalManifestConverter, HALS_ONLY *)
  manifest_schema : HalManifest -> SchemaType;
  open_output : nat -> str -> bool;
  getDescriptor : nat -> Service -> str;
  pipe_ok : nat -> bool;
  debug : nat -> Service -> list str -> bool * str;   (* whether debug() returned, and what came through the pipe *)
  getopt_long : str -> list (str * has_arg * nat) -> list str -> list opt_event * list str;
  isIdentifier : FQName -> bool;
  isFullyQualified : FQName -> bool;
}.

Inductive output := NoOutput | Stdout (text : str) | ToFile (path text : str).

Section Output.
Context {hals : Hals} {outs : Outputs}.

Definition endl : str := [newline].

Definition INIT_VINTF_NOTES : str := lit
"    1. If a HAL is supported in both hwbinder and passthrough transport,
       only hwbinder is shown.
    2. It is likely that HALs in passthrough transport does not have
       <interface> declared; users will have to write them by hand.
    3. A HAL with lower minor version can be overridden by a HAL with
       higher minor version if they have the same name and major version.
    4. This output is intended for launch devices.
       Upgrading devices should not use this tool to generate device
       manifest and replace the existing manifest directly, but should
       edit the existing manifest manually.
       Specifically, devices which launched at Android O-MR1 or earlier
       should not use the 'fqname' format for required HAL entries and
       should instead use the legacy package, name, instance-name format
       until they are updated.
".

Definition indented (names : list str) : str := concat (map (fun n => lit "        " ++ n ++ endl) names).

Definition dumpVintf (s : ListCommand) : str :=
  let '(manifest, error, passthrough) := skeleton s in
  lit "<!-- " ++ endl ++ lit "    This is a skeleton " ++ schema_to_string (manifest_schema manifest) ++ lit " manifest. Notes: " ++ endl ++
  INIT_VINTF_NOTES ++
  match error with
  | [] => []
  | _ => endl ++ lit "    The following HALs are not added; see warnings." ++ endl ++ indented error
  end ++
  match passthrough with
  | [] => []
  | _ => endl ++ lit "    The following HALs are passthrough and no interface or instance " ++ endl ++
         lit "    names can be inferred." ++ endl ++ indented passthrough
  end ++
  lit "-->" ++ endl ++ serialize_hals manifest.

(** [Lshal::emitDebugInfo], from question [n] on. *)
Definition emitDebugInfo (n : nat) (interfaceName instanceName : str) (options : list str) (excludesParentInstances : bool) : Z * str :=
  match get_service n interfaceName instanceName with
  | None => (TRANSACTION_ERROR, [])
  | Some None => (NO_INTERFACE, [])
  | Some (Some base) =>
      if excludesParentInstances && negb (getDescriptor n base =s? interfaceName) then (OK, [])
      else if negb (pipe_ok n) then (IO_ERROR, [])
      else let '(ok, text) := debug n base options in (if ok then OK else TRANSACTION_ERROR, text)
  end.

(** [None] is a read out of range. *)
Definition dumpTable (s : ListCommand) : option str :=
  if mNeat s then dump (merged_table (map (fun type => tableForType type s) (mListTypes s)))
  else
    concat (A := ascii) <$> mapM (fun type =>
      let emit := if mEmitDebugInfo s && bool_decide (type = BINDERIZED_SERVICES)
                  then Some (fun n name => let '(i, inst) := splitFirst name "/" in snd (emitDebugInfo (asked s + n) i inst [] false))
                  else None in
      (fun text => text ++ endl) <$> dump (createTextTable false emit (tableForType type s))) (mListTypes s).

Definition list_dump (s : ListCommand) : option (Z * output) :=
  match (if mVintf s then Some (dumpVintf s) else dumpTable s) with
  | None => None
  | Some text =>
      Some (match mFileOutputPath s with
            | [] => (OK, Stdout text)
            | path => if open_output (asked s) path then (OK, ToFile path text) else (IO_ERROR, NoOutput)
            end)
  end.

Definition list_main (args : list str) (s : ListCommand) : option (Z * output) :=
  match list_parseArgs getopt_long args s with
  | None => None
  | Some (status, s) =>
      if negb (status =? OK) then Some (status, NoOutput)
      else match fetch s with
           | None => None
           | Some (status, s) =>
               match postprocess s with
               | None => None
               | Some (_, s) => (fun r => (Z.lor status (fst r), snd r)) <$> list_dump s
               end
           end
  end.

(** * Commands *)

(** What is printed to the error stream: help on everything, or on a command. *)
Inductive help := GlobalUsage | UsageOf (name : str).

Definition result : Type := Z * output * list help.

(** [None]: a null pointer is made a string. With no service manager [debug]
    dereferences a null pointer too. *)
Definition debug_parseArgs (args : list str) : option (option (bool * str * list str)) :=
  match args with
  | [] => Some None
  | a :: rest =>
      if a =s? lit "-E" then match rest with [] => None | name :: options => Some (Some (true, name, options)) end
      else Some (Some (false, a, rest))
  end.

Definition debug_main (n : nat) (args : list str) : option (Z * output) :=
  match debug_parseArgs args with
  | None => None
  | Some None => Some (USAGE, NoOutput)
  | Some (Some (excludes, mInterfaceName, options)) =>
      let '(name, instance) := splitFirst mInterfaceName "/" in
      match FQName_parse name with
      | None => Some (USAGE, NoOutput)
      | Some fq =>
          if isIdentifier fq || negb (isFullyQualified fq) then Some (USAGE, NoOutput)
          else if negb defaultServiceManager then None
          else let '(status, text) := emitDebugInfo n name (match instance with [] => lit "default" | i => i end) options excludes in
               Some (status, Stdout text)
      end
  end.

Inductive command := ListCmd | DebugCmd | HelpCmd.

Definition getName (c : command) : str := match c with ListCmd => lit "list" | DebugCmd => lit "debug" | HelpCmd => lit "help" end.
Definition mRegisteredCommands : list command := [ListCmd; DebugCmd; HelpCmd].

Definition selectCommand (name : str) : option command :=
  let name := match name with [] => getName ListCmd | n => n end in
  List.find (fun c => getName c =s? name) mRegisteredCommands.

Definition usageOfCommand (c : str) : Z * list help :=
  match c with
  | [] => (USAGE, [GlobalUsage])
  | _ => match selectCommand c with
         | None => (USAGE, [GlobalUsage])
         | Some command => (USAGE, [UsageOf (getName command)])
         end
  end.

Definition help_main (args : list str) : Z * list help :=
  match args with
  | [] => (OK, [GlobalUsage])
  | c :: _ => (OK, snd (usageOfCommand c))
  end.

(** The command and the arguments that are left for it; [None]: neither a
    command nor an option. *)
Definition lshal_parseArgs (argv : list str) : option (str * list str) :=
  match argv with
  | [] | [_] => Some ([], [])
  | _ :: first :: rest =>
      match selectCommand first with
      | Some _ => Some (first, rest)
      | None => match first with
                | c :: _ => if Ascii.eqb c "-" then Some ([], first :: rest) else None
                | [] => None
                end
      end
  end.

Definition run_command (c : command) (args : list str) : option result :=
  match c with
  | ListCmd => (fun r => (fst r, snd r, [])) <$> list_main args new_list_command
  | DebugCmd => (fun r => (fst r, snd r, [])) <$> debug_main 0 args
  | HelpCmd => let '(status, printed) := help_main args in Some (status, NoOutput, printed)
  end.

Definition lshal_main (argv : list str) : option result :=
  match lshal_parseArgs argv with
  | None => Some (USAGE, NoOutput, [GlobalUsage])
  | Some (mCommand, args) =>
      match selectCommand mCommand with
      | None => Some (USAGE, NoOutput, [GlobalUsage])
      | Some c =>
          match run_command c args with
          | None => None
          | Some (status, out, printed) =>
              if status =? USAGE then
                let '(status, more) := usageOfCommand mCommand in Some (status, out, printed ++ more)
              else Some (status, out, printed)
          end
      end
  end.

End Output.
