(* ===== verification/LshalPost.v ===== *)
(** What [lshal list] makes of its tables and of its options: the command lines
    of the processes in [postprocess], and the state that [parseArgs] accepts. *)

From S2P Require Import Prelude CLib LshalTable LshalPids LshalList LshalFetch LshalMain.

Open Scope Z_scope.

(** * Command lines *)

Section Post.
Context {hals : Hals}.

(** The command line that is known of a process; none for no process. *)
Definition cmdline_of (s : ListCommand) (pid : Z) : str := if pid =? NO_PID then [] else default [] (mCmdlines s !! pid).

Definition alive_other (s : ListCommand) (pid : Z) : bool := negb (pid =? my_pid) && negb (bool_decide (cmdline_of s pid = [])).

(** What becomes of an entry. *)
Definition resolved (s : ListCommand) (e e' : TableEntry) : Prop :=
  interfaceName e' = interfaceName e /\ transport e' = transport e /\ serverPid e' = serverPid e /\ serviceStatus e' = serviceStatus e /\
  serverCmdline e' = cmdline_of s (serverPid e) /\
  clientPids e' = List.filter (alive_other s) (clientPids e) /\
  clientCmdlines e' = map (cmdline_of s) (clientPids e').

Definition known (s : ListCommand) (pid : Z) : Prop := pid = NO_PID \/ is_Some (mCmdlines s !! pid).

Lemma known_later s s' pid : mCmdlines s ⊆ mCmdlines s' -> known s pid -> known s' pid /\ cmdline_of s' pid = cmdline_of s pid.
Proof.
  intros Hsub [->|[c Hc]]; [by split; [left|]|]. pose proof (lookup_weaken _ _ _ _ Hc Hsub) as Hc'.
  split; [right; by exists c|]. unfold cmdline_of. destruct (pid =? NO_PID); [done|]. by rewrite Hc, Hc'.
Qed.

(** The command lines that an entry needs are known, and stay so. *)
Definition settled (s : ListCommand) (e e' : TableEntry) : Prop :=
  resolved s e e' /\ known s (serverPid e) /\ forall pid, pid ∈ clientPids e -> pid <> my_pid -> known s pid.

Lemma filter_ext_elem {A} (f g : A -> bool) l : (forall x, x ∈ l -> f x = g x) -> List.filter f l = List.filter g l.
Proof. intros H. apply filter_ext_in. intros x Hx. by apply H, list_elem_of_In. Qed.

Lemma settled_later s s' e e' : mCmdlines s ⊆ mCmdlines s' -> settled s e e' -> settled s' e e'.
Proof.
  intros Hsub ((N & T & S & St & C & P & D) & Ks & Kc). destruct (known_later _ _ _ Hsub Ks) as [Ks' Es].
  assert (Ec : forall pid, pid ∈ clientPids e -> alive_other s' pid = alive_other s pid).
  { intros pid Hp. unfold alive_other. destruct (Z.eqb_spec pid my_pid) as [|Hne]; [done|].
    destruct (known_later _ _ _ Hsub (Kc _ Hp Hne)) as [_ ->]. done. }
  split_and!; try done; [|intros pid Hp Hne; by eapply known_later, Kc].
  split_and!; try done; [by rewrite Es|by rewrite (filter_ext_elem _ _ _ Ec)|]. rewrite D. apply map_ext_in. intros pid Hp.
  rewrite P in Hp. apply filter_In in Hp as [Hp Ha]. apply list_elem_of_In in Hp. unfold alive_other in Ha.
  destruct (Z.eqb_spec pid my_pid) as [|Hne]; [done|]. by destruct (known_later _ _ _ Hsub (Kc _ Hp Hne)) as [_ ->].
Qed.

Lemma getCmdline_known pid s : answers (getCmdline pid) s (fun c s' => known s' pid /\ c = cmdline_of s' pid).
Proof.
  eapply answers_mono; [apply answers_getCmdline|]. intros c s' _ H. unfold cmdline_of, known.
  destruct (Z.eqb_spec pid NO_PID) as [->|Hne]; [by split; [left|]|]. rewrite H. split; [right; by exists c|done].
Qed.

Lemma removeDeadProcesses_spec pids s :
  answers (removeDeadProcesses pids) s (fun l s' => l = List.filter (alive_other s') pids /\ forall pid, pid ∈ pids -> pid <> my_pid -> known s' pid).
Proof.
  revert s. induction pids as [|pid pids IH]; intros s; cbn [removeDeadProcesses].
  { apply answers_ret. split; [done|]. by intros pid H%not_elem_of_nil. }
  eapply (answers_bind _ _ _ (fun dead s' => dead = negb (alive_other s' pid) /\ (pid <> my_pid -> known s' pid))).
  - unfold alive_other. destruct (Z.eqb_spec pid my_pid) as [->|Hne]; [by apply answers_ret|].
    eapply answers_bind; [apply getCmdline_known|]. intros c s1 _ [K ->]. apply answers_ret. cbn [negb andb]. by rewrite negb_involutive.
  - intros dead s1 _ [Hd Hk]. eapply answers_bind; [apply IH|]. intros l s2 L [-> Hl]. apply answers_ret. cbn [List.filter].
    assert (E : alive_other s2 pid = alive_other s1 pid).
    { unfold alive_other. destruct (Z.eqb_spec pid my_pid) as [|Hne]; [done|].
      by destruct (known_later _ _ _ (lt_cmdlines _ _ L) (Hk Hne)) as [_ ->]. }
    split; [rewrite Hd, E; by destruct (alive_other s1 pid)|].
    intros p [->|Hp]%elem_of_cons Hne; [|by apply Hl]. by eapply known_later, Hk; [apply lt_cmdlines|].
Qed.

(** A loop that only asks. *)
Lemma answers_mmap {A B} (f : A -> M B) (R : ListCommand -> A -> B -> Prop) (l : list A) :
  (forall s s' x y, mCmdlines s ⊆ mCmdlines s' -> R s x y -> R s' x y) ->
  (forall x s, x ∈ l -> answers (f x) s (fun y s' => R s' x y)) ->
  forall s, answers (mmap f l) s (fun ys s' => Forall2 (R s') l ys).
Proof.
  intros Hmono Hf. induction l as [|x l IH]; intros s; cbn [mmap]; [by apply answers_ret|].
  eapply answers_bind; [apply Hf; by left|]. intros y s1 _ Hy.
  eapply answers_bind; [apply IH; intros x' s' Hx'; apply Hf; by right|]. intros ys s2 L Hys. apply answers_ret.
  constructor; [|done]. eapply Hmono; [by apply lt_cmdlines|done].
Qed.

Lemma post_cmdlines_spec e s : clientCmdlines e = [] -> answers (post_cmdlines e) s (fun e' s' => settled s' e e').
Proof.
  intros He. unfold post_cmdlines. eapply answers_bind; [apply getCmdline_known|]. intros server s1 _ [Ks Es].
  eapply answers_bind; [apply removeDeadProcesses_spec|]. intros clients s2 L2 [Ec Kc].
  eapply answers_bind; [apply (answers_mmap _ (fun s pid c => known s pid /\ c = cmdline_of s pid)); [|intros; apply getCmdline_known]|].
  { intros s3 s4 pid c Hsub [K ->]. by destruct (known_later _ _ _ Hsub K) as [K' ->]. }
  intros cmdlines s3 L3 Hc. apply answers_ret. destruct (known_later _ _ _ (lt_cmdlines _ _ L2) Ks) as [Ks2 E2].
  destruct (known_later _ _ _ (lt_cmdlines _ _ L3) Ks2) as [Ks3 E3].
  assert (Hset : settled s2 e (set_cmdlines server clients (map (cmdline_of s2) clients) e)).
  { split_and!; [|done|done]. split_and!; try done. cbn. by rewrite Es, E2. }
  apply (settled_later _ _ _ _ (lt_cmdlines _ _ L3)) in Hset. rewrite He. cbn [app].
  assert (Ed : cmdlines = map (cmdline_of s3) clients).
  { clear -Hc. induction Hc as [|pid c pids cs [_ ->] _ IH]; [done|]. by rewrite IH. }
  destruct Hset as [(N & T & S & St & C & P & D) K]. cbn in D. rewrite Ed, <- D. by split.
Qed.

(** Entries that differ in what the steps after that change. *)
Definition similar (e e' : TableEntry) : Prop :=
  interfaceName e' = interfaceName e /\ transport e' = transport e /\ serverPid e' = serverPid e /\ serviceStatus e' = serviceStatus e /\
  serverCmdline e' = serverCmdline e /\ clientPids e' = clientPids e /\ clientCmdlines e' = clientCmdlines e.

#[export] Instance similar_preorder : PreOrder similar.
Proof.
  split; [by intros e|]. intros e1 e2 e3 (A1 & B1 & C1 & D1 & E1 & F1 & G1) (A2 & B2 & C2 & D2 & E2 & F2 & G2).
  split_and!; congruence.
Qed.

Lemma settled_similar s e e1 e2 : settled s e e1 -> similar e1 e2 -> settled s e e2.
Proof.
  intros ((A1 & B1 & C1 & D1 & E1 & F1 & G1) & K) (A2 & B2 & C2 & D2 & E2 & F2 & G2). split; [|done]. split_and!; congruence.
Qed.

(** ** Tables *)

Definition vintf_there : Prop := is_Some getDeviceManifest /\ is_Some getFrameworkManifest /\ is_Some getDeviceMatrix /\ is_Some getFrameworkMatrix.

Lemma post_origin_spec e s : vintf_there -> answers (post_origin e) s (fun e' _ => similar e e').
Proof.
  intros (H1 & H2 & H3 & H4). unfold post_origin. apply (answers_bind _ _ _ any).
  { destruct (partition e); [apply answers_getPartition|by apply answers_ret..]. }
  intros p s1 _ _. eapply answers_bind; [by apply answers_getVintfInfo|]. intros info s2 _ _. by apply answers_ret.
Qed.

(** The entries of a table in the order that is asked for. *)
Definition sorted_entries (s : ListCommand) (type : HalType) : list TableEntry :=
  match mSortColumn s with Some c => std_sort (compare c) (mEntries (tableForType type s)) | None => mEntries (tableForType type s) end.

Lemma unsorted_entries s type : mSortColumn s = None -> sorted_entries s type = mEntries (tableForType type s).
Proof. intros H. unfold sorted_entries. by rewrite H. Qed.

(** Code that changes no more than some tables. *)
Record tables_only (changed : HalType -> Prop) (s s' : ListCommand) : Prop := {
  to_tables : forall t, ~ changed t -> tableForType t s' = tableForType t s;
  to_options : mListTypes s' = mListTypes s /\ mSortColumn s' = mSortColumn s;
  to_cmdlines : mCmdlines s ⊆ mCmdlines s';
}.

Lemma tables_only_trans c1 c2 s1 s2 s3 : tables_only c1 s1 s2 -> tables_only c2 s2 s3 -> tables_only (fun t => c1 t \/ c2 t) s1 s3.
Proof.
  intros [A1 [B1 C1] D1] [A2 [B2 C2] D2]. split; [|split; congruence|by etrans]. intros t H. rewrite A2, A1; tauto.
Qed.

Lemma tables_only_mono (c1 c2 : HalType -> Prop) s s' : (forall t, c1 t -> c2 t) -> tables_only c1 s s' -> tables_only c2 s s'.
Proof. intros H [A B C]. split; [|done|done]. intros t Ht. apply A. auto. Qed.

Lemma post_table_spec type s : vintf_there -> (forall e, e ∈ sorted_entries s type -> clientCmdlines e = []) ->
  exists s', post_table type s = Some (tt, s') /\ tables_only (eq type) s s' /\
    Forall2 (settled s') (sorted_entries s type) (mEntries (tableForType type s')).
Proof.
  intros Hv He. unfold post_table, get. unfold mbind, M_bind at 1. cbv beta zeta. fold (sorted_entries s type).
  destruct (answers_mmap post_cmdlines settled (sorted_entries s type) settled_later) with (s := s) as (es1 & s1 & E1 & L1 & H1).
  { intros e s0 Hin. by apply post_cmdlines_spec, He. }
  destruct (answers_mmap post_origin (fun _ => similar) es1) with (s := s1) as (es2 & s2 & E2 & L2 & H2); [done| |].
  { intros e s0 _. by apply post_origin_spec. }
  eexists. split; [unfold mbind, M_bind; by rewrite E1, E2|]. assert (L : later s s2) by (by etrans). split.
  - split; [|split|]; [intros t Hne; rewrite tableForType_set, decide_False by auto; by apply L|by apply L..].
  - rewrite tableForType_set, decide_True by done. cbn [mEntries].
    eapply Forall2_impl; [|intros x y H; eapply (settled_later s2); [reflexivity|exact H]].
    eapply (Forall2_impl (fun x y => exists z, settled s2 x z /\ similar z y)); [|by intros x y (z & Hs & Hz); eapply settled_similar].
    clear -H1 H2 L2. revert es2 H2. induction H1 as [|x z xs zs Hx _ IH]; intros ys H2; inversion H2; subst; constructor; [|by apply IH].
    exists z. split; [|done]. eapply settled_later; [by apply lt_cmdlines|done].
Qed.

Lemma post_tables_spec types s : vintf_there -> NoDup types ->
  (forall t e, t ∈ types -> e ∈ sorted_entries s t -> clientCmdlines e = []) ->
  exists s', mfold (fun type _ => post_table type) types tt s = Some (tt, s') /\ tables_only (fun t => t ∈ types) s s' /\
    forall t, t ∈ types -> Forall2 (settled s') (sorted_entries s t) (mEntries (tableForType t s')).
Proof.
  intros Hv. revert s. induction types as [|type types IH]; intros s Hn He; cbn [mfold].
  { exists s. split_and!; [done|done|]. by intros t H%not_elem_of_nil. }
  apply NoDup_cons in Hn as [Hnew Hn]. destruct (post_table_spec type s Hv) as (s1 & E1 & T1 & F1); [intros e; apply He; by left|].
  assert (Es : forall t, t ∈ types -> sorted_entries s1 t = sorted_entries s t).
  { intros t Ht. unfold sorted_entries. rewrite (proj2 (to_options _ _ _ T1)), (to_tables _ _ _ T1); [done|]. by intros ->. }
  destruct (IH s1 Hn) as (s2 & E2 & T2 & F2); [intros t e Ht; rewrite Es by done; apply He; by right|].
  exists s2. split_and!; [unfold mbind, M_bind; by rewrite E1| |].
  - eapply tables_only_mono; [|by eapply tables_only_trans]. intros t [<-|H]; [by left|by right].
  - intros t [->|Ht]%elem_of_cons; [|rewrite <- Es by done; by apply F2]. rewrite (to_tables _ _ _ T2) by done.
    eapply Forall2_impl; [exact F1|]. intros x y. apply settled_later, T2.
Qed.

(** ** After that *)

Lemma Forall2_similar_map (f : TableEntry -> TableEntry) l : (forall e, similar e (f e)) -> Forall2 similar l (map f l).
Proof. intros H. induction l; constructor; auto. Qed.

Lemma similar_set_arch a e : similar e (set_arch a e).
Proof. by split_and!. Qed.

Lemma inherit_arch_similar package clients : Forall2 similar clients (inherit_arch package clients).
Proof.
  unfold inherit_arch. destruct (FQName_parse _); [|reflexivity]. apply Forall2_similar_map. intros e.
  case_bool_decide; [reflexivity|]. destruct (FQName_parse _); [|reflexivity]. destruct (fqname_eqb _ _); [apply similar_set_arch|reflexivity].
Qed.

Lemma inherit_all_similar packages clients : Forall2 similar clients (fold_left (fun clients package => inherit_arch package clients) packages clients).
Proof.
  revert clients. induction packages as [|p packages IH]; intros clients; cbn [fold_left]; [reflexivity|].
  etrans; [apply inherit_arch_similar|apply IH].
Qed.

Definition same_entries (s s' : ListCommand) : Prop :=
  mCmdlines s' = mCmdlines s /\ forall t, Forall2 similar (mEntries (tableForType t s)) (mEntries (tableForType t s')).

(** Code that returns with similar entries. *)
Definition keeps_entries (m : M unit) (s : ListCommand) : Prop := exists s', m s = Some (tt, s') /\ same_entries s s'.

Lemma same_entries_trans s1 s2 s3 : same_entries s1 s2 -> same_entries s2 s3 -> same_entries s1 s3.
Proof. intros [C1 H1] [C2 H2]. split; [congruence|]. intros t. etrans; [apply H1|apply H2]. Qed.

Lemma keeps_entries_bind (m m' : M unit) s : keeps_entries m s -> (forall s1, keeps_entries m' s1) -> keeps_entries (_ ← m; m') s.
Proof.
  intros (s1 & E1 & H1) Hm. destruct (Hm s1) as (s2 & E2 & H2).
  exists s2. split; [unfold mbind, M_bind; by rewrite E1|by eapply same_entries_trans].
Qed.

Lemma describe_keeps type d s : keeps_entries (describe type d) s.
Proof.
  eexists. split; [reflexivity|]. split; [done|]. intros t. rewrite tableForType_set. case_decide as E; [subst|]; reflexivity.
Qed.

Lemma set_entries_keeps type es s : Forall2 similar (mEntries (tableForType type s)) es -> keeps_entries (set_entries type es) s.
Proof.
  intros H. eexists. split; [reflexivity|]. split; [done|]. intros t. rewrite tableForType_set. case_decide as E; [by subst|reflexivity].
Qed.

End Post.

(** * Options *)

Section Options.
Context {hals : Hals}.

(** What the options keep. *)
Definition options_ok (s : ListCommand) : Prop :=
  NoDup (mListTypes s) /\ mFetchTypes s = [] /\ (mVintf s = true -> mVintfPartition s <> UNKNOWN).

Definition only_status (st : Z) : Prop := st = OK \/ st = USAGE.

(** One option: it crashes only without the argument that it requires. *)
Definition option_keeps (o : RegisteredOption) : Prop := forall arg s, options_ok s ->
  match op o arg s with
  | None => hasArg o = required_argument /\ arg = None /\ shortOption o = None
  | Some (st, s') => only_status st /\ (st = OK -> options_ok s')
  end.

Lemma add_types_nodup args types : NoDup types -> NoDup (fst (add_types args types)).
Proof.
  revert types. induction args as [|arg args IH]; intros types H; [done|]. destruct arg as [|c arg]; cbn [add_types]; [by apply IH|].
  destruct (map_find (c :: arg) kHalTypeMap) as [t|]; [|done]. apply IH. case_decide as Ht; [done|].
  apply NoDup_app. split_and!; [done| |by apply NoDup_singleton]. intros x Hx ->%list_elem_of_singleton. done.
Qed.

Lemma op_types_keeps o : op o = op_types -> option_keeps o.
Proof.
  intros E arg s (Hn & Hf & Hv). rewrite E. destruct arg as [arg|]; cbn; [|by split; [right|]].
  pose proof (add_types_nodup (split arg ",") (mListTypes s) Hn) as Hn'. destruct (add_types _ _) as [types ok]. cbn [fst] in Hn'.
  destruct ok, types; cbn; split; try (by left); try (by right); done.
Qed.

Lemma op_partition_keeps o : op o = op_partition -> option_keeps o.
Proof.
  intros E arg s (Hn & Hf & Hv). rewrite E. destruct arg as [arg|]; cbn; [|by split; [right|]].
  destruct (parsePartition arg) eqn:Ep; (split; [try (by left); by right|]); done.
Qed.

Lemma op_sort_keeps o : op o = op_sort -> hasArg o = required_argument -> shortOption o = None -> option_keeps o.
Proof.
  intros E Ha Hs arg s H. rewrite E. destruct arg as [arg|]; [|done]. unfold op_sort.
  destruct (_ || _); [by split; [left|]|]. destruct (_ || _); [by split; [left|]|by split; [right|]].
Qed.

Lemma registered_keep o : o ∈ registerAllOptions -> option_keeps o.
Proof.
  unfold registerAllOptions. intros Ho. repeat (apply elem_of_cons in Ho as [->|Ho]); [..|by apply not_elem_of_nil in Ho].
  all: try (by apply op_types_keeps); try (by apply op_sort_keeps); try (by apply op_partition_keeps).
  all: intros arg s (Hn & Hf & Hv); cbn; (split; [first [by left|by right]|]); try done.
  intros _. split_and!; [done..|]. cbn. by destruct (mVintfPartition s).
Qed.

Lemma found_registered e o arg : found e registerAllOptions = Some (o, arg) -> o ∈ registerAllOptions /\
  match e with LongOption v a => v = val o /\ arg = a | ShortOption c a => shortOption o = Some c /\ arg = a | Unrecognized => False end.
Proof.
  assert (Hl : forall f, last (List.filter f registerAllOptions) = Some o -> o ∈ registerAllOptions /\ f o = true).
  { intros f H%last_Some_elem_of. apply list_elem_of_In, filter_In in H as [H Hf]. by apply list_elem_of_In in H. }
  destruct e as [v a|c a|]; cbn [found]; [..|done].
  - destruct (last _) as [o'|] eqn:E; [|done]. intros [= -> <-]. apply Hl in E as [H Hv]. by apply Nat.eqb_eq in Hv.
  - destruct (last _) as [o'|] eqn:E; [|done]. intros [= -> <-]. apply Hl in E as [H Hv]. by apply bool_decide_eq_true in Hv.
Qed.

(** An option that requires an argument comes with one. *)
Definition arguments_given (long : list (str * has_arg * nat)) (events : list opt_event) : Prop :=
  forall name v, (name, required_argument, v) ∈ long -> LongOption v None ∉ events.

Lemma run_options_spec events s : arguments_given (getLongOptions registerAllOptions) events -> options_ok s ->
  exists st s', run_options events s = Some (st, s') /\ only_status st /\ (st = OK -> options_ok s').
Proof.
  revert s. induction events as [|e events IH]; intros s Hg H; cbn [run_options]; [exists OK, s; by split_and!; [|left|]|].
  destruct (found e registerAllOptions) as [[o arg]|] eqn:Ef; [|exists USAGE, s; by split_and!; [|right|]].
  apply found_registered in Ef as [Ho He]. pose proof (registered_keep o Ho arg s H) as Hk.
  destruct (op o arg s) as [[st s1]|].
  - destruct (Z.eqb_spec st OK) as [->|Hne]; [|by exists st, s1]. apply IH; [|by apply Hk]. intros name v Hin Hev.
    by eapply Hg, list_elem_of_further.
  - destruct Hk as (Ha & -> & Hs). destruct e as [v a|c a|]; [|destruct He; congruence|done]. destruct He as [-> <-].
    destruct (Hg (longOption o) (val o)); [|by left]. rewrite <- Ha.
    by apply list_elem_of_In, (in_map (fun e => (longOption e, hasArg e, val e))), list_elem_of_In.
Qed.

(** The state that [list] goes on with. *)
Record accepted (s : ListCommand) : Prop := {
  ac_types : mListTypes s <> [] /\ NoDup (mListTypes s);
  ac_fetch : forall t, t ∈ mFetchTypes s <-> t ∈ mListTypes s \/ exists u, u ∈ mListTypes s /\ t ∈ kDependencies u;
  ac_columns : lc_selectedColumns s <> [] /\ forall t, t ∈ mListTypes s -> mSelectedColumns (tableForType t s) = lc_selectedColumns s;
  ac_cmdlines : mEnableCmdlines s = true -> SERVER_PID ∉ lc_selectedColumns s /\ CLIENT_PIDS ∉ lc_selectedColumns s;
  ac_neat : ~ (mNeat s = true /\ mEmitDebugInfo s = true);
  ac_vintf : mVintf s = true -> mVintfPartition s <> UNKNOWN;
}.

Lemma forEachTable_spec f types s :
  let s' := fold_left (fun s type => set_table type (f (tableForType type s)) s) types s in
  (NoDup types -> forall t, tableForType t s' = if decide (t ∈ types) then f (tableForType t s) else tableForType t s) /\
  mListTypes s' = mListTypes s /\ mFetchTypes s' = mFetchTypes s /\ lc_selectedColumns s' = lc_selectedColumns s /\
  mEnableCmdlines s' = mEnableCmdlines s /\ mNeat s' = mNeat s /\ mEmitDebugInfo s' = mEmitDebugInfo s /\ mVintf s' = mVintf s /\
  mVintfPartition s' = mVintfPartition s.
Proof.
  revert s. induction types as [|type types IH]; intros s; cbn [fold_left]; [by split_and!|].
  destruct (IH (set_table type (f (tableForType type s)) s)) as (Ht & H). split; [|exact H].
  intros [Hnew Hn]%NoDup_cons t. rewrite (Ht Hn), !tableForType_set. destruct (decide (t = type)) as [->|Hne].
  - rewrite decide_False, decide_True by (done || by left). done.
  - destruct (decide (t ∈ types)) as [Hd|Hd]; [rewrite decide_True by (by right); done|]. rewrite decide_False; [done|].
    by intros [->|Ht']%elem_of_cons.
Qed.

Lemma initFetchTypes_spec types t : t ∈ initFetchTypes types [] <-> t ∈ types \/ exists u, u ∈ types /\ t ∈ kDependencies u.
Proof.
  unfold initFetchTypes. rewrite !list_elem_of_union, elem_of_nil, list_elem_of_In with (l := concat _), in_concat.
  setoid_rewrite in_map_iff. setoid_rewrite <- list_elem_of_In. split.
  - intros [[[]|H]|(x & (u & <- & Hu) & H)]; [by left|right; by exists u].
  - intros [H|(u & Hu & H)]; [left; by right|right]. exists (kDependencies u). split; [by exists u|done].
Qed.

Lemma cmdline_columns c columns : c = SERVER_PID \/ c = CLIENT_PIDS -> c ∉ map cmdline_column columns.
Proof. intros Hc (x & E & _)%list_elem_of_In%in_map_iff. destruct Hc as [-> | ->], x; done. Qed.

End Options.

(** * Properties *)

(** C40: processes are shown by their command lines: when the VINTF objects are there,
    [postprocess] returns, and every entry of a table that is listed has the
    command line of its server and of its clients, in the order of their
    process ids, without [lshal] itself and without clients that have no
    command line any more; the same process has the same command line in all
    tables. Names, transports, servers and states stay, and the order is that
    of the sort that is asked for. *)
Theorem command_lines_resolved {hals : Hals} (s : ListCommand) : vintf_there -> NoDup (mListTypes s) ->
  (forall before l, std_sort before l ≡ₚ l) ->
  (forall t e, t ∈ mListTypes s -> e ∈ mEntries (tableForType t s) -> clientCmdlines e = []) ->
  exists s', postprocess s = Some (tt, s') /\
    forall t, t ∈ mListTypes s -> Forall2 (resolved s') (sorted_entries s t) (mEntries (tableForType t s')).
Proof.
  intros Hv Hn Hsort He. unfold postprocess, get. unfold mbind at 1, M_bind at 1.
  destruct (post_tables_spec (mListTypes s) s Hv Hn) as (s1 & E1 & T1 & F1).
  { intros t e Ht Hin. apply (He t); [done|]. revert Hin. unfold sorted_entries. destruct (mSortColumn s); [by rewrite Hsort|done]. }
  unfold mbind at 1, M_bind at 1. rewrite E1. unfold mbind at 1, M_bind at 1. cbv beta iota.
  edestruct keeps_entries_bind as (s3 & E3 & Ec & Hs); [|intros s2; do 4 (apply keeps_entries_bind; [apply describe_keeps|intros ?]); apply describe_keeps|exists s3; split; [exact E3|]].
  { apply set_entries_keeps, inherit_all_similar. }
  intros t Ht. specialize (F1 t Ht). specialize (Hs t).
  assert (F : Forall2 (settled s1) (sorted_entries s t) (mEntries (tableForType t s3))).
  { clear -F1 Hs. revert Hs. generalize (mEntries (tableForType t s3)). induction F1 as [|x y xs ys Hx _ IH]; intros zs Hs; inversion Hs; subst;
      constructor; [by eapply settled_similar|by apply IH]. }
  eapply Forall2_impl; [exact F|]. intros x y H. eapply settled_later in H as [H _]; [exact H|]. by rewrite Ec.
Qed.

(** C11: the options of [lshal list] are checked: whatever options [getopt_long] finds among
    the words, as long as one that requires an argument has it, parsing them
    returns [OK] or [USAGE], and after [OK] the state is well formed: there are
    types to list, each once; exactly these and what they depend on are
    fetched; there are columns, the same in all tables listed, and none of them
    shows process ids when command lines are asked for; [--neat] and
    [--debug] are not both on; a manifest is for a partition that is known. *)
Theorem list_options_accepted {hals : Hals} getopt_long (args : list str) :
  (forall short long words, arguments_given long (fst (getopt_long short long words))) ->
  exists status s', list_parseArgs getopt_long args new_list_command = Some (status, s') /\
    (status = OK \/ status = USAGE) /\ (status = OK -> accepted s').
Proof.
  intros Hg. unfold list_parseArgs. specialize (Hg (getShortOptions registerAllOptions) (getLongOptions registerAllOptions) args).
  destruct (getopt_long _ _ _) as [events rest]. cbn [fst] in Hg. set (s0 := with_listing _ _ _ _ _ _ _).
  destruct (run_options_spec events s0 Hg) as (st & s & E & Hst & Hok); [by split; [constructor|]|]. rewrite E. clearbody s0.
  destruct (Z.eqb_spec st OK) as [->|Hne]; cbn [negb]; [|by exists st, s]. destruct (Hok eq_refl) as (Hn & Hf & Hv).
  destruct rest as [|w rest]; [|exists USAGE, s; by split_and!; [|right|]].
  destruct (mNeat s && mEmitDebugInfo s) eqn:Hneat; [exists USAGE, s; by split_and!; [|right|]|].
  set (columns := if mEnableCmdlines s then _ else _). set (types := match mListTypes s with [] => default_types | t => t end).
  rewrite Hf. set (s1 := with_listing _ _ _ _ _ _ s). eexists OK, _. split; [reflexivity|]. split; [by left|]. intros _.
  assert (Ht : types <> [] /\ NoDup types).
  { unfold types. destruct (mListTypes s); [|done]. split; [done|]. apply (bool_decide_eq_true_1 _). by vm_compute. }
  unfold forEachTable. change (mListTypes s1) with types.
  destruct (forEachTable_spec (setSelectedColumns columns) types s1) as (Htab & E1 & E2 & E3 & E4 & E5 & E6 & E7 & E8).
  specialize (Htab (proj2 Ht)). split.
  - by rewrite E1.
  - intros t. rewrite E1, E2. apply initFetchTypes_spec.
  - rewrite E1, E3. cbn [mListTypes lc_selectedColumns s1 with_listing]. split.
    + unfold columns. by destruct (lc_selectedColumns s), (mEnableCmdlines s).
    + intros t H. by rewrite Htab, decide_True by done.
  - rewrite E3, E4. cbn [mEnableCmdlines lc_selectedColumns s1 with_listing]. intros He. unfold columns. rewrite He.
    split; apply cmdline_columns; tauto.
  - rewrite E5, E6. cbn [mNeat mEmitDebugInfo s1 with_listing]. intros [H1 H2]. by rewrite H1, H2 in Hneat.
  - by rewrite E7, E8.
Qed.

(** ** A run *)

Lemma demo_insert_perm before e l : demo_insert before e l ≡ₚ e :: l.
Proof. induction l as [|x l IH]; cbn; [done|]. destruct (before e x); [done|]. rewrite IH. apply perm_swap. Qed.

Lemma demo_sort_perm (before : TableEntry -> TableEntry -> bool) l : std_sort (Hals := demo_hals) before l ≡ₚ l.
Proof. cbn. induction l as [|e l IH]; cbn; [done|]. by rewrite demo_insert_perm, IH. Qed.

Definition fetched : ListCommand := match fetch (demo_command all_types) with Some (_, s) => s | None => demo_command [] end.

Lemma fetched_types : mListTypes fetched = all_types.
Proof. by vm_compute. Qed.

Lemma fetched_unsorted : mSortColumn fetched = None.
Proof. by vm_compute. Qed.

Lemma fetched_new : forallb (fun t => forallb (fun e => bool_decide (clientCmdlines e = [])) (mEntries (tableForType t fetched))) all_types = true.
Proof. by vm_compute. Qed.

Definition shown (s : ListCommand) : list (str * list Z * list str) :=
  map (fun e => (serverCmdline e, clientPids e, clientCmdlines e)) (mEntries (mServicesTable s)).

Lemma fetched_shown : (fun r => shown (snd r)) <$> postprocess fetched =
  Some [(lit "/vendor/bin/lights", [31], [lit "system_server"]); ([], [], [])].
Proof. by vm_compute. Qed.

(** Of the clients 31, 4 and 5 the second is [lshal] and the last has ended. *)
Lemma command_lines_resolved_witness :
  exists s', postprocess fetched = Some (tt, s') /\
    shown s' = [(lit "/vendor/bin/lights", [31], [lit "system_server"]); ([], [], [])] /\
    Forall2 (resolved s') (mEntries (tableForType BINDERIZED_SERVICES fetched)) (mEntries (tableForType BINDERIZED_SERVICES s')).
Proof.
  destruct (command_lines_resolved fetched) as (s' & E & H).
  - by repeat split.
  - rewrite fetched_types. apply (bool_decide_eq_true_1 _). by vm_compute.
  - apply demo_sort_perm.
  - intros t e Ht He. pose proof fetched_new as Hall. rewrite forallb_forall in Hall. specialize (Hall t ltac:(apply list_elem_of_In; by destruct t; repeat constructor)).
    rewrite forallb_forall in Hall. specialize (Hall e ltac:(by apply list_elem_of_In)). by apply bool_decide_eq_true in Hall.
  - exists s'. split_and!; [done|pose proof fetched_shown as Hs; rewrite E in Hs; by injection Hs|].
    specialize (H BINDERIZED_SERVICES ltac:(rewrite fetched_types; by left)).
    rewrite (unsorted_entries _ _ fetched_unsorted) in H. exact H.
Defined.

(** Long options with the words that follow as arguments. *)
Fixpoint demo_getopt_loop (long : list (str * has_arg * nat)) (words : list str) : list opt_event * list str :=
  match words with
  | [] => ([], [])
  | w :: rest =>
      let '(events, words') := demo_getopt_loop long rest in
      match List.find (fun o => (lit "--" ++ fst (fst o)) =s? fst (splitFirst w "=")) long with
      | None => (events, w :: words')
      | Some (_, required_argument, v) => (LongOption v (Some (snd (splitFirst w "="))) :: events, words')
      | Some (_, _, v) => (LongOption v None :: events, words')
      end
  end.

(** No two options have the same number. *)
Definition numbered (long : list (str * has_arg * nat)) : bool := bool_decide (NoDup (map snd long)).

Definition demo_getopt (short : str) (long : list (str * has_arg * nat)) (words : list str) : list opt_event * list str :=
  if numbered long then demo_getopt_loop long words else ([], words).

Lemma demo_getopt_given short long words : arguments_given long (fst (demo_getopt short long words)).
Proof.
  unfold demo_getopt, numbered. case_bool_decide as Hn; [|by intros name v _ H%not_elem_of_nil]. intros name v Hv.
  induction words as [|w words IH]; cbn [demo_getopt_loop]; [by apply not_elem_of_nil|].
  destruct (demo_getopt_loop long words) as [events words']. cbn [fst] in *.
  destruct (List.find _ long) as [[[n h] v']|] eqn:E; [|done]. apply find_some in E as [E _]. apply list_elem_of_In in E.
  destruct h; cbn [fst]; intros [H|H]%elem_of_cons; try done; injection H as ->.
  all: apply list_elem_of_lookup in Hv as [i Hi], E as [j Hj].
  all: assert (i = j) as -> by (apply (NoDup_lookup (map snd long) i j v' Hn); [by rewrite list_lookup_fmap, Hi|by rewrite list_lookup_fmap, Hj]).
  all: by rewrite Hi in Hj.
Qed.

Lemma list_options_accepted_witness :
  exists s', list_parseArgs demo_getopt [lit "--cmdline"; lit "--types=lazy,b"; lit "--interface"; lit "--pid"] new_list_command = Some (OK, s') /\
    accepted s' /\ mListTypes s' = [LAZY_HALS; BINDERIZED_SERVICES] /\ lc_selectedColumns s' = [INTERFACE_NAME; SERVER_CMD].
Proof.
  destruct (list_options_accepted demo_getopt [lit "--cmdline"; lit "--types=lazy,b"; lit "--interface"; lit "--pid"] demo_getopt_given)
    as (st & s' & E & _ & H). pose proof E as E'. revert E'. vm_compute in E |- *. injection E as <- <-. intros _.
  eexists. split; [reflexivity|]. split; [by apply H|done].
Defined.
