(* ===== verification/DumpProgress.v ===== *)
(** The progress of a bugreport: the class [Progress] of [dumpstate/utils.cpp],
    with the single precision arithmetic of its averages and of its growing
    maximum, and the statistics that it keeps in a file between runs. *)

From Stdlib Require Import SpecFloat.
From S2P Require Import Prelude CLib.

Open Scope Z_scope.

(** * Single precision

    [float] is binary32: 24 bits of mantissa. A signed conversion that does not
    fit is undefined; it is not reached below [2 ^ 30] ([grow_bounds]). *)

Definition f32_of (z : Z) : spec_float := binary_normalize 24 128 z 0 false.

(** [floor] of a float, as an integer; infinities have none. *)
Definition floor_f32 (f : spec_float) : Z :=
  match f with
  | S754_finite s m e =>
      let m := if s then Zneg m else Zpos m in
      if e <? 0 then m / 2 ^ (- e) else m * 2 ^ e
  | _ => 0
  end.

(** The literal [1.1] as a [float]. *)
Definition growth_factor : spec_float := S754_finite false 9227469 (-23).

(** * Progress *)

Record Progress := {
  initial_max_ : Z;
  progress_ : Z;
  max_ : Z;
  growth_factor_ : spec_float;
  n_runs_ : Z;
  average_max_ : Z;
  pr_path_ : str;
}.

Definition kDefaultMax : Z := 5000.
Definition STATS_MAX_N_RUNS : Z := 1000.
Definition STATS_MAX_AVERAGE : Z := 100000.

(** [None] is a file that cannot be read. *)
Definition Load (file : option str) (p : Progress) : Progress :=
  match file with
  | None | Some [] => p
  | Some content =>
      let line := hd [] (split_on (ascii_of_nat 10) content) in
      let '(runs, ptr) := strtoll line 10 in
      let n_runs := i32 runs in
      let average := i32 (fst (strtoll (default line ptr) 10)) in
      let initial :=
        if (n_runs <=? 0) || (average <=? 0) || (n_runs >? STATS_MAX_N_RUNS) || (average >? STATS_MAX_AVERAGE)
        then kDefaultMax else average in
      {| initial_max_ := initial; progress_ := progress_ p; max_ := initial; growth_factor_ := growth_factor_ p;
         n_runs_ := n_runs; average_max_ := average; pr_path_ := pr_path_ p |}
  end.

Definition new_progress_with (initial_max : Z) (growth : spec_float) (path : str) (file : option str) : Progress :=
  let p := {| initial_max_ := initial_max; progress_ := 0; max_ := initial_max; growth_factor_ := growth;
              n_runs_ := 0; average_max_ := 0; pr_path_ := path |} in
  match path with [] => p | _ => Load file p end.

Definition new_progress (path : str) (file : option str) : Progress := new_progress_with kDefaultMax growth_factor path file.

Definition stats_line (runs average : Z) : str := fmt_d runs ++ lit " " ++ fmt_d average ++ [ascii_of_nat 10].

(** The number of runs and the average with this run; [int32_t] wraps. *)
Definition saved_runs (p : Progress) : Z := i32 (n_runs_ p + 1).
Definition saved_average (p : Progress) : Z :=
  let total := i32 (i32 (n_runs_ p * average_max_ p) + progress_ p) in
  floor_f32 (SFdiv 24 128 (f32_of total) (f32_of (saved_runs p))).

(** What is written, when there is a file. *)
Definition Save (p : Progress) : option str :=
  match pr_path_ p with [] => None | _ => Some (stats_line (saved_runs p) (saved_average p)) end.

Definition grow (growth : spec_float) (progress : Z) : Z := floor_f32 (SFmul 24 128 (f32_of progress) growth).

(** The progress after a step, and whether the maximum has changed. *)
Definition Inc (delta_sec : Z) (p : Progress) : Progress * bool :=
  if 0 <=? delta_sec then
    let progress := i32 (progress_ p + delta_sec) in
    let exceeds := progress >? max_ p in
    ({| initial_max_ := initial_max_ p; progress_ := progress; max_ := if exceeds then grow (growth_factor_ p) progress else max_ p;
        growth_factor_ := growth_factor_ p; n_runs_ := n_runs_ p; average_max_ := average_max_ p; pr_path_ := pr_path_ p |}, exceeds)
  else (p, false).

(** The examples of the tests: a growth of 20 percent. *)
Example grows_inside : grow (S754_finite false 10066330 (-23)) 11 = 13. Proof. reflexivity. Qed.
Example grows_outside : grow (S754_finite false 10066330 (-23)) 15 = 18. Proof. reflexivity. Qed.
Example averages : floor_f32 (SFdiv 24 128 (f32_of 59) (f32_of 4)) = 14. Proof. reflexivity. Qed.

(** * Rounding *)

Lemma digits2_log2 p : Zpos (digits2_pos p) = Z.log2 (Zpos p) + 1.
Proof.
  induction p as [p IH|p IH|]; cbn [digits2_pos]; [..|done]; rewrite Pos2Z.inj_succ, IH.
  - rewrite Pos2Z.inj_xI, Z.log2_succ_double by lia. lia.
  - rewrite Pos2Z.inj_xO, Z.log2_double by lia. lia.
Qed.

Lemma shr_1_m r : 0 <= shr_m r -> shr_m (shr_1 r) = shr_m r / 2.
Proof.
  destruct r as [m rb sb]. cbn [shr_m]. intros H. unfold shr_1. destruct m as [|[p|p|]|]; cbn [shr_m]; try done.
  - rewrite Pos2Z.inj_xI. apply (Z.div_unique _ _ _ 1); lia.
  - rewrite Pos2Z.inj_xO. apply (Z.div_unique _ _ _ 0); lia.
Qed.

Lemma iter_shr_m n r : 0 <= shr_m r -> shr_m (SpecFloat.iter_pos shr_1 n r) = shr_m r / 2 ^ Zpos n.
Proof.
  revert r. induction n as [n IH|n IH|]; intros r H; cbn [SpecFloat.iter_pos].
  - assert (H1 : shr_m (shr_1 r) = shr_m r / 2) by (by apply shr_1_m).
    assert (P1 : 0 <= shr_m (shr_1 r)) by (rewrite H1; apply Z.div_pos; lia).
    rewrite !IH, H1 by (try rewrite IH by done; try apply Z.div_pos; lia).
    rewrite !Z.div_div by lia. f_equal. rewrite (Pos2Z.inj_xI n), Z.pow_add_r, Z.pow_twice_r by lia. lia.
  - rewrite !IH by (try rewrite IH by done; try apply Z.div_pos; lia). rewrite Z.div_div by lia. f_equal.
    by rewrite (Pos2Z.inj_xO n), Z.pow_twice_r.
  - by apply shr_1_m.
Qed.

Lemma round_bounds m l : m <= round_nearest_even m l <= m + 1.
Proof. unfold round_nearest_even. destruct l as [|[]]; [|destruct (Z.even m)|..]; lia. Qed.

Lemma iter_xO m k : Zpos (Pos.iter xO m k) = Zpos m * 2 ^ Zpos k.
Proof.
  induction k as [|k IH] using Pos.peano_ind; [cbn; lia|]. rewrite Pos.iter_succ, Pos2Z.inj_xO, IH, Pos2Z.inj_succ, Z.pow_succ_r by lia. lia.
Qed.

Lemma fexp32 e : -125 <= e -> fexp 24 128 e = e - 24.
Proof. intros H. unfold fexp, emin. lia. Qed.

Lemma shr_fexp_m m e : 0 < m -> -125 <= Z.log2 m + 1 + e ->
  let n := Z.max 0 (Z.log2 m + 1 - 24) in
  shr_m (fst (shr_fexp 24 128 m e loc_Exact)) = m / 2 ^ n /\ snd (shr_fexp 24 128 m e loc_Exact) = e + n.
Proof.
  intros Hm He. unfold shr_fexp, shr. destruct m as [|p|p]; try lia. cbn [Zdigits2]. rewrite digits2_log2, fexp32 by lia.
  replace (Z.log2 (Z.pos p) + 1 + e - 24 - e) with (Z.log2 (Z.pos p) + 1 - 24) by lia.
  destruct (Z.log2 (Z.pos p) + 1 - 24) as [|q|q] eqn:E; cbn [fst snd].
  - rewrite Z.max_id. cbn. by rewrite Z.div_1_r, Z.add_0_r.
  - rewrite iter_shr_m by (cbn; lia). rewrite Z.max_r by lia. done.
  - rewrite Z.max_l by lia. cbn. by rewrite Z.div_1_r, Z.add_0_r.
Qed.

Lemma shr_fexp_exact m e : 0 < m -> -125 <= Z.log2 m + 1 + e -> Z.log2 m + 1 <= 24 ->
  shr_fexp 24 128 m e loc_Exact = ({| shr_m := m; shr_r := false; shr_s := false |}, e).
Proof.
  intros Hm He Hd. unfold shr_fexp, shr. destruct m as [|p|p]; try lia. cbn [Zdigits2]. rewrite digits2_log2, fexp32 by lia.
  destruct (Z.log2 (Z.pos p) + 1 + e - 24 - e) as [|q|q] eqn:E; [done|lia|done].
Qed.

(** Rounding changes the mantissa by less than one unit in its last place. *)
Lemma round_aux_bounds m e (n := Z.max 0 (Z.log2 m + 1 - 24)) : 0 < m -> -125 <= Z.log2 m + 1 + e -> e + n <= 103 ->
  exists m1 m2 e2, binary_round_aux 24 128 false m e loc_Exact = S754_finite false m2 e2 /\
    m / 2 ^ n <= m1 <= m / 2 ^ n + 1 /\ (Z.log2 m + 1 <= 24 -> m1 = m /\ e2 = e) /\
    e + n <= e2 <= e + n + 1 /\ Zpos m2 * 2 ^ (e2 - (e + n)) = m1.
Proof.
  intros Hm He Hn. destruct (Z.log2_spec m Hm) as [Hlo Hhi].
  unfold binary_round_aux. pose proof (shr_fexp_m m e Hm He) as [Em Ee]. fold n in Em, Ee.
  pose proof (shr_fexp_exact m e Hm He) as Hexact. destruct (shr_fexp 24 128 m e loc_Exact) as [r e1]. cbn [fst snd] in Em, Ee. subst e1.
  set (m1 := round_nearest_even (shr_m r) (loc_of_shr_record r)).
  assert (Hm1 : m / 2 ^ n <= m1 <= m / 2 ^ n + 1) by (rewrite <- Em; apply round_bounds).
  assert (Hq : 0 < m / 2 ^ n < 2 ^ 24).
  { split; [apply Z.div_str_pos; split; [lia|]|apply Z.div_lt_upper_bound; [lia|]].
    - etrans; [|exact Hlo]. apply Z.pow_le_mono_r; unfold n; pose proof (Z.log2_nonneg m); lia.
    - rewrite <- Z.pow_add_r by (unfold n; lia). eapply Z.lt_le_trans; [exact Hhi|]. apply Z.pow_le_mono_r; unfold n; lia. }
  assert (Hlog : 0 <= Z.log2 m1 <= 24).
  { split; [apply Z.log2_nonneg|]. change 24 with (Z.log2 (2 ^ 24)). apply Z.log2_le_mono. lia. }
  assert (Hp1 : 0 < m1) by lia. destruct (Z.log2_spec m1 Hp1) as [Hlo1 Hhi1].
  assert (Hn1 : -125 <= Z.log2 m1 + 1 + (e + n)).
  { assert (Z.log2 m - n <= Z.log2 m1); [|lia]. apply Z.log2_le_pow2; [done|]. etrans; [|apply Hm1].
    apply Z.div_le_lower_bound; [lia|]. rewrite <- Z.pow_add_r by (unfold n; pose proof (Z.log2_nonneg m); lia).
    by replace (n + (Z.log2 m - n)) with (Z.log2 m) by lia. }
  pose proof (shr_fexp_m m1 (e + n) Hp1 Hn1) as [Em2 Ee2]. destruct (shr_fexp 24 128 m1 (e + n) loc_Exact) as [r2 e2].
  cbn [fst snd] in Em2, Ee2. set (n2 := Z.max 0 (Z.log2 m1 + 1 - 24)) in *. subst e2.
  assert (Hval : m1 / 2 ^ n2 * 2 ^ n2 = m1 /\ 0 < m1 / 2 ^ n2).
  { destruct (Z.eq_dec (Z.log2 m1) 24) as [E|E].
    - assert (m1 = 2 ^ 24) as -> by (rewrite E in Hlo1; lia). by vm_compute.
    - replace n2 with 0 by (unfold n2; lia). rewrite Z.div_1_r. lia. }
  rewrite Em2. destruct (m1 / 2 ^ n2) as [|m2|m2] eqn:Eq; [lia| |lia].
  assert (Hle : (e + n + n2 <=? 128 - 24) = true) by (apply Z.leb_le; unfold n2; lia). rewrite Hle.
  exists m1, m2, (e + n + n2). split_and!; [done|lia|lia| |unfold n2; lia|unfold n2; lia|].
  - intros Hd. assert (E : m1 = m) by (unfold m1; by injection (Hexact Hd) as -> _). split; [done|]. unfold n2, n. rewrite E. lia.
  - replace (e + n + n2 - (e + n)) with n2 by lia. apply Hval.
Qed.

(** An integer of at most 24 bits is exact. *)
Lemma f32_exact p : 0 < p < 2 ^ 24 ->
  exists m e, f32_of p = S754_finite false m e /\ -23 <= e <= 0 /\ Zpos m = p * 2 ^ (- e) /\ Z.log2 (Zpos m) = 23.
Proof.
  intros Hp. assert (Hd : 0 <= Z.log2 p < 24) by (split; [apply Z.log2_nonneg|apply Z.log2_lt_pow2; lia]).
  unfold f32_of. destruct p as [|p|p]; try lia. unfold binary_normalize, binary_round.
  rewrite digits2_log2, Z.add_0_r, fexp32 by lia. unfold shl_align. rewrite Z.sub_0_r.
  set (k := Z.log2 (Z.pos p) + 1 - 24) in *.
  assert (Ha : exists m, (match k with Zneg d => (Pos.iter xO p d, k) | _ => (p, 0) end) = (m, k) /\ Zpos m = Zpos p * 2 ^ (- k)).
  { destruct k as [|k'|d] eqn:E; [exists p; split; [done|cbn; lia]|lia|]. eexists. split; [done|]. by rewrite iter_xO. }
  destruct Ha as (m & -> & Em). assert (Hlog : Z.log2 (Zpos m) = 23).
  { rewrite Em, Z.log2_mul_pow2 by lia. lia. }
  destruct (round_aux_bounds (Zpos m) k) as (m1 & m2 & e2 & -> & _ & He & Hr & Hv); [lia|lia|lia|].
  destruct (He ltac:(lia)) as [-> ->]. replace (Z.max 0 (Z.log2 (Z.pos m) + 1 - 24)) with 0 in Hv by lia.
  rewrite Z.add_0_r, Z.sub_diag, Z.mul_1_r in Hv. injection Hv as ->. exists m, k. split_and!; [done|lia|lia|done|done].
Qed.

(** The maximum that follows the progress is at least that, and at most twice
    as much: it can be converted. *)
Lemma grow_bounds p : 0 < p < 2 ^ 24 -> p <= grow growth_factor p <= 2 * p.
Proof.
  intros Hp. destruct (f32_exact p Hp) as (m & e & E & He & Em & Hm). unfold grow, growth_factor. rewrite E. cbn [SFmul xorb].
  rewrite Pos2Z.inj_mul. set (q := Z.pos m * 9227469). assert (Hm2 : 2 ^ 23 <= Zpos m < 2 ^ 24).
  { destruct (Z.log2_spec (Zpos m)) as [H1 H2]; [lia|]. rewrite Hm in *. lia. }
  assert (Hq : 46 <= Z.log2 q <= 47).
  { split; [apply Z.log2_le_pow2; unfold q; lia|]. assert (Z.log2 q < 48); [apply Z.log2_lt_pow2; unfold q; lia|lia]. }
  destruct (round_aux_bounds q (e + -23)) as (m1 & m2 & e2 & -> & Hm1 & _ & He2 & Hv); [unfold q; lia|lia|lia|].
  set (n := Z.max 0 (Z.log2 q + 1 - 24)) in *. assert (Hn : 23 <= n <= 24) by (unfold n; lia).
  assert (Hdiv : 2 ^ n * (q / 2 ^ n) <= q < 2 ^ n * (q / 2 ^ n) + 2 ^ n).
  { pose proof (Z.div_mod q (2 ^ n) ltac:(lia)). pose proof (Z.mod_pos_bound q (2 ^ n) ltac:(lia)). lia. }
  assert (H2n : 2 ^ n <= 2 ^ 24) by (apply Z.pow_le_mono_r; lia).
  assert (Hle1 : q / 2 ^ n * 2 ^ n <= m1 * 2 ^ n) by (apply Z.mul_le_mono_nonneg_r; lia).
  assert (Hle2 : m1 * 2 ^ n <= (q / 2 ^ n + 1) * 2 ^ n) by (apply Z.mul_le_mono_nonneg_r; lia).
  assert (Hlow : Zpos m * 2 ^ 23 <= m1 * 2 ^ n) by (unfold q in *; lia).
  assert (Hupp : m1 * 2 ^ n <= Zpos m * 2 ^ 24) by (unfold q in *; lia).
  set (k := e2 - (e + -23 + n)) in *. assert (Hk : 0 < 2 ^ k) by (apply Z.pow_pos_nonneg; unfold k; lia).
  assert (Ek : p * 2 ^ (n - e2) * 2 ^ k = Zpos m * 2 ^ 23).
  { rewrite Em, <- !Z.mul_assoc, <- !Z.pow_add_r by (unfold k; lia). do 2 f_equal. unfold k. lia. }
  assert (A : p * 2 ^ (n - e2) <= Z.pos m2 * 2 ^ n <= 2 * p * 2 ^ (n - e2)).
  { replace (Z.pos m * 2 ^ 24) with (2 * (Z.pos m * 2 ^ 23)) in Hupp by lia. rewrite <- Ek, <- Hv in *.
    split; apply (Z.mul_le_mono_pos_r _ _ (2 ^ k)); lia. }
  cbn [floor_f32]. destruct (Z.ltb_spec e2 0).
  - replace (n - e2) with (- e2 + n) in A by lia. rewrite Z.pow_add_r, !Z.mul_assoc in A by lia.
    split; [apply Z.div_le_lower_bound; [lia|]|apply Z.div_le_upper_bound; [lia|]]; apply (Z.mul_le_mono_pos_r _ _ (2 ^ n)); lia.
  - assert (E2 : 2 ^ n = 2 ^ (n - e2) * 2 ^ e2) by (rewrite <- Z.pow_add_r by lia; f_equal; lia). rewrite E2 in A.
    assert (0 < 2 ^ (n - e2)) by (apply Z.pow_pos_nonneg; lia).
    split; apply (Z.mul_le_mono_pos_r _ _ (2 ^ (n - e2))); lia.
Qed.

(** * Statistics *)

(** Whether [Load] believes a line. *)
Definition trusted (runs average : Z) : bool :=
  (0 <? runs) && (runs <=? STATS_MAX_N_RUNS) && (0 <? average) && (average <=? STATS_MAX_AVERAGE).

Lemma stats_line_read runs average : 0 <= runs < 2 ^ 31 -> 0 <= average < 2 ^ 31 ->
  hd [] (split_on (ascii_of_nat 10) (stats_line runs average)) = fmt_d runs ++ lit " " ++ fmt_d average /\
  strtoll (fmt_d runs ++ lit " " ++ fmt_d average) 10 = (runs, Some (lit " " ++ fmt_d average)) /\
  strtoll (lit " " ++ fmt_d average) 10 = (average, Some []).
Proof.
  intros Hr Ha. split_and!.
  - unfold stats_line. rewrite !app_assoc, split_on_app, split_on_single; [done|].
    rewrite !elem_of_app. intros [[H|H]|H]; [by revert H; apply numeral_not, fmt_d_numeral|by apply (list_elem_of_singleton _ " "%char) in H|].
    by revert H; apply numeral_not, fmt_d_numeral.
  - apply strtoll_fmt_d; [lia|]. by intros c s d [= <- _].
  - change (strtoll (lit " " ++ fmt_d average) 10) with (strtoll (fmt_d average) 10).
    rewrite <- (app_nil_r (fmt_d average)) at 1. apply strtoll_fmt_d; [lia|done].
Qed.

Lemma load_line runs average path : 0 <= runs < 2 ^ 31 -> 0 <= average < 2 ^ 31 -> path <> [] ->
  let q := new_progress path (Some (stats_line runs average)) in
  n_runs_ q = runs /\ average_max_ q = average /\ progress_ q = 0 /\ initial_max_ q = max_ q /\
  max_ q = if trusted runs average then average else kDefaultMax.
Proof.
  intros Hr Ha Hp. destruct (stats_line_read runs average Hr Ha) as (E1 & E2 & E3).
  unfold new_progress, new_progress_with. destruct path as [|c path]; [done|]. unfold Load.
  destruct (stats_line runs average) as [|x l] eqn:E; [by unfold stats_line in E; destruct (fmt_d runs)|]. rewrite E1, E2. unfold default, id. cbn [from_option].
  rewrite E3. cbn. rewrite !i32_small by lia. split_and!; try done. unfold trusted.
  repeat match goal with |- context [?a <=? ?b] => destruct (Z.leb_spec a b) | |- context [?a <? ?b] => destruct (Z.ltb_spec a b)
    | |- context [?a >? ?b] => rewrite (Z.gtb_ltb a b) end; cbn; try done; lia.
Qed.

(** ** The invariant of the progress *)

Definition progress_ok (p : Progress) : Prop := 0 <= progress_ p <= max_ p /\ 0 < max_ p /\ growth_factor_ p = growth_factor.

Lemma new_progress_ok path file : progress_ok (new_progress path file) /\ progress_ (new_progress path file) = 0.
Proof.
  unfold new_progress, new_progress_with, progress_ok. destruct path as [|c path]; [done|]. unfold Load.
  destruct file as [[|x l]|]; try done. destruct (strtoll _ 10) as [runs ptr]. cbn.
  destruct (_ || _) eqn:E; [done|]. bool_props. rewrite ?Z.gtb_ltb in *. split_and!; try done; lia.
Qed.

(** The progress is below its maximum while it fits the mantissa. *)
Lemma Inc_ok delta p : progress_ok p -> progress_ p + delta < 2 ^ 24 -> 
  progress_ok (fst (Inc delta p)) /\ max_ p <= max_ (fst (Inc delta p)) /\
  progress_ (fst (Inc delta p)) = progress_ p + Z.max 0 delta /\
  max_ (fst (Inc delta p)) <= Z.max (max_ p) (2 * progress_ (fst (Inc delta p))).
Proof.
  intros (Hp & Hm & Hg) Hb. unfold Inc, progress_ok.
  destruct (Z.leb_spec 0 delta); cbn [fst progress_ max_ growth_factor_]; [|split_and!; try done; lia].
  rewrite i32_small, Hg, Z.gtb_ltb by lia. destruct (Z.ltb_spec (max_ p) (progress_ p + delta)); [|split_and!; try done; lia].
  pose proof (grow_bounds (progress_ p + delta)). split_and!; try done; lia.
Qed.

(** C17: the statistics that a run saves are what the next run reads: the number
    of runs, one more than before, and the average, which becomes the maximum
    of the progress when both are in range; otherwise, and so after a thousand
    runs for ever, the maximum is the default. *)
Theorem saved_stats_loaded p content :
  0 <= n_runs_ p < 2 ^ 31 - 1 -> 0 <= saved_average p < 2 ^ 31 -> Save p = Some content ->
  let q := new_progress (pr_path_ p) (Some content) in
  n_runs_ q = n_runs_ p + 1 /\ average_max_ q = saved_average p /\ initial_max_ q = max_ q /\ progress_ok q /\
  max_ q = (if trusted (n_runs_ p + 1) (saved_average p) then saved_average p else kDefaultMax) /\
  (STATS_MAX_N_RUNS <= n_runs_ p -> max_ q = kDefaultMax).
Proof.
  intros Hr Ha Hsave q. assert (Er : saved_runs p = n_runs_ p + 1) by (apply i32_small; lia).
  unfold Save in Hsave. assert (Hp : pr_path_ p <> []) by (by intros E; rewrite E in Hsave).
  assert (content = stats_line (n_runs_ p + 1) (saved_average p)) as -> by (rewrite <- Er; destruct (pr_path_ p); [done|]; by injection Hsave).
  destruct (load_line (n_runs_ p + 1) (saved_average p) (pr_path_ p)) as (H1 & H2 & _ & H3 & H4); [lia|done|done|].
  split_and!; try done.
  - apply new_progress_ok.
  - intros Hmax. subst q. rewrite H4. unfold trusted.
    destruct (Z.leb_spec (n_runs_ p + 1) STATS_MAX_N_RUNS); [lia|]. by rewrite andb_false_r.
Qed.

Lemma saved_stats_loaded_witness :
  let p := {| initial_max_ := 5000; progress_ := 3000; max_ := 5000; growth_factor_ := growth_factor; n_runs_ := 3; average_max_ := 5000; pr_path_ := lit "/bugreports/dumpstate-stats.txt" |} in
  Save p = Some (stats_line 4 4500) /\ max_ (new_progress (pr_path_ p) (Some (stats_line 4 4500))) = 4500.
Proof.
  intros p. split; [vm_compute; reflexivity|].
  refine (proj1 (proj2 (proj2 (proj2 (proj2 (saved_stats_loaded p (stats_line 4 4500) _ _ _)))))).
  - vm_compute. split; [discriminate|reflexivity].
  - vm_compute. split; [discriminate|reflexivity].
  - vm_compute. reflexivity.
Defined.
