(* ===== verification/DumpSystem.v ===== *)
(** What [dumpstate] asks the system for, the state it keeps, and the monad its
    functions run in.

    A run is a sequence of requests with their answers. The answers are the
    fields of the class [System], functions of the requests made before, so
    that nothing is assumed of the system: a property may change, a socket may
    fail and the user may answer at any point. Questions that change nothing
    are not recorded, except the poll of the user's consent.

    The log ([MYLOG]) and the durations that are printed after each section
    ([DurationReporter]) are not described. *)

From S2P Require Import Prelude CLib DumpProgress.

Open Scope Z_scope.

(** * Data *)

Inductive BugreportMode :=
| BUGREPORT_FULL | BUGREPORT_INTERACTIVE | BUGREPORT_REMOTE | BUGREPORT_WEAR
| BUGREPORT_TELEPHONY | BUGREPORT_WIFI | BUGREPORT_DEFAULT.

(** The values of [IDumpstate.aidl]. *)
Definition mode_of (mode : Z) : option BugreportMode :=
  match mode with
  | 0 => Some BUGREPORT_FULL | 1 => Some BUGREPORT_INTERACTIVE | 2 => Some BUGREPORT_REMOTE | 3 => Some BUGREPORT_WEAR
  | 4 => Some BUGREPORT_TELEPHONY | 5 => Some BUGREPORT_WIFI | 6 => Some BUGREPORT_DEFAULT | _ => None
  end.

Inductive RunStatus := OK | HELP | INVALID_INPUT | ERROR | USER_CONSENT_DENIED | USER_CONSENT_TIMED_OUT.

#[export] Instance RunStatus_eq_dec : EqDecision RunStatus.
Proof. solve_decision. Defined.

(** The answer of the user; [UNAVAILABLE] before there is one. *)
Inductive ConsentResult := APPROVED | DENIED | UNAVAILABLE.

#[export] Instance ConsentResult_eq_dec : EqDecision ConsentResult.
Proof. solve_decision. Defined.

Record DumpOptions := {
  do_add_date : bool;
  do_zip_file : bool;
  do_vibrate : bool;
  use_socket : bool;
  use_control_socket : bool;
  do_fb : bool;
  do_broadcast : bool;
  is_remote_mode : bool;
  show_header_only : bool;
  do_start_service : bool;
  telephony_only : bool;
  wifi_only : bool;
  do_progress_updates : bool;
  bugreport_fd : Z;
  screenshot_fd : Z;
  extra_options : str;
  args : str;
  notification_title : str;
  notification_description : str;
}.

Definition no_options : DumpOptions := {|
  do_add_date := false; do_zip_file := false; do_vibrate := true; use_socket := false; use_control_socket := false;
  do_fb := false; do_broadcast := false; is_remote_mode := false; show_header_only := false; do_start_service := false;
  telephony_only := false; wifi_only := false; do_progress_updates := false; bugreport_fd := -1; screenshot_fd := -1;
  extra_options := []; args := []; notification_title := []; notification_description := [] |}.

Inductive PrivilegeMode := DROP_ROOT | DONT_DROP_ROOT | SU_ROOT.
Inductive OutputMode := NORMAL_OUTPUT | REDIRECT_TO_STDERR.

#[export] Instance PrivilegeMode_eq_dec : EqDecision PrivilegeMode.
Proof. solve_decision. Defined.
#[export] Instance OutputMode_eq_dec : EqDecision OutputMode.
Proof. solve_decision. Defined.

(** * Requests *)

(** Descriptors by what they were opened for: two of them that are open at the
    same time are different. [Caller] is one of the two that the caller of the
    service has passed. *)
Inductive descriptor :=
| Stdout | Stderr | Control
| File (path : str)
| DumpPipe (service : str)
| Caller (fd : Z).

#[export] Instance descriptor_eq_dec : EqDecision descriptor.
Proof. solve_decision. Defined.

Inductive callback :=
| onProgress (percent : Z) | onProgressUpdated (progress : Z) | onMaxProgressUpdated (max : Z)
| onError (code : Z) | onFinished | onSectionComplete (name : str) (status size : Z).

#[export] Instance callback_eq_dec : EqDecision callback.
Proof. solve_decision. Defined.

(** Calls answer as their C functions do: 0 or a non-negative number for
    success, [-1] for failure, unless it is said otherwise. *)
Inductive request :=
| Poll                                         (* ConsentCallback::getResult: 0 approved, 1 denied, else none *)
| Authorize (uid : Z) (package : str)
| CancelAuthorization
| Listener (c : callback)
| StartService
| SetProperty (key value : str)
| Print (to : descriptor) (text : str)
| Copy (from to : descriptor)                  (* read until the end, WriteFully: 1 for success *)
| Open (path : str) (write : bool)
| MakeTemp (pattern : str)
| SetMode (path : str) (mode : Z)
| Close (d : descriptor)
| Fsync (d : descriptor)                       (* where its [errno] is seen *)
| MakeDir (path : str)
| Chown (path : str)                           (* to AID_SHELL *)
| Rename (from to : str)
| Unlink (path : str)
| WriteFile (path content : str)
| Rewind (d : descriptor)
| ControlSocket (service : str) | Listen | Accept
| Redirect (stream : descriptor) (path : str) (truncate : bool)
| RedirectToSocket | Restore (stream : descriptor)
| Fork (argv : list str) (priv : PrivilegeMode) (out : OutputMode) (to : descriptor)
| SigBlock | SigTimedWait (pid ms : Z) | SigRestore | WaitPid (pid : Z) | Kill (pid signal : Z)
| Credential (step : str)                      (* a step of DropRootUser: not 0 when it succeeds *)
| ZipOpen (path : str) | ZipStart (name : str) | ZipWrite (data : str) | ZipFinishEntry | ZipFinish | ZipClose
| PollFd (d : descriptor) (ms : Z)
| MakePipe (service : str) | DumpThread (service : str) (args : list str) | JoinThread | DetachThread | Terminate
| Backtrace (pid : Z) (java : bool) (seconds : Z) (to : descriptor)
| DumpstateBoardHal (fds : list descriptor)    (* 0 when it has answered in time *)
| Prints (what : str) (arg : Z)                (* a function that prints to stdout only *)
| Sleep (ms : Z).

#[export] Instance request_eq_dec : EqDecision request.
Proof. solve_decision. Defined.

(** Newest first. *)
Abbreviation history := (list (request * Z)).

Record dirent := { d_name : str; d_is_dir : bool; d_is_reg : bool; d_is_link : bool }.

(** An open dump file: its path and its modification time. *)
Record DumpData := { dd_name : str; dd_mtime : Z }.

Class System := {
  respond : history -> request -> Z;
  property : history -> str -> str;                          (* empty when it is not set *)
  directory : history -> str -> option (list dirent);
  reads : history -> descriptor -> list str * bool;          (* what read returns, and whether the end is an error *)
  readlink : history -> str -> option str;
  is_directory : history -> str -> bool;                     (* stat succeeds, S_ISDIR *)
  file_text : history -> str -> option str;                  (* ReadFileToString *)
  mtime : history -> str -> option Z;                        (* stat *)
  fmt_time : Z -> str;                                       (* strftime of a time *)
  fmt_date : Z -> str;                                       (* the same, for the name of a file *)
  fmt_seconds : nat -> Z -> str;                             (* nanoseconds as seconds, with so many decimals *)
  nanotime : history -> Z;
  errno : history -> Z;
  strerror : Z -> str;
  wait_status : history -> Z;
  services : history -> Z -> list str;                       (* IServiceManager::listServices *)
  hals : history -> option (list str);                       (* IServiceManager::list of hwservicemanager *)
  int_property : history -> str -> Z;                        (* GetIntProperty, 0 by default *)
  sort_dumps : (DumpData -> DumpData -> bool) -> list DumpData -> list DumpData; (* std::sort *)
  log_buffer_size : history -> str -> Z;
  sha256 : history -> str -> option str;                     (* in hexadecimal; [None]: the file cannot be opened or read *)
  service_there : history -> str -> bool;                    (* checkService *)
  compressed_size : history -> Z;                            (* of the last entry of the archive *)
  wall_time : history -> Z;                                  (* the time now, in seconds *)
  worst_write_perf : history -> Z;                           (* KB/s, of the block devices *)
  logd_kernel : history -> bool;                             (* ro.logd.kernel *)
  is_zygote : history -> Z -> bool;
  should_dump_native_traces : str -> bool;
  interesting_hal_pids : history -> list Z;
  temp_name : history -> str;                                (* what mkostemp has made of its pattern *)
  dumpstate_hal : history -> bool;                           (* IDumpstateDevice::getService *)
  file_size : history -> str -> option Z;                    (* stat, or fstat of a file that has been opened *)
  ctime : history -> str -> option Z;                        (* stat *)
}.

(** * State *)

Definition VERSION_CURRENT : str := lit "2.0".

(** What a run sets before it dumps and after, and no section changes. *)
Record Run := {
  options_ : DumpOptions;
  id_ : Z;
  pid_ : Z;
  do_early_screenshot_ : bool;
  control_socket_fd_ : bool;                  (* whether it is open *)
  version_ : str;
  now_ : Z;
  base_name_ : str;
  name_ : str;
  bugreport_internal_dir_ : str;
  tmp_path_ : str;
  log_path_ : str;
  path_ : str;
  screenshot_path_ : str;
  zip_file : bool;
  zip_writer_ : bool;                         (* whether there is one *)
  listener_ : bool;
  report_section_ : bool;
  consent_callback_ : option Z;               (* its start time *)
}.

(** What sections change. [None] and the empty string are values that have not
    been asked for. *)
Record Work := {
  progress : option Progress;
  last_updated_progress_ : Z;
  tombstone_data_ : list DumpData;
  anr_data_ : list DumpData;
  mount_points : list str;
  dump_traces_path : option str;
  build_type_ : str;
  dry_run_ : option bool;
  unroot_ : option bool;
  activeThread_ : bool;                       (* of the class Dumpsys: whether it can be joined *)
  redirectFd_ : option descriptor;
}.

Record state := { run : Run; work : Work; past : history }.

Definition update_progress_threshold_ : Z := 100.

(** * The monad *)

Definition D (A : Type) : Type := state -> A * state.

#[export] Instance D_ret : MRet D := fun A a s => (a, s).
Definition D_bind {A B} (m : D A) (f : A -> D B) : D B := fun s => let '(a, s) := m s in f a s.

Declare Scope dump_scope.
Delimit Scope dump_scope with dump.
Notation "x ← y ; z" := (D_bind y (fun x => z))
  (at level 20, y at level 100, z at level 200, only parsing) : dump_scope.
Notation "' x ← y ; z" := (D_bind y (fun x => z))
  (at level 20, x pattern, y at level 100, z at level 200, only parsing) : dump_scope.
Open Scope dump_scope.

Lemma D_bind_eq {A B} (m : D A) (f : A -> D B) s : D_bind m f s = f (fst (m s)) (snd (m s)).
Proof. unfold D_bind. by destruct (m s). Qed.

Section Ops.
Context {sys : System}.

Definition get_run {A} (f : Run -> A) : D A := fun s => (f (run s), s).
Definition set_run (f : Run -> Run) : D unit := fun s => (tt, {| run := f (run s); work := work s; past := past s |}).
Definition get_work {A} (f : Work -> A) : D A := fun s => (f (work s), s).
Definition set_work (f : Work -> Work) : D unit := fun s => (tt, {| run := run s; work := f (work s); past := past s |}).

(** A question, and a request, which is recorded. *)
Definition ask {A} (q : history -> A) : D A := fun s => (q (past s), s).
Definition req (r : request) : D Z :=
  fun s => let a := respond (past s) r in (a, {| run := run s; work := work s; past := (r, a) :: past s |}).
Definition do_ (r : request) : D unit := _ ← req r; mret tt.

Fixpoint each {A} (f : A -> D unit) (l : list A) : D unit :=
  match l with [] => mret tt | x :: rest => _ ← f x; each f rest end.

(** A loop that [f] may leave early with a result. *)
Fixpoint until {A R} (f : A -> D (option R)) (l : list A) : D (option R) :=
  match l with
  | [] => mret None
  | x :: rest => r ← f x; match r with Some r => mret (Some r) | None => until f rest end
  end.

(** A loop that ends with a result, or after [n] steps: [f] gives the next
    state or the result. *)
Fixpoint repeat_until {A R} (n : positive) (f : A -> D (A + R)) (x : A) : D (A + R) :=
  match n with
  | xH => f x
  | xO n => r ← repeat_until n f x; match r with inl y => repeat_until n f y | inr _ => mret r end
  | xI n =>
      r ← f x;
      match r with
      | inl x => r ← repeat_until n f x; match r with inl y => repeat_until n f y | inr _ => mret r end
      | inr _ => mret r
      end
  end.

Definition when_ (b : bool) (m : D unit) : D unit := if b then m else mret tt.
End Ops.

(** A loop whose state grows at every step, up to [b], has grown by the number
    of steps when it has not ended. *)
Lemma repeat_until_grows {R} n b (f : Z -> D (Z + R)) x s y s' :
  (forall x s y s', f x s = (inl y, s') -> x < y <= b) -> repeat_until n f x s = (inl y, s') -> x + Z.pos n <= y <= b.
Proof.
  intros Hf. revert x s y s'.
  assert (Htwo : forall n, (forall x s y s', repeat_until n f x s = (inl y, s') -> x + Z.pos n <= y <= b) -> forall x s y s',
    D_bind (repeat_until n f x) (fun r => match r with inl y => repeat_until n f y | inr _ => mret r end) s = (inl y, s') ->
    x + 2 * Z.pos n <= y <= b).
  { intros m IH x s y s'. rewrite D_bind_eq. destruct (repeat_until m f x s) as [[z|] s1] eqn:E1; cbn [fst snd]; [|done].
    intros E2. apply IH in E1, E2. lia. }
  induction n as [n IH|n IH|]; intros x s y s'; cbn [repeat_until].
  - rewrite D_bind_eq. destruct (f x s) as [[z|] s1] eqn:E1; cbn [fst snd]; [|done]. intros E2%Htwo; [|done]. apply Hf in E1. lia.
  - intros E%Htwo; [|done]. lia.
  - intros E%Hf. lia.
Qed.

(** * What a function does

    [effects R P m]: [m] changes the fields of [Run] as [R] allows, and every
    request that it makes satisfies [P]. [adds P m]: it does not change them. *)

Definition effects {sys : System} (R : relation Run) (P : request -> Prop) {A} (m : D A) : Prop :=
  forall s, R (run s) (run (snd (m s))) /\ exists l, past (snd (m s)) = l ++ past s /\ Forall (fun e => P (fst e)) l.

Section Effects.
Context {sys : System} (R : relation Run) {HR : PreOrder R} (P : request -> Prop).

Lemma effects_pure {A} (m : D A) : (forall s, R (run s) (run (snd (m s))) /\ past (snd (m s)) = past s) -> effects R P m.
Proof. intros H s. destruct (H s) as [H1 H2]. split; [done|]. by exists []. Qed.

Lemma effects_ret {A} (a : A) : effects R P (mret a).
Proof. by apply effects_pure. Qed.

Lemma effects_bind {A B} (m : D A) (f : A -> D B) : effects R P m -> (forall a, effects R P (f a)) -> effects R P (D_bind m f).
Proof.
  intros Hm Hf s. rewrite D_bind_eq. destruct (Hm s) as [E1 (l1 & P1 & F1)]. destruct (Hf (fst (m s)) (snd (m s))) as [E2 (l2 & P2 & F2)].
  split; [by etrans|]. exists (l2 ++ l1). split; [by rewrite P2, P1, app_assoc|by apply Forall_app].
Qed.

Lemma effects_ask {A} (q : history -> A) : effects R P (ask q).
Proof. by apply effects_pure. Qed.

Lemma effects_get_run {A} (f : Run -> A) : effects R P (get_run f).
Proof. by apply effects_pure. Qed.

Lemma effects_get_work {A} (f : Work -> A) : effects R P (get_work f).
Proof. by apply effects_pure. Qed.

Lemma effects_set_work f : effects R P (set_work f).
Proof. by apply effects_pure. Qed.

Lemma effects_set_run f : (forall r, R r (f r)) -> effects R P (set_run f).
Proof. intros H. by apply effects_pure. Qed.

Lemma effects_req r : P r -> effects R P (req r).
Proof. intros H s. split; [done|]. exists [(r, respond (past s) r)]. by repeat constructor. Qed.

Lemma effects_do r : P r -> effects R P (do_ r).
Proof. intros H. apply effects_bind; [by apply effects_req|intros; apply effects_ret]. Qed.

Lemma effects_each {A} (f : A -> D unit) l : (forall x, effects R P (f x)) -> effects R P (each f l).
Proof. intros Hf. induction l; [apply effects_ret|]. by apply effects_bind. Qed.

Lemma effects_until {A X} (f : A -> D (option X)) l : (forall x, effects R P (f x)) -> effects R P (until f l).
Proof. intros Hf. induction l as [|x l IH]; [apply effects_ret|]. apply effects_bind; [done|]. intros [r|]; [apply effects_ret|done]. Qed.

Lemma effects_repeat {A X} n (f : A -> D (A + X)) x : (forall x, effects R P (f x)) -> effects R P (repeat_until n f x).
Proof.
  intros Hf. revert x. induction n; intros x; cbn [repeat_until]; [| |done].
  1: apply effects_bind; [done|]; intros [x'|]; [|apply effects_ret].
  all: apply effects_bind; [done|]; intros [y|]; [done|apply effects_ret].
Qed.

Lemma effects_when b m : effects R P m -> effects R P (when_ b m).
Proof. intros H. destruct b; [done|apply effects_ret]. Qed.
End Effects.

Lemma effects_weaken {sys : System} (R R' : relation Run) (P P' : request -> Prop) {A} (m : D A) :
  effects R P m -> (forall r r', R r r' -> R' r r') -> (forall q, P q -> P' q) -> effects R' P' m.
Proof.
  intros H HR HP s. destruct (H s) as [H1 (l & H2 & H3)]. split; [by apply HR|]. exists l. split; [done|].
  eapply Forall_impl; [exact H3|]. intros e. apply HP.
Qed.

Abbreviation adds P := (effects (=) P).

Create HintDb dump.
#[export] Hint Resolve effects_ret effects_ask effects_get_run effects_get_work effects_set_work effects_req effects_do effects_each
  effects_until effects_repeat effects_when : dump.

(** Follows a function: through its binds, branches and loops, to requests that
    [side] shows to satisfy the predicate. *)
Ltac adds_tac side :=
  repeat match goal with
  | |- effects _ _ (D_bind _ _) => apply effects_bind; [exact _| |intros ?]
  | |- effects _ _ (mret _) => apply effects_ret; exact _
  | |- effects _ _ (ask _) => apply effects_ask; exact _
  | |- effects _ _ (get_run _) => apply effects_get_run; exact _
  | |- effects _ _ (get_work _) => apply effects_get_work; exact _
  | |- effects _ _ (set_work _) => apply effects_set_work; exact _
  | |- effects _ _ (do_ _) => apply effects_do; [exact _|side]
  | |- effects _ _ (req _) => apply effects_req; [exact _|side]
  | |- effects _ _ (each _ _) => apply effects_each; [exact _|intros ?]
  | |- effects _ _ (until _ _) => apply effects_until; [exact _|intros ?]
  | |- effects _ _ (repeat_until _ _ _) => apply effects_repeat; [exact _|intros ?]
  | |- effects _ _ (when_ _ _) => apply effects_when; [exact _|]
  | |- effects _ _ (let '(_, _) := ?x in _) => destruct x
  | |- effects _ _ (match ?x with _ => _ end) => destruct x
  | |- effects _ _ _ => progress cbv zeta
  | |- effects _ _ _ => solve [auto with dump]
  end.

(** * An example

    A device where every call succeeds, nothing is read and commands end well,
    and a file that was unlinked is gone;
    [answer] is what the user says. *)

Definition demo_system (answer : history -> Z) : System := {|
  respond := fun h r => match r with Poll => answer h | Copy _ _ | ZipOpen _ | PollFd _ _ => 1 | Fork _ _ _ _ | WaitPid _ => 77 | Credential _ => 1 | _ => 0 end;
  property := fun _ _ => [];
  directory := fun _ _ => None;
  reads := fun _ _ => ([], false);
  readlink := fun _ _ => None;
  is_directory := fun _ _ => true;
  file_text := fun _ _ => None;
  mtime := fun _ _ => None;
  fmt_time := fun _ => lit "2019-01-01 00:00:00";
  fmt_date := fun _ => lit "2019-01-01-00-00-00";
  fmt_seconds := fun _ _ => lit "0.000";
  nanotime := fun h => 0;
  errno := fun _ => 0;
  strerror := fun _ => [];
  wait_status := fun _ => 0;
  services := fun _ _ => [];
  hals := fun _ => None;
  int_property := fun _ _ => 0;
  sort_dumps := fun _ l => l;
  log_buffer_size := fun _ _ => 0;
  sha256 := fun h path => if existsb (fun e => bool_decide (fst e = Unlink path)) h then None else Some (lit "5a5a");
  service_there := fun _ _ => true;
  compressed_size := fun _ => 0;
  wall_time := fun _ => 0;
  worst_write_perf := fun _ => 20000;
  logd_kernel := fun _ => true;
  is_zygote := fun _ _ => false;
  should_dump_native_traces := fun _ => false;
  interesting_hal_pids := fun _ => [];
  temp_name := fun _ => lit "/data/anr/dumptrace_abcdef";
  dumpstate_hal := fun _ => false;
  file_size := fun _ _ => None;
  ctime := fun _ _ => None |}.

(** A run that has just been given its options. *)
Definition fresh_run (o : DumpOptions) (listener : bool) : Run := {|
  options_ := o; id_ := 0; pid_ := 42; do_early_screenshot_ := false; control_socket_fd_ := false; version_ := VERSION_CURRENT;
  now_ := 0; base_name_ := []; name_ := []; bugreport_internal_dir_ := lit "/bugreports"; tmp_path_ := []; log_path_ := []; path_ := [];
  screenshot_path_ := []; zip_file := false; zip_writer_ := false; listener_ := listener; report_section_ := false; consent_callback_ := None |}.

Definition fresh_work : Work := {|
  progress := None; last_updated_progress_ := 0; tombstone_data_ := []; anr_data_ := []; mount_points := []; dump_traces_path := None;
  build_type_ := []; dry_run_ := None; unroot_ := None; activeThread_ := false; redirectFd_ := None |}.

Definition fresh (o : DumpOptions) (listener : bool) : state := {| run := fresh_run o listener; work := fresh_work; past := [] |}.
