(* ===== verification/DumpOptions.v ===== *)
(** The options of [dumpstate]: its command line with [getopt] of the C library,
    the modes of a bugreport, the system properties that choose one, and which
    options go together ([DumpOptions] of [dumpstate.cpp], [main.cpp]). *)

From S2P Require Import Prelude CLib DumpProgress DumpSystem.

Open Scope Z_scope.

(** * getopt

    The one of the BSDs: the first argument that is no option ends the options.
    ["?"] stands for an option that is unknown or lacks its argument. *)

(** Whether an option takes an argument. *)
Fixpoint opt_kind (optstring : str) (c : ascii) : option bool :=
  match optstring with
  | [] => None
  | x :: rest =>
      if Ascii.eqb c ":" then None
      else if Ascii.eqb x c then Some (match rest with y :: _ => Ascii.eqb y ":" | [] => false end)
      else opt_kind rest c
  end.

(** How the letters of an argument end. *)
Inductive cluster_end := Cluster_done | Cluster_stop | Cluster_needs (c : ascii).

Fixpoint cluster (optstring place : str) : str * cluster_end :=
  match place with
  | [] => ([], Cluster_done)
  | c :: rest =>
      if Ascii.eqb c "-" && match rest with [] => true | _ => false end then ([], Cluster_stop)
      else match opt_kind optstring c with
           | None => let '(l, e) := cluster optstring rest in ("?"%char :: l, e)
           | Some false => let '(l, e) := cluster optstring rest in (c :: l, e)
           | Some true => match rest with [] => ([], Cluster_needs c) | _ => ([c], Cluster_done) end
           end
  end.

Fixpoint getopt (optstring : str) (argv : list str) : str :=
  match argv with
  | [] => []
  | a :: rest =>
      match a with
      | [] | [_] => []
      | dash :: place =>
          if negb (Ascii.eqb dash "-") || (place =s? lit "-") then []
          else match cluster optstring place with
               | (l, Cluster_done) => l ++ getopt optstring rest
               | (l, Cluster_stop) => l
               | (l, Cluster_needs c) => match rest with [] => l ++ ["?"%char] | _ :: rest' => l ++ c :: getopt optstring rest' end
               end
      end
  end.

(** * Modes *)

Definition ModeToString (mode : BugreportMode) : str :=
  lit match mode with
      | BUGREPORT_FULL => "BUGREPORT_FULL"
      | BUGREPORT_INTERACTIVE => "BUGREPORT_INTERACTIVE"
      | BUGREPORT_REMOTE => "BUGREPORT_REMOTE"
      | BUGREPORT_WEAR => "BUGREPORT_WEAR"
      | BUGREPORT_TELEPHONY => "BUGREPORT_TELEPHONY"
      | BUGREPORT_WIFI => "BUGREPORT_WIFI"
      | BUGREPORT_DEFAULT => "BUGREPORT_DEFAULT"
      end.

(** Options with some fields replaced. *)
Definition with_flags (o : DumpOptions) (start zip vibrate fb broadcast remote updates telephony wifi : bool) : DumpOptions := {|
  do_add_date := do_add_date o; do_zip_file := zip; do_vibrate := vibrate; use_socket := use_socket o;
  use_control_socket := use_control_socket o; do_fb := fb; do_broadcast := broadcast; is_remote_mode := remote;
  show_header_only := show_header_only o; do_start_service := start; telephony_only := telephony; wifi_only := wifi;
  do_progress_updates := updates; bugreport_fd := bugreport_fd o; screenshot_fd := screenshot_fd o;
  extra_options := extra_options o; args := args o; notification_title := notification_title o;
  notification_description := notification_description o |}.

Definition with_extra (o : DumpOptions) (extra title description : str) : DumpOptions := {|
  do_add_date := do_add_date o; do_zip_file := do_zip_file o; do_vibrate := do_vibrate o; use_socket := use_socket o;
  use_control_socket := use_control_socket o; do_fb := do_fb o; do_broadcast := do_broadcast o; is_remote_mode := is_remote_mode o;
  show_header_only := show_header_only o; do_start_service := do_start_service o; telephony_only := telephony_only o;
  wifi_only := wifi_only o; do_progress_updates := do_progress_updates o; bugreport_fd := bugreport_fd o;
  screenshot_fd := screenshot_fd o; extra_options := extra; args := args o; notification_title := title;
  notification_description := description |}.

Definition SetOptionsFromMode (mode : BugreportMode) (o : DumpOptions) : DumpOptions :=
  let o := with_extra o (ModeToString mode) (notification_title o) (notification_description o) in
  let flags := with_flags o in
  let start := do_start_service o in let zip := do_zip_file o in let vibrate := do_vibrate o in let fb := do_fb o in
  let broadcast := do_broadcast o in let remote := is_remote_mode o in let updates := do_progress_updates o in
  let telephony := telephony_only o in let wifi := wifi_only o in
  match mode with
  | BUGREPORT_FULL => flags start zip vibrate true true remote updates telephony wifi
  | BUGREPORT_INTERACTIVE => flags true zip vibrate false true remote true telephony wifi
  | BUGREPORT_REMOTE => flags start zip false false true true updates telephony wifi
  | BUGREPORT_WEAR => flags true true vibrate true true remote true telephony wifi
  | BUGREPORT_TELEPHONY => flags start zip vibrate false true remote updates true wifi
  | BUGREPORT_WIFI => flags start true vibrate false true remote updates telephony true
  | BUGREPORT_DEFAULT => o
  end.

(** * Validity *)

Definition OutputToFile (o : DumpOptions) : bool := negb (use_socket o).

Definition ValidateOptions (o : DumpOptions) : bool :=
  if negb (bugreport_fd o =? -1) && negb (do_zip_file o) then false
  else if (do_zip_file o || do_add_date o || do_progress_updates o || do_broadcast o) && negb (OutputToFile o) then false
  else if use_control_socket o && negb (do_zip_file o) then false
  else if do_progress_updates o && negb (do_broadcast o) then false
  else if is_remote_mode o && (do_progress_updates o || negb (do_broadcast o) || negb (do_zip_file o) || negb (do_add_date o)) then false
  else true.

(** * Initialisation *)

(** From a mode, for the service: the descriptors are duplicates. *)
Definition Initialize_mode (mode : BugreportMode) (bugreport screenshot : Z) : DumpOptions :=
  let o := no_options in
  SetOptionsFromMode mode {|
    do_add_date := true; do_zip_file := true; do_vibrate := do_vibrate o; use_socket := use_socket o;
    use_control_socket := use_control_socket o; do_fb := do_fb o; do_broadcast := do_broadcast o; is_remote_mode := is_remote_mode o;
    show_header_only := show_header_only o; do_start_service := do_start_service o; telephony_only := telephony_only o;
    wifi_only := wifi_only o; do_progress_updates := do_progress_updates o; bugreport_fd := bugreport; screenshot_fd := screenshot;
    extra_options := ModeToString mode; args := args o; notification_title := notification_title o;
    notification_description := notification_description o |}.

Definition optstring : str := lit "dho:svqzpPBRSV:w".

(** One option of the command line. *)
Definition set_option (o : DumpOptions) (c : ascii) : DumpOptions :=
  let given x := Ascii.eqb c x in {|
  do_add_date := given "d" || do_add_date o;
  do_zip_file := given "z" || do_zip_file o;
  do_vibrate := negb (given "q") && do_vibrate o;
  use_socket := given "s" || use_socket o;
  use_control_socket := given "S" || use_control_socket o;
  do_fb := given "p" || do_fb o;
  do_broadcast := given "B" || do_broadcast o;
  is_remote_mode := given "R" || is_remote_mode o;
  show_header_only := given "v" || show_header_only o;
  do_start_service := do_start_service o;
  telephony_only := telephony_only o;
  wifi_only := wifi_only o;
  do_progress_updates := given "P" || do_progress_updates o;
  bugreport_fd := bugreport_fd o;
  screenshot_fd := screenshot_fd o;
  extra_options := extra_options o;
  args := args o;
  notification_title := notification_title o;
  notification_description := notification_description o |}%char.

(** What [h] and an invalid option make of the status; the last one counts. *)
Definition option_status (status : RunStatus) (c : ascii) : RunStatus :=
  if Ascii.eqb c "h" then HELP
  else if existsb (Ascii.eqb c) (lit "dzosSvqpPRBVw") then status
  else INVALID_INPUT.

Definition with_args (o : DumpOptions) (a : str) : DumpOptions := {|
  do_add_date := do_add_date o; do_zip_file := do_zip_file o; do_vibrate := do_vibrate o; use_socket := use_socket o;
  use_control_socket := use_control_socket o; do_fb := do_fb o; do_broadcast := do_broadcast o; is_remote_mode := is_remote_mode o;
  show_header_only := show_header_only o; do_start_service := do_start_service o; telephony_only := telephony_only o;
  wifi_only := wifi_only o; do_progress_updates := do_progress_updates o; bugreport_fd := bugreport_fd o;
  screenshot_fd := screenshot_fd o; extra_options := extra_options o; args := a; notification_title := notification_title o;
  notification_description := notification_description o |}.

Fixpoint words (l : list str) : str :=
  match l with [] => [] | [x] => x | x :: rest => x ++ lit " " ++ words rest end.

(** The options of the command line: [argv] has the name of the program first. *)
Definition parse_arguments (argv : list str) : RunStatus * DumpOptions :=
  let codes := getopt optstring (tl argv) in
  (fold_left option_status codes OK, with_args (fold_left set_option codes no_options) (args no_options ++ words argv)).

Definition ShouldStartServiceAndWait (argv : list str) : bool :=
  existsb (Ascii.eqb "w") (getopt (lit "wdho:svqzpPBRSV:") (tl argv)).

Definition PROPERTY_EXTRA_OPTIONS : str := lit "dumpstate.options".
Definition PROPERTY_EXTRA_TITLE : str := lit "dumpstate.options.title".
Definition PROPERTY_EXTRA_DESCRIPTION : str := lit "dumpstate.options.description".

(** The mode that the framework names in a property. *)
Definition mode_of_property (extra : str) : BugreportMode :=
  if extra =s? lit "bugreportplus" then BUGREPORT_INTERACTIVE
  else if extra =s? lit "bugreportfull" then BUGREPORT_FULL
  else if extra =s? lit "bugreportremote" then BUGREPORT_REMOTE
  else if extra =s? lit "bugreportwear" then BUGREPORT_WEAR
  else if extra =s? lit "bugreporttelephony" then BUGREPORT_TELEPHONY
  else if extra =s? lit "bugreportwifi" then BUGREPORT_WIFI
  else BUGREPORT_DEFAULT.

Section Properties.
Context {sys : System}.

Definition getBugreportModeFromProperty : D BugreportMode :=
  extra ← ask (fun h => property h PROPERTY_EXTRA_OPTIONS);
  match extra with
  | [] => mret BUGREPORT_DEFAULT
  | _ => _ ← do_ (SetProperty PROPERTY_EXTRA_OPTIONS []); mret (mode_of_property extra)
  end.

Definition SetOptionsFromProperties (o : DumpOptions) : D DumpOptions :=
  mode ← getBugreportModeFromProperty;
  let o := SetOptionsFromMode mode o in
  title ← ask (fun h => property h PROPERTY_EXTRA_TITLE);
  match title with
  | [] => mret (with_extra o (extra_options o) title (notification_description o))
  | _ =>
      _ ← do_ (SetProperty PROPERTY_EXTRA_TITLE []);
      description ← ask (fun h => property h PROPERTY_EXTRA_DESCRIPTION);
      _ ← when_ (match description with [] => false | _ => true end) (do_ (SetProperty PROPERTY_EXTRA_DESCRIPTION []));
      mret (with_extra o (extra_options o) title description)
  end.

(** From the command line. *)
Definition Initialize (argv : list str) : D (RunStatus * DumpOptions) :=
  let '(status, o) := parse_arguments argv in
  o ← SetOptionsFromProperties o;
  mret (status, o).
End Properties.

(** * Theorems *)

(** Arguments of one letter are read as they are. *)
Lemma getopt_flags opts cs : Forall (fun c => opt_kind opts c = Some false /\ c <> "-"%char) cs ->
  getopt opts (map (fun c => ["-"%char; c]) cs) = cs.
Proof.
  induction 1 as [|c cs [Hc Hd] _ IH]; [done|]. cbn [map getopt cluster]. rewrite Ascii.eqb_refl, Hc.
  assert (E : ([c] =s? lit "-") = false) by (apply str_eqb_neq; by intros [= ->]). rewrite E.
  assert (E2 : Ascii.eqb c "-" = false) by (by apply Ascii.eqb_neq). rewrite E2. cbn [negb orb andb app]. by rewrite IH.
Qed.

(** A flag is what the options name; the order does not matter. *)
Definition flags_of (cs : str) (argv : list str) : DumpOptions :=
  let has x := existsb (Ascii.eqb x) cs in {|
  do_add_date := has "d"; do_zip_file := has "z"; do_vibrate := negb (has "q"); use_socket := has "s"; use_control_socket := has "S";
  do_fb := has "p"; do_broadcast := has "B"; is_remote_mode := has "R"; show_header_only := has "v"; do_start_service := false;
  telephony_only := false; wifi_only := false; do_progress_updates := has "P"; bugreport_fd := -1; screenshot_fd := -1;
  extra_options := []; args := words argv; notification_title := []; notification_description := [] |}%char.

Lemma fold_set_option cs o :
  fold_left set_option cs o =
  let has x := existsb (Ascii.eqb x) cs in {|
  do_add_date := has "d" || do_add_date o; do_zip_file := has "z" || do_zip_file o; do_vibrate := negb (has "q") && do_vibrate o;
  use_socket := has "s" || use_socket o; use_control_socket := has "S" || use_control_socket o; do_fb := has "p" || do_fb o;
  do_broadcast := has "B" || do_broadcast o; is_remote_mode := has "R" || is_remote_mode o;
  show_header_only := has "v" || show_header_only o; do_start_service := do_start_service o; telephony_only := telephony_only o;
  wifi_only := wifi_only o; do_progress_updates := has "P" || do_progress_updates o; bugreport_fd := bugreport_fd o;
  screenshot_fd := screenshot_fd o; extra_options := extra_options o; args := args o;
  notification_title := notification_title o; notification_description := notification_description o |}%char.
Proof.
  revert o. induction cs as [|c cs IH]; intros o; cbn [fold_left existsb]; [by destruct o|]. rewrite IH. cbv zeta.
  unfold set_option. cbn. rewrite !(Ascii.eqb_sym c). rewrite ?negb_orb.
  f_equal; first [by rewrite orb_comm, orb_assoc|idtac].
  all: try (rewrite !orb_assoc; f_equal; apply orb_comm). rewrite andb_assoc. f_equal. apply andb_comm.
Qed.

Lemma fold_option_status cs status : Forall (fun c => existsb (Ascii.eqb c) (lit "hdzosSvqpPRBVw") = true) cs ->
  fold_left option_status cs status = if existsb (Ascii.eqb "h") cs then HELP else status.
Proof.
  intros H. revert status. induction H as [|c cs Hc _ IH]; intros status; [done|]. cbn [fold_left existsb]. rewrite IH. unfold option_status.
  rewrite (Ascii.eqb_sym "h" c). cbn [lit String.list_ascii_of_string existsb] in Hc. destruct (Ascii.eqb c "h") eqn:E; cbn [orb].
  - by destruct (existsb _ cs).
  - cbn in Hc. cbn. by rewrite Hc.
Qed.

Lemma known_flags cs : Forall (fun c => existsb (Ascii.eqb c) (lit "hdzsSvqpPRBw") = true) cs ->
  Forall (fun c => opt_kind optstring c = Some false /\ c <> "-"%char) cs /\
  Forall (fun c => opt_kind (lit "wdho:svqzpPBRSV:") c = Some false /\ c <> "-"%char) cs /\
  Forall (fun c => existsb (Ascii.eqb c) (lit "hdzosSvqpPRBVw") = true) cs.
Proof.
  intros H. split_and!; (eapply Forall_impl; [exact H|]); cbn beta; intros c Hc;
    apply existsb_exists in Hc as (x & Hx & ->%Ascii.eqb_eq); cbn in Hx;
    by repeat (destruct Hx as [<-|Hx]; [first [by vm_compute|by split]|]).
Qed.

(** C15: a command line of flags is read as the set of its flags: the options do
    not depend on their order or number, [-h] asks for help, [-w] makes the
    process wait for a caller, and the arguments are kept as they were. *)
Theorem command_line_read prog cs :
  Forall (fun c => existsb (Ascii.eqb c) (lit "hdzsSvqpPRBw") = true) cs ->
  let argv := prog :: map (fun c => ["-"%char; c]) cs in
  parse_arguments argv = (if existsb (Ascii.eqb "h") cs then HELP else OK, flags_of cs argv) /\
  ShouldStartServiceAndWait argv = existsb (Ascii.eqb "w") cs.
Proof.
  intros Hcs argv. destruct (known_flags cs Hcs) as (H1 & H2 & H3). unfold parse_arguments, ShouldStartServiceAndWait. subst argv.
  cbn [tl]. rewrite (getopt_flags _ _ H1), (getopt_flags _ _ H2), (fold_option_status _ _ H3), fold_set_option.
  cbv zeta. split; [|done]. f_equal. unfold with_args, flags_of. cbn. by rewrite !orb_false_r, !andb_true_r.
Qed.

Lemma command_line_read_witness :
  parse_arguments [lit "dumpstate"; lit "-z"; lit "-d"; lit "-h"] = (HELP, flags_of (lit "zdh") [lit "dumpstate"; lit "-z"; lit "-d"; lit "-h"]) /\
  ShouldStartServiceAndWait [lit "dumpstate"; lit "-z"; lit "-d"; lit "-h"] = false.
Proof. refine (command_line_read (lit "dumpstate") (lit "zdh") _). repeat constructor. Defined.

(** The command lines of the services of [dumpstate.rc]. *)
Definition dumpstate_argv : list str := [lit "/system/bin/dumpstate"; lit "-s"].
Definition dumpstatez_argv : list str :=
  [lit "/system/bin/dumpstate"; lit "-S"; lit "-d"; lit "-z"; lit "-o"; lit "/data/user_de/0/com.android.shell/files/bugreports/bugreport"].
Definition bugreportd_argv : list str := [lit "/system/bin/dumpstate"; lit "-w"].

(** The mode of the properties as a run finds them. *)
Definition mode_found {sys : System} (s : state) : BugreportMode :=
  match property (past s) PROPERTY_EXTRA_OPTIONS with [] => BUGREPORT_DEFAULT | extra => mode_of_property extra end.

Lemma Initialize_eq {sys : System} argv s :
  exists title description, fst (Initialize argv s) =
    (fst (parse_arguments argv),
     let o := SetOptionsFromMode (mode_found s) (snd (parse_arguments argv)) in with_extra o (extra_options o) title description).
Proof.
  unfold Initialize. destruct (parse_arguments argv) as [status o]. cbn [fst snd]. rewrite D_bind_eq. cbn [mret D_ret fst].
  unfold SetOptionsFromProperties. rewrite D_bind_eq.
  assert (E : fst (getBugreportModeFromProperty s) = mode_found s).
  { unfold getBugreportModeFromProperty, mode_found. rewrite D_bind_eq. unfold ask. cbn [fst snd].
    by destruct (property (past s) PROPERTY_EXTRA_OPTIONS). }
  rewrite E. generalize (snd (getBugreportModeFromProperty s)), (SetOptionsFromMode (mode_found s) o). intros s1 o1.
  rewrite D_bind_eq. unfold ask. cbn [fst snd]. destruct (property (past s1) PROPERTY_EXTRA_TITLE); [by do 2 eexists|].
  rewrite !D_bind_eq. by do 2 eexists.
Qed.

Lemma ValidateOptions_extra o extra title description : ValidateOptions (with_extra o extra title description) = ValidateOptions o.
Proof. done. Qed.

(** The options of a bugreport that the service starts are valid in every
    mode, and so are those of [dumpstatez] whatever mode a property names;
    those of [dumpstate -s], which writes to a socket, are exactly when no
    property names one. [bugreportd] waits for the service to be called. *)
Theorem init_services_valid {sys : System} s mode bugreport screenshot :
  let run argv := fst (Initialize argv s) in
  ValidateOptions (Initialize_mode mode bugreport screenshot) = true /\
  fst (run dumpstatez_argv) = OK /\ ValidateOptions (snd (run dumpstatez_argv)) = true /\
  fst (run dumpstate_argv) = OK /\ (ValidateOptions (snd (run dumpstate_argv)) = true <-> mode_found s = BUGREPORT_DEFAULT) /\
  (ShouldStartServiceAndWait bugreportd_argv, ShouldStartServiceAndWait dumpstate_argv, ShouldStartServiceAndWait dumpstatez_argv) = (true, false, false).
Proof.
  intros run. subst run. cbv beta.
  destruct (Initialize_eq dumpstatez_argv s) as (t1 & d1 & ->), (Initialize_eq dumpstate_argv s) as (t2 & d2 & ->).
  cbv zeta. cbn [fst snd]. rewrite !ValidateOptions_extra. split_and!; try done.
  - unfold Initialize_mode, ValidateOptions. destruct mode; cbn; by rewrite ?andb_false_r.
  - by destruct (mode_found s).
  - by destruct (mode_found s).
Qed.
