(* ===== verification/DumpCommands.v ===== *)
(** The sections of a bugreport are commands and files: how [dumpstate] runs the
    one and prints the other, with the progress that each adds
    ([DumpstateUtil.cpp], [DumpstateInternal.cpp], [utils.cpp]). *)

From S2P Require Import Prelude CLib DumpProgress DumpSystem.

Open Scope Z_scope.

(** * Updates of the state *)

Definition set_progress (p : option Progress) (last : Z) (w : Work) : Work := {|
  progress := p; last_updated_progress_ := last; tombstone_data_ := tombstone_data_ w; anr_data_ := anr_data_ w;
  mount_points := mount_points w; dump_traces_path := dump_traces_path w; build_type_ := build_type_ w;
  dry_run_ := dry_run_ w; unroot_ := unroot_ w; activeThread_ := activeThread_ w; redirectFd_ := redirectFd_ w |}.

Definition set_properties (build : str) (dry unroot : option bool) (w : Work) : Work := {|
  progress := progress w; last_updated_progress_ := last_updated_progress_ w; tombstone_data_ := tombstone_data_ w;
  anr_data_ := anr_data_ w; mount_points := mount_points w; dump_traces_path := dump_traces_path w; build_type_ := build;
  dry_run_ := dry; unroot_ := unroot; activeThread_ := activeThread_ w; redirectFd_ := redirectFd_ w |}.

Definition set_dumps (tombstones anrs : list DumpData) (mounts : list str) (traces : option str) (w : Work) : Work := {|
  progress := progress w; last_updated_progress_ := last_updated_progress_ w; tombstone_data_ := tombstones;
  anr_data_ := anrs; mount_points := mounts; dump_traces_path := traces; build_type_ := build_type_ w;
  dry_run_ := dry_run_ w; unroot_ := unroot_ w; activeThread_ := activeThread_ w; redirectFd_ := redirectFd_ w |}.

Definition set_dumpsys (active : bool) (redirect : option descriptor) (w : Work) : Work := {|
  progress := progress w; last_updated_progress_ := last_updated_progress_ w; tombstone_data_ := tombstone_data_ w;
  anr_data_ := anr_data_ w; mount_points := mount_points w; dump_traces_path := dump_traces_path w; build_type_ := build_type_ w;
  dry_run_ := dry_run_ w; unroot_ := unroot_ w; activeThread_ := active; redirectFd_ := redirect |}.

(** * Options of commands *)

Record CommandOptions := {
  timeout_ms_ : Z;
  always_ : bool;
  account_mode_ : PrivilegeMode;
  output_mode_ : OutputMode;
}.

Definition WithTimeoutInMs (ms : Z) : CommandOptions :=
  {| timeout_ms_ := ms; always_ := false; account_mode_ := DONT_DROP_ROOT; output_mode_ := NORMAL_OUTPUT |}.
Definition WithTimeout (seconds : Z) : CommandOptions := WithTimeoutInMs (seconds * 1000).
Definition Always (o : CommandOptions) : CommandOptions :=
  {| timeout_ms_ := timeout_ms_ o; always_ := true; account_mode_ := account_mode_ o; output_mode_ := output_mode_ o |}.
Definition with_account (mode : PrivilegeMode) (o : CommandOptions) : CommandOptions :=
  {| timeout_ms_ := timeout_ms_ o; always_ := always_ o; account_mode_ := mode; output_mode_ := output_mode_ o |}.
Definition RedirectStderr (o : CommandOptions) : CommandOptions :=
  {| timeout_ms_ := timeout_ms_ o; always_ := always_ o; account_mode_ := account_mode_ o; output_mode_ := REDIRECT_TO_STDERR |}.
Definition DropRoot (o : CommandOptions) : CommandOptions := with_account DROP_ROOT o.

Definition DEFAULT : CommandOptions := WithTimeout 10.

Section Commands.
Context {sys : System}.

(** ** Properties, asked for once *)

(** [GetBoolProperty] with the default [false]. *)
Definition bool_property (h : history) (key : str) : bool :=
  existsb (str_eqb (property h key)) [lit "1"; lit "y"; lit "yes"; lit "on"; lit "true"].

Definition IsUserBuild : D bool :=
  cached ← get_work build_type_;
  build ← (match cached with
           | [] => value ← ask (fun h => property h (lit "ro.build.type"));
                   mret (match value with [] => lit "user" | _ => value end)
           | _ => mret cached
           end);
  _ ← set_work (fun w => set_properties build (dry_run_ w) (unroot_ w) w);
  mret (build =s? lit "user").

Definition IsDryRun : D bool :=
  cached ← get_work dry_run_;
  match cached with
  | Some b => mret b
  | None =>
      b ← ask (fun h => bool_property h (lit "dumpstate.dry_run"));
      _ ← set_work (fun w => set_properties (build_type_ w) (Some b) (unroot_ w) w);
      mret b
  end.

Definition IsUnroot : D bool :=
  cached ← get_work unroot_;
  match cached with
  | Some b => mret b
  | None =>
      b ← ask (fun h => bool_property h (lit "dumpstate.unroot"));
      _ ← set_work (fun w => set_properties (build_type_ w) (dry_run_ w) (Some b) w);
      mret b
  end.

Definition AsRoot (o : CommandOptions) : D CommandOptions :=
  unroot ← IsUnroot;
  mret (if unroot then o else with_account SU_ROOT o).

Definition AsRootIfAvailable (o : CommandOptions) : D CommandOptions :=
  user ← IsUserBuild;
  if user then mret o else AsRoot o.

(** ** Progress *)

(** Tells the listener and the control socket, when the step is large enough. *)
Definition report_progress (p : Progress) (max_changed : bool) : D unit :=
  let value := progress_ p in let max := max_ p in
  listener ← get_run listener_;
  _ ← when_ (max_changed && listener) (do_ (Listener (onMaxProgressUpdated max)));
  last ← get_work last_updated_progress_;
  if (last >? 0) && (i32 (value - last) <? update_progress_threshold_) then mret tt
  else
    _ ← set_work (fun w => set_progress (progress w) value w);
    control ← get_run control_socket_fd_;
    _ ← when_ control (do_ (Print Control (lit "PROGRESS:" ++ fmt_d value ++ lit "/" ++ fmt_d max ++ [ascii_of_nat 10])));
    let percent := Z.quot (i32 (100 * value)) max in
    when_ listener (_ ← do_ (Listener (onProgressUpdated value)); do_ (Listener (onProgress percent))).

Definition UpdateProgress (delta_sec : Z) : D unit :=
  p ← get_work progress;
  match p with
  | None => mret tt
  | Some p =>
      let '(p, max_changed) := Inc delta_sec p in
      _ ← set_work (fun w => set_progress (Some p) (last_updated_progress_ w) w);
      updates ← get_run (fun r => do_progress_updates (options_ r));
      if negb updates then mret tt else report_progress p max_changed
  end.

(** ** Commands *)

(** Gives up root for good; each step may fail. *)
Definition DropRootUser : D bool :=
  group ← req (Credential (lit "getgrnam shell"));
  user ← req (Credential (lit "getpwnam shell"));
  if (group =? 0) || (user =? 0) then mret false
  else
    already ← req (Credential (lit "already shell"));
    if nz already then mret true
    else
      failed ← until (fun step => r ← req (Credential step); mret (if nz r then None else Some tt))
                 (map lit ["prctl PR_SET_KEEPCAPS"; "getgrnam log"; "getgrnam sdcard_r"; "getgrnam sdcard_rw"; "getgrnam mount";
                           "getgrnam inet"; "getgrnam net_bw_stats"; "getgrnam readproc"; "getgrnam bluetooth"; "setgroups";
                           "setgid"; "setuid"; "capget"; "capset"]%string);
      mret (match failed with Some _ => false | None => true end).

(** What becomes of the child of a [fork]: it executes the command, exits, or
    returns and goes on as a second [dumpstate]. *)
Inductive child_end := Executes | Exits | Returns (value : Z).

Definition child (priv : PrivilegeMode) (exec_ok : bool) : D child_end :=
  dropped ← (match priv with DROP_ROOT => DropRootUser | _ => mret true end);
  if negb dropped then mret (Returns (-1)) else mret (if exec_ok then Executes else Exits).

(** The end of a child, or why it was not seen. *)
Inductive waited := Ended (status : Z) | TimedOut | WaitFailed.

Definition EAGAIN : Z := 11.
Definition ETIMEDOUT : Z := 110.

Definition newline : str := [ascii_of_nat 10].
Definition error_text (what : string) : D str := ask (fun h => lit "*** " ++ lit what ++ lit " failed: " ++ strerror (errno h) ++ newline).

Definition waitpid_with_timeout (pid timeout_ms : Z) : D waited :=
  blocked ← req SigBlock;
  if blocked =? -1 then text ← error_text "sigprocmask"; _ ← do_ (Print Stdout text); mret WaitFailed
  else
    ret ← req (SigTimedWait pid (i32 timeout_ms));
    saved_errno ← ask errno;
    restored ← req SigRestore;
    _ ← when_ (restored =? -1) (text ← error_text "sigprocmask"; do_ (Print Stdout text));
    if (restored =? -1) && (ret =? 0) then mret WaitFailed
    else if ret =? -1 then
      if saved_errno =? EAGAIN then mret TimedOut
      else _ ← do_ (Print Stdout (lit "*** sigtimedwait failed: " ++ strerror saved_errno ++ newline)); mret WaitFailed
    else
      child_pid ← req (WaitPid pid);
      if child_pid =? pid then status ← ask wait_status; mret (Ended status)
      else
        text ← (if child_pid =? -1 then error_text "waitpid"
                else mret (lit "*** Waiting for pid " ++ fmt_d pid ++ lit ", got pid " ++ fmt_d child_pid ++ lit " instead" ++ newline));
        _ ← do_ (Print Stdout text);
        mret WaitFailed.

(** The parts of a wait status. *)
Definition term_signal (status : Z) : Z := Z.land status 127.
Definition exit_status (status : Z) : Z := Z.land (Z.shiftr status 8) 255.
Definition exited (status : Z) : bool := term_signal status =? 0.
Definition signaled (status : Z) : bool := negb (exited status) && negb (term_signal status =? 127).

Definition SIGKILL : Z := 9.
Definition SIGTERM : Z := 15.

Fixpoint spaced (l : list str) : str :=
  match l with [] => [] | [x] => x | x :: rest => x ++ lit " " ++ spaced rest end.

Definition kSuPath : str := lit "/system/xbin/su".

(** Stops a command that has not ended in time. *)
Definition kill_command (fd : descriptor) (silent : bool) (command : str) (pid : Z) : D unit :=
  _ ← do_ (Kill pid SIGTERM);
  first ← waitpid_with_timeout pid 5000;
  match first with
  | Ended _ => mret tt
  | _ =>
      _ ← do_ (Kill pid SIGKILL);
      second ← waitpid_with_timeout pid 5000;
      match second with
      | Ended _ => mret tt
      | _ => when_ (negb silent) (do_ (Print fd (lit "could not kill command '" ++ command ++ lit "' (pid " ++ fmt_d pid ++ lit ") even with SIGKILL." ++ newline)))
      end
  end.

(** What the parent does with the end of the child. The [errno] that tells a
    time-out is read after an [fsync], which sets it when it fails. *)
Definition after_wait (fd : descriptor) (silent : bool) (command : str) (pid start : Z) (w : waited) : D Z :=
  synced ← req (Fsync fd);
  elapsed ← ask (fun h => nanotime h - start);
  error ← ask (fun h => match w with TimedOut => if synced =? -1 then errno h else ETIMEDOUT | _ => errno h end);
  let complain text := when_ (negb silent) (do_ (Print fd text)) in
  match w with
  | Ended status =>
      if signaled status then
        _ ← complain (lit "*** command '" ++ command ++ lit "' failed: killed by signal " ++ fmt_d (term_signal status) ++ newline);
        mret status
      else if exited status && (exit_status status >? 0) then
        _ ← complain (lit "*** command '" ++ command ++ lit "' failed: exit code " ++ fmt_d (exit_status status) ++ newline);
        mret (exit_status status)
      else mret status
  | _ =>
      _ ← complain (lit "*** command '" ++ command ++
            (if error =? ETIMEDOUT then lit "' timed out after " ++ fmt_seconds 3 elapsed else lit "': Error after " ++ fmt_seconds 4 elapsed) ++
            lit "s (killing pid " ++ fmt_d pid ++ lit ")" ++ newline);
      _ ← kill_command fd silent command pid;
      mret (-1)
  end.

Definition not_empty {A} (l : list A) : bool := match l with [] => false | _ => true end.

Definition is_su (mode : PrivilegeMode) : bool := bool_decide (mode = SU_ROOT).

Definition RunCommandToFd (fd : descriptor) (title : str) (full_command : list str) (options : CommandOptions) : D Z :=
  match full_command with
  | [] => mret (-1)
  | _ =>
      let su := is_su (account_mode_ options) in
      let argv := (if su then [kSuPath; lit "root"] else []) ++ full_command in
      let command := (if su then kSuPath ++ lit " root " else []) ++ spaced full_command in
      skipped ← (if su then IsUserBuild else mret false);
      if skipped then _ ← do_ (Print fd (lit "Skipping '" ++ command ++ lit "' on user build." ++ newline)); mret 0
      else
        _ ← when_ (not_empty title) (do_ (Print fd (lit "------ " ++ title ++ lit " (" ++ command ++ lit ") ------" ++ newline)));
        let silent := bool_decide (output_mode_ options = REDIRECT_TO_STDERR) in
        let redirecting_to_fd := negb (bool_decide (fd = Stdout)) in
        dry ← IsDryRun;
        if dry && negb (always_ options) then
          _ ← (if not_empty title then do_ (Print fd (ascii_of_nat 9 :: lit "(skipped on dry run)" ++ newline))
               else when_ redirecting_to_fd (do_ (Print fd (command ++ lit ": skipped on dry run" ++ newline))));
          mret 0
        else
          start ← ask nanotime;
          pid ← req (Fork argv (account_mode_ options) (output_mode_ options) fd);
          if pid <? 0 then
            text ← ask (fun h => lit "*** fork: " ++ strerror (errno h) ++ newline);
            _ ← when_ (negb silent) (do_ (Print fd text));
            mret pid
          else
            w ← waitpid_with_timeout pid (timeout_ms_ options);
            after_wait fd silent command pid start w
  end.

(** A section that is a command; its time limit is its weight. *)
Definition RunCommand (title : str) (full_command : list str) (options : CommandOptions) : D Z :=
  status ← RunCommandToFd Stdout title full_command options;
  _ ← UpdateProgress (i32 (Z.quot (timeout_ms_ options) 1000));
  mret status.

Definition run_command (title : string) (full_command : list string) (options : CommandOptions) : D unit :=
  _ ← RunCommand (lit title) (map lit full_command) options; mret tt.

Definition DEFAULT_DUMPSYS : CommandOptions := WithTimeout 30.

Definition RunDumpsys (title : string) (dumpsys_args : list string) (options : CommandOptions) (dumpsysTimeoutMs : Z) : D unit :=
  let timeout_ms := if dumpsysTimeoutMs >? 0 then dumpsysTimeoutMs else timeout_ms_ options in
  _ ← RunCommand (lit title) (lit "/system/bin/dumpsys" :: lit "-T" :: fmt_d timeout_ms :: map lit dumpsys_args) options;
  mret tt.

Definition run_dumpsys (title : string) (dumpsys_args : list string) : D unit := RunDumpsys title dumpsys_args DEFAULT_DUMPSYS 0.

Definition TakeScreenshot (path : str) : D unit :=
  own ← get_run screenshot_path_;
  let real_path := match path with [] => own | _ => path end in
  _ ← RunCommand [] [lit "/system/bin/screencap"; lit "-p"; real_path] (RedirectStderr (DropRoot (Always (WithTimeout 10))));
  mret tt.

(** ** Files *)

(** [poll] and [read] by turns, up to 30 seconds each; whether a newline is due
    no more. *)
Fixpoint print_chunks (path : str) (from to : descriptor) (chunks : list str) (read_error : bool) (newline_ : bool) : D bool :=
  start_time ← ask nanotime;
  ret ← req (PollFd from 30000);
  if ret =? -1 then
    text ← ask (fun h => lit "*** " ++ path ++ lit ": poll failed: " ++ strerror (errno h) ++ newline);
    _ ← do_ (Print to text); mret true
  else if ret =? 0 then
    text ← ask (fun h => lit "*** " ++ path ++ lit ": Timed out after " ++ fmt_seconds 3 (nanotime h - start_time) ++ lit "s" ++ newline);
    _ ← do_ (Print to text); mret true
  else
    match chunks with
    | chunk :: rest =>
        _ ← do_ (Print to chunk);
        print_chunks path from to rest read_error (match last chunk with Some c => Ascii.eqb c (ascii_of_nat 10) | None => false end)
    | [] =>
        if read_error then
          text ← ask (fun h => lit "*** " ++ path ++ lit ": Failed to read from fd: " ++ strerror (errno h));
          _ ← do_ (Print to text); mret true
        else mret newline_
    end.

Definition DumpFileFromFdToFd (title path : str) (fd out_fd : descriptor) (dry_run : bool) : D unit :=
  modified ← ask (fun h => if prefixb (lit "/proc/") path || prefixb (lit "/sys/") path || prefixb (lit "/d/") path then None else mtime h path);
  let stamp := match modified with Some t => lit ": " ++ fmt_time t | None => [] end in
  _ ← when_ (not_empty title) (do_ (Print out_fd (lit "------ " ++ title ++ lit " (" ++ path ++ stamp ++ lit ") ------" ++ newline)));
  if dry_run then
    if negb (bool_decide (out_fd = Stdout)) then do_ (Print out_fd (path ++ lit ": skipped on dry run" ++ newline))
    else when_ (not_empty title) (do_ (Print out_fd (ascii_of_nat 9 :: lit "(skipped on dry run)" ++ newline)))
  else
    '(chunks, err) ← ask (fun h => reads h fd);
    newline_ ← print_chunks path fd out_fd chunks err false;
    _ ← when_ (negb newline_) (do_ (Print out_fd newline));
    when_ (not_empty title) (do_ (Print out_fd newline)).

Definition DumpFileToFd (out_fd : descriptor) (title path : str) : D Z :=
  r ← req (Open path false);
  if r <? 0 then
    reason ← ask (fun h => strerror (errno h));
    _ ← do_ (Print out_fd (lit "*** Error dumping " ++ path ++ (if not_empty title then lit " (" ++ title ++ lit ")" else []) ++ lit ": " ++ reason ++ newline));
    mret (-1)
  else
    dry ← IsDryRun;
    _ ← DumpFileFromFdToFd title path (File path) out_fd dry;
    _ ← do_ (Close (File path));
    mret 0.

Definition WEIGHT_FILE : Z := 5.

(** A section that is a file. *)
Definition DumpFile (title path : str) : D Z :=
  status ← DumpFileToFd Stdout title path;
  _ ← UpdateProgress WEIGHT_FILE;
  mret status.

Definition dump_file (title path : string) : D unit := _ ← DumpFile (lit title) (lit path); mret tt.

(** The descriptors that it gets were opened with [O_NONBLOCK]. *)
Definition dump_file_from_fd (title path : str) (fd : descriptor) : D unit :=
  dry ← IsDryRun;
  if dry then mret tt else DumpFileFromFdToFd title path fd Stdout false.

(** ** Directories *)

Definition is_dots (name : str) : bool := (name =s? lit ".") || (name =s? lit "..").

(** A path is shorter than 4096 characters and grows by two at each level. *)
Definition max_depth : nat := 2048.

Fixpoint dump_files_at (depth : nat) (dir : str) (skip : str -> D bool) (dump_from_fd : str -> D unit) : D unit :=
  dry ← IsDryRun;
  if dry then mret tt
  else
    let sep := if ends_with dir (lit "/") then [] else lit "/" in
    entries ← ask (fun h => directory h dir);
    match entries, depth with
    | None, _ | _, O => mret tt
    | Some entries, S depth =>
        each (fun d =>
          if is_dots (d_name d) then mret tt
          else
            let newpath := dir ++ sep ++ d_name d ++ (if d_is_dir d then lit "/" else []) in
            skipped ← skip newpath;
            if skipped then mret tt
            else if d_is_dir d then dump_files_at depth newpath skip dump_from_fd
            else
              r ← req (Open newpath false);
              if r <? 0 then
                reason ← ask (fun h => strerror (errno h));
                do_ (Print Stdout (lit "*** " ++ newpath ++ lit ": " ++ reason ++ newline))
              else _ ← dump_from_fd newpath; do_ (Close (File newpath))) entries
    end.

(** [dump_files] as it is used, without a title. *)
Definition dump_files (dir : str) (skip : str -> D bool) (dump_from_fd : str -> D unit) : D unit :=
  dump_files_at max_depth dir skip dump_from_fd.

(** The paths that end before a slash, the first one of the path excepted. *)
Fixpoint parents (pre s : str) : list str :=
  match s with
  | [] => []
  | c :: rest => if Ascii.eqb c slash then pre :: parents (pre ++ [c]) rest else parents (pre ++ [c]) rest
  end.

Definition parent_dirs (path : str) : list str :=
  match path with
  | c :: rest => if Ascii.eqb c slash then parents [c] rest else parents [] path
  | [] => []
  end.

Definition create_parent_dirs (path : str) : D unit :=
  each (fun dir =>
    there ← ask (fun h => is_directory h dir);
    if there then mret tt
    else r ← req (MakeDir dir); when_ (r =? 0) (do_ (Chown dir))) (parent_dirs path).

Definition redirect_file (stream : descriptor) (path : str) (truncate : bool) : D bool :=
  _ ← create_parent_dirs path;
  r ← req (Redirect stream path truncate);
  mret (negb (r <? 0)).

Definition redirect_to_file (stream : descriptor) (path : str) : D bool := redirect_file stream path true.
Definition redirect_to_existing_file (stream : descriptor) (path : str) : D bool := redirect_file stream path false.

Definition open_socket (service : str) : D bool :=
  s ← req (ControlSocket service);
  if s <? 0 then mret false
  else
    r ← req Listen;
    if r <? 0 then mret false
    else fd ← req Accept; mret (negb (fd <? 0)).

Definition redirect_to_socket (service : str) : D bool :=
  opened ← open_socket service;
  if opened then _ ← do_ RedirectToSocket; mret true else mret false.

(** ** Processes *)

Definition IsUserConsentDenied : D bool :=
  callback ← get_run consent_callback_;
  match callback with
  | None => mret false
  | Some _ => r ← req Poll; mret (r =? 1)
  end.

(** The characters before the first of some. *)
Fixpoint until_char (stop : list nat) (s : str) : str :=
  match s with
  | [] => []
  | c :: rest => if existsb (Nat.eqb (nat_of_ascii c)) stop then [] else c :: until_char stop rest
  end.

(** The line of a process: its command line, or the name of a kernel thread. *)
Definition command_of (h : history) (pid : Z) : str :=
  match until_char [0%nat] (take 253 (default [] (file_text h (lit "/proc/" ++ fmt_d pid ++ lit "/cmdline")))) with
  | c :: l => c :: l
  | [] =>
      match take 251 (default [] (file_text h (lit "/proc/" ++ fmt_d pid ++ lit "/comm"))) with
      | c :: l =>
          if Ascii.eqb c (ascii_of_nat 0) then lit "N/A"
          else lit "[" ++ until_char [12; 8; 13; 10; 0]%nat (c :: l) ++ lit "]"
      | [] => lit "N/A"
      end
  end.

(** The processes up to the first poll that finds the consent denied. *)
Definition each_pid (header : str) (helper : Z -> str -> D unit) : D unit :=
  entries ← ask (fun h => directory h (lit "/proc"));
  match entries with
  | None =>
      reason ← ask (fun h => strerror (errno h));
      do_ (Print Stdout (lit "Failed to open /proc (" ++ reason ++ lit ")" ++ newline))
  | Some entries =>
      _ ← when_ (not_empty header) (do_ (Print Stdout (newline ++ lit "------ " ++ header ++ lit " ------" ++ newline)));
      _ ← until (fun d =>
            denied ← IsUserConsentDenied;
            if denied then mret (Some tt)
            else
              let pid := atoi (d_name d) in
              if pid =? 0 then mret None
              else name ← ask (fun h => command_of h pid); _ ← helper pid name; mret None) entries;
      mret tt
  end.

Definition for_each_pid (header : str) (func : Z -> str -> D unit) : D unit :=
  dry ← IsDryRun;
  if dry then mret tt else each_pid header func.

Definition comm_of (h : history) (tid : Z) : str :=
  match file_text h (lit "/proc/" ++ fmt_d tid ++ lit "/comm") with
  | None => lit "N/A"
  | Some text =>
      let comm := until_char [0%nat] (take 253 text) in
      match rfind_char (ascii_of_nat 10) comm with Some n => take n comm | None => comm end
  end.

Definition for_each_tid_helper (func : Z -> Z -> str -> D unit) (pid : Z) (cmdline : str) : D unit :=
  let taskpath := lit "/proc/" ++ fmt_d pid ++ lit "/task" in
  entries ← ask (fun h => directory h taskpath);
  match entries with
  | None =>
      reason ← ask (fun h => strerror (errno h));
      do_ (Print Stdout (lit "Failed to open " ++ taskpath ++ lit " (" ++ reason ++ lit ")" ++ newline))
  | Some entries =>
      _ ← func pid pid cmdline;
      _ ← until (fun d =>
            denied ← IsUserConsentDenied;
            if denied then mret (Some tt)
            else
              let tid := atoi (d_name d) in
              if (tid =? 0) || (tid =? pid) then mret None
              else name ← ask (fun h => comm_of h tid); _ ← func pid tid name; mret None) entries;
      mret tt
  end.

Definition for_each_tid (header : str) (func : Z -> Z -> str -> D unit) : D unit :=
  dry ← IsDryRun;
  if dry then mret tt else each_pid header (for_each_tid_helper func).

Definition show_wchan (pid tid : Z) (name : str) : D unit :=
  dry ← IsDryRun;
  if dry then mret tt else do_ (Prints (lit "show_wchan") tid).

Definition show_showtime (pid : Z) (name : str) : D unit :=
  dry ← IsDryRun;
  if dry then mret tt else do_ (Prints (lit "show_showtime") pid).

Definition AS_ROOT : D CommandOptions := AsRoot (WithTimeout 10).

Definition do_showmap (pid : Z) (name : str) : D unit :=
  options ← AS_ROOT;
  _ ← RunCommand (take 254 (lit "SHOW MAP " ++ fmt_d pid ++ lit " (" ++ name ++ lit ")")) [lit "showmap"; lit "-q"; fmt_d pid] options;
  mret tt.

(** What the listener gets of a section, if it has asked for that. *)
Definition section_complete (title : str) (status size : Z) : D unit :=
  listener ← get_run listener_;
  report ← get_run report_section_;
  when_ (listener && report) (do_ (Listener (onSectionComplete title status size))).
End Commands.

(** * Progress that is reported *)

Definition progress_text (progress max : Z) : str := lit "PROGRESS:" ++ fmt_d progress ++ lit "/" ++ fmt_d max ++ newline.

(** What a step may say of a progress. *)
Definition reports (p : Progress) (r : request) : Prop :=
  match r with
  | Listener (onProgress percent) => percent = Z.quot (100 * progress_ p) (max_ p) /\ 0 <= percent <= 100
  | Listener (onProgressUpdated value) => value = progress_ p
  | Listener (onMaxProgressUpdated max) => max = max_ p
  | Print Control text => text = progress_text (progress_ p) (max_ p)
  | _ => False
  end.

Lemma report_progress_reports {sys : System} p changed : progress_ok p -> progress_ p < 2 ^ 24 -> adds (reports p) (report_progress p changed).
Proof.
  intros ((Hlo & Hhi) & Hpos & _) Hb. unfold report_progress. adds_tac ltac:(idtac).
  all: try done. cbn. rewrite i32_small by lia. split; [done|]. split; [apply Z.quot_pos; lia|]. apply Z.quot_le_upper_bound; lia.
Qed.

(** A step that leaves the progress alone. *)
Definition same_progress {A} (m : D A) : Prop := forall s, progress (work (snd (m s))) = progress (work s).

Lemma same_progress_bind {A B} (m : D A) (f : A -> D B) : same_progress m -> (forall a, same_progress (f a)) -> same_progress (D_bind m f).
Proof. intros Hm Hf s. by rewrite D_bind_eq, Hf, Hm. Qed.

Lemma same_progress_when b m : same_progress m -> same_progress (when_ b m).
Proof. by destruct b. Qed.

Lemma report_progress_same {sys : System} p changed : same_progress (report_progress p changed).
Proof.
  unfold report_progress. apply same_progress_bind; [done|]. intros listener. apply same_progress_bind; [by apply same_progress_when|]. intros _.
  apply same_progress_bind; [done|]. intros last. case_match; [done|].
  apply same_progress_bind; [done|]. intros _. apply same_progress_bind; [done|]. intros control. apply same_progress_bind; [by apply same_progress_when|]. intros _.
  by apply same_progress_when.
Qed.

(** C13: while the progress fits the 24 bits of a [float], a section of weight
    [delta] adds that, or nothing when it is negative; the progress stays within
    its maximum, which grows to at most twice the progress, and what is reported
    of it is consistent: no conversion overflows and a percentage is between 0
    and 100. *)
Theorem progress_reported {sys : System} s p delta :
  progress (work s) = Some p -> progress_ok p -> progress_ p + Z.max 0 delta < 2 ^ 24 ->
  exists p', progress (work (snd (UpdateProgress delta s))) = Some p' /\ progress_ok p' /\
    progress_ p' = progress_ p + Z.max 0 delta /\ max_ p <= max_ p' <= Z.max (max_ p) (2 * progress_ p') /\
    run (snd (UpdateProgress delta s)) = run s /\
    exists l, past (snd (UpdateProgress delta s)) = l ++ past s /\ Forall (fun e => reports p' (fst e)) l.
Proof.
  intros Hp Hok Hb. unfold UpdateProgress. rewrite D_bind_eq. cbn [get_work fst snd]. rewrite Hp.
  destruct (Inc_ok delta p Hok) as (H1 & H2 & H3 & H4); [lia|]. destruct (Inc delta p) as [p' changed]. cbn [fst] in *. exists p'.
  set (s1 := {| run := run s; work := set_progress (Some p') (last_updated_progress_ (work s)) (work s); past := past s |}).
  assert (E : forall k, D_bind (set_work (fun w => set_progress (Some p') (last_updated_progress_ w) w)) k s = k tt s1 :> unit * state) by done.
  rewrite E, D_bind_eq. cbn [get_run fst snd]. destruct (negb _).
  - split_and!; try done. by exists [].
  - destruct (report_progress_reports p' changed H1 ltac:(lia) s1) as [Hr Hl]. split_and!; try done. by rewrite report_progress_same.
Qed.

Definition counting_options : DumpOptions := {|
  do_add_date := false; do_zip_file := false; do_vibrate := true; use_socket := false; use_control_socket := false;
  do_fb := false; do_broadcast := true; is_remote_mode := false; show_header_only := false; do_start_service := true;
  telephony_only := false; wifi_only := false; do_progress_updates := true; bugreport_fd := -1; screenshot_fd := -1;
  extra_options := []; args := []; notification_title := []; notification_description := [] |}.

Definition counting : state := {|
  run := fresh_run counting_options true; work := set_progress (Some (new_progress [] None)) 0 fresh_work; past := [] |}.

Lemma progress_reported_witness :
  progress (work counting) = Some (new_progress [] None) /\
  exists p', progress (work (snd (UpdateProgress (sys := demo_system (fun _ => 0)) 6000 counting))) = Some p' /\ progress_ok p' /\
    progress_ p' = 0 + 6000 /\ 5000 <= max_ p' <= Z.max 5000 (2 * progress_ p') /\
    run (snd (UpdateProgress (sys := demo_system (fun _ => 0)) 6000 counting)) = run counting /\
    exists l, past (snd (UpdateProgress (sys := demo_system (fun _ => 0)) 6000 counting)) = l ++ [] /\ Forall (fun e => reports p' (fst e)) l.
Proof.
  split; [reflexivity|].
  exact (progress_reported (sys := demo_system (fun _ => 0)) counting (new_progress [] None) 6000 eq_refl (proj1 (new_progress_ok [] None)) ltac:(done)).
Defined.

Lemma counting_reports :
  past (snd (UpdateProgress (sys := demo_system (fun _ => 0)) 6000 counting)) =
  [(Listener (onProgress 90), 0); (Listener (onProgressUpdated 6000), 0); (Listener (onMaxProgressUpdated 6600), 0)].
Proof. vm_compute. reflexivity. Qed.
