(* ===== verification/DumpZip.v ===== *)
(** The archive of a bugreport: its entries, the files that are added to it and
    how it is finished ([dumpstate.cpp]). *)

From S2P Require Import Prelude CLib MediaExt DumpProgress DumpSystem DumpCommands.

Open Scope list_scope.
Open Scope Z_scope.

(** [status_t]. *)
Definition STATUS_OK : Z := 0.
Definition INVALID_OPERATION : Z := -38.
Definition TIMED_OUT : Z := -110.
Definition UNKNOWN_ERROR : Z := - 2 ^ 31.

Definition ZIP_ROOT_DIR : str := lit "FS".

Definition PROBLEMATIC_FILE_EXTENSIONS : list str := map lit
  [".ade"; ".adp"; ".bat"; ".chm"; ".cmd"; ".com"; ".cpl"; ".exe"; ".hta"; ".ins"; ".isp";
   ".jar"; ".jse"; ".lib"; ".lnk"; ".mde"; ".msc"; ".msp"; ".mst"; ".pif"; ".scr"; ".sct";
   ".shb"; ".sys"; ".vb";  ".vbe"; ".vbs"; ".vxd"; ".wsc"; ".wsf"; ".wsh"]%string.

(** The name of an entry, renamed when mail services would refuse it. *)
Definition valid_entry_name (entry_name : str) : str :=
  match rfind_char dot entry_name with
  | Some idx =>
      if existsb (str_eqb (map lower (drop idx entry_name))) PROBLEMATIC_FILE_EXTENSIONS then entry_name ++ lit ".renamed" else entry_name
  | None => entry_name
  end.

Section Zip.
Context {sys : System}.

Definition IsZipping : D bool := get_run zip_writer_.

(** What [poll] says before a read: [None] to read. *)
Definition poll_entry (fd : descriptor) (timeout_ms end_ns : Z) : D (option Z) :=
  if timeout_ms >? 0 then
    left_ms ← ask (fun h => Z.max (Z.quot (end_ns - nanotime h) 1000000) 0);
    rc ← req (PollFd fd left_ms);
    if rc <? 0 then e ← ask errno; mret (Some (- e))
    else mret (if rc =? 0 then Some TIMED_OUT else None)
  else mret None.

(** The loop of reads: [None] when the end is reached. *)
Fixpoint add_chunks (fd : descriptor) (timeout_ms end_ns : Z) (chunks : list str) (read_error : bool) : D (option Z) :=
  stop ← poll_entry fd timeout_ms end_ns;
  match stop with
  | Some status => mret (Some status)
  | None =>
      match chunks with
      | chunk :: rest =>
          err ← req (ZipWrite chunk);
          if nz err then mret (Some UNKNOWN_ERROR) else add_chunks fd timeout_ms end_ns rest read_error
      | [] => if read_error then e ← ask errno; mret (Some (- e)) else mret None
      end
  end.

Definition AddZipEntryFromFd (entry_name : str) (fd : descriptor) (timeout_ms : Z) : D Z :=
  zipping ← IsZipping;
  if negb zipping then mret INVALID_OPERATION
  else
    err ← req (ZipStart (valid_entry_name entry_name));
    if nz err then mret UNKNOWN_ERROR
    else
      end_ns ← ask (fun h => nanotime h + timeout_ms * 1000000);
      '(chunks, read_error) ← ask (fun h => reads h fd);
      stop ← add_chunks fd timeout_ms end_ns chunks read_error;
      err ← req ZipFinishEntry;
      mret (match stop with
            | Some status => status
            | None => if nz err then UNKNOWN_ERROR else STATUS_OK
            end).

Definition AddZipEntry (entry_name entry_path : str) : D bool :=
  r ← req (Open entry_path false);
  if r <? 0 then mret false
  else
    status ← AddZipEntryFromFd entry_name (File entry_path) 0;
    _ ← do_ (Close (File entry_path));
    mret (status =? STATUS_OK).

Definition AddTextZipEntry (entry_name content : str) : D bool :=
  zipping ← IsZipping;
  if negb zipping then mret false
  else
    err ← req (ZipStart entry_name);
    if nz err then mret false
    else
      err ← req (ZipWrite content);
      if nz err then mret false
      else err ← req ZipFinishEntry; mret (negb (nz err)).

(** [_add_file_from_fd]. *)
Definition add_file_from_fd (path : str) : D unit := _ ← AddZipEntryFromFd (ZIP_ROOT_DIR ++ path) (File path) 0; mret tt.

Definition is_dir (path : str) : D bool := ask (fun h => is_directory h path).

(** Directories are skipped unless it is recursive. *)
Definition AddDir (dir : string) (recursive : bool) : D unit :=
  zipping ← IsZipping;
  if negb zipping then mret tt
  else dump_files (lit dir) (if recursive then fun _ => mret false else is_dir) add_file_from_fd.

(** ** Dumps that are there already *)

(** The files of a directory that are taken: one that cannot be opened ends the
    search. *)
Fixpoint find_dumps (dir_path file_prefix : str) (oldest : option Z) (entries : list dirent) : D (list DumpData) :=
  match entries with
  | [] => mret []
  | d :: rest =>
      if negb (d_is_reg d) || negb (prefixb file_prefix (d_name d)) then find_dumps dir_path file_prefix oldest rest
      else
        let abs_path := dir_path ++ d_name d in
        r ← req (Open abs_path false);
        if r <? 0 then mret []
        else
          time ← ask (fun h => mtime h abs_path);
          match time with
          | None => _ ← do_ (Close (File abs_path)); find_dumps dir_path file_prefix oldest rest
          | Some t =>
              if match oldest with Some o => t <? o | None => false end then
                _ ← do_ (Close (File abs_path)); find_dumps dir_path file_prefix oldest rest
              else dumps ← find_dumps dir_path file_prefix oldest rest; mret ({| dd_name := abs_path; dd_mtime := t |} :: dumps)
          end
  end.

Definition GetDumpFds (dir_path file_prefix : string) (limit_by_mtime limit_by_count : bool) : D (list DumpData) :=
  now ← get_run now_;
  entries ← ask (fun h => directory h (lit dir_path));
  match entries with
  | None => mret []
  | Some entries =>
      dump_data ← find_dumps (lit dir_path) (lit file_prefix) (if limit_by_mtime then Some (now - 60 * 30) else None) entries;
      let dump_data := sort_dumps (fun d1 d2 => dd_mtime d1 >? dd_mtime d2) dump_data in
      if limit_by_count then
        _ ← each (fun d => do_ (Close (File (dd_name d)))) (drop 10 dump_data);
        mret (take 10 dump_data)
      else mret dump_data
  end.

Definition AddDumps (dumps : list DumpData) (type_name : string) (add_to_zip : bool) : D bool :=
  _ ← each (fun d =>
        _ ← do_ (Rewind (File (dd_name d)));
        zipping ← IsZipping;
        if zipping && add_to_zip then _ ← AddZipEntryFromFd (ZIP_ROOT_DIR ++ dd_name d) (File (dd_name d)) 0; mret tt
        else dump_file_from_fd (lit type_name) (dd_name d) (File (dd_name d))) dumps;
  mret (not_empty dumps).

(** ** Mount points *)

Definition do_mountinfo (pid : Z) (name : str) : D unit :=
  link ← ask (fun h => readlink h (lit "/proc/" ++ fmt_d pid ++ lit "/ns/mnt"));
  match link with
  | None => mret tt
  | Some linkname =>
      known ← get_work (fun w => existsb (str_eqb linkname) (mount_points w));
      if known then mret tt
      else
        let path := lit "/proc/" ++ fmt_d pid ++ lit "/mountinfo" in
        added ← AddZipEntry (ZIP_ROOT_DIR ++ path) path;
        when_ added (set_work (fun w => set_dumps (tombstone_data_ w) (anr_data_ w) (linkname :: mount_points w) (dump_traces_path w) w))
  end.

Definition add_mountinfo : D unit :=
  zipping ← IsZipping;
  if negb zipping then mret tt
  else
    _ ← set_work (fun w => set_dumps (tombstone_data_ w) (anr_data_ w) [] (dump_traces_path w) w);
    for_each_pid [] do_mountinfo.

(** ** The end of the archive *)

Definition FinishZipFile : D bool :=
  '(base, name, tmp, log) ← get_run (fun r => (base_name_ r, name_ r, tmp_path_ r, log_path_ r));
  let entry_name := base ++ lit "-" ++ name ++ lit ".txt" in
  added ← AddZipEntry entry_name tmp;
  if negb added then mret false
  else
    added ← AddTextZipEntry (lit "main_entry.txt") entry_name;
    if negb added then mret false
    else
      added ← AddZipEntry (lit "dumpstate_log.txt") log;
      if negb added then mret false
      else
        redirected ← redirect_to_existing_file Stderr log;
        if negb redirected then mret false
        else
          err ← req ZipFinish;
          if nz err then mret false
          else
            _ ← do_ ZipClose;
            _ ← set_run (fun r => {|
              options_ := options_ r; id_ := id_ r; pid_ := pid_ r; do_early_screenshot_ := do_early_screenshot_ r;
              control_socket_fd_ := control_socket_fd_ r; version_ := version_ r; now_ := now_ r; base_name_ := base_name_ r;
              name_ := name_ r; bugreport_internal_dir_ := bugreport_internal_dir_ r; tmp_path_ := tmp_path_ r;
              log_path_ := log_path_ r; path_ := path_ r; screenshot_path_ := screenshot_path_ r; zip_file := false;
              zip_writer_ := zip_writer_ r; listener_ := listener_ r; report_section_ := report_section_ r;
              consent_callback_ := consent_callback_ r |});
            _ ← do_ (Unlink tmp);
            mret true.
End Zip.
