(* ===== verification/Dumpsys.v ===== *)
(** [dumpsys/dumpsys.cpp]: the class [Dumpsys], which [dumpstate] uses as well,
    and its command. A service writes its dump to a pipe from a thread; this
    side relays the pipe until its end or a time limit. The state of the object
    ([activeThread_], [redirectFd_]) is in [Work]; messages to the error stream
    are left out, a [String16] is the list of its characters, and [getopt_long]
    is a parameter. *)

From S2P Require Import Prelude CLib DumpProgress DumpSystem DumpCommands DumpZip.

Open Scope list_scope.
Open Scope Z_scope.

(** * Priorities

    The flags of [IServiceManager] and the words of [PriorityDumper]. *)

Definition DUMP_FLAG_PRIORITY_CRITICAL : Z := 1.
Definition DUMP_FLAG_PRIORITY_HIGH : Z := 2.
Definition DUMP_FLAG_PRIORITY_NORMAL : Z := 4.
Definition DUMP_FLAG_PRIORITY_DEFAULT : Z := 8.
Definition DUMP_FLAG_PRIORITY_ALL : Z := 15.
Definition DUMP_FLAG_PROTO : Z := 16.

Definition PRIORITY_ARG : str := lit "--dump-priority".
Definition PRIORITY_ARG_CRITICAL : str := lit "CRITICAL".
Definition PRIORITY_ARG_HIGH : str := lit "HIGH".
Definition PRIORITY_ARG_NORMAL : str := lit "NORMAL".
Definition PROTO_ARG : str := lit "--proto".

Definition ConvertPriorityTypeToBitmask (type : str) : option Z :=
  if type =s? PRIORITY_ARG_CRITICAL then Some DUMP_FLAG_PRIORITY_CRITICAL
  else if type =s? PRIORITY_ARG_HIGH then Some DUMP_FLAG_PRIORITY_HIGH
  else if type =s? PRIORITY_ARG_NORMAL then Some DUMP_FLAG_PRIORITY_NORMAL
  else None.

Definition ConvertBitmaskToPriorityType (bitmask : Z) : str :=
  if bitmask =? DUMP_FLAG_PRIORITY_CRITICAL then PRIORITY_ARG_CRITICAL
  else if bitmask =? DUMP_FLAG_PRIORITY_HIGH then PRIORITY_ARG_HIGH
  else if bitmask =? DUMP_FLAG_PRIORITY_NORMAL then PRIORITY_ARG_NORMAL
  else [].

(** All services, the normal ones and the ones with no priority of their own. *)
Definition not_prioritised (priorityFlags : Z) : bool :=
  (priorityFlags =? DUMP_FLAG_PRIORITY_ALL) || (priorityFlags =? DUMP_FLAG_PRIORITY_NORMAL) || (priorityFlags =? DUMP_FLAG_PRIORITY_DEFAULT).

Definition setServiceArgs (args : list str) (asProto : bool) (priorityFlags : Z) : list str :=
  let args := if asProto then PROTO_ARG :: args else args in
  let args := if not_prioritised priorityFlags then lit "-a" :: args else args in
  if (priorityFlags =? DUMP_FLAG_PRIORITY_CRITICAL) || (priorityFlags =? DUMP_FLAG_PRIORITY_HIGH) || (priorityFlags =? DUMP_FLAG_PRIORITY_NORMAL)
  then PRIORITY_ARG :: ConvertBitmaskToPriorityType priorityFlags :: args
  else args.

(** * The list of services *)

(** [std::set_intersection]. *)
Fixpoint set_intersection (l1 : list str) : list str -> list str :=
  fix inner (l2 : list str) : list str :=
    match l1, l2 with
    | a :: r1, b :: r2 =>
        if str_ltb a b then set_intersection r1 l2
        else if str_ltb b a then inner r2
        else a :: set_intersection r1 r2
    | _, _ => []
    end.

Section Object.
Context {sys : System}.

Definition listServices (h : history) (priorityFilterFlags : Z) (filterByProto : bool) : list str :=
  let found := merge_sort str_le (services h priorityFilterFlags) in
  if filterByProto then set_intersection found (merge_sort str_le (services h DUMP_FLAG_PROTO)) else found.

(** * A dump *)

Definition NAME_NOT_FOUND : Z := -2.

(** A thread that could still be joined must not be replaced, and the end of a
    pipe that is replaced is closed. *)
Definition startDumpThread (serviceName : str) (args : list str) : D Z :=
  there ← ask (fun h => service_there h serviceName);
  if negb there then mret NAME_NOT_FOUND
  else
    r ← req (MakePipe serviceName);
    if nz r then e ← ask errno; mret (- e)
    else
      '(active, old) ← get_work (fun w => (activeThread_ w, redirectFd_ w));
      _ ← (match old with Some fd => do_ (Close fd) | None => mret tt end);
      _ ← do_ (DumpThread serviceName args);
      _ ← when_ active (do_ Terminate);
      _ ← set_work (set_dumpsys true (Some (DumpPipe serviceName)));
      mret STATUS_OK.

Definition stopDumpThread (dumpComplete : bool) : D unit :=
  _ ← do_ (if dumpComplete then JoinThread else DetachThread);
  fd ← get_work redirectFd_;
  _ ← (match fd with Some fd => do_ (Close fd) | None => mret tt end);
  set_work (set_dumpsys false None).

Definition writeDumpHeader (fd : descriptor) (serviceName : str) (priorityFlags : Z) : D unit :=
  do_ (Print fd (
    lit "-------------------------------------------------------------------------------" ++ newline ++
    lit "DUMP OF SERVICE " ++ (if not_prioritised priorityFlags then [] else ConvertBitmaskToPriorityType priorityFlags ++ lit " ") ++
    serviceName ++ lit ":" ++ newline)).

(** The loop of [writeDump]: the status and the bytes that were relayed. *)
Fixpoint relay (fd from : descriptor) (end_ns : Z) (chunks : list str) (read_error : bool) (totalBytes : Z) : D (Z * Z) :=
  left_ms ← ask (fun h => Z.max (Z.quot (end_ns - nanotime h) 1000000) 0);
  rc ← req (PollFd from left_ms);
  if rc <? 0 then e ← ask errno; mret (- e, totalBytes)
  else if rc =? 0 then mret (TIMED_OUT, totalBytes)
  else
    match chunks with
    | [] => if read_error then e ← ask errno; mret (- e, totalBytes) else mret (STATUS_OK, totalBytes)
    | buf :: rest =>
        written ← req (Print fd buf);
        if written =? -1 then e ← ask errno; mret (- e, totalBytes)
        else relay fd from end_ns rest read_error (totalBytes + Z.of_nat (length buf))
    end.

(** The status, the time that has passed and the bytes that were written. *)
Definition writeDump (fd : descriptor) (serviceName : str) (timeout_ms : Z) (asProto : bool) : D (Z * Z * Z) :=
  start ← ask nanotime;
  serviceDumpFd ← get_work redirectFd_;
  match serviceDumpFd with
  | None => mret (INVALID_OPERATION, 0, 0)
  | Some from =>
      '(chunks, read_error) ← ask (fun h => reads h from);
      '(status, totalBytes) ← relay fd from (start + timeout_ms * 1000000) chunks read_error 0;
      _ ← when_ ((status =? TIMED_OUT) && negb asProto)
            (do_ (Print fd (newline ++ lit "*** SERVICE '" ++ serviceName ++ lit "' DUMP TIMEOUT (" ++ fmt_d timeout_ms ++ lit "ms) EXPIRED ***" ++ newline ++ newline)));
      elapsed ← ask (fun h => nanotime h - start);
      mret (status, elapsed, totalBytes)
  end.

Definition writeDumpFooter (fd : descriptor) (serviceName : str) (elapsedDuration : Z) : D unit :=
  finish ← ask wall_time;
  do_ (Print fd (lit "--------- " ++ fmt_seconds 3 elapsedDuration ++ lit "s was the duration of dumpsys " ++ serviceName ++
                 lit ", ending at: " ++ fmt_time finish ++ newline)).

(** * The command *)

Definition IsSkipped (skipped : list str) (service : str) : bool := existsb (str_eqb service) skipped.

(** What [getopt_long] finds: an option of one letter or a long one, with its
    argument, or something that is no option. *)
Inductive opt_event := Opt_short (c : ascii) (optarg : str) | Opt_long (name optarg : str) | Opt_unknown.

Record dumpsys_options := { showListOnly : bool; skipServices : bool; asProto : bool; timeoutArgMs : Z; priorityFlags : Z }.

Definition default_options : dumpsys_options :=
  {| showListOnly := false; skipServices := false; asProto := false; timeoutArgMs := 10000; priorityFlags := DUMP_FLAG_PRIORITY_ALL |}.

(** A time limit, in milliseconds from units of [scale]. *)
Definition read_timeout (scale : Z) (optarg : str) (o : dumpsys_options) : dumpsys_options + Z :=
  let '(n, endptr) := strtoll optarg 10 in
  let ms := i32 (i32 n * scale) in
  if not_empty (default optarg endptr) || (ms <=? 0) then inr (-1)
  else inl {| showListOnly := showListOnly o; skipServices := skipServices o; asProto := asProto o; timeoutArgMs := ms; priorityFlags := priorityFlags o |}.

(** The options after one of them, or the exit code. *)
Definition read_option (o : dumpsys_options) (e : opt_event) : dumpsys_options + Z :=
  let with_flags l s p := inl {| showListOnly := l; skipServices := s; asProto := p; timeoutArgMs := timeoutArgMs o; priorityFlags := priorityFlags o |} in
  match e with
  | Opt_long name optarg =>
      if name =s? lit "skip" then with_flags (showListOnly o) true (asProto o)
      else if name =s? lit "proto" then with_flags (showListOnly o) (skipServices o) true
      else if name =s? lit "help" then inr 0
      else if name =s? lit "priority" then
        match ConvertPriorityTypeToBitmask optarg with
        | Some flags => inl {| showListOnly := showListOnly o; skipServices := skipServices o; asProto := asProto o; timeoutArgMs := timeoutArgMs o; priorityFlags := flags |}
        | None => inr (-1)
        end
      else inl o
  | Opt_short c optarg =>
      if Ascii.eqb c "t" then read_timeout 1000 optarg o
      else if Ascii.eqb c "T" then read_timeout 1 optarg o
      else if Ascii.eqb c "l" then with_flags true (skipServices o) (asProto o)
      else inr (-1)
  | Opt_unknown => inr (-1)
  end.

Fixpoint read_options (o : dumpsys_options) (events : list opt_event) : dumpsys_options + Z :=
  match events with
  | [] => inl o
  | e :: rest => match read_option o e with inl o => read_options o rest | inr code => inr code end
  end.

Definition longOptions : list (str * bool) := [(lit "priority", true); (lit "proto", false); (lit "skip", false); (lit "help", false)].

(** The dump of one of the services, between a header and a footer when there
    are [many]. *)
Definition dump_service (o : dumpsys_options) (many : bool) (args : list str) (serviceName : str) : D unit :=
  started ← startDumpThread serviceName args;
  if started =? STATUS_OK then
    _ ← when_ many (writeDumpHeader Stdout serviceName (priorityFlags o));
    '(status, elapsed, _) ← writeDump Stdout serviceName (timeoutArgMs o) (asProto o);
    _ ← when_ (status =? TIMED_OUT)
          (do_ (Print Stdout (newline ++ lit "*** SERVICE '" ++ serviceName ++ lit "' DUMP TIMEOUT (" ++ fmt_d (timeoutArgMs o) ++ lit "ms) EXPIRED ***" ++ newline ++ newline)));
    _ ← when_ many (writeDumpFooter Stdout serviceName elapsed);
    stopDumpThread (status =? STATUS_OK)
  else mret tt.

(** The list of the services that are running. *)
Definition print_list (skipped : list str) (found : list str) : D unit :=
  _ ← do_ (Print Stdout (lit "Currently running services:" ++ newline));
  each (fun s =>
    there ← ask (fun h => service_there h s);
    when_ there (do_ (Print Stdout (lit "  " ++ s ++ (if IsSkipped skipped s then lit " (skipped)" else []) ++ newline)))) found.

Definition run_dumps (o : dumpsys_options) (skipped args found : list str) : D Z :=
  let many := (1 <? length found)%nat in
  _ ← when_ many (print_list skipped found);
  if showListOnly o then mret 0
  else
    _ ← each (fun s => if IsSkipped skipped s then mret tt else dump_service o many args s) found;
    mret 0.

Definition dumpsys_main (getopt_long : str -> list (str * bool) -> list str -> list opt_event * list str) (argv : list str) : D Z :=
  let '(events, rest) := getopt_long (lit "+t:T:l") longOptions (tl argv) in
  match read_options default_options events with
  | inr code => mret code
  | inl o =>
      let skipped := if skipServices o then rest else [] in
      let named := if skipServices o then [] else take 1 rest in
      let args := if skipServices o then [] else drop 1 rest in
      if (skipServices o && negb (not_empty skipped)) || (showListOnly o && (not_empty named || not_empty skipped)) then mret (-1)
      else if negb (not_empty named) || showListOnly o then
        found ← ask (fun h => listServices h (priorityFlags o) (asProto o));
        run_dumps o skipped (setServiceArgs args (asProto o) (priorityFlags o)) found
      else run_dumps o skipped args named
  end.
End Object.

(** * The list of services *)

Lemma set_intersection_sublist l1 l2 : set_intersection l1 l2 `sublist_of` l1.
Proof.
  revert l2. induction l1 as [|a l1 IH]; intros l2; [by destruct l2|].
  induction l2 as [|b l2 IH2]; [apply sublist_nil_l|]. cbn [set_intersection].
  destruct (str_ltb a b); [by apply sublist_cons|]. destruct (str_ltb b a); [exact IH2|]. by apply sublist_skip.
Qed.

Lemma set_intersection_elem l1 l2 x : StronglySorted str_le l1 -> StronglySorted str_le l2 ->
  x ∈ set_intersection l1 l2 <-> x ∈ l1 /\ x ∈ l2.
Proof.
  intros H1. revert l2. induction H1 as [|a l1 H1 IH Ha]; intros l2 H2; [destruct l2; cbn; set_solver|].
  induction H2 as [|b l2 H2 IH2 Hb]; [cbn; set_solver|]. cbn [set_intersection].
  rewrite Forall_forall in Ha, Hb. assert (Hlt : forall y z, str_ltb y z = true -> ~ str_le z y) by (intros y z E E2; unfold str_le in E2; congruence).
  destruct (str_ltb a b) eqn:E1; [|destruct (str_ltb b a) eqn:E2].
  - rewrite IH by (constructor; [done|by apply Forall_forall]). rewrite (elem_of_cons l1 x a). split; [tauto|]. intros [[->|Hx] Hin]; [|done].
    destruct (Hlt _ _ E1). apply elem_of_cons in Hin as [->|Hin]; [reflexivity|by apply Hb].
  - rewrite IH2, (elem_of_cons l2 x b). split; [tauto|]. intros [Hin [->|Hx]]; [|done].
    destruct (Hlt _ _ E2). apply elem_of_cons in Hin as [->|Hin]; [reflexivity|by apply Ha].
  - rewrite !elem_of_cons, IH by done. rewrite (str_trichotomy _ _ E1 E2) in *. split; [tauto|]. intros [[->|Hx] [E|Hy]]; auto.
Qed.

Lemma sublist_StronglySorted {A} (R : relation A) l k : l `sublist_of` k -> StronglySorted R k -> StronglySorted R l.
Proof.
  induction 1 as [|x l k Hl IH|x l k Hl IH]; intros Hk; [done|..]; apply StronglySorted_inv in Hk as [Hk Hx]; [|by apply IH].
  constructor; [by apply IH|]. rewrite Forall_forall in *. intros y Hy. apply Hx. by eapply elem_of_sublist.
Qed.

(** [listServices] lists, in order, the services of the priorities that the
    service manager names, each as often as it does, and of these only the ones
    that can dump as protos when that is asked for. *)
Theorem listServices_spec {sys : System} h flags proto :
  let l := listServices h flags proto in
  StronglySorted str_le l /\
  (forall x, x ∈ l <-> x ∈ services h flags /\ (proto = true -> x ∈ services h DUMP_FLAG_PROTO)) /\
  (if proto then l `sublist_of` merge_sort str_le (services h flags) else l ≡ₚ services h flags).
Proof.
  pose proof (StronglySorted_merge_sort str_le (services h flags)) as H1.
  pose proof (StronglySorted_merge_sort str_le (services h DUMP_FLAG_PROTO)) as H2.
  pose proof (merge_sort_Permutation str_le) as P. unfold listServices. cbv zeta. destruct proto.
  - split; [by eapply sublist_StronglySorted, H1; apply set_intersection_sublist|]. split; [|apply set_intersection_sublist].
    intros x. rewrite set_intersection_elem, !P by done. naive_solver.
  - split; [done|]. split; [|apply P]. intros x. rewrite P. naive_solver.
Qed.

(** * One dump at a time

    The life of a dump, followed through the requests: a pipe, a thread that
    writes to it, polls of its other end, the end of the thread and the end of
    the pipe. *)

Inductive phase_of := Idle | Piped (service : str) | Running (service : str) | Stopped (service : str).

#[export] Instance phase_eq_dec : EqDecision phase_of.
Proof. solve_decision. Defined.

Definition next_phase (p : phase_of) (e : request * Z) : option phase_of :=
  match fst e, p with
  | MakePipe s, Idle => Some (if snd e =? 0 then Piped s else Idle)
  | DumpThread s _, Piped s' => if bool_decide (s = s') then Some (Running s) else None
  | PollFd (DumpPipe s) _, Running s' => if bool_decide (s = s') then Some p else None
  | JoinThread, Running s | DetachThread, Running s => Some (Stopped s)
  | Close (DumpPipe s), Stopped s' => if bool_decide (s = s') then Some Idle else None
  | (MakePipe _ | DumpThread _ _ | PollFd (DumpPipe _) _ | JoinThread | DetachThread | Close (DumpPipe _) | Terminate), _ => None
  | _, _ => Some p
  end.

Fixpoint phase (h : history) : option phase_of :=
  match h with [] => Some Idle | e :: h => p ← phase h; next_phase p e end%stdpp.

(** The services that were asked to dump, with their arguments, newest first. *)
Definition spawned (h : history) : list (str * list str) :=
  omap (fun e => match fst e with DumpThread s args => Some (s, args) | _ => None end) h.

(** Where a run is: the dump that is going on, what the object holds of it, and
    what has been asked for so far. *)
Definition at_ (p : phase_of) (sp : list (str * list str)) (s : state) : Prop :=
  phase (past s) = Some p /\ spawned (past s) = sp /\
  match p with
  | Running service => activeThread_ (work s) = true /\ redirectFd_ (work s) = Some (DumpPipe service)
  | _ => activeThread_ (work s) = false /\ redirectFd_ (work s) = None
  end.

Definition leads {A} (pre : state -> Prop) (m : D A) (post : A -> state -> Prop) : Prop :=
  forall s, pre s -> post (fst (m s)) (snd (m s)).

Lemma leads_bind {A B} pre mid post (m : D A) (f : A -> D B) :
  leads pre m mid -> (forall a, leads (mid a) (f a) post) -> leads pre (D_bind m f) post.
Proof. intros Hm Hf s Hs. rewrite D_bind_eq. by apply Hf, Hm. Qed.

Lemma leads_weaken {A} (pre pre' : state -> Prop) (post post' : A -> state -> Prop) (m : D A) :
  leads pre m post -> (forall s, pre' s -> pre s) -> (forall a s, post a s -> post' a s) -> leads pre' m post'.
Proof. intros H Hpre Hpost s Hs. by apply Hpost, H, Hpre. Qed.

(** A step that leaves the dump where it is. *)
Definition still p sp {A} (m : D A) : Prop := leads (at_ p sp) m (fun _ => at_ p sp).

Section Turns.
Context {sys : System}.

Lemma still_bind {A B} p sp (m : D A) (f : A -> D B) : still p sp m -> (forall a, still p sp (f a)) -> still p sp (D_bind m f).
Proof. apply leads_bind. Qed.

Lemma still_ret {A} p sp (a : A) : still p sp (mret a).
Proof. by intros s. Qed.

Lemma still_ask {A} p sp (q : history -> A) : still p sp (ask q).
Proof. by intros s. Qed.

Lemma still_req p sp r : (forall a, next_phase p (r, a) = Some p) -> (match r with DumpThread _ _ => False | _ => True end) -> still p sp (req r).
Proof.
  intros Hr Hd s (H1 & H2 & H3). split; [|split; [|done]]; cbn [snd req past phase]; [by rewrite H1; apply Hr|].
  unfold spawned in *. cbn. by destruct r.
Qed.

Lemma still_do p sp r : (forall a, next_phase p (r, a) = Some p) -> (match r with DumpThread _ _ => False | _ => True end) -> still p sp (do_ r).
Proof. intros Hr Hd. by apply still_bind; [apply still_req|intros a s]. Qed.

Lemma still_print p sp fd text : still p sp (do_ (Print fd text)).
Proof. by apply still_do. Qed.

Lemma still_when p sp b m : still p sp m -> still p sp (when_ b m).
Proof. intros H. destruct b; [done|apply still_ret]. Qed.

Hint Resolve still_ret still_ask still_print still_when : dump.

Ltac still_tac :=
  repeat match goal with
  | |- still _ _ (D_bind _ _) => apply still_bind; [|intros ?]
  | |- still _ _ (if ?b then _ else _) => destruct b
  | |- still _ _ (let '(_, _) := ?x in _) => destruct x
  | |- still _ _ _ => solve [auto with dump]
  end.

Lemma still_poll service sp ms : still (Running service) sp (req (PollFd (DumpPipe service) ms)).
Proof. apply still_req; [|done]. intros a. cbn. by rewrite bool_decide_eq_true_2. Qed.

Lemma still_write p sp fd text : still p sp (req (Print fd text)).
Proof. by apply still_req. Qed.
Hint Resolve still_poll still_write : dump.

Lemma relay_still service sp fd end_ns chunks e n : still (Running service) sp (relay fd (DumpPipe service) end_ns chunks e n).
Proof. revert n. induction chunks as [|c chunks IH]; intros n; cbn [relay]; still_tac. Qed.
Hint Resolve relay_still : dump.

Lemma writeDump_still service sp fd ms proto : still (Running service) sp (writeDump fd service ms proto).
Proof.
  unfold writeDump. apply still_bind; [apply still_ask|]. intros start s Hs. rewrite D_bind_eq. cbn [get_work fst snd].
  rewrite (proj2 (proj2 (proj2 Hs))). revert s Hs. apply still_bind; [apply still_ask|]. intros [chunks e]. still_tac.
Qed.

(** A call that fails sets [errno]. *)
Definition pipes_set_errno : Prop :=
  forall h s, respond h (MakePipe s) <> 0 -> errno ((MakePipe s, respond h (MakePipe s)) :: h) <> 0.

(** What becomes of a service that is asked to dump when [h] has happened: it
    is there and gets a pipe and a thread, or it is not there, or there is no
    pipe. *)
Definition dumped (args : list str) (h : history) (service : str) (h' : history) : Prop :=
  service_there h service = true /\
  exists a k, respond h (MakePipe service) = 0 /\ h' = k ++ (DumpThread service args, a) :: (MakePipe service, 0) :: h.

Definition passed_over (h : history) (service : str) (h' : history) : Prop :=
  service_there h service = false /\ h' = h \/
  service_there h service = true /\ respond h (MakePipe service) <> 0 /\ h' = (MakePipe service, respond h (MakePipe service)) :: h.

(** The services of a list, one after the other; the ones that were dumped. *)
Inductive asked (args : list str) : history -> list str -> list str -> history -> Prop :=
| asked_all h : asked args h [] [] h
| asked_dumped h service h' rest served h'' :
    dumped args h service h' -> asked args h' rest served h'' -> asked args h (service :: rest) (service :: served) h''
| asked_passed_over h service h' rest served h'' :
    passed_over h service h' -> asked args h' rest served h'' -> asked args h (service :: rest) served h''.

Definition adds_requests {A} (m : D A) : Prop := adds (fun _ => True) m.

Lemma startDumpThread_result service args sp s : pipes_set_errno -> at_ Idle sp s ->
  let '(r, s') := startDumpThread service args s in
  if r =? STATUS_OK then at_ (Running service) ((service, args) :: sp) s' /\ dumped args (past s) service (past s')
  else at_ Idle sp s' /\ passed_over (past s) service (past s').
Proof.
  intros He (H1 & H2 & H3 & H4). unfold startDumpThread. rewrite D_bind_eq. cbn [ask fst snd].
  destruct (service_there (past s) service) eqn:Eh; [|by split; [|left] ]. cbn [negb]. rewrite D_bind_eq. cbn [req fst snd].
  destruct (nz (respond (past s) (MakePipe service))) eqn:En.
  - rewrite D_bind_eq. cbn [ask fst snd mret D_ret past]. unfold nz in En. apply negb_true_iff, Z.eqb_neq in En.
    specialize (He _ _ En). destruct (Z.eqb_spec (- errno ((MakePipe service, respond (past s) (MakePipe service)) :: past s)) STATUS_OK) as [E|_]; [unfold STATUS_OK in E; lia|].
    split; [|by right]. split; [|split]; cbn; [rewrite H1; cbn; by rewrite (proj2 (Z.eqb_neq _ _) En)|done|done].
  - rewrite D_bind_eq. cbn [get_work fst snd work]. rewrite H3, H4. cbn.
    apply negb_false_iff, Z.eqb_eq in En. rewrite En. split.
    + split; [|split]; cbn; [|by unfold spawned in *; cbn; rewrite H2|done].
      rewrite H1. cbn. by rewrite bool_decide_eq_true_2.
    + split; [done|]. by eexists _, [].
Qed.

Lemma stopDumpThread_leads service complete sp : leads (at_ (Running service) sp) (stopDumpThread complete) (fun _ => at_ Idle sp).
Proof.
  intros s (H1 & H2 & H3 & H4). unfold stopDumpThread, do_. destruct complete; cbn; rewrite H4; cbn.
  all: split; [|split]; cbn; [|by unfold spawned in *; cbn; rewrite H2|done]; rewrite H1; cbn; by rewrite bool_decide_eq_true_2.
Qed.

(** The rest of a dump, to the end of its thread. *)
Lemma dump_service_rest o many service sp :
  leads (at_ (Running service) sp) (
    _ ← when_ many (writeDumpHeader Stdout service (priorityFlags o));
    '(status, elapsed, _) ← writeDump Stdout service (timeoutArgMs o) (asProto o);
    _ ← when_ (status =? TIMED_OUT)
          (do_ (Print Stdout (newline ++ lit "*** SERVICE '" ++ service ++ lit "' DUMP TIMEOUT (" ++ fmt_d (timeoutArgMs o) ++ lit "ms) EXPIRED ***" ++ newline ++ newline)));
    _ ← when_ many (writeDumpFooter Stdout service elapsed);
    stopDumpThread (status =? STATUS_OK))%dump (fun _ => at_ Idle sp).
Proof.
  eapply leads_bind; [by apply still_when, still_print|]. intros ?.
  eapply leads_bind; [apply writeDump_still|]. intros [[status elapsed] n].
  eapply leads_bind; [by apply still_when, still_print|]. intros ?.
  eapply leads_bind; [by apply still_when; unfold writeDumpFooter; still_tac|]. intros ?. apply stopDumpThread_leads.
Qed.

Lemma relay_adds fd from end_ns chunks e n : adds_requests (relay fd from end_ns chunks e n).
Proof. unfold adds_requests. revert n. induction chunks; intros n; cbn [relay]; adds_tac ltac:(exact I). Qed.
Hint Resolve relay_adds : dump.

Lemma dump_service_result o many args service sp s : pipes_set_errno -> at_ Idle sp s ->
  let s' := snd (dump_service o many args service s) in
  at_ Idle ((service, args) :: sp) s' /\ dumped args (past s) service (past s') \/ at_ Idle sp s' /\ passed_over (past s) service (past s').
Proof.
  intros He Hs. unfold dump_service. cbv zeta. rewrite D_bind_eq. pose proof (startDumpThread_result service args sp s He Hs) as Hr.
  destruct (startDumpThread service args s) as [r s1]. cbn [fst snd]. destruct (r =? STATUS_OK); [|by right]. left.
  destruct Hr as [Hat (Ht & a & k & Hp & E)]. split; [by apply dump_service_rest|]. split; [done|].
  match goal with |- context [past (snd (?m s1))] => assert (Hm : adds_requests m) end.
  { unfold adds_requests, writeDumpHeader, writeDump, writeDumpFooter, stopDumpThread. adds_tac ltac:(exact I). all: apply relay_adds. }
  destruct (Hm s1) as [_ (l & Hl & _)]. exists a, (l ++ k). split; [done|]. by rewrite Hl, E, <- app_assoc.
Qed.

Lemma each_service_result o many skipped args l sp s : pipes_set_errno -> at_ Idle sp s ->
  let s' := snd (each (fun x => if IsSkipped skipped x then mret tt else dump_service o many args x) l s) in
  exists served, at_ Idle (rev (map (fun x => (x, args)) served) ++ sp) s' /\
    asked args (past s) (filter (fun x => IsSkipped skipped x = false) l) served (past s').
Proof.
  intros He. revert sp s. induction l as [|x l IH]; intros sp s Hs; cbn [each]; cbv zeta; [exists []; split; [done|constructor]|].
  rewrite D_bind_eq, filter_cons. destruct (IsSkipped skipped x) eqn:Ex; cbn [mret D_ret snd].
  - rewrite decide_False by done. by apply IH.
  - rewrite decide_True by done. destruct (dump_service_result o many args x sp s He Hs) as [[Hat Hd]|[Hat Hd]]; destruct (IH _ _ Hat) as (served & H1 & H2).
    + exists (x :: served). split; [cbn [map rev]; by rewrite <- app_assoc|by eapply asked_dumped].
    + exists served. split; [done|by eapply asked_passed_over].
Qed.

Lemma print_list_still skipped l sp : still Idle sp (print_list skipped l).
Proof.
  unfold print_list. apply still_bind; [apply still_print|]. intros []. induction l as [|x l IH]; cbn [each]; [apply still_ret|].
  apply still_bind; [|by intros []]. still_tac.
Qed.
End Turns.

Definition prints (h h' : history) : Prop := exists l, h' = l ++ h /\ Forall (fun e => match fst e with Print Stdout _ => True | _ => False end) l.

Lemma print_list_prints {sys : System} many skipped found s : prints (past s) (past (snd (when_ many (print_list skipped found) s))).
Proof.
  assert (H : adds (fun r => match r with Print Stdout _ => True | _ => False end) (when_ many (print_list skipped found))).
  { unfold print_list. adds_tac ltac:(exact I). }
  apply H.
Qed.


(** ** An example *)

Definition two_services : state := fresh no_options false.


Lemma two_services_served :
  spawned (past (snd (run_dumps (sys := demo_system (fun _ => 0)) default_options [lit "b"] [lit "-a"] [lit "a"; lit "b"; lit "c"] two_services))) =
  [(lit "c", [lit "-a"]); (lit "a", [lit "-a"])].
Proof. vm_compute. reflexivity. Qed.
