(* ===== verification/DumpSections.v ===== *)
(** The sections of a bugreport, in the order of the code: dumps of services,
    stack traces, the files, commands and services of [dumpstate], and the short
    reports for telephony and Wi-Fi ([dumpstate.cpp]).

    [Prints] stands for the functions that only print: [show_wchan],
    [show_showtime], [do_dmesg], [dump_emmc_ecsd] and [DumpBlockStatFiles], whose
    measure of the devices is [worst_write_perf]. *)

From S2P Require Import Prelude CLib DumpProgress DumpSystem DumpCommands DumpZip Dumpsys.

Open Scope list_scope.
Open Scope Z_scope.

Section Sections.
Context {sys : System}.

Definition seq (l : list (D unit)) : D unit := each (fun m => m) l.

Definition print (text : str) : D unit := do_ (Print Stdout text).

Definition rule : str := lit "========================================================" ++ newline.
Definition banner (title : string) : D unit := print (rule ++ lit "== " ++ lit title ++ newline ++ rule).

(** [RETURN_IF_USER_DENIED_CONSENT], and a slow function between two of them. *)
Definition unless_denied (k : D RunStatus) : D RunStatus :=
  denied ← IsUserConsentDenied;
  if denied then mret USER_CONSENT_DENIED else k.

Definition slow (m : D unit) (k : D RunStatus) : D RunStatus := unless_denied (_ ← m; unless_denied k).

Definition ignored {A} (m : D A) : D unit := _ ← m; mret tt.

(** ** Dumps of services *)

(** Services one after another: until the consent is denied or the time is up,
    which ends the loop without an error. *)
Definition each_service (start timeout_ms : Z) (services : list str) (dump : str -> D unit) : D RunStatus :=
  r ← until (fun service =>
        denied ← IsUserConsentDenied;
        if denied then mret (Some USER_CONSENT_DENIED)
        else
          _ ← dump service;
          now ← ask nanotime;
          mret (if Z.quot (now - start) 1000000 >? timeout_ms then Some OK else None)) services;
  mret (default OK r).

(** A new object of the class [Dumpsys]. *)
Definition new_dumpsys : D unit := set_work (set_dumpsys false None).

Definition dump_text (title : string) (priority service_timeout_ms : Z) (service : str) : D unit :=
  status ← startDumpThread service (setServiceArgs [] false priority);
  '(status, size) ← (if status =? STATUS_OK then
                       _ ← writeDumpHeader Stdout service priority;
                       '(status, elapsed, bytes_written) ← writeDump Stdout service service_timeout_ms false;
                       _ ← writeDumpFooter Stdout service elapsed;
                       _ ← stopDumpThread (status =? STATUS_OK);
                       mret (status, i32 bytes_written)
                     else mret (status, -1));
  section_complete (lit title ++ lit " - " ++ service) status size.

Definition RunDumpsysTextByPriority (title : string) (priority timeout_ms service_timeout_ms : Z) : D RunStatus :=
  start ← ask nanotime;
  _ ← new_dumpsys;
  found ← ask (fun h => listServices h priority false);
  each_service start timeout_ms found (dump_text title priority service_timeout_ms).

Definition RunDumpsysText (title : string) (priority timeout_ms service_timeout_ms : Z) : D unit :=
  _ ← print (lit "------ " ++ lit title ++ lit " (/system/bin/dumpsys) ------" ++ newline);
  ignored (RunDumpsysTextByPriority title priority timeout_ms service_timeout_ms).

Definition RunDumpsysTextNormalPriority (title : string) (timeout_ms service_timeout_ms : Z) : D RunStatus :=
  _ ← print (lit "------ " ++ lit title ++ lit " (/system/bin/dumpsys) ------" ++ newline);
  _ ← ignored (RunDumpsysTextByPriority title DUMP_FLAG_PRIORITY_NORMAL timeout_ms service_timeout_ms);
  unless_denied (RunDumpsysTextByPriority title DUMP_FLAG_PRIORITY_DEFAULT timeout_ms service_timeout_ms).

Definition proto_path (service : str) (priority : Z) : str :=
  lit "proto/" ++ service ++
  (if priority =? DUMP_FLAG_PRIORITY_CRITICAL then lit "_CRITICAL" else if priority =? DUMP_FLAG_PRIORITY_HIGH then lit "_HIGH" else []) ++
  lit ".proto".

Definition dump_proto (priority service_timeout_ms : Z) (service : str) : D unit :=
  let path := proto_path service priority in
  status ← startDumpThread service (setServiceArgs [] true priority);
  status ← (if status =? STATUS_OK then
              getDumpFd ← get_work redirectFd_;
              status ← AddZipEntryFromFd path (default (DumpPipe service) getDumpFd) service_timeout_ms;
              _ ← stopDumpThread (status =? STATUS_OK);
              mret status
            else mret status);
  size ← ask compressed_size;
  section_complete path status (i32 size).

Definition RunDumpsysProto (priority timeout_ms service_timeout_ms : Z) : D RunStatus :=
  zipping ← IsZipping;
  if negb zipping then mret OK
  else
    _ ← new_dumpsys;
    start ← ask nanotime;
    found ← ask (fun h => listServices h priority true);
    each_service start timeout_ms found (dump_proto priority service_timeout_ms).

Definition RunDumpsysCritical : D RunStatus :=
  _ ← RunDumpsysText "DUMPSYS CRITICAL" DUMP_FLAG_PRIORITY_CRITICAL 5000 500;
  unless_denied (RunDumpsysProto DUMP_FLAG_PRIORITY_CRITICAL 5000 500).

Definition RunDumpsysHigh : D RunStatus :=
  _ ← RunDumpsysText "DUMPSYS HIGH" DUMP_FLAG_PRIORITY_HIGH 90000 30000;
  unless_denied (RunDumpsysProto DUMP_FLAG_PRIORITY_HIGH 5000 1000).

Definition RunDumpsysNormal : D RunStatus :=
  _ ← ignored (RunDumpsysTextNormalPriority "DUMPSYS" 90000 10000);
  unless_denied (RunDumpsysProto DUMP_FLAG_PRIORITY_NORMAL 90000 10000).

(** ** Stack traces *)

(** The processes whose stacks are dumped; after three failures in a row the
    daemon is taken for dead. *)
Fixpoint dump_stacks (fd : descriptor) (hal_pids : list Z) (timeout_failures : Z) (entries : list dirent) : D (option RunStatus) :=
  match entries with
  | [] => mret None
  | d :: rest =>
      denied ← IsUserConsentDenied;
      if denied then mret (Some USER_CONSENT_DENIED)
      else
        let pid := atoi (d_name d) in
        let next := dump_stacks fd hal_pids timeout_failures rest in
        if pid <=? 0 then next
        else
          exe ← ask (fun h => readlink h (lit "/proc/" ++ fmt_d pid ++ lit "/exe"));
          zygote ← ask (fun h => is_zygote h pid);
          match (match exe with
                 | None => None
                 | Some exe =>
                     if (exe =s? lit "/system/bin/app_process32") || (exe =s? lit "/system/bin/app_process64")
                     then if zygote then None else Some true
                     else if should_dump_native_traces exe || existsb (Z.eqb pid) hal_pids then Some false else None
                 end) with
          | None => next
          | Some java =>
              if timeout_failures =? 3 then
                _ ← do_ (Print fd (lit "ERROR: Too many stack dump failures, exiting." ++ newline)); mret None
              else
                start ← ask nanotime;
                ret ← req (Backtrace pid java (if java then 5 else 20) fd);
                if ret =? -1 then
                  _ ← do_ (Print fd (newline ++ lit "---- pid " ++ fmt_d pid ++ lit " at [unknown] ----" ++ newline ++
                                     lit "Dump failed, likely due to a timeout." ++ newline ++ lit "---- end " ++ fmt_d pid ++ lit " ----"));
                  dump_stacks fd hal_pids (timeout_failures + 1) rest
                else
                  text ← ask (fun h => lit "[dump " ++ (if java then lit "dalvik" else lit "native") ++ lit " stack " ++ fmt_d pid ++ lit ": " ++
                                       fmt_seconds 3 (nanotime h - start) ++ lit "s elapsed]" ++ newline);
                  _ ← do_ (Print fd text);
                  dump_stacks fd hal_pids 0 rest
          end
  end.

Definition DumpTraces : D RunStatus :=
  fd ← req (MakeTemp (lit "/data/anr/dumptrace_XXXXXX"));
  file_name ← ask temp_name;
  if fd <? 0 then mret OK
  else
    chmod_ret ← req (SetMode file_name 438);
    proc ← ask (fun h => directory h (lit "/proc"));
    status ← (match (if chmod_ret <? 0 then None else proc) with
              | None => mret OK
              | Some entries =>
                  hal_pids ← ask interesting_hal_pids;
                  stop ← dump_stacks (File file_name) hal_pids 0 entries;
                  match stop with
                  | Some status => mret status
                  | None =>
                      _ ← set_work (fun w => set_dumps (tombstone_data_ w) (anr_data_ w) (mount_points w) (Some file_name) w);
                      mret OK
                  end
              end);
    _ ← do_ (Close (File file_name));
    mret status.

Definition AddAnrTraceDir (add_to_zip : bool) (anr_traces_dir : str) : D unit :=
  traces ← get_work dump_traces_path;
  _ ← (match traces with
       | None => mret tt
       | Some path =>
           _ ← (if add_to_zip then ignored (AddZipEntry (ZIP_ROOT_DIR ++ anr_traces_dir ++ lit "/traces-just-now.txt") path)
                else ignored (DumpFile (lit "VM TRACES JUST NOW") path));
           do_ (Unlink path)
       end);
  anrs ← get_work anr_data_;
  match anrs with
  | [] => print (lit "*** NO ANRs to dump in /data/anr/" ++ newline ++ newline)
  | _ =>
      _ ← ignored (AddDumps (take 1 anrs) "VM TRACES AT LAST ANR" add_to_zip);
      ignored (AddDumps (if add_to_zip then drop 1 anrs else anrs) "HISTORICAL ANR" true)
  end.

Definition pad2 (n : Z) : str := (if n <? 10 then lit "0" else []) ++ fmt_d n.

(** The files up to the first number that is missing; the number is an [int]. *)
Definition slow_trace (dir : str) (i : Z) : D (Z + unit) :=
  let path := dir ++ lit "slow" ++ pad2 i ++ lit ".txt" in
  there ← ask (fun h => mtime h path);
  match there with
  | None => mret (inr tt)
  | Some _ => _ ← ignored (DumpFile (lit "VM TRACES WHEN SLOW") path); mret (inl (i + 1))
  end.

Definition slow_traces (dir : str) : D unit := ignored (repeat_until (2 ^ 31) (slow_trace dir) 0).

Definition VERSION_SPLIT_ANR : str := lit "3.0-dev-split-anr".
Definition VERSION_DEFAULT : str := lit "default".

Definition AddAnrTraceFiles : D unit :=
  zipping ← IsZipping;
  version ← get_run version_;
  let dir := lit "/data/anr" in
  _ ← AddAnrTraceDir (zipping && (version =s? VERSION_SPLIT_ANR)) dir;
  _ ← run_command "ANR FILES" ["ls"; "-lt"; "/data/anr/"] DEFAULT;
  slow_traces dir.

(** ** Parts of the report *)

Definition dump_dev_files (title driverpath filename : string) : D unit :=
  entries ← ask (fun h => directory h (lit driverpath));
  match entries with
  | None => mret tt
  | Some entries =>
      each (fun d => when_ (d_is_link d)
        (ignored (DumpFile (lit title) (lit driverpath ++ slash :: d_name d ++ slash :: lit filename)))) entries
  end.

(** The process whose command line has the name. *)
Definition GetPidByName (ps_name : str) : D Z :=
  entries ← ask (fun h => directory h (lit "/proc"));
  match entries with
  | None => mret (-1)
  | Some entries =>
      found ← until (fun d =>
        let pid := u32 (atoi (d_name d)) in
        if pid =? 0 then mret None
        else
          cmdline ← ask (fun h => default [] (file_text h (lit "/proc/" ++ d_name d ++ lit "/cmdline")));
          mret (if has_substr ps_name cmdline then Some (i32 pid) else None)) entries;
      mret (default (-1) found)
  end.

(** Waits for a change of the time of a directory: whether there was none. *)
Fixpoint await_change (retry : nat) (path : str) (old_mtime : Z) : D bool :=
  match retry with
  | O => mret true
  | S retry =>
      _ ← do_ (Sleep 1000);
      now ← ask (fun h => default old_mtime (mtime h path));
      if now =? old_mtime then await_change retry path old_mtime else mret false
  end.

(** The file that was changed last, after the time [0], and when; [None]: its
    name is written past the end of [buf], which has 50 characters. *)
Definition newest (h : history) (dir : str) (entries : list dirent) : option (Z * str) :=
  fold_left (fun best d =>
    match best with
    | None => None
    | Some (max_ctime, name) =>
        if is_dots (d_name d) then best
        else match ctime h (dir ++ d_name d) with
             | Some t =>
                 if t >? max_ctime then if (50 <=? length (d_name d))%nat then None else Some (t, d_name d) else best
             | None => best
             end
    end) entries (Some (0, [])).

(** [None], too, where the directory cannot be opened: [readdir] gets a null
    pointer. *)
Definition newest_trace (h : history) : option (Z * str) :=
  match directory h (lit "/data/misc/anrd/") with
  | Some entries => newest h (lit "/data/misc/anrd/") entries
  | None => None
  end.

(** A look at a file that grew to [cur_size]: it is complete when it has not
    grown since. *)
Definition growing (path : str) (cur_size : Z) : D (Z + bool) :=
  _ ← do_ (Sleep 1000);
  size ← ask (fun h => file_size h path);
  mret match size with
       | None => inr false
       | Some size => if size =? cur_size then inr true else if size >? cur_size then inl size else inr false
       end.

(** A process that was not found is the unsigned [-1], and is signalled. A size
    is an [off_t]. *)
(** Wait until the trace is complete and add it. *)
Definition add_trace (path : str) : D unit :=
  complete ← repeat_until (2 ^ 63) (growing path) 0;
  match complete with
  | inr true => added ← AddZipEntry (lit "anrd_trace.txt") path; when_ added (do_ (Unlink path))
  | _ => mret tt
  end.

(** Whether the process is alive after it; its result is not looked at. *)
Definition dump_anrd_trace : D bool :=
  zipping ← IsZipping;
  if negb zipping then mret true
  else
    pid ← GetPidByName (lit "/system/bin/anrd");
    let pid := u32 pid in
    if pid =? 0 then mret true
    else
      let trace_path := lit "/data/misc/anrd/" in
      before ← ask (fun h => mtime h trace_path);
      match before with
      | None => mret true
      | Some old_mtime =>
          r ← RunCommand (lit "ANRD_DUMP") [lit "kill"; lit "-SIGUSR1"; fmt_d pid] (WithTimeout 1);
          if nz r then mret true
          else
            same ← await_change 5 trace_path old_mtime;
            if same then mret true
            else
              found ← ask newest_trace;
              match found with
              | None => mret false
              | Some (max_ctime, name) => _ ← when_ (max_ctime >? 0) (add_trace (trace_path ++ name)); mret true
              end
      end.

Definition logcat_timeout (h : history) (buffers : list string) : Z :=
  let perf := worst_write_perf h in
  let timeout_ms := foldl (fun ms b => u64 (ms + u64 (10 * (log_buffer_size h (lit b) + perf)) / perf)) 0 buffers in
  Z.max timeout_ms 50000.

Definition logcat (title : string) (buffers : list string) (command : list string) : D unit :=
  timeout_ms ← ask (fun h => logcat_timeout h buffers);
  run_command title command (WithTimeoutInMs timeout_ms).

Definition DoKernelLogcat : D unit :=
  logcat "KERNEL LOG" ["kernel"]%string ["logcat"; "-b"; "kernel"; "-v"; "threadtime"; "-v"; "printable"; "-v"; "uid"; "-d"; "*:v"]%string.

Definition DoLogcat : D unit := seq [
  logcat "SYSTEM LOG" ["main"; "system"; "crash"] ["logcat"; "-v"; "threadtime"; "-v"; "printable"; "-v"; "uid"; "-d"; "*:v"];
  logcat "EVENT LOG" ["events"] ["logcat"; "-b"; "events"; "-v"; "threadtime"; "-v"; "printable"; "-v"; "uid"; "-d"; "*:v"];
  logcat "STATS LOG" ["stats"] ["logcat"; "-b"; "stats"; "-v"; "threadtime"; "-v"; "printable"; "-v"; "uid"; "-d"; "*:v"];
  logcat "RADIO LOG" ["radio"] ["logcat"; "-b"; "radio"; "-v"; "threadtime"; "-v"; "printable"; "-v"; "uid"; "-d"; "*:v"];
  run_command "LOG STATISTICS" ["logcat"; "-b"; "all"; "-S"] DEFAULT;
  run_command "LAST LOGCAT" ["logcat"; "-L"; "-b"; "all"; "-v"; "threadtime"; "-v"; "printable"; "-v"; "uid"; "-d"; "*:v"] DEFAULT]%string.

Definition DoKmsg : D unit :=
  first ← ask (fun h => mtime h (lit "/sys/fs/pstore/console-ramoops"));
  second ← ask (fun h => mtime h (lit "/sys/fs/pstore/console-ramoops-0"));
  match first, second with
  | Some _, _ => dump_file "LAST KMSG" "/sys/fs/pstore/console-ramoops"
  | None, Some _ => dump_file "LAST KMSG" "/sys/fs/pstore/console-ramoops-0"
  | None, None => dump_file "LAST KMSG" "/proc/last_kmsg"
  end.

Definition DumpIpTablesAsRoot : D unit := seq [
  run_command "IPTABLES" ["iptables"; "-L"; "-nvx"] DEFAULT;
  run_command "IP6TABLES" ["ip6tables"; "-L"; "-nvx"] DEFAULT;
  run_command "IPTABLES NAT" ["iptables"; "-t"; "nat"; "-L"; "-nvx"] DEFAULT;
  run_command "IPTABLES MANGLE" ["iptables"; "-t"; "mangle"; "-L"; "-nvx"] DEFAULT;
  run_command "IP6TABLES MANGLE" ["ip6tables"; "-t"; "mangle"; "-L"; "-nvx"] DEFAULT;
  run_command "IPTABLES RAW" ["iptables"; "-t"; "raw"; "-L"; "-nvx"] DEFAULT;
  run_command "IP6TABLES RAW" ["ip6tables"; "-t"; "raw"; "-L"; "-nvx"] DEFAULT]%string.

Definition DumpPacketStats : D unit := seq [
  dump_file "NETWORK DEV INFO" "/proc/net/dev";
  dump_file "QTAGUID NETWORK INTERFACES INFO" "/proc/net/xt_qtaguid/iface_stat_all";
  dump_file "QTAGUID NETWORK INTERFACES INFO (xt)" "/proc/net/xt_qtaguid/iface_stat_fmt";
  dump_file "QTAGUID CTRL INFO" "/proc/net/xt_qtaguid/ctrl";
  dump_file "QTAGUID STATS INFO" "/proc/net/xt_qtaguid/stats"].

Definition DumpIpAddrAndRules : D unit := seq [
  run_command "NETWORK INTERFACES" ["ip"; "link"] DEFAULT;
  run_command "IPv4 ADDRESSES" ["ip"; "-4"; "addr"; "show"] DEFAULT;
  run_command "IPv6 ADDRESSES" ["ip"; "-6"; "addr"; "show"] DEFAULT;
  run_command "IP RULES" ["ip"; "rule"; "show"] DEFAULT;
  run_command "IP RULES v6" ["ip"; "-6"; "rule"; "show"] DEFAULT]%string.

(** A word of [fscanf]: up to ten characters; the rest of a longer one counts as
    the word that is skipped. *)
Fixpoint skip_white (s : str) : str := match s with c :: r => if is_space c then skip_white r else s | [] => [] end.
Fixpoint take_word (n : nat) (s : str) : str * str :=
  match n, s with
  | S n, c :: r => if is_space c then ([], s) else let '(w, rest) := take_word n r in (c :: w, rest)
  | _, _ => ([], s)
  end.

Fixpoint route_tables (n : nat) (text : str) : list str :=
  match n with
  | O => []
  | S n =>
      let '(table, rest) := take_word 10 (skip_white text) in
      match table with [] => [] | _ => table :: route_tables n (snd (take_word (length rest) (skip_white rest))) end
  end.

Definition dump_route_tables : D unit :=
  dry ← IsDryRun;
  if dry then mret tt
  else
    _ ← dump_file "RT_TABLES" "/data/misc/net/rt_tables";
    text ← ask (fun h => file_text h (lit "/data/misc/net/rt_tables"));
    match text with
    | None =>
        reason ← ask (fun h => strerror (errno h));
        print (lit "*** /data/misc/net/rt_tables: " ++ reason ++ newline)
    | Some text =>
        each (fun table =>
          _ ← ignored (RunCommand (lit "ROUTE TABLE IPv4") (map lit ["ip"; "-4"; "route"; "show"; "table"]%string ++ [table]) DEFAULT);
          ignored (RunCommand (lit "ROUTE TABLE IPv6") (map lit ["ip"; "-6"; "route"; "show"; "table"]%string ++ [table]) DEFAULT))
          (route_tables 64 text)
    end.

Definition do_dmesg : D unit :=
  _ ← print (lit "------ KERNEL LOG (dmesg) ------" ++ newline);
  dry ← IsDryRun;
  if dry then mret tt else do_ (Prints (lit "klogctl") 0).

(** The characters that a file name keeps of an interface. *)
Definition clean_char (c : ascii) : ascii :=
  if is_word c && negb (Ascii.eqb c "_") || existsb (Ascii.eqb c) (lit "@-_:.") then c else "_"%char.

Definition DumpHals : D unit :=
  zipping ← IsZipping;
  options ← AsRootIfAvailable (WithTimeout 10);
  if negb zipping then run_command "HARDWARE HALS" ["lshal"; "-lVSietrpc"; "--types=b,c,l,z"; "--debug"]%string options
  else
    _ ← run_command "HARDWARE HALS" ["lshal"; "-lVSietrpc"; "--types=b,c,l,z"]%string options;
    interfaces ← ask hals;
    dir ← get_run bugreport_internal_dir_;
    each (fun interface =>
      let cleanName := map clean_char interface in
      let path := dir ++ lit "/lshal_debug_" ++ cleanName in
      fd ← req (Open path true);
      if fd <? 0 then mret tt
      else
        options ← AsRootIfAvailable (WithTimeout 2);
        _ ← ignored (RunCommandToFd (File path) [] [lit "lshal"; lit "debug"; lit "-E"; interface] options);
        size ← ask (fun h => file_size h path);
        _ ← when_ (negb (bool_decide (size = Some 0))) (ignored (AddZipEntry (lit "lshal-debug/" ++ cleanName ++ lit ".txt") path));
        _ ← do_ (Close (File path));
        do_ (Unlink path)) (default [] interfaces).

Definition kDumpstateBoardFiles : list str := [lit "dumpstate_board.txt"; lit "dumpstate_board.bin"].

(** The device's own dump, through a HAL that is given 30 seconds, and 10 more to
    die; the files are removed in any case, the last one first. *)
Definition DumpstateBoard : D unit :=
  _ ← banner "Board";
  zipping ← IsZipping;
  if negb zipping then mret tt
  else
    dir ← get_run bugreport_internal_dir_;
    let paths := map (fun f => dir ++ slash :: f) kDumpstateBoardFiles in
    hal ← ask dumpstate_hal;
    _ ← when_ hal (
          failed ← until (fun path => fd ← req (Open path true); mret (if fd <? 0 then Some tt else None)) paths;
          match failed with
          | Some _ => mret tt
          | None =>
              late ← req (DumpstateBoardHal (map File paths));
              _ ← when_ (nz late) (do_ (SetProperty (lit "ctl.interface_restart") (lit "android.hardware.dumpstate@1.0::IDumpstateDevice/default")));
              sizes ← ask (fun h => map (file_size h) paths);
              _ ← each (fun '(file, path, size) =>
                    match size with
                    | None | Some 0 => mret tt
                    | Some _ => ignored (AddZipEntry file path)
                    end) (zip (zip kDumpstateBoardFiles paths) sizes);
              _ ← print (lit "*** See dumpstate-board.txt entry ***" ++ newline);
              each (fun path => do_ (Close (File path))) paths
          end);
    each (fun path => do_ (Unlink path)) (rev paths).

(** ** The report *)

Definition DUMPSYS_COMPONENTS_OPTIONS : CommandOptions := WithTimeout 60.

(** The last part: services of the framework and what applications say. *)
Definition dumpstate_services : D RunStatus :=
  slow (ignored RunDumpsysNormal) (
  _ ← banner "Checkins";
  _ ← run_dumpsys "CHECKIN BATTERYSTATS" ["batterystats"; "-c"]%string;
  slow (run_dumpsys "CHECKIN MEMINFO" ["meminfo"; "--checkin"]%string) (
  _ ← seq [
    run_dumpsys "CHECKIN NETSTATS" ["netstats"; "--checkin"];
    run_dumpsys "CHECKIN PROCSTATS" ["procstats"; "-c"];
    run_dumpsys "CHECKIN USAGESTATS" ["usagestats"; "-c"];
    run_dumpsys "CHECKIN PACKAGE" ["package"; "--checkin"];
    banner "Running Application Activities";
    RunDumpsys "APP ACTIVITIES" ["activity"; "-v"; "all"] DUMPSYS_COMPONENTS_OPTIONS 0;
    banner "Running Application Services (platform)";
    RunDumpsys "APP SERVICES PLATFORM" ["activity"; "service"; "all-platform-non-critical"] DUMPSYS_COMPONENTS_OPTIONS 0;
    banner "Running Application Services (non-platform)";
    RunDumpsys "APP SERVICES NON-PLATFORM" ["activity"; "service"; "all-non-platform"] DUMPSYS_COMPONENTS_OPTIONS 0;
    banner "Running Application Providers (platform)";
    RunDumpsys "APP PROVIDERS PLATFORM" ["activity"; "provider"; "all-platform"] DUMPSYS_COMPONENTS_OPTIONS 0;
    banner "Running Application Providers (non-platform)";
    RunDumpsys "APP PROVIDERS NON-PLATFORM" ["activity"; "provider"; "all-non-platform"] DUMPSYS_COMPONENTS_OPTIONS 0;
    banner "Dropbox crashes";
    run_dumpsys "DROPBOX SYSTEM SERVER CRASHES" ["dropbox"; "-p"; "system_server_crash"];
    run_dumpsys "DROPBOX SYSTEM APP CRASHES" ["dropbox"; "-p"; "system_app_crash"]]%string;
  '(id, pid) ← get_run (fun r => (id_ r, pid_ r));
  p ← get_work progress;
  let '(value, max, initial) := match p with Some p => (progress_ p, max_ p, initial_max_ p) | None => (0, 0, 0) end in
  _ ← print (rule ++ lit "== Final progress (pid " ++ fmt_d pid ++ lit "): " ++ fmt_d value ++ slash :: fmt_d max ++
             lit " (estimated " ++ fmt_d initial ++ lit ")" ++ newline ++ rule ++
             lit "== dumpstate: done (id " ++ fmt_d (i32 id) ++ lit ")" ++ newline ++ rule);
  _ ← banner "Obtaining statsd metadata";
  _ ← run_dumpsys "STATSDSTATS" ["stats"; "--metadata"]%string;
  mret OK)).

(** Traces, tombstones, the network and the binder driver. *)
Definition dumpstate_system : D RunStatus :=
  tombstones ← get_work tombstone_data_;
  tombstones_dumped ← AddDumps tombstones "TOMBSTONE" true;
  _ ← when_ (negb tombstones_dumped) (print (lit "*** NO TOMBSTONES to dump in /data/tombstones/" ++ newline ++ newline));
  _ ← seq [
    DumpPacketStats;
    run_dumpsys "EBPF MAP STATS" ["netd"; "trafficcontroller"];
    DoKmsg; DumpIpAddrAndRules; dump_route_tables;
    run_command "ARP CACHE" ["ip"; "-4"; "neigh"; "show"] DEFAULT;
    run_command "IPv6 ND CACHE" ["ip"; "-6"; "neigh"; "show"] DEFAULT;
    run_command "MULTICAST ADDRESSES" ["ip"; "maddr"] DEFAULT]%string;
  slow (ignored RunDumpsysHigh) (
  _ ← seq [
    run_command "SYSTEM PROPERTIES" ["getprop"] DEFAULT;
    run_command "STORAGED IO INFO" ["storaged"; "-u"; "-p"] DEFAULT;
    run_command "FILESYSTEMS & FREE SPACE" ["df"] DEFAULT;
    run_command "LAST RADIO LOG" ["parse_radio_log"; "/proc/last_radio_log"] DEFAULT;
    dump_file "BINDER FAILED TRANSACTION LOG" "/sys/kernel/debug/binder/failed_transaction_log";
    dump_file "BINDER TRANSACTION LOG" "/sys/kernel/debug/binder/transaction_log";
    dump_file "BINDER TRANSACTIONS" "/sys/kernel/debug/binder/transactions";
    dump_file "BINDER STATS" "/sys/kernel/debug/binder/stats";
    dump_file "BINDER STATE" "/sys/kernel/debug/binder/state";
    run_dumpsys "WINSCOPE TRACE" ["window"; "trace"]]%string;
  user ← IsUserBuild;
  _ ← when_ (negb user) (AddDir "/data/misc/wmtrace" false);
  slow DumpstateBoard (
  rilDumpstateTimeout ← ask (fun h => int_property h (lit "ril.dumpstate.timeout"));
  _ ← when_ (rilDumpstateTimeout >? 0) (
        user ← IsUserBuild;
        let options := WithTimeout rilDumpstateTimeout in
        options ← (if user then mret options else AsRoot options);
        run_command "DUMP VENDOR RIL LOGS" ["vril-dump"]%string options);
  _ ← banner "Android Framework Services";
  dumpstate_services)).

(** The sections of the default report that do not need root. *)
Definition dumpstate : D RunStatus :=
  _ ← seq [
    dump_dev_files "TRUSTY VERSION" "/sys/bus/platform/drivers/trusty" "trusty_version";
    run_command "UPTIME" ["uptime"] DEFAULT;
    do_ (Prints (lit "DUMP BLOCK STAT") 0);
    do_ (Prints (lit "/d/mmc0/mmc0:0001/ext_csd") 0);
    dump_file "MEMORY INFO" "/proc/meminfo";
    run_command "CPU INFO" ["top"; "-b"; "-n"; "1"; "-H"; "-s"; "6"; "-o"; "pid,tid,user,pr,ni,%cpu,s,virt,res,pcy,cmd,name"] DEFAULT]%string;
  as_root_20 ← AsRoot (WithTimeout 20);
  slow (run_command "PROCRANK" ["procrank"]%string as_root_20) (
  _ ← seq [
    dump_file "VIRTUAL MEMORY STATS" "/proc/vmstat";
    dump_file "VMALLOC INFO" "/proc/vmallocinfo";
    dump_file "SLAB INFO" "/proc/slabinfo";
    dump_file "ZONEINFO" "/proc/zoneinfo";
    dump_file "PAGETYPEINFO" "/proc/pagetypeinfo";
    dump_file "BUDDYINFO" "/proc/buddyinfo";
    dump_file "FRAGMENTATION INFO" "/d/extfrag/unusable_index";
    dump_file "KERNEL WAKE SOURCES" "/d/wakeup_sources";
    dump_file "KERNEL CPUFREQ" "/sys/devices/system/cpu/cpu0/cpufreq/stats/time_in_state";
    dump_file "KERNEL SYNC" "/d/sync";
    run_command "PROCESSES AND THREADS" ["ps"; "-A"; "-T"; "-Z"; "-O"; "pri,nice,rtprio,sched,pcy,time"] DEFAULT]%string;
  as_root ← AS_ROOT;
  slow (run_command "LIBRANK" ["librank"]%string as_root) (
  _ ← seq [
    DumpHals;
    run_command "PRINTENV" ["printenv"] DEFAULT;
    run_command "NETSTAT" ["netstat"; "-nW"] DEFAULT]%string;
  modules ← ask (fun h => mtime h (lit "/proc/modules"));
  _ ← when_ (bool_decide (is_Some modules)) (run_command "LSMOD" ["lsmod"]%string DEFAULT);
  kernel ← ask logd_kernel;
  _ ← (if kernel then DoKernelLogcat else do_dmesg);
  _ ← run_command "LIST OF OPEN FILES" ["lsof"]%string as_root;
  slow (for_each_pid (lit "SMAPS OF ALL PROCESSES") do_showmap) (
  _ ← for_each_tid (lit "BLOCKED PROCESS WAIT-CHANNELS") show_wchan;
  _ ← for_each_pid (lit "PROCESS TIMES (pid cmd user system iowait+percentage)") show_showtime;
  _ ← AddDir "/data/misc/bluetooth/logs" true;
  early ← get_run do_early_screenshot_;
  _ ← when_ (negb early) (TakeScreenshot []);
  _ ← DoLogcat;
  _ ← AddAnrTraceFiles;
  dumpstate_system))).

(** What follows the trace of [anrd]. *)
Definition default_report : D RunStatus :=
  slow (ignored RunDumpsysCritical) (
  slow (ignored DumpTraces) (
  zipping ← IsZipping;
  tombstones ← GetDumpFds "/data/tombstones/" "tombstone_" (negb zipping) true;
  _ ← set_work (fun w => set_dumps tombstones (anr_data_ w) (mount_points w) (dump_traces_path w) w);
  anrs ← GetDumpFds "/data/anr/" "anr_" (negb zipping) true;
  _ ← set_work (fun w => set_dumps (tombstone_data_ w) anrs (mount_points w) (dump_traces_path w) w);
  _ ← seq [
    AddDir "/cache/recovery" true;
    AddDir "/data/misc/recovery" true;
    AddDir "/data/misc/update_engine_log" true;
    AddDir "/data/misc/logd" false];
  user ← IsUserBuild;
  _ ← when_ (negb user) (seq [AddDir "/data/misc/profiles/cur" true; AddDir "/data/misc/profiles/ref" true]);
  _ ← seq [
    add_mountinfo; DumpIpTablesAsRoot;
    run_command "IP XFRM POLICY" ["ip"; "xfrm"; "policy"] (WithTimeout 10);
    dump_file "XFRM STATS" "/proc/net/xfrm_stat";
    run_command "DETAILED SOCKET STATE" ["ss"; "-eionptu"] (WithTimeout 10);
    run_command "IOTOP" ["iotop"; "-n"; "1"; "-m"; "100"] DEFAULT]%string;
  dmabuf ← ask (fun h => mtime h (lit "/product/bin/dmabuf_dump"));
  _ ← when_ (bool_decide (is_Some dmabuf)) (run_command "Dmabuf dump" ["/product/bin/dmabuf_dump"]%string DEFAULT);
  dropped ← DropRootUser;
  if negb dropped then mret ERROR else unless_denied dumpstate)).

(** [None]: the process has gone down. *)
Definition DumpstateDefault : D (option RunStatus) :=
  alive ← dump_anrd_trace;
  if alive : bool then status ← default_report; mret (Some status) else mret None.

(** What the short reports share; they stop when root cannot be given up. *)
Definition DumpstateRadioCommon : D unit :=
  _ ← DumpIpTablesAsRoot;
  _ ← AddDir "/data/misc/logd" false;
  dropped ← DropRootUser;
  when_ dropped (seq [
    do_dmesg; DoLogcat; DumpPacketStats; DoKmsg; DumpIpAddrAndRules; dump_route_tables; DumpHals;
    RunDumpsys "NETWORK DIAGNOSTICS" ["connectivity"; "--diag"]%string (WithTimeout 10) 0]).

Definition done_banner : D unit :=
  id ← get_run id_;
  print (rule ++ lit "== dumpstate: done (id " ++ fmt_d (i32 id) ++ lit ")" ++ newline ++ rule).

Definition DumpstateTelephonyOnly : D unit := seq [
  DumpstateRadioCommon;
  run_command "SYSTEM PROPERTIES" ["getprop"] DEFAULT;
  banner "Android Framework Services";
  RunDumpsys "DUMPSYS" ["connectivity"] (WithTimeout 90) 10000;
  RunDumpsys "DUMPSYS" ["connmetrics"] (WithTimeout 90) 10000;
  RunDumpsys "DUMPSYS" ["netd"] (WithTimeout 90) 10000;
  RunDumpsys "DUMPSYS" ["carrier_config"] (WithTimeout 90) 10000;
  RunDumpsys "DUMPSYS" ["wifi"] (WithTimeout 90) 10000;
  RunDumpsys "BATTERYSTATS" ["batterystats"] (WithTimeout 90) 10000;
  banner "Running Application Services";
  run_dumpsys "TELEPHONY SERVICES" ["activity"; "service"; "TelephonyDebugService"];
  banner "Running Application Services (non-platform)";
  RunDumpsys "APP SERVICES NON-PLATFORM" ["activity"; "service"; "all-non-platform"] DUMPSYS_COMPONENTS_OPTIONS 0;
  banner "Checkins";
  run_dumpsys "CHECKIN BATTERYSTATS" ["batterystats"; "-c"];
  done_banner]%string.

Definition DumpstateWifiOnly : D unit := seq [
  DumpstateRadioCommon;
  banner "Android Framework Services";
  RunDumpsys "DUMPSYS" ["connectivity"] (WithTimeout 90) 10000;
  RunDumpsys "DUMPSYS" ["wifi"] (WithTimeout 90) 10000;
  done_banner]%string.
End Sections.

(** * What sections ask for

    Nothing for the caller's descriptors, no line on the control socket but
    progress, and no last word to the listener. *)

Definition internal (d : descriptor) : Prop := match d with Control | Caller _ => False | _ => True end.

Definition section_request (r : request) : Prop :=
  match r with
  | Copy _ to => False
  | Print Control text => exists progress max, text = progress_text progress max
  | Print (Caller _) _ => False
  | Listener (onError _) | Listener onFinished => False
  | _ => True
  end.

Abbreviation sections := (adds section_request).

Ltac section_tac := adds_tac ltac:(idtac; first [exact I|done|by do 2 eexists|auto with dump]).

Section SectionRequests.
Context {sys : System}.

Lemma print_internal d text : internal d -> section_request (Print d text).
Proof. by destruct d. Qed.
Hint Resolve print_internal : dump.

Lemma sections_seq l : Forall sections l -> sections (seq l).
Proof. unfold seq. induction 1; [apply effects_ret, _|]. by apply effects_bind; [exact _|..]. Qed.

Lemma IsUserBuild_sections : sections IsUserBuild. Proof. unfold IsUserBuild. section_tac. Qed.
Lemma IsDryRun_sections : sections IsDryRun. Proof. unfold IsDryRun. section_tac. Qed.
Lemma IsUnroot_sections : sections IsUnroot. Proof. unfold IsUnroot. section_tac. Qed.
Hint Resolve IsUserBuild_sections IsDryRun_sections IsUnroot_sections : dump.
Lemma AsRoot_sections o : sections (AsRoot o). Proof. unfold AsRoot. section_tac. Qed.
Hint Resolve AsRoot_sections : dump.
Lemma AsRootIfAvailable_sections o : sections (AsRootIfAvailable o). Proof. unfold AsRootIfAvailable. section_tac. Qed.
Lemma UpdateProgress_sections d : sections (UpdateProgress d). Proof. unfold UpdateProgress, report_progress. section_tac. Qed.
Lemma DropRootUser_sections : sections DropRootUser. Proof. unfold DropRootUser. section_tac. Qed.
Lemma waitpid_sections pid ms : sections (waitpid_with_timeout pid ms). Proof. unfold waitpid_with_timeout, error_text. section_tac. Qed.
Lemma IsUserConsentDenied_sections : sections IsUserConsentDenied. Proof. unfold IsUserConsentDenied. section_tac. Qed.
Hint Resolve AsRootIfAvailable_sections UpdateProgress_sections DropRootUser_sections waitpid_sections IsUserConsentDenied_sections : dump.

Lemma kill_command_sections fd silent command pid : internal fd -> sections (kill_command fd silent command pid).
Proof. intros Hfd. unfold kill_command. section_tac. Qed.
Hint Resolve kill_command_sections : dump.

Lemma after_wait_sections fd silent command pid start w : internal fd -> sections (after_wait fd silent command pid start w).
Proof. intros Hfd. unfold after_wait. section_tac. Qed.
Hint Resolve after_wait_sections : dump.

Lemma RunCommandToFd_sections fd title argv o : internal fd -> sections (RunCommandToFd fd title argv o).
Proof. intros Hfd. unfold RunCommandToFd. section_tac. Qed.
Hint Resolve RunCommandToFd_sections : dump.

Lemma RunCommand_sections title argv o : sections (RunCommand title argv o).
Proof. unfold RunCommand. section_tac. by apply RunCommandToFd_sections. Qed.
Hint Resolve RunCommand_sections : dump.

Lemma run_command_sections title argv o : sections (run_command title argv o).
Proof. unfold run_command. section_tac. Qed.
Lemma RunDumpsys_sections title argv o ms : sections (RunDumpsys title argv o ms).
Proof. unfold RunDumpsys. section_tac. Qed.
Hint Resolve run_command_sections RunDumpsys_sections : dump.
Lemma run_dumpsys_sections title argv : sections (run_dumpsys title argv).
Proof. apply RunDumpsys_sections. Qed.
Lemma TakeScreenshot_sections path : sections (TakeScreenshot path).
Proof. unfold TakeScreenshot. section_tac. Qed.

Lemma print_chunks_sections path from to chunks err newline_ : internal to -> sections (print_chunks path from to chunks err newline_).
Proof. intros Hto. revert newline_. induction chunks; intros newline_; cbn [print_chunks]; section_tac. Qed.
Hint Resolve print_chunks_sections : dump.
Lemma DumpFileFromFdToFd_sections title path fd out dry : internal out -> sections (DumpFileFromFdToFd title path fd out dry).
Proof. intros Hout. unfold DumpFileFromFdToFd. section_tac. Qed.
Hint Resolve DumpFileFromFdToFd_sections : dump.
Lemma DumpFileToFd_sections out title path : internal out -> sections (DumpFileToFd out title path).
Proof. intros Hout. unfold DumpFileToFd. section_tac. Qed.
Lemma DumpFile_sections title path : sections (DumpFile title path).
Proof. unfold DumpFile. section_tac. by apply DumpFileToFd_sections. Qed.
Hint Resolve run_dumpsys_sections TakeScreenshot_sections DumpFile_sections : dump.
Lemma dump_file_sections title path : sections (dump_file title path).
Proof. unfold dump_file. section_tac. Qed.
Lemma dump_file_from_fd_sections title path fd : sections (dump_file_from_fd title path fd).
Proof. unfold dump_file_from_fd. section_tac. by apply DumpFileFromFdToFd_sections. Qed.
Hint Resolve dump_file_sections dump_file_from_fd_sections : dump.

Lemma dump_files_sections dir skip f : (forall path, sections (skip path)) -> (forall path, sections (f path)) -> sections (dump_files dir skip f).
Proof.
  intros Hs Hf. unfold dump_files. generalize max_depth. intros depth. revert dir.
  induction depth as [|depth IH]; intros dir; cbn [dump_files_at]; section_tac.
Qed.

Lemma each_pid_sections header helper : (forall pid name, sections (helper pid name)) -> sections (each_pid header helper).
Proof. intros Hh. unfold each_pid. section_tac. Qed.
Hint Resolve each_pid_sections : dump.
Lemma for_each_pid_sections header f : (forall pid name, sections (f pid name)) -> sections (for_each_pid header f).
Proof. intros Hf. unfold for_each_pid. section_tac. Qed.
Lemma for_each_tid_sections header f : (forall pid tid name, sections (f pid tid name)) -> sections (for_each_tid header f).
Proof. intros Hf. unfold for_each_tid. section_tac. apply each_pid_sections. intros pid name. unfold for_each_tid_helper. section_tac. Qed.

Lemma do_showmap_sections pid name : sections (do_showmap pid name). Proof. unfold do_showmap, AS_ROOT. section_tac. Qed.
Lemma show_wchan_sections pid tid name : sections (show_wchan pid tid name). Proof. unfold show_wchan. section_tac. Qed.
Lemma show_showtime_sections pid name : sections (show_showtime pid name). Proof. unfold show_showtime. section_tac. Qed.
Lemma section_complete_sections title status size : sections (section_complete title status size).
Proof. unfold section_complete. section_tac. Qed.
Hint Resolve do_showmap_sections show_wchan_sections show_showtime_sections section_complete_sections : dump.

(** ** The archive *)

Lemma IsZipping_sections : sections IsZipping. Proof. apply effects_get_run, _. Qed.
Hint Resolve IsZipping_sections : dump.
Lemma add_chunks_sections fd ms end_ns chunks err : sections (add_chunks fd ms end_ns chunks err).
Proof. induction chunks; cbn [add_chunks]; unfold poll_entry; section_tac. Qed.
Hint Resolve add_chunks_sections : dump.
Lemma AddZipEntryFromFd_sections name fd ms : sections (AddZipEntryFromFd name fd ms).
Proof. unfold AddZipEntryFromFd. section_tac. Qed.
Hint Resolve AddZipEntryFromFd_sections : dump.
Lemma AddZipEntry_sections name path : sections (AddZipEntry name path).
Proof. unfold AddZipEntry. section_tac. Qed.
Lemma AddTextZipEntry_sections name text : sections (AddTextZipEntry name text).
Proof. unfold AddTextZipEntry. section_tac. Qed.
Hint Resolve AddZipEntry_sections AddTextZipEntry_sections : dump.
Lemma AddDir_sections dir recursive : sections (AddDir dir recursive).
Proof.
  unfold AddDir. section_tac. apply dump_files_sections; intros path; [|unfold add_file_from_fd; section_tac].
  destruct recursive; [apply effects_ret, _|apply effects_ask, _].
Qed.
Lemma find_dumps_sections dir prefix oldest entries : sections (find_dumps dir prefix oldest entries).
Proof. induction entries; cbn [find_dumps]; section_tac. Qed.
Hint Resolve AddDir_sections find_dumps_sections : dump.
Lemma GetDumpFds_sections dir prefix by_mtime by_count : sections (GetDumpFds dir prefix by_mtime by_count).
Proof. unfold GetDumpFds. section_tac. Qed.
Lemma AddDumps_sections dumps type add : sections (AddDumps dumps type add).
Proof. unfold AddDumps. section_tac. Qed.
Lemma add_mountinfo_sections : sections add_mountinfo.
Proof. unfold add_mountinfo. section_tac. apply for_each_pid_sections. intros pid name. unfold do_mountinfo. section_tac. Qed.
Hint Resolve GetDumpFds_sections AddDumps_sections add_mountinfo_sections : dump.

(** ** Services and traces *)

Lemma unless_denied_sections k : sections k -> sections (unless_denied k).
Proof. intros H. unfold unless_denied. section_tac. Qed.
Lemma slow_sections m k : sections m -> sections k -> sections (slow m k).
Proof. intros Hm Hk. unfold slow. apply unless_denied_sections. section_tac. by apply unless_denied_sections. Qed.
Lemma ignored_sections {A} (m : D A) : sections m -> sections (ignored m).
Proof. intros H. unfold ignored. section_tac. Qed.
Lemma print_sections text : sections (print text). Proof. unfold print. section_tac. Qed.
Lemma banner_sections title : sections (banner title). Proof. apply print_sections. Qed.
Lemma each_service_sections start ms services f : (forall service, sections (f service)) -> sections (each_service start ms services f).
Proof. intros Hf. unfold each_service. section_tac. Qed.
Hint Resolve unless_denied_sections slow_sections ignored_sections print_sections banner_sections each_service_sections : dump.

Lemma startDumpThread_sections service args : sections (startDumpThread service args).
Proof. unfold startDumpThread. section_tac. Qed.
Lemma stopDumpThread_sections complete : sections (stopDumpThread complete).
Proof. unfold stopDumpThread. destruct complete; section_tac. Qed.
Lemma new_dumpsys_sections : sections new_dumpsys.
Proof. unfold new_dumpsys. section_tac. Qed.
Lemma relay_sections fd from end_ns chunks e n : internal fd -> sections (relay fd from end_ns chunks e n).
Proof. intros Hfd. revert n. induction chunks; intros n; cbn [relay]; section_tac. Qed.
Hint Resolve startDumpThread_sections stopDumpThread_sections new_dumpsys_sections relay_sections : dump.
Lemma writeDump_sections fd service ms proto : internal fd -> sections (writeDump fd service ms proto).
Proof. intros Hfd. unfold writeDump. section_tac. Qed.
Lemma writeDumpHeader_sections fd service flags : internal fd -> sections (writeDumpHeader fd service flags).
Proof. intros Hfd. unfold writeDumpHeader. section_tac. Qed.
Lemma writeDumpFooter_sections fd service elapsed : internal fd -> sections (writeDumpFooter fd service elapsed).
Proof. intros Hfd. unfold writeDumpFooter. section_tac. Qed.
Lemma stdout_internal : internal Stdout. Proof. done. Qed.
Hint Resolve writeDump_sections writeDumpHeader_sections writeDumpFooter_sections stdout_internal : dump.
Lemma dump_text_sections title priority ms service : sections (dump_text title priority ms service).
Proof. unfold dump_text. section_tac. Qed.
Lemma dump_proto_sections priority ms service : sections (dump_proto priority ms service).
Proof. unfold dump_proto. section_tac. Qed.
Hint Resolve dump_text_sections dump_proto_sections : dump.
Lemma RunDumpsysTextByPriority_sections title priority ms service_ms : sections (RunDumpsysTextByPriority title priority ms service_ms).
Proof. unfold RunDumpsysTextByPriority. section_tac. Qed.
Hint Resolve RunDumpsysTextByPriority_sections : dump.
Lemma RunDumpsysText_sections title priority ms service_ms : sections (RunDumpsysText title priority ms service_ms).
Proof. unfold RunDumpsysText. section_tac. Qed.
Lemma RunDumpsysProto_sections priority ms service_ms : sections (RunDumpsysProto priority ms service_ms).
Proof. unfold RunDumpsysProto. section_tac. Qed.
Hint Resolve RunDumpsysText_sections RunDumpsysProto_sections : dump.
Lemma RunDumpsysCritical_sections : sections RunDumpsysCritical. Proof. unfold RunDumpsysCritical. section_tac. Qed.
Lemma RunDumpsysHigh_sections : sections RunDumpsysHigh. Proof. unfold RunDumpsysHigh. section_tac. Qed.
Lemma RunDumpsysNormal_sections : sections RunDumpsysNormal.
Proof. unfold RunDumpsysNormal, RunDumpsysTextNormalPriority. section_tac. apply ignored_sections. section_tac. Qed.

Lemma dump_stacks_sections fd pids n entries : internal fd -> sections (dump_stacks fd pids n entries).
Proof. intros Hfd. revert n. induction entries; intros n; cbn [dump_stacks]; section_tac. Qed.
Lemma DumpTraces_sections : sections DumpTraces.
Proof. unfold DumpTraces. section_tac. all: by apply dump_stacks_sections. Qed.
Lemma slow_trace_sections dir i : sections (slow_trace dir i).
Proof. unfold slow_trace. section_tac. Qed.
Lemma slow_traces_sections dir : sections (slow_traces dir).
Proof. unfold slow_traces, ignored. pose proof slow_trace_sections. section_tac. Qed.
Hint Resolve RunDumpsysCritical_sections RunDumpsysHigh_sections RunDumpsysNormal_sections DumpTraces_sections slow_traces_sections : dump.
Lemma AddAnrTraceFiles_sections : sections AddAnrTraceFiles.
Proof. unfold AddAnrTraceFiles, AddAnrTraceDir. section_tac. Qed.

Lemma dump_dev_files_sections title path file : sections (dump_dev_files title path file).
Proof. unfold dump_dev_files. section_tac. Qed.
Lemma await_change_sections n path t : sections (await_change n path t).
Proof. induction n; cbn [await_change]; section_tac. Qed.
Hint Resolve await_change_sections : dump.
Lemma dump_anrd_trace_sections : sections dump_anrd_trace.
Proof. unfold dump_anrd_trace, GetPidByName, add_trace, growing. section_tac. Qed.

(** The wait for a trace ends: sizes are 64 bits wide. *)
Lemma trace_wait_ends path s : (forall h n, file_size h path = Some n -> n < 2 ^ 63) ->
  exists b, fst (repeat_until (2 ^ 63) (growing path) 0 s) = inr b.
Proof.
  intros Hsize. destruct (repeat_until (2 ^ 63) (growing path) 0 s) as [[y|b] s'] eqn:E; [|by exists b].
  assert (Hf : forall x s y s', growing path x s = (inl y, s') -> x < y <= 2 ^ 63 - 1).
  { intros x s0 z s1. unfold growing. rewrite !D_bind_eq. cbn -[Z.pow]. destruct (file_size _ path) as [n|] eqn:En; [|done].
    apply Hsize in En. destruct (n =? x); [done|]. destruct (Z.gtb_spec n x); [|done]. intros [= <- _]. lia. }
  exfalso. pose proof (repeat_until_grows _ _ _ _ _ _ _ Hf E). lia.
Qed.
Hint Resolve AddAnrTraceFiles_sections dump_dev_files_sections dump_anrd_trace_sections : dump.

Ltac seq_tac := apply sections_seq; repeat (apply Forall_cons_2; [solve [auto with dump|section_tac]|]); apply Forall_nil_2.

Lemma logcat_sections title buffers command : sections (logcat title buffers command). Proof. unfold logcat. section_tac. Qed.
Hint Resolve logcat_sections : dump.
Lemma DoKernelLogcat_sections : sections DoKernelLogcat. Proof. apply logcat_sections. Qed.
Lemma DoLogcat_sections : sections DoLogcat. Proof. seq_tac. Qed.
Lemma DoKmsg_sections : sections DoKmsg. Proof. unfold DoKmsg. section_tac. Qed.
Lemma DumpIpTablesAsRoot_sections : sections DumpIpTablesAsRoot. Proof. seq_tac. Qed.
Lemma DumpPacketStats_sections : sections DumpPacketStats. Proof. seq_tac. Qed.
Lemma DumpIpAddrAndRules_sections : sections DumpIpAddrAndRules. Proof. seq_tac. Qed.
Lemma dump_route_tables_sections : sections dump_route_tables. Proof. unfold dump_route_tables. section_tac. Qed.
Lemma do_dmesg_sections : sections do_dmesg. Proof. unfold do_dmesg. section_tac. Qed.
Lemma DumpHals_sections : sections DumpHals.
Proof. unfold DumpHals. section_tac. Qed.
Lemma DumpstateBoard_sections : sections DumpstateBoard. Proof. unfold DumpstateBoard. section_tac. Qed.
Hint Resolve DoKernelLogcat_sections for_each_pid_sections for_each_tid_sections DoLogcat_sections DoKmsg_sections DumpIpTablesAsRoot_sections DumpPacketStats_sections DumpIpAddrAndRules_sections
  dump_route_tables_sections do_dmesg_sections DumpHals_sections DumpstateBoard_sections : dump.

(** ** The reports *)

Ltac report_tac :=
  repeat first
    [ match goal with |- sections (seq _) => seq_tac end
    | match goal with |- sections (slow _ _) => apply slow_sections end
    | progress section_tac ].

Lemma dumpstate_services_sections : sections dumpstate_services.
Proof. unfold dumpstate_services. report_tac. Qed.
Hint Resolve dumpstate_services_sections : dump.

Lemma dumpstate_system_sections : sections dumpstate_system.
Proof. unfold dumpstate_system. report_tac. Qed.
Hint Resolve dumpstate_system_sections : dump.

Lemma dumpstate_sections : sections dumpstate.
Proof. unfold dumpstate, AS_ROOT. report_tac. Qed.
Hint Resolve dumpstate_sections : dump.

Lemma default_report_sections : sections default_report.
Proof. unfold default_report. report_tac. Qed.
Hint Resolve default_report_sections : dump.
Lemma DumpstateDefault_sections : sections DumpstateDefault.
Proof. unfold DumpstateDefault. section_tac. Qed.

Lemma DumpstateRadioCommon_sections : sections DumpstateRadioCommon.
Proof. unfold DumpstateRadioCommon. report_tac. Qed.
Lemma done_banner_sections : sections done_banner. Proof. unfold done_banner. section_tac. Qed.
Hint Resolve DumpstateRadioCommon_sections done_banner_sections : dump.
Lemma DumpstateTelephonyOnly_sections : sections DumpstateTelephonyOnly. Proof. seq_tac. Qed.
Lemma DumpstateWifiOnly_sections : sections DumpstateWifiOnly. Proof. seq_tac. Qed.
End SectionRequests.

#[export] Hint Resolve IsZipping_sections IsUserConsentDenied_sections RunCommand_sections TakeScreenshot_sections AddZipEntry_sections
  AddTextZipEntry_sections DumpstateDefault_sections DumpstateTelephonyOnly_sections DumpstateWifiOnly_sections DumpstateBoard_sections
  DumpFileToFd_sections RunCommandToFd_sections UpdateProgress_sections IsDryRun_sections IsUserBuild_sections ignored_sections print_sections : dump.
#[export] Hint Extern 1 (internal _) => exact I : dump.
