(* ===== verification/DumpRun.v ===== *)
(** A run of [dumpstate], from its options to the last word to the listener:
    the files of the report, the consent of the user and the copy for the
    caller, the service that starts a run and the exit codes ([dumpstate.cpp],
    [DumpstateService.cpp], [main.cpp]). *)

From S2P Require Import Prelude CLib DumpProgress DumpSystem DumpOptions DumpCommands DumpZip Dumpsys DumpSections.

Open Scope list_scope.
Open Scope Z_scope.

(** * Updates of the state *)

(** Options and identity. *)
Definition set_identity (o : DumpOptions) (id : Z) (early control : bool) (version : str) (r : Run) : Run := {|
  options_ := o; id_ := id; pid_ := pid_ r; do_early_screenshot_ := early; control_socket_fd_ := control; version_ := version;
  now_ := now_ r; base_name_ := base_name_ r; name_ := name_ r; bugreport_internal_dir_ := bugreport_internal_dir_ r;
  tmp_path_ := tmp_path_ r; log_path_ := log_path_ r; path_ := path_ r; screenshot_path_ := screenshot_path_ r;
  zip_file := zip_file r; zip_writer_ := zip_writer_ r; listener_ := listener_ r; report_section_ := report_section_ r;
  consent_callback_ := consent_callback_ r |}.

Definition set_options (o : DumpOptions) (r : Run) : Run := set_identity o (id_ r) (do_early_screenshot_ r) (control_socket_fd_ r) (version_ r) r.

(** Names and paths. *)
Definition set_paths (base name dir tmp log path screenshot : str) (r : Run) : Run := {|
  options_ := options_ r; id_ := id_ r; pid_ := pid_ r; do_early_screenshot_ := do_early_screenshot_ r;
  control_socket_fd_ := control_socket_fd_ r; version_ := version_ r; now_ := now_ r; base_name_ := base; name_ := name;
  bugreport_internal_dir_ := dir; tmp_path_ := tmp; log_path_ := log; path_ := path; screenshot_path_ := screenshot;
  zip_file := zip_file r; zip_writer_ := zip_writer_ r; listener_ := listener_ r; report_section_ := report_section_ r;
  consent_callback_ := consent_callback_ r |}.

Definition set_path (path : str) (r : Run) : Run :=
  set_paths (base_name_ r) (name_ r) (bugreport_internal_dir_ r) (tmp_path_ r) (log_path_ r) path (screenshot_path_ r) r.
Definition set_name (name : str) (r : Run) : Run :=
  set_paths (base_name_ r) name (bugreport_internal_dir_ r) (tmp_path_ r) (log_path_ r) (path_ r) (screenshot_path_ r) r.
Definition set_screenshot (screenshot : str) (r : Run) : Run :=
  set_paths (base_name_ r) (name_ r) (bugreport_internal_dir_ r) (tmp_path_ r) (log_path_ r) (path_ r) screenshot r.

(** The archive, the listener and the consent. *)
Definition set_others (file writer listener report : bool) (consent : option Z) (r : Run) : Run := {|
  options_ := options_ r; id_ := id_ r; pid_ := pid_ r; do_early_screenshot_ := do_early_screenshot_ r;
  control_socket_fd_ := control_socket_fd_ r; version_ := version_ r; now_ := now_ r; base_name_ := base_name_ r; name_ := name_ r;
  bugreport_internal_dir_ := bugreport_internal_dir_ r; tmp_path_ := tmp_path_ r; log_path_ := log_path_ r; path_ := path_ r;
  screenshot_path_ := screenshot_path_ r; zip_file := file; zip_writer_ := writer; listener_ := listener;
  report_section_ := report; consent_callback_ := consent |}.

Definition GetPath (r : Run) (suffix : str) : str :=
  bugreport_internal_dir_ r ++ slash :: base_name_ r ++ lit "-" ++ name_ r ++ suffix.

Section Running.
Context {sys : System}.

Definition property_or (h : history) (key other : string) : str :=
  match property h (lit key) with [] => lit other | v => v end.

(** * Files *)

(** Names and paths, from the options and the properties of the device. *)
Definition prepare_names : D unit :=
  dir ← get_run bugreport_internal_dir_;
  link ← ask (fun h => readlink h dir);
  build_id ← ask (fun h => property_or h "ro.build.id" "UNKNOWN_BUILD");
  device_name ← ask (fun h => property_or h "ro.product.name" "UNKNOWN_DEVICE");
  set_run (fun r =>
    let o := options_ r in
    let base := lit "bugreport-" ++ device_name ++ lit "-" ++ build_id ++
                (if telephony_only o then lit "-telephony" else if wifi_only o then lit "-wifi" else []) in
    let name := if do_add_date o then fmt_date (now_ r) else lit "undated" in
    let r := set_paths base name (default dir link) (tmp_path_ r) (log_path_ r) (path_ r) (screenshot_path_ r) r in
    set_paths base name (bugreport_internal_dir_ r) (GetPath r (lit ".tmp"))
      (GetPath r (lit "-dumpstate_log-" ++ fmt_d (pid_ r) ++ lit ".txt")) (path_ r)
      (if do_fb o then GetPath r (lit ".png") else screenshot_path_ r) r).

Definition PrepareToWriteToFile : D unit :=
  _ ← prepare_names;
  zip ← get_run (fun r => do_zip_file (options_ r));
  if negb zip then mret tt
  else
    _ ← set_run (fun r => set_path (GetPath r (lit ".zip")) r);
    path ← get_run path_;
    _ ← create_parent_dirs path;
    opened ← req (ZipOpen path);
    _ ← set_run (fun r => set_others (negb (opened =? 0)) (negb (opened =? 0) || zip_writer_ r) (listener_ r) (report_section_ r) (consent_callback_ r) r);
    version ← get_run version_;
    _ ← AddTextZipEntry (lit "version.txt") version;
    mret tt.

(** Characters that a name from the properties may have. *)
Definition name_char (c : ascii) : bool := is_word c || Ascii.eqb c "-".
Definition valid_name (name : str) : bool := not_empty name && forallb name_char name.

(** The name that the user has chosen, and the screenshot with it. *)
Definition change_suffix : D unit :=
  pid ← get_run pid_;
  name ← ask (fun h => property h (lit "dumpstate." ++ fmt_d pid ++ lit ".name"));
  when_ (valid_name name) (
    _ ← set_run (set_name name);
    old ← get_run screenshot_path_;
    new ← get_run (fun r => GetPath r (lit ".png"));
    when_ (not_empty old) (
      r ← req (Rename old new);
      when_ (r =? 0) (set_run (set_screenshot new)))).

(** The file in its place: whether it is the archive. *)
Definition place_file : D bool :=
  _ ← change_suffix;
  zip ← get_run (fun r => do_zip_file (options_ r));
  finished ← (if zip then FinishZipFile else mret false);
  _ ← when_ finished (
        old ← get_run path_;
        new ← get_run (fun r => GetPath r (lit ".zip"));
        when_ (negb (old =s? new)) (
          r ← req (Rename old new);
          when_ (r =? 0) (set_run (set_path new))));
  _ ← when_ (negb finished) (
        _ ← set_run (fun r => set_path (GetPath r (lit ".txt")) r);
        '(tmp, path) ← get_run (fun r => (tmp_path_ r, path_ r));
        r ← req (Rename tmp path);
        when_ (negb (r =? 0)) (set_run (set_path [])));
  mret finished.

Definition FinalizeFile : D unit :=
  finished ← place_file;
  control ← get_run (fun r => use_control_socket (options_ r));
  '(log, path) ← get_run (fun r => (log_path_ r, path_ r));
  when_ control (do_ (Print Control (if finished then lit "OK:" ++ path ++ newline
                                     else lit "FAIL:could not create zip file, check " ++ log ++ lit " for more details" ++ newline))).

(** * Broadcasts *)

Definition SendBroadcast (action : string) (args : list str) : D unit :=
  ignored (RunCommand []
    (map lit ["/system/bin/cmd"; "activity"; "broadcast"; "--user"; "0"; "--receiver-foreground"; "--receiver-include-background"; "-a"; action]%string ++ args)
    (RedirectStderr (DropRoot (Always (WithTimeout 20))))).

Definition Vibrate (duration_ms : Z) : D unit :=
  ignored (RunCommand [] [lit "cmd"; lit "vibrator"; lit "vibrate"; fmt_d duration_ms; lit "dumpstate"] (Always (WithTimeout 10))).

Definition max_of (w : Work) : Z := match progress w with Some p => max_ p | None => 0 end.

(** [--ei key value] and [--es key value]. *)
Definition extra_int (key : string) (value : Z) : list str := [lit "--ei"; lit key; fmt_d value].
Definition extra_str (key : string) (value : str) : list str := [lit "--es"; lit key; value].

Definition IsFileEmpty (h : history) (path : str) : bool :=
  match file_size h path with Some n => n <=? 0 | None => true end.

(** [false]: the digest of the report cannot be made. [SHA256_file_hash] then
    returns a null pointer as a [std::string], and the process goes down. *)
Definition SendBugreportFinishedBroadcast : D bool :=
  r ← get_run (fun r => r);
  let o := options_ r in
  if negb (not_empty (path_ r)) then mret true
  else
    max ← get_work max_of;
    empty ← ask (fun h => IsFileEmpty h (screenshot_path_ r));
    let am_args :=
      [lit "--receiver-permission"; lit "android.permission.DUMP"] ++
      extra_int "android.intent.extra.ID" (id_ r) ++ extra_int "android.intent.extra.PID" (pid_ r) ++
      extra_int "android.intent.extra.MAX" max ++ extra_str "android.intent.extra.BUGREPORT" (path_ r) ++
      extra_str "android.intent.extra.DUMPSTATE_LOG" (log_path_ r) ++
      (if do_fb o && negb empty then extra_str "android.intent.extra.SCREENSHOT" (screenshot_path_ r) else []) ++
      (if not_empty (notification_title o) then
         extra_str "android.intent.extra.TITLE" (notification_title o) ++
         (if not_empty (notification_description o) then extra_str "android.intent.extra.DESCRIPTION" (notification_description o) else [])
       else []) in
    if is_remote_mode o then
      hash ← ask (fun h => sha256 h (path_ r));
      match hash with
      | None => mret false
      | Some hash =>
          _ ← SendBroadcast "com.android.internal.intent.action.REMOTE_BUGREPORT_FINISHED"
                (am_args ++ extra_str "android.intent.extra.REMOTE_BUGREPORT_HASH" hash);
          mret true
      end
    else _ ← SendBroadcast "com.android.internal.intent.action.BUGREPORT_FINISHED" am_args; mret true.

(** * Consent *)

Definition incidentcompanion : str := lit "incidentcompanion".

Definition CheckUserConsent (calling_uid : Z) (calling_package : str) : D unit :=
  start ← ask nanotime;
  _ ← set_run (fun r => set_others (zip_file r) (zip_writer_ r) (listener_ r) (report_section_ r) (Some start) r);
  there ← ask (fun h => service_there h incidentcompanion);
  when_ there (do_ (Authorize calling_uid calling_package)).

Definition consent_of (answer : Z) : ConsentResult := if answer =? 0 then APPROVED else if answer =? 1 then DENIED else UNAVAILABLE.

Definition getResult : D ConsentResult := r ← req Poll; mret (consent_of r).

Definition unlink (path : str) : D unit := do_ (Unlink path).

Definition CleanupFiles : D unit :=
  '(tmp, screenshot, path) ← get_run (fun r => (tmp_path_ r, screenshot_path_ r, path_ r));
  _ ← unlink tmp; _ ← unlink screenshot; unlink path.

Definition HandleUserConsentDenied : D RunStatus := _ ← CleanupFiles; mret USER_CONSENT_DENIED.

Definition CopyFileToFd (input_file : str) (out_fd : Z) : D bool :=
  in_fd ← req (Open input_file false);
  if (out_fd =? -1) || (in_fd =? -1) then mret false
  else
    copied ← req (Copy (File input_file) (Caller out_fd));
    _ ← do_ (Close (File input_file));
    mret (copied =? 1).

Definition USER_CONSENT_TIMEOUT_MS : Z := 30 * 1000.

(** The time that has passed is in nanoseconds, as the code has it. *)
Definition final_consent : D ConsentResult :=
  first ← getResult;
  match first with
  | UNAVAILABLE =>
      start ← get_run consent_callback_;
      elapsed_ms ← ask (fun h => u64 (nanotime h - default 0 start));
      _ ← when_ (elapsed_ms <? USER_CONSENT_TIMEOUT_MS) (do_ (Sleep ((USER_CONSENT_TIMEOUT_MS - elapsed_ms) / 1000 * 1000)));
      getResult
  | _ => mret first
  end.

Definition CopyBugreportIfUserConsented : D RunStatus :=
  consent_result ← final_consent;
  match consent_result with
  | DENIED => HandleUserConsentDenied
  | APPROVED =>
      '(path, fd) ← get_run (fun r => (path_ r, bugreport_fd (options_ r)));
      copy_succeeded ← CopyFileToFd path fd;
      _ ← when_ copy_succeeded (unlink path);
      mret (if copy_succeeded then OK else ERROR)
  | UNAVAILABLE => mret USER_CONSENT_TIMED_OUT
  end.

(** * A run *)

(** The first line of the command line of the kernel. *)
Definition first_line (cmdline : str) : str :=
  match until_char [10; 0]%nat (take (Z.to_nat 16383) cmdline) with [] => lit "(null)" | line => line end.

Definition PrintHeader (cmdline : str) : D unit :=
  r ← get_run (fun r => r);
  let value key label := ask (fun h => lit label ++ property_or h key "(unknown)" ++ newline) in
  build ← value "ro.build.display.id"%string "Build: "%string;
  fingerprint ← ask (fun h => lit "Build fingerprint: '" ++ property_or h "ro.build.fingerprint" "(unknown)" ++ lit "'" ++ newline);
  bootloader ← value "ro.bootloader"%string "Bootloader: "%string;
  radio ← value "gsm.version.baseband"%string "Radio: "%string;
  network ← value "gsm.operator.alpha"%string "Network: "%string;
  _ ← print (rule ++ lit "== dumpstate: " ++ fmt_time (now_ r) ++ newline ++ rule ++ newline ++ build ++ fingerprint ++ bootloader ++ radio ++ network);
  _ ← do_ (Prints (lit "Module Metadata version") 0);
  _ ← print (lit "Kernel: ");
  _ ← ignored (DumpFileToFd Stdout [] (lit "/proc/version"));
  _ ← print (lit "Command line: " ++ first_line cmdline ++ newline ++ lit "Uptime: ");
  _ ← ignored (RunCommandToFd Stdout [] [lit "uptime"; lit "-p"] (Always (WithTimeout 1)));
  dry ← IsDryRun;
  print (lit "Bugreport format version: " ++ version_ r ++ newline ++
         lit "Dumpstate info: id=" ++ fmt_d (i32 (id_ r)) ++ lit " pid=" ++ fmt_d (pid_ r) ++ lit " dry_run=" ++ (if dry then lit "1" else lit "0") ++
         lit " args=" ++ args (options_ r) ++ lit " extra_options=" ++ extra_options (options_ r) ++ newline ++ newline).

(** High priority and protection from the OOM killer. *)
Definition protect : D unit :=
  r ← req (WriteFile (lit "/proc/self/oom_score_adj") (lit "-1000"));
  when_ (r =? -1) (do_ (WriteFile (lit "/proc/self/oom_adj") (lit "-17"))).

Definition PROPERTY_LAST_ID : str := lit "dumpstate.last_id".

(** The progress and the number of the run. *)
Definition begin_run (is_redirecting : bool) : D unit :=
  dir ← get_run bugreport_internal_dir_;
  let stats_path := if is_redirecting then dir ++ lit "/dumpstate-stats.txt" else [] in
  file ← ask (fun h => file_text h stats_path);
  _ ← set_work (fun w => set_progress (Some (new_progress stats_path file)) (last_updated_progress_ w) w);
  last_id ← ask (fun h => u32 (u32 (int_property h PROPERTY_LAST_ID) + 1));
  _ ← set_run (fun r => set_identity (options_ r) last_id (do_early_screenshot_ r) (control_socket_fd_ r) (version_ r) r);
  do_ (SetProperty PROPERTY_LAST_ID (fmt_d last_id)).

(** The sockets: [false] when one cannot be opened. *)
Definition open_sockets : D bool :=
  o ← get_run options_;
  _ ← set_run (fun r => set_identity (options_ r) (id_ r) (do_progress_updates o) (control_socket_fd_ r) (version_ r) r);
  redirected ← (if use_socket o then redirect_to_socket (lit "dumpstate") else mret true);
  if negb redirected then mret false
  else if use_control_socket o then
    opened ← open_socket (lit "dumpstate");
    if negb opened then mret false
    else
      _ ← set_run (fun r => set_identity
        (let o := options_ r in with_flags o (do_start_service o) (do_zip_file o) (do_vibrate o) (do_fb o) (do_broadcast o) (is_remote_mode o) true (telephony_only o) (wifi_only o))
        (id_ r) (do_early_screenshot_ r) true (version_ r) r);
      mret true
  else mret true.

(** The files, and who is told that the report begins. *)
Definition announce : D unit :=
  _ ← PrepareToWriteToFile;
  r ← get_run (fun r => r);
  let o := options_ r in
  when_ (do_progress_updates o) (
    max ← get_work max_of;
    _ ← when_ (do_broadcast o) (SendBroadcast "com.android.internal.intent.action.BUGREPORT_STARTED"
          ([lit "--receiver-permission"; lit "android.permission.DUMP"] ++ extra_str "android.intent.extra.NAME" (name_ r) ++
           extra_int "android.intent.extra.ID" (id_ r) ++ extra_int "android.intent.extra.PID" (pid_ r) ++
           extra_int "android.intent.extra.MAX" max));
    when_ (use_control_socket o) (do_ (Print Control (lit "BEGIN:" ++ path_ r ++ newline)))).

(** Standard error goes to the log and standard output to the temporary file;
    [false] when one cannot be opened. *)
Definition redirect_output : D bool :=
  '(log, tmp) ← get_run (fun r => (log_path_ r, tmp_path_ r));
  logged ← redirect_to_file Stderr log;
  if negb logged then mret false
  else
    _ ← do_ (Chown log);
    redirected ← redirect_to_file Stdout tmp;
    if negb redirected then mret false else _ ← do_ (Chown tmp); mret true.

(** Everything before the dump: a status when the run ends there. *)
Definition start_run (calling_uid : Z) (calling_package : str) : D (str + RunStatus) :=
  o ← get_run options_;
  if negb (ValidateOptions o) then mret (inr INVALID_INPUT)
  else
    _ ← protect;
    _ ← set_run (fun r => set_identity (options_ r) (id_ r) (do_early_screenshot_ r) (control_socket_fd_ r)
          (if version_ r =s? VERSION_DEFAULT then VERSION_CURRENT else version_ r) r);
    version ← get_run version_;
    if negb (version =s? VERSION_CURRENT) && negb (version =s? VERSION_SPLIT_ANR) then mret (inr INVALID_INPUT)
    else if show_header_only o then _ ← PrintHeader (lit "(unknown)"); mret (inr OK)
    else
      _ ← when_ (negb (bugreport_fd o =? -1)) (CheckUserConsent calling_uid calling_package);
      let is_redirecting := OutputToFile o in
      _ ← begin_run is_redirecting;
      _ ← when_ (do_start_service o) (do_ StartService);
      _ ← ignored IsDryRun;
      opened ← open_sockets;
      if negb opened then mret (inr ERROR)
      else
        _ ← when_ is_redirecting announce;
        cmdline ← ask (fun h => match file_text h (lit "/proc/cmdline") with Some (c :: l) => c :: l | _ => lit "(unknown)" end);
        _ ← when_ (do_vibrate o) (Vibrate 150);
        r ← get_run (fun r => r);
        _ ← when_ (do_fb o && do_early_screenshot_ r && not_empty (screenshot_path_ r)) (TakeScreenshot []);
        _ ← when_ (do_zip_file o && zip_file r) (do_ (Chown (path_ r)));
        redirected ← (if is_redirecting then redirect_output else mret true);
        mret (if redirected then inl cmdline else inr ERROR).

(** The dump: when the run ends there its status, or none where the process has
    gone down. *)
Definition dump_report (cmdline : str) : D (option (option RunStatus)) :=
  _ ← PrintHeader cmdline;
  o ← get_run options_;
  if telephony_only o then _ ← DumpstateTelephonyOnly; _ ← DumpstateBoard; mret None
  else if wifi_only o then _ ← DumpstateWifiOnly; mret None
  else
    s ← DumpstateDefault;
    match s with
    | Some OK => mret None
    | Some USER_CONSENT_TIMED_OUT => _ ← HandleUserConsentDenied; mret (Some s)
    | _ => mret (Some s)
    end.

(** What goes to the caller. *)
Definition copy_for_caller (o : DumpOptions) : D (option RunStatus) :=
  if bugreport_fd o =? -1 then mret None
  else
    status ← CopyBugreportIfUserConsented;
    match status with
    | OK | USER_CONSENT_TIMED_OUT =>
        _ ← when_ (do_fb o && negb (screenshot_fd o =? -1)) (
              screenshot ← get_run screenshot_path_;
              copy_succeeded ← CopyFileToFd screenshot (screenshot_fd o);
              when_ copy_succeeded (unlink screenshot));
        _ ← when_ (bool_decide (status = USER_CONSENT_TIMED_OUT)) (
              there ← ask (fun h => service_there h incidentcompanion);
              when_ there (do_ CancelAuthorization));
        mret None
    | _ => mret (Some status)
    end.

(** The final file, and its copy for the caller. *)
Definition share_report : D (option RunStatus) :=
  o ← get_run options_;
  _ ← when_ (OutputToFile o) (do_ (Restore Stdout));
  _ ← when_ (OutputToFile o) FinalizeFile;
  copy_for_caller o.

(** The statistics, what is still open, and the status. *)
Definition clean_up : D RunStatus :=
  r ← get_run (fun r => r);
  let o := options_ r in
  p ← get_work progress;
  _ ← (match p with
       | Some p => match Save p with Some content => do_ (WriteFile (pr_path_ p) content) | None => mret tt end
       | None => mret tt
       end);
  _ ← when_ (OutputToFile o) (do_ (Restore Stderr));
  _ ← when_ (use_control_socket o && control_socket_fd_ r) (do_ (Close Control));
  dumps ← get_work (fun w => tombstone_data_ w ++ anr_data_ w);
  _ ← each (fun d => do_ (Close (File (dd_name d)))) dumps;
  _ ← set_work (fun w => set_dumps [] [] (mount_points w) (dump_traces_path w) w);
  match consent_callback_ r with
  | None => mret OK
  | Some _ => last ← getResult; mret (match last with UNAVAILABLE => USER_CONSENT_TIMED_OUT | _ => OK end)
  end.

(** The end: who is told, and the rest; [None] when the process goes down. *)
Definition finish_run : D (option RunStatus) :=
  o ← get_run options_;
  _ ← when_ (do_vibrate o) (each (fun _ => _ ← Vibrate 75; do_ (Sleep 125)) [0; 1; 2]);
  alive ← (if do_broadcast o then SendBugreportFinishedBroadcast else mret true);
  if alive : bool then status ← clean_up; mret (Some status) else mret None.

(** [None]: the process has gone down. *)
Definition RunInternal (calling_uid : Z) (calling_package : str) : D (option RunStatus) :=
  started ← start_run calling_uid calling_package;
  match started with
  | inr status => mret (Some status)
  | inl cmdline =>
      dumped ← dump_report cmdline;
      match dumped with
      | Some ended => mret ended
      | None =>
          shared ← share_report;
          match shared with
          | Some status => mret (Some status)
          | None => finish_run
          end
      end
  end.

Definition BUGREPORT_ERROR_INVALID_INPUT : Z := 1.
Definition BUGREPORT_ERROR_RUNTIME_ERROR : Z := 2.
Definition BUGREPORT_ERROR_USER_DENIED_CONSENT : Z := 3.
Definition BUGREPORT_ERROR_USER_CONSENT_TIMED_OUT : Z := 4.
Definition BUGREPORT_ERROR_ANOTHER_REPORT_IN_PROGRESS : Z := 5.

(** What the listener is told of a status. *)
Definition final_callback (status : RunStatus) : option callback :=
  match status with
  | OK => Some onFinished
  | HELP => None
  | INVALID_INPUT => Some (onError BUGREPORT_ERROR_INVALID_INPUT)
  | ERROR => Some (onError BUGREPORT_ERROR_RUNTIME_ERROR)
  | USER_CONSENT_DENIED => Some (onError BUGREPORT_ERROR_USER_DENIED_CONSENT)
  | USER_CONSENT_TIMED_OUT => Some (onError BUGREPORT_ERROR_USER_CONSENT_TIMED_OUT)
  end.

(** What follows a run that has ended with a status. *)
Definition report_status (status : RunStatus) : D unit :=
  listener ← get_run listener_;
  when_ listener (match final_callback status with Some c => do_ (Listener c) | None => mret tt end).

Definition RunDump (calling_uid : Z) (calling_package : str) : D (option RunStatus) :=
  ended ← RunInternal calling_uid calling_package;
  match ended with
  | None => mret None
  | Some status => _ ← report_status status; mret (Some status)
  end.

(** * Starting a run *)

Definition ParseCommandlineAndRun (argv : list str) : D (option RunStatus) :=
  '(status, o) ← Initialize argv;
  match status with
  | OK => _ ← set_run (set_options o); RunDump (-1) []
  | _ => mret (Some status)
  end.

(** The exit code, and whether the usage is shown; [None]: it does not get there. *)
Definition run_main (argv : list str) : D (option (Z * bool)) :=
  ended ← ParseCommandlineAndRun argv;
  mret ((fun status => match status with
        | OK => (0, false)
        | HELP => (0, true)
        | INVALID_INPUT => (1, true)
        | ERROR | USER_CONSENT_DENIED | USER_CONSENT_TIMED_OUT => (2, false)
        end) <$> ended).

(** How a call to [startBugreport] ends: with an exception, in the exit of the
    process, or with a thread that runs and then exits, or takes the process with it
    before that ([Crashed]). *)
Inductive service_result := Refused | Exited | Started (status : RunStatus) | Crashed.

(** [in_progress] is [ds_ != nullptr], [thread_ok] that the thread could be made;
    the descriptors are duplicated. *)
Definition startBugreport (in_progress : bool) (calling_uid : Z) (calling_package : str) (bugreport screenshot mode : Z)
    (has_listener thread_ok : bool) : D service_result :=
  let fail code := _ ← do_ (Listener (onError code)); mret Exited in
  if in_progress then
    _ ← when_ has_listener (do_ (Listener (onError BUGREPORT_ERROR_ANOTHER_REPORT_IN_PROGRESS)));
    mret Refused
  else if negb has_listener then mret Exited
  else
    match mode_of mode with
    | None => fail BUGREPORT_ERROR_INVALID_INPUT
    | Some mode =>
        if (bugreport =? -1) || (screenshot =? -1) then fail BUGREPORT_ERROR_INVALID_INPUT
        else
          _ ← set_run (fun r =>
                let r := set_options (Initialize_mode mode bugreport screenshot) r in
                set_others (zip_file r) (zip_writer_ r) true (report_section_ r) (consent_callback_ r) r);
          if negb thread_ok then fail BUGREPORT_ERROR_RUNTIME_ERROR
          else ended ← RunDump calling_uid calling_package; mret (match ended with Some status => Started status | None => Crashed end)
    end.

(** [setListener], of the older interface: whether a token is returned, and
    whether [ds_] is set from then on. *)
Definition setListener (in_progress : bool) (name : str) (has_listener getSectionDetails : bool) : D (bool * bool) :=
  if negb (not_empty name) || negb has_listener then mret (false, in_progress)
  else
    taken ← get_run listener_;
    if taken then mret (false, true)
    else
      _ ← set_run (fun r => set_others (zip_file r) (zip_writer_ r) true getSectionDetails (consent_callback_ r) r);
      mret (true, true).
End Running.
