(* ===== verification/DumpSafety.v ===== *)
(** What a run of [dumpstate] shares and says: the report goes to the caller
    only after the user has agreed, the listener gets one last word, and the
    control socket one last line. *)

From S2P Require Import Prelude CLib DumpProgress DumpSystem DumpOptions DumpCommands DumpZip Dumpsys DumpSections DumpRun.

Open Scope list_scope.
Open Scope Z_scope.

(** * Quiet requests

    Nothing for the caller's descriptors and no last word. *)

Definition last_word (c : callback) : bool := match c with onError _ | onFinished => true | _ => false end.

Definition quiet (r : request) : Prop :=
  match r with
  | Copy _ (Caller _) | Print (Caller _) _ => False
  | Listener c => last_word c = false
  | _ => True
  end.

(** The caller's descriptors, the listener and the use of the sockets do not
    change. *)
Definition same_caller (r r' : Run) : Prop :=
  bugreport_fd (options_ r') = bugreport_fd (options_ r) /\ screenshot_fd (options_ r') = screenshot_fd (options_ r) /\
  listener_ r' = listener_ r /\ use_control_socket (options_ r') = use_control_socket (options_ r) /\
  use_socket (options_ r') = use_socket (options_ r).

#[export] Instance same_caller_preorder : PreOrder same_caller.
Proof. split; [done|]. intros r1 r2 r3 (? & ? & ? & ? & ?) (? & ? & ? & ? & ?). split_and!; congruence. Qed.

Section Quiet.
Context {sys : System}.

Abbreviation quietly := (effects same_caller quiet).

Lemma section_quiet q : section_request q -> quiet q.
Proof. destruct q; cbn; try done; repeat case_match; done. Qed.

Lemma sections_quietly {A} (m : D A) : sections m -> quietly m.
Proof. intros H. apply (effects_weaken (=) _ section_request _ _ H); [by intros r r' ->|exact section_quiet]. Qed.

Lemma create_parent_dirs_sections path : sections (create_parent_dirs path).
Proof. unfold create_parent_dirs. section_tac. Qed.
Hint Resolve create_parent_dirs_sections : dump.
Lemma redirect_file_sections stream path truncate : sections (redirect_file stream path truncate).
Proof. unfold redirect_file. section_tac. Qed.
Lemma open_socket_sections service : sections (open_socket service).
Proof. unfold open_socket. section_tac. Qed.
Hint Resolve redirect_file_sections open_socket_sections : dump.

Ltac quiet_tac :=
  repeat first
    [ progress adds_tac ltac:(idtac; first [exact I|done|auto with dump])
    | match goal with
      | |- effects _ _ (set_run _) => apply effects_set_run; intros ?; by split_and!
      | |- effects _ _ _ => solve [apply sections_quietly; first [solve [auto with dump]|section_tac]]
      end ].

Lemma FinishZipFile_quietly : quietly FinishZipFile.
Proof. unfold FinishZipFile, redirect_to_existing_file. quiet_tac.
Qed.
Lemma PrepareToWriteToFile_quietly : quietly PrepareToWriteToFile.
Proof. unfold PrepareToWriteToFile, prepare_names. quiet_tac. Qed.
Hint Resolve FinishZipFile_quietly PrepareToWriteToFile_quietly : dump.
Lemma place_file_quietly : quietly place_file.
Proof. unfold place_file, change_suffix. quiet_tac. Qed.
Hint Resolve place_file_quietly : dump.
Lemma FinalizeFile_quietly : quietly FinalizeFile.
Proof. unfold FinalizeFile. quiet_tac. Qed.
Hint Resolve FinalizeFile_quietly : dump.

Lemma SendBroadcast_sections action args : sections (SendBroadcast action args).
Proof. apply ignored_sections; auto with dump. Qed.
Lemma Vibrate_sections ms : sections (Vibrate ms).
Proof. apply ignored_sections; auto with dump. Qed.
Hint Resolve SendBroadcast_sections Vibrate_sections : dump.
Lemma SendBugreportFinishedBroadcast_sections : sections SendBugreportFinishedBroadcast.
Proof. unfold SendBugreportFinishedBroadcast. section_tac. Qed.
Lemma PrintHeader_sections cmdline : sections (PrintHeader cmdline).
Proof. unfold PrintHeader, print. section_tac. Qed.
Hint Resolve SendBugreportFinishedBroadcast_sections PrintHeader_sections : dump.

Lemma CleanupFiles_sections : sections CleanupFiles.
Proof. unfold CleanupFiles, unlink. section_tac. Qed.
Lemma final_consent_sections : sections final_consent.
Proof. unfold final_consent, getResult. section_tac. Qed.
Hint Resolve CleanupFiles_sections final_consent_sections : dump.
Lemma HandleUserConsentDenied_sections : sections HandleUserConsentDenied.
Proof. unfold HandleUserConsentDenied. section_tac. Qed.
Hint Resolve HandleUserConsentDenied_sections : dump.

Lemma redirect_output_sections : sections redirect_output.
Proof. unfold redirect_output, redirect_to_file. section_tac. Qed.
Hint Resolve redirect_output_sections : dump.
Lemma start_run_quietly uid package : quietly (start_run uid package).
Proof.
  unfold start_run, protect, CheckUserConsent, begin_run, open_sockets, redirect_to_socket, announce. quiet_tac.
Qed.
Lemma dump_report_quietly cmdline : quietly (dump_report cmdline).
Proof. unfold dump_report. quiet_tac. Qed.
Lemma clean_up_quietly : quietly clean_up.
Proof. unfold clean_up, getResult. quiet_tac. Qed.
Hint Resolve clean_up_quietly : dump.
Lemma finish_run_quietly : quietly finish_run.
Proof. unfold finish_run. quiet_tac. Qed.
End Quiet.

#[export] Hint Resolve create_parent_dirs_sections redirect_file_sections open_socket_sections SendBroadcast_sections Vibrate_sections
  SendBugreportFinishedBroadcast_sections PrintHeader_sections CleanupFiles_sections final_consent_sections HandleUserConsentDenied_sections
  redirect_output_sections : dump.

(** * Consent *)

Fixpoint last_poll (h : history) : option ConsentResult :=
  match h with
  | [] => None
  | (Poll, a) :: _ => Some (consent_of a)
  | _ :: h => last_poll h
  end.

Section Shares.
Context {sys : System} (bfd sfd : Z).

(** Of what is copied to the caller, other than to the descriptor of the
    screenshot: it goes to that of the report, and the last answer of the user
    before is that they agree. *)
Definition approved_copies (l base : history) : Prop :=
  forall newer from d a older, l = newer ++ (Copy from (Caller d), a) :: older -> d <> sfd ->
    d = bfd /\ last_poll (older ++ base) = Some APPROVED.

Lemma quiet_copies l base : Forall (fun e => quiet (fst e)) l -> approved_copies l base.
Proof. intros H newer from d a older -> _. by apply Forall_app in H as [_ [H _]%Forall_cons]. Qed.

Lemma copies_app l1 l2 base : approved_copies l1 base -> approved_copies l2 (l1 ++ base) -> approved_copies (l2 ++ l1) base.
Proof.
  intros H1 H2 newer from d a older E Hd. apply app_eq_app in E as [k [[-> E]|[-> E]]].
  - destruct k as [|e k]; cbn in E.
    + by apply (H1 [] from d a older).
    + injection E as <- ->. rewrite <- app_assoc. by apply (H2 newer from d a k).
  - by apply (H1 k from d a older).
Qed.

Definition is_caller (r : Run) : Prop := bugreport_fd (options_ r) = bfd /\ screenshot_fd (options_ r) = sfd.

Definition shares_at {A} (m : D A) (s : state) : Prop :=
  is_caller (run (snd (m s))) /\ exists l, past (snd (m s)) = l ++ past s /\ approved_copies l (past s).
Definition shares {A} (m : D A) : Prop := forall s, is_caller (run s) -> shares_at m s.

Lemma shares_at_bind {A B} (m : D A) (f : A -> D B) s :
  shares_at m s -> (is_caller (run (snd (m s))) -> shares_at (f (fst (m s))) (snd (m s))) -> shares_at (D_bind m f) s.
Proof.
  intros [E1 (l1 & P1 & F1)] Hf. destruct (Hf E1) as [E2 (l2 & P2 & F2)]. unfold shares_at. rewrite D_bind_eq. split; [done|].
  exists (l2 ++ l1). split; [by rewrite P2, P1, app_assoc|]. apply copies_app; [done|]. by rewrite <- P1.
Qed.

Lemma shares_bind {A B} (m : D A) (f : A -> D B) : shares m -> (forall a, shares (f a)) -> shares (D_bind m f).
Proof. intros Hm Hf s Hs. apply shares_at_bind; [by apply Hm|]. intros Hs'. by apply Hf. Qed.

Lemma shares_quietly {A} (m : D A) : effects same_caller quiet m -> shares m.
Proof.
  intros H s [H1 H2]. destruct (H s) as [(Q1 & Q2 & _) (l & P & F)]. split; [split; congruence|].
  exists l. split; [done|]. by apply quiet_copies.
Qed.

Lemma shares_sections {A} (m : D A) : sections m -> shares m.
Proof. intros H. by apply shares_quietly, sections_quietly. Qed.

Lemma shares_get_run {A B} (f : Run -> A) (k : A -> D B) : (forall r, is_caller r -> shares (k (f r))) -> shares (D_bind (get_run f) k).
Proof. intros H s Hs. apply shares_at_bind; [by split; [|exists []; split; [|apply quiet_copies]]|]. intros Hs'. by apply H. Qed.

(** What the consent is found to be is what the user has said last. *)
Lemma final_consent_poll s : last_poll (past (snd (final_consent s))) = Some (fst (final_consent s)).
Proof.
  assert (Hpoll : forall s, last_poll (past (snd (getResult s))) = Some (fst (getResult s))) by done.
  unfold final_consent. rewrite D_bind_eq. destruct (fst (getResult s)) eqn:E; [by rewrite <- E|by rewrite <- E|].
  rewrite !D_bind_eq. apply Hpoll.
Qed.

Lemma CopyFileToFd_shares path fd s :
  is_caller (run s) -> (fd = sfd \/ fd = bfd /\ last_poll (past s) = Some APPROVED) -> shares_at (CopyFileToFd path fd) s.
Proof.
  intros Hs Hfd. unfold CopyFileToFd. apply shares_at_bind; [apply shares_sections; [apply effects_req; [exact _|done]|done]|].
  intros Hs'. destruct (_ || _); [apply shares_sections; [apply effects_ret, _|done]|].
  apply shares_at_bind; [|intros ?; apply shares_sections; [section_tac|done]]. split; [done|]. eexists [_]. split; [done|].
  intros [|e newer] from d a older E Hd; [|by injection E as _ E; destruct newer]. injection E as _ <- _ <-.
  destruct Hfd as [->|[-> Hpoll]]; [done|]. by split.
Qed.

Lemma CopyBugreport_shares : shares CopyBugreportIfUserConsented.
Proof.
  intros s Hs. unfold CopyBugreportIfUserConsented. apply shares_at_bind; [by apply shares_sections; [apply final_consent_sections|]|].
  pose proof (final_consent_poll s) as Hpoll. destruct (final_consent s) as [c s1]. cbn [fst snd] in *. intros Hs1.
  destruct c; [|by apply (shares_sections _ HandleUserConsentDenied_sections)|by apply shares_sections; [apply effects_ret, _|]].
  apply shares_at_bind; [by apply shares_sections; [apply effects_get_run, _|]|]. cbn [get_run fst snd]. intros _.
  apply shares_at_bind; [apply CopyFileToFd_shares; [done|right; split; [apply Hs1|done]]|].
  intros Hs2. apply shares_sections; [unfold unlink; section_tac|done].
Qed.

Lemma share_report_shares : shares share_report.
Proof.
  unfold share_report, copy_for_caller. apply shares_get_run. intros r [_ Hsfd].
  apply shares_bind; [apply shares_sections; section_tac|]. intros _.
  apply shares_bind; [apply shares_quietly, effects_when; [exact _|apply FinalizeFile_quietly]|]. intros _.
  destruct (_ =? -1); [apply shares_sections, effects_ret, _|]. apply shares_bind; [apply CopyBugreport_shares|]. intros status.
  assert (Hshot : forall k, sections k -> shares (D_bind (when_ (do_fb (options_ r) && negb (screenshot_fd (options_ r) =? -1))
    (screenshot ← get_run screenshot_path_; copy_succeeded ← CopyFileToFd screenshot (screenshot_fd (options_ r)); when_ copy_succeeded (unlink screenshot))%dump)
    (fun _ => k : D (option RunStatus)))).
  { intros k Hk. apply shares_bind; [|intros; by apply shares_sections]. destruct (_ && _); [|apply shares_sections, effects_ret, _].
    apply shares_get_run. intros r' _. apply shares_bind; [|intros; apply shares_sections; unfold unlink; section_tac].
    intros s Hs. apply CopyFileToFd_shares; [done|by left]. }
  destruct status; try (apply shares_sections, effects_ret, _); apply Hshot; section_tac.
Qed.

Lemma RunDump_shares uid package : shares (RunDump uid package).
Proof.
  unfold RunDump, RunInternal, report_status. apply shares_bind; [|intros [status|]; [|apply shares_sections, effects_ret, _] ].
  - apply shares_bind; [apply shares_quietly, start_run_quietly|]. intros [cmdline|status]; [|apply shares_sections, effects_ret, _].
    apply shares_bind; [apply shares_quietly, dump_report_quietly|]. intros [status|]; [apply shares_sections, effects_ret, _|].
    apply shares_bind; [apply share_report_shares|]. intros [status|]; [apply shares_sections, effects_ret, _|].
    apply shares_quietly, finish_run_quietly.
  - apply shares_bind; [|intros; apply shares_sections, effects_ret, _].
    apply shares_bind; [apply shares_sections, effects_get_run, _|]. intros listener.
    destruct listener; [|apply shares_sections, effects_ret, _]. cbn [when_].
    destruct (final_callback status) as [c|]; [|apply shares_sections, effects_ret, _].
    intros s Hs. split; [done|]. eexists [_]. split; [done|]. intros [|e newer] from d a older E; [by injection E|].
    injection E as _ E. by destruct newer.
Qed.
End Shares.

(** * Statuses *)

Section Statuses.
Context {sys : System}.

Definition returns {A} (Q : A -> Prop) (m : D A) : Prop := forall s, Q (fst (m s)).

Lemma returns_ret {A} (Q : A -> Prop) a : Q a -> returns Q (mret a).
Proof. by intros H s. Qed.

Lemma returns_bind {A B} (Q : B -> Prop) (m : D A) (f : A -> D B) : (forall a, returns Q (f a)) -> returns Q (D_bind m f).
Proof. intros H s. rewrite D_bind_eq. apply H. Qed.

End Statuses.

Ltac returns_tac :=
  repeat match goal with
  | |- returns _ (D_bind _ _) => apply returns_bind; intros ?
  | |- returns _ (mret _) => apply returns_ret
  | |- returns _ (let '(_, _) := ?x in _) => destruct x
  | |- returns _ (match ?x with _ => _ end) => destruct x
  | |- returns _ _ => progress cbv zeta
  end.

Section RunStatuses.
Context {sys : System}.

(** A run that ends before the dump has not heard the user. *)
Lemma start_run_status uid package : returns (fun r => match r with inl _ => True | inr s => s = INVALID_INPUT \/ s = OK \/ s = ERROR end) (start_run uid package).
Proof. unfold start_run. returns_tac; repeat case_match; simplify_eq; auto. Qed.

Lemma default_report_status : returns (fun s => s = OK \/ s = ERROR \/ s = USER_CONSENT_DENIED) default_report.
Proof.
  unfold default_report, slow, unless_denied. returns_tac; auto.
  unfold dumpstate, slow, unless_denied. returns_tac; auto.
  unfold dumpstate_system, slow, unless_denied. returns_tac; auto.
  unfold dumpstate_services, slow, unless_denied. returns_tac; auto.
Qed.

Definition not_help (s : option RunStatus) : Prop := s <> Some HELP.

(** The process goes down only in the search for the trace of [anrd]. *)
Lemma dump_anrd_trace_down s : fst (dump_anrd_trace s) = false -> newest_trace (past (snd (dump_anrd_trace s))) = None.
Proof.
  unfold dump_anrd_trace. rewrite D_bind_eq. destruct (IsZipping s) as [[] s1]; cbn [negb fst snd]; [|done].
  rewrite D_bind_eq. destruct (GetPidByName _ s1) as [pid s2]. cbn [fst snd]. cbv zeta. destruct (_ =? 0); [done|].
  rewrite D_bind_eq. cbn [ask fst snd]. destruct (mtime _ _) as [old|]; [|done].
  rewrite D_bind_eq. destruct (RunCommand _ _ _ s2) as [r s3]. cbn [fst snd]. destruct (nz r); [done|].
  rewrite D_bind_eq. destruct (await_change _ _ _ s3) as [[] s4]; cbn [fst snd]; [done|].
  rewrite D_bind_eq. cbn [ask fst snd]. destruct (newest_trace (past s4)) as [[max name]|] eqn:E; [by rewrite D_bind_eq|by intros _].
Qed.

Lemma DumpstateDefault_status s :
  let '(status, s') := DumpstateDefault s in
  match status with
  | Some status => status = OK \/ status = ERROR \/ status = USER_CONSENT_DENIED
  | None => newest_trace (past s') = None
  end.
Proof.
  unfold DumpstateDefault. rewrite D_bind_eq. pose proof (dump_anrd_trace_down s) as Hd.
  destruct (dump_anrd_trace s) as [[] s1]; cbn [fst snd] in *; [|by apply Hd].
  rewrite D_bind_eq. pose proof (default_report_status s1) as Hs. by destruct (default_report s1).
Qed.

(** The run goes on after the dump, or ends with its status or without one. *)
Definition report_ended (ended : option (option RunStatus)) (s : state) : Prop :=
  match ended with
  | None => True
  | Some (Some status) => status = ERROR \/ status = USER_CONSENT_DENIED
  | Some None => newest_trace (past s) = None
  end.

Lemma dump_report_status cmdline s : report_ended (fst (dump_report cmdline s)) (snd (dump_report cmdline s)).
Proof.
  unfold dump_report. rewrite D_bind_eq. destruct (PrintHeader cmdline s) as [[] s1]. cbn [fst snd]. rewrite D_bind_eq.
  cbn [get_run fst snd]. destruct (telephony_only _); [by rewrite !D_bind_eq|]. destruct (wifi_only _); [by rewrite D_bind_eq|].
  rewrite D_bind_eq. pose proof (DumpstateDefault_status s1) as Hs. destruct (DumpstateDefault s1) as [[status|] s2]; cbn [fst snd]; [|done].
  destruct Hs as [->|[->| ->] ]; cbn; auto.
Qed.

Lemma CopyBugreport_status : returns (fun s => s <> HELP) CopyBugreportIfUserConsented.
Proof. unfold CopyBugreportIfUserConsented, HandleUserConsentDenied. returns_tac; by repeat case_match. Qed.

Lemma share_report_status : returns not_help share_report.
Proof.
  unfold share_report, copy_for_caller. do 3 (apply returns_bind; intros ?). destruct (_ =? -1); [by apply returns_ret|].
  intros s. rewrite D_bind_eq. pose proof (CopyBugreport_status s) as Hs.
  by destruct (fst (CopyBugreportIfUserConsented s)); rewrite ?D_bind_eq.
Qed.

Lemma clean_up_status : returns (fun s => s = OK \/ s = USER_CONSENT_TIMED_OUT) clean_up.
Proof. unfold clean_up. returns_tac; repeat case_match; auto. Qed.

Lemma finish_run_status : returns (fun s => s = None \/ s = Some OK \/ s = Some USER_CONSENT_TIMED_OUT) finish_run.
Proof.
  unfold finish_run. do 3 (apply returns_bind; intros ?). destruct (_ : bool); [|apply returns_ret; by left]. intros s. rewrite D_bind_eq.
  destruct (clean_up_status s) as [E|E]; rewrite E; auto.
Qed.

(** [HELP] is no status of a run. *)
Lemma RunInternal_status uid package : returns not_help (RunInternal uid package).
Proof.
  intros s. unfold RunInternal. rewrite D_bind_eq. pose proof (start_run_status uid package s) as H.
  destruct (start_run uid package s) as [[cmdline|status] s1]; cbn [fst snd] in *; [|by destruct H as [->|[->| ->] ]].
  rewrite D_bind_eq. pose proof (dump_report_status cmdline s1) as Hd.
  destruct (dump_report cmdline s1) as [[status|] s2]; cbn [fst snd] in *; [by destruct status as [status|]; [destruct Hd as [->| ->]|]|].
  rewrite D_bind_eq. pose proof (share_report_status s2) as Hr.
  destruct (share_report s2) as [[status|] s3]; cbn [fst snd] in *; [exact Hr|].
  by destruct (finish_run_status s3) as [E|[E|E] ]; unfold not_help; rewrite E.
Qed.

(** ** The last word *)

Definition silent (r : request) : Prop := match r with Listener c => last_word c = false | _ => True end.

Lemma quiet_silent q : quiet q -> silent q.
Proof. by destruct q. Qed.

Lemma silent_quietly {A} (m : D A) : effects same_caller quiet m -> effects same_caller silent m.
Proof. intros H. by apply (effects_weaken _ _ _ _ _ H); [|exact quiet_silent]. Qed.

Ltac silent_tac :=
  repeat first
    [ progress adds_tac ltac:(idtac; first [exact I|done])
    | match goal with |- effects _ _ _ => solve [apply silent_quietly, sections_quietly; first [solve [auto with dump]|section_tac]] end ].

Lemma share_report_silent : effects same_caller silent share_report.
Proof.
  unfold share_report, copy_for_caller, CopyBugreportIfUserConsented, CopyFileToFd, unlink. silent_tac.
  all: try (apply silent_quietly, FinalizeFile_quietly).
  all: apply silent_quietly, sections_quietly; first [apply final_consent_sections|apply HandleUserConsentDenied_sections].
Qed.

Lemma RunInternal_silent uid package : effects same_caller silent (RunInternal uid package).
Proof.
  unfold RunInternal. apply effects_bind; [exact _|apply silent_quietly, start_run_quietly|]. intros [cmdline|status]; [|apply effects_ret, _].
  apply effects_bind; [exact _|apply silent_quietly, dump_report_quietly|]. intros [status|]; [apply effects_ret, _|].
  apply effects_bind; [exact _|apply share_report_silent|]. intros [status|]; [apply effects_ret, _|].
  apply silent_quietly, finish_run_quietly.
Qed.
End RunStatuses.

(** * Denial *)

Section Denied.
Context {sys : System}.

Definition quiet_ext (s s' : state) : Prop := exists l, past s' = l ++ past s /\ Forall (fun e => quiet (fst e)) l.

#[local] Instance quiet_ext_preorder : PreOrder quiet_ext.
Proof.
  split; [by intros s; exists []|]. intros s1 s2 s3 (l1 & P1 & F1) (l2 & P2 & F2).
  exists (l2 ++ l1). split; [by rewrite P2, P1, app_assoc|by apply Forall_app].
Qed.

Lemma quietly_ext {A} (m : D A) s : effects same_caller quiet m -> quiet_ext s (snd (m s)).
Proof. intros H. apply H. Qed.

Lemma share_report_denied s : fst (share_report s) = Some USER_CONSENT_DENIED -> quiet_ext s (snd (share_report s)).
Proof.
  unfold share_report, copy_for_caller. rewrite D_bind_eq. set (o := fst (get_run options_ s)). set (s1 := snd (get_run options_ s)).
  assert (E1 : quiet_ext s s1) by (apply quietly_ext, effects_get_run, _). rewrite D_bind_eq.
  set (s2 := snd (when_ (OutputToFile o) (do_ (Restore Stdout)) s1)).
  assert (E2 : quiet_ext s1 s2) by (apply quietly_ext; adds_tac ltac:(done)). rewrite D_bind_eq.
  set (s3 := snd (when_ (OutputToFile o) FinalizeFile s2)).
  assert (E3 : quiet_ext s2 s3) by (apply quietly_ext, effects_when; [exact _|apply FinalizeFile_quietly]).
  destruct (_ =? -1); [done|]. rewrite D_bind_eq. unfold CopyBugreportIfUserConsented. rewrite D_bind_eq.
  set (s4 := snd (final_consent s3)). assert (E4 : quiet_ext s3 s4) by (apply quietly_ext, sections_quietly, final_consent_sections).
  destruct (fst (final_consent s3)).
  - rewrite !D_bind_eq. cbn [get_run fst snd]. rewrite !D_bind_eq. destruct (fst (CopyFileToFd _ _ _)); cbn [fst snd mret D_ret]; rewrite ?D_bind_eq; done.
  - intros _. assert (E5 : quiet_ext s4 (snd (HandleUserConsentDenied s4))) by (apply quietly_ext, sections_quietly, HandleUserConsentDenied_sections).
    etrans; [exact E1|]. etrans; [exact E2|]. etrans; [exact E3|]. etrans; [exact E4|exact E5].
  - unfold mret, D_ret. cbn [fst snd]. by rewrite !D_bind_eq.
Qed.

Lemma RunInternal_denied uid package s :
  fst (RunInternal uid package s) = Some USER_CONSENT_DENIED -> quiet_ext s (snd (RunInternal uid package s)).
Proof.
  unfold RunInternal. rewrite D_bind_eq. pose proof (start_run_status uid package s) as H.
  pose proof (quietly_ext _ s (start_run_quietly uid package)) as E1.
  destruct (start_run uid package s) as [[cmdline|status] s1]; cbn [fst snd] in *; [|by destruct H as [->|[->| ->] ]].
  rewrite D_bind_eq. pose proof (quietly_ext _ s1 (dump_report_quietly cmdline)) as E2.
  destruct (dump_report cmdline s1) as [[status|] s2]; cbn [fst snd] in *; [by intros _; etrans|].
  rewrite D_bind_eq. pose proof (share_report_denied s2) as E3. destruct (share_report s2) as [[status|] s3]; cbn [fst snd] in *.
  - cbn. intros E. etrans; [exact E1|]. etrans; [exact E2|]. by apply E3.
  - intros E. by destruct (finish_run_status s3) as [E'|[E'|E'] ]; rewrite E' in E.
Qed.
End Denied.

(** * Theorems *)

(** C2: whatever the system answers and in whatever order, the report is copied
    to the caller only after the user has agreed: at every copy to a descriptor
    of the caller other than that of the screenshot, the descriptor is the one
    for the report, and the last answer before it is an approval. *)
Theorem shared_only_after_approval {sys : System} uid package s newer from d a older :
  past (snd (RunDump uid package s)) = newer ++ (Copy from (Caller d), a) :: older ->
  (length (past s) <= length older)%nat -> d <> screenshot_fd (options_ (run s)) ->
  d = bugreport_fd (options_ (run s)) /\ last_poll older = Some APPROVED.
Proof.
  intros E Hlen Hd.
  destruct (RunDump_shares (bugreport_fd (options_ (run s))) (screenshot_fd (options_ (run s))) uid package s) as [_ (l & P & F)]; [done|].
  rewrite P in E. apply app_eq_app in E as [k [[-> E]|[-> E]]].
  - destruct k as [|e k]; cbn in E.
    + rewrite <- E in Hlen. cbn in Hlen. lia.
    + injection E as <- ->. by apply (F newer from d a k).
  - exfalso. rewrite E, length_app in Hlen. cbn in Hlen. lia.
Qed.

(** The last words of a history, newest first. *)
Definition last_words (h : history) : list callback :=
  omap (fun e => match fst e with Listener c => if last_word c then Some c else None | _ => None end) h.

Lemma silent_last_words l : Forall (fun e => silent (fst e)) l -> last_words l = [].
Proof.
  induction 1 as [|[q a] l Hq _ IH]; [done|]. unfold last_words in *. cbn. cbn [fst] in Hq. destruct q; try done. cbn in Hq. by rewrite Hq.
Qed.

Section Down.
Context {sys : System}.

(** Where a run goes down: it is remote, and the report whose digest goes into
    the last broadcast cannot be read. *)
Lemma broadcast_down s : fst (SendBugreportFinishedBroadcast s) = false ->
  snd (SendBugreportFinishedBroadcast s) = s /\ is_remote_mode (options_ (run s)) = true /\ path_ (run s) <> [] /\
  sha256 (past s) (path_ (run s)) = None.
Proof.
  unfold SendBugreportFinishedBroadcast. rewrite D_bind_eq. cbn [get_run fst snd]. cbv zeta.
  destruct (not_empty (path_ (run s))) eqn:Ep; [|done]. cbn [negb]. rewrite D_bind_eq. cbn [get_work fst snd].
  rewrite D_bind_eq. cbn [ask fst snd]. destruct (is_remote_mode _); [|by rewrite D_bind_eq].
  rewrite D_bind_eq. cbn [ask fst snd]. destruct (sha256 _ _) as [hash|] eqn:Eh; [by rewrite D_bind_eq|]. intros _. split_and!; try done.
  by destruct (path_ (run s)).
Qed.

(** The digest that a run needs at its end is not to be had. *)
Definition no_digest (s : state) : Prop :=
  do_broadcast (options_ (run s)) = true /\ is_remote_mode (options_ (run s)) = true /\ path_ (run s) <> [] /\
  sha256 (past s) (path_ (run s)) = None.

Lemma finish_run_down s : fst (finish_run s) = None -> no_digest (snd (finish_run s)).
Proof.
  unfold finish_run. rewrite D_bind_eq. cbn [get_run fst snd]. rewrite D_bind_eq.
  set (m := when_ (do_vibrate _) _). assert (Hm : effects (=) section_request m).
  { unfold m. section_tac. }
  pose proof (proj1 (Hm s)) as Er. set (s1 := snd (m s)) in *. rewrite D_bind_eq. destruct (do_broadcast (options_ (run s))) eqn:Eb.
  - pose proof (broadcast_down s1) as Hd. destruct (SendBugreportFinishedBroadcast s1) as [[] s2]; cbn [fst snd] in *; [by rewrite D_bind_eq|].
    intros _. destruct (Hd eq_refl) as (-> & H1 & H2 & H3). cbn. unfold no_digest. rewrite <- Er in *. by split_and!.
  - cbn [mret D_ret fst snd]. by rewrite D_bind_eq.
Qed.

(** The trace of [anrd] cannot be looked for. *)
Definition no_traces (s : state) : Prop := newest_trace (past s) = None.

Lemma RunInternal_down uid package s : fst (RunInternal uid package s) = None ->
  no_digest (snd (RunInternal uid package s)) \/ no_traces (snd (RunInternal uid package s)).
Proof.
  unfold RunInternal. rewrite D_bind_eq. destruct (start_run uid package s) as [[cmdline|status] s1]; cbn [fst snd]; [|done].
  rewrite D_bind_eq. pose proof (dump_report_status cmdline s1) as Hd.
  destruct (dump_report cmdline s1) as [[ended|] s2]; cbn [fst snd] in *; [intros Ee; cbn in Ee; subst ended; by right|].
  rewrite D_bind_eq. destruct (share_report s2) as [[status|] s3]; cbn [fst snd]; [done|]. intros H. left. by apply finish_run_down.
Qed.

End Down.

(** C14: a run that ends with a status tells its listener once how it has ended,
    and that is the last thing that it does: [onFinished] when the status is
    [OK], and otherwise [onError] with the code of the status, which is never
    [HELP]. A run that has none has gone down with its process, without a last
    word: a remote run, whose report cannot be read for the digest of its last
    broadcast, or one that could not look for the trace of [anrd], as its
    directory cannot be opened or a name there does not fit. *)
Theorem one_last_word {sys : System} uid package s :
  let '(ended, s') := RunDump uid package s in
  exists l, past s' = l ++ past s /\
    match ended with
    | Some status =>
        status <> HELP /\
        if listener_ (run s) then exists c a rest, final_callback status = Some c /\ l = (Listener c, a) :: rest /\ last_words rest = []
        else last_words l = []
    | None => last_words l = [] /\ (no_digest s' \/ no_traces s')
    end.
Proof.
  unfold RunDump. rewrite D_bind_eq. pose proof (RunInternal_status uid package s) as Hstatus. pose proof (RunInternal_down uid package s) as Hdown.
  destruct (RunInternal_silent uid package s) as [(_ & _ & Hl & _) (l & P & F)]. apply silent_last_words in F.
  destruct (RunInternal uid package s) as [[status|] s1]; cbn [fst snd] in *; [|exists l; by split_and!; [..|apply Hdown] ].
  unfold report_status. rewrite !D_bind_eq. cbn [get_run fst snd]. rewrite Hl.
  destruct (listener_ (run s)); cbn [when_].
  - assert (Hc : exists c, final_callback status = Some c) by (destruct status; first [by exfalso; apply Hstatus|by eexists]).
    destruct Hc as (c & E). rewrite E. cbn. eexists ((_, _) :: l). split; [cbn; by rewrite P|]. split; [by intros ->|]. by do 3 eexists.
  - cbn. exists l. split; [done|]. split; [by intros ->|done].
Qed.

(** C18: when the user has denied the consent nothing goes to the caller, not the
    screenshot either, and the listener hears why. *)
Theorem denied_shares_nothing {sys : System} uid package s :
  fst (RunDump uid package s) = Some USER_CONSENT_DENIED ->
  exists l, past (snd (RunDump uid package s)) = l ++ past s /\
    (forall from d a, (Copy from (Caller d), a) ∉ l) /\
    last_words l = if listener_ (run s) then [onError BUGREPORT_ERROR_USER_DENIED_CONSENT] else [].
Proof.
  unfold RunDump. rewrite D_bind_eq. pose proof (RunInternal_denied uid package s) as Hd.
  destruct (RunInternal_silent uid package s) as [(_ & _ & Hl & _) _].
  destruct (RunInternal uid package s) as [[status|] s1]; cbn [fst snd] in *; [|done]. unfold report_status.
  rewrite !D_bind_eq. cbn [get_run fst snd]. rewrite Hl.
  cbn [mret D_ret fst snd]. intros [= ->]. destruct (Hd eq_refl) as (l & P & F).
  assert (Hn : forall from d a, (Copy from (Caller d), a) ∉ l).
  { intros from d a Hin. rewrite Forall_forall in F. by specialize (F _ Hin). }
  assert (Hw : last_words l = []) by (apply silent_last_words; eapply Forall_impl; [exact F|]; intros e; apply quiet_silent).
  destruct (listener_ (run s)); cbn.
  - eexists ((_, _) :: l). split; [by rewrite P|]. split; [|by change (onError 3 :: last_words l = [onError 3]); rewrite Hw]. intros from d a [Hin|Hin]%elem_of_cons; [done|by apply (Hn from d a)].
  - by exists l.
Qed.

(** * An example *)

Definition demo_options : DumpOptions := Initialize_mode BUGREPORT_FULL 10 11.
Definition demo_run (answer : history -> Z) : option RunStatus * state := RunDump (sys := demo_system answer) 10001 (lit "com.example") (fresh demo_options true).

(** ** The user agrees *)

Definition agreed : history :=
  past (snd (RunDump (sys := demo_system (fun _ => 0)) 10001 (lit "com.example") (fresh demo_options true))).

Definition demo_zip : str := lit "/bugreports/bugreport-UNKNOWN_DEVICE-UNKNOWN_BUILD-2019-01-01-00-00-00.zip".

Lemma demo_copy : agreed !! 37%nat = Some (Copy (File demo_zip) (Caller 10), 1).
Proof. vm_compute. reflexivity. Qed.

Lemma demo_copies : agreed = take 37 agreed ++ (Copy (File demo_zip) (Caller 10), 1) :: drop 38 agreed.
Proof. symmetry. apply take_drop_middle, demo_copy. Qed.

#[local] Opaque RunDump.

Lemma shared_only_after_approval_witness :
  agreed = take 37 agreed ++ (Copy (File demo_zip) (Caller 10), 1) :: drop 38 agreed /\ 10 = 10 /\ last_poll (drop 38 agreed) = Some APPROVED.
Proof.
  split; [exact demo_copies|].
  exact (shared_only_after_approval (sys := demo_system (fun _ => 0)) 10001 (lit "com.example") (fresh demo_options true)
           (take 37 agreed) (File demo_zip) 10 1 (drop 38 agreed) demo_copies (Nat.le_0_l _) ltac:(discriminate)).
Defined.

(** ** The user denies, late in the dump *)

Definition deny_late (h : history) : Z := if Nat.ltb 500 (length h) then 1 else 2.

Lemma demo_denied : fst (RunDump (sys := demo_system deny_late) 10001 (lit "com.example") (fresh demo_options true)) = Some USER_CONSENT_DENIED.
Proof. by vm_compute. Qed.

Lemma denied_shares_nothing_witness :
  fst (RunDump (sys := demo_system deny_late) 10001 (lit "com.example") (fresh demo_options true)) = Some USER_CONSENT_DENIED /\
  exists l, past (snd (RunDump (sys := demo_system deny_late) 10001 (lit "com.example") (fresh demo_options true))) = l ++ [] /\
    (forall from d a, (Copy from (Caller d), a) ∉ l) /\ last_words l = [onError BUGREPORT_ERROR_USER_DENIED_CONSENT].
Proof. exact (conj demo_denied (denied_shares_nothing (sys := demo_system deny_late) _ _ _ demo_denied)). Defined.

(** ** The user answers when it is too late

    Once the run has given up waiting it asks for the request to be cancelled;
    an answer that arrives after that makes the run end as if the report had
    been shared. *)

Definition answer_late (h : history) : Z := if existsb (fun e => bool_decide (fst e = CancelAuthorization)) h then 1 else 2.

Lemma late_answer_is_success :
  let '(status, s) := demo_run answer_late in
  status = Some OK /\ last_words (past s) = [onFinished] /\ forallb (fun e => match fst e with Copy _ (Caller 10) => false | _ => true end) (past s) = true.
Proof. by vm_compute. Qed.

(** ** What the consent decides *)

(** The request stays unanswered: nothing is shared and the report stays. *)
Lemma unanswered_times_out :
  let '(status, s) := demo_run (fun _ => 2) in
  status = Some USER_CONSENT_TIMED_OUT /\ last_words (past s) = [onError BUGREPORT_ERROR_USER_CONSENT_TIMED_OUT] /\
  existsb (fun e => bool_decide (fst e = Unlink (path_ (run s)))) (past s) = false /\
  existsb (fun e => match fst e with Copy _ (Caller 11) => true | _ => false end) (past s) = true.
Proof. by vm_compute. Qed.

(** ** The user agrees to a remote report

    Once it is copied to the caller the report is unlinked, and then it is read
    for its digest: the process goes down and the listener hears nothing. *)

Definition remote_options : DumpOptions := Initialize_mode BUGREPORT_REMOTE 10 11.

Lemma approved_remote_goes_down :
  let '(ended, s) := RunDump (sys := demo_system (fun _ => 0)) 10001 (lit "com.example") (fresh remote_options true) in
  ended = None /\ last_words (past s) = [] /\ existsb (fun e => bool_decide (fst e = Unlink (path_ (run s)))) (past s) = true /\
  existsb (fun e => match fst e with Copy _ (Caller 10) => true | _ => false end) (past s) = true.
Proof. by vm_compute. Qed.
