(* ===== verification/Bugreportz.v ===== *)
(** The clients of [dumpstate]: [bugreportz], which relays the lines of the
    control socket, and [bugreport], which copies a whole report
    ([bugreportz.cpp], [bugreport.cpp] and their [main]).

    What [read] returns is a list of pieces, none of them empty, with the errno
    that it ends with, if it is an error. *)

From S2P Require Import Prelude CLib DumpProgress DumpSystem DumpOptions.

Open Scope list_scope.
Open Scope Z_scope.

Definition nl : ascii := ascii_of_nat 10.
Definition BEGIN_PREFIX : str := lit "BEGIN:".
Definition PROGRESS_PREFIX : str := lit "PROGRESS:".

Definition EXIT_SUCCESS : Z := 0.
Definition EXIT_FAILURE : Z := 1.
Definition EAGAIN : Z := 11.
Definition ETIMEDOUT : Z := 110.

(** What is written of a line. *)
Definition write_line (line : str) (show_progress : bool) : str :=
  match line with
  | [] => []
  | _ => if negb show_progress && (prefixb PROGRESS_PREFIX line || prefixb BEGIN_PREFIX line) then [] else line
  end.

(** One piece, character by character: the line so far, and the output. *)
Definition take_char (show_progress : bool) (s : str * str) (c : ascii) : str * str :=
  let '(line, out) := s in
  let line := line ++ [c] in
  if Ascii.eqb c nl then ([], out ++ write_line line show_progress) else (line, out).

Definition take_chunk (show_progress : bool) (s : str * str) (chunk : str) : str * str := fold_left (take_char show_progress) chunk s.

Section Client.
Variable strerror_text : Z -> str.

Definition bugreportz (chunks : list str) (read_error : option Z) (show_progress : bool) : Z * str :=
  let '(line, out) := fold_left (take_chunk show_progress) chunks ([], []) in
  match read_error with
  | Some e =>
      let e := if e =? EAGAIN then ETIMEDOUT else e in
      (EXIT_FAILURE, out ++ lit "FAIL:Bugreport read terminated abnormally (" ++ strerror_text e ++ lit ")" ++ [nl])
  | None => (EXIT_SUCCESS, out ++ write_line line show_progress)
  end.

(** The options of [bugreportz]: an exit, or whether progress is shown. *)
Fixpoint bugreportz_options (codes : str) (show_progress : bool) : Z + bool :=
  match codes with
  | [] => inr show_progress
  | c :: rest =>
      if Ascii.eqb c "h" then inl EXIT_SUCCESS
      else if Ascii.eqb c "p" then bugreportz_options rest true
      else if Ascii.eqb c "v" then inl EXIT_SUCCESS
      else inl EXIT_FAILURE
  end.

(** Up to twenty attempts to connect, a second apart; [-1] after the last. *)
Fixpoint connect (attempts : list Z) (n : nat) : Z :=
  match n, attempts with
  | S n, s :: rest => if s >=? 0 then s else match n with O => s | _ => connect rest n end
  | _, _ => -1
  end.

(** [main]: the exit code and the output. [attempts] is what
    [socket_local_client] answers. *)
Definition bugreportz_main (argv : list str) (attempts : list Z) (connect_errno : Z) (chunks : list str) (read_error : option Z) (close_ok : bool) : Z * str :=
  match bugreportz_options (getopt (lit "hpv") (tl argv)) false with
  | inl code => (code, [])
  | inr show_progress =>
      if connect attempts 20 =? -1 then
        (EXIT_FAILURE, lit "FAIL:Failed to connect to dumpstatez service: " ++ strerror_text connect_errno ++ [nl])
      else
        let '(ret, out) := bugreportz chunks read_error show_progress in
        (if close_ok then ret else EXIT_FAILURE, out)
  end.

(** ** bugreport *)

(** Writes a piece, in as many calls as it takes: the answers of [write], the
    output, and whether it went on ([None] for an error). *)
Fixpoint write_all (piece : str) (writes : list Z) (out : str) : list Z * str * bool :=
  match writes with
  | [] => ([], out, true)
  | w :: rest =>
      if w =? -1 then (rest, out, false)
      else
        let n := Z.to_nat w in
        let out := out ++ take n piece in
        match drop n piece with
        | [] => (rest, out, true)
        | piece => if w =? 0 then (rest, out, true) else write_all piece rest out
        end
  end.

Fixpoint copy_report (chunks : list str) (writes : list Z) (out : str) : str * bool :=
  match chunks with
  | [] => (out, true)
  | chunk :: rest =>
      let '(writes, out, ok) := write_all chunk writes out in
      if ok then copy_report rest writes out else (out, false)
  end.
End Client.

(** * Theorems *)

(** Lines with their ends; the last one need not have one. *)
Fixpoint lines_of (s : str) : list str :=
  match s with
  | [] => []
  | c :: rest => if Ascii.eqb c nl then [c] :: lines_of rest else match lines_of rest with [] => [[c]] | l :: ls => (c :: l) :: ls end
  end.

Lemma concat_lines_of s : concat (lines_of s) = s.
Proof.
  induction s as [|c s IH]; [done|]. cbn [lines_of]. destruct (Ascii.eqb c nl); cbn [concat app]; [by rewrite IH|].
  destruct (lines_of s) as [|l ls]; cbn in *; by rewrite <- IH.
Qed.

Lemma lines_of_line l rest : nl ∉ l -> lines_of (l ++ nl :: rest) = (l ++ [nl]) :: lines_of rest.
Proof.
  induction l as [|c l IH]; intros H; [by cbn|]. cbn [app lines_of].
  destruct (Ascii.eqb_spec c nl) as [->|_]; [set_solver|]. rewrite IH by set_solver. done.
Qed.

Lemma lines_of_last l : nl ∉ l -> lines_of l = match l with [] => [] | _ => [l] end.
Proof.
  induction l as [|c l IH]; intros H; [done|]. cbn [lines_of]. destruct (Ascii.eqb_spec c nl) as [->|_]; [set_solver|].
  rewrite IH by set_solver. by destruct l.
Qed.

Definition written (show_progress : bool) (s : str) : str := concat (map (fun l => write_line l show_progress) (lines_of s)).

Lemma written_line show l s : nl ∉ l -> written show ((l ++ [nl]) ++ s) = write_line (l ++ [nl]) show ++ written show s.
Proof. intros H. unfold written. rewrite <- app_assoc. cbn [app]. by rewrite lines_of_line. Qed.

Lemma written_last show l : nl ∉ l -> written show l = write_line l show.
Proof. intros H. unfold written. rewrite lines_of_last by done. destruct l; [done|]. cbn [map concat]. by rewrite app_nil_r. Qed.

(** The characters are split into complete lines, which are written, and the
    line so far. *)
Lemma take_chars show line out s : nl ∉ line ->
  exists complete line', line ++ s = complete ++ line' /\ nl ∉ line' /\ (complete = [] \/ last complete = Some nl) /\
    (forall rest, written show (complete ++ rest) = written show complete ++ written show rest) /\
    fold_left (take_char show) s (line, out) = (line', out ++ written show complete).
Proof.
  revert line out. induction s as [|c s IH]; intros line out Hl; cbn [fold_left].
  - exists [], line. rewrite !app_nil_r. split_and!; auto.
  - cbn [take_char]. destruct (Ascii.eqb_spec c nl) as [->|Hc].
    + destruct (IH [] (out ++ write_line (line ++ [nl]) show) ltac:(set_solver)) as (complete & line' & E & H1 & H2 & H3 & ->).
      exists ((line ++ [nl]) ++ complete), line'. cbn [app] in E. subst s. split_and!; [by rewrite <- !app_assoc|done| | |].
      * right. destruct H2 as [->|H2]; [by rewrite app_nil_r, last_snoc|]. by rewrite last_app, H2.
      * intros rest. by rewrite <- (app_assoc (line ++ [nl])), !written_line, H3, app_assoc.
      * by rewrite written_line, app_assoc.
    + destruct (IH (line ++ [c]) out ltac:(set_solver)) as (complete & line' & E & H). exists complete, line'. by rewrite <- app_assoc in E.
Qed.

Lemma take_chunks show chunks st : fold_left (take_chunk show) chunks st = fold_left (take_char show) (concat chunks) st.
Proof. revert st. induction chunks as [|c chunks IH]; intros st; [done|]. cbn [fold_left concat]. by rewrite fold_left_app, <- IH. Qed.

(** The lines that are shown. *)
Definition shown (show_progress : bool) (s : str) : str :=
  concat (filter (fun l => show_progress || negb (prefixb PROGRESS_PREFIX l || prefixb BEGIN_PREFIX l)) (lines_of s)).

Lemma written_shown show s : written show s = shown show s.
Proof.
  unfold written, shown. induction (lines_of s) as [|l ls IH]; [done|]. cbn [map concat]. rewrite IH, filter_cons. unfold write_line.
  destruct l as [|c l]; [by destruct (decide _)|]. destruct show; [done|]. cbn [negb orb andb].
  by destruct (prefixb PROGRESS_PREFIX (c :: l) || prefixb BEGIN_PREFIX (c :: l)).
Qed.

Lemma bugreportz_to_the_end strerror_text chunks show_progress :
  bugreportz strerror_text chunks None show_progress = (EXIT_SUCCESS, shown show_progress (concat chunks)).
Proof.
  destruct (take_chars show_progress [] [] (concat chunks) ltac:(set_solver)) as (complete & line & E & H1 & H2 & H3 & Hf). cbn [app] in E.
  unfold bugreportz. rewrite take_chunks, Hf. cbn [app]. rewrite <- (written_last show_progress line) by done.
  by rewrite <- H3, <- E, written_shown.
Qed.

(** C16: [bugreportz] writes the lines that it receives, whatever pieces they
    arrive in: all of them with [-p], and without it those that start with
    neither [BEGIN:] nor [PROGRESS:]; a last line without an end counts. When
    reading fails, the line that is not complete is dropped, a line [FAIL:]
    follows and the exit code says so. *)
Theorem bugreportz_relays strerror_text chunks read_error show_progress :
  match read_error with
  | None => bugreportz strerror_text chunks None show_progress = (EXIT_SUCCESS, shown show_progress (concat chunks))
  | Some e =>
      exists complete line, concat chunks = complete ++ line /\ nl ∉ line /\ (complete = [] \/ last complete = Some nl) /\
        bugreportz strerror_text chunks (Some e) show_progress =
        (EXIT_FAILURE, shown show_progress complete ++ lit "FAIL:Bugreport read terminated abnormally (" ++
                       strerror_text (if e =? EAGAIN then ETIMEDOUT else e) ++ lit ")" ++ [nl])
  end.
Proof.
  destruct read_error as [e|]; [|apply bugreportz_to_the_end].
  destruct (take_chars show_progress [] [] (concat chunks) ltac:(set_solver)) as (complete & line & E & H1 & H2 & H3 & Hf). cbn [app] in E.
  unfold bugreportz. rewrite take_chunks, Hf. exists complete, line. by rewrite written_shown.
Qed.

(** [bugreport] writes what it reads when every [write] takes something. *)
Lemma write_all_complete piece writes out : Forall (fun w => 0 < w) writes -> (length piece <= length writes)%nat -> piece <> [] ->
  exists rest, write_all piece writes out = (rest, out ++ piece, true) /\ Forall (fun w => 0 < w) rest /\ (length writes <= length rest + length piece)%nat.
Proof.
  revert piece out. induction writes as [|w writes IH]; intros piece out Hw Hl Hp; [by destruct piece; [|cbn in Hl; lia]|].
  apply Forall_cons in Hw as [Hw Hws]. cbn [write_all]. destruct (Z.eqb_spec w (-1)); [lia|].
  assert (Hn : (0 < Z.to_nat w)%nat) by lia. destruct (drop (Z.to_nat w) piece) as [|c rest] eqn:E.
  - exists writes. cbn [length] in *. assert (take (Z.to_nat w) piece = piece) as ->.
    { apply take_ge. apply (f_equal length) in E. rewrite length_drop in E. cbn in E. lia. }
    split_and!; [done|done|]. destruct piece; cbn; [done|lia].
  - destruct (Z.eqb_spec w 0); [lia|]. assert (Hlen : (length piece = Z.to_nat w + length (c :: rest))%nat).
    { rewrite <- E, length_drop. apply (f_equal length) in E. rewrite length_drop in E. cbn in E. lia. }
    cbn [length] in *. destruct (IH (c :: rest) (out ++ take (Z.to_nat w) piece) Hws) as (rest' & -> & H1 & H2); [cbn in *; lia|done|].
    exists rest'. rewrite <- app_assoc, <- E, take_drop. split_and!; [done|done|]. cbn in *. lia.
Qed.

Lemma copy_report_complete chunks writes out : Forall (fun w => 0 < w) writes -> Forall (fun c => c <> []) chunks ->
  (length (concat chunks) <= length writes)%nat -> copy_report chunks writes out = (out ++ concat chunks, true).
Proof.
  revert writes out. induction chunks as [|c chunks IH]; intros writes out Hw Hc Hl; [by rewrite app_nil_r|].
  apply Forall_cons in Hc as [Hc Hcs]. cbn [concat] in *. rewrite length_app in Hl.
  destruct (write_all_complete c writes out Hw) as (rest & E & Hr & Hlen); [lia|done|].
  cbn [copy_report]. rewrite E, IH by (done || lia). by rewrite app_assoc.
Qed.
