(* ===== verification/DumpControl.v ===== *)
(** The protocol of [bugreportz]: what a run of [dumpstate] writes to the control
    socket, and what is left of it after the relay. *)

From S2P Require Import Prelude CLib DumpProgress DumpSystem DumpOptions DumpCommands DumpZip Dumpsys DumpSections DumpRun DumpSafety Bugreportz.

Open Scope list_scope.
Open Scope Z_scope.

(** What has been written to the socket. *)
Fixpoint control_text (h : history) : str :=
  match h with
  | [] => []
  | (Print Control text, _) :: h => control_text h ++ text
  | _ :: h => control_text h
  end.

Lemma control_text_app l base : control_text (l ++ base) = control_text base ++ control_text l.
Proof.
  induction l as [|[q a] l IH]; [by rewrite app_nil_r|]. cbn [app control_text]. destruct q; try exact IH. destruct to; try exact IH.
  by rewrite IH, app_assoc.
Qed.

(** A line that [bugreportz] does not show. *)
Definition hidden (text : str) : Prop :=
  exists body, text = body ++ [nl] /\ nl ∉ body /\ prefixb PROGRESS_PREFIX text || prefixb BEGIN_PREFIX text = true.

Lemma shown_line show body rest : nl ∉ body -> shown show ((body ++ [nl]) ++ rest) = write_line (body ++ [nl]) show ++ shown show rest.
Proof. intros H. rewrite <- !written_shown. by apply written_line. Qed.

Lemma hidden_shown text rest : hidden text -> shown false (text ++ rest) = shown false rest.
Proof.
  intros (body & -> & Hb & Hp). rewrite shown_line by done. unfold write_line. destruct (body ++ [nl]) eqn:E; [done|].
  cbn [negb andb]. by rewrite Hp.
Qed.

Definition discreet (r : request) : Prop := match r with Print Control text => hidden text | _ => True end.

Lemma discreet_text l rest : Forall (fun e => discreet (fst e)) l -> shown false (control_text l ++ rest) = shown false rest.
Proof.
  intros H. revert rest. induction H as [|[q a] l Hq _ IH]; intros rest; [done|]. cbn [fst] in Hq. cbn [control_text].
  destruct q; try apply IH. destruct to; try apply IH. rewrite <- app_assoc, IH. by apply hidden_shown.
Qed.

Lemma fmt_d_no_nl z : nl ∉ fmt_d z.
Proof. by apply numeral_not, fmt_d_numeral. Qed.

Lemma section_discreet q : section_request q -> discreet q.
Proof.
  destruct q; try done. destruct to; try done. intros (p & m & ->). exists (lit "PROGRESS:" ++ fmt_d p ++ lit "/" ++ fmt_d m).
  unfold progress_text, newline. split_and!; [by rewrite !app_assoc| |done].
  rewrite !elem_of_app. intros [H|[H|[H|H]]]; try (by revert H; apply fmt_d_no_nl); revert H; by apply (bool_decide_eq_false_1 _).
Qed.

(** Names without an end of line. *)
Definition clean (r : Run) : Prop :=
  nl ∉ bugreport_internal_dir_ r /\ nl ∉ base_name_ r /\ nl ∉ name_ r /\ nl ∉ path_ r /\ nl ∉ log_path_ r.

Lemma GetPath_clean r suffix : clean r -> nl ∉ suffix -> nl ∉ GetPath r suffix.
Proof.
  intros (H1 & H2 & H3 & _) Hs. unfold GetPath. rewrite !elem_of_app, !elem_of_cons, !elem_of_app.
  intros [H|[H|[H|[H|[H|H]]]]]; try done. revert H. by apply (bool_decide_eq_false_1 _).
Qed.

Lemma set_path_clean r path : clean r -> nl ∉ path -> clean (set_path path r).
Proof. intros (? & ? & ? & _ & ?) Hp. by split_and!. Qed.

Section Control.
Context {sys : System}.

(** What the system gives for a name has no end of line. *)
Hypothesis properties_clean : forall h key, nl ∉ property h key.
Hypothesis links_clean : forall h path target, readlink h path = Some target -> nl ∉ target.
Hypothesis dates_clean : forall t, nl ∉ fmt_date t.

(** [says m s line]: of what [m] writes to the socket, [bugreportz] shows [line]. *)
Definition says {A} (m : D A) (s : state) (line : str) : Prop :=
  clean (run (snd (m s))) /\
  exists l, past (snd (m s)) = l ++ past s /\ forall rest, shown false (control_text l ++ rest) = line ++ shown false rest.

Definition hushed {A} (m : D A) : Prop := forall s, clean (run s) -> says m s [].

Lemma says_bind {A B} (m : D A) (f : A -> D B) s t1 t2 :
  says m s t1 -> (clean (run (snd (m s))) -> says (f (fst (m s))) (snd (m s)) t2) -> says (D_bind m f) s (t1 ++ t2).
Proof.
  intros [C1 (l1 & P1 & F1)] Hf. destruct (Hf C1) as [C2 (l2 & P2 & F2)]. unfold says. rewrite D_bind_eq. split; [done|].
  exists (l2 ++ l1). split; [by rewrite P2, P1, app_assoc|]. intros rest. by rewrite control_text_app, <- app_assoc, F1, F2, app_assoc.
Qed.

Lemma hushed_bind {A B} (m : D A) (f : A -> D B) : hushed m -> (forall a, hushed (f a)) -> hushed (D_bind m f).
Proof. intros Hm Hf s Hs. change ([] : str) with ([] ++ [] : str). apply says_bind; [by apply Hm|]. intros Hs'. by apply Hf. Qed.

Lemma hushed_pure {A} (m : D A) : (forall s, clean (run s) -> clean (run (snd (m s))) /\ past (snd (m s)) = past s) -> hushed m.
Proof. intros H s Hs. destruct (H s Hs) as [H1 H2]. split; [done|]. by exists []. Qed.

Lemma hushed_ret {A} (a : A) : hushed (mret a).
Proof. by apply hushed_pure. Qed.

Lemma hushed_sections {A} (m : D A) : sections m -> hushed m.
Proof.
  intros H s Hs. destruct (H s) as [E (l & P & F)]. split; [by rewrite <- E|]. exists l. split; [done|]. intros rest.
  apply discreet_text. eapply Forall_impl; [exact F|]. intros e. apply section_discreet.
Qed.

Lemma hushed_get_run {A B} (f : Run -> A) (k : A -> D B) : (forall r, clean r -> hushed (k (f r))) -> hushed (D_bind (get_run f) k).
Proof.
  intros H s Hs. change ([] : str) with ([] ++ [] : str). apply says_bind; [by apply (hushed_pure (get_run f))|]. intros _. exact (H (run s) Hs s Hs).
Qed.

Lemma hushed_ask {A B} (Q : A -> Prop) (q : history -> A) (k : A -> D B) : (forall h, Q (q h)) -> (forall a, Q a -> hushed (k a)) -> hushed (D_bind (ask q) k).
Proof.
  intros HQ H s Hs. change ([] : str) with ([] ++ [] : str). apply says_bind; [by apply (hushed_pure (ask q))|]. intros _. exact (H (q (past s)) (HQ (past s)) s Hs).
Qed.

Lemma hushed_set_run f : (forall r, clean r -> clean (f r)) -> hushed (set_run f).
Proof. intros H. apply hushed_pure. intros s Hs. split; [by apply H|done]. Qed.

Lemma hushed_when b m : hushed m -> hushed (when_ b m).
Proof. intros H. destruct b; [done|apply hushed_ret]. Qed.

Lemma hushed_hidden text : hidden text -> hushed (do_ (Print Control text)).
Proof.
  intros H s Hs. split; [done|]. eexists [_]. split; [done|]. intros rest. cbn [control_text fst]. rewrite app_nil_l. by apply hidden_shown.
Qed.

Lemma hushed_do r : discreet r -> hushed (do_ r).
Proof.
  intros H s Hs. split; [done|]. eexists [(r, _)]. split; [done|]. intros rest. rewrite app_nil_l.
  apply (discreet_text [(r, _)]). by repeat constructor.
Qed.

Lemma hushed_req r : discreet r -> hushed (req r).
Proof. apply hushed_do. Qed.

Ltac hushed_tac :=
  repeat first
    [ match goal with
      | |- hushed (D_bind (get_run _) _) => apply hushed_get_run; intros ? ?
      | |- hushed (D_bind _ _) => apply hushed_bind; [|intros ?]
      | |- hushed (mret _) => apply hushed_ret
      | |- hushed (when_ _ _) => apply hushed_when
      | |- hushed (set_run _) => apply hushed_set_run; intros ? ?; try assumption
      | |- hushed (req _) => apply hushed_req; exact I
      | |- hushed (let '(_, _) := ?x in _) => destruct x
      | |- hushed (match ?x with _ => _ end) => destruct x
      end
    | progress cbv zeta
    | match goal with |- hushed _ => solve [apply hushed_sections; first [solve [auto with dump]|section_tac]] end ].

(** ** Names *)

Lemma property_or_clean h key other : nl ∉ lit other -> nl ∉ property_or h key other.
Proof. intros H. unfold property_or. pose proof (properties_clean h (lit key)) as Hp. by destruct (property h (lit key)). Qed.

Lemma prepare_names_hushed : hushed prepare_names.
Proof.
  unfold prepare_names. apply hushed_get_run. intros r Hr.
  apply (hushed_ask (fun l => forall t, l = Some t -> nl ∉ t)); [intros h t Ht; by eapply links_clean|]. intros link Hlink.
  apply (hushed_ask (fun b => nl ∉ b)); [intros h; by apply property_or_clean, (bool_decide_eq_false_1 _)|]. intros build Hbuild.
  apply (hushed_ask (fun b => nl ∉ b)); [intros h; by apply property_or_clean, (bool_decide_eq_false_1 _)|]. intros device Hdevice.
  apply hushed_set_run. intros r' (Hdir & Hbase & Hname & Hpath & Hlog).
  assert (H1 : nl ∉ default (bugreport_internal_dir_ r) link) by (destruct link as [t|]; [by apply Hlink|apply Hr]).
  assert (H2 : nl ∉ (if do_add_date (options_ r') then fmt_date (now_ r') else lit "undated")).
  { destruct (do_add_date _); [apply dates_clean|by apply (bool_decide_eq_false_1 _)]. }
  assert (H3 : nl ∉ lit "bugreport-" ++ device ++ lit "-" ++ build ++
                    (if telephony_only (options_ r') then lit "-telephony" else if wifi_only (options_ r') then lit "-wifi" else [])).
  { rewrite !elem_of_app. intros [H|[H|[H|[H|H]]]]; try done; revert H; try (by apply (bool_decide_eq_false_1 _)).
    destruct (telephony_only _); [by apply (bool_decide_eq_false_1 _)|]. destruct (wifi_only _); by apply (bool_decide_eq_false_1 _). }
  cbv zeta. split_and!; try done. apply GetPath_clean; [by split_and!|].
  rewrite !elem_of_app. intros [H|[H|H]]; revert H; try (by apply (bool_decide_eq_false_1 _)). apply fmt_d_no_nl.
Qed.

Lemma PrepareToWriteToFile_hushed : hushed PrepareToWriteToFile.
Proof.
  unfold PrepareToWriteToFile. hushed_tac; [apply prepare_names_hushed|].
  by apply set_path_clean, GetPath_clean; [..|apply (bool_decide_eq_false_1 _)].
Qed.

Lemma valid_name_clean name : valid_name name = true -> nl ∉ name.
Proof.
  intros [_ H]%andb_true_iff Hin%list_elem_of_In. rewrite forallb_forall in H. by specialize (H _ Hin).
Qed.

Lemma change_suffix_hushed : hushed change_suffix.
Proof.
  unfold change_suffix. apply hushed_get_run. intros pid _. apply hushed_bind; [apply hushed_sections; section_tac|]. intros name.
  destruct (valid_name name) eqn:E; [|apply hushed_ret]. cbn [when_]. hushed_tac.
  match goal with H : clean ?r |- clean (set_name _ ?r) => destruct H as (? & ? & ? & ? & ?) end.
  split_and!; try done. by apply valid_name_clean.
Qed.

Lemma FinishZipFile_hushed : hushed FinishZipFile.
Proof. unfold FinishZipFile, redirect_to_existing_file. hushed_tac. Qed.

(** ** The last line *)

Definition ok_line (path : str) : str := lit "OK:" ++ path ++ newline.
Definition fail_line (log : str) : str := lit "FAIL:could not create zip file, check " ++ log ++ lit " for more details" ++ newline.
Definition result_line (r : Run) (line : str) : Prop := line = ok_line (path_ r) \/ line = fail_line (log_path_ r).

Lemma result_shown r line rest : clean r -> result_line r line -> shown false (line ++ rest) = line ++ shown false rest.
Proof.
  intros (_ & _ & _ & Hp & Hl) [->| ->].
  - unfold ok_line, newline. rewrite (app_assoc (lit "OK:")), shown_line; [done|].
    rewrite elem_of_app. intros [H|H]; [|done]. revert H. by apply (bool_decide_eq_false_1 _).
  - unfold fail_line, newline. rewrite !(app_assoc (lit "FAIL:could not create zip file, check ")), (app_assoc _ (lit " for more details")), shown_line; [done|].
    rewrite !elem_of_app. intros [[H|H]|H]; try done; revert H; by apply (bool_decide_eq_false_1 _).
Qed.

Lemma place_file_hushed : hushed place_file.
Proof.
  unfold place_file. hushed_tac; try apply change_suffix_hushed; try apply FinishZipFile_hushed.
  - by apply set_path_clean, GetPath_clean; [..|apply (bool_decide_eq_false_1 _)].
  - by apply set_path_clean, GetPath_clean; [..|apply (bool_decide_eq_false_1 _)].
  - by apply set_path_clean; [|apply not_elem_of_nil].
Qed.

(** The last line is the result, with the path that the run ends with. *)
Lemma FinalizeFile_says s : clean (run s) ->
  exists line, says FinalizeFile s line /\
    if use_control_socket (options_ (run s)) then result_line (run (snd (FinalizeFile s))) line else line = [].
Proof.
  intros Hs. unfold FinalizeFile. pose proof (place_file_hushed s Hs) as Hp.
  destruct (place_file_quietly s) as [(_ & _ & _ & Hc & _) _]. rewrite D_bind_eq. cbn [get_run].
  assert (H1 : clean (run (snd (place_file s)))) by apply Hp.
  set (line := if fst (place_file s) then ok_line (path_ (run (snd (place_file s)))) else fail_line (log_path_ (run (snd (place_file s))))).
  assert (Hline : result_line (run (snd (place_file s))) line) by (unfold line, result_line; destruct (fst (place_file s)); auto).
  exists (if use_control_socket (options_ (run s)) then line else []). rewrite <- Hc. split.
  - change (if use_control_socket (options_ (run (snd (place_file s)))) then line else []) with ([] ++ (if use_control_socket (options_ (run (snd (place_file s)))) then line else [] : str)).
    apply says_bind; [done|]. intros _. unfold says. rewrite !D_bind_eq. cbn [get_run fst snd].
    destruct (use_control_socket _); cbn [when_]; (split; [done|]); [|by exists []]. eexists [_]. split; [done|]. intros rest.
    cbn [control_text]. rewrite app_nil_l. by apply (result_shown (run (snd (place_file s))) line).
  - rewrite !D_bind_eq. cbn [get_run fst snd]. destruct (use_control_socket _); [|done]. exact Hline.
Qed.

(** ** The rest of a run *)

Lemma begin_hidden r : clean r -> hidden (lit "BEGIN:" ++ path_ r ++ newline).
Proof.
  intros (_ & _ & _ & Hp & _). exists (lit "BEGIN:" ++ path_ r). split_and!; [by rewrite <- app_assoc| |done].
  rewrite elem_of_app. intros [H|H]; [|done]. revert H. by apply (bool_decide_eq_false_1 _).
Qed.

Lemma announce_hushed : hushed announce.
Proof.
  unfold announce. hushed_tac; [apply PrepareToWriteToFile_hushed|]. by apply hushed_hidden, begin_hidden.
Qed.

Lemma start_run_hushed uid package : hushed (start_run uid package).
Proof.
  unfold start_run, protect, CheckUserConsent, begin_run, open_sockets, redirect_to_socket. hushed_tac. all: apply announce_hushed.
Qed.

Lemma dump_report_hushed cmdline : hushed (dump_report cmdline).
Proof. unfold dump_report. hushed_tac. Qed.

Lemma finish_run_hushed : hushed finish_run.
Proof. unfold finish_run, clean_up, getResult. hushed_tac. Qed.

Lemma CopyBugreport_hushed : hushed CopyBugreportIfUserConsented.
Proof. unfold CopyBugreportIfUserConsented, CopyFileToFd, unlink. hushed_tac. Qed.

Lemma copy_for_caller_hushed o : hushed (copy_for_caller o).
Proof. unfold copy_for_caller, CopyFileToFd, unlink. hushed_tac; apply CopyBugreport_hushed. Qed.

(** After the last line the names stay. *)
Abbreviation stays := (effects (=) (fun _ => True)).

Lemma sections_stay {A} (m : D A) : sections m -> stays m.
Proof. intros H. by apply (effects_weaken _ _ _ _ _ H). Qed.

Ltac stays_tac :=
  repeat first
    [ progress adds_tac ltac:(exact I)
    | match goal with |- effects _ _ _ => solve [apply sections_stay; first [solve [auto with dump]|section_tac]] end ].

Lemma copy_for_caller_stays o : stays (copy_for_caller o).
Proof. unfold copy_for_caller, CopyBugreportIfUserConsented, CopyFileToFd, unlink. stays_tac. Qed.

Lemma finish_run_stays : stays finish_run.
Proof. unfold finish_run, clean_up, getResult. stays_tac. Qed.

Lemma says_hushed {A B} (m : D A) (f : A -> D B) s line : says m s line -> (forall a, hushed (f a)) -> says (D_bind m f) s line.
Proof. intros Hm Hf. rewrite <- (app_nil_r line). apply says_bind; [done|]. intros H. by apply Hf. Qed.

Lemma hushed_says {A B} (m : D A) (f : A -> D B) s line : says m s [] -> (clean (run (snd (m s))) -> says (f (fst (m s))) (snd (m s)) line) -> says (D_bind m f) s line.
Proof. intros Hm Hf. change line with ([] ++ line). by apply says_bind. Qed.

(** Whether a result is due. *)
Definition due (o : DumpOptions) : bool := use_control_socket o && negb (use_socket o).

(** A run that gets to its file says how that went. *)
Lemma share_report_says s : clean (run s) ->
  exists line, says share_report s line /\
    if due (options_ (run s)) then result_line (run (snd (share_report s))) line else line = [].
Proof.
  intros Hs. unfold share_report, due. rewrite !D_bind_eq. cbn [get_run fst snd]. unfold OutputToFile. destruct (use_socket (options_ (run s))) eqn:E; cbn [negb when_].
  - exists []. rewrite andb_false_r. split; [|done]. apply hushed_says; [by apply (hushed_pure (get_run options_))|]. intros _. cbn [get_run fst snd]. rewrite E.
    cbn [negb when_]. do 2 (apply hushed_says; [by apply hushed_ret|]; intros _). by apply copy_for_caller_hushed.
  - set (s1 := snd (do_ (Restore Stdout) s)). destruct (FinalizeFile_says s1 Hs) as (line & H1 & H2). exists line. rewrite andb_true_r. split.
    + apply hushed_says; [by apply (hushed_pure (get_run options_))|]. intros _. cbn [get_run fst snd]. rewrite E. cbn [negb when_].
      apply hushed_says; [by apply hushed_do|]. intros _. apply says_hushed; [done|]. intros _. apply copy_for_caller_hushed.
    + destruct (copy_for_caller_stays (options_ (run s)) (snd (FinalizeFile s1))) as [<- _]. exact H2.
Qed.

Lemma says_to {A B} (m : D A) (f : A -> D B) s a s1 line :
  m s = (a, s1) -> says m s [] -> (clean (run s1) -> says (f a) s1 line) -> says (D_bind m f) s line.
Proof. intros E Hm Hf. apply hushed_says; [done|]. by rewrite E. Qed.

Lemma start_run_header uid package s : fst (start_run uid package s) = inr OK -> show_header_only (options_ (run s)) = true.
Proof.
  unfold start_run. rewrite D_bind_eq. cbn [get_run fst snd]. destruct (negb (ValidateOptions _)); [done|]. do 3 rewrite D_bind_eq.
  destruct (_ && _); [done|]. destruct (show_header_only _); [done|]. intros E. exfalso. revert E.
  match goal with |- fst (?m ?s) = _ -> _ => assert (H : returns (fun r => r <> inr OK) m); [|exact (H s)] end.
  returns_tac; by repeat case_match.
Qed.

Lemma same_due r r' : same_caller r r' -> due (options_ r') = due (options_ r).
Proof. intros (_ & _ & _ & H1 & H2). unfold due. by rewrite H1, H2. Qed.

Lemma result_not_empty r line : result_line r line -> line <> [].
Proof. by intros [->| ->]. Qed.

(** What is shown of a run: a result, unless it ends before. *)
Lemma RunInternal_says uid package s : clean (run s) ->
  let '(ended, s') := RunInternal uid package s in
  exists line, says (RunInternal uid package) s line /\ (line = [] \/ result_line (run s') line) /\
    ((ended = None /\ ~ no_traces s') \/ ended = Some OK \/ ended = Some USER_CONSENT_TIMED_OUT -> due (options_ (run s)) = true -> show_header_only (options_ (run s)) = false -> line <> []).
Proof.
  intros Hs. unfold RunInternal at 1. rewrite D_bind_eq. pose proof (start_run_hushed uid package s Hs) as H1.
  pose proof (start_run_status uid package s) as S1. pose proof (start_run_header uid package s) as Hh.
  pose proof (proj1 (start_run_quietly uid package s)) as Q1.
  destruct (start_run uid package s) as [[cmdline|status] s1] eqn:E1; cbn [fst snd] in *.
  2: { exists []. split_and!; [unfold RunInternal; eapply says_to; [exact E1|done|]; by apply hushed_ret|by left|].
    intros [[Hn _]|[[= ->]|[= ->] ] ] _ Hno; [done|by rewrite Hh in Hno|by destruct S1 as [|[|]]]. }
  pose proof (proj1 H1) as C1. rewrite E1 in C1. cbn [fst snd] in C1. rewrite D_bind_eq.
  pose proof (dump_report_hushed cmdline s1 C1) as H2. pose proof (dump_report_status cmdline s1) as S2.
  pose proof (proj1 (dump_report_quietly cmdline s1)) as Q2. destruct (dump_report cmdline s1) as [[status|] s2] eqn:E2; cbn [fst snd] in *.
  { exists []. split_and!; [|by left|].
    - unfold RunInternal. eapply says_to; [exact E1|done|]. intros _. eapply says_to; [exact E2|done|]. by apply hushed_ret.
    - destruct status as [status|]; [intros [[Hn _]|[[= ->]|[= ->] ] ]; [done|by destruct S2..]|]. by intros [[_ Hn]|[|] ]. }
  pose proof (proj1 H2) as C2. rewrite E2 in C2. cbn [fst snd] in C2. rewrite D_bind_eq.
  destruct (share_report_says s2 C2) as (line & H3 & R3). rewrite (same_due _ _ Q2), (same_due _ _ Q1) in R3.
  pose proof (proj1 H3) as C3. destruct (share_report s2) as [shared s3] eqn:E3. cbn [fst snd] in *.
  assert (Hrun : forall k : D (option RunStatus), stays k -> run (snd (k s3)) = run s3) by (intros k Hk; by destruct (Hk s3) as [<- _]).
  assert (Hk : stays (match shared with Some status => mret (Some status) | None => finish_run end)).
  { destruct shared; [apply effects_ret, _|apply finish_run_stays]. }
  specialize (Hrun _ Hk). destruct ((match shared with Some status => mret (Some status) | None => finish_run end) s3) as [status s4] eqn:E4.
  cbn [snd] in Hrun. rewrite Hrun. exists line. split_and!.
  - unfold RunInternal. eapply says_to; [exact E1|done|]. intros _. eapply says_to; [exact E2|done|]. intros _.
    apply says_hushed; [done|]. intros [st|]; [apply hushed_ret|apply finish_run_hushed].
  - destruct (due _); [by right|by left].
  - intros _ Hdue _. rewrite Hdue in R3. by eapply result_not_empty.
Qed.
End Control.

(** * Theorem *)

(** C12: what [bugreportz] shows of a run, in whatever pieces it arrives, is at
    most one line: [OK:] with the path that the run ends with, or [FAIL:] with
    that of the log. It is there whenever the run ends with [OK], without an
    answer of the user or in the crash of a remote one, with the option [-S] and
    not only a header to print; so progress lines, which may come before
    [BEGIN:] and after the result, never show. *)
Theorem control_socket_result {sys : System} strerror_text uid package s chunks :
  (forall h key, nl ∉ property h key) ->
  (forall h path target, readlink h path = Some target -> nl ∉ target) ->
  (forall t, nl ∉ fmt_date t) ->
  clean (run s) -> control_text (past s) = [] ->
  concat chunks = control_text (past (snd (RunDump uid package s))) ->
  exists line, bugreportz strerror_text chunks None false = (EXIT_SUCCESS, line) /\
    (line = [] \/ result_line (run (snd (RunDump uid package s))) line) /\
    ((fst (RunDump uid package s) = None /\ ~ no_traces (snd (RunDump uid package s))) \/ fst (RunDump uid package s) = Some OK \/ fst (RunDump uid package s) = Some USER_CONSENT_TIMED_OUT ->
     due (options_ (run s)) = true -> show_header_only (options_ (run s)) = false -> line <> []).
Proof.
  intros Hprop Hlink Hdate Hs Hpast Hchunks. pose proof (RunInternal_says Hprop Hlink Hdate uid package s Hs) as H.
  destruct (RunInternal uid package s) as [ended s1] eqn:E1.
  destruct H as (line & [_ (l & P & F)] & Hline & Hdue). rewrite E1 in P. cbn [snd] in P.
  assert (Hlast : fst (RunDump uid package s) = ended /\ run (snd (RunDump uid package s)) = run s1 /\
    control_text (past (snd (RunDump uid package s))) = control_text (past s1) /\
    (ended = None -> snd (RunDump uid package s) = s1)).
  { unfold RunDump. rewrite D_bind_eq, E1. cbn [fst snd]. destruct ended as [status|]; [|done]. unfold report_status. rewrite !D_bind_eq.
    cbn [get_run fst snd]. by destruct (listener_ (run s1)), status. }
  destruct Hlast as (Ee & Er & Et & Ed). rewrite Ee, Er. rewrite Et, P, control_text_app, Hpast in Hchunks. exists line.
  rewrite bugreportz_to_the_end, Hchunks. split_and!; [|done|].
  - f_equal. specialize (F []). by rewrite !app_nil_r in F.
  - intros [[En Ht]|H]; [|by apply Hdue; right]. rewrite (Ed En) in Ht. apply Hdue. by left.
Qed.

(** ** The service dumpstatez *)

Definition dumpstatez_state : state := fresh (snd (parse_arguments dumpstatez_argv)) false.

Definition dumpstatez_run : option RunStatus * state := RunDump (sys := demo_system (fun _ => 2)) (-1) [] dumpstatez_state.

Lemma dumpstatez_result :
  fst dumpstatez_run = Some OK /\ path_ (run (snd dumpstatez_run)) = demo_zip /\
  prefixb (lit "PROGRESS:") (control_text (past (snd dumpstatez_run))) = false /\
  has_substr (lit "PROGRESS:10/5000") (control_text (past (snd dumpstatez_run))) = true /\
  shown false (control_text (past (snd dumpstatez_run))) = ok_line demo_zip.
Proof. by vm_compute. Qed.

#[local] Opaque RunDump.

Lemma control_socket_result_witness :
  exists line, bugreportz (fun _ => []) [control_text (past (snd dumpstatez_run))] None false = (EXIT_SUCCESS, line) /\
    (line = [] \/ result_line (run (snd dumpstatez_run)) line) /\
    ((fst dumpstatez_run = None /\ ~ no_traces (sys := demo_system (fun _ => 2)) (snd dumpstatez_run)) \/ fst dumpstatez_run = Some OK \/ fst dumpstatez_run = Some USER_CONSENT_TIMED_OUT ->
     due (options_ (run dumpstatez_state)) = true -> show_header_only (options_ (run dumpstatez_state)) = false -> line <> []).
Proof.
  refine (control_socket_result (sys := demo_system (fun _ => 2)) (fun _ => []) (-1) [] dumpstatez_state _ _ _ _ _ _ _).
  - intros h key. apply not_elem_of_nil.
  - intros h path target. discriminate.
  - intros t. by apply (bool_decide_eq_false_1 _).
  - split_and!; by apply (bool_decide_eq_false_1 _).
  - reflexivity.
  - apply app_nil_r.
Defined.
